(* ===== verification/_CoqProject ===== *)
-Q . S2P
Prelude.v
Records.v
Topology.v
Profiles.v
TraceSchema.v
TraceCalls.v
TraceIntegrity.v
TraceSample.v
TraceTheorems.v
TraceLifecycle.v
Manifest.v
ManifestTheorems.v
Rational.v
ExecutionIR.v
Services.v
Domains.v
Replay.v
TaskCache.v
ReplayTheorems.v
Sequence.v
Admission.v
Provider.v
ProviderTheorems.v
Scheduler.v
SchedulerTheorems.v
CycleProvider.v
ScheduleSample.v
CertificateContract.v
OptraceParents.v
Optrace.v
OptraceTheorems.v
Numerical.v
NumericalTheorems.v
SqliteGraph.v
SqliteScheduler.v
ExecutionStore.v
SqliteLinkTheorems.v
SqliteGraphTheorems.v
SqliteStepTheorems.v
SqliteTheorems.v
SqliteArtifacts.v
ExecutionStoreTheorems.v
SqliteSample.v
PipelineContract.v
Lifecycle.v
LifecycleTheorems.v
Forced.v
Pipeline.v
PipelineEdges.v
PipelineTheorems.v
Adapter.v
AdapterTheorems.v
AdapterPipeline.v
Application.v
ApplicationTheorems.v
LifecycleTiming.v
Provenance.v
LifecycleBuild.v
LifecycleBuildTheorems.v
PipelineSample.v
LifecycleSample.v
LifecycleRun.v
CpuIndex.v
CpuIndexTheorems.v
NpuJoin.v
Reconstruct.v
JoinTrace.v
JoinTheorems.v
JoinCalls.v
ReconstructTheorems.v
ReconstructSample.v
StreamAdapter.v
StreamEntries.v
StreamWrites.v
StreamTheorems.v
StreamSample.v
Clock.v
Ooc.v
ClockTheorems.v
