(* ===== verification/Prelude.v ===== *)
(** * IM2P.sim: a verification library for the execution model of the cycle tools

    The repository simulates and evaluates an NPU (Gemmini with block-scaled
    weights).  Its Python part, which this library models, turns recorded
    executions into timed schedules: traces of NPU work are validated, replayed
    through a native cycle library, joined with CPU measurements into an
    execution graph, and scheduled on clocks and resources.  Paths below are
    relative to [src/].

    *** Parts, and the files that model them

    - Records.  [Prelude.v] has the exceptions, the error and state monads,
      dictionaries in insertion order and the shared lemmas; [Records.v] the
      JSON values and accessors of [sim/cycle/npu_trace_schema.py],
      [strict_json.py] and [reconstruct_graph.py].
    - Hardware.  [Profiles.v]: [scripts/gemmini_resolve_profile.py],
      [gemmini_hardware_contract.py], [im2p_config.py],
      [gemmini_replay_contract.py].  [Numerical.v]: the overflow-checking dot
      product of [scripts/numerical_reference.py].
    - Traces.  [TraceSchema.v], [TraceCalls.v] (calls and host stages) and
      [TraceIntegrity.v]: [sim/cycle/npu_trace_*.py], a state machine that
      consumes the records of a trace ([TraceState], [consume], [run_trace]).
      [TraceSample.v] has a complete trace.
      [OptraceParents.v] and [Optrace.v]: the op-trace format of
      [optrace_parents.py], [optrace_schema.py] and [optrace.py], with
      [CertificateContract.v] for [certificate_contract.py].
    - Replay.  [Replay.v]: [npu_trace.py] and [local_replay.py], which ask the cycle library once per distinct work;
      [TaskCache.v]: the persistent answers of [npu_task_cache.py].
    - Stateful sessions.  [Domains.v], [Sequence.v], [Admission.v] and
      [Provider.v]: [sequence_domain.py], [stateful_domain.py],
      [sequence_binding*.py], [execution_sequence_admission.py] and
      [execution_sequence_provider.py], a session of the native engine that
      runs the works of an admitted trace in order.
    - Scheduling.  [Rational.v] has exact time; [ExecutionIR.v], [Services.v]
      and [Scheduler.v] are [execution_ir.py], [execution_services.py] and
      [scheduler.py]; [CycleProvider.v] is [execution_cycle_provider.py].
    - The graph of an execution.  [PipelineContract.v] and [Pipeline.v] are
      [execution_pipeline_contract.py] and [execution_pipeline.py], the declared
      stripe pipeline of the producer and its projection onto the graph;
      [Adapter.v] is [execution_adapter.py] with the admission of results, and
      [Application.v] is [execution_application.py]: together they build the
      graph and services the scheduler takes.
    - The collections behind a graph.  [Manifest.v] reads and compares the
      semantic graphs of a run ([reconstruct_graph.py]); [Lifecycle.v] has the
      token hash and projects the events of a collection onto barriers and
      entries ([execution_lifecycle.py]); [LifecycleBuild.v] builds the lifecycle
      contract the adapter takes from a graph, its events and the results of the
      model ([execution_lifecycle_cli.py]); [Forced.v] has forced runs and their pairing with a sampled one
      ([execution_forced_lifecycle.py], [reconstruct_pairing.py]).
      [Topology.v] is [graphlib]'s order, shared by both kinds of graph.
    - The dataset of a run.  [CpuIndex.v] is the index of measured intervals of
      [reconstruct_cpu.py] and [reconstruct_timing.py], [Provenance.v] the check
      of a collection's provenance (with [collection_native.validate_receipt]),
      [NpuJoin.v] the join of the trace with the results of the model
      ([reconstruct_npu.py]) and [Reconstruct.v] the whole of
      [reconstruct.reconstruct].  What it writes is what the adapter reads.
    - Scheduling from a database.  [ExecutionStore.v] is the store of
      [execution_stream.py] and [StreamAdapter.v] its [adapt_stream], which writes
      a dataset into the store row by row; [SqliteGraph.v] and
      [SqliteScheduler.v] are [scheduler_sqlite.py].

    - Operating clocks.  [Clock.v]: the observations of tested clocks and the
      selection among them ([scripts/evaluation_clock_contract.py] and
      [evaluation_clock.py]); [Ooc.v]: the policy, wrapper, constraint, samples and
      operating clock of out-of-context runs ([evaluation_ooc_policy.py],
      [evaluation_ooc_rtl.py], [evaluation_ooc_report.py]).

    A Python object is a record passed through its methods, a method that may
    raise after it has changed the object a [method]; an exception is a value of
    [exn].  Where the code calls out, the model has a parameter: [Host] for
    digests and the text of JSON, [Native] for the C interface of the engine,
    [Certificates] for certificate validation, [NpuProvider], [PlainProvider]
    and [SequenceProvider] for what the scheduler needs of a provider.  The
    laws of these classes are discharged by instances: the scheduler's theorems
    are proved against [PlainProvider] and [SequenceProvider], and
    [ScheduleSample.v] shows that the stateful provider, the certified provider
    and a phase table implement them.

    *** What the theorems show

    - [TraceTheorems.v], [TraceLifecycle.v], [OptraceTheorems.v]: an accepted
      trace numbers its works densely and tiles the rows of its operations; the
      records of each call are its stages in order with its one work, which it
      requires before it ends, and nothing is open at a phase boundary; the
      declared counts of an op-trace are the true ones and its accounting
      balances.
    - [ReplayTheorems.v], [Replay.v], [TaskCache.v]: the caches are
      transparent, the pooled and serial replays agree, a persistent hit is the
      answer that was stored for the same input, and the published sums are the
      sums of the published rows.  A stored row whose result holds a NaN or an
      infinity makes the lookup raise instead of being quarantined.
    - [ProviderTheorems.v], [CycleProvider.v]: windows do not overlap and stay
      within the certified limits; completion means every work ran once; a
      fault is final; the answers of the drained provider are those of the
      library for the bound requests and agree with one certified case.
    - [SchedulerTheorems.v]: a schedule is a timeline of its graph (order,
      dependencies, resources, clock edges), the loop is greedy in submission
      order and ends without a stall.
    - [PipelineTheorems.v], [ApplicationTheorems.v], [AdapterPipeline.v]: the
      stripes of a projected pipeline tile their parent and release each of its
      works once; what [adapt] returns passes every check of the scheduler's
      gate; and in every timeline of the adapted graph at most two stripes of a
      parent are outstanding and a workspace slot holds one.  The last follows
      from lemmas on timings in any preorder ([PipelineTheorems.v]) and from the
      edges the projection collects ([PipelineEdges.v]).
      [PipelineSample.v] has the dataset they are applied to.
    - [ManifestTheorems.v]: an accepted semantic graph has its phases, graphs,
      nodes and executions complete, and every operand can be found.
    - [LifecycleTheorems.v], [Forced.v]: the events of
      an accepted lifecycle cover the graphs once and come to their end, and the
      sampled tokens are those the next decodes were fed, which a paired forced
      run repeats; the hash that links them is injective on tokens.
    - [LifecycleTiming.v], [LifecycleBuildTheorems.v]: a built contract passes
      the adapter's check, its parents tile their rows, and carried through the
      adapter ([ApplicationTheorems.v]) it makes every timeline run the graphs in
      order and every decode after the sample it is fed.  Both need that no graph
      of the manifest is empty (an empty one orders nothing) and the second that
      no node is named as the exit of a dispatch end.  [LifecycleSample.v] and
      [LifecycleRun.v] have the collections they are applied to.
    - [CpuIndexTheorems.v]: loading keeps the rows of the index apart, an
      ordinary cost is what the records of the loaded FullCPU log claim, complete
      over its workers, and the running-maximum check finds exactly the
      overlapping intervals.
    - [ReconstructTheorems.v]: a reconstructed dataset is a dependency DAG with
      distinct names, its costs are those of the logs counted once, its NPU rows
      answer a valid trace work by work, and the calls of its stripes are chained
      as the pipeline of the adapter needs them, provided equal sorted JSON texts
      of copied fields stand for values that differ in the order of keys at most
      ([dumps_faithful]).  The names of rows determine what they stand for and
      the rows written follow the state of the trace ([JoinTrace.v]); one pass of
      the join and its history, the journal, are in [JoinTheorems.v], the calls
      and the operations in [JoinCalls.v].
      [ReconstructSample.v] has the collections they are applied to.
    - [SqliteArtifacts.v]: the database scheduler refines the in-memory one, by
      a simulation ([SqliteTheorems.v]) over the counts, queues and events
      ([SqliteStepTheorems.v]); what it publishes verifies, and only that does.
      [SqliteLinkTheorems.v] and [SqliteGraphTheorems.v] relate its tables to the
      graph, [SqliteSample.v] has a database.  [ExecutionStoreTheorems.v]: the
      store accepts the acyclic graphs, and what is written to it denotes the
      graph.
    - [StreamTheorems.v]: what [adapt_stream] stores is the adapted dataset, and
      in every timeline of it the entry and exit of an operation bracket its rows
      in the order of submission ([StreamEntries.v], [StreamWrites.v]; sample in
      [StreamSample.v]).
    - [NumericalTheorems.v]: without an overflow the datapath delivers the
      mathematical dot product, and modulo its width always.
    - [ClockTheorems.v]: the constraint written for a frequency denotes its
      period; a clock that is not rejected meets every limit; the clock selected
      is the best of those that passed, and an operating clock that loads is that
      clock for the verified samples it names.
    - [Profiles.v], [ExecutionIR.v], [Services.v], [Domains.v]: accepted
      inputs are exactly the well-formed ones, and record forms round trip.

    *** Loops and fuel

    Recursion that is not structural takes fuel, and returns [OutOfFuel] or
    [false] when it is used up.  [schedule_fuel] is two passes per node, and
    [sqlite_fuel] eight passes per node and eight more; the theorems on both
    loops show that this is enough.  [advance_loop] has one pass per 65,536 edges of the session
    limit ([ADVANCE_FUEL], 15,260); [sort_rounds] and [visit_loop] one round
    per node; [evaluate_loop] one pass per product.  Each has a theorem that the loop
    comes to its end.

    *** Not modelled

    - Foreign code: the C++, BSV, Scala and Rust sources, [ctypes], [sqlite3]
      beyond the tables and keys written out, SHA-256, the text syntax of JSON.
      A heap queue is a sorted list.
    - Files: copying, atomic publication, storage budgets, command lines, the
      collection of measurements, builds, board access and reports.
    - Certificate validation compares recorded evidence with digests and
      constants pinned in the sources; the accessors and the check of one case
      are modelled, the families of evidence are data.

    *** Plan

    Done: records, hardware, traces, op-traces, replay and caches, stateful
    sessions, the scheduler, the database scheduler and the store, the pipeline
    and the adapter with its streaming form, the semantic graphs, the lifecycles
    with their contracts, the reconstruction and the operating clocks.  Left
    beside the parts listed above: the preparation of replay evaluations and the
    capture of measurements, whose logic is the handling of files. *)
From stdpp Require Export base decidable strings list option numbers pretty sets gmap.
From Stdlib Require Export Ascii Lia ZArith Sorted.

Set Default Goal Selector "!".
Set Warnings "-clear-no-such-hyp,-register-all".

(** ** Exceptions and the error monad *)

(** The exception classes the modelled code raises, each with the text its
    constructor receives.  [NpuTraceError], [ExecutionError], [TraceError],
    [ParentError], [CertificateError], [StatefulProviderError], [StatefulCertificateError], [StateDomainError],
    [DomainRevisionError], [ConfigError], [ContractError] and [ClockError] are
    the project's own subclasses of [ValueError]; the rest are Python's.
    [OutOfFuel] is not an exception: a loop of the model that may run on
    returns it when its fuel is used up. *)
Inductive exn : Type :=
  | NpuTraceError (detail : string)
  | ExecutionError (detail : string)
  | TraceError (detail : string)
  | ParentError (detail : string)
  | CertificateError (detail : string)
  | StatefulProviderError (boundary detail : string)
  | StateDomainError (boundary detail : string)
  | StatefulCertificateError (boundary detail : string)
  | DomainRevisionError (profile revision : string)
  | ConfigError (detail : string)
  | ContractError (detail : string)
  | ClockError (detail : string)
  | BuildFailure (reason detail : string)
  | SequenceError (code : Z) (operation : string)
  | ValueError (detail : string)
  | KeyError (key : string)
  | TypeError (detail : string)
  | AttributeError (detail : string)
  | IndexError (detail : string)
  | OverflowError (detail : string)
  | ZeroDivisionError (detail : string)
  | IntegrityError (detail : string)
  | OSError (detail : string)
  | StopIteration
  | OutOfFuel.

Inductive res (A : Type) : Type :=
  | Ok (a : A)
  | Err (e : exn).
Arguments Ok {_} _.
Arguments Err {_} _.

#[export] Instance res_ret : MRet res := fun _ a => Ok a.
#[export] Instance res_bind : MBind res := fun _ _ f m =>
  match m with Ok a => f a | Err e => Err e end.
#[export] Instance res_map : FMap res := fun _ _ f m =>
  match m with Ok a => Ok (f a) | Err e => Err e end.

(** [check b e] is [if not b: raise e]. *)
Definition check (b : bool) (e : exn) : res unit := if b then Ok tt else Err e.

(** Python's short-circuit [and] and [or] over operands that may raise. *)
Definition and_then (m1 m2 : res bool) : res bool :=
  match m1 with Ok true => m2 | Ok false => Ok false | Err e => Err e end.
Definition or_else (m1 m2 : res bool) : res bool :=
  match m1 with Ok true => Ok true | Ok false => m2 | Err e => Err e end.

Declare Scope py_scope.
Delimit Scope py_scope with py.
Notation "m1 'andM' m2" := (and_then m1 m2) (at level 75, right associativity) : py_scope.
Notation "m1 'orM' m2" := (or_else m1 m2) (at level 76, right associativity) : py_scope.
Notation "'let*' x ':=' m 'in' k" := (mbind (M := res) (fun x => k) m)
  (at level 10, x pattern, m at level 100, k at level 200) : py_scope.
Notation "m ';;;' k" := (mbind (M := res) (fun _ : unit => k) m)
  (at level 190, right associativity) : py_scope.
Open Scope py_scope.

(** [require(cond, ...)] whose condition may itself raise. *)
Definition require_m (m : res bool) (e : exn) : res unit := let* b := m in check b e.

(** [all(f(x) for x in l)] and [any(f(x) for x in l)] where [f] may raise. *)
Fixpoint all_res {A} (f : A → res bool) (l : list A) : res bool :=
  match l with
  | [] => Ok true
  | x :: l => f x andM all_res f l
  end.
Fixpoint any_res {A} (f : A → res bool) (l : list A) : res bool :=
  match l with
  | [] => Ok false
  | x :: l => f x orM any_res f l
  end.

(** [for x in l: f(x)] where the body may raise, and the same with a state. *)
Fixpoint iter_res {A} (f : A → res unit) (l : list A) : res unit :=
  match l with
  | [] => Ok tt
  | x :: l => f x ;;; iter_res f l
  end.
Fixpoint fold_res {S A} (f : S → A → res S) (s : S) (l : list A) : res S :=
  match l with
  | [] => Ok s
  | x :: l => let* s' := f s x in fold_res f s' l
  end.
Fixpoint map_res {A B} (f : A → res B) (l : list A) : res (list B) :=
  match l with
  | [] => Ok []
  | x :: l => let* y := f x in let* ys := map_res f l in Ok (y :: ys)
  end.

Definition is_ok {A} (m : res A) : bool := match m with Ok _ => true | Err _ => false end.

(** *** Inversion lemmas: what a successful computation went through *)

Lemma bind_Ok {A B} (m : res A) (f : A → res B) b :
  mbind f m = Ok b ↔ ∃ a, m = Ok a ∧ f a = Ok b.
Proof. destruct m; cbn; naive_solver. Qed.

Lemma bind_Err {A B} (m : res A) (f : A → res B) e :
  mbind f m = Err e ↔ m = Err e ∨ ∃ a, m = Ok a ∧ f a = Err e.
Proof. destruct m; cbn; naive_solver. Qed.

Lemma Ok_eq {A} (a b : A) : Ok a = Ok b → a = b.
Proof. congruence. Qed.

Lemma check_Ok b e : check b e = Ok tt ↔ b = true.
Proof. by destruct b. Qed.

Lemma check_Ok_any b e u : check b e = Ok u ↔ b = true.
Proof. destruct u. apply check_Ok. Qed.

Lemma check_bind b e {A} (k : unit → res A) v : mbind k (check b e) = Ok v ↔ b = true ∧ k tt = Ok v.
Proof. destruct b; cbn; naive_solver. Qed.

Lemma require_m_Ok m e u : require_m m e = Ok u ↔ m = Ok true.
Proof.
  unfold require_m. rewrite bind_Ok. setoid_rewrite check_Ok_any. split.
  - by intros (? & -> & ->).
  - intros ->. by exists true.
Qed.

Lemma and_then_Ok_true m1 m2 : and_then m1 m2 = Ok true ↔ m1 = Ok true ∧ m2 = Ok true.
Proof. destruct m1 as [[]|]; naive_solver. Qed.

Lemma or_else_Ok_true m1 m2 :
  or_else m1 m2 = Ok true ↔ m1 = Ok true ∨ (m1 = Ok false ∧ m2 = Ok true).
Proof. destruct m1 as [[]|]; naive_solver. Qed.

Lemma all_res_Ok_true {A} (f : A → res bool) l :
  all_res f l = Ok true ↔ Forall (fun x => f x = Ok true) l.
Proof.
  induction l as [|x l IH]; cbn; [by split|].
  by rewrite and_then_Ok_true, IH, Forall_cons.
Qed.

Lemma all_res_pure {A} (f : A → bool) l : all_res (fun x => Ok (f x)) l = Ok (forallb f l).
Proof. induction l as [|x l IH]; cbn; [done|]. destruct (f x); cbn; done. Qed.

Lemma iter_res_Ok {A} (f : A → res unit) l u :
  iter_res f l = Ok u ↔ Forall (fun x => f x = Ok tt) l.
Proof.
  induction l as [|x l IH]; cbn.
  - destruct u; by split.
  - rewrite bind_Ok, Forall_cons. split.
    + intros ([] & ? & ?). by rewrite <-IH.
    + intros [? ?]. exists tt. by rewrite IH.
Qed.

Lemma iter_bind {A} (f : A → res unit) l {B} (k : unit → res B) v :
  mbind k (iter_res f l) = Ok v ↔ Forall (fun x => f x = Ok tt) l ∧ k tt = Ok v.
Proof.
  rewrite bind_Ok. setoid_rewrite iter_res_Ok. split; [by intros ([] & ? & ?)|]. intros [? ?]. by exists tt.
Qed.

Lemma map_res_Ok {A B} (f : A → res B) l k :
  map_res f l = Ok k ↔ Forall2 (fun x y => f x = Ok y) l k.
Proof.
  revert k. induction l as [|x l IH]; intros k; cbn.
  - split; [intros [= <-]; constructor | by inversion 1].
  - rewrite bind_Ok. split.
    + intros (y & ? & (ys & ? & [= <-])%bind_Ok). constructor; [done|by apply IH].
    + intros H. inversion_clear H as [|? y ? ys ? ?]. exists y. split; [done|].
      apply bind_Ok. exists ys. by rewrite IH.
Qed.

Lemma map_injective {A B} (f : A → B) l k : (∀ x y, f x = f y → x = y) → map f l = map f k → l = k.
Proof.
  intros Hf. revert k. induction l as [|x l IH]; intros [|y k]; cbn; try done.
  intros [= E1 E2]. f_equal; auto.
Qed.

(** Rule of induction for a loop: an invariant that holds initially and that
    every successful pass of the body preserves holds at the end. *)
Lemma fold_res_inv {S A} (P : S → Prop) (f : S → A → res S) l s s' :
  P s → (∀ x s1 s2, x ∈ l → P s1 → f s1 x = Ok s2 → P s2) →
  fold_res f s l = Ok s' → P s'.
Proof.
  revert s. induction l as [|x l IH]; intros s Hs Hstep Hf; cbn in Hf.
  - by injection Hf as <-.
  - apply bind_Ok in Hf as (s1 & H1 & Hf). eapply IH; [..|exact Hf].
    + eapply Hstep; [|exact Hs|exact H1]. constructor.
    + intros y s2 s3 ?. apply Hstep. by constructor.
Qed.

Lemma fold_res_app {S A} (f : S → A → res S) l1 l2 s :
  fold_res f s (l1 ++ l2) = (let* s' := fold_res f s l1 in fold_res f s' l2).
Proof.
  revert s. induction l1 as [|x l1 IH]; intros s; cbn; [done|].
  destruct (f s x); cbn; [apply IH|done].
Qed.

(** The history-carrying form: the invariant may also mention the elements
    already consumed. *)
Lemma fold_res_hist {S A} (P : list A → S → Prop) (f : S → A → res S) l s s' :
  P [] s → (∀ pre x post s1 s2, l = pre ++ x :: post → P pre s1 → f s1 x = Ok s2 → P (pre ++ [x]) s2) →
  fold_res f s l = Ok s' → P l s'.
Proof.
  intros Hs Hstep.
  assert (Hgen : ∀ post pre s1, l = pre ++ post → P pre s1 → fold_res f s1 post = Ok s' → P l s').
  { induction post as [|x post IH]; intros pre s1 Hl Hp Hf; cbn in Hf.
    - injection Hf as <-. by rewrite app_nil_r in Hl; subst.
    - apply bind_Ok in Hf as (s2 & H1 & Hf). apply (IH (pre ++ [x]) s2); [..|done].
      + by rewrite <-app_assoc.
      + by eapply Hstep. }
  by apply Hgen with (pre := []).
Qed.

(** A loop that cannot fail, by an invariant of what it has consumed. *)
Lemma fold_res_total {S A} (P : list A → S → Prop) (f : S → A → res S) l s :
  P [] s → (∀ pre x post s1, l = pre ++ x :: post → P pre s1 → ∃ s2, f s1 x = Ok s2 ∧ P (pre ++ [x]) s2) →
  ∃ s', fold_res f s l = Ok s' ∧ P l s'.
Proof.
  intros Hs Hstep.
  assert (Hgen : ∀ post pre s1, l = pre ++ post → P pre s1 → ∃ s', fold_res f s1 post = Ok s' ∧ P l s').
  { induction post as [|x post IH]; intros pre s1 Hl Hp; cbn.
    - exists s1. rewrite app_nil_r in Hl. by subst.
    - destruct (Hstep pre x post s1 Hl Hp) as (s2 & -> & Hp2). apply (IH (pre ++ [x])); [|done].
      by rewrite <-app_assoc. }
  by apply (Hgen l []).
Qed.

(** *** Methods of a mutable object

    A method takes the object and returns its new state with the result or the
    exception: what was assigned before a [raise] stays assigned. *)

Definition method (S A : Type) : Type := S → S * res A.
Definition mret {S A} (a : A) : method S A := fun s => (s, Ok a).
Definition raise {S A} (e : exn) : method S A := fun s => (s, Err e).
Definition lift {S A} (m : res A) : method S A := fun s => (s, m).
Definition get {S A} (f : S → A) : method S A := fun s => (s, Ok (f s)).
Definition modify {S} (f : S → S) : method S unit := fun s => (f s, Ok tt).
Definition mbind_ {S A B} (f : A → method S B) (m : method S A) : method S B := fun s =>
  match m s with
  | (s', Ok a) => f a s'
  | (s', Err e) => (s', Err e)
  end.
Notation "'let!' x ':=' m 'in' k" := (mbind_ (fun x => k) m)
  (at level 10, x pattern, m at level 100, k at level 200) : py_scope.
Notation "m ';;!' k" := (mbind_ (fun _ : unit => k) m)
  (at level 190, right associativity) : py_scope.
Definition mcheck {S} (b : bool) (e : exn) : method S unit := lift (check b e).

Lemma mbind_Ok {S A B} (f : A → method S B) (m : method S A) s s' b :
  mbind_ f m s = (s', Ok b) ↔ ∃ s1 a, m s = (s1, Ok a) ∧ f a s1 = (s', Ok b).
Proof. unfold mbind_. destruct (m s) as [s1 [a|e]]; naive_solver. Qed.

Lemma mcheck_bind {S A} (b : bool) (e : exn) (k : unit → method S A) s s' a :
  mbind_ k (mcheck b e) s = (s', Ok a) ↔ b = true ∧ k tt s = (s', Ok a).
Proof. unfold mbind_, mcheck, lift. destruct b; cbn; naive_solver. Qed.

(** *** Automation for the monad *)

(** [res_inv H] decomposes [H : program = Ok v] into the successful steps. *)
Ltac res_inv1 :=
  match goal with
  | H : mbind _ _ = Ok _ |- _ =>
      let x := fresh "x" in let Hx := fresh "Hx" in
      apply bind_Ok in H as (x & Hx & H)
  | H : check _ _ = Ok _ |- _ => apply check_Ok_any in H
  | H : and_then _ _ = Ok true |- _ => apply and_then_Ok_true in H as [? ?]
  | H : Ok _ = Ok _ |- _ => injection H as H; subst
  | H : Ok _ = Ok _ |- _ => clear H
  | H : Err _ = Ok _ |- _ => discriminate H
  | H : require_m _ _ = Ok _ |- _ => apply require_m_Ok in H
  | H : andb _ _ = true |- _ => apply andb_prop in H as [? ?]
  | H : ?x = true |- _ => is_var x; subst x
  | x : unit |- _ => destruct x
  | H : context [match ?x with pair _ _ => _ end] |- _ =>
      is_var x; lazymatch type of H with _ = Ok _ => destruct x end
  end.
Ltac res_inv := repeat res_inv1.

(** One case distinction on what the program in a hypothesis branches on. *)
Ltac res_case :=
  match goal with
  | H : (if ?b then _ else _) = Ok _ |- _ => let E := fresh "E" in destruct b eqn:E
  | H : match ?m with Some _ => _ | None => _ end = Ok _ |- _ =>
      let E := fresh "E" in destruct m eqn:E
  end.

(** Boolean comparisons as propositions. *)
Ltac z_props :=
  repeat match goal with
  | H : _ && _ = true |- _ => apply andb_prop in H as [? ?]
  | H : negb _ = true |- _ => apply negb_true_iff in H
  | H : Z.ltb _ _ = true |- _ => apply Z.ltb_lt in H
  | H : Z.leb _ _ = true |- _ => apply Z.leb_le in H
  | H : Z.eqb _ _ = true |- _ => apply Z.eqb_eq in H
  | H : Z.ltb _ _ = false |- _ => apply Z.ltb_ge in H
  | H : Z.leb _ _ = false |- _ => apply Z.leb_gt in H
  | H : Z.eqb _ _ = false |- _ => apply Z.eqb_neq in H
  | H : String.eqb _ _ = true |- _ => apply String.eqb_eq in H
  | H : String.eqb _ _ = false |- _ => apply String.eqb_neq in H
  | H : bool_decide _ = true |- _ => apply bool_decide_eq_true in H
  | H : bool_decide _ = false |- _ => apply bool_decide_eq_false in H
  | H : Bool.eqb _ _ = true |- _ => apply Bool.eqb_prop in H
  end.

Create HintDb im2p discriminated.
Create Rewrite HintDb im2p.
#[export] Hint Rewrite @bind_Ok check_Ok_any and_then_Ok_true @all_res_Ok_true : im2p.

(** ** Python integers *)

Open Scope Z_scope.

(** [1 << n] for the constants the code writes. *)
Definition uint64_limit : Z := 2 ^ 64.
Definition uint32_limit : Z := 2 ^ 32.

(** The integers SQLite stores are below this one. *)
Definition SQLITE_INTEGER_LIMIT : Z := 2 ^ 63.

(** [str(z)]: the decimal text of an integer. *)
Definition dec (z : Z) : string := pretty z.

(** [int(s)] of a text of decimal digits. *)
Definition digit_value (c : ascii) : option Z :=
  let n := Z.of_N (N_of_ascii c) in
  if (48 <=? n) && (n <=? 57) then Some (n - 48) else None.
Fixpoint digits_from (acc : Z) (s : string) : option Z :=
  match s with
  | EmptyString => Some acc
  | String c s => match digit_value c with Some v => digits_from (10 * acc + v) s | None => None end
  end.
Definition digits (s : string) : option Z :=
  match s with EmptyString => None | _ => digits_from 0 s end.

Lemma dec_inj z1 z2 : dec z1 = dec z2 → z1 = z2.
Proof. apply (inj pretty). Qed.

(** ** Python sequences *)

(** [x in l] for strings. *)
Definition str_in (s : string) (l : list string) : bool := existsb (String.eqb s) l.

Lemma str_in_spec s l : str_in s l = true ↔ s ∈ l.
Proof.
  unfold str_in. rewrite existsb_exists, list_elem_of_In. split.
  - intros (x & ? & ->%String.eqb_eq); done.
  - intros ?. exists s. by rewrite String.eqb_refl.
Qed.

Lemma filter_snoc {A} (f : A → bool) l x :
  List.filter f (l ++ [x]) = List.filter f l ++ (if f x then [x] else []).
Proof. induction l as [|y l IH]; cbn; [by destruct (f x)|]. rewrite IH. by destruct (f y). Qed.

Lemma elem_of_zip_fmap_r {A B} (f : A → B) l x : x ∈ l → (x, f x) ∈ zip l (f <$> l).
Proof. induction 1; cbn; by constructor. Qed.

Definition z_in (z : Z) (l : list Z) : bool := existsb (Z.eqb z) l.

Lemma z_in_spec z l : z_in z l = true ↔ z ∈ l.
Proof.
  unfold z_in. rewrite existsb_exists, list_elem_of_In. split.
  - intros (x & ? & ->%Z.eqb_eq); done.
  - intros ?. exists z. by rewrite Z.eqb_refl.
Qed.

(** [len(l) == len(set(l))]: no element repeats. *)
Fixpoint distinct {A} (eqb : A → A → bool) (l : list A) : bool :=
  match l with
  | [] => true
  | x :: l => negb (existsb (eqb x) l) && distinct eqb l
  end.

Lemma distinct_NoDup {A} (eqb : A → A → bool) l :
  (∀ x y, eqb x y = true ↔ x = y) → distinct eqb l = true ↔ NoDup l.
Proof.
  intros Heq. induction l as [|x l IH]; cbn.
  - split; [constructor|done].
  - rewrite andb_true_iff, negb_true_iff, NoDup_cons, IH.
    rewrite <-not_true_iff_false, existsb_exists. split.
    + intros [Hn ?]. split; [|done]. intros Hin. apply Hn. exists x.
      rewrite list_elem_of_In in Hin. by rewrite Heq.
    + intros [Hn ?]. split; [|done]. intros (y & Hy & ->%Heq).
      by rewrite <-list_elem_of_In in Hy.
Qed.

Lemma distinct_str l : distinct String.eqb l = true ↔ NoDup l.
Proof. apply distinct_NoDup, String.eqb_eq. Qed.
Lemma distinct_z l : distinct Z.eqb l = true ↔ NoDup l.
Proof. apply distinct_NoDup, Z.eqb_eq. Qed.

(** Subset and equality of lists read as Python sets. *)
Definition subset_of {A} (eqb : A → A → bool) (l k : list A) : bool :=
  forallb (fun x => existsb (eqb x) k) l.
Definition set_eq {A} (eqb : A → A → bool) (l k : list A) : bool :=
  subset_of eqb l k && subset_of eqb k l.

Lemma subset_of_spec {A} (eqb : A → A → bool) l k :
  (∀ x y, eqb x y = true ↔ x = y) → subset_of eqb l k = true ↔ l ⊆ k.
Proof.
  intros Heq. unfold subset_of. rewrite forallb_forall. split.
  - intros H x Hx. rewrite list_elem_of_In in Hx |- *.
    apply H in Hx. apply existsb_exists in Hx as (y & ? & ->%Heq). done.
  - intros H x Hx. apply existsb_exists. exists x. rewrite Heq. split; [|done].
    rewrite <-list_elem_of_In in Hx |- *. by apply H.
Qed.

(** ** Association lists with insertion order (Python [dict]) *)
Section Assoc.
Context {K V : Type} (eqb : K → K → bool).
Hypothesis eqb_spec : ∀ x y, eqb x y = true ↔ x = y.

Fixpoint aget (k : K) (l : list (K * V)) : option V :=
  match l with
  | [] => None
  | (k', v) :: l => if eqb k k' then Some v else aget k l
  end.

(** [d[k] = v]: replaces in place, appends a new key. *)
Fixpoint aset (k : K) (v : V) (l : list (K * V)) : list (K * V) :=
  match l with
  | [] => [(k, v)]
  | (k', v') :: l => if eqb k k' then (k', v) :: l else (k', v') :: aset k v l
  end.

(** [del d[k]]. *)
Fixpoint adel (k : K) (l : list (K * V)) : list (K * V) :=
  match l with
  | [] => []
  | (k', v) :: l => if eqb k k' then l else (k', v) :: adel k l
  end.

Definition amem (k : K) (l : list (K * V)) : bool :=
  match aget k l with Some _ => true | None => false end.

Lemma eqb_refl' k : eqb k k = true.
Proof. by apply eqb_spec. Qed.

Lemma aget_In k v l : aget k l = Some v → (k, v) ∈ l.
Proof.
  induction l as [|[k' v'] l IH]; cbn; [done|].
  destruct (eqb k k') eqn:E; intros H.
  - apply eqb_spec in E. injection H as ->. subst. constructor.
  - constructor. auto.
Qed.

Lemma aget_None k l : aget k l = None ↔ k ∉ l.*1.
Proof.
  induction l as [|[k' v'] l IH]; cbn.
  - split; [intros _ H; inversion H | done].
  - destruct (eqb k k') eqn:E.
    + apply eqb_spec in E as ->. split; [done|]. intros H. destruct H. constructor.
    + rewrite IH, not_elem_of_cons. split; [|tauto]. intros ?. split; [|done].
      intros ->. by rewrite eqb_refl' in E.
Qed.

Lemma amem_spec k l : amem k l = true ↔ k ∈ l.*1.
Proof.
  unfold amem. destruct (aget k l) eqn:E.
  - split; [intros _|done]. apply aget_In in E.
    by apply (list_elem_of_fmap_2 fst) in E.
  - apply aget_None in E. by split.
Qed.

Lemma In_aget k v l : NoDup l.*1 → (k, v) ∈ l → aget k l = Some v.
Proof.
  induction l as [|[k' v'] l IH]; cbn; intros Hnd Hin.
  - inversion Hin.
  - apply NoDup_cons in Hnd as [Hn Hnd]. apply elem_of_cons in Hin as [Heq|Hin].
    + injection Heq as -> ->. by rewrite eqb_refl'.
    + destruct (eqb k k') eqn:E; [|auto]. apply eqb_spec in E as ->.
      destruct Hn. by apply (list_elem_of_fmap_2 fst) in Hin.
Qed.

Lemma aget_aset k k' v l :
  aget k (aset k' v l) = if eqb k k' then Some v else aget k l.
Proof.
  induction l as [|[k0 v0] l IH]; cbn; [by destruct (eqb k k')|].
  destruct (eqb k' k0) eqn:E0; cbn.
  - apply eqb_spec in E0 as ->. by destruct (eqb k k0).
  - destruct (eqb k k0) eqn:E1; [|done].
    apply eqb_spec in E1 as ->. destruct (eqb k0 k') eqn:E2; [|done].
    apply eqb_spec in E2 as ->. by rewrite eqb_refl' in E0.
Qed.

Lemma aset_keys k v l :
  (aset k v l).*1 = if amem k l then l.*1 else l.*1 ++ [k].
Proof.
  unfold amem. induction l as [|[k0 v0] l IH]; cbn; [done|].
  destruct (eqb k k0); cbn; [done|]. rewrite IH.
  by destruct (aget k l).
Qed.

Lemma aset_fresh k v l : amem k l = false → aset k v l = l ++ [(k, v)].
Proof.
  unfold amem. induction l as [|[k0 v0] l IH]; cbn; [done|].
  destruct (eqb k k0); [done|]. intros Hl. by rewrite IH.
Qed.

Lemma aset_NoDup k v l : NoDup l.*1 → NoDup (aset k v l).*1.
Proof.
  intros H. rewrite aset_keys. destruct (amem k l) eqn:E; [done|].
  apply NoDup_app. repeat split; [done| |apply NoDup_singleton].
  intros x Hx ->%list_elem_of_singleton. apply amem_spec in Hx. congruence.
Qed.

Lemma aget_adel k k' l : NoDup l.*1 →
  aget k (adel k' l) = if eqb k k' then None else aget k l.
Proof.
  induction l as [|[k0 v0] l IH]; cbn; intros Hnd; [by destruct (eqb k k')|].
  apply NoDup_cons in Hnd as [Hn Hnd].
  destruct (eqb k' k0) eqn:E0; cbn.
  - apply eqb_spec in E0 as ->. destruct (eqb k k0) eqn:E; [|done].
    apply eqb_spec in E as ->. by apply aget_None.
  - destruct (eqb k k0) eqn:E1; [|by apply IH].
    apply eqb_spec in E1 as ->. destruct (eqb k0 k') eqn:E2; [|done].
    apply eqb_spec in E2 as ->. by rewrite eqb_refl' in E0.
Qed.

Lemma adel_NoDup k l : NoDup l.*1 → NoDup (adel k l).*1.
Proof.
  induction l as [|[k0 v0] l IH]; cbn; intros Hnd; [done|].
  apply NoDup_cons in Hnd as [Hn Hnd]. destruct (eqb k k0); [done|].
  cbn. apply NoDup_cons. split; [|auto]. intros Hin. apply Hn.
  clear -Hin. induction l as [|[k1 v1] l IH]; cbn in *; [done|].
  destruct (eqb k k1); [by constructor|].
  apply elem_of_cons in Hin as [->|Hin]; constructor; auto.
Qed.
End Assoc.

Abbreviation sget := (aget String.eqb).
Abbreviation sset := (aset String.eqb).
Abbreviation sdel := (adel String.eqb).
Abbreviation smem := (amem String.eqb).
Abbreviation zget := (aget Z.eqb).
Abbreviation zset := (aset Z.eqb).
Abbreviation zdel := (adel Z.eqb).
Abbreviation zmem := (amem Z.eqb).

(** ** Totals: [sum(values)], and [sorted(d.items())] of a dict of totals *)

Definition sum (l : list Z) : Z := foldr Z.add 0 l.

Fixpoint insert_layer (e : string * Z) (l : list (string * Z)) : list (string * Z) :=
  match l with
  | [] => [e]
  | f :: l' => if String.leb e.1 f.1 then e :: l else f :: insert_layer e l'
  end.
Definition sort_layers (l : list (string * Z)) : list (string * Z) := foldr insert_layer [] l.

Lemma sum_cons z l : sum (z :: l) = z + sum l.
Proof. done. Qed.

Lemma sum_app l k : sum (l ++ k) = sum l + sum k.
Proof. induction l as [|z l IH]; [done|]. cbn [app]. rewrite !sum_cons, IH. lia. Qed.

Lemma sum_snd {K} (e : K * Z) l : sum (e :: l).*2 = e.2 + sum l.*2.
Proof. done. Qed.

(** [totals[key] += cycles] adds to the sum of a default dictionary. *)
Lemma sum_aset {K} (eqb : K → K → bool) (k : K) c l :
  sum (aset eqb k (default 0 (aget eqb k l) + c) l).*2 = sum l.*2 + c.
Proof.
  induction l as [|[k' v] l IH]; cbn [aset aget].
  - cbn. lia.
  - destruct (eqb k k').
    + rewrite !sum_snd. cbn. lia.
    + rewrite !sum_snd, IH. cbn. lia.
Qed.

Lemma sum_sort_layers l : sum (sort_layers l).*2 = sum l.*2.
Proof.
  assert (Hins : ∀ e l, sum (insert_layer e l).*2 = e.2 + sum l.*2).
  { intros e k. induction k as [|f k IH]; [done|]. cbn [insert_layer]. destruct (String.leb _ _); [done|].
    rewrite !sum_snd, IH. lia. }
  induction l as [|e l IH]; [done|]. cbn [sort_layers foldr]. fold (sort_layers l).
  by rewrite Hins, IH, sum_snd.
Qed.
