(* ===== verification/Records.v ===== *)
(** * JSON values and strict record access

    The values a decoded JSON document is made of, Python's [==] on them, and
    the accessors with which every reader of the cycle tools takes a record
    apart: [sim/cycle/npu_trace_schema.py] ([integer], [text], [object_value],
    [unique_pairs], [semantic_key]), the helpers of
    [sim/cycle/reconstruct_graph.py] ([array], [fields], [phase_key],
    [tensor_payload]) and [strict_pairs] of [sim/cycle/strict_json.py].

    A string is the UTF-8 text; comparing bytes orders such strings as Python
    orders code points.  A float is the binary64 value it denotes. *)
From S2P Require Import Prelude.
From Stdlib Require Import SpecFloat.
Set Warnings "-register-all".
Set Default Goal Selector "!".

(** ** JSON values *)

(** [JsonValue]: [str | int | float | bool | None | list | dict]; a [dict] is
    its items in insertion order, and a decoded one has no key twice. *)
Inductive json : Type :=
  | JNull
  | JBool (b : bool)
  | JInt (z : Z)
  | JFloat (f : spec_float)
  | JStr (s : string)
  | JArr (l : list json)
  | JObj (kvs : list (string * json)).

Abbreviation record := (list (string * json)).

(** The integer a float equals, when Python's [==] says so. *)
Definition float_eq_int (f : spec_float) (z : Z) : bool :=
  match f with
  | S754_zero _ => z =? 0
  | S754_finite s m e =>
      let v := if s then Z.neg m else Z.pos m in
      if 0 <=? e then z =? v * 2 ^ e else z * 2 ^ (- e) =? v
  | _ => false
  end.

(** Python compares [bool], [int] and [float] by numeric value. *)
Definition num_eq (a b : json) : bool :=
  let int_of := fun j => match j with
    | JInt z => Some z | JBool b => Some (if b then 1 else 0) | _ => None end in
  match int_of a, int_of b, a, b with
  | Some x, Some y, _, _ => x =? y
  | Some x, None, _, JFloat f => float_eq_int f x
  | None, Some y, JFloat f, _ => float_eq_int f y
  | None, None, JFloat f, JFloat g => SFeqb f g
  | _, _, _, _ => false
  end.

(** Python's [==] on decoded values. *)
Fixpoint jeq (a b : json) {struct a} : bool :=
  match a, b with
  | JNull, JNull => true
  | JStr s, JStr t => String.eqb s t
  | JArr l, JArr m =>
      (fix go (l m : list json) {struct l} : bool :=
         match l, m with
         | [], [] => true
         | x :: l, y :: m => jeq x y && go l m
         | _, _ => false
         end) l m
  | JObj l, JObj m =>
      Nat.eqb (length l) (length m) &&
      (fix go (l : record) : bool :=
         match l with
         | [] => true
         | (k, v) :: l =>
             match sget k m with Some w => jeq v w | None => false end && go l
         end) l
  | _, _ => num_eq a b
  end.

Definition is_null (j : json) : bool := match j with JNull => true | _ => false end.
Definition is_true (j : json) : bool := match j with JBool b => b | _ => false end.
Definition is_false (j : json) : bool := match j with JBool b => negb b | _ => false end.
Definition is_bool (j : json) : bool := match j with JBool _ => true | _ => false end.
(** [type(x) is int]: excludes [bool]. *)
Definition is_int (j : json) : bool := match j with JInt _ => true | _ => false end.
Definition is_str (j : json) : bool := match j with JStr _ => true | _ => false end.
Definition is_list (j : json) : bool := match j with JArr _ => true | _ => false end.
(** [x == 'literal'] and [x == 3]. *)
Definition eq_str (j : json) (s : string) : bool := jeq j (JStr s).
Definition eq_int (j : json) (z : Z) : bool := jeq j (JInt z).
(** [x in (l1, l2, ..)]. *)
Definition in_strs (j : json) (l : list string) : bool := existsb (eq_str j) l.
Definition in_ints (j : json) (l : list Z) : bool := existsb (eq_int j) l.
(** Truth value of a decoded value. *)
Definition truthy (j : json) : bool :=
  match j with
  | JNull => false
  | JBool b => b
  | JInt z => negb (z =? 0)
  | JFloat (S754_zero _) => false
  | JFloat _ => true
  | JStr s => negb (String.eqb s "")
  | JArr l => match l with [] => false | _ => true end
  | JObj l => match l with [] => false | _ => true end
  end.

Lemma eq_str_spec j s : eq_str j s = true ↔ j = JStr s.
Proof.
  unfold eq_str. destruct j as [| | | |t| |]; cbn; try by split.
  rewrite String.eqb_eq. split; [by intros -> | by intros [= ->]].
Qed.

Lemma in_strs_spec j l : in_strs j l = true ↔ ∃ s, j = JStr s ∧ s ∈ l.
Proof.
  unfold in_strs. rewrite existsb_exists. setoid_rewrite list_elem_of_In.
  setoid_rewrite eq_str_spec. naive_solver.
Qed.

Lemma is_null_spec j : is_null j = true ↔ j = JNull.
Proof. destruct j; naive_solver. Qed.
Lemma is_true_spec j : is_true j = true ↔ j = JBool true.
Proof. destruct j as [|[]| | | | |]; naive_solver. Qed.
Lemma is_false_spec j : is_false j = true ↔ j = JBool false.
Proof. destruct j as [|[]| | | | |]; naive_solver. Qed.

(** ** Dictionary access *)

(** [record.get(key)]: [None] when the key is absent. *)
Definition pget (r : record) (k : string) : json := default JNull (sget k r).
(** [record[key]]: raises [KeyError]. *)
Definition item (r : record) (k : string) : res json :=
  match sget k r with Some v => Ok v | None => Err (KeyError k) end.
(** [key in record]. *)
Definition has (r : record) (k : string) : bool := smem k r.
Definition keys (r : record) : list string := r.*1.
(** [set(record) == expected]. *)
Definition keys_are (r : record) (expected : list string) : bool :=
  set_eq String.eqb (keys r) expected.

Lemma item_Ok r k v : item r k = Ok v ↔ sget k r = Some v.
Proof. unfold item. destruct (sget k r); naive_solver. Qed.

(** [{**record, ...}]: later entries replace earlier ones in place. *)
Definition merge_records (r u : record) : record :=
  fold_left (fun acc kv => sset kv.1 kv.2 acc) u r.

(** ** [npu_trace_schema.py]: accessors *)

Definition require (condition : bool) (detail : string) : res unit :=
  check condition (NpuTraceError detail).
Definition require_res (condition : res bool) (detail : string) : res unit :=
  require_m condition (NpuTraceError detail).

(** [isinstance(value, int) and not isinstance(value, bool) and 0 <= value < 2**64]. *)
Definition integer (r : record) (key : string) : res Z :=
  match pget r key with
  | JInt value =>
      if (0 <=? value) && (value <? uint64_limit) then Ok value
      else Err (NpuTraceError (key +:+ ": uint64 required"))
  | _ => Err (NpuTraceError (key +:+ ": uint64 required"))
  end.

Definition text (r : record) (key : string) : res string :=
  match pget r key with
  | JStr value =>
      if String.eqb value "" then Err (NpuTraceError (key +:+ ": nonempty string required"))
      else Ok value
  | _ => Err (NpuTraceError (key +:+ ": nonempty string required"))
  end.

Definition object_value (value : json) : res record :=
  match value with
  | JObj kvs => Ok kvs
  | _ => Err (NpuTraceError "JSON object required")
  end.

(** The object hook of the decoder: refuses a repeated key. *)
Definition unique_pairs (pairs : record) : res record :=
  fold_res (fun result kv =>
    require (negb (has result kv.1)) ("duplicate JSON key: " +:+ kv.1) ;;;
    Ok (sset kv.1 kv.2 result)) [] pairs.

(** [strict_json.strict_pairs]: builds the dict at once and compares sizes. *)
Definition strict_pairs (pairs : record) : res record :=
  let result := merge_records [] pairs in
  if negb (Nat.eqb (length result) (length pairs)) then unique_pairs pairs else Ok result.

(** [json.loads(text, object_pairs_hook=unique_pairs)] on the syntax tree of
    the text: the hook runs on every object as it closes, innermost first. *)
Fixpoint decode (hook : record → res record) (raw : json) {struct raw} : res json :=
  match raw with
  | JArr l =>
      let* l' := (fix go (l : list json) : res (list json) :=
        match l with
        | [] => Ok []
        | x :: l => let* y := decode hook x in let* ys := go l in Ok (y :: ys)
        end) l in
      Ok (JArr l')
  | JObj kvs =>
      let* kvs' := (fix go (l : record) : res record :=
        match l with
        | [] => Ok []
        | (k, x) :: l => let* y := decode hook x in let* ys := go l in Ok ((k, y) :: ys)
        end) kvs in
      let* obj := hook kvs' in
      Ok (JObj obj)
  | _ => Ok raw
  end.

(** [SemanticKey]: (phase kind, decode index, graph occurrence, node ordinal). *)
Abbreviation SemanticKey := (string * option Z * Z * Z)%type.

Definition valid_phase (phase : string) (decode : option Z) : bool :=
  (String.eqb phase "prefill" && match decode with None => true | _ => false end) ||
  (String.eqb phase "decode" && match decode with Some _ => true | _ => false end).

(** [None if record[key] is None else integer(record, key)]. *)
Definition optional_integer (r : record) (key : string) : res (option Z) :=
  let* value := item r key in
  if is_null value then Ok None else let* z := integer r key in Ok (Some z).

Definition semantic_key (r : record) : res SemanticKey :=
  let* phase := text r "semantic_phase_kind" in
  let* decode := optional_integer r "semantic_decode_index" in
  require (valid_phase phase decode) "invalid semantic phase" ;;;
  let* graph := integer r "semantic_graph_occurrence" in
  let* ordinal := integer r "semantic_node_ordinal" in
  Ok (phase, decode, graph, ordinal).

(** ** [reconstruct_graph.py]: helpers *)

Definition array (value : json) : res (list json) :=
  match value with
  | JArr l => Ok l
  | _ => Err (ValueError "JSON array required")
  end.

(** Sorting of strings by code point, for error texts. *)
Fixpoint insert_str (s : string) (l : list string) : list string :=
  match l with
  | [] => [s]
  | t :: l' => if String.leb s t then s :: l else t :: insert_str s l'
  end.
Definition sort_strs (l : list string) : list string := foldr insert_str [] l.
Fixpoint join (sep : string) (l : list string) : string :=
  match l with
  | [] => ""
  | [s] => s
  | s :: l => s +:+ sep +:+ join sep l
  end.
(** [sorted(a ^ b)] for key sets. *)
Definition sym_diff (a b : list string) : list string :=
  sort_strs (filter (fun s => str_in s b = false) a ++ filter (fun s => str_in s a = false) b).

Definition fields (r : record) (expected : list string) : res unit :=
  require (keys_are r expected)
    ("missing/unknown fields: " +:+ join "," (sym_diff (keys r) expected)).

Definition phase_key (r : record) : res (string * option Z) :=
  let* phase := text r "phase_kind" in
  let* decode := optional_integer r "decode_index" in
  require (valid_phase phase decode) "invalid phase" ;;;
  Ok (phase, decode).

(** [integer({'dimension': value}, 'dimension')]: the check on a bare value. *)
Definition integer_value (key : string) (value : json) : res Z := integer [(key, value)] key.

Definition tensor_payload (payload : record) : res unit :=
  require (is_str (pget payload "name")) "tensor name must be string" ;;;
  let* _ := text payload "type" in
  let* shape_value := item payload "shape" in
  let* shape := array shape_value in
  require (Nat.eqb (length shape) 4) "tensor shape must have four dimensions" ;;;
  iter_res (fun value => let* _ := integer_value "dimension" value in Ok tt) shape.

(** Sorting strings permutes them. *)
Lemma insert_str_perm s l : insert_str s l ≡ₚ s :: l.
Proof.
  induction l as [|t l IH]; cbn; [done|]. destruct (String.leb s t); [done|]. rewrite IH. apply Permutation_swap.
Qed.
Lemma sort_strs_perm l : sort_strs l ≡ₚ l.
Proof. induction l as [|s l IH]; [done|]. cbn. by rewrite insert_str_perm, IH. Qed.

(** ** Facts about the accessors *)

Lemma integer_Ok r key z :
  integer r key = Ok z ↔ pget r key = JInt z ∧ 0 <= z < uint64_limit.
Proof.
  unfold integer. destruct (pget r key) as [| |w| | | |]; try naive_solver.
  destruct ((0 <=? w) && (w <? uint64_limit)) eqn:E.
  - apply andb_true_iff in E as [?%Z.leb_le ?%Z.ltb_lt]. naive_solver.
  - apply andb_false_iff in E. split; [done|]. intros [[= ->] ?].
    destruct E as [?%Z.leb_gt|?%Z.ltb_ge]; lia.
Qed.

Lemma integer_bounds r key z : integer r key = Ok z → 0 <= z < 2 ^ 64.
Proof. by intros [_ ?]%integer_Ok. Qed.

Lemma text_Ok r key s : text r key = Ok s ↔ pget r key = JStr s ∧ s ≠ "".
Proof.
  unfold text. destruct (pget r key) as [| | | |t| |]; try naive_solver.
  destruct (String.eqb_spec t ""); naive_solver.
Qed.

Lemma object_value_Ok v r : object_value v = Ok r ↔ v = JObj r.
Proof. destruct v; naive_solver. Qed.

Lemma array_Ok v l : array v = Ok l ↔ v = JArr l.
Proof. destruct v; naive_solver. Qed.

Lemma keys_are_spec r expected :
  keys_are r expected = true ↔ ∀ k, k ∈ keys r ↔ k ∈ expected.
Proof.
  unfold keys_are, set_eq. rewrite andb_true_iff, !subset_of_spec by apply String.eqb_eq.
  set_solver.
Qed.

Lemma pget_item r k v : item r k = Ok v → pget r k = v.
Proof. unfold pget. by intros ->%item_Ok. Qed.

Lemma integer_Err r key e : integer r key = Err e → e = NpuTraceError (key +:+ ": uint64 required").
Proof.
  unfold integer. destruct (pget r key); try (by intros [= <-]).
  case_match; [done | by intros [= <-]].
Qed.

#[export] Hint Rewrite integer_Ok text_Ok object_value_Ok array_Ok item_Ok
  eq_str_spec in_strs_spec is_null_spec is_true_spec is_false_spec keys_are_spec : im2p.

(** *** Replaced and merged items *)

Lemma sget_sset {V} k k' (v : V) l : sget k (sset k' v l) = if String.eqb k k' then Some v else sget k l.
Proof. apply aget_aset, String.eqb_eq. Qed.
Lemma sget_filter {V} (p : string → bool) k (l : list (string * V)) :
  sget k (List.filter (fun kv => p kv.1) l) = if p k then sget k l else None.
Proof.
  induction l as [|[k' v] l IH]; [by destruct (p k)|]. cbn [List.filter fst]. destruct (p k') eqn:Ep; cbn [aget]; rewrite IH;
    destruct (String.eqb_spec k k') as [->|]; by rewrite ?Ep.
Qed.
Lemma pget_sset k v r k' : pget (sset k v r) k' = if String.eqb k' k then v else pget r k'.
Proof. unfold pget. rewrite aget_aset by apply String.eqb_eq. by destruct (String.eqb k' k). Qed.
Lemma sget_merge {V} (l free : list (string * V)) k : NoDup l.*1 →
  sget k (fold_left (fun acc kv => sset kv.1 kv.2 acc) l free) =
  match sget k l with Some v => Some v | None => sget k free end.
Proof.
  revert free. induction l as [|[k0 v0] l IH]; intros free; cbn; [done|]. intros [Hk Hnd]%NoDup_cons.
  rewrite IH, sget_sset by done. destruct (String.eqb_spec k k0) as [->|]; [|done].
  by rewrite (proj2 (aget_None _ String.eqb_eq _ _) Hk).
Qed.
Lemma pget_merge k u : k ∉ keys u → ∀ r, pget (merge_records r u) k = pget r k.
Proof.
  unfold merge_records. induction u as [|[k' v] u IH]; intros Hk r; [done|]. cbn [keys fmap list_fmap fst] in Hk.
  apply not_elem_of_cons in Hk as [Hne Hk]. cbn [fold_left fst snd]. rewrite IH by done. rewrite pget_sset.
  by apply String.eqb_neq in Hne as ->.
Qed.

(** *** The duplicate-key hook *)

Lemma amem_aset_str k k' (v : json) r :
  has (sset k' v r) k = String.eqb k k' || has r k.
Proof.
  unfold has, amem. rewrite aget_aset by apply String.eqb_eq.
  by destruct (String.eqb k k').
Qed.

Lemma sset_fresh k (v : json) r : has r k = false → sset k v r = r ++ [(k, v)].
Proof. apply aset_fresh. Qed.

Lemma has_spec r k : has r k = true ↔ k ∈ keys r.
Proof. apply amem_spec, String.eqb_eq. Qed.

(** The first key of [pairs] that repeats an earlier one or one of [seen]. *)
Fixpoint first_repeat (seen : list string) (pairs : record) : option string :=
  match pairs with
  | [] => None
  | (k, _) :: pairs => if str_in k seen then Some k else first_repeat (seen ++ [k]) pairs
  end.

Lemma has_keys r k : has r k = str_in k (keys r).
Proof.
  apply eq_true_iff_eq. by rewrite has_spec, str_in_spec.
Qed.

Lemma unique_pairs_fold acc pairs :
  fold_res (fun result kv =>
    require (negb (has result kv.1)) ("duplicate JSON key: " +:+ kv.1) ;;;
    Ok (sset kv.1 kv.2 result)) acc pairs =
  match first_repeat (keys acc) pairs with
  | None => Ok (acc ++ pairs)
  | Some k => Err (NpuTraceError ("duplicate JSON key: " +:+ k))
  end.
Proof.
  revert acc. induction pairs as [|[k v] pairs IH]; intros acc; cbn.
  - by rewrite app_nil_r.
  - rewrite has_keys. destruct (str_in k (keys acc)) eqn:Hk; cbn; [done|].
    rewrite sset_fresh by by rewrite has_keys. rewrite IH.
    unfold keys. rewrite fmap_app, <-(assoc_L (++)). done.
Qed.

Lemma unique_pairs_eq pairs :
  unique_pairs pairs =
  match first_repeat [] pairs with
  | None => Ok pairs
  | Some k => Err (NpuTraceError ("duplicate JSON key: " +:+ k))
  end.
Proof. apply unique_pairs_fold. Qed.

Lemma first_repeat_None seen pairs :
  first_repeat seen pairs = None ↔ NoDup (keys pairs) ∧ ∀ k, k ∈ keys pairs → k ∉ seen.
Proof.
  revert seen. induction pairs as [|[k v] pairs IH]; intros seen; cbn.
  - split; [|done]. intros _. split; [constructor|]. intros k H. inversion H.
  - destruct (str_in k seen) eqn:Hk.
    + apply str_in_spec in Hk. split; [done|]. intros [_ H]. destruct (H k); [constructor|done].
    + assert (k ∉ seen) as Hns by by rewrite <-str_in_spec, Hk.
      rewrite IH, NoDup_cons. split.
      * intros [Hnd H]. split_and!; [|done|].
        -- intros Hin. apply (H _ Hin). rewrite elem_of_app. right. by constructor.
        -- intros k0 [->|Hin]%elem_of_cons; [done|]. specialize (H _ Hin). set_solver.
      * intros [[Hn Hnd] H]. split; [done|]. intros k0 Hin. specialize (H k0). set_solver.
Qed.

(** Without a repetition the dict holds the pairs in order. *)
Lemma merge_records_fold acc pairs :
  match first_repeat (keys acc) pairs with
  | None => merge_records acc pairs = acc ++ pairs
  | Some _ => (length (merge_records acc pairs) < length acc + length pairs)%nat
  end.
Proof.
  unfold merge_records. revert acc. induction pairs as [|[k v] pairs IH]; intros acc; cbn.
  - by rewrite app_nil_r.
  - destruct (str_in k (keys acc)) eqn:Hk.
    + assert (Hlen : ∀ u (r : record),
        (length (fold_left (fun acc kv => sset kv.1 kv.2 acc) u r) <= length r + length u)%nat).
      { induction u as [|[k0 v0] u IHu]; intros r; cbn; [lia|]. etrans; [apply IHu|].
        assert (length (sset k0 v0 r) <= S (length r))%nat; [|lia].
        clear. induction r as [|[k1 v1] r IHr]; cbn; [lia|]. case_match; cbn; lia. }
      eapply Nat.le_lt_trans; [apply Hlen|].
      assert (length (sset k v acc) = length acc) as ->; [|lia].
      clear -Hk. unfold keys in Hk. rewrite <-(length_fmap fst), aset_keys.
      unfold amem. rewrite <-has_keys in Hk. unfold has, amem in Hk.
      destruct (sget k acc); [|done]. by rewrite length_fmap.
    + rewrite sset_fresh by by rewrite has_keys. specialize (IH (acc ++ [(k, v)])).
      unfold keys in IH. rewrite fmap_app in IH. cbn in IH.
      rewrite <-(assoc_L (++)) in IH. cbn in IH. fold (keys acc) in IH.
      destruct (first_repeat (keys acc ++ [k]) pairs); [|done].
      rewrite length_app in IH. cbn in IH. lia.
Qed.

(** C-strict: the fast hook agrees with the reference hook on every input. *)
Lemma strict_pairs_unique_pairs pairs : strict_pairs pairs = unique_pairs pairs.
Proof.
  unfold strict_pairs. rewrite unique_pairs_eq.
  pose proof (merge_records_fold [] pairs) as H. cbn in H.
  destruct (first_repeat [] pairs) as [k|]; cbn.
  - destruct (Nat.eqb_spec (length (merge_records [] pairs)) (length pairs)); [lia|done].
  - rewrite H. by rewrite Nat.eqb_refl.
Qed.

(** ** Host services *)

(** What the code takes from [hashlib] and [json]: the SHA-256 hex digest of a
    text, the canonical text [json.dumps] writes for a value (sorted keys,
    compact separators), and [str()] of a float, list or dict. *)
Class Host := {
  sha256_hex : string → string;
  json_dumps : json → string;
  str_of_other : json → string;
}.

(** [str(value)], as an f-string formats a decoded value. *)
Definition py_str `{Host} (j : json) : string :=
  match j with
  | JNull => "None"
  | JBool true => "True"
  | JBool false => "False"
  | JInt z => dec z
  | JStr s => s
  | _ => str_of_other j
  end.

(** [re.fullmatch('[0-9a-f]{n}', s)]. *)
Definition hex_char (c : Ascii.ascii) : bool :=
  let n := Ascii.N_of_ascii c in
  ((48 <=? n) && (n <=? 57) || (97 <=? n) && (n <=? 102))%N.
Fixpoint all_chars (p : Ascii.ascii → bool) (s : string) : bool :=
  match s with
  | EmptyString => true
  | String c s => p c && all_chars p s
  end.
Definition is_hex (n : nat) (s : string) : bool :=
  Nat.eqb (String.length s) n && all_chars hex_char s.

(** A concrete host for evaluation: canonical text with sorted keys and compact
    separators (a string is quoted with its quotes and backslashes escaped, a
    float is left out), and the text itself as its digest. *)
Definition quote_char : Ascii.ascii := Ascii.ascii_of_nat 34.
Definition backslash_char : Ascii.ascii := Ascii.ascii_of_nat 92.
Fixpoint escape (s : string) : string :=
  match s with
  | EmptyString => EmptyString
  | String c s =>
      if Ascii.eqb c quote_char || Ascii.eqb c backslash_char
      then String backslash_char (String c (escape s)) else String c (escape s)
  end.
Definition quoted (s : string) : string := String quote_char (escape s +:+ String quote_char EmptyString).

Fixpoint insert_field (e : string * string) (l : list (string * string)) : list (string * string) :=
  match l with
  | [] => [e]
  | f :: l' => if String.leb e.1 f.1 then e :: l else f :: insert_field e l'
  end.

Fixpoint dump (j : json) : string :=
  match j with
  | JNull => "null"
  | JBool true => "true"
  | JBool false => "false"
  | JInt z => dec z
  | JFloat _ => "float"
  | JStr s => quoted s
  | JArr l => "[" +:+ join "," ((fix go (l : list json) : list string :=
      match l with [] => [] | x :: l => dump x :: go l end) l) +:+ "]"
  | JObj kvs =>
      let fields := (fix go (l : record) : list (string * string) :=
        match l with [] => [] | (k, v) :: l => (k, quoted k +:+ ":" +:+ dump v) :: go l end) kvs in
      "{" +:+ join "," (foldr insert_field [] fields).*2 +:+ "}"
  end.

Definition text_host : Host := {|
  sha256_hex s := s;
  json_dumps := dump;
  str_of_other := dump;
|}.

(** ** Texts around a separator *)

Lemma append_split p s1 s2 c t1 t2 : all_chars p s1 = true → all_chars p s2 = true → p c = false →
  s1 +:+ String c t1 = s2 +:+ String c t2 → s1 = s2 ∧ t1 = t2.
Proof.
  intros H1 H2 Hc. revert s2 H1 H2. induction s1 as [|a s1 IH]; intros [|b s2]; cbn.
  - by intros _ _ [= ->].
  - intros _ Hb [= -> _]. by rewrite Hc in Hb.
  - intros Ha _ [= -> _]. by rewrite Hc in Ha.
  - intros Ha Hb [= -> E]. apply andb_prop in Ha as [_ Ha], Hb as [_ Hb]. by destruct (IH s2 Ha Hb E) as [-> ->].
Qed.

Lemma append_left p s t : p +:+ s = p +:+ t → s = t.
Proof. induction p as [|c p IH]; cbn; [done|]. intros [= E]. by apply IH. Qed.

Definition decimal (c : ascii) : bool := match digit_value c with Some _ => true | None => Ascii.eqb c "-"%char end.

Lemma pretty_go_decimal x : ∀ s, all_chars decimal s = true → all_chars decimal (pretty_N_go x s) = true.
Proof.
  induction (N.lt_wf_0 x) as [x _ IH]. intros s Hs. destruct (N.eq_0_gt_0_cases x) as [->|Hx]; [by rewrite pretty_N_go_0|].
  rewrite pretty_N_go_step by done. apply IH; [by apply N.div_lt|]. cbn. rewrite Hs, andb_true_r.
  unfold pretty_N_char. by repeat case_match.
Qed.

Lemma dec_decimal z : all_chars decimal (dec z) = true.
Proof.
  assert (Hn : ∀ n : N, all_chars decimal (pretty n) = true).
  { intros n. unfold pretty, pretty_N. case_decide; [done|]. by apply pretty_go_decimal. }
  unfold dec, pretty, pretty_Z. destruct z as [|p|p]; [done|apply (Hn (Npos p))|]. cbn. apply (Hn (Npos p)).
Qed.

Lemma pretty_go_length x : ∀ s, (String.length s <= String.length (pretty_N_go x s))%nat.
Proof.
  induction (N.lt_wf_0 x) as [x _ IH]. intros s. destruct (N.eq_0_gt_0_cases x) as [->|Hx]; [by rewrite pretty_N_go_0|].
  rewrite pretty_N_go_step by done. etrans; [|apply IH; by apply N.div_lt]. cbn. lia.
Qed.

Lemma dec_nonempty z : dec z ≠ "".
Proof.
  assert (Hp : ∀ p, pretty (Npos p) ≠ "").
  { intros p E. unfold pretty, pretty_N in E. case_decide; [done|]. rewrite pretty_N_go_step in E by lia.
    match type of E with pretty_N_go ?x ?s = _ => pose proof (pretty_go_length x s) as Hlen end. rewrite E in Hlen. cbn in Hlen. lia. }
  destruct z as [|p|p]; [done|apply Hp|done].
Qed.

Lemma dec_split c z1 z2 t1 t2 : decimal c = false → dec z1 +:+ String c t1 = dec z2 +:+ String c t2 → z1 = z2 ∧ t1 = t2.
Proof.
  intros Hc E. by destruct (append_split decimal _ _ _ _ _ (dec_decimal z1) (dec_decimal z2) Hc E) as [?%dec_inj ?].
Qed.

(** The last character of a text. *)
Fixpoint last_char (s : string) : option ascii :=
  match s with "" => None | String c "" => Some c | String _ s => last_char s end.
Lemma last_char_app s c t : last_char (s +:+ String c t) = last_char (String c t).
Proof. induction s as [|a s IH]; [done|]. by destruct s. Qed.
Lemma last_char_tail s t : t ≠ "" → last_char (s +:+ t) = last_char t.
Proof. destruct t; [done|]. intros _. apply last_char_app. Qed.
Lemma last_char_all p s c : all_chars p s = true → last_char s = Some c → p c = true.
Proof.
  induction s as [|a s IH]; [done|]. cbn [all_chars]. intros [Ha Hs]%andb_prop. destruct s; [by intros [= <-]|]. by apply IH.
Qed.

(** *** Values up to the order of keys *)

(** [w] is [v] with the keys of its objects, at every depth, in another order:
    what two values with the same sorted JSON text are to each other. *)
Fixpoint same_json (w v : json) {struct w} : bool :=
  match w, v with
  | JNull, JNull => true
  | JBool b, JBool c => Bool.eqb b c
  | JInt x, JInt y => x =? y
  | JFloat f, JFloat g => SFeqb f g || match f, g with S754_nan, S754_nan => true | _, _ => false end
  | JStr s, JStr t => String.eqb s t
  | JArr l, JArr m =>
      (fix go (l m : list json) {struct l} : bool :=
         match l, m with
         | [], [] => true
         | x :: l, y :: m => same_json x y && go l m
         | _, _ => false
         end) l m
  | JObj l, JObj m =>
      Nat.eqb (length l) (length m) && forallb (fun kv => smem kv.1 l) m &&
      (fix go (l : record) : bool :=
         match l with
         | [] => true
         | (k, x) :: l => match sget k m with Some y => same_json x y | None => false end && go l
         end) l
  | _, _ => false
  end.

Lemma same_json_str w s : same_json w (JStr s) = true → w = JStr s.
Proof. destruct w; cbn; try done. by intros ->%String.eqb_eq. Qed.
Lemma same_json_int w z : same_json w (JInt z) = true → w = JInt z.
Proof. destruct w; cbn; try done. by intros ->%Z.eqb_eq. Qed.
Lemma same_json_obj w v : same_json w (JObj v) = true → ∃ r, w = JObj r.
Proof. destruct w; cbn; try done. intros _. by eexists. Qed.
Lemma same_json_arr w l : same_json w (JArr l) = true → ∃ m, w = JArr m ∧ Forall2 (fun x y => same_json x y = true) m l.
Proof.
  destruct w as [| | | | |m|]; try done. intros Hm. exists m. split; [done|]. revert l Hm.
  induction m as [|x m IH]; intros [|y l]; cbn; try done. intros [Hx Hm]%andb_prop. constructor; [done|]. by apply IH.
Qed.

(** The items of an object up to their order. *)
Lemma same_json_items (w v : record) : same_json (JObj w) (JObj v) = true →
  length w = length v ∧ (∀ k x, sget k w = Some x → ∃ y, sget k v = Some y ∧ same_json x y = true) ∧
  (∀ k y, sget k v = Some y → ∃ x, sget k w = Some x ∧ same_json x y = true).
Proof.
  cbn [same_json]. intros [[Hlen%Nat.eqb_eq Hall]%andb_prop Hgo]%andb_prop. split; [done|].
  assert (Hw : ∀ k x, sget k w = Some x → ∃ y, sget k v = Some y ∧ same_json x y = true).
  { clear Hlen Hall. induction w as [|[k' x'] w IH]; [done|]. apply andb_prop in Hgo as [Hx Hgo]. intros k x.
    cbn [aget]. destruct (String.eqb_spec k k') as [->|].
    - intros [= ->]. destruct (sget k' v) as [y|]; [by exists y|done].
    - by apply IH. }
  split; [done|]. intros k y Hy. rewrite forallb_forall in Hall.
  assert (Hin : In (k, y) v) by (apply list_elem_of_In; by apply (aget_In String.eqb String.eqb_eq)).
  specialize (Hall _ Hin). cbn in Hall. unfold smem, amem in Hall. destruct (sget k w) as [x|] eqn:Ex; [|done].
  destruct (Hw k x Ex) as (y' & Hy' & Hm). exists x. split; [done|]. congruence.
Qed.

Lemma same_json_keys w v l : same_json (JObj w) (JObj v) = true → keys_are w l = keys_are v l.
Proof.
  intros (_ & H1 & H2)%same_json_items.
  assert (Hk : ∀ k, k ∈ keys w ↔ k ∈ keys v).
  { intros k. rewrite <- !has_spec. unfold has, smem, amem. split; intros Hs.
    - destruct (sget k w) as [x|] eqn:E; [|done]. by destruct (H1 _ _ E) as (y & -> & _).
    - destruct (sget k v) as [y|] eqn:E; [|done]. by destruct (H2 _ _ E) as (x & -> & _). }
  apply eq_true_iff_eq. rewrite !keys_are_spec. setoid_rewrite Hk. done.
Qed.
