(* ===== verification/Topology.v ===== *)
(** * Topological order

    [graphlib.TopologicalSorter], as the execution graph and the semantic graph
    use it: rounds that remove every node whose predecessors were removed.  The
    rounds remove all nodes exactly when the nodes can be listed so that each
    comes after its predecessors. *)
From S2P Require Import Prelude.
Set Default Goal Selector "!".

Section Topology.
Context {K N : Type} (eqb : K → K → bool) (name : N → K) (deps : N → list K).
Hypothesis eqb_spec : ∀ x y, eqb x y = true ↔ x = y.

(** Every predecessor of the node is among [done]. *)
Definition unblocked (done : list K) (n : N) : bool :=
  forallb (fun d => existsb (eqb d) done) (deps n).

(** One [prepare]/[get_ready]/[done] round of the sorter removes the unblocked
    nodes; the graph has a cycle when none is left to remove. *)
Fixpoint sort_rounds (fuel : nat) (done : list K) (rest : list N) : bool :=
  match rest with
  | [] => true
  | _ =>
      match fuel with
      | O => false
      | S fuel =>
          let ready := filter (fun n => unblocked done n = true) rest in
          match ready with
          | [] => false
          | _ => sort_rounds fuel (done ++ map name ready) (filter (fun n => unblocked done n = false) rest)
          end
      end
  end.

(** Each round removes a node, so one round per node is enough. *)
Definition acyclic (l : list N) : bool := sort_rounds (length l) [] l.

(** [l] lists nodes so that each one's predecessors are in [seen] or earlier. *)
Fixpoint topological (seen : list K) (l : list N) : Prop :=
  match l with
  | [] => True
  | n :: l => unblocked seen n = true ∧ topological (seen ++ [name n]) l
  end.

Lemma unblocked_deps seen n : unblocked seen n = true ↔ ∀ d, d ∈ deps n → d ∈ seen.
Proof.
  unfold unblocked. rewrite forallb_forall. setoid_rewrite <-list_elem_of_In.
  assert (He : ∀ d, existsb (eqb d) seen = true ↔ d ∈ seen).
  { intros d. rewrite existsb_exists, list_elem_of_In. split; [by intros (x & ? & ->%eqb_spec)|].
    intros Hd. exists d. by rewrite eqb_spec. }
  by setoid_rewrite He.
Qed.

Lemma unblocked_mono seen seen' n :
  (∀ x, x ∈ seen → x ∈ seen') → unblocked seen n = true → unblocked seen' n = true.
Proof. rewrite !unblocked_deps. auto. Qed.

Lemma topological_mono l : ∀ seen seen',
  (∀ x, x ∈ seen → x ∈ seen') → topological seen l → topological seen' l.
Proof.
  induction l as [|n l IH]; intros seen seen' H; cbn; [done|]. intros [Hn Hl].
  split; [by eapply unblocked_mono|]. eapply IH; [|exact Hl]. set_solver.
Qed.

Lemma topological_app l k : ∀ seen,
  topological seen (l ++ k) ↔ topological seen l ∧ topological (seen ++ map name l) k.
Proof.
  induction l as [|n l IH]; intros seen; cbn.
  - rewrite app_nil_r. tauto.
  - rewrite IH, <-(assoc_L (++)). cbn. tauto.
Qed.

(** Nodes that are all unblocked may be listed in any order. *)
Lemma topological_ready l : ∀ seen,
  Forall (fun n => unblocked seen n = true) l → topological seen l.
Proof.
  induction l as [|n l IH]; intros seen; cbn; [done|]. intros [Hn Hl]%Forall_cons.
  split; [done|]. apply IH. eapply Forall_impl; [exact Hl|]. cbn. intros m.
  apply unblocked_mono. set_solver.
Qed.

Lemma topological_filter (P : N → bool) l : ∀ seen seen',
  (∀ x, x ∈ seen → x ∈ seen') → (∀ n, n ∈ l → P n = false → name n ∈ seen') →
  topological seen l → topological seen' (filter (fun n => P n = true) l).
Proof.
  induction l as [|n l IH]; intros seen seen' Hd Hp; cbn [topological]; [done|]. intros [Hn Hl].
  rewrite filter_cons. case_decide as HP.
  - cbn. split; [by eapply unblocked_mono|]. eapply IH; [|set_solver|exact Hl]. set_solver.
  - eapply IH; [|set_solver|exact Hl]. intros x [Hx|Hx%list_elem_of_singleton]%elem_of_app; [auto|].
    subst x. apply Hp; [constructor|]. by destruct (P n).
Qed.

Lemma filter_split {A} (f : A → bool) (l : list A) :
  filter (fun x => f x = true) l ++ filter (fun x => f x = false) l ≡ₚ l.
Proof.
  induction l as [|x l IH]; [done|]. rewrite !filter_cons.
  repeat case_decide; try congruence; cbn; [by rewrite IH| |by destruct (f x)].
  by rewrite <-Permutation_middle, IH.
Qed.

Lemma sort_rounds_sound fuel : ∀ seen l,
  sort_rounds fuel seen l = true → ∃ l', l' ≡ₚ l ∧ topological seen l'.
Proof.
  induction fuel as [|fuel IH]; intros seen l H.
  - destruct l; [|done]. by exists [].
  - destruct l as [|n0 l0] eqn:El; [by exists []|]. cbn [sort_rounds] in H. rewrite <-El in *.
    destruct (filter _ l) as [|r rs] eqn:E; [done|]. rewrite <-E in *.
    destruct (IH _ _ H) as (l' & Hp & Ht).
    exists (filter (fun n => unblocked seen n = true) l ++ l'). split.
    + rewrite Hp. apply filter_split.
    + apply topological_app. split; [|done]. apply topological_ready, Forall_forall.
      by intros n [? _]%list_elem_of_filter.
Qed.

Lemma sort_rounds_complete fuel : ∀ seen l l',
  (length l <= fuel)%nat → l' ≡ₚ l → topological seen l' → sort_rounds fuel seen l = true.
Proof.
  induction fuel as [|fuel IH]; intros seen l l' Hlen Hp Ht.
  - by destruct l; cbn in Hlen; [|lia].
  - destruct l as [|n0 l0] eqn:E; [done|]. cbn [sort_rounds]. rewrite <-E in *.
    destruct (filter (fun n => unblocked seen n = true) l) as [|r rs] eqn:Ef.
    + destruct l' as [|n l']; [by apply Permutation_nil_l in Hp; subst|]. cbn in Ht.
      assert (Hin : n ∈ filter (fun n => unblocked seen n = true) l).
      { apply list_elem_of_filter. split; [tauto|]. rewrite <-Hp. constructor. }
      rewrite Ef in Hin. by apply elem_of_nil in Hin.
    + rewrite <-Ef. apply (IH _ _ (filter (fun n => negb (unblocked seen n) = true) l')).
      * pose proof (Permutation_length (filter_split (unblocked seen) l)) as Hs.
        rewrite length_app, Ef in Hs. cbn in Hs. lia.
      * rewrite Hp. erewrite list_filter_iff; [done|]. intros x. cbn. by destruct (unblocked seen x).
      * eapply topological_filter; [|..|exact Ht]; [set_solver|].
        intros n Hn Hb. apply elem_of_app. right. apply list_elem_of_In, in_map, list_elem_of_In.
        apply list_elem_of_filter. rewrite <-Hp. split; [|done]. by destruct (unblocked seen n).
Qed.

(** The rounds remove every node exactly when there is a topological order. *)
Lemma acyclic_ordered l : acyclic l = true ↔ ∃ l', l' ≡ₚ l ∧ topological [] l'.
Proof.
  split; [apply sort_rounds_sound|]. intros (l' & Hp & Ht).
  by apply (sort_rounds_complete _ _ _ l').
Qed.
End Topology.
