(* ===== verification/Profiles.v ===== *)
(** * Hardware profiles

    [scripts/gemmini_resolve_profile.py]: the catalog and host-memory contract
    are read into typed records and a selected profile is resolved against
    them; [scripts/gemmini_hardware_contract.py]: the facts handed to the Scala
    and C++ consumers; [scripts/im2p_config.py]: the accumulator geometry of
    the retained BSV profiles and the two generated files;
    [scripts/gemmini_replay_contract.py]: validation and comparison of the
    hardware lowering contracts carried by traces.

    A file is represented by its decoded JSON value, its path by a string. *)
From S2P Require Import Prelude Records.
Set Default Goal Selector "!".

(** ** [gemmini_resolve_profile.py] *)
Module Resolve.

Definition failure (detail : string) : exn := BuildFailure "VALIDATION" detail.

Record ProfileSelection := {
  sel_activation_bits : Z;
  sel_weight_bits : Z;
  sel_dim : Z;
}.

(** [ProfileSelection(...)] with its [__post_init__] checks. *)
Definition profile_selection (a w d : Z) : res ProfileSelection :=
  check (z_in a [4; 8] && z_in w [4; 8]) (failure "operand width outside 4/8") ;;;
  check (a =? w) (failure "activation and weight widths differ") ;;;
  check (z_in d [16; 32; 64]) (failure "DIM outside 16/32/64") ;;;
  Ok {| sel_activation_bits := a; sel_weight_bits := w; sel_dim := d |}.

(** [f"a{a}w{w}-d{dim}-hp1"] *)
Definition profile_name (a w d : Z) : string :=
  "a" +:+ dec a +:+ "w" +:+ dec w +:+ "-d" +:+ dec d +:+ "-hp1".

Definition selection_name (s : ProfileSelection) : string :=
  profile_name (sel_activation_bits s) (sel_weight_bits s) (sel_dim s).

Record ProfileSpec := {
  spec_profile : string;
  spec_activation_bits : Z;
  spec_weight_bits : Z;
  spec_dim : Z;
  spec_packing : string;
}.

Record Catalog := {
  implementation : string;
  numerical_revision : string;
  block_size : Z;
  cat_accumulator_bits : Z;
  cat_bank_count : Z;
  cat_scratchpad_total_bytes : Z;
  cat_accumulator_total_bytes : Z;
  memory_policy : string;
  scratchpad_read_delay : Z;
  accumulator_latency : Z;
  profiles : list ProfileSpec;
}.

Record MemoryContract := {
  profile : string;
  activation_bits : Z;
  weight_bits : Z;
  dim : Z;
  accumulator_bits : Z;
  bank_count : Z;
  bank_rows : Z;
  accumulator_rows : Z;
  scratchpad_row_bytes : Z;
  accumulator_row_bytes : Z;
  scratchpad_total_bytes : Z;
  accumulator_total_bytes : Z;
  ws_double_buffered : bool;
  ws_scratchpad_rows_per_buffer : Z;
  ws_accumulator_rows_per_buffer : Z;
  provenance_kind : string;
  provenance_policy : string;
  provenance_reference : string;
  tile_policy : string;
}.

Record ResolvedProfile := {
  selection : ProfileSelection;
  spec : ProfileSpec;
  catalog : Catalog;
  memory : MemoryContract;
  catalog_path : string;
  contract_path : string;
}.

Definition read_mapping (value : json) (path : string) : res record :=
  match value with
  | JObj r => Ok r
  | _ => Err (failure ("JSON root is not an object: " +:+ path))
  end.

Definition get_mapping (document : record) (key : string) : res record :=
  match pget document key with
  | JObj r => Ok r
  | _ => Err (failure (key +:+ " is not an object"))
  end.

Definition get_integer (document : record) (key : string) : res Z :=
  match pget document key with
  | JBool _ => Err (failure (key +:+ " is not an integer"))
  | JInt z => Ok z
  | _ => Err (failure (key +:+ " is not an integer"))
  end.

Definition get_string (document : record) (key : string) : res string :=
  match pget document key with
  | JStr s => Ok s
  | _ => Err (failure (key +:+ " is not a string"))
  end.

Definition get_boolean (document : record) (key : string) : res bool :=
  match pget document key with
  | JBool b => Ok b
  | _ => Err (failure (key +:+ " is not a boolean"))
  end.

Definition load_spec (value : json) : res ProfileSpec :=
  let* entry := get_mapping [("entry", value)] "entry" in
  let* p := get_string entry "profile" in
  let* a := get_integer entry "activation_bits" in
  let* w := get_integer entry "weight_bits" in
  let* d := get_integer entry "dim" in
  let* packing := get_string entry "packing" in
  Ok {| spec_profile := p; spec_activation_bits := a; spec_weight_bits := w;
        spec_dim := d; spec_packing := packing |}.

Definition load_catalog (value : json) (path : string) : res Catalog :=
  let* document := read_mapping value path in
  let* policy := get_mapping document "memory_policy" in
  let* specs := match pget document "profiles" with
    | JArr values => map_res load_spec values
    | _ => Err (failure "profiles is not an array")
    end in
  let* implementation := get_string document "implementation" in
  let* revision := get_string document "numerical_revision" in
  let* block := get_integer document "block_size" in
  let* acc := get_integer document "accumulator_bits" in
  let* banks := get_integer policy "bank_count" in
  let* sp_total := get_integer policy "scratchpad_total_bytes" in
  let* acc_total := get_integer policy "accumulator_total_bytes" in
  let* name := get_string policy "name" in
  let* latencies := get_mapping document "fixed_latencies" in
  let* delay := get_integer latencies "scratchpad_read_delay" in
  let* latencies := get_mapping document "fixed_latencies" in
  let* latency := get_integer latencies "accumulator_latency" in
  Ok {| implementation := implementation; numerical_revision := revision;
        block_size := block; cat_accumulator_bits := acc; cat_bank_count := banks;
        cat_scratchpad_total_bytes := sp_total; cat_accumulator_total_bytes := acc_total;
        memory_policy := name; scratchpad_read_delay := delay;
        accumulator_latency := latency; profiles := specs |}.

Definition load_memory_contract (value : json) (path : string) : res MemoryContract :=
  let* document := read_mapping value path in
  let* provenance := get_mapping document "provenance" in
  let* p := get_string document "profile" in
  let* a := get_integer document "activation_bits" in
  let* w := get_integer document "weight_bits" in
  let* d := get_integer document "dim" in
  let* acc := get_integer document "accumulator_bits" in
  let* banks := get_integer document "bank_count" in
  let* rows := get_integer document "bank_rows" in
  let* acc_rows := get_integer document "accumulator_rows" in
  let* sp_row := get_integer document "scratchpad_row_bytes" in
  let* acc_row := get_integer document "accumulator_row_bytes" in
  let* sp_total := get_integer document "scratchpad_total_bytes" in
  let* acc_total := get_integer document "accumulator_total_bytes" in
  let* double := get_boolean document "ws_double_buffered" in
  let* ws_sp := get_integer document "ws_scratchpad_rows_per_buffer" in
  let* ws_acc := get_integer document "ws_accumulator_rows_per_buffer" in
  let* kind := get_string provenance "kind" in
  let* policy := get_string provenance "policy" in
  let* reference := get_string provenance "reference" in
  let* tile := get_string document "tile_policy" in
  Ok {| profile := p; activation_bits := a; weight_bits := w; dim := d;
        accumulator_bits := acc; bank_count := banks; bank_rows := rows;
        accumulator_rows := acc_rows; scratchpad_row_bytes := sp_row;
        accumulator_row_bytes := acc_row; scratchpad_total_bytes := sp_total;
        accumulator_total_bytes := acc_total; ws_double_buffered := double;
        ws_scratchpad_rows_per_buffer := ws_sp; ws_accumulator_rows_per_buffer := ws_acc;
        provenance_kind := kind; provenance_policy := policy;
        provenance_reference := reference; tile_policy := tile |}.

(** The tuple [expected] of [resolve_profile]. *)
Definition contract_checks (s : ProfileSelection) (c : Catalog) (m : MemoryContract) : list bool := [
  block_size c =? 32;
  cat_accumulator_bits c =? 32;
  0 <? scratchpad_read_delay c;
  0 <? accumulator_latency c;
  String.eqb (profile m) (selection_name s);
  (activation_bits m =? sel_activation_bits s) && (weight_bits m =? sel_weight_bits s)
    && (dim m =? sel_dim s);
  accumulator_bits m =? cat_accumulator_bits c;
  bank_count m =? cat_bank_count c;
  scratchpad_row_bytes m =? sel_dim s * sel_activation_bits s / 8;
  accumulator_row_bytes m =? sel_dim s * 4;
  scratchpad_total_bytes m =? cat_scratchpad_total_bytes c;
  accumulator_total_bytes m =? cat_accumulator_total_bytes c;
  ws_double_buffered m;
  bank_rows m * bank_count m * scratchpad_row_bytes m =? scratchpad_total_bytes m;
  accumulator_rows m * accumulator_row_bytes m =? accumulator_total_bytes m;
  ws_scratchpad_rows_per_buffer m =? bank_rows m * bank_count m / 2;
  ws_accumulator_rows_per_buffer m =? accumulator_rows m / 2;
  String.eqb (provenance_policy m) (memory_policy c)
].

Definition resolve_profile (s : ProfileSelection) (catalog_value contract_value : json)
    (catalog_file contract_file : string) : res ResolvedProfile :=
  let* c := load_catalog catalog_value catalog_file in
  match filter (fun spec => String.eqb (spec_profile spec) (selection_name s) = true) (profiles c) with
  | [spec] =>
      let* m := load_memory_contract contract_value contract_file in
      check (forallb id (contract_checks s c m))
        (failure ("memory contract mismatch: " +:+ contract_file)) ;;;
      Ok {| selection := s; spec := spec; catalog := c; memory := m;
            catalog_path := catalog_file; contract_path := contract_file |}
  | _ => Err (failure ("profile not catalogued: " +:+ selection_name s))
  end.

(** [x.bit_length()] of a positive integer. *)
Definition bit_length (z : Z) : Z := if z =? 0 then 0 else Z.log2 (Z.abs z) + 1.

(** [ResolvedProfile.to_document], with the portable paths and file digests of
    the two sources. *)
Definition to_document (r : ResolvedProfile)
    (contract_source contract_sha256 catalog_source catalog_sha256 : string) : record :=
  let m := memory r in
  let c := catalog r in
  let s := selection r in
  [("schema_version", JInt 1);
   ("profile", JStr (selection_name s));
   ("implementation", JStr (implementation c));
   ("activation_bits", JInt (sel_activation_bits s));
   ("weight_bits", JInt (sel_weight_bits s));
   ("dim", JInt (sel_dim s));
   ("accumulator_bits", JInt (cat_accumulator_bits c));
   ("array_partial_bits", JInt (sel_activation_bits s + sel_weight_bits s + (bit_length (sel_dim s) - 1)));
   ("block_size", JInt (block_size c));
   ("fragment_limit", JInt (Z.min (sel_dim s) (block_size c)));
   ("scu", JStr "hp1-left-shift");
   ("packing", JStr (spec_packing (spec r)));
   ("numerical_revision", JStr (numerical_revision c));
   ("memory", JObj [
     ("bank_count", JInt (bank_count m));
     ("bank_rows", JInt (bank_rows m));
     ("accumulator_rows", JInt (accumulator_rows m));
     ("scratchpad_row_bytes", JInt (scratchpad_row_bytes m));
     ("accumulator_row_bytes", JInt (accumulator_row_bytes m));
     ("scratchpad_total_bytes", JInt (scratchpad_total_bytes m));
     ("accumulator_total_bytes", JInt (accumulator_total_bytes m));
     ("ws_double_buffered", JBool (ws_double_buffered m));
     ("ws_scratchpad_rows_per_buffer", JInt (ws_scratchpad_rows_per_buffer m));
     ("ws_accumulator_rows_per_buffer", JInt (ws_accumulator_rows_per_buffer m));
     ("capacity_policy", JStr (memory_policy c));
     ("provenance_kind", JStr (provenance_kind m));
     ("provenance_reference", JStr (provenance_reference m));
     ("tile_policy", JStr (tile_policy m))]);
   ("fixed_latencies", JObj [
     ("scratchpad_read_delay", JInt (scratchpad_read_delay c));
     ("accumulator_latency", JInt (accumulator_latency c))]);
   ("host_contract_source", JStr contract_source);
   ("host_contract_sha256", JStr contract_sha256);
   ("profile_catalog_source", JStr catalog_source);
   ("profile_catalog_sha256", JStr catalog_sha256)].

End Resolve.

(** ** [gemmini_hardware_contract.py] *)
Module HardwareFacts.

Definition object_ (value : json) : res record :=
  match value with
  | JObj r => Ok r
  | _ => Err (ValueError "resolved hardware section must be an object")
  end.

Definition positive_integer (document : record) (key : string) : res Z :=
  match pget document key with
  | JInt z => if z <=? 0 then Err (ValueError ("resolved hardware " +:+ key +:+ " must be a positive integer"))
              else Ok z
  | _ => Err (ValueError ("resolved hardware " +:+ key +:+ " must be a positive integer"))
  end.

Definition facts_of (document : record) (names : list string) : res (list (string * Z)) :=
  map_res (fun key => let* z := positive_integer document key in Ok (key, z)) names.

Definition top_keys := ["activation_bits"; "weight_bits"; "dim"; "block_size";
                        "array_partial_bits"; "accumulator_bits"].
Definition memory_keys := ["bank_count"; "bank_rows"; "accumulator_rows";
                           "scratchpad_row_bytes"; "accumulator_row_bytes"].
Definition latency_keys := ["scratchpad_read_delay"; "accumulator_latency"].

Definition hardware_facts (resolved : record) : res (list (string * Z)) :=
  let* memory := object_ (pget resolved "memory") in
  let* latency := object_ (pget resolved "fixed_latencies") in
  let* top := facts_of resolved top_keys in
  let* mem := facts_of memory memory_keys in
  let* lat := facts_of latency latency_keys in
  Ok (top ++ mem ++ lat).

End HardwareFacts.

(** ** [im2p_config.py] *)
Module Config.

(** The decoded [config/im2p_profiles.json]. *)
Record Source := {
  schema : Z;
  dimensions : list Z;
  integer_accumulator_bits : list (string * Z);
  logical_capacity_bytes : Z;
  fp_accumulator_rows : Z;
  memory_backend : string;
  memory_read_latency : Z;
  memory_latency_contract : string;
  scale_carrier_bits : Z;
  scale_storage_bytes : Z;
  numerical_semantics_revision : string;
}.

Record ProfileConfig := {
  activation_bits : Z;
  weight_bits : Z;
  dim : Z;
  product_bits : Z;
  partial_bits : Z;
  accumulator_bits : Z;
  accumulator_rows : Z;
  row_address_bits : Z;
  row_count_bits : Z;
  config_capacity_bytes : Z;
  config_memory_backend : string;
  config_memory_read_latency : Z;
  config_memory_latency_contract : string;
  config_numerical_revision : string;
  config_scale_carrier_bits : Z;
  config_scale_storage_bytes : Z;
  config_source_sha256 : string;
  generated_config_sha256 : string;
}.

(** ["\n".join(lines)]; the two generated files are lists of lines here. *)
Definition newline : string := String (Ascii.ascii_of_nat 10) EmptyString.
Definition quote : string := String (Ascii.ascii_of_nat 34) EmptyString.
Definition lines_text (lines : list string) : string := join newline lines.

Definition directive (index : nat) : string := if Nat.eqb index 0 then "if" else "elif".

(** [sorted(set(widths.values()))] *)
Fixpoint insert_z (z : Z) (l : list Z) : list Z :=
  match l with
  | [] => [z]
  | y :: l' => if z <? y then z :: l else if z =? y then l else y :: insert_z z l'
  end.
Definition sorted_set (l : list Z) : list Z := foldr insert_z [] l.

(** [f"{2 * int(precision)}"] for a key of [integer_accumulator_bits]. *)
Definition doubled (precision : string) : res string :=
  match digits precision with
  | Some z => Ok (dec (2 * z))
  | None => Err (ValueError ("invalid literal for int() with base 10: " +:+ precision))
  end.

Definition bsv_lines (source : Source) (fingerprint : string) : res (list string) :=
  let* blocks := map_res (fun '(precision, width) =>
    let* product := doubled precision in
    Ok ["typedef " +:+ precision +:+ " A" +:+ precision +:+ "InputWidth;";
        "typedef " +:+ precision +:+ " A" +:+ precision +:+ "WeightWidth;";
        "typedef " +:+ product +:+ " A" +:+ precision +:+ "ProductWidth;";
        "typedef " +:+ dec width +:+ " A" +:+ precision +:+ "AccumulatorWidth;"; ""])
    (integer_accumulator_bits source) in
  Ok (["// Generated by scripts/im2p_config.py; edit config/im2p_profiles.json.";
   "// Configuration SHA256: " +:+ fingerprint; "package Config;"; "";
   "typedef 16 DefaultArrayDim;"; "typedef 1 DefaultPeLatency;"; "typedef 16 DefaultVectorLanes;";
   "// Exact local dot-product width; architectural accumulator widths stay separate.";
   "typedef TAdd#(productWidth, TLog#(dim)) IntegerPartialWidth#(numeric type dim, numeric type productWidth);";
   "typedef " +:+ dec (logical_capacity_bytes source) +:+ " IntegerAccumulatorCapacityBytes;";
   "typedef TDiv#(TMul#(IntegerAccumulatorCapacityBytes, 8), TMul#(dim, width)) IntegerAccumulatorRows#(numeric type dim, numeric type width);";
   "typedef " +:+ dec (fp_accumulator_rows source) +:+ " FloatingAccumulatorRows;"; ""] ++
  concat blocks ++
  ["typedef A8InputWidth DefaultInputWidth;"; "typedef A8WeightWidth DefaultWeightWidth;";
   "typedef A8ProductWidth DefaultProductWidth;"; "typedef A8AccumulatorWidth DefaultAccumulatorWidth;";
   "typedef " +:+ dec (scale_carrier_bits source) +:+ " DefaultScaleWidth;";
   "typedef IntegerAccumulatorRows#(DefaultArrayDim, DefaultAccumulatorWidth) DefaultAccumulatorRows;";
   ""; "endpackage"; ""]).

(** [(capacity * 8 // (dim * width) - 1).bit_length()] *)
Definition header_row_address_bits (capacity d width : Z) : Z :=
  Resolve.bit_length (capacity * 8 / (d * width) - 1).

Definition header_lines (source : Source) (fingerprint : string) : list string :=
  let capacity := logical_capacity_bytes source in
  let widths := integer_accumulator_bits source in
  ["// Generated by scripts/im2p_config.py; edit config/im2p_profiles.json.";
   "#ifndef IM2P_GENERATED_CONFIG_H"; "#define IM2P_GENERATED_CONFIG_H"; "";
   "#define IM2P_CONFIG_SHA256 " +:+ quote +:+ fingerprint +:+ quote;
   "#define IM2P_LOGICAL_CAPACITY_BYTES " +:+ dec capacity;
   "#define IM2P_MEMORY_BACKEND " +:+ quote +:+ memory_backend source +:+ quote;
   "#define IM2P_MEMORY_READ_LATENCY " +:+ dec (memory_read_latency source);
   "#define IM2P_MEMORY_LATENCY_CONTRACT " +:+ quote +:+ memory_latency_contract source +:+ quote;
   "#define IM2P_NUMERICAL_SEMANTICS_REVISION " +:+ quote +:+ numerical_semantics_revision source +:+ quote;
   "";
   "#define IM2P_SCALE_CARRIER_BITS " +:+ dec (scale_carrier_bits source);
   "#define IM2P_SCALE_STORAGE_BYTES " +:+ dec (scale_storage_bytes source); ""] ++
  concat (imap (fun index '(precision, width) =>
    ["#" +:+ directive index +:+ " IM2P_ACTIVATION_BITS == " +:+ precision +:+
       " && IM2P_WEIGHT_BITS == " +:+ precision;
     "#define IM2P_ACCUMULATOR_BITS " +:+ dec width]) widths) ++
  ["#else"; "#error " +:+ quote +:+ "unsupported IM2P activation/weight profile" +:+ quote; "#endif";
   "#define IM2P_PARTIAL_BITS IM2P_ACCUMULATOR_BITS";
   "#define IM2P_ACCUMULATOR_ROWS (IM2P_LOGICAL_CAPACITY_BYTES * 8 / (IM2P_DIM * IM2P_ACCUMULATOR_BITS))"; ""] ++
  concat (imap (fun index d =>
    ["#" +:+ directive index +:+ " IM2P_DIM == " +:+ dec d;
     "#define IM2P_ROW_COUNT_BITS " +:+ dec (Resolve.bit_length d)] ++
    concat (imap (fun width_index width =>
      ["#" +:+ directive width_index +:+ " IM2P_ACCUMULATOR_BITS == " +:+ dec width;
       "#define IM2P_ROW_ADDRESS_BITS " +:+ dec (header_row_address_bits capacity d width)])
      (sorted_set widths.*2)) ++ ["#endif"]) (dimensions source)) ++
  ["#else"; "#error " +:+ quote +:+ "unsupported IM2P DIM" +:+ quote; "#endif"; ""; "#endif"; ""].

Definition BSV : string := "src/common/Config.bsv".
Definition HEADER : string := "sim/ffi/im2p_config.h".

Definition generated_files (source : Source) (fingerprint : string) : res (list (string * string)) :=
  let* bsv := bsv_lines source fingerprint in
  Ok [(BSV, lines_text bsv); (HEADER, lines_text (header_lines source fingerprint))].

(** [rows, remainder = divmod(capacity * 8, dim * accumulator_bits)] and the
    check that the geometry is a power of two not below [dim]. *)
Definition accumulator_geometry (capacity d width : Z) : res Z :=
  let rows := capacity * 8 / (d * width) in
  let remainder := (capacity * 8) mod (d * width) in
  if negb (remainder =? 0) || (rows <? d) || negb (Z.land rows (rows - 1) =? 0)
  then Err (ConfigError "accumulator capacity must yield power-of-two rows >= DIM")
  else Ok rows.

(** [files] is the repository: the text of a path, if it is a file. *)
Definition profile_config `{Host} (source : Source) (fingerprint : string)
    (files : string → option string) (a w d : Z) : res ProfileConfig :=
  let widths := integer_accumulator_bits source in
  check (schema source =? 1) (ConfigError "unsupported profile schema") ;;;
  check ((a =? w) && smem (dec a) widths && z_in d (dimensions source))
    (ConfigError ("unsupported profile: A" +:+ dec a +:+ "/W" +:+ dec w +:+ "/DIM" +:+ dec d)) ;;;
  let accumulator_bits := default 0 (sget (dec a) widths) in
  let capacity := logical_capacity_bytes source in
  let* rows := accumulator_geometry capacity d accumulator_bits in
  let* generated := generated_files source fingerprint in
  iter_res (fun '(path, content) =>
    check (match files path with Some t => String.eqb t content | None => false end)
      (ConfigError ("stale generated configuration: " +:+ path +:+ "; run --generate"))) generated ;;;
  Ok {| activation_bits := a; weight_bits := w; dim := d;
        product_bits := a + w; partial_bits := accumulator_bits;
        accumulator_bits := accumulator_bits; accumulator_rows := rows;
        row_address_bits := Resolve.bit_length (rows - 1);
        row_count_bits := Resolve.bit_length d;
        config_capacity_bytes := capacity;
        config_memory_backend := memory_backend source;
        config_memory_read_latency := memory_read_latency source;
        config_memory_latency_contract := memory_latency_contract source;
        config_numerical_revision := numerical_semantics_revision source;
        config_scale_carrier_bits := scale_carrier_bits source;
        config_scale_storage_bytes := scale_storage_bytes source;
        config_source_sha256 := fingerprint;
        generated_config_sha256 := sha256_hex (String.concat "" generated.*2) |}.

(** The repository's own [config/im2p_profiles.json]. *)
Definition repository_source : Source := {|
  schema := 1; dimensions := [16; 32; 64];
  integer_accumulator_bits := [("4", 32); ("8", 32); ("16", 64)];
  logical_capacity_bytes := 65536; fp_accumulator_rows := 256;
  memory_backend := "column-banked-sync-bram"; memory_read_latency := 1;
  memory_latency_contract := "serialized-rmw-v1"; scale_carrier_bits := 32;
  scale_storage_bytes := 4; numerical_semantics_revision := "signed-scu-sat-v2"
|}.

End Config.

(** ** [gemmini_replay_contract.py] *)
Module Contract.
Section Contract.
Context `{Host}.

Definition SCHEMA : string := "im2p-hardware-lowering-contract".
Definition VERSION : Z := 1.
Definition HARDWARE_GLOBS : list string :=
  ["src/gemmini/src/main/scala/**/*.scala";
   "src/gemmini/control/src/main/scala/**/*.scala";
   "src/gemmini/upstream/src/main/scala/**/*.scala";
   "src/gemmini/patches/*.patch"].
Definition HARDWARE_PATHS : list string :=
  ["config/gemmini_hp1_profiles.json"; "sim/include/im2p_geometry.h";
   "sim/include/im2p_sim.h"; "sim/common/gemmini_schedule.hpp";
   "sim/common/gemmini_schedule.cpp"; "sim/backends/gemmini_hp1/geometry.cpp";
   "sim/backends/gemmini_hp1/runtime.cpp"; "src/gemmini/vendor-manifest.json"].
Definition FACT_KEYS : list string :=
  ["activation_bits"; "weight_bits"; "dim"; "packing"; "block_size";
   "accumulator_bits"; "array_partial_bits"; "numerical_revision"; "scu";
   "fragment_limit"; "memory"; "fixed_latencies"; "scale_entries";
   "external_stride_units"; "tile_units"; "lowering_revision";
   "scale_mapping_revision"; "saturation_order"].

Definition contract_error {A} (detail : string) : res A := Err (ContractError detail).

Definition contract_digest (document : record) : string :=
  sha256_hex (json_dumps (JObj (filter (fun kv => negb (String.eqb kv.1 "sha256")) document))).

Definition mapping (value : json) (label : string) : res record :=
  match value with
  | JObj r => Ok r
  | _ => contract_error (label +:+ ": JSON object required")
  end.

(** [fnmatchcase] for patterns whose only special character is ["*"], which
    matches any run of characters, separators included. *)
Fixpoint glob (pattern : string) (s : string) : bool :=
  match pattern with
  | EmptyString => match s with EmptyString => true | _ => false end
  | String c pattern' =>
      if Ascii.eqb c "*"%char
      then (fix star (s : string) : bool :=
              glob pattern' s || match s with EmptyString => false | String _ s' => star s' end) s
      else match s with String c' s' => Ascii.eqb c c' && glob pattern' s' | EmptyString => false end
  end.

Definition validate_contract (document : record) (profile : string) : res unit :=
  check (keys_are document ["schema"; "version"; "profile"; "facts"; "source_sha256"; "sha256"])
    (ContractError "hardware contract fields missing or unknown") ;;;
  let* schema := item document "schema" in
  let* version := item document "version" in
  check (eq_str schema SCHEMA && is_int version && eq_int version VERSION)
    (ContractError "unsupported hardware contract schema/version") ;;;
  let* declared := item document "profile" in
  check (eq_str declared profile) (ContractError "hardware contract profile mismatch") ;;;
  let* facts_value := item document "facts" in
  let* facts := mapping facts_value "hardware facts" in
  check (keys_are facts FACT_KEYS) (ContractError "hardware contract facts missing or unknown") ;;;
  let* a := item facts "activation_bits" in
  let* w := item facts "weight_bits" in
  let* d := item facts "dim" in
  check (String.eqb profile ("a" +:+ py_str a +:+ "w" +:+ py_str w +:+ "-d" +:+ py_str d +:+ "-hp1"))
    (ContractError "hardware contract profile/DIM mismatch") ;;;
  let* memory_value := item facts "memory" in
  let* memory := mapping memory_value "hardware memory" in
  let* latency_value := item facts "fixed_latencies" in
  let* latency := mapping latency_value "hardware latency" in
  check (subset_of String.eqb
    ["bank_count"; "bank_rows"; "accumulator_rows"; "scratchpad_row_bytes";
     "accumulator_row_bytes"; "scratchpad_total_bytes"; "accumulator_total_bytes"] (keys memory))
    (ContractError "resolved memory contract incomplete") ;;;
  check (keys_are latency ["scratchpad_read_delay"; "accumulator_latency"])
    (ContractError "fixed hardware latency contract incomplete") ;;;
  let* hashes_value := item document "source_sha256" in
  let* hashes := mapping hashes_value "hardware source hashes" in
  let required := HARDWARE_PATHS ++
    ["config/gemmini_host_memory_contracts/" +:+ profile +:+ ".json"] in
  check (subset_of String.eqb required (keys hashes) &&
         forallb (fun kv => match kv.2 with JStr v => is_hex 64 v | _ => false end) hashes)
    (ContractError "hardware source hash closure incomplete") ;;;
  check (forallb (fun pattern => existsb (glob pattern) (keys hashes)) HARDWARE_GLOBS)
    (ContractError "hardware RTL source closure incomplete") ;;;
  let* digest := item document "sha256" in
  check (eq_str digest (contract_digest document))
    (ContractError "hardware contract canonical SHA256 mismatch").

Definition compatible (producer model : record) : res unit :=
  match pget producer "profile" with
  | JStr profile =>
      validate_contract producer profile ;;;
      validate_contract model profile ;;;
      let* p := item producer "sha256" in
      let* m := item model "sha256" in
      check (jeq p m) (ContractError "producer/model hardware lowering contract mismatch")
  | _ => contract_error "producer hardware profile missing"
  end.
End Contract.
End Contract.

(** ** The repository's own configuration: [config/gemmini_hp1_profiles.json]
    and the files of [config/gemmini_host_memory_contracts]. *)
Module Repository.

Definition catalog_document : json :=
  JObj [("schema_version", JInt 1);
   ("implementation", JStr "gemmini-hp1");
   ("dataflow", JStr "WS");
   ("scu", JStr "hp1-left-shift");
   ("numerical_revision", JStr "hp1-fragment-sat32-v1");
   ("block_size", JInt 32);
   ("fixed_latencies", JObj [("scratchpad_read_delay", JInt 4);
   ("accumulator_latency", JInt 2)]);
   ("accumulator_bits", JInt 32);
   ("supported_width_pairs", JArr [JArr [JInt 4; JInt 4]; JArr [JInt 8; JInt 8]]);
   ("supported_dims", JArr [JInt 16; JInt 32; JInt 64]);
   ("memory_policy", JObj [("name", JStr "fixed-256kib-packed-sp-64kib-int32-acc-v1");
   ("bank_count", JInt 4);
   ("scratchpad_total_bytes", JInt 262144);
   ("accumulator_total_bytes", JInt 65536);
   ("ws_double_buffered", JBool true);
   ("active_d16_reference", JObj [("path", JStr "../RISC-V-DynDNN-gemmini-include/gemmini_params.h");
   ("sha256", JStr "d6db18f8edbfeb854780286d8c2afb81ae3b9103224522478a9047d5550272e5");
   ("dim", JInt 16);
   ("bank_count", JInt 4);
   ("bank_rows", JInt 4096);
   ("accumulator_rows", JInt 1024)]);
   ("alternate_d32_reference", JObj [("path", JStr "../RISC-V-DynDNN-gemmini-include/gemmini_params_ee290.h");
   ("sha256", JStr "4e8a3abc47b9d9b007c8662e05c2edce381c27220e652c42854b35bd601180db");
   ("dim", JInt 32);
   ("bank_count", JInt 4);
   ("bank_rows", JInt 2048);
   ("accumulator_rows", JInt 512)])]);
   ("profiles", JArr [JObj [("profile", JStr "a4w4-d16-hp1");
   ("activation_bits", JInt 4);
   ("weight_bits", JInt 4);
   ("dim", JInt 16);
   ("packing", JStr "signed-int4-low-nibble-first");
   ("memory_contract", JStr "gemmini_host_memory_contracts/a4w4-d16-hp1.json")]; JObj [("profile", JStr "a4w4-d32-hp1");
   ("activation_bits", JInt 4);
   ("weight_bits", JInt 4);
   ("dim", JInt 32);
   ("packing", JStr "signed-int4-low-nibble-first");
   ("memory_contract", JStr "gemmini_host_memory_contracts/a4w4-d32-hp1.json")]; JObj [("profile", JStr "a4w4-d64-hp1");
   ("activation_bits", JInt 4);
   ("weight_bits", JInt 4);
   ("dim", JInt 64);
   ("packing", JStr "signed-int4-low-nibble-first");
   ("memory_contract", JStr "gemmini_host_memory_contracts/a4w4-d64-hp1.json")]; JObj [("profile", JStr "a8w8-d16-hp1");
   ("activation_bits", JInt 8);
   ("weight_bits", JInt 8);
   ("dim", JInt 16);
   ("packing", JStr "signed-int8");
   ("memory_contract", JStr "gemmini_host_memory_contracts/a8w8-d16-hp1.json")]; JObj [("profile", JStr "a8w8-d32-hp1");
   ("activation_bits", JInt 8);
   ("weight_bits", JInt 8);
   ("dim", JInt 32);
   ("packing", JStr "signed-int8");
   ("memory_contract", JStr "gemmini_host_memory_contracts/a8w8-d32-hp1.json")]; JObj [("profile", JStr "a8w8-d64-hp1");
   ("activation_bits", JInt 8);
   ("weight_bits", JInt 8);
   ("dim", JInt 64);
   ("packing", JStr "signed-int8");
   ("memory_contract", JStr "gemmini_host_memory_contracts/a8w8-d64-hp1.json")]])].

Definition contract_a4w4_d16_hp1 : json :=
  JObj [("schema_version", JInt 1);
   ("profile", JStr "a4w4-d16-hp1");
   ("activation_bits", JInt 4);
   ("weight_bits", JInt 4);
   ("dim", JInt 16);
   ("accumulator_bits", JInt 32);
   ("bank_count", JInt 4);
   ("bank_rows", JInt 8192);
   ("accumulator_rows", JInt 1024);
   ("scratchpad_row_bytes", JInt 8);
   ("accumulator_row_bytes", JInt 64);
   ("scratchpad_total_bytes", JInt 262144);
   ("accumulator_total_bytes", JInt 65536);
   ("ws_double_buffered", JBool true);
   ("ws_scratchpad_rows_per_buffer", JInt 16384);
   ("ws_accumulator_rows_per_buffer", JInt 512);
   ("provenance", JObj [("kind", JStr "derived-packed-width");
   ("policy", JStr "fixed-256kib-packed-sp-64kib-int32-acc-v1");
   ("reference", JStr "active_d16_reference")]);
   ("tile_policy", JStr "existing-gemmini-h-runtime")].

Definition contract_a4w4_d32_hp1 : json :=
  JObj [("schema_version", JInt 1);
   ("profile", JStr "a4w4-d32-hp1");
   ("activation_bits", JInt 4);
   ("weight_bits", JInt 4);
   ("dim", JInt 32);
   ("accumulator_bits", JInt 32);
   ("bank_count", JInt 4);
   ("bank_rows", JInt 4096);
   ("accumulator_rows", JInt 512);
   ("scratchpad_row_bytes", JInt 16);
   ("accumulator_row_bytes", JInt 128);
   ("scratchpad_total_bytes", JInt 262144);
   ("accumulator_total_bytes", JInt 65536);
   ("ws_double_buffered", JBool true);
   ("ws_scratchpad_rows_per_buffer", JInt 8192);
   ("ws_accumulator_rows_per_buffer", JInt 256);
   ("provenance", JObj [("kind", JStr "derived-packed-width");
   ("policy", JStr "fixed-256kib-packed-sp-64kib-int32-acc-v1");
   ("reference", JStr "alternate_d32_reference")]);
   ("tile_policy", JStr "existing-gemmini-h-runtime")].

Definition contract_a4w4_d64_hp1 : json :=
  JObj [("schema_version", JInt 1);
   ("profile", JStr "a4w4-d64-hp1");
   ("activation_bits", JInt 4);
   ("weight_bits", JInt 4);
   ("dim", JInt 64);
   ("accumulator_bits", JInt 32);
   ("bank_count", JInt 4);
   ("bank_rows", JInt 2048);
   ("accumulator_rows", JInt 256);
   ("scratchpad_row_bytes", JInt 32);
   ("accumulator_row_bytes", JInt 256);
   ("scratchpad_total_bytes", JInt 262144);
   ("accumulator_total_bytes", JInt 65536);
   ("ws_double_buffered", JBool true);
   ("ws_scratchpad_rows_per_buffer", JInt 4096);
   ("ws_accumulator_rows_per_buffer", JInt 128);
   ("provenance", JObj [("kind", JStr "derived-dim-and-packed-width");
   ("policy", JStr "fixed-256kib-packed-sp-64kib-int32-acc-v1");
   ("reference", JStr "active_d16_reference")]);
   ("tile_policy", JStr "existing-gemmini-h-runtime")].

Definition contract_a8w8_d16_hp1 : json :=
  JObj [("schema_version", JInt 1);
   ("profile", JStr "a8w8-d16-hp1");
   ("activation_bits", JInt 8);
   ("weight_bits", JInt 8);
   ("dim", JInt 16);
   ("accumulator_bits", JInt 32);
   ("bank_count", JInt 4);
   ("bank_rows", JInt 4096);
   ("accumulator_rows", JInt 1024);
   ("scratchpad_row_bytes", JInt 16);
   ("accumulator_row_bytes", JInt 64);
   ("scratchpad_total_bytes", JInt 262144);
   ("accumulator_total_bytes", JInt 65536);
   ("ws_double_buffered", JBool true);
   ("ws_scratchpad_rows_per_buffer", JInt 8192);
   ("ws_accumulator_rows_per_buffer", JInt 512);
   ("provenance", JObj [("kind", JStr "observed-active-header");
   ("policy", JStr "fixed-256kib-packed-sp-64kib-int32-acc-v1");
   ("reference", JStr "active_d16_reference")]);
   ("tile_policy", JStr "existing-gemmini-h-runtime")].

Definition contract_a8w8_d32_hp1 : json :=
  JObj [("schema_version", JInt 1);
   ("profile", JStr "a8w8-d32-hp1");
   ("activation_bits", JInt 8);
   ("weight_bits", JInt 8);
   ("dim", JInt 32);
   ("accumulator_bits", JInt 32);
   ("bank_count", JInt 4);
   ("bank_rows", JInt 2048);
   ("accumulator_rows", JInt 512);
   ("scratchpad_row_bytes", JInt 32);
   ("accumulator_row_bytes", JInt 128);
   ("scratchpad_total_bytes", JInt 262144);
   ("accumulator_total_bytes", JInt 65536);
   ("ws_double_buffered", JBool true);
   ("ws_scratchpad_rows_per_buffer", JInt 4096);
   ("ws_accumulator_rows_per_buffer", JInt 256);
   ("provenance", JObj [("kind", JStr "observed-alternate-header");
   ("policy", JStr "fixed-256kib-packed-sp-64kib-int32-acc-v1");
   ("reference", JStr "alternate_d32_reference")]);
   ("tile_policy", JStr "existing-gemmini-h-runtime")].

Definition contract_a8w8_d64_hp1 : json :=
  JObj [("schema_version", JInt 1);
   ("profile", JStr "a8w8-d64-hp1");
   ("activation_bits", JInt 8);
   ("weight_bits", JInt 8);
   ("dim", JInt 64);
   ("accumulator_bits", JInt 32);
   ("bank_count", JInt 4);
   ("bank_rows", JInt 1024);
   ("accumulator_rows", JInt 256);
   ("scratchpad_row_bytes", JInt 64);
   ("accumulator_row_bytes", JInt 256);
   ("scratchpad_total_bytes", JInt 262144);
   ("accumulator_total_bytes", JInt 65536);
   ("ws_double_buffered", JBool true);
   ("ws_scratchpad_rows_per_buffer", JInt 2048);
   ("ws_accumulator_rows_per_buffer", JInt 128);
   ("provenance", JObj [("kind", JStr "derived-dim");
   ("policy", JStr "fixed-256kib-packed-sp-64kib-int32-acc-v1");
   ("reference", JStr "alternate_d32_reference")]);
   ("tile_policy", JStr "existing-gemmini-h-runtime")].

(** The selections and contract files of the catalog's profiles. *)
Definition selections : list (Z * Z * Z * json) :=
  [(4, 4, 16, contract_a4w4_d16_hp1);
   (4, 4, 32, contract_a4w4_d32_hp1);
   (4, 4, 64, contract_a4w4_d64_hp1);
   (8, 8, 16, contract_a8w8_d16_hp1);
   (8, 8, 32, contract_a8w8_d32_hp1);
   (8, 8, 64, contract_a8w8_d64_hp1)].

End Repository.

(** ** What resolution establishes *)

(** The geometry of a resolved profile: both memories are filled exactly by
    their rows, and each splits into the two halves of double buffering. *)
Record resolved_ok (r : Resolve.ResolvedProfile) : Prop := {
  ro_widths : Resolve.activation_bits (Resolve.memory r) = Resolve.sel_activation_bits (Resolve.selection r) ∧
              Resolve.dim (Resolve.memory r) = Resolve.sel_dim (Resolve.selection r);
  ro_scratchpad : Resolve.bank_rows (Resolve.memory r) * Resolve.bank_count (Resolve.memory r) *
                  Resolve.scratchpad_row_bytes (Resolve.memory r) =
                  Resolve.cat_scratchpad_total_bytes (Resolve.catalog r);
  ro_accumulator : Resolve.accumulator_rows (Resolve.memory r) * (4 * Resolve.sel_dim (Resolve.selection r)) =
                   Resolve.cat_accumulator_total_bytes (Resolve.catalog r);
  ro_row_bytes : Resolve.scratchpad_row_bytes (Resolve.memory r) =
                 Resolve.sel_dim (Resolve.selection r) * Resolve.sel_activation_bits (Resolve.selection r) / 8 ∧
                 Resolve.accumulator_row_bytes (Resolve.memory r) = Resolve.sel_dim (Resolve.selection r) * 4;
  ro_banks : Resolve.bank_count (Resolve.memory r) = Resolve.cat_bank_count (Resolve.catalog r);
  ro_fixed : Resolve.block_size (Resolve.catalog r) = 32 ∧ Resolve.cat_accumulator_bits (Resolve.catalog r) = 32 ∧
             0 < Resolve.scratchpad_read_delay (Resolve.catalog r) ∧
             0 < Resolve.accumulator_latency (Resolve.catalog r);
}.

Section ResolvedProfiles.
Import Resolve.
Open Scope string_scope.
Open Scope Z_scope.

Lemma resolve_profile_ok s cv mv cp mp r :
  resolve_profile s cv mv cp mp = Ok r → selection r = s ∧ resolved_ok r.
Proof.
  unfold resolve_profile. intros H. apply bind_Ok in H as (c & _ & H).
  destruct (filter _ _) as [|sp [|]]; try discriminate.
  apply bind_Ok in H as (m & _ & H). apply bind_Ok in H as ([] & Hc & [= <-]).
  apply check_Ok in Hc. unfold contract_checks in Hc. cbn [forallb id] in Hc.
  z_props. split; [done|]. constructor; cbn; repeat split; try congruence; try lia.
Qed.

Lemma bit_length_pos z : 0 < z → bit_length z = Z.log2 z + 1.
Proof.
  intros Hz. unfold bit_length. rewrite (proj2 (Z.eqb_neq z 0)) by lia. by rewrite Z.abs_eq by lia.
Qed.

Lemma positive_integer_Ok d key z :
  pget d key = JInt z → 0 < z → HardwareFacts.positive_integer d key = Ok z.
Proof.
  unfold HardwareFacts.positive_integer. intros -> Hz.
  by rewrite (proj2 (Z.leb_gt z 0)) by lia.
Qed.

Lemma profile_selection_Ok a w d s :
  profile_selection a w d = Ok s →
  s = {| sel_activation_bits := a; sel_weight_bits := w; sel_dim := d |} ∧
  a = w ∧ (a = 4 ∨ a = 8) ∧ (d = 16 ∨ d = 32 ∨ d = 64).
Proof.
  unfold profile_selection, z_in. intros H. res_inv. cbn [existsb] in *. z_props. split_and!; [done|done|lia|lia].
Qed.

(** The facts handed to the C++ and Scala consumers exist for every
    resolved profile: once [resolve_profile] has accepted a selection
    against a catalog whose bank count and memory capacities are positive,
    [hardware_facts] on the document it writes never raises, and the bank
    and accumulator rows it reports times the row sizes it reports are the
    catalog's capacities. *)
Theorem resolved_profile_facts a w d s cv mv cp mp r src1 sha1 src2 sha2 :
  profile_selection a w d = Ok s →
  resolve_profile s cv mv cp mp = Ok r →
  0 < cat_bank_count (catalog r) →
  0 < cat_scratchpad_total_bytes (catalog r) →
  0 < cat_accumulator_total_bytes (catalog r) →
  ∃ facts, HardwareFacts.hardware_facts (to_document r src1 sha1 src2 sha2) = Ok facts ∧
    sget "array_partial_bits" facts = Some (2 * a + Z.log2 d) ∧
    (∃ rows banks bytes, sget "bank_rows" facts = Some rows ∧ sget "bank_count" facts = Some banks ∧
      sget "scratchpad_row_bytes" facts = Some bytes ∧
      rows * banks * bytes = cat_scratchpad_total_bytes (catalog r)) ∧
    (∃ rows bytes, sget "accumulator_rows" facts = Some rows ∧
      sget "accumulator_row_bytes" facts = Some bytes ∧
      rows * bytes = cat_accumulator_total_bytes (catalog r)).
Proof.
  intros (-> & -> & Ha & Hd)%profile_selection_Ok (Hs & [[Hw Hm] Hsp Hacc [Hrb Hab] Hbc (Hb & Hcb & Hrd & Hal)])%resolve_profile_ok.
  rewrite Hs in *. cbn [sel_activation_bits sel_dim] in *. intros Hbank Hsptot Hacctot.
  assert (Hpos : 0 < bank_rows (memory r) ∧ 0 < accumulator_rows (memory r) ∧
    0 < scratchpad_row_bytes (memory r) ∧ 0 < accumulator_row_bytes (memory r) ∧
    0 < w + w + (bit_length d - 1)).
  { assert (Hbits : 0 < scratchpad_row_bytes (memory r) ∧ 0 < accumulator_row_bytes (memory r) ∧
      0 < w + w + (bit_length d - 1)).
    { rewrite Hab, Hrb. by destruct Ha as [->| ->], Hd as [->|[->| ->]]. }
    rewrite <-Hsp in Hsptot. rewrite <-Hacc in Hacctot.
    apply Z.mul_pos_cancel_r in Hsptot, Hacctot; [|lia..].
    apply Z.mul_pos_cancel_r in Hsptot; lia. }
  destruct Hpos as (Hp1 & Hp2 & Hp3 & Hp4 & Hp5).
  assert (Hlog : w + w + (bit_length d - 1) = 2 * w + Z.log2 d).
  { rewrite bit_length_pos by lia. lia. }
  unfold HardwareFacts.hardware_facts, to_document. rewrite Hs.
  cbn [pget sget aget String.eqb Ascii.eqb Bool.eqb from_option id HardwareFacts.object_ mbind res_bind].
  unfold HardwareFacts.facts_of, HardwareFacts.top_keys, HardwareFacts.memory_keys, HardwareFacts.latency_keys.
  cbn [map_res].
  repeat (erewrite positive_integer_Ok; [|reflexivity|cbn; lia]; cbn [mbind res_bind]).
  eexists. split; [reflexivity|]. cbn -[Z.mul Z.add]. rewrite Hlog. split; [done|].
  split.
  - do 3 eexists. split_and!; [reflexivity..|]. lia.
  - do 2 eexists. split_and!; [reflexivity..|]. lia.
Qed.
End ResolvedProfiles.

(** The document [load_catalog] and [load_memory_contract] are given for a
    selection, and the outcome of resolving it. *)
Definition resolve_repository (a w d : Z) : res Resolve.ResolvedProfile :=
  let* s := Resolve.profile_selection a w d in
  match filter (fun '(a', w', d', _) => a' = a ∧ w' = w ∧ d' = d) Repository.selections with
  | [(_, _, _, contract)] =>
      Resolve.resolve_profile s Repository.catalog_document contract
        "config/gemmini_hp1_profiles.json"
        ("config/gemmini_host_memory_contracts/" +:+ Resolve.selection_name s +:+ ".json")
  | _ => Err (Resolve.failure "no contract file")
  end.

Lemma resolved_profile_facts_witness :
  ∃ r facts, resolve_repository 8 8 16 = Ok r ∧
    HardwareFacts.hardware_facts (Resolve.to_document r "c" "d" "e" "f") = Ok facts.
Proof.
  pose (s := {| Resolve.sel_activation_bits := 8; Resolve.sel_weight_bits := 8; Resolve.sel_dim := 16 |}).
  destruct (Resolve.resolve_profile s Repository.catalog_document Repository.contract_a8w8_d16_hp1
    "config/gemmini_hp1_profiles.json"
    "config/gemmini_host_memory_contracts/a8w8-d16-hp1.json") as [r|] eqn:E; [|vm_compute in E; discriminate E].
  destruct (resolved_profile_facts 8 8 16 s _ _ _ _ r "c" "d" "e" "f" eq_refl E) as (facts & Hf & _);
    [vm_compute in E; injection E as <-; reflexivity..|].
  exists r, facts. split; [exact E|exact Hf].
Defined.

(** Every selection the command line accepts resolves against the
    configuration files of the repository: whenever [ProfileSelection] does
    not raise, the catalog lists the profile once, its host memory contract
    passes every check of [resolve_profile], and the hardware facts of the
    written document exist. *)
Theorem repository_profiles_resolve a w d s :
  Resolve.profile_selection a w d = Ok s →
  ∃ r facts, resolve_repository a w d = Ok r ∧ Resolve.selection r = s ∧
    HardwareFacts.hardware_facts (Resolve.to_document r "" "" "" "") = Ok facts.
Proof.
  intros H. pose proof H as (-> & <- & Ha & Hd)%profile_selection_Ok.
  destruct Ha as [->| ->], Hd as [->|[->| ->]]; vm_compute; do 2 eexists; split_and!; reflexivity.
Qed.

Lemma repository_profiles_resolve_witness : is_ok (resolve_repository 4 4 64) = true.
Proof.
  destruct (repository_profiles_resolve 4 4 64 _ eq_refl) as (r & facts & -> & _). reflexivity.
Defined.

(** ** The accumulator geometry of [im2p_config.py] *)

Lemma land_pred_pow2 x : 0 < x → Z.land x (x - 1) = 0 → x = 2 ^ Z.log2 x.
Proof.
  intros Hx Hland. destruct (Z.log2_spec x Hx) as [Hlo Hhi].
  destruct (Z.eq_dec x (2 ^ Z.log2 x)) as [|Hne]; [done|]. exfalso.
  assert (Hb : Z.testbit (Z.land x (x - 1)) (Z.log2 x) = true).
  { rewrite Z.land_spec, Z.bit_log2 by done. cbn.
    rewrite <-(Z.log2_unique (x - 1) (Z.log2 x)); [apply Z.bit_log2; pose proof (Z.pow_pos_nonneg 2 (Z.log2 x)); pose proof (Z.log2_nonneg x); lia| |lia].
    apply Z.log2_nonneg. }
  by rewrite Hland, Z.bits_0 in Hb.
Qed.

(** A profile configuration is only produced for a power-of-two
    accumulator: [accumulator_rows] is [2 ^ row_address_bits], is at least
    [dim], fills the logical capacity exactly, and the generated C header
    computes the same address width for that geometry. *)
Theorem profile_config_geometry `{Host} source fingerprint files a w d cfg :
  Config.profile_config source fingerprint files a w d = Ok cfg →
  0 < d → 0 < Config.accumulator_bits cfg →
  Config.accumulator_rows cfg = 2 ^ Config.row_address_bits cfg ∧
  d <= Config.accumulator_rows cfg ∧
  Config.accumulator_rows cfg * (d * Config.accumulator_bits cfg) = Config.logical_capacity_bytes source * 8 ∧
  Config.header_row_address_bits (Config.logical_capacity_bytes source) d (Config.accumulator_bits cfg) =
    Config.row_address_bits cfg ∧
  (∀ path content, (path, content) ∈ from_option id [] (match Config.generated_files source fingerprint with Ok l => Some l | Err _ => None end) →
     files path = Some content).
Proof.
  unfold Config.profile_config. intros Hrun Hd Hw.
  apply bind_Ok in Hrun as ([] & _ & Hrun). apply bind_Ok in Hrun as ([] & _ & Hrun).
  apply bind_Ok in Hrun as (rows & Hg & Hrun). apply bind_Ok in Hrun as (gen & Hgen & Hrun).
  apply bind_Ok in Hrun as ([] & Hfiles & [= <-]). cbn in Hw |- *.
  rewrite Hgen. cbn. unfold Config.accumulator_geometry in Hg.
  set (width := default 0 (sget (dec a) _)) in *. set (cap := Config.logical_capacity_bytes source) in *.
  destruct (negb _ || _ || _) eqn:E; [discriminate|]. injection Hg as <-.
  apply orb_false_iff in E as [[E1 E2]%orb_false_iff E3]. apply negb_false_iff in E1, E3. z_props.
  set (rows := cap * 8 / (d * width)) in *.
  assert (Hpow : rows = 2 ^ Z.log2 rows) by (apply land_pred_pow2; [lia|done]).
  assert (Hbits : Resolve.bit_length (rows - 1) = Z.log2 rows).
  { destruct (Z.eq_dec rows 1) as [->|Hne]; [done|]. rewrite bit_length_pos by lia.
    rewrite Hpow at 1. rewrite Z.sub_1_r, Z.log2_pred_pow2; [lia|]. apply Z.log2_pos. lia. }
  rewrite Hbits. split_and!; [done|done| |by rewrite <-Hbits|].
  - pose proof (Z.div_mod (cap * 8) (d * width)) as Hdm. fold rows in Hdm. nia.
  - intros path content Hin. apply iter_res_Ok in Hfiles. rewrite Forall_forall in Hfiles.
    specialize (Hfiles _ Hin). cbn in Hfiles. apply check_Ok in Hfiles.
    destruct (files path); [|done]. by apply String.eqb_eq in Hfiles as ->.
Qed.

Lemma profile_config_geometry_witness :
  ∃ cfg, Config.profile_config (H := text_host) Config.repository_source "f"
    (fun path => match Config.generated_files Config.repository_source "f" with
                 | Ok l => sget path l | Err _ => None end) 8 8 16 = Ok cfg ∧
    Config.accumulator_rows cfg = 2 ^ Config.row_address_bits cfg.
Proof.
  destruct (Config.profile_config (H := text_host) _ _ _ _ _ _) as [cfg|] eqn:E; [|vm_compute in E; discriminate E].
  exists cfg. split; [reflexivity|].
  eapply (@profile_config_geometry text_host); [exact E|reflexivity|].
  vm_compute in E. injection E as <-. reflexivity.
Defined.
