(* ===== verification/TraceSchema.v ===== *)
(** * NPU trace schema

    [sim/cycle/npu_trace_schema.py]: the fields of every record kind, the
    [RUN] record and the [NPU_WORK] record with its geometry checks, and
    [sim/cycle/npu_trace_runs.py]: the run-aware view of residual work. *)
From S2P Require Import Prelude Records Profiles.
Set Default Goal Selector "!".

Definition SCHEMA : string := "im2p-npu-cycle-trace".
Definition VERSION : Z := 2.
Definition LEGACY_VERSION : Z := 1.
Definition RUN_REVISION : string := "cross-block-run-aware-v1".
Definition COMMON : list string :=
  ["schema"; "version"; "kind"; "sequence"; "run_id"; "collection_run_id"; "run_config_id"; "source_role"].
Definition SEMANTIC_FIELDS : list string :=
  ["semantic_phase_kind"; "semantic_decode_index"; "semantic_graph_occurrence"; "semantic_node_ordinal"].
Definition INPUT_KEYS : list string :=
  ["m"; "n"; "k"; "tile_i_count"; "tile_j_count"; "tile_k_count";
   "activation_stride_bytes"; "weight_stride_bytes"; "output_stride_bytes"; "scale_stride_elements"].

Definition FIELDS : list (string * list string) := [
  ("RUN", ["model"; "profile"; "activation_bits"; "weight_bits"; "dim"; "prompt_tokens";
    "requested_generated_tokens"; "producer_execution_kind"; "actual_rtl_acceptance_in_collection";
    "hardware_contract"; "hardware_contract_sha256"; "collection_scope"]);
  ("PHASE", ["phase_id"; "phase_kind"; "decode_index"; "input_tokens"]);
  ("TARGET_OPERATION", ["phase_id"; "operation_id"; "node_id"; "layer"; "operation"; "actual_backend";
    "activation_type"; "weight_type"; "m"; "n"; "k"; "target_eligible";
    "selected_target"; "reason"; "status"; "npu_work_count"]);
  ("NPU_WORK", ["phase_id"; "operation_id"; "node_id"; "parent_id"; "call_id"; "work_id"; "layer";
    "operation"; "provenance"; "scope"; "activation_bits"; "weight_bits"; "dim"] ++ INPUT_KEYS ++
    ["parent_m"; "production_geometry_version"; "row_begin"; "row_count"; "stripe_id"; "host_slot";
    "original_block_id"; "block_size"; "vector_op"; "output_domain"; "work_context";
    "source_row_begin"; "source_row_count"; "column_begin"; "group_index"; "rmd_raw";
    "host_integer_block_multiply"; "hardware_contract_sha256"; "required_host_stage_ids"]);
  ("NPU_CALL", ["phase_id"; "operation_id"; "node_id"; "parent_id"; "call_id"; "call_kind"; "stage";
    "required_work_ids"]);
  ("HOST_STAGE", ["phase_id"; "operation_id"; "node_id"; "parent_id"; "call_id"; "host_stage_id";
    "execution_class"; "stage_name"; "source_owner"; "source_location"; "required_work_ids";
    "required_host_stage_ids"; "event"; "status"]);
  ("RUN_END", ["status"; "reason"; "registered_operation_count"; "completed_operation_count";
    "target_npu_count"; "ordinary_cpu_count"; "unsupported_count"; "excluded_count";
    "npu_work_count"; "call_count"; "phase_count"; "host_stage_count"; "completed_host_stage_count";
    "potal_host_count"; "functional_emulation_count"])].

(** [FIELDS_V2]: the two kinds version 2 extends. *)
Definition FIELDS_V2 : list (string * list string) :=
  map (fun '(kind, names) =>
    if String.eqb kind "RUN" then (kind, names ++ ["residual_work_revision"])
    else if String.eqb kind "NPU_WORK" then
      (kind, names ++ ["original_k"; "runs"; "row_map"; "residual_work_revision"])
    else (kind, names)) FIELDS.

Definition CLASSES : list string := ["TARGET_NPU"; "ORDINARY_CPU"; "UNSUPPORTED"; "EXCLUDED"].

(** [parse_record(line)] on the syntax tree of the line. *)
Definition parse_record (raw : json) : res record :=
  let* value := decode unique_pairs raw in
  let* r := object_value value in
  let version := pget r "version" in
  require (eq_str (pget r "schema") SCHEMA && is_int version && in_ints version [LEGACY_VERSION; VERSION])
    "unsupported schema/version; production optrace is a separate format" ;;;
  let* kind := text r "kind" in
  require (smem kind FIELDS) "unknown record kind" ;;;
  let semantic := if str_in kind ["TARGET_OPERATION"; "NPU_WORK"; "NPU_CALL"; "HOST_STAGE"]
    then SEMANTIC_FIELDS else [] in
  let expected := if eq_int version VERSION then FIELDS_V2 else FIELDS in
  require (keys_are r (COMMON ++ default [] (sget kind expected) ++ semantic))
    ("missing/unknown " +:+ kind +:+ " fields") ;;;
  let* _ := integer r "sequence" in
  let* _ := integer r "collection_run_id" in
  let* _ := text r "run_id" in
  let* _ := text r "run_config_id" in
  let* role := item r "source_role" in
  require (eq_str role "POTAL_COLLECTION") "NPU trace requires PoTal collection ownership" ;;;
  (if match semantic with [] => false | _ => true end
   then let* _ := semantic_key r in Ok tt else Ok tt) ;;;
  Ok r.

Record Run := {
  run_identity : string;
  collection_id : Z;
  run_config_id : string;
  run_profile : string;
  widths_dim : Z * Z * Z;
  run_contract : record;
  contract_hash : string;
  trace_version : Z;
  run_residual_work_revision : option string;
}.

Record RunSpan := {
  original_block_id : Z;
  original_k_mask : Z;
  compact_k_begin : Z;
  compact_k_count : Z;
}.

Record RowIdentity := { source_row : Z; lane_id : Z }.

Definition parse_run `{Host} (r : record) : res Run :=
  let* kind := item r "kind" in
  require (eq_str kind "RUN") "first record must be RUN" ;;;
  let* profile := text r "profile" in
  let* a := integer r "activation_bits" in
  let* w := integer r "weight_bits" in
  let* dim := integer r "dim" in
  require ((a =? w) && z_in a [4; 8] && z_in dim [16; 32; 64] &&
           String.eqb profile (Resolve.profile_name a w dim)) "unsupported profile/DIM" ;;;
  let* _ := text r "model" in
  let* _ := integer r "prompt_tokens" in
  let* _ := integer r "requested_generated_tokens" in
  let* producer := item r "producer_execution_kind" in
  require_res (Ok (eq_str producer "CPU_FUNCTIONAL") andM
    (let* rtl := item r "actual_rtl_acceptance_in_collection" in Ok (eq_str rtl "NOT_APPLICABLE")))
    "collection is not CPU-functional" ;;;
  let* scope := item r "collection_scope" in
  require (eq_str scope "prompt_and_generation") "unsupported collection scope" ;;;
  let* contract_value := item r "hardware_contract" in
  let* contract := object_value contract_value in
  Contract.validate_contract contract profile ;;;
  let* digest := text r "hardware_contract_sha256" in
  let* declared := item contract "sha256" in
  require (eq_str declared digest) "run hardware contract hash mismatch" ;;;
  let* version := integer r "version" in
  let* revision :=
    (if version =? VERSION then
       let* revision := item r "residual_work_revision" in
       require (eq_str revision RUN_REVISION) "unsupported residual work revision" ;;;
       Ok (Some RUN_REVISION)
     else Ok None) in
  let* identity := text r "run_id" in
  let* collection := integer r "collection_run_id" in
  let* config := text r "run_config_id" in
  Ok {| run_identity := identity; collection_id := collection; run_config_id := config;
        run_profile := profile; widths_dim := (a, w, dim); run_contract := contract;
        contract_hash := digest; trace_version := version;
        run_residual_work_revision := revision |}.

(** ** [npu_trace_runs.py] *)

(** [mask.bit_count()] of a nonnegative integer. *)
Fixpoint pos_count (p : positive) : Z :=
  match p with xH => 1 | xO p => pos_count p | xI p => 1 + pos_count p end.
Definition bit_count (z : Z) : Z := match z with Zpos p => pos_count p | _ => 0 end.

(** The dispatch cursor of the span loop: spans so far, next compact K,
    previous original block. *)
Abbreviation span_state := (list RunSpan * Z * Z)%type.

Definition parse_span (fragments_per_block original_k : Z) (st : span_state) (raw : json) : res span_state :=
  let '(spans, cursor, previous) := st in
  let* it := object_value raw in
  require (keys_are it ["original_block_id"; "original_k_mask"; "compact_k_begin"; "compact_k_count"])
    "invalid run fields" ;;;
  let* block := integer it "original_block_id" in
  let* mask := integer it "original_k_mask" in
  let* start := integer it "compact_k_begin" in
  let* count := integer it "compact_k_count" in
  require ((block <=? (2 ^ 16 - 1) / fragments_per_block) && (previous <? block) &&
           (0 <? mask) && (mask <? 2 ^ 32) && (0 <? count) && (count <=? 32) &&
           (bit_count mask =? count) && (start =? cursor) &&
           (block * 32 + Resolve.bit_length mask <=? original_k))
    "invalid run coverage/owner/mask" ;;;
  Ok (spans ++ [{| original_block_id := block; original_k_mask := mask;
                   compact_k_begin := start; compact_k_count := count |}],
      cursor + count, block).

(** Python's [>] on pairs of integers. *)
Definition pair_gtb (x y : Z * Z) : bool :=
  (y.1 <? x.1) || (x.1 =? y.1) && (y.2 <? x.2).

Definition parse_row (bits source_rows : Z) (st : list RowIdentity * (Z * Z)) (raw : json)
    : res (list RowIdentity * (Z * Z)) :=
  let '(mapped, last) := st in
  let* it := object_value raw in
  require (keys_are it ["source_row"; "lane_id"]) "invalid row_map fields" ;;;
  let* row := integer it "source_row" in
  let* lane := integer it "lane_id" in
  let key := (lane, row) in
  require ((row <? source_rows) && (lane <? 32 / bits + 1) && pair_gtb key last)
    "invalid/duplicate/unsorted original row or radix lane" ;;;
  Ok (mapped ++ [{| source_row := row; lane_id := lane |}], key).

Definition parse_run_view (r : record) (profile : Z * Z * Z) (m n k : Z)
    : res (Z * list RunSpan * list RowIdentity) :=
  let '(bits, _, dim) := profile in
  let* original_k := integer r "original_k" in
  require ((0 <? original_k) && (original_k <=? 2 ^ 32 - 1) && (0 <? m) && (m <=? 2 ^ 32 - 1) &&
           (0 <? n) && (n <=? 2 ^ 32 - 1) && (0 <? k) && (k <=? 2 ^ 32 - 1))
    "run work exceeds public numerical integer widths" ;;;
  let* runs_value := item r "runs" in
  let* raw_runs := match runs_value with
    | JArr l => Ok l | _ => Err (NpuTraceError "runs must be an array") end in
  require ((0 <? Z.of_nat (length raw_runs)) && (Z.of_nat (length raw_runs) <=? k))
    "run count must be nonzero and bounded by compact K" ;;;
  let fragments_per_block := 32 / Z.min dim 32 in
  let* spans_end := fold_res (parse_span fragments_per_block original_k) ([], 0, -1) raw_runs in
  let '(spans, cursor, _) := spans_end in
  require (cursor =? k) "runs must cover compact K exactly" ;;;
  let* rows_value := item r "row_map" in
  let* raw_rows := match rows_value with
    | JArr l => Ok l | _ => Err (NpuTraceError "row_map must be an array") end in
  let* source_rows := integer r "source_row_count" in
  let* source_begin := integer r "source_row_begin" in
  require ((0 <? source_rows) && (source_rows <=? 2 ^ 32 - 1) &&
           (source_begin + source_rows <? 2 ^ 64) && (Z.of_nat (length raw_rows) =? m))
    "row_map/source stripe extent mismatch" ;;;
  let* mapped_end := fold_res (parse_row bits source_rows) ([], (-1, -1)) raw_rows in
  let '(mapped, _) := mapped_end in
  Ok (original_k, spans, mapped).

(** ** [NPU_WORK] *)

Record Work := {
  phase : Z;
  operation_id : Z;
  parent_id : Z;
  node_id : Z;
  call_id : Z;
  identity : Z;
  layer : string;
  operation : string;
  provenance : string;
  scope : string;
  parent_rows : Z;
  row_begin : Z;
  stripe_id : option Z;
  inputs : list Z;
  original_k : option Z;
  runs : list RunSpan;
  row_map : list RowIdentity;
  residual_work_revision : option string;
}.

Definition is_empty_list (j : json) : bool := jeq j (JArr []).

(** The run view of a work record: original K, spans, row map, revision. *)
Abbreviation run_view := (option Z * list RunSpan * list RowIdentity * option string)%type.

Definition work_runs (r : record) (run : Run) (provenance scope : string) (m n k : Z) : res run_view :=
  let dense := String.eqb provenance "dense_main" && str_in scope ["full"; "stripe"] in
  let residual := String.eqb provenance "residual" && String.eqb scope "residual_compact" in
  let* version := integer r "version" in
  if version =? VERSION then
    require (dense || residual) "invalid dense/residual scope" ;;;
    let* block := item r "original_block_id" in
    require (is_null block) "v2 original block identity belongs in runs" ;;;
    if String.eqb provenance "residual" then
      let* view := parse_run_view r (widths_dim run) m n k in
      let '(original_k, spans, rows) := view in
      let* revision := item r "residual_work_revision" in
      require (match run_residual_work_revision run with
               | Some s => eq_str revision s | None => is_null revision end)
        "work/run residual revision mismatch" ;;;
      Ok (Some original_k, spans, rows, run_residual_work_revision run)
    else
      require_res ((let* v := item r "original_k" in Ok (is_null v)) andM
                   (let* v := item r "runs" in Ok (is_empty_list v)) andM
                   (let* v := item r "row_map" in Ok (is_empty_list v)) andM
                   (let* v := item r "residual_work_revision" in Ok (is_null v)))
        "dense work cannot carry residual runs" ;;;
      Ok (None, [], [], None)
  else
    require_res
      ((Ok dense andM (let* block := item r "original_block_id" in Ok (is_null block))) orM
       (Ok (residual && (k <=? 32)) andM
        (let* block := item r "original_block_id" in Ok (negb (is_null block)))))
      "invalid legacy dense/residual scope" ;;;
    Ok (None, [], [], None).

(** The descriptor checks on the ten input values. *)
Definition check_geometry (values : list Z) (dim : Z) : res (Z * Z * Z) :=
  require (forallb (fun v => 0 <? v) values) "geometry/strides must be positive" ;;;
  match values with
  | [m; n; k; ti; tj; tk; a; w; out; scale] =>
      require ((ti <=? 65535 / dim) && (tj <=? 65535 / dim) && (tk <=? (2 ^ 32 - 1) / dim))
        "tile outside hardware domain" ;;;
      require ((k <=? a) && (n <=? w) && (4 * n <=? out) && (out mod 4 =? 0) && (n <=? scale))
        "invalid descriptor strides" ;;;
      Ok (m, n, k)
  | _ => Err (ValueError "not enough values to unpack")
  end.

Definition parse_work (r : record) (run : Run) : res Work :=
  iter_res (fun key => let* _ := integer r key in Ok tt)
    ["phase_id"; "operation_id"; "parent_id"; "node_id"; "call_id"; "work_id"; "parent_m"; "row_begin";
     "row_count"; "production_geometry_version"; "block_size"; "vector_op"; "output_domain";
     "work_context"; "source_row_begin"; "source_row_count"; "column_begin"; "group_index"] ;;;
  iter_res (fun key => let* _ := optional_integer r key in Ok tt)
    ["stripe_id"; "host_slot"; "original_block_id"] ;;;
  let* bits := map_res (integer r) ["activation_bits"; "weight_bits"; "dim"] in
  let '(run_a, run_w, dim) := widths_dim run in
  require (bool_decide (bits = [run_a; run_w; dim])) "work/run profile mismatch" ;;;
  let* hash := item r "hardware_contract_sha256" in
  require (eq_str hash (contract_hash run)) "work hardware contract mismatch" ;;;
  let* values := map_res (integer r) INPUT_KEYS in
  let* shape := check_geometry values dim in
  let '(m, n, k) := shape in
  let* block_size := item r "block_size" in
  let* vector_op := item r "vector_op" in
  let* output_domain := item r "output_domain" in
  let* geometry := item r "production_geometry_version" in
  require (eq_int block_size 32 && eq_int vector_op 5 && eq_int output_domain 2 && eq_int geometry 1)
    "unsupported HP1 descriptor contract" ;;;
  require_res ((let* v := item r "rmd_raw" in Ok (is_false v)) andM
               (let* v := item r "host_integer_block_multiply" in Ok (is_false v)))
    "raw/host integer work forbidden" ;;;
  let* rows := integer r "parent_m" in
  let* start := integer r "row_begin" in
  let* row_count := item r "row_count" in
  require (eq_int row_count m && (start + m <=? rows)) "invalid parent row range" ;;;
  let* slot := item r "host_slot" in
  require (is_null slot || in_ints slot [0; 1]) "host slot outside [0,1]" ;;;
  let* provenance := text r "provenance" in
  let* scope := text r "scope" in
  let* view := work_runs r run provenance scope m n k in
  let '(original_k, spans, rows_map, revision) := view in
  let* stripe :=
    (if String.eqb scope "stripe" then
       let* s := integer r "stripe_id" in
       let* _ := integer r "host_slot" in
       Ok (Some s)
     else
       require ((start =? 0) && (rows =? m)) "FULL/compact must cover exactly its dispatch" ;;;
       Ok None) in
  let* phase_id := integer r "phase_id" in
  let* operation_id := integer r "operation_id" in
  let* parent_id := integer r "parent_id" in
  let* node_id := integer r "node_id" in
  let* call_id := integer r "call_id" in
  let* work_id := integer r "work_id" in
  let* layer := text r "layer" in
  let* operation := text r "operation" in
  Ok {| phase := phase_id; operation_id := operation_id; parent_id := parent_id;
        node_id := node_id; call_id := call_id; identity := work_id; layer := layer;
        operation := operation; provenance := provenance; scope := scope;
        parent_rows := rows; row_begin := start; stripe_id := stripe; inputs := values;
        original_k := original_k; runs := spans; row_map := rows_map;
        residual_work_revision := revision |}.

(** ** What an accepted work record guarantees *)

Record geometry_ok (dim : Z) (w : Work) : Prop := {
  geo_inputs : ∃ m n k ti tj tk a b out scale, inputs w = [m; n; k; ti; tj; tk; a; b; out; scale] ∧
    0 < m ∧ 0 < n ∧ 0 < k ∧ 0 < ti <= 65535 / dim ∧ 0 < tj <= 65535 / dim ∧
    0 < tk <= (2 ^ 32 - 1) / dim ∧ k <= a ∧ n <= b ∧ 4 * n <= out ∧ out mod 4 = 0 ∧ n <= scale ∧
    row_begin w + m <= parent_rows w ∧
    (scope w ≠ "stripe" → row_begin w = 0 ∧ parent_rows w = m);
  geo_rows : 0 <= row_begin w ∧ 0 <= parent_rows w < 2 ^ 64;
  geo_stripe : is_Some (stripe_id w) ↔ scope w = "stripe";
  geo_ids : 0 <= identity w ∧ 0 <= parent_id w ∧ 0 <= call_id w ∧ 0 <= operation_id w;
}.

Lemma check_geometry_Ok values dim m n k :
  check_geometry values dim = Ok (m, n, k) →
  ∃ ti tj tk a b out scale, values = [m; n; k; ti; tj; tk; a; b; out; scale] ∧
    0 < m ∧ 0 < n ∧ 0 < k ∧ 0 < ti <= 65535 / dim ∧ 0 < tj <= 65535 / dim ∧
    0 < tk <= (2 ^ 32 - 1) / dim ∧ k <= a ∧ n <= b ∧ 4 * n <= out ∧ out mod 4 = 0 ∧ n <= scale.
Proof.
  unfold check_geometry, require. intros H. res_inv.
  do 11 (destruct values as [|? values]; try discriminate).
  res_inv. cbn [forallb] in *. z_props. do 7 eexists. split; [reflexivity|]. lia.
Qed.

Lemma parse_work_geometry r run w :
  parse_work r run = Ok w → geometry_ok (widths_dim run).2 w.
Proof.
  unfold parse_work, require, require_res. intros H.
  destruct (widths_dim run) as [[ra rw] dim]. cbn [snd].
  res_inv. z_props.
  match goal with H : check_geometry _ _ = Ok _ |- _ =>
    apply check_geometry_Ok in H as (ti & tj & tk & a & b & out & scale & -> & ?) end.
  repeat match goal with H : integer _ _ = Ok _ |- _ => apply integer_bounds in H end.
  res_case; res_inv; z_props; constructor; cbn.
  all: try (split_and?; lia).
  - repeat eexists; intuition (congruence || lia).
  - by split; eauto.
  - repeat eexists; intuition lia.
  - split; [by intros []|done].
Qed.

(** ** What an accepted run view guarantees *)

(** The original K positions a span keeps, in increasing order. *)
Definition mask_bits (n : nat) (mask : Z) : list Z :=
  filter (fun i => Z.testbit mask i = true) (seqZ 0 (Z.of_nat n)).
Definition span_positions (s : RunSpan) : list Z :=
  map (fun i => original_block_id s * 32 + i) (mask_bits 32 (original_k_mask s)).
Definition positions (spans : list RunSpan) : list Z := concat (map span_positions spans).

(** Spans tile the compact K axis from [from] on. *)
Fixpoint tiles (from : Z) (spans : list RunSpan) : Prop :=
  match spans with
  | [] => True
  | s :: spans => compact_k_begin s = from ∧ 0 < compact_k_count s ∧ tiles (from + compact_k_count s) spans
  end.
Fixpoint span_total (spans : list RunSpan) : Z :=
  match spans with [] => 0 | s :: spans => compact_k_count s + span_total spans end.

(** Bit counting agrees with counting the set bits. *)
Lemma bit_count_double_bit z b : 0 <= z → bit_count (2 * z + Z.b2z b) = bit_count z + Z.b2z b.
Proof.
  destruct z as [|p|p]; [by destruct b| |lia]. intros _. destruct b.
  - change (1 + pos_count p = pos_count p + 1). lia.
  - change (pos_count p = pos_count p + 0). lia.
Qed.

Lemma mask_bits_S n z b :
  0 <= z → mask_bits (S n) (2 * z + Z.b2z b) =
  (if b then [0] else []) ++ map (Z.add 1) (mask_bits n z).
Proof.
  intros Hz. unfold mask_bits. rewrite Nat2Z.inj_succ, seqZ_cons, Z.pred_succ by lia.
  rewrite filter_cons, Z.testbit_0_r.
  assert (Htail : filter (fun i => Z.testbit (2 * z + Z.b2z b) i = true) (seqZ (Z.succ 0) (Z.of_nat n)) =
          map (Z.add 1) (filter (fun i => Z.testbit z i = true) (seqZ 0 (Z.of_nat n)))).
  { change (Z.succ 0) with (1 + 0). rewrite <-fmap_add_seqZ.
    assert (Hall : Forall (fun i => 0 <= i) (seqZ 0 (Z.of_nat n))).
    { apply Forall_forall. intros i Hi. apply elem_of_seqZ in Hi. lia. }
    induction Hall as [|i l Hi _ IH]; [done|]. rewrite fmap_cons, !filter_cons, IH.
    replace (1 + i) with (Z.succ i) by lia. rewrite Z.testbit_succ_r by lia.
    destruct (Z.testbit z i); [|done]. cbn [decide bool_eq_dec]. case_decide; [|done]. by rewrite map_cons, Z.add_1_l. }
  rewrite Htail. by destruct b.
Qed.

Lemma mask_bits_count n mask :
  0 <= mask < 2 ^ Z.of_nat n → Z.of_nat (length (mask_bits n mask)) = bit_count mask.
Proof.
  revert mask. induction n as [|n IH]; intros mask Hm.
  - replace mask with 0 by (cbn in Hm; lia). done.
  - rewrite Nat2Z.inj_succ, Z.pow_succ_r in Hm by lia.
    rewrite (Z.div2_odd mask). pose proof (Z.div2_odd mask) as Hd.
    assert (0 <= Z.div2 mask < 2 ^ Z.of_nat n) as Hr by (destruct (Z.odd mask); cbn in Hd; lia).
    rewrite mask_bits_S, bit_count_double_bit, length_app, length_map by lia.
    rewrite Nat2Z.inj_add, IH by done. destruct (Z.odd mask); cbn; lia.
Qed.

Lemma mask_bits_sorted n mask : StronglySorted Z.lt (mask_bits n mask).
Proof.
  unfold mask_bits. generalize 0 as k, (Z.of_nat n) as m. intros k m.
  destruct (Z_lt_le_dec m 0) as [|Hm]; [rewrite seqZ_nil by lia; constructor|].
  revert k. pattern m. apply natlike_ind; [| |done]; clear m Hm.
  - intros k. rewrite seqZ_nil by lia. constructor.
  - intros m Hm IH k. rewrite seqZ_cons by lia. rewrite Z.pred_succ, filter_cons.
    case_decide; [|apply IH]. constructor; [apply IH|].
    apply Forall_forall. intros i [_ Hi]%list_elem_of_filter. apply elem_of_seqZ in Hi. lia.
Qed.

Lemma elem_of_mask_bits n mask i :
  i ∈ mask_bits n mask ↔ Z.testbit mask i = true ∧ 0 <= i < Z.of_nat n.
Proof. unfold mask_bits. rewrite list_elem_of_filter, elem_of_seqZ. intuition lia. Qed.

Lemma testbit_below_bit_length mask i :
  0 < mask → Z.testbit mask i = true → i < Resolve.bit_length mask.
Proof.
  intros Hm Hb. unfold Resolve.bit_length. rewrite (proj2 (Z.eqb_neq mask 0)) by lia.
  rewrite Z.abs_eq by lia. destruct (Z_lt_le_dec i (Z.log2 mask + 1)); [done|].
  rewrite Z.bits_above_log2 in Hb by lia. done.
Qed.

(** What one pass of the span loop preserves. *)
Record span_inv (bound : Z) (st : span_state) : Prop := {
  si_tiles : tiles 0 st.1.1;
  si_total : span_total st.1.1 = st.1.2;
  si_sorted : StronglySorted Z.lt (positions st.1.1);
  si_bound : Forall (fun p => 0 <= p < bound ∧ p < 32 * (st.2 + 1)) (positions st.1.1);
  si_length : Z.of_nat (length (positions st.1.1)) = st.1.2;
  si_previous : -1 <= st.2;
}.

Lemma tiles_snoc from spans s :
  tiles from (spans ++ [s]) ↔
  tiles from spans ∧ compact_k_begin s = from + span_total spans ∧ 0 < compact_k_count s.
Proof.
  revert from. induction spans as [|t spans IH]; intros from; cbn.
  - rewrite Z.add_0_r. tauto.
  - rewrite IH. rewrite Z.add_assoc. tauto.
Qed.

Lemma span_total_snoc spans s : span_total (spans ++ [s]) = span_total spans + compact_k_count s.
Proof. induction spans as [|t spans IH]; cbn; [lia|]. rewrite IH. lia. Qed.

Lemma StronglySorted_app_lt (l k : list Z) :
  StronglySorted Z.lt l → StronglySorted Z.lt k → (∀ x y, x ∈ l → y ∈ k → x < y) →
  StronglySorted Z.lt (l ++ k).
Proof.
  induction 1 as [|x l Hl IH Hx]; intros Hk H; cbn; [done|]. constructor.
  - apply IH; [done|]. intros. apply H; [by constructor|done].
  - apply Forall_app. split; [done|]. apply Forall_forall. intros y Hy. apply H; [constructor|done].
Qed.

Lemma StronglySorted_map_add c l : StronglySorted Z.lt l → StronglySorted Z.lt (map (fun i => c + i) l).
Proof.
  induction 1 as [|x l Hl IH Hx]; cbn; constructor; [done|].
  apply Forall_map. eapply Forall_impl; [exact Hx|]. cbn. lia.
Qed.

Lemma parse_span_inv fpb bound st raw st' :
  span_inv bound st → parse_span fpb bound st raw = Ok st' → span_inv bound st'.
Proof.
  destruct st as [[spans c] previous]. intros [Ht Htot Hs Hb Hl Hp] H.
  unfold parse_span, require in H. res_inv. z_props. cbn [fst snd] in *.
  repeat match goal with H : integer _ _ = Ok _ |- _ => apply integer_bounds in H end.
  set (s := {| original_block_id := _ |}).
  assert (Hpos : positions (spans ++ [s]) = positions spans ++ span_positions s).
  { unfold positions. rewrite map_app, concat_app. cbn. by rewrite app_nil_r. }
  assert (Hnew : Forall (fun p => 0 <= p < bound ∧ 32 * (previous + 1) <= p < 32 * (original_block_id s + 1))
            (span_positions s)).
  { apply Forall_forall. unfold span_positions. intros p (i & <- & Hi)%list_elem_of_In%in_map_iff.
    apply list_elem_of_In, elem_of_mask_bits in Hi as [Hi ?]. subst s; cbn in *.
    apply testbit_below_bit_length in Hi; lia. }
  constructor; cbn [fst snd].
  - apply tiles_snoc. subst s; cbn. intuition lia.
  - rewrite span_total_snoc. subst s; cbn. lia.
  - rewrite Hpos. apply StronglySorted_app_lt; [done| |].
    + apply StronglySorted_map_add, mask_bits_sorted.
    + rewrite Forall_forall in Hb, Hnew. intros p q Hpin Hqin. specialize (Hb p Hpin).
      specialize (Hnew q Hqin). lia.
  - rewrite Hpos. apply Forall_app. subst s; cbn in *. split; [eapply Forall_impl; [exact Hb|]|eapply Forall_impl; [exact Hnew|]]; cbn; intros; lia.
  - rewrite Hpos, length_app, Nat2Z.inj_add, Hl. unfold span_positions. rewrite length_map.
    rewrite mask_bits_count; subst s; cbn; lia.
  - lia.
Qed.

Lemma parse_row_inv bits rows st raw st' :
  (StronglySorted (fun x y => pair_gtb (lane_id y, source_row y) (lane_id x, source_row x) = true) st.1 ∧
   Forall (fun x => 0 <= source_row x < rows ∧ 0 <= lane_id x <= 32 / bits ∧
             (st.2 = (lane_id x, source_row x) ∨ pair_gtb st.2 (lane_id x, source_row x) = true)) st.1) →
  parse_row bits rows st raw = Ok st' →
  (StronglySorted (fun x y => pair_gtb (lane_id y, source_row y) (lane_id x, source_row x) = true) st'.1 ∧
   Forall (fun x => 0 <= source_row x < rows ∧ 0 <= lane_id x <= 32 / bits ∧
             (st'.2 = (lane_id x, source_row x) ∨ pair_gtb st'.2 (lane_id x, source_row x) = true)) st'.1).
Proof.
  destruct st as [mapped last]. cbn. intros [Hs Hb] H.
  unfold parse_row, require in H. res_inv. z_props. cbn.
  repeat match goal with H : integer _ _ = Ok _ |- _ => apply integer_bounds in H end.
  match goal with H : pair_gtb ?k last = true |- _ => rename H into Hgt; set (key := k) in * end.
  assert (Htrans : Forall (fun x => pair_gtb key (lane_id x, source_row x) = true) mapped).
  { eapply Forall_impl; [exact Hb|]. cbn. intros it (_ & _ & Hlast). clear -Hgt Hlast.
    destruct Hlast as [->|Hlast]; [done|]. clearbody key. destruct key, last. unfold pair_gtb in *. cbn in *. lia. }
  split.
  - clear -Hs Htrans. induction Hs as [|x l Hl IH Hx]; cbn.
    + repeat constructor.
    + apply Forall_cons in Htrans as [Hk Htrans]. constructor; [auto|].
      apply Forall_app. split; [done|]. repeat constructor. done.
  - apply Forall_app. split.
    + apply Forall_forall. intros it Hit. rewrite Forall_forall in Hb, Htrans. specialize (Hb it Hit).
      specialize (Htrans it Hit). tauto.
    + repeat constructor; cbn; lia.
Qed.

(** The run view property: see the claim [run_view_partition]. *)
Record run_view_ok (bits m k : Z) (view : Z * list RunSpan * list RowIdentity) : Prop := {
  rv_tiles : tiles 0 view.1.2;
  rv_total : span_total view.1.2 = k;
  rv_sorted : StronglySorted Z.lt (positions view.1.2);
  rv_count : Z.of_nat (length (positions view.1.2)) = k;
  rv_inside : Forall (fun p => 0 <= p < view.1.1) (positions view.1.2);
  rv_rows : Z.of_nat (length view.2) = m;
  rv_lanes : Forall (fun x => 0 <= lane_id x <= 32 / bits) view.2;
  rv_distinct : NoDup view.2;
}.

Lemma parse_row_length bits rows l : ∀ st st',
  fold_res (parse_row bits rows) st l = Ok st' → length st'.1 = (length st.1 + length l)%nat.
Proof.
  induction l as [|raw l IH]; intros st st' H; cbn in H.
  - injection H as <-. cbn. lia.
  - apply bind_Ok in H as (st1 & H1 & H). rewrite (IH _ _ H). destruct st as [mapped key].
    unfold parse_row, require in H1. res_inv. cbn. rewrite length_app. cbn. lia.
Qed.

Lemma strongly_sorted_NoDup {A} (R : A → A → Prop) l :
  (∀ x, ¬ R x x) → StronglySorted R l → NoDup l.
Proof.
  intros Hirr. induction 1 as [|x l Hl IH Hx]; constructor; [|done].
  intros Hin. rewrite Forall_forall in Hx. by apply (Hirr x), Hx.
Qed.

(** An accepted run view partitions the compact K axis: the spans tile
    [0, k) without gap or overlap, the original K positions selected by their
    masks are strictly increasing (hence distinct), lie below [original_k] and
    number exactly [k]; the row map has one distinct (row, lane) pair per
    compact row with every lane inside the radix range. *)
Theorem run_view_partition r bits w dim m n k view :
  parse_run_view r (bits, w, dim) m n k = Ok view → run_view_ok bits m k view.
Proof.
  unfold parse_run_view, require. intros H. res_inv. z_props.
  match goal with H : match ?v with JArr _ => _ | _ => _ end = Ok _ |- _ => destruct v; try discriminate end.
  res_inv. repeat match goal with H : match ?v with JArr _ => _ | _ => _ end = Ok _ |- _ => destruct v; try discriminate end.
  res_inv.
  match goal with H : fold_res (parse_span _ ?ok) _ _ = Ok _ |- _ =>
    apply (fold_res_inv (span_inv ok)) in H; [destruct H as [Ht Htot Hs Hb Hl _]| |] end; cbn in *.
  2: { constructor; cbn; try done; constructor. }
  2: { intros ? s1 s2 _. apply parse_span_inv. }
  match goal with H : fold_res (parse_row _ _) _ _ = Ok _ |- _ =>
    pose proof (parse_row_length _ _ _ _ _ H) as Hlen;
    eapply (fold_res_inv _ _ _ _ _ _ (fun _ s1 s2 _ => parse_row_inv _ _ s1 _ s2)) in H as [Hrs Hrb] end.
  z_props; subst; constructor; cbn in *; try done; try lia.
  - eapply Forall_impl; [exact Hb|]. cbn. lia.
  - eapply Forall_impl; [exact Hrb|]. cbn. lia.
  - eapply strongly_sorted_NoDup; [|exact Hrs]. intros ?. unfold pair_gtb. cbn. lia.
  Unshelve. split; cbn; constructor.
Qed.

Definition sample_run_view : record :=
  [("original_k", JInt 64);
   ("runs", JArr [JObj [("original_block_id", JInt 0); ("original_k_mask", JInt 5);
                        ("compact_k_begin", JInt 0); ("compact_k_count", JInt 2)];
                  JObj [("original_block_id", JInt 1); ("original_k_mask", JInt 2);
                        ("compact_k_begin", JInt 2); ("compact_k_count", JInt 1)]]);
   ("row_map", JArr [JObj [("source_row", JInt 3); ("lane_id", JInt 0)];
                     JObj [("source_row", JInt 0); ("lane_id", JInt 1)]]);
   ("source_row_count", JInt 4); ("source_row_begin", JInt 8)].

Lemma run_view_partition_witness :
  ∃ view, parse_run_view sample_run_view (8, 8, 16) 2 7 3 = Ok view ∧
    positions view.1.2 = [0; 2; 33] ∧ run_view_ok 8 2 3 view.
Proof.
  destruct (parse_run_view sample_run_view (8, 8, 16) 2 7 3) as [view|] eqn:E; [|vm_compute in E; discriminate E].
  exists view. split; [reflexivity|]. split; [|exact (run_view_partition _ _ _ _ _ _ _ _ E)].
  vm_compute in E. injection E as <-. reflexivity.
Defined.
