(* ===== verification/TraceCalls.v ===== *)
(** * NPU calls of a trace

    [sim/cycle/npu_trace_calls.py]: the out-of-order set of completed
    identities and the life cycle of NPU calls
    (PREPARE, INVOKE, PUBLISH, COMPLETE_REQUIRED, FENCE, CONTINUATION). *)
From S2P Require Import Prelude Records TraceSchema.
Set Default Goal Selector "!".

Definition KINDS : list string :=
  ["FULL"; "STRIPE"; "FENCE"; "RESIDUAL_PREPARE"; "RESIDUAL_COMPACT"; "RESIDUAL_RECOMPOSE"; "RESIDUAL_MERGE"].
Definition ORDER : list string :=
  ["PREPARE"; "INVOKE"; "PUBLISH"; "COMPLETE_REQUIRED"; "FENCE"; "CONTINUATION"].

(** ** [CompletedIDs] *)

Record CompletedIDs := { cursor : Z; ahead : gset Z }.

Definition no_ids : CompletedIDs := {| cursor := 0; ahead := ∅ |}.

Definition contains (ids : CompletedIDs) (identity : Z) : bool :=
  (identity <? cursor ids) || bool_decide (identity ∈ ahead ids).

(** [while self.cursor in self.ahead]: each pass removes one element, so the
    size of [ahead] bounds the passes. *)
Fixpoint drain (fuel : nat) (ids : CompletedIDs) : CompletedIDs :=
  match fuel with
  | O => ids
  | S fuel =>
      if bool_decide (cursor ids ∈ ahead ids)
      then drain fuel {| cursor := cursor ids + 1; ahead := ahead ids ∖ {[cursor ids]} |}
      else ids
  end.

Definition add_id (ids : CompletedIDs) (identity : Z) : res CompletedIDs :=
  require (negb (contains ids identity)) "duplicate completed identity" ;;;
  let ids := {| cursor := cursor ids; ahead := {[identity]} ∪ ahead ids |} in
  Ok (drain (size (ahead ids)) ids).

(** ** [Call] and [Calls] *)

Record Call := {
  call_operation : Z;
  call_node : Z;
  call_parent : option Z;
  call_kind : string;
  stages : list string;
  works : gset Z;
  required : gset Z;
}.

Record Calls := {
  active : gmap Z Call;
  done_calls : CompletedIDs;
  count : Z;
  work_operations : gmap Z Z;
  operation_works : gmap Z (gset Z);
  call_operations : gmap Z Z;
  parent_operations : gmap Z Z;
  host_declared_parents : gset Z;
}.

Definition no_calls : Calls := {|
  active := ∅; done_calls := no_ids; count := 0; work_operations := ∅; operation_works := ∅;
  call_operations := ∅; parent_operations := ∅; host_declared_parents := ∅ |}.

Definition with_active (c : Calls) (m : gmap Z Call) : Calls := {|
  active := m; done_calls := done_calls c; count := count c; work_operations := work_operations c;
  operation_works := operation_works c; call_operations := call_operations c;
  parent_operations := parent_operations c; host_declared_parents := host_declared_parents c |}.

Definition with_parents (c : Calls) (m : gmap Z Z) (declared : gset Z) : Calls := {|
  active := active c; done_calls := done_calls c; count := count c;
  work_operations := work_operations c; operation_works := operation_works c;
  call_operations := call_operations c; parent_operations := m; host_declared_parents := declared |}.

Definition with_stage (c : Call) (parent : option Z) (stages : list string) (required : gset Z) : Call := {|
  call_operation := call_operation c; call_node := call_node c; call_parent := parent;
  call_kind := call_kind c; stages := stages; works := works c; required := required |}.

(** [ORDER.index(stage)] *)
Fixpoint index_of (s : string) (l : list string) : nat :=
  match l with
  | [] => 0
  | t :: l => if String.eqb s t then 0 else S (index_of s l)
  end.

(** [parent_operations.get(parent, operation) == operation] *)
Definition owned_by (m : gmap Z Z) (key operation : Z) : bool :=
  match m !! key with Some o => o =? operation | None => true end.
(** [m.get(key) == operation] *)
Definition maps_to (m : gmap Z Z) (key operation : Z) : bool :=
  match m !! key with Some o => o =? operation | None => false end.

Definition id_array (r : record) (key : string) (element : string) (detail : string) : res (list Z) :=
  let* values := item r key in
  match values with
  | JArr l => map_res (integer_value element) l
  | _ => Err (NpuTraceError detail)
  end.

(** Registration of a call at its first stage. *)
Definition open_call (cs : Calls) (identity operation node : Z) (parent : option Z)
    (kind stage : string) : res Calls :=
  match active cs !! identity with
  | Some _ => Ok cs
  | None =>
      require (String.eqb stage "PREPARE") "call must begin with PREPARE" ;;;
      require (identity =? count cs) "duplicate/gapped/nonmonotonic call identity" ;;;
      let call := {| call_operation := operation; call_node := node; call_parent := parent;
                     call_kind := kind; stages := []; works := ∅; required := ∅ |} in
      Ok {| active := <[identity := call]> (active cs); done_calls := done_calls cs;
            count := count cs + 1; work_operations := work_operations cs;
            operation_works := operation_works cs;
            call_operations := <[identity := operation]> (call_operations cs);
            parent_operations := parent_operations cs;
            host_declared_parents := host_declared_parents cs |}
  end.

(** The end of a call: what its continuation requires, and its retirement. *)
Definition close_call (cs : Calls) (identity : Z) (call : Call) : res Calls :=
  (if str_in (call_kind call) ["FULL"; "STRIPE"; "RESIDUAL_COMPACT"] then
     require (Nat.eqb (size (works call)) 1 && bool_decide (works call ⊆ required call))
       "continuation lacks own work completion dependency" ;;;
     require (negb (String.eqb (call_kind call) "STRIPE") || str_in "PUBLISH" (stages call))
       "stripe continuation without PUBLISH"
   else require (bool_decide (works call = ∅)) "host/fence call cannot own NPU work") ;;;
  require (negb (String.eqb (call_kind call) "FENCE") ||
           subset_of String.eqb ["COMPLETE_REQUIRED"; "FENCE"] (stages call)) "incomplete fence call" ;;;
  let* done' := add_id (done_calls cs) identity in
  Ok {| active := delete identity (active cs); done_calls := done'; count := count cs;
        work_operations := work_operations cs; operation_works := operation_works cs;
        call_operations := call_operations cs; parent_operations := parent_operations cs;
        host_declared_parents := host_declared_parents cs |}.

Definition stage (cs : Calls) (r : record) : res Calls :=
  let* identity := integer r "call_id" in
  let* operation := integer r "operation_id" in
  let* node := integer r "node_id" in
  let* parent := optional_integer r "parent_id" in
  let* kind := text r "call_kind" in
  let* stage := text r "stage" in
  require (str_in kind KINDS && str_in stage ORDER) "unsupported NPU call kind/stage" ;;;
  require (negb (contains (done_calls cs) identity)) "stage after call continuation" ;;;
  let* cs := open_call cs identity operation node parent kind stage in
  let* call := match active cs !! identity with
    | Some call => Ok call | None => Err (KeyError (dec identity)) end in
  require ((operation =? call_operation call) && (node =? call_node call) &&
           String.eqb kind (call_kind call)) "call ownership mismatch" ;;;
  let current := match call_parent call with None => parent | Some p => Some p end in
  require (bool_decide (parent = current)) "call parent changed" ;;;
  let* cs := match parent with
    | None => Ok cs
    | Some p =>
        require (owned_by (parent_operations cs) p operation) "parent has multiple operations" ;;;
        Ok (with_parents cs (<[p := operation]> (parent_operations cs))
              (host_declared_parents cs ∖ {[p]}))
    end in
  require (negb (str_in stage (stages call)) &&
           match last (stages call) with
           | None => true
           | Some previous => Nat.ltb (index_of previous ORDER) (index_of stage ORDER)
           end) "duplicate or reordered NPU call stage" ;;;
  require (str_in stage ["PREPARE"; "INVOKE"] || str_in "INVOKE" (stages call))
    "call stage before INVOKE" ;;;
  let* needs := id_array r "required_work_ids" "work_id" "required_work_ids array required" in
  require (distinct Z.eqb needs) "duplicate required work identity" ;;;
  require (match needs with [] => true | _ => String.eqb stage "COMPLETE_REQUIRED" end)
    "dependencies only belong to COMPLETE_REQUIRED" ;;;
  require (forallb (fun work => maps_to (work_operations cs) work operation) needs)
    "unknown/cross-operation required work" ;;;
  require (negb (String.eqb stage "PUBLISH") || String.eqb kind "STRIPE") "PUBLISH requires STRIPE call" ;;;
  require (negb (String.eqb stage "FENCE") || String.eqb kind "FENCE") "FENCE requires FENCE call" ;;;
  let needed := if String.eqb stage "COMPLETE_REQUIRED"
    then required call ∪ list_to_set needs else required call in
  require (negb (String.eqb stage "PUBLISH") || negb (bool_decide (works call = ∅)))
    "PUBLISH before selected work" ;;;
  let call := with_stage call current (stages call ++ [stage]) needed in
  if String.eqb stage "CONTINUATION" then close_call cs identity call
  else Ok (with_active cs (<[identity := call]> (active cs))).

(** The call kind a work of each scope belongs to. *)
Definition scope_kind (scope : string) : res string :=
  match sget scope [("full", "FULL"); ("stripe", "STRIPE"); ("residual_compact", "RESIDUAL_COMPACT")] with
  | Some kind => Ok kind
  | None => Err (KeyError scope)
  end.

Definition call_work (cs : Calls) (work : Work) : res Calls :=
  match active cs !! TraceSchema.call_id work with
  | None => Err (NpuTraceError "NPU work has no declared active call")
  | Some call =>
      require (bool_decide (stages call = ["PREPARE"; "INVOKE"])) "work outside call invocation boundary" ;;;
      require ((TraceSchema.operation_id work =? call_operation call) &&
               (TraceSchema.node_id work =? call_node call) &&
               bool_decide (Some (TraceSchema.parent_id work) = call_parent call))
        "work/call ownership mismatch" ;;;
      let* expected := scope_kind (TraceSchema.scope work) in
      require (String.eqb (call_kind call) expected && bool_decide (works call = ∅))
        "work/call kind mismatch or duplicate call work" ;;;
      let identity := TraceSchema.identity work in
      let operation := TraceSchema.operation_id work in
      let call := {| call_operation := call_operation call; call_node := call_node call;
                     call_parent := call_parent call; call_kind := call_kind call;
                     stages := stages call; works := {[identity]} ∪ works call;
                     required := required call |} in
      Ok {| active := <[TraceSchema.call_id work := call]> (active cs);
            done_calls := done_calls cs; count := count cs;
            work_operations := <[identity := operation]> (work_operations cs);
            operation_works := <[operation :=
              {[identity]} ∪ default ∅ (operation_works cs !! operation)]> (operation_works cs);
            call_operations := call_operations cs; parent_operations := parent_operations cs;
            host_declared_parents := host_declared_parents cs |}
  end.

Definition any_value {V} (p : V → bool) (m : gmap Z V) : bool :=
  existsb (fun kv => p kv.2) (map_to_list m).

(** [del self.work_operations[work]] for each work of the operation. *)
Definition forget_works (m : gmap Z Z) (ids : gset Z) : res (gmap Z Z) :=
  fold_res (fun m work => match m !! work with
    | Some _ => Ok (delete work m) | None => Err (KeyError (dec work)) end) m (elements ids).

Definition calls_operation_complete (cs : Calls) (identity : Z) : res Calls :=
  require (negb (any_value (fun call => call_operation call =? identity) (active cs)))
    "operation has unfinished NPU call" ;;;
  require (negb (existsb (fun parent => maps_to (parent_operations cs) parent identity)
             (elements (host_declared_parents cs)))) "host-declared parent has no NPU call" ;;;
  let* remaining := forget_works (work_operations cs) (default ∅ (operation_works cs !! identity)) in
  Ok {| active := active cs; done_calls := done_calls cs; count := count cs;
        work_operations := remaining;
        operation_works := delete identity (operation_works cs);
        call_operations := filter (fun kv => kv.2 ≠ identity) (call_operations cs);
        parent_operations := filter (fun kv => kv.2 ≠ identity) (parent_operations cs);
        host_declared_parents := host_declared_parents cs |}.

Definition calls_boundary (cs : Calls) : res unit :=
  require (bool_decide (active cs = ∅) && (cursor (done_calls cs) =? count cs) &&
           bool_decide (ahead (done_calls cs) = ∅)) "unfinished/missing NPU call at phase boundary".

(** ** [CompletedIDs] implements a set *)

(** The set of identities a value stands for: everything below the cursor
    and what lies ahead of it. *)
Definition member (ids : CompletedIDs) (i : Z) : Prop := 0 <= i < cursor ids ∨ i ∈ ahead ids.

#[export] Instance member_dec ids i : Decision (member ids i).
Proof. unfold member. apply _. Defined.

(** Between calls the cursor has been advanced as far as it goes. *)
Definition normal (ids : CompletedIDs) : Prop :=
  0 <= cursor ids ∧ ∀ i, i ∈ ahead ids → cursor ids < i.

Lemma no_ids_normal : normal no_ids.
Proof. split; [done|]. set_solver. Qed.

Lemma contains_spec ids i : 0 <= i → contains ids i = true ↔ member ids i.
Proof.
  intros Hi. unfold contains, member.
  rewrite orb_true_iff, Z.ltb_lt, bool_decide_eq_true. intuition lia.
Qed.

(** The loop keeps the set, and the fuel [size ahead] lets it finish. *)
Lemma drain_spec fuel ids :
  0 <= cursor ids → (∀ i, i ∈ ahead ids → cursor ids <= i) → (size (ahead ids) <= fuel)%nat →
  normal (drain fuel ids) ∧ ∀ i, member (drain fuel ids) i ↔ member ids i.
Proof.
  revert ids. induction fuel as [|fuel IH]; intros [c a] H0 Hlow Hsize; cbn in *.
  - assert (a = ∅) as -> by (apply leibniz_equiv, size_empty_inv; lia).
    unfold normal, member; cbn. split; [|done]. split; [done|]. set_solver.
  - case_bool_decide as Hin.
    + destruct (IH {| cursor := c + 1; ahead := a ∖ {[c]} |}) as [Hn Hm]; cbn.
      * lia.
      * intros i [Hi Hne]%elem_of_difference. specialize (Hlow i Hi).
        assert (i ≠ c) by set_solver. lia.
      * rewrite size_difference by set_solver. rewrite size_singleton. lia.
      * split; [done|]. intros i. rewrite Hm. unfold member; cbn.
        rewrite elem_of_difference, elem_of_singleton.
        destruct (decide (i = c)) as [->|]; [|intuition lia]. split; [by right|]. left. lia.
    + unfold normal; cbn. split; [|done]. split; [done|]. intros i Hi.
      specialize (Hlow i Hi). assert (i ≠ c) by congruence. lia.
Qed.

(** [add_id] adds exactly the new identity and refuses one already present. *)
Lemma add_id_spec ids i ids' :
  normal ids → 0 <= i → add_id ids i = Ok ids' →
  ¬ member ids i ∧ normal ids' ∧ ∀ j, member ids' j ↔ j = i ∨ member ids j.
Proof.
  intros [H0 Hn] Hi H. unfold add_id, require in H. res_inv.
  match goal with H : negb _ = true |- _ => apply negb_true_iff in H; rename H into Hc end.
  assert (Hnm : ¬ member ids i) by (rewrite <-contains_spec by done; congruence).
  split; [done|].
  destruct (drain_spec (size ({[i]} ∪ ahead ids))
    {| cursor := cursor ids; ahead := {[i]} ∪ ahead ids |}) as [Hnorm Hm]; cbn; [done| |done|].
  - intros j [->%elem_of_singleton|Hj]%elem_of_union; [|by apply Z.lt_le_incl, Hn].
    destruct (Z_lt_le_dec i (cursor ids)); [|done]. destruct Hnm. by left.
  - split; [done|]. intros j. rewrite Hm. unfold member; cbn. set_solver.
Qed.

Lemma add_id_total ids i : normal ids → 0 <= i → ¬ member ids i → ∃ ids', add_id ids i = Ok ids'.
Proof.
  intros Hn Hi Hm. unfold add_id, require, check.
  rewrite <-contains_spec in Hm by done. apply not_true_iff_false in Hm. rewrite Hm. cbn. eauto.
Qed.

Definition add_ids (ids : CompletedIDs) (l : list Z) : res CompletedIDs := fold_res add_id ids l.

Lemma add_ids_member l : ∀ ids ids',
  normal ids → Forall (fun i => 0 <= i) l → add_ids ids l = Ok ids' →
  normal ids' ∧ NoDup l ∧ (∀ i, i ∈ l → ¬ member ids i) ∧ ∀ j, member ids' j ↔ j ∈ l ∨ member ids j.
Proof.
  induction l as [|i l IH]; intros ids ids' Hn Hpos H; cbn in H.
  - injection H as <-. split_and!; [done|constructor|set_solver|set_solver].
  - apply Forall_cons in Hpos as [Hi Hpos]. apply bind_Ok in H as (ids1 & H1 & H).
    destruct (add_id_spec _ _ _ Hn Hi H1) as (Hni & Hn1 & Hm1).
    destruct (IH _ _ Hn1 Hpos H) as (Hn' & Hnd & Hfresh & Hm'). split_and!; [done| | |].
    + constructor; [|done]. intros Hin. apply (Hfresh _ Hin), Hm1. by left.
    + intros j [->|Hj]%elem_of_cons; [done|]. intros Hmem. apply (Hfresh _ Hj), Hm1. by right.
    + intros j. rewrite Hm', Hm1. set_solver.
Qed.

Lemma add_ids_total l : ∀ ids,
  normal ids → Forall (fun i => 0 <= i) l → NoDup l → (∀ i, i ∈ l → ¬ member ids i) →
  ∃ ids', add_ids ids l = Ok ids'.
Proof.
  induction l as [|i l IH]; intros ids Hn Hpos Hnd Hfresh; cbn; [eauto|].
  apply Forall_cons in Hpos as [Hi Hpos]. apply NoDup_cons in Hnd as [Hin Hnd].
  destruct (add_id_total ids i Hn Hi) as [ids1 H1]; [apply Hfresh; constructor|]. rewrite H1. cbn.
  destruct (add_id_spec _ _ _ Hn Hi H1) as (_ & Hn1 & Hm1). apply IH; [done..|].
  intros j Hj [->|Hm]%Hm1; [done|]. apply (Hfresh j); [by constructor|done].
Qed.

(** The test the phase boundary makes: nothing ahead and the cursor at [n]
    hold exactly when the identities [0 .. n-1] were completed. *)
Lemma complete_prefix ids n :
  normal ids → 0 <= n →
  (cursor ids = n ∧ ahead ids = ∅) ↔ ∀ i, member ids i ↔ 0 <= i < n.
Proof.
  intros [H0 Hn] Hpos. unfold member. split.
  - intros [-> ->] i. set_solver.
  - intros H. assert (cursor ids = n) as Hc.
    { destruct (Z.lt_trichotomy (cursor ids) n) as [Hlt|[|Hgt]]; [|done|].
      - destruct (proj2 (H (cursor ids))) as [?|Hin]; [lia|lia|]. apply Hn in Hin. lia.
      - assert (0 <= n < n); [|lia]. apply H. left. lia. }
    split; [done|]. apply leibniz_equiv. intros i. split; [|set_solver]. intros Hin.
    pose proof (Hn _ Hin). assert (0 <= i < n); [|lia]. apply H. by right.
Qed.

(** [CompletedIDs] implements a set of natural identities with constant
    space for a completed prefix: recording a list of identities succeeds
    exactly when none repeats, afterwards [contains] answers membership in
    the list, and the boundary test (cursor at [n], nothing ahead) holds
    exactly when the identities recorded are [0 .. n-1], in any order. *)
Theorem completed_ids_set l :
  Forall (fun i => 0 <= i) l →
  (is_ok (add_ids no_ids l) = true ↔ NoDup l) ∧
  ∀ ids, add_ids no_ids l = Ok ids →
    (∀ i, 0 <= i → contains ids i = true ↔ i ∈ l) ∧
    ∀ n, 0 <= n → (cursor ids = n ∧ ahead ids = ∅) ↔ l ≡ₚ seqZ 0 n.
Proof.
  intros Hpos.
  assert (Hempty : ∀ i, ¬ member no_ids i) by (intros i [?|?]; cbn in *; [lia|set_solver]).
  split.
  - split.
    + destruct (add_ids no_ids l) as [ids|] eqn:E; [intros _|done].
      by apply (add_ids_member _ _ _ no_ids_normal Hpos) in E as (_ & ? & _).
    + intros Hnd. destruct (add_ids_total l no_ids no_ids_normal Hpos Hnd) as [ids ->]; [|done].
      intros i _. apply Hempty.
  - intros ids E. apply (add_ids_member _ _ _ no_ids_normal Hpos) in E as (Hn & Hnd & _ & Hm).
    assert (Hm' : ∀ i, member ids i ↔ i ∈ l).
    { intros i. rewrite Hm. split; [|by left]. intros [?|[]%Hempty]; done. }
    split; [intros i Hi; by rewrite contains_spec, Hm'|].
    intros n Hpn. rewrite (complete_prefix _ _ Hn Hpn). setoid_rewrite Hm'. split.
    + intros H. apply NoDup_Permutation; [done|apply NoDup_seqZ|]. intros i.
      rewrite H, elem_of_seqZ. lia.
    + intros Hl i. rewrite Hl, elem_of_seqZ. lia.
Qed.

Lemma completed_ids_set_witness :
  contains (match add_ids no_ids [2; 0; 1; 5] with Ok ids => ids | Err _ => no_ids end) 5 = true.
Proof.
  assert (Hp : Forall (fun i => 0 <= i) [2; 0; 1; 5]) by (repeat constructor; discriminate).
  destruct (completed_ids_set [2; 0; 1; 5] Hp) as [_ Hc].
  destruct (add_ids no_ids [2; 0; 1; 5]) as [ids|] eqn:E; [|vm_compute in E; discriminate E].
  apply (proj1 (Hc _ eq_refl)); [discriminate|]. repeat constructor.
Defined.

(** ** Host stages of a trace

    [sim/cycle/npu_trace_hosts.py]: host stages are declared, completed and
    referenced by NPU works; a stage shares its parent and call with the NPU
    call registry. *)

Definition references (r : record) (key : string) : res (list Z) :=
  let* result := id_array r key "id" (key +:+ ": array required") in
  require (distinct Z.eqb result) "duplicate dependency references" ;;;
  Ok result.

Record Hosts := {
  host_active : gmap Z record;
  completed_owners : gmap Z Z;
  potal_host_count : Z;
  functional_emulation_count : Z;
  host_count : Z;
  completed : Z;
}.

Definition no_hosts : Hosts := {|
  host_active := ∅; completed_owners := ∅; potal_host_count := 0;
  functional_emulation_count := 0; host_count := 0; completed := 0 |}.

(** [location.partition(':')]: text before the first colon, whether there is
    one, and the text after it. *)
Fixpoint partition_colon (s : string) : string * bool * string :=
  match s with
  | EmptyString => ("", false, "")
  | String c s' =>
      if Ascii.eqb c ":"%char then ("", true, s')
      else let '(before, found, after) := partition_colon s' in (String c before, found, after)
  end.

(** The components of a path between slashes. *)
Fixpoint split_slash (acc s : string) : list string :=
  match s with
  | EmptyString => [acc]
  | String c s' =>
      if Ascii.eqb c "/"%char then acc :: split_slash "" s'
      else split_slash (acc +:+ String c EmptyString) s'
  end.
Definition path_components (s : string) : list string := split_slash "" s.

Definition is_absolute (path : string) : bool :=
  match path with String c _ => Ascii.eqb c "/"%char | EmptyString => false end.

Definition backslash : ascii := ascii_of_nat 92.

(** A source location is [relative/path:function]. *)
Definition relative_location (location : string) : bool :=
  let '(path, delimiter, function) := partition_colon location in
  delimiter && negb (String.eqb function "") && negb (is_absolute path) &&
  negb (str_in ".." (path_components path)) &&
  all_chars (fun c => negb (Ascii.eqb c backslash)) path.

(** The record without its sequence number, event and status. *)
Definition descriptor_of (r : record) : record :=
  filter (fun kv => negb (str_in kv.1 ["sequence"; "event"; "status"])) r.

Definition bump_class (h : Hosts) (kind : string) : Z * Z :=
  if String.eqb kind "POTAL_HOST" then (potal_host_count h + 1, functional_emulation_count h)
  else (potal_host_count h, functional_emulation_count h + 1).

(** Ownership of the parent and call the stage names. *)
Definition host_ownership (r : record) (operation : Z) (cs : Calls) : res Calls :=
  let* parent := optional_integer r "parent_id" in
  let* cs := match parent with
    | None => Ok cs
    | Some p =>
        require (owned_by (parent_operations cs) p operation) "host parent ownership mismatch" ;;;
        let declared := match parent_operations cs !! p with
          | None => {[p]} ∪ host_declared_parents cs | Some _ => host_declared_parents cs end in
        Ok (with_parents cs (<[p := operation]> (parent_operations cs)) declared)
    end in
  let* call := optional_integer r "call_id" in
  match call with
  | None => Ok cs
  | Some c => require (maps_to (call_operations cs) c operation) "host call ownership mismatch" ;;; Ok cs
  end.

Definition host_consume (h : Hosts) (cs : Calls) (r : record) : res (Hosts * Calls) :=
  let* identity := integer r "host_stage_id" in
  let* operation := integer r "operation_id" in
  let* kind := text r "execution_class" in
  require (str_in kind ["POTAL_HOST"; "FUNCTIONAL_EMULATION"]) "invalid host stage execution class" ;;;
  let* _ := text r "stage_name" in
  let* owner := item r "source_owner" in
  require (in_strs owner ["llama.cpp-gemmini"; "IM2P.sim"]) "invalid host stage source owner" ;;;
  let* location := text r "source_location" in
  require (relative_location location) "host source location must be relative file:function" ;;;
  let* cs := host_ownership r operation cs in
  let descriptor := descriptor_of r in
  let* event := item r "event" in
  if eq_str event "BEGIN" then
    require_res (Ok (identity =? host_count h) andM
                 (let* status := item r "status" in Ok (eq_str status "declared")))
      "duplicate/unordered host stage declaration" ;;;
    let* works := references r "required_work_ids" in
    require (forallb (fun work => maps_to (work_operations cs) work operation) works)
      "host dependency references unknown/cross-operation work" ;;;
    let* needs := references r "required_host_stage_ids" in
    require (forallb (fun stage => maps_to (completed_owners h) stage operation) needs)
      "host dependency references incomplete/cross-operation stage" ;;;
    let '(potal, functional) := bump_class h kind in
    Ok ({| host_active := <[identity := descriptor]> (host_active h);
           completed_owners := completed_owners h; potal_host_count := potal;
           functional_emulation_count := functional; host_count := host_count h + 1;
           completed := completed h |}, cs)
  else
    require_res (Ok (eq_str event "END") andM
                 (let* status := item r "status" in Ok (eq_str status "success")))
      "host stage did not complete successfully" ;;;
    require (match host_active h !! identity with
             | Some d => jeq (JObj d) (JObj descriptor) | None => false end)
      "undeclared/duplicate/mutated host stage completion" ;;;
    Ok ({| host_active := delete identity (host_active h);
           completed_owners := <[identity := operation]> (completed_owners h);
           potal_host_count := potal_host_count h;
           functional_emulation_count := functional_emulation_count h;
           host_count := host_count h; completed := completed h + 1 |}, cs).

Definition host_operation_complete (h : Hosts) (identity : Z) : res Hosts :=
  let* unfinished := any_res (fun kv : Z * record =>
    let* operation := item kv.2 "operation_id" in Ok (eq_int operation identity))
    (map_to_list (host_active h)) in
  require (negb unfinished) "unfinished host stage" ;;;
  Ok {| host_active := host_active h;
        completed_owners := filter (fun kv => kv.2 ≠ identity) (completed_owners h);
        potal_host_count := potal_host_count h;
        functional_emulation_count := functional_emulation_count h;
        host_count := host_count h; completed := completed h |}.

Definition before_work (h : Hosts) (r : record) : res unit :=
  let* operation := integer r "operation_id" in
  let* needs := references r "required_host_stage_ids" in
  require (forallb (fun stage => maps_to (completed_owners h) stage operation) needs)
    "NPU work references incomplete/cross-operation host preparation".

Definition host_boundary (h : Hosts) : res unit :=
  require (bool_decide (host_active h = ∅) && (host_count h =? completed h))
    "host stage coverage incomplete".
