(* ===== verification/TraceIntegrity.v ===== *)
(** * Integrity of an NPU trace

    [sim/cycle/npu_trace_integrity.py]: the state machine that consumes the
    records of a trace after its [RUN] record and admits the trace when
    [RUN_END] closes every operation, parent, call and host stage. *)
From S2P Require Import Prelude Records TraceSchema TraceCalls.
Set Default Goal Selector "!".

Record Operation := {
  op_works : Z;
  op_node : option Z;
  op_layer_name : option (string * string);
  dense_shape : option (Z * Z * Z);
  op_semantic : option SemanticKey;
}.

Definition fresh_operation : Operation := {|
  op_works := 0; op_node := None; op_layer_name := None; dense_shape := None; op_semantic := None |}.

Record Dispatch := { first : Work; next_row : Z; next_stripe : Z }.

Record TraceState := {
  run : Run;
  phases : list record;
  pending : gmap Z Operation;
  dispatches : gmap Z Dispatch;
  dispatch_done : CompletedIDs;
  operation_done : CompletedIDs;
  calls : Calls;
  hosts : Hosts;
  operation_counts : list (string * Z);
  dense_works : Z;
  residual_works : Z;
  eligible_cpu : Z;
  completed_operations : Z;
  ended : bool;
}.

Definition start_state (r : Run) : TraceState := {|
  run := r; phases := []; pending := ∅; dispatches := ∅; dispatch_done := no_ids;
  operation_done := no_ids; calls := no_calls; hosts := no_hosts;
  operation_counts := map (fun key => (key, 0)) CLASSES; dense_works := 0; residual_works := 0;
  eligible_cpu := 0; completed_operations := 0; ended := false |}.

(** [self.work_counts.total()] *)
Definition total_works (s : TraceState) : Z := dense_works s + residual_works s.

(** Field updates. *)
Definition set_pending (s : TraceState) (m : gmap Z Operation) : TraceState := {|
  run := run s; phases := phases s; pending := m; dispatches := dispatches s;
  dispatch_done := dispatch_done s; operation_done := operation_done s; calls := calls s;
  hosts := hosts s; operation_counts := operation_counts s; dense_works := dense_works s;
  residual_works := residual_works s; eligible_cpu := eligible_cpu s;
  completed_operations := completed_operations s; ended := ended s |}.
Definition set_calls_hosts (s : TraceState) (c : Calls) (h : Hosts) : TraceState := {|
  run := run s; phases := phases s; pending := pending s; dispatches := dispatches s;
  dispatch_done := dispatch_done s; operation_done := operation_done s; calls := c;
  hosts := h; operation_counts := operation_counts s; dense_works := dense_works s;
  residual_works := residual_works s; eligible_cpu := eligible_cpu s;
  completed_operations := completed_operations s; ended := ended s |}.
Definition set_phases (s : TraceState) (l : list record) : TraceState := {|
  run := run s; phases := l; pending := pending s; dispatches := dispatches s;
  dispatch_done := dispatch_done s; operation_done := operation_done s; calls := calls s;
  hosts := hosts s; operation_counts := operation_counts s; dense_works := dense_works s;
  residual_works := residual_works s; eligible_cpu := eligible_cpu s;
  completed_operations := completed_operations s; ended := ended s |}.
Definition set_ended (s : TraceState) : TraceState := {|
  run := run s; phases := phases s; pending := pending s; dispatches := dispatches s;
  dispatch_done := dispatch_done s; operation_done := operation_done s; calls := calls s;
  hosts := hosts s; operation_counts := operation_counts s; dense_works := dense_works s;
  residual_works := residual_works s; eligible_cpu := eligible_cpu s;
  completed_operations := completed_operations s; ended := true |}.

(** [TraceState.operation]: the pending operation, created when absent. *)
Definition operation_of (s : TraceState) (identity : Z) : res Operation :=
  require (negb (contains (operation_done s) identity)) "record after operation completion" ;;;
  Ok (default fresh_operation (pending s !! identity)).

(** [x in (None, v)] *)
Definition none_or {A} (eqb : A → A → bool) (x : option A) (v : A) : bool :=
  match x with None => true | Some y => eqb y v end.

Definition phase_boundary (s : TraceState) : res unit :=
  require (bool_decide (pending s = ∅) && bool_decide (dispatches s = ∅))
    "incomplete operation/parent at phase boundary" ;;;
  calls_boundary (calls s) ;;;
  host_boundary (hosts s) ;;;
  require (cursor (operation_done s) =? completed_operations s)
    "registered operation identity crosses phase boundary".

Definition phase_record (s : TraceState) (r : record) : res TraceState :=
  phase_boundary s ;;;
  let* identity := integer r "phase_id" in
  require (identity =? Z.of_nat (length (phases s))) "nonmonotonic phase identity" ;;;
  let* _ := integer r "input_tokens" in
  let* kind := item r "phase_kind" in
  let* index := item r "decode_index" in
  require (if identity =? 0 then eq_str kind "prefill" && is_null index
           else eq_str kind "decode" && eq_int index (identity - 1)) "invalid prefill/decode phase" ;;;
  (if is_null index then Ok tt else let* _ := integer r "decode_index" in Ok tt) ;;;
  Ok (set_phases s (phases s ++ [r])).

(** What every work of a dispatch shares with its first work. *)
Definition same_descriptor (w f : Work) : bool :=
  (operation_id w =? operation_id f) && String.eqb (layer w) (layer f) &&
  String.eqb (operation w) (operation f) && String.eqb (provenance w) (provenance f) &&
  String.eqb (scope w) (scope f) && (parent_rows w =? parent_rows f) &&
  bool_decide (take 2 (drop 1 (inputs w)) = take 2 (drop 1 (inputs f))) &&
  bool_decide (drop 6 (inputs w) = drop 6 (inputs f)).

Definition input (w : Work) (i : nat) : Z := nth i (inputs w) 0.

(** Registration of a work in the dispatch of its parent. *)
Definition dispatch_work (s : TraceState) (w : Work) : res (gmap Z Dispatch * CompletedIDs) :=
  require (negb (contains (dispatch_done s) (parent_id w))) "work after completed parent" ;;;
  let d := default {| first := w; next_row := 0; next_stripe := 0 |} (dispatches s !! parent_id w) in
  require (same_descriptor w (first d)) "dispatch parent/descriptor mismatch" ;;;
  require (row_begin w =? next_row d) "stripe overlap/gap" ;;;
  require (negb (String.eqb (scope w) "stripe") || bool_decide (stripe_id w = Some (next_stripe d)))
    "duplicate/unordered stripe identity" ;;;
  let d := {| first := first d; next_row := next_row d + input w 0; next_stripe := next_stripe d + 1 |} in
  if next_row d =? parent_rows w then
    let* finished := add_id (dispatch_done s) (parent_id w) in
    Ok (delete (parent_id w) (dispatches s), finished)
  else Ok (<[parent_id w := d]> (dispatches s), dispatch_done s).

Definition work_record (s : TraceState) (r : record) : res (TraceState * Work) :=
  let* w := parse_work r (run s) in
  before_work (hosts s) r ;;;
  require (identity w =? total_works s) "duplicate/gapped work identity" ;;;
  let* op := operation_of s (operation_id w) in
  require (none_or Z.eqb (op_node op) (node_id w)) "operation/node identity mismatch" ;;;
  require (match op_layer_name op with
           | None => true
           | Some (l, n) => String.eqb l (layer w) && String.eqb n (operation w)
           end) "work operation identity mismatch" ;;;
  let shape := (parent_rows w, input w 1, input w 2) in
  let dense := String.eqb (provenance w) "dense_main" in
  require (negb dense || match dense_shape op with None => true | Some sh => bool_decide (sh = shape) end)
    "dense operation shape mismatch" ;;;
  let op := {| op_works := op_works op + 1; op_node := Some (node_id w);
               op_layer_name := Some (layer w, operation w);
               dense_shape := if dense then Some shape else dense_shape op;
               op_semantic := op_semantic op |} in
  let* ds := dispatch_work s w in
  let '(open, finished) := ds in
  let* cs := call_work (calls s) w in
  Ok ({| run := run s; phases := phases s; pending := <[operation_id w := op]> (pending s);
         dispatches := open; dispatch_done := finished; operation_done := operation_done s;
         calls := cs; hosts := hosts s; operation_counts := operation_counts s;
         dense_works := if dense then dense_works s + 1 else dense_works s;
         residual_works := if dense then residual_works s else residual_works s + 1;
         eligible_cpu := eligible_cpu s; completed_operations := completed_operations s;
         ended := ended s |}, w).

Definition call_record (s : TraceState) (r : record) : res TraceState :=
  let* identity := integer r "operation_id" in
  let* op := operation_of s identity in
  let* node := integer r "node_id" in
  require (none_or Z.eqb (op_node op) node) "operation/call node mismatch" ;;;
  let op := {| op_works := op_works op; op_node := Some node; op_layer_name := op_layer_name op;
               dense_shape := dense_shape op; op_semantic := op_semantic op |} in
  let* cs := stage (calls s) r in
  Ok (set_calls_hosts (set_pending s (<[identity := op]> (pending s))) cs (hosts s)).

Definition host_record (s : TraceState) (r : record) : res TraceState :=
  let* hc := host_consume (hosts s) (calls s) r in
  Ok (set_calls_hosts s hc.2 hc.1).

(** [self.operation_counts[classification] += 1] *)
Definition bump (key : string) (l : list (string * Z)) : list (string * Z) :=
  sset key (default 0 (sget key l) + 1) l.

Definition complete_operation (s : TraceState) (r : record) : res TraceState :=
  let* identity := integer r "operation_id" in
  let* op := operation_of s identity in
  let* status := item r "status" in
  require (eq_str status "success") "target operation failed" ;;;
  let* classification := text r "selected_target" in
  require (str_in classification CLASSES) "unsupported operation classification" ;;;
  let* eligible := item r "target_eligible" in
  require (is_bool eligible) "target eligibility must be boolean" ;;;
  let* reason := item r "reason" in
  require (is_str reason) "target selection reason must be string" ;;;
  require_res (match op_node op with
    | None => let* _ := integer r "node_id" in Ok true
    | Some node => let* n := integer r "node_id" in Ok (node =? n)
    end) "target operation/node mismatch" ;;;
  iter_res (fun key => let* _ := text r key in Ok tt)
    ["layer"; "operation"; "actual_backend"; "activation_type"; "weight_type"] ;;;
  let* m := integer r "m" in
  let* n := integer r "n" in
  let* k := integer r "k" in
  require (Bool.eqb (String.eqb classification "EXCLUDED") ((m =? 0) || (n =? 0) || (k =? 0)))
    "only empty target operations are excluded" ;;;
  require (none_or (fun x y => bool_decide (x = y)) (dense_shape op) (m, n, k))
    "target operation/dense work shape mismatch" ;;;
  require_res (match op_layer_name op with
    | None => Ok true
    | Some (l, o) =>
        let* layer_value := item r "layer" in
        let* operation_value := item r "operation" in
        Ok (eq_str layer_value l && eq_str operation_value o)
    end) "target operation/work identity mismatch" ;;;
  let* declared := integer r "npu_work_count" in
  require (declared =? op_works op) "operation work count mismatch" ;;;
  require (Bool.eqb (String.eqb classification "TARGET_NPU") (0 <? op_works op))
    "operation route/work mismatch" ;;;
  require (negb (existsb (fun kv => operation_id (first kv.2) =? identity) (map_to_list (dispatches s))))
    "operation completion lacks full stripe coverage" ;;;
  let* h := host_operation_complete (hosts s) identity in
  let* cs := calls_operation_complete (calls s) identity in
  let* finished := add_id (operation_done s) identity in
  Ok {| run := run s; phases := phases s; pending := delete identity (pending s);
        dispatches := dispatches s; dispatch_done := dispatch_done s;
        operation_done := finished; calls := cs; hosts := h;
        operation_counts := bump classification (operation_counts s);
        dense_works := dense_works s; residual_works := residual_works s;
        eligible_cpu := if String.eqb classification "ORDINARY_CPU" && is_true eligible
          then eligible_cpu s + 1 else eligible_cpu s;
        completed_operations := completed_operations s + 1; ended := ended s |}.

(** [name.lower() + '_count'] for the four classes. *)
Definition class_count_key (name : string) : string :=
  default "" (sget name [("TARGET_NPU", "target_npu_count"); ("ORDINARY_CPU", "ordinary_cpu_count");
    ("UNSUPPORTED", "unsupported_count"); ("EXCLUDED", "excluded_count")]).

Definition expected_counts (s : TraceState) : list (string * Z) :=
  [("registered_operation_count", completed_operations s);
   ("completed_operation_count", completed_operations s);
   ("npu_work_count", total_works s); ("call_count", count (calls s));
   ("phase_count", Z.of_nat (length (phases s)));
   ("host_stage_count", host_count (hosts s));
   ("completed_host_stage_count", completed (hosts s));
   ("potal_host_count", potal_host_count (hosts s));
   ("functional_emulation_count", functional_emulation_count (hosts s))] ++
  map (fun name => (class_count_key name, default 0 (sget name (operation_counts s)))) CLASSES.

Definition end_record (s : TraceState) (r : record) : res TraceState :=
  phase_boundary s ;;;
  require_res (Ok (negb (Nat.eqb (length (phases s)) 0)) andM
               (let* v := item r "status" in Ok (eq_str v "success")) andM
               (let* v := item r "reason" in Ok (is_str v))) "run incomplete/failed" ;;;
  iter_res (fun '(key, value) =>
    let* declared := integer r key in
    require (declared =? value) ("independent run count mismatch: " +:+ key)) (expected_counts s) ;;;
  require ((cursor (operation_done s) =? completed_operations s) &&
           bool_decide (ahead (operation_done s) = ∅)) "missing registered target operation" ;;;
  Ok (set_ended s).

(** The checks every record other than [PHASE] and [RUN_END] passes first. *)
Definition bind_semantic (s : TraceState) (r : record) : res TraceState :=
  require_res (Ok (negb (Nat.eqb (length (phases s)) 0)) andM
    (let* p := integer r "phase_id" in Ok (p =? Z.of_nat (length (phases s)) - 1)))
    "missing/stale phase" ;;;
  let* key := semantic_key r in
  let '(phase_kind, decode, _, _) := key in
  let current := default [] (last (phases s)) in
  let* kind := item current "phase_kind" in
  let* index := item current "decode_index" in
  require (eq_str kind phase_kind && match decode with None => is_null index | Some d => eq_int index d end)
    "semantic phase mismatch" ;;;
  let* identity := integer r "operation_id" in
  let* op := operation_of s identity in
  require (none_or (fun x y => bool_decide (x = y)) (op_semantic op) key)
    "operation semantic identity changed" ;;;
  let op := {| op_works := op_works op; op_node := op_node op; op_layer_name := op_layer_name op;
               dense_shape := dense_shape op; op_semantic := Some key |} in
  Ok (set_pending s (<[identity := op]> (pending s))).

Definition consume (s : TraceState) (r : record) : res (TraceState * option Work) :=
  require_res (Ok (negb (ended s)) andM
    (let* id := item r "run_id" in Ok (eq_str id (run_identity (run s)))))
    "record after run end or mixed run identity" ;;;
  let* collection := item r "collection_run_id" in
  require (eq_int collection (collection_id (run s))) "mixed collection identity" ;;;
  let* config := item r "run_config_id" in
  require (eq_str config (run_config_id (run s))) "mixed run configuration reference" ;;;
  let* kind := text r "kind" in
  let* s := if str_in kind ["PHASE"; "RUN_END"] then Ok s else bind_semantic s r in
  if String.eqb kind "NPU_WORK" then
    let* sw := work_record s r in Ok (sw.1, Some sw.2)
  else if String.eqb kind "PHASE" then let* s' := phase_record s r in Ok (s', None)
  else if String.eqb kind "NPU_CALL" then let* s' := call_record s r in Ok (s', None)
  else if String.eqb kind "HOST_STAGE" then let* s' := host_record s r in Ok (s', None)
  else if String.eqb kind "TARGET_OPERATION" then let* s' := complete_operation s r in Ok (s', None)
  else if String.eqb kind "RUN_END" then let* s' := end_record s r in Ok (s', None)
  else Err (NpuTraceError "duplicate RUN or unknown record kind").

(** [read_records] yields the record of the line numbered [sequence]; a line is
    its syntax tree, [None] when the line is blank. *)
Definition read_record (sequence : Z) (line : option json) : res record :=
  match line with
  | None => Err (NpuTraceError ("blank JSONL record at line " +:+ dec (sequence + 1)))
  | Some raw =>
      let* r := parse_record raw in
      let* declared := integer r "sequence" in
      require (declared =? sequence) "duplicate/gapped/nonmonotonic sequence" ;;;
      Ok r
  end.

Definition start_trace `{Host} (line : option json) : res TraceState :=
  let* r := read_record 0 line in
  let* run := parse_run r in
  Ok (start_state run).

(** One pass of [for record in records: state.consume(record)]: reading is
    lazy, so line and state advance together.  The works are collected with
    the record that declared them. *)
Definition trace_step (st : Z * TraceState * list (record * Work)) (line : option json)
    : res (Z * TraceState * list (record * Work)) :=
  let '(sequence, s, ws) := st in
  let* r := read_record sequence line in
  let* sw := consume s r in
  Ok (sequence + 1, sw.1, ws ++ match sw.2 with Some w => [(r, w)] | None => [] end).

Definition run_trace `{Host} (lines : list (option json)) : res (TraceState * list (record * Work)) :=
  match lines with
  | [] => Err (NpuTraceError "empty log")
  | line :: rest =>
      let* s := start_trace line in
      let* final := fold_res trace_step (1, s, []) rest in
      Ok (final.1.2, final.2)
  end.

Definition summary (s : TraceState) : res record :=
  require (ended s) "missing RUN_END" ;;;
  Ok [("profile", JStr (run_profile (run s))); ("run_id", JStr (run_identity (run s)));
      ("collection_run_id", JInt (collection_id (run s)));
      ("run_config_id", JStr (run_config_id (run s)));
      ("npu_work_count", JInt (total_works s)); ("dense_work_count", JInt (dense_works s));
      ("residual_work_count", JInt (residual_works s));
      ("phase_count", JInt (Z.of_nat (length (phases s))));
      ("operation_count", JInt (completed_operations s));
      ("operation_counts", JObj (map (fun kv => (kv.1, JInt kv.2)) (operation_counts s)));
      ("eligible_cpu_operation_count", JInt (eligible_cpu s));
      ("call_count", JInt (count (calls s)));
      ("host_stage_count", JInt (host_count (hosts s)));
      ("potal_host_count", JInt (potal_host_count (hosts s)));
      ("functional_emulation_count", JInt (functional_emulation_count (hosts s)));
      ("target_operation_coverage", JStr "PASS"); ("target_work_validation", JStr "PASS");
      ("hardware_contract_sha256", JStr (contract_hash (run s)))].

(** [npu_trace.validate_trace] on the lines of the file. *)
Definition validate_trace `{Host} (lines : list (option json)) : res record :=
  let* final := run_trace lines in
  let* s := summary final.1 in
  Ok (merge_records s [("validation_scope", JStr "STRUCTURAL_ONLY");
                       ("cycle_model_validation", JStr "NOT_CHECKED")]).
