(* ===== verification/TraceSample.v ===== *)
(** * A complete trace

    A small trace of the collection format: one prefill phase whose only
    target operation runs on the NPU as two stripes of one parent, followed by
    one decode phase with an ordinary CPU operation.  The theorems about
    accepted traces are instantiated on it. *)
From S2P Require Import Prelude Records Profiles TraceSchema TraceCalls TraceIntegrity.
Set Default Goal Selector "!".

Definition strs (l : list (string * string)) : record := map (fun kv => (kv.1, JStr kv.2)) l.
Definition ints (l : list (string * Z)) : record := map (fun kv => (kv.1, JInt kv.2)) l.

Definition sample_facts : record :=
  ints [("activation_bits", 8); ("weight_bits", 8); ("dim", 16); ("block_size", 32);
        ("accumulator_bits", 32); ("array_partial_bits", 20); ("fragment_limit", 16); ("scale_entries", 1024)] ++
  strs [("packing", "signed-int8"); ("numerical_revision", "hp1-fragment-sat32-v1"); ("scu", "hp1-left-shift");
        ("external_stride_units", "u"); ("tile_units", "u"); ("lowering_revision", "r");
        ("scale_mapping_revision", "r"); ("saturation_order", "o")] ++
  [("memory", JObj (ints [("bank_count", 4); ("bank_rows", 4096); ("accumulator_rows", 1024);
     ("scratchpad_row_bytes", 16); ("accumulator_row_bytes", 64); ("scratchpad_total_bytes", 262144);
     ("accumulator_total_bytes", 65536)]));
   ("fixed_latencies", JObj (ints [("scratchpad_read_delay", 4); ("accumulator_latency", 2)]))].

Definition zeros : string := "0000000000000000000000000000000000000000000000000000000000000000".

Definition sample_hashes : record :=
  strs (map (fun p => (p, zeros))
    (Contract.HARDWARE_PATHS ++
     ["config/gemmini_host_memory_contracts/a8w8-d16-hp1.json";
      "src/gemmini/src/main/scala/a/A.scala"; "src/gemmini/control/src/main/scala/a/B.scala";
      "src/gemmini/upstream/src/main/scala/a/C.scala"; "src/gemmini/patches/p.patch"])).

Definition sample_unsigned : record :=
  [("schema", JStr Contract.SCHEMA); ("version", JInt 1); ("profile", JStr "a8w8-d16-hp1");
   ("facts", JObj sample_facts); ("source_sha256", JObj sample_hashes)].
Definition sample_digest : string := Contract.contract_digest (H := text_host) sample_unsigned.
Definition sample_contract : record := sample_unsigned ++ [("sha256", JStr sample_digest)].

Definition common (sequence : Z) (kind : string) : record :=
  [("schema", JStr SCHEMA); ("version", JInt 2); ("kind", JStr kind); ("sequence", JInt sequence);
   ("run_id", JStr "run"); ("collection_run_id", JInt 7); ("run_config_id", JStr "config");
   ("source_role", JStr "POTAL_COLLECTION")].

(** Semantic phase of the records of phase 0 (prefill) or 1 (decode 0). *)
Definition semantic (phase : Z) : record :=
  [("semantic_phase_kind", JStr (if phase =? 0 then "prefill" else "decode"));
   ("semantic_decode_index", if phase =? 0 then JNull else JInt 0);
   ("semantic_graph_occurrence", JInt 0); ("semantic_node_ordinal", JInt 3)].

Definition run_line : record :=
  common 0 "RUN" ++
  strs [("model", "m"); ("profile", "a8w8-d16-hp1"); ("producer_execution_kind", "CPU_FUNCTIONAL");
        ("actual_rtl_acceptance_in_collection", "NOT_APPLICABLE"); ("hardware_contract_sha256", sample_digest);
        ("collection_scope", "prompt_and_generation"); ("residual_work_revision", RUN_REVISION)] ++
  ints [("activation_bits", 8); ("weight_bits", 8); ("dim", 16); ("prompt_tokens", 1);
        ("requested_generated_tokens", 1)] ++ [("hardware_contract", JObj sample_contract)].

Definition phase_line (sequence identity : Z) : record :=
  common sequence "PHASE" ++
  [("phase_id", JInt identity); ("input_tokens", JInt 1);
   ("phase_kind", JStr (if identity =? 0 then "prefill" else "decode"));
   ("decode_index", if identity =? 0 then JNull else JInt (identity - 1))].

Definition call_line (sequence phase operation call : Z) (parent : json) (kind stage : string)
    (needs : list Z) : record :=
  common sequence "NPU_CALL" ++ semantic phase ++
  ints [("phase_id", phase); ("operation_id", operation); ("node_id", 3); ("call_id", call)] ++
  strs [("call_kind", kind); ("stage", stage)] ++
  [("parent_id", parent); ("required_work_ids", JArr (map JInt needs))].

(** Work [identity] computes rows [row_begin, row_begin + m) of parent 5. *)
Definition work_line (sequence call identity begin m : Z) : record :=
  common sequence "NPU_WORK" ++ semantic 0 ++
  ints [("phase_id", 0); ("operation_id", 0); ("node_id", 3); ("parent_id", 5); ("call_id", call);
        ("work_id", identity); ("activation_bits", 8); ("weight_bits", 8); ("dim", 16);
        ("m", m); ("n", 16); ("k", 32); ("tile_i_count", 1); ("tile_j_count", 1); ("tile_k_count", 1);
        ("activation_stride_bytes", 32); ("weight_stride_bytes", 16); ("output_stride_bytes", 64);
        ("scale_stride_elements", 16); ("parent_m", 3); ("production_geometry_version", 1);
        ("row_begin", begin); ("row_count", m); ("stripe_id", identity); ("host_slot", identity mod 2);
        ("block_size", 32); ("vector_op", 5); ("output_domain", 2); ("work_context", 0);
        ("source_row_begin", 0); ("source_row_count", 0); ("column_begin", 0); ("group_index", 0)] ++
  strs [("layer", "blk.0"); ("operation", "ffn_up"); ("provenance", "dense_main"); ("scope", "stripe");
        ("hardware_contract_sha256", sample_digest)] ++
  [("original_block_id", JNull); ("rmd_raw", JBool false); ("host_integer_block_multiply", JBool false);
   ("required_host_stage_ids", JArr [JInt 0]); ("original_k", JNull); ("runs", JArr []); ("row_map", JArr []);
   ("residual_work_revision", JNull)].

Definition host_line (sequence identity : Z) (event status : string) : record :=
  common sequence "HOST_STAGE" ++ semantic 0 ++
  ints [("phase_id", 0); ("operation_id", 0); ("node_id", 3); ("host_stage_id", identity)] ++
  strs [("execution_class", "POTAL_HOST"); ("stage_name", "quantize"); ("source_owner", "IM2P.sim");
        ("source_location", "sim/a.cpp:f"); ("event", event); ("status", status)] ++
  [("parent_id", JInt 5); ("call_id", JNull); ("required_work_ids", JArr []);
   ("required_host_stage_ids", JArr [])].

Definition operation_line (sequence phase operation m works : Z) (target : string) : record :=
  common sequence "TARGET_OPERATION" ++ semantic phase ++
  ints [("phase_id", phase); ("operation_id", operation); ("node_id", 3); ("m", m); ("n", 16); ("k", 32);
        ("npu_work_count", works)] ++
  strs [("layer", "blk.0"); ("operation", "ffn_up"); ("actual_backend", "b"); ("activation_type", "t");
        ("weight_type", "t"); ("selected_target", target); ("reason", ""); ("status", "success")] ++
  [("target_eligible", JBool true)].

Definition end_line (sequence : Z) : record :=
  common sequence "RUN_END" ++ strs [("status", "success"); ("reason", "")] ++
  ints [("registered_operation_count", 2); ("completed_operation_count", 2); ("target_npu_count", 1);
        ("ordinary_cpu_count", 1); ("unsupported_count", 0); ("excluded_count", 0); ("npu_work_count", 2);
        ("call_count", 2); ("phase_count", 2); ("host_stage_count", 1); ("completed_host_stage_count", 1);
        ("potal_host_count", 1); ("functional_emulation_count", 0)].

Definition sample_lines : list (option json) :=
  map (fun r => Some (JObj r))
  [run_line; phase_line 1 0;
   host_line 2 0 "BEGIN" "declared"; host_line 3 0 "END" "success";
   call_line 4 0 0 0 (JInt 5) "STRIPE" "PREPARE" []; call_line 5 0 0 0 (JInt 5) "STRIPE" "INVOKE" [];
   work_line 6 0 0 0 2;
   call_line 7 0 0 1 (JInt 5) "STRIPE" "PREPARE" []; call_line 8 0 0 1 (JInt 5) "STRIPE" "INVOKE" [];
   work_line 9 1 1 2 1;
   call_line 10 0 0 0 (JInt 5) "STRIPE" "PUBLISH" [];
   call_line 11 0 0 0 (JInt 5) "STRIPE" "COMPLETE_REQUIRED" [0];
   call_line 12 0 0 1 (JInt 5) "STRIPE" "PUBLISH" [];
   call_line 13 0 0 1 (JInt 5) "STRIPE" "COMPLETE_REQUIRED" [1];
   call_line 14 0 0 1 (JInt 5) "STRIPE" "CONTINUATION" [];
   call_line 15 0 0 0 (JInt 5) "STRIPE" "CONTINUATION" [];
   operation_line 16 0 0 3 2 "TARGET_NPU"; phase_line 17 1;
   operation_line 18 1 1 1 0 "ORDINARY_CPU"; end_line 19].

Definition sample_run : res (TraceState * list (record * Work)) := run_trace (H := text_host) sample_lines.
