(* ===== verification/TraceTheorems.v ===== *)
(** * What an accepted trace guarantees

    Invariants of the trace state machine of [TraceIntegrity], by induction
    on the records consumed: the works are numbered densely and the works of a
    parent tile its rows.  The calls and the phases are in [TraceLifecycle]. *)
From S2P Require Import Prelude Records TraceSchema TraceCalls TraceIntegrity TraceSample.
Set Default Goal Selector "!".

(** ** Induction over a trace *)

Lemma set_pending_id s : set_pending s (pending s) = s.
Proof. by destruct s. Qed.

Lemma bind_semantic_pending s r s1 : bind_semantic s r = Ok s1 → ∃ m, s1 = set_pending s m.
Proof.
  unfold bind_semantic, require_res, require. intros H. res_inv. eexists. reflexivity.
Qed.

(** What a consumed record did, by its kind: it acts on the state whose pending
    operations alone were touched by the semantic checks. *)
Inductive consumed (s : TraceState) (r : record) (s' : TraceState) : option Work → string → Prop :=
  | consumed_work m w : work_record (set_pending s m) r = Ok (s', w) → consumed s r s' (Some w) "NPU_WORK"
  | consumed_phase m : phase_record (set_pending s m) r = Ok s' → consumed s r s' None "PHASE"
  | consumed_call m : call_record (set_pending s m) r = Ok s' → consumed s r s' None "NPU_CALL"
  | consumed_host m : host_record (set_pending s m) r = Ok s' → consumed s r s' None "HOST_STAGE"
  | consumed_operation m : complete_operation (set_pending s m) r = Ok s' → consumed s r s' None "TARGET_OPERATION"
  | consumed_end m : end_record (set_pending s m) r = Ok s' → consumed s r s' None "RUN_END".

Lemma consume_consumed s r s' o : consume s r = Ok (s', o) → ∃ kind, pget r "kind" = JStr kind ∧ consumed s r s' o kind.
Proof.
  unfold consume, require_res, require. intros H. apply bind_Ok in H as ([] & _ & H).
  apply bind_Ok in H as (? & _ & H). apply bind_Ok in H as ([] & _ & H).
  apply bind_Ok in H as (? & _ & H). apply bind_Ok in H as ([] & _ & H).
  apply bind_Ok in H as (kind & [Hk _]%text_Ok & H). apply bind_Ok in H as (s1 & Hs1 & H). exists kind. split; [done|].
  assert (∃ m, s1 = set_pending s m) as [m ->].
  { destruct (str_in kind _); [|by eapply bind_semantic_pending]. injection Hs1 as <-.
    exists (pending s). by rewrite set_pending_id. }
  repeat match type of H with
  | (if String.eqb ?a ?b then _ else _) = _ => destruct (String.eqb_spec a b) as [->|]
  end; try discriminate; apply bind_Ok in H as (st & Hst & H); injection H as <- <-.
  - destruct st as [s1 w]. by eapply consumed_work.
  - by eapply consumed_phase.
  - by eapply consumed_call.
  - by eapply consumed_host.
  - by eapply consumed_operation.
  - by eapply consumed_end.
Qed.

(** The same without the kind. *)
Inductive record_effect (s : TraceState) (r : record) (s' : TraceState) : option Work → Prop :=
  | effect_work w : work_record s r = Ok (s', w) → record_effect s r s' (Some w)
  | effect_phase : phase_record s r = Ok s' → record_effect s r s' None
  | effect_call : call_record s r = Ok s' → record_effect s r s' None
  | effect_host : host_record s r = Ok s' → record_effect s r s' None
  | effect_operation : complete_operation s r = Ok s' → record_effect s r s' None
  | effect_end : end_record s r = Ok s' → record_effect s r s' None.

Lemma consume_effect s r s' o :
  consume s r = Ok (s', o) →
  ended s = false ∧ ∃ m, record_effect (set_pending s m) r s' o.
Proof.
  intros H. split.
  - unfold consume, require_res in H. apply bind_Ok in H as ([] & Hend & _).
    apply require_m_Ok, and_then_Ok_true in Hend as [Hend%Ok_eq _]. by apply negb_true_iff.
  - apply consume_consumed in H as (kind & _ & Hc). destruct Hc as [m w|m|m|m|m|m]; exists m; by constructor.
Qed.

Definition option_list {A} (o : option A) : list A := match o with Some x => [x] | None => [] end.

(** The records of the lines after the first. *)
Definition line_record (line : option json) : option record :=
  match line with
  | Some raw => match parse_record raw with Ok r => Some r | Err _ => None end
  | None => None
  end.
Definition trace_records (lines : list (option json)) : list record := omap line_record (tail lines).

Lemma read_record_line n line r : read_record n line = Ok r → line_record line = Some r.
Proof.
  unfold read_record, line_record, require. destruct line as [raw|]; [|done]. intros (r0 & -> & H)%bind_Ok.
  apply bind_Ok in H as (declared & _ & H). by apply bind_Ok in H as ([] & _ & <-%Ok_eq).
Qed.

(** Rule of induction: a property of the records and works so far and the
    state that holds at the start and is preserved by every consumed record. *)
Lemma run_trace_hist `{Host} (P : list record → list Work → TraceState → Prop) lines s ws :
  (∀ run, P [] [] (start_state run)) →
  (∀ rs ws s r s' o, P rs ws s → consume s r = Ok (s', o) → P (rs ++ [r]) (ws ++ option_list o) s') →
  run_trace lines = Ok (s, ws) → P (trace_records lines) ws.*2 s.
Proof.
  intros Hstart Hstep. unfold run_trace, start_trace. destruct lines as [|line rest]; [done|].
  intros Hrun. apply bind_Ok in Hrun as (s0 & H0 & Hrun). apply bind_Ok in H0 as (r0 & _ & H0).
  apply bind_Ok in H0 as (run0 & _ & [= <-]). apply bind_Ok in Hrun as (final & Hf & [= <- <-]).
  apply (fold_res_hist (fun pre st => P (omap line_record pre) st.2.*2 st.1.2)) in Hf; [done|apply Hstart|].
  intros pre l post [[n s1] ws1] [[n' s2] ws2] _ HP Hs. unfold trace_step in Hs.
  apply bind_Ok in Hs as (r & Hr%read_record_line & Hs). apply bind_Ok in Hs as ([s3 o] & Hc & [= <- <- <-]). cbn in *.
  rewrite fmap_app, omap_app. cbn. rewrite Hr. specialize (Hstep _ _ _ _ _ _ HP Hc). by destruct o.
Qed.

Lemma run_trace_inv `{Host} (P : list Work → TraceState → Prop) lines s ws :
  (∀ run, P [] (start_state run)) →
  (∀ ws s r s' o, P ws s → consume s r = Ok (s', o) → P (ws ++ option_list o) s') →
  run_trace lines = Ok (s, ws) → P ws.*2 s.
Proof. intros Hstart Hstep. apply (run_trace_hist (fun _ => P)); [done|]. intros _. apply Hstep. Qed.

(** What is read before a line of an accepted trace is an accepted trace, and
    its state consumes the record of the line. *)
Lemma run_trace_at `{Host} pre line post s ws : run_trace (pre ++ line :: post) = Ok (s, ws) → pre ≠ [] →
  ∃ s0 ws0 r s1 o, run_trace pre = Ok (s0, ws0) ∧ line_record line = Some r ∧ consume s0 r = Ok (s1, o).
Proof.
  destruct pre as [|first pre]; [done|]. cbn [app run_trace]. intros (st & -> & Hrun)%bind_Ok _. cbn [mbind res_bind].
  apply bind_Ok in Hrun as (final & Hf & _). rewrite fold_res_app in Hf. apply bind_Ok in Hf as ([[n s0] ws0] & -> & Hf).
  cbn [mbind res_bind fst snd fold_res] in Hf |- *. apply bind_Ok in Hf as (st1 & Hs & _). unfold trace_step in Hs.
  apply bind_Ok in Hs as (r & Hr%read_record_line & Hs). apply bind_Ok in Hs as ([s1 o] & Hc & _).
  by exists s0, ws0, r, s1, o.
Qed.

(** ** Work identities *)

Lemma work_record_inv s r s' w :
  work_record s r = Ok (s', w) →
  identity w = total_works s ∧ total_works s' = total_works s + 1 ∧ 0 <= parent_id w ∧
  geometry_ok (widths_dim (run s)).2 w ∧
  dispatch_work s w = Ok (dispatches s', dispatch_done s') ∧
  call_work (calls s) w = Ok (calls s') ∧ phases s' = phases s ∧ ended s' = ended s ∧ run s' = run s ∧
  operation_done s' = operation_done s ∧ completed_operations s' = completed_operations s ∧ hosts s' = hosts s.
Proof.
  unfold work_record, require. intros H.
  apply bind_Ok in H as (w0 & Hw & H). pose proof (parse_work_geometry _ _ _ Hw) as Hg.
  apply bind_Ok in H as (? & _ & H). apply bind_Ok in H as ([] & Hid & H). apply check_Ok in Hid.
  apply bind_Ok in H as (op & _ & H).
  apply bind_Ok in H as ([] & _ & H). apply bind_Ok in H as ([] & _ & H). apply bind_Ok in H as ([] & _ & H).
  apply bind_Ok in H as ([ds fin] & Hd & H). apply bind_Ok in H as (cs & Hc & [= <- <-]). z_props.
  unfold total_works in *; cbn. split_and!; try done.
  - destruct (String.eqb _ _); lia.
  - apply geo_ids in Hg. lia.
Qed.

(** The fields other record kinds leave alone. *)
Lemma phase_record_frame s r s' : phase_record s r = Ok s' → s' = set_phases s (phases s').
Proof. unfold phase_record, require, phase_boundary. intros H. res_inv. done. Qed.

Lemma host_record_frame s r s' : host_record s r = Ok s' → s' = set_calls_hosts s (calls s') (hosts s').
Proof. unfold host_record. intros H. res_inv. done. Qed.

Lemma call_record_frame s r s' :
  call_record s r = Ok s' →
  s' = set_calls_hosts (set_pending s (pending s')) (calls s') (hosts s) ∧ stage (calls s) r = Ok (calls s').
Proof. unfold call_record, require. intros H. res_inv. done. Qed.

Lemma end_record_frame s r s' :
  end_record s r = Ok s' →
  s' = set_ended s ∧ phase_boundary s = Ok tt ∧ phases s ≠ [] ∧
  cursor (operation_done s) = completed_operations s ∧ ahead (operation_done s) = ∅.
Proof.
  unfold end_record, require_res, require. intros H.
  apply bind_Ok in H as ([] & Hb & H). apply bind_Ok in H as ([] & Hp & H).
  apply bind_Ok in H as ([] & _ & H). apply bind_Ok in H as ([] & Hc & [= <-]).
  apply require_m_Ok, and_then_Ok_true in Hp as [[= Hp] _]. apply check_Ok in Hc. z_props.
  split_and!; try done. destruct (phases s); done.
Qed.

Lemma complete_operation_frame s r s' :
  complete_operation s r = Ok s' →
  dispatches s' = dispatches s ∧ dispatch_done s' = dispatch_done s ∧ phases s' = phases s ∧
  total_works s' = total_works s ∧ ended s' = ended s ∧
  ∃ id, 0 <= id ∧ calls_operation_complete (calls s) id = Ok (calls s') ∧
    add_id (operation_done s) id = Ok (operation_done s') ∧
    completed_operations s' = completed_operations s + 1.
Proof.
  unfold complete_operation, require, require_res. intros H.
  apply bind_Ok in H as (id & Hid & H). apply integer_bounds in Hid.
  do 21 (apply bind_Ok in H as (? & _ & H)).
  apply bind_Ok in H as (h & _ & H). apply bind_Ok in H as (cs & Hc & H).
  apply bind_Ok in H as (fin & Hf & [= <-]). unfold total_works; cbn. split_and!; try done.
  exists id. split_and!; [lia|done..].
Qed.

Lemma run_trace_numbered `{Host} lines s ws :
  run_trace lines = Ok (s, ws) →
  identity <$> ws.*2 = seqZ 0 (Z.of_nat (length ws)) ∧ total_works s = Z.of_nat (length ws).
Proof.
  intros Hrun. rewrite <-(length_fmap snd ws).
  apply (run_trace_inv (fun ws s => identity <$> ws = seqZ 0 (Z.of_nat (length ws)) ∧
    total_works s = Z.of_nat (length ws))) in Hrun; [done|done|]. clear.
  intros ws s r s' o [Hid Htot] (_ & m & He)%consume_effect.
  destruct He as [w H|H|H|H|H|H]; cbn [option_list]; rewrite ?app_nil_r.
  - apply work_record_inv in H as (Hw & Htot' & _). rewrite fmap_app, length_app, Nat.add_1_r, seqZ_S, Hid. cbn.
    change (total_works (set_pending s m)) with (total_works s) in *. rewrite Hw, Htot', Htot. split; [done|lia].
  - apply phase_record_frame in H as ->. done.
  - apply call_record_frame in H as [-> _]. done.
  - apply host_record_frame in H as ->. done.
  - apply complete_operation_frame in H as (_ & _ & _ & Ht & _). by rewrite Ht.
  - apply end_record_frame in H as [-> _]. done.
Qed.

(** The works of an accepted trace prefix are numbered [0, 1, ...] in the
    order of their records, and the two provenance counters add up to their
    number. *)
Theorem trace_work_identities `{Host} lines s ws :
  run_trace lines = Ok (s, ws) →
  identity <$> ws.*2 = seqZ 0 (Z.of_nat (length ws)) ∧
  dense_works s + residual_works s = Z.of_nat (length ws).
Proof. apply run_trace_numbered. Qed.

(** ** Coverage of parent rows *)

Definition parent_works (p : Z) (ws : list Work) : list Work := filter (fun w => parent_id w = p) ws.

(** The works cover rows [from, upto) in order, without gap or overlap. *)
Fixpoint rows_tile (from : Z) (l : list Work) (upto : Z) : Prop :=
  match l with
  | [] => from = upto
  | w :: l => row_begin w = from ∧ 0 < input w 0 ∧ rows_tile (from + input w 0) l upto
  end.

(** The works of one dispatch: rows tiled up to [upto], the descriptor of the
    first work, stripes numbered in order. *)
Record dispatch_ok (l : list Work) (f : Work) (upto : Z) : Prop := {
  do_head : head l = Some f;
  do_rows : rows_tile 0 l upto;
  do_descriptor : Forall (fun w => same_descriptor w f = true) l;
  do_stripes : ∀ i w, l !! i = Some w → scope w = "stripe" → stripe_id w = Some (Z.of_nat i);
}.

Lemma rows_tile_snoc from l upto w :
  rows_tile from l upto → row_begin w = upto → 0 < input w 0 →
  rows_tile from (l ++ [w]) (upto + input w 0).
Proof.
  revert from. induction l as [|v l IH]; intros from; cbn.
  - by intros -> -> ?.
  - intros (? & ? & ?) ? ?. split_and!; [done|done|]. by apply IH.
Qed.

Lemma parent_works_snoc p ws w :
  parent_works p (ws ++ [w]) = parent_works p ws ++ (if decide (parent_id w = p) then [w] else []).
Proof. unfold parent_works. rewrite filter_app, filter_cons. by case_decide. Qed.

Lemma same_descriptor_refl w : same_descriptor w w = true.
Proof. unfold same_descriptor. by rewrite !Z.eqb_refl, !String.eqb_refl, !bool_decide_eq_true_2. Qed.

Lemma same_descriptor_rows w f :
  same_descriptor w f = true → parent_rows w = parent_rows f ∧ operation_id w = operation_id f ∧ scope w = scope f.
Proof. unfold same_descriptor. intros H. z_props. done. Qed.

Lemma dispatch_ok_start w :
  row_begin w = 0 → 0 < input w 0 → (scope w = "stripe" → stripe_id w = Some 0) →
  dispatch_ok [w] w (input w 0).
Proof.
  intros H1 H2 H3. constructor; cbn; [done|done| |].
  - constructor; [apply same_descriptor_refl|done].
  - intros [|i] v [= <-]. done.
Qed.

Lemma dispatch_ok_snoc l f upto w :
  dispatch_ok l f upto → same_descriptor w f = true → row_begin w = upto → 0 < input w 0 →
  (scope w = "stripe" → stripe_id w = Some (Z.of_nat (length l))) →
  dispatch_ok (l ++ [w]) f (upto + input w 0).
Proof.
  intros [Hh Hr Hd Hs] H1 H2 H3 H4. constructor.
  - by destruct l.
  - by apply rows_tile_snoc.
  - apply Forall_app. auto.
  - intros i v [Hi|[Hi Hv]]%lookup_app_Some; [by apply Hs|].
    destruct (i - length l)%nat eqn:E; cbn in Hv; [|done]. injection Hv as <-.
    replace i with (length l) by lia. done.
Qed.

Record rows_inv (ws : list Work) (s : TraceState) : Prop := {
  ri_normal : normal (dispatch_done s);
  ri_open : ∀ p d, dispatches s !! p = Some d →
    ¬ member (dispatch_done s) p ∧ dispatch_ok (parent_works p ws) (first d) (next_row d) ∧
    next_stripe d = Z.of_nat (length (parent_works p ws));
  ri_done : ∀ p, member (dispatch_done s) p →
    ∃ f, dispatch_ok (parent_works p ws) f (parent_rows f);
  ri_none : ∀ p, dispatches s !! p = None → ¬ member (dispatch_done s) p → parent_works p ws = [];
}.

Lemma dispatch_work_inv ws s w ds fin s' :
  rows_inv ws s → 0 <= parent_id w → 0 < input w 0 →
  dispatch_work s w = Ok (ds, fin) → dispatches s' = ds → dispatch_done s' = fin →
  rows_inv (ws ++ [w]) s'.
Proof.
  intros [Hn Ho Hd Hnone] Hp Hm Hrun Hds Hfin. unfold dispatch_work, require in Hrun.
  set (p := parent_id w) in *.
  apply bind_Ok in Hrun as ([] & Hc & Hrun). apply check_Ok in Hc.
  assert (Hnd : ¬ member (dispatch_done s) p).
  { rewrite <-contains_spec by done. by destruct (contains _ _). }
  set (d := default _ _) in *.
  apply bind_Ok in Hrun as ([] & H1 & Hrun). apply bind_Ok in Hrun as ([] & H2 & Hrun).
  apply bind_Ok in Hrun as ([] & H3 & Hrun). apply check_Ok in H1, H2, H3. z_props.
  assert (Hs : scope w = "stripe" → stripe_id w = Some (next_stripe d)).
  { intros E. rewrite E in H3. cbn in H3. by apply bool_decide_eq_true in H3. }
  assert (Hok : dispatch_ok (parent_works p (ws ++ [w])) (first d) (next_row d + input w 0) ∧
    next_stripe d + 1 = Z.of_nat (length (parent_works p (ws ++ [w])))).
  { rewrite parent_works_snoc, decide_True, length_app by done. unfold d in *.
    destruct (dispatches s !! p) as [d0|] eqn:E; cbn in *.
    - destruct (Ho _ _ E) as (_ & Hok & Hlen). rewrite Hlen in *. split; [|lia].
      by apply dispatch_ok_snoc.
    - rewrite Hnone by done. cbn. split; [|done]. by apply dispatch_ok_start. }
  destruct Hok as [Hok Hlen].
  assert (Hother : ∀ q, q ≠ p → parent_works q (ws ++ [w]) = parent_works q ws).
  { intros q Hq. rewrite parent_works_snoc, decide_False by done. apply app_nil_r. }
  assert (Hfirst : parent_rows w = parent_rows (first d)) by by apply same_descriptor_rows.
  destruct (_ =? parent_rows w) eqn:E.
  - apply bind_Ok in Hrun as (fin' & Hadd & [= <- <-]). cbn in *. apply Z.eqb_eq in E.
    destruct (add_id_spec _ _ _ Hn Hp Hadd) as (_ & Hn' & Hmem).
    constructor; rewrite ?Hds, ?Hfin; [done|..].
    + intros q dq [Hq Hl]%lookup_delete_Some. rewrite Hother, Hmem by done.
      destruct (Ho _ _ Hl) as (Hnq & ? & ?). split_and!; [|done|done]. intros [->|?]; done.
    + intros q [->|Hq]%Hmem.
      * exists (first d). by rewrite <-Hfirst, <-E.
      * rewrite Hother by (intros ->; done). by apply Hd.
    + intros q Hq Hnq. rewrite Hmem in Hnq. assert (q ≠ p) by tauto.
      rewrite lookup_delete_ne in Hq by done. rewrite Hother by done. apply Hnone; tauto.
  - injection Hrun as <- <-. constructor; rewrite ?Hds, ?Hfin; [done|..].
    + intros q dq [[<- <-]|[Hq Hl]]%lookup_insert_Some; [done|]. rewrite Hother by done. by apply Ho.
    + intros q Hq. rewrite Hother by (intros ->; done). by apply Hd.
    + intros q [Hl Hq]%lookup_insert_None Hnq. rewrite Hother by done. by apply Hnone.
Qed.

Lemma rows_inv_frame ws s s' :
  dispatches s' = dispatches s → dispatch_done s' = dispatch_done s → rows_inv ws s → rows_inv ws s'.
Proof. intros H1 H2 []. constructor; rewrite ?H1, ?H2; done. Qed.

Lemma rows_inv_consume ws s r s' o :
  rows_inv ws s → consume s r = Ok (s', o) → rows_inv (ws ++ option_list o) s'.
Proof.
  intros Hinv (_ & m & He)%consume_effect.
  destruct He as [w H|H|H|H|H|H]; cbn [option_list]; rewrite ?app_nil_r.
  - apply work_record_inv in H as (_ & _ & Hp & Hg & Hd & _).
    eapply (dispatch_work_inv ws s w); [done|done| |exact Hd|done|done].
    apply geo_inputs in Hg as (m' & n & k & ti & tj & tk & a & b & out & sc & Hin & ?).
    unfold input. rewrite Hin. cbn. lia.
  - apply phase_record_frame in H as ->. by apply (rows_inv_frame _ s).
  - apply call_record_frame in H as [-> _]. by apply (rows_inv_frame _ s).
  - apply host_record_frame in H as ->. by apply (rows_inv_frame _ s).
  - apply complete_operation_frame in H as (H1 & H2 & _). by apply (rows_inv_frame _ s).
  - apply end_record_frame in H as [-> _]. by apply (rows_inv_frame _ s).
Qed.

(** Consuming [RUN_END] passes the phase boundary, and nothing follows it. *)
Definition closed_state (s : TraceState) : Prop :=
  ended s = true → phase_boundary s = Ok tt ∧ phases s ≠ [] ∧
    cursor (operation_done s) = completed_operations s ∧ ahead (operation_done s) = ∅.

Lemma closed_state_consume s r s' o : consume s r = Ok (s', o) → closed_state s'.
Proof.
  intros (Hend & m & He)%consume_effect. unfold closed_state.
  destruct He as [w H|H|H|H|H|H].
  - apply work_record_inv in H as (_ & _ & _ & _ & _ & _ & _ & H & _). rewrite H. cbn. congruence.
  - apply phase_record_frame in H as ->. cbn. congruence.
  - apply call_record_frame in H as [-> _]. cbn. congruence.
  - apply host_record_frame in H as ->. cbn. congruence.
  - apply complete_operation_frame in H as (_ & _ & _ & _ & H & _). rewrite H. cbn. congruence.
  - apply end_record_frame in H as (-> & Hb & Hp & Hc & Ha). intros _. split_and!; done.
Qed.

Lemma phase_boundary_inv s :
  phase_boundary s = Ok tt →
  pending s = ∅ ∧ dispatches s = ∅ ∧ active (calls s) = ∅ ∧
  cursor (done_calls (calls s)) = count (calls s) ∧ ahead (done_calls (calls s)) = ∅ ∧
  host_active (hosts s) = ∅ ∧ host_count (hosts s) = completed (hosts s).
Proof.
  unfold phase_boundary, calls_boundary, host_boundary, require. intros H. res_inv. z_props. done.
Qed.

(** When [RUN_END] is accepted, the works of every parent that occurs in
    the trace cover the parent's rows exactly: in record order they tile
    [0, parent_rows) without gap or overlap, all carry the descriptor of the
    first one, and stripes are numbered [0, 1, ...]. *)
Theorem trace_rows_covered `{Host} lines s ws p :
  run_trace lines = Ok (s, ws) → ended s = true → parent_works p ws.*2 ≠ [] →
  ∃ f, dispatch_ok (parent_works p ws.*2) f (parent_rows f).
Proof.
  intros Hrun Hend Hne.
  apply (run_trace_inv (fun ws s => rows_inv ws s ∧ closed_state s)) in Hrun.
  - destruct Hrun as [[_ _ Hdone Hnone] Hcl]. destruct (Hcl Hend) as (Hb & _).
    apply phase_boundary_inv in Hb as (_ & Hds & _). apply Hdone.
    destruct (decide (member (dispatch_done s) p)) as [|Hm]; [done|].
    destruct Hne. apply Hnone; [by rewrite Hds|done].
  - intros run0. split; [|done]. constructor; cbn; [apply no_ids_normal| | |done].
    + intros q d Hq. done.
    + intros q [?|?]; cbn in *; [lia|set_solver].
  - clear. intros ws s r s' o [Hinv _] Hc. split; [by eapply rows_inv_consume|by eapply closed_state_consume].
Qed.
