(* ===== verification/TraceLifecycle.v ===== *)
(** * The life cycle of the calls and the phases of a trace

    What the records of an accepted trace say of each NPU call, from its
    [PREPARE] to its [CONTINUATION]; and what is closed at every phase boundary
    and after [RUN_END]. *)
From S2P Require Import Prelude Records TraceSchema TraceCalls TraceIntegrity TraceTheorems TraceSample.
Set Default Goal Selector "!".

(** ** The references of a record *)

Lemma id_array_Ok r key element detail l : id_array r key element detail = Ok l → item r key = Ok (JArr (map JInt l)).
Proof.
  unfold id_array. intros H. apply bind_Ok in H as (v & -> & H). destruct v as [| | | | |vs|]; try done.
  f_equal. apply map_res_Ok in H. f_equal. induction H as [|v z vs l Hv _ IH]; [done|]. cbn. rewrite <-IH. f_equal.
  unfold integer_value in Hv. apply integer_Ok in Hv as [Hv _]. unfold pget in Hv. cbn in Hv. by rewrite String.eqb_refl in Hv.
Qed.

Lemma references_Ok r key l : references r key = Ok l → item r key = Ok (JArr (map JInt l)).
Proof. unfold references. intros H. apply bind_Ok in H as (l' & H & H'). apply bind_Ok in H' as ([] & _ & <-%Ok_eq). by eapply id_array_Ok. Qed.

Lemma maps_to_Some m key operation : maps_to m key operation = true → m !! key = Some operation.
Proof. unfold maps_to. destruct (m !! key); [|done]. by intros ->%Z.eqb_eq. Qed.

Lemma maps_to_all m l operation : forallb (fun i => maps_to m i operation) l = true → ∀ i, i ∈ l → is_Some (m !! i).
Proof.
  rewrite forallb_forall. intros H i Hi%list_elem_of_In. apply H, maps_to_Some in Hi. by eexists.
Qed.

Lemma work_record_fields s r s' w : work_record s r = Ok (s', w) →
  integer r "work_id" = Ok (identity w) ∧ integer r "call_id" = Ok (call_id w) ∧ text r "scope" = Ok (scope w) ∧
  ∃ needs, item r "required_host_stage_ids" = Ok (JArr (map JInt needs)) ∧
    ∀ i, i ∈ needs → is_Some (completed_owners (hosts s) !! i).
Proof.
  unfold work_record, require. intros H. apply bind_Ok in H as (w0 & Hw & H). apply bind_Ok in H as ([] & Hb & H).
  assert (E : w0 = w).
  { apply bind_Ok in H as ([] & _ & H). apply bind_Ok in H as (op & _ & H).
    apply bind_Ok in H as ([] & _ & H). apply bind_Ok in H as ([] & _ & H). apply bind_Ok in H as ([] & _ & H).
    apply bind_Ok in H as ([ds fin] & _ & H). apply bind_Ok in H as (cs & _ & H). by apply Ok_eq, pair_eq in H as [_ ?]. }
  subst w0. assert (Hf : integer r "work_id" = Ok (identity w) ∧ integer r "call_id" = Ok (call_id w) ∧ text r "scope" = Ok (scope w)).
  { unfold parse_work in Hw. repeat (apply bind_Ok in Hw as (?x & ?Hx & Hw)).
    repeat match type of Hw with (let '(_, _) := ?p in _) = _ => destruct p end.
    repeat (apply bind_Ok in Hw as (?x & ?Hx & Hw)).
    repeat match type of Hw with (let '(_, _) := ?p in _) = _ => destruct p end.
    repeat (apply bind_Ok in Hw as (?x & ?Hx & Hw)).
    repeat match type of Hw with (let '(_, _) := ?p in _) = _ => destruct p end.
    repeat (apply bind_Ok in Hw as (?x & ?Hx & Hw)). by apply Ok_eq in Hw as <-. }
  destruct Hf as (? & ? & ?). split_and!; [done..|]. unfold before_work, require in Hb.
  apply bind_Ok in Hb as (operation & _ & Hb). apply bind_Ok in Hb as (needs & Hn & Hb%check_Ok_any).
  exists needs. split; [by apply references_Ok|]. by apply (maps_to_all _ _ operation).
Qed.

(** What attaching a work to its call requires and does. *)
Lemma call_work_inv cs w cs' : call_work cs w = Ok cs' → ∃ call call', active cs !! call_id w = Some call ∧
  stages call = ["PREPARE"; "INVOKE"] ∧ works call = ∅ ∧
  operation_id w = call_operation call ∧ node_id w = call_node call ∧ Some (parent_id w) = call_parent call ∧
  scope_kind (scope w) = Ok (call_kind call) ∧
  call' = {| call_operation := call_operation call; call_node := call_node call; call_parent := call_parent call;
             call_kind := call_kind call; stages := stages call; works := {[identity w]}; required := required call |} ∧
  active cs' = <[call_id w := call']> (active cs) ∧ count cs' = count cs ∧ done_calls cs' = done_calls cs ∧
  work_operations cs' = <[identity w := operation_id w]> (work_operations cs).
Proof.
  unfold call_work, require. intros H. destruct (active cs !! call_id w) as [call|] eqn:Ea; [|done].
  apply bind_Ok in H as ([] & Hst%check_Ok_any%bool_decide_eq_true & H). apply bind_Ok in H as ([] & Ho%check_Ok_any & H).
  apply bind_Ok in H as (kind & Hkind & H). apply bind_Ok in H as ([] & Hk%check_Ok_any & <-%Ok_eq).
  apply andb_prop in Hk as [<-%String.eqb_eq Hw%bool_decide_eq_true]. apply andb_prop in Ho as [[Ho%Z.eqb_eq Hn%Z.eqb_eq]%andb_prop Hp%bool_decide_eq_true].
  exists call. eexists. split; [done|]. split; [done|]. split; [done|]. do 4 (split; [done|]). split; [reflexivity|].
  cbn. by rewrite Hw, union_empty_r_L.
Qed.

(** *** A stage of a call *)

(** The works the record of a stage requires. *)
Definition needed_works (r : record) : list Z :=
  match pget r "required_work_ids" with
  | JArr l => omap (fun v => match v with JInt z => Some z | _ => None end) l
  | _ => []
  end.

Lemma needed_works_Ok r needs : item r "required_work_ids" = Ok (JArr (map JInt needs)) → needed_works r = needs.
Proof.
  unfold needed_works. intros ->%pget_item. induction needs as [|z needs IH]; [done|]. cbn [map omap list_omap needed_works].
  by rewrite IH.
Qed.

(** A call whose continuation was accepted: a call of a work owns exactly one
    and requires it, the other kinds own none; a stripe was published and a
    fence went through its stages. *)
Record finished (c : Call) : Prop := {
  fi_last : last (stages c) = Some "CONTINUATION";
  fi_own : if str_in (call_kind c) ["FULL"; "STRIPE"; "RESIDUAL_COMPACT"]
    then size (works c) = 1%nat ∧ works c ⊆ required c else works c = ∅;
  fi_publish : call_kind c = "STRIPE" → "PUBLISH" ∈ stages c;
  fi_fence : call_kind c = "FENCE" → "COMPLETE_REQUIRED" ∈ stages c ∧ "FENCE" ∈ stages c;
}.

(** What [stage] required and did: [before] is the call it found, or the one it
    opened. *)
Record staged (cs : Calls) (r : record) (cs' : Calls) (id : Z) (st : string) (before after : Call) : Prop := {
  sg_call : integer r "call_id" = Ok id;
  sg_stage : pget r "stage" = JStr st;
  sg_kind : pget r "call_kind" = JStr (call_kind before);
  sg_needs : ∃ needs, item r "required_work_ids" = Ok (JArr (map JInt needs)) ∧
    ∀ i, i ∈ needs → is_Some (work_operations cs !! i);
  sg_open : contains (done_calls cs) id = false;
  sg_before : active cs !! id = Some before ∧ count cs' = count cs ∨
    active cs !! id = None ∧ id = count cs ∧ count cs' = count cs + 1 ∧ st = "PREPARE" ∧ stages before = [];
  sg_new : st ∉ stages before;
  sg_order : match last (stages before) with None => True | Some p => (index_of p ORDER < index_of st ORDER)%nat end;
  sg_invoked : st ∈ ["PREPARE"; "INVOKE"] ∨ "INVOKE" ∈ stages before;
  sg_stages : stages after = stages before ++ [st];
  sg_same : call_kind after = call_kind before;
  sg_works : work_operations cs' = work_operations cs;
  sg_active : if String.eqb st "CONTINUATION" then active cs' = delete id (active cs) else active cs' = <[id := after]> (active cs);
  sg_publish : st = "CONTINUATION" → call_kind before = "STRIPE" → "PUBLISH" ∈ stages after;
  sg_declared : st ∈ ORDER ∧ call_kind before ∈ KINDS;
  sg_owner : integer r "operation_id" = Ok (call_operation before) ∧ integer r "node_id" = Ok (call_node before);
  sg_same_owner : call_operation after = call_operation before ∧ call_node after = call_node before ∧
    (call_parent before = None ∨ call_parent after = call_parent before);
  sg_fresh : active cs !! id = None → works before = ∅ ∧ required before = ∅;
  sg_own : works after = works before;
  sg_required : required after = required before ∪ list_to_set (needed_works r);
  sg_completes : needed_works r ≠ [] → st = "COMPLETE_REQUIRED";
  sg_known : ∀ i, i ∈ needed_works r → work_operations cs !! i = Some (call_operation before);
  sg_kinds : (st = "PUBLISH" → call_kind before = "STRIPE" ∧ works before ≠ ∅) ∧ (st = "FENCE" → call_kind before = "FENCE");
  sg_done : if String.eqb st "CONTINUATION" then finished after ∧ add_id (done_calls cs) id = Ok (done_calls cs')
    else done_calls cs' = done_calls cs;
}.

Lemma close_call_fields cs id call cs' : close_call cs id call = Ok cs' → last (stages call) = Some "CONTINUATION" →
  active cs' = delete id (active cs) ∧ count cs' = count cs ∧ work_operations cs' = work_operations cs ∧
  finished call ∧ add_id (done_calls cs) id = Ok (done_calls cs').
Proof.
  unfold close_call, require. intros H Hlast. apply bind_Ok in H as ([] & Hk & H).
  apply bind_Ok in H as ([] & Hfence%check_Ok_any & H). apply bind_Ok in H as (done' & Hdone & <-%Ok_eq).
  split_and!; [done..| |done]. constructor; [done| | |].
  - destruct (str_in _ _); [|by apply check_Ok_any, bool_decide_eq_true in Hk]. apply bind_Ok in Hk as ([] & Hk%check_Ok_any & _).
    apply andb_prop in Hk as [Hs%Nat.eqb_eq Hr%bool_decide_eq_true]. done.
  - intros E. rewrite E in Hk. change (str_in "STRIPE" ["FULL"; "STRIPE"; "RESIDUAL_COMPACT"]) with true in Hk.
    apply bind_Ok in Hk as ([] & _ & Hk%check_Ok_any). by apply str_in_spec.
  - intros E. rewrite E in Hfence. change (negb (String.eqb "FENCE" "FENCE")) with false in Hfence. cbn [orb] in Hfence.
    apply (proj1 (subset_of_spec String.eqb _ _ String.eqb_eq)) in Hfence. split; apply Hfence; set_solver.
Qed.

Lemma open_call_inv cs id operation node parent kind st cs1 call :
  open_call cs id operation node parent kind st = Ok cs1 → active cs1 !! id = Some call →
  work_operations cs1 = work_operations cs ∧ done_calls cs1 = done_calls cs ∧
  (active cs !! id = Some call ∧ cs1 = cs ∨
   active cs !! id = None ∧ id = count cs ∧ st = "PREPARE" ∧ active cs1 = <[id := call]> (active cs) ∧ count cs1 = count cs + 1 ∧
   stages call = [] ∧ works call = ∅ ∧ required call = ∅).
Proof.
  unfold open_call, require. intros Hopen Hcall. destruct (active cs !! id) as [c|] eqn:E.
  - injection Hopen as <-. split; [done|]. split; [done|left]. split; [congruence|done].
  - apply bind_Ok in Hopen as ([] & Hp%check_Ok_any & Hopen). apply bind_Ok in Hopen as ([] & Hc%check_Ok_any & <-%Ok_eq).
    z_props. cbn in Hcall. rewrite lookup_insert_eq in Hcall. injection Hcall as <-. split; [done|]. split; [done|right]. by split_and!.
Qed.

Lemma stage_parents cs p operation cs2 :
  (match p with
   | None => Ok cs
   | Some p =>
       require (owned_by (parent_operations cs) p operation) "parent has multiple operations" ;;;
       Ok (with_parents cs (<[p := operation]> (parent_operations cs)) (host_declared_parents cs ∖ {[p]}))
   end) = Ok cs2 →
  active cs2 = active cs ∧ count cs2 = count cs ∧ work_operations cs2 = work_operations cs ∧ done_calls cs2 = done_calls cs.
Proof. destruct p; [|by intros <-%Ok_eq]. by intros ([] & _ & <-%Ok_eq)%bind_Ok. Qed.

Lemma stage_staged cs r cs' : stage cs r = Ok cs' → ∃ id st before after, staged cs r cs' id st before after.
Proof.
  unfold stage, require. intros H.
  apply bind_Ok in H as (id & Hid & H). apply bind_Ok in H as (operation & Hop & H). apply bind_Ok in H as (node & Hnode & H).
  apply bind_Ok in H as (parent & _ & H). apply bind_Ok in H as (kind & [Hkind _]%text_Ok & H).
  apply bind_Ok in H as (st & [Hst _]%text_Ok & H). apply bind_Ok in H as ([] & Hdecl%check_Ok_any & H).
  apply bind_Ok in H as ([] & Hdone%check_Ok_any%negb_true_iff & H). apply bind_Ok in H as (cs1 & Hopen & H).
  apply bind_Ok in H as (call & Hcall & H). destruct (active cs1 !! id) as [call0|] eqn:E1; [|done]. apply Ok_eq in Hcall as ->.
  apply bind_Ok in H as ([] & Hown%check_Ok_any & H). apply bind_Ok in H as ([] & Hpar%check_Ok_any%bool_decide_eq_true & H).
  apply bind_Ok in H as (cs2 & Hcs2%stage_parents & H).
  apply bind_Ok in H as ([] & Hs%check_Ok_any & H). apply andb_prop in Hs as [Hnew Hlast].
  apply bind_Ok in H as ([] & Hinv%check_Ok_any & H). apply bind_Ok in H as (needs & Hneeds%id_array_Ok & H).
  apply bind_Ok in H as ([] & _ & H). apply bind_Ok in H as ([] & Hwhen%check_Ok_any & H).
  apply bind_Ok in H as ([] & Hmaps%check_Ok_any & H). apply bind_Ok in H as ([] & Hpub%check_Ok_any & H).
  apply bind_Ok in H as ([] & Hfence%check_Ok_any & H). apply bind_Ok in H as ([] & Hsel%check_Ok_any & H).
  match type of H with (if _ then close_call cs2 id ?c else _) = _ => set (after := c) in H end.
  destruct Hcs2 as (Ea & Ec & Ew & Ed). apply andb_prop in Hdecl as [Hd1%str_in_spec Hd2%str_in_spec].
  apply andb_prop in Hown as [[E2%Z.eqb_eq E3%Z.eqb_eq]%andb_prop E4%String.eqb_eq]. subst operation node kind.
  destruct (open_call_inv _ _ _ _ _ _ _ _ _ Hopen E1) as (Ew1 & Ed1 & Hbefore). clear Hopen.
  assert (Hlast' : last (stages after) = Some st) by apply last_snoc.
  assert (Hresult : work_operations cs' = work_operations cs2 ∧ count cs' = count cs2 ∧
    (if String.eqb st "CONTINUATION" then active cs' = delete id (active cs2) else active cs' = <[id := after]> (active cs2)) ∧
    if String.eqb st "CONTINUATION" then finished after ∧ add_id (done_calls cs2) id = Ok (done_calls cs') else done_calls cs' = done_calls cs2).
  { destruct (String.eqb_spec st "CONTINUATION") as [->|Hne].
    - by apply close_call_fields in H as (? & ? & ? & ? & ?).
    - by apply Ok_eq in H as <-. }
  destruct Hresult as (Ew' & Ec' & Ea' & Ed'). rewrite Ed, Ed1 in Ed'. clear H.
  exists id, st, call, after. constructor; rewrite ?(needed_works_Ok _ _ Hneeds); try done.
  - exists needs. split; [done|]. rewrite <-Ew1, <-Ew. by apply (maps_to_all _ _ (call_operation call)).
  - destruct Hbefore as [[? ->]|(? & ? & ? & _ & Hc & ? & _)]; [left; split; [done|congruence]|right]. split_and!; try done. congruence.
  - apply negb_true_iff in Hnew. rewrite <-str_in_spec. congruence.
  - destruct (last (stages call)); [by apply Nat.ltb_lt|done].
  - apply orb_prop in Hinv as [Hinv|Hinv]; [left|right]; by apply str_in_spec.
  - congruence.
  - rewrite Ea in Ea'. destruct Hbefore as [[_ ->]|(_ & _ & -> & Hc & _)]; [done|].
    change (String.eqb "PREPARE" "CONTINUATION") with false in Ea' |- *. by rewrite Hc, insert_insert_eq in Ea'.
  - intros -> E. change (String.eqb "CONTINUATION" "CONTINUATION") with true in Ed'. destruct Ed' as [Hf _]. by apply (fi_publish _ Hf).
  - split_and!; [done|done|]. cbn. destruct (call_parent call); [by right|by left].
  - intros Hn. destruct Hbefore as [[Hb _]|(_ & _ & _ & _ & _ & _ & ?)]; [congruence|done].
  - cbn. destruct (String.eqb_spec st "COMPLETE_REQUIRED") as [->|]; [done|]. destruct needs; [|done]. cbn. by rewrite union_empty_r_L.
  - destruct needs; [done|]. intros _. by apply String.eqb_eq.
  - intros i Hi. rewrite <-Ew1, <-Ew. rewrite forallb_forall in Hmaps. by apply maps_to_Some, Hmaps, list_elem_of_In.
  - split; intros ->.
    + change (negb (String.eqb "PUBLISH" "PUBLISH")) with false in Hpub, Hsel. cbn [orb] in Hpub, Hsel. split; [by apply String.eqb_eq|].
      apply negb_true_iff in Hsel. by apply bool_decide_eq_false in Hsel.
    + change (negb (String.eqb "FENCE" "FENCE")) with false in Hfence. by apply String.eqb_eq.
Qed.

(** ** The life cycle of calls *)

(** Stages appear in the order of [ORDER], starting with [PREPARE]; a work is
    only attached once the call was invoked, and a call has at most one. *)
Record call_ok (c : Call) : Prop := {
  co_prepare : head (stages c) = Some "PREPARE";
  co_order : StronglySorted (fun s t => (index_of s ORDER < index_of t ORDER)%nat) (stages c);
  co_known : Forall (fun s => s ∈ ORDER) (stages c);
  co_invoked : works c ≠ ∅ → "INVOKE" ∈ stages c;
  co_single : (size (works c) <= 1)%nat;
}.

Record calls_wf (ws : list Work) (cs : Calls) : Prop := {
  cw_normal : normal (done_calls cs);
  cw_count : 0 <= count cs;
  cw_active : ∀ id c, active cs !! id = Some c → 0 <= id < count cs ∧ ¬ member (done_calls cs) id ∧ call_ok c;
  cw_done : ∀ id, member (done_calls cs) id → 0 <= id < count cs;
  cw_all : ∀ id, 0 <= id < count cs → is_Some (active cs !! id) ∨ member (done_calls cs) id;
  cw_works : ∀ w, w ∈ ws → member (done_calls cs) (call_id w) ∨
    ∃ c, active cs !! call_id w = Some c ∧ works c = {[identity w]};
  cw_owner : NoDup (call_id <$> ws);
}.

Lemma calls_wf_frame ws cs cs' :
  active cs' = active cs → done_calls cs' = done_calls cs → count cs' = count cs →
  calls_wf ws cs → calls_wf ws cs'.
Proof. intros H1 H2 H3 []. constructor; rewrite ?H1, ?H2, ?H3; done. Qed.

(** Appending an element above the last one keeps a list sorted. *)
Lemma sorted_snoc {A} (f : A → nat) l x :
  StronglySorted (fun s t => (f s < f t)%nat) l →
  match last l with None => True | Some p => (f p < f x)%nat end →
  StronglySorted (fun s t => (f s < f t)%nat) (l ++ [x]).
Proof.
  induction 1 as [|s l Hl IH Hs]; cbn [app]; intros Hlast; [repeat constructor|].
  assert (Hst : (f s < f x)%nat).
  { destruct l as [|t l]; [done|]. destruct (last (t :: l)) as [p|] eqn:E.
    - change (last (s :: t :: l)) with (last (t :: l)) in Hlast. rewrite E in Hlast.
      apply last_Some in E as [k Hk]. rewrite Hk in Hs. apply Forall_app in Hs as [_ Hs].
      apply Forall_cons in Hs as [Hs _]. lia.
    - by apply last_None in E. }
  constructor.
  - apply IH. destruct l; [done|]. exact Hlast.
  - apply Forall_app. split; [done|]. by constructor.
Qed.

Lemma calls_wf_update ws cs cs' id c c' :
  calls_wf ws cs → active cs !! id = Some c → call_ok c' → works c' = works c →
  active cs' = <[id := c']> (active cs) → done_calls cs' = done_calls cs → count cs' = count cs →
  calls_wf ws cs'.
Proof.
  intros [Hn Hc Ha Hd Hall Hw Ho] Hid Hok Hworks E1 E2 E3.
  constructor; rewrite ?E1, ?E2, ?E3; try done.
  - intros i ci [[<- <-]|[Hne Hi]]%lookup_insert_Some; [|by apply Ha].
    destruct (Ha _ _ Hid) as (? & ? & _). done.
  - intros i Hi. destruct (Hall i Hi) as [[ci Hci]|?]; [left|by right].
    destruct (decide (i = id)) as [->|]; [by rewrite lookup_insert_eq|by rewrite lookup_insert_ne].
  - intros w Hin. destruct (Hw w Hin) as [?|(ci & Hci & Hwi)]; [by left|right].
    destruct (decide (call_id w = id)) as [E|]; [|exists ci; by rewrite lookup_insert_ne].
    exists c'. rewrite E, lookup_insert_eq. split; [done|]. congruence.
Qed.

Lemma calls_wf_new ws cs cs' c' :
  calls_wf ws cs → call_ok c' → active cs' = <[count cs := c']> (active cs) →
  done_calls cs' = done_calls cs → count cs' = count cs + 1 → calls_wf ws cs'.
Proof.
  intros [Hn Hc Ha Hd Hall Hw Ho] Hok E1 E2 E3.
  constructor; rewrite ?E1, ?E2, ?E3; try done.
  - lia.
  - intros i ci [[<- <-]|[Hne Hi]]%lookup_insert_Some.
    + split_and!; [lia|lia| |done]. intros Hm. apply Hd in Hm. lia.
    + destruct (Ha _ _ Hi) as (? & ? & ?). split_and!; [lia|lia|done|done].
  - intros i Hi. apply Hd in Hi. lia.
  - intros i Hi. destruct (decide (i = count cs)) as [->|]; [left; by rewrite lookup_insert_eq|].
    rewrite lookup_insert_ne by done. apply Hall. lia.
  - intros w Hin. destruct (Hw w Hin) as [?|(ci & Hci & Hwi)]; [by left|right]. exists ci.
    rewrite lookup_insert_ne; [done|]. intros E. apply Ha in Hci. lia.
Qed.

Lemma calls_wf_close ws cs cs' id c :
  calls_wf ws cs → active cs !! id = Some c → add_id (done_calls cs) id = Ok (done_calls cs') →
  active cs' = delete id (active cs) → count cs' = count cs → calls_wf ws cs'.
Proof.
  intros [Hn Hc Ha Hd Hall Hw Ho] Hid Hadd E1 E3.
  destruct (Ha _ _ Hid) as (Hpos & _ & _).
  destruct (add_id_spec _ _ _ Hn (proj1 Hpos) Hadd) as (_ & Hn' & Hm).
  constructor; rewrite ?E1, ?E3; try done.
  - intros i ci [Hne Hi]%lookup_delete_Some. destruct (Ha _ _ Hi) as (? & ? & ?).
    split_and!; [lia|lia| |done]. rewrite Hm. naive_solver.
  - intros i [->|Hi]%Hm; [done|by apply Hd].
  - intros i Hi. rewrite Hm. destruct (decide (i = id)) as [->|]; [by right; left|].
    rewrite lookup_delete_ne by done. destruct (Hall i Hi); tauto.
  - intros w Hin. rewrite Hm. destruct (decide (call_id w = id)) as [E|]; [by left; left|].
    rewrite lookup_delete_ne by done. destruct (Hw w Hin); tauto.
Qed.

Lemma call_ok_snoc c c' st :
  call_ok c → st ∈ ORDER → stages c' = stages c ++ [st] → works c' = works c →
  match last (stages c) with None => True | Some p => (index_of p ORDER < index_of st ORDER)%nat end →
  call_ok c'.
Proof.
  intros [Hp Ho Hk Hi Hs] Hst E1 E2 Hlast. constructor; rewrite ?E1, ?E2; try done.
  - by destruct (stages c).
  - by apply sorted_snoc.
  - apply Forall_app. split; [done|]. by constructor.
  - intros Hw. apply elem_of_app. left. auto.
Qed.

Lemma staged_call_ok cs r cs' id st before after : staged cs r cs' id st before after →
  (∀ c, active cs !! id = Some c → call_ok c) → call_ok after.
Proof.
  intros Hsg Hok. destruct (sg_before _ _ _ _ _ _ _ Hsg) as [[Hb _]|(Hb & _ & _ & -> & Es)].
  - eapply call_ok_snoc; [by apply Hok|by apply Hsg..].
  - pose proof (sg_own _ _ _ _ _ _ _ Hsg) as Ew. rewrite (proj1 (sg_fresh _ _ _ _ _ _ _ Hsg Hb)) in Ew.
    pose proof (sg_stages _ _ _ _ _ _ _ Hsg) as E. rewrite Es in E.
    constructor; rewrite ?E, ?Ew; cbn; [done|repeat constructor|by repeat constructor|done|]. rewrite size_empty. lia.
Qed.

Lemma staged_id cs r cs' id st before after : staged cs r cs' id st before after → 0 <= id ∧ ¬ member (done_calls cs) id.
Proof.
  intros Hsg. pose proof (integer_bounds _ _ _ (sg_call _ _ _ _ _ _ _ Hsg)). split; [lia|]. intros Hm.
  apply contains_spec in Hm; [|lia]. pose proof (sg_open _ _ _ _ _ _ _ Hsg). congruence.
Qed.

Lemma calls_wf_staged ws cs r cs' id st before after : calls_wf ws cs → staged cs r cs' id st before after → calls_wf ws cs'.
Proof.
  intros Hwf Hsg. assert (Hok : call_ok after).
  { apply (staged_call_ok _ _ _ _ _ _ _ Hsg). intros c Hc. by apply (cw_active _ _ Hwf) in Hc as (_ & _ & ?). }
  pose proof (sg_active _ _ _ _ _ _ _ Hsg) as Ha. pose proof (sg_done _ _ _ _ _ _ _ Hsg) as Hd.
  pose proof (sg_own _ _ _ _ _ _ _ Hsg) as Hw.
  destruct (sg_before _ _ _ _ _ _ _ Hsg) as [[Hb Hc]|(Hb & -> & Hc & -> & _)].
  - destruct (String.eqb st "CONTINUATION"); [by eapply calls_wf_close; [exact Hwf|exact Hb|apply Hd|..]|].
    by eapply calls_wf_update.
  - change (String.eqb "PREPARE" "CONTINUATION") with false in Ha, Hd. by eapply calls_wf_new.
Qed.

Lemma calls_wf_stage ws cs r cs' : calls_wf ws cs → stage cs r = Ok cs' → calls_wf ws cs'.
Proof. intros Hwf (id & st & before & after & Hsg)%stage_staged. by eapply calls_wf_staged. Qed.

Lemma calls_wf_work ws cs w cs' :
  calls_wf ws cs → call_work cs w = Ok cs' → calls_wf (ws ++ [w]) cs'.
Proof.
  intros [Hn Hc Ha Hd Hall Hw Ho] (c & c' & Ea & Hst & Hnone & _ & _ & _ & _ & Ec' & Ea' & Ecnt & Ed & _)%call_work_inv.
  destruct (Ha _ _ Ea) as (Hpos & Hnd & [Hp Hso Hk Hi Hs]).
  constructor; rewrite ?Ea', ?Ecnt, ?Ed; try done.
  - intros i ci [[<- <-]|[Hne Hi']]%lookup_insert_Some; [|by apply Ha]. split_and!; [lia|lia|done|].
    subst c'. constructor; cbn; [done..| |].
    + intros _. rewrite Hst. set_solver.
    + rewrite size_singleton. lia.
  - intros i Hi'. destruct (decide (i = call_id w)) as [->|]; [left; by rewrite lookup_insert_eq|].
    rewrite lookup_insert_ne by done. by apply Hall.
  - intros v [Hv|Hv%list_elem_of_singleton]%elem_of_app; [|subst v].
    + destruct (Hw v Hv) as [?|(cv & Hcv & Hwv)]; [by left|right]. exists cv.
      rewrite lookup_insert_ne; [done|]. intros E. rewrite <-E, Ea in Hcv. injection Hcv as <-. set_solver.
    + right. eexists. rewrite lookup_insert_eq. split; [done|]. by subst c'.
  - rewrite fmap_app. apply NoDup_app. split_and!; [done| |apply NoDup_singleton].
    intros i (v & -> & Hv)%list_elem_of_fmap Hin. apply list_elem_of_singleton in Hin.
    destruct (Hw v Hv) as [Hm|(cv & Hcv & Hwv)]; rewrite Hin in *; [done|].
    rewrite Ea in Hcv. injection Hcv as <-. set_solver.
Qed.

Lemma host_ownership_frame r operation cs cs' :
  host_ownership r operation cs = Ok cs' →
  active cs' = active cs ∧ done_calls cs' = done_calls cs ∧ count cs' = count cs ∧
  work_operations cs' = work_operations cs.
Proof.
  unfold host_ownership, require. intros H. apply bind_Ok in H as (parent & _ & H).
  apply bind_Ok in H as (cs1 & H1 & H). apply bind_Ok in H as (call & _ & H).
  assert (cs' = cs1) as ->.
  { destruct call; [|by injection H]. by apply bind_Ok in H as ([] & _ & [= <-]). }
  destruct parent; [|by injection H1 as <-]. by apply bind_Ok in H1 as ([] & _ & [= <-]).
Qed.

Lemma host_record_calls s r s' :
  host_record s r = Ok s' →
  active (calls s') = active (calls s) ∧ done_calls (calls s') = done_calls (calls s) ∧
  count (calls s') = count (calls s) ∧ work_operations (calls s') = work_operations (calls s).
Proof.
  unfold host_record. intros H. apply bind_Ok in H as ([h cs] & H & [= <-]). cbn.
  unfold host_consume, require, require_res in H.
  do 9 (apply bind_Ok in H as (? & _ & H)). apply bind_Ok in H as (cs1 & H1 & H).
  apply host_ownership_frame in H1. apply bind_Ok in H as (event & _ & H).
  destruct (eq_str event "BEGIN").
  - do 5 (apply bind_Ok in H as (? & _ & H)). destruct (bump_class _ _). by injection H as <- <-.
  - do 2 (apply bind_Ok in H as (? & _ & H)). by injection H as <- <-.
Qed.

Lemma calls_operation_complete_frame cs id cs' :
  calls_operation_complete cs id = Ok cs' →
  active cs' = active cs ∧ done_calls cs' = done_calls cs ∧ count cs' = count cs.
Proof. unfold calls_operation_complete, require. intros H. by res_inv. Qed.

Lemma calls_wf_consume ws s r s' o :
  calls_wf ws (calls s) → consume s r = Ok (s', o) → calls_wf (ws ++ option_list o) (calls s').
Proof.
  intros Hinv (_ & m & He)%consume_effect.
  destruct He as [w H|H|H|H|H|H]; cbn [option_list]; rewrite ?app_nil_r.
  - apply work_record_inv in H as (_ & _ & _ & _ & _ & Hc & _). by eapply calls_wf_work.
  - apply phase_record_frame in H as ->. done.
  - apply call_record_frame in H as [_ H]. by eapply calls_wf_stage.
  - apply host_record_calls in H as (? & ? & ? & _). by eapply calls_wf_frame.
  - apply complete_operation_frame in H as (_ & _ & _ & _ & _ & id & _ & H & _).
    apply calls_operation_complete_frame in H as (? & ? & ?). by eapply calls_wf_frame.
  - apply end_record_frame in H as [-> _]. done.
Qed.

Lemma calls_wf_start : calls_wf [] no_calls.
Proof.
  constructor; [apply no_ids_normal|done|done| | |set_solver|constructor].
  - intros i [?|?]; cbn in *; [lia|set_solver].
  - cbn. lia.
Qed.

(** ** The journal of a call *)

(** The records of the call [id]: its stages and its work, in their order. *)
Definition about_call (id : Z) (r : record) : bool :=
  (eq_str (pget r "kind") "NPU_CALL" || eq_str (pget r "kind") "NPU_WORK") &&
  match pget r "call_id" with JInt call => call =? id | _ => false end.
Definition call_journal (id : Z) (rs : list record) : list record := List.filter (about_call id) rs.

Inductive CallEvent :=
  | StageEvent (stage : string)
  | WorkEvent (work : Z).
Definition journal_event (r : record) : CallEvent :=
  if eq_str (pget r "kind") "NPU_CALL"
  then StageEvent (match pget r "stage" with JStr st => st | _ => "" end)
  else WorkEvent (match pget r "work_id" with JInt work => work | _ => -1 end).
Definition journal_needs (r : record) : list Z := if eq_str (pget r "kind") "NPU_CALL" then needed_works r else [].

(** The works of the call [id]. *)
Definition works_of_call (id : Z) (ws : list Work) : list Work := filter (fun w => call_id w = id) ws.

(** The events of a call with these stages and works: a work comes after the
    first two stages. *)
Definition expected_events (stages : list string) (own : list Work) : list CallEvent :=
  map StageEvent (take 2 stages) ++ map (WorkEvent ∘ identity) own ++ map StageEvent (drop 2 stages).

Record recorded (rs : list record) (ws : list Work) (id : Z) (c : Call) : Prop := {
  rc_events : map journal_event (call_journal id rs) = expected_events (stages c) (works_of_call id ws);
  rc_placed : works_of_call id ws ≠ [] → take 2 (stages c) = ["PREPARE"; "INVOKE"];
  rc_invoked : ∀ st, st ∈ stages c → st ∈ ["PREPARE"; "INVOKE"] ∨ "INVOKE" ∈ stages c;
  rc_owner : ∀ r, r ∈ call_journal id rs → pget r "kind" = JStr "NPU_CALL" →
    integer r "operation_id" = Ok (call_operation c) ∧ integer r "node_id" = Ok (call_node c) ∧
    pget r "call_kind" = JStr (call_kind c);
  rc_works : works c = list_to_set (map identity (works_of_call id ws));
  rc_owned : ∀ w, w ∈ works_of_call id ws → operation_id w = call_operation c ∧ node_id w = call_node c ∧
    Some (parent_id w) = call_parent c ∧ scope_kind (scope w) = Ok (call_kind c);
  rc_required : required c = list_to_set (concat (map journal_needs (call_journal id rs)));
  rc_known : ∀ i, i ∈ required c → ∃ w, w ∈ ws ∧ identity w = i ∧ operation_id w = call_operation c;
  rc_completes : required c ≠ ∅ → "COMPLETE_REQUIRED" ∈ stages c;
  rc_kinds : ("PUBLISH" ∈ stages c → call_kind c = "STRIPE" ∧ works c ≠ ∅) ∧ ("FENCE" ∈ stages c → call_kind c = "FENCE");
}.

(** What the records say of the calls of a trace, active, completed and not
    declared. *)
Record call_books (rs : list record) (ws : list Work) (cs : Calls) : Prop := {
  bk_wf : calls_wf ws cs;
  bk_active : ∀ id c, active cs !! id = Some c → recorded rs ws id c ∧ "CONTINUATION" ∉ stages c;
  bk_done : ∀ id, member (done_calls cs) id → ∃ c, recorded rs ws id c ∧ call_ok c ∧ finished c;
  bk_none : ∀ id, ¬ 0 <= id < count cs → call_journal id rs = [];
  bk_known : ∀ i op, work_operations cs !! i = Some op → ∃ w, w ∈ ws ∧ identity w = i ∧ operation_id w = op;
}.

Lemma call_journal_snoc id rs r : call_journal id (rs ++ [r]) = call_journal id rs ++ (if about_call id r then [r] else []).
Proof. unfold call_journal. rewrite List.filter_app. cbn. by destruct (about_call id r). Qed.

Lemma works_of_call_snoc id ws w : works_of_call id (ws ++ [w]) = works_of_call id ws ++ (if decide (call_id w = id) then [w] else []).
Proof. unfold works_of_call. rewrite filter_app, filter_cons. by case_decide. Qed.

Lemma about_call_id id call kind r : pget r "kind" = JStr kind → pget r "call_id" = JInt call → kind ∈ ["NPU_CALL"; "NPU_WORK"] →
  about_call id r = (call =? id).
Proof.
  intros Hk Hc Hin. unfold about_call. rewrite Hk, Hc. apply elem_of_cons in Hin as [->| ->%list_elem_of_singleton].
  - change (eq_str (JStr "NPU_CALL") "NPU_CALL") with true. done.
  - change (eq_str (JStr "NPU_WORK") "NPU_WORK") with true. by rewrite orb_true_r.
Qed.

Lemma about_call_other id kind r : pget r "kind" = JStr kind → kind ∉ ["NPU_CALL"; "NPU_WORK"] → about_call id r = false.
Proof.
  intros Hk Hn. unfold about_call. rewrite Hk. change (eq_str (JStr kind) "NPU_CALL") with (String.eqb kind "NPU_CALL").
  change (eq_str (JStr kind) "NPU_WORK") with (String.eqb kind "NPU_WORK").
  destruct (String.eqb_spec kind "NPU_CALL") as [->|]; [destruct Hn; by left|].
  destruct (String.eqb_spec kind "NPU_WORK") as [->|]; [destruct Hn; by right; left|]. done.
Qed.

(** A record and a work of other calls leave a call as it was recorded. *)
Lemma recorded_other rs ws id c r more : recorded rs ws id c → about_call id r = false →
  works_of_call id (ws ++ more) = works_of_call id ws → recorded (rs ++ [r]) (ws ++ more) id c.
Proof.
  intros [] Hr Hw. constructor; rewrite ?call_journal_snoc, ?Hr, ?app_nil_r, ?Hw; try done.
  intros i Hi. destruct (rc_known0 i Hi) as (w & ? & ?). exists w. split; [apply elem_of_app; by left|done].
Qed.

Lemma expected_events_snoc stages st own : (own ≠ [] → take 2 stages = ["PREPARE"; "INVOKE"]) →
  expected_events (stages ++ [st]) own = expected_events stages own ++ [StageEvent st].
Proof.
  intros Hp. unfold expected_events. destruct own as [|w own].
  - change (map (WorkEvent ∘ identity) []) with (@nil CallEvent). rewrite !app_nil_l, <-!map_app, !take_drop. apply map_app.
  - specialize (Hp ltac:(done)). destruct stages as [|s1 [|s2 stages]]; [done..|].
    cbn. rewrite !take_0, !drop_0. cbn. by rewrite map_app, <-!app_assoc.
Qed.

Lemma take2_snoc (stages : list string) st : take 2 stages = ["PREPARE"; "INVOKE"] → take 2 (stages ++ [st]) = ["PREPARE"; "INVOKE"].
Proof. by destruct stages as [|s1 [|s2 stages]]. Qed.

(** *** A stage *)

Lemma journal_needs_call r : pget r "kind" = JStr "NPU_CALL" → journal_needs r = needed_works r.
Proof. unfold journal_needs. by intros ->. Qed.

Lemma recorded_stage rs ws cs r cs' id st before after : pget r "kind" = JStr "NPU_CALL" → staged cs r cs' id st before after →
  (∀ i op, work_operations cs !! i = Some op → ∃ w, w ∈ ws ∧ identity w = i ∧ operation_id w = op) →
  recorded rs ws id before → recorded (rs ++ [r]) ws id after.
Proof.
  intros Hkind Hsg Hknown [Hev Hpl Hinv Hown Hw Howned Hreq Hkn Hcomp [Hpub Hfen]].
  pose proof (sg_call _ _ _ _ _ _ _ Hsg) as [Hid _]%integer_Ok.
  assert (Hj : call_journal id (rs ++ [r]) = call_journal id rs ++ [r]).
  { rewrite call_journal_snoc, (about_call_id id id "NPU_CALL"), Z.eqb_refl by (done || by left). done. }
  destruct (sg_same_owner _ _ _ _ _ _ _ Hsg) as (Eo & En & Ep). pose proof (sg_same _ _ _ _ _ _ _ Hsg) as Ek.
  pose proof (sg_stages _ _ _ _ _ _ _ Hsg) as Es. pose proof (sg_own _ _ _ _ _ _ _ Hsg) as Ew.
  pose proof (sg_required _ _ _ _ _ _ _ Hsg) as Er. destruct (sg_owner _ _ _ _ _ _ _ Hsg) as [Ho Hn].
  constructor; rewrite ?Hj, ?Es, ?Ew, ?Eo, ?En, ?Ek, ?Er.
  - rewrite map_app, Hev, expected_events_snoc by done. cbn. unfold journal_event. rewrite Hkind, (sg_stage _ _ _ _ _ _ _ Hsg). done.
  - intros Hne. by apply take2_snoc, Hpl.
  - intros s [Hs|Hs%list_elem_of_singleton]%elem_of_app; [destruct (Hinv s Hs)|subst s; destruct (sg_invoked _ _ _ _ _ _ _ Hsg)];
      (by left) || (right; apply elem_of_app; by left).
  - intros r0 [Hr0|Hr0%list_elem_of_singleton]%elem_of_app Hk0; [by apply Hown|subst r0]. split_and!; [done|done|].
    apply Hsg.
  - done.
  - intros w Hin. destruct (Howned w Hin) as (? & ? & Hpw & ?). split_and!; [done|done| |done].
    destruct Ep as [Ep|Ep]; [by rewrite Ep in Hpw|congruence].
  - rewrite map_app, concat_app, list_to_set_app_L, Hreq. cbn [map concat]. by rewrite app_nil_r, journal_needs_call.
  - intros i [Hi|Hi%elem_of_list_to_set]%elem_of_union; [by apply Hkn|]. apply Hknown. by apply Hsg.
  - intros Hne. apply elem_of_app. destruct (decide (required before = ∅)) as [E|]; [right|left; by apply Hcomp].
    apply list_elem_of_singleton. symmetry. apply (sg_completes _ _ _ _ _ _ _ Hsg). intros E'. apply Hne. by rewrite E, E'.
  - destruct (sg_kinds _ _ _ _ _ _ _ Hsg) as [Kp Kf].
    split; (intros [Hin|Hin%list_elem_of_singleton]%elem_of_app; [by auto|subst st; by auto]).
Qed.

Lemma recorded_fresh rs ws id c : call_journal id rs = [] → works_of_call id ws = [] →
  stages c = [] → works c = ∅ → required c = ∅ → recorded rs ws id c.
Proof.
  intros Hj Hw Es Ew Er. constructor; rewrite ?Hj, ?Hw, ?Es, ?Ew, ?Er; try done.
  - by intros st ?%elem_of_nil.
  - by intros r ?%elem_of_nil.
  - by intros w ?%elem_of_nil.
  - split; intros Hin; by apply elem_of_nil in Hin.
Qed.

(** The works of a call are works of a declared call. *)
Lemma works_of_call_none ws cs id : calls_wf ws cs → ¬ 0 <= id < count cs → works_of_call id ws = [].
Proof.
  intros Hwf Hid. destruct (works_of_call id ws) as [|w l] eqn:E; [done|]. destruct Hid.
  assert (Hw : w ∈ works_of_call id ws) by (rewrite E; by left). apply list_elem_of_filter in Hw as [<- Hw].
  destruct (cw_works _ _ Hwf w Hw) as [Hm|(c & Hc & _)]; [by apply (cw_done _ _ Hwf)|by apply (cw_active _ _ Hwf) in Hc as (? & _)].
Qed.

Lemma call_books_stage rs ws cs r cs' : call_books rs ws cs → pget r "kind" = JStr "NPU_CALL" → stage cs r = Ok cs' →
  call_books (rs ++ [r]) ws cs'.
Proof.
  intros [Hwf Hact Hdone Hnone Hknown] Hkind (id & st & before & after & Hsg)%stage_staged.
  pose proof (calls_wf_staged _ _ _ _ _ _ _ _ Hwf Hsg) as Hwf'. pose proof (staged_id _ _ _ _ _ _ _ Hsg) as [Hpos Hnd].
  pose proof (sg_call _ _ _ _ _ _ _ Hsg) as [Hid _]%integer_Ok.
  assert (Hr : ∀ i, about_call i r = (id =? i)) by (intros i; apply (about_call_id i id "NPU_CALL"); [done..|by left]).
  assert (Hother : ∀ i c, i ≠ id → recorded rs ws i c → recorded (rs ++ [r]) ws i c).
  { intros i c Hne Hc. rewrite <-(app_nil_r ws). apply recorded_other; [done| |by rewrite app_nil_r].
    rewrite Hr. apply Z.eqb_neq. congruence. }
  assert (Hrec : recorded (rs ++ [r]) ws id after).
  { apply (recorded_stage _ _ _ _ _ _ _ _ _ Hkind Hsg Hknown). destruct (sg_before _ _ _ _ _ _ _ Hsg) as [[Hb _]|(Hb & -> & _ & _ & Es)].
    - by apply Hact.
    - destruct (sg_fresh _ _ _ _ _ _ _ Hsg Hb). assert (Hout : ¬ 0 <= count cs < count cs) by lia.
      apply recorded_fresh; [by apply Hnone|by apply (works_of_call_none _ _ _ Hwf)|done..]. }
  pose proof (sg_active _ _ _ _ _ _ _ Hsg) as Ea. pose proof (sg_done _ _ _ _ _ _ _ Hsg) as Ed.
  assert (Hok : call_ok after).
  { apply (staged_call_ok _ _ _ _ _ _ _ Hsg). intros c Hc. by apply (cw_active _ _ Hwf) in Hc as (_ & _ & ?). }
  assert (Hcnt : count cs <= count cs' ∧ id < count cs').
  { destruct (sg_before _ _ _ _ _ _ _ Hsg) as [[Hb Ec]|(_ & -> & Ec & _)]; [|lia]. apply (cw_active _ _ Hwf) in Hb as (? & _). lia. }
  constructor; [done| | | |by rewrite (sg_works _ _ _ _ _ _ _ Hsg)].
  - intros i c Hi. destruct (decide (i = id)) as [->|Hne].
    + destruct (String.eqb_spec st "CONTINUATION") as [_|Hst]; rewrite Ea in Hi; [by rewrite lookup_delete_eq in Hi|].
      rewrite lookup_insert_eq in Hi. injection Hi as <-. split; [done|]. rewrite (sg_stages _ _ _ _ _ _ _ Hsg).
      intros [Hin|Hin%list_elem_of_singleton]%elem_of_app; [|congruence].
      destruct (sg_before _ _ _ _ _ _ _ Hsg) as [[Hb _]|(_ & _ & _ & _ & Es)]; [by apply Hact in Hb as [_ []]|by rewrite Es in Hin; apply elem_of_nil in Hin].
    + assert (Hi' : active cs !! i = Some c).
      { destruct (String.eqb st "CONTINUATION"); rewrite Ea in Hi; [by rewrite lookup_delete_ne in Hi|by rewrite lookup_insert_ne in Hi]. }
      destruct (Hact i c Hi') as [Hc ?]. split; [by apply Hother|done].
  - intros i Hi. destruct (decide (i = id)) as [->|Hne].
    + exists after. split_and!; [done..|]. destruct (String.eqb st "CONTINUATION"); [apply Ed|by rewrite Ed in Hi].
    + assert (Hi' : member (done_calls cs) i).
      { destruct (String.eqb st "CONTINUATION"); [|by rewrite Ed in Hi]. destruct Ed as [_ Ed].
        apply (add_id_spec _ _ _ (cw_normal _ _ Hwf) Hpos) in Ed as (_ & _ & Hm). by apply Hm in Hi as [?|?]. }
      destruct (Hdone i Hi') as (c & Hc & ? & ?). exists c. split_and!; [by apply Hother|done..].
  - intros i Hi. rewrite call_journal_snoc, Hr. destruct (Z.eqb_spec id i) as [->|]; [lia|]. rewrite app_nil_r. apply Hnone. lia.
Qed.

(** *** A work and the other records *)

Lemma recorded_work rs ws r w c : pget r "kind" = JStr "NPU_WORK" → pget r "call_id" = JInt (call_id w) →
  pget r "work_id" = JInt (identity w) → recorded rs ws (call_id w) c → works c = ∅ → stages c = ["PREPARE"; "INVOKE"] →
  operation_id w = call_operation c → node_id w = call_node c → Some (parent_id w) = call_parent c →
  scope_kind (scope w) = Ok (call_kind c) →
  recorded (rs ++ [r]) (ws ++ [w]) (call_id w)
    {| call_operation := call_operation c; call_node := call_node c; call_parent := call_parent c;
       call_kind := call_kind c; stages := stages c; works := {[identity w]}; required := required c |}.
Proof.
  intros Hk Hc Hid [Hev _ Hinv Hown Hw _ Hreq Hkn Hcomp [Hpub Hfen]] Hnone Hst Ho Hn Hp Hs.
  assert (Hempty : works_of_call (call_id w) ws = []).
  { rewrite Hnone in Hw. destruct (works_of_call (call_id w) ws) as [|v l]; [done|]. cbn in Hw. set_solver. }
  assert (Hj : call_journal (call_id w) (rs ++ [r]) = call_journal (call_id w) rs ++ [r]).
  { rewrite call_journal_snoc, (about_call_id _ (call_id w) "NPU_WORK"), Z.eqb_refl by (done || by right; left). done. }
  assert (Hnk : eq_str (pget r "kind") "NPU_CALL" = false) by by rewrite Hk.
  constructor; rewrite ?Hj, ?works_of_call_snoc, ?Hempty, ?decide_True by done; cbn [stages works required call_operation call_node call_parent call_kind].
  - rewrite map_app, Hev, Hempty, Hst. cbn. unfold journal_event. by rewrite Hnk, Hid.
  - by rewrite Hst.
  - done.
  - intros r0 [Hr0|Hr0%list_elem_of_singleton]%elem_of_app Hk0; [by apply Hown|]. subst r0. congruence.
  - cbn. by rewrite union_empty_r_L.
  - by intros w0 ->%list_elem_of_singleton.
  - rewrite map_app, concat_app, list_to_set_app_L, Hreq. cbn [map concat]. unfold journal_needs at 3. rewrite Hnk. cbn. by rewrite union_empty_r_L.
  - intros i Hi. destruct (Hkn i Hi) as (v & ? & ?). exists v. split; [apply elem_of_app; by left|done].
  - done.
  - rewrite Hst. split; set_solver.
Qed.

Lemma call_books_work rs ws cs r w cs' : call_books rs ws cs → pget r "kind" = JStr "NPU_WORK" →
  pget r "call_id" = JInt (call_id w) → pget r "work_id" = JInt (identity w) → call_work cs w = Ok cs' →
  call_books (rs ++ [r]) (ws ++ [w]) cs'.
Proof.
  intros [Hwf Hact Hdone Hnone Hknown] Hkind Hc Hid Hcw. pose proof (calls_wf_work _ _ _ _ Hwf Hcw) as Hwf'.
  apply call_work_inv in Hcw as (c & c' & Ha & Hst & Hw & Ho & Hn & Hp & Hs & Ec & Ea & Ecnt & Ed & Ewo).
  assert (Hr : ∀ i, about_call i r = (call_id w =? i)) by (intros i; apply (about_call_id i _ "NPU_WORK"); [done..|by right; left]).
  assert (Hother : ∀ i d, i ≠ call_id w → recorded rs ws i d → recorded (rs ++ [r]) (ws ++ [w]) i d).
  { intros i d Hne Hd. apply recorded_other; [done|rewrite Hr; apply Z.eqb_neq; congruence|].
    rewrite works_of_call_snoc, decide_False, app_nil_r by congruence. done. }
  destruct (Hact _ _ Ha) as [Hrec Hcont]. destruct (cw_active _ _ Hwf _ _ Ha) as (Hpos & Hnd & _).
  constructor; [done|..].
  - intros i d. rewrite Ea. intros [[<- <-]|[Hne Hi]]%lookup_insert_Some.
    + rewrite Ec. split; [by apply recorded_work|]. cbn [stages]. done.
    + destruct (Hact i d Hi). split; [by apply Hother|done].
  - rewrite Ed. intros i Hi. destruct (Hdone i Hi) as (d & Hd & ? & ?). exists d. split_and!; [|done..].
    apply Hother; [|done]. by intros ->.
  - rewrite Ecnt. intros i Hi. rewrite call_journal_snoc, Hr. destruct (Z.eqb_spec (call_id w) i) as [<-|]; [done|].
    rewrite app_nil_r. by apply Hnone.
  - rewrite Ewo. intros i op [[<- <-]|[_ Hi]]%lookup_insert_Some.
    + exists w. split; [apply elem_of_app; right; by left|done].
    + destruct (Hknown i op Hi) as (v & ? & ?). exists v. split; [apply elem_of_app; by left|done].
Qed.

(** A record of another kind keeps the books, as long as it registers no work. *)
Lemma call_books_other rs ws cs r cs' kind : call_books rs ws cs → pget r "kind" = JStr kind → kind ∉ ["NPU_CALL"; "NPU_WORK"] →
  active cs' = active cs → done_calls cs' = done_calls cs → count cs' = count cs →
  (∀ i op, work_operations cs' !! i = Some op → work_operations cs !! i = Some op) → call_books (rs ++ [r]) ws cs'.
Proof.
  intros [Hwf Hact Hdone Hnone Hknown] Hkind Hn Ea Ed Ec Ew.
  assert (Hr : ∀ i, about_call i r = false) by (intros i; by eapply about_call_other).
  assert (Hother : ∀ i d, recorded rs ws i d → recorded (rs ++ [r]) ws i d).
  { intros i d Hd. rewrite <-(app_nil_r ws). apply recorded_other; [done|done|by rewrite app_nil_r]. }
  constructor.
  - by eapply calls_wf_frame.
  - rewrite Ea. intros i d Hi. destruct (Hact i d Hi). auto.
  - rewrite Ed. intros i Hi. destruct (Hdone i Hi) as (d & ? & ? & ?). eauto.
  - rewrite Ec. intros i Hi. rewrite call_journal_snoc, Hr, app_nil_r. by apply Hnone.
  - intros i op Hi%Ew. by apply Hknown.
Qed.

Lemma forget_works_lookup m ids m' : forget_works m ids = Ok m' → ∀ (i op : Z), m' !! i = Some op → m !! i = Some op.
Proof.
  unfold forget_works. apply (fold_res_inv (fun m' => ∀ i op, m' !! i = Some op → m !! i = Some op)); [done|].
  intros work m1 m2 _ IH Hs i op Hi. destruct (m1 !! work); [|done]. apply Ok_eq in Hs as <-.
  apply IH. by apply lookup_delete_Some in Hi as [_ ?].
Qed.

Lemma call_books_consume rs ws s r s' o : call_books rs ws (calls s) → consume s r = Ok (s', o) →
  call_books (rs ++ [r]) (ws ++ option_list o) (calls s').
Proof.
  intros Hb (kind & Hk & Hc)%consume_consumed. destruct Hc as [m w H|m H|m H|m H|m H|m H]; cbn [option_list]; rewrite ?app_nil_r.
  - pose proof H as (_ & _ & _ & _ & _ & Hcw & _)%work_record_inv. apply work_record_fields in H as (Hid & Hc & _).
    apply integer_Ok in Hid as [Hid _], Hc as [Hc _]. by eapply call_books_work.
  - apply phase_record_frame in H as ->. eapply call_books_other; [done|done|set_solver|done..].
  - apply call_record_frame in H as [_ H]. by eapply call_books_stage.
  - apply host_record_calls in H as (? & ? & ? & Hw). eapply call_books_other; [done|done|set_solver|done..|]. by rewrite Hw.
  - apply complete_operation_frame in H as (_ & _ & _ & _ & _ & id & _ & H & _).
    assert (Hw : ∀ i op, work_operations (calls s') !! i = Some op → work_operations (calls s) !! i = Some op).
    { unfold calls_operation_complete, require in H. apply bind_Ok in H as ([] & _ & H). apply bind_Ok in H as ([] & _ & H).
      apply bind_Ok in H as (m' & Hf & <-%Ok_eq). by eapply forget_works_lookup. }
    apply calls_operation_complete_frame in H as (? & ? & ?). eapply call_books_other; [done|done|set_solver|done..].
  - apply end_record_frame in H as [-> _]. eapply call_books_other; [done|done|set_solver|done..].
Qed.

Lemma call_books_start run : call_books [] [] (calls (start_state run)).
Proof.
  constructor; [apply calls_wf_start|done| |done|done].
  intros id [?|?]; cbn in *; [lia|set_solver].
Qed.

(** What a phase boundary and [RUN_END] find: no operation, parent, call or
    host stage open, and no call or stage lost. *)
Record nothing_open (s : TraceState) : Prop := {
  no_operation : pending s = ∅;
  no_parent : dispatches s = ∅;
  no_call : active (calls s) = ∅;
  no_lost_call : ∀ id, member (done_calls (calls s)) id ↔ 0 <= id < count (calls s);
  no_stage : host_active (hosts s) = ∅;
  no_lost_stage : host_count (hosts s) = completed (hosts s);
}.

Lemma phase_boundary_closed ws s : calls_wf ws (calls s) → phase_boundary s = Ok tt → nothing_open s.
Proof.
  intros Hwf (? & ? & ? & Hc & Hah & ? & ?)%phase_boundary_inv. constructor; try done.
  by apply complete_prefix; [apply Hwf|apply Hwf|].
Qed.

(** C30: The life cycle of the NPU calls of an accepted trace prefix, read off
    its records.  Every identity below the counter is active or completed and
    never both, and no record names another.  The records of a call are its
    stages in the declared order from PREPARE on, with its work, if it has one,
    after PREPARE and INVOKE and of the kind, operation, node and parent of the
    call; a call owns at most one work and a work has one call.  What a call
    requires is what its COMPLETE_REQUIRED record names, and these are works of
    its operation declared before.  A completed call ended with CONTINUATION: a
    full, stripe or compaction call owns one work and requires it, a stripe was
    published, a fence completed and fenced, and other calls own no work.  When
    [RUN_END] was accepted the completed calls are the identities [0 .. count-1]. *)
Theorem trace_call_lifecycle `{Host} lines s ws :
  run_trace lines = Ok (s, ws) →
  call_books (trace_records lines) ws.*2 (calls s) ∧
  (ended s = true → active (calls s) = ∅ ∧
     ∀ id, member (done_calls (calls s)) id ↔ 0 <= id < count (calls s)).
Proof.
  intros Hrun. apply (run_trace_hist (fun rs ws s => call_books rs ws (calls s) ∧ closed_state s)) in Hrun.
  - destruct Hrun as [Hb Hcl]. split; [done|]. intros Hend. destruct (Hcl Hend) as (Hp & _).
    by destruct (phase_boundary_closed _ _ (bk_wf _ _ _ Hb) Hp).
  - intros run0. split; [apply call_books_start|done].
  - clear. intros rs ws s r s' o [Hb _] Hc. split; [by eapply call_books_consume|by eapply closed_state_consume].
Qed.

(** ** Phases and operations *)

(** Phase [i] of a run: the prefill first, then the decode steps in order. *)
Definition phase_ok (i : nat) (r : record) : Prop :=
  match i with
  | O => pget r "phase_kind" = JStr "prefill" ∧ pget r "decode_index" = JNull
  | S k => pget r "phase_kind" = JStr "decode" ∧ jeq (pget r "decode_index") (JInt (Z.of_nat k)) = true
  end.

Record phases_inv (s : TraceState) : Prop := {
  pi_phases : ∀ i r, phases s !! i = Some r → phase_ok i r;
  pi_done : normal (operation_done s);
}.

Lemma phases_inv_consume s r s' o : phases_inv s → consume s r = Ok (s', o) → phases_inv s'.
Proof.
  intros [Hp Hn] (_ & m & He)%consume_effect.
  destruct He as [w H|H|H|H|H|H].
  - apply work_record_inv in H as (_ & _ & _ & _ & _ & _ & H1 & _ & _ & H2 & _).
    constructor; by rewrite ?H1, ?H2.
  - constructor; [|by apply phase_record_frame in H as ->].
    unfold phase_record, require in H.
    apply bind_Ok in H as ([] & _ & H). apply bind_Ok in H as (id & _ & H).
    apply bind_Ok in H as ([] & Hid & H). apply check_Ok in Hid. apply bind_Ok in H as (? & _ & H).
    apply bind_Ok in H as (kind & Hk & H). apply bind_Ok in H as (index & Hi & H).
    apply pget_item in Hk, Hi.
    apply bind_Ok in H as ([] & Hc & H). apply check_Ok in Hc. apply bind_Ok in H as ([] & _ & [= <-]).
    cbn in *. z_props. intros i q [Hq|[Hi' Hq]]%lookup_app_Some; [by apply Hp|].
    destruct (i - length (phases s))%nat eqn:E; cbn in Hq; [|done]. injection Hq as <-.
    assert (i = length (phases s)) as -> by lia. unfold phase_ok.
    subst id. destruct (length (phases s)) as [|k].
    + cbn in Hc. apply andb_prop in Hc as [?%eq_str_spec ?%is_null_spec]. by subst.
    + rewrite (proj2 (Z.eqb_neq (Z.of_nat (S k)) 0)) in Hc by lia.
      apply andb_prop in Hc as [?%eq_str_spec Hx]. subst. split; [done|]. unfold eq_int in Hx.
      by replace (Z.of_nat (S k) - 1) with (Z.of_nat k) in Hx by lia.
  - apply call_record_frame in H as [-> _]. by constructor.
  - apply host_record_frame in H as ->. by constructor.
  - apply complete_operation_frame in H as (_ & _ & H1 & _ & _ & id & Hid & _ & Hadd & _).
    constructor; rewrite ?H1; [done|]. by apply add_id_spec in Hadd as (_ & ? & _).
  - apply end_record_frame in H as [-> _]. by constructor.
Qed.

(** A phase record acts on the state as it is. *)
Lemma consume_phase s r s' o : consume s r = Ok (s', o) → pget r "kind" = JStr "PHASE" → phase_record s r = Ok s'.
Proof.
  unfold consume, require_res, require. intros H Hk. do 5 (apply bind_Ok in H as (? & _ & H)).
  apply bind_Ok in H as (kind & [Hkind _]%text_Ok & H). assert (kind = "PHASE") as -> by congruence.
  change (str_in "PHASE" ["PHASE"; "RUN_END"]) with true in H. change (String.eqb "PHASE" "NPU_WORK") with false in H.
  change (String.eqb "PHASE" "PHASE") with true in H. apply bind_Ok in H as (s0 & ->%Ok_eq & H).
  by apply bind_Ok in H as (s1 & Hs1 & [<- _]%Ok_eq%pair_eq).
Qed.

Lemma run_trace_calls `{Host} lines s ws : run_trace lines = Ok (s, ws) → calls_wf ws.*2 (calls s).
Proof.
  apply (run_trace_inv (fun ws s => calls_wf ws (calls s))); [intros run0; apply calls_wf_start|].
  clear. intros ws s r s' o Hwf Hc. by eapply calls_wf_consume.
Qed.

(** C29: The phases of an accepted trace are one prefill followed by the decode
    steps [0, 1, ...].  Before every [PHASE] record after the first line of the
    trace nothing is left open: no operation, parent, call or host stage, and
    the completed calls are all declared ones; the same holds once [RUN_END]
    was accepted, and then there is at least one phase and the completed target
    operations are exactly [0 .. completed_operations - 1]. *)
Theorem trace_phases_and_operations `{Host} lines s ws :
  run_trace lines = Ok (s, ws) →
  (∀ i r, phases s !! i = Some r → phase_ok i r) ∧
  (∀ pre line post r, lines = pre ++ line :: post → pre ≠ [] → line_record line = Some r → pget r "kind" = JStr "PHASE" →
     ∃ s0 ws0, run_trace pre = Ok (s0, ws0) ∧ nothing_open s0) ∧
  (ended s = true → phases s ≠ [] ∧ nothing_open s ∧ ∀ id, member (operation_done s) id ↔ 0 <= id < completed_operations s).
Proof.
  intros Hrun. pose proof (run_trace_calls _ _ _ Hrun) as Hwf. assert (Hinv := Hrun).
  apply (run_trace_inv (fun _ s => phases_inv s ∧ closed_state s)) in Hinv as [[Hp Hn] Hcl].
  - split; [done|]. split.
    + intros pre line post r -> Hpre Hr Hk. apply run_trace_at in Hrun as (s0 & ws0 & r0 & s1 & o & Hrun & Hr0 & Hc); [|done].
      exists s0, ws0. split; [done|]. assert (r0 = r) as -> by congruence. apply run_trace_calls in Hrun.
      apply (phase_boundary_closed _ _ Hrun). apply consume_phase in Hc; [|done].
      unfold phase_record in Hc. by apply bind_Ok in Hc as ([] & Hc & _).
    + intros Hend. destruct (Hcl Hend) as (Hb & Hne & Hc & Ha). split; [done|]. split; [by eapply phase_boundary_closed|].
      apply complete_prefix; [done|rewrite <-Hc; apply Hn|done].
  - intros run0. split; [|done]. constructor; [done|apply no_ids_normal].
  - clear. intros _ s r s' o [Hinv _] Hc. split; [by eapply phases_inv_consume|by eapply closed_state_consume].
Qed.

(** ** The theorems on the sample trace *)

Lemma sample_run_Ok : ∃ s ws, sample_run = Ok (s, ws) ∧ ended s = true ∧ contains (done_calls (calls s)) 1 = true.
Proof.
  destruct sample_run as [[s ws]|] eqn:E; [|vm_compute in E; discriminate E].
  exists s, ws. vm_compute in E. injection E as <- <-. split_and!; reflexivity.
Qed.

(** The state once the work of call 1 was read, with both calls active. *)
Definition sample_prefix : res (TraceState * list (record * Work)) := run_trace (H := text_host) (take 10 sample_lines).
Lemma sample_prefix_Ok : ∃ s ws c, sample_prefix = Ok (s, ws) ∧ active (calls s) !! 1 = Some c ∧ works c = {[1]}.
Proof.
  destruct sample_prefix as [[s ws]|] eqn:E; [|vm_compute in E; discriminate E].
  destruct (active (calls s) !! 1) as [c|] eqn:Ec.
  - exists s, ws, c. split; [reflexivity|]. split; [exact Ec|]. vm_compute in E. injection E as <- <-. vm_compute in Ec. injection Ec as <-. reflexivity.
  - vm_compute in E. injection E as <- <-. vm_compute in Ec. discriminate Ec.
Qed.

(** In the prefix call 1 is active with its own work; in the whole trace it
    went through all stages of a stripe and required that work. *)
Lemma trace_call_lifecycle_witness :
  (∃ s ws c, sample_prefix = Ok (s, ws) ∧ active (calls s) !! 1 = Some c ∧
     recorded (trace_records (take 10 sample_lines)) ws.*2 1 c ∧ works c = {[1]}) ∧
  ∃ s ws c, sample_run = Ok (s, ws) ∧ recorded (trace_records sample_lines) ws.*2 1 c ∧ finished c ∧ active (calls s) = ∅.
Proof.
  split.
  - destruct sample_prefix_Ok as (s & ws & c & E & Ec & Hw). exists s, ws, c. split; [exact E|]. split; [exact Ec|]. split; [|exact Hw].
    exact (proj1 (bk_active _ _ _ (proj1 (trace_call_lifecycle (H := text_host) _ _ _ E)) 1 c Ec)).
  - destruct sample_run_Ok as (s & ws & E & Hend & Hc).
    destruct (trace_call_lifecycle (H := text_host) _ _ _ E) as [Hb Hclosed].
    destruct (bk_done _ _ _ Hb 1) as (c & Hrec & _ & Hfin); [apply contains_spec; [lia|exact Hc]|].
    exists s, ws, c. exact (conj E (conj Hrec (conj Hfin (proj1 (Hclosed Hend))))).
Defined.

(** The decode phase is entered, and the run is ended, with nothing open. *)
Lemma trace_phases_and_operations_witness :
  ∃ s ws s0 ws0, sample_run = Ok (s, ws) ∧ nothing_open s ∧
    run_trace (H := text_host) (take 17 sample_lines) = Ok (s0, ws0) ∧ nothing_open s0.
Proof.
  destruct sample_run_Ok as (s & ws & E & Hend & _).
  destruct (trace_phases_and_operations (H := text_host) _ _ _ E) as (_ & Hphase & Hclosed).
  destruct (Hphase (take 17 sample_lines) (Some (JObj (phase_line 17 1))) (drop 18 sample_lines) (phase_line 17 1))
    as (s0 & ws0 & E0 & H0); [reflexivity|discriminate|vm_compute; reflexivity|reflexivity|].
  exists s, ws, s0, ws0. exact (conj E (conj (proj1 (proj2 (Hclosed Hend))) (conj E0 H0))).
Defined.
