(* ===== verification/Manifest.v ===== *)
(** * The semantic graph of a run

    [read_manifest], [Manifest.inputs] and [compare_manifests] of
    [sim/cycle/reconstruct_graph.py]: the original graphs of a run with the
    execution of each of their nodes, as its collection recorded them.  The
    decoded lines of the file are the argument; a node is known by its
    [SemanticKey] (phase, occurrence of the graph, ordinal in the graph). *)
From S2P Require Import Prelude Records Topology TraceSchema.
Set Default Goal Selector "!".

Definition COMMON : list string := ["schema"; "version"; "kind"; "sequence"].
Definition FIELDS : list (string * list string) := [
  ("RUN", ["source_role"; "run_config_id"; "workload"; "producer"; "cpu_only_build"]);
  ("PHASE", ["phase_kind"; "decode_index"; "input_tokens"; "token_fingerprint"]);
  ("GRAPH", ["phase_kind"; "decode_index"; "graph_occurrence"; "nodes"; "leaves"]);
  ("NODE_EXECUTION", SEMANTIC_FIELDS ++
    ["source_role"; "run_config_id"; "actual_backend"; "execution_class"; "success"]);
  ("RUN_END", ["success"; "expected_node_count"; "executed_node_count"; "cpu_only_proven"; "graph_count"])].
Definition WORKLOAD : list string :=
  ["model"; "prompt_tokens"; "generated_tokens"; "context_tokens"; "batch_tokens"; "microbatch_tokens";
   "cpu"; "cpu_batch"; "flash_attention"; "kv_type_k"; "kv_type_v"; "seed"; "numa"; "build_target"].

(** Dictionaries whose keys are semantic keys. *)
Definition same_decode (a b : option Z) : bool :=
  match a, b with Some x, Some y => x =? y | None, None => true | _, _ => false end.
Definition key_eq (a b : SemanticKey) : bool :=
  let '(phase, decode, occurrence, ordinal) := a in
  let '(phase', decode', occurrence', ordinal') := b in
  (ordinal =? ordinal') && (occurrence =? occurrence') && same_decode decode decode' && String.eqb phase phase'.
Abbreviation kget := (aget key_eq).
Abbreviation kset := (aset key_eq).
Abbreviation kmem := (amem key_eq).

Abbreviation PhaseKey := (string * option Z)%type.

Record Manifest := {
  run : record;
  phases : list record;
  graphs : list record;
  nodes : list (SemanticKey * record);
  executions : list (SemanticKey * record);
  edges : list (SemanticKey * list SemanticKey);
}.

(** The local variables of [read_manifest]; [run] is the empty record before
    the [RUN] record. *)
Record Reading := { manifest : Manifest; ended : bool; next_graph : Z }.
Definition no_manifest : Manifest :=
  {| run := []; phases := []; graphs := []; nodes := []; executions := []; edges := [] |}.

Definition set_run (m : Manifest) (r : record) : Manifest :=
  {| run := r; phases := phases m; graphs := graphs m; nodes := nodes m; executions := executions m; edges := edges m |}.
Definition add_phase (m : Manifest) (r : record) : Manifest :=
  {| run := run m; phases := phases m ++ [r]; graphs := graphs m; nodes := nodes m;
     executions := executions m; edges := edges m |}.
Definition add_graph (m : Manifest) (r : record) : Manifest :=
  {| run := run m; phases := phases m; graphs := graphs m ++ [r]; nodes := nodes m;
     executions := executions m; edges := edges m |}.
Definition add_node (m : Manifest) (key : SemanticKey) (node : record) (sources : list SemanticKey) : Manifest :=
  {| run := run m; phases := phases m; graphs := graphs m; nodes := kset key node (nodes m);
     executions := executions m; edges := kset key sources (edges m) |}.
Definition add_execution (m : Manifest) (key : SemanticKey) (r : record) : Manifest :=
  {| run := run m; phases := phases m; graphs := graphs m; nodes := nodes m;
     executions := kset key r (executions m); edges := edges m |}.

Definition executed (m : Manifest) : bool := Nat.eqb (length (executions m)) (length (nodes m)).

(** [re.fullmatch('(?:[0-9a-f]{2})*', s)] and [re.fullmatch('fnv1a64-le-i32:[0-9a-f]{16}', s)]. *)
Definition is_hex_bytes (s : string) : bool := Nat.even (String.length s) && all_chars hex_char s.
Definition FINGERPRINT : string := "fnv1a64-le-i32:".
Definition is_fingerprint (s : string) : bool :=
  String.prefix FINGERPRINT s &&
  is_hex 16 (String.substring (String.length FINGERPRINT) (String.length s - String.length FINGERPRINT) s).

(** ** One record *)

Definition run_record (m : Manifest) (sequence : Z) (r : record) : res Manifest :=
  require (sequence =? 0) "duplicate semantic run" ;;;
  let* role := item r "source_role" in
  require (in_strs role ["FULL_CPU"; "POTAL_COLLECTION"]) "unproven collection role" ;;;
  let* _ := text r "run_config_id" in
  let* workload_value := item r "workload" in
  let* workload := object_value workload_value in
  let* producer_value := item r "producer" in
  let* producer := object_value producer_value in
  require (keys_are workload WORKLOAD) "incomplete workload identity" ;;;
  require (negb (Nat.eqb (length producer) 0) && is_true (pget producer "warmup_excluded") &&
           is_true (pget producer "reserve_measure_graphs_excluded")) "collection scope proof missing" ;;;
  let* build := item r "cpu_only_build" in
  require (is_bool build) "CPU-only build proof missing" ;;;
  Ok (set_run m r).

(** The key of the next phase: the prefill, then the decodes from 0. *)
Definition expected_phase (count : nat) : PhaseKey :=
  match count with O => ("prefill", None) | S n => ("decode", Some (Z.of_nat n)) end.

Definition phase_record (m : Manifest) (r : record) : res Manifest :=
  require (negb (Nat.eqb (length (run m)) 0) && executed m) "phase before completed graph" ;;;
  let* key := phase_key r in
  require (bool_decide (key = expected_phase (length (phases m)))) "nonmonotonic semantic phase" ;;;
  let* _ := integer r "input_tokens" in
  let* fingerprint := text r "token_fingerprint" in
  require (is_fingerprint fingerprint) "token input fingerprint missing" ;;;
  Ok (add_phase m r).

Definition leaf_record (value : json) : res unit :=
  let* payload := object_value value in
  fields payload ["name"; "type"; "shape"] ;;;
  tensor_payload payload.

(** One input of a node: the node of the same graph it reads, if it is one. *)
Definition input_edge (nodes_count leaves_count : Z) (source_key : Z → SemanticKey) (edge : json) :
    res (option SemanticKey) :=
  if is_null edge then Ok None else
  let* source := object_value edge in
  fields source ["kind"; "ordinal"] ;;;
  let* index := integer source "ordinal" in
  let* kind := item source "kind" in
  require (in_strs kind ["node"; "leaf"]) "unknown edge kind" ;;;
  require (index <? (if eq_str kind "node" then nodes_count else leaves_count)) "dangling graph edge" ;;;
  Ok (if eq_str kind "node" then Some (source_key index) else None).

Definition node_payload (payload : record) : res unit :=
  fields payload ["op"; "name"; "type"; "shape"; "parameters_hex"; "parameters_status"; "inputs"] ;;;
  tensor_payload payload ;;;
  let* _ := text payload "op" in
  let* status := item payload "parameters_status" in
  let* parameters := item payload "parameters_hex" in
  require (eq_str status "STATIC_BYTES" &&
           match parameters with JStr s => is_hex_bytes s | _ => false end)
    "unsupported static operation parameters".

Definition graph_node (key : PhaseKey) (occurrence nodes_count leaves_count : Z) (m : Manifest)
    (entry : nat * json) : res Manifest :=
  let '(position, value) := entry in
  let ordinal := Z.of_nat position in
  let source_key := fun index : Z => (key.1, key.2, occurrence, index) in
  let* node := object_value value in
  fields node ["node_ordinal"; "payload"; "excluded"] ;;;
  require_res ((let* v := integer node "node_ordinal" in Ok (v =? ordinal)) andM
               (let* v := item node "excluded" in Ok (is_bool v))) "invalid original node ordinal" ;;;
  let* payload_value := item node "payload" in
  let* payload := object_value payload_value in
  node_payload payload ;;;
  let identity := source_key ordinal in
  require (negb (kmem identity (nodes m))) "duplicate semantic node" ;;;
  let* inputs_value := item payload "inputs" in
  let* inputs := array inputs_value in
  let* sources := map_res (input_edge nodes_count leaves_count source_key) inputs in
  Ok (add_node m identity node (omap id sources)).

Definition numbered {A} (l : list A) : list (nat * A) := zip (seq 0 (length l)) l.

Definition graph_record (m : Manifest) (next : Z) (r : record) : res Manifest :=
  require_res (Ok (negb (Nat.eqb (length (phases m)) 0)) andM
    (let* key := phase_key r in
     match last (phases m) with
     | Some phase => let* current := phase_key phase in Ok (bool_decide (key = current))
     | None => Err (IndexError "list index out of range")
     end) andM
    Ok (executed m)) "graph phase or execution boundary mismatch" ;;;
  let* occurrence := integer r "graph_occurrence" in
  require (occurrence =? next) "duplicate/missing graph occurrence" ;;;
  let* key := phase_key r in
  let* leaves_value := item r "leaves" in
  let* leaves := array leaves_value in
  let* entries_value := item r "nodes" in
  let* entries := array entries_value in
  iter_res leaf_record leaves ;;;
  let* m' := fold_res (graph_node key next (Z.of_nat (length entries)) (Z.of_nat (length leaves))) m (numbered entries) in
  Ok (add_graph m' r).

Definition execution_record (m : Manifest) (r : record) : res Manifest :=
  let* key := semantic_key r in
  match kget key (nodes m) with
  | None => Err (NpuTraceError "unknown/duplicate original node execution")
  | Some node =>
      require (negb (kmem key (executions m))) "unknown/duplicate original node execution" ;;;
      let* config := item r "run_config_id" in
      let* run_config := item (run m) "run_config_id" in
      let* role := item r "source_role" in
      let* run_role := item (run m) "source_role" in
      require (jeq config run_config && jeq role run_role) "execution source mismatch" ;;;
      let* success := item r "success" in
      require (is_true success) "node execution failed" ;;;
      let* _ := text r "actual_backend" in
      let* class := text r "execution_class" in
      require (str_in class ["ORDINARY_CPU"; "TARGET_NPU"; "EXCLUDED"]) "unsupported node execution class" ;;;
      let* excluded := item node "excluded" in
      require (jeq (JBool (String.eqb class "EXCLUDED")) excluded) "excluded-node coverage mismatch" ;;;
      require (negb (eq_str run_role "FULL_CPU") || negb (String.eqb class "TARGET_NPU")) "FullCPU execution used NPU" ;;;
      Ok (add_execution m key r)
  end.

Definition end_record (m : Manifest) (r : record) : res unit :=
  let* success := item r "success" in
  require (negb (Nat.eqb (length (phases m)) 0) && is_true success) "semantic run did not complete" ;;;
  let* expected := integer r "expected_node_count" in
  let* executed_count := integer r "executed_node_count" in
  require ((expected =? executed_count) && (executed_count =? Z.of_nat (length (nodes m))) && executed m)
    "semantic node coverage incomplete" ;;;
  let* graph_count := integer r "graph_count" in
  require (graph_count =? Z.of_nat (length (graphs m))) "semantic graph count mismatch" ;;;
  let* role := item (run m) "source_role" in
  require_res (if eq_str role "FULL_CPU" then
      (let* build := item (run m) "cpu_only_build" in Ok (is_true build)) andM
      (let* proven := item r "cpu_only_proven" in Ok (is_true proven))
    else Ok true) "FullCPU build/execution proof missing".

(** ** The reader *)

Definition read_record (s : Reading) (entry : nat * record) : res Reading :=
  let '(position, r) := entry in
  let sequence := Z.of_nat position in
  require (negb (ended s)) "record after semantic run end" ;;;
  require (eq_str (pget r "schema") "im2p-semantic-graph" && is_int (pget r "version") && eq_int (pget r "version") 1)
    "unsupported semantic graph schema/version" ;;;
  let* kind := text r "kind" in
  match sget kind FIELDS with
  | None => Err (NpuTraceError "unknown semantic record")
  | Some names =>
      fields r (COMMON ++ names) ;;;
      require_res (let* v := integer r "sequence" in Ok (v =? sequence)) "semantic sequence duplicate/gap" ;;;
      let m := manifest s in
      if String.eqb kind "RUN" then
        let* m' := run_record m sequence r in Ok {| manifest := m'; ended := false; next_graph := next_graph s |}
      else if String.eqb kind "PHASE" then
        let* m' := phase_record m r in Ok {| manifest := m'; ended := false; next_graph := 0 |}
      else if String.eqb kind "GRAPH" then
        let* m' := graph_record m (next_graph s) r in
        Ok {| manifest := m'; ended := false; next_graph := next_graph s + 1 |}
      else if String.eqb kind "NODE_EXECUTION" then
        let* m' := execution_record m r in Ok {| manifest := m'; ended := false; next_graph := next_graph s |}
      else
        end_record m r ;;;
        Ok {| manifest := m; ended := true; next_graph := next_graph s |}
  end.

(** [graphlib.TopologicalSorter(edges).static_order()] raises on a cycle. *)
Definition acyclic_edges (l : list (SemanticKey * list SemanticKey)) : bool := Topology.acyclic key_eq fst snd l.

Definition read_manifest (records : list record) : res Manifest :=
  let* s := fold_res read_record {| manifest := no_manifest; ended := false; next_graph := 0 |} (numbered records) in
  require (ended s) "missing semantic run end" ;;;
  check (acyclic_edges (edges (manifest s))) (ValueError "cyclic original graph") ;;;
  Ok (manifest s).

(** ** The operands of a node *)

(** The phase and occurrence of a graph are the first three parts of the key. *)
Definition is_graph_of (key : SemanticKey) (row : record) : res bool :=
  let '(phase, decode, occurrence, _) := key in
  let* own := phase_key row in
  let* value := item row "graph_occurrence" in
  Ok (bool_decide (own = (phase, decode)) && eq_int value occurrence).

(** [next(x for x in l if f(x))]. *)
Fixpoint next_res {A} (f : A → res bool) (l : list A) : res A :=
  match l with
  | [] => Err StopIteration
  | x :: l => let* b := f x in if (b : bool) then Ok x else next_res f l
  end.

Definition payload_of (m : Manifest) (key : SemanticKey) : res record :=
  match kget key (nodes m) with
  | Some node => let* value := item node "payload" in object_value value
  | None => Err (KeyError "semantic key")
  end.

Definition operand (m : Manifest) (graph : record) (key : SemanticKey) (raw : json) : res (option record) :=
  if is_null raw then Ok None else
  let* edge := object_value raw in
  let* ordinal := integer edge "ordinal" in
  let* kind := item edge "kind" in
  if eq_str kind "node" then
    let '(phase, decode, occurrence, _) := key in
    let* payload := payload_of m (phase, decode, occurrence, ordinal) in Ok (Some payload)
  else
    let* leaves_value := item graph "leaves" in
    let* leaves := array leaves_value in
    match leaves !! Z.to_nat ordinal with
    | Some leaf => let* payload := object_value leaf in Ok (Some payload)
    | None => Err (IndexError "list index out of range")
    end.

Definition inputs (m : Manifest) (key : SemanticKey) : res (list (option record)) :=
  let* graph := next_res (is_graph_of key) (graphs m) in
  let* payload := payload_of m key in
  let* raw := item payload "inputs" in
  let* listed := array raw in
  map_res (operand m graph key) listed.

(** ** Two collections of the same run *)

Definition without_key (name : string) (r : record) : record := filter (fun kv => kv.1 ≠ name) r.
Definition strip (r : record) : record := without_key "sequence" r.
(** The prompt must be the same token for token; the decoded inputs may differ. *)
Definition phase_contract (r : record) : res record :=
  let* kind := item r "phase_kind" in
  Ok (if eq_str kind "prefill" then strip r else without_key "token_fingerprint" (strip r)).

Definition same_record (a b : record) : bool := jeq (JObj a) (JObj b).
Definition same_list (a b : list record) : bool := jeq (JArr (map JObj a)) (JArr (map JObj b)).

Definition compare_manifests `{Host} (full potal : Manifest) : res unit :=
  let* full_role := item (run full) "source_role" in
  let* potal_role := item (run potal) "source_role" in
  require (eq_str full_role "FULL_CPU" && eq_str potal_role "POTAL_COLLECTION") "reconstruction source roles swapped" ;;;
  let* full_config := item (run full) "run_config_id" in
  let* potal_config := item (run potal) "run_config_id" in
  require_res (Ok (jeq full_config potal_config) andM
    (let* full_value := item (run full) "workload" in
     let* full_load := object_value full_value in
     let* potal_value := item (run potal) "workload" in
     let* potal_load := object_value potal_value in
     Ok (String.eqb (json_dumps (JObj full_load)) (json_dumps (JObj potal_load))))) "workload/CPU configuration mismatch" ;;;
  let* full_phases := map_res phase_contract (phases full) in
  let* potal_phases := map_res phase_contract (phases potal) in
  require (same_list full_phases potal_phases) "phase/prompt input mismatch" ;;;
  require (same_list (map strip (graphs full)) (map strip (graphs potal))) "original graph payload/edge mismatch".

(** ** Names of nodes *)

(** [reconstruct_cpu.encoded_key]: the compact JSON text of a semantic key,
    whose phase is one of two plain words. *)
Definition encoded_key (key : SemanticKey) : string :=
  let '(phase, decode, occurrence, ordinal) := key in
  "[" +:+ quoted phase +:+ "," +:+ (match decode with None => "null" | Some index => dec index end) +:+ "," +:+
  dec occurrence +:+ "," +:+ dec ordinal +:+ "]".

Definition operation_name (key : SemanticKey) : string := "operation:" +:+ encoded_key key.
