(* ===== verification/ManifestTheorems.v ===== *)
(** * What an accepted semantic graph guarantees

    [reading_inv] is the invariant of the reader; a manifest it returns has the
    phases in order, dense graph occurrences, exactly one execution per node,
    and resolved acyclic edges, so that [inputs] finds every operand. *)
From S2P Require Import Prelude Records Topology TraceSchema Manifest.
Set Default Goal Selector "!".

Lemma key_eq_spec a b : key_eq a b = true ↔ a = b.
Proof.
  destruct a as [[[p d] o] n], b as [[[p' d'] o'] n']. unfold key_eq. rewrite !andb_true_iff, !Z.eqb_eq, String.eqb_eq.
  assert (Hd : same_decode d d' = true ↔ d = d') by (destruct d, d'; cbn; rewrite ?Z.eqb_eq; naive_solver).
  rewrite Hd. naive_solver.
Qed.

Lemma kmem_spec {V} k (l : list (SemanticKey * V)) : kmem k l = true ↔ k ∈ l.*1.
Proof. apply amem_spec, key_eq_spec. Qed.

Lemma kmem_fresh {V} k (l : list (SemanticKey * V)) : kmem k l = false ↔ k ∉ l.*1.
Proof. rewrite <-kmem_spec. destruct (kmem k l); naive_solver. Qed.

Lemma kget_elem {V} k (v : V) l : NoDup l.*1 → (k, v) ∈ l → kget k l = Some v.
Proof. apply In_aget, key_eq_spec. Qed.
Lemma elem_kget {V} k (v : V) l : kget k l = Some v → (k, v) ∈ l.
Proof. apply aget_In, key_eq_spec. Qed.
Lemma kget_is_Some {V} k (l : list (SemanticKey * V)) : k ∈ l.*1 → ∃ v, kget k l = Some v.
Proof. rewrite <-kmem_spec. unfold amem. destruct (kget k l); [eauto|done]. Qed.

(** ** Enumeration *)

Lemma numbered_snd {A} (l : list A) : (numbered l).*2 = l.
Proof. unfold numbered. rewrite snd_zip; [done|]. by rewrite length_seq. Qed.

Lemma numbered_split {A} (l : list A) pre i x post :
  numbered l = pre ++ (i, x) :: post → i = length pre ∧ l = pre.*2 ++ x :: post.*2 ∧ pre = numbered pre.*2.
Proof.
  intros Hl. assert (Hs : l = pre.*2 ++ x :: post.*2) by (rewrite <-(numbered_snd l), Hl, fmap_app; done).
  assert (Hi : (numbered l).*1 = seq 0 (length l)) by (unfold numbered; apply fst_zip; by rewrite length_seq).
  rewrite Hl, fmap_app, Hs, length_app, length_fmap in Hi. cbn in Hi. rewrite seq_app in Hi.
  apply app_inj_1 in Hi as [Hpre Hi]; [|by rewrite length_fmap, length_seq].
  cbn in Hi. injection Hi as -> _. split; [done|]. split; [done|]. unfold numbered. rewrite length_fmap, <-Hpre.
  symmetry. apply zip_fst_snd.
Qed.

(** ** The graphs of a manifest *)

Abbreviation GraphId := (PhaseKey * Z)%type.
Definition node_key (id : GraphId) (ordinal : Z) : SemanticKey := (id.1.1, id.1.2, id.2, ordinal).

(** A graph record with its key, its nodes and its leaves. *)
Record graph_shape (g : record) (id : GraphId) (entries leaves : list json) : Prop := {
  gs_phase : phase_key g = Ok id.1;
  gs_occurrence : integer g "graph_occurrence" = Ok id.2;
  gs_entries : item g "nodes" = Ok (JArr entries);
  gs_leaves : item g "leaves" = Ok (JArr leaves);
  gs_objects : Forall (fun leaf => ∃ r, leaf = JObj r) leaves;
}.

Definition graph_id (g : record) : option GraphId :=
  match phase_key g, integer g "graph_occurrence" with Ok key, Ok o => Some (key, o) | _, _ => None end.
Definition graph_size (g : record) : nat :=
  match item g "nodes" with Ok (JArr entries) => length entries | _ => 0 end.
Definition graph_keys (g : record) : list SemanticKey :=
  match graph_id g with
  | Some id => map (fun i => node_key id (Z.of_nat i)) (seq 0 (graph_size g))
  | None => []
  end.

(** The graphs of phases that ran [counts] graphs each. *)
Definition graph_ids (counts : list nat) : list GraphId :=
  concat (imap (fun i n => map (fun o => (expected_phase i, Z.of_nat o)) (seq 0 n)) counts).

Lemma shape_id g id entries leaves : graph_shape g id entries leaves → graph_id g = Some id.
Proof. intros [Hp Ho _ _ _]. unfold graph_id. rewrite Hp, Ho. by destruct id. Qed.
Lemma shape_keys g id entries leaves : graph_shape g id entries leaves →
  graph_keys g = map (fun i => node_key id (Z.of_nat i)) (seq 0 (length entries)).
Proof. intros Hs. unfold graph_keys, graph_size. by rewrite (shape_id _ _ _ _ Hs), (gs_entries _ _ _ _ Hs). Qed.

(** A node and its row of the edge table. *)
Record described (id : GraphId) (entries leaves : nat) (kn : SemanticKey * record)
    (ks : SemanticKey * list SemanticKey) : Prop := {
  de_key : kn.1 = ks.1;
  de_own : ∃ i, (i < entries)%nat ∧ kn.1 = node_key id (Z.of_nat i);
  de_payload : ∃ payload inputs sources, item kn.2 "payload" = Ok (JObj payload) ∧
    item payload "inputs" = Ok (JArr inputs) ∧
    map_res (input_edge (Z.of_nat entries) (Z.of_nat leaves) (node_key id)) inputs = Ok sources ∧ ks.2 = omap Datatypes.id sources;
  de_excluded : ∃ b, item kn.2 "excluded" = Ok (JBool b);
}.

(** ** One GRAPH record *)

Definition same_rest (m m' : Manifest) : Prop :=
  run m' = run m ∧ phases m' = phases m ∧ executions m' = executions m.

(** What reading some nodes of a graph adds to the manifest. *)
Record nodes_read (id : GraphId) (entries leaves done : nat) (m m' : Manifest) : Prop := {
  nr_rest : same_rest m m';
  nr_graphs : graphs m' = graphs m;
  nr_added : ∃ added added_edges, nodes m' = nodes m ++ added ∧ edges m' = edges m ++ added_edges ∧
    added.*1 = map (fun i => node_key id (Z.of_nat i)) (seq 0 done) ∧
    Forall2 (described id entries leaves) added added_edges;
  nr_distinct : NoDup (nodes m).*1 → NoDup (nodes m').*1;
}.

Lemma graph_node_ok id entries leaves done m m1 value m' : (done < entries)%nat →
  (edges m).*1 = (nodes m).*1 → nodes_read id entries leaves done m m1 →
  graph_node id.1 id.2 (Z.of_nat entries) (Z.of_nat leaves) m1 (done, value) = Ok m' →
  nodes_read id entries leaves (S done) m m'.
Proof.
  intros Hlt Hkeys [Hrest Hg (new & newe & Hn & He & Hk & Hd) Hnd] H. unfold graph_node in H. cbv zeta in H.
  apply bind_Ok in H as (node & _ & H). apply bind_Ok in H as ([] & _ & H).
  apply bind_Ok in H as ([] & Hc & H).
  apply bind_Ok in H as (pv & Hpv & H). apply bind_Ok in H as (payload & ->%object_value_Ok & H).
  apply bind_Ok in H as ([] & _ & H). apply bind_Ok in H as ([] & Hfresh%check_Ok_any%negb_true_iff & H).
  apply bind_Ok in H as (iv & Hiv & H). apply bind_Ok in H as (inputs & ->%array_Ok & H).
  apply bind_Ok in H as (sources & Hs & <-%Ok_eq).
  change (id.1.1, id.1.2, id.2, Z.of_nat done) with (node_key id (Z.of_nat done)) in *.
  set (key := node_key id (Z.of_nat done)) in *.
  assert (Hek : (edges m1).*1 = (nodes m1).*1).
  { rewrite Hn, He, !fmap_app, Hkeys. f_equal. clear -Hd. induction Hd as [|a b l k Hab _ IH]; cbn; [done|].
    by rewrite IH, (de_key _ _ _ _ _ Hab). }
  assert (Hnodes : nodes (add_node m1 key node (omap Datatypes.id sources)) = nodes m1 ++ [(key, node)]) by (by apply aset_fresh).
  assert (Hedges : edges (add_node m1 key node (omap Datatypes.id sources)) = edges m1 ++ [(key, omap Datatypes.id sources)]).
  { apply aset_fresh. apply kmem_fresh. rewrite Hek. by apply kmem_fresh. }
  split; [done|done| |].
  - exists (new ++ [(key, node)]), (newe ++ [(key, omap Datatypes.id sources)]).
    rewrite Hnodes, Hedges, Hn, He, !app_assoc. split_and!; try done.
    + rewrite fmap_app, Hk, seq_S, map_app. done.
    + apply Forall2_app; [done|]. constructor; [|constructor]. split; [done|by exists done| |].
      * by exists payload, inputs, sources.
      * apply require_m_Ok, and_then_Ok_true in Hc as [_ Hc]. apply bind_Ok in Hc as (v & Hv & Hb%Ok_eq).
        cbn [snd]. rewrite Hv. destruct v; try done. by eexists.
  - intros Hd0%Hnd. rewrite Hnodes, fmap_app. apply NoDup_app. split; [done|]. split; [|apply NoDup_singleton].
    intros k Hin ->%list_elem_of_singleton. by apply kmem_fresh in Hfresh.
Qed.

(** What a GRAPH record adds to the manifest. *)
Record graph_read (id : GraphId) (g : record) (m m' : Manifest) : Prop := {
  ge_rest : same_rest m m';
  ge_graphs : graphs m' = graphs m ++ [g];
  ge_added : ∃ entries leaves added added_edges, graph_shape g id entries leaves ∧
    nodes m' = nodes m ++ added ∧ edges m' = edges m ++ added_edges ∧
    added.*1 = graph_keys g ∧ Forall2 (described id (length entries) (length leaves)) added added_edges;
  ge_distinct : NoDup (nodes m).*1 → NoDup (nodes m').*1;
  ge_executed : executed m = true;
  ge_phase : ∃ phase, last (phases m) = Some phase ∧ phase_key phase = Ok id.1;
}.

Lemma leaf_record_object v : leaf_record v = Ok tt → ∃ r, v = JObj r.
Proof. unfold leaf_record. intros (r & ->%object_value_Ok & _)%bind_Ok. by exists r. Qed.

Lemma graph_record_ok m next g m' : (edges m).*1 = (nodes m).*1 → graph_record m next g = Ok m' →
  ∃ key, graph_read (key, next) g m m'.
Proof.
  intros Hkeys H. unfold graph_record in H.
  apply bind_Ok in H as ([] & Hc%require_m_Ok & H). apply bind_Ok in H as (o & Ho & H).
  apply bind_Ok in H as ([] & ->%check_Ok_any%Z.eqb_eq & H). apply bind_Ok in H as (key & Hkey & H).
  apply bind_Ok in H as (lv & Hl & H). apply bind_Ok in H as (leaves & ->%array_Ok & H).
  apply bind_Ok in H as (ev & He & H). apply bind_Ok in H as (entries & ->%array_Ok & H).
  apply bind_Ok in H as ([] & Hleaves%iter_res_Ok & H). apply bind_Ok in H as (m1 & Hf & <-%Ok_eq).
  assert (Hshape : graph_shape g (key, next) entries leaves).
  { split; try done. eapply Forall_impl; [exact Hleaves|]. apply leaf_record_object. }
  assert (Hread : nodes_read (key, next) (length entries) (length leaves) (length entries) m m1).
  { rewrite <-(numbered_snd entries) at 2. rewrite length_fmap. revert Hf.
    apply (fold_res_hist (fun pre s => nodes_read (key, next) (length entries) (length leaves) (length pre) m s)).
    - split; [done|done| |done]. exists [], []. rewrite !app_nil_r. split_and!; [done..|constructor].
    - intros pre [i x] post s1 s2 Hsplit Hs1 Hs2. apply numbered_split in Hsplit as (-> & Hlen & _).
      rewrite length_app, Nat.add_1_r. eapply graph_node_ok; [|done|exact Hs1|exact Hs2].
      rewrite Hlen, length_app, !length_fmap. cbn. lia. }
  destruct Hread as [(Hr & Hp & Hx) Hgs (new & newe & Hn & He' & Hk & Hd) Hnd].
  apply and_then_Ok_true in Hc as [_ Hc]. apply and_then_Ok_true in Hc as [Hph Hex].
  exists key. split; try done.
  - cbn. by rewrite Hgs.
  - exists entries, leaves, new, newe. split; [done|]. split; [done|]. split; [done|]. split; [|done].
    by rewrite Hk, (shape_keys _ _ _ _ Hshape).
  - by injection Hex.
  - rewrite Hkey in Hph. cbn [mbind res_bind] in Hph. destruct (last (phases m)) as [phase|]; [|done].
    exists phase. split; [done|]. apply bind_Ok in Hph as (k & -> & Hb%Ok_eq%bool_decide_eq_true). by subst.
Qed.

(** ** The invariant of the reader *)

(** A node and its row of the edge table, as some graph of the manifest has them. *)
Definition described_in (m : Manifest) (kn : SemanticKey * record) (ks : SemanticKey * list SemanticKey) : Prop :=
  ∃ g id entries leaves, g ∈ graphs m ∧ graph_shape g id entries leaves ∧
    described id (length entries) (length leaves) kn ks.

(** The execution of a node. *)
Record execution_ok (m : Manifest) (ke : SemanticKey * record) : Prop := {
  eo_key : semantic_key ke.2 = Ok ke.1;
  eo_class : ∃ node class, (ke.1, node) ∈ nodes m ∧ pget ke.2 "execution_class" = JStr class ∧
    class ∈ ["ORDINARY_CPU"; "TARGET_NPU"; "EXCLUDED"] ∧
    (class = "EXCLUDED" ↔ pget node "excluded" = JBool true) ∧
    (pget (run m) "source_role" = JStr "FULL_CPU" → class ≠ "TARGET_NPU");
  eo_success : pget ke.2 "success" = JBool true;
}.

Record reading_inv (pre : list record) (s : Reading) : Prop := {
  ri_initial : pre = [] → manifest s = no_manifest;
  ri_phases : ∀ i p, phases (manifest s) !! i = Some p → phase_key p = Ok (expected_phase i);
  ri_counts : ∃ counts, length counts = length (phases (manifest s)) ∧
    map graph_id (graphs (manifest s)) = map Some (graph_ids counts) ∧
    ∀ n, last counts = Some n → next_graph s = Z.of_nat n;
  ri_graphs : Forall (fun g => ∃ id entries leaves, graph_shape g id entries leaves) (graphs (manifest s));
  ri_keys : (nodes (manifest s)).*1 = concat (map graph_keys (graphs (manifest s)));
  ri_rows : Forall2 (described_in (manifest s)) (nodes (manifest s)) (edges (manifest s));
  ri_distinct : NoDup (nodes (manifest s)).*1;
  ri_once : NoDup (executions (manifest s)).*1;
  ri_executions : Forall (execution_ok (manifest s)) (executions (manifest s));
  ri_ended : ended s = true → executed (manifest s) = true ∧ phases (manifest s) ≠ [];
}.

Lemma rows_keys m : Forall2 (described_in m) (nodes m) (edges m) → (edges m).*1 = (nodes m).*1.
Proof.
  generalize (nodes m), (edges m). intros l k. induction 1 as [|a b l k (g & id & e & lv & _ & _ & Hab) _ IH]; cbn; [done|].
  by rewrite IH, (de_key _ _ _ _ _ Hab).
Qed.

Lemma graph_ids_snoc counts n :
  graph_ids (counts ++ [n]) = graph_ids counts ++ map (fun o => (expected_phase (length counts), Z.of_nat o)) (seq 0 n).
Proof. unfold graph_ids. rewrite imap_app, concat_app. cbn. by rewrite app_nil_r, Nat.add_0_r. Qed.

Lemma described_grows m m' kn ks : (∀ g, g ∈ graphs m → g ∈ graphs m') → described_in m kn ks → described_in m' kn ks.
Proof. intros Hg (g & id & e & l & Hin & Hs & Hd). exists g, id, e, l. auto. Qed.

Lemma execution_grows m m' ke : run m' = run m → (∀ kn, kn ∈ nodes m → kn ∈ nodes m') →
  execution_ok m ke → execution_ok m' ke.
Proof.
  intros Hr Hn [Hk (node & class & Hin & Hc) Hs]. split; [done| |done].
  exists node, class. rewrite Hr. split; [by apply Hn|done].
Qed.

Lemma initial_reading : reading_inv [] {| manifest := no_manifest; ended := false; next_graph := 0 |}.
Proof.
  split; cbn; try done; try constructor. exists []. split_and!; done.
Qed.

Lemma reading_run pre r s m' : reading_inv pre s → run_record (manifest s) (Z.of_nat (length pre)) r = Ok m' →
  reading_inv (pre ++ [r]) {| manifest := m'; ended := false; next_graph := next_graph s |}.
Proof.
  intros Hs H. unfold run_record in H. apply bind_Ok in H as ([] & Hz%check_Ok_any%Z.eqb_eq & H).
  assert (Hpre : pre = []) by (destruct pre; [done|cbn in Hz; lia]). pose proof (ri_initial _ _ Hs Hpre) as Hm.
  res_inv. rewrite Hm in *. destruct Hs. rewrite Hm in *. split; cbn; try done; constructor.
Qed.

Lemma reading_phase pre r s m' : reading_inv pre s → phase_record (manifest s) r = Ok m' →
  reading_inv (pre ++ [r]) {| manifest := m'; ended := false; next_graph := 0 |}.
Proof.
  intros [Hi Hp (counts & Hlen & Hids & Hnext) Hg Hk Hr Hd Ho He Hend] H. unfold phase_record in H.
  apply bind_Ok in H as ([] & _ & H). apply bind_Ok in H as (key & Hkey & H).
  apply bind_Ok in H as ([] & Hb%check_Ok_any%bool_decide_eq_true & H). res_inv. split; cbn; try done.
  - by destruct pre.
  - intros i p [Hl|[Hge Hl]]%lookup_app_Some; [by apply Hp|].
    apply list_lookup_singleton_Some in Hl as [Hz <-]. by replace i with (length (phases (manifest s))) by lia.
  - exists (counts ++ [0%nat]). rewrite !length_app, Hlen, Hids, graph_ids_snoc. cbn. rewrite app_nil_r.
    split_and!; try done. intros n. rewrite last_snoc. by intros [= <-].
  - eapply Forall_impl; [exact He|]. intros ke. by apply execution_grows.
Qed.

Lemma reading_graph pre r s m' : reading_inv pre s → graph_record (manifest s) (next_graph s) r = Ok m' →
  reading_inv (pre ++ [r]) {| manifest := m'; ended := false; next_graph := next_graph s + 1 |}.
Proof.
  intros [Hi Hp (counts & Hlen & Hids & Hnext) Hg Hk Hr Hd Ho He Hend] H.
  apply graph_record_ok in H as (key & [(Er & Ep & Ex) Eg (entries & leaves & new & newe & Hshape & En & Ee & Hkeys & Hdesc) Hdist Hex (phase & Hlast & Hphase)]); [|by apply rows_keys].
  assert (Hsub : ∀ g, g ∈ graphs (manifest s) → g ∈ graphs m') by (intros g; rewrite Eg; set_solver).
  split; cbn; try done.
  - by destruct pre.
  - by rewrite Ep.
  - assert (Hne : counts ≠ []) by (intros ->; destruct (phases (manifest s)); done).
    destruct (exists_last Hne) as (cs & n & ->).
    exists (cs ++ [S n]). rewrite Ep, Eg, !map_app, Hids, !graph_ids_snoc, seq_S, !map_app, app_assoc.
    rewrite length_app in Hlen. cbn in Hlen. rewrite last_lookup in Hlast.
    assert (Hn : next_graph s = Z.of_nat n) by (by apply Hnext; rewrite last_snoc).
    split_and!; [rewrite length_app; cbn; lia| |].
    + f_equal. cbn. rewrite (shape_id _ _ _ _ Hshape). do 3 f_equal; [|done]. cbn in Hphase.
      rewrite (Hp _ _ Hlast) in Hphase. apply Ok_eq in Hphase. rewrite <-Hphase. f_equal. lia.
    + intros k. rewrite last_snoc. intros [= <-]. lia.
  - rewrite Eg. apply Forall_app. split; [done|]. constructor; [|constructor]. by exists (key, next_graph s), entries, leaves.
  - by rewrite En, Eg, fmap_app, map_app, concat_app, Hk, Hkeys; cbn; rewrite app_nil_r.
  - rewrite En, Ee. apply Forall2_app.
    + eapply Forall2_impl; [exact Hr|]. intros kn ks. by apply described_grows.
    + eapply Forall2_impl; [exact Hdesc|]. intros kn ks Hks. exists r, (key, next_graph s), entries, leaves.
      rewrite Eg. set_solver.
  - by apply Hdist.
  - by rewrite Ex.
  - rewrite Ex. eapply Forall_impl; [exact He|]. intros ke. apply execution_grows; [done|].
    intros kn. rewrite En. set_solver.
Qed.

Lemma reading_execution pre r s m' : reading_inv pre s → execution_record (manifest s) r = Ok m' →
  reading_inv (pre ++ [r]) {| manifest := m'; ended := false; next_graph := next_graph s |}.
Proof.
  intros [Hi Hp Hc Hg Hk Hr Hd Ho He Hend] H. unfold execution_record in H. apply bind_Ok in H as (key & Hkey & H).
  destruct (kget key (nodes (manifest s))) as [node|] eqn:Hnode; [|done]. apply elem_kget in Hnode.
  apply bind_Ok in H as ([] & Hfresh%check_Ok_any%negb_true_iff & H).
  do 3 (apply bind_Ok in H as (? & _ & H)). apply bind_Ok in H as (role & Hrole%pget_item & H).
  apply bind_Ok in H as ([] & _ & H). apply bind_Ok in H as (success & Hs%pget_item & H).
  apply bind_Ok in H as ([] & Ht%check_Ok_any%is_true_spec & H). apply bind_Ok in H as (? & _ & H).
  apply bind_Ok in H as (class & [Hclass _]%text_Ok & H). apply bind_Ok in H as ([] & Hin%check_Ok_any%str_in_spec & H).
  apply bind_Ok in H as (excluded & Hex%pget_item & H). apply bind_Ok in H as ([] & Hb%check_Ok_any & H).
  apply bind_Ok in H as ([] & Hfull%check_Ok_any & <-%Ok_eq).
  assert (Hx : executions (add_execution (manifest s) key r) = executions (manifest s) ++ [(key, r)]) by (by apply aset_fresh).
  split; try done; cbn [manifest]; rewrite ?Hx; cbn [nodes run]; try done.
  - by destruct pre.
  - rewrite fmap_app. apply NoDup_app. split; [done|]. split; [|apply NoDup_singleton].
    intros k Hk' ->%list_elem_of_singleton. by apply kmem_fresh in Hfresh.
  - apply Forall_app. split; [eapply Forall_impl; [exact He|]; intros ke; by apply execution_grows|].
    constructor; [|constructor]. split; cbn [fst snd]; [done| |congruence].
    exists node, class. split_and!; try done.
    + assert (Hd' : ∃ b, excluded = JBool b).
      { destruct (list_elem_of_lookup_1 _ _ Hnode) as [i Hi'].
        destruct (Forall2_lookup_l _ _ _ _ _ Hr Hi') as ([k ks] & _ & g & id & e & l & _ & _ & Hde).
        destruct (de_excluded _ _ _ _ _ Hde) as [b Hb']. cbn in Hb'. exists b. apply pget_item in Hb'. congruence. }
      destruct Hd' as [b ->]. rewrite Hex. cbn in Hb. rewrite <-String.eqb_eq.
      destruct (String.eqb class "EXCLUDED"), b; cbn in Hb; naive_solver.
    + intros Hf ->. assert (role = JStr "FULL_CPU") as -> by (rewrite <-Hrole; exact Hf). done.
Qed.

Lemma reading_end pre r s : reading_inv pre s → end_record (manifest s) r = Ok tt →
  reading_inv (pre ++ [r]) {| manifest := manifest s; ended := true; next_graph := next_graph s |}.
Proof.
  intros [Hi Hp Hc Hg Hk Hr Hd Ho He Hend] H. unfold end_record in H.
  apply bind_Ok in H as (success & _ & H). apply bind_Ok in H as ([] & Hf%check_Ok_any & H).
  apply andb_prop in Hf as [Hf _]. apply negb_true_iff, Nat.eqb_neq in Hf.
  apply bind_Ok in H as (? & _ & H). apply bind_Ok in H as (? & _ & H).
  apply bind_Ok in H as ([] & Hx%check_Ok_any & _). apply andb_prop in Hx as [_ Hx].
  split; cbn; try done; [by destruct pre|]. intros _. split; [done|]. by intros E; rewrite E in Hf.
Qed.

Lemma reading_step pre x post s s' : numbered (pre.*2 ++ x.2 :: post.*2) = pre ++ x :: post →
  reading_inv pre.*2 s → read_record s x = Ok s' → reading_inv (pre ++ [x]).*2 s'.
Proof.
  intros Hn Hs H. destruct x as [i r]. apply numbered_split in Hn as (-> & _ & _).
  rewrite fmap_app. cbn [fmap list_fmap]. unfold read_record in H.
  apply bind_Ok in H as ([] & _ & H). apply bind_Ok in H as ([] & _ & H). apply bind_Ok in H as (kind & _ & H).
  destruct (sget kind FIELDS) as [names|]; [|done]. apply bind_Ok in H as ([] & _ & H).
  apply bind_Ok in H as ([] & _ & H). cbv zeta in H.
  destruct (String.eqb kind "RUN").
  { apply bind_Ok in H as (m' & Hm & <-%Ok_eq). rewrite <-(length_fmap snd) in Hm. by eapply reading_run. }
  destruct (String.eqb kind "PHASE").
  { apply bind_Ok in H as (m' & Hm & <-%Ok_eq). by eapply reading_phase. }
  destruct (String.eqb kind "GRAPH").
  { apply bind_Ok in H as (m' & Hm & <-%Ok_eq). by eapply reading_graph. }
  destruct (String.eqb kind "NODE_EXECUTION").
  { apply bind_Ok in H as (m' & Hm & <-%Ok_eq). by eapply reading_execution. }
  apply bind_Ok in H as ([] & Hm & <-%Ok_eq). by apply (reading_end _ r).
Qed.

(** ** An accepted manifest *)

Record wf_manifest (m : Manifest) : Prop := {
  wm_phases : phases m ≠ [] ∧ ∀ i p, phases m !! i = Some p → phase_key p = Ok (expected_phase i);
  wm_graphs : ∃ counts, length counts = length (phases m) ∧ map graph_id (graphs m) = map Some (graph_ids counts);
  wm_shapes : Forall (fun g => ∃ id entries leaves, graph_shape g id entries leaves) (graphs m);
  wm_keys : (nodes m).*1 = concat (map graph_keys (graphs m));
  wm_distinct : NoDup (nodes m).*1;
  wm_rows : Forall2 (described_in m) (nodes m) (edges m);
  wm_executed : (executions m).*1 ≡ₚ (nodes m).*1;
  wm_executions : Forall (execution_ok m) (executions m);
  wm_order : ∃ order, order ≡ₚ edges m ∧ Topology.topological key_eq fst snd [] order;
}.

Lemma read_manifest_wf records m : read_manifest records = Ok m → wf_manifest m.
Proof.
  unfold read_manifest. intros (s & Hf & H)%bind_Ok. apply bind_Ok in H as ([] & Hend%check_Ok_any & H).
  apply bind_Ok in H as ([] & Ha%check_Ok_any & <-%Ok_eq).
  assert (Hinv : reading_inv records s).
  { rewrite <-(numbered_snd records). revert Hf.
    apply (fold_res_hist (fun pre s => reading_inv pre.*2 s)); [apply initial_reading|].
    intros pre x post s1 s2 Hl Hs1 Hs2. eapply reading_step; [|exact Hs1|exact Hs2].
    rewrite <-Hl. f_equal. rewrite <-(numbered_snd records), Hl, fmap_app. done. }
  destruct Hinv as [_ Hp (counts & Hlen & Hids & _) Hg Hk Hr Hd Ho He Hend']. destruct (Hend' Hend) as [Hx Hne].
  split; try done.
  - by exists counts.
  - assert (Hsub : ∀ k, k ∈ (executions (manifest s)).*1 → k ∈ (nodes (manifest s)).*1).
    { intros k ([k' r] & -> & Hin)%list_elem_of_fmap. apply Forall_forall with (x := (k', r)) in He; [|done].
      destruct He as [_ (node & _ & Hn & _) _]. by apply (list_elem_of_fmap_2 fst) in Hn. }
    apply submseteq_length_Permutation; [by apply NoDup_submseteq|].
    unfold executed in Hx. apply Nat.eqb_eq in Hx. rewrite !length_fmap. lia.
  - by apply (acyclic_ordered _ _ _ key_eq_spec).
Qed.

(** ** Operands *)

Lemma expected_phase_inj i j : expected_phase i = expected_phase j → i = j.
Proof. destruct i, j; cbn; try done. intros [= E]. lia. Qed.

Lemma elem_of_graph_ids counts id : id ∈ graph_ids counts → ∃ i, (i < length counts)%nat ∧ id.1 = expected_phase i.
Proof.
  induction counts as [|n counts IH] using rev_ind; [by intros ?%not_elem_of_nil|].
  rewrite graph_ids_snoc, length_app. cbn. intros [Hin|Hin]%elem_of_app.
  - destruct (IH Hin) as (i & ? & ?). exists i. split; [lia|done].
  - apply list_elem_of_In, in_map_iff in Hin as (o & <- & _). exists (length counts). split; [lia|done].
Qed.

Lemma graph_ids_NoDup counts : NoDup (graph_ids counts).
Proof.
  induction counts as [|n counts IH] using rev_ind; [constructor|]. rewrite graph_ids_snoc. apply NoDup_app.
  split; [done|]. split.
  - intros id Hin1 Hin2. apply elem_of_graph_ids in Hin1 as (i & Hi & E).
    apply list_elem_of_In, in_map_iff in Hin2 as (o & <- & _). cbn in E. apply expected_phase_inj in E. lia.
  - apply NoDup_fmap_2; [|apply NoDup_seq]. intros x y [= E]. lia.
Qed.

Section Operands.
Context (m : Manifest) (Hm : wf_manifest m).

Lemma graph_unique g g' id : g ∈ graphs m → g' ∈ graphs m → graph_id g = Some id → graph_id g' = Some id → g = g'.
Proof.
  destruct (wm_graphs _ Hm) as (counts & _ & Hids). intros [i Hi]%list_elem_of_lookup_1 [j Hj]%list_elem_of_lookup_1 E E'.
  assert (Hl : ∀ k g0, graphs m !! k = Some g0 → graph_id g0 = Some id → graph_ids counts !! k = Some id).
  { intros k g0 Hk E0. apply (f_equal (fun l => l !! k)) in Hids. change (map Some (graph_ids counts)) with (Some <$> graph_ids counts) in Hids.
    change (map graph_id (graphs m)) with (graph_id <$> graphs m) in Hids.
    rewrite !list_lookup_fmap, Hk in Hids. cbn in Hids. rewrite E0 in Hids.
    destruct (graph_ids counts !! k); [|done]. cbn in Hids. congruence. }
  assert (i = j) as <- by (eapply NoDup_lookup; [apply (graph_ids_NoDup counts)|by eapply Hl|by eapply Hl]). congruence.
Qed.

Lemma next_graph_of l id n g : (∀ g, g ∈ l → g ∈ graphs m) → g ∈ l → graph_id g = Some id → g ∈ graphs m →
  next_res (is_graph_of (node_key id n)) l = Ok g.
Proof.
  induction l as [|g0 l IH]; intros Hsub Hin Hid Hg; [by apply not_elem_of_nil in Hin|]. cbn [next_res].
  pose proof (wm_shapes _ Hm) as Hs. rewrite Forall_forall in Hs.
  assert (Hg0 : g0 ∈ graphs m) by (apply Hsub; constructor).
  destruct (Hs g0 Hg0) as (id0 & e0 & l0 & Hshape).
  pose proof (shape_id _ _ _ _ Hshape) as Hid0. destruct Hshape as [Hp Ho _ _ _].
  assert (Hitem : item g0 "graph_occurrence" = Ok (JInt id0.2)).
  { apply integer_Ok in Ho as [Ho _]. apply item_Ok. unfold pget in Ho. by destruct (sget "graph_occurrence" g0); cbn in Ho; [subst|]. }
  unfold is_graph_of, node_key. rewrite Hp, Hitem. cbn [mbind res_bind].
  destruct (decide (id0 = id)) as [->|Hne].
  - rewrite bool_decide_true by by destruct id as [[? ?] ?]. unfold eq_int, jeq, num_eq. rewrite Z.eqb_refl. cbn.
    f_equal. by eapply graph_unique.
  - assert (Hb : bool_decide (id0.1 = (id.1.1, id.1.2)) && eq_int (JInt id0.2) id.2 = false).
    { apply andb_false_iff. destruct (decide (id0.1 = (id.1.1, id.1.2))) as [E|E]; [right|left; by apply bool_decide_false].
      apply Z.eqb_neq. intros E2. apply Hne. destruct id0 as [? ?], id as [[? ?] ?]. cbn in *. by subst. }
    rewrite Hb. apply IH; try done.
    + intros g1 H1. apply Hsub. by constructor.
    + apply elem_of_cons in Hin as [->|Hin]; [congruence|done].
Qed.

Lemma node_listed g id entries leaves i : g ∈ graphs m → graph_shape g id entries leaves → (i < length entries)%nat →
  node_key id (Z.of_nat i) ∈ (nodes m).*1.
Proof.
  intros Hg Hs Hi. rewrite (wm_keys _ Hm). apply list_elem_of_In, in_concat. exists (graph_keys g).
  split; [by apply in_map, list_elem_of_In|]. rewrite (shape_keys _ _ _ _ Hs). apply in_map_iff. exists i.
  split; [done|]. apply in_seq. lia.
Qed.

Lemma node_row key node : kget key (nodes m) = Some node → ∃ sources, (key, sources) ∈ edges m ∧ described_in m (key, node) (key, sources).
Proof.
  intros Hin%elem_kget. destruct (list_elem_of_lookup_1 _ _ Hin) as [i Hi].
  destruct (Forall2_lookup_l _ _ _ _ _ (wm_rows _ Hm) Hi) as ([k ks] & Hk & Hd). pose proof Hd as (g & id & e & l & _ & _ & Hde).
  pose proof (de_key _ _ _ _ _ Hde) as E. cbn in E. subst k. exists ks. split; [|done]. by eapply list_elem_of_lookup_2.
Qed.

Lemma payload_found key : key ∈ (nodes m).*1 → ∃ payload, payload_of m key = Ok payload.
Proof.
  intros Hin. unfold payload_of. destruct (kget_is_Some _ _ Hin) as [node Hn]. rewrite Hn.
  destruct (node_row _ _ Hn) as (ks & _ & g & id & e & l & _ & _ & [_ _ (payload & ? & ? & Hp & _) _]).
  exists payload. cbn in Hp. by rewrite Hp.
Qed.

Lemma operand_found g id entries leaves i raw source : g ∈ graphs m → graph_shape g id entries leaves →
  input_edge (Z.of_nat (length entries)) (Z.of_nat (length leaves)) (node_key id) raw = Ok source →
  (∃ o, operand m g (node_key id i) raw = Ok o) ∧ ∀ key, source = Some key → key ∈ (nodes m).*1 ∧ key.1 = (id.1.1, id.1.2, id.2).
Proof.
  intros Hg Hs H. unfold input_edge in H. unfold operand. destruct (is_null raw); [apply Ok_eq in H as <-; split; [by eexists|done]|].
  apply bind_Ok in H as (edge & -> & H). apply bind_Ok in H as ([] & _ & H). apply bind_Ok in H as (index & Hi & H).
  apply bind_Ok in H as (k & Hk & H). apply bind_Ok in H as ([] & _ & H). apply bind_Ok in H as ([] & Hlt%check_Ok_any%Z.ltb_lt & H%Ok_eq).
  cbn [mbind res_bind]. rewrite Hi, Hk. cbn [mbind res_bind]. apply integer_Ok in Hi as [_ Hi]. unfold node_key at 1.
  destruct (eq_str k "node").
  - assert (Hin : node_key id index ∈ (nodes m).*1).
    { rewrite <-(Z2Nat.id index) by lia. eapply node_listed; [done..|lia]. }
    destruct (payload_found _ Hin) as [p Hp]. unfold node_key in Hp. rewrite Hp. split; [by eexists|].
    intros key E. rewrite <-H in E. injection E as <-. done.
  - split; [|intros key E; by rewrite <-H in E]. rewrite (gs_leaves _ _ _ _ Hs). cbn [mbind res_bind array].
    destruct (lookup_lt_is_Some_2 leaves (Z.to_nat index)) as [leaf Hl]; [lia|]. rewrite Hl.
    pose proof (gs_objects _ _ _ _ Hs) as Ho. rewrite Forall_forall in Ho.
    destruct (Ho leaf) as [r ->]; [by eapply list_elem_of_lookup_2|]. by eexists.
Qed.

Lemma map_res_defined {A B C} (f : A → res B) (g : A → res C) l k :
  map_res f l = Ok k → (∀ x y, f x = Ok y → ∃ z, g x = Ok z) → ∃ z, map_res g l = Ok z.
Proof.
  intros H%map_res_Ok Hfg. induction H as [|x y l k Hxy _ [z IH]]; [by exists []|]. cbn.
  destruct (Hfg x y Hxy) as [w ->]. rewrite IH. by eexists.
Qed.

Lemma inputs_found key : key ∈ (nodes m).*1 → ∃ operands sources, inputs m key = Ok operands ∧ (key, sources) ∈ edges m ∧
  ∀ source, source ∈ sources → source ∈ (nodes m).*1 ∧ source.1 = key.1.
Proof.
  intros Hin. destruct (kget_is_Some _ _ Hin) as [node Hn].
  destruct (node_row _ _ Hn) as (ks & Hks & g & id & e & l & Hg & Hs & [_ (i & Hi & Hkey) (payload & inp & src & Hp & Hinp & Hsrc & Hks') _]).
  cbn in Hkey, Hp, Hks'. unfold inputs. subst key.
  rewrite (next_graph_of _ id _ g) by (done || by eapply shape_id). cbn [mbind res_bind].
  unfold payload_of. rewrite Hn, Hp. cbn [mbind res_bind object_value]. rewrite Hinp. cbn [mbind res_bind array].
  destruct (map_res_defined _ (operand m g (node_key id (Z.of_nat i))) _ _ Hsrc) as [ops Hops].
  { intros raw source Hr. by eapply (operand_found g id e l). }
  exists ops, ks. split; [done|]. split; [done|]. rewrite Hks'. intros source (o & Ho & Hsome)%list_elem_of_omap.
  cbn in Hsome. apply map_res_Ok in Hsrc. destruct (list_elem_of_lookup_1 _ _ Ho) as [j Hj].
  destruct (Forall2_lookup_r _ _ _ _ _ Hsrc Hj) as (raw & _ & Hr).
  by apply (proj2 (operand_found g id e l (Z.of_nat i) raw o Hg Hs Hr)).
Qed.
End Operands.

(** C15: An accepted semantic graph is complete: its phases are the prefill and
    the decodes 0, 1, ... in order; the graphs of every phase are numbered
    0, 1, ... without gap; the nodes are exactly those the graphs list, without
    repetition; every node was executed exactly once, successfully, under its
    own identity, excluded exactly when the graph excludes it, and never on the
    NPU in a FullCPU run. *)
Theorem manifest_complete records m : read_manifest records = Ok m →
  phases m ≠ [] ∧ (∀ i p, phases m !! i = Some p → phase_key p = Ok (expected_phase i)) ∧
  (∃ counts, length counts = length (phases m) ∧ map graph_id (graphs m) = map Some (graph_ids counts)) ∧
  (nodes m).*1 = concat (map graph_keys (graphs m)) ∧ NoDup (nodes m).*1 ∧
  (executions m).*1 ≡ₚ (nodes m).*1 ∧ (∀ ke, ke ∈ executions m → execution_ok m ke).
Proof.
  intros Hm%read_manifest_wf. pose proof (wm_executions _ Hm) as He. rewrite Forall_forall in He.
  destruct Hm as [[? ?] ? ? ? ? ? ? ? ?]. by split_and!.
Qed.

(** In an accepted semantic graph every operand can be found: for each node
    the graph of its key is the one that lists it, [inputs] returns one entry
    per declared input without raising, the sources of its edges are nodes of
    the same graph, and the nodes can be listed after their sources. *)
Theorem manifest_operands records m : read_manifest records = Ok m →
  (∀ key, key ∈ (nodes m).*1 → ∃ operands sources, inputs m key = Ok operands ∧ (key, sources) ∈ edges m ∧
     ∀ source, source ∈ sources → source ∈ (nodes m).*1 ∧ source.1 = key.1) ∧
  ∃ order, order ≡ₚ edges m ∧ Topology.topological key_eq fst snd [] order.
Proof.
  intros Hm%read_manifest_wf. split; [|apply Hm]. intros key. by apply inputs_found.
Qed.
