(* ===== verification/Rational.v ===== *)
(** * Exact time

    Python's [fractions.Fraction] is a canonical rational: here the type [Qc]
    of the Standard Library, whose equality is Leibniz equality.  The file
    gives the operations the scheduler uses and a decision procedure for
    linear goals. *)
From S2P Require Import Prelude.
From Stdlib Require Export QArith Qcanon Qround Lqa.
Set Default Goal Selector "!".
Open Scope Z_scope.

(** [Fraction(n, d)]: raises on a zero denominator. *)
Definition fraction (n d : Z) : res Qc :=
  match d with
  | Z0 => Err (ZeroDivisionError ("Fraction(" +:+ dec n +:+ ", 0)"))
  | Zpos p => Ok (Q2Qc (n # p))
  | Zneg p => Ok (Q2Qc (- n # p))
  end.
Definition qz (z : Z) : Qc := Q2Qc (inject_Z z).

(** Order, [max] and [min] on fractions. *)
Definition qleb (x y : Qc) : bool := Qle_bool x y.
Definition qltb (x y : Qc) : bool := negb (qleb y x).
Definition qmax (x y : Qc) : Qc := if qleb x y then y else x.
Definition qmin (x y : Qc) : Qc := if qleb x y then x else y.
(** [max(l, default=d)] and [min(l)] of a nonempty list. *)
Definition qmax_list (d : Qc) (l : list Qc) : Qc :=
  match l with [] => d | x :: l => fold_left qmax l x end.
Definition qmin_list (x : Qc) (l : list Qc) : Qc := fold_left qmin l x.

(** [math.ceil(x)] and [int(x)]. *)
Definition ceil (x : Qc) : Z := Qceiling x.
Definition trunc (x : Qc) : Z := Z.quot (Qnum x) (Zpos (Qden x)).

(** ** Linear arithmetic *)

Lemma this_plus x y : (this (x + y)%Qc == this x + this y)%Q.
Proof. apply Qred_correct. Qed.
Lemma this_mult x y : (this (x * y)%Qc == this x * this y)%Q.
Proof. apply Qred_correct. Qed.
Lemma this_opp x : (this (- x)%Qc == - this x)%Q.
Proof. apply Qred_correct. Qed.
Lemma this_minus x y : (this (x - y)%Qc == this x - this y)%Q.
Proof. unfold Qcminus. rewrite this_plus, this_opp. reflexivity. Qed.
Lemma this_qz z : (this (qz z) == inject_Z z)%Q.
Proof. apply Qred_correct. Qed.
Lemma this_inv x : (this (/ x)%Qc == / this x)%Q.
Proof. apply Qred_correct. Qed.
Lemma this_div x y : (this (x / y)%Qc == this x / this y)%Q.
Proof. unfold Qcdiv, Qdiv. by rewrite this_mult, this_inv. Qed.

Lemma qc_eq x y : x = y ↔ (this x == this y)%Q.
Proof. split; [by intros ->|apply Qc_is_canon]. Qed.
Lemma qc_le (x y : Qc) : (x <= y)%Qc ↔ (this x <= this y)%Q.
Proof. done. Qed.
Lemma qc_lt (x y : Qc) : (x < y)%Qc ↔ (this x < this y)%Q.
Proof. done. Qed.

Lemma qleb_le x y : qleb x y = true ↔ (x <= y)%Qc.
Proof. apply Qle_bool_iff. Qed.
Lemma qltb_lt x y : qltb x y = true ↔ (x < y)%Qc.
Proof.
  unfold qltb. rewrite negb_true_iff, <-not_true_iff_false, qleb_le. split.
  - apply Qcnot_le_lt.
  - intros H1 H2. apply (Qclt_not_le _ _ H1 H2).
Qed.

(** [qc_lra] proves linear goals over [Qc]. *)
Ltac qc_lra :=
  repeat match goal with
  | H : @eq Qc _ _ |- _ => apply qc_eq in H
  | |- @eq Qc _ _ => apply qc_eq
  end;
  unfold Qcle, Qclt in *;
  rewrite ?this_minus, ?this_plus, ?this_opp, ?this_mult, ?this_qz in *;
  change (this 0%Qc) with 0%Q in *; change (this 1%Qc) with 1%Q in *; lra.

Lemma qmax_spec x y : (x <= qmax x y)%Qc ∧ (y <= qmax x y)%Qc ∧ (qmax x y = x ∨ qmax x y = y).
Proof.
  unfold qmax. destruct (qleb x y) eqn:E.
  - apply qleb_le in E. split_and!; [done|apply Qcle_refl|by right].
  - apply not_true_iff_false in E. rewrite qleb_le in E. apply Qcnot_le_lt, Qclt_le_weak in E.
    split_and!; [apply Qcle_refl|done|by left].
Qed.

Lemma qmax_lub x y z : (x <= z)%Qc → (y <= z)%Qc → (qmax x y <= z)%Qc.
Proof. by destruct (qmax_spec x y) as (_ & _ & [-> | ->]). Qed.

Lemma fold_qmax l : ∀ x,
  (x <= fold_left qmax l x)%Qc ∧ Forall (fun y => (y <= fold_left qmax l x)%Qc) l ∧
  (fold_left qmax l x = x ∨ fold_left qmax l x ∈ l).
Proof.
  induction l as [|y l IH]; intros x; cbn.
  - split_and!; [apply Qcle_refl|done|by left].
  - destruct (IH (qmax x y)) as (H1 & H2 & H3). destruct (qmax_spec x y) as (Hx & Hy & Hor).
    split_and!.
    + by eapply Qcle_trans.
    + constructor; [by eapply Qcle_trans|done].
    + destruct H3 as [H3|H3]; [|right; by constructor]. rewrite H3.
      destruct Hor as [-> | ->]; [by left|right; constructor].
Qed.

Lemma qmax_list_spec d l :
  Forall (fun y => (y <= qmax_list d l)%Qc) l ∧ (l = [] ∧ qmax_list d l = d ∨ qmax_list d l ∈ l).
Proof.
  destruct l as [|x l]; cbn; [split; [done|by left]|].
  destruct (fold_qmax l x) as (H1 & H2 & H3). split; [by constructor|]. right.
  destruct H3 as [-> | H3]; by constructor.
Qed.

Lemma qmin_spec x y : (qmin x y <= x)%Qc ∧ (qmin x y <= y)%Qc ∧ (qmin x y = x ∨ qmin x y = y).
Proof.
  unfold qmin. destruct (qleb x y) eqn:E.
  - apply qleb_le in E. split_and!; [apply Qcle_refl|done|by left].
  - apply not_true_iff_false in E. rewrite qleb_le in E. apply Qcnot_le_lt, Qclt_le_weak in E.
    split_and!; [done|apply Qcle_refl|by right].
Qed.

Lemma qmin_list_spec l : ∀ x,
  (qmin_list x l <= x)%Qc ∧ Forall (fun y => (qmin_list x l <= y)%Qc) l ∧
  (qmin_list x l = x ∨ qmin_list x l ∈ l).
Proof.
  induction l as [|y l IH]; intros x; cbn.
  - split_and!; [apply Qcle_refl|done|by left].
  - destruct (IH (qmin x y)) as (H1 & H2 & H3). destruct (qmin_spec x y) as (Hx & Hy & Hor).
    split_and!.
    + by eapply Qcle_trans.
    + constructor; [by eapply Qcle_trans|done].
    + destruct H3 as [H3|H3]; [|right; by constructor]. unfold qmin_list in H3. rewrite H3.
      destruct Hor as [-> | ->]; [by left|right; constructor].
Qed.

(** ** Clock edges *)

(** [ceil(t / c) * c]: the first multiple of the period at or after [t]. *)
Definition next_edge (c t : Qc) : Qc := (qz (ceil (t / c)) * c)%Qc.

Definition on_edge (c t : Qc) : Prop := ∃ n : Z, t = (qz n * c)%Qc.

Lemma qz_le a b : a <= b → (qz a <= qz b)%Qc.
Proof. intros H. apply qc_le. rewrite !this_qz. by rewrite <-Zle_Qle. Qed.

Lemma qz_lt a b : (qz a < qz b)%Qc ↔ a < b.
Proof. rewrite qc_lt, !this_qz. by rewrite <-Zlt_Qlt. Qed.
Lemma qz_mul a b : qz (a * b) = (qz a * qz b)%Qc.
Proof. apply qc_eq. rewrite this_mult, !this_qz. by rewrite inject_Z_mult. Qed.
Lemma qz_plus a b : qz (a + b) = (qz a + qz b)%Qc.
Proof. apply qc_eq. rewrite this_plus, !this_qz. by rewrite inject_Z_plus. Qed.
Lemma qz_0 : qz 0 = 0%Qc.
Proof. by apply qc_eq. Qed.

Lemma pos_neq c : (0 < c)%Qc → c ≠ Q2Qc 0.
Proof. intros H ->. by apply Qclt_not_eq in H. Qed.

Lemma mul_div_cancel c t : (0 < c)%Qc → (t / c * c)%Qc = t.
Proof. intros Hc. by rewrite Qcmult_comm, Qcmult_div_r by by apply pos_neq. Qed.

Lemma div_le c t x : (0 < c)%Qc → (t / c <= x)%Qc ↔ (t <= x * c)%Qc.
Proof.
  intros Hc. rewrite <-(mul_div_cancel c t) at 2 by done. split.
  - intros H. apply Qcmult_le_compat_r; [done|by apply Qclt_le_weak].
  - by apply Qcmult_lt_0_le_reg_r.
Qed.

Lemma ceil_le (x : Qc) n : (x <= qz n)%Qc ↔ ceil x <= n.
Proof.
  unfold ceil. rewrite qc_le, this_qz. split.
  - intros H. apply Qceiling_resp_le in H. by rewrite Qceiling_Z in H.
  - intros H. eapply Qle_trans; [apply Qle_ceiling|]. by rewrite <-Zle_Qle.
Qed.

Lemma ceil_qz n : ceil (qz n) = n.
Proof.
  unfold ceil. erewrite Qceiling_comp; [apply Qceiling_Z|apply this_qz].
Qed.

Lemma next_edge_on_edge c t : on_edge c (next_edge c t).
Proof. by eexists. Qed.

(** [next_edge] is the least edge at or after [t]. *)
Lemma next_edge_ge c t : (0 < c)%Qc → (t <= next_edge c t)%Qc.
Proof. intros Hc. unfold next_edge. rewrite <-div_le by done. by apply ceil_le. Qed.

Lemma next_edge_lub c t n : (0 < c)%Qc → (t <= qz n * c)%Qc → (next_edge c t <= qz n * c)%Qc.
Proof.
  intros Hc H. rewrite <-div_le, ceil_le in H by done. unfold next_edge.
  apply Qcmult_le_compat_r; [by apply qz_le|by apply Qclt_le_weak].
Qed.

Lemma next_edge_fix c t : (0 < c)%Qc → on_edge c t → next_edge c t = t.
Proof.
  intros Hc [n ->]. unfold next_edge. rewrite Qcdiv_mult_l by by apply pos_neq.
  by rewrite ceil_qz.
Qed.

Lemma trunc_qz n : trunc (qz n) = n.
Proof.
  unfold trunc, qz, Q2Qc. cbn [this]. rewrite Qred_identity.
  - cbn. apply Z.quot_1_r.
  - cbn. apply Z.gcd_1_r.
Qed.

Lemma trunc_edge c n : (0 < c)%Qc → trunc (qz n * c / c) = n.
Proof.
  intros Hc. rewrite Qcdiv_mult_l by by apply pos_neq. apply trunc_qz.
Qed.
