(* ===== verification/ExecutionIR.v ===== *)
(** * The execution graph

    [sim/cycle/execution_ir.py]: the nodes of an execution with their causal
    dependencies, the checks of the [ExecutionIR] constructor, and the record
    form of a graph.  [graphlib.TopologicalSorter] is in [Topology.v]. *)
From S2P Require Import Prelude Records Topology.
Set Default Goal Selector "!".

Definition ensure (condition : bool) (detail : string) : res unit :=
  check condition (ExecutionError detail).

Inductive Kind : Type :=
  | CPU | NPU | APPLICATION_CPU | OP_ENTER | OP_EXIT | BARRIER | PUBLISH
  | FUNCTIONAL_EMULATION | WAIT | EXCLUDED.

Inductive Milestone : Type := ACCEPTED | RESULT_READY | RESOURCE_READY.

#[export] Instance Kind_eq_dec : EqDecision Kind.
Proof. solve_decision. Defined.
#[export] Instance Milestone_eq_dec : EqDecision Milestone.
Proof. solve_decision. Defined.

(** The [value] of the two string enumerations, and their constructors on a
    text, which raise [ValueError]. *)
Definition kind_value (k : Kind) : string :=
  match k with
  | CPU => "CPU" | NPU => "NPU" | APPLICATION_CPU => "APPLICATION_CPU" | OP_ENTER => "OP_ENTER"
  | OP_EXIT => "OP_EXIT" | BARRIER => "BARRIER" | PUBLISH => "PUBLISH"
  | FUNCTIONAL_EMULATION => "FUNCTIONAL_EMULATION" | WAIT => "WAIT" | EXCLUDED => "EXCLUDED"
  end.
Definition all_kinds : list Kind :=
  [CPU; NPU; APPLICATION_CPU; OP_ENTER; OP_EXIT; BARRIER; PUBLISH; FUNCTIONAL_EMULATION; WAIT; EXCLUDED].
Definition parse_kind (s : string) : res Kind :=
  match List.find (fun k => String.eqb (kind_value k) s) all_kinds with
  | Some k => Ok k
  | None => Err (ValueError ("'" +:+ s +:+ "' is not a valid Kind"))
  end.

Definition milestone_value (m : Milestone) : string :=
  match m with ACCEPTED => "ACCEPTED" | RESULT_READY => "RESULT_READY" | RESOURCE_READY => "RESOURCE_READY" end.
Definition all_milestones : list Milestone := [ACCEPTED; RESULT_READY; RESOURCE_READY].
Definition parse_milestone (s : string) : res Milestone :=
  match List.find (fun m => String.eqb (milestone_value m) s) all_milestones with
  | Some m => Ok m
  | None => Err (ValueError ("'" +:+ s +:+ "' is not a valid Milestone"))
  end.

Record Dependency := { node : string; milestone : Milestone }.
#[export] Instance Dependency_eq_dec : EqDecision Dependency.
Proof. solve_decision. Defined.

Record Node := {
  identity : string;
  kind : Kind;
  operation : string;
  phase : string;
  order : Z;
  dependencies : list Dependency;
  service : option string;
  resources : list string;
}.
#[export] Instance Node_eq_dec : EqDecision Node.
Proof. solve_decision. Defined.

Record ExecutionIR := {
  nodes : list Node;
  scope : string;
  source_sha256 : string;
}.

Definition is_service_kind (k : Kind) : bool :=
  match k with CPU | APPLICATION_CPU | NPU => true | _ => false end.

Definition has_service (n : Node) : bool := match service n with Some _ => true | None => false end.
Definition has_resources (n : Node) : bool := match resources n with [] => false | _ => true end.
Definition is_npu (k : Kind) : bool := match k with NPU => true | _ => false end.

(** The checks on one node, given the identities of the graph. *)
Definition check_node (identities : list string) (n : Node) : res unit :=
  ensure (0 <=? order n) "negative submission order" ;;;
  ensure (distinct String.eqb (resources n)) "duplicate resource" ;;;
  ensure (distinct (fun x y => bool_decide (x = y)) (dependencies n)) "duplicate dependency" ;;;
  ensure (forallb (fun edge => str_in (node edge) identities) (dependencies n)) "unresolved dependency" ;;;
  ensure (Bool.eqb (is_service_kind (kind n)) (has_service n)) "service ownership mismatch" ;;;
  ensure (Bool.eqb (is_service_kind (kind n)) (has_resources n)) "service/resource ownership mismatch" ;;;
  ensure (negb (is_npu (kind n)) || str_in "npu:0" (resources n)) "all NPU work must share npu:0".

(** The predecessors that [TopologicalSorter] is given for a node. *)
Definition predecessors (n : Node) : list string := map node (dependencies n).
Definition unblocked : list string → Node → bool := Topology.unblocked String.eqb predecessors.
Definition acyclic (l : list Node) : bool := Topology.acyclic String.eqb identity predecessors l.

(** [ExecutionIR(nodes, scope, source_sha256)] with its [__post_init__]. *)
Definition execution_ir (l : list Node) (scope source_sha256 : string) : res ExecutionIR :=
  ensure (str_in scope ["SYNTHETIC"; "BOUND_DATASET"]) "unknown IR scope" ;;;
  ensure (match l with [] => false | _ => true end) "empty execution graph" ;;;
  ensure (distinct String.eqb (map identity l)) "duplicate node identity" ;;;
  iter_res (check_node (map identity l)) l ;;;
  ensure (acyclic l) "cyclic execution graph" ;;;
  Ok {| nodes := l; scope := scope; source_sha256 := source_sha256 |}.

Definition service_id (n : Node) : res string :=
  match service n with
  | Some s => Ok s
  | None => Err (ExecutionError "service identity required")
  end.

(** ** The record form *)

Definition parse_dependency (raw : json) : res Dependency :=
  let* edge := object_value raw in
  fields edge ["node_id"; "milestone"] ;;;
  let* node := text edge "node_id" in
  let* name := text edge "milestone" in
  let* milestone := parse_milestone name in
  Ok {| node := node; milestone := milestone |}.

(** [text({'resource': raw}, 'resource')] *)
Definition resource_value (raw : json) : res string := text [("resource", raw)] "resource".

Definition parse_node (value : json) : res Node :=
  let* r := object_value value in
  fields r ["node_id"; "kind"; "operation_id"; "phase"; "order"; "dependencies"; "service_id"; "resources"] ;;;
  let* dependencies_value := item r "dependencies" in
  let* raw_dependencies := array dependencies_value in
  let* edges := map_res parse_dependency raw_dependencies in
  let* resources_value := item r "resources" in
  let* raw_resources := array resources_value in
  let* resources := map_res resource_value raw_resources in
  let* service_value := item r "service_id" in
  let* service := (if is_null service_value then Ok None else let* s := text r "service_id" in Ok (Some s)) in
  let* identity := text r "node_id" in
  let* kind_name := text r "kind" in
  let* kind := parse_kind kind_name in
  let* operation := text r "operation_id" in
  let* phase := text r "phase" in
  let* order := integer r "order" in
  Ok {| identity := identity; kind := kind; operation := operation; phase := phase; order := order;
        dependencies := edges; service := service; resources := resources |}.

Definition parse_ir (document : record) : res ExecutionIR :=
  fields document ["schema"; "version"; "scope"; "source_sha256"; "nodes"] ;;;
  let* schema := item document "schema" in
  require_m (Ok (eq_str schema "im2p-execution-ir") andM (let* v := integer document "version" in Ok (v =? 1)))
    (ExecutionError "unsupported execution IR schema/version") ;;;
  let* nodes_value := item document "nodes" in
  let* raw_nodes := array nodes_value in
  let* nodes := map_res parse_node raw_nodes in
  let* scope := text document "scope" in
  let* source := text document "source_sha256" in
  execution_ir nodes scope source.

Definition dependency_record (d : Dependency) : record :=
  [("node_id", JStr (node d)); ("milestone", JStr (milestone_value (milestone d)))].

Definition node_record (n : Node) : record :=
  [("node_id", JStr (identity n)); ("kind", JStr (kind_value (kind n))); ("operation_id", JStr (operation n));
   ("phase", JStr (phase n)); ("order", JInt (order n));
   ("service_id", match service n with Some s => JStr s | None => JNull end);
   ("resources", JArr (map JStr (resources n)));
   ("dependencies", JArr (map (fun d => JObj (dependency_record d)) (dependencies n)))].

Definition ir_record (ir : ExecutionIR) : record :=
  [("schema", JStr "im2p-execution-ir"); ("version", JInt 1); ("scope", JStr (scope ir));
   ("source_sha256", JStr (source_sha256 ir));
   ("nodes", JArr (map (fun n => JObj (node_record n)) (nodes ir)))].

(** ** Topological order *)

(** The nodes are listed after the nodes they depend on. *)
Abbreviation topological := (Topology.topological String.eqb identity predecessors).

Lemma unblocked_spec seen n :
  unblocked seen n = true ↔ ∀ d, d ∈ dependencies n → node d ∈ seen.
Proof.
  unfold unblocked, predecessors. rewrite (unblocked_deps _ _ String.eqb_eq).
  setoid_rewrite list_elem_of_In. setoid_rewrite in_map_iff. naive_solver.
Qed.

Lemma unblocked_grows seen seen' n :
  (∀ x, x ∈ seen → x ∈ seen') → unblocked seen n = true → unblocked seen' n = true.
Proof. apply unblocked_mono, String.eqb_eq. Qed.

(** The constructor's acyclicity test accepts a set of nodes exactly when
    the nodes can be listed so that every dependency of a node names an
    earlier one. *)
Theorem acyclic_topological l :
  acyclic l = true ↔ ∃ l', l' ≡ₚ l ∧ topological [] l'.
Proof. apply (acyclic_ordered _ _ _ String.eqb_eq). Qed.

(** ** Well-formed graphs *)

Record wf_node (identities : list string) (n : Node) : Prop := {
  wn_order : 0 <= order n;
  wn_resources : NoDup (resources n);
  wn_dependencies : NoDup (dependencies n);
  wn_resolved : ∀ d, d ∈ dependencies n → node d ∈ identities;
  wn_service : is_Some (service n) ↔ is_service_kind (kind n) = true;
  wn_owned : resources n ≠ [] ↔ is_service_kind (kind n) = true;
  wn_npu : kind n = NPU → "npu:0" ∈ resources n;
}.

Record wf_ir (l : list Node) : Prop := {
  wi_nonempty : l ≠ [];
  wi_identities : NoDup (map identity l);
  wi_nodes : Forall (wf_node (map identity l)) l;
  wi_order : ∃ l', l' ≡ₚ l ∧ topological [] l';
}.

Lemma distinct_dependency l :
  distinct (fun x y : Dependency => bool_decide (x = y)) l = true ↔ NoDup l.
Proof. apply distinct_NoDup. intros x y. apply bool_decide_eq_true. Qed.

Lemma node_owns n : has_service n = true ↔ is_Some (service n).
Proof. unfold has_service. destruct (service n); naive_solver. Qed.
Lemma node_reserves n : has_resources n = true ↔ resources n ≠ [].
Proof. unfold has_resources. destruct (resources n); naive_solver. Qed.
Lemma edges_resolved ids n :
  forallb (fun edge => str_in (node edge) ids) (dependencies n) = true ↔ ∀ d, d ∈ dependencies n → node d ∈ ids.
Proof.
  rewrite forallb_forall. setoid_rewrite str_in_spec. by setoid_rewrite list_elem_of_In.
Qed.
Lemma eqb_iff (a b : bool) : Bool.eqb a b = true ↔ (b = true ↔ a = true).
Proof. destruct a, b; naive_solver. Qed.
Lemma npu_shared n : negb (is_npu (kind n)) || str_in "npu:0" (resources n) = true ↔ (kind n = NPU → "npu:0" ∈ resources n).
Proof. rewrite <-str_in_spec. destruct (kind n); cbn; try naive_solver. Qed.

Lemma check_node_Ok ids n u : check_node ids n = Ok u ↔ wf_node ids n.
Proof.
  unfold check_node, ensure.
  rewrite !check_bind, check_Ok_any, Z.leb_le, distinct_str, distinct_dependency, edges_resolved, !eqb_iff,
    node_owns, node_reserves, npu_shared.
  split; [intros (? & ? & ? & ? & ? & ? & ?); by constructor | by intros []].
Qed.

Lemma execution_ir_Ok l sc src ir :
  execution_ir l sc src = Ok ir ↔
  (sc = "SYNTHETIC" ∨ sc = "BOUND_DATASET") ∧ wf_ir l ∧ ir = {| nodes := l; scope := sc; source_sha256 := src |}.
Proof.
  unfold execution_ir, ensure.
  rewrite !check_bind, iter_bind, check_bind, str_in_spec, distinct_str, acyclic_topological.
  assert (Hf : Forall (fun n => check_node (map identity l) n = Ok tt) l ↔ Forall (wf_node (map identity l)) l).
  { rewrite !Forall_forall. by setoid_rewrite check_node_Ok. }
  rewrite Hf. split.
  - intros (Hs & Hn & Hd & Hw & Ht & [= <-]). split; [set_solver|]. split; [|done].
    constructor; try done. by intros ->.
  - intros (Hs & [Hn Hd Hw Ht] & ->). split_and!; [set_solver|by destruct l|done..].
Qed.

(** The constructor of [ExecutionIR] accepts exactly the well-formed
    graphs of a known scope: nonempty, unique identities, nonnegative order,
    no repeated resource or dependency, every dependency resolved, services
    and resources exactly on the service kinds, [npu:0] held by every NPU
    node, and a topological order exists.  An accepted graph carries the
    arguments unchanged. *)
Theorem execution_ir_accepts l sc src :
  (∃ ir, execution_ir l sc src = Ok ir) ↔ (sc = "SYNTHETIC" ∨ sc = "BOUND_DATASET") ∧ wf_ir l.
Proof.
  setoid_rewrite execution_ir_Ok. naive_solver.
Qed.

(** ** Round trip of the record form *)

Lemma parse_kind_value k : parse_kind (kind_value k) = Ok k.
Proof. by destruct k. Qed.
Lemma parse_milestone_value m : parse_milestone (milestone_value m) = Ok m.
Proof. by destruct m. Qed.

Lemma kind_value_nonempty k : kind_value k ≠ "".
Proof. by destruct k. Qed.
Lemma milestone_value_nonempty m : milestone_value m ≠ "".
Proof. by destruct m. Qed.

Lemma text_value r key s : pget r key = JStr s → s ≠ "" → text r key = Ok s.
Proof. intros H1 H2. by apply text_Ok. Qed.

Lemma fields_Ok r expected u : fields r expected = Ok u ↔ keys_are r expected = true.
Proof. unfold fields, require. apply check_Ok_any. Qed.

Lemma map_res_roundtrip {A B} (f : A → res B) (g : B → A) l k :
  map_res f l = Ok k → (∀ x y, f x = Ok y → f (g y) = Ok y) → map_res f (map g k) = Ok k.
Proof.
  intros H Hfg. apply map_res_Ok in H. apply map_res_Ok. induction H; cbn; constructor; eauto.
Qed.

Lemma parse_dependency_roundtrip raw d :
  parse_dependency raw = Ok d → parse_dependency (JObj (dependency_record d)) = Ok d.
Proof.
  unfold parse_dependency. intros H. res_inv.
  repeat match goal with H : text _ _ = Ok _ |- _ => apply text_Ok in H as [? ?] end.
  unfold dependency_record. cbn [node milestone object_value mbind res_bind].
  rewrite (proj2 (fields_Ok _ _ tt)) by done. cbn [mbind res_bind].
  repeat (erewrite text_value; [|reflexivity|first [done|apply milestone_value_nonempty]]; cbn [mbind res_bind]).
  by rewrite parse_milestone_value.
Qed.

Lemma resource_value_roundtrip raw s : resource_value raw = Ok s → resource_value (JStr s) = Ok s.
Proof. unfold resource_value. rewrite !text_Ok. cbn. naive_solver. Qed.

Lemma parse_node_roundtrip value n :
  parse_node value = Ok n → parse_node (JObj (node_record n)) = Ok n.
Proof.
  intros H. unfold parse_node in H.
  apply bind_Ok in H as (r & _ & H). apply bind_Ok in H as ([] & _ & H).
  apply bind_Ok in H as (? & _ & H). apply bind_Ok in H as (? & _ & H). apply bind_Ok in H as (edges & He & H).
  apply bind_Ok in H as (? & _ & H). apply bind_Ok in H as (? & _ & H). apply bind_Ok in H as (rs & Hr & H).
  apply bind_Ok in H as (sv & _ & H). apply bind_Ok in H as (s & Hs & H).
  apply bind_Ok in H as (id & Hid & H). apply bind_Ok in H as (kn & _ & H). apply bind_Ok in H as (k & _ & H).
  apply bind_Ok in H as (op & Hop & H). apply bind_Ok in H as (ph & Hph & H). apply bind_Ok in H as (o & Ho & [= <-]).
  apply text_Ok in Hid as [_ Hid], Hop as [_ Hop], Hph as [_ Hph]. apply integer_bounds in Ho.
  assert (Hs' : ∀ t, s = Some t → t ≠ "").
  { intros t ->. destruct (is_null sv); [done|]. by apply bind_Ok in Hs as (u & [_ ?]%text_Ok & [= ->]). }
  unfold parse_node, node_record. cbn [identity kind operation phase order dependencies service resources object_value mbind res_bind].
  rewrite (proj2 (fields_Ok _ _ tt)) by done.
  cbn [mbind res_bind item sget aget String.eqb Ascii.eqb Bool.eqb array].
  rewrite (map_res_roundtrip _ (fun d => JObj (dependency_record d)) _ _ He parse_dependency_roundtrip).
  cbn [mbind res_bind].
  rewrite (map_res_roundtrip _ JStr _ _ Hr resource_value_roundtrip). cbn [mbind res_bind].
  destruct s as [t|]; cbn [is_null mbind res_bind].
  all: repeat (erewrite text_value; [|reflexivity|first [done|by apply Hs'|apply kind_value_nonempty]]; cbn [mbind res_bind]);
    rewrite parse_kind_value; cbn [mbind res_bind];
    repeat (erewrite text_value; [|reflexivity|done]; cbn [mbind res_bind]);
    by rewrite (proj2 (integer_Ok _ _ o)).
Qed.

(** C39: Writing a parsed graph back and parsing it again gives the same
    graph: [parse_ir] inverts [ir_record] on everything it produced. *)
Theorem ir_roundtrip document ir : parse_ir document = Ok ir → parse_ir (ir_record ir) = Ok ir.
Proof.
  intros H. unfold parse_ir in H.
  apply bind_Ok in H as ([] & _ & H). apply bind_Ok in H as (? & _ & H). apply bind_Ok in H as ([] & _ & H).
  apply bind_Ok in H as (? & _ & H). apply bind_Ok in H as (? & _ & H). apply bind_Ok in H as (l & Hl & H).
  apply bind_Ok in H as (sc & Hsc & H). apply bind_Ok in H as (src & Hsrc & H).
  apply text_Ok in Hsc as [_ Hsc], Hsrc as [_ Hsrc].
  pose proof H as (_ & _ & Hir)%execution_ir_Ok.
  unfold parse_ir, ir_record. rewrite Hir. cbn [nodes scope source_sha256].
  rewrite (proj2 (fields_Ok _ _ tt)) by done.
  cbn [mbind res_bind item sget aget String.eqb Ascii.eqb Bool.eqb array].
  rewrite (proj2 (require_m_Ok _ _ tt)) by done. cbn [mbind res_bind].
  rewrite (map_res_roundtrip _ (fun n => JObj (node_record n)) _ _ Hl parse_node_roundtrip). cbn [mbind res_bind].
  repeat (erewrite text_value; [|reflexivity|done]; cbn [mbind res_bind]).
  by rewrite H, Hir.
Qed.

Definition sample_ir : record :=
  [("schema", JStr "im2p-execution-ir"); ("version", JInt 1); ("scope", JStr "SYNTHETIC");
   ("source_sha256", JStr "s");
   ("nodes", JArr [
     JObj [("node_id", JStr "b"); ("kind", JStr "NPU"); ("operation_id", JStr "o"); ("phase", JStr "p");
           ("order", JInt 0); ("service_id", JStr "w"); ("resources", JArr [JStr "npu:0"]);
           ("dependencies", JArr [JObj [("milestone", JStr "ACCEPTED"); ("node_id", JStr "a")]])];
     JObj [("dependencies", JArr []); ("node_id", JStr "a"); ("kind", JStr "OP_ENTER"); ("operation_id", JStr "o");
           ("phase", JStr "p"); ("order", JInt 7); ("service_id", JNull); ("resources", JArr [])]])].

Lemma ir_roundtrip_witness :
  ∃ ir, parse_ir sample_ir = Ok ir ∧ parse_ir (ir_record ir) = Ok ir ∧ length (nodes ir) = 2%nat.
Proof.
  destruct (parse_ir sample_ir) as [ir|] eqn:E; [|vm_compute in E; discriminate E].
  exists ir. split; [reflexivity|]. split; [exact (ir_roundtrip _ _ E)|].
  vm_compute in E. injection E as <-. reflexivity.
Defined.
