(* ===== verification/Services.v ===== *)
(** * Execution services

    [sim/cycle/execution_services.py]: the CPU gang vectors and NPU works an
    execution graph refers to, the provider of NPU service times, and the
    record form of the services. *)
From S2P Require Import Prelude Records Rational ExecutionIR.
Set Default Goal Selector "!".

Record WorkerService := {
  resource : string;
  duration_ns : Qc;
  worker_id : option Z;
  source : string;
  unit_ : string;
  quantity : Z;
  frequency_hz : option Z;
  measurement : record;
  resource_identity : option string;
}.

Record CpuService := {
  cpu_source : string;
  policy : string;
  workers : list WorkerService;
}.

Record NpuWork := {
  work_identity : string;
  request_sha256 : string;
  profile : string;
}.

Record NpuService := {
  result_ready_cycles : Z;
  resource_ready_cycles : Z;
  evidence_id : string;
}.

Definition CPU_SOURCES : list string := ["FULL_CPU"; "POTAL_COLLECTION"; "APPLICATION_CPU"].

(** The two constructors with their [__post_init__] checks. *)
Definition cpu_service_of (source policy : string) (workers : list WorkerService) : res CpuService :=
  ensure (str_in source CPU_SOURCES) "unknown CPU source" ;;;
  ensure (match workers with [] => false | _ => true end) "empty worker vector" ;;;
  ensure (distinct String.eqb (map resource workers)) "duplicate worker resource" ;;;
  ensure (forallb (fun sample => qleb (qz 0) (duration_ns sample)) workers) "negative CPU service" ;;;
  Ok {| cpu_source := source; policy := policy; workers := workers |}.

Definition npu_service_of (result_ready resource_ready : Z) (evidence : string) : res NpuService :=
  ensure ((0 <? result_ready) && (result_ready <=? resource_ready)) "invalid result/resource boundary" ;;;
  ensure (negb (String.eqb evidence "")) "missing NPU timing evidence identity" ;;;
  Ok {| result_ready_cycles := result_ready; resource_ready_cycles := resource_ready; evidence_id := evidence |}.

(** The protocol of stateless NPU providers: service times of a work accepted
    at a cycle.  A value of [NpuService] has passed its constructor. *)
Class NpuProvider := {
  provider_scope : string;
  estimate : NpuWork → Z → res NpuService;
  estimate_valid : ∀ w cycle s, estimate w cycle = Ok s →
    0 < result_ready_cycles s ∧ result_ready_cycles s <= resource_ready_cycles s ∧ evidence_id s ≠ "";
}.

(** [PhaseTable]: samples by profile, request and acceptance phase. *)
Record PhaseTable := {
  period : Z;
  samples : list (string * string * Z * NpuService);
}.

Definition phase_sample (t : PhaseTable) (profile request : string) (phase : Z) : option NpuService :=
  match List.find (fun '(p, r, c, _) => String.eqb p profile && String.eqb r request && (c =? phase)) (samples t) with
  | Some (_, _, _, s) => Some s
  | None => None
  end.

Definition phase_estimate (t : PhaseTable) (w : NpuWork) (accepted_cycle : Z) : res NpuService :=
  ensure (0 <? period t) "invalid acceptance-phase period" ;;;
  match phase_sample t (profile w) (request_sha256 w) (accepted_cycle mod period t) with
  | Some s => Ok s
  | None => Err (ExecutionError "missing exact work/acceptance-phase service boundary")
  end.

Record Services := {
  cpu : list (string * CpuService);
  npu : list (string * NpuWork);
}.

Section Parsing.
Context `{Host}.

Definition not_none (r : record) (key : string) : bool := negb (is_null (pget r key)).

Definition cpu_resource_keys (sample : record) (source : string) : res (list string) :=
  ensure (str_in source CPU_SOURCES) "unknown CPU source identity" ;;;
  if String.eqb source "FULL_CPU" then
    let* worker := integer sample "worker_id" in Ok ["FULL_CPU:" +:+ dec worker]
  else
    let* by_worker :=
      (if not_none sample "worker_id" then
         let* worker := integer sample "worker_id" in Ok [source +:+ ":" +:+ dec worker]
       else Ok []) in
    let* by_thread :=
      (if not_none sample "host_execution_id" || not_none sample "thread_id" then
         let* host := text sample "host_execution_id" in
         let* thread := integer sample "thread_id" in
         Ok [json_dumps (JArr [JStr source; JStr "host_thread"; JStr host; JInt thread])]
       else Ok []) in
    let keys := by_worker ++ by_thread in
    ensure (match keys with [] => false | _ => true end) "missing source-local CPU identity" ;;;
    Ok keys.

Definition bind_cpu_resource (sample : record) (source : string) (mapping : record) : res record :=
  let* keys := cpu_resource_keys sample source in
  let selected := filter (fun key => has mapping key = true) keys in
  ensure (match selected with [] => false | _ => true end)
    ("missing explicit CPU resource mapping: " +:+ join "," keys) ;;;
  match selected with
  | [identity] =>
      let* resource := text mapping identity in
      Ok (merge_records sample [("resource", JStr resource); ("resource_identity", JStr identity)])
  | _ => Err (ExecutionError ("ambiguous explicit CPU resource mapping: " +:+ join "," selected))
  end.

(** The metric, its validity flag and its unit for each policy. *)
Definition policy_metric (policy : string) : option (string * string * string) :=
  sget policy [("THREAD_CPU_NS_GANG", ("thread_cpu_ns", "thread_cpu_valid", "nanosecond"));
               ("HOST_ELAPSED_NS_GANG", ("host_elapsed_ns", "host_elapsed_valid", "nanosecond"));
               ("CPU_WORK_CYCLES_GANG", ("cpu_work_cycles", "cpu_work_cycles_valid", "cycle"))].

Definition clock_source (policy : string) (sample : record) : json :=
  default JNull (sget policy [("THREAD_CPU_NS_GANG", JStr "thread_cpu_clock");
    ("HOST_ELAPSED_NS_GANG", JStr "steady_clock");
    ("CPU_WORK_CYCLES_GANG", pget sample "cpu_work_cycles_source")]).

Definition CLOCKS : list string := ["thread_cpu_clock"; "steady_clock"; "riscv_cycle"; "linux_perf_cpu_cycles"].

Definition worker_service (source policy : string) (metric : string * string * string) (raw : json)
    : res WorkerService :=
  let '(metric, validity, unit) := metric in
  let* sample := object_value raw in
  ensure (is_true (pget sample validity)) "selected CPU metric invalid; substitution forbidden" ;;;
  let* quantity := integer sample metric in
  let* frequency :=
    (if String.eqb unit "cycle" then
       ensure (eq_str (pget sample "cpu_work_cycles_unit") "cycle") "invalid CPU cycle unit" ;;;
       let* f := integer sample "cpu_frequency_hz" in
       ensure (0 <? f) "CPU cycle conversion requires explicit validated frequency" ;;;
       Ok f
     else Ok 1000000000) in
  let clock := clock_source policy sample in
  ensure (in_strs clock CLOCKS) "unknown selected CPU timing source" ;;;
  let* worker := (if not_none sample "worker_id" then
    let* w := integer sample "worker_id" in Ok (Some w) else Ok None) in
  let* identity := (if not_none sample "resource_identity" then
    let* i := text sample "resource_identity" in Ok (Some i) else Ok None) in
  match identity with
  | Some i =>
      let* keys := cpu_resource_keys sample source in
      ensure (str_in i keys) "CPU source identity binding mismatch"
  | None => Ok tt
  end ;;;
  ensure (match worker with Some _ => true | None => false end ||
          negb (String.eqb source "FULL_CPU") && match identity with Some _ => true | None => false end)
    "host-thread service requires explicit source identity; ggml worker index unavailable" ;;;
  let* resource := text sample "resource" in
  let* duration := fraction (quantity * 1000000000) frequency in
  Ok {| resource := resource; duration_ns := duration; worker_id := worker; source := py_str clock;
        unit_ := unit; quantity := quantity;
        frequency_hz := if String.eqb unit "cycle" then Some frequency else None;
        measurement := sample; resource_identity := identity |}.

Definition cpu_service (r : record) : res CpuService :=
  fields r ["source"; "policy"; "workers"] ;;;
  let* source := text r "source" in
  let* policy := text r "policy" in
  match policy_metric policy with
  | None => Err (ExecutionError "unknown CPU service policy")
  | Some metric =>
      let* workers_value := item r "workers" in
      let* raw := array workers_value in
      let* workers := map_res (worker_service source policy metric) raw in
      cpu_service_of source policy workers
  end.

Definition npu_work (entry : string * json) : res (string * NpuWork) :=
  let* row := object_value entry.2 in
  fields row ["request_sha256"; "profile"] ;;;
  let* request := text row "request_sha256" in
  let* profile := text row "profile" in
  Ok (entry.1, {| work_identity := entry.1; request_sha256 := request; profile := profile |}).

Definition cpu_entry (entry : string * json) : res (string * CpuService) :=
  let* r := object_value entry.2 in
  let* service := cpu_service r in
  Ok (entry.1, service).

Definition parse_services (document : record) : res Services :=
  fields document ["schema"; "version"; "cpu"; "npu"] ;;;
  let* schema := item document "schema" in
  require_m (Ok (eq_str schema "im2p-execution-services") andM (let* v := integer document "version" in Ok (v =? 1)))
    (ExecutionError "unsupported service schema/version") ;;;
  let* cpu_value := item document "cpu" in
  let* cpu_entries := object_value cpu_value in
  let* cpu := map_res cpu_entry cpu_entries in
  let* npu_value := item document "npu" in
  let* npu_entries := object_value npu_value in
  let* npu := map_res npu_work npu_entries in
  ensure (forallb (fun key => negb (str_in key npu.*1)) cpu.*1) "ambiguous service identity" ;;;
  Ok {| cpu := cpu; npu := npu |}.

(** ** The record form *)

Definition option_int (o : option Z) : json := match o with Some z => JInt z | None => JNull end.

(** [row.setdefault(key, value)] *)
Definition set_default (key : string) (value : json) (row : record) : record :=
  if has row key then row else sset key value row.

Definition worker_row (metric validity : string) (sample : WorkerService) : res record :=
  let row := merge_records (measurement sample)
    [("resource", JStr (resource sample)); (metric, JInt (quantity sample)); (validity, JBool true)] in
  let row := if match worker_id sample with Some _ => true | None => false end || has (measurement sample) "worker_id"
    then sset "worker_id" (option_int (worker_id sample)) row else row in
  let row := match resource_identity sample with
    | Some i => sset "resource_identity" (JStr i) row | None => row end in
  let row := set_default "source" (JStr (source sample)) row in
  if String.eqb (unit_ sample) "cycle" then
    match frequency_hz sample with
    | None => Err (ExecutionError "CPU clock provenance required")
    | Some f => Ok (merge_records row [("cpu_work_cycles_unit", JStr "cycle");
        ("cpu_work_cycles_source", JStr (source sample)); ("cpu_frequency_hz", JInt f)])
    end
  else Ok row.

Definition cpu_record (entry : string * CpuService) : res (string * json) :=
  let '(identity, service) := entry in
  match policy_metric (policy service) with
  | None => Err (KeyError (policy service))
  | Some (metric, validity, _) =>
      let* rows := map_res (worker_row metric validity) (workers service) in
      Ok (identity, JObj [("source", JStr (cpu_source service)); ("policy", JStr (policy service));
                          ("workers", JArr (map JObj rows))])
  end.

Definition services_record (s : Services) : res record :=
  let* cpu_rows := map_res cpu_record (cpu s) in
  Ok [("schema", JStr "im2p-execution-services"); ("version", JInt 1); ("cpu", JObj cpu_rows);
      ("npu", JObj (map (fun '(identity, work) =>
        (identity, JObj [("profile", JStr (profile work)); ("request_sha256", JStr (request_sha256 work))]))
        (npu s)))].
End Parsing.

(** ** Round trip of the record form *)

(** Everything a service is used for; [measurement] is carried along only. *)
Definition timing (w : WorkerService) :=
  (resource w, duration_ns w, worker_id w, source w, unit_ w, quantity w, frequency_hz w, resource_identity w).
Definition service_timing (s : Services) :=
  (map (fun e => (e.1, cpu_source e.2, policy e.2, map timing (workers e.2))) (cpu s), npu s).

Lemma pget_set_default k v r k' : String.eqb k' k = false → pget (set_default k v r) k' = pget r k'.
Proof. intros E. unfold set_default. destruct (has r k); [done|]. by rewrite pget_sset, E. Qed.

Lemma integer_pget r r' k : pget r k = pget r' k → integer r k = integer r' k.
Proof. unfold integer. by intros ->. Qed.
Lemma text_pget r r' k : pget r k = pget r' k → text r k = text r' k.
Proof. unfold text. by intros ->. Qed.

Section RoundTrip.
Context `{Host}.

Lemma cpu_resource_keys_pget r r' src :
  pget r "worker_id" = pget r' "worker_id" → pget r "host_execution_id" = pget r' "host_execution_id" →
  pget r "thread_id" = pget r' "thread_id" → cpu_resource_keys r src = cpu_resource_keys r' src.
Proof.
  intros E1 E2 E3. unfold cpu_resource_keys, not_none. rewrite E1, E2, E3.
  by rewrite (integer_pget r r' "worker_id"), (integer_pget r r' "thread_id"), (text_pget r r' "host_execution_id").
Qed.

Definition option_str (o : option string) : json := match o with Some s => JStr s | None => JNull end.

(** What an accepted worker sample looks like. *)
Record sample_ok (src pol m v u : string) (sample : record) (q f : Z) (wk : option Z) (id : option string)
    (rs ck : string) : Prop := {
  so_valid : pget sample v = JBool true;
  so_quantity : integer sample m = Ok q;
  so_frequency : if String.eqb u "cycle"
    then pget sample "cpu_work_cycles_unit" = JStr "cycle" ∧ integer sample "cpu_frequency_hz" = Ok f ∧ 0 < f
    else f = 1000000000;
  so_clock : clock_source pol sample = JStr ck ∧ ck ∈ CLOCKS;
  so_worker : pget sample "worker_id" = option_int wk ∧ ∀ z, wk = Some z → 0 <= z < uint64_limit;
  so_identity : pget sample "resource_identity" = option_str id ∧ id ≠ Some "";
  so_keys : ∀ i, id = Some i → ∃ keys, cpu_resource_keys sample src = Ok keys ∧ i ∈ keys;
  so_bound : wk ≠ None ∨ (src ≠ "FULL_CPU" ∧ id ≠ None);
  so_resource : text sample "resource" = Ok rs;
}.

Definition worker_of (sample : record) (u : string) (q f : Z) (d : Qc) (wk : option Z) (id : option string)
    (rs ck : string) : WorkerService := {|
  resource := rs; duration_ns := d; worker_id := wk; source := ck; unit_ := u; quantity := q;
  frequency_hz := if String.eqb u "cycle" then Some f else None; measurement := sample; resource_identity := id |}.

Lemma worker_service_inv src pol m v u raw w :
  worker_service src pol (m, v, u) raw = Ok w →
  ∃ sample q f d wk id rs ck, sample_ok src pol m v u sample q f wk id rs ck ∧
    fraction (q * 1000000000) f = Ok d ∧ w = worker_of sample u q f d wk id rs ck.
Proof.
  unfold worker_service, ensure. intros Hrun.
  apply bind_Ok in Hrun as (sample & _ & Hrun). apply bind_Ok in Hrun as ([] & Hv & Hrun). apply check_Ok, is_true_spec in Hv.
  apply bind_Ok in Hrun as (q & Hq & Hrun). apply bind_Ok in Hrun as (f & Hf & Hrun).
  apply bind_Ok in Hrun as ([] & Hc & Hrun). apply check_Ok, in_strs_spec in Hc as (ck & Hck & Hin).
  apply bind_Ok in Hrun as (wk & Hwk & Hrun). apply bind_Ok in Hrun as (id & Hid & Hrun).
  apply bind_Ok in Hrun as ([] & Hkeys & Hrun). apply bind_Ok in Hrun as ([] & Hb & Hrun). apply check_Ok in Hb.
  apply bind_Ok in Hrun as (rs & Hrs & Hrun). apply bind_Ok in Hrun as (d & Hd & [= <-]).
  exists sample, q, f, d, wk, id, rs, ck. split; [|by rewrite Hck].
  unfold not_none in *. constructor; try done.
  - destruct (String.eqb u "cycle"); [|by injection Hf].
    rewrite check_bind in Hf. destruct Hf as [?%eq_str_spec Hf]. apply bind_Ok in Hf as (f' & ? & Hf).
    rewrite check_bind in Hf. destruct Hf as [?%Z.ltb_lt [= <-]]. done.
  - destruct (is_null (pget sample "worker_id")) eqn:E; cbn in Hwk.
    + injection Hwk as <-. apply is_null_spec in E. by rewrite E.
    + apply bind_Ok in Hwk as (z & [Hz ?]%integer_Ok & [= <-]). rewrite Hz. split; [done|]. by intros ? [= <-].
  - destruct (is_null (pget sample "resource_identity")) eqn:E; cbn in Hid.
    + injection Hid as <-. apply is_null_spec in E. by rewrite E.
    + apply bind_Ok in Hid as (z & [Hz ?]%text_Ok & [= <-]). rewrite Hz. split; [done|]. congruence.
  - intros i ->. apply bind_Ok in Hkeys as (keys & ? & Hk). apply check_Ok, str_in_spec in Hk. eauto.
  - destruct wk; [by left|]. destruct id; [|by rewrite andb_false_r in Hb]. right. split; [|done].
    by intros ->.
Qed.

Lemma worker_service_intro src pol m v u sample q f d wk id rs ck :
  sample_ok src pol m v u sample q f wk id rs ck → fraction (q * 1000000000) f = Ok d →
  worker_service src pol (m, v, u) (JObj sample) = Ok (worker_of sample u q f d wk id rs ck).
Proof.
  intros [Hv Hq Hf [Hc Hin] [Hwk Hz] [Hid Hne] Hkeys Hb Hrs] Hd. unfold worker_service, ensure.
  cbn [object_value mbind res_bind]. rewrite Hv, Hq. cbn [is_true check mbind res_bind].
  assert ((if String.eqb u "cycle" then
    check (eq_str (pget sample "cpu_work_cycles_unit") "cycle") (ExecutionError "invalid CPU cycle unit");;;
    (let* f0 := integer sample "cpu_frequency_hz" in
     check (0 <? f0) (ExecutionError "CPU cycle conversion requires explicit validated frequency");;; Ok f0)
    else Ok 1000000000) = Ok f) as ->.
  { destruct (String.eqb u "cycle"); [|by subst]. destruct Hf as (-> & -> & Hf). cbn.
    by rewrite (proj2 (Z.ltb_lt _ _) Hf). }
  cbn [mbind res_bind]. rewrite Hc. rewrite (proj2 (in_strs_spec (JStr ck) CLOCKS)) by eauto.
  cbn [check mbind res_bind]. unfold not_none. rewrite Hwk, Hid.
  assert ((if negb (is_null (option_int wk)) then let* w := integer sample "worker_id" in Ok (Some w) else Ok None)
    = Ok wk) as ->.
  { destruct wk as [z|]; [|done]. cbn. rewrite (proj2 (integer_Ok _ _ z)); [done|]. split; [done|]. by apply Hz. }
  cbn [mbind res_bind].
  assert ((if negb (is_null (option_str id)) then let* i := text sample "resource_identity" in Ok (Some i) else Ok None)
    = Ok id) as ->.
  { destruct id as [i|]; [|done]. cbn. rewrite (proj2 (text_Ok _ _ i)); [done|]. split; [done|]. congruence. }
  cbn [mbind res_bind].
  assert (match id with Some i => let* keys := cpu_resource_keys sample src in
      check (str_in i keys) (ExecutionError "CPU source identity binding mismatch") | None => Ok tt end = Ok tt) as ->.
  { destruct id as [i|]; [|done]. destruct (Hkeys i eq_refl) as (keys & -> & Hi). cbn.
    by rewrite (proj2 (str_in_spec _ _) Hi). }
  cbn [mbind res_bind]. rewrite Hrs.
  assert (match wk with Some _ => true | None => false end ||
    negb (String.eqb src "FULL_CPU") && match id with Some _ => true | None => false end = true) as ->.
  { destruct wk, id; try done; cbn; destruct Hb as [?|[Hb ?]]; try done. rewrite andb_true_r.
    by apply negb_true_iff, String.eqb_neq. }
  cbn [check mbind res_bind]. rewrite Hd. done.
Qed.

(** Reading one field of a row under construction. *)
Lemma pget_if (b : bool) k v r k' :
  pget (if b then sset k v r else r) k' = if b && String.eqb k' k then v else pget r k'.
Proof. destruct b; [by rewrite pget_sset|done]. Qed.

Lemma pget_opt (o : option string) k r k' : String.eqb k' k = false →
  pget (match o with Some i => sset k (JStr i) r | None => r end) k' = pget r k'.
Proof. intros E. destruct o; [by rewrite pget_sset, E|done]. Qed.

Lemma absent_null r k : has r k = false → pget r k = JNull.
Proof. unfold has, amem, pget. by destruct (sget k r). Qed.

Ltac row_get := cbn [merge_records fold_left fst snd];
  repeat first [rewrite pget_sset | rewrite pget_set_default by reflexivity | rewrite pget_opt by reflexivity
    | rewrite pget_if]; cbn [String.eqb Ascii.eqb Bool.eqb]; rewrite ?andb_false_r, ?andb_true_r.

(** The row before the clock fields, with [worker_id] and [resource_identity]. *)
Lemma row_worker_id (sample row0 : record) (wk : option Z) :
  pget row0 "worker_id" = pget sample "worker_id" → pget sample "worker_id" = option_int wk →
  (if match wk with Some _ => true | None => false end || has sample "worker_id"
   then option_int wk else pget row0 "worker_id") = option_int wk.
Proof. intros -> ->. by case_match. Qed.

Lemma row_identity (o : option string) r :
  pget r "resource_identity" = option_str o →
  pget (match o with Some i => sset "resource_identity" (JStr i) r | None => r end) "resource_identity" = option_str o.
Proof. destruct o; [by rewrite pget_sset|done]. Qed.

(** The row written for a worker satisfies what was required of the sample. *)
Lemma worker_row_ok src pol m v u sample q f d wk id rs ck :
  policy_metric pol = Some (m, v, u) → sample_ok src pol m v u sample q f wk id rs ck →
  ∃ row, worker_row m v (worker_of sample u q f d wk id rs ck) = Ok row ∧
    sample_ok src pol m v u row q f wk id rs ck.
Proof.
  intros Hpol [Hv Hq Hf [Hc Hin] [Hwk Hz] [Hid Hne] Hkeys Hb Hrs].
  apply integer_Ok in Hq as [_ Hqb]. apply text_Ok in Hrs as [_ Hrsne].
  assert (Hcase : pol = "THREAD_CPU_NS_GANG" ∧ (m, v, u) = ("thread_cpu_ns", "thread_cpu_valid", "nanosecond") ∨
    pol = "HOST_ELAPSED_NS_GANG" ∧ (m, v, u) = ("host_elapsed_ns", "host_elapsed_valid", "nanosecond") ∨
    pol = "CPU_WORK_CYCLES_GANG" ∧ (m, v, u) = ("cpu_work_cycles", "cpu_work_cycles_valid", "cycle")).
  { unfold policy_metric in Hpol. cbn [sget aget] in Hpol.
    repeat (match type of Hpol with (if String.eqb ?a ?b then _ else _) = _ => destruct (String.eqb_spec a b) end;
      [injection Hpol as <- <- <-; tauto|]). done. }
  unfold worker_row, worker_of.
  cbn [measurement resource quantity worker_id resource_identity source unit_ frequency_hz].
  destruct Hcase as [(-> & [= -> -> ->])|[(-> & [= -> -> ->])|(-> & [= -> -> ->])]];
    cbn [String.eqb Ascii.eqb Bool.eqb] in Hf |- *; eexists; (split; [reflexivity|]).
  all: constructor; cbn [String.eqb Ascii.eqb Bool.eqb].
  all: try (by row_get); try done.
  all: try (apply integer_Ok; by row_get).
  all: try (apply text_Ok; by row_get).
  all: try (split; [|done]; row_get; by apply row_worker_id).
  all: try (intros i Ei; destruct (Hkeys i Ei) as (ks & Hks & Hi); exists ks; split; [|exact Hi]; rewrite <-Hks;
    apply cpu_resource_keys_pget; row_get; rewrite ?row_worker_id by (try done; by row_get); by rewrite ?Hwk).
  all: try (split; [|done]; cbn [merge_records fold_left fst snd];
    repeat first [rewrite pget_sset | rewrite pget_set_default by reflexivity]; cbn [String.eqb Ascii.eqb Bool.eqb];
    apply row_identity; by row_get).
  - destruct Hf as (_ & [_ Hfb]%integer_Ok & Hp). split; [by row_get|]. split; [|done]. apply integer_Ok. by row_get.
  - split; [|done]. unfold clock_source. cbn [sget aget String.eqb Ascii.eqb Bool.eqb from_option Datatypes.id]. by row_get.
Qed.

(** A worker vector written and parsed again keeps its timing. *)
Lemma workers_roundtrip src pol m v u raw ws :
  policy_metric pol = Some (m, v, u) → map_res (worker_service src pol (m, v, u)) raw = Ok ws →
  ∃ rows ws', map_res (worker_row m v) ws = Ok rows ∧
    map_res (worker_service src pol (m, v, u)) (map JObj rows) = Ok ws' ∧ map timing ws' = map timing ws.
Proof.
  intros Hpol. setoid_rewrite map_res_Ok. induction 1 as [|x w raw ws Hw _ (rows & ws' & H1 & H2 & H3)].
  - exists [], []. by repeat constructor.
  - apply worker_service_inv in Hw as (sample & q & f & d & wk & id & rs & ck & Hok & Hd & ->).
    destruct (worker_row_ok _ _ _ _ _ _ _ f d _ _ _ _ Hpol Hok) as (row & Hrow & Hok').
    pose proof (worker_service_intro _ _ _ _ _ _ _ _ _ _ _ _ _ Hok' Hd) as Hw'.
    exists (row :: rows), (worker_of row u q f d wk id rs ck :: ws').
    split_and!; [by constructor|by constructor|]. cbn. by rewrite H3.
Qed.

Lemma forallb_timing (p : string * Qc → bool) ws ws' :
  map timing ws' = map timing ws →
  forallb (fun w => p (resource w, duration_ns w)) ws' = forallb (fun w => p (resource w, duration_ns w)) ws.
Proof.
  revert ws'. induction ws as [|w ws IH]; intros [|w' ws']; try done. intros [= E1 E2 E3 E4 E5 E6 E7 E8 E].
  cbn. by rewrite (IH ws'), E1, E2.
Qed.

Lemma resources_timing ws ws' : map timing ws' = map timing ws → map resource ws' = map resource ws.
Proof.
  revert ws'. induction ws as [|w ws IH]; intros [|w' ws']; try done. intros [= E1 _ _ _ _ _ _ _ E].
  cbn. by rewrite (IH ws'), E1.
Qed.

Lemma cpu_service_roundtrip r c :
  cpu_service r = Ok c →
  ∃ row c', (∀ key, cpu_record (key, c) = Ok (key, JObj row)) ∧ cpu_service row = Ok c' ∧
    cpu_source c' = cpu_source c ∧ policy c' = policy c ∧ map timing (workers c') = map timing (workers c).
Proof.
  unfold cpu_service at 1. intros Hrun. apply bind_Ok in Hrun as ([] & _ & Hrun).
  apply bind_Ok in Hrun as (src & [_ Hsrc]%text_Ok & Hrun). apply bind_Ok in Hrun as (pol & [_ Hpol]%text_Ok & Hrun).
  destruct (policy_metric pol) as [[[m v] u]|] eqn:Hm; [|done].
  apply bind_Ok in Hrun as (? & _ & Hrun). apply bind_Ok in Hrun as (raw & _ & Hrun).
  apply bind_Ok in Hrun as (ws & Hws & Hrun).
  destruct (workers_roundtrip _ _ _ _ _ _ _ Hm Hws) as (rows & ws' & Hrows & Hws' & Htime).
  unfold cpu_service_of, ensure in Hrun. rewrite !check_bind in Hrun. destruct Hrun as (H1 & H2 & H3 & H4 & [= <-]).
  eexists. exists {| cpu_source := src; policy := pol; workers := ws' |}.
  cbn [cpu_source policy workers cpu_record]. rewrite Hm, Hrows. split_and!; [reflexivity| |done..].
  unfold cpu_service. rewrite (proj2 (fields_Ok _ _ tt)) by done. cbn [mbind res_bind].
  erewrite text_value; [|reflexivity|done]. cbn [mbind res_bind].
  erewrite text_value; [|reflexivity|done]. cbn [mbind res_bind]. rewrite Hm.
  cbn [item sget aget String.eqb Ascii.eqb Bool.eqb mbind res_bind array]. rewrite Hws'. cbn [mbind res_bind].
  unfold cpu_service_of, ensure. rewrite !check_bind. split_and!; [done| | | |done].
  - destruct ws; [done|]. by destruct ws'.
  - by rewrite (resources_timing _ _ Htime).
  - etransitivity; [exact (forallb_timing (fun p => qleb (qz 0) p.2) _ _ Htime)|exact H4].
Qed.

(** Services survive being written and read back: whatever
    [parse_services] accepted, [services_record] writes without raising,
    parsing that record succeeds, and every worker keeps its resource,
    duration, worker index, clock source, unit, quantity, frequency and
    resource identity, as do the NPU works. *)
Theorem services_roundtrip document s :
  parse_services document = Ok s →
  ∃ r s', services_record s = Ok r ∧ parse_services r = Ok s' ∧ service_timing s' = service_timing s.
Proof.
  unfold parse_services at 1. intros Hrun. apply bind_Ok in Hrun as ([] & _ & Hrun).
  apply bind_Ok in Hrun as (? & _ & Hrun). apply bind_Ok in Hrun as ([] & _ & Hrun).
  apply bind_Ok in Hrun as (? & _ & Hrun). apply bind_Ok in Hrun as (ce & _ & Hrun).
  apply bind_Ok in Hrun as (cs & Hcs & Hrun). apply bind_Ok in Hrun as (? & _ & Hrun).
  apply bind_Ok in Hrun as (ne & _ & Hrun). apply bind_Ok in Hrun as (ns & Hns & Hrun).
  unfold ensure in Hrun. rewrite check_bind in Hrun. destruct Hrun as [Hdis [= <-]].
  assert (Hcpu : ∃ rows cs', map_res cpu_record cs = Ok rows ∧ map_res cpu_entry rows = Ok cs' ∧ cs'.*1 = cs.*1 ∧
    map (fun e => (e.1, cpu_source e.2, policy e.2, map timing (workers e.2))) cs' =
    map (fun e => (e.1, cpu_source e.2, policy e.2, map timing (workers e.2))) cs).
  { clear -Hcs. setoid_rewrite map_res_Ok. apply map_res_Ok in Hcs.
    induction Hcs as [|x [k c] ce cs Hx _ (rows & cs' & H1 & H2 & H3 & H4)]; [exists [], []; by repeat constructor|].
    unfold cpu_entry in Hx. apply bind_Ok in Hx as (r & _ & Hx). apply bind_Ok in Hx as (c0 & Hc & [= <- <-]).
    destruct (cpu_service_roundtrip _ _ Hc) as (row & c' & Hrec & Hc' & E1 & E2 & E3).
    exists ((x.1, JObj row) :: rows), ((x.1, c') :: cs'). split_and!.
    - constructor; [apply Hrec|done].
    - constructor; [|done]. unfold cpu_entry. cbn [snd fst object_value mbind res_bind]. by rewrite Hc'.
    - cbn. by rewrite H3.
    - cbn. by rewrite H4, E1, E2, E3. }
  assert (Hnpu : map_res npu_work (map (fun '(identity, work) =>
      (identity, JObj [("profile", JStr (profile work)); ("request_sha256", JStr (request_sha256 work))])) ns) = Ok ns).
  { clear -Hns. apply map_res_Ok. apply map_res_Ok in Hns.
    induction Hns as [|x [k n] ne ns Hx _ IH]; cbn; constructor; [|exact IH].
    unfold npu_work in Hx. apply bind_Ok in Hx as (row & _ & Hx). apply bind_Ok in Hx as ([] & _ & Hx).
    apply bind_Ok in Hx as (q & [_ Hq]%text_Ok & Hx). apply bind_Ok in Hx as (p & [_ Hp]%text_Ok & [= <- <-]).
    unfold npu_work. cbn [snd fst object_value mbind res_bind profile request_sha256].
    rewrite (proj2 (fields_Ok _ _ tt)) by done. cbn [mbind res_bind].
    repeat (erewrite text_value; [|reflexivity|done]; cbn [mbind res_bind]). done. }
  destruct Hcpu as (rows & cs' & H1 & H2 & H3 & H4).
  eexists. exists {| cpu := cs'; npu := ns |}. unfold services_record. cbn [cpu npu]. rewrite H1.
  split; [reflexivity|]. split; [|unfold service_timing; cbn [cpu npu]; by rewrite H4].
  unfold parse_services. rewrite (proj2 (fields_Ok _ _ tt)) by done.
  cbn [mbind res_bind item sget aget String.eqb Ascii.eqb Bool.eqb].
  rewrite (proj2 (require_m_Ok _ _ tt)) by done. cbn [mbind res_bind object_value]. rewrite H2. cbn [mbind res_bind].
  rewrite Hnpu. cbn [mbind res_bind]. by rewrite H3, Hdis.
Qed.
End RoundTrip.

Definition sample_services : record :=
  [("schema", JStr "im2p-execution-services"); ("version", JInt 1);
   ("cpu", JObj [("c", JObj [("source", JStr "POTAL_COLLECTION"); ("policy", JStr "CPU_WORK_CYCLES_GANG");
     ("workers", JArr [JObj [("resource", JStr "cpu:0"); ("cpu_work_cycles", JInt 10); ("cpu_work_cycles_valid", JBool true);
        ("cpu_work_cycles_unit", JStr "cycle"); ("cpu_frequency_hz", JInt 2000000000);
        ("cpu_work_cycles_source", JStr "riscv_cycle"); ("worker_id", JNull); ("thread_id", JInt 4);
        ("host_execution_id", JStr "h"); ("resource_identity", JStr (dump (JArr [JStr "POTAL_COLLECTION"; JStr "host_thread"; JStr "h"; JInt 4])))]])])]);
   ("npu", JObj [("w", JObj [("profile", JStr "a8w8-d16-hp1"); ("request_sha256", JStr "r")])])].

Lemma services_roundtrip_witness :
  ∃ s r s', parse_services (H := text_host) sample_services = Ok s ∧ services_record s = Ok r ∧
    parse_services (H := text_host) r = Ok s' ∧ service_timing s' = service_timing s.
Proof.
  destruct (parse_services (H := text_host) sample_services) as [s|] eqn:E; [|vm_compute in E; discriminate E].
  destruct (services_roundtrip (H := text_host) _ _ E) as (r & s' & H1 & H2 & H3).
  exists s, r, s'. split_and!; [reflexivity|exact H1|exact H2|exact H3].
Defined.
