(* ===== verification/Domains.v ===== *)
(** * Certified state domains

    [sim/cycle/sequence_domain.py]: the limits of a certificate revision;
    [sim/cycle/stateful_domain.py]: the finite state description selected by a
    profile and a revision, with its checks on initial states and work
    classes. *)
From S2P Require Import Prelude Records Profiles TraceSchema.
Set Default Goal Selector "!".

(** ** [sequence_domain.py] *)

Definition LEGACY_REVISION : string := "GUARDED_TAG4_ROW_LT6_REVIEWED_V2".
Definition TAG5_REVISION : string := "GUARDED_A8D16_TAG5_ROW_LT6_REVIEWED_V3".
Definition TAG6_REVISION : string := "GUARDED_A8D16_TAG6_ROW_LT6_REVIEWED_V1".
Definition TAG5_PROFILE : string := "a8w8-d16-hp1".

Record DomainLimits := {
  max_tag_occupancy : Z;
  max_row_occupancy_exclusive : Z;
  ready_violation_mask : Z;
  tag_capacity : Z;
}.

(** [DomainLimits(tags, max_row_occupancy_exclusive=rows)]. *)
Definition domain_limits (tags rows : Z) : DomainLimits := {|
  max_tag_occupancy := tags; max_row_occupancy_exclusive := rows;
  ready_violation_mask := 0; tag_capacity := 6 |}.

(** [PROFILES] of the certificate contract. *)
Definition PROFILES : list string :=
  ["a4w4-d16-hp1"; "a4w4-d32-hp1"; "a4w4-d64-hp1"; "a8w8-d16-hp1"; "a8w8-d32-hp1"; "a8w8-d64-hp1"].

Definition profile_domain (profile revision : string) : res DomainLimits :=
  if String.eqb revision TAG6_REVISION then
    if negb (String.eqb profile TAG5_PROFILE) then Err (DomainRevisionError profile revision)
    else Ok (domain_limits 6 6)
  else if negb (str_in profile PROFILES) || negb (str_in revision [LEGACY_REVISION; TAG5_REVISION]) then
    Err (DomainRevisionError profile revision)
  else if String.eqb profile TAG5_PROFILE && String.eqb revision TAG5_REVISION then Ok (domain_limits 5 6)
  else Ok (domain_limits 4 6).

(** ** [stateful_domain.py] *)

Definition A8D32_REVISION : string := "GUARDED_A8D32_PRODUCER_TAG4_ROW_LT4_V1".
Definition A8D32_ACTUAL : string := "GUARDED_A8D32_ACTUAL_EVAL_TAG5_ROW_LT5_V1".
Definition A8D32_INTERLEAVED : string := "GUARDED_A8D32_INTERLEAVED_ISSUE_TAG5_ROW_LT5_V1".
Definition PROFILE_EXTENSION_REVISIONS : list (string * string) :=
  [("stateful-a8w8-d64-v1", "a8w8-d64-hp1"); ("stateful-a4w4-d16-v1", "a4w4-d16-hp1");
   ("stateful-a4w4-d32-v1", "a4w4-d32-hp1"); ("stateful-a4w4-d64-v1", "a4w4-d64-hp1")].
Definition ACTUAL_TRACE_REVISIONS : list (string * (string * DomainLimits)) :=
  [(A8D32_ACTUAL, ("a8w8-d32-hp1", domain_limits 5 5))].
Definition INTERLEAVED_TRACE_REVISIONS : list (string * (string * DomainLimits)) :=
  [(A8D32_INTERLEAVED, ("a8w8-d32-hp1", domain_limits 5 5))].

(** The enumeration [Revision]. *)
Inductive Revision : Type :=
  | LEGACY | TAG5 | TAG6 | A8D32 | A8D64 | A4D16 | A4D32 | A4D64 | ACTUAL | INTERLEAVED.
#[export] Instance Revision_eq_dec : EqDecision Revision.
Proof. solve_decision. Defined.
Definition all_revisions : list Revision :=
  [LEGACY; TAG5; TAG6; A8D32; A8D64; A4D16; A4D32; A4D64; ACTUAL; INTERLEAVED].
Definition revision_value (r : Revision) : string :=
  match r with
  | LEGACY => LEGACY_REVISION | TAG5 => TAG5_REVISION | TAG6 => TAG6_REVISION | A8D32 => A8D32_REVISION
  | A8D64 => "stateful-a8w8-d64-v1" | A4D16 => "stateful-a4w4-d16-v1" | A4D32 => "stateful-a4w4-d32-v1"
  | A4D64 => "stateful-a4w4-d64-v1" | ACTUAL => A8D32_ACTUAL | INTERLEAVED => A8D32_INTERLEAVED
  end.
Definition parse_revision (s : string) : option Revision :=
  List.find (fun r => String.eqb (revision_value r) s) all_revisions.

Record InitialState := {
  generation : Z; absolute_cycle : Z; scratchpad_half : Z; accumulator_half : Z;
  tag_count : Z; row_count : Z; ready_mask : Z;
}.
Definition cold_state : InitialState := {|
  generation := 1; absolute_cycle := 0; scratchpad_half := 0; accumulator_half := 0;
  tag_count := 0; row_count := 0; ready_mask := 0 |}.
#[export] Instance InitialState_eq_dec : EqDecision InitialState.
Proof. solve_decision. Defined.

Record WorkClass := { work_type : string; run_type : string }.

Record StateDomain := {
  domain_profile : string;
  precision : string;
  domain_dim : Z;
  allowed_tag_peak : Z;
  allowed_row_peak : Z;
  ready_mask_rule : string;
  initial_state_domain : string;
  supported_work_types : list string;
  supported_run_types : list string;
  domain_revision : string;
  workload_scope : string;
}.

(** The property [limits]. *)
Definition limits (d : StateDomain) : DomainLimits := domain_limits (allowed_tag_peak d) (allowed_row_peak d + 1).

Definition check_initial_state (s : InitialState) : res unit :=
  check (bool_decide (s = cold_state))
    (StateDomainError "initial state" "only the certified cold origin is supported").

Definition check_work_class (d : StateDomain) (w : WorkClass) : res unit :=
  check (str_in (work_type w) (supported_work_types d) && str_in (run_type w) (supported_run_types d) &&
         (String.eqb (work_type w) "dense_main" && String.eqb (run_type w) "dense" ||
          String.eqb (work_type w) "residual" && String.eqb (run_type w) RUN_REVISION))
    (StateDomainError "work class" "work/run pair is outside the certified domain").

(** [re.fullmatch(r"a([48])w\1-d(16|32|64)-hp1", profile)]: the widths and
    DIM of the six texts the pattern matches. *)
Definition profile_shape (profile : string) : option (Z * Z) :=
  List.find (fun '(bits, dim) => String.eqb (Resolve.profile_name bits bits dim) profile)
    [(4, 16); (4, 32); (4, 64); (8, 16); (8, 32); (8, 64)].

(** The limits a revision certifies for a profile. *)
Definition revision_limits (selected : Revision) (profile revision : string) : res DomainLimits :=
  let expect (certified : string) (l : DomainLimits) :=
    if String.eqb certified profile then Ok l else Err (DomainRevisionError profile revision) in
  match selected with
  | A8D64 | A4D16 | A4D32 | A4D64 =>
      match sget revision PROFILE_EXTENSION_REVISIONS with
      | Some certified => expect certified (domain_limits 4 4)
      | None => Err (KeyError revision)
      end
  | A8D32 => expect "a8w8-d32-hp1" (domain_limits 4 4)
  | ACTUAL =>
      match sget revision ACTUAL_TRACE_REVISIONS with
      | Some (certified, l) => expect certified l
      | None => Err (KeyError revision)
      end
  | INTERLEAVED =>
      match sget revision INTERLEAVED_TRACE_REVISIONS with
      | Some (certified, l) => expect certified l
      | None => Err (KeyError revision)
      end
  | LEGACY | TAG5 | TAG6 => profile_domain profile revision
  end.

Definition state_domain (profile revision : string) : res StateDomain :=
  match profile_shape profile with
  | None => Err (DomainRevisionError profile revision)
  | Some (bits, dim) =>
      match parse_revision revision with
      | None => Err (DomainRevisionError profile revision)
      | Some selected =>
          let* l := revision_limits selected profile revision in
          Ok {| domain_profile := profile; precision := "A" +:+ dec bits +:+ "W" +:+ dec bits;
                domain_dim := dim; allowed_tag_peak := max_tag_occupancy l;
                allowed_row_peak := max_row_occupancy_exclusive l - 1;
                ready_mask_rule := "ZERO_AT_RESOURCE_READY"; initial_state_domain := "COLD_RESET_ONCE";
                supported_work_types := ["dense_main"; "residual"];
                supported_run_types := ["dense"; RUN_REVISION]; domain_revision := revision;
                workload_scope := "CERTIFICATE_BOUND_CORPUS" |}
      end
  end.

(** ** Which profiles a revision certifies *)

(** The certified pairs, with the tag and row limits of each. *)
Definition certified : list (string * Revision * Z * Z) :=
  map (fun p => (p, LEGACY, 4, 6)) PROFILES ++
  map (fun p => (p, TAG5, if String.eqb p TAG5_PROFILE then 5 else 4, 6)) PROFILES ++
  [(TAG5_PROFILE, TAG6, 6, 6); ("a8w8-d32-hp1", A8D32, 4, 4); ("a8w8-d64-hp1", A8D64, 4, 4);
   ("a4w4-d16-hp1", A4D16, 4, 4); ("a4w4-d32-hp1", A4D32, 4, 4); ("a4w4-d64-hp1", A4D64, 4, 4);
   ("a8w8-d32-hp1", ACTUAL, 5, 5); ("a8w8-d32-hp1", INTERLEAVED, 5, 5)].

Lemma profile_shape_In profile bits dim :
  profile_shape profile = Some (bits, dim) →
  profile = Resolve.profile_name bits bits dim ∧
  (bits, dim) ∈ [(4, 16); (4, 32); (4, 64); (8, 16); (8, 32); (8, 64)].
Proof.
  intros [Hin Heq]%List.find_some. apply String.eqb_eq in Heq. split; [done|]. by apply list_elem_of_In.
Qed.

Lemma parse_revision_value s r : parse_revision s = Some r → s = revision_value r.
Proof. intros [_ Heq]%List.find_some. by apply String.eqb_eq in Heq. Qed.

Lemma parse_value_revision r : parse_revision (revision_value r) = Some r.
Proof. by destruct r. Qed.

(** [state_domain] succeeds exactly on the certified pairs of a profile
    and a revision, with exactly the tag and row limits of that pair; in
    particular the limits are the ones [DomainLimits] holds for it, within
    the six entries of the hardware tag queue, and every other profile or
    revision text raises. *)
Theorem state_domain_certified profile revision d :
  state_domain profile revision = Ok d ↔
  ∃ r tags rows, revision = revision_value r ∧ (profile, r, tags, rows) ∈ certified ∧
    ∃ bits dim, profile_shape profile = Some (bits, dim) ∧
    d = {| domain_profile := profile; precision := "A" +:+ dec bits +:+ "W" +:+ dec bits; domain_dim := dim;
           allowed_tag_peak := tags; allowed_row_peak := rows - 1;
           ready_mask_rule := "ZERO_AT_RESOURCE_READY"; initial_state_domain := "COLD_RESET_ONCE";
           supported_work_types := ["dense_main"; "residual"];
           supported_run_types := ["dense"; RUN_REVISION]; domain_revision := revision;
           workload_scope := "CERTIFICATE_BOUND_CORPUS" |}.
Proof.
  split.
  - unfold state_domain. destruct (profile_shape profile) as [[bits dim]|] eqn:Hs; [|done].
    pose proof Hs as [-> Hin]%profile_shape_In.
    destruct (parse_revision revision) as [r|] eqn:Hr; [|done]. apply parse_revision_value in Hr as ->.
    intros (l & Hl & [= <-])%bind_Ok.
    exists r, (max_tag_occupancy l), (max_row_occupancy_exclusive l). split; [done|].
    split; [|by exists bits, dim]. clear Hs.
    repeat (apply elem_of_cons in Hin as [[= -> ->]|Hin]; [destruct r; vm_compute in Hl;
      first [discriminate Hl|injection Hl as <-; apply (bool_decide_eq_true_1 _); vm_compute; reflexivity]|]).
    by apply elem_of_nil in Hin.
  - intros (r & tags & rows & -> & Hin & bits & dim & Hp & ->).
    repeat (apply elem_of_cons in Hin as [[= -> -> -> ->]|Hin];
      [vm_compute in Hp; injection Hp as <- <-; vm_compute; reflexivity|]).
    by apply elem_of_nil in Hin.
Qed.

