(* ===== verification/Replay.v ===== *)
(** * Offline replay of a trace

    [sim/cycle/npu_trace.py]: the model document and the binding of a work,
    and the replay loop that estimates every work through a bounded cache of
    answers keyed by the binding.  [sim/cycle/local_replay.py]: the variant
    that collects the works first and reads the answers afterwards.

    The cycle library is a parameter: [estimate] is [cli.estimate] on a model
    document.  Certificates are validated before the loop; what the loop takes
    from them is a [Certificate] record. *)
From S2P Require Import Prelude Records Profiles TraceSchema TraceIntegrity.
Set Default Goal Selector "!".

Definition REPLAY_MAX_CYCLES : Z := 100000000.
Definition CACHE_ENTRIES : nat := 4096.

Definition document_keys : list string :=
  ["m"; "n"; "k"; "tile_i"; "tile_j"; "tile_k"; "activation_stride_bytes"; "weight_stride_bytes";
   "output_stride_bytes"; "scale_stride_elements"].

(** [dict(zip(keys, inputs, strict=True))] *)
Definition request_fields (inputs : list Z) : res record :=
  if Nat.eqb (length inputs) (length document_keys) then Ok (zip document_keys (map JInt inputs))
  else Err (ValueError "zip() arguments have different lengths").

Definition span_record (s : RunSpan) : json :=
  JObj [("original_block_id", JInt (original_block_id s)); ("original_k_mask", JInt (original_k_mask s));
        ("compact_k_begin", JInt (compact_k_begin s)); ("compact_k_count", JInt (compact_k_count s))].

(** The request without the work identity, and the document around it. *)
Definition request_record (inputs : record) (identity : Z) : record :=
  merge_records inputs [("accepted_cycle", JInt 1); ("logical_work_id", JInt identity);
    ("submission", JStr "planner-blocks"); ("record_events", JInt 0)].

Definition model_document (profile : string) (w : Work) : res record :=
  let* inputs := request_fields (inputs w) in
  let request := request_record inputs (identity w) in
  let document := [("profile", JStr profile); ("limits", JObj [("max_cycles", JInt REPLAY_MAX_CYCLES)]);
                   ("request", JObj request)] in
  if String.eqb (provenance w) "residual" then
    require (match original_k w with Some _ => true | None => false end &&
             match runs w with [] => false | _ => true end)
      "legacy block-local residual trace cannot be current run-aware work" ;;;
    Ok (merge_records document
      [("original_k", match original_k w with Some k => JInt k | None => JNull end);
       ("runs", JArr (map span_record (runs w)))])
  else Ok document.

Section Replay.
Context `{Host}.

Definition binding_view (w : Work) : json :=
  JObj [("inputs", JArr (map JInt (inputs w)));
        ("original_k", match original_k w with Some k => JInt k | None => JNull end);
        ("runs", JArr (map (fun s => JArr [JInt (original_block_id s); JInt (original_k_mask s);
                                           JInt (compact_k_begin s); JInt (compact_k_count s)]) (runs w)));
        ("row_map", JArr (map (fun r => JArr [JInt (source_row r); JInt (lane_id r)]) (row_map w)));
        ("residual_work_revision", match residual_work_revision w with Some s => JStr s | None => JNull end)].

Definition work_binding (w : Work) : string := sha256_hex (json_dumps (binding_view w)).

(** What the loop takes from the validated artifacts. *)
Record Certificate := {
  cert_document : record;
  run_scope : option string;
  library_sha256 : string;
  certificate_sha256 : string;
  transition_sha256 : json;
  run_certificate_sha256 : json;
}.

Context (estimate : record → res record).
Context (model_contract : string → res record).
Context (cert : Certificate).

Definition identities (profile : string) : res record :=
  let* schema := item (cert_document cert) "schema" in
  let* version := item (cert_document cert) "version" in
  Ok [("profile", JStr profile); ("cycle_library_sha256", JStr (library_sha256 cert));
      ("certificate_sha256", JStr (certificate_sha256 cert)); ("certificate_schema", schema);
      ("certificate_version", version); ("transition_certificate_sha256", transition_sha256 cert);
      ("producer_execution_kind", JStr "CPU_FUNCTIONAL"); ("target_work_validation", JStr "PASS");
      ("cycle_model_validation", JStr "CURRENT_CERTIFIED");
      ("actual_rtl_acceptance_in_collection", JStr "NOT_APPLICABLE");
      ("run_aware_certificate_sha256", run_certificate_sha256 cert);
      ("run_aware_certificate_scope", match run_scope cert with Some s => JStr s | None => JNull end);
      ("accounting_kind", JStr "isolated-work-accounting"); ("cycle_unit", JStr "cycles")].

(** The accounting of the loop. *)
Record Totals := {
  per_layer : list (string * Z);
  per_phase : list (Z * Z);
  large_k : list (string * Z * list Z * record);
}.
Definition no_totals : Totals := {| per_layer := []; per_phase := []; large_k := [] |}.

Definition large_key (w : Work) : string * Z * list Z := (layer w, phase w, inputs w).

Definition large_row (w : Work) (result : record) (cycles : Z) : res record :=
  let* planner := integer result "planner_loop_count" in
  let* loops := integer result "loop_count" in
  let* fragments := integer result "fragment_count" in
  let* scales := integer result "scale_request_count" in
  Ok [("layer", JStr (layer w)); ("phase_id", JInt (phase w)); ("shape", JArr (map JInt (take 3 (inputs w))));
      ("tile_counts", JArr (map JInt (take 3 (drop 3 (inputs w))))); ("model_status", JStr "PASS");
      ("isolated_cycles_per_work", JInt cycles); ("work_count", JInt 0); ("planner_loop_count", JInt planner);
      ("submission_count", JInt loops); ("fragment_count", JInt fragments); ("scale_request_count", JInt scales)].

Definition large_entry (key : string * Z * list Z) (l : list (string * Z * list Z * record)) : option record :=
  snd <$> List.find (fun e => bool_decide (e.1 = key)) l.

Fixpoint set_large (key : string * Z * list Z) (v : record) (l : list (string * Z * list Z * record)) :=
  match l with
  | [] => [(key, v)]
  | (k, u) :: l => if bool_decide (k = key) then (k, v) :: l else (k, u) :: set_large key v l
  end.

(** [totals[key] += cycles] for the two defaultdicts, and the large-K table. *)
Definition account (t : Totals) (w : Work) (result : record) : res Totals :=
  let* cycles := integer result "total_cycles" in
  let layers := sset (layer w) (default 0 (sget (layer w) (per_layer t)) + cycles) (per_layer t) in
  let phases := zset (phase w) (default 0 (zget (phase w) (per_phase t)) + cycles) (per_phase t) in
  let* large :=
    (if 3072 <=? input w 2 then
       let* entry := match large_entry (large_key w) (large_k t) with
         | Some e => Ok e | None => large_row w result cycles end in
       let* count := integer entry "work_count" in
       Ok (set_large (large_key w) (sset "work_count" (JInt (count + 1)) entry) (large_k t))
     else Ok (large_k t)) in
  Ok {| per_layer := layers; per_phase := phases; large_k := large |}.

(** The answer of the model for one work. *)
Definition answer (profile : string) (w : Work) : res record :=
  let* document := model_document profile w in
  let* reply := estimate document in
  require (eq_str (pget reply "status") "PASS") "cycle model rejected target work" ;;;
  let* result := item reply "result" in
  object_value result.

(** The first-in first-out cache: oldest binding first. *)
Definition cache_insert (cache : list (string * record)) (binding : string) (result : record) :=
  (if Nat.eqb (length cache) CACHE_ENTRIES then tail cache else cache) ++ [(binding, result)].

Definition cached_answer (cache : list (string * record)) (profile : string) (w : Work)
    : res (list (string * record) * record) :=
  let binding := work_binding w in
  match sget binding cache with
  | Some result => Ok (cache, result)
  | None => let* result := answer profile w in Ok (cache_insert cache binding result, result)
  end.

Definition result_row (ids r : record) (w : Work) (result : record) : res record :=
  let* sequence := item r "sequence" in
  Ok (merge_records r (ids ++
    [("schema", JStr "im2p-npu-cycle-result"); ("kind", JStr "NPU_WORK_RESULT"); ("trace_sequence", sequence);
     ("sequence", JInt (identity w)); ("run_view_sha256", JStr (work_binding w)); ("modeled", JObj result)])).

Definition admissible (w : Work) : res unit :=
  require (negb (String.eqb (provenance w) "residual") || match runs w with [] => false | _ => true end)
    "legacy block-local residual trace cannot be upgraded to run-aware replay" ;;;
  require (negb (String.eqb (provenance w) "residual") ||
           match run_scope cert with Some s => String.eqb s "PRODUCTION_GENERATED" | None => false end)
    "production-generated run-aware certificate required for current residual replay".

Record LoopState := {
  cache : list (string * record);
  totals : Totals;
  rows : list record;
}.
Definition loop_start : LoopState := {| cache := []; totals := no_totals; rows := [] |}.

(** One work of the loop. *)
Definition replay_work (ids : record) (profile : string) (st : LoopState) (rw : record * Work) : res LoopState :=
  let '(r, w) := rw in
  admissible w ;;;
  let* found := cached_answer (cache st) profile w in
  let '(cache', result) := found in
  let* row := result_row ids r w result in
  let* t := account (totals st) w result in
  Ok {| cache := cache'; totals := t; rows := rows st ++ [row] |}.

(** One line: the state machine consumes the record before its work is
    estimated. *)
Definition replay_step (ids : record) (st : Z * TraceState * LoopState) (line : option json)
    : res (Z * TraceState * LoopState) :=
  let '(sequence, s, loop) := st in
  let* r := read_record sequence line in
  let* sw := consume s r in
  let* loop := match sw.2 with
    | None => Ok loop | Some w => replay_work ids (run_profile (run s)) loop (r, w) end in
  Ok (sequence + 1, sw.1, loop).

Definition phase_cycles (t : Totals) (i : Z) : Z := default 0 (zget i (per_phase t)).

Definition replay_summary (ids : record) (s : TraceState) (t : Totals) : res record :=
  let* base := summary s in
  let base := merge_records base ids in
  let* residual := item base "residual_work_count" in
  let* memory := item (cert_document cert) "reference_memory" in
  let* decode := map_res (fun '(index, phase) =>
      let* kind := item phase "phase_kind" in
      let* decode_index := item phase "decode_index" in
      Ok (if eq_str kind "decode" then [(py_str decode_index, JInt (phase_cycles t (Z.of_nat index)))] else []))
    (imap (fun i p => (i, p)) (phases s)) in
  Ok (merge_records base
    [("schema", JStr "im2p-npu-cycle-summary"); ("version", JInt 2); ("status", JStr "PASS");
     ("trace_schema", JStr SCHEMA); ("trace_version", JInt (trace_version (run s)));
     ("residual_work_revision", match run_residual_work_revision (run s) with Some v => JStr v | None => JNull end);
     ("producer_integration_validation",
        JStr (if truthy residual then "NOT_CERTIFIED_BY_FIXTURE" else "NOT_APPLICABLE"));
     ("producer_execution_kind", JStr "CPU_FUNCTIONAL"); ("validation_scope", JStr "CURRENT_CERTIFIED");
     ("cycle_model_validation", JStr "CURRENT_CERTIFIED");
     ("actual_rtl_acceptance_in_collection", JStr "NOT_APPLICABLE");
     ("accounting_kind", JStr "isolated-work-accounting"); ("measured_answer_injection", JBool false);
     ("reference_memory", memory); ("isolated_cycle_sum", JInt (sum (per_phase t).*2));
     ("per_layer_cycle_sums", JObj (map (fun e => (e.1, JInt e.2)) (sort_layers (per_layer t))));
     ("prefill_cycle_sum", JInt (phase_cycles t 0));
     ("per_phase_cycle_sums", JObj (map (fun i => (dec i, JInt (phase_cycles t i)))
        (seqZ 0 (Z.of_nat (length (phases s))))));
     ("per_decode_token_cycle_sums", JObj (merge_records [] (concat decode)));
     ("large_k_works", JArr (map (fun e => JObj e.2) (large_k t)));
     ("software_limits", JObj [("max_cycles_per_work", JInt REPLAY_MAX_CYCLES)]);
     ("not_modeled", JArr (map JStr ["CPU/NPU scheduling"; "pipeline overlap"; "system timeline"; "TTFT/TPOT";
        "frequency conversion"]))]).

(** [_replay] on the lines of the trace: the published rows and the summary. *)
Definition replay (lines : list (option json)) : res (list record * record) :=
  match lines with
  | [] => Err (NpuTraceError "empty log")
  | line :: rest =>
      let* s := start_trace line in
      let profile := run_profile (run s) in
      let* contracts_value := item (cert_document cert) "hardware_contracts" in
      let* contracts := object_value contracts_value in
      let* certified := object_value (pget contracts profile) in
      Contract.compatible (run_contract (run s)) certified ;;;
      let* current := model_contract profile in
      Contract.compatible (run_contract (run s)) current ;;;
      let* ids := identities profile in
      let* final := fold_res (replay_step ids) (1, s, loop_start) rest in
      let* summary := replay_summary ids final.1.2 (totals final.2) in
      Ok (rows final.2, summary)
  end.
End Replay.

(** ** Host-local replay

    [sim/cycle/local_replay.py]: one pass over the trace that issues one
    estimate per miss of the binding cache, in this process or to a pool of
    workers, and a publication pass that reads the answers in trace order.

    A [Future] is the outcome of its estimate: estimates are pure functions of
    the library bytes and the document, so when the pool evaluates one does
    not matter.  The persistent answer cache is [TaskCache]; this model of the
    pass runs without one ([--task-cache] omitted). *)

Section Local.
Context `{Host}.
Context (estimate : record → res record).
Context (model_contract : string → res record).

(** What [admit_library] returned and the digests of the inputs. *)
Record Receipt := {
  receipt_document : record;
  validation : string;
  receipt_sha256 : string;
  local_library_sha256 : string;
}.
Context (receipt : Receipt).

Definition local_identities (profile : string) : res record :=
  let* schema := item (receipt_document receipt) "schema" in
  let* version := item (receipt_document receipt) "version" in
  Ok [("profile", JStr profile); ("cycle_library_sha256", JStr (local_library_sha256 receipt));
      ("certificate_sha256", JStr (receipt_sha256 receipt)); ("certificate_schema", schema);
      ("certificate_version", version); ("transition_certificate_sha256", JNull);
      ("producer_execution_kind", JStr "CPU_FUNCTIONAL"); ("target_work_validation", JStr "PASS");
      ("cycle_model_validation", JStr (validation receipt));
      ("actual_rtl_acceptance_in_collection", JStr "NOT_APPLICABLE");
      ("run_aware_certificate_sha256", JNull); ("run_aware_certificate_scope", JStr (validation receipt));
      ("accounting_kind", JStr "isolated-work-accounting"); ("cycle_unit", JStr "cycles")].

(** [_answer]: resolves a future, then checks the reply. *)
Definition resolve (pending : res record) : res record :=
  let* reply := pending in
  require (eq_str (pget reply "status") "PASS") "cycle model rejected target work" ;;;
  let* result := item reply "result" in
  object_value result.

Record Pass := {
  bindings : list (string * res record);
  issued : list (record * Work * res record);
  misses : Z;
  model_calls : Z;
}.
Definition no_pass : Pass := {| bindings := []; issued := []; misses := 0; model_calls := 0 |}.

Definition bind_answer (cache : list (string * res record)) (binding : string) (pending : res record) :=
  (if Nat.eqb (length cache) CACHE_ENTRIES then tail cache else cache) ++ [(binding, pending)].

(** One work of the pass; [pool] selects the parallel variant. *)
Definition issue (pool : bool) (profile : string) (st : Pass) (rw : record * Work) : res Pass :=
  let '(r, w) := rw in
  require (negb (String.eqb (provenance w) "residual") || match runs w with [] => false | _ => true end)
    "legacy block-local residual trace cannot be upgraded to run-aware replay" ;;;
  let binding := work_binding w in
  match sget binding (bindings st) with
  | Some pending =>
      Ok {| bindings := bindings st; issued := issued st ++ [(r, w, pending)];
            misses := misses st; model_calls := model_calls st |}
  | None =>
      let* document := model_document profile w in
      let* pending := (if pool then Ok (estimate document)
        else let* reply := estimate document in let* _ := resolve (Ok reply) in Ok (Ok reply)) in
      Ok {| bindings := bind_answer (bindings st) binding pending; issued := issued st ++ [(r, w, pending)];
            misses := misses st + 1; model_calls := model_calls st + 1 |}
  end.

Definition local_step (pool : bool) (st : Z * TraceState * Pass) (line : option json) : res (Z * TraceState * Pass) :=
  let '(sequence, s, pass) := st in
  let* r := read_record sequence line in
  let* sw := consume s r in
  let* pass := match sw.2 with
    | None => Ok pass | Some w => issue pool (run_profile (run s)) pass (r, w) end in
  Ok (sequence + 1, sw.1, pass).

(** Publication of one row. *)
Definition publish (ids : record) (acc : Totals * list record) (e : record * Work * res record)
    : res (Totals * list record) :=
  let '(r, w, pending) := e in
  let* result := resolve pending in
  let* row := result_row ids r w result in
  let* t := account acc.1 w result in
  Ok (t, acc.2 ++ [row]).

Definition local_summary (ids : record) (s : TraceState) (t : Totals) : res record :=
  let* base := summary s in
  let base := merge_records base ids in
  let* residual := item base "residual_work_count" in
  let* decode := map_res (fun '(index, phase) =>
      let* kind := item phase "phase_kind" in
      let* decode_index := item phase "decode_index" in
      Ok (if eq_str kind "decode" then [(py_str decode_index, JInt (phase_cycles t (Z.of_nat index)))] else []))
    (imap (fun i p => (i, p)) (phases s)) in
  Ok (merge_records base
    [("schema", JStr "im2p-npu-cycle-summary"); ("version", JInt 2); ("status", JStr "PASS");
     ("trace_schema", JStr SCHEMA); ("trace_version", JInt (trace_version (run s)));
     ("residual_work_revision", match run_residual_work_revision (run s) with Some v => JStr v | None => JNull end);
     ("producer_integration_validation",
        JStr (if truthy residual then "NOT_CERTIFIED_BY_FIXTURE" else "NOT_APPLICABLE"));
     ("producer_execution_kind", JStr "CPU_FUNCTIONAL"); ("validation_scope", JStr (validation receipt));
     ("cycle_model_validation", JStr (validation receipt)); ("certification", JStr "NOT_CERTIFIED");
     ("local_validation_receipt_sha256", JStr (receipt_sha256 receipt));
     ("actual_rtl_acceptance_in_collection", JStr "NOT_APPLICABLE");
     ("accounting_kind", JStr "isolated-work-accounting"); ("measured_answer_injection", JBool false);
     ("reference_memory", JNull); ("isolated_cycle_sum", JInt (sum (per_phase t).*2));
     ("per_layer_cycle_sums", JObj (map (fun e => (e.1, JInt e.2)) (sort_layers (per_layer t))));
     ("prefill_cycle_sum", JInt (phase_cycles t 0));
     ("per_phase_cycle_sums", JObj (map (fun i => (dec i, JInt (phase_cycles t i)))
        (seqZ 0 (Z.of_nat (length (phases s))))));
     ("per_decode_token_cycle_sums", JObj (merge_records [] (concat decode)));
     ("large_k_works", JArr (map (fun e => JObj e.2) (large_k t)));
     ("software_limits", JObj [("max_cycles_per_work", JInt REPLAY_MAX_CYCLES)]);
     ("not_modeled", JArr (map JStr ["CPU/NPU scheduling"; "pipeline overlap"; "system timeline"; "TTFT/TPOT";
        "frequency conversion"; "RTL equivalence of this host build"]))]).

(** [_replay] of the local tool: published rows, summary, and the two counters
    of the evaluation statistics. *)
Definition local_replay (pool : bool) (lines : list (option json)) : res (list record * record * (Z * Z)) :=
  match lines with
  | [] => Err (NpuTraceError "empty log")
  | line :: rest =>
      let* s := start_trace line in
      let profile := run_profile (run s) in
      let* current := model_contract profile in
      Contract.compatible (run_contract (run s)) current ;;;
      let* ids := local_identities profile in
      let* final := fold_res (local_step pool) (1, s, no_pass) rest in
      let* published := fold_res (publish ids) (no_totals, []) (issued final.2) in
      let* summary := local_summary ids final.1.2 published.1 in
      Ok (published.2, summary, (misses final.2, model_calls final.2))
  end.

(** ** The two variants publish the same rows *)

Lemma issue_serial profile st rw st' :
  issue false profile st rw = Ok st' → issue true profile st rw = Ok st'.
Proof.
  destruct rw as [r w]. unfold issue. destruct (require _ _); [|done]. cbn [mbind res_bind].
  destruct (sget _ _); [done|]. destruct (model_document profile w) as [d|]; [|done]. cbn [mbind res_bind].
  destruct (estimate d) as [reply|] eqn:E; [|done]. cbn [mbind res_bind].
  by destruct (resolve (Ok reply)).
Qed.

(** A work issued to the pool whose answer resolves is issued by the serial
    pass to the same effect. *)
Lemma issue_pool profile st rw st' :
  issue true profile st rw = Ok st' → Forall (fun e => is_ok (resolve e.2) = true) (issued st') →
  issue false profile st rw = Ok st'.
Proof.
  destruct rw as [r w]. unfold issue. destruct (require _ _); [|done]. cbn [mbind res_bind].
  destruct (sget _ _); [done|]. destruct (model_document profile w) as [d|]; [|done]. cbn [mbind res_bind].
  intros [= <-]. cbn [issued]. intros [_ Hok]%Forall_app. apply Forall_cons in Hok as [Hok _]. cbn [snd] in Hok. revert Hok.
  destruct (estimate d) as [reply|]; [|done]. cbn [mbind res_bind].
  by destruct (resolve (Ok reply)).
Qed.

Lemma issue_issued pool profile st rw st' :
  issue pool profile st rw = Ok st' → ∃ new, issued st' = issued st ++ new.
Proof.
  destruct rw as [r w]. unfold issue, require. rewrite check_bind. intros [_ Hi].
  destruct (sget _ _); [injection Hi as <-; by eexists|].
  apply bind_Ok in Hi as (d & _ & Hi). apply bind_Ok in Hi as (p & _ & [= <-]). by eexists.
Qed.

Lemma local_step_inv pool st line st' :
  local_step pool st line = Ok st' →
  ∃ r sw, read_record st.1.1 line = Ok r ∧ consume st.1.2 r = Ok sw ∧ st'.1 = (st.1.1 + 1, sw.1) ∧
    match sw.2 with None => st'.2 = st.2 | Some w => issue pool (run_profile (run st.1.2)) st.2 (r, w) = Ok st'.2 end.
Proof.
  destruct st as [[n s] pass]. unfold local_step. intros Hs.
  apply bind_Ok in Hs as (r & Hr & Hs). apply bind_Ok in Hs as (sw & Hsw & Hs).
  apply bind_Ok in Hs as (p & Hp & [= <-]). exists r, sw. cbn. split_and!; [done|done|done|].
  destruct (sw.2); [done|]. by injection Hp as <-.
Qed.

Lemma local_step_intro pool st line r sw pass :
  read_record st.1.1 line = Ok r → consume st.1.2 r = Ok sw →
  match sw.2 with None => pass = st.2 | Some w => issue pool (run_profile (run st.1.2)) st.2 (r, w) = Ok pass end →
  local_step pool st line = Ok (st.1.1 + 1, sw.1, pass).
Proof.
  destruct st as [[n s] p]. cbn. intros -> Hc. cbn. rewrite Hc. cbn. destruct (sw.2).
  - by intros ->.
  - by intros ->.
Qed.

Lemma local_steps_serial lines : ∀ st st',
  fold_res (local_step false) st lines = Ok st' → fold_res (local_step true) st lines = Ok st'.
Proof.
  induction lines as [|line lines IH]; intros st st' Hf; [done|]. cbn [fold_res] in *.
  apply bind_Ok in Hf as (st1 & H1 & Hf).
  pose proof (local_step_inv _ _ _ _ H1) as (r & sw & Hr & Hc & E & Hp).
  rewrite (local_step_intro true st line r sw st1.2) by (done || (destruct (sw.2); [by apply issue_serial|done])).
  cbn [mbind res_bind]. rewrite <-E. rewrite <-surjective_pairing. by apply IH.
Qed.

Lemma local_steps_issued pool lines : ∀ st st',
  fold_res (local_step pool) st lines = Ok st' → ∃ new, issued st'.2 = issued st.2 ++ new.
Proof.
  induction lines as [|line lines IH]; intros st st' Hf; cbn [fold_res] in Hf.
  - injection Hf as <-. exists []. by rewrite app_nil_r.
  - apply bind_Ok in Hf as (st1 & H1 & Hf). apply local_step_inv in H1 as (r & sw & _ & _ & _ & Hp).
    destruct (IH _ _ Hf) as [new ->]. destruct (sw.2).
    + apply issue_issued in Hp as [new' ->]. exists (new' ++ new). by rewrite (assoc_L (++)).
    + rewrite Hp. by exists new.
Qed.

Lemma local_steps_pool lines : ∀ st st',
  fold_res (local_step true) st lines = Ok st' → Forall (fun e => is_ok (resolve e.2) = true) (issued st'.2) →
  fold_res (local_step false) st lines = Ok st'.
Proof.
  induction lines as [|line lines IH]; intros st st' Hf Hall; [done|]. cbn [fold_res] in *.
  apply bind_Ok in Hf as (st1 & H1 & Hf).
  pose proof (local_step_inv _ _ _ _ H1) as (r & sw & Hr & Hc & E & Hp).
  destruct (local_steps_issued _ _ _ _ Hf) as [new Hnew].
  assert (Hall1 : Forall (fun e => is_ok (resolve e.2) = true) (issued st1.2)).
  { rewrite Hnew in Hall. by apply Forall_app in Hall as [? _]. }
  rewrite (local_step_intro false st line r sw st1.2) by (done || (destruct (sw.2); [by apply issue_pool|done])).
  cbn [mbind res_bind]. rewrite <-E. rewrite <-surjective_pairing. by apply IH.
Qed.

Lemma publish_resolved ids l : ∀ acc acc',
  fold_res (publish ids) acc l = Ok acc' → Forall (fun e => is_ok (resolve e.2) = true) l.
Proof.
  induction l as [|[[r w] p] l IH]; intros acc acc' Hf; [done|]. cbn [fold_res] in Hf.
  apply bind_Ok in Hf as (acc1 & H1 & Hf). constructor; [|by eapply IH].
  unfold publish in H1. apply bind_Ok in H1 as (result & Hres & _). cbn [snd]. by rewrite Hres.
Qed.

(** C32: The parallel and the serial variant of the local replay publish the
    same thing: the rows, the summary and the counters of a successful run
    with the worker pool are those of a successful run without it, and one
    succeeds exactly when the other does. *)
Theorem pool_serial_agree lines out :
  local_replay true lines = Ok out ↔ local_replay false lines = Ok out.
Proof.
  unfold local_replay. destruct lines as [|line rest]; [done|].
  destruct (start_trace line) as [s|]; [|done]. cbn [mbind res_bind].
  destruct (model_contract _) as [current|]; [|done]. cbn [mbind res_bind].
  destruct (Contract.compatible _ _); [|done]. cbn [mbind res_bind].
  destruct (local_identities _) as [ids|]; [|done]. cbn [mbind res_bind]. split; intros Hrun.
  - apply bind_Ok in Hrun as (final & Hf & Hrun). apply bind_Ok in Hrun as (pub & Hpub & Hrun).
    rewrite (local_steps_pool _ _ _ Hf (publish_resolved _ _ _ _ Hpub)). cbn [mbind res_bind].
    by rewrite Hpub.
  - apply bind_Ok in Hrun as (final & Hf & Hrun). by rewrite (local_steps_serial _ _ _ Hf).
Qed.
End Local.
