(* ===== verification/TaskCache.v ===== *)
(** * The persistent answer cache

    [sim/cycle/npu_task_cache.py]: a table of complete answers keyed by the
    numerical identity of an estimate, with quarantine of rows that fail
    verification.  The SQLite table [tasks] is an association list by primary
    key, [rejected] a list; a transaction either commits or leaves the tables
    as they were.  Timestamps are left out: nothing reads them.

    [json.loads] is a parameter; the laws used of it are stated where they are
    needed. *)
From S2P Require Import Prelude Records.
From Stdlib Require Import SpecFloat.
Set Default Goal Selector "!".

Definition CACHE_SCHEMA : string := "im2p-nano-local-npu-task-cache".
Definition CACHE_VERSION : Z := 1.

(** [timing_input(document)]: the document without the diagnostic work id. *)
Definition timing_input (document : record) : res record :=
  let* request := object_value (pget document "request") in
  Ok (merge_records document [("request", JObj (sdel "logical_work_id" request))]).

Record TaskRow := {
  row_timing_input : string;
  row_timing_sha256 : string;
  row_implementation : string;
  row_implementation_sha256 : string;
  row_library_sha256 : string;
  row_result : string;
  row_result_sha256 : string;
  row_status : string;
}.

Record Counters := { hit : Z; miss : Z; persisted : Z; rejected_count : Z }.

Record TaskCache := {
  implementation : record;
  implementation_sha256 : string;
  library_sha256 : string;
  tasks : list (string * TaskRow);
  rejected : list (string * string * TaskRow);
  counters : Counters;
  is_open : bool;
}.

(** No float of the value is a NaN or an infinity. *)
Fixpoint finite (j : json) : bool :=
  match j with
  | JFloat S754_nan | JFloat (S754_infinity _) => false
  | JArr l => (fix go (l : list json) : bool := match l with [] => true | x :: l => finite x && go l end) l
  | JObj kvs => (fix go (l : record) : bool := match l with [] => true | (_, x) :: l => finite x && go l end) kvs
  | _ => true
  end.

Section Cache.
Context `{Host}.
Context (json_loads : string → option json).

(** [json.dumps(value, .., allow_nan=False)]: a float that is no number of JSON
    is refused. *)
Definition canonical (value : json) : res string :=
  if finite value then Ok (json_dumps value)
  else Err (ValueError "Out of range float values are not JSON compliant").

(** [TaskCache(path, implementation)] over the tables found at the path, whose
    [meta] row has been checked. *)
Definition open_cache (implementation : record) (found : list (string * TaskRow))
    (quarantined : list (string * string * TaskRow)) : res TaskCache :=
  let* text := canonical (JObj implementation) in
  let* library := item implementation "library_sha256" in
  Ok {| implementation := implementation; implementation_sha256 := sha256_hex text;
        library_sha256 := py_str library; tasks := found; rejected := quarantined;
        counters := {| hit := 0; miss := 0; persisted := 0; rejected_count := 0 |}; is_open := true |}.

(** The key of a document and the text of its timing input. *)
Definition key (c : TaskCache) (document : record) : res (string * string) :=
  let* input := timing_input document in
  let* text := canonical (JObj input) in
  let* identity := canonical (JObj [("schema", JStr CACHE_SCHEMA); ("version", JInt CACHE_VERSION);
        ("timing_input_sha256", JStr (sha256_hex text));
        ("implementation_sha256", JStr (implementation_sha256 c))]) in
  Ok (sha256_hex identity, text).

Definition with_counters (c : TaskCache) (n : Counters) : TaskCache := {|
  implementation := implementation c; implementation_sha256 := implementation_sha256 c;
  library_sha256 := library_sha256 c; tasks := tasks c; rejected := rejected c; counters := n; is_open := is_open c |}.

Definition count_hit (n : Counters) := {| hit := hit n + 1; miss := miss n; persisted := persisted n; rejected_count := rejected_count n |}.
Definition count_miss (n : Counters) := {| hit := hit n; miss := miss n + 1; persisted := persisted n; rejected_count := rejected_count n |}.
Definition count_reject (n : Counters) := {| hit := hit n; miss := miss n + 1; persisted := persisted n; rejected_count := rejected_count n + 1 |}.
Definition count_store (n : Counters) := {| hit := hit n; miss := miss n; persisted := persisted n + 1; rejected_count := rejected_count n |}.

(** Why a row found under the key of [text] cannot be used. *)
Definition row_reason (c : TaskCache) (row : TaskRow) (text : string) : option string :=
  if negb (String.eqb (row_status row) "COMPLETE") then Some "incomplete entry"
  else if negb (String.eqb (row_timing_input row) text) then Some "timing input differs from its key"
  else if negb (String.eqb (row_implementation_sha256 row) (implementation_sha256 c)) then
    Some "implementation differs from its key"
  else if negb (String.eqb (row_library_sha256 row) (library_sha256 c)) then Some "library differs from its key"
  else if negb (String.eqb (sha256_hex (row_result row)) (row_result_sha256 row)) then Some "result checksum mismatch"
  else None.

(** The answer a row stands for, or the reason to quarantine it.  The canonical
    text of what was decoded is outside the [try]: its exception is not caught. *)
Definition row_answer (c : TaskCache) (row : TaskRow) (text : string) : res (record + string) :=
  match row_reason c row text with
  | Some reason => Ok (inr reason)
  | None =>
      match json_loads (row_result row) with
      | Some (JObj answer) =>
          let* again := canonical (JObj answer) in
          Ok (if String.eqb again (row_result row) then inl answer else inr "result is not canonical")
      | _ => Ok (inr "result is not a JSON object")
      end
  end.

Definition lookup (c : TaskCache) (document : record) : res (option record * TaskCache) :=
  let* kt := key c document in
  let '(k, text) := kt in
  require (is_open c) "NPU task cache is closed" ;;;
  match sget k (tasks c) with
  | None => Ok (None, with_counters c (count_miss (counters c)))
  | Some row =>
      let* found := row_answer c row text in
      match found with
      | inl answer => Ok (Some answer, with_counters c (count_hit (counters c)))
      | inr reason =>
          Ok (None, {| implementation := implementation c; implementation_sha256 := implementation_sha256 c;
                       library_sha256 := library_sha256 c; tasks := sdel k (tasks c);
                       rejected := rejected c ++ [(k, reason, row)];
                       counters := count_reject (counters c); is_open := is_open c |})
      end
  end.

(** The row [store] inserts; [implementation_text] is the canonical text of the
    implementation of the cache. *)
Definition task_row (c : TaskCache) (implementation_text text result : string) : TaskRow := {|
  row_timing_input := text; row_timing_sha256 := sha256_hex text;
  row_implementation := implementation_text;
  row_implementation_sha256 := implementation_sha256 c; row_library_sha256 := library_sha256 c;
  row_result := result; row_result_sha256 := sha256_hex result; row_status := "COMPLETE" |}.

(** [INSERT ... ON CONFLICT(key) DO NOTHING], then the stored result is
    compared; the transaction is rolled back when it differs. *)
Definition store (c : TaskCache) (document answer : record) : res TaskCache :=
  let* kt := key c document in
  let '(k, text) := kt in
  let* result := canonical (JObj answer) in
  require (is_open c) "NPU task cache is closed" ;;;
  let* implementation_text := canonical (JObj (implementation c)) in
  let inserted := match sget k (tasks c) with
    | Some _ => tasks c | None => tasks c ++ [(k, task_row c implementation_text text result)] end in
  let stored := default "" (row_result <$> sget k inserted) in
  require (String.eqb stored result) ("NPU task cache holds a different result for " +:+ k) ;;;
  Ok {| implementation := implementation c; implementation_sha256 := implementation_sha256 c;
        library_sha256 := library_sha256 c; tasks := inserted; rejected := rejected c;
        counters := count_store (counters c); is_open := is_open c |}.

Definition close (c : TaskCache) : TaskCache := {|
  implementation := implementation c; implementation_sha256 := implementation_sha256 c;
  library_sha256 := library_sha256 c; tasks := tasks c; rejected := rejected c;
  counters := counters c; is_open := false |}.

(** ** What a lookup may return *)

(** Whatever the table holds, even rows changed behind the cache's back, a
    returned answer comes from a verified row. *)
Record verified (c : TaskCache) (row : TaskRow) (text : string) (answer : record) : Prop := {
  ve_status : row_status row = "COMPLETE";
  ve_input : row_timing_input row = text;
  ve_implementation : row_implementation_sha256 row = implementation_sha256 c;
  ve_library : row_library_sha256 row = library_sha256 c;
  ve_checksum : row_result_sha256 row = sha256_hex (row_result row);
  ve_result : json_loads (row_result row) = Some (JObj answer);
  ve_canonical : canonical (JObj answer) = Ok (row_result row);
}.

(** A row that passes every comparison and decodes to an object JSON cannot
    write: its canonical text raises. *)
Definition unwritable (c : TaskCache) (row : TaskRow) (text : string) : Prop :=
  row_reason c row text = None ∧ ∃ answer, json_loads (row_result row) = Some (JObj answer) ∧ finite (JObj answer) = false.

Lemma row_answer_verified c row text answer :
  row_answer c row text = Ok (inl answer) ↔ verified c row text answer.
Proof.
  unfold row_answer, row_reason. split.
  - intros Ha. repeat match type of Ha with
    | (match (if negb ?b then _ else _) with _ => _ end) = _ => destruct b eqn:?; cbn in Ha; [|discriminate Ha] end.
    destruct (json_loads (row_result row)) as [[]|] eqn:?; try discriminate.
    apply bind_Ok in Ha as (again & Hagain & Ha). destruct (String.eqb_spec again (row_result row)); [|discriminate].
    injection Ha as <-. z_props. constructor; congruence.
  - intros [H1 H2 H3 H4 H5 H6 H7]. rewrite H1, H2, H3, H4, H5, H6, !String.eqb_refl. cbn [negb]. rewrite H7.
    cbn [mbind res_bind]. by rewrite String.eqb_refl.
Qed.

Lemma row_answer_raises c row text e : row_answer c row text = Err e → (∃ detail, e = ValueError detail) ∧ unwritable c row text.
Proof.
  unfold row_answer, unwritable. destruct (row_reason c row text); [done|].
  destruct (json_loads (row_result row)) as [[]|]; try done. unfold canonical.
  destruct (finite (JObj kvs)) eqn:Ef; cbn; [done|]. intros [= <-]. split; [by eexists|]. split; [done|]. by exists kvs.
Qed.

(** C36: An answer served by the cache was verified: [lookup] returns a result
    only from a row stored under the document's own key that is COMPLETE,
    holds the document's timing input, the running implementation and library
    digests and a matching result checksum, and whose result text is the
    canonical text of the answer; the tables are untouched.  Any other row
    under that key is moved to [rejected] with a reason and counted as a miss,
    so a second lookup of the document finds nothing, with one exception: a row
    that passes the comparisons and whose result decodes to an object with a
    NaN or an infinity makes [lookup] raise [ValueError]. *)
Theorem lookup_verified c document k text :
  key c document = Ok (k, text) → is_open c = true → NoDup (tasks c).*1 →
  match lookup c document with
  | Ok (Some answer, c') => ∃ row, sget k (tasks c) = Some row ∧ verified c row text answer ∧
      tasks c' = tasks c ∧ rejected c' = rejected c ∧ hit (counters c') = hit (counters c) + 1
  | Ok (None, c') => sget k (tasks c') = None ∧ miss (counters c') = miss (counters c) + 1 ∧
      (∀ k', k' ≠ k → sget k' (tasks c') = sget k' (tasks c)) ∧
      match sget k (tasks c) with
      | None => rejected c' = rejected c
      | Some row => (∀ answer, ¬ verified c row text answer) ∧ ¬ unwritable c row text ∧
          ∃ reason, rejected c' = rejected c ++ [(k, reason, row)]
      end
  | Err e => (∃ detail, e = ValueError detail) ∧ ∃ row, sget k (tasks c) = Some row ∧ unwritable c row text
  end.
Proof.
  intros Hk Ho Hnd. unfold lookup, require. rewrite Hk. cbn [mbind res_bind]. rewrite Ho. cbn [check mbind res_bind].
  destruct (sget k (tasks c)) as [row|] eqn:Hrow; [|by cbn].
  destruct (row_answer c row text) as [[answer|reason]|e] eqn:Ha; cbn [mbind res_bind].
  - apply row_answer_verified in Ha. by exists row.
  - cbn. split_and!; [|done| | | |by eexists].
    + rewrite aget_adel by (try apply String.eqb_eq; done). by rewrite String.eqb_refl.
    + intros k' Hne. rewrite aget_adel by (try apply String.eqb_eq; done). by rewrite (proj2 (String.eqb_neq _ _) Hne).
    + intros answer Hv. apply row_answer_verified in Hv. congruence.
    + intros (Hr & answer & Hj & Hf). unfold row_answer in Ha. rewrite Hr, Hj in Ha. unfold canonical in Ha. by rewrite Hf in Ha.
  - destruct (row_answer_raises _ _ _ _ Ha) as [He Hu]. split; [done|]. by exists row.
Qed.

(** ** Runs of the cache *)

(** The states a cache opened on empty tables goes through, with the stores
    committed so far. *)
Inductive cache_run (impl : record) : list (record * record) → TaskCache → Prop :=
  | run_open c : open_cache impl [] [] = Ok c → cache_run impl [] c
  | run_store h c document answer c' :
      cache_run impl h c → store c document answer = Ok c' → cache_run impl (h ++ [(document, answer)]) c'
  | run_lookup h c document found c' :
      cache_run impl h c → lookup c document = Ok (found, c') → cache_run impl h c'
  | run_close h c : cache_run impl h c → cache_run impl h (close c).

(** Every row was written by a committed store under its key. *)
Record honest (h : list (record * record)) (c : TaskCache) : Prop := {
  ho_keys : NoDup (tasks c).*1;
  ho_rows : ∀ k row, sget k (tasks c) = Some row → ∃ document answer text, (document, answer) ∈ h ∧
    key c document = Ok (k, text) ∧ ∃ implementation_text result, canonical (JObj answer) = Ok result ∧
      canonical (JObj (implementation c)) = Ok implementation_text ∧ row = task_row c implementation_text text result;
}.

Lemma key_frame c c' document : implementation_sha256 c' = implementation_sha256 c → key c' document = key c document.
Proof. unfold key. by intros ->. Qed.

Lemma task_row_frame c c' t text result :
  implementation_sha256 c' = implementation_sha256 c →
  library_sha256 c' = library_sha256 c → task_row c' t text result = task_row c t text result.
Proof. unfold task_row. by intros -> ->. Qed.

Lemma honest_frame h h' c c' :
  honest h c → h ⊆ h' → implementation c' = implementation c → implementation_sha256 c' = implementation_sha256 c →
  library_sha256 c' = library_sha256 c → NoDup (tasks c').*1 →
  (∀ k row, sget k (tasks c') = Some row → sget k (tasks c) = Some row) → honest h' c'.
Proof.
  intros [_ Hr] Hh E1 E2 E3 Hnd Hsub. constructor; [done|]. intros k row Hk.
  destruct (Hr _ _ (Hsub _ _ Hk)) as (d & a & t & Hin & Hkey & it & res & Hres & Hit & ->). exists d, a, t.
  rewrite (key_frame c c') by done. split; [auto|]. split; [done|]. exists it, res. rewrite E1. split_and!; [done|done|].
  symmetry. by apply task_row_frame.
Qed.

Lemma aget_snoc k k0 (v : TaskRow) l :
  sget k (l ++ [(k0, v)]) = match sget k l with Some w => Some w | None => if String.eqb k k0 then Some v else None end.
Proof. induction l as [|[k1 v1] l IH]; cbn; [done|]. by destruct (String.eqb k k1). Qed.

Lemma cache_run_honest impl h c : cache_run impl h c → honest h c.
Proof.
  induction 1 as [c Hc|h c d a c' _ IH Hs|h c d found c' _ IH Hl|h c _ IH].
  - unfold open_cache in Hc. apply bind_Ok in Hc as (? & _ & Hc). apply bind_Ok in Hc as (? & _ & [= <-]). constructor; cbn; [constructor|done].
  - unfold store, require in Hs. apply bind_Ok in Hs as ([k text] & Hk & Hs).
    apply bind_Ok in Hs as (result & Hres & Hs). rewrite check_bind in Hs. destruct Hs as [_ Hs].
    apply bind_Ok in Hs as (it & Hit & Hs). rewrite check_bind in Hs. destruct Hs as [_ [= <-]]. destruct IH as [Hnd Hr].
    destruct (sget k (tasks c)) as [row|] eqn:Hrow.
    + eapply honest_frame; [by constructor|set_solver|done..].
    + assert (Hfresh : k ∉ (tasks c).*1) by (apply aget_None with (1 := String.eqb_eq); done).
      constructor; cbn.
      * rewrite fmap_app. apply NoDup_app. split_and!; [done|set_solver|apply NoDup_singleton].
      * intros k' row'. rewrite aget_snoc. destruct (sget k' (tasks c)) as [r'|] eqn:E.
        -- intros [= ->]. destruct (Hr _ _ E) as (d0 & a0 & t0 & ? & ? & it0 & res0 & ? & ? & ?). exists d0, a0, t0.
           split_and!; [set_solver|done|]. by exists it0, res0.
        -- destruct (String.eqb_spec k' k) as [->|]; [|done]. intros [= <-]. exists d, a, text.
           split_and!; [set_solver|done|]. by exists it, result.
  - unfold lookup, require in Hl. apply bind_Ok in Hl as ([k text] & Hk & Hl). rewrite check_bind in Hl.
    destruct Hl as [_ Hl]. pose proof (ho_keys _ _ IH).
    destruct (sget k (tasks c)) as [row|] eqn:Hrow;
      [apply bind_Ok in Hl as (found' & _ & Hl); destruct found'|]; injection Hl as <- <-; (eapply honest_frame; [exact IH|done..| |]; cbn; try done).
    + apply adel_NoDup; done.
    + intros k' row'. rewrite aget_adel by (try apply String.eqb_eq; done). by destruct (String.eqb k' k).
  - eapply honest_frame; [exact IH|done..| |done]. apply IH.
Qed.

(** Along any sequence of stores, lookups and closes of a cache opened on
    empty tables, a lookup that returns an answer returns one stored earlier
    for the same timing input (so for the same work up to its diagnostic
    identity), up to the order of keys. *)
Theorem lookup_returns_stored impl h c document answer c' :
  cache_run impl h c → lookup c document = Ok (Some answer, c') →
  ∃ document' answer' k text, (document', answer') ∈ h ∧ key c document' = Ok (k, text) ∧
    key c document = Ok (k, text) ∧ canonical (JObj answer) = canonical (JObj answer').
Proof.
  intros Hrun Hl. pose proof (ho_rows _ _ (cache_run_honest _ _ _ Hrun)) as Hr.
  unfold lookup, require in Hl. apply bind_Ok in Hl as ([k text] & Hk & Hl). rewrite check_bind in Hl.
  destruct Hl as [_ Hl]. destruct (sget k (tasks c)) as [row|] eqn:Hrow; [|done].
  apply bind_Ok in Hl as ([a|] & Ha & Hl); [|done]. injection Hl as -> <-.
  apply row_answer_verified in Ha as [_ Hin _ _ _ _ Hcan].
  destruct (Hr _ _ Hrow) as (d0 & a0 & t0 & Hin0 & Hk0 & it & res & Hres & _ & ->). cbn in Hin, Hcan. subst t0.
  exists d0, a0, k, text. by rewrite Hres.
Qed.

(** A committed store is found again: after [store document answer], a
    lookup of the document (or of any document with the same key and timing
    input) is a hit and returns the answer up to the order of keys, provided
    [json.loads] reads back what [json.dumps] wrote for it and no stored
    document of another timing input has its key. *)
Theorem store_then_lookup impl h c document answer c' k text answer' :
  cache_run impl h c → key c document = Ok (k, text) → store c document answer = Ok c' →
  (∀ result, canonical (JObj answer) = Ok result → json_loads result = Some (JObj answer')) →
  canonical (JObj answer') = canonical (JObj answer) →
  (∀ d a t, (d, a) ∈ h → key c d = Ok (k, t) → t = text) →
  lookup c' document = Ok (Some answer', with_counters c' (count_hit (counters c'))).
Proof.
  intros Hrun Hk Hs Hload Hcan Hcol. pose proof (ho_rows _ _ (cache_run_honest _ _ _ Hrun)) as Hr.
  unfold store, require in Hs. rewrite Hk in Hs. cbn [mbind res_bind] in Hs.
  apply bind_Ok in Hs as (result & Hres & Hs). rewrite check_bind in Hs. destruct Hs as [Ho Hs].
  apply bind_Ok in Hs as (it & Hit & Hs). rewrite check_bind in Hs. destruct Hs as [Hst [= <-]]. apply String.eqb_eq in Hst.
  unfold lookup, require. rewrite (key_frame c _ document) by done. rewrite Hk. cbn [mbind res_bind is_open].
  rewrite Ho. cbn [check mbind res_bind tasks].
  assert (Hrow : ∃ inserted, inserted = match sget k (tasks c) with
      | Some _ => tasks c | None => tasks c ++ [(k, task_row c it text result)] end ∧
      sget k inserted = Some (task_row c it text result)).
  { eexists. split; [reflexivity|]. destruct (sget k (tasks c)) as [row|] eqn:E.
    - rewrite E. rewrite E in Hst. cbn in Hst. destruct (Hr _ _ E) as (d0 & a0 & t0 & Hin & Hk0 & it0 & res0 & Hres0 & Hit0 & ->).
      cbn in Hst. subst res0. rewrite (Hcol _ _ _ Hin Hk0). assert (it0 = it) as -> by congruence. done.
    - by rewrite aget_snoc, E, String.eqb_refl. }
  destruct Hrow as (ins & <- & ->).
  rewrite (proj2 (row_answer_verified _ _ _ answer')); [done|]. constructor; try done; [by apply Hload|by rewrite Hcan].
Qed.
End Cache.

(** ** A concrete run *)

Definition sample_document : record :=
  [("profile", JStr "a8w8-d16-hp1"); ("request", JObj [("m", JInt 16); ("logical_work_id", JInt 3)])].
Definition sample_document' : record :=
  [("profile", JStr "a8w8-d16-hp1"); ("request", JObj [("logical_work_id", JInt 9); ("m", JInt 16)])].
Definition sample_answer : record := [("total_cycles", JInt 120)].
Definition sample_implementation : record := [("library_sha256", JStr "lib")].
Definition sample_loads (text : string) : option json :=
  if String.eqb text (dump (JObj sample_answer)) then Some (JObj sample_answer) else None.

Definition sample_cache : res TaskCache := open_cache (H := text_host) sample_implementation [] [].

(** The cache after its one store, and the same with a row whose result was
    replaced, checksum and all, by an object that holds a NaN. *)
Definition stored_cache : res TaskCache :=
  let* c := sample_cache in store (H := text_host) c sample_document sample_answer.
Definition nan_loads (text : string) : option json :=
  if String.eqb text "nan" then Some (JObj [("total_cycles", JFloat S754_nan)]) else sample_loads text.
Definition with_result (text : string) (row : TaskRow) : TaskRow := {|
  row_timing_input := row_timing_input row; row_timing_sha256 := row_timing_sha256 row;
  row_implementation := row_implementation row; row_implementation_sha256 := row_implementation_sha256 row;
  row_library_sha256 := row_library_sha256 row; row_result := text; row_result_sha256 := text; row_status := row_status row |}.
Definition nan_cache : res TaskCache :=
  let* c := stored_cache in
  Ok {| implementation := implementation c; implementation_sha256 := implementation_sha256 c; library_sha256 := library_sha256 c;
        tasks := map (fun kr => (kr.1, with_result "nan" kr.2)) (tasks c); rejected := rejected c;
        counters := counters c; is_open := is_open c |}.

(** A row the cache cannot use is not quarantined when its result has a NaN. *)
Example nan_row_raises :
  (let* c := nan_cache in lookup (H := text_host) nan_loads c sample_document)
  = Err (ValueError "Out of range float values are not JSON compliant").
Proof. vm_compute. reflexivity. Qed.

(** A hit, for a document that differs in its diagnostic identity only. *)
Lemma lookup_verified_witness :
  ∃ c k text row c', stored_cache = Ok c ∧ key (H := text_host) c sample_document' = Ok (k, text) ∧
    lookup (H := text_host) sample_loads c sample_document' = Ok (Some sample_answer, c') ∧
    sget k (tasks c) = Some row ∧ verified (H := text_host) sample_loads c row text sample_answer.
Proof.
  destruct stored_cache as [c|] eqn:E; [|vm_compute in E; discriminate E].
  destruct (key (H := text_host) c sample_document') as [[k text]|] eqn:Hk;
    [|vm_compute in E; injection E as <-; vm_compute in Hk; discriminate Hk].
  assert (Ho : is_open c = true ∧ NoDup (tasks c).*1).
  { vm_compute in E. injection E as <-. split; [reflexivity|]. repeat constructor. set_solver. }
  pose proof (lookup_verified (H := text_host) sample_loads c sample_document' k text Hk (proj1 Ho) (proj2 Ho)) as Hl.
  destruct (lookup (H := text_host) sample_loads c sample_document') as [[[answer|] c']|] eqn:El;
    [|vm_compute in E; injection E as <-; vm_compute in El; discriminate El..].
  assert (answer = sample_answer) as ->.
  { vm_compute in E; injection E as <-; vm_compute in El. injection El as <- _. reflexivity. }
  destruct Hl as (row & Hrow & Hv & _). exists c, k, text, row, c'.
  split; [reflexivity|]. split; [exact Hk|]. split; [exact El|]. split; [exact Hrow|exact Hv].
Defined.

Lemma store_then_lookup_witness :
  ∃ c c', sample_cache = Ok c ∧ store (H := text_host) c sample_document sample_answer = Ok c' ∧
    lookup (H := text_host) sample_loads c' sample_document =
      Ok (Some sample_answer, with_counters c' (count_hit (counters c'))).
Proof.
  destruct sample_cache as [c|] eqn:E; [|vm_compute in E; discriminate E].
  destruct (store (H := text_host) c sample_document sample_answer) as [c'|] eqn:Hs; [|vm_compute in E; injection E as <-; vm_compute in Hs; discriminate Hs].
  destruct (key (H := text_host) c sample_document) as [[k text]|] eqn:Hk; [|vm_compute in Hk; discriminate Hk].
  exists c, c'. split; [reflexivity|]. split; [exact Hs|].
  apply (store_then_lookup (H := text_host) sample_loads sample_implementation [] c sample_document sample_answer c' k text sample_answer);
    [by apply run_open|exact Hk|exact Hs|intros result Hres; vm_compute in Hres; injection Hres as <-; vm_compute; reflexivity|reflexivity|].
  intros d a t Hin. inversion Hin.
Defined.

Lemma lookup_returns_stored_witness :
  ∃ c c' answer c'', sample_cache = Ok c ∧ store (H := text_host) c sample_document sample_answer = Ok c' ∧
    lookup (H := text_host) sample_loads c' sample_document' = Ok (Some answer, c'') ∧
    canonical (H := text_host) (JObj answer) = canonical (H := text_host) (JObj sample_answer).
Proof.
  destruct sample_cache as [c|] eqn:E; [|vm_compute in E; discriminate E].
  destruct (store (H := text_host) c sample_document sample_answer) as [c'|] eqn:Hs; [|vm_compute in E; injection E as <-; vm_compute in Hs; discriminate Hs].
  destruct (lookup (H := text_host) sample_loads c' sample_document') as [[[answer|] c'']|] eqn:Hl;
    [|vm_compute in E; injection E as <-; vm_compute in Hs; injection Hs as <-; vm_compute in Hl; discriminate Hl..].
  exists c, c', answer, c''. split; [reflexivity|]. split; [exact Hs|]. split; [exact Hl|].
  destruct (lookup_returns_stored (H := text_host) sample_loads sample_implementation
    [(sample_document, sample_answer)] c' sample_document' answer c'') with (2 := Hl) as (d & a & k & t & Hin & _ & _ & Hc).
  { apply (run_store (H := text_host) _ _ [] c _ _ c'); [by apply run_open|exact Hs]. }
  apply list_elem_of_singleton in Hin. injection Hin as -> ->. exact Hc.
Defined.
