(* ===== verification/ReplayTheorems.v ===== *)
(** * The binding cache of the replay is transparent

    [Replay.replay] interleaves validation, estimation through the bounded
    cache and accounting.  It refines a specification that validates the whole
    trace first and asks the model once per work, without a cache. *)
From S2P Require Import Prelude Records Profiles TraceSchema TraceIntegrity TraceSample TraceTheorems Replay TaskCache.
Set Default Goal Selector "!".

(** ** What parsing establishes about a work *)

Record wf_work (w : Work) : Prop := {
  ww_inputs : length (inputs w) = 10%nat;
  ww_dense : provenance w ≠ "residual" → runs w = [] ∧ original_k w = None;
}.

Lemma work_runs_dense r run p sc m n k view :
  work_runs r run p sc m n k = Ok view → p ≠ "residual" → view.1.1.2 = [] ∧ view.1.1.1 = None.
Proof.
  unfold work_runs, require, require_res. intros Hv Hp. apply String.eqb_neq in Hp. rewrite Hp in Hv.
  apply bind_Ok in Hv as (v & _ & Hv). destruct (v =? VERSION).
  - apply bind_Ok in Hv as ([] & _ & Hv). apply bind_Ok in Hv as (b & _ & Hv). apply bind_Ok in Hv as ([] & _ & Hv).
    apply bind_Ok in Hv as ([] & _ & [= <-]). done.
  - apply bind_Ok in Hv as ([] & _ & [= <-]). done.
Qed.

Lemma parse_work_wf r run w : parse_work r run = Ok w → wf_work w.
Proof.
  intros Hw. pose proof (parse_work_geometry _ _ _ Hw) as Hg.
  constructor.
  - apply geo_inputs in Hg as (m & n & k & ti & tj & tk & a & b & out & sc & -> & _). done.
  - unfold parse_work, require, require_res in Hw. destruct (widths_dim run) as [[ra rw] dim].
    repeat match type of Hw with mbind _ (work_runs _ _ _ _ _ _ _) = _ => fail 1
      | mbind _ _ = Ok _ => apply bind_Ok in Hw as (? & ? & Hw)
      | (let '(_, _) := ?x in _) = Ok _ => destruct x end.
    apply bind_Ok in Hw as (view & Hv & Hw). pose proof (work_runs_dense _ _ _ _ _ _ _ _ Hv) as Hd.
    destruct view as [[[ok spans] rows] rev]. cbn in Hd.
    repeat match type of Hw with mbind _ _ = Ok _ => apply bind_Ok in Hw as (? & ? & Hw) end.
    injection Hw as <-. cbn. intros Hp. by destruct (Hd Hp).
Qed.

Lemma work_record_wf s r s' w : work_record s r = Ok (s', w) → wf_work w.
Proof.
  unfold work_record. intros Hw. apply bind_Ok in Hw as (w0 & Hp & Hw). apply parse_work_wf in Hp.
  do 6 (apply bind_Ok in Hw as (? & _ & Hw)). apply bind_Ok in Hw as ([? ?] & _ & Hw).
  by apply bind_Ok in Hw as (? & _ & [= _ <-]).
Qed.

Lemma complete_operation_run s r s' : complete_operation s r = Ok s' → run s' = run s.
Proof.
  unfold complete_operation. intros Hc. do 22 (apply bind_Ok in Hc as (? & _ & Hc)).
  do 3 (apply bind_Ok in Hc as (? & _ & Hc)). by injection Hc as <-.
Qed.

Lemma consume_run s r s' o : consume s r = Ok (s', o) → run s' = run s.
Proof.
  intros (_ & m & He)%consume_effect. destruct He as [w H|H|H|H|H|H].
  - by apply work_record_inv in H as (_ & _ & _ & _ & _ & _ & _ & _ & H & _).
  - by apply phase_record_frame in H as ->.
  - by apply call_record_frame in H as [-> _].
  - by apply host_record_frame in H as ->.
  - by apply complete_operation_run in H.
  - by apply end_record_frame in H as [-> _].
Qed.

Lemma consume_wf s r s' w : consume s r = Ok (s', Some w) → wf_work w.
Proof.
  intros (_ & m & He)%consume_effect. inversion He as [? H| | | | |]. by eapply work_record_wf.
Qed.

(** ** The specification *)
Section Spec.
Context `{Host}.
Context (estimate : record → res record).
Context (model_contract : string → res record).
Context (cert : Certificate).

(** One work, estimated by the model itself. *)
Definition spec_work (ids : record) (profile : string) (acc : Totals * list record) (rw : record * Work)
    : res (Totals * list record) :=
  let '(r, w) := rw in
  admissible cert w ;;;
  let* result := answer estimate profile w in
  let* row := result_row ids r w result in
  let* t := account acc.1 w result in
  Ok (t, acc.2 ++ [row]).

Definition replay_spec (lines : list (option json)) : res (list record * record) :=
  match lines with
  | [] => Err (NpuTraceError "empty log")
  | line :: rest =>
      let* s := start_trace line in
      let profile := run_profile (run s) in
      let* contracts_value := item (cert_document cert) "hardware_contracts" in
      let* contracts := object_value contracts_value in
      let* certified := object_value (pget contracts profile) in
      Contract.compatible (run_contract (run s)) certified ;;;
      let* current := model_contract profile in
      Contract.compatible (run_contract (run s)) current ;;;
      let* ids := identities cert profile in
      let* trace := run_trace lines in
      let* acc := fold_res (spec_work ids profile) (no_totals, []) trace.2 in
      let* summary := replay_summary cert ids trace.1 acc.1 in
      Ok (acc.2, summary)
  end.

(** The estimate of a document does not depend on the diagnostic work id. *)
Definition ignores_identity : Prop :=
  ∀ d1 d2, timing_input d1 = timing_input d2 → estimate d1 = estimate d2.

(** No two works of the list have colliding bindings. *)
Definition collision_free (ws : list Work) : Prop :=
  ∀ w1 w2, w1 ∈ ws → w2 ∈ ws → work_binding w1 = work_binding w2 → binding_view w1 = binding_view w2.

Lemma binding_view_fields w1 w2 :
  binding_view w1 = binding_view w2 → inputs w1 = inputs w2 ∧ original_k w1 = original_k w2 ∧ runs w1 = runs w2.
Proof.
  unfold binding_view. intros [= E1 E2 E3 _ _].
  split_and!.
  - eapply map_injective; [|exact E1]. by intros ? ? [= ->].
  - destruct (original_k w1), (original_k w2); congruence.
  - eapply map_injective; [|exact E3]. intros [] []. cbn. by intros [= -> -> -> ->].
Qed.

(** The document of two works with the same view differs in the id alone. *)
Lemma model_document_timing profile w1 w2 :
  wf_work w1 → wf_work w2 → inputs w1 = inputs w2 → original_k w1 = original_k w2 → runs w1 = runs w2 →
  String.eqb (provenance w1) "residual" = String.eqb (provenance w2) "residual" →
  match model_document profile w1, model_document profile w2 with
  | Ok d1, Ok d2 => timing_input d1 = timing_input d2
  | Err e1, Err e2 => e1 = e2
  | _, _ => False
  end.
Proof.
  intros [Hl _] _ E1 E2 E3 E4. unfold model_document. rewrite <-E1, <-E2, <-E3, <-E4.
  destruct (inputs w1) as [|i0 [|i1 [|i2 [|i3 [|i4 [|i5 [|i6 [|i7 [|i8 [|i9 [|? ?]]]]]]]]]]]; try discriminate Hl.
  cbn [request_fields length document_keys Nat.eqb mbind res_bind].
  destruct (String.eqb _ "residual"); [|reflexivity].
  destruct (require _ _); [|done]. cbn [mbind res_bind]. reflexivity.
Qed.

Lemma answer_same profile w1 w2 :
  ignores_identity → wf_work w1 → wf_work w2 → admissible cert w1 = Ok tt → admissible cert w2 = Ok tt →
  binding_view w1 = binding_view w2 → answer estimate profile w1 = answer estimate profile w2.
Proof.
  intros Hest H1 H2 Ha1 Ha2 (E1 & E2 & E3)%binding_view_fields.
  assert (Hprov : ∀ w, wf_work w → admissible cert w = Ok tt → String.eqb (provenance w) "residual" = true ↔ runs w ≠ []).
  { intros w Hw Ha. unfold admissible, require in Ha. rewrite check_bind in Ha. destruct Ha as [Ha _].
    destruct (String.eqb_spec (provenance w) "residual") as [Ep|Ep]; cbn in Ha; split; try done.
    - intros _. by destruct (runs w).
    - intros Hne. by destruct (ww_dense _ Hw Ep). }
  pose proof (model_document_timing profile w1 w2 H1 H2 E1 E2 E3) as Hd.
  assert (Hp : String.eqb (provenance w1) "residual" = String.eqb (provenance w2) "residual").
  { apply eq_true_iff_eq. by rewrite !Hprov, E3. }
  specialize (Hd Hp). unfold answer.
  destruct (model_document profile w1) as [d1|], (model_document profile w2) as [d2|]; try done.
  - cbn [mbind res_bind]. by rewrite (Hest _ _ Hd).
  - by subst.
Qed.

(** Every cached answer is the answer of some admissible work of the trace. *)
Definition cache_ok (profile : string) (ws : list Work) (c : list (string * record)) : Prop :=
  ∀ b result, (b, result) ∈ c → ∃ w, w ∈ ws ∧ wf_work w ∧ admissible cert w = Ok tt ∧ work_binding w = b ∧
    answer estimate profile w = Ok result.

Lemma cache_insert_ok profile ws c w result :
  cache_ok profile ws c → w ∈ ws → wf_work w → admissible cert w = Ok tt → answer estimate profile w = Ok result →
  cache_ok profile ws (cache_insert c (work_binding w) result).
Proof.
  intros Hc Hin Hw Ha Hr b r [Hb|Hb]%elem_of_app.
  - apply Hc. destruct (Nat.eqb _ _); [|done]. by destruct c; [|constructor].
  - apply list_elem_of_singleton in Hb as [= -> ->]. by exists w.
Qed.

(** One work: the cached loop does what the specification does. *)
Lemma replay_work_spec ids profile ws loop r w :
  ignores_identity → collision_free ws → cache_ok profile ws (cache loop) → w ∈ ws → wf_work w →
  ∃ c, (∀ acc, spec_work ids profile (totals loop, rows loop) (r, w) = Ok acc → cache_ok profile ws c) ∧
  replay_work estimate cert ids profile loop (r, w) =
    (let* acc := spec_work ids profile (totals loop, rows loop) (r, w) in
     Ok {| cache := c; totals := acc.1; rows := acc.2 |}).
Proof.
  intros Hest Hcol Hc Hin Hw. unfold replay_work, spec_work.
  destruct (admissible cert w) as [[]|] eqn:Ha; [|by exists []]. cbn [mbind res_bind].
  unfold cached_answer. destruct (sget (work_binding w) (cache loop)) as [result|] eqn:Hget.
  - apply aget_In in Hget; [|apply String.eqb_eq]. destruct (Hc _ _ Hget) as (w0 & Hin0 & Hw0 & Ha0 & Hb & Hr).
    rewrite (answer_same profile w w0), Hr; try done; [|by apply Hcol]. cbn [mbind res_bind].
    exists (cache loop). split; [done|]. destruct (result_row ids r w result); [|done]. cbn [mbind res_bind fst snd].
    by destruct (account _ _ _).
  - destruct (answer estimate profile w) as [result|] eqn:Hr; [|by exists []]. cbn [mbind res_bind].
    exists (cache_insert (cache loop) (work_binding w) result). split; [intros _ _; by apply cache_insert_ok|].
    destruct (result_row ids r w result); [|done]. cbn [mbind res_bind fst snd]. by destruct (account _ _ _).
Qed.

Definition work_of (r : record) (o : option Work) : list (record * Work) :=
  match o with Some w => [(r, w)] | None => [] end.

Lemma trace_step_eq n s ws line :
  trace_step (n, s, ws) line =
  (let* r := read_record n line in let* sw := consume s r in Ok (n + 1, sw.1, ws ++ work_of r sw.2)).
Proof. done. Qed.

(** The works of a trace do not depend on those collected before. *)
Lemma trace_steps_prefix lines : ∀ n s ws0 ws,
  fold_res trace_step (n, s, ws0 ++ ws) lines =
  (let* st := fold_res trace_step (n, s, ws) lines in Ok (st.1, ws0 ++ st.2)).
Proof.
  induction lines as [|line lines IH]; intros n s ws0 ws; [done|]. cbn [fold_res].
  rewrite !trace_step_eq. destruct (read_record n line) as [r|]; [|done]. cbn [mbind res_bind].
  destruct (consume s r) as [sw|]; [|done]. cbn [mbind res_bind]. by rewrite <-(assoc_L (++)), IH.
Qed.

Lemma trace_steps_cons n s line lines :
  fold_res trace_step (n, s, []) (line :: lines) =
  (let* r := read_record n line in
   let* sw := consume s r in
   let* st := fold_res trace_step (n + 1, sw.1, []) lines in
   Ok (st.1, work_of r sw.2 ++ st.2)).
Proof.
  cbn [fold_res]. rewrite trace_step_eq. destruct (read_record n line) as [r|]; [|done]. cbn [mbind res_bind].
  destruct (consume s r) as [sw|]; [|done]. cbn [mbind res_bind]. rewrite <-(app_nil_r (_ ++ _)).
  by rewrite trace_steps_prefix.
Qed.

Lemma replay_step_eq ids n s loop line :
  replay_step estimate cert ids (n, s, loop) line =
  (let* r := read_record n line in let* sw := consume s r in
   let* loop' := match sw.2 with
     None => Ok loop | Some w => replay_work estimate cert ids (run_profile (run s)) loop (r, w) end in
   Ok (n + 1, sw.1, loop')).
Proof. done. Qed.

(** What the loop publishes, without its cache. *)
Definition published (st : Z * TraceState * LoopState) : Z * TraceState * (Totals * list record) :=
  (st.1, (totals st.2, rows st.2)).

Lemma replay_steps_spec ids ws lines : ∀ n s loop n' s' new,
  ignores_identity → collision_free ws → cache_ok (run_profile (run s)) ws (cache loop) →
  fold_res trace_step (n, s, []) lines = Ok (n', s', new) → new.*2 ⊆ ws →
  published <$> fold_res (replay_step estimate cert ids) (n, s, loop) lines =
  (let* acc := fold_res (spec_work ids (run_profile (run s))) (totals loop, rows loop) new in Ok (n', s', acc)).
Proof.
  induction lines as [|line lines IH]; intros n s loop n' s' new Hest Hcol Hc Htr Hsub.
  { by injection Htr as <- <- <-. }
  rewrite trace_steps_cons in Htr. cbn [fold_res]. rewrite replay_step_eq.
  destruct (read_record n line) as [r|]; [|done]. cbn [mbind res_bind] in *.
  destruct (consume s r) as [[s1 o]|] eqn:Hcons; [|done]. cbn [mbind res_bind fst snd] in *.
  apply bind_Ok in Htr as ([[n2 s2] rest] & Htr & [= -> -> <-]).
  pose proof (consume_run _ _ _ _ Hcons) as Hrun. destruct o as [w|]; cbn [work_of app] in *.
  - assert (w ∈ ws) by (apply Hsub; constructor). assert (rest.*2 ⊆ ws) by (intros ??; apply Hsub; by constructor).
    destruct (replay_work_spec ids (run_profile (run s)) ws loop r w) as (c & Hc' & ->); try done.
    { by eapply consume_wf. }
    cbn [fold_res]. destruct (spec_work _ _ _ _) as [acc|]; [|done]. cbn [mbind res_bind].
    rewrite <-Hrun in Hc' |- *. rewrite (IH _ _ {| cache := c; totals := acc.1; rows := acc.2 |} _ _ _ Hest Hcol (Hc' _ eq_refl) Htr) by done.
    by destruct acc.
  - cbn [mbind res_bind]. rewrite <-Hrun in Hc |- *. by rewrite (IH _ _ loop _ _ _ Hest Hcol Hc Htr).
Qed.

(** The loop succeeds on valid traces only. *)
Lemma replay_steps_valid ids lines : ∀ n s loop st,
  fold_res (replay_step estimate cert ids) (n, s, loop) lines = Ok st →
  ∃ new, fold_res trace_step (n, s, []) lines = Ok (st.1, new).
Proof.
  induction lines as [|line lines IH]; intros n s loop st Hf.
  { injection Hf as <-. by exists []. }
  rewrite trace_steps_cons. cbn [fold_res] in Hf. apply bind_Ok in Hf as (st1 & Hs & Hf).
  unfold replay_step in Hs. apply bind_Ok in Hs as (r & -> & Hs). apply bind_Ok in Hs as (sw & Hsw & Hs).
  apply bind_Ok in Hs as (l & _ & [= <-]). cbn [mbind res_bind]. rewrite Hsw. cbn [mbind res_bind].
  destruct (IH _ _ _ _ Hf) as [new ->]. by eexists.
Qed.

(** C31: The replay of a trace publishes what its specification says: validate
    the whole trace, then ask the model for every work separately and account
    the answers.  The bounded cache keyed by the binding digest, its eviction
    and the interleaving of validation and estimation are invisible, for a
    model whose answers do not depend on the diagnostic work id and digests
    that do not collide on the works of the trace. *)
Theorem replay_cache_transparent lines out :
  ignores_identity → (∀ s ws, run_trace lines = Ok (s, ws) → collision_free ws.*2) →
  replay estimate model_contract cert lines = Ok out ↔ replay_spec lines = Ok out.
Proof.
  intros Hest Hcol. unfold replay, replay_spec. destruct lines as [|line rest]; [done|].
  destruct (start_trace line) as [s|] eqn:Hs; [|done]. cbn [mbind res_bind].
  repeat match goal with |- mbind _ ?m = _ ↔ mbind _ ?m = _ => destruct m; [cbn [mbind res_bind]|done] end.
  cbn [run_trace] in *. rewrite Hs in *. cbn [mbind res_bind] in *.
  assert (Hc0 : ∀ ws, cache_ok (run_profile (run s)) ws []) by (intros ? ? ? []%not_elem_of_nil).
  destruct (fold_res trace_step (1, s, []) rest) as [[[n' s'] new]|e] eqn:Htr; cbn [mbind res_bind fst snd] in *.
  - specialize (Hcol _ _ eq_refl).
    match goal with |- context [replay_step _ _ ?ids] =>
      pose proof (replay_steps_spec ids new.*2 rest 1 s loop_start n' s' new Hest Hcol (Hc0 _) Htr) as E end.
    specialize (E ltac:(done)). cbn [loop_start totals rows] in E.
    destruct (fold_res (replay_step _ _ _) _ _) as [[[n2 s2] l2]|]; destruct (fold_res (spec_work _ _) _ _) as [acc|];
      cbn [mbind res_bind fmap res_map published fst snd] in *; try done.
    by injection E as -> -> <-.
  - split; [|done]. intros (final & Hf & _)%bind_Ok. destruct (replay_steps_valid _ _ _ _ _ _ Hf) as [? E]. congruence.
Qed.
End Spec.

(** ** Accounting *)

Lemma merge_records_app r u1 u2 : merge_records r (u1 ++ u2) = merge_records (merge_records r u1) u2.
Proof. apply fold_left_app. Qed.

(** The cycles a published row reports. *)
Definition row_cycles (row : record) (cycles : Z) : Prop :=
  ∃ result, pget row "modeled" = JObj result ∧ integer result "total_cycles" = Ok cycles.

Definition accounted (loop : LoopState) : Prop :=
  ∃ cycles, Forall2 row_cycles (rows loop) cycles ∧
    sum (per_phase (totals loop)).*2 = sum cycles ∧ sum (per_layer (totals loop)).*2 = sum cycles.

Section Accounting.
Context `{Host}.
Context (estimate : record → res record).
Context (model_contract : string → res record).
Context (cert : Certificate).

Lemma result_row_cycles ids r w result row cycles :
  result_row ids r w result = Ok row → integer result "total_cycles" = Ok cycles → row_cycles row cycles.
Proof.
  unfold result_row. intros (q & _ & [= <-])%bind_Ok Hc. exists result. split; [|done].
  rewrite merge_records_app. generalize (merge_records r ids). intros base. unfold pget, merge_records.
  cbn [fold_left]. by rewrite aget_aset by apply String.eqb_eq.
Qed.

Lemma account_sums t w result t' :
  account t w result = Ok t' → ∃ cycles, integer result "total_cycles" = Ok cycles ∧
    sum (per_phase t').*2 = sum (per_phase t).*2 + cycles ∧ sum (per_layer t').*2 = sum (per_layer t).*2 + cycles.
Proof.
  unfold account. intros (c & Hc & (l & _ & [= <-])%bind_Ok)%bind_Ok. exists c. cbn. by rewrite !sum_aset.
Qed.

Lemma replay_work_accounted ids profile loop rw loop' :
  accounted loop → replay_work estimate cert ids profile loop rw = Ok loop' → accounted loop'.
Proof.
  intros (cycles & Hf & Hp & Hl) Hw. destruct rw as [r w]. unfold replay_work in Hw.
  apply bind_Ok in Hw as (_ & _ & Hw). apply bind_Ok in Hw as ([c result] & _ & Hw).
  apply bind_Ok in Hw as (row & Hrow & Hw). apply bind_Ok in Hw as (t & (n & Hn & Hp' & Hl')%account_sums & [= <-]).
  exists (cycles ++ [n]). cbn. rewrite Hp', Hl', sum_app. split_and!.
  - apply Forall2_app; [done|]. constructor; [|done]. by eapply result_row_cycles.
  - cbn. lia.
  - cbn. lia.
Qed.

Lemma replay_summary_sums ids s t base :
  replay_summary cert ids s t = Ok base →
  pget base "isolated_cycle_sum" = JInt (sum (per_phase t).*2) ∧
  pget base "per_layer_cycle_sums" = JObj (map (fun e => (e.1, JInt e.2)) (sort_layers (per_layer t))).
Proof.
  unfold replay_summary. intros Hs. apply bind_Ok in Hs as (b & _ & Hs).
  do 2 apply bind_Ok in Hs as (? & _ & Hs). apply bind_Ok in Hs as (? & _ & <-%Ok_eq).
  generalize (merge_records b ids). intros r. unfold pget, merge_records. cbn [fold_left].
  split; repeat (rewrite aget_aset by apply String.eqb_eq; cbn [String.eqb Ascii.eqb Bool.eqb]); done.
Qed.

(** The accounting of a replay balances: the published [isolated_cycle_sum]
    is the sum of the [total_cycles] of the published rows, one per work, and
    so is the sum of the per-layer totals. *)
Theorem replay_accounting lines out summary :
  replay estimate model_contract cert lines = Ok (out, summary) →
  ∃ cycles layers, Forall2 row_cycles out cycles ∧ pget summary "isolated_cycle_sum" = JInt (sum cycles) ∧
    pget summary "per_layer_cycle_sums" = JObj (map (fun e => (e.1, JInt e.2)) layers) ∧ sum layers.*2 = sum cycles.
Proof.
  unfold replay. destruct lines as [|line rest]; [done|]. intros Hr.
  do 7 apply bind_Ok in Hr as (? & _ & Hr). apply bind_Ok in Hr as (ids & _ & Hr).
  apply bind_Ok in Hr as (final & Hf & (sm & Hs & [= <- <-])%bind_Ok).
  apply (fold_res_inv (fun st => accounted st.2)) in Hf; [|by exists []|].
  - destruct Hf as (cycles & Hrows & Hp & Hl). apply replay_summary_sums in Hs as [-> ->].
    exists cycles, (sort_layers (per_layer (totals final.2))). by rewrite sum_sort_layers, Hp, Hl.
  - intros ln [[n s] loop] st2 _ Hacc. rewrite replay_step_eq.
    intros (r & _ & (sw & _ & (l & Hl & [= <-])%bind_Ok)%bind_Ok)%bind_Ok. cbn in *.
    destruct (sw.2); [exact (replay_work_accounted ids (run_profile (run s)) _ (r, _) _ Hacc Hl)|by injection Hl as <-].
Qed.
End Accounting.

(** ** The theorems on the sample trace *)

Definition sample_certificate : Certificate := {|
  cert_document := [("schema", JStr "certificate"); ("version", JInt 1);
    ("hardware_contracts", JObj [("a8w8-d16-hp1", JObj sample_contract)]); ("reference_memory", JNull)];
  run_scope := None; Replay.library_sha256 := zeros; certificate_sha256 := zeros;
  transition_sha256 := JNull; run_certificate_sha256 := JNull;
|}.

(** A model of [k] cycles per row. *)
Definition sample_estimate (document : record) : res record :=
  let* input := timing_input document in
  let* request := object_value (pget input "request") in
  let* m := integer request "m" in
  let* k := integer request "k" in
  Ok [("status", JStr "PASS"); ("result", JObj [("total_cycles", JInt (m * k)); ("planner_loop_count", JInt 1);
      ("loop_count", JInt 1); ("fragment_count", JInt 1); ("scale_request_count", JInt 0)])].

Definition sample_replay : res (list record * record) :=
  replay (H := text_host) sample_estimate (fun _ => Ok sample_contract) sample_certificate sample_lines.

Lemma sample_ignores_identity : ignores_identity sample_estimate.
Proof. intros d1 d2 E. unfold sample_estimate. by rewrite E. Qed.

Lemma sample_collision_free :
  ∀ s ws, run_trace (H := text_host) sample_lines = Ok (s, ws) → collision_free (H := text_host) ws.*2.
Proof.
  intros s ws E. vm_compute in E. injection E as _ <-. intros w1 w2 H1 H2. cbn in H1, H2.
  rewrite !elem_of_cons, elem_of_nil in H1. rewrite !elem_of_cons, elem_of_nil in H2.
  destruct H1 as [->|[->|[]]], H2 as [->|[->|[]]]; intros E.
  - reflexivity.
  - exfalso. revert E. apply String.eqb_neq. vm_compute. reflexivity.
  - exfalso. revert E. apply String.eqb_neq. vm_compute. reflexivity.
  - reflexivity.
Qed.

Lemma sample_replay_Ok : ∃ out summary, sample_replay = Ok (out, summary) ∧ length out = 2%nat.
Proof.
  destruct sample_replay as [[out summary]|] eqn:E; [|vm_compute in E; discriminate E].
  exists out, summary. split; [done|]. vm_compute in E. by injection E as <- _.
Qed.

Lemma replay_cache_transparent_witness :
  ∃ out, replay_spec (H := text_host) sample_estimate (fun _ => Ok sample_contract) sample_certificate sample_lines = Ok out.
Proof.
  destruct sample_replay_Ok as (out & summary & E & _). exists (out, summary).
  exact (proj1 (replay_cache_transparent (H := text_host) _ _ _ _ _ sample_ignores_identity sample_collision_free) E).
Defined.

Lemma replay_accounting_witness :
  ∃ out summary cycles, sample_replay = Ok (out, summary) ∧ length cycles = 2%nat ∧
    pget summary "isolated_cycle_sum" = JInt (sum cycles).
Proof.
  destruct sample_replay_Ok as (out & summary & E & Hlen). exists out, summary.
  destruct (replay_accounting (H := text_host) _ _ _ _ _ _ E) as (cycles & layers & Hf & Hs & _).
  exists cycles. split; [exact E|]. split; [|exact Hs]. rewrite <-Hlen. symmetry. exact (Forall2_length _ _ _ Hf).
Defined.
