(* ===== verification/Sequence.v ===== *)
(** * Sessions of the native sequence engine

    [sim/cycle/sequence_binding_abi.py] and [sim/cycle/sequence_binding.py]:
    the result codes and records of the C interface, the width checks on every
    argument, and the session object that owns the native handle.  The engine
    itself is C++: class [Native] names the functions of its C interface. *)
From S2P Require Import Prelude Records Profiles TraceSchema Domains.
Set Default Goal Selector "!".

(** ** [sequence_binding_abi.py] *)

Inductive Code : Type :=
  | OK | INCOMPLETE | WOULD_BLOCK | INVALID | UNSUPPORTED | OVERFLOW | LIMIT | INTERNAL | FAULTED.
#[export] Instance Code_eq_dec : EqDecision Code.
Proof. solve_decision. Defined.
Definition code_value (c : Code) : Z :=
  match c with
  | OK => 0 | INCOMPLETE => 1 | WOULD_BLOCK => 2 | INVALID => -1 | UNSUPPORTED => -2 | OVERFLOW => -3
  | LIMIT => -4 | INTERNAL => -5 | FAULTED => -6
  end.
Definition all_codes : list Code :=
  [OK; INCOMPLETE; WOULD_BLOCK; INVALID; UNSUPPORTED; OVERFLOW; LIMIT; INTERNAL; FAULTED].
(** [Code(raw)]; [None] where the enumeration raises. *)
Definition parse_code (raw : Z) : option Code := List.find (fun c => code_value c =? raw) all_codes.

Inductive StopReason : Type :=
  | NONE | TARGET | WORK_BUDGET | SESSION_BUDGET | FAULT | REPORT_BUFFER | EVENT_BUFFER_AVAILABLE
  | EVENT_BURST | REPORT_AVAILABLE | SOFT_BUDGET.
Definition stop_value (r : StopReason) : Z :=
  match r with
  | NONE => 0 | TARGET => 1 | WORK_BUDGET => 2 | SESSION_BUDGET => 3 | FAULT => 4 | REPORT_BUFFER => 5
  | EVENT_BUFFER_AVAILABLE => 6 | EVENT_BURST => 7 | REPORT_AVAILABLE => 8 | SOFT_BUDGET => 9
  end.

Definition sequence_error (c : Code) (operation : string) : exn := SequenceError (code_value c) operation.

Definition uint (value bits : Z) (name : string) : res Z :=
  check (0 <=? value) (sequence_error INVALID name) ;;;
  check (value <? 2 ^ bits) (sequence_error OVERFLOW name) ;;;
  Ok value.

Definition checked (raw : Z) (operation : string) : res Code :=
  match parse_code raw with
  | None => Err (sequence_error INTERNAL operation)
  | Some code => if code_value code <? 0 then Err (sequence_error code operation) else Ok code
  end.

Record SourceIdentity := {
  identity_profile : string;
  identity_library_sha256 : string;
  identity_source_sha256 : list (string * string);
}.
#[export] Instance SourceIdentity_eq_dec : EqDecision SourceIdentity.
Proof. solve_decision. Defined.

Record Settings := {
  read_ready_period : Z;
  max_work_cycles : option Z;
  max_session_cycles : option Z;
  max_fragments : option Z;
  max_trace_events : option Z;
  max_work_ids : option Z;
}.
Definition default_settings : Settings := {|
  read_ready_period := 5; max_work_cycles := None; max_session_cycles := None;
  max_fragments := None; max_trace_events := None; max_work_ids := None |}.

(** [Work] carries the eleven 64-bit fields of [WORK_U64] in order. *)
Definition WORK_U64 : list string :=
  ["logical_work_id"; "m"; "n"; "k"; "tile_i"; "tile_j"; "tile_k";
   "activation_stride_bytes"; "weight_stride_bytes"; "output_stride_bytes"; "scale_stride_elements"].
Record SequenceWork := {
  work_words : list Z;
  work_original_k : option Z;
  work_spans : list RunSpan;
  work_submission : Z;
  work_record_events : bool;
}.

(** The structures of the C interface. *)
Record Config := {
  config_hardware : list Z;
  config_read_ready_period : Z;
  config_limits : list (string * Z);
}.

Record CompactRuns := { runs_original_k : Z; run_count : Z; runs_entries : list (list Z) }.

Record Descriptor := {
  descriptor_words : list Z;
  descriptor_compact_runs : option CompactRuns;
  descriptor_submission : Z;
  descriptor_record_events : Z;
}.

Record Status := {
  status_generation : Z; status_cursor : Z; session_cycles : Z; work_cycles : Z; accepted_work_id : Z;
  status_offered_cycle : Z; status_accepted_cycle : Z; last_discarded_generation : Z;
  initialized : Z; has_pending : Z; has_active : Z; has_report : Z; has_accepted : Z; status_faulted : Z;
  status_scratchpad_half : Z; status_accumulator_half : Z; stop_reason : Z;
}.

Record RowPressure := {
  rows_generation : Z; rows_cursor : Z; rows_row_count : Z; rows_max_row_occupancy : Z;
}.

Record DomainTag := {
  origin_generation : Z; origin_ordinal : Z; origin_work_id : Z; tag_id : Z; tag_rows : Z;
  rob_valid : Z; rob_id : Z; preload_src : Z; preload_dst : Z; preload_output_rows : Z;
  preload_output_cols : Z; preload_accumulate : Z;
}.

Record DomainSnapshot := {
  domain_generation : Z; domain_cursor : Z; domain_resource_ready : Z; domain_row_count : Z;
  domain_tag_count : Z; domain_max_tag_occupancy : Z; domain_ready_violation_mask : Z;
  domain_rows : list (Z * Z); domain_tags : list DomainTag; domain_banks : list (Z * Z * Z);
}.

(** [RESULT_FIELDS] of the counters. *)
Record Counters := {
  start_cycle : Z; done_cycle : Z; total_cycles : Z; logical_work_count : Z; loop_count : Z;
  planner_loop_count : Z; fragment_count : Z; load_request_count : Z; load_response_count : Z;
  store_request_count : Z; store_response_count : Z; scale_request_count : Z; scale_response_count : Z;
  event_count_total : Z;
}.

Record Report := {
  report_generation : Z; report_work_id : Z; report_offered_cycle : Z; report_accepted_cycle : Z;
  result_ready_cycle : Z; final_scale_release_cycle : Z; resource_ready_cycle : Z; report_event_count : Z;
  report_scratchpad_half : Z; report_accumulator_half : Z; report_counters : Counters;
}.

(** ** The native engine *)

(** One constructor argument per function of the C interface; each returns the
    raw result code and the state behind the handle.  [native_read_events]
    with capacity 0 reports the buffered count, otherwise it consumes. *)
Class Native := {
  engine : Type;
  sizeof_config : Z;
  native_config_init : Z * Z;
  native_create : Config → Z * engine;
  native_reset : engine → Z * engine;
  native_offer : engine → Descriptor → Z → Z * engine;
  native_advance_until : engine → Z → Z * engine;
  native_advance_to_boundary : engine → Z → Z → Z * engine;
  native_status : engine → Z * Status;
  native_row_pressure : engine → Z * RowPressure;
  native_domain_snapshot : engine → Z * DomainSnapshot;
  native_counters : engine → Z * Counters;
  native_pop_report : engine → Z * Report * engine;
  native_read_events : engine → Z → Z * Z * engine;
}.

(** What [sha256] reads from the file system at one moment. *)
Record Observed := {
  observed_library : string;
  observed_file : string → string;
}.

Definition SOURCE_PATHS : list string :=
  ["sim/cycle/CMakeLists.txt"; "sim/cycle/sequence_c_api.cpp"; "sim/cycle/c_api.cpp";
   "sim/cycle/control_engine.cpp"; "sim/cycle/control_engine.hpp"; "sim/cycle/execute_engine.cpp";
   "sim/cycle/scheduled_work.cpp"; "sim/cycle/scheduled_work.hpp"; "sim/cycle/timing_profile.hpp";
   "sim/cycle/cycle_model.hpp"; "sim/common/gemmini_schedule.cpp";
   "sim/include/im2p_cycle_sequence.h"; "sim/include/im2p_cycle_model.h";
   "sim/include/im2p_compact_runs.h"; "config/gemmini_hp1_profiles.json"].

Definition source_identity (o : Observed) (profile : string) : res SourceIdentity :=
  match profile_shape profile with
  | None => Err (sequence_error UNSUPPORTED "profile")
  | Some _ =>
      Ok {| identity_profile := profile; identity_library_sha256 := observed_library o;
            identity_source_sha256 := map (fun name => (name, observed_file o name))
              (SOURCE_PATHS ++ ["config/gemmini_host_memory_contracts/" +:+ profile +:+ ".json"]) |}
  end.

(** ** [sequence_binding.py]: the session object *)
Section Session.
Context `{Native}.

Record SequenceSession := {
  session_profile : string;
  settings : Settings;
  expected_identity : option SourceIdentity;
  identity : option SourceIdentity;
  hardware : option (list Z);
  handle : option engine;
  opened : bool;
}.

(** [SequenceSession(library, profile, settings=..., expected_identity=...)] *)
Definition sequence_session (profile : string) (s : option Settings) (expected : option SourceIdentity)
    : SequenceSession := {|
  session_profile := profile; settings := default default_settings s; expected_identity := expected;
  identity := None; hardware := None; handle := None; opened := false |}.

Definition with_handle (h : option engine) (s : SequenceSession) : SequenceSession := {|
  session_profile := session_profile s; settings := settings s; expected_identity := expected_identity s;
  identity := identity s; hardware := hardware s; handle := h; opened := opened s |}.

Definition HARDWARE_FIELDS : list string :=
  ["activation_bits"; "weight_bits"; "dim"; "block_k"; "accumulator_bits"; "bank_count"; "bank_rows";
   "accumulator_rows"; "scratchpad_row_bytes"; "accumulator_row_bytes"; "scratchpad_read_delay";
   "accumulator_latency"].

Definition hardware_values (r : Resolve.ResolvedProfile) : list Z :=
  [Resolve.sel_activation_bits (Resolve.selection r); Resolve.sel_weight_bits (Resolve.selection r);
   Resolve.sel_dim (Resolve.selection r); Resolve.block_size (Resolve.catalog r);
   Resolve.cat_accumulator_bits (Resolve.catalog r); Resolve.bank_count (Resolve.memory r);
   Resolve.bank_rows (Resolve.memory r); Resolve.accumulator_rows (Resolve.memory r);
   Resolve.scratchpad_row_bytes (Resolve.memory r); Resolve.accumulator_row_bytes (Resolve.memory r);
   Resolve.scratchpad_read_delay (Resolve.catalog r); Resolve.accumulator_latency (Resolve.catalog r)].

(** The optional limits a caller overrides. *)
Definition setting_limits (s : Settings) : list (string * option Z) :=
  [("max_work_cycles", max_work_cycles s); ("max_session_cycles", max_session_cycles s);
   ("max_fragments", max_fragments s); ("max_trace_events", max_trace_events s);
   ("max_work_ids", max_work_ids s)].

Definition session_config (s : Settings) (r : Resolve.ResolvedProfile) : res Config :=
  let* hw := map_res (fun '(name, value) => uint value 32 name) (zip HARDWARE_FIELDS (hardware_values r)) in
  let* period := uint (read_ready_period s) 32 "read_ready_period" in
  let* limits := map_res (fun '(name, value) =>
    match value with
    | None => Ok []
    | Some z => let* v := uint z 64 name in Ok [(name, v)]
    end) (setting_limits s) in
  Ok {| config_hardware := hw; config_read_ready_period := period; config_limits := concat limits |}.

(** [__enter__] *)
Definition enter (o : Observed) : method SequenceSession unit := fun s =>
  if opened s then (s, Err (sequence_error INVALID "session already open")) else
  match
    (let* current := source_identity o (session_profile s) in
     match expected_identity s with
     | Some e => check (bool_decide (current = e)) (sequence_error INVALID "source/library identity changed")
     | None => Ok tt
     end ;;;
     let* shape := (match profile_shape (session_profile s) with
       Some p => Ok p | None => Err (sequence_error UNSUPPORTED "profile") end) in
     let* resolved := resolve_repository shape.1 shape.1 shape.2 in
     check (bool_decide (native_config_init = (1, sizeof_config))) (sequence_error UNSUPPORTED "config ABI") ;;;
     let* config := session_config (settings s) resolved in
     let '(created, e) := native_create config in
     let* _ := checked created "create" in
     let '(raw, e) := native_reset e in
     let* _ := checked raw "reset" in
     Ok (current, config_hardware config, e))
  with
  | Ok (current, hw, e) =>
      ({| session_profile := session_profile s; settings := settings s; expected_identity := expected_identity s;
          identity := Some current; hardware := Some hw; handle := Some e; opened := true |}, Ok tt)
  | Err error => (s, Err error)
  end.

Definition close : SequenceSession → SequenceSession := with_handle None.

Definition verify_identity (o : Observed) (s : SequenceSession) : res unit :=
  match identity s with
  | None => Err (sequence_error INVALID "publication identity changed")
  | Some known =>
      let* current := source_identity o (session_profile s) in
      check (bool_decide (current = known)) (sequence_error INVALID "publication identity changed")
  end.

Definition closed_session : exn := sequence_error INVALID "closed session".

(** A call that may change the engine: [_native()], the call, [_checked]. *)
Definition call (operation : string) (f : engine → Z * engine) : method SequenceSession Code := fun s =>
  match handle s with
  | None => (s, Err closed_session)
  | Some e => let '(raw, e') := f e in (with_handle (Some e') s, checked raw operation)
  end.

(** A read-only call. *)
Definition observe {A} (operation : string) (f : engine → Z * A) (s : SequenceSession) : res A :=
  match handle s with
  | None => Err closed_session
  | Some e => let '(raw, a) := f e in let* _ := checked raw operation in Ok a
  end.

Definition reset : method SequenceSession Code := call "reset" native_reset.

(** The descriptor [offer] builds, with its checks in order. *)
Definition offer_descriptor (w : SequenceWork) : res Descriptor :=
  let* words := map_res (fun '(name, value) => uint value 64 name) (zip WORK_U64 (work_words w)) in
  let* submission := uint (work_submission w) 32 "submission" in
  let* compact :=
    match work_spans w, work_original_k w with
    | [], None => Ok None
    | [], Some _ => Err (sequence_error INVALID "runs")
    | _, None => Err (sequence_error INVALID "original_k")
    | spans, Some k =>
        let* entries := map_res (fun run =>
          let* b := uint (original_block_id run) 32 "original_block_id" in
          let* mask := uint (original_k_mask run) 32 "original_k_mask" in
          let* first := uint (compact_k_begin run) 32 "compact_k_begin" in
          let* count := uint (compact_k_count run) 32 "compact_k_count" in
          Ok [b; mask; first; count]) spans in
        let* original := uint k 32 "original_k" in
        Ok (Some {| runs_original_k := original; run_count := Z.of_nat (length spans); runs_entries := entries |})
    end in
  Ok {| descriptor_words := words; descriptor_compact_runs := compact; descriptor_submission := submission;
        descriptor_record_events := Z.b2z (work_record_events w) |}.

Definition offer (w : SequenceWork) (offered_cycle : Z) : method SequenceSession Code := fun s =>
  match handle s with
  | None => (s, Err closed_session)
  | Some _ =>
      match (let* d := offer_descriptor w in let* c := uint offered_cycle 64 "offered_cycle" in Ok (d, c)) with
      | Err error => (s, Err error)
      | Ok (d, c) => call "offer" (fun e => native_offer e d c) s
      end
  end.

Definition advance_until (until_cycle : Z) : method SequenceSession Code := fun s =>
  match handle s with
  | None => (s, Err closed_session)
  | Some _ =>
      match uint until_cycle 64 "until_cycle" with
      | Err error => (s, Err error)
      | Ok t => call "advance_until" (fun e => native_advance_until e t) s
      end
  end.

Definition advance_to_boundary (until_cycle max_steps : Z) : method SequenceSession Code := fun s =>
  match handle s with
  | None => (s, Err closed_session)
  | Some _ =>
      match (let* t := uint until_cycle 64 "until_cycle" in let* n := uint max_steps 64 "max_steps" in Ok (t, n)) with
      | Err error => (s, Err error)
      | Ok (t, n) => call "advance_to_boundary" (fun e => native_advance_to_boundary e t n) s
      end
  end.

Definition status : SequenceSession → res Status := observe "get_status" native_status.
Definition row_pressure : SequenceSession → res RowPressure := observe "get_row_pressure" native_row_pressure.
Definition domain_snapshot : SequenceSession → res DomainSnapshot :=
  observe "get_domain_snapshot" native_domain_snapshot.
Definition counters : SequenceSession → res Counters := observe "get_counters" native_counters.

(** [None] stands for a code other than [OK]. *)
Definition pop_report : method SequenceSession (option Report) := fun s =>
  match handle s with
  | None => (s, Err closed_session)
  | Some e =>
      let '(raw, report, e') := native_pop_report e in
      (with_handle (Some e') s,
       let* code := checked raw "pop_report" in Ok (if bool_decide (code = OK) then Some report else None))
  end.

Definition event_count (s : SequenceSession) : res Z :=
  observe "event_count" (fun e => let '(raw, n, _) := native_read_events e 0 in (raw, n)) s.

(** [read_events(capacity)]: the number of events consumed; the events
    themselves are not interpreted. *)
Definition read_events (capacity : Z) : method SequenceSession Z := fun s =>
  match (let* c := uint capacity 64 "capacity" in let* n := event_count s in Ok (Z.min c n)) with
  | Err error => (s, Err error)
  | Ok 0 => (s, Ok 0)
  | Ok length =>
      match handle s with
      | None => (s, Err closed_session)
      | Some e =>
          let '(raw, n, e') := native_read_events e length in
          (with_handle (Some e') s, let* _ := checked raw "read_events" in Ok n)
      end
  end.
End Session.

(** ** The width checks *)

Lemma uint_Ok value bits name z : uint value bits name = Ok z ↔ z = value ∧ 0 <= value < 2 ^ bits.
Proof.
  unfold uint. rewrite !check_bind, Z.leb_le, Z.ltb_lt. split.
  - intros (? & ? & [= <-]). done.
  - intros (-> & ? & ?). done.
Qed.

Lemma checked_Ok raw operation c : checked raw operation = Ok c ↔ raw = code_value c ∧ c ∈ [OK; INCOMPLETE; WOULD_BLOCK].
Proof.
  unfold checked. split.
  - destruct (parse_code raw) as [code|] eqn:E; [|done].
    apply List.find_some in E as [_ E%Z.eqb_eq]. destruct (Z.ltb_spec (code_value code) 0); [done|].
    intros [= <-]. split; [done|]. destruct code; cbn in *; try lia; set_solver.
  - intros [-> Hc]. repeat (apply elem_of_cons in Hc as [->|Hc]; [reflexivity|]). by apply elem_of_nil in Hc.
Qed.
