(* ===== verification/Admission.v ===== *)
(** * Admission of a trace to a stateful provider

    [sim/cycle/execution_sequence_admission.py] and [check_profile_scope] of
    [sim/cycle/stateful_domain_admission.py]: the works of a trace are bound to
    a certificate and to the digests of every source that interprets them; the
    binding is checked again before each work and before publication.

    Validation of the certificate itself ([stateful_sequence_certificate]) is a
    parameter.  A [World] is what the file system shows at one moment. *)
From S2P Require Import Prelude Records Profiles TraceSchema TraceIntegrity TraceTheorems Replay Domains.
From S2P Require Import Rational ExecutionIR Services Sequence.
Set Default Goal Selector "!".

Record World := {
  files : Observed;
  certificate_digest : string;
  trace_digest : string;
  trace_stat : list Z;
}.

Record ScopedEvidence := {
  scoped_certificate_sha256 : string;
  scoped_library_sha256 : string;
  case_ids : list string;
  state_domain_revision : string;
}.
#[export] Instance ScopedEvidence_eq_dec : EqDecision ScopedEvidence.
Proof. solve_decision. Defined.

Record BoundWork := { request : NpuWork; trace : Work }.

(** [StatefulAdmission]; [production_admitted] tells the subclass
    [ProductionStatefulAdmission]. *)
Record StatefulAdmission := {
  scoped : ScopedEvidence;
  trace_sha256 : string;
  admission_identity : SourceIdentity;
  binding_sha256 : string;
  binding_abi_sha256 : string;
  cli_sha256 : string;
  provider_sha256 : string;
  admission_sha256 : string;
  validator_sha256 : string;
  admitted_profile : string;
  work_bindings : list (Z * Z * string);
  production_admitted : bool;
  trace_identity : list Z;
  extension_source_sha256 : list (string * string);
}.

Definition admission_scope (a : StatefulAdmission) : string :=
  if production_admitted a then "STATEFUL_SEQUENCE_PRODUCTION" else "DIAGNOSTIC_SCOPED_EVIDENCE".

(** The module files whose digests an admission holds. *)
Definition BINDING : string := "sim/cycle/sequence_binding.py".
Definition BINDING_ABI : string := "sim/cycle/sequence_binding_abi.py".
Definition CLI : string := "sim/cycle/cli.py".
Definition PROVIDER : string := "sim/cycle/execution_sequence_provider.py".
Definition ADMISSION : string := "sim/cycle/execution_sequence_admission.py".
Definition VALIDATOR : string := "sim/cycle/stateful_sequence_certificate.py".
Definition EXTENSIONS : list string :=
  ["stateful_domain.py"; "stateful_domain_admission.py"; "stateful_profile_certificate.py";
   "stateful_profile_extension.py"; "stateful_profile_extension_evidence.py"; "stateful_profile_extension_pins.py"].

Definition file_digest (w : World) (path : string) : string := observed_file (files w) path.
Definition extension_digest (w : World) (name : string) : string := file_digest w ("sim/cycle/" +:+ name).

(** The revisions checked against a profile, those that pin the whole corpus,
    and those that allow back-to-back offers only. *)
Definition pinned_corpus (revision : string) : bool :=
  String.eqb revision A8D32_REVISION || smem revision PROFILE_EXTENSION_REVISIONS ||
  smem revision ACTUAL_TRACE_REVISIONS || smem revision INTERLEAVED_TRACE_REVISIONS.
Definition profile_checked (revision : string) : bool := String.eqb revision TAG6_REVISION || pinned_corpus revision.
Definition back_to_back (revision : string) : bool :=
  String.eqb revision TAG6_REVISION || String.eqb revision A8D32_REVISION ||
  smem revision PROFILE_EXTENSION_REVISIONS || smem revision ACTUAL_TRACE_REVISIONS.
Definition interleaved (revision : string) : bool := smem revision INTERLEAVED_TRACE_REVISIONS.

(** [object_value] of the certificate contract. *)
Definition labelled_object (value : json) (label : string) : res record :=
  match value with JObj r => Ok r | _ => Err (ValueError (label +:+ ": object required")) end.

(** What the constructor of [AdmissionInputs] is given: the trace lines, the
    validated library path, and the certificate with its validators. *)
Class Certificates := {
  same_library : bool;
  trace_lines : list (option json);
  certificate_document : res record;
  validate_certificate : World → res ScopedEvidence;
  admit_certificate : World → res unit;
}.

Section Admission.
Context `{Host} `{Certificates}.

Definition bound_work (profile : string) (w : Work) : BoundWork := {|
  request := {| work_identity := "npu:" +:+ dec (TraceSchema.identity w); request_sha256 := work_binding w;
                Services.profile := profile |};
  trace := w |}.

Definition check_profile_scope (w : World) (profile : string) (evidence : ScopedEvidence) : res StateDomain :=
  let* document := certificate_document in
  let* trace := labelled_object (pget document "trace") "profile trace" in
  check (eq_str (pget document "profile") profile && eq_str (pget trace "sha256") (trace_digest w) && same_library)
    (StatefulProviderError "profile domain" "profile, trace or library differs from certificate") ;;;
  state_domain profile (state_domain_revision evidence).

Definition check_tag6 (digest profile : string) (bound : list BoundWork) : res unit :=
  let* document := certificate_document in
  require_m (Ok (String.eqb profile TAG5_PROFILE) andM
      (let* value := item document "trace" in
       let* trace := labelled_object value "Tag6 trace" in
       let* sha := item trace "sha256" in
       Ok (eq_str sha digest)) andM
      Ok (bool_decide (map (fun b => TraceSchema.identity (trace b)) bound = seqZ 0 374)))
    (StatefulProviderError "Tag6 corpus" "only the certified original374 trace is supported").

Definition work_class (w : Work) : WorkClass := {|
  work_type := provenance w;
  run_type := match residual_work_revision w with
    | Some r => if String.eqb r "" then "dense" else r | None => "dense" end |}.

Definition check_corpus (w : World) (profile : string) (evidence : ScopedEvidence) (bound : list BoundWork) : res unit :=
  if profile_checked (state_domain_revision evidence) then
    let* domain := check_profile_scope w profile evidence in
    check_initial_state cold_state ;;;
    iter_res (fun b => check_work_class domain (work_class (trace b))) bound ;;;
    if pinned_corpus (state_domain_revision evidence) then
      let* document := certificate_document in
      let* ids := item document "work_ids" in
      check (jeq (JArr (map (fun b => JInt (TraceSchema.identity (trace b))) bound)) ids)
        (StatefulProviderError "profile corpus" "complete certified work order required")
    else Ok tt
  else Ok tt.

(** [admit_trace]: [before] is the world in which the trace is opened, [after]
    the one in which it has been read. *)
Definition admit_trace (production : bool) (before after : World) : res (StatefulAdmission * list BoundWork) :=
  check same_library (StatefulProviderError "library" "caller library differs from certificate context") ;;;
  (if production then admit_certificate before else Ok tt) ;;;
  let* evidence := validate_certificate before in
  let* started := start_trace (default None (head trace_lines)) in
  check (trace_version (run started) =? VERSION) (StatefulProviderError "trace" "version 2 required") ;;;
  let* parsed := run_trace trace_lines in
  let profile := run_profile (run started) in
  let bound := map (fun rw => bound_work profile rw.2) parsed.2 in
  let* _ := summary parsed.1 in
  check (match bound with [] => false | _ => true end && bool_decide (trace_stat after = trace_stat before) &&
         String.eqb (trace_digest after) (trace_digest before))
    (StatefulProviderError "trace" "empty or changed during parse") ;;;
  (if String.eqb (state_domain_revision evidence) TAG6_REVISION
   then check_tag6 (trace_digest before) profile bound else Ok tt) ;;;
  check_corpus after profile evidence bound ;;;
  let* identity_ := source_identity (files after) profile in
  Ok ({| scoped := evidence; trace_sha256 := trace_digest before; admission_identity := identity_;
         binding_sha256 := file_digest after BINDING; binding_abi_sha256 := file_digest after BINDING_ABI;
         cli_sha256 := file_digest after CLI; provider_sha256 := file_digest after PROVIDER;
         admission_sha256 := file_digest after ADMISSION; validator_sha256 := file_digest after VALIDATOR;
         admitted_profile := profile;
         work_bindings := map (fun b => (TraceSchema.identity (trace b), parent_id (trace b), request_sha256 (request b))) bound;
         production_admitted := production; trace_identity := trace_stat before;
         extension_source_sha256 := map (fun name => (name, extension_digest after name)) EXTENSIONS |}, bound).

(** The sources [w] shows are those of the admission. *)
Definition sources_match (a : StatefulAdmission) (w : World) (publication : bool) : bool :=
  String.eqb (certificate_digest w) (scoped_certificate_sha256 (scoped a)) &&
  bool_decide (trace_stat w = trace_identity a) &&
  (negb publication || String.eqb (trace_digest w) (trace_sha256 a)) &&
  String.eqb (file_digest w BINDING) (binding_sha256 a) &&
  String.eqb (file_digest w BINDING_ABI) (binding_abi_sha256 a) &&
  String.eqb (file_digest w CLI) (cli_sha256 a) &&
  String.eqb (file_digest w PROVIDER) (provider_sha256 a) &&
  String.eqb (file_digest w ADMISSION) (admission_sha256 a) &&
  String.eqb (file_digest w VALIDATOR) (validator_sha256 a) &&
  forallb (fun '(name, digest) => String.eqb (extension_digest w name) digest) (extension_source_sha256 a).

Definition source_binding_error (detail : string) : exn := StatefulProviderError "source binding" detail.

(** [except (OSError, SequenceError, StatefulCertificateError)] *)
Definition recast (m : res unit) : res unit :=
  match m with
  | Err (OSError detail) => Err (source_binding_error detail)
  | Err (SequenceError code operation) => Err (source_binding_error operation)
  | Err (StatefulCertificateError boundary detail) => Err (source_binding_error (boundary +:+ ": " +:+ detail))
  | m => m
  end.

Context `{Native}.

Definition verify_sources (a : StatefulAdmission) (w : World) (session : SequenceSession) (publication : bool) : res unit :=
  recast (
    check (sources_match a w publication)
      (source_binding_error "certificate, trace, or Python source changed") ;;;
    verify_identity (files w) session ;;;
    if negb publication then Ok tt else
    let* evidence := validate_certificate w in
    check (bool_decide (evidence = scoped a)) (source_binding_error "scoped certificate identity changed") ;;;
    if production_admitted a then admit_certificate w else Ok tt).
End Admission.
