(* ===== verification/Provider.v ===== *)
(** * Stateful NPU providers

    [sim/cycle/execution_sequence_provider.py]: the provider that runs the
    admitted works of a trace one after the other on a native session and
    checks every transition, and its promise to the scheduler. *)
From S2P Require Import Prelude Records Profiles TraceSchema Domains Rational ExecutionIR Services Sequence Admission.
Set Default Goal Selector "!".

Definition MAX_WORK_CYCLES : Z := 10000000.
Definition MAX_SESSION_CYCLES : Z := 1000000000.
Definition EVENT_BUFFER_EVENTS : Z := 2 ^ 20.
Definition ADVANCE_STEPS : Z := 65536.

Record StatefulWindow := {
  window_work : NpuWork;
  offered_cycle : Z;
  accepted_cycle : Z;
  window_result_ready : Z;
  window_scale_release : Z;
  window_resource_ready : Z;
  next_scratchpad_half : Z;
  next_accumulator_half : Z;
  window_tag_peak : Z;
  window_row_peak : Z;
  window_admission : StatefulAdmission;
}.

#[export] Instance NpuWork_eq_dec : EqDecision NpuWork.
Proof. solve_decision. Defined.

Section Provider.
Context `{Host} `{Certificates} `{Native}.

(** The offers of an interleaved certificate, and the world at the [n]-th call. *)
Context (certificate_offers : res (list Z)).
Context (world : nat → World).
Context (sink : bool).

Record Provider := {
  provider_admission : StatefulAdmission;
  provider_limits : DomainLimits;
  event_capacity : Z;
  provider_bound : list BoundWork;
  certified_offers : option (list Z);
  provider_completed : gset string;
  invocations : nat;
  previous_resource_cycle : Z;
  provider_scratchpad_half : Z;
  provider_accumulator_half : Z;
  provider_faulted : bool;
  provider_closed : bool;
  session : SequenceSession;
}.

Definition provider_requests (p : Provider) : list NpuWork := map request (provider_bound p).

Definition with_session (s : SequenceSession) (p : Provider) : Provider := {|
  provider_admission := provider_admission p; provider_limits := provider_limits p;
  event_capacity := event_capacity p; provider_bound := provider_bound p;
  certified_offers := certified_offers p; provider_completed := provider_completed p;
  invocations := invocations p; previous_resource_cycle := previous_resource_cycle p;
  provider_scratchpad_half := provider_scratchpad_half p;
  provider_accumulator_half := provider_accumulator_half p; provider_faulted := provider_faulted p;
  provider_closed := provider_closed p; session := s |}.

Definition fault (p : Provider) : Provider := {|
  provider_admission := provider_admission p; provider_limits := provider_limits p;
  event_capacity := event_capacity p; provider_bound := provider_bound p;
  certified_offers := certified_offers p; provider_completed := provider_completed p;
  invocations := invocations p; previous_resource_cycle := previous_resource_cycle p;
  provider_scratchpad_half := provider_scratchpad_half p;
  provider_accumulator_half := provider_accumulator_half p; provider_faulted := true;
  provider_closed := provider_closed p; session := session p |}.

Definition commit (w : NpuWork) (window : StatefulWindow) (p : Provider) : Provider := {|
  provider_admission := provider_admission p; provider_limits := provider_limits p;
  event_capacity := event_capacity p; provider_bound := provider_bound p;
  certified_offers := certified_offers p; provider_completed := {[work_identity w]} ∪ provider_completed p;
  invocations := S (invocations p); previous_resource_cycle := window_resource_ready window;
  provider_scratchpad_half := next_scratchpad_half window;
  provider_accumulator_half := next_accumulator_half window; provider_faulted := provider_faulted p;
  provider_closed := provider_closed p; session := session p |}.

Definition close_provider (p : Provider) : Provider :=
  if provider_closed p then p else {|
  provider_admission := provider_admission p; provider_limits := provider_limits p;
  event_capacity := event_capacity p; provider_bound := provider_bound p;
  certified_offers := certified_offers p; provider_completed := provider_completed p;
  invocations := invocations p; previous_resource_cycle := previous_resource_cycle p;
  provider_scratchpad_half := provider_scratchpad_half p;
  provider_accumulator_half := provider_accumulator_half p; provider_faulted := provider_faulted p;
  provider_closed := true; session := close (session p) |}.

Definition revision (p : Provider) : string := state_domain_revision (scoped (provider_admission p)).

(** [0 < limit <= bound] of a setting that is given. *)
Definition within (limit : option Z) (bound : Z) : bool :=
  match limit with None => true | Some z => (0 <? z) && (z <=? bound) end.

(** [value or default] *)
Definition or_default (value : option Z) (d : Z) : Z :=
  match value with None | Some 0 => d | Some z => z end.

(** [_StatefulProvider.__init__] *)
Definition new_provider (production : bool) (s : Settings) (before after : World) : res Provider :=
  let* admitted := admit_trace production before after in
  let '(admission, bound) := admitted in
  let rev := state_domain_revision (scoped admission) in
  let* domain := state_domain (admitted_profile admission) rev in
  let work_limit := if String.eqb rev TAG6_REVISION then MAX_SESSION_CYCLES else MAX_WORK_CYCLES in
  check ((read_ready_period s =? 5) && within (max_work_cycles s) work_limit &&
         within (max_session_cycles s) MAX_SESSION_CYCLES &&
         (negb sink || within (max_trace_events s) EVENT_BUFFER_EVENTS))
    (StatefulProviderError "reference memory" "unsupported period, cycle or event budget") ;;;
  let capacity := if sink then or_default (max_trace_events s) EVENT_BUFFER_EVENTS else 0 in
  let* offers :=
    (if interleaved rev then
       let* offers := certificate_offers in
       check (Nat.eqb (length offers) (length bound))
         (StatefulProviderError "interleaved offer policy" "certified issue sequence coverage differs") ;;;
       Ok (Some offers)
     else Ok None) in
  let native_settings := {| read_ready_period := 5;
    max_work_cycles := Some (or_default (max_work_cycles s) work_limit);
    max_session_cycles := Some (or_default (max_session_cycles s) MAX_SESSION_CYCLES);
    max_fragments := max_fragments s;
    max_trace_events := if capacity =? 0 then max_trace_events s else Some capacity;
    max_work_ids := max_work_ids s |} in
  let '(opened_session, entered) := enter (files after)
    (sequence_session (admitted_profile admission) (Some native_settings) (Some (admission_identity admission))) in
  entered ;;;
  let* cold := domain_snapshot opened_session in
  check ((domain_generation cold =? 1) && (domain_cursor cold =? 0) && (domain_resource_ready cold =? 1) &&
         (domain_row_count cold =? 0) && (domain_tag_count cold =? 0) &&
         (domain_max_tag_occupancy cold =? 0) && (domain_ready_violation_mask cold =? 0))
    (StatefulProviderError "initial state" "native cold reset differs") ;;;
  Ok {| provider_admission := admission; provider_limits := limits domain; event_capacity := capacity;
        provider_bound := bound; certified_offers := offers; provider_completed := ∅; invocations := 0;
        previous_resource_cycle := 0; provider_scratchpad_half := 0; provider_accumulator_half := 0;
        provider_faulted := false; provider_closed := false; session := opened_session |}.

(** [tags[:tag_count]] with every reorder-buffer slot free. *)
Definition tags_idle (d : DomainSnapshot) : bool :=
  forallb (fun t => rob_valid t =? 0) (take (Z.to_nat (domain_tag_count d)) (domain_tags d)).

Definition is_half (z : Z) : bool := (z =? 0) || (z =? 1).

(** The condition of [_check_report]. *)
Definition report_ok (l : DomainLimits) (item : BoundWork) (offered : Z) (st : Status) (d : DomainSnapshot)
    (r : RowPressure) (report : Report) : bool :=
  let c := report_counters report in
  (report_generation report =? status_generation st) && (status_generation st =? domain_generation d) &&
  (domain_generation d =? 1) &&
  (status_cursor st =? domain_cursor d) && (domain_cursor d =? resource_ready_cycle report) &&
  (has_report st =? domain_resource_ready d) && (domain_resource_ready d =? 1) &&
  (has_pending st =? has_active st) && (has_active st =? status_faulted st) && (status_faulted st =? 0) &&
  (report_work_id report =? TraceSchema.identity (trace item)) && (report_offered_cycle report =? offered) &&
  (offered <=? report_accepted_cycle report) && (report_accepted_cycle report <? result_ready_cycle report) &&
  (result_ready_cycle report <=? final_scale_release_cycle report) &&
  (final_scale_release_cycle report <=? resource_ready_cycle report) &&
  (logical_work_count c =? 1) && (start_cycle c =? report_accepted_cycle report) &&
  (done_cycle c =? result_ready_cycle report) &&
  (total_cycles c =? result_ready_cycle report - report_accepted_cycle report) &&
  (load_request_count c =? load_response_count c) && (store_request_count c =? store_response_count c) &&
  (scale_request_count c =? scale_response_count c) &&
  (domain_max_tag_occupancy d <=? max_tag_occupancy l) &&
  (domain_ready_violation_mask d =? ready_violation_mask l) &&
  (domain_tag_count d <=? 6) && tags_idle d &&
  (rows_generation r =? domain_generation d) && (rows_cursor r =? domain_cursor d) &&
  (rows_row_count r =? domain_row_count d) &&
  (rows_row_count r <=? rows_max_row_occupancy r) &&
  (rows_max_row_occupancy r <? max_row_occupancy_exclusive l) &&
  (report_scratchpad_half report =? status_scratchpad_half st) &&
  (report_accumulator_half report =? status_accumulator_half st) &&
  is_half (report_scratchpad_half report) && is_half (report_accumulator_half report).

Definition check_report (item : BoundWork) (offered : Z) : method Provider StatefulWindow := fun p =>
  match (let* st := status (session p) in let* d := domain_snapshot (session p) in
         let* r := row_pressure (session p) in Ok (st, d, r)) with
  | Err e => (p, Err e)
  | Ok (st, d, r) =>
      let '(s', popped) := pop_report (session p) in
      (with_session s' p,
       let* found := popped in
       match found with
       | None => Err (StatefulProviderError "native report" "missing completed work")
       | Some report =>
           check (report_ok (provider_limits p) item offered st d r report)
             (StatefulProviderError "post-transition domain" "native report or drained state outside W/S") ;;;
           Ok {| window_work := request item; offered_cycle := offered;
                 accepted_cycle := report_accepted_cycle report; window_result_ready := result_ready_cycle report;
                 window_scale_release := final_scale_release_cycle report;
                 window_resource_ready := resource_ready_cycle report;
                 next_scratchpad_half := report_scratchpad_half report;
                 next_accumulator_half := report_accumulator_half report;
                 window_tag_peak := domain_max_tag_occupancy d; window_row_peak := rows_max_row_occupancy r;
                 window_admission := provider_admission p |}
       end)
  end.

(** [_drain_events]: reads the buffer until it is empty. *)
Fixpoint drain (fuel : nat) (capacity : Z) : method SequenceSession unit := fun s =>
  match fuel with
  | O => (s, Err OutOfFuel)
  | S fuel =>
      match handle s with
      | None => (s, Err closed_session)
      | Some e =>
          let '(raw, count, e') := native_read_events e capacity in
          let s' := with_handle (Some e') s in
          match parse_code raw with
          | None => (s', Err (ValueError (dec raw +:+ " is not a valid Code")))
          | Some code =>
              if bool_decide (code = OK) && (count <=? capacity) then
                if count =? 0 then (s', Ok tt) else drain fuel capacity s'
              else (s', Err (StatefulProviderError "native events" "event drain failed"))
          end
      end
  end.
Definition drain_events (fuel : nat) (capacity : Z) : method SequenceSession unit :=
  if sink && negb (capacity =? 0) then drain fuel capacity else mret tt.

(** [while True: code = advance_to_boundary(...)] *)
Fixpoint advance_loop (fuel : nat) (capacity : Z) : method SequenceSession unit :=
  match fuel with
  | O => raise OutOfFuel
  | S fuel' =>
      let! code := advance_to_boundary MAX_SESSION_CYCLES ADVANCE_STEPS in
      let! st := (fun s => lift (status s) s) in
      let stop := stop_reason st in
      if bool_decide (code = OK) then
        mcheck (stop =? stop_value REPORT_AVAILABLE)
          (StatefulProviderError "native advance" "report boundary missing")
      else if sink && bool_decide (code = WOULD_BLOCK) && (stop =? stop_value EVENT_BUFFER_AVAILABLE) then
        drain_events fuel capacity ;;!
        advance_loop fuel' capacity
      else if bool_decide (code = INCOMPLETE) && (stop =? stop_value SOFT_BUDGET) then advance_loop fuel' capacity
      else raise (StatefulProviderError "native advance" "unexpected")
  end.

(** Enough for every soft budget up to the session limit. *)
Definition ADVANCE_FUEL : nat := Z.to_nat (MAX_SESSION_CYCLES / ADVANCE_STEPS + 2).

(** A method of the session, run on the session of the provider. *)
Definition on_session {A} (m : method SequenceSession A) : method Provider A := fun p =>
  let '(s', r) := m (session p) in (with_session s' p, r).

(** The condition checked before a work is offered. *)
Definition domain_ok (p : Provider) (st : Status) (d : DomainSnapshot) (r : RowPressure) : bool :=
  (status_generation st =? domain_generation d) && (domain_generation d =? rows_generation r) &&
  (rows_generation r =? 1) &&
  (status_cursor st =? domain_cursor d) && (domain_cursor d =? rows_cursor r) &&
  (rows_cursor r =? previous_resource_cycle p) &&
  (domain_resource_ready d =? 1) &&
  (domain_ready_violation_mask d =? ready_violation_mask (provider_limits p)) &&
  (domain_max_tag_occupancy d <=? max_tag_occupancy (provider_limits p)) && (domain_tag_count d <=? 6) &&
  tags_idle d &&
  (domain_row_count d =? rows_row_count r) && (rows_row_count r <=? rows_max_row_occupancy r) &&
  (rows_max_row_occupancy r <? max_row_occupancy_exclusive (provider_limits p)) &&
  (status_scratchpad_half st =? provider_scratchpad_half p) &&
  (status_accumulator_half st =? provider_accumulator_half p).

Definition idle (st : Status) : bool :=
  (has_pending st =? 0) && (has_active st =? 0) && (has_report st =? 0) && (status_faulted st =? 0).

(** The offer policy of the revision. *)
Definition offer_policy (p : Provider) (offered : Z) : res unit :=
  match certified_offers p with
  | Some offers =>
      match offers !! invocations p with
      | Some c => check (offered =? c) (StatefulProviderError "interleaved offer policy"
          "offer differs from the certified CPU/NPU issue sequence")
      | None => Err (IndexError "tuple index out of range")
      end
  | None =>
      check (negb (back_to_back (revision p)) || (offered =? previous_resource_cycle p))
        (StatefulProviderError "Tag6 offer policy" "only certified back-to-back NPU offers are supported")
  end.

(** Everything [execute] checks before it offers the work. *)
Definition precheck (p : Provider) (work : NpuWork) (offered : Z) : res BoundWork :=
  check (negb (provider_faulted p)) (StatefulProviderError "FAULTED" "native transition already failed") ;;;
  check (negb (provider_closed p)) (StatefulProviderError "closed" "provider cannot execute") ;;;
  match provider_bound p !! invocations p with
  | None => Err (StatefulProviderError "work order" "all declared trace works completed")
  | Some item =>
      check (bool_decide (work = request item))
        (StatefulProviderError "request binding" "duplicate, reordered, or changed work") ;;;
      let* st := status (session p) in
      check ((status_cursor st <=? offered) && (previous_resource_cycle p <=? offered) && (offered <? 2 ^ 64) &&
             idle st)
        (StatefulProviderError "offer epoch" "offer precedes native cursor/resource or state is busy") ;;;
      offer_policy p offered ;;;
      verify_sources (provider_admission p) (world (invocations p)) (session p) false ;;;
      let* d := domain_snapshot (session p) in
      let* r := row_pressure (session p) in
      require_m (Ok (domain_ok p st d r) andM
          (let* c := counters (session p) in Ok (logical_work_count c =? Z.of_nat (invocations p))))
        (StatefulProviderError "pre-transition domain" "native state outside admitted W/S") ;;;
      Ok item
  end.

Definition sequence_work (w : Work) : SequenceWork := {|
  work_words := TraceSchema.identity w :: inputs w; work_original_k := original_k w; work_spans := runs w;
  work_submission := 0; work_record_events := sink |}.

(** The body of the [try] block. *)
Definition run_work (item : BoundWork) (offered : Z) : method Provider StatefulWindow := fun p =>
  (on_session (advance_loop ADVANCE_FUEL (event_capacity p)) ;;!
   let! window := check_report item offered in
   on_session (drain_events ADVANCE_FUEL (event_capacity p)) ;;!
   modify (commit (request item) window) ;;!
   mret window) p.

Definition execute (work : NpuWork) (offered : Z) : method Provider StatefulWindow := fun p =>
  match precheck p work offered with
  | Err e => (p, Err e)
  | Ok item =>
      match on_session (offer (sequence_work (trace item)) offered) p with
      | (p', Err e) => (p', Err e)
      | (p', Ok code) =>
          if bool_decide (code = OK) then
            match run_work item offered p' with
            | (p'', Ok window) => (p'', Ok window)
            | (p'', Err e) => (fault p'', Err e)
            end
          else (p', Err (StatefulProviderError "native offer" "work was not accepted into pending state"))
      end
  end.

Definition all_completed (p : Provider) : bool :=
  negb (provider_faulted p) && negb (provider_closed p) &&
  Nat.eqb (invocations p) (length (provider_bound p)) &&
  bool_decide (provider_completed p = list_to_set (map work_identity (provider_requests p))).

Definition final_checks (p : Provider) : res unit :=
  verify_sources (provider_admission p) (world (invocations p)) (session p) true ;;;
  let* st := status (session p) in
  require_m (Ok (idle st) andM
      (let* c := counters (session p) in Ok (logical_work_count c =? Z.of_nat (invocations p))) andM
      (let* n := event_count (session p) in Ok (n =? 0)))
    (StatefulProviderError "completion" "native session has unfinished work").

Definition verify_complete : method Provider unit := fun p =>
  if all_completed p then
    match final_checks p with
    | Ok tt => (p, Ok tt)
    | Err e => (fault p, Err e)
    end
  else (p, Err (StatefulProviderError "completion" "session faulted, closed, or trace work omitted")).
End Provider.
