(* ===== verification/ProviderTheorems.v ===== *)
(** * What a stateful provider guarantees

    The windows a provider returned are those of an initial segment of the
    admitted works, in order, without overlap and inside the certified limits;
    a failed transition is final; completion means every work ran once on
    unchanged sources; the advance loop ends. *)
From S2P Require Import Prelude Records Profiles TraceSchema TraceIntegrity TraceTheorems Replay Domains Rational.
From S2P Require Import ExecutionIR Services Sequence Admission Provider.
Set Default Goal Selector "!".

(** One window against the provider that ran it. *)
Record window_ok (l : DomainLimits) (w : StatefulWindow) : Prop := {
  wo_accepted : offered_cycle w <= accepted_cycle w;
  wo_result : accepted_cycle w < window_result_ready w;
  wo_scale : window_result_ready w <= window_scale_release w;
  wo_resource : window_scale_release w <= window_resource_ready w;
  wo_tags : window_tag_peak w <= max_tag_occupancy l;
  wo_rows : window_row_peak w < max_row_occupancy_exclusive l;
  wo_halves : is_half (next_scratchpad_half w) = true ∧ is_half (next_accumulator_half w) = true;
}.

(** Each window is offered at or after the cycle the resource was released. *)
Fixpoint in_sequence (free : Z) (ws : list StatefulWindow) : Prop :=
  match ws with
  | [] => True
  | w :: ws => free <= offered_cycle w ∧ in_sequence (window_resource_ready w) ws
  end.
Definition released (ws : list StatefulWindow) : Z := default 0 (window_resource_ready <$> last ws).

Lemma in_sequence_snoc ws w : ∀ free,
  in_sequence free ws → default free (window_resource_ready <$> last ws) <= offered_cycle w →
  in_sequence free (ws ++ [w]).
Proof.
  induction ws as [|v ws IH]; intros free; cbn [in_sequence app].
  - cbn. done.
  - intros [Hv Hws] Hw. split; [done|]. apply IH; [done|]. destruct ws; cbn in *; [done|].
    by destruct (last (s :: ws)) eqn:E; [|by apply last_None in E].
Qed.

(** What the checked report says about its window. *)
Lemma report_ok_window l item offered st d r report :
  report_ok l item offered st d r report = true →
  offered <= report_accepted_cycle report ∧ report_accepted_cycle report < result_ready_cycle report ∧
  result_ready_cycle report <= final_scale_release_cycle report ∧
  final_scale_release_cycle report <= resource_ready_cycle report ∧
  domain_max_tag_occupancy d <= max_tag_occupancy l ∧ rows_max_row_occupancy r < max_row_occupancy_exclusive l ∧
  is_half (report_scratchpad_half report) = true ∧ is_half (report_accumulator_half report) = true.
Proof.
  unfold report_ok. rewrite !andb_true_iff, !Z.leb_le, !Z.ltb_lt. tauto.
Qed.

Section Theorems.
Context `{Host} `{Certificates} `{Native}.
Context (certificate_offers : res (list Z)) (world : nat → World) (sink : bool).

(** ** Which parts of a provider an operation changes *)

Lemma with_session_twice s s' p : with_session s (with_session s' p) = with_session s p.
Proof. done. Qed.

Lemma on_session_inv {A} (m : method SequenceSession A) p p' r :
  on_session m p = (p', r) → ∃ s', p' = with_session s' p.
Proof. unfold on_session. destruct (m (session p)) as [s' r']. intros [<- <-]%pair_eq. by exists s'. Qed.

Lemma check_report_inv item offered p p' r :
  check_report item offered p = (p', r) →
  (∃ s', p' = with_session s' p) ∧
  ∀ w, r = Ok w → window_work w = request item ∧ offered_cycle w = offered ∧ window_ok (provider_limits p) w.
Proof.
  unfold check_report. destruct (status (session p)) as [st|]; cbn [mbind res_bind].
  2:{ intros [<- <-]%pair_eq. split; [by exists (session p); destruct p|done]. }
  destruct (domain_snapshot (session p)) as [d|]; cbn [mbind res_bind].
  2:{ intros [<- <-]%pair_eq. split; [by exists (session p); destruct p|done]. }
  destruct (row_pressure (session p)) as [rp|]; cbn [mbind res_bind].
  2:{ intros [<- <-]%pair_eq. split; [by exists (session p); destruct p|done]. }
  destruct (pop_report (session p)) as [s' popped]. intros [<- <-]%pair_eq. split; [by exists s'|].
  intros w Hw. apply bind_Ok in Hw as (found & _ & Hw). destruct found as [report|]; [|done].
  rewrite check_bind in Hw. destruct Hw as [Hok <-%Ok_eq]. apply report_ok_window in Hok as (? & ? & ? & ? & ? & ? & ?). split_and!; [reflexivity..|]. by constructor.
Qed.

Lemma run_work_inv item offered p p' r :
  run_work sink item offered p = (p', r) →
  match r with
  | Ok w => ∃ s', p' = commit (request item) w (with_session s' p) ∧
      window_work w = request item ∧ offered_cycle w = offered ∧ window_ok (provider_limits p) w
  | Err _ => ∃ s', p' = with_session s' p
  end.
Proof.
  unfold run_work, mbind_. destruct (on_session (advance_loop _ _ _) p) as [p1 [[]|e]] eqn:E1;
    apply on_session_inv in E1 as [s1 ->]; [|intros [<- <-]%pair_eq; by exists s1].
  destruct (check_report item offered _) as [p2 [w|e]] eqn:E2; apply check_report_inv in E2 as [[s2 ->] Hw];
    [|intros [<- <-]%pair_eq; by exists s2].
  destruct (on_session (drain_events _ _ _) _) as [p3 [[]|e]] eqn:E3; apply on_session_inv in E3 as [s3 ->].
  - cbn. intros [<- <-]%pair_eq. exists s3. split; [done|]. by apply Hw.
  - intros [<- <-]%pair_eq. by exists s3.
Qed.

Lemma execute_Ok work offered p p' w :
  execute world sink work offered p = (p', Ok w) →
  ∃ item s', precheck world p work offered = Ok item ∧ p' = commit (request item) w (with_session s' p) ∧
    window_work w = request item ∧ offered_cycle w = offered ∧ window_ok (provider_limits p) w.
Proof.
  unfold execute. destruct (precheck _ _ _ _) as [item|]; [|done].
  destruct (on_session _ p) as [p1 [code|]] eqn:E1; [|done]. apply on_session_inv in E1 as [s1 ->].
  case_bool_decide; [|done]. destruct (run_work _ _ _ _) as [p2 [w'|]] eqn:E2; [|done].
  apply run_work_inv in E2 as (s2 & -> & Hw). intros [<- [= <-]]%pair_eq. by exists item, s2.
Qed.

Lemma execute_Err work offered p p' e :
  execute world sink work offered p = (p', Err e) → ∃ s', p' = with_session s' p ∨ p' = fault (with_session s' p).
Proof.
  assert (Hp : p = with_session (session p) p) by by destruct p.
  unfold execute. destruct (precheck _ _ _ _) as [item|]; [|intros [<- _]%pair_eq; eexists; by left].
  destruct (on_session _ p) as [p1 [code|]] eqn:E1; apply on_session_inv in E1 as [s1 ->];
    [|intros [<- _]%pair_eq; eexists; by left].
  case_bool_decide; [|intros [<- _]%pair_eq; eexists; by left].
  destruct (run_work _ _ _ _) as [p2 [w'|]] eqn:E2; [done|].
  apply run_work_inv in E2 as (s2 & ->). intros [<- _]%pair_eq. exists s2. by right.
Qed.

Lemma precheck_Ok work offered p item :
  precheck world p work offered = Ok item →
  provider_faulted p = false ∧ provider_closed p = false ∧ provider_bound p !! invocations p = Some item ∧
  work = request item ∧ previous_resource_cycle p <= offered < 2 ^ 64 ∧ offer_policy p offered = Ok tt ∧
  verify_sources (provider_admission p) (world (invocations p)) (session p) false = Ok tt.
Proof.
  unfold precheck. rewrite !check_bind. intros (H2 & H3 & Hp). destruct (_ !! _) as [it|] eqn:E; [|done].
  rewrite check_bind in Hp. destruct Hp as [H4 Hp]. apply bind_Ok in Hp as (st & _ & Hp).
  rewrite check_bind in Hp. destruct Hp as [H5 Hp]. apply bind_Ok in Hp as ([] & H6 & Hp).
  apply bind_Ok in Hp as ([] & H7 & Hp). apply bind_Ok in Hp as (d & _ & Hp). apply bind_Ok in Hp as (r & _ & Hp).
  apply bind_Ok in Hp as (_ & _ & [= <-]). z_props. done.
Qed.

(** ** Runs of a provider *)

(** [reached p0 ws p]: from [p0], any calls led to [p] and returned the
    windows [ws]. *)
Inductive reached (p0 : Provider) : list StatefulWindow → Provider → Prop :=
  | reached_start : reached p0 [] p0
  | reached_window ws p work offered p' w :
      reached p0 ws p → execute world sink work offered p = (p', Ok w) → reached p0 (ws ++ [w]) p'
  | reached_error ws p work offered p' e :
      reached p0 ws p → execute world sink work offered p = (p', Err e) → reached p0 ws p'
  | reached_verify ws p p' r : reached p0 ws p → verify_complete world p = (p', r) → reached p0 ws p'
  | reached_close ws p : reached p0 ws p → reached p0 ws (close_provider p).

(** What the calls never change. *)
Definition same_admission (p p' : Provider) : Prop :=
  provider_admission p' = provider_admission p ∧ provider_bound p' = provider_bound p ∧
  provider_limits p' = provider_limits p ∧ certified_offers p' = certified_offers p.

(** The bookkeeping of the provider against the windows it returned. *)
Record books (p0 : Provider) (ws : list StatefulWindow) (p : Provider) : Prop := {
  bk_same : same_admission p0 p;
  bk_works : map window_work ws = take (length ws) (provider_requests p0);
  bk_count : invocations p = length ws;
  bk_completed : provider_completed p = list_to_set (map (work_identity ∘ window_work) ws);
  bk_free : previous_resource_cycle p = released ws;
  bk_windows : Forall (window_ok (provider_limits p0)) ws;
  bk_sequence : in_sequence 0 ws;
}.

Lemma books_with_session p0 ws s p : books p0 ws p → books p0 ws (with_session s p).
Proof. intros []. by constructor. Qed.
Lemma books_fault p0 ws p : books p0 ws p → books p0 ws (fault p).
Proof. intros []. by constructor. Qed.
Lemma books_close p0 ws p : books p0 ws p → books p0 ws (close_provider p).
Proof. intros []. unfold close_provider. destruct (provider_closed p); by constructor. Qed.

Lemma verify_complete_inv p p' r :
  verify_complete world p = (p', r) → (p' = p ∨ p' = fault p) ∧ (r = Ok tt → p' = p ∧ all_completed p = true ∧ final_checks world p = Ok tt).
Proof.
  unfold verify_complete. destruct (all_completed p); [|intros [<- <-]%pair_eq; split; [by left|done]].
  destruct (final_checks world p) as [[]|] eqn:E; intros [<- <-]%pair_eq; (split; [first [by left|by right]|done]).
Qed.

Lemma books_execute p0 ws p work offered p' w :
  books p0 ws p → execute world sink work offered p = (p', Ok w) → books p0 (ws ++ [w]) p'.
Proof.
  intros Hb (item & s' & Hpre & -> & Hw & Hoff & Hok)%execute_Ok.
  apply precheck_Ok in Hpre as (_ & _ & Hitem & -> & [Hprev _] & _ & _).
  destruct Hb as [Hs Hworks Hcount Hdone Hfree Hall Hseq]. destruct Hs as (Ha & Hbd & Hl & Ho).
  rewrite Hcount, Hbd in Hitem. constructor; cbn.
  - done.
  - rewrite map_app, length_app, Hworks. cbn. rewrite Nat.add_1_r, Hw. symmetry. apply take_S_r.
    unfold provider_requests. by rewrite list_lookup_fmap, Hitem.
  - rewrite length_app, Hcount. cbn. lia.
  - rewrite map_app, list_to_set_app_L, Hdone. cbn. rewrite Hw. set_solver.
  - unfold released. by rewrite last_snoc.
  - apply Forall_app. split; [done|]. constructor; [|done]. by rewrite Hl in Hok.
  - apply in_sequence_snoc; [done|]. rewrite Hoff. by rewrite Hfree in Hprev.
Qed.

Lemma reached_books p0 ws p : books p0 [] p0 → reached p0 ws p → books p0 ws p.
Proof.
  intros Hp0. induction 1 as [|ws p work off p' w _ IH Hx|ws p work off p' e _ IH Hx|ws p p' r _ IH Hv|ws p _ IH].
  - done.
  - by eapply books_execute.
  - apply execute_Err in Hx as [s' [-> | ->]]; [by apply books_with_session|by apply books_fault, books_with_session].
  - apply verify_complete_inv in Hv as [[-> | ->] _]; [done|by apply books_fault].
  - by apply books_close.
Qed.

Lemma new_provider_books production s before after p :
  new_provider certificate_offers sink production s before after = Ok p →
  books p [] p ∧ admit_trace production before after = Ok (provider_admission p, provider_bound p).
Proof.
  unfold new_provider. intros Hn. apply bind_Ok in Hn as ([a bound] & Ha & Hn).
  apply bind_Ok in Hn as (d & _ & Hn). rewrite check_bind in Hn. destruct Hn as [_ Hn].
  apply bind_Ok in Hn as (off & _ & Hn). destruct (enter _ _) as [s' r].
  apply bind_Ok in Hn as (_ & _ & Hn). apply bind_Ok in Hn as (cold & _ & Hn).
  rewrite check_bind in Hn. destruct Hn as [_ [= <-]]. split; [by constructor|done].
Qed.

(** C20: The windows of a provider.  From its construction on, whatever works
    are offered in whatever order, with failures, premature completion checks
    and closing in between, the windows returned are those of an initial
    segment of the admitted works in trace order; they follow each other
    without overlap from cycle 0; each one has offer <= accept < result <=
    scale release <= resource, stays within the certified tag and row limits
    and ends in valid buffer halves; and the provider's counters agree. *)
Theorem provider_windows production s before after p0 ws p :
  new_provider certificate_offers sink production s before after = Ok p0 → reached p0 ws p →
  map window_work ws = take (length ws) (provider_requests p0) ∧ in_sequence 0 ws ∧
  Forall (window_ok (provider_limits p0)) ws ∧ invocations p = length ws ∧
  previous_resource_cycle p = released ws ∧
  provider_completed p = list_to_set (map (work_identity ∘ window_work) ws).
Proof.
  intros [Hp0 _]%new_provider_books Hr. by destruct (reached_books _ _ _ Hp0 Hr).
Qed.

(** C22: A failed transition is final: once a provider is faulted, every later
    call of [execute] and of [verify_complete] raises, and it stays faulted. *)
Theorem faulted_forever p0 ws p :
  reached p0 ws p → provider_faulted p0 = true →
  ws = [] ∧ provider_faulted p = true ∧ (∀ work offered, ∃ e, execute world sink work offered p = (p, Err e)) ∧
  ∃ e, verify_complete world p = (p, Err e).
Proof.
  intros Hr Hp0. assert (Hf : ws = [] ∧ provider_faulted p = true).
  { induction Hr as [|ws p work off p' w _ [-> IH] Hx|ws p work off p' e _ [-> IH] Hx|ws p p' r _ [-> IH] Hv|ws p _ [-> IH]].
    - done.
    - apply execute_Ok in Hx as (item & s' & (Hn & _)%precheck_Ok & _). congruence.
    - by apply execute_Err in Hx as [s' [-> | ->]].
    - by apply verify_complete_inv in Hv as [[-> | ->] _].
    - split; [done|]. unfold close_provider. by destruct (provider_closed p). }
  destruct Hf as [-> Hf]. split_and!; [done|done|..].
  - intros work off. unfold execute, precheck. rewrite Hf. by eexists.
  - unfold verify_complete, all_completed. rewrite Hf. by eexists.
Qed.

(** C21: Completion.  When [verify_complete] succeeds after some calls, the
    windows returned are exactly those of the admitted works, each once and in
    order, and the certificate, the trace and every Python source are still
    the ones the admission recorded. *)
Theorem verify_complete_covers production s before after p0 ws p p' :
  new_provider certificate_offers sink production s before after = Ok p0 → reached p0 ws p →
  verify_complete world p = (p', Ok tt) →
  map window_work ws = provider_requests p0 ∧ p' = p ∧
  sources_match (provider_admission p0) (world (length ws)) true = true.
Proof.
  intros [Hp0 _]%new_provider_books Hr Hv. destruct (reached_books _ _ _ Hp0 Hr) as [Hs Hw Hc _ _ _ _].
  apply verify_complete_inv in Hv as [_ Hv]. destruct (Hv eq_refl) as (-> & Hall & Hfin).
  destruct Hs as (Ha & Hbd & _). unfold all_completed in Hall. z_props.
  match goal with E : Nat.eqb _ _ = true |- _ => apply Nat.eqb_eq in E end.
  split_and!; [|done|].
  - rewrite Hw. apply take_ge. unfold provider_requests. rewrite length_map, <-Hbd. lia.
  - unfold final_checks in Hfin. apply bind_Ok in Hfin as ([] & Hfin & _). unfold verify_sources in Hfin.
    rewrite Ha, Hc in Hfin. destruct (sources_match _ _ true); [done|]. discriminate Hfin.
Qed.

(** ** Termination *)

(** What the header of the C interface documents about
    [im2p_cycle_sequence_advance_to_boundary]: the cursor counts committed
    edges, a soft-budget return has run [max_steps] of them and no edge beyond
    [until_cycle]; reading the status of a live handle succeeds. *)
Class NativeProgress : Prop := {
  status_reads : ∀ e, (native_status e).1 = code_value OK;
  cursor_nonneg : ∀ e, 0 <= status_cursor (native_status e).2;
  soft_budget_progress : ∀ e until steps e', 0 < steps →
    native_advance_to_boundary e until steps = (code_value INCOMPLETE, e') →
    stop_reason (native_status e').2 = stop_value SOFT_BUDGET →
    status_cursor (native_status e).2 + steps <= status_cursor (native_status e').2 <= until;
}.

Definition ends {A} (r : res A) : Prop := r ≠ Err OutOfFuel.

Lemma ends_cast {A B} e : ends (@Err A e) → ends (@Err B e).
Proof. unfold ends. congruence. Qed.
Ltac ends_err := first [done | cbn; eapply ends_cast; eassumption].

Lemma ends_bind {A B} (f : A → res B) m : ends m → (∀ a, m = Ok a → ends (f a)) → ends (mbind f m).
Proof. unfold ends. destruct m; cbn; naive_solver. Qed.
Lemma ends_check b e : e ≠ OutOfFuel → ends (check b e).
Proof. unfold ends. destruct b; cbn; congruence. Qed.
Lemma ends_checked raw operation : ends (checked raw operation).
Proof. unfold ends, checked. destruct (parse_code raw); [|done]. by destruct (_ <? 0). Qed.
Lemma ends_uint v bits name : ends (uint v bits name).
Proof. unfold uint. apply ends_bind; [by apply ends_check|]. intros ? _. by apply ends_bind; [apply ends_check|]. Qed.
Lemma ends_map {A B} (f : A → res B) l : (∀ x, ends (f x)) → ends (map_res f l).
Proof.
  intros Hf. induction l as [|x l IH]; cbn; [done|]. apply ends_bind; [done|]. intros ? _. by apply ends_bind.
Qed.
Lemma ends_observe {A} operation (f : engine → Z * A) s : ends (observe operation f s).
Proof.
  unfold observe. destruct (handle s); [|done]. destruct (f _). apply ends_bind; [apply ends_checked|done].
Qed.

Lemma ends_descriptor w : ends (offer_descriptor w).
Proof.
  unfold offer_descriptor. apply ends_bind; [apply ends_map; intros []; apply ends_uint|]. intros ? _.
  apply ends_bind; [apply ends_uint|]. intros ? _. apply ends_bind; [|done].
  destruct (work_spans w), (work_original_k w); try done.
  apply ends_bind; [|by intros ? _; apply ends_bind; [apply ends_uint|]].
  apply ends_map. intros run. repeat (apply ends_bind; [apply ends_uint|intros ? _]). done.
Qed.

Lemma ends_offer w c s : ends (offer w c s).2.
Proof.
  unfold offer. destruct (handle s) eqn:E; [|done].
  pose proof (ends_descriptor w) as Hd. destruct (offer_descriptor w) as [d|]; cbn [mbind res_bind]; [|ends_err].
  pose proof (ends_uint c 64 "offered_cycle") as Hu. destruct (uint c 64 _); cbn [mbind res_bind]; [|ends_err].
  unfold call. rewrite E. destruct (native_offer _ _ _). apply ends_checked.
Qed.

(** Every call of [advance_to_boundary] either leaves the loop or commits
    [ADVANCE_STEPS] edges. *)
Lemma advance_loop_ends `{NativeProgress} capacity fuel : ∀ s e,
  handle s = Some e → (0 < fuel)%nat →
  MAX_SESSION_CYCLES < status_cursor (native_status e).2 + Z.of_nat fuel * ADVANCE_STEPS →
  ends (advance_loop false fuel capacity s).2.
Proof.
  induction fuel as [|fuel IH]; intros s e Hs Hpos Hcur; [lia|]. cbn [advance_loop]. unfold mbind_.
  unfold advance_to_boundary. rewrite Hs. cbn [uint].
  change (uint MAX_SESSION_CYCLES 64 "until_cycle") with (Ok MAX_SESSION_CYCLES).
  change (uint ADVANCE_STEPS 64 "max_steps") with (Ok ADVANCE_STEPS). cbn [mbind res_bind].
  unfold call. rewrite Hs. destruct (native_advance_to_boundary e _ _) as [raw e'] eqn:Ha.
  destruct (checked raw "advance_to_boundary") as [code|x] eqn:Hc;
    [|pose proof (ends_checked raw "advance_to_boundary") as Hx; rewrite Hc in Hx; ends_err].
  unfold lift, status, observe. cbn [handle with_handle].
  pose proof (status_reads e') as Hst. destruct (native_status e') as [raw' st] eqn:Est. cbn in Hst. subst raw'.
  change (checked 0 "get_status") with (Ok OK). cbn [mbind res_bind andb].
  case_bool_decide; [by apply ends_check|].
  destruct (bool_decide (code = INCOMPLETE) && _) eqn:Eb; [|done]. z_props. subst code.
  apply checked_Ok in Hc as [-> _].
  destruct (soft_budget_progress e MAX_SESSION_CYCLES ADVANCE_STEPS e' eq_refl Ha) as [Hp Hm]; [by rewrite Est|].
  rewrite Est in Hp, Hm. cbn in Hp, Hm. unfold ADVANCE_STEPS in *.
  apply (IH _ e'); [done|lia|]. rewrite Est. cbn. lia.
Qed.

Lemma offer_handle w c s s' code : offer w c s = (s', Ok code) → ∃ e, handle s' = Some e.
Proof.
  unfold offer. destruct (handle s) eqn:E; [|done].
  destruct (let* d := offer_descriptor w in _) as [[d z]|]; [|done]. unfold call. rewrite E.
  destruct (native_offer _ _ _). intros [<- _]%pair_eq. by eexists.
Qed.

Lemma ends_precheck work offered p : ends (precheck world p work offered).
Proof.
  unfold precheck. do 2 (apply ends_bind; [by apply ends_check|intros ? _]). destruct (_ !! _); [|done].
  apply ends_bind; [by apply ends_check|intros ? _]. apply ends_bind; [apply ends_observe|intros st _].
  apply ends_bind; [by apply ends_check|intros ? _]. apply ends_bind; [|intros ? _].
  { unfold offer_policy. destruct (certified_offers p); [|by apply ends_check].
    destruct (_ !! _); [by apply ends_check|done]. }
  apply ends_bind; [|intros ? _].
  { unfold verify_sources. destruct (sources_match _ _ _); [|done]. cbn [check mbind res_bind].
    unfold verify_identity. destruct (identity _); [|done]. unfold source_identity. destruct (profile_shape _); [|done].
    cbn [mbind res_bind]. by destruct (bool_decide _). }
  do 2 (apply ends_bind; [apply ends_observe|intros ? _]). apply ends_bind; [|done].
  unfold require_m. apply ends_bind; [|by intros; apply ends_check]. unfold and_then.
  destruct (domain_ok _ _ _ _); [|done]. apply ends_bind; [apply ends_observe|done].
Qed.

Lemma ends_check_report item offered p : ends (check_report item offered p).2.
Proof.
  unfold check_report.
  pose proof (ends_observe "get_status" native_status (session p)) as Hr1. unfold status.
  destruct (observe "get_status" _ _); cbn [mbind res_bind]; [|ends_err].
  pose proof (ends_observe "get_domain_snapshot" native_domain_snapshot (session p)) as Hr2. unfold domain_snapshot.
  destruct (observe "get_domain_snapshot" _ _); cbn [mbind res_bind]; [|ends_err].
  pose proof (ends_observe "get_row_pressure" native_row_pressure (session p)) as Hr3. unfold row_pressure.
  destruct (observe "get_row_pressure" _ _); cbn [mbind res_bind]; [|ends_err].
  unfold pop_report. destruct (handle (session p)); [|done]. destruct (native_pop_report _) as [[raw rep] e'].
  cbn [snd]. apply ends_bind; [apply ends_bind; [apply ends_checked|done]|]. intros [report|] _; [|done].
  apply ends_bind; [by apply ends_check|done].
Qed.

Lemma run_work_ends `{NativeProgress} item offered p e :
  handle (session p) = Some e → ends (run_work false item offered p).2.
Proof.
  intros He. unfold run_work, mbind_, on_session at 1.
  assert (Hl : ends (advance_loop false ADVANCE_FUEL (event_capacity p) (session p)).2).
  { apply (advance_loop_ends _ _ _ e); [done|vm_compute; lia|].
    pose proof (cursor_nonneg e). change (Z.of_nat ADVANCE_FUEL) with 15260.
    unfold MAX_SESSION_CYCLES, ADVANCE_STEPS. lia. }
  destruct (advance_loop _ _ _ _) as [s1 [[]|x]]; [|ends_err].
  pose proof (ends_check_report item offered (with_session s1 p)) as Hc.
  destruct (check_report _ _ _) as [p2 [w|x]]; [|done]. done.
Qed.

(** C23: Execution ends.  Without an event sink a call of [execute] never runs
    out of the model's fuel: between the offer and the report the loop makes
    at most one pass per [65,536] edges of the session limit, for an engine
    whose soft-budget returns have committed their steps. *)
Theorem execute_ends `{NativeProgress} work offered p :
  ends (execute world false work offered p).2.
Proof.
  unfold execute. destruct (precheck world p work offered) as [item|x] eqn:Hpre; cbn [snd].
  2:{ intros [= ->]. revert Hpre. apply ends_precheck. }
  unfold on_session at 1. pose proof (ends_offer (sequence_work false (trace item)) offered (session p)) as Ho.
  destruct (offer _ _ _) as [s1 [code|x]] eqn:Eo; cbn [snd] in *; [|ends_err]. case_bool_decide; [|done].
  assert (Hs1 : ∃ e, handle s1 = Some e) by by eapply offer_handle. destruct Hs1 as [e He].
  pose proof (run_work_ends item offered (with_session s1 p) e He) as Hr.
  by destruct (run_work _ _ _ _) as [p2 [w|x]].
Qed.
End Theorems.

(** ** A concrete engine

    A small engine with the C interface, on which the sample trace runs to
    completion.  It shows that the hypotheses about the native engine can
    hold, and the theorems about providers are instantiated on it. *)
From S2P Require Import Prelude Records Profiles TraceSchema TraceIntegrity TraceSample Domains Rational.
From S2P Require Import ExecutionIR Services Sequence Admission Provider.

Record Job := { job_id : Z; job_offered : Z; job_accepted : Z; job_finish : Z }.

Record Engine := {
  engine_cursor : Z;
  engine_job : option Job;
  engine_report : option Report;
  engine_works : Z;
  engine_stop : Z;
}.

Definition cursor (e : Engine) : Z := Z.max 0 (engine_cursor e).

Definition no_counters : Counters := {|
  start_cycle := 0; done_cycle := 0; total_cycles := 0; logical_work_count := 0; loop_count := 0;
  planner_loop_count := 0; fragment_count := 0; load_request_count := 0; load_response_count := 0;
  store_request_count := 0; store_response_count := 0; scale_request_count := 0; scale_response_count := 0;
  event_count_total := 0 |}.

Definition job_counters (j : Job) : Counters := {|
  start_cycle := job_accepted j; done_cycle := job_finish j - 2; total_cycles := job_finish j - 2 - job_accepted j;
  logical_work_count := 1; loop_count := 1; planner_loop_count := 1; fragment_count := 1;
  load_request_count := 4; load_response_count := 4; store_request_count := 2; store_response_count := 2;
  scale_request_count := 0; scale_response_count := 0; event_count_total := 0 |}.

Definition job_report (j : Job) : Report := {|
  report_generation := 1; report_work_id := job_id j; report_offered_cycle := job_offered j;
  report_accepted_cycle := job_accepted j; result_ready_cycle := job_finish j - 2;
  final_scale_release_cycle := job_finish j - 1; resource_ready_cycle := job_finish j; report_event_count := 0;
  report_scratchpad_half := 0; report_accumulator_half := 0; report_counters := job_counters j |}.

(** A work of [m] rows takes [100000 * m] cycles. *)
Definition engine_offer (e : Engine) (d : Descriptor) (offered : Z) : Z * Engine :=
  let accepted := Z.max (cursor e) offered in
  let j := {| job_id := nth 0 (descriptor_words d) 0; job_offered := offered; job_accepted := accepted;
              job_finish := accepted + 100000 * nth 1 (descriptor_words d) 0 |} in
  (0, {| engine_cursor := cursor e; engine_job := Some j; engine_report := engine_report e;
         engine_works := engine_works e; engine_stop := engine_stop e |}).

Definition engine_advance (e : Engine) (until steps : Z) : Z * Engine :=
  let at_stop c j r n stop := {| engine_cursor := c; engine_job := j; engine_report := r; engine_works := n;
                                 engine_stop := stop |} in
  match engine_report e, engine_job e with
  | None, Some j =>
      if (job_finish j <=? cursor e + steps) && (job_finish j <=? until) then
        (0, at_stop (job_finish j) None (Some (job_report j)) (engine_works e + 1) (stop_value REPORT_AVAILABLE))
      else if cursor e + steps <=? until then
        (1, at_stop (cursor e + steps) (Some j) None (engine_works e) (stop_value SOFT_BUDGET))
      else (-4, at_stop until (Some j) None (engine_works e) (stop_value SESSION_BUDGET))
  | r, j => (0, at_stop (cursor e) j r (engine_works e) (stop_value REPORT_AVAILABLE))
  end.

Definition present {A} (o : option A) : Z := match o with Some _ => 1 | None => 0 end.

Definition engine_status (e : Engine) : Status := {|
  status_generation := 1; status_cursor := cursor e; session_cycles := cursor e;
  work_cycles := 0; accepted_work_id := 0; status_offered_cycle := 0; status_accepted_cycle := 0;
  last_discarded_generation := 0; initialized := 1; has_pending := present (engine_job e); has_active := 0;
  has_report := present (engine_report e); has_accepted := 0; status_faulted := 0;
  status_scratchpad_half := 0; status_accumulator_half := 0; stop_reason := engine_stop e |}.

Definition engine_domain (e : Engine) : DomainSnapshot := {|
  domain_generation := 1; domain_cursor := cursor e; domain_resource_ready := 1; domain_row_count := 0;
  domain_tag_count := 0; domain_max_tag_occupancy := if engine_works e =? 0 then 0 else 2;
  domain_ready_violation_mask := 0; domain_rows := []; domain_tags := []; domain_banks := [] |}.

Definition fresh_engine : Engine := {|
  engine_cursor := 0; engine_job := None; engine_report := None; engine_works := 0; engine_stop := 0 |}.

#[export] Instance sample_native : Native := {|
  engine := Engine;
  sizeof_config := 152;
  native_config_init := (1, 152);
  native_create := fun _ => (0, fresh_engine);
  native_reset := fun _ => (0, fresh_engine);
  native_offer := engine_offer;
  native_advance_until := fun e t => engine_advance e t t;
  native_advance_to_boundary := engine_advance;
  native_status := fun e => (0, engine_status e);
  native_row_pressure := fun e => (0, {| rows_generation := 1; rows_cursor := cursor e;
                                         rows_row_count := 0; rows_max_row_occupancy := 3 |});
  native_domain_snapshot := fun e => (0, engine_domain e);
  native_counters := fun e => (0, {| start_cycle := 0; done_cycle := 0; total_cycles := 0;
    logical_work_count := engine_works e; loop_count := 0; planner_loop_count := 0; fragment_count := 0;
    load_request_count := 0; load_response_count := 0; store_request_count := 0; store_response_count := 0;
    scale_request_count := 0; scale_response_count := 0; event_count_total := 0 |});
  native_pop_report := fun e =>
    match engine_report e with
    | Some r => (0, r, {| engine_cursor := cursor e; engine_job := engine_job e; engine_report := None;
                          engine_works := engine_works e; engine_stop := engine_stop e |})
    | None => (2, job_report {| job_id := 0; job_offered := 0; job_accepted := 0; job_finish := 0 |}, e)
    end;
  native_read_events := fun e _ => (0, 0, e);
|}.

#[export] Instance sample_progress : NativeProgress.
Proof.
  constructor; cbn -[Z.max]; [done|unfold cursor; lia|].
  intros [c j r n st] until steps e' Hsteps. unfold engine_advance, cursor. cbn -[Z.max].
  destruct r, j as [j|]; try (by intros [= <-] Hs; discriminate Hs || discriminate).
  destruct (_ && _); [intros E; discriminate E|]. destruct (Z.leb_spec (Z.max 0 c + steps) until); intros E Hs.
  - injection E as <-. cbn -[Z.max]. lia.
  - discriminate E.
Qed.

(** ** The sample trace on the engine *)

#[export] Instance sample_certificates : Certificates := {|
  same_library := true;
  trace_lines := sample_lines;
  certificate_document := Err (OSError "certificate");
  validate_certificate := fun _ => Ok {| scoped_certificate_sha256 := "certificate";
    scoped_library_sha256 := "library"; case_ids := ["case"]; state_domain_revision := LEGACY_REVISION |};
  admit_certificate := fun _ => Ok tt;
|}.

Definition sample_world : World := {|
  files := {| observed_library := "library"; observed_file := fun path => path |};
  certificate_digest := "certificate"; trace_digest := "trace"; trace_stat := [1; 2; 3] |}.
Definition sample_worlds (n : nat) : World := sample_world.

Definition sample_provider : res Provider :=
  new_provider (H := text_host) (Err (OSError "offers")) false false default_settings sample_world sample_world.

(** Executes the works [n] times, each at the cycle the previous one ended. *)
Fixpoint execute_all (n : nat) (p : Provider) : Provider * res (list StatefulWindow) :=
  match n with
  | O => (p, Ok [])
  | S n =>
      match nth_error (provider_requests p) (invocations p) with
      | None => (p, Err (IndexError "requests"))
      | Some w =>
          match execute sample_worlds false w (previous_resource_cycle p) p with
          | (p', Err e) => (p', Err e)
          | (p', Ok window) =>
              match execute_all n p' with
              | (p'', Ok ws) => (p'', Ok (window :: ws))
              | (p'', Err e) => (p'', Err e)
              end
          end
      end
  end.

Lemma execute_all_reached n : ∀ p0 pre p p' ws,
  reached sample_worlds false p0 pre p → execute_all n p = (p', Ok ws) →
  reached sample_worlds false p0 (pre ++ ws) p'.
Proof.
  induction n as [|n IH]; intros p0 pre p p' ws Hr; cbn [execute_all].
  - intros [<- <-%Ok_eq]%pair_eq. by rewrite app_nil_r.
  - destruct (nth_error _ _) as [w|]; [|done]. destruct (execute _ _ _ _ _) as [p1 [window|]] eqn:E; [|done].
    destruct (execute_all n p1) as [p2 [ws'|]] eqn:E'; [|done]. intros [<- <-%Ok_eq]%pair_eq.
    change (window :: ws') with ([window] ++ ws'). rewrite (assoc_L (++)). eapply IH; [|exact E'].
    by eapply reached_window.
Qed.

(** The sample run: both works, then the completion check. *)
Lemma sample_provider_runs :
  match sample_provider with
  | Ok p0 =>
      match execute_all 2 p0 with
      | (p, Ok ws) => Nat.eqb (length ws) 2 && is_ok (verify_complete sample_worlds p).2
      | _ => false
      end
  | Err _ => false
  end = true.
Proof. vm_compute. reflexivity. Qed.

Lemma sample_provider_run : ∃ p0 ws p,
  new_provider (H := text_host) (Err (OSError "offers")) false false default_settings sample_world sample_world
    = Ok p0 ∧ reached sample_worlds false p0 ws p ∧ length ws = 2%nat ∧
  verify_complete sample_worlds p = (p, Ok tt).
Proof.
  pose proof sample_provider_runs as Hc. unfold sample_provider in Hc.
  destruct (new_provider _ _ _ _ _ _) as [p0|]; [|done].
  destruct (execute_all 2 p0) as [p [ws|]] eqn:Er; [|done]. apply andb_prop in Hc as [Hl%Nat.eqb_eq Hv].
  exists p0, ws, p. split; [exact eq_refl|].
  split; [exact (execute_all_reached 2 p0 [] p0 p ws (reached_start _ _ _) Er)|]. split; [exact Hl|].
  destruct (verify_complete sample_worlds p) as [p' [[]|]] eqn:E; [|discriminate Hv].
  apply verify_complete_inv in E as [_ E]. destruct (E eq_refl) as [-> _]. reflexivity.
Qed.

Lemma provider_windows_witness :
  ∃ p0 ws p, sample_provider = Ok p0 ∧ length ws = 2%nat ∧ in_sequence 0 ws ∧ invocations p = 2%nat.
Proof.
  destruct sample_provider_run as (p0 & ws & p & Hp & Hr & Hl & _). exists p0, ws, p.
  destruct (provider_windows (H := text_host) _ _ _ _ _ _ _ _ _ _ Hp Hr) as (_ & Hs & _ & Hc & _).
  rewrite Hl in Hc. repeat split; assumption.
Defined.

Lemma verify_complete_covers_witness :
  ∃ p0 ws, sample_provider = Ok p0 ∧ map window_work ws = provider_requests p0 ∧ length ws = 2%nat.
Proof.
  destruct sample_provider_run as (p0 & ws & p & Hp & Hr & Hl & Hv). exists p0, ws.
  destruct (verify_complete_covers (H := text_host) _ _ _ _ _ _ _ _ _ _ _ Hp Hr Hv) as (Hw & _).
  repeat split; assumption.
Defined.

Lemma faulted_forever_witness :
  ∃ p0, provider_faulted p0 = true ∧ ∃ e, verify_complete sample_worlds p0 = (p0, Err e).
Proof.
  destruct sample_provider_run as (p0 & ws & p & _). exists (fault p0). split; [reflexivity|].
  exact (proj2 (proj2 (proj2 (faulted_forever sample_worlds false (fault p0) [] (fault p0)
    (reached_start _ _ _) eq_refl)))).
Defined.

Lemma execute_ends_witness :
  ∃ p0, sample_provider = Ok p0 ∧
    ends (execute sample_worlds false
      {| work_identity := "npu:0"; request_sha256 := ""; Services.profile := "" |} 0 p0).2.
Proof.
  destruct sample_provider_run as (p0 & ws & p & Hp & _). exists p0. split; [exact Hp|].
  exact (execute_ends sample_worlds _ 0 p0).
Defined.
