(* ===== verification/Scheduler.v ===== *)
(** * The scheduler

    [sim/cycle/scheduler.py]: list scheduling of an execution graph.  Nodes
    start in the order of their submission number and identity as soon as
    their dependencies reached the required milestone and their resources are
    free; NPU work starts on a clock edge and is timed by a provider.

    The two kinds of providers are interfaces: [PlainProvider] for the
    estimates of isolated works, [SequenceProvider] for the stateful session
    of [Provider.v].  Reading a clock selection is a parameter. *)
From S2P Require Import Prelude Records Profiles Domains Rational ExecutionIR Services Sequence Admission Provider.
Set Default Goal Selector "!".

Record Scenario := {
  npu_frequency_hz : Z;
  scenario_scope : string;
  clock_artifact : option string;
  scenario_profile : string;
}.

(** ** Interfaces of the providers *)

(** What the scheduler reads of a [CycleServiceProvider]. *)
Record CycleFacts := {
  fact_admission : option record;
  fact_profile : string;
  fact_work_count : Z;
  fact_requests : Z;
  fact_complete : bool;
}.

Class PlainProvider := {
  plain_state : Type;
  plain_scope : plain_state → string;
  plain_cycle : plain_state → option CycleFacts;
  plain_estimate : NpuWork → Z → method plain_state NpuService;
  plain_law : ∀ work c p p' s, plain_estimate work c p = (p', Ok s) →
    0 < result_ready_cycles s ∧ result_ready_cycles s <= resource_ready_cycles s;
}.

Class SequenceProvider := {
  seq_state : Type;
  seq_admission : seq_state → StatefulAdmission;
  seq_requests : seq_state → list NpuWork;
  seq_previous : seq_state → Z;
  seq_execute : NpuWork → Z → method seq_state StatefulWindow;
  seq_verify : method seq_state unit;
  seq_law : ∀ work c p p' w, seq_execute work c p = (p', Ok w) →
    seq_previous p <= c ∧ offered_cycle w = c ∧ c <= accepted_cycle w ∧ accepted_cycle w < window_result_ready w ∧
    window_result_ready w <= window_scale_release w ∧ window_scale_release w <= window_resource_ready w ∧
    seq_previous p' = window_resource_ready w;
}.

Record ScheduledNode := {
  scheduled_identity : string;
  accepted_ns : Qc;
  result_ready_ns : Qc;
  resource_ready_ns : Qc;
  worker_intervals : list WorkerService;
  scheduled_cycle : option Z;
  scheduled_evidence : option string;
  request_available_ns : option Qc;
  port_offer_ns : option Qc;
  final_scale_release_ns : option Qc;
}.

Definition milestone_of (n : ScheduledNode) (m : Milestone) : Qc :=
  match m with
  | ACCEPTED => accepted_ns n
  | RESULT_READY => result_ready_ns n
  | RESOURCE_READY => resource_ready_ns n
  end.

(** *** The record form *)

Definition rational (q : Qc) : record :=
  [("numerator", JInt (Qnum q)); ("denominator", JInt (Zpos (Qden q)))].

Definition worker_interval (s : WorkerService) : json :=
  JObj [("resource", JStr (resource s)); ("worker_id", option_int (worker_id s));
        ("duration_ns", JObj (rational (duration_ns s))); ("source", JStr (source s)); ("unit", JStr (unit_ s));
        ("quantity", JInt (quantity s)); ("measurement", JObj (measurement s))].

Definition option_rational (o : option Qc) : json :=
  match o with Some q => JObj (rational q) | None => JNull end.

Definition scheduled_record (n : ScheduledNode) : record :=
  let base := [("node_id", JStr (scheduled_identity n)); ("accepted_ns", JObj (rational (accepted_ns n)));
    ("result_ready_ns", JObj (rational (result_ready_ns n)));
    ("resource_ready_ns", JObj (rational (resource_ready_ns n)));
    ("accepted_cycle", option_int (scheduled_cycle n));
    ("evidence_id", match scheduled_evidence n with Some s => JStr s | None => JNull end);
    ("worker_intervals", JArr (map worker_interval (worker_intervals n)))] in
  match request_available_ns n with
  | None => base
  | Some available => merge_records base
      [("request_available_ns", JObj (rational available)); ("port_offer_ns", option_rational (port_offer_ns n));
       ("final_scale_release_ns", option_rational (final_scale_release_ns n))]
  end.

(** [asdict(admission)] *)
Definition pairs_json (l : list (string * string)) : json :=
  JArr (map (fun p => JArr [JStr p.1; JStr p.2]) l).
Definition scoped_record (e : ScopedEvidence) : record :=
  [("certificate_sha256", JStr (scoped_certificate_sha256 e)); ("library_sha256", JStr (scoped_library_sha256 e));
   ("case_ids", JArr (map JStr (case_ids e))); ("validation_scope", JStr "SCOPED_EVIDENCE");
   ("production_admitted", JBool false); ("state_domain_revision", JStr (state_domain_revision e))].
Definition admission_record (a : StatefulAdmission) : record :=
  [("scoped", JObj (scoped_record (scoped a))); ("trace_sha256", JStr (trace_sha256 a));
   ("source_identity", JObj [("profile", JStr (identity_profile (admission_identity a)));
      ("library_sha256", JStr (identity_library_sha256 (admission_identity a)));
      ("source_sha256", pairs_json (identity_source_sha256 (admission_identity a)))]);
   ("binding_sha256", JStr (binding_sha256 a)); ("binding_abi_sha256", JStr (binding_abi_sha256 a));
   ("cli_sha256", JStr (cli_sha256 a)); ("provider_sha256", JStr (provider_sha256 a));
   ("admission_sha256", JStr (admission_sha256 a)); ("validator_sha256", JStr (validator_sha256 a));
   ("profile", JStr (admitted_profile a));
   ("work_bindings", JArr (map (fun '(i, p, b) => JArr [JInt i; JInt p; JStr b]) (work_bindings a)));
   ("read_ready_period", JInt 5); ("initial_scratchpad_half", JInt 0); ("initial_accumulator_half", JInt 0);
   ("validation_scope", JStr (admission_scope a)); ("production_admitted", JBool (production_admitted a));
   ("trace_identity", JArr (map JInt (trace_identity a)));
   ("extension_source_sha256", pairs_json (extension_source_sha256 a))].

Section Scheduler.
Context `{PlainProvider} `{SequenceProvider}.
Context (load_selection : string → string → res Z).

Inductive TimingProvider : Type :=
  | Plain (p : plain_state)
  | Diagnostic (p : seq_state)
  | Production (p : seq_state).

Definition sequence_of (p : TimingProvider) : option seq_state :=
  match p with Plain _ => None | Diagnostic q | Production q => Some q end.

Record ScheduleInputs := { ir : ExecutionIR; services : Services; npu_provider : TimingProvider }.

Definition validation_scope (p : TimingProvider) : string :=
  match p with
  | Plain q => plain_scope q
  | Diagnostic q | Production q => admission_scope (seq_admission q)
  end.

(** [provider.admission.profile == scenario.profile and
    len(provider.admission.work_bindings) == len(provider.requests)] *)
Definition sequence_coverage (q : seq_state) (sc : Scenario) : bool :=
  String.eqb (admitted_profile (seq_admission q)) (scenario_profile sc) &&
  Nat.eqb (length (work_bindings (seq_admission q))) (length (seq_requests q)).

Definition validate_environment (scope : string) (p : TimingProvider) (sc : Scenario) : res unit :=
  ensure (0 <? npu_frequency_hz sc) "positive NPU frequency required" ;;;
  ensure (str_in (scenario_scope sc) ["SYNTHETIC"; "RECONSTRUCTED"; "STATEFUL_DIAGNOSTIC"]) "unknown schedule scope" ;;;
  match p with
  | Diagnostic _ => ensure (String.eqb (scenario_scope sc) "STATEFUL_DIAGNOSTIC")
      "stateful diagnostic provider requires diagnostic scenario"
  | Production q => ensure (String.eqb (scenario_scope sc) "RECONSTRUCTED" && production_admitted (seq_admission q))
      "typed production stateful admission and reconstructed scenario required"
  | Plain _ => Ok tt
  end ;;;
  (if String.eqb (scenario_scope sc) "STATEFUL_DIAGNOSTIC" then
     ensure (match p with
       | Diagnostic q => negb (production_admitted (seq_admission q)) && sequence_coverage q sc &&
           match clock_artifact sc with None => true | Some _ => false end && String.eqb scope "BOUND_DATASET"
       | _ => false end) "source-bound diagnostic provider, trace and test clock required"
   else Ok tt) ;;;
  if String.eqb (scenario_scope sc) "RECONSTRUCTED" then
    match clock_artifact sc with
    | None => Err (ExecutionError "validated clock artifact required")
    | Some artifact =>
        match p with
        | Production q => ensure (production_admitted (seq_admission q) && sequence_coverage q sc)
            "stateful certificate profile/work coverage differs from schedule"
        | Plain q =>
            match plain_cycle q with
            | Some {| fact_admission := Some _; fact_profile := profile; fact_work_count := count;
                      fact_requests := requests |} =>
                ensure (String.eqb profile (scenario_profile sc) && (count =? requests))
                  "service certificate profile/work coverage differs from schedule"
            | _ => Err (ExecutionError "validated current-source drained-sequence service certificate required")
            end
        | Diagnostic _ => Err (ExecutionError "validated current-source drained-sequence service certificate required")
        end ;;;
        ensure (String.eqb scope "BOUND_DATASET") "real reconstruction requires bound dataset" ;;;
        let* frequency := load_selection artifact (scenario_profile sc) in
        ensure (frequency =? npu_frequency_hz sc) "clock frequency mismatch"
    end
  else Ok tt.

Definition service_binding (p : TimingProvider) (sc : Scenario) : res record :=
  if String.eqb (scenario_scope sc) "SYNTHETIC" then Ok [("scope", JStr "SYNTHETIC_ONLY")]
  else if String.eqb (scenario_scope sc) "STATEFUL_DIAGNOSTIC" then
    match p with
    | Diagnostic q => Ok (merge_records [("scope", JStr "DIAGNOSTIC_STATEFUL_SEQUENCE");
        ("npu_frequency_hz", JInt (npu_frequency_hz sc))] (admission_record (seq_admission q)))
    | _ => Err (ExecutionError "typed stateful diagnostic binding required")
    end
  else
    let certified : res record := Err (ExecutionError "certified service binding required") in
    match p with
    | Production q => if production_admitted (seq_admission q)
        then Ok (merge_records [("scope", JStr "CURRENT_STATEFUL_SEQUENCE");
          ("npu_frequency_hz", JInt (npu_frequency_hz sc))] (admission_record (seq_admission q)))
        else certified
    | Plain q => match plain_cycle q with
        | Some {| fact_admission := Some a |} =>
            Ok (merge_records [("scope", JStr "CURRENT_CERTIFIED_SEQUENCE")] a)
        | _ => certified
        end
    | Diagnostic _ => certified
    end.

Definition is_cpu (k : Kind) : bool := match k with CPU | APPLICATION_CPU => true | _ => false end.

Definition cpu_lookup (s : Services) (n : Node) : res CpuService :=
  let* i := service_id n in
  match sget i (cpu s) with Some c => Ok c | None => Err (KeyError i) end.
Definition npu_lookup (s : Services) (n : Node) : res NpuWork :=
  let* i := service_id n in
  match sget i (npu s) with Some w => Ok w | None => Err (KeyError i) end.

(** The two checks that tie a CPU node to its service. *)
Definition cpu_binding (n : Node) (c : CpuService) : res unit :=
  ensure (negb (bool_decide (kind n = APPLICATION_CPU)) || String.eqb (cpu_source c) "APPLICATION_CPU")
    "application sampling requires PoTal application source" ;;;
  ensure (set_eq String.eqb (resources n) (map resource (workers c))) "CPU worker/resource mismatch".

(** [node.service] of the nodes of some kinds; [None] is a member of the set. *)
Definition service_names (f : Kind → bool) (l : list Node) : list (option string) :=
  map service (filter (fun n => f (kind n) = true) l).
Definition same_names (names : list (option string)) (l : list string) : bool :=
  set_eq (fun x y => bool_decide (x = y)) names (map Some l).

Definition gate (inputs : ScheduleInputs) (sc : Scenario) : res unit :=
  let l := nodes (ir inputs) in
  validate_environment (scope (ir inputs)) (npu_provider inputs) sc ;;;
  ensure (same_names (service_names is_cpu l) (cpu (services inputs)).*1) "missing/extra CPU service" ;;;
  ensure (same_names (service_names is_npu l) (npu (services inputs)).*1) "missing/extra NPU service" ;;;
  match sequence_of (npu_provider inputs) with
  | Some q => ensure (same_names (service_names is_npu l) (map work_identity (seq_requests q)))
      "scheduled NPU work does not equal bound trace work"
  | None => Ok tt
  end ;;;
  iter_res (fun n => if is_cpu (kind n) then
      let* c := cpu_lookup (services inputs) n in cpu_binding n c
    else Ok tt) l.

(** ** [ServiceExecutor] *)

Record ServiceExecutor := { exec_provider : TimingProvider; resource_free : list (string * Qc) }.

Definition free_at (e : ServiceExecutor) (r : string) : Qc := default 0%Qc (sget r (resource_free e)).

Section Executor.
Context (sc : Scenario) (cycle_ns : Qc).

Definition earliest (e : ServiceExecutor) (n : Node) (now : Qc) : Qc :=
  let available := qmax_list 0%Qc (map (free_at e) (resources n)) in
  let ready := qmax now available in
  let ready := match sequence_of (exec_provider e) with
    | Some q => if is_npu (kind n) then qmax ready (qz (seq_previous q) * cycle_ns)%Qc else ready
    | None => ready
    end in
  if is_npu (kind n) then next_edge cycle_ns ready else ready.

Definition reserve (l : list (string * Qc)) (e : ServiceExecutor) : ServiceExecutor := {|
  exec_provider := exec_provider e;
  resource_free := fold_left (fun free kv => sset kv.1 kv.2 free) l (resource_free e) |}.

(** A call of a sequence provider, keeping the kind of provider. *)
Definition run_sequence (work : NpuWork) (offered : Z) (q : seq_state) (wrap : seq_state → TimingProvider)
    : method ServiceExecutor StatefulWindow := fun e =>
  let '(q', r) := seq_execute work offered q in
  ({| exec_provider := wrap q'; resource_free := resource_free e |}, r).
Definition run_plain (work : NpuWork) (accepted : Z) (q : plain_state) : method ServiceExecutor NpuService := fun e =>
  let '(q', r) := plain_estimate work accepted q in
  ({| exec_provider := Plain q'; resource_free := resource_free e |}, r).

Definition scheduled (n : Node) (accepted result released : Qc) (ws : list WorkerService) (c : option Z)
    (evidence : option string) (available offer final : option Qc) : ScheduledNode := {|
  scheduled_identity := ExecutionIR.identity n; accepted_ns := accepted; result_ready_ns := result;
  resource_ready_ns := released; worker_intervals := ws; scheduled_cycle := c; scheduled_evidence := evidence;
  request_available_ns := available; port_offer_ns := offer; final_scale_release_ns := final |}.

Definition execute_cpu (n : Node) (s : Services) (now : Qc) (available : option Qc)
    : method ServiceExecutor ScheduledNode :=
  let! c := lift (cpu_lookup s n) in
  lift (cpu_binding n c) ;;!
  modify (reserve (map (fun w => (resource w, now + duration_ns w)%Qc) (workers c))) ;;!
  let! released := get (fun e => map (fun w => free_at e (resource w)) (workers c)) in
  match released with
  | [] => raise (ValueError "max() iterable argument is empty")
  | first :: _ =>
      let at_ := qmax_list first released in
      mret (scheduled n now at_ at_ (workers c) None None available None None)
  end.

Definition execute_npu (n : Node) (s : Services) (now : Qc) (available : option Qc)
    : method ServiceExecutor ScheduledNode :=
  let! work := lift (npu_lookup s n) in
  mcheck (negb (String.eqb (scenario_scope sc) "RECONSTRUCTED") ||
          String.eqb (Services.profile work) (scenario_profile sc)) (ExecutionError "NPU work/clock profile mismatch") ;;!
  let offered := trunc (now / cycle_ns)%Qc in
  let cycles (z : Z) : Qc := (qz z * cycle_ns)%Qc in
  let! p := get exec_provider in
  let run_window (q : seq_state) (wrap : seq_state → TimingProvider) :=
    let! w := run_sequence work offered q wrap in
    modify (reserve (map (fun r => (r, cycles (window_resource_ready w))) (resources n))) ;;!
    mret (scheduled n (cycles (accepted_cycle w)) (cycles (window_result_ready w)) (cycles (window_resource_ready w))
      [] (Some (accepted_cycle w)) (Some (scoped_certificate_sha256 (scoped (window_admission w))))
      available (Some (cycles (Provider.offered_cycle w))) (Some (cycles (window_scale_release w)))) in
  match p with
  | Diagnostic q => run_window q Diagnostic
  | Production q => run_window q Production
  | Plain q =>
      let! service := run_plain work offered q in
      let result := (now + qz (result_ready_cycles service) * cycle_ns)%Qc in
      let released := (now + qz (resource_ready_cycles service) * cycle_ns)%Qc in
      modify (reserve (map (fun r => (r, released)) (resources n))) ;;!
      mret (scheduled n now result released [] (Some offered) (Some (evidence_id service)) available None None)
  end.

Definition execute_node (n : Node) (s : Services) (now : Qc) (request_available : option Qc)
    : method ServiceExecutor ScheduledNode := fun e =>
  let available := match sequence_of (exec_provider e) with Some _ => request_available | None => None end in
  (mcheck (bool_decide (now = earliest e n now)) (ExecutionError "cannot reserve a future resource for unready work") ;;!
   if is_cpu (kind n) then execute_cpu n s now available
   else if is_npu (kind n) then execute_npu n s now available
   else
     mcheck (negb (has_resources n) && negb (has_service n))
       (ExecutionError "structural/excluded node has target service") ;;!
     mret (scheduled n now now now [] None None available None None)) e.

(** ** The loop of [schedule] *)

(** [sorted(..., key=lambda item: (item.order, item.identity))] *)
Definition before (n m : Node) : bool :=
  (order n <? order m) || ((order n =? order m) && String.leb (ExecutionIR.identity n) (ExecutionIR.identity m)).
Fixpoint insert_node (n : Node) (l : list Node) : list Node :=
  match l with
  | [] => [n]
  | m :: l' => if before n m then n :: l else m :: insert_node n l'
  end.
Definition sort_nodes (l : list Node) : list Node := foldr insert_node [] l.

Record Progress := {
  pending : list Node;
  completed : list ScheduledNode;
  executor : ServiceExecutor;
  now_ns : Qc;
}.

Definition completed_at (done : list ScheduledNode) (identity : string) : option ScheduledNode :=
  List.find (fun s => String.eqb (scheduled_identity s) identity) done.

(** The milestones the node waits for; [None] while one of its dependencies
    has not completed. *)
Fixpoint milestones (done : list ScheduledNode) (l : list Dependency) : option (list Qc) :=
  match l with
  | [] => Some []
  | d :: l =>
      match completed_at done (node d), milestones done l with
      | Some s, Some ts => Some (milestone_of s (milestone d) :: ts)
      | _, _ => None
      end
  end.
Definition ready_at (done : list ScheduledNode) (n : Node) : option Qc :=
  qmax_list 0%Qc <$> milestones done (dependencies n).

(** One pass over the pending nodes: the node that can start now, or the times
    at which the ready ones can. *)
Fixpoint scan (pr : Progress) (l : list Node) (future : list Qc) : option (Node * Qc) * list Qc :=
  match l with
  | [] => (None, future)
  | n :: l =>
      match ready_at (completed pr) n with
      | None => scan pr l future
      | Some ready =>
          let at_ := earliest (executor pr) n (qmax (now_ns pr) ready) in
          if qltb (now_ns pr) at_ then scan pr l (future ++ [at_]) else (Some (n, ready), future)
      end
  end.

Definition drop_node (identity : string) (l : list Node) : list Node :=
  filter (fun n => ExecutionIR.identity n ≠ identity) l.

Definition schedule_step (s : Services) (pr : Progress) : res Progress :=
  match scan pr (sort_nodes (pending pr)) [] with
  | (Some (n, ready), _) =>
      match execute_node n s (now_ns pr) (Some ready) (executor pr) with
      | (e', Ok result) =>
          Ok {| pending := drop_node (ExecutionIR.identity n) (pending pr); completed := completed pr ++ [result];
                executor := e'; now_ns := now_ns pr |}
      | (_, Err error) => Err error
      end
  | (None, []) => Err (ExecutionError "execution stalled: unresolved causal/resource dependency")
  | (None, t :: ts) =>
      Ok {| pending := pending pr; completed := completed pr; executor := executor pr; now_ns := qmin_list t ts |}
  end.

Fixpoint schedule_loop (fuel : nat) (s : Services) (pr : Progress) : res Progress :=
  match pending pr with
  | [] => Ok pr
  | _ =>
      match fuel with
      | O => Err OutOfFuel
      | S fuel => let* pr' := schedule_step s pr in schedule_loop fuel s pr'
      end
  end.
End Executor.

Definition complete_provider (p : TimingProvider) (sc : Scenario) : res unit :=
  match p with
  | Diagnostic q | Production q => (seq_verify q).2
  | Plain q =>
      if String.eqb (scenario_scope sc) "RECONSTRUCTED" then
        ensure (match plain_cycle q with Some f => fact_complete f | None => false end)
          "scheduled NPU work does not equal bound trace work"
      else Ok tt
  end.

Record ScheduleResult := {
  result_nodes : list ScheduledNode;
  result_scope : string;
  service_validation_scope : string;
  result_service_binding : record;
  result_source_binding : option record;
}.

Definition initial (inputs : ScheduleInputs) : Progress := {|
  pending := nodes (ir inputs); completed := [];
  executor := {| exec_provider := npu_provider inputs; resource_free := [] |}; now_ns := 0%Qc |}.

(** Every pass that starts no node is followed by one that does. *)
Definition schedule_fuel (inputs : ScheduleInputs) : nat := 2 * length (nodes (ir inputs)).

(** [source_binding] are the digests of the scheduler's own sources. *)
Definition schedule (source_binding : record) (inputs : ScheduleInputs) (sc : Scenario) : res ScheduleResult :=
  gate inputs sc ;;;
  let* cycle_ns := fraction 1000000000 (npu_frequency_hz sc) in
  let* final := schedule_loop sc cycle_ns (schedule_fuel inputs) (services inputs) (initial inputs) in
  let p := exec_provider (executor final) in
  complete_provider p sc ;;;
  let* binding := service_binding p sc in
  Ok {| result_nodes := completed final; result_scope := scenario_scope sc;
        service_validation_scope := validation_scope p; result_service_binding := binding;
        result_source_binding := match sequence_of (npu_provider inputs) with
          | Some _ => Some source_binding | None => None end |}.

(** [ScheduleResult.record], published while the sources show [current]. *)
Definition result_record (current : record) (r : ScheduleResult) : res record :=
  let base := [("schema", JStr "im2p-execution-schedule");
    ("version", JInt (match result_source_binding r with Some _ => 2 | None => 1 end));
    ("scope", JStr (result_scope r)); ("service_validation_scope", JStr (service_validation_scope r));
    ("service_binding", JObj (result_service_binding r)); ("time_unit", JStr "nanosecond-rational");
    ("queue_policy", JStr "READY_ORDER_THEN_ID"); ("clock_alignment", JStr "CEIL_TO_NPU_EDGE");
    ("worker_policy", JStr "EXPLICIT_GANG_VECTOR"); ("paper_latency_ready", JBool false);
    ("validated_service_reconstruction", JBool (String.eqb (result_scope r) "RECONSTRUCTED"));
    ("nodes", JArr (map (fun n => JObj (scheduled_record n)) (result_nodes r)))] in
  match result_source_binding r with
  | None => Ok base
  | Some binding =>
      ensure (jeq (JObj binding) (JObj current)) "schedule source binding changed before publication" ;;;
      Ok (merge_records base binding)
  end.
End Scheduler.
