(* ===== verification/SchedulerTheorems.v ===== *)
(** * What a schedule guarantees

    The nodes of a schedule form a timeline: every node once, dependencies at
    the milestone they name, resources exclusively, NPU work on clock edges.
    The loop is greedy in the submission order, never stalls on a well-formed
    graph and ends after at most two passes per node. *)
From stdpp Require Import sorting.
From S2P Require Import Prelude Records Profiles Domains Rational ExecutionIR Services Sequence Admission Provider Scheduler.
Set Default Goal Selector "!".
Open Scope Z_scope.

(** When the schedule releases a resource of a node: a CPU worker after its own
    duration, everything else at the resource-ready milestone. *)
Definition released_at (s : ScheduledNode) (r : string) : Qc :=
  match List.find (fun w => String.eqb (resource w) r) (worker_intervals s) with
  | Some w => (accepted_ns s + duration_ns w)%Qc
  | None => resource_ready_ns s
  end.

(** [s] may follow the nodes [past]. *)
Record follows (c : Qc) (l : list Node) (past : list ScheduledNode) (n : Node) (s : ScheduledNode) : Prop := {
  fo_node : n ∈ l ∧ ExecutionIR.identity n = scheduled_identity s;
  fo_new : scheduled_identity s ∉ map scheduled_identity past;
  fo_dependencies : ∀ d, d ∈ dependencies n →
    ∃ s0, completed_at past (node d) = Some s0 ∧ (milestone_of s0 (milestone d) <= accepted_ns s)%Qc;
  fo_exclusive : ∀ m s0 r, m ∈ l → s0 ∈ past → ExecutionIR.identity m = scheduled_identity s0 →
    r ∈ resources m → r ∈ resources n → (released_at s0 r <= accepted_ns s)%Qc;
  fo_milestones : (accepted_ns s <= result_ready_ns s)%Qc ∧ (result_ready_ns s <= resource_ready_ns s)%Qc;
  fo_edge : kind n = NPU → on_edge c (accepted_ns s);
}.

Inductive timeline (c : Qc) (l : list Node) : list ScheduledNode → Prop :=
  | timeline_nil : timeline c l []
  | timeline_snoc past n s : timeline c l past → follows c l past n s → timeline c l (past ++ [s]).

(** ** Lemmas on lists of times and reservations *)

Lemma qmax_ge_l x y : (x <= qmax x y)%Qc.
Proof. apply qmax_spec. Qed.
Lemma qmax_ge_r x y : (y <= qmax x y)%Qc.
Proof. apply qmax_spec. Qed.
Lemma qmax_eq_l x y : (y <= x)%Qc → qmax x y = x.
Proof.
  intros Hle. apply Qcle_antisym; [|apply qmax_ge_l]. apply qmax_lub; [apply Qcle_refl|done].
Qed.

Lemma qmax_list_in d l x : x ∈ l → (x <= qmax_list d l)%Qc.
Proof. intros Hx. destruct (qmax_list_spec d l) as [Hf _]. rewrite Forall_forall in Hf. by apply Hf. Qed.

Lemma qz_nonneg z : 0 <= z → (0 <= qz z)%Qc.
Proof. rewrite <-qz_0. apply qz_le. Qed.

Lemma add_nonneg x y : (0 <= y)%Qc → (x <= x + y)%Qc.
Proof. intros Hy. qc_lra. Qed.

Lemma mul_le c a b : (0 < c)%Qc → a <= b → (qz a * c <= qz b * c)%Qc.
Proof. intros Hc Hab. apply Qcmult_le_compat_r; [by apply qz_le|by apply Qclt_le_weak]. Qed.

Lemma sget_fold (l : list (string * Qc)) : ∀ free r, NoDup l.*1 →
  sget r (fold_left (fun free kv => sset kv.1 kv.2 free) l free) =
  match sget r l with Some v => Some v | None => sget r free end.
Proof.
  induction l as [|[k v] l IH]; intros free r; cbn; [done|]. intros [Hk Hnd]%NoDup_cons. rewrite IH by done.
  rewrite (aget_aset _ String.eqb_eq). destruct (String.eqb r k) eqn:E; [|done]. apply String.eqb_eq in E as ->.
  by rewrite (proj2 (aget_None _ String.eqb_eq _ _) Hk).
Qed.

Lemma sget_map_const (l : list string) (t : Qc) r :
  sget r (map (fun r => (r, t)) l) = if str_in r l then Some t else None.
Proof. induction l as [|k l IH]; cbn; [done|]. by destruct (String.eqb r k). Qed.

Lemma sget_workers (f : WorkerService → Qc) l r :
  sget r (map (fun w => (resource w, f w)) l) = f <$> List.find (fun w => String.eqb (resource w) r) l.
Proof.
  induction l as [|w l IH]; cbn; [done|]. rewrite String.eqb_sym. by destruct (String.eqb (resource w) r).
Qed.

Section Schedule.
Context `{PlainProvider} `{SequenceProvider}.
Context (sc : Scenario) (c : Qc) (Hc : (0 < c)%Qc).

(** ** [earliest] *)

Lemma earliest_ge e n now : (now <= earliest c e n now)%Qc.
Proof.
  unfold earliest.
  assert (Hr : ∀ x, (now <= x)%Qc → (now <= (if is_npu (kind n) then next_edge c x else x))%Qc).
  { intros x Hx. destruct (is_npu _); [|done]. eapply Qcle_trans; [exact Hx|by apply next_edge_ge]. }
  apply Hr. destruct (sequence_of _) as [q|]; [|apply qmax_ge_l]. destruct (is_npu _); [|apply qmax_ge_l].
  eapply Qcle_trans; [apply (qmax_ge_l now)|apply qmax_ge_l].
Qed.

Lemma earliest_free e n now r : r ∈ resources n → (free_at e r <= earliest c e n now)%Qc.
Proof.
  intros Hr. unfold earliest. set (available := qmax_list _ _).
  assert (Ha : (free_at e r <= qmax now available)%Qc).
  { eapply Qcle_trans; [|apply qmax_ge_r]. by apply qmax_list_in, list_elem_of_In, in_map, list_elem_of_In. }
  assert (Hx : ∀ x, (qmax now available <= x)%Qc → (free_at e r <= (if is_npu (kind n) then next_edge c x else x))%Qc).
  { intros x Hx. eapply Qcle_trans; [exact Ha|]. destruct (is_npu _); [|done].
    eapply Qcle_trans; [exact Hx|by apply next_edge_ge]. }
  apply Hx. destruct (sequence_of _) as [q|]; [|apply Qcle_refl]. destruct (is_npu _); [|apply Qcle_refl]. apply qmax_ge_l.
Qed.

Lemma earliest_edge e n now : kind n = NPU → on_edge c (earliest c e n now).
Proof. intros Hk. unfold earliest. rewrite Hk. cbn. apply next_edge_on_edge. Qed.

Lemma qmax_mono x x' y : (x <= x')%Qc → (qmax x y <= qmax x' y)%Qc.
Proof.
  intros Hx. apply qmax_lub; [|apply qmax_ge_r]. eapply Qcle_trans; [exact Hx|apply qmax_ge_l].
Qed.

Lemma earliest_lub e n now t : (now <= t)%Qc → (t <= earliest c e n now)%Qc → earliest c e n t = earliest c e n now.
Proof.
  intros Hnow Ht. unfold earliest in *. set (available := qmax_list _ _) in *.
  destruct (is_npu (kind n)).
  - set (f := fun now => match sequence_of (exec_provider e) with
      | Some q => qmax (qmax now available) (qz (seq_previous q) * c) | None => qmax now available end).
    change (t <= next_edge c (f now))%Qc in Ht. change (next_edge c (f t) = next_edge c (f now)).
    assert (Hmono : (f now <= f t)%Qc).
    { unfold f. destruct (sequence_of _); repeat apply qmax_mono; done. }
    assert (Hle : (f t <= next_edge c (f now))%Qc).
    { assert (Hf : ∀ x, (now <= x → f now <= x → t <= x → f t <= x)%Qc).
      { unfold f. intros x Hx1 Hx2 Hx3. destruct (sequence_of _).
        - apply qmax_lub; [apply qmax_lub; [done|]|]; (eapply Qcle_trans; [|exact Hx2]).
          + eapply Qcle_trans; [apply qmax_ge_r|apply qmax_ge_l].
          + apply qmax_ge_r.
        - apply qmax_lub; [done|]. eapply Qcle_trans; [apply qmax_ge_r|exact Hx2]. }
      apply Hf; [|by apply next_edge_ge|done]. by eapply Qcle_trans. }
    apply Qcle_antisym.
    + unfold next_edge at 2. apply next_edge_lub; [done|exact Hle].
    + unfold next_edge at 2. apply next_edge_lub; [done|]. eapply Qcle_trans; [exact Hmono|]. by apply next_edge_ge.
  - set (f := fun now => match sequence_of (exec_provider e) with
      | Some q => qmax now available | None => qmax now available end) in *.
    change (t <= f now)%Qc in Ht. change (f t = f now). apply Qcle_antisym.
    + unfold f in *. destruct (sequence_of _); (apply qmax_lub; [done|apply qmax_ge_r]).
    + unfold f. destruct (sequence_of _); by apply qmax_mono.
Qed.

(** ** Execution of one node *)

Lemma free_reserve l e r : NoDup l.*1 →
  free_at (reserve l e) r = default (free_at e r) (sget r l).
Proof.
  intros Hnd. unfold free_at, reserve. cbn. rewrite sget_fold by done. by destruct (sget r l).
Qed.

(** Every CPU service of [s] was accepted by its constructor. *)
Definition valid_services (s : Services) : Prop :=
  ∀ i svc, sget i (cpu s) = Some svc → cpu_service_of (cpu_source svc) (policy svc) (workers svc) = Ok svc.

(** What a successful execution establishes. *)
Record executed (n : Node) (now : Qc) (e e' : ServiceExecutor) (s : ScheduledNode) : Prop := {
  ex_now : now = earliest c e n now;
  ex_identity : scheduled_identity s = ExecutionIR.identity n;
  ex_accepted : (now <= accepted_ns s)%Qc;
  ex_milestones : (accepted_ns s <= result_ready_ns s)%Qc ∧ (result_ready_ns s <= resource_ready_ns s)%Qc;
  ex_edge : kind n = NPU → on_edge c (accepted_ns s);
  ex_free : ∀ r, free_at e' r = if str_in r (resources n) then released_at s r else free_at e r;
  ex_released : ∀ r, r ∈ resources n → (now <= released_at s r)%Qc;
}.

Lemma cpu_service_valid src pol ws svc : cpu_service_of src pol ws = Ok svc →
  ws ≠ [] ∧ NoDup (map resource ws) ∧ Forall (fun w => (0 <= duration_ns w)%Qc) ws.
Proof.
  unfold cpu_service_of, ensure. rewrite !check_bind, distinct_str. intros (_ & Hne & Hnd & Hd & _).
  split; [by intros ->|]. split; [done|]. rewrite forallb_forall in Hd. apply Forall_forall. intros w Hw.
  rewrite list_elem_of_In in Hw. apply Hd, qleb_le in Hw. by rewrite qz_0 in Hw.
Qed.

Lemma execute_cpu_inv n s now av e e' sn :
  valid_services s → is_cpu (kind n) = true → now = earliest c e n now →
  execute_cpu n s now av e = (e', Ok sn) → executed n now e e' sn.
Proof.
  intros Hs Hk Hnow Hx. unfold execute_cpu in Hx. apply mbind_Ok in Hx as (e1 & svc & [<- Hsvc]%pair_eq & Hx).
  apply mbind_Ok in Hx as (e2 & [] & [<- Hb]%pair_eq & Hx). apply mbind_Ok in Hx as (e3 & [] & [<- _]%pair_eq & Hx).
  apply mbind_Ok in Hx as (e4 & rel & [<- <-%Ok_eq]%pair_eq & Hx).
  unfold cpu_lookup in Hsvc. apply bind_Ok in Hsvc as (i & _ & Hsvc). destruct (sget i (cpu s)) as [svc'|] eqn:Ei; [|done].
  injection Hsvc as ->. apply Hs, cpu_service_valid in Ei as (Hne & Hnd & Hd).
  unfold cpu_binding, ensure in Hb. rewrite check_bind, check_Ok_any in Hb. destruct Hb as [_ Hset].
  apply andb_prop in Hset as [Hsub1 Hsub2]. rewrite (subset_of_spec _ _ _ String.eqb_eq) in Hsub1.
  rewrite (subset_of_spec _ _ _ String.eqb_eq) in Hsub2.
  set (l := map (fun w => (resource w, (now + duration_ns w)%Qc)) (workers svc)) in *.
  assert (Hl : NoDup l.*1).
  { replace l.*1 with (map resource (workers svc)); [done|]. unfold l. clear. by induction (workers svc); f_equal/=. }
  assert (Hfree : ∀ r, free_at (reserve l e) r = default (free_at e r)
    ((fun w => now + duration_ns w)%Qc <$> List.find (fun w => String.eqb (resource w) r) (workers svc))).
  { intros r. rewrite free_reserve by done. unfold l. by rewrite sget_workers. }
  assert (Hfind : ∀ r, r ∈ resources n ↔ ∃ w, List.find (fun w => String.eqb (resource w) r) (workers svc) = Some w).
  { intros r. split.
    - intros Hr%Hsub1. apply list_elem_of_In, in_map_iff in Hr as (w & <- & Hw).
      destruct (List.find _ _) eqn:E; [by eexists|]. eapply List.find_none in E; [|exact Hw].
      by rewrite String.eqb_refl in E.
    - intros (w & [Hw <-%String.eqb_eq]%List.find_some). by apply Hsub2, list_elem_of_In, in_map. }
  set (rel := map (fun w => free_at (reserve l e) (resource w)) (workers svc)) in *.
  assert (Hrel : Forall (fun t => (now <= t)%Qc) rel ∧ rel ≠ []).
  { unfold rel. split; [|by destruct (workers svc)]. apply Forall_forall. intros t Ht.
    apply list_elem_of_In, in_map_iff in Ht as (w & <- & Hw). rewrite Hfree.
    destruct (List.find _ _) as [w'|] eqn:E; cbn.
    - apply List.find_some in E as [Hw' _]. rewrite Forall_forall in Hd. rewrite <-list_elem_of_In in Hw'.
      apply add_nonneg. by apply Hd.
    - eapply List.find_none in E; [|exact Hw]. by rewrite String.eqb_refl in E. }
  destruct rel as [|first rest] eqn:Erel; [by destruct Hrel|]. rewrite <-Erel in *.
  destruct Hrel as [Hrel _]. cbn in Hx. apply pair_eq in Hx as [<- <-%Ok_eq].
  assert (Hmax : (now <= qmax_list first rel)%Qc).
  { eapply Qcle_trans; [|apply qmax_list_in; rewrite Erel; constructor]. rewrite Erel in Hrel. by inversion Hrel. }
  constructor; cbn [scheduled scheduled_identity accepted_ns result_ready_ns resource_ready_ns]; [done|done|done|by split; [|apply Qcle_refl]|by intros E; rewrite E in Hk|..].
  - intros r. rewrite Hfree. unfold released_at. cbn. destruct (str_in r (resources n)) eqn:Er.
    + apply str_in_spec, Hfind in Er as [w ->]. done.
    + destruct (List.find _ _) eqn:E; [|done]. assert (r ∈ resources n) as Hin by (apply Hfind; by eexists).
      apply str_in_spec in Hin. congruence.
  - intros r Hr. apply Hfind in Hr as [w Hw]. unfold released_at. cbn. rewrite Hw.
    apply List.find_some in Hw as [Hw _]. rewrite <-list_elem_of_In in Hw. rewrite Forall_forall in Hd.
    by apply add_nonneg, Hd.
Qed.

(** All resources of an NPU node are released at once. *)
Lemma free_reserve_all (l : list string) (t : Qc) e r : NoDup l →
  free_at (reserve (map (fun r => (r, t)) l) e) r = if str_in r l then t else free_at e r.
Proof.
  intros Hnd. rewrite free_reserve.
  - rewrite sget_map_const. by destruct (str_in r l).
  - replace (map (fun r => (r, t)) l).*1 with l; [done|]. clear. by induction l; f_equal/=.
Qed.

Lemma next_edge_start e n now : kind n = NPU → now = earliest c e n now →
  (qz (trunc (now / c)) * c)%Qc = now.
Proof.
  intros Hk Hnow. pose proof (earliest_edge e n now Hk) as [k Hk']. rewrite <-Hnow in Hk'.
  by rewrite Hk', trunc_edge.
Qed.

Lemma window_executed n now e e1 s q work av :
  kind n = NPU → NoDup (resources n) → now = earliest c e n now → resource_free e1 = resource_free e →
  ∀ q' w, seq_execute work (trunc (now / c)%Qc) q = (q', Ok w) →
  executed n now e (reserve (map (fun r => (r, (qz (window_resource_ready w) * c)%Qc)) (resources n)) e1)
    (scheduled n (qz (accepted_cycle w) * c)%Qc (qz (window_result_ready w) * c)%Qc
      (qz (window_resource_ready w) * c)%Qc [] (Some (accepted_cycle w)) s av
      (Some (qz (Provider.offered_cycle w) * c)%Qc) (Some (qz (window_scale_release w) * c)%Qc)).
Proof.
  intros Hk Hnd Hnow Hfree q' w Hw. apply seq_law in Hw as (_ & _ & Hacc & Hres & Hscale & Hrel & _).
  pose proof (next_edge_start e n now Hk Hnow) as Hstart.
  assert (Hle : (now <= qz (accepted_cycle w) * c)%Qc) by (rewrite <-Hstart; by apply mul_le).
  constructor; cbn [scheduled scheduled_identity accepted_ns result_ready_ns resource_ready_ns].
  - done.
  - done.
  - done.
  - split; apply mul_le; (done || lia).
  - intros _. by eexists.
  - intros r. rewrite free_reserve_all by done. unfold released_at. cbn. unfold free_at. by rewrite Hfree.
  - intros r _. unfold released_at. cbn. eapply Qcle_trans; [exact Hle|]. apply mul_le; [done|lia].
Qed.

Lemma execute_npu_inv n s now av e e' sn :
  kind n = NPU → NoDup (resources n) → now = earliest c e n now →
  execute_npu sc c n s now av e = (e', Ok sn) → executed n now e e' sn.
Proof.
  intros Hk Hnd Hnow Hx. unfold execute_npu in Hx. apply mbind_Ok in Hx as (e1 & work & [<- _]%pair_eq & Hx).
  apply mcheck_bind in Hx as [_ Hx]. apply mbind_Ok in Hx as (e1 & p & [<- _]%pair_eq & Hx). destruct p as [q|q|q].
  - apply mbind_Ok in Hx as (e1 & svc & Hp & Hx). unfold run_plain in Hp.
    destruct (plain_estimate _ _ q) as [q' r] eqn:Eq. apply pair_eq in Hp as [<- ->].
    apply plain_law in Eq as [Hpos Hle]. apply mbind_Ok in Hx as (e2 & [] & [<- _]%pair_eq & Hx).
    apply pair_eq in Hx as [<- <-%Ok_eq].
    assert (Hn : ∀ z, 0 <= z → (now <= now + qz z * c)%Qc).
    { intros z Hz. apply add_nonneg. pose proof (mul_le c 0 z Hc Hz) as Hm. by rewrite qz_0, Qcmult_0_l in Hm. }
    constructor; cbn [scheduled scheduled_identity accepted_ns result_ready_ns resource_ready_ns].
    + done.
    + done.
    + apply Qcle_refl.
    + split; [apply Hn; lia|]. apply Qcplus_le_compat; [apply Qcle_refl|]. by apply mul_le.
    + intros _. rewrite Hnow. by apply earliest_edge.
    + intros r. by rewrite free_reserve_all.
    + intros r _. unfold released_at. cbn. apply Hn. lia.
  - apply mbind_Ok in Hx as (e1 & w & Hp & Hx). unfold run_sequence in Hp.
    destruct (seq_execute _ _ q) as [q' r] eqn:Eq. apply pair_eq in Hp as [<- ->].
    apply mbind_Ok in Hx as (e2 & [] & [<- _]%pair_eq & Hx). apply pair_eq in Hx as [<- <-%Ok_eq].
    by eapply window_executed.
  - apply mbind_Ok in Hx as (e1 & w & Hp & Hx). unfold run_sequence in Hp.
    destruct (seq_execute _ _ q) as [q' r] eqn:Eq. apply pair_eq in Hp as [<- ->].
    apply mbind_Ok in Hx as (e2 & [] & [<- _]%pair_eq & Hx). apply pair_eq in Hx as [<- <-%Ok_eq].
    by eapply window_executed.
Qed.

Lemma execute_node_inv n s now av e e' sn :
  valid_services s → NoDup (resources n) → execute_node sc c n s now av e = (e', Ok sn) → executed n now e e' sn.
Proof.
  intros Hs Hnd Hx. unfold execute_node in Hx. apply mcheck_bind in Hx as [Hnow%bool_decide_eq_true Hx].
  destruct (is_cpu (kind n)) eqn:Ek; [by eapply execute_cpu_inv|].
  destruct (is_npu (kind n)) eqn:En.
  { eapply execute_npu_inv; try done. by destruct (kind n). }
  apply mcheck_bind in Hx as [Hr Hx]. apply pair_eq in Hx as [<- <-%Ok_eq].
  apply andb_prop in Hr as [Hr%negb_true_iff _]. unfold has_resources in Hr.
  destruct (resources n) as [|r0 rs] eqn:Er; [|done].
  constructor; cbn [scheduled scheduled_identity accepted_ns result_ready_ns resource_ready_ns].
  - done.
  - done.
  - apply Qcle_refl.
  - split; apply Qcle_refl.
  - intros E. by rewrite E in En.
  - intros r. by rewrite Er.
  - intros r. rewrite Er. by intros ?%elem_of_nil.
Qed.

(** ** The order of the nodes *)

Lemma insert_node_perm n l : insert_node n l ≡ₚ n :: l.
Proof.
  induction l as [|m l IH]; cbn; [done|]. destruct (before n m); [done|]. rewrite IH. apply Permutation_swap.
Qed.
Lemma sort_nodes_perm l : sort_nodes l ≡ₚ l.
Proof. induction l as [|n l IH]; cbn; [done|]. by rewrite insert_node_perm, IH. Qed.

Lemma string_leb_total x y : String.leb x y = true ∨ String.leb y x = true.
Proof. apply String.leb_total. Qed.

Lemma before_total n m : before n m = true ∨ before m n = true.
Proof.
  unfold before. destruct (Z.ltb_spec (order n) (order m)); [by left|].
  destruct (Z.ltb_spec (order m) (order n)); [by right|].
  assert (order n = order m) as -> by lia. rewrite Z.eqb_refl. cbn. apply string_leb_total.
Qed.

Lemma string_leb_trans x y z : String.leb x y = true → String.leb y z = true → String.leb x z = true.
Proof.
  revert y z. induction x as [|a x IH]; intros [|b y] [|d z]; try done.
  unfold String.leb. cbn. destruct (Ascii.compare a b) eqn:E1; cbn; [| |done].
  - apply Ascii.compare_eq_iff in E1 as ->. destruct (Ascii.compare b d) eqn:E2; [|done..]. intros H1 H2.
    exact (IH y z H1 H2).
  - intros _. destruct (Ascii.compare b d) eqn:E2; [|intros _|done].
    + apply Ascii.compare_eq_iff in E2 as <-. by rewrite E1.
    + unfold Ascii.compare in *. apply N.compare_lt_iff in E1, E2.
      by rewrite (proj2 (N.compare_lt_iff _ _) (N.lt_trans _ _ _ E1 E2)).
Qed.

Lemma before_trans n m k : before n m = true → before m k = true → before n k = true.
Proof.
  unfold before. rewrite !orb_true_iff, !andb_true_iff, !Z.ltb_lt, !Z.eqb_eq.
  intros [?|[E1 H1]] [?|[E2 H2]]; [left; lia..|].
  right. split; [lia|]. by eapply string_leb_trans.
Qed.

Lemma insert_node_sorted n l : StronglySorted (fun x y => before x y = true) l →
  StronglySorted (fun x y => before x y = true) (insert_node n l).
Proof.
  induction 1 as [|m l Hl IH Hm]; cbn; [by repeat constructor|]. destruct (before n m) eqn:E.
  - constructor; [by constructor|]. constructor; [done|]. eapply Forall_impl; [exact Hm|]. intros k. by apply before_trans.
  - constructor; [done|]. rewrite insert_node_perm. constructor; [|done].
    destruct (before_total n m); [congruence|done].
Qed.
Lemma sort_nodes_sorted l : StronglySorted (fun x y => before x y = true) (sort_nodes l).
Proof. induction l; cbn; [constructor|by apply insert_node_sorted]. Qed.

(** ** One pass over the pending nodes *)

(** The node's dependencies are met and its resources are free now. *)
Definition startable (pr : Progress) (n : Node) : Prop :=
  ∃ ready, ready_at (completed pr) n = Some ready ∧
    (earliest c (executor pr) n (qmax (now_ns pr) ready) <= now_ns pr)%Qc.

(** When a node whose dependencies have completed can start. *)
Definition start_time (pr : Progress) (n : Node) : option Qc :=
  (fun ready => earliest c (executor pr) n (qmax (now_ns pr) ready)) <$> ready_at (completed pr) n.

Lemma scan_Some pr l : ∀ fut n ready f,
  scan c pr l fut = (Some (n, ready), f) →
  ∃ l1 l2, l = l1 ++ n :: l2 ∧ ready_at (completed pr) n = Some ready ∧
    (earliest c (executor pr) n (qmax (now_ns pr) ready) <= now_ns pr)%Qc ∧ Forall (fun m => ¬ startable pr m) l1.
Proof.
  induction l as [|m l IH]; intros fut n ready f; cbn [scan]; [done|].
  destruct (ready_at (completed pr) m) as [r|] eqn:Er.
  - destruct (qltb _ _) eqn:E.
    + intros Hs. apply IH in Hs as (l1 & l2 & -> & ? & ? & ?). exists (m :: l1), l2. split_and!; try done.
      constructor; [|done]. intros (r' & Hr' & Hle). rewrite Er in Hr'. injection Hr' as <-.
      apply qltb_lt, Qclt_not_le in E. done.
    + intros [= -> -> <-]. exists [], l. split_and!; try done. apply not_true_iff_false in E.
      rewrite qltb_lt in E. by apply Qcnot_lt_le.
  - intros Hs. apply IH in Hs as (l1 & l2 & -> & ? & ? & ?). exists (m :: l1), l2. split_and!; try done.
    constructor; [|done]. intros (r' & Hr' & _). congruence.
Qed.

Lemma scan_None pr l : ∀ fut f,
  scan c pr l fut = (None, f) → Forall (fun m => ¬ startable pr m) l ∧ f = fut ++ omap (start_time pr) l.
Proof.
  induction l as [|m l IH]; intros fut f; cbn [scan].
  - intros [= <-]. split; [done|]. by rewrite app_nil_r.
  - destruct (ready_at (completed pr) m) as [r|] eqn:Er.
    + destruct (qltb _ _) eqn:E; [|done]. intros [Hf ->]%IH. split.
      * constructor; [|done]. intros (r' & Hr' & Hle). rewrite Er in Hr'. injection Hr' as <-.
        apply qltb_lt, Qclt_not_le in E. done.
      * cbn [omap list_omap]. unfold start_time at 2. rewrite Er. cbn. by rewrite <-(assoc_L (++)).
    + intros [Hf ->]%IH. split.
      * constructor; [|done]. intros (r' & Hr' & _). congruence.
      * cbn [omap list_omap]. unfold start_time at 2. by rewrite Er.
Qed.

Lemma startable_start pr n : startable pr n ↔ ∃ t, start_time pr n = Some t ∧ (t <= now_ns pr)%Qc.
Proof.
  unfold startable, start_time. destruct (ready_at _ _) as [r|]; cbn; split.
  - intros (? & [= <-] & ?). by eexists.
  - intros (? & [= <-] & ?). by eexists.
  - by intros (? & ? & _).
  - by intros (? & ? & _).
Qed.

(** What one pass does: it starts the first startable node, or advances the
    clock to the first time a node becomes startable. *)
Inductive step_effect (s : Services) (pr : Progress) : Progress → Prop :=
  | step_start n ready e' result :
      n ∈ pending pr → ready_at (completed pr) n = Some ready →
      (earliest c (executor pr) n (qmax (now_ns pr) ready) <= now_ns pr)%Qc →
      (∀ m, m ∈ pending pr → startable pr m → before n m = true) →
      execute_node sc c n s (now_ns pr) (Some ready) (executor pr) = (e', Ok result) →
      step_effect s pr {| pending := drop_node (ExecutionIR.identity n) (pending pr);
        completed := completed pr ++ [result]; executor := e'; now_ns := now_ns pr |}
  | step_advance n t :
      n ∈ pending pr → start_time pr n = Some t → (now_ns pr < t)%Qc →
      (∀ m u, m ∈ pending pr → start_time pr m = Some u → (t <= u)%Qc) →
      step_effect s pr {| pending := pending pr; completed := completed pr; executor := executor pr; now_ns := t |}.

Lemma omap_elem {A B} (f : A → option B) (l : list A) (y : B) : y ∈ omap f l ↔ ∃ x, x ∈ l ∧ f x = Some y.
Proof. apply list_elem_of_omap. Qed.

Lemma schedule_step_Ok s pr pr' : schedule_step sc c s pr = Ok pr' → step_effect s pr pr'.
Proof.
  unfold schedule_step. destruct (scan c pr (sort_nodes (pending pr)) []) as [[[n ready]|] f] eqn:Es.
  - apply scan_Some in Es as (l1 & l2 & Hl & Hr & Hle & Hno).
    destruct (execute_node _ _ _ _ _ _ _) as [e' [result|]] eqn:Ex; [|done]. intros [= <-].
    pose proof (sort_nodes_sorted (pending pr)) as Hsort. rewrite Hl in Hsort.
    econstructor; try done.
    + rewrite <-sort_nodes_perm, Hl. apply elem_of_app. right. constructor.
    + intros m Hm Hstart. rewrite <-sort_nodes_perm, Hl in Hm.
      apply elem_of_app in Hm as [Hm|Hm]; [by rewrite Forall_forall in Hno; apply Hno in Hm|].
      apply StronglySorted_app_1_r in Hsort. inversion_clear Hsort as [|? ? _ Hf].
      apply elem_of_cons in Hm as [->|Hm]; [by destruct (before_total n n)|]. by rewrite Forall_forall in Hf; apply Hf.
  - apply scan_None in Es as [Hno ->]. cbn. destruct (omap _ _) as [|t ts] eqn:Eo; [done|]. intros [= <-].
    assert (Hin : ∀ u, u ∈ t :: ts ↔ ∃ m, m ∈ pending pr ∧ start_time pr m = Some u).
    { intros u. rewrite <-Eo, omap_elem. by setoid_rewrite sort_nodes_perm. }
    destruct (qmin_list_spec ts t) as (Hle & Hall & Hor).
    assert (Hmin : qmin_list t ts ∈ t :: ts) by (destruct Hor as [-> |]; by constructor).
    apply Hin in Hmin as (m & Hm & Ht). apply (step_advance s pr m); try done.
    + apply Qcnot_le_lt. intros Hn. rewrite <-sort_nodes_perm in Hm. rewrite Forall_forall in Hno.
      apply (Hno _ Hm), startable_start. by eexists.
    + intros k u Hk Hu. assert (Hu' : u ∈ t :: ts) by (apply Hin; by eexists).
      apply elem_of_cons in Hu' as [->|Hu']; [done|]. rewrite Forall_forall in Hall. by apply Hall.
Qed.

(** ** The invariant of the loop *)

Record schedule_inv (l : list Node) (pr : Progress) : Prop := {
  si_pending : NoDup (map ExecutionIR.identity (pending pr)) ∧ pending pr ⊆ l;
  si_nodes : map ExecutionIR.identity (pending pr) ++ map scheduled_identity (completed pr) ≡ₚ map ExecutionIR.identity l;
  si_timeline : timeline c l (completed pr);
  si_free : ∀ m s0 r, m ∈ l → s0 ∈ completed pr → ExecutionIR.identity m = scheduled_identity s0 → r ∈ resources m →
    (released_at s0 r <= free_at (executor pr) r)%Qc;
}.

Lemma identity_inj (l : list Node) n m : NoDup (map ExecutionIR.identity l) → n ∈ l → m ∈ l →
  ExecutionIR.identity n = ExecutionIR.identity m → n = m.
Proof.
  induction l as [|k l IH]; cbn; [by intros _ ?%elem_of_nil|]. intros [Hk Hnd]%NoDup_cons.
  assert (Hin : ∀ x, x ∈ l → ExecutionIR.identity x ∈ map ExecutionIR.identity l).
  { intros x Hx. apply list_elem_of_In, in_map, list_elem_of_In, Hx. }
  intros [->|Hn]%elem_of_cons [->|Hm]%elem_of_cons E; [done| | |by apply IH].
  - rewrite E in Hk. by apply Hin in Hm.
  - rewrite <-E in Hk. by apply Hin in Hn.
Qed.

Lemma drop_node_perm n l : NoDup (map ExecutionIR.identity l) → n ∈ l →
  map ExecutionIR.identity l ≡ₚ ExecutionIR.identity n :: map ExecutionIR.identity (drop_node (ExecutionIR.identity n) l).
Proof.
  induction l as [|k l IH]; cbn [map]; [by intros _ ?%elem_of_nil|]. intros [Hk Hnd]%NoDup_cons.
  unfold drop_node. rewrite filter_cons. intros [->|Hn]%elem_of_cons.
  - case_decide as Ed; [done|]. f_equiv. clear -Hk. induction l as [|m l IH]; [done|].
    cbn in Hk. apply not_elem_of_cons in Hk as [Hm Hk]. rewrite filter_cons. case_decide; [|congruence]. cbn. f_equiv. auto.
  - case_decide as Ed; cbn.
    + rewrite (IH Hnd Hn) at 1. apply Permutation_swap.
    + exfalso. apply Hk. rewrite Ed. by apply list_elem_of_In, in_map, list_elem_of_In.
Qed.

Lemma drop_node_subset i l : drop_node i l ⊆ l.
Proof. intros n Hn. by apply list_elem_of_filter in Hn as [_ ?]. Qed.

Lemma milestones_Some past l ts : milestones past l = Some ts →
  ∀ d, d ∈ l → ∃ s0, completed_at past (node d) = Some s0 ∧ milestone_of s0 (milestone d) ∈ ts.
Proof.
  revert ts. induction l as [|d l IH]; intros ts; cbn [milestones]; [by intros _ ? ?%elem_of_nil|].
  destruct (completed_at past (node d)) as [s0|] eqn:E; [|done]. destruct (milestones past l) as [ts'|]; [|done].
  intros [= <-] d' [->|Hd]%elem_of_cons; [exists s0; split; [done|constructor]|].
  destruct (IH _ eq_refl _ Hd) as (s1 & ? & ?). exists s1. split; [done|]. by constructor.
Qed.

Lemma ready_at_Some past n ready : ready_at past n = Some ready →
  ∀ d, d ∈ dependencies n → ∃ s0, completed_at past (node d) = Some s0 ∧ (milestone_of s0 (milestone d) <= ready)%Qc.
Proof.
  unfold ready_at. destruct (milestones _ _) as [ts|] eqn:E; [|done]. intros [= <-] d Hd.
  destruct (milestones_Some _ _ _ E d Hd) as (s0 & ? & ?). exists s0. split; [done|]. by apply qmax_list_in.
Qed.

Lemma start_now e n now ready : (earliest c e n (qmax now ready) <= now)%Qc →
  (ready <= now)%Qc ∧ earliest c e n now = now.
Proof.
  intros Hle. pose proof (earliest_ge e n (qmax now ready)) as Hge.
  assert (Hr : (ready <= now)%Qc).
  { eapply Qcle_trans; [apply (qmax_ge_r now)|]. by eapply Qcle_trans. }
  split; [done|]. rewrite (qmax_eq_l _ _ Hr) in Hle. apply Qcle_antisym; [done|apply earliest_ge].
Qed.

Lemma inv_start l s pr n ready e' result :
  NoDup (map ExecutionIR.identity l) → Forall (fun n => NoDup (resources n)) l → valid_services s →
  schedule_inv l pr → n ∈ pending pr → ready_at (completed pr) n = Some ready →
  (earliest c (executor pr) n (qmax (now_ns pr) ready) <= now_ns pr)%Qc →
  execute_node sc c n s (now_ns pr) (Some ready) (executor pr) = (e', Ok result) →
  schedule_inv l {| pending := drop_node (ExecutionIR.identity n) (pending pr); completed := completed pr ++ [result];
                    executor := e'; now_ns := now_ns pr |}.
Proof.
  intros Hnd Hres Hs [[Hp Hsub] Hperm Htl Hfree] Hn Hready Hle Hx.
  assert (Hnl : n ∈ l) by by apply Hsub. rewrite Forall_forall in Hres.
  apply execute_node_inv in Hx as [Hnow Hid Hacc Hms Hedge Hfree' Hrel]; [|done|by apply Hres].
  destruct (start_now _ _ _ _ Hle) as [Hr Heq].
  pose proof (drop_node_perm n (pending pr) Hp Hn) as Hdrop.
  assert (Hfollow : follows c l (completed pr) n result).
  { constructor.
    - done.
    - rewrite Hid. intros Hin. assert (Hd : NoDup (map ExecutionIR.identity (pending pr) ++ map scheduled_identity (completed pr)))
        by by rewrite Hperm.
      apply NoDup_app in Hd as (_ & Hd & _). apply (Hd (ExecutionIR.identity n)); [|done].
      by apply list_elem_of_In, in_map, list_elem_of_In.
    - intros d Hd. destruct (ready_at_Some _ _ _ Hready d Hd) as (s0 & ? & Hm). exists s0. split; [done|].
      eapply Qcle_trans; [exact Hm|]. by eapply Qcle_trans.
    - intros m s0 r Hm Hs0 E Hrm Hrn. eapply Qcle_trans; [by apply (Hfree m)|].
      eapply Qcle_trans; [by apply (earliest_free (executor pr) n (now_ns pr))|]. by rewrite Heq.
    - done.
    - done. }
  constructor; cbn [pending completed executor].
  - split; [|by etransitivity; [apply drop_node_subset|]]. rewrite Hdrop in Hp. by apply NoDup_cons in Hp as [_ ?].
  - rewrite map_app. cbn. rewrite Hid, <-Hperm, Hdrop. cbn. rewrite (assoc_L (++)).
    symmetry. apply Permutation_cons_append.
  - by apply (timeline_snoc c l _ n).
  - intros m s0 r Hm Hs0 E Hrm. rewrite Hfree'. destruct (str_in r (resources n)) eqn:Er.
    + apply str_in_spec in Er. apply elem_of_app in Hs0 as [Hs0|Hs0%list_elem_of_singleton].
      * eapply Qcle_trans; [|by apply Hrel]. eapply Qcle_trans; [by apply (Hfree m)|].
        eapply Qcle_trans; [by apply (earliest_free (executor pr) n (now_ns pr))|]. by rewrite Heq.
      * subst s0. apply Qcle_refl.
    + apply elem_of_app in Hs0 as [Hs0|Hs0%list_elem_of_singleton]; [by apply (Hfree m)|]. subst s0.
      rewrite Hid in E. assert (m = n) as -> by by apply (identity_inj l).
      apply str_in_spec in Hrm. congruence.
Qed.

Lemma inv_step l s pr pr' :
  NoDup (map ExecutionIR.identity l) → Forall (fun n => NoDup (resources n)) l → valid_services s →
  schedule_inv l pr → step_effect s pr pr' → schedule_inv l pr'.
Proof.
  intros Hnd Hres Hs Hi [n ready e' result Hn Hr Hle _ Hx|n t _ _ _ _].
  - by eapply inv_start.
  - by destruct Hi; constructor.
Qed.

Lemma loop_inv l s fuel : ∀ pr pr',
  NoDup (map ExecutionIR.identity l) → Forall (fun n => NoDup (resources n)) l → valid_services s →
  schedule_inv l pr → schedule_loop sc c fuel s pr = Ok pr' → schedule_inv l pr' ∧ pending pr' = [].
Proof.
  induction fuel as [|fuel IH]; intros pr pr' Hnd Hres Hs Hi; cbn [schedule_loop];
    destruct (pending pr) as [|n0 l0] eqn:Ep; [by intros [= <-]|done|by intros [= <-]|].
  intros (pr1 & Hstep & Hl)%bind_Ok. apply schedule_step_Ok in Hstep. exact (IH pr1 pr' Hnd Hres Hs (inv_step l s pr pr1 Hnd Hres Hs Hi Hstep) Hl).
Qed.

Lemma initial_inv inputs : NoDup (map ExecutionIR.identity (nodes (ir inputs))) →
  schedule_inv (nodes (ir inputs)) (initial inputs).
Proof.
  intros Hnd. constructor; cbn.
  - done.
  - by rewrite app_nil_r.
  - constructor.
  - by intros ? ? ? _ ?%elem_of_nil.
Qed.

(** ** Progress of the loop *)

Lemma completed_at_Some past i : i ∈ map scheduled_identity past → is_Some (completed_at past i).
Proof.
  intros (s & <- & Hs)%list_elem_of_In%in_map_iff. unfold completed_at. destruct (List.find _ _) eqn:E; [by eexists|].
  eapply List.find_none in E; [|exact Hs]. by rewrite String.eqb_refl in E.
Qed.

Lemma ready_at_done past n : (∀ d, d ∈ dependencies n → node d ∈ map scheduled_identity past) → is_Some (ready_at past n).
Proof.
  unfold ready_at. intros Hd. rewrite fmap_is_Some. induction (dependencies n) as [|d l IH]; cbn; [by eexists|].
  destruct (completed_at_Some past (node d)) as [s0 ->]; [by apply Hd; constructor|].
  destruct IH as [ts ->]; [by intros ??; apply Hd; constructor|]. by eexists.
Qed.

(** The first pending node of a topological order can be timed. *)
Lemma topological_first l pr : ∀ l' seen,
  topological seen l' → pending pr ≠ [] → pending pr ⊆ l → (∀ n, n ∈ pending pr → n ∈ l') →
  (∀ i, i ∈ seen → i ∈ map scheduled_identity (completed pr)) →
  (∀ n, n ∈ l' → n ∈ pending pr ∨ ExecutionIR.identity n ∈ map scheduled_identity (completed pr)) →
  ∃ n t, n ∈ pending pr ∧ start_time pr n = Some t.
Proof.
  induction l' as [|n l' IH]; intros seen Ht Hne Hsub Hin Hseen Hall.
  - destruct (pending pr) as [|k ks]; [done|]. exfalso. apply (proj1 (elem_of_nil k)), Hin. constructor.
  - cbn in Ht. destruct Ht as [Hn Ht]. destruct (decide (n ∈ pending pr)) as [Hp|Hp].
    + rewrite unblocked_spec in Hn. destruct (ready_at_done (completed pr) n) as [r Hr]; [by auto|].
      exists n. unfold start_time. rewrite Hr. by eexists.
    + destruct (Hall n) as [?|Hdone]; [constructor|done|]. apply (IH (seen ++ [ExecutionIR.identity n])); try done.
      * intros m Hm. specialize (Hin m Hm). by apply elem_of_cons in Hin as [->|?].
      * intros i [Hi|Hi%list_elem_of_singleton]%elem_of_app; [by apply Hseen|by subst].
      * intros m Hm. apply Hall. by constructor.
Qed.

Lemma inv_start_time l pr : wf_ir l → schedule_inv l pr → pending pr ≠ [] → ∃ n t, n ∈ pending pr ∧ start_time pr n = Some t.
Proof.
  intros [_ Hnd _ (l' & Hl' & Ht)] [[Hp Hsub] Hperm _ _] Hne. apply (topological_first l pr l' []); try done.
  - intros n Hn. rewrite Hl'. by apply Hsub.
  - by intros ? ?%elem_of_nil.
  - intros n Hn. rewrite Hl' in Hn.
    assert (Hi : ExecutionIR.identity n ∈ map ExecutionIR.identity (pending pr) ++ map scheduled_identity (completed pr)).
    { rewrite Hperm. by apply list_elem_of_In, in_map, list_elem_of_In. }
    apply elem_of_app in Hi as [Hi|Hi]; [left|by right]. apply list_elem_of_In, in_map_iff in Hi as (m & E & Hm).
    rewrite <-list_elem_of_In in Hm. assert (m = n) as <- by by (eapply identity_inj; [exact Hnd|apply Hsub| |]). done.
Qed.

(** The loop came to an end: with a result, or with what the execution of one
    node raised. *)
Definition loop_outcome (l : list Node) (s : Services) (r : res Progress) : Prop :=
  (∃ pr, r = Ok pr) ∨
  ∃ n now ready e e' err, r = Err err ∧ n ∈ l ∧ execute_node sc c n s now ready e = (e', Err err).

Lemma advance_startable pr n t : start_time pr n = Some t →
  startable {| pending := pending pr; completed := completed pr; executor := executor pr; now_ns := t |} n.
Proof.
  unfold start_time, startable. cbn. destruct (ready_at _ _) as [r|]; [|done]. cbn. intros [= <-]. exists r. split; [done|].
  set (t := earliest c (executor pr) n (qmax (now_ns pr) r)).
  assert (Ht : (qmax (now_ns pr) r <= t)%Qc) by apply earliest_ge.
  rewrite (qmax_eq_l t r) by (eapply Qcle_trans; [apply (qmax_ge_r (now_ns pr))|exact Ht]).
  rewrite (earliest_lub _ _ _ _ Ht); apply Qcle_refl.
Qed.

Lemma startable_scan pr : (∃ n, n ∈ pending pr ∧ startable pr n) →
  ∃ n ready f, scan c pr (sort_nodes (pending pr)) [] = (Some (n, ready), f).
Proof.
  intros (n & Hn & Hs). destruct (scan _ _ _ _) as [[[m r]|] f] eqn:E; [by do 3 eexists|].
  apply scan_None in E as [Hf _]. rewrite Forall_forall in Hf. rewrite <-sort_nodes_perm in Hn. by apply Hf in Hn.
Qed.

Lemma loop_ends l s fuel : ∀ pr,
  wf_ir l → Forall (fun n => NoDup (resources n)) l → valid_services s → schedule_inv l pr →
  (2 * length (pending pr) <= fuel ∨
   (2 * length (pending pr) <= S fuel ∧ ∃ n, n ∈ pending pr ∧ startable pr n))%nat →
  loop_outcome l s (schedule_loop sc c fuel s pr).
Proof.
  induction fuel as [|fuel IH]; intros pr Hwf Hres Hs Hi Hf; pose proof (wi_identities _ Hwf) as Hnd; cbn [schedule_loop];
    destruct (pending pr) as [|n0 l0] eqn:Ep; [by left; eexists|cbn in Hf; lia|by left; eexists|]. rewrite <-Ep in *.
  destruct (schedule_step sc c s pr) as [pr1|err] eqn:Hstep; cbn [mbind res_bind].
  - pose proof (schedule_step_Ok _ _ _ Hstep) as Heff. apply IH; try done; [by eapply inv_step|].
    destruct Heff as [n ready e' result Hn _ _ _ _|n t Hn Ht Hlt Hmin].
    + cbn [pending]. pose proof (Permutation_length (drop_node_perm n (pending pr) (proj1 (si_pending _ _ Hi)) Hn)) as Hlen.
      cbn in Hlen. rewrite !length_map in Hlen. left. destruct Hf as [Hf|[Hf _]]; lia.
    + right. cbn [pending]. destruct Hf as [Hf|[_ Hf]].
      * split; [lia|]. exists n. split; [done|]. by apply advance_startable.
      * exfalso. destruct Hf as (m & Hm & (u & Hu & Hle)%startable_start).
        apply (Qclt_not_le _ _ Hlt). eapply Qcle_trans; [exact (Hmin m u Hm Hu)|done].
  - right. unfold schedule_step in Hstep. destruct (scan _ _ _ _) as [[[n ready]|] f] eqn:Es.
    + apply scan_Some in Es as (l1 & l2 & Hl & _). destruct (execute_node _ _ _ _ _ _ _) as [e' [?|err']] eqn:Ex; [done|].
      injection Hstep as ->. do 6 eexists. split; [done|]. split; [|exact Ex]. destruct (si_pending _ _ Hi) as [_ Hsub].
      apply Hsub. rewrite <-sort_nodes_perm, Hl. apply elem_of_app. right. constructor.
    + exfalso. apply scan_None in Es as [_ ->]. cbn in Hstep.
      destruct (inv_start_time l pr Hwf Hi) as (n & t & Hn & Ht); [by rewrite Ep|].
      rewrite <-sort_nodes_perm in Hn. assert (Hin : t ∈ omap (start_time pr) (sort_nodes (pending pr))).
      { apply omap_elem. by eexists. }
      destruct (omap _ _); [by apply elem_of_nil in Hin|done].
Qed.
End Schedule.

Lemma wf_resources l : wf_ir l → Forall (fun n => NoDup (resources n)) l.
Proof. intros [_ _ Hn _]. eapply Forall_impl; [exact Hn|]. by intros n []. Qed.

Lemma cycle_positive f c : 0 < f → fraction 1000000000 f = Ok c → (0 < c)%Qc.
Proof.
  intros Hf Hc. destruct f as [|p|p]; [lia| |lia]. apply Ok_eq in Hc as <-. unfold Qclt, Q2Qc. cbn [this]. rewrite !Qred_correct. reflexivity.
Qed.

Section Results.
Context `{PlainProvider} `{SequenceProvider}.
Context (load_selection : string → string → res Z).

Lemma gate_frequency inputs sc u : gate load_selection inputs sc = Ok u → 0 < npu_frequency_hz sc.
Proof.
  unfold gate, validate_environment, ensure. intros Hg. apply bind_Ok in Hg as ([] & Hg & _).
  rewrite check_bind in Hg. destruct Hg as [Hg _]. by apply Z.ltb_lt.
Qed.

(** The completed nodes of a successful run are a timeline of the whole graph. *)
Lemma completed_timeline source inputs sc r :
  wf_ir (nodes (ir inputs)) → valid_services (services inputs) →
  schedule load_selection source inputs sc = Ok r →
  ∃ c, fraction 1000000000 (npu_frequency_hz sc) = Ok c ∧ timeline c (nodes (ir inputs)) (result_nodes r) ∧
    map scheduled_identity (result_nodes r) ≡ₚ map ExecutionIR.identity (nodes (ir inputs)).
Proof.
  intros Hwf Hs Hrun. unfold schedule in Hrun. apply bind_Ok in Hrun as ([] & Hg%gate_frequency & Hrun).
  apply bind_Ok in Hrun as (c & Hc & Hrun). apply bind_Ok in Hrun as (final & Hloop & Hrun).
  apply bind_Ok in Hrun as ([] & _ & Hrun). apply bind_Ok in Hrun as (b & _ & <-%Ok_eq).
  exists c. split; [done|]. cbn [result_nodes].
  eapply loop_inv in Hloop as [[_ Hperm Htl _] Hnil]; [|by eapply cycle_positive|apply Hwf|by apply wf_resources|done|by apply initial_inv, Hwf].
  split; [done|]. by rewrite Hnil in Hperm.
Qed.

(** C1: A schedule is valid.  Its nodes form a timeline of the graph: every
    node exactly once; each node is accepted after every dependency reached
    the milestone named by the edge; two nodes that share a resource do not
    overlap on it, a CPU worker being released after its own duration and
    everything else at the resource-ready milestone; the milestones of a node
    are ordered; NPU work is accepted on an edge of the NPU clock. *)
Theorem schedule_valid source inputs sc r :
  wf_ir (nodes (ir inputs)) → valid_services (services inputs) →
  schedule load_selection source inputs sc = Ok r →
  ∃ c, fraction 1000000000 (npu_frequency_hz sc) = Ok c ∧ timeline c (nodes (ir inputs)) (result_nodes r) ∧
    map scheduled_identity (result_nodes r) ≡ₚ map ExecutionIR.identity (nodes (ir inputs)).
Proof. apply completed_timeline. Qed.

(** C4: The scheduling loop ends.  On a well-formed graph the fuel of
    [schedule], two passes per node, is enough: the loop never stalls, and it
    ends with a result unless the execution of a node of the graph raised. *)
Theorem schedule_ends inputs sc c :
  wf_ir (nodes (ir inputs)) → valid_services (services inputs) → (0 < c)%Qc →
  loop_outcome sc c (nodes (ir inputs)) (services inputs)
    (schedule_loop sc c (schedule_fuel inputs) (services inputs) (initial inputs)).
Proof.
  intros Hwf Hs Hc. apply loop_ends; try done; [by apply wf_resources|by apply initial_inv, Hwf|by left].
Qed.

(** C5: The queue policy [READY_ORDER_THEN_ID].  A pass either starts a node
    that can start now and comes first, by submission order and then identity,
    among all pending nodes that can; or no pending node can start, the state
    is unchanged, and time advances to exactly the first moment one can. *)
Theorem schedule_step_greedy sc c s pr pr' : (0 < c)%Qc →
  schedule_step sc c s pr = Ok pr' →
  (∃ n result, n ∈ pending pr ∧ startable c pr n ∧ (∀ m, m ∈ pending pr → startable c pr m → order n < order m ∨
       (order n = order m ∧ String.leb (ExecutionIR.identity n) (ExecutionIR.identity m) = true)) ∧
     completed pr' = completed pr ++ [result] ∧ now_ns pr' = now_ns pr ∧
     pending pr' = drop_node (ExecutionIR.identity n) (pending pr)) ∨
  ((∀ m, m ∈ pending pr → ¬ startable c pr m) ∧ (∃ n, n ∈ pending pr ∧ start_time c pr n = Some (now_ns pr') ∧ startable c pr' n) ∧
     (∀ m u, m ∈ pending pr → start_time c pr m = Some u → (now_ns pr' <= u)%Qc) ∧
     (now_ns pr < now_ns pr')%Qc ∧ pending pr' = pending pr ∧ completed pr' = completed pr).
Proof.
  intros Hc [n ready e' result Hn Hr Hle Hmin Hx|n t Hn Ht Hlt Hmin]%schedule_step_Ok.
  - left. exists n, result. split_and!; try done; [by exists ready|]. intros m Hm Hst. specialize (Hmin m Hm Hst).
    unfold before in Hmin. rewrite orb_true_iff, andb_true_iff, Z.ltb_lt, Z.eqb_eq in Hmin. tauto.
  - right. cbn. split_and!; try done.
    + intros m Hm (u & Hu & Hle)%startable_start. apply (Qclt_not_le _ _ Hlt). eapply Qcle_trans; [exact (Hmin m u Hm Hu)|done].
    + exists n. split_and!; [done..|]. by apply advance_startable.
Qed.
End Results.
