(* ===== verification/CycleProvider.v ===== *)
(** * The drained-sequence service provider

    [sim/cycle/execution_cycle_provider.py]: service times from the isolated
    cycle library, chained by the buffer halves and the resource cycle of the
    previous work, and compared with the certified cases of a service
    certificate.  The library ([cli.estimate_service]) and the validation of
    the certificate are parameters. *)
From S2P Require Import Prelude Records Profiles TraceSchema TraceIntegrity Replay Rational ExecutionIR Services.
From S2P Require Import Sequence Admission Provider Scheduler.
Set Default Goal Selector "!".

Record CertifiedWork := {
  cert_work_id : Z;
  cert_binding : string;
  accepted_phase : Z;
  initial_scratchpad : Z;
  initial_accumulator : Z;
  cert_result_ready : Z;
  cert_scale_release : Z;
  cert_resource_ready : Z;
  next_scratchpad : Z;
  next_accumulator : Z;
}.

Record CertifiedCase := { case_id : string; case_profile : string; case_period : Z; case_works : list CertifiedWork }.

Record ServiceAdmission := {
  service_certificate_sha256 : string;
  base_certificate_sha256 : string;
  run_certificate_sha256 : string;
  service_trace_sha256 : string;
  scenario_id : string;
  service_profile : string;
  service_work_count : Z;
}.

Record BoundCycleRequest := { cycle_work : NpuWork; cycle_document : record }.

Record CycleServiceProvider := {
  provider_library_sha256 : string;
  cycle_requests : list (string * BoundCycleRequest);
  cycle_timing : record;
  cycle_scratchpad_half : Z;
  cycle_accumulator_half : Z;
  cycle_previous : Z;
  last_request_sha256 : option string;
  cycle_invocations : nat;
  cycle_completed : gset string;
  certified_cases : option (list CertifiedCase);
  fixture_admission : option ServiceAdmission;
  service_admission : option ServiceAdmission;
}.

(** [validation_scope] *)
Definition cycle_scope (p : CycleServiceProvider) : string :=
  match service_admission p, fixture_admission p with
  | Some _, _ => "CURRENT_CERTIFIED_SEQUENCE"
  | None, Some _ => "DRAINED_FIXTURE_PARITY"
  | None, None => "DIAGNOSTIC_SERVICE_API"
  end.

(** [int(text.removeprefix('npu:'))] *)
Definition work_number (identity : string) : res Z :=
  let digits_text := if String.prefix "npu:" identity
    then String.substring 4 (String.length identity - 4) identity else identity in
  match digits digits_text with
  | Some z => Ok z
  | None => Err (ValueError "invalid literal for int() with base 10")
  end.

Section CycleProvider.
Context `{Host}.
Context (estimate_service : record → res record).
Context (observed_library : nat → string).

(** The requests of a trace; [add] is one pass of the constructor's loop. *)
Definition add_request (profile : string) (requests : list (string * BoundCycleRequest)) (w : Work)
    : res (list (string * BoundCycleRequest)) :=
  let identity := "npu:" +:+ dec (TraceSchema.identity w) in
  ensure (negb (smem identity requests)) "duplicate trace work" ;;;
  let* document := model_document profile w in
  Ok (sset identity {| cycle_work := {| work_identity := identity; request_sha256 := work_binding w;
                                        Services.profile := profile |}; cycle_document := document |} requests).

(** [__init__]: [validated] is what [validate_service_certificate] returned,
    [None] without certificates; the cases come with a version-2 one. *)
Definition cycle_provider (library_sha256 : string) (lines : list (option json)) (timing : record)
    (scratchpad accumulator : Z) (validated : option (ServiceAdmission * option (list CertifiedCase)))
    : res CycleServiceProvider :=
  ensure (z_in scratchpad [0; 1] && z_in accumulator [0; 1]) "invalid initial buffer halves" ;;;
  let* started := start_trace (default None (head lines)) in
  let* parsed := run_trace lines in
  let* requests := fold_res (add_request (run_profile (run started))) [] (map snd parsed.2) in
  let* _ := summary parsed.1 in
  let* admission := (match validated with
    | Some (a, Some cases) =>
        require_m (Ok (match cases with [] => false | _ => true end) andM
            all_res (fun c => Ok (String.eqb (case_profile c) (service_profile a)) andM
              (let* period := item timing "read_ready_period" in Ok (eq_int period (case_period c))) andM
              Ok (Nat.eqb (length (case_works c)) (length requests))) cases)
          (ExecutionError "certified sequence profile, timing or work coverage mismatch") ;;;
        Ok (Some a)
    | _ => Ok None end) in
  Ok {| provider_library_sha256 := library_sha256; cycle_requests := requests; cycle_timing := timing;
        cycle_scratchpad_half := scratchpad; cycle_accumulator_half := accumulator; cycle_previous := 0;
        last_request_sha256 := None; cycle_invocations := 0; cycle_completed := ∅;
        certified_cases := match validated with Some (_, cases) => cases | None => None end;
        fixture_admission := fst <$> validated; service_admission := admission |}.

(** [case.works[self.invocations]] of every candidate, with the test on it. *)
Definition narrow (n : nat) (test : CertifiedCase → CertifiedWork → res bool) (cases : list CertifiedCase)
    : res (list CertifiedCase) :=
  let* kept := map_res (fun c =>
    match case_works c !! n with
    | None => Err (IndexError "tuple index out of range")
    | Some row => let* b := test c row in Ok (if b : bool then [c] else [])
    end) cases in
  Ok (concat kept).

(** The row was certified for this work, phase and buffer halves. *)
Definition enters (p : CycleServiceProvider) (work : NpuWork) (accepted_cycle : Z) (c : CertifiedCase)
    (row : CertifiedWork) : res bool :=
  let* number := work_number (work_identity work) in
  if negb (cert_work_id row =? number) then Ok false
  else if negb (String.eqb (cert_binding row) (request_sha256 work)) then Ok false
  else if case_period c =? 0 then Err (ZeroDivisionError "integer modulo by zero")
  else Ok ((accepted_phase row =? accepted_cycle mod case_period c) &&
           (initial_scratchpad row =? cycle_scratchpad_half p) && (initial_accumulator row =? cycle_accumulator_half p)).

(** The row certifies this answer. *)
Definition leaves (service : record) (ready resource accepted_cycle : Z) (c : CertifiedCase) (row : CertifiedWork)
    : res bool :=
  Ok (cert_result_ready row =? ready - accepted_cycle) andM
  (let* scale := integer service "final_scale_release_cycle" in Ok (cert_scale_release row =? scale - accepted_cycle)) andM
  Ok (cert_resource_ready row =? resource - accepted_cycle) andM
  (let* half := integer service "next_scratchpad_half" in Ok (next_scratchpad row =? half)) andM
  (let* half := integer service "next_accumulator_half" in Ok (next_accumulator row =? half)).

Definition narrow_all (candidates : option (list CertifiedCase)) (n : nat)
    (test : CertifiedCase → CertifiedWork → res bool) (detail : string) : res (option (list CertifiedCase)) :=
  match candidates with
  | None => Ok None
  | Some cases =>
      let* kept := narrow n test cases in
      ensure (match kept with [] => false | _ => true end) detail ;;;
      Ok (Some kept)
  end.

(** The document of the call: the request with the state of the provider. *)
Definition service_document (p : CycleServiceProvider) (original : record) (accepted_cycle : Z) : res record :=
  let* value := item original "request" in
  let* base := object_value value in
  let request := merge_records base [("accepted_cycle", JInt accepted_cycle);
    ("initial_scratchpad_half", JInt (cycle_scratchpad_half p));
    ("initial_accumulator_half", JInt (cycle_accumulator_half p))] in
  Ok (merge_records original [("request", JObj request); ("timing", JObj (cycle_timing p))]).

Record Answer := {
  answer_boundary : NpuService;
  answer_service : record;
  answer_resource : Z;
  answer_digest : string;
  answer_cases : option (list CertifiedCase);
}.

(** Everything [estimate] does before it changes the provider. *)
Definition service_answer (work : NpuWork) (accepted_cycle : Z) (p : CycleServiceProvider) : res Answer :=
  match sget (work_identity work) (cycle_requests p) with
  | None => Err (ExecutionError "service/trace profile or exact request binding mismatch")
  | Some bound =>
      ensure (bool_decide (cycle_work bound = work)) "service/trace profile or exact request binding mismatch" ;;;
      ensure (bool_decide (work_identity work ∉ cycle_completed p)) "duplicate scheduled NPU work" ;;;
      ensure (cycle_previous p <=? accepted_cycle) "next work accepted before resource ready" ;;;
      ensure (String.eqb (observed_library (cycle_invocations p)) (provider_library_sha256 p))
        "cycle library changed during scheduling" ;;;
      let* entering := narrow_all (certified_cases p) (cycle_invocations p) (enters p work accepted_cycle)
        "certified sequence work, phase or initial halves mismatch" in
      let* document := service_document p (cycle_document bound) accepted_cycle in
      let digest := sha256_hex (json_dumps (JObj document)) in
      let* result := estimate_service document in
      let* value := item result "service" in
      let* service := object_value value in
      let* ready := integer service "result_ready_cycle" in
      let* resource := integer service "resource_ready_cycle" in
      let* leaving := narrow_all entering (cycle_invocations p) (leaves service ready resource accepted_cycle)
        "certified sequence service result mismatch" in
      let certificate := match fixture_admission p with
        | Some a => ":" +:+ service_certificate_sha256 a | None => "" end in
      let* boundary := npu_service_of (ready - accepted_cycle) (resource - accepted_cycle)
        (cycle_scope p +:+ ":" +:+ provider_library_sha256 p +:+ certificate +:+ ":" +:+ digest) in
      Ok {| answer_boundary := boundary; answer_service := service; answer_resource := resource;
            answer_digest := digest; answer_cases := leaving |}
  end.

Definition set_halves (s a : Z) (p : CycleServiceProvider) : CycleServiceProvider := {|
  provider_library_sha256 := provider_library_sha256 p; cycle_requests := cycle_requests p;
  cycle_timing := cycle_timing p; cycle_scratchpad_half := s; cycle_accumulator_half := a;
  cycle_previous := cycle_previous p; last_request_sha256 := last_request_sha256 p;
  cycle_invocations := cycle_invocations p; cycle_completed := cycle_completed p;
  certified_cases := certified_cases p; fixture_admission := fixture_admission p;
  service_admission := service_admission p |}.

Definition advance_provider (work : NpuWork) (a : Answer) (p : CycleServiceProvider) : CycleServiceProvider := {|
  provider_library_sha256 := provider_library_sha256 p; cycle_requests := cycle_requests p;
  cycle_timing := cycle_timing p; cycle_scratchpad_half := cycle_scratchpad_half p;
  cycle_accumulator_half := cycle_accumulator_half p; cycle_previous := answer_resource a;
  last_request_sha256 := Some (answer_digest a); cycle_invocations := S (cycle_invocations p);
  cycle_completed := {[work_identity work]} ∪ cycle_completed p; certified_cases := answer_cases a;
  fixture_admission := fixture_admission p; service_admission := service_admission p |}.

Definition cycle_estimate (work : NpuWork) (accepted_cycle : Z) : method CycleServiceProvider NpuService :=
  let! a := (fun p => lift (service_answer work accepted_cycle p) p) in
  let! s := lift (integer (answer_service a) "next_scratchpad_half") in
  modify (fun p => set_halves s (cycle_accumulator_half p) p) ;;!
  let! h := lift (integer (answer_service a) "next_accumulator_half") in
  modify (fun p => set_halves (cycle_scratchpad_half p) h p) ;;!
  modify (advance_provider work a) ;;!
  mret (answer_boundary a).
End CycleProvider.

(** ** The answers of a run agree with one certified case *)

(** One successful call, with the provider before and after it. *)
Record Call := {
  call_work : NpuWork;
  call_accepted : Z;
  call_before : CycleServiceProvider;
  call_after : CycleServiceProvider;
  call_boundary : NpuService;
}.

Section CycleTheorems.
Context `{Host}.
Context (estimate_service : record → res record) (observed_library : nat → string).

Inductive cycle_run (p0 : CycleServiceProvider) : list Call → CycleServiceProvider → Prop :=
  | cycle_run_start : cycle_run p0 [] p0
  | cycle_run_call calls p work accepted p' boundary :
      cycle_run p0 calls p → cycle_estimate estimate_service observed_library work accepted p = (p', Ok boundary) →
      cycle_run p0 (calls ++ [{| call_work := work; call_accepted := accepted; call_before := p;
                                 call_after := p'; call_boundary := boundary |}]) p'.

(** [service] is what the library answers for the request bound under the
    identity of the work, completed with the state of the provider; the call
    returns its cycles and leaves its buffer halves. *)
Record answers (requests : list (string * BoundCycleRequest)) (e : Call) (service : record) : Prop := {
  an_request : ∃ bound document result, sget (work_identity (call_work e)) requests = Some bound ∧
    cycle_work bound = call_work e ∧
    service_document (call_before e) (cycle_document bound) (call_accepted e) = Ok document ∧
    estimate_service document = Ok result ∧ (let* value := item result "service" in object_value value) = Ok service;
  an_ready : integer service "result_ready_cycle" = Ok (call_accepted e + result_ready_cycles (call_boundary e));
  an_resource : integer service "resource_ready_cycle" = Ok (call_accepted e + resource_ready_cycles (call_boundary e));
  an_scratchpad : integer service "next_scratchpad_half" = Ok (cycle_scratchpad_half (call_after e));
  an_accumulator : integer service "next_accumulator_half" = Ok (cycle_accumulator_half (call_after e));
}.

(** The row of a certified case agrees with the call and with the service the
    library answered. *)
Record certifies (c : CertifiedCase) (row : CertifiedWork) (e : Call) (service : record) : Prop := {
  cf_number : work_number (work_identity (call_work e)) = Ok (cert_work_id row);
  cf_binding : cert_binding row = request_sha256 (call_work e);
  cf_phase : accepted_phase row = call_accepted e mod case_period c;
  cf_initial : initial_scratchpad row = cycle_scratchpad_half (call_before e) ∧
    initial_accumulator row = cycle_accumulator_half (call_before e);
  cf_cycles : cert_result_ready row = result_ready_cycles (call_boundary e) ∧
    cert_resource_ready row = resource_ready_cycles (call_boundary e);
  cf_scale : integer service "final_scale_release_cycle" = Ok (call_accepted e + cert_scale_release row);
  cf_next : next_scratchpad row = cycle_scratchpad_half (call_after e) ∧
    next_accumulator row = cycle_accumulator_half (call_after e);
}.

Lemma narrow_spec n test cases kept : narrow n test cases = Ok kept →
  ∀ c, c ∈ kept → c ∈ cases ∧ ∃ row, case_works c !! n = Some row ∧ test c row = Ok true.
Proof.
  unfold narrow. intros (ks & Hks & <-%Ok_eq)%bind_Ok. apply map_res_Ok in Hks.
  induction Hks as [|c0 k cases ks Hc _ IH]; cbn; intros c Hin; [by apply elem_of_nil in Hin|].
  apply elem_of_app in Hin as [Hin|Hin]; [|destruct (IH c Hin) as [? ?]; split; [by constructor|done]].
  destruct (case_works c0 !! n) as [row|] eqn:E; [|done]. apply bind_Ok in Hc as ([] & Ht & <-%Ok_eq).
  - apply list_elem_of_singleton in Hin as ->. split; [constructor|]. by exists row.
  - by apply elem_of_nil in Hin.
Qed.

Lemma narrow_all_spec candidates n test detail kept :
  narrow_all candidates n test detail = Ok kept →
  match candidates, kept with
  | None, None => True
  | Some cases, Some ks => ks ≠ [] ∧ ∀ c, c ∈ ks → c ∈ cases ∧ ∃ row, case_works c !! n = Some row ∧ test c row = Ok true
  | _, _ => False
  end.
Proof.
  unfold narrow_all. destruct candidates as [cases|]; [|by intros <-%Ok_eq].
  intros (ks & Hks & Hk)%bind_Ok. unfold ensure in Hk. rewrite check_bind in Hk. destruct Hk as [Hne <-%Ok_eq].
  split; [by intros ->|]. by apply narrow_spec.
Qed.

(** What a successful call does. *)
Record call_effect (e : Call) : Prop := {
  ce_fresh : work_identity (call_work e) ∉ cycle_completed (call_before e);
  ce_accepted : cycle_previous (call_before e) <= call_accepted e;
  ce_previous : cycle_previous (call_after e) = call_accepted e + resource_ready_cycles (call_boundary e);
  ce_boundary : 0 < result_ready_cycles (call_boundary e) <= resource_ready_cycles (call_boundary e);
  ce_count : cycle_invocations (call_after e) = S (cycle_invocations (call_before e));
  ce_completed : cycle_completed (call_after e) = {[work_identity (call_work e)]} ∪ cycle_completed (call_before e);
  ce_requests : cycle_requests (call_after e) = cycle_requests (call_before e);
  ce_answer : ∃ service, answers (cycle_requests (call_before e)) e service ∧
    match certified_cases (call_before e), certified_cases (call_after e) with
    | None, None => True
    | Some cases, Some ks => ks ≠ [] ∧ ∀ c, c ∈ ks → c ∈ cases ∧
        ∃ row, case_works c !! cycle_invocations (call_before e) = Some row ∧ certifies c row e service
    | _, _ => False
    end;
}.

Lemma enters_Ok p work accepted c row : enters p work accepted c row = Ok true →
  work_number (work_identity work) = Ok (cert_work_id row) ∧ cert_binding row = request_sha256 work ∧
  accepted_phase row = accepted mod case_period c ∧ initial_scratchpad row = cycle_scratchpad_half p ∧
  initial_accumulator row = cycle_accumulator_half p.
Proof.
  unfold enters. intros (z & Hz & He)%bind_Ok. destruct (negb (cert_work_id row =? z)) eqn:E1; [done|].
  destruct (negb (String.eqb (cert_binding row) _)) eqn:E2; [done|]. destruct (case_period c =? 0); [done|].
  apply Ok_eq in He. apply negb_false_iff in E1, E2. z_props. subst. done.
Qed.

Lemma leaves_Ok service ready resource accepted c row s h :
  leaves service ready resource accepted c row = Ok true →
  integer service "next_scratchpad_half" = Ok s → integer service "next_accumulator_half" = Ok h →
  cert_result_ready row = ready - accepted ∧ cert_resource_ready row = resource - accepted ∧
  integer service "final_scale_release_cycle" = Ok (accepted + cert_scale_release row) ∧
  next_scratchpad row = s ∧ next_accumulator row = h.
Proof.
  unfold leaves. rewrite !and_then_Ok_true. intros (H1 & Hscale & H2 & H3 & H4) Hs Hh.
  rewrite Hs in H3. rewrite Hh in H4. cbn [mbind res_bind] in H3, H4. apply bind_Ok in Hscale as (scale & Hscale & H5).
  apply Ok_eq in H1, H2, H3, H4, H5. rewrite Hscale. z_props. split_and!; [done|done| |done|done]. f_equal. lia.
Qed.

Definition succeeds (e : Call) : Prop :=
  cycle_estimate estimate_service observed_library (call_work e) (call_accepted e) (call_before e) =
    (call_after e, Ok (call_boundary e)).

Lemma succeeds_effect e : succeeds e → call_effect e.
Proof.
  destruct e as [work accepted p p' b]. unfold succeeds, cycle_estimate. cbn [call_work call_accepted call_before call_after call_boundary]. intros Hx.
  apply mbind_Ok in Hx as (p1 & a & [<- Ha]%pair_eq & Hx).
  apply mbind_Ok in Hx as (p2 & s & [<- Hs]%pair_eq & Hx). apply mbind_Ok in Hx as (p3 & [] & [<- _]%pair_eq & Hx).
  apply mbind_Ok in Hx as (p4 & h & [<- Hh]%pair_eq & Hx). apply mbind_Ok in Hx as (p5 & [] & [<- _]%pair_eq & Hx).
  apply mbind_Ok in Hx as (p6 & [] & [<- _]%pair_eq & Hx). apply pair_eq in Hx as [<- <-%Ok_eq].
  unfold service_answer, ensure in Ha. destruct (sget _ (cycle_requests p)) as [bound|] eqn:Eb; [|done].
  rewrite !check_bind in Ha. destruct Ha as (H1 & H2 & H3 & _ & Ha).
  apply bind_Ok in Ha as (entering & Hent & Ha). apply bind_Ok in Ha as (doc & Hdoc & Ha).
  apply bind_Ok in Ha as (result & Hres & Ha). apply bind_Ok in Ha as (v & Hv & Ha). apply bind_Ok in Ha as (svc & Hsvc & Ha).
  apply bind_Ok in Ha as (ready & Hready & Ha). apply bind_Ok in Ha as (resource & Hresource & Ha).
  apply bind_Ok in Ha as (leaving & Hleave & Ha). apply bind_Ok in Ha as (b & Hb & <-%Ok_eq).
  apply narrow_all_spec in Hent, Hleave. cbn [answer_service] in Hs, Hh.
  unfold npu_service_of, ensure in Hb. rewrite !check_bind in Hb. destruct Hb as (Hb1 & _ & <-%Ok_eq). z_props.
  constructor; cbn -[Z.modulo]; [done|done|lia|lia|done|done|done|]. exists svc. split.
  - constructor; cbn -[Z.add Z.sub]; [|rewrite Hready; f_equal; lia|rewrite Hresource; f_equal; lia|done|done].
    exists bound, doc, result. rewrite Hv. by split_and!.
  - destruct (certified_cases p) as [cases|], entering as [es|]; [|done|done|by destruct leaving].
    destruct leaving as [ks|]; [|done]. destruct Hent as [_ Hent], Hleave as [Hne Hleave]. split; [done|].
    intros c Hc. destruct (Hleave c Hc) as (Hin & row & Hrow & Ht). destruct (Hent c Hin) as (Hin' & row' & Hrow' & Ht').
    rewrite Hrow in Hrow'. injection Hrow' as <-. split; [done|]. exists row. split; [done|].
    apply enters_Ok in Ht' as (? & ? & ? & ? & ?). destruct (leaves_Ok _ _ _ _ _ _ _ _ Ht Hs Hh) as (? & ? & ? & ? & ?).
    by constructor.
Qed.

Lemma cycle_estimate_cycles work accepted p p' b :
  cycle_estimate estimate_service observed_library work accepted p = (p', Ok b) →
  0 < result_ready_cycles b <= resource_ready_cycles b.
Proof.
  intros Hx. apply (ce_boundary {| call_work := work; call_accepted := accepted; call_before := p; call_after := p';
                                   call_boundary := b |}). by apply succeeds_effect.
Qed.

(** *** The chain of the calls *)

Record chained (p0 : CycleServiceProvider) (calls : list Call) (p : CycleServiceProvider) : Prop := {
  ch_effects : Forall call_effect calls;
  ch_first : ∀ e, head calls = Some e → call_before e = p0;
  ch_next : ∀ i e f, calls !! i = Some e → calls !! S i = Some f → call_before f = call_after e;
  ch_last : p = default p0 (call_after <$> last calls);
}.

Lemma lookup_snoc_split {A} (l : list A) x i y : (l ++ [x]) !! i = Some y → l !! i = Some y ∨ i = length l ∧ y = x.
Proof.
  intros Hi%lookup_app_Some. destruct Hi as [Hi|[Hle Hi]]; [by left|right]. apply list_lookup_singleton_Some in Hi as [Hn <-].
  split; [lia|done].
Qed.

Lemma cycle_run_chained p0 calls p : cycle_run p0 calls p → chained p0 calls p.
Proof.
  induction 1 as [|calls p work accepted p' b _ [He Hf Hn Hl] Hx]; [by constructor|].
  set (e := {| call_work := work |}). assert (Heff : call_effect e) by by apply succeeds_effect.
  constructor.
  - apply Forall_app. split; [done|]. by constructor.
  - destruct calls as [|e0 calls]; [|exact Hf]. intros ? [= <-]. by subst p.
  - intros i e1 f H1 H2. apply lookup_snoc_split in H1 as [H1|[-> ->]], H2 as [H2|[Hi ->]].
    + by eapply Hn.
    + subst p. cbn. rewrite last_lookup, <-Hi. cbn. by rewrite H1.
    + apply lookup_lt_Some in H2. lia.
    + lia.
  - by rewrite last_snoc.
Qed.

(** What the calls leave in the provider. *)
Record progressed (p0 : CycleServiceProvider) (calls : list Call) (p : CycleServiceProvider) : Prop := {
  pg_count : cycle_invocations p = (cycle_invocations p0 + length calls)%nat;
  pg_completed : cycle_completed p = list_to_set (map (work_identity ∘ call_work) calls) ∪ cycle_completed p0;
  pg_distinct : NoDup (map (work_identity ∘ call_work) calls);
  pg_requests : cycle_requests p = cycle_requests p0;
  pg_cases : ∀ cases, certified_cases p0 = Some cases → ∃ ks, certified_cases p = Some ks ∧ (calls = [] ∨ ks ≠ []) ∧
    ∀ c, c ∈ ks → c ∈ cases ∧ ∀ i e, calls !! i = Some e → ∃ row service,
      case_works c !! (cycle_invocations p0 + i)%nat = Some row ∧ answers (cycle_requests p0) e service ∧
      certifies c row e service;
}.

Lemma cycle_run_progressed p0 calls p : cycle_run p0 calls p → progressed p0 calls p.
Proof.
  induction 1 as [|calls p work accepted p' b _ [Hn Hd Hnd Hr Hc] Hx].
  { constructor; [cbn; lia|cbn; set_solver|constructor|done|].
    intros cases Hcases. exists cases. split_and!; [done|by left|]. intros c Hc. split; [done|]. by intros i e ?. }
  set (e := {| call_work := work |}). assert (Heff : call_effect e) by by apply succeeds_effect.
  destruct Heff as [Hfresh _ _ _ Hcount Hcomp Hreq (service & Hans & Hcert)]. cbn [e call_work call_before call_after] in *.
  constructor.
  - rewrite length_app, Hcount, Hn. cbn. lia.
  - rewrite map_app, list_to_set_app_L, Hcomp, Hd. cbn. set_solver.
  - rewrite map_app. apply NoDup_app. split; [done|]. split; [|apply NoDup_singleton].
    intros i Hi ->%list_elem_of_singleton. apply Hfresh. rewrite Hd. apply elem_of_union_l. by apply elem_of_list_to_set.
  - by rewrite Hreq.
  - intros cases Hcases. destruct (Hc cases Hcases) as (ks & Hks & _ & Hall). rewrite Hks in Hcert.
    destruct (certified_cases p') as [ks'|]; [|done]. destruct Hcert as [Hne Hcert]. exists ks'. split; [done|]. split; [by right|].
    intros c Hin. destruct (Hcert c Hin) as (Hin' & row & Hrow & Hrc). destruct (Hall c Hin') as [Hcin Hprev]. split; [done|].
    intros i f Hi. apply lookup_snoc_split in Hi as [Hi|[-> ->]]; [by apply Hprev|].
    exists row, service. by rewrite <-Hn, <-Hr.
Qed.

(** C28: The answers of a certified run.  Whatever works are estimated, every
    successful answer is what the library answers for the request bound under
    the identity of that very work, no work is answered twice, each is accepted
    after the previous one released the resource and starts from the buffer
    halves it left; and there is a certified case whose rows agree with all
    answers given so far, in order: work, binding, acceptance phase, buffer
    halves before and after, and the cycles of the result, of the last scale and
    of the resource. *)
Theorem cycle_answers_certified p0 calls p cases :
  cycle_run p0 calls p → certified_cases p0 = Some cases → cycle_invocations p0 = 0%nat →
  NoDup (map (work_identity ∘ call_work) calls) ∧
  (∀ e, head calls = Some e → call_before e = p0 ∧ cycle_previous p0 <= call_accepted e) ∧
  (∀ i e f, calls !! i = Some e → calls !! S i = Some f →
     call_accepted e + resource_ready_cycles (call_boundary e) <= call_accepted f ∧ call_before f = call_after e) ∧
  (calls = [] ∨ ∃ c, c ∈ cases ∧ ∀ i e, calls !! i = Some e → ∃ row service,
     case_works c !! i = Some row ∧ answers (cycle_requests p0) e service ∧ certifies c row e service).
Proof.
  intros Hrun Hcases Hn0. destruct (cycle_run_chained _ _ _ Hrun) as [He Hf Hn _].
  destruct (cycle_run_progressed _ _ _ Hrun) as [_ _ Hnd _ Hc]. split; [done|]. split; [|split].
  - intros e He0. rewrite <-(Hf e He0). split; [done|]. destruct calls as [|e' calls]; [done|]. injection He0 as ->.
    apply Forall_cons in He as [[] _]. done.
  - intros i e f Hi Hj. pose proof (Hn i e f Hi Hj) as E. split; [|done]. rewrite Forall_lookup in He.
    destruct (He _ _ Hi) as [_ _ Hprev _ _ _ _ _]. destruct (He _ _ Hj) as [_ Hacc _ _ _ _ _ _]. by rewrite E, Hprev in Hacc.
  - destruct (Hc cases Hcases) as (ks & _ & [?|Hne] & Hall); [by left|right]. destruct ks as [|c ks]; [done|]. exists c.
    destruct (Hall c) as [Hin Hrows]; [constructor|]. split; [done|]. by rewrite Hn0 in Hrows.
Qed.
End CycleTheorems.
