(* ===== verification/ScheduleSample.v ===== *)
(** * The providers behind the interfaces of the scheduler, and sample schedules

    Instances that discharge the laws of [PlainProvider] and
    [SequenceProvider], and schedules on which the theorems are instantiated:
    one over a phase table, one over the stateful provider of the sample
    trace. *)
From S2P Require Import Prelude Records Profiles TraceSchema TraceIntegrity TraceSample Domains Rational.
From S2P Require Import ExecutionIR Services Sequence Admission Provider ProviderTheorems.
From S2P Require Import Scheduler SchedulerTheorems CycleProvider.
Set Default Goal Selector "!".

Section Instances.
Context `{Host} `{Certificates} `{Native}.

(** The stateful provider. *)
Definition stateful_provider (world : nat → World) (sink : bool) : SequenceProvider.
Proof.
  refine {| seq_state := Provider; seq_admission := provider_admission; seq_requests := provider_requests;
            seq_previous := previous_resource_cycle; seq_execute := execute world sink;
            seq_verify := verify_complete world |}.
  intros work c p p' w (item & s' & Hpre & -> & _ & Hoff & Hok)%execute_Ok.
  apply precheck_Ok in Hpre as (_ & _ & _ & _ & [Hprev _] & _). destruct Hok. rewrite Hoff in *. by split_and!.
Defined.

(** A provider whose answers do not depend on earlier ones. *)
Definition stateless_provider (P : NpuProvider) : PlainProvider.
Proof.
  refine {| plain_state := unit; plain_scope := fun _ => provider_scope; plain_cycle := fun _ => None;
            plain_estimate := fun work c p => (p, estimate work c) |}.
  intros work c p p' s [_ Hs]%pair_eq. by apply estimate_valid in Hs as (? & ? & _).
Defined.

Definition admission_fields (a : ServiceAdmission) : record :=
  [("certificate_sha256", JStr (service_certificate_sha256 a)); ("base_certificate_sha256", JStr (base_certificate_sha256 a));
   ("run_certificate_sha256", JStr (CycleProvider.run_certificate_sha256 a)); ("trace_sha256", JStr (service_trace_sha256 a));
   ("scenario_id", JStr (scenario_id a)); ("profile", JStr (service_profile a)); ("work_count", JInt (service_work_count a))].

(** The certified provider. *)
Definition certified_provider (estimate_service : record → res record) (observed_library : nat → string) : PlainProvider.
Proof.
  refine {| plain_state := CycleServiceProvider; plain_scope := cycle_scope;
            plain_cycle := fun p => Some {| fact_admission := admission_fields <$> service_admission p;
              fact_profile := from_option service_profile "" (service_admission p);
              fact_work_count := from_option service_work_count 0 (service_admission p);
              fact_requests := Z.of_nat (length (cycle_requests p));
              fact_complete := bool_decide (cycle_completed p = list_to_set (cycle_requests p).*1) |};
            plain_estimate := cycle_estimate estimate_service observed_library |}.
  intros work c p p' s. apply cycle_estimate_cycles.
Defined.
End Instances.

(** ** A schedule over a phase table *)

Definition sample_table : PhaseTable := {|
  period := 2;
  samples := [("p", "r0", 0, {| result_ready_cycles := 10; resource_ready_cycles := 12; evidence_id := "e" |});
              ("p", "r0", 1, {| result_ready_cycles := 11; resource_ready_cycles := 12; evidence_id := "e" |})] |}.

#[export] Instance sample_npu : NpuProvider.
Proof.
  refine {| provider_scope := "SYNTHETIC"; estimate := phase_estimate sample_table |}.
  intros w cycle s. unfold phase_estimate, phase_sample. cbn [sample_table period samples ensure check mbind res_bind Z.ltb Z.compare].
  unfold List.find. repeat (case_match; try done); intros [= <-]; simplify_eq/=; done.
Defined.

Definition cpu_node (name : string) (k : Z) (deps : list Dependency) (r : list string) : Node := {|
  ExecutionIR.identity := name; kind := CPU; ExecutionIR.operation := "o"; ExecutionIR.phase := "p"; order := k;
  dependencies := deps; service := Some name; resources := r |}.

(** Two CPU gangs on worker 0, an NPU work between them and a final barrier. *)
Definition sample_nodes : list Node :=
  [cpu_node "a" 0 [] ["cpu:0"; "cpu:1"];
   {| ExecutionIR.identity := "n"; kind := NPU; ExecutionIR.operation := "o"; ExecutionIR.phase := "p"; order := 1;
      dependencies := [{| node := "a"; milestone := RESULT_READY |}]; service := Some "npu:0"; resources := ["npu:0"] |};
   cpu_node "b" 2 [{| node := "a"; milestone := ACCEPTED |}] ["cpu:0"];
   {| ExecutionIR.identity := "z"; kind := BARRIER; ExecutionIR.operation := "o"; ExecutionIR.phase := "p"; order := 3;
      dependencies := [{| node := "b"; milestone := RESULT_READY |}; {| node := "n"; milestone := RESOURCE_READY |}];
      service := None; resources := [] |}].

Definition sample_worker (r : string) (ns : Z) : WorkerService := {|
  resource := r; duration_ns := qz ns; worker_id := Some 0; Services.source := "steady_clock"; unit_ := "nanosecond";
  quantity := ns; Services.frequency_hz := None; measurement := []; resource_identity := None |}.

Definition sample_services : Services := {|
  cpu := [("a", {| cpu_source := "FULL_CPU"; policy := "HOST_ELAPSED_NS_GANG";
                   workers := [sample_worker "cpu:0" 3; sample_worker "cpu:1" 7] |});
          ("b", {| cpu_source := "FULL_CPU"; policy := "HOST_ELAPSED_NS_GANG"; workers := [sample_worker "cpu:0" 5] |})];
  npu := [("npu:0", {| work_identity := "npu:0"; request_sha256 := "r0"; Services.profile := "p" |})] |}.

Definition no_sequence : SequenceProvider.
Proof.
  refine {| seq_state := Empty_set; seq_admission := fun p : Empty_set => match p with end;
            seq_requests := fun p : Empty_set => match p with end; seq_previous := fun p : Empty_set => match p with end;
            seq_execute := fun _ _ (p : Empty_set) => match p with end; seq_verify := fun p : Empty_set => match p with end |}.
  intros ? ? [].
Defined.

Definition sample_scenario : Scenario := {|
  npu_frequency_hz := 250000000; scenario_scope := "SYNTHETIC"; clock_artifact := None; scenario_profile := "p" |}.

Definition sample_plain : PlainProvider := stateless_provider sample_npu.

Definition sample_inputs : @ScheduleInputs sample_plain no_sequence := {|
  ir := {| nodes := sample_nodes; scope := "SYNTHETIC"; source_sha256 := "s" |}; services := sample_services;
  npu_provider := @Plain sample_plain no_sequence tt |}.

Definition sample_schedule : res ScheduleResult :=
  schedule (fun _ _ => Err (ClockError "none")) [] sample_inputs sample_scenario.

Lemma sample_wf : wf_ir (nodes (ir sample_inputs)).
Proof.
  assert (Hir : ∃ i, execution_ir sample_nodes "SYNTHETIC" "s" = Ok i).
  { destruct (execution_ir sample_nodes "SYNTHETIC" "s") as [i|] eqn:E; [by exists i|vm_compute in E; discriminate E]. }
  destruct Hir as [i Hi]. by apply execution_ir_Ok in Hi as (_ & Hwf & _).
Qed.

Lemma sample_valid : valid_services (services sample_inputs).
Proof.
  intros i svc Hget. apply aget_In in Hget; [|apply String.eqb_eq]. cbn in Hget. rewrite !elem_of_cons, elem_of_nil in Hget.
  destruct Hget as [[= -> ->]|[[= -> ->]|[]]]; vm_compute; reflexivity.
Qed.

Lemma four_positive : (0 < qz 4)%Qc.
Proof. rewrite <-qz_0. by apply qz_lt. Qed.

Lemma schedule_valid_witness :
  ∃ r c, sample_schedule = Ok r ∧ timeline c sample_nodes (result_nodes r).
Proof.
  destruct sample_schedule as [r|] eqn:E; [|vm_compute in E; discriminate E].
  destruct (schedule_valid (fun _ _ => Err (ClockError "none")) [] sample_inputs sample_scenario r sample_wf sample_valid E) as (c & _ & Ht & _).
  exists r, c. split; [reflexivity|exact Ht].
Defined.

Lemma schedule_ends_witness :
  loop_outcome sample_scenario (qz 4) sample_nodes sample_services
    (schedule_loop sample_scenario (qz 4) 8 sample_services (initial sample_inputs)).
Proof. exact (schedule_ends sample_inputs sample_scenario (qz 4) sample_wf sample_valid four_positive). Defined.

Lemma schedule_step_greedy_witness :
  ∃ pr', schedule_step sample_scenario (qz 4) sample_services (initial sample_inputs) = Ok pr' ∧
    completed pr' ≠ completed (initial sample_inputs) ∨ now_ns pr' ≠ now_ns (initial sample_inputs).
Proof.
  destruct (schedule_step sample_scenario (qz 4) sample_services (initial sample_inputs)) as [pr'|] eqn:E;
    [|vm_compute in E; discriminate E].
  exists pr'. destruct (schedule_step_greedy _ _ _ _ _ four_positive E) as [(n & result & _ & _ & _ & Hc & _)|(_ & _ & _ & Hlt & _)].
  - left. split; [reflexivity|]. rewrite Hc. discriminate.
  - right. intros Heq. rewrite Heq in Hlt. exact (Qclt_not_eq _ _ Hlt eq_refl).
Defined.

(** ** A schedule over the stateful provider *)

Definition sequence_nodes : list Node :=
  map (fun i => {| ExecutionIR.identity := "node" +:+ dec i; kind := NPU; ExecutionIR.operation := "o";
    ExecutionIR.phase := "p"; order := i; dependencies := []; service := Some ("npu:" +:+ dec i);
    resources := ["npu:0"] |}) [0; 1].

Definition sample_sequence : SequenceProvider := stateful_provider sample_worlds false.

(** The admitted works, scheduled back to back: accepted cycles of the two. *)
Definition sequence_schedule : res (list (option Z * option Qc)) :=
  let* p := sample_provider in
  let* r := schedule (H := sample_plain) (H0 := sample_sequence) (fun _ _ => Err (ClockError "none")) []
    {| ir := {| nodes := sequence_nodes; scope := "BOUND_DATASET"; source_sha256 := "s" |};
       services := {| cpu := []; npu := map (fun w => (work_identity w, w)) (provider_requests p) |};
       npu_provider := @Diagnostic sample_plain sample_sequence p |}
    {| npu_frequency_hz := 1000000000; scenario_scope := "STATEFUL_DIAGNOSTIC"; clock_artifact := None;
       scenario_profile := "a8w8-d16-hp1" |} in
  Ok (map (fun n => (scheduled_cycle n, port_offer_ns n)) (result_nodes r)).

Example sequence_schedule_cycles :
  sequence_schedule = Ok [(Some 0, Some (qz 0)); (Some 200000, Some (qz 200000))].
Proof. vm_compute. reflexivity. Qed.

(** ** A certified run *)

Definition certified_work (i : Z) : NpuWork :=
  {| work_identity := "npu:" +:+ dec i; request_sha256 := "r" +:+ dec i; Services.profile := "p" |}.
Definition certified_row (i phase from scale : Z) : CertifiedWork := {|
  cert_work_id := i; cert_binding := "r" +:+ dec i; accepted_phase := phase; initial_scratchpad := from; initial_accumulator := 0;
  cert_result_ready := 10; cert_scale_release := scale; cert_resource_ready := 12; next_scratchpad := 1 - from; next_accumulator := 0 |}.
Definition certified_case (scale : Z) : CertifiedCase :=
  {| case_id := "c" +:+ dec scale; case_profile := "p"; case_period := 5; case_works := [certified_row 0 3 0 11; certified_row 1 1 1 scale] |}.
Definition certified_start : CycleServiceProvider := {|
  provider_library_sha256 := "l";
  cycle_requests := map (fun i => (work_identity (certified_work i),
    {| cycle_work := certified_work i; cycle_document := [("request", JObj [])] |})) [0; 1];
  cycle_timing := []; cycle_scratchpad_half := 0; cycle_accumulator_half := 0; cycle_previous := 0;
  last_request_sha256 := None; cycle_invocations := 0; cycle_completed := ∅;
  certified_cases := Some [certified_case 9; certified_case 11]; fixture_admission := None; service_admission := None |}.
(** A library whose answer depends on the acceptance and the half it is asked with. *)
Definition certified_service (document : record) : res record :=
  let* value := item document "request" in let* request := object_value value in
  let* accepted := integer request "accepted_cycle" in let* half := integer request "initial_scratchpad_half" in
  Ok [("service", JObj [("result_ready_cycle", JInt (accepted + 10)); ("final_scale_release_cycle", JInt (accepted + 11));
    ("resource_ready_cycle", JInt (accepted + 12)); ("next_scratchpad_half", JInt (1 - half)); ("next_accumulator_half", JInt 0)])].
Definition certified_estimate (i accepted : Z) (p : CycleServiceProvider) : CycleServiceProvider * res NpuService :=
  cycle_estimate (H := text_host) certified_service (fun _ => "l") (certified_work i) accepted p.
Definition second_start : CycleServiceProvider := (certified_estimate 0 8 certified_start).1.

(** Two works are answered, accepted at cycles 8 and 21; both cases agree with
    the first answer, and only the case whose scale is released at 11 with the
    second. *)
Lemma cycle_answers_certified_witness :
  ∃ b1 p2 b2, certified_estimate 0 8 certified_start = (second_start, Ok b1) ∧ certified_estimate 1 21 second_start = (p2, Ok b2) ∧
    8 + resource_ready_cycles b1 <= 21 ∧
    ∃ c, c ∈ [certified_case 9; certified_case 11] ∧ ∃ row0 row1, case_works c !! 0%nat = Some row0 ∧ case_works c !! 1%nat = Some row1 ∧
      cert_resource_ready row0 = resource_ready_cycles b1 ∧ initial_scratchpad row1 = cycle_scratchpad_half second_start.
Proof.
  destruct (certified_estimate 0 8 certified_start) as [p1 [b1|]] eqn:E1; [|vm_compute in E1; discriminate E1].
  assert (E : p1 = second_start) by (unfold second_start; rewrite E1; reflexivity). subst p1.
  destruct (certified_estimate 1 21 second_start) as [p2 [b2|]] eqn:E2; [|vm_compute in E2; discriminate E2].
  exists b1, p2, b2. split; [reflexivity|]. split; [reflexivity|].
  destruct (cycle_answers_certified (H := text_host) certified_service (fun _ => "l") certified_start _ p2 _
    (cycle_run_call _ _ _ _ _ _ _ _ _ (cycle_run_call _ _ _ _ _ _ _ _ _ (cycle_run_start _ _ _) E1) E2) eq_refl eq_refl)
    as (_ & _ & Hnext & [Hnil|(c & Hc & Hall)]); [discriminate Hnil|].
  split; [exact (proj1 (Hnext 0%nat _ _ eq_refl eq_refl))|].
  exists c. split; [exact Hc|]. destruct (Hall 0%nat _ eq_refl) as (row0 & service0 & Hrow0 & _ & [_ _ _ _ [_ Hr] _ _]).
  destruct (Hall 1%nat _ eq_refl) as (row1 & service1 & Hrow1 & _ & [_ _ _ [Hh _] _ _ _]).
  exists row0, row1. exact (conj Hrow0 (conj Hrow1 (conj Hr Hh))).
Defined.
