(* ===== verification/CertificateContract.v ===== *)
(** * Single-GEMM cycle certificates: records and cases

    [sim/cycle/certificate_contract.py]: the labelled accessors with which the
    certificate and the op-trace replay take documents apart, the check of the
    reference memory ([validate_reference]) and of one case of the corpus
    ([_case]).  [case_exact] states what an admitted case shows: the cycle
    model and the RTL agree on every endpoint and counter. *)
From S2P Require Import Prelude Records Profiles.
Set Default Goal Selector "!".

Definition SCHEMA : string := "im2p-single-gemm-cycle-certificate".
Definition VERSION : Z := 2.
Definition PROFILES : list string :=
  b ← [4; 8]; d ← [16; 32; 64]; ["a" +:+ dec b +:+ "w" +:+ dec b +:+ "-d" +:+ dec d +:+ "-hp1"].
Definition FRAMINGS : list string := ["regression-tiles"; "planner-blocks"].
Definition COUNTERS : list (string * string) :=
  [("start", "start_cycle"); ("done", "done_cycle"); ("cycles", "total_cycles");
   ("work_count", "logical_work_count"); ("loop_count", "loop_count");
   ("load_req", "load_request_count"); ("load_resp", "load_response_count");
   ("store_req", "store_request_count"); ("store_resp", "store_response_count");
   ("scale_req", "scale_request_count"); ("scale_resp", "scale_response_count")].
Definition TIMING : record := map (fun kv => (kv.1, JInt kv.2))
  [("revision", 1); ("backing_read_delay", 3); ("even_read_id_delay", 13);
   ("scale_read_extra_delay", 17); ("backing_write_delay", 11);
   ("read_ready_period", 5); ("backing_cycle_offset", 5); ("reserved", 0)].

(** [CertificateError] prefixes its message. *)
Definition certificate_error (detail : string) : exn := CertificateError ("certificate: " +:+ detail).
Definition require (condition : bool) (detail : string) : res unit := check condition (certificate_error detail).
Definition require_res (condition : res bool) (detail : string) : res unit :=
  require_m condition (certificate_error detail).

Definition object_value (value : json) (label : string) : res record :=
  match value with
  | JObj r => Ok r
  | _ => Err (certificate_error (label +:+ ": object required"))
  end.
Definition array_value (value : json) (label : string) : res (list json) :=
  match value with
  | JArr l => Ok l
  | _ => Err (certificate_error (label +:+ ": array required"))
  end.

(** Distinct nonempty strings, at least one. *)
Definition unique_strings (value : json) (label : string) : res (list string) :=
  let* values := array_value value label in
  let* result := map_res (fun v => match v with
    | JStr s => if String.eqb s "" then Err (certificate_error (label +:+ ": nonempty strings required")) else Ok s
    | _ => Err (certificate_error (label +:+ ": nonempty strings required"))
    end) values in
  require (negb (Nat.eqb (length result) 0) && distinct String.eqb result) (label +:+ ": empty or duplicate entries") ;;;
  Ok result.

Definition number (value : json) (label : string) : res Z :=
  match value with
  | JInt z => if z <? 0 then Err (certificate_error (label +:+ ": nonnegative integer required")) else Ok z
  | _ => Err (certificate_error (label +:+ ": nonnegative integer required"))
  end.

Definition digest_value (value : json) (label : string) : res string :=
  match value with
  | JStr s => if is_hex 64 s then Ok s else Err (certificate_error (label +:+ ": SHA256 required"))
  | _ => Err (certificate_error (label +:+ ": SHA256 required"))
  end.

(** The object hook of [read_document]. *)
Definition unique_object (pairs : record) : res record :=
  fold_res (fun result kv =>
    require (negb (has result kv.1)) ("duplicate JSON key: " +:+ kv.1) ;;;
    Ok (sset kv.1 kv.2 result)) [] pairs.

(** [read_document] on the syntax tree of the file. *)
Definition read_document (path : string) (raw : json) : res record :=
  let* value := decode unique_object raw in object_value value path.

Definition validate_reference `{Host} (document : record) : res unit :=
  require_res (Ok (eq_str (pget document "id") "rtl-regression-reference-memory-v1") andM
               Ok (eq_str (pget document "scope") "isolated-work-accounting") andM
               Ok (is_int (pget document "accepted_cycle")) andM
               (let* v := item document "accepted_cycle" in Ok (eq_int v 1)))
    "reference-memory scope/epoch mismatch" ;;;
  let* timing := object_value (pget document "timing") "reference timing" in
  require (jeq (JObj timing) (JObj TIMING) && forallb (fun kv => is_int kv.2) timing)
    "reference-memory timing mismatch" ;;;
  let* hashes := object_value (pget document "source_sha256") "reference sources" in
  require (keys_are hashes ["sim/cycle/c_api.cpp"; "sim/cycle/timing_profile.hpp"])
    "reference source closure missing" ;;;
  iter_res (fun kv => let* _ := digest_value kv.2 "reference source" in Ok tt) hashes ;;;
  require (eq_str (pget document "sha256") (Contract.contract_digest document)) "reference-memory hash mismatch".

Definition nonempty_string (j : json) : bool := match j with JStr s => negb (String.eqb s "") | _ => false end.

(** One endpoint or counter, in the RTL's and in the model's summary. *)
Definition same_counter (rtl model : record) (names : string * string) : res unit :=
  require_res (let* l := number (pget rtl names.1) names.1 in
               let* r := number (pget model names.2) names.2 in Ok (l =? r))
    ("endpoint/counter mismatch: " +:+ names.1).

(** [_case]: an admitted row of the corpus, and its key. *)
Definition certified_case (row : record) : res (string * string * string) :=
  let* key := match pget row "profile", pget row "framing", pget row "case" with
    | JStr p, JStr f, JStr c =>
        if forallb nonempty_string [JStr p; JStr f; JStr c] then Ok (p, f, c)
        else Err (certificate_error "case identity missing")
    | _, _, _ => Err (certificate_error "case identity missing")
    end in
  let '(profile, framing, identity) := key in
  require (str_in profile PROFILES && str_in framing FRAMINGS) "case profile/framing unsupported" ;;;
  require (eq_str (pget row "status") "PASS" && is_true (pget row "rtl_admitted") &&
           is_true (pget row "model_attempted") && is_true (pget row "model_admitted"))
    "case is not admitted/exact" ;;;
  require_res (Ok (jeq (pget row "differences") (JObj [])) andM Ok (is_null (pget row "first_event_difference")) andM
               Ok (is_true (pget row "selected_event_multiset_exact")) andM
               (let* delta := number (pget row "delta_cycles") "cycle delta" in Ok (delta =? 0)))
    "case mismatch" ;;;
  iter_res (fun name =>
    let* values := array_value (pget row name) name in
    require_res (Ok (Nat.eqb (length values) 3) andM
                 all_res (fun v => let* z := number v name in Ok (0 <? z)) values) ("invalid " +:+ name))
    ["shape"; "tile"] ;;;
  let* rtl := object_value (pget row "rtl_summary") "RTL endpoint/counters" in
  let* model := object_value (pget row "model_summary") "model endpoint/counters" in
  iter_res (same_counter rtl model) COUNTERS ;;;
  require_res
    ((let* v := number (pget model "logical_work_count") "logical works" in Ok (v =? 1)) andM
     (let* v := number (pget model "total_cycles") "cycles" in Ok (0 <? v)) andM
     (let* stop := number (pget model "done_cycle") "done" in
      let* start := number (pget model "start_cycle") "start" in
      let* total := item model "total_cycles" in Ok (eq_int total (stop - start))))
    "invalid isolated endpoint convention" ;;;
  let* events := object_value (pget row "event_comparison") "event comparison" in
  require_res ((let* v := number (pget events "model_event_count") "model events" in Ok (0 <? v)) andM
               Ok (jeq (pget events "model_event_count") (pget events "rtl_event_count")))
    "empty or mismatched event counts" ;;;
  let* _ := number (pget events "rtl_event_count") "RTL events" in
  require_res (let* l := digest_value (pget events "model_multiset_sha256") "model events" in
               let* r := digest_value (pget events "rtl_multiset_sha256") "RTL events" in Ok (String.eqb l r))
    "event multiset mismatch" ;;;
  let* ownership := object_value (pget row "scale_ownership") "scale ownership" in
  require_res (Ok (eq_str (pget ownership "status") "PASS") andM
               (let* v := number (pget ownership "submissions") "submissions" in Ok (0 <? v)))
    "scale ownership missing or failed" ;;;
  Ok (profile, framing, identity).

(** ** What an admitted case shows *)

Lemma number_Ok v label z : number v label = Ok z ↔ v = JInt z ∧ 0 <= z.
Proof.
  destruct v as [| |w| | | |]; cbn; try naive_solver. destruct (Z.ltb_spec w 0); naive_solver lia.
Qed.

Lemma object_Ok v label r : object_value v label = Ok r ↔ v = JObj r.
Proof. destruct v; naive_solver. Qed.

(** The two summaries of a row agree on the counter: same nonnegative number. *)
Definition counter_agrees (rtl model : record) (names : string * string) : Prop :=
  ∃ z, 0 <= z ∧ pget rtl names.1 = JInt z ∧ pget model names.2 = JInt z.

Lemma same_counter_Ok rtl model names :
  same_counter rtl model names = Ok tt → counter_agrees rtl model names.
Proof.
  unfold same_counter. intros (l & [Hl ?]%number_Ok & (r & [Hr ?]%number_Ok & E%Ok_eq)%bind_Ok)%require_m_Ok%bind_Ok.
  apply Z.eqb_eq in E as ->. by exists r.
Qed.

(** An admitted case of the certificate is exact: the model and the RTL
    report the same number for every endpoint and counter, the case ran one
    logical work, and its positive cycle count is the distance between the
    endpoints both report. *)
Theorem case_exact row key :
  certified_case row = Ok key →
  ∃ rtl model start total,
    pget row "rtl_summary" = JObj rtl ∧ pget row "model_summary" = JObj model ∧
    Forall (counter_agrees rtl model) COUNTERS ∧
    pget model "logical_work_count" = JInt 1 ∧ pget rtl "cycles" = JInt total ∧ 0 < total ∧
    pget rtl "start" = JInt start ∧ pget rtl "done" = JInt (start + total).
Proof.
  unfold certified_case. intros H. apply bind_Ok in H as ([[p f] c] & _ & H).
  do 3 apply check_bind in H as [_ H] || apply bind_Ok in H as (? & _ & H).
  apply bind_Ok in H as (? & _ & H). apply bind_Ok in H as (rtl & Hrtl%object_Ok & H).
  apply bind_Ok in H as (model & Hmodel%object_Ok & H). apply iter_bind in H as [Hall H].
  apply bind_Ok in H as (? & Hreq%require_m_Ok & _).
  assert (Hagree : Forall (counter_agrees rtl model) COUNTERS).
  { eapply Forall_impl; [exact Hall|]. intros names. apply same_counter_Ok. }
  exists rtl, model.
  apply and_then_Ok_true in Hreq as [Hone Hreq]. apply and_then_Ok_true in Hreq as [Hpos Hspan].
  apply bind_Ok in Hone as (one & [Hone _]%number_Ok & E1%Ok_eq%Z.eqb_eq).
  apply bind_Ok in Hpos as (total & [Htotal _]%number_Ok & E2%Ok_eq%Z.ltb_lt).
  apply bind_Ok in Hspan as (stop & [Hstop _]%number_Ok & (start & [Hstart _]%number_Ok & (t & Ht%pget_item & E3%Ok_eq)%bind_Ok)%bind_Ok).
  assert (Hc : ∀ names v, names ∈ COUNTERS → pget model names.2 = JInt v → pget rtl names.1 = JInt v).
  { intros names v Hin Hv. rewrite Forall_forall in Hagree. destruct (Hagree _ Hin) as (z & _ & Hz1 & Hz2). congruence. }
  rewrite Htotal in Ht. subst t. apply Z.eqb_eq in E3. exists start, total.
  split_and!; try done.
  - by rewrite Hone, E1.
  - apply (Hc ("cycles", "total_cycles")); [|done]. unfold COUNTERS. set_solver.
  - apply (Hc ("start", "start_cycle")); [|done]. unfold COUNTERS. set_solver.
  - apply (Hc ("done", "done_cycle")); [unfold COUNTERS; set_solver|]. cbn [snd]. rewrite Hstop. f_equal. lia.
Qed.

(** *** A certified case *)
Definition sample_model : record := map (fun kv => (kv.1, JInt kv.2))
  [("start_cycle", 5); ("done_cycle", 105); ("total_cycles", 100); ("logical_work_count", 1); ("loop_count", 1);
   ("load_request_count", 2); ("load_response_count", 2); ("store_request_count", 1);
   ("store_response_count", 1); ("scale_request_count", 1); ("scale_response_count", 1)].
Definition sample_rtl : record :=
  map (fun names => (names.1, pget sample_model names.2)) COUNTERS.
Definition sample_digest : string := "00000000000000000000000000000000000000000000000000000000000000ff".
Definition sample_case : record :=
  [("profile", JStr "a8w8-d16-hp1"); ("framing", JStr "planner-blocks"); ("case", JStr "captured-001");
   ("status", JStr "PASS"); ("rtl_admitted", JBool true); ("model_attempted", JBool true);
   ("model_admitted", JBool true); ("differences", JObj []); ("first_event_difference", JNull);
   ("selected_event_multiset_exact", JBool true); ("delta_cycles", JInt 0);
   ("shape", JArr [JInt 1; JInt 1; JInt 32]); ("tile", JArr [JInt 1; JInt 1; JInt 2]);
   ("rtl_summary", JObj sample_rtl); ("model_summary", JObj sample_model);
   ("event_comparison", JObj [("model_event_count", JInt 7); ("rtl_event_count", JInt 7);
      ("model_multiset_sha256", JStr sample_digest); ("rtl_multiset_sha256", JStr sample_digest)]);
   ("scale_ownership", JObj [("status", JStr "PASS"); ("submissions", JInt 1)])].

Lemma case_exact_witness :
  ∃ rtl, certified_case sample_case = Ok ("a8w8-d16-hp1", "planner-blocks", "captured-001")%string ∧
    pget sample_case "rtl_summary" = JObj rtl ∧ pget rtl "cycles" = JInt 100.
Proof.
  assert (E : certified_case sample_case = Ok ("a8w8-d16-hp1", "planner-blocks", "captured-001")%string)
    by reflexivity.
  destruct (case_exact _ _ E) as (rtl & model & start & total & Hr & _ & _ & _ & Ht & _).
  exists rtl. split; [exact E|]. split; [exact Hr|]. cbn in Hr. injection Hr as <-. reflexivity.
Defined.
