(* ===== verification/OptraceParents.v ===== *)
(** * Parent coverage of a production op-trace

    [sim/cycle/optrace_parents.py]: the validator that follows the parent
    declarations of a trace of version 2.  A parent is one production
    invocation; its works must repeat its descriptor and cover its rows in
    order before the parent, its phase or the run ends.

    [parents_covered] states what an accepted sequence of records guarantees:
    the parents are numbered 0, 1, .. in declaration order and the works of
    each tile its rows from first to last. *)
From S2P Require Import Prelude Records.
Set Default Goal Selector "!".

Definition COMMON : list string := ["kind"; "sequence"; "run_id"].
Definition DESCRIPTOR_FIELDS : list string :=
  ["layer"; "operation"; "provenance"; "scope"; "activation_bits"; "weight_bits"; "dim";
   "n"; "k"; "tile_i_count"; "tile_j_count"; "tile_k_count"; "activation_stride_bytes";
   "weight_stride_bytes"; "output_stride_bytes"; "scale_stride_elements"; "block_size";
   "vector_op"; "output_domain"; "production_geometry_version"].
Definition BEGIN_FIELDS : list string := COMMON ++ ["phase_id"; "parent_invocation_id"; "m"] ++ DESCRIPTOR_FIELDS.
Definition END_FIELDS : list string := COMMON ++ ["phase_id"; "parent_invocation_id"; "status"].
Definition TILE_FIELDS : list string := ["tile_i_count"; "tile_j_count"; "tile_k_count"].

(** [ParentError] prefixes its message. *)
Definition parent_error (message : string) : exn := ParentError ("parent integrity: " +:+ message).
Definition require (condition : bool) (message : string) : res unit := check condition (parent_error message).
Definition require_res (condition : res bool) (message : string) : res unit :=
  require_m condition (parent_error message).

Definition number (r : record) (name : string) : res Z :=
  match pget r name with
  | JInt value =>
      if (0 <=? value) && (value <? uint64_limit) then Ok value
      else Err (parent_error (name +:+ " must be uint64"))
  | _ => Err (parent_error (name +:+ " must be uint64"))
  end.

(** [_number(record, name) <test>] as a condition that may raise. *)
Definition test (r : record) (name : string) (p : Z → bool) : res bool :=
  let* v := number r name in Ok (p v).

Definition tiles (r : record) : res unit :=
  let* dim := number r "dim" in
  require (z_in dim [16; 32; 64]) "invalid DIM" ;;;
  require_res (all_res (fun key => test r key (fun v => 0 <? v)) TILE_FIELDS) "zero final tile factor" ;;;
  require_res (test r "tile_i_count" (fun v => v <=? 65535 / dim) andM
               test r "tile_j_count" (fun v => v <=? 65535 / dim) andM
               test r "tile_k_count" (fun v => v <=? (2 ^ 32 - 1) / dim))
    "final tile factor exceeds hardware domain".

(** [_Parent]: the coverage cursor of one declared invocation. *)
Record Parent := {
  descriptor : list json;
  rows : Z;
  parent_phase : Z;
  parent_scope : string;
  next_row : Z;
  work_count : Z;
}.

Record ParentValidator := {
  parents : gmap Z Parent;
  next_parent : Z;
  current_phase : option Z;
  profile : option (Z * Z * Z);
}.
Definition new_validator : ParentValidator :=
  {| parents := ∅; next_parent := 0; current_phase := None; profile := None |}.

Definition set_parents (v : ParentValidator) (m : gmap Z Parent) : ParentValidator :=
  {| parents := m; next_parent := next_parent v; current_phase := current_phase v; profile := profile v |}.

Definition finish (v : ParentValidator) : res unit :=
  require (bool_decide (parents v = ∅)) "incomplete parent at phase/run end".

Definition run_record (v : ParentValidator) (r : record) : res ParentValidator :=
  require (bool_decide (profile v = None)) "duplicate run" ;;;
  let* a := number r "activation_bits" in
  let* w := number r "weight_bits" in
  let* d := number r "dim" in
  Ok {| parents := parents v; next_parent := next_parent v; current_phase := current_phase v;
        profile := Some (a, w, d) |}.

Definition phase_begin (v : ParentValidator) (r : record) : res ParentValidator :=
  finish v ;;;
  let* phase := number r "phase_id" in
  Ok {| parents := parents v; next_parent := next_parent v; current_phase := Some phase; profile := profile v |}.

(** [isinstance(value, str) and bool(value)] *)
Definition nonempty_str (j : json) : bool := match j with JStr s => negb (String.eqb s "") | _ => false end.

Definition check_strides (r : record) (n k : Z) : res unit :=
  require_res (test r "activation_stride_bytes" (fun v => k <=? v) andM
               test r "weight_stride_bytes" (fun v => n <=? v) andM
               test r "output_stride_bytes" (fun v => 4 * n <=? v) andM
               test r "output_stride_bytes" (fun v => v mod 4 =? 0) andM
               test r "scale_stride_elements" (fun v => n <=? v))
    "invalid parent strides".

(** [tuple(record[key] for key in keys)] *)
Definition items (r : record) (ks : list string) : res (list json) := map_res (item r) ks.

Definition parent_begin (v : ParentValidator) (r : record) : res ParentValidator :=
  require (keys_are r BEGIN_FIELDS) "missing or unknown parent declaration fields" ;;;
  let* phase := number r "phase_id" in
  require (bool_decide (current_phase v = Some phase)) "missing/stale parent phase" ;;;
  let* identity := number r "parent_invocation_id" in
  require (identity =? next_parent v) "duplicate or nonmonotonic parent identity" ;;;
  let scope_value := pget r "scope" in
  require (in_strs scope_value ["full"; "stripe"; "residual_compact"]) "invalid parent scope" ;;;
  let* scope := match scope_value with
    | JStr s => Ok s | _ => Err (parent_error "parent scope must be string") end in
  iter_res (fun key => let* value := item r key in
    require (nonempty_str value) ("invalid parent " +:+ key)) ["layer"; "operation"; "provenance"] ;;;
  let* provenance := item r "provenance" in
  require (String.eqb scope "residual_compact" && eq_str provenance "residual" ||
           str_in scope ["full"; "stripe"] && eq_str provenance "dense_main")
    "parent scope/provenance mismatch" ;;;
  iter_res (fun key => require_res (test r key (fun x => 0 <? x)) ("parent " +:+ key +:+ " must be positive"))
    (drop 4 DESCRIPTOR_FIELDS) ;;;
  let* a := number r "activation_bits" in
  let* w := number r "weight_bits" in
  let* d := number r "dim" in
  require (bool_decide (profile v = Some (a, w, d))) "parent/run profile mismatch" ;;;
  let* m := number r "m" in
  require (0 <? m) "parent m must be positive" ;;;
  tiles r ;;;
  let* contract := items r ["block_size"; "vector_op"; "output_domain"; "production_geometry_version"] in
  require (jeq (JArr contract) (JArr [JInt 32; JInt 5; JInt 2; JInt 1])) "invalid parent HP1 contract" ;;;
  let* n := number r "n" in
  let* k := number r "k" in
  check_strides r n k ;;;
  require (negb (String.eqb scope "residual_compact") || (k <=? 32)) "residual parent is not compact" ;;;
  let* described := items r DESCRIPTOR_FIELDS in
  Ok {| parents := <[identity := {| descriptor := described; rows := m; parent_phase := phase;
                                    parent_scope := scope; next_row := 0; work_count := 0 |}]> (parents v);
        next_parent := next_parent v + 1; current_phase := current_phase v; profile := profile v |}.

Definition find_parent (v : ParentValidator) (r : record) : res (Z * Parent) :=
  let* identity := number r "parent_invocation_id" in
  match parents v !! identity with
  | None => Err (parent_error "undeclared or completed parent")
  | Some parent =>
      let* phase := number r "phase_id" in
      require ((phase =? parent_phase parent) && bool_decide (current_phase v = Some (parent_phase parent)))
        "stale parent phase" ;;;
      Ok (identity, parent)
  end.

(** The fields of a work that must repeat the descriptor of its parent: all of
    them, except that stripes may differ in their tile factors. *)
Definition repeats_descriptor (r : record) (parent : Parent) : bool :=
  forallb (fun ke => if negb (String.eqb (parent_scope parent) "stripe") || negb (str_in ke.1 TILE_FIELDS)
                     then jeq (pget r ke.1) ke.2 else true)
    (zip DESCRIPTOR_FIELDS (descriptor parent)).

Definition check_slot (r : record) : res unit :=
  require_res (test r "host_slot" (fun x => z_in x [0; 1])) "host_slot outside [0,1]".

Definition parent_work (v : ParentValidator) (r : record) : res ParentValidator :=
  let* found := find_parent v r in
  let '(identity, parent) := found in
  require (repeats_descriptor r parent) "work differs from parent descriptor/geometry" ;;;
  tiles r ;;;
  require_res (test r "geometry_m" (fun x => x =? rows parent)) "work parent shape mismatch" ;;;
  let* start := number r "row_begin" in
  let* count := number r "row_count" in
  require_res (Ok (0 <? count) andM test r "m" (fun x => count =? x) andM Ok (start + count <=? rows parent))
    "work exceeds parent row range" ;;;
  require (start =? next_row parent) "overlapping, gapped, or duplicate parent row range" ;;;
  (if is_null (pget r "host_slot") then Ok tt else check_slot r) ;;;
  (if String.eqb (parent_scope parent) "stripe" then
     require_res (test r "stripe_id" (fun x => x =? work_count parent)) "duplicate or unordered parent stripe ID" ;;;
     check_slot r
   else require ((work_count parent =? 0) && (count =? rows parent)) "FULL/compact parent needs one complete work") ;;;
  Ok (set_parents v (<[identity := {| descriptor := descriptor parent; rows := rows parent;
        parent_phase := parent_phase parent; parent_scope := parent_scope parent;
        next_row := next_row parent + count; work_count := work_count parent + 1 |}]> (parents v))).

Definition parent_end (v : ParentValidator) (r : record) : res ParentValidator :=
  require (keys_are r END_FIELDS) "missing or unknown parent completion fields" ;;;
  let* found := find_parent v r in
  let '(_, parent) := found in
  require (eq_str (pget r "status") "success") "parent did not complete successfully" ;;;
  require ((0 <? work_count parent) && (next_row parent =? rows parent)) "incomplete parent row coverage" ;;;
  let* identity := number r "parent_invocation_id" in
  Ok (set_parents v (delete identity (parents v))).

Definition run_end (v : ParentValidator) (r : record) : res ParentValidator := finish v ;;; Ok v.

(** [ParentValidator.consume]: the handler of the record's kind. *)
Definition handlers : list (string * (ParentValidator → record → res ParentValidator)) :=
  [("run", run_record); ("phase", phase_begin); ("parent_begin", parent_begin); ("npu_work", parent_work);
   ("parent_end", parent_end); ("run_end", run_end)].

Definition consume (v : ParentValidator) (r : record) : res ParentValidator :=
  match pget r "kind" with
  | JStr kind =>
      match sget kind handlers with
      | Some handler => handler v r
      | None => Err (parent_error "unsupported record kind")
      end
  | _ => Err (parent_error "unsupported record kind")
  end.

(** ** What an accepted sequence of records guarantees *)

Definition is_kind (kind : string) (r : record) : bool := eq_str (pget r "kind") kind.
Definition int_is (j : json) (z : Z) : bool := match j with JInt v => v =? z | _ => false end.

(** The declarations of a trace, and the works of one parent, in order. *)
Definition declarations (rs : list record) : list record := List.filter (is_kind "parent_begin") rs.
Definition works_of (p : Z) (rs : list record) : list record :=
  List.filter (fun r => is_kind "npu_work" r && int_is (pget r "parent_invocation_id") p) rs.

(** The works cover the rows [from], .., [upto - 1] in order: each begins where
    the one before it ended. *)
Inductive tile_rows : Z → list record → Z → Prop :=
  | tile_none from : tile_rows from [] from
  | tile_next from w ws count upto :
      pget w "row_begin" = JInt from → pget w "row_count" = JInt count → 0 < count →
      tile_rows (from + count) ws upto → tile_rows from (w :: ws) upto.

(** [w] repeats the descriptor [b] declares (a stripe has its own tiles). *)
Definition same_descriptor (b w : record) : Prop :=
  ∀ key, key ∈ DESCRIPTOR_FIELDS →
    (pget b "scope" = JStr "stripe" → key ∉ TILE_FIELDS) → jeq (pget w key) (pget b key) = true.

(** The works [ws] of the parent [b] declares, up to the row [upto]. *)
Record covers (b : record) (ws : list record) (upto : Z) : Prop := {
  covers_rows : tile_rows 0 ws upto;
  covers_same : Forall (same_descriptor b) ws;
  covers_shape : Forall (fun w => pget w "geometry_m" = pget b "m") ws;
  covers_stripes : pget b "scope" = JStr "stripe" →
    (fun w => pget w "stripe_id") <$> ws = JInt <$> seqZ 0 (Z.of_nat (length ws));
  covers_single : pget b "scope" ≠ JStr "stripe" → (length ws ≤ 1)%nat;
}.

(** The record [b] declares the parent [q] of the validator. *)
Record declares (b : record) (p : Z) (q : Parent) : Prop := {
  declares_id : pget b "parent_invocation_id" = JInt p;
  declares_m : pget b "m" = JInt (rows q);
  declares_scope : pget b "scope" = JStr (parent_scope q);
  declares_desc : descriptor q = pget b <$> DESCRIPTOR_FIELDS;
}.

Lemma tile_rows_snoc a ws b w c :
  tile_rows a ws b → pget w "row_begin" = JInt b → pget w "row_count" = JInt c → 0 < c →
  tile_rows a (ws ++ [w]) (b + c).
Proof.
  induction 1 as [a|a w0 ws c0 b ? ? ? ? IH]; intros ? ? ?; cbn.
  - eapply tile_next; eauto. constructor.
  - eapply tile_next; eauto.
Qed.

Lemma tile_rows_le a ws b : tile_rows a ws b → a <= b ∧ (ws ≠ [] → a < b).
Proof.
  induction 1 as [a|a w ws c b ? ? ? ? [? ?]]; (split; [lia|]); [by intros|]. intros _. lia.
Qed.

Lemma parent_number_Ok r name z : number r name = Ok z ↔ pget r name = JInt z ∧ 0 <= z < uint64_limit.
Proof.
  unfold number. destruct (pget r name) as [| |w| | | |]; try naive_solver.
  destruct ((0 <=? w) && (w <? uint64_limit)) eqn:E.
  - apply andb_true_iff in E as [?%Z.leb_le ?%Z.ltb_lt]. naive_solver.
  - apply andb_false_iff in E. split; [done|]. intros [[= ->] ?].
    destruct E as [?%Z.leb_gt|?%Z.ltb_ge]; lia.
Qed.

Lemma test_Ok r name p : test r name p = Ok true ↔ ∃ z, number r name = Ok z ∧ p z = true.
Proof.
  unfold test. rewrite bind_Ok. split; intros (z & ? & E); exists z.
  - by apply Ok_eq in E.
  - by rewrite E.
Qed.

Lemma items_Ok r ks l : items r ks = Ok l → l = pget r <$> ks.
Proof.
  unfold items. intros ?%map_res_Ok. induction H as [|k v ks l H _ IH]; cbn; [done|].
  by rewrite (pget_item _ _ _ H), IH.
Qed.

Lemma consume_handled v r v' :
  consume v r = Ok v' → ∃ kind handler, (kind, handler) ∈ handlers ∧ pget r "kind" = JStr kind ∧ handler v r = Ok v'.
Proof.
  unfold consume. destruct (pget r "kind") as [| | | |kind| |]; try done.
  destruct (sget kind handlers) as [h|] eqn:E; [|done].
  intros ?. exists kind, h. split_and!; try done. by apply (aget_In _ String.eqb_eq) in E.
Qed.

(** Every kind but four leaves the parents alone. *)
Inductive step (v : ParentValidator) (r : record) (v' : ParentValidator) : Prop :=
  | step_other : parents v' = parents v → next_parent v' = next_parent v →
      is_kind "npu_work" r = false → is_kind "parent_begin" r = false → step v r v'
  | step_begin : is_kind "parent_begin" r = true → parent_begin v r = Ok v' → step v r v'
  | step_work : is_kind "npu_work" r = true → parent_work v r = Ok v' → step v r v'
  | step_end : is_kind "npu_work" r = false → is_kind "parent_begin" r = false →
      parent_end v r = Ok v' → step v r v'.

Lemma consume_step v r v' : consume v r = Ok v' → step v r v'.
Proof.
  intros (kind & h & Hin & Hk & Hh)%consume_handled. unfold handlers in Hin.
  assert (Hkind : ∀ s, is_kind s r = String.eqb kind s).
  { intros s. unfold is_kind. rewrite Hk. done. }
  repeat (apply elem_of_cons in Hin as [[= -> ->]|Hin]); [..|by inversion Hin].
  - unfold run_record in Hh. res_inv. by apply step_other.
  - unfold phase_begin in Hh. res_inv. by apply step_other.
  - by apply step_begin.
  - by apply step_work.
  - by apply step_end.
  - unfold run_end in Hh. res_inv. by apply step_other.
Qed.

Lemma find_parent_Ok v r p q :
  find_parent v r = Ok (p, q) → pget r "parent_invocation_id" = JInt p ∧ parents v !! p = Some q.
Proof.
  unfold find_parent. intros (id & [Hid _]%parent_number_Ok & H)%bind_Ok.
  destruct (parents v !! id) as [q'|] eqn:E; [|done].
  apply bind_Ok in H as (? & _ & H). apply check_bind in H as [_ [= <- <-]%Ok_eq]. done.
Qed.

Lemma parent_begin_Ok v r v' :
  parent_begin v r = Ok v' →
  ∃ q, parents v' = <[next_parent v := q]> (parents v) ∧ next_parent v' = next_parent v + 1 ∧
    declares r (next_parent v) q ∧ 0 < rows q ∧ next_row q = 0 ∧ work_count q = 0.
Proof.
  unfold parent_begin. intros H. res_inv.
  repeat match goal with
  | E : number _ _ = Ok _ |- _ => apply parent_number_Ok in E as [? ?]
  | E : require _ _ = Ok _ |- _ => apply check_Ok_any in E
  end.
  z_props. subst.
  match goal with E : items _ DESCRIPTOR_FIELDS = Ok _ |- _ => apply items_Ok in E as -> end.
  match goal with E : match pget r "scope" with _ => _ end = Ok _ |- _ => rename E into Hscope end.
  destruct (pget r "scope") as [| | | |scope| |] eqn:Es; try discriminate Hscope. injection Hscope as <-.
  eexists. split; [reflexivity|]. split; [done|]. split; [by split|]. done.
Qed.

Lemma parent_work_Ok v r v' :
  parent_work v r = Ok v' →
  ∃ p q c, pget r "parent_invocation_id" = JInt p ∧ parents v !! p = Some q ∧
    repeats_descriptor r q = true ∧ pget r "geometry_m" = JInt (rows q) ∧
    pget r "row_begin" = JInt (next_row q) ∧ pget r "row_count" = JInt c ∧ 0 < c ∧ next_row q + c <= rows q ∧
    (parent_scope q = "stripe" → pget r "stripe_id" = JInt (work_count q)) ∧
    (parent_scope q ≠ "stripe" → work_count q = 0) ∧ next_parent v' = next_parent v ∧
    ∃ q', parents v' = <[p := q']> (parents v) ∧ rows q' = rows q ∧ parent_scope q' = parent_scope q ∧
      descriptor q' = descriptor q ∧ next_row q' = next_row q + c ∧ work_count q' = work_count q + 1.
Proof.
  unfold parent_work. intros H. apply bind_Ok in H as ([p q] & [Hp1 Hp2]%find_parent_Ok & H).
  res_inv.
  repeat match goal with
  | E : number _ _ = Ok _ |- _ => apply parent_number_Ok in E as [? ?]
  | E : require_res _ _ = Ok _ |- _ => apply require_m_Ok in E
  | E : require _ _ = Ok _ |- _ => apply check_Ok_any in E
  | E : test _ _ _ = Ok true |- _ => apply test_Ok in E as (? & [? ?]%parent_number_Ok & ?)
  | E : and_then _ _ = Ok true |- _ => apply and_then_Ok_true in E as [? ?]
  | E : Ok _ = Ok true |- _ => apply Ok_eq in E
  end.
  z_props. subst.
  eexists p, q, _. split_and!; try done.
  - intros Hs. destruct (String.eqb_spec (parent_scope q) "stripe"); [|done]. res_inv.
    match goal with E : require_res _ _ = Ok _ |- _ =>
      apply require_m_Ok, test_Ok in E as (? & [? ?]%parent_number_Ok & ?) end. z_props. by subst.
  - intros Hs. destruct (String.eqb_spec (parent_scope q) "stripe"); [done|].
    match goal with E : require (_ && _) _ = Ok _ |- _ => apply check_Ok_any in E end. by z_props.
  - eexists. split; [reflexivity|]. done.
Qed.

Lemma parent_end_Ok v r v' :
  parent_end v r = Ok v' →
  ∃ p q, parents v !! p = Some q ∧ 0 < work_count q ∧ next_row q = rows q ∧
    next_parent v' = next_parent v ∧ parents v' = delete p (parents v).
Proof.
  unfold parent_end. intros H. apply bind_Ok in H as (? & _ & H).
  apply bind_Ok in H as ([p q] & [Hp Hq]%find_parent_Ok & H). res_inv.
  repeat match goal with
  | E : number _ _ = Ok _ |- _ => apply parent_number_Ok in E as [? ?]
  | E : require _ _ = Ok _ |- _ => apply check_Ok_any in E
  end.
  z_props. exists p, q. split_and!; try done. cbn. congruence.
Qed.

(** *** The invariant of the validator over the records consumed so far *)

Lemma works_of_snoc p rs r :
  works_of p (rs ++ [r]) =
  works_of p rs ++ (if is_kind "npu_work" r && int_is (pget r "parent_invocation_id") p then [r] else []).
Proof. exact (filter_snoc _ _ _). Qed.
Lemma declarations_snoc rs r :
  declarations (rs ++ [r]) = declarations rs ++ (if is_kind "parent_begin" r then [r] else []).
Proof. exact (filter_snoc _ _ _). Qed.

(** A parent in the table is open and covered up to its cursor; one that was
    declared and is no longer in the table is covered to its last row. *)
Definition open_ok (rs : list record) (p : Z) (q : Parent) : Prop :=
  ∃ b, declarations rs !! Z.to_nat p = Some b ∧ declares b p q ∧ covers b (works_of p rs) (next_row q) ∧
    next_row q <= rows q ∧ work_count q = Z.of_nat (length (works_of p rs)).
Definition closed_ok (rs : list record) (p : Z) : Prop :=
  ∃ b m, declarations rs !! Z.to_nat p = Some b ∧ pget b "parent_invocation_id" = JInt p ∧ pget b "m" = JInt m ∧
    covers b (works_of p rs) m ∧ works_of p rs ≠ [].

Record parents_inv (rs : list record) (v : ParentValidator) : Prop := {
  inv_count : next_parent v = Z.of_nat (length (declarations rs));
  inv_open : ∀ p q, parents v !! p = Some q → 0 <= p < next_parent v ∧ open_ok rs p q;
  inv_closed : ∀ p, parents v !! p = None → 0 <= p < next_parent v → closed_ok rs p;
  inv_none : ∀ p, ¬ (0 <= p < next_parent v) → works_of p rs = [];
}.

Lemma lookup_prefix {A} (l k : list A) i x : l !! i = Some x → (l ++ k) !! i = Some x.
Proof. apply lookup_app_l_Some. Qed.

(** A record that is no work of [p] changes nothing for [p]. *)
Lemma open_ok_frame rs r p q :
  is_kind "npu_work" r && int_is (pget r "parent_invocation_id") p = false → open_ok rs p q → open_ok (rs ++ [r]) p q.
Proof.
  intros Hr (b & Hb & Hrest). exists b. rewrite works_of_snoc, declarations_snoc, Hr, app_nil_r.
  split; [by apply lookup_prefix|done].
Qed.
Lemma closed_ok_frame rs r p :
  is_kind "npu_work" r && int_is (pget r "parent_invocation_id") p = false → closed_ok rs p → closed_ok (rs ++ [r]) p.
Proof.
  intros Hr (b & m & Hb & Hrest). exists b, m. rewrite works_of_snoc, declarations_snoc, Hr, app_nil_r.
  split; [by apply lookup_prefix|done].
Qed.

(** The work that the validator accepts extends the cover of its parent. *)
Lemma covers_snoc b ws q w c p :
  declares b p q → covers b ws (next_row q) → work_count q = Z.of_nat (length ws) →
  repeats_descriptor w q = true → pget w "geometry_m" = JInt (rows q) →
  pget w "row_begin" = JInt (next_row q) → pget w "row_count" = JInt c → 0 < c →
  (parent_scope q = "stripe" → pget w "stripe_id" = JInt (work_count q)) →
  (parent_scope q ≠ "stripe" → work_count q = 0) →
  covers b (ws ++ [w]) (next_row q + c).
Proof.
  intros [_ Hm Hs Hd] [Hrows Hsame Hshape Hstripes Hsingle] Hcount Hrep Hg Hb Hc Hpos Hstripe Hone. split.
  - by eapply tile_rows_snoc.
  - apply Forall_app. split; [done|]. apply Forall_singleton. intros key Hkey Htile.
    unfold repeats_descriptor in Hrep. rewrite Hd in Hrep. rewrite forallb_forall in Hrep.
    specialize (Hrep (key, pget b key)). cbn [fst snd] in Hrep. rewrite Hs in Htile.
    destruct (String.eqb_spec (parent_scope q) "stripe") as [E|E]; cbn [negb orb] in Hrep.
    + destruct (str_in key TILE_FIELDS) eqn:Et.
      * apply str_in_spec in Et. rewrite E in Htile. by destruct (Htile eq_refl).
      * apply Hrep. rewrite <-list_elem_of_In. apply elem_of_zip_fmap_r, Hkey.
    + apply Hrep. rewrite <-list_elem_of_In. apply elem_of_zip_fmap_r, Hkey.
  - apply Forall_app. split; [done|]. apply Forall_singleton. congruence.
  - intros E. rewrite fmap_app, Hstripes, length_app by done. cbn.
    rewrite Nat2Z.inj_add, seqZ_app, fmap_app by lia. f_equal.
    rewrite Hstripe, Hcount by congruence. by rewrite seqZ_cons by lia.
  - intros E. rewrite length_app. cbn.
    assert (work_count q = 0) by (apply Hone; congruence). lia.
Qed.

Lemma parents_inv_begin rs r v v' :
  parents_inv rs v → is_kind "parent_begin" r = true → parent_begin v r = Ok v' → parents_inv (rs ++ [r]) v'.
Proof.
  intros [Hcount Hopen Hclosed Hnone] Hk (q & Hv & Hn & Hdecl & Hpos & Hrow & Hwork)%parent_begin_Ok.
  assert (Hw : is_kind "npu_work" r = false).
  { unfold is_kind in *. apply eq_str_spec in Hk. by rewrite Hk. }
  assert (Hnew : declarations (rs ++ [r]) = declarations rs ++ [r]) by (by rewrite declarations_snoc, Hk).
  assert (Hworks : ∀ p, works_of p (rs ++ [r]) = works_of p rs) by (intros p; by rewrite works_of_snoc, Hw, app_nil_r).
  split.
  - rewrite Hnew, length_app, Hn, Hcount. cbn. lia.
  - intros p q0. rewrite Hv, Hn. destruct (decide (p = next_parent v)) as [->|Hne].
    + rewrite lookup_insert_eq. intros [= <-]. split; [lia|]. exists r.
      rewrite Hnew, Hworks, (Hnone (next_parent v)) by lia.
      split_and!; [|done| |lia|done].
      * rewrite Hcount, Nat2Z.id. apply list_lookup_middle. done.
      * rewrite Hrow. split; [constructor|by constructor|by constructor|done|cbn; lia].
    + rewrite lookup_insert_ne by done. intros [? ?]%Hopen. split; [lia|].
      apply open_ok_frame; [by rewrite Hw|done].
  - intros p. rewrite Hv, Hn. destruct (decide (p = next_parent v)) as [->|Hne]; [by rewrite lookup_insert_eq|].
    rewrite lookup_insert_ne by done. intros ? ?. apply closed_ok_frame; [by rewrite Hw|]. apply Hclosed; [done|lia].
  - intros p Hp. rewrite Hworks. apply Hnone. lia.
Qed.

Lemma parents_inv_work rs r v v' :
  parents_inv rs v → is_kind "npu_work" r = true → parent_work v r = Ok v' → parents_inv (rs ++ [r]) v'.
Proof.
  intros [Hcount Hopen Hclosed Hnone] Hk
    (p & q & c & Hid & Hp & Hrep & Hg & Hb & Hc & Hpos & Hle & Hstripe & Hone & Hn & q' & Hv & E1 & E2 & E3 & E4 & E5)%parent_work_Ok.
  assert (Hb' : is_kind "parent_begin" r = false).
  { unfold is_kind in *. apply eq_str_spec in Hk. by rewrite Hk. }
  assert (Hnew : declarations (rs ++ [r]) = declarations rs) by (by rewrite declarations_snoc, Hb', app_nil_r).
  assert (Hother : ∀ p', p' ≠ p → is_kind "npu_work" r && int_is (pget r "parent_invocation_id") p' = false).
  { intros p' ?. rewrite Hk, Hid. cbn. apply Z.eqb_neq. congruence. }
  assert (Hthis : works_of p (rs ++ [r]) = works_of p rs ++ [r]).
  { rewrite works_of_snoc, Hk, Hid. cbn. by rewrite Z.eqb_refl. }
  destruct (Hopen p q Hp) as [Hrange (b & Hlook & Hdecl & Hcov & Hrows & Hwc)].
  split.
  - by rewrite Hnew, Hn.
  - intros p0 q0. rewrite Hv, Hn. destruct (decide (p0 = p)) as [->|Hne].
    + rewrite lookup_insert_eq. intros [= <-]. split; [done|]. exists b.
      rewrite Hnew, Hthis, E4, E5, E1. split_and!; [done| | |done|rewrite length_app; cbn; lia].
      * destruct Hdecl. split; [done| |by rewrite E2|by rewrite E3]. by rewrite E1.
      * by eapply covers_snoc.
    + rewrite lookup_insert_ne by done. intros [? ?]%Hopen. split; [done|]. apply open_ok_frame; [by apply Hother|done].
  - intros p0. rewrite Hv, Hn. destruct (decide (p0 = p)) as [->|Hne]; [by rewrite lookup_insert_eq|].
    rewrite lookup_insert_ne by done. intros ? ?. apply closed_ok_frame; [by apply Hother|]. by apply Hclosed.
  - intros p0. rewrite Hn. intros Hp0. rewrite works_of_snoc, Hother, app_nil_r by (intros ->; lia). by apply Hnone.
Qed.

Lemma parents_inv_end rs r v v' :
  parents_inv rs v → is_kind "npu_work" r = false → is_kind "parent_begin" r = false →
  parent_end v r = Ok v' → parents_inv (rs ++ [r]) v'.
Proof.
  intros [Hcount Hopen Hclosed Hnone] Hw Hb (p & q & Hp & Hpos & Hrow & Hn & Hv)%parent_end_Ok.
  assert (Hnew : declarations (rs ++ [r]) = declarations rs) by (by rewrite declarations_snoc, Hb, app_nil_r).
  assert (Hworks : ∀ p, works_of p (rs ++ [r]) = works_of p rs) by (intros ?; by rewrite works_of_snoc, Hw, app_nil_r).
  split.
  - by rewrite Hnew, Hn.
  - intros p0 q0. rewrite Hv, Hn. intros [? ?]%lookup_delete_Some.
    destruct (Hopen p0 q0) as [? ?]; [done|]. split; [done|]. apply open_ok_frame; [by rewrite Hw|done].
  - intros p0. rewrite Hv, Hn. destruct (decide (p0 = p)) as [->|Hne].
    + intros _ _. destruct (Hopen p q Hp) as [_ (b & ? & [? ? ? ?] & ? & ? & Hlen)].
      apply closed_ok_frame; [by rewrite Hw|]. exists b, (rows q). rewrite <-Hrow at 2. split_and!; try done.
      intros E. rewrite E in Hlen. cbn in Hlen. lia.
    + rewrite lookup_delete_ne by done. intros ? ?. apply closed_ok_frame; [by rewrite Hw|]. by apply Hclosed.
  - intros p0. rewrite Hn, Hworks. apply Hnone.
Qed.

Lemma parents_inv_step rs r v v' : parents_inv rs v → consume v r = Ok v' → parents_inv (rs ++ [r]) v'.
Proof.
  intros Hinv [Hp Hn Hw Hb|Hk Hr|Hk Hr|Hw Hb Hr]%consume_step.
  - destruct Hinv as [Hcount Hopen Hclosed Hnone].
    split; rewrite ?declarations_snoc, ?Hb, ?app_nil_r, ?Hn, ?Hp; try done.
    + intros p q [? ?]%Hopen. split; [done|]. apply open_ok_frame; [by rewrite Hw|done].
    + intros p ? ?. apply closed_ok_frame; [by rewrite Hw|]. by apply Hclosed.
    + intros p ?. rewrite works_of_snoc, Hw, app_nil_r. by apply Hnone.
  - by eapply parents_inv_begin.
  - by eapply parents_inv_work.
  - by eapply parents_inv_end.
Qed.

Lemma parents_inv_run rs v : fold_res consume new_validator rs = Ok v → parents_inv rs v.
Proof.
  apply (fold_res_hist parents_inv).
  - split; cbn; [done| |lia|done]. intros p q. by rewrite lookup_empty.
  - intros pre r post v1 v2 _. apply parents_inv_step.
Qed.

(** Once no parent is open, the works of the [i]th declaration cover exactly
    its rows, and every work belongs to a declaration. *)
Lemma parents_covered rs v :
  fold_res consume new_validator rs = Ok v → parents v = ∅ →
  (∀ i b, declarations rs !! i = Some b →
    pget b "parent_invocation_id" = JInt (Z.of_nat i) ∧ works_of (Z.of_nat i) rs ≠ [] ∧
    ∃ m, pget b "m" = JInt m ∧ covers b (works_of (Z.of_nat i) rs) m) ∧
  (∀ p, works_of p rs ≠ [] → 0 <= p < Z.of_nat (length (declarations rs))).
Proof.
  intros [Hcount Hopen Hclosed Hnone]%parents_inv_run He. split.
  - intros i b Hi. pose proof (lookup_lt_Some _ _ _ Hi).
    destruct (Hclosed (Z.of_nat i)) as (b' & m & Hb & ? & ? & ? & ?); [by rewrite He|lia|].
    rewrite Nat2Z.id, Hi in Hb. injection Hb as <-. eauto.
  - intros p Hp. destruct (decide (0 <= p < next_parent v)) as [?|Hn]; [lia|]. by destruct Hp; apply Hnone.
Qed.
