(* ===== verification/Optrace.v ===== *)
(** * Production op-trace: schema, isolated accounting and producer binding

    [sim/cycle/optrace_schema.py]: the records of an op-trace of version 2 and
    [validate_records], which accepts a complete trace.  [sim/cycle/optrace.py]:
    the model document of a work, the accounting of the isolated replay
    ([_estimate_trace]) and the binding of a trace to the build that produced
    it ([_producer_binding]).

    The cycle library is a parameter: [estimate] is [cli.estimate] on a model
    document.  Python iterates over some of the field sets in an order it does
    not fix; the model iterates in the order the source writes them, so only
    which of several errors is reported first may differ. *)
From S2P Require Import Prelude Records Profiles CertificateContract OptraceParents.
Set Default Goal Selector "!".

Definition SCHEMA : string := "im2p-production-optrace".
Definition VERSION : Z := 2.
Definition REPLAY_MAX_CYCLES : Z := 100000000.
Definition COMMON : list string := ["kind"; "sequence"; "run_id"].
Definition RUN : list string := COMMON ++
  ["schema"; "version"; "model"; "profile"; "activation_bits"; "weight_bits"; "dim";
   "backend"; "mode"; "residual_enabled"; "prompt_tokens"; "requested_generated_tokens";
   "source_commits"; "source_worktree_sha256"; "hardware_contract_sha256"; "runtime_manifest_sha256"].
Definition PHASE : list string := COMMON ++ ["phase_id"; "phase_kind"; "decode_index"; "input_tokens"].
Definition WORK_NUMBERS : list string :=
  ["phase_id"; "activation_bits"; "weight_bits"; "dim"; "m"; "n"; "k"; "tile_i_count";
   "tile_j_count"; "tile_k_count"; "geometry_m"; "row_begin"; "row_count";
   "activation_stride_bytes"; "weight_stride_bytes"; "output_stride_bytes";
   "scale_stride_elements"; "block_size"; "vector_op"; "output_domain";
   "production_geometry_version"; "work_context"; "source_row_begin"; "source_row_count";
   "column_begin"; "group_index"; "logical_work_id"; "parent_invocation_id"].
Definition WORK_OPTIONALS : list string := ["stripe_id"; "host_slot"; "original_block_id"].
Definition WORK_STRINGS : list string := ["layer"; "operation"; "provenance"; "numerical_datapath"; "scope"].
Definition WORK : list string :=
  COMMON ++ WORK_NUMBERS ++ WORK_OPTIONALS ++ WORK_STRINGS ++ ["rmd_raw"; "host_integer_block_multiply"].
Definition OBSERVATIONS : list string := ["observed_rtl_start"; "observed_rtl_done"; "observed_rtl_elapsed"].
Definition END : list string := COMMON ++ ["status"; "reason"; "work_count"; "independent_counts"].
Definition SOURCE_NAMES : list string := ["IM2P.sim"; "llama.cpp-gemmini"; "headers"].

Definition require (condition : bool) (message : string) : res unit := check condition (TraceError message).
Definition require_res (condition : res bool) (message : string) : res unit := require_m condition (TraceError message).

Definition integer (value : json) (name : string) (positive : bool) : res Z :=
  let message := name +:+ ": expected " +:+ (if positive then "positive" else "nonnegative") +:+ " uint64" in
  match value with
  | JInt v => require (((if positive then 1 else 0) <=? v) && (v <=? 2 ^ 64 - 1)) message ;;; Ok v
  | _ => Err (TraceError message)
  end.
Definition text (value : json) (name : string) : res string :=
  match value with
  | JStr s => require (negb (String.eqb s "")) (name +:+ ": nonempty string required") ;;; Ok s
  | _ => Err (TraceError (name +:+ ": nonempty string required"))
  end.

(** [fields(record, required, optional)]; the listed names of the message are
    joined as they are. *)
Definition without (l k : list string) : list string := List.filter (fun s => negb (str_in s k)) l.
Definition fields (r : record) (required optional : list string) : res unit :=
  require (subset_of String.eqb required (keys r))
    ("missing fields: " +:+ join ", " (sort_strs (without required (keys r)))) ;;;
  require (subset_of String.eqb (keys r) (required ++ optional))
    ("unknown fields: " +:+ join ", " (sort_strs (without (keys r) (required ++ optional)))).

(** [integer(r[key], key)] *)
Definition int_field (r : record) (key : string) (positive : bool) : res Z :=
  let* v := item r key in integer v key positive.
(** [r[key]] where the record has been checked to hold an integer there. *)
Definition int_item (r : record) (key : string) : res Z :=
  let* v := item r key in
  match v with JInt z => Ok z | _ => Err (TypeError (key +:+ ": not an integer")) end.
(** [r[key] == s[key]] *)
Definition same_item (r s : record) (key : string) : res bool :=
  let* a := item r key in let* b := item s key in Ok (jeq a b).
(** [r[a] == r[b]] *)
Definition items_equal (r : record) (a b : string) : res bool :=
  let* x := item r a in let* y := item r b in Ok (jeq x y).
(** [test(r[key])] for a test that does not raise. *)
Definition item_is (r : record) (key : string) (test : json → bool) : res bool :=
  let* v := item r key in Ok (test v).
Definition floordiv (a b : Z) : res Z := if b =? 0 then Err (ZeroDivisionError "integer division or modulo by zero") else Ok (a / b).
(** [r[a] <= limit // r['dim']] *)
Definition tile_fits (w : record) (key : string) (limit : Z) : res bool :=
  let* v := int_item w key in let* dim := int_item w "dim" in let* bound := floordiv limit dim in Ok (v <=? bound).
(** [w[a] >= scale * w[b]] *)
Definition at_least (w : record) (a : string) (scale : Z) (b : string) : res bool :=
  let* x := int_item w a in let* y := int_item w b in Ok (scale * y <=? x).

Definition work_geometry (w : record) : res unit :=
  iter_res (fun k => let* _ := int_field w k true in Ok tt) ["m"; "n"; "k"; "tile_i_count"; "tile_j_count"; "tile_k_count"] ;;;
  require_res (tile_fits w "tile_i_count" 65535 andM tile_fits w "tile_j_count" 65535 andM
               tile_fits w "tile_k_count" (2 ^ 32 - 1)) "tile factor exceeds hardware domain" ;;;
  require_res (items_equal w "row_count" "m" andM
               (let* b := int_item w "row_begin" in let* c := int_item w "row_count" in
                let* g := int_item w "geometry_m" in Ok (b + c <=? g)))
    "invalid accepted stripe/compact row range" ;;;
  require_res (at_least w "activation_stride_bytes" 1 "k" andM at_least w "weight_stride_bytes" 1 "n" andM
               at_least w "output_stride_bytes" 4 "n" andM
               (let* s := int_item w "output_stride_bytes" in Ok (s mod 4 =? 0)) andM
               at_least w "scale_stride_elements" 1 "n") "invalid descriptor strides".

Definition work_contract (w run : record) : res unit :=
  let* contract := items w ["block_size"; "vector_op"; "output_domain"; "production_geometry_version"] in
  require (jeq (JArr contract) (JArr [JInt 32; JInt 5; JInt 2; JInt 1])) "unsupported production HP1 descriptor contract" ;;;
  require_res (item_is w "numerical_datapath" (fun v => eq_str v "hp1_scu") andM item_is w "rmd_raw" is_false andM
               item_is w "host_integer_block_multiply" is_false) "raw/host-integer work is not production HP1 SCU" ;;;
  require_res (items_equal w "logical_work_id" "sequence")
    "logical work identity must match the deterministic sequence" ;;;
  let* provenance := item w "provenance" in
  (if eq_str provenance "residual" then
     require_res (item_is run "residual_enabled" is_true) "residual work in residual-disabled run" ;;;
     require_res (item_is w "scope" (fun v => eq_str v "residual_compact") andM
                  (let* k := int_item w "k" in Ok (k <=? 32)) andM
                  item_is w "original_block_id" (fun v => negb (is_null v)))
       "residual requires compact geometry and original block id"
   else
     require_res (Ok (eq_str provenance "dense_main") andM
                  item_is w "scope" (fun v => in_strs v ["full"; "stripe"]) andM
                  item_is w "original_block_id" is_null) "invalid dense provenance/scope") ;;;
  let* scope := item w "scope" in
  if eq_str scope "stripe" then
    require_res (item_is w "stripe_id" (fun v => negb (is_null v)) andM
                 item_is w "host_slot" (fun v => negb (is_null v))) "stripe id and host slot required"
  else
    require_res (item_is w "row_begin" (fun v => eq_int v 0) andM
                 items_equal w "geometry_m" "m")
      "full/compact geometry must describe exactly this work".

Definition validate_work (w run : record) (phase_id : json) : res unit :=
  fields w WORK OBSERVATIONS ;;;
  iter_res (fun k => let* _ := int_field w k false in Ok tt) WORK_NUMBERS ;;;
  iter_res (fun k => if is_null (pget w k) then Ok tt else let* _ := int_field w k false in Ok tt)
    (WORK_OPTIONALS ++ OBSERVATIONS) ;;;
  iter_res (fun k => let* v := item w k in let* _ := text v k in Ok tt) WORK_STRINGS ;;;
  require_res (item_is w "phase_id" (fun v => jeq v phase_id)) "work does not belong to current explicit phase" ;;;
  require_res (all_res (same_item w run) ["activation_bits"; "weight_bits"; "dim"]) "work/run profile mismatch" ;;;
  work_geometry w ;;;
  work_contract w run.

(** [_parent_record]: a parent error becomes a trace error. *)
Definition parent_record (parents : ParentValidator) (r : record) : res ParentValidator :=
  match OptraceParents.consume parents r with
  | Err (ParentError message) => Err (TraceError message)
  | other => other
  end.

(** ** [validate_records] *)

(** The key of a dispatch counter: phase, layer, provenance. *)
Abbreviation CountKey := (Z * string * string)%type.

(** A [Counter]: a missing key counts zero, in [+=] and in [==]. *)
Abbreviation Counter := (gmap CountKey Z).
Definition count_of (c : Counter) (k : CountKey) : Z := default 0 (c !! k).
Definition increment (c : Counter) (k : CountKey) : Counter := <[k := count_of c k + 1]> c.
Definition counter_eq (a b : Counter) : bool :=
  forallb (fun kv => count_of a kv.1 =? count_of b kv.1) (map_to_list a ++ map_to_list b).

(** [(r['phase_id'], r['layer'], r['provenance'])] *)
Definition str_item (r : record) (key : string) : res string :=
  let* v := item r key in
  match v with JStr s => Ok s | _ => Err (TypeError (key +:+ ": not a string")) end.
Definition count_key (r : record) : res CountKey :=
  let* phase := int_item r "phase_id" in
  let* layer := str_item r "layer" in
  let* provenance := str_item r "provenance" in
  Ok (phase, layer, provenance).

Definition validate_run (run : record) : res unit :=
  require (negb (eq_int (pget run "version") 1))
    "legacy trace v1 lacks hardware binding and parent declarations; recollect with a current trace v2 producer" ;;;
  fields run RUN [] ;;;
  require_res (item_is run "kind" (fun v => eq_str v "run") andM item_is run "schema" (fun v => eq_str v SCHEMA) andM
               item_is run "version" is_int andM item_is run "version" (fun v => eq_int v VERSION))
    "unsupported trace schema/version" ;;;
  iter_res (fun k => let* v := item run k in let* _ := text v k in Ok tt)
    ["run_id"; "model"; "profile"; "backend"; "mode"] ;;;
  iter_res (fun k => let* _ := int_field run k false in Ok tt)
    ["activation_bits"; "weight_bits"; "dim"; "prompt_tokens"; "requested_generated_tokens"] ;;;
  let* bits := int_item run "activation_bits" in
  let* dim := int_item run "dim" in
  require_res (Ok (z_in bits [4; 8]) andM item_is run "weight_bits" (fun v => eq_int v bits) andM
               Ok (z_in dim [16; 32; 64]) andM
               item_is run "profile" (fun v => eq_str v (Resolve.profile_name bits bits dim)))
    "invalid run profile" ;;;
  require_res (item_is run "backend" (fun v => eq_str v "IM2P_SIM/GEMMINI_HP1")) "unsupported production backend" ;;;
  require_res (item_is run "residual_enabled" is_bool) "residual_enabled must be boolean" ;;;
  iter_res (fun key =>
    require_res (item_is run key (fun v => match v with JStr s => is_hex 64 s | _ => false end))
      ("missing/invalid " +:+ key)) ["hardware_contract_sha256"; "runtime_manifest_sha256"] ;;;
  iter_res (fun '(field, length) =>
    let* value := item run field in
    require (match value with JObj values => keys_are values SOURCE_NAMES | _ => false end) "missing source identities" ;;;
    require (match value with
             | JObj values => forallb (fun kv => match kv.2 with JStr s => is_hex length s | _ => false end) values
             | _ => false end) ("invalid " +:+ field))
    [("source_commits", 40%nat); ("source_worktree_sha256", 64%nat)].

Record Progress := {
  phases : list record;
  works : list record;
  observed : Counter;
  validator : ParentValidator;
}.
Definition no_progress : Progress := {| phases := []; works := []; observed := ∅; validator := new_validator |}.

Definition phase_record (p : Progress) (r : record) : res Progress :=
  fields r PHASE [] ;;;
  let* _ := int_field r "phase_id" false in
  let* _ := int_field r "input_tokens" false in
  require_res (item_is r "phase_id" (fun v => eq_int v (Z.of_nat (length (phases p))))) "nonmonotonic phase identity" ;;;
  (match phases p with
   | [] => require_res (item_is r "phase_kind" (fun v => eq_str v "prefill") andM item_is r "decode_index" is_null)
             "first phase must be prefill"
   | _ =>
       let* _ := int_field r "decode_index" false in
       require_res (item_is r "phase_kind" (fun v => eq_str v "decode") andM
                    item_is r "decode_index" (fun v => eq_int v (Z.of_nat (length (phases p)) - 1)))
         "decode indices must start at zero"
   end) ;;;
  Ok {| phases := phases p ++ [r]; works := works p; observed := observed p; validator := validator p |}.

Definition work_record (run : record) (p : Progress) (r : record) : res Progress :=
  match last (phases p) with
  | None => Err (TraceError "work before phase")
  | Some phase =>
      let* phase_id := item phase "phase_id" in
      validate_work r run phase_id ;;;
      let* key := count_key r in
      Ok {| phases := phases p; works := works p ++ [r]; observed := increment (observed p) key;
            validator := validator p |}
  end.

(** One entry of [independent_counts]. *)
Definition declared_count (counts : Counter) (value : json) : res Counter :=
  match value with
  | JObj c =>
      fields c ["phase_id"; "layer"; "provenance"; "count"] [] ;;;
      let* v := item c "phase_id" in let* _ := integer v "counter phase_id" false in
      let* v := item c "count" in let* count := integer v "counter count" true in
      let* v := item c "layer" in let* _ := text v "counter layer" in
      let* v := item c "provenance" in let* _ := text v "counter provenance" in
      let* key := count_key c in
      require (match counts !! key with None => true | Some _ => false end) "duplicate independent counter key" ;;;
      Ok (<[key := count]> counts)
  | _ => Err (TraceError "invalid independent count record")
  end.

Definition end_record (total sequence : Z) (p : Progress) (r : record) : res Progress :=
  require (sequence =? total - 1) "record after run end" ;;;
  fields r END [] ;;;
  require_res (item_is r "status" (fun v => eq_str v "success")) "production run did not complete successfully" ;;;
  require_res (item_is r "reason" is_str) "run-end reason must be a string" ;;;
  let* _ := int_field r "work_count" false in
  require_res (item_is r "work_count" (fun v => eq_int v (Z.of_nat (length (works p))))) "run-end work count mismatch" ;;;
  let* value := item r "independent_counts" in
  match value with
  | JArr counts =>
      let* declared := fold_res declared_count ∅ counts in
      require (counter_eq declared (observed p)) "trace vs independent accepted-dispatch count mismatch" ;;;
      Ok p
  | _ => Err (TraceError "independent production counts required")
  end.

Definition with_validator (p : Progress) (v : ParentValidator) : Progress :=
  {| phases := phases p; works := works p; observed := observed p; validator := v |}.

(** The dispatch on the record's kind. *)
Definition kind_record (run : record) (total sequence : Z) (p : Progress) (r : record) : res Progress :=
  if sequence =? 0 then Ok p
  else
    let kind := pget r "kind" in
    if eq_str kind "phase" then phase_record p r
    else if eq_str kind "npu_work" then work_record run p r
    else if in_strs kind ["parent_begin"; "parent_end"] then Ok p
    else if eq_str kind "run_end" then end_record total sequence p r
    else Err (TraceError "unsupported record kind"). (* the message also prints the kind *)

(** One pass of the loop of [validate_records]. *)
Definition validate_step (run : record) (total : Z) (st : Z * Progress) (raw : json) : res (Z * Progress) :=
  let '(sequence, p) := st in
  match raw with
  | JObj r =>
      require (match pget r "sequence" with JInt z => z =? sequence | _ => false end)
        "duplicate/gapped/nonmonotonic sequence" ;;;
      require_res (let* id := item run "run_id" in Ok (jeq (pget r "run_id") id)) "mixed run identity" ;;;
      let* p := kind_record run total sequence p r in
      let* v := parent_record (validator p) r in
      Ok (sequence + 1, with_validator p v)
  | _ => Err (TraceError "JSONL record must be an object")
  end.

Record Trace := {
  run : record;
  trace_phases : list record;
  trace_works : list record;
  trace_end : record;
}.

Definition validate_records (records : list json) : res Trace :=
  require (Nat.leb 3 (length records)) "incomplete trace" ;;;
  match records, last records with
  | JObj run :: _, Some final =>
      validate_run run ;;;
      let* st := fold_res (validate_step run (Z.of_nat (length records))) (0, no_progress) records in
      match final with
      | JObj stop =>
          require_res (item_is stop "kind" (fun v => eq_str v "run_end") andM
                       Ok (negb (Nat.eqb (length (phases st.2)) 0))) "missing run end or explicit phases" ;;;
          Ok {| run := run; trace_phases := phases st.2; trace_works := works st.2; trace_end := stop |}
      | _ => Err (TypeError "list indices must be integers or slices")
      end
  | _, _ => Err (TraceError "JSONL run record must be an object")
  end.

(** ** [read_trace] *)

Definition no_duplicate_keys (pairs : record) : res record :=
  fold_res (fun result kv =>
    require (negb (has result kv.1)) ("duplicate JSON key: " +:+ kv.1) ;;;
    Ok (sset kv.1 kv.2 result)) [] pairs.

(** A line of the file: blank, not JSON, or the syntax tree of a document. *)
Inductive line : Type :=
  | Blank
  | Malformed
  | Parsed (raw : json).

Definition read_line (number : Z) (l : line) : res json :=
  match l with
  | Blank => Err (TraceError ("blank record at line " +:+ dec number))
  | Malformed => Err (TraceError ("line " +:+ dec number +:+ ": malformed JSON"))
  | Parsed raw =>
      match decode no_duplicate_keys raw with
      | Err (TraceError detail) => Err (TraceError ("line " +:+ dec number +:+ ": " +:+ detail))
      | other => other
      end
  end.

Definition read_trace (lines : list line) : res Trace :=
  let* read := fold_res (fun '(number, records) l =>
    let* r := read_line number l in Ok (number + 1, records ++ [r])) (1, []) lines in
  validate_records read.2.

(** ** [optrace.py]: isolated accounting *)

Definition check_sources (trace : Trace) (expected : record) : res unit :=
  iter_res (fun field =>
    require_res (let* v := item (run trace) field in Ok (jeq (pget expected field) v))
      ("incompatible " +:+ field +:+ "; use the actual producer build manifest"))
    ["source_commits"; "source_worktree_sha256"; "profile"].

(** The request of a work: the names of the model and those of the trace. *)
Definition request_items : list (string * string) :=
  [("m", "m"); ("n", "n"); ("k", "k"); ("tile_i", "tile_i_count"); ("tile_j", "tile_j_count");
   ("tile_k", "tile_k_count"); ("activation_stride_bytes", "activation_stride_bytes");
   ("weight_stride_bytes", "weight_stride_bytes"); ("output_stride_bytes", "output_stride_bytes");
   ("scale_stride_elements", "scale_stride_elements")].

Definition model_document (trace : Trace) (work : record) : res record :=
  let* profile := item (run trace) "profile" in
  let* values := items work request_items.*2 in
  let* identity := item work "logical_work_id" in
  Ok [("profile", profile); ("limits", JObj [("max_cycles", JInt REPLAY_MAX_CYCLES)]);
      ("request", JObj (zip request_items.*1 values ++
        [("accepted_cycle", JInt 1); ("logical_work_id", identity);
         ("submission", JStr "planner-blocks"); ("record_events", JInt 0)]))].

Section Accounting.
Context (estimate : record → res record).
Context (library_sha256 : string).

Record Totals := {
  per_layer : list (string * Z);
  per_phase : list (Z * Z);
  results : list record;
}.
Definition no_totals : Totals := {| per_layer := []; per_phase := []; results := [] |}.

(** The cycle library's answer for one work. *)
Definition answer (trace : Trace) (w : record) : res json :=
  let* document := model_document trace w in
  let* reply := estimate document in
  require (eq_str (pget reply "status") "PASS") "first model rejection" ;;;
  item reply "result".

Definition result_row (w result : record) : res record :=
  let* copied := items w ["sequence"; "layer"; "phase_id"; "parent_invocation_id"; "provenance"; "scope"] in
  let* shape := items w ["m"; "n"; "k"] in
  let* tile := items w ["tile_i_count"; "tile_j_count"; "tile_k_count"] in
  let* loops := item result "loop_count" in
  Ok (zip ["sequence"; "layer"; "phase_id"; "parent_invocation_id"; "provenance"; "scope"] copied ++
      [("shape", JArr shape); ("tile_counts", JArr tile); ("model_status", JStr "PASS");
       ("model_result", JObj result); ("submission_count", loops)]).

(** [d[key] += cycles] on a [defaultdict(int)]. *)
Definition add_to {K} (eqb : K → K → bool) (key : K) (cycles : Z) (l : list (K * Z)) : list (K * Z) :=
  aset eqb key (default 0 (aget eqb key l) + cycles) l.

(** One pass of the loop of [_estimate_trace]. *)
Definition estimate_work (trace : Trace) (t : Totals) (w : record) : res Totals :=
  let* value := answer trace w in
  match value with
  | JObj result =>
      let* total := item result "total_cycles" in
      let* cycles := integer total "model total_cycles" false in
      let* layer := str_item w "layer" in
      let* phase := int_item w "phase_id" in
      let* row := result_row w result in
      Ok {| per_layer := add_to String.eqb layer cycles (per_layer t);
            per_phase := add_to Z.eqb phase cycles (per_phase t); results := results t ++ [row] |}
  | _ => Err (TypeError "model result is not an object")
  end.

Definition phase_cycles (t : Totals) (phase : Z) : Z := default 0 (zget phase (per_phase t)).

(** [{str(p[key]): per_phase[p['phase_id']] for p in chosen}] *)
Definition phase_sums (t : Totals) (key : string) (chosen : list record) : res record :=
  let* l := map_res (fun p =>
    let* name := int_item p key in let* phase := int_item p "phase_id" in
    Ok (dec name, JInt (phase_cycles t phase))) chosen in
  Ok (merge_records [] l).

Definition is_decode (p : record) : bool := eq_str (pget p "phase_kind") "decode".

Definition provenance_count (trace : Trace) (provenance : string) : Z :=
  Z.of_nat (length (List.filter (fun w => eq_str (pget w "provenance") provenance) (trace_works trace))).

Definition estimate_trace (trace : Trace) : res record :=
  let* t := fold_res (estimate_work trace) no_totals (trace_works trace) in
  let* copied := items (run trace) ["profile"; "run_id"; "source_commits"; "source_worktree_sha256"] in
  let* decode := phase_sums t "decode_index" (List.filter is_decode (trace_phases trace)) in
  let* phases := phase_sums t "phase_id" (trace_phases trace) in
  Ok ([("schema", JStr "im2p-production-cycle-replay"); ("version", JInt 2); ("status", JStr "ESTIMATED");
       ("accounting_kind", JStr "isolated-work-accounting"); ("trace_schema", JStr SCHEMA);
       ("trace_version", JInt VERSION)] ++
      zip ["profile"; "run_id"; "source_commits"; "source_worktree_sha256"] copied ++
      [("cycle_library_sha256", JStr library_sha256);
       ("timing_contract", JStr "rtl-regression reference memory, independently drained accepted_cycle=1 per work");
       ("software_limits", JObj [("max_cycles_per_work", JInt REPLAY_MAX_CYCLES)]);
       ("work_count", JInt (Z.of_nat (length (results t))));
       ("dense_work_count", JInt (provenance_count trace "dense_main"));
       ("residual_work_count", JInt (provenance_count trace "residual"));
       ("phase_count", JInt (Z.of_nat (length (trace_phases trace))));
       ("works", JArr (map JObj (results t)));
       ("isolated_cycle_sum", JInt (sum (per_phase t).*2));
       ("per_layer_cycle_sums", JObj (map (fun e => (e.1, JInt e.2)) (sort_layers (per_layer t))));
       ("prefill_cycle_sum", JInt (phase_cycles t 0));
       ("per_decode_token_cycle_sums", JObj decode);
       ("per_phase_cycle_sums", JObj phases);
       ("trace_accepted_work_equality", JStr "PASS"); ("measured_answer_injection", JBool false);
       ("not_modeled", JArr (map JStr ["aggregate overlapped pipeline latency"; "CPU/NPU overlap"; "system timeline";
          "wall-clock latency"; "frequency conversion"]))]).

Definition replay_fixture (trace : Trace) : res record :=
  let* result := estimate_trace trace in
  Ok (merge_records result [("status", JStr "FIXTURE_ONLY");
        ("validation_scope", JStr "UNCERTIFIED_SYNTHETIC_FIXTURE"); ("source_compatibility", JStr "NOT_CERTIFIED")]).
End Accounting.

(** ** The producer binding *)

(** The parts of a path below its root, and [PurePosixPath.is_absolute]. *)
Fixpoint split_path (s : string) : list string :=
  match s with
  | EmptyString => [""]
  | String c s =>
      match split_path s with
      | part :: parts => if Ascii.eqb c "/" then "" :: part :: parts else String c part :: parts
      | [] => []
      end
  end.
Definition path_parts (s : string) : list string :=
  List.filter (fun part => negb (str_in part [""; "."])) (split_path s).
Definition is_absolute (s : string) : bool := match s with String c _ => Ascii.eqb c "/" | _ => false end.

(** One entry of the runtime's artifacts: its file name. *)
Definition archive_name (value : json) : res string :=
  let* artifact := CertificateContract.object_value value "runtime archive" in
  let* name := match pget artifact "path" with
    | JStr s => require (negb (String.eqb s "")) "runtime archive path must be a nonempty string" ;;; Ok s
    | _ => Err (TraceError "runtime archive path must be a nonempty string") end in
  require (negb (is_absolute name) && negb (str_in ".." (path_parts name))) "runtime archive path must be relative" ;;;
  let* _ := digest_value (pget artifact "sha256") "runtime archive" in
  require_res (let* size := CertificateContract.number (pget artifact "size") "runtime archive size" in Ok (0 <? size))
    "empty runtime archive" ;;;
  Ok (default "" (last (path_parts name))).

Definition producer_binding `{Host} (trace : Trace) (sources cert : record) : res unit :=
  check_sources trace sources ;;;
  let* producer := CertificateContract.object_value (pget sources "hardware_contract") "producer hardware contract" in
  let* contracts := CertificateContract.object_value (pget cert "hardware_contracts") "certificate hardware contracts" in
  let* profile := str_item (run trace) "profile" in
  let* model := CertificateContract.object_value (pget contracts profile) "model hardware contract" in
  Contract.compatible producer model ;;;
  require_res (let* a := item (run trace) "hardware_contract_sha256" in let* b := item producer "sha256" in Ok (jeq a b))
    "trace/producer hardware contract mismatch" ;;;
  let* runtime := CertificateContract.object_value (pget sources "runtime_artifact") "producer runtime artifact" in
  require_res (let* b := item producer "sha256" in Ok (jeq (pget runtime "hardware_contract_sha256") b))
    "runtime/hardware contract mismatch" ;;;
  require_res (let* a := digest_value (pget runtime "manifest_sha256") "runtime manifest" in
               let* b := item (run trace) "runtime_manifest_sha256" in Ok (eq_str b a))
    "trace/selected runtime manifest mismatch" ;;;
  let* _ := digest_value (pget runtime "fingerprint") "runtime fingerprint" in
  require (in_strs (pget runtime "execution_kind") ["FRESH_BUILD"; "VERIFIED_REUSE"]) "runtime build provenance missing" ;;;
  let* artifacts := array_value (pget runtime "artifacts") "runtime artifacts" in
  let* names := map_res archive_name artifacts in
  require (bool_decide (sort_strs names = ["libim2p_gemmini_frontend.a"; "libim2p_sim.a"]))
    "runtime archive closure mismatch".
