(* ===== verification/OptraceTheorems.v ===== *)
(** * What an accepted op-trace guarantees

    Theorems about [Optrace.validate_records] and [Optrace.estimate_trace]:
    the works of every declared parent cover its rows, the independent counts
    are the numbers of works, and the isolated accounting balances over the
    layers and over the phases. *)
From S2P Require Import Prelude Records Profiles CertificateContract OptraceParents Optrace.
Set Default Goal Selector "!".

(** ** The loop of [validate_records] *)

(** The counter key of a work. *)
Definition work_key (w : record) : option CountKey :=
  match pget w "phase_id", pget w "layer", pget w "provenance" with
  | JInt p, JStr l, JStr v => Some (p, l, v)
  | _, _, _ => None
  end.
Definition has_key (k : CountKey) (w : record) : bool := bool_decide (work_key w = Some k).
(** The number of works with a key. *)
Definition occurrences (k : CountKey) (ws : list record) : Z := Z.of_nat (length (List.filter (has_key k) ws)).

(** Phase [i] of a trace: prefill first, then decode 0, 1, .. *)
Record phase_ok (i : nat) (r : record) : Prop := {
  phase_ok_id : pget r "phase_id" = JInt (Z.of_nat i);
  phase_ok_prefill : i = 0%nat → pget r "phase_kind" = JStr "prefill" ∧ pget r "decode_index" = JNull;
  phase_ok_decode : (0 < i)%nat → pget r "phase_kind" = JStr "decode" ∧ pget r "decode_index" = JInt (Z.of_nat i - 1);
}.

(** A work lies in a phase and names its parent. *)
Definition work_placed (phases : nat) (w : record) : Prop :=
  (∃ z, pget w "phase_id" = JInt z ∧ 0 <= z < Z.of_nat phases) ∧ (∃ p, pget w "parent_invocation_id" = JInt p) ∧
  (∃ l, pget w "layer" = JStr l).

Lemma item_is_Ok r key test : item_is r key test = Ok true ↔ ∃ v, sget key r = Some v ∧ test v = true.
Proof.
  unfold item_is. rewrite bind_Ok. setoid_rewrite item_Ok. split; intros (v & ? & E); exists v.
  - by apply Ok_eq in E.
  - by rewrite E.
Qed.

Lemma item_is_pget r key test : item_is r key test = Ok true → test (pget r key) = true.
Proof. intros (v & E & ?)%item_is_Ok. unfold pget. by rewrite E. Qed.

Lemma integer_positive_Ok v name b z :
  integer v name b = Ok z → v = JInt z ∧ (if b then 1 else 0) <= z.
Proof.
  destruct v as [| |x| | | |]; cbn; try done.
  intros [H <-%Ok_eq]%check_bind. apply andb_prop in H as [?%Z.leb_le _]. done.
Qed.

Lemma int_field_Ok r key b z : int_field r key b = Ok z → pget r key = JInt z ∧ (if b then 1 else 0) <= z.
Proof. unfold int_field. intros (v & <-%pget_item & H)%bind_Ok. by apply integer_positive_Ok in H. Qed.

Lemma int_item_Ok r key z : int_item r key = Ok z → pget r key = JInt z.
Proof. unfold int_item. intros (v & <-%pget_item & H)%bind_Ok. destruct (pget r key); try done. by apply Ok_eq in H as ->. Qed.
Lemma str_item_Ok r key z : str_item r key = Ok z → pget r key = JStr z.
Proof. unfold str_item. intros (v & <-%pget_item & H)%bind_Ok. destruct (pget r key); try done. by apply Ok_eq in H as ->. Qed.

Lemma eq_int_of_int z v : eq_int (JInt z) v = true → z = v.
Proof. unfold eq_int. cbn. apply Z.eqb_eq. Qed.

Lemma count_key_Ok r k : count_key r = Ok k → work_key r = Some k.
Proof.
  unfold count_key, work_key.
  intros (p & ->%int_item_Ok & (l & ->%str_item_Ok & (v & ->%str_item_Ok & <-%Ok_eq)%bind_Ok)%bind_Ok)%bind_Ok. done.
Qed.

Lemma occurrences_snoc k ws w : occurrences k (ws ++ [w]) = occurrences k ws + (if has_key k w then 1 else 0).
Proof. unfold occurrences. rewrite filter_snoc, length_app. destruct (has_key k w); cbn; lia. Qed.

Lemma count_of_increment c k k' : count_of (increment c k) k' = count_of c k' + (if bool_decide (k = k') then 1 else 0).
Proof.
  unfold increment, count_of. case_bool_decide as E.
  - subst. rewrite lookup_insert_eq. done.
  - rewrite lookup_insert_ne by done. lia.
Qed.

Lemma counter_eq_spec a b : counter_eq a b = true ↔ ∀ k, count_of a k = count_of b k.
Proof.
  unfold counter_eq. rewrite forallb_forall. split.
  - intros H k. destruct (a !! k) as [x|] eqn:Ea; [|destruct (b !! k) as [x|] eqn:Eb].
    + apply Z.eqb_eq, (H (k, x)). rewrite <-list_elem_of_In, elem_of_app. left. by apply elem_of_map_to_list.
    + apply Z.eqb_eq, (H (k, x)). rewrite <-list_elem_of_In, elem_of_app. right. by apply elem_of_map_to_list.
    + unfold count_of. by rewrite Ea, Eb.
  - intros H kv _. apply Z.eqb_eq, H.
Qed.

Lemma phase_record_Ok p r p' :
  phase_record p r = Ok p' →
  phase_ok (length (phases p)) r ∧ phases p' = phases p ++ [r] ∧ works p' = works p ∧ observed p' = observed p ∧
  validator p' = validator p.
Proof.
  unfold phase_record. intros H. apply bind_Ok in H as (? & _ & H).
  apply bind_Ok in H as (id & [Hid _]%int_field_Ok & H). apply bind_Ok in H as (? & _ & H).
  apply bind_Ok in H as (? & Hn%require_m_Ok%item_is_pget & H).
  apply bind_Ok in H as (? & Hkind & <-%Ok_eq). cbn. split; [|done].
  rewrite Hid in Hn. apply eq_int_of_int in Hn as ->.
  destruct (phases p) as [|q ps] eqn:E; cbn [length].
  - apply require_m_Ok, and_then_Ok_true in Hkind as [H1%item_is_pget H2%item_is_pget].
    apply eq_str_spec in H1. apply is_null_spec in H2. split; [done|done|lia].
  - apply bind_Ok in Hkind as (d & [Hd _]%int_field_Ok & Hkind).
    apply require_m_Ok, and_then_Ok_true in Hkind as [H1%item_is_pget H2%item_is_pget].
    apply eq_str_spec in H1. rewrite Hd in H2. apply eq_int_of_int in H2.
    split; [done|lia|]. intros _. split; [done|]. rewrite Hd. f_equal. cbn in *. lia.
Qed.

Lemma validate_work_Ok w run phase_id :
  validate_work w run phase_id = Ok tt →
  jeq (pget w "phase_id") phase_id = true ∧ (∃ z, pget w "phase_id" = JInt z) ∧
  (∃ z, pget w "parent_invocation_id" = JInt z) ∧ (∃ l, pget w "layer" = JStr l).
Proof.
  unfold validate_work. intros H. apply bind_Ok in H as (? & _ & H).
  apply iter_bind in H as [Hnum H]. apply iter_bind in H as [_ H]. apply iter_bind in H as [Hstr H].
  apply bind_Ok in H as (? & Hp%require_m_Ok%item_is_pget & _).
  rewrite Forall_forall in Hnum, Hstr. split; [done|].
  assert (Hint : ∀ k, k ∈ WORK_NUMBERS → ∃ z, pget w k = JInt z).
  { intros k Hk. specialize (Hnum k Hk). apply bind_Ok in Hnum as (z & [Hz _]%int_field_Ok & _). eauto. }
  split_and!; [apply Hint; unfold WORK_NUMBERS; set_solver..|].
  assert (Hl : "layer" ∈ WORK_STRINGS) by (unfold WORK_STRINGS; set_solver).
  specialize (Hstr _ Hl). apply bind_Ok in Hstr as (v & <-%pget_item & (l & Hv & _)%bind_Ok).
  destruct (pget w "layer"); try done. eauto.
Qed.

Lemma work_record_Ok run p r p' :
  (∀ i q, phases p !! i = Some q → phase_ok i q) →
  work_record run p r = Ok p' →
  ∃ k, work_key r = Some k ∧ work_placed (length (phases p)) r ∧
    phases p' = phases p ∧ works p' = works p ++ [r] ∧ observed p' = increment (observed p) k ∧
    validator p' = validator p.
Proof.
  intros Hph. unfold work_record. destruct (last (phases p)) as [q|] eqn:El; [|done].
  intros (id & <-%pget_item & H)%bind_Ok. apply bind_Ok in H as ([] & (Hj & [z Hz] & Hp & Hl)%validate_work_Ok & H).
  apply bind_Ok in H as (k & Hk%count_key_Ok & <-%Ok_eq). exists k. split; [done|]. split; [|done].
  split; [|done]. rewrite last_lookup in El. pose proof (lookup_lt_Some _ _ _ El). destruct (Hph _ _ El) as [Hq _ _].
  rewrite Hz, Hq in Hj. cbn in Hj. apply Z.eqb_eq in Hj. exists z. split; [done|lia].
Qed.

Lemma declared_count_Ok counts value counts' :
  declared_count counts value = Ok counts' →
  ∃ c k n, value = JObj c ∧ count_key c = Ok k ∧ pget c "count" = JInt n ∧ 0 < n ∧ counts !! k = None ∧
    counts' = <[k := n]> counts.
Proof.
  destruct value as [| | | | | |c]; cbn; try done. intros H.
  apply bind_Ok in H as (? & _ & H). do 2 apply bind_Ok in H as (? & _ & H).
  apply bind_Ok in H as (v & Hv%pget_item & H). apply bind_Ok in H as (n & [-> Hn]%integer_positive_Ok & H).
  do 4 apply bind_Ok in H as (? & _ & H). apply bind_Ok in H as (k & Hk & H).
  apply check_bind in H as [Hnew <-%Ok_eq]. destruct (counts !! k) eqn:E; [done|].
  exists c, k, n. split_and!; try done. lia.
Qed.

(** An entry of the independent counts declares [n] works of key [k]. *)
Definition declares_count (value : json) (k : CountKey) (n : Z) : Prop :=
  ∃ c, value = JObj c ∧ count_key c = Ok k ∧ pget c "count" = JInt n ∧ 0 < n.

Lemma declared_counts_Ok l counts :
  fold_res declared_count ∅ l = Ok counts → ∀ k n, counts !! k = Some n ↔ ∃ value, value ∈ l ∧ declares_count value k n.
Proof.
  apply (fold_res_hist (fun l counts => ∀ k n, counts !! k = Some n ↔ ∃ value, value ∈ l ∧ declares_count value k n)).
  - intros k n. rewrite lookup_empty. split; [done|]. intros (v & Hv & _). inversion Hv.
  - intros pre v post c1 c2 _ IH (c & k0 & n0 & -> & Hk & Hn & Hpos & Hnew & ->)%declared_count_Ok k n.
    setoid_rewrite elem_of_app. setoid_rewrite list_elem_of_singleton.
    destruct (decide (k = k0)) as [->|Hne].
    + rewrite lookup_insert_eq. split.
      * intros [= <-]. exists (JObj c). split; [by right|]. by exists c.
      * intros (v & [Hv| ->] & Hd).
        -- assert (c1 !! k0 = Some n) by (apply IH; eauto). congruence.
        -- destruct Hd as (c' & [= <-] & ? & ? & ?). congruence.
    + rewrite lookup_insert_ne, IH by done. split.
      * intros (v & ? & ?). eauto.
      * intros (v & [Hv| ->] & Hd); [eauto|]. destruct Hd as (c' & [= <-] & ? & _). congruence.
Qed.

Lemma end_record_Ok total sequence p r p' :
  end_record total sequence p r = Ok p' →
  p' = p ∧ ∃ l, pget r "independent_counts" = JArr l ∧
    (∀ k n, (∃ value, value ∈ l ∧ declares_count value k n) ↔ 0 < n ∧ count_of (observed p) k = n).
Proof.
  unfold end_record. intros H. apply check_bind in H as [_ H]. do 4 apply bind_Ok in H as (? & _ & H).
  apply bind_Ok in H as (? & _ & H). apply bind_Ok in H as (v & <-%pget_item & H).
  destruct (pget r "independent_counts") as [| | | | |l|] eqn:El; try done.
  apply bind_Ok in H as (counts & Hc & H). apply check_bind in H as [Heq <-%Ok_eq]. split; [done|].
  exists l. split; [done|]. rewrite counter_eq_spec in Heq. intros k n. rewrite <-Heq.
  rewrite <-(declared_counts_Ok _ _ Hc). unfold count_of. split.
  - intros Hk. rewrite Hk. split; [|done].
    apply (declared_counts_Ok _ _ Hc) in Hk as (? & _ & (? & _ & _ & _ & ?)). done.
  - intros [Hpos Hk]. destruct (counts !! k) as [y|]; cbn in Hk; [by subst|lia].
Qed.

(** *** The invariant over the records consumed so far *)

Record progress_inv (pre : list json) (st : Z * Progress) : Prop := {
  pi_sequence : st.1 = Z.of_nat (length pre);
  pi_records : ∃ rs, pre = JObj <$> rs ∧ fold_res consume new_validator rs = Ok (validator st.2) ∧
    works st.2 = List.filter (is_kind "npu_work") rs;
  pi_phases : ∀ i r, phases st.2 !! i = Some r → phase_ok i r;
  pi_works : Forall (work_placed (length (phases st.2))) (works st.2);
  pi_counts : ∀ k, count_of (observed st.2) k = occurrences k (works st.2);
}.

Lemma parent_record_Ok v r v' : parent_record v r = Ok v' → consume v r = Ok v'.
Proof. unfold parent_record. destruct (consume v r) as [|[]]; try done. Qed.

Lemma is_kind_other r s t : pget r "kind" = JStr s → s ≠ t → is_kind t r = false.
Proof. unfold is_kind. intros ->. intros ?. unfold eq_str. cbn. by apply String.eqb_neq. Qed.

Lemma work_placed_mono n m w : (n ≤ m)%nat → work_placed n w → work_placed m w.
Proof. intros ? ((z & ? & ?) & ? & ?). split; [|done]. exists z. split; [done|lia]. Qed.

(** What one record does to the phases, the works and the counter. *)
Lemma kind_record_Ok run total sequence p r p' :
  (sequence = 0 → is_kind "npu_work" r = false) →
  (∀ i q, phases p !! i = Some q → phase_ok i q) → Forall (work_placed (length (phases p))) (works p) →
  (∀ k, count_of (observed p) k = occurrences k (works p)) →
  kind_record run total sequence p r = Ok p' →
  works p' = works p ++ (if is_kind "npu_work" r then [r] else []) ∧
  (∀ i q, phases p' !! i = Some q → phase_ok i q) ∧ Forall (work_placed (length (phases p'))) (works p') ∧
  (∀ k, count_of (observed p') k = occurrences k (works p')) ∧ validator p' = validator p.
Proof.
  intros Hfirst Hph Hw Hc. unfold kind_record. destruct (Z.eqb_spec sequence 0) as [E|E].
  { intros <-%Ok_eq. rewrite Hfirst, app_nil_r by done. done. }
  destruct (eq_str (pget r "kind") "phase") eqn:E1.
  { apply eq_str_spec in E1. intros (Hok & -> & -> & -> & ->)%phase_record_Ok.
    rewrite (is_kind_other _ _ _ E1), app_nil_r by done. split_and!; try done.
    - intros i q [H|[Hi Hq]]%lookup_app_Some; [by apply Hph|].
      apply list_lookup_singleton_Some in Hq as [? <-]. by replace i with (length (phases p)) by lia.
    - eapply Forall_impl; [exact Hw|]. intros w. apply work_placed_mono. rewrite length_app. lia. }
  destruct (eq_str (pget r "kind") "npu_work") eqn:E2.
  { intros (k & Hk & Hp & -> & -> & -> & ->)%work_record_Ok; [|done].
    unfold is_kind. rewrite E2. split_and!; try done.
    - apply Forall_app. split; [done|]. by apply Forall_singleton.
    - intros k'. rewrite count_of_increment, occurrences_snoc, Hc. unfold has_key. rewrite Hk.
      f_equal. case_bool_decide as X; case_bool_decide as Y; try done; congruence. }
  destruct (in_strs _ _) eqn:E3.
  { intros <-%Ok_eq. unfold is_kind. rewrite E2, app_nil_r. done. }
  destruct (eq_str (pget r "kind") "run_end") eqn:E4; [|done].
  intros [-> _]%end_record_Ok. unfold is_kind. rewrite E2, app_nil_r. done.
Qed.

Lemma progress_inv_step run total pre raw st st' :
  (pre = [] → ∀ r, raw = JObj r → is_kind "npu_work" r = false) →
  progress_inv pre st → validate_step run total st raw = Ok st' → progress_inv (pre ++ [raw]) st'.
Proof.
  intros Hfirst [Hseq (rs & Hpre & Hfold & Hworks) Hph Hw Hc]. destruct st as [sequence p]. cbn in *.
  unfold validate_step. destruct raw as [| | | | | |r]; try done. intros H.
  apply check_bind in H as [_ H]. apply bind_Ok in H as (? & _ & H).
  apply bind_Ok in H as (p' & Hk & H). apply bind_Ok in H as (v & Hv%parent_record_Ok & <-%Ok_eq).
  apply kind_record_Ok in Hk as (Hworks' & Hph' & Hw' & Hc' & Hval); try done.
  2:{ intros ->. apply (Hfirst (nil_length_inv _ (eq_sym (Nat2Z.inj 0 _ Hseq))) r eq_refl). }
  split; cbn; try done.
  - rewrite length_app. cbn. lia.
  - exists (rs ++ [r]). split_and!.
    + by rewrite Hpre, fmap_app.
    + rewrite fold_res_app, Hfold. cbn. rewrite <-Hval, Hv. done.
    + by rewrite Hworks', Hworks, filter_snoc.
Qed.

Lemma validate_run_kind run : validate_run run = Ok tt → pget run "kind" = JStr "run".
Proof.
  unfold validate_run. intros H. apply check_bind in H as [_ H]. apply bind_Ok in H as (? & _ & H).
  apply bind_Ok in H as (? & Hk%require_m_Ok & _). apply and_then_Ok_true in Hk as [Hk%item_is_pget _].
  by apply eq_str_spec in Hk.
Qed.

Lemma progress_inv_run run total records st :
  head records = Some (JObj run) → pget run "kind" = JStr "run" →
  fold_res (validate_step run total) (0, no_progress) records = Ok st → progress_inv records st.
Proof.
  intros Hhead Hkind. apply (fold_res_hist progress_inv).
  - split; cbn; try done. by exists [].
  - intros pre raw post s1 s2 Heq. apply progress_inv_step. intros -> r ->. cbn in Heq. subst records.
    cbn in Hhead. injection Hhead as ->. by eapply is_kind_other.
Qed.

(** What an accepted trace consists of. *)
Record accepted (rs : list record) (t : Trace) : Prop := {
  acc_parents : ∃ v, fold_res consume new_validator rs = Ok v ∧ parents v = ∅;
  acc_works : trace_works t = List.filter (is_kind "npu_work") rs;
  acc_phases : ∀ i r, trace_phases t !! i = Some r → phase_ok i r;
  acc_nonempty : trace_phases t ≠ [];
  acc_placed : Forall (work_placed (length (trace_phases t))) (trace_works t);
  acc_counts : ∃ l, pget (trace_end t) "independent_counts" = JArr l ∧
    ∀ k n, (∃ value, value ∈ l ∧ declares_count value k n) ↔ 0 < n ∧ occurrences k (trace_works t) = n;
}.

Lemma run_end_consumed v r v' :
  pget r "kind" = JStr "run_end" → consume v r = Ok v' → parents v' = ∅.
Proof.
  intros Hk. unfold consume. rewrite Hk. cbn. unfold run_end, finish, OptraceParents.require.
  intros [H <-%Ok_eq]%check_bind. by apply bool_decide_eq_true in H.
Qed.

Lemma validate_records_accepted records t :
  validate_records records = Ok t → ∃ rs, records = JObj <$> rs ∧ accepted rs t.
Proof.
  unfold validate_records. intros [Hlen H]%check_bind. apply Nat.leb_le in Hlen.
  destruct records as [|[| | | | | |run] rest] eqn:Er; try done.
  destruct (last _) as [final|] eqn:El; [|done]. rewrite <-Er in *.
  apply bind_Ok in H as ([] & Hrun%validate_run_kind & H). apply bind_Ok in H as (st & Hfold & H).
  destruct final as [| | | | | |stop]; try done.
  apply bind_Ok in H as (? & Hend%require_m_Ok & <-%Ok_eq).
  apply and_then_Ok_true in Hend as [Hstop%item_is_pget%eq_str_spec Hne%Ok_eq].
  assert (Hhead : head (JObj run :: rest) = Some (JObj run)) by done. rewrite <-Er in *.
  pose proof (progress_inv_run _ _ _ _ Hhead Hrun Hfold) as [Hseq (rs & Hrs & Hv & Hw) Hph Hpl Hc].
  exists rs. split; [done|]. apply last_Some in El as [pre Epre].
  assert (Hpre : (2 ≤ length pre)%nat) by (rewrite Epre, length_app in Hlen; cbn in Hlen; lia).
  rewrite Epre, fold_res_app in Hfold. apply bind_Ok in Hfold as ([q p] & Hf1 & Hf2).
  assert (Hq : q = Z.of_nat (length pre)).
  { assert (Hh : head pre = Some (JObj run)).
    { rewrite Er in Epre. destruct pre; cbn in *; [lia|]. congruence. }
    by destruct (progress_inv_run _ _ _ _ Hh Hrun Hf1) as [Hs _ _ _ _]. }
  cbn [fold_res] in Hf2. apply bind_Ok in Hf2 as (st' & Hstep & <-%Ok_eq).
  unfold validate_step in Hstep. apply check_bind in Hstep as [_ Hstep]. apply bind_Ok in Hstep as (? & _ & Hstep).
  apply bind_Ok in Hstep as (p' & Hk & Hstep). apply bind_Ok in Hstep as (v & Hcons%parent_record_Ok & <-%Ok_eq).
  unfold kind_record in Hk. rewrite Hstop in Hk.
  destruct (Z.eqb_spec q 0) as [?|_]; [lia|].
  replace (eq_str (JStr "run_end") "phase") with false in Hk by done.
  replace (eq_str (JStr "run_end") "npu_work") with false in Hk by done.
  replace (in_strs (JStr "run_end") ["parent_begin"; "parent_end"]) with false in Hk by done.
  replace (eq_str (JStr "run_end") "run_end") with true in Hk by done.
  apply end_record_Ok in Hk as [-> (l & Hl & Hcounts)]. cbn in *.
  split; cbn; try done.
  - exists v. split; [done|]. by eapply run_end_consumed.
  - by destruct (phases p).
  - exists l. split; [done|]. intros k n. by rewrite Hcounts, Hc.
Qed.

(** The works of the parent [p] among the works of a trace. *)
Definition of_parent (p : Z) (ws : list record) : list record :=
  List.filter (fun w => int_is (pget w "parent_invocation_id") p) ws.

Lemma works_of_filter p rs : works_of p rs = of_parent p (List.filter (is_kind "npu_work") rs).
Proof.
  unfold works_of, of_parent. induction rs as [|r rs IH]; [done|]. cbn. rewrite IH.
  destruct (is_kind "npu_work" r); cbn; [|done]. by destruct (int_is _ p).
Qed.

(** C40: The works of an accepted op-trace cover their parents: the parents are
    declared as 0, 1, .. in order, the works of each follow one another from
    row 0 to its last row without gap or overlap, repeat its descriptor and
    number their stripes, and no work is without a declared parent. *)
Theorem optrace_rows_covered records t :
  validate_records records = Ok t →
  ∃ rs, records = JObj <$> rs ∧ trace_works t = List.filter (is_kind "npu_work") rs ∧
    (∀ i b, declarations rs !! i = Some b →
      pget b "parent_invocation_id" = JInt (Z.of_nat i) ∧
      ∃ m, pget b "m" = JInt m ∧ of_parent (Z.of_nat i) (trace_works t) ≠ [] ∧
        covers b (of_parent (Z.of_nat i) (trace_works t)) m) ∧
    (∀ w, w ∈ trace_works t → ∃ i b, declarations rs !! i = Some b ∧
      pget w "parent_invocation_id" = JInt (Z.of_nat i)).
Proof.
  intros (rs & Hrs & [(v & Hf & He) Hw _ _ Hpl _])%validate_records_accepted.
  exists rs. split; [done|]. split; [done|].
  destruct (parents_covered rs v Hf He) as [Hdecl Hrange]. split.
  - intros i b (? & Hne & m & Hm & Hc)%Hdecl. split; [done|]. exists m. rewrite Hw, <-works_of_filter. done.
  - intros w Hin. rewrite Forall_forall in Hpl. destruct (Hpl w Hin) as (_ & (p & Hp) & _).
    assert (Hwp : works_of p rs ≠ []).
    { rewrite works_of_filter, <-Hw. intros E.
      assert (Hin' : w ∈ of_parent p (trace_works t)).
      { unfold of_parent. rewrite list_elem_of_In, filter_In, <-list_elem_of_In, Hp. cbn. by rewrite Z.eqb_refl. }
      rewrite E in Hin'. inversion Hin'. }
    pose proof (Hrange p Hwp) as Hlt.
    destruct (lookup_lt_is_Some_2 (declarations rs) (Z.to_nat p)) as [b Hb]; [lia|].
    exists (Z.to_nat p), b. split; [done|]. rewrite Hp. f_equal. lia.
Qed.

(** The counts an accepted op-trace declares independently of its works
    are the numbers of its works: a key (phase, layer, provenance) is declared
    with count [n] exactly when [n > 0] works of the trace have that key. *)
Theorem optrace_counts_equal records t :
  validate_records records = Ok t →
  ∃ l, pget (trace_end t) "independent_counts" = JArr l ∧
    ∀ k n, (∃ value, value ∈ l ∧ declares_count value k n) ↔ 0 < n ∧ occurrences k (trace_works t) = n.
Proof. intros (rs & _ & [_ _ _ _ _ H])%validate_records_accepted. exact H. Qed.

(** ** The accounting of the isolated replay *)

(** A published row and the cycles its model result reports. *)
Definition row_reports (row : record) (cycles : Z) : Prop :=
  ∃ result, pget row "model_result" = JObj result ∧ pget result "total_cycles" = JInt cycles.

Definition json_cycles (j : json) : Z := match j with JInt z => z | _ => 0 end.
(** [sum(d.values())] of a published dict of cycles. *)
Definition values_sum (r : record) : Z := sum (map (fun kv => json_cycles kv.2) r).

Section Accounting.
Context (estimate : record → res record).

(** The totals after the works with the given cycles, over [n] phases. *)
Record totals_inv (n : nat) (t : Totals) (cycles : list Z) : Prop := {
  ti_rows : Forall2 row_reports (results t) cycles;
  ti_layers : sum (per_layer t).*2 = sum cycles;
  ti_phases : sum (per_phase t).*2 = sum cycles;
  ti_each : sum (phase_cycles t <$> seqZ 0 (Z.of_nat n)) = sum cycles;
}.

(** [d[j]] of a [defaultdict(int)]. *)
Definition total_of (l : list (Z * Z)) (j : Z) : Z := default 0 (zget j l).

Lemma sum_add_to (k : Z) c l ks :
  NoDup ks → k ∈ ks → sum (total_of (add_to Z.eqb k c l) <$> ks) = sum (total_of l <$> ks) + c.
Proof.
  unfold add_to. assert (Hother : ∀ ks : list Z, k ∉ ks →
    total_of (zset k (default 0 (zget k l) + c) l) <$> ks = total_of l <$> ks).
  { intros js Hjs. apply list_fmap_ext. intros i j Hj%list_elem_of_lookup_2. unfold total_of. rewrite aget_aset by apply Z.eqb_eq.
    destruct (Z.eqb_spec j k) as [->|]; [by destruct Hjs|done]. }
  induction ks as [|j ks IH]; intros Hnd Hin; [by inversion Hin|]. apply NoDup_cons in Hnd as [Hn Hnd].
  rewrite !fmap_cons, !sum_cons. unfold total_of at 1 3. rewrite aget_aset by apply Z.eqb_eq.
  destruct (Z.eqb_spec j k) as [->|Hne].
  - rewrite Hother by done. cbn [from_option id]. lia.
  - rewrite IH; [lia|done|]. apply elem_of_cons in Hin as [?|?]; [congruence|done].
Qed.

Lemma estimate_work_inv tr n t cycles w t' :
  work_placed n w → totals_inv n t cycles → estimate_work estimate tr t w = Ok t' →
  ∃ c, totals_inv n t' (cycles ++ [c]).
Proof.
  intros ((z & Hz & Hzn) & _ & _) [Hrows Hl Hp He]. unfold estimate_work.
  intros (value & _ & H)%bind_Ok. destruct value as [| | | | | |result]; try done.
  apply bind_Ok in H as (total & Ht%pget_item & H). apply bind_Ok in H as (c & [-> _]%integer_positive_Ok & H).
  apply bind_Ok in H as (layer & _ & H). apply bind_Ok in H as (phase & Hph%int_item_Ok & H).
  apply bind_Ok in H as (row & Hrow & <-%Ok_eq). rewrite Hz in Hph. injection Hph as ->.
  assert (Hr : row_reports row c).
  { unfold result_row in Hrow. apply bind_Ok in Hrow as (copied & Hc & Hrow).
    do 2 apply bind_Ok in Hrow as (? & _ & Hrow). apply bind_Ok in Hrow as (? & _ & <-%Ok_eq).
    exists result. split; [|done]. unfold items in Hc. apply map_res_Ok in Hc.
    repeat (apply Forall2_cons_inv_l in Hc as (? & ? & _ & Hc & ->)). apply Forall2_nil_inv_l in Hc as ->. done. }
  exists c. split; cbn.
  - apply Forall2_app; [done|]. by constructor.
  - unfold add_to. rewrite sum_aset, Hl, sum_app. cbn. lia.
  - unfold add_to. rewrite sum_aset, Hp, sum_app. cbn. lia.
  - etrans; [apply sum_add_to; [apply NoDup_seqZ|apply elem_of_seqZ; lia]|].
    change (total_of (per_phase t)) with (phase_cycles t). rewrite He, sum_app. cbn. lia.
Qed.

Lemma estimate_works_inv tr n ws t :
  Forall (work_placed n) ws → fold_res (estimate_work estimate tr) no_totals ws = Ok t → ∃ cycles, totals_inv n t cycles.
Proof.
  intros Hws. apply (fold_res_inv (fun t => ∃ cycles, totals_inv n t cycles)).
  - exists []. split; try done. induction (seqZ _ _) as [|j l IH]; [done|]. by rewrite fmap_cons, sum_cons, IH.
  - intros w t1 t2 Hin (cycles & Hinv) Hw. rewrite Forall_forall in Hws.
    destruct (estimate_work_inv _ _ _ _ _ _ (Hws w Hin) Hinv Hw) as (c & ?). eauto.
Qed.

(** *** The published sums *)

Lemma phase_sums_values t key chosen names s :
  phase_sums t key chosen = Ok s →
  (fun p => pget p key) <$> chosen = JInt <$> names → NoDup names →
  values_sum s = sum ((fun p => match pget p "phase_id" with JInt z => phase_cycles t z | _ => 0 end) <$> chosen).
Proof.
  unfold phase_sums. intros (l & Hl%map_res_Ok & <-%Ok_eq)%bind_Ok Hnames Hnd.
  assert (Hkeys : l.*1 = dec <$> names).
  { clear Hnd. revert names Hnames. induction Hl as [|p e ps l He _ IH]; intros [|nm names]; cbn; try done.
    intros [= Hnm Hrest]. rewrite (IH _ Hrest). f_equal.
    apply bind_Ok in He as (x & Hx%int_item_Ok & (y & _ & <-%Ok_eq)%bind_Ok). cbn. congruence. }
  assert (Hnodup : NoDup l.*1) by (rewrite Hkeys; apply NoDup_fmap_2; [intros ? ?; apply dec_inj|done]).
  pose proof (merge_records_fold [] l) as Hm. cbn in Hm. rewrite (proj2 (first_repeat_None [] l)) in Hm by (split; [done|]; intros ? _ Hx; inversion Hx).
  cbn in Hm. rewrite Hm. clear -Hl.
  unfold values_sum. induction Hl as [|p e ps l He _ IH]; [done|].
  apply bind_Ok in He as (x & _ & (y & Hy%int_item_Ok & <-%Ok_eq)%bind_Ok).
  cbn [map]. rewrite fmap_cons, !sum_cons, IH, Hy. done.
Qed.

(** The phases of a trace list [field] as consecutive numbers from [first]. *)
Lemma phases_seq (field : string) (first : Z) (l : list record) :
  (∀ i r, l !! i = Some r → pget r field = JInt (first + Z.of_nat i)) →
  (fun p => pget p field) <$> l = JInt <$> seqZ first (Z.of_nat (length l)).
Proof.
  revert first. induction l as [|r l IH]; intros first H; [done|].
  rewrite seqZ_cons by (cbn; lia). rewrite !fmap_cons. f_equal.
  - rewrite (H 0%nat) by done. f_equal. cbn. lia.
  - cbn [length]. rewrite (IH (Z.succ first)).
    + do 2 f_equal. lia.
    + intros i q Hi. rewrite (H (S i)) by done. f_equal. lia.
Qed.

Lemma phase_id_sums t first (l : list record) :
  (fun p => pget p "phase_id") <$> l = JInt <$> seqZ first (Z.of_nat (length l)) →
  (fun p => match pget p "phase_id" with JInt z => phase_cycles t z | _ => 0 end) <$> l =
  phase_cycles t <$> seqZ first (Z.of_nat (length l)).
Proof.
  revert first. induction l as [|r l IH]; intros first; [done|].
  rewrite seqZ_cons by (cbn; lia). rewrite !fmap_cons. intros [= E1 E2]. rewrite E1. f_equal.
  cbn [length] in *. replace (Z.pred (Z.of_nat (S (length l)))) with (Z.of_nat (length l)) in * by lia. by apply IH.
Qed.

(** The published dict of phases sums to the cycles of the phases. *)
Lemma phase_sums_total t key first start (l : list record) s :
  phase_sums t key l = Ok s →
  (∀ i r, l !! i = Some r → pget r "phase_id" = JInt (first + Z.of_nat i) ∧ pget r key = JInt (start + Z.of_nat i)) →
  values_sum s = sum (phase_cycles t <$> seqZ first (Z.of_nat (length l))).
Proof.
  intros Hs Hl. rewrite (phase_sums_values _ _ _ (seqZ start (Z.of_nat (length l))) _ Hs).
  - f_equal. apply phase_id_sums, phases_seq. intros i r Hi. by apply Hl.
  - apply phases_seq. intros i r Hi. by apply Hl.
  - apply NoDup_seqZ.
Qed.

Lemma decode_phases (ps : list record) :
  (∀ i r, ps !! i = Some r → phase_ok i r) → ps ≠ [] → List.filter is_decode ps = tail ps.
Proof.
  intros Hok Hne. destruct ps as [|p ps]; [done|]. cbn [List.filter tail].
  destruct (Hok 0%nat p eq_refl) as [_ Hp _]. destruct (Hp eq_refl) as [Hk _].
  unfold is_decode at 1. rewrite Hk. cbn.
  assert (Hall : ∀ i r, ps !! i = Some r → is_decode r = true).
  { intros i r Hi. destruct (Hok (S i) r Hi) as [_ _ Hd]. destruct Hd as [Hd _]; [lia|].
    unfold is_decode. by rewrite Hd. }
  clear -Hall. induction ps as [|p ps IH]; [done|]. cbn. rewrite (Hall 0%nat p eq_refl). f_equal.
  apply IH. intros i r Hi. by apply (Hall (S i)).
Qed.

(** The isolated accounting of an accepted op-trace balances in every way
    it is published: the sum of the published rows' cycles, one row per work,
    is [isolated_cycle_sum], and also the sum of the per-layer totals, the sum
    of the per-phase totals, and the prefill total plus the per-token decode
    totals. *)
Theorem optrace_accounting library records t summary :
  validate_records records = Ok t → estimate_trace estimate library t = Ok summary →
  ∃ rows cycles layers phases decode prefill,
    pget summary "works" = JArr (map JObj rows) ∧ length rows = length (trace_works t) ∧
    Forall2 row_reports rows cycles ∧
    pget summary "isolated_cycle_sum" = JInt (sum cycles) ∧
    pget summary "per_layer_cycle_sums" = JObj layers ∧ values_sum layers = sum cycles ∧
    pget summary "per_phase_cycle_sums" = JObj phases ∧ values_sum phases = sum cycles ∧
    pget summary "prefill_cycle_sum" = JInt prefill ∧ pget summary "per_decode_token_cycle_sums" = JObj decode ∧
    prefill + values_sum decode = sum cycles.
Proof.
  intros (rs & _ & [_ _ Hph Hne Hpl _])%validate_records_accepted. unfold estimate_trace.
  intros (tot & Htot & H)%bind_Ok. apply bind_Ok in H as (copied & Hc & H).
  apply bind_Ok in H as (decode & Hdec & H). apply bind_Ok in H as (phases & Hphases & <-%Ok_eq).
  unfold items in Hc. apply map_res_Ok in Hc.
  repeat (apply Forall2_cons_inv_l in Hc as (? & ? & _ & Hc & ->)). apply Forall2_nil_inv_l in Hc as ->.
  destruct (estimate_works_inv _ _ _ _ Hpl Htot) as (cycles & [Hrows Hlay Hphs Heach]).
  exists (results tot), cycles, (map (fun e => (e.1, JInt e.2)) (sort_layers (per_layer tot))), phases, decode,
    (phase_cycles tot 0).
  assert (Hcount : length (results tot) = length (trace_works t)).
  { revert Htot. apply (fold_res_hist (fun ws tot => length (results tot) = length ws)); [done|].
    intros pre w post t1 t2 _ Hlen Hw. unfold estimate_work in Hw. apply bind_Ok in Hw as ([] & _ & Hw); try done.
    do 5 apply bind_Ok in Hw as (? & _ & Hw). apply Ok_eq in Hw as <-. cbn. rewrite !length_app, Hlen. done. }
  split_and!; try done.
  - cbn. by rewrite Hphs.
  - unfold values_sum. rewrite map_map. cbn. rewrite <-Hlay, <-(sum_sort_layers (per_layer tot)). f_equal.
  - rewrite <-Heach. apply (phase_sums_total _ _ 0 0 _ _ Hphases). intros i r Hi.
    destruct (Hph i r Hi) as [Hid _ _]. rewrite Hid. done.
  - rewrite (decode_phases _ Hph Hne) in Hdec. destruct (trace_phases t) as [|p ps]; [done|]. cbn [tail] in Hdec.
    rewrite (phase_sums_total _ _ 1 0 _ _ Hdec), <-Heach.
    + cbn [length]. rewrite (seqZ_cons 0) by lia. rewrite fmap_cons, sum_cons. do 3 f_equal. f_equal. lia.
    + intros i r Hi. destruct (Hph (S i) r Hi) as [Hid _ Hd]. destruct Hd as [_ Hd]; [lia|].
      rewrite Hid, Hd. split; f_equal; lia.
Qed.
End Accounting.

(** ** The theorems on a sample trace

    A prefill phase whose parent runs as two stripes, then a decode phase
    whose parent runs at once. *)
Definition zs : list (string * Z) → record := map (fun kv => (kv.1, JInt kv.2)).
Definition ss : list (string * string) → record := map (fun kv => (kv.1, JStr kv.2)).
Definition zeros40 : string := "0000000000000000000000000000000000000000".
Definition zeros64 : string := "000000000000000000000000" +:+ zeros40.
Definition head_of (sequence : Z) (kind : string) : record :=
  [("kind", JStr kind); ("sequence", JInt sequence); ("run_id", JStr "r")].
Definition sample_run_record : record :=
  head_of 0 "run" ++ ss [("schema", SCHEMA); ("model", "m"); ("profile", "a8w8-d16-hp1");
    ("backend", "IM2P_SIM/GEMMINI_HP1"); ("mode", "p"); ("hardware_contract_sha256", zeros64);
    ("runtime_manifest_sha256", zeros64)] ++
  zs [("version", 2); ("activation_bits", 8); ("weight_bits", 8); ("dim", 16); ("prompt_tokens", 1);
      ("requested_generated_tokens", 1)] ++
  [("residual_enabled", JBool false);
   ("source_commits", JObj (ss (map (fun n => (n, zeros40)) SOURCE_NAMES)));
   ("source_worktree_sha256", JObj (ss (map (fun n => (n, zeros64)) SOURCE_NAMES)))].
Definition sample_phase (sequence i : Z) : record :=
  head_of sequence "phase" ++ zs [("phase_id", i); ("input_tokens", 1)] ++
  [("phase_kind", JStr (if i =? 0 then "prefill" else "decode"));
   ("decode_index", if i =? 0 then JNull else JInt (i - 1))].
Definition sample_descriptor (scope : string) : record :=
  ss [("layer", "blk.0"); ("operation", "ffn_up"); ("provenance", "dense_main"); ("scope", scope)] ++
  zs [("activation_bits", 8); ("weight_bits", 8); ("dim", 16); ("n", 16); ("k", 32); ("tile_i_count", 1);
      ("tile_j_count", 1); ("tile_k_count", 2); ("activation_stride_bytes", 32); ("weight_stride_bytes", 16);
      ("output_stride_bytes", 64); ("scale_stride_elements", 16); ("block_size", 32); ("vector_op", 5);
      ("output_domain", 2); ("production_geometry_version", 1)].
Definition sample_begin (sequence phase parent m : Z) (scope : string) : record :=
  head_of sequence "parent_begin" ++ zs [("phase_id", phase); ("parent_invocation_id", parent); ("m", m)] ++
  sample_descriptor scope.
Definition sample_end (sequence phase parent : Z) : record :=
  head_of sequence "parent_end" ++ zs [("phase_id", phase); ("parent_invocation_id", parent)] ++
  [("status", JStr "success")].
Definition sample_work (sequence phase parent rows start m : Z) (scope : string) (stripe : json) : record :=
  head_of sequence "npu_work" ++ sample_descriptor scope ++
  zs [("phase_id", phase); ("parent_invocation_id", parent); ("m", m); ("geometry_m", rows); ("row_begin", start);
      ("row_count", m); ("work_context", 0); ("source_row_begin", 0); ("source_row_count", 0); ("column_begin", 0);
      ("group_index", 0); ("logical_work_id", sequence)] ++
  [("stripe_id", stripe); ("host_slot", stripe); ("original_block_id", JNull); ("numerical_datapath", JStr "hp1_scu");
   ("rmd_raw", JBool false); ("host_integer_block_multiply", JBool false)].
Definition sample_count (phase count : Z) : json :=
  JObj (zs [("phase_id", phase); ("count", count)] ++ ss [("layer", "blk.0"); ("provenance", "dense_main")]).
Definition sample_records : list json := map JObj
  [sample_run_record; sample_phase 1 0; sample_begin 2 0 0 3 "stripe";
   sample_work 3 0 0 3 0 2 "stripe" (JInt 0); sample_work 4 0 0 3 2 1 "stripe" (JInt 1); sample_end 5 0 0;
   sample_phase 6 1; sample_begin 7 1 1 1 "full"; sample_work 8 1 1 1 0 1 "full" JNull; sample_end 9 1 1;
   head_of 10 "run_end" ++ [("status", JStr "success"); ("reason", JStr ""); ("work_count", JInt 3);
     ("independent_counts", JArr [sample_count 1 1; sample_count 0 2])]].

(** A model of [100 * m] cycles per work. *)
Definition sample_estimate (document : record) : res record :=
  match pget document "request" with
  | JObj request =>
      let* m := int_item request "m" in
      Ok [("status", JStr "PASS"); ("result", JObj [("total_cycles", JInt (100 * m)); ("loop_count", JInt 1)])]
  | _ => Err (ValueError "request")
  end.

Definition sample_trace : res Trace := validate_records sample_records.
Definition sample_summary : res record := let* t := sample_trace in estimate_trace sample_estimate zeros64 t.

Lemma sample_trace_Ok : ∃ t, sample_trace = Ok t ∧ occurrences (0, "blk.0", "dense_main")%string (trace_works t) = 2.
Proof.
  assert (E : match sample_trace with
              | Ok t => occurrences (0, "blk.0", "dense_main")%string (trace_works t) =? 2
              | Err _ => false end = true) by (vm_compute; reflexivity).
  destruct sample_trace as [t|]; [|discriminate E]. exists t. split; [reflexivity|exact (proj1 (Z.eqb_eq _ _) E)].
Qed.

Lemma sample_summary_Ok : ∃ t s, sample_trace = Ok t ∧ estimate_trace sample_estimate zeros64 t = Ok s ∧
  pget s "isolated_cycle_sum" = JInt 400.
Proof.
  assert (E : match sample_summary with
              | Ok s => match pget s "isolated_cycle_sum" with JInt z => z =? 400 | _ => false end
              | Err _ => false end = true) by (vm_compute; reflexivity).
  unfold sample_summary in E. destruct sample_trace as [t|]; [|discriminate E]. cbn [mbind res_bind] in E.
  exists t. destruct (estimate_trace sample_estimate zeros64 t) as [s|]; [|discriminate E].
  exists s. split; [reflexivity|]. split; [reflexivity|].
  destruct (pget s "isolated_cycle_sum"); try discriminate E. exact (f_equal JInt (proj1 (Z.eqb_eq _ _) E)).
Qed.

Lemma optrace_rows_covered_witness :
  ∃ t rs, sample_trace = Ok t ∧ sample_records = JObj <$> rs ∧
    ∀ w, w ∈ trace_works t → ∃ i b, declarations rs !! i = Some b ∧ pget w "parent_invocation_id" = JInt (Z.of_nat i).
Proof.
  destruct sample_trace_Ok as (t & E & _). destruct (optrace_rows_covered sample_records t E) as (rs & Hrs & _ & _ & H).
  exists t, rs. split; [exact E|]. split; [exact Hrs|exact H].
Defined.

Lemma optrace_counts_equal_witness :
  ∃ t l, sample_trace = Ok t ∧ pget (trace_end t) "independent_counts" = JArr l ∧
    ∃ value, value ∈ l ∧ declares_count value (0, "blk.0", "dense_main")%string 2.
Proof.
  destruct sample_trace_Ok as (t & E & Hn). destruct (optrace_counts_equal sample_records t E) as (l & Hl & H).
  exists t, l. split; [exact E|]. split; [exact Hl|]. apply H. split; [reflexivity|exact Hn].
Defined.

Lemma optrace_accounting_witness :
  ∃ t s cycles, sample_trace = Ok t ∧ estimate_trace sample_estimate zeros64 t = Ok s ∧ sum cycles = 400 ∧
    length cycles = length (trace_works t).
Proof.
  destruct sample_summary_Ok as (t & s & E & Hs & Hsum).
  destruct (optrace_accounting sample_estimate zeros64 sample_records t s E Hs)
    as (rows & cycles & layers & phases & decode & prefill & _ & Hlen & Hrows & Hiso & _).
  exists t, s, cycles. split; [exact E|]. split; [exact Hs|]. rewrite Hsum in Hiso. injection Hiso as <-.
  split; [reflexivity|]. rewrite <-Hlen. symmetry. exact (Forall2_length _ _ _ Hrows).
Defined.
