(* ===== verification/Numerical.v ===== *)
(** * The bit-accurate integer dot reference

    [scripts/numerical_reference.py]: the dot product of the array, fragment by
    fragment as the hardware computes it (partial sums in the array, the vector
    operation on each fragment, the accumulator, and the blocks handed to an
    external provider), with a check of every intermediate value against its
    width.

    The operands are Python integers here, so the source's [type(x) is int]
    checks hold by construction.  The configuration files are those of
    [Profiles.Config.profile_config]. *)
From S2P Require Import Prelude Records Profiles.
Set Default Goal Selector "!".

Inductive Operation : Type := BYPASS | MULTIPLY | SHIFT | EXTERNAL.
#[export] Instance Operation_eq_dec : EqDecision Operation.
Proof. solve_decision. Defined.

Record Location := { route : string; layer : string; stripe : Z; row : Z; column : Z }.

(** [Boundary]: running extrema and the first failure. *)
Record Boundary := {
  max_abs : Z;
  overflow_count : Z;
  first_failure : option (Z * Z * Z); (* first_k, first_block, first_value *)
}.
Definition no_boundary : Boundary := {| max_abs := 0; overflow_count := 0; first_failure := None |}.

Definition in_range (width value : Z) : bool := (- 2 ^ (width - 1) <=? value) && (value <? 2 ^ (width - 1)).

Definition observe (b : Boundary) (value width : Z) (position : Z * Z) : Boundary :=
  let seen := Z.max (max_abs b) (Z.abs value) in
  if in_range width value then
    {| max_abs := seen; overflow_count := overflow_count b; first_failure := first_failure b |}
  else
    {| max_abs := seen; overflow_count := overflow_count b + 1;
       first_failure := match first_failure b with
         | None => Some (position.1, position.2, value) | Some f => Some f end |}.

Record Dot := {
  activations : list Z;
  weights : list Z;
  scales : list Z;
  operand_bits : Z;
  diagnostic_width : option Z;
  dim : Z;
  block_size : Z;
  k_origin : Z;
  operation : Operation;
  location : Location;
}.

(** The five boundaries of the [boundaries] dict. *)
Record Boundaries := {
  pe_partial : Boundary;
  vector_contribution : Boundary;
  accumulator_update : Boundary;
  provider_output : Boundary;
  diagnostic_integer_reconstruction : Boundary;
}.

Record Result := {
  result_location : Location;
  value : Z;
  mathematical_value : Z;
  block_outputs : list Z;
  boundaries : Boundaries;
  datapath_width : Z;
  diagnostic_profile : bool;
  raw_int32_value : option Z;
  reconstruction_policy : string;
}.

Definition boundary_list (b : Boundaries) : list Boundary :=
  [pe_partial b; vector_contribution b; accumulator_update b; provider_output b; diagnostic_integer_reconstruction b].
Definition clean (b : Boundaries) : bool := forallb (fun x => overflow_count x =? 0) (boundary_list b).
Definition overflow_free (r : Result) : bool := clean (boundaries r).

Definition wrap (value width : Z) : Z := (value + 2 ^ (width - 1)) mod 2 ^ width - 2 ^ (width - 1).

Definition transform (partial scale : Z) (op : Operation) : Z :=
  match op with
  | BYPASS | EXTERNAL => partial
  | MULTIPLY => partial * scale
  | SHIFT => if scale <? 0 then Z.shiftr partial (- scale) else Z.shiftl partial scale
  end.

(** The state of the loop of [evaluate]. *)
Record State := {
  offset : Z;
  accumulator : Z;
  mathematical : Z;
  outputs : list Z;
  reconstructed : Z;
  position : Z * Z;
  bounds : Boundaries;
}.

Definition is_bypass (op : Operation) : bool := match op with BYPASS => true | _ => false end.
Definition is_external (op : Operation) : bool := match op with EXTERNAL => true | _ => false end.

Definition pairs (dot : Dot) : list (Z * Z) := zip (activations dot) (weights dot).
Definition size (dot : Dot) : Z := Z.of_nat (length (activations dot)).

(** One product of a fragment: the wrapped and the exact partial sum. *)
Definition accumulate_product (width first block : Z) (st : Z * Z * Z * Boundary) (aw : Z * Z) : Z * Z * Z * Boundary :=
  let '(index, partial, exact, b) := st in
  let product := aw.1 * aw.2 in
  let wide := partial + product in
  (index + 1, wrap wide width, exact + product, observe b wide width (first + index, block)).

(** [for index in range(offset, offset + count)] *)
Definition fragment (dot : Dot) (width start count block : Z) (b : Boundary) : Z * Z * Boundary :=
  let '(_, partial, exact, b') :=
    fold_left (accumulate_product width (k_origin dot) block)
      (take (Z.to_nat count) (drop (Z.to_nat start) (pairs dot))) (start, 0, 0, b) in
  (partial, exact, b').

Definition scale_at (dot : Dot) (block : Z) : res Z :=
  match scales dot !! Z.to_nat block with
  | Some s => Ok s
  | None => Err (IndexError "tuple index out of range")
  end.

(** One pass of the loop: a fragment of at most [dim] products, which does not
    cross the end of its scale block. *)
Definition evaluate_step (dot : Dot) (width : Z) (st : State) : res State :=
  let op := operation dot in
  let global_k := k_origin dot + offset st in
  let block := if is_bypass op then 0 else global_k / block_size dot in
  let within := if is_bypass op then 0 else global_k mod block_size dot in
  let count := Z.min (dim dot) (size dot - offset st) in
  let count := if is_bypass op then count else Z.min count (block_size dot - within) in
  let* scale := if is_bypass op then Ok 0 else scale_at dot block in
  let bs := bounds st in
  let '(partial, exact, pe) := fragment dot width (offset st) count block (pe_partial bs) in
  let wide_contribution := transform partial scale op in
  let position := (global_k, block) in
  let vector := observe (vector_contribution bs) wide_contribution width position in
  let contribution := wrap wide_contribution width in
  let wide_update := accumulator st + contribution in
  let update := observe (accumulator_update bs) wide_update width position in
  let acc := wrap wide_update width in
  let mathematical := mathematical st + (if is_external op then exact * scale else transform exact scale op) in
  let next := offset st + count in
  let block_end := (within + count =? block_size dot) || (next =? size dot) in
  if is_external op && block_end then
    let total := reconstructed st + acc * scale in
    Ok {| offset := next; accumulator := 0; mathematical := mathematical; outputs := outputs st ++ [acc];
          reconstructed := total; position := position;
          bounds := {| pe_partial := pe; vector_contribution := vector; accumulator_update := update;
                       provider_output := observe (provider_output bs) acc 64 position;
                       diagnostic_integer_reconstruction :=
                         observe (diagnostic_integer_reconstruction bs) total 64 position |} |}
  else
    Ok {| offset := next; accumulator := acc; mathematical := mathematical; outputs := outputs st;
          reconstructed := reconstructed st; position := position;
          bounds := {| pe_partial := pe; vector_contribution := vector; accumulator_update := update;
                       provider_output := provider_output bs;
                       diagnostic_integer_reconstruction := diagnostic_integer_reconstruction bs |} |}.

(** [while offset < len(dot.activations)] *)
Fixpoint evaluate_loop (fuel : nat) (dot : Dot) (width : Z) (st : State) : res State :=
  if offset st <? size dot then
    match fuel with
    | O => Err OutOfFuel
    | S fuel => let* st' := evaluate_step dot width st in evaluate_loop fuel dot width st'
    end
  else Ok st.

Definition initial (dot : Dot) : State := {|
  offset := 0; accumulator := 0; mathematical := 0; outputs := []; reconstructed := 0; position := (k_origin dot, 0);
  bounds := {| pe_partial := no_boundary; vector_contribution := no_boundary; accumulator_update := no_boundary;
               provider_output := no_boundary; diagnostic_integer_reconstruction := no_boundary |} |}.

Definition finish (dot : Dot) (width : Z) (st : State) : Result :=
  let external := is_external (operation dot) in
  let v := if external then reconstructed st else accumulator st in
  let bs := bounds st in
  {| result_location := location dot; value := v; mathematical_value := mathematical st; block_outputs := outputs st;
     boundaries := {| pe_partial := pe_partial bs; vector_contribution := vector_contribution bs;
       accumulator_update := accumulator_update bs;
       provider_output := if external then provider_output bs else observe (provider_output bs) v 64 (position st);
       diagnostic_integer_reconstruction := diagnostic_integer_reconstruction bs |};
     datapath_width := width;
     diagnostic_profile := match diagnostic_width dot with Some _ => true | None => false end;
     raw_int32_value := if external then None else Some (Z.max (- 2 ^ 31) (Z.min v (2 ^ 31 - 1)));
     reconstruction_policy :=
       if external then "diagnostic-integer-only; use host_reconstruction for frontend" else "none" |}.

Section Evaluate.
Context `{Host}.
Context (source : Config.Source) (fingerprint : string) (files : string → option string).

(** The checks at the head of [evaluate]; the result is the datapath width. *)
Definition admit_dot (dot : Dot) : res Z :=
  check (match diagnostic_width dot with Some w => z_in w [32; 64] | None => true end &&
         ((0 <=? block_size dot) && (block_size dot <=? 16 ^ 8 - 1)) &&
         ((0 <=? k_origin dot) && (k_origin dot <=? 16 ^ 8 - 1)) && negb (size dot =? 0) &&
         (size dot <=? 16 ^ 8 - 1 - k_origin dot) && Nat.eqb (length (activations dot)) (length (weights dot)))
    (ValueError "invalid dot dimensions/profile") ;;;
  let* profile := Config.profile_config source fingerprint files (operand_bits dot) (operand_bits dot) (dim dot) in
  let width := default (Config.accumulator_bits profile) (diagnostic_width dot) in
  let limit := 2 ^ (operand_bits dot - 1) in
  check (forallb (fun x => (- limit <=? x) && (x <? limit)) (activations dot ++ weights dot))
    (ValueError "operand is not a signed integer in the selected profile") ;;;
  (if is_bypass (operation dot) then Ok tt
   else
     check (negb (block_size dot =? 0)) (ValueError "scaled work block size must be positive") ;;;
     let last_block := (k_origin dot + size dot - 1) / block_size dot in
     check ((last_block <? Z.of_nat (length (scales dot))) &&
            forallb (fun x => (-128 <=? x) && (x <=? 127)) (scales dot))
       (ValueError "missing or invalid signed INT8 scale")) ;;;
  Ok width.

(** [evaluate(dot)]: every pass consumes at least one product. *)
Definition evaluate (dot : Dot) : res Result :=
  let* width := admit_dot dot in
  let* st := evaluate_loop (length (activations dot)) dot width (initial dot) in
  Ok (finish dot width st).
End Evaluate.
