(* ===== verification/NumericalTheorems.v ===== *)
(** * Exactness of the integer dot reference

    Theorems about [Numerical.evaluate]: it always ends; its mathematical value
    is the dot product scaled block by block, however the array cuts it into
    fragments; when no boundary overflowed, the value the datapath computes is
    that mathematical value; and even when one did, the value of an unscaled or
    multiplied dot is right modulo the width of the datapath. *)
From S2P Require Import Prelude Records Profiles Numerical.
Set Default Goal Selector "!".

(** ** Machine words *)

Lemma in_range_spec width v : in_range width v = true ↔ - 2 ^ (width - 1) <= v < 2 ^ (width - 1).
Proof. unfold in_range. rewrite andb_true_iff, Z.leb_le, Z.ltb_lt. done. Qed.

Lemma in_range_width width v : in_range width v = true → 1 <= width.
Proof.
  rewrite in_range_spec. intros [? ?]. destruct (decide (1 <= width)); [done|].
  rewrite Z.pow_neg_r in * by lia. lia.
Qed.

Lemma half_word width : 1 <= width → 2 ^ width = 2 * 2 ^ (width - 1).
Proof. intros ?. rewrite <-Z.pow_succ_r by lia. f_equal. lia. Qed.

Lemma wrap_in_range width v : in_range width v = true → wrap v width = v.
Proof.
  intros H. pose proof (half_word _ (in_range_width _ _ H)). apply in_range_spec in H. unfold wrap.
  rewrite Z.mod_small by lia. lia.
Qed.

Lemma wrap_range width v : 1 <= width → in_range width (wrap v width) = true.
Proof.
  intros Hw. pose proof (half_word _ Hw). apply in_range_spec. unfold wrap.
  assert (0 < 2 ^ (width - 1)) by (apply Z.pow_pos_nonneg; lia).
  pose proof (Z.mod_pos_bound (v + 2 ^ (width - 1)) (2 ^ width)). lia.
Qed.

Lemma wrap_mod width v : wrap v width mod 2 ^ width = v mod 2 ^ width.
Proof. unfold wrap. rewrite Zminus_mod_idemp_l. f_equal. lia. Qed.

(** Equality modulo the word, a congruence for addition and multiplication. *)
Definition eqm (width a b : Z) : Prop := a mod 2 ^ width = b mod 2 ^ width.
#[export] Instance eqm_equiv width : Equivalence (eqm width).
Proof. unfold eqm. split; [by intros ?|by intros ? ?|intros ? ? ? H1 H2; by rewrite H1]. Qed.
#[export] Instance eqm_add width : Proper (eqm width ==> eqm width ==> eqm width) Z.add.
Proof. unfold eqm. intros a b H1 c d H2. by rewrite Zplus_mod, H1, H2, <-Zplus_mod. Qed.
#[export] Instance eqm_mul width : Proper (eqm width ==> eqm width ==> eqm width) Z.mul.
Proof. unfold eqm. intros a b H1 c d H2. by rewrite Zmult_mod, H1, H2, <-Zmult_mod. Qed.
Lemma eqm_wrap width v : eqm width (wrap v width) v.
Proof. apply wrap_mod. Qed.

(** ** Observations *)

Definition counted (b : Boundary) : Prop := 0 <= overflow_count b.

Lemma observe_counted b v w p : counted b → counted (observe b v w p).
Proof. unfold counted, observe. destruct (in_range w v); cbn; lia. Qed.

Lemma observe_clean b v w p :
  counted b → overflow_count (observe b v w p) = 0 → overflow_count b = 0 ∧ in_range w v = true.
Proof. unfold counted, observe. destruct (in_range w v); cbn; [done|]. lia. Qed.

Lemma clean_spec b : clean b = true ↔ Forall (fun x => overflow_count x = 0) (boundary_list b).
Proof. unfold clean. rewrite forallb_forall, Forall_forall. setoid_rewrite list_elem_of_In. setoid_rewrite Z.eqb_eq. done. Qed.

(** ** Fragments *)

Definition products (l : list (Z * Z)) : Z := sum (map (fun aw => aw.1 * aw.2) l).

Lemma products_app l k : products (l ++ k) = products l + products k.
Proof. unfold products. by rewrite map_app, sum_app. Qed.

(** The inner loop: the exact sum of the products; the partial sum is equal to
    it modulo the word, and equal when nothing overflowed. *)
Lemma fold_products width first block l index partial exact b :
  counted b →
  ∃ index' partial' b',
    fold_left (accumulate_product width first block) l (index, partial, exact, b) =
      (index', partial', exact + products l, b') ∧
    counted b' ∧ (eqm width partial exact → eqm width partial' (exact + products l)) ∧
    (overflow_count b' = 0 → overflow_count b = 0 ∧ (partial = exact → partial' = exact + products l)).
Proof.
  revert index partial exact b. induction l as [|[a w] l IH]; intros index partial exact b Hb.
  - exists index, partial, b. cbn. rewrite Z.add_0_r. done.
  - cbn [fold_left]. unfold accumulate_product at 2. cbn [fst snd].
    destruct (IH (index + 1) (wrap (partial + a * w) width) (exact + a * w)
      (observe b (partial + a * w) width (first + index, block))) as (i' & p' & b' & E & Hb' & Hm & Hc).
    { by apply observe_counted. }
    assert (Hsum : exact + a * w + products l = exact + products ((a, w) :: l)).
    { unfold products. cbn [map]. rewrite sum_cons. cbn [fst snd]. lia. }
    rewrite <-Hsum. exists i', p', b'. split_and!; try done.
    + intros Heq. apply Hm. by rewrite eqm_wrap, Heq.
    + intros (Hclean & He)%Hc. apply observe_clean in Hclean as [? Hr]; [|done]. split; [done|].
      intros ->. apply He. by apply wrap_in_range.
Qed.

Definition slice (dot : Dot) (start count : Z) : list (Z * Z) :=
  take (Z.to_nat count) (drop (Z.to_nat start) (pairs dot)).

Lemma fragment_spec dot width start count block b :
  counted b →
  ∃ partial b', fragment dot width start count block b = (partial, products (slice dot start count), b') ∧
    counted b' ∧ eqm width partial (products (slice dot start count)) ∧
    (overflow_count b' = 0 → overflow_count b = 0 ∧ partial = products (slice dot start count)).
Proof.
  intros Hb. unfold fragment. fold (slice dot start count).
  destruct (fold_products width (k_origin dot) block (slice dot start count) start 0 0 b Hb)
    as (i & p & b' & E & Hb' & Hm & Hc).
  rewrite E. exists p, b'. split; [done|]. split; [done|]. split; [by apply Hm|].
  intros (? & He)%Hc. split; [done|]. by apply He.
Qed.

(** ** The reference: every product with the factor of its own position *)

(** The scale of position [k]: that of its block. *)
Definition scale_of (dot : Dot) (k : Z) : Z := default 0 (scales dot !! Z.to_nat (k / block_size dot)).
Definition factor (dot : Dot) (k : Z) : Z :=
  match operation dot with
  | BYPASS => 1
  | MULTIPLY | EXTERNAL => scale_of dot k
  | SHIFT => 2 ^ scale_of dot k
  end.

(** The terms of the products [l] that begin at position [k]. *)
Fixpoint terms (dot : Dot) (k : Z) (l : list (Z * Z)) : Z :=
  match l with
  | [] => 0
  | (a, w) :: l => a * w * factor dot k + terms dot (k + 1) l
  end.
Definition reference (dot : Dot) : Z := terms dot (k_origin dot) (pairs dot).

Lemma terms_app dot k l1 l2 :
  terms dot k (l1 ++ l2) = terms dot k l1 + terms dot (k + Z.of_nat (length l1)) l2.
Proof.
  revert k. induction l1 as [|[a w] l1 IH]; intros k; cbn [terms app length].
  - by rewrite Z.add_0_r.
  - rewrite IH. replace (k + 1 + Z.of_nat (length l1)) with (k + Z.of_nat (S (length l1))) by lia. lia.
Qed.

Lemma terms_constant dot k l f :
  (∀ i, 0 <= i < Z.of_nat (length l) → factor dot (k + i) = f) → terms dot k l = products l * f.
Proof.
  revert k. induction l as [|[a w] l IH]; intros k H; [done|]. cbn [terms].
  unfold products in *. cbn [map]. rewrite sum_cons. cbn [fst snd].
  rewrite (IH (k + 1)).
  - rewrite <-(H 0) by (cbn; lia). rewrite Z.add_0_r. lia.
  - intros i Hi. replace (k + 1 + i) with (k + (i + 1)) by lia. apply H. cbn [length]. lia.
Qed.

(** ** What admission establishes *)

(** A dot the reference may evaluate. *)
Record fits (dot : Dot) : Prop := {
  fits_dim : 0 < dim dot;
  fits_origin : 0 <= k_origin dot;
  fits_size : 0 < size dot;
  fits_pairs : Z.of_nat (length (pairs dot)) = size dot;
  fits_block : operation dot ≠ BYPASS → 0 < block_size dot;
  fits_scales : operation dot ≠ BYPASS →
    (k_origin dot + size dot - 1) / block_size dot < Z.of_nat (length (scales dot));
}.

(** The length of a fragment at [offset]. *)
Definition fragment_length (dot : Dot) (offset : Z) : Z :=
  let count := Z.min (dim dot) (size dot - offset) in
  if is_bypass (operation dot) then count
  else Z.min count (block_size dot - (k_origin dot + offset) mod block_size dot).

Lemma fragment_length_bounds dot off :
  fits dot → 0 <= off < size dot → 1 <= fragment_length dot off ∧ off + fragment_length dot off <= size dot.
Proof.
  intros [Hd Ho Hs _ Hb _] Hoff. unfold fragment_length. destruct (operation dot) eqn:E; cbn; [lia|..].
  all: pose proof (Z.mod_pos_bound (k_origin dot + off) (block_size dot)).
  all: assert (0 < block_size dot) by (apply Hb; congruence); lia.
Qed.

(** All positions of a fragment lie in one scale block. *)
Lemma same_block dot off i :
  fits dot → operation dot ≠ BYPASS → 0 <= off → 0 <= i < fragment_length dot off →
  (k_origin dot + off + i) / block_size dot = (k_origin dot + off) / block_size dot.
Proof.
  intros [Hd Ho Hs _ Hb _] Hop Hoff Hi. specialize (Hb Hop). unfold fragment_length in Hi.
  replace (is_bypass (operation dot)) with false in Hi by (by destruct (operation dot)).
  pose proof (Z.mod_pos_bound (k_origin dot + off) (block_size dot)).
  pose proof (Z.div_mod (k_origin dot + off) (block_size dot)).
  symmetry. apply (Z.div_unique _ _ _ ((k_origin dot + off) mod block_size dot + i)); lia.
Qed.

Lemma factor_in_fragment dot off i :
  fits dot → 0 <= off → 0 <= i < fragment_length dot off →
  factor dot (k_origin dot + off + i) = factor dot (k_origin dot + off).
Proof.
  intros Hf Hoff Hi. unfold factor, scale_of. destruct (operation dot) eqn:E; [done|..].
  all: by rewrite same_block by (rewrite ?E; done).
Qed.

Lemma length_slice dot off :
  fits dot → 0 <= off < size dot → Z.of_nat (length (slice dot off (fragment_length dot off))) = fragment_length dot off.
Proof.
  intros Hf Hoff. pose proof (fragment_length_bounds _ _ Hf Hoff). destruct Hf as [_ _ _ Hp _ _].
  unfold slice. rewrite length_take, length_drop. lia.
Qed.

(** The terms consumed so far, and how a fragment extends them. *)
Definition consumed (dot : Dot) (off : Z) : Z := terms dot (k_origin dot) (take (Z.to_nat off) (pairs dot)).

Lemma consumed_fragment dot off :
  fits dot → 0 <= off < size dot →
  consumed dot (off + fragment_length dot off) =
  consumed dot off + products (slice dot off (fragment_length dot off)) * factor dot (k_origin dot + off).
Proof.
  intros Hf Hoff. pose proof (fragment_length_bounds _ _ Hf Hoff). pose proof (length_slice _ _ Hf Hoff) as Hlen.
  unfold consumed. rewrite Z2Nat.inj_add, <-take_take_drop, terms_app by lia. f_equal.
  assert (Htake : k_origin dot + Z.of_nat (length (take (Z.to_nat off) (pairs dot))) = k_origin dot + off).
  { destruct Hf as [_ _ _ Hp _ _]. rewrite length_take. lia. }
  rewrite Htake. apply terms_constant. intros i Hi. apply factor_in_fragment; [done|lia|].
  unfold slice in Hlen, Hi. lia.
Qed.

Lemma consumed_all dot : fits dot → consumed dot (size dot) = reference dot.
Proof. intros [_ _ _ Hp _ _]. unfold consumed, reference. by rewrite take_ge by lia. Qed.

(** ** One pass of the loop *)

(** The scale the pass reads. *)
Definition pass_scale (dot : Dot) (off : Z) : Z :=
  if is_bypass (operation dot) then 0 else scale_of dot (k_origin dot + off).

(** The pass ends a block of an external dot. *)
Definition flushes (dot : Dot) (off : Z) : bool :=
  is_external (operation dot) &&
  (((k_origin dot + off) mod block_size dot + fragment_length dot off =? block_size dot) ||
   (off + fragment_length dot off =? size dot)).

Definition all_counted (b : Boundaries) : Prop := Forall counted (boundary_list b).

Record step_spec (dot : Dot) (width : Z) (st st' : State) (partial exact : Z) : Prop := {
  sp_exact : exact = products (slice dot (offset st) (fragment_length dot (offset st)));
  sp_offset : offset st' = offset st + fragment_length dot (offset st);
  sp_counted : all_counted (bounds st');
  sp_partial : eqm width partial exact;
  sp_math : mathematical st' = mathematical st +
    (if is_external (operation dot) then exact * pass_scale dot (offset st)
     else transform exact (pass_scale dot (offset st)) (operation dot));
  sp_accumulator : accumulator st' =
    if flushes dot (offset st) then 0
    else wrap (accumulator st + wrap (transform partial (pass_scale dot (offset st)) (operation dot)) width) width;
  sp_reconstructed : reconstructed st' = reconstructed st +
    if flushes dot (offset st)
    then wrap (accumulator st + wrap (transform partial (pass_scale dot (offset st)) (operation dot)) width) width
         * pass_scale dot (offset st)
    else 0;
  sp_clean : clean (bounds st') = true → clean (bounds st) = true ∧ partial = exact ∧
    in_range width (transform exact (pass_scale dot (offset st)) (operation dot)) = true ∧
    in_range width (accumulator st + transform exact (pass_scale dot (offset st)) (operation dot)) = true;
}.

Lemma scale_at_Ok dot off :
  fits dot → operation dot ≠ BYPASS → 0 <= off < size dot →
  scale_at dot ((k_origin dot + off) / block_size dot) = Ok (scale_of dot (k_origin dot + off)).
Proof.
  intros [Hd Ho Hs Hp Hb Hsc] Hop Hoff. specialize (Hb Hop). specialize (Hsc Hop).
  unfold scale_at, scale_of.
  assert (H1 : (k_origin dot + off) / block_size dot <= (k_origin dot + size dot - 1) / block_size dot)
    by (apply Z.div_le_mono; lia).
  assert (H2 : 0 <= (k_origin dot + off) / block_size dot) by (apply Z.div_pos; lia).
  destruct (lookup_lt_is_Some_2 (scales dot) (Z.to_nat ((k_origin dot + off) / block_size dot))) as [s E]; [lia|].
  by rewrite E.
Qed.

Lemma step_Ok dot width st :
  fits dot → 0 <= offset st < size dot → all_counted (bounds st) →
  ∃ st' partial exact, evaluate_step dot width st = Ok st' ∧ step_spec dot width st st' partial exact.
Proof.
  intros Hf Hoff Hc. unfold all_counted, boundary_list in Hc.
  apply Forall_cons in Hc as [Hc1 Hc]. apply Forall_cons in Hc as [Hc2 Hc]. apply Forall_cons in Hc as [Hc3 Hc].
  apply Forall_cons in Hc as [Hc4 Hc]. apply Forall_cons in Hc as [Hc5 _].
  unfold evaluate_step. cbv zeta.
  assert (Hscale : (if is_bypass (operation dot) then Ok 0
      else scale_at dot (if is_bypass (operation dot) then 0 else (k_origin dot + offset st) / block_size dot))
      = Ok (pass_scale dot (offset st))).
  { unfold pass_scale. destruct (operation dot) eqn:E; cbn; try done; apply scale_at_Ok; (done || congruence). }
  rewrite Hscale. cbn [mbind res_bind].
  assert (Hlen : (if is_bypass (operation dot) then Z.min (dim dot) (size dot - offset st)
      else Z.min (Z.min (dim dot) (size dot - offset st)) (block_size dot -
        (if is_bypass (operation dot) then 0 else (k_origin dot + offset st) mod block_size dot)))
      = fragment_length dot (offset st)).
  { unfold fragment_length. by destruct (is_bypass (operation dot)). }
  rewrite Hlen.
  match goal with |- context [fragment dot width (offset st) ?n ?b (pe_partial (bounds st))] =>
    destruct (fragment_spec dot width (offset st) n b _ Hc1) as (partial & pe & Hfr & Hpe & Heqm & Hclean) end.
  rewrite Hfr. remember (products _) as exact eqn:Eexact.
  assert (Hext : is_external (operation dot) = true → is_bypass (operation dot) = false) by (by destruct (operation dot)).
  set (fl := is_external (operation dot) && _).
  assert (Hflush : fl = flushes dot (offset st)).
  { unfold fl, flushes. destruct (is_external (operation dot)) eqn:Ee; [|done]. cbn. by rewrite Hext. }
  rewrite Hflush. clear fl Hflush.
  destruct (flushes dot (offset st)) eqn:Efl; (eexists; exists partial, exact; split; [reflexivity|]); split;
    cbn [offset accumulator mathematical reconstructed bounds];
    rewrite ?Efl; try done; try lia.
  1, 3: unfold all_counted, boundary_list; cbn; repeat (apply Forall_cons; split; [by try apply observe_counted|]); by constructor.
    all: rewrite !clean_spec; unfold boundary_list; cbn; intros Hall.
  all: repeat (apply Forall_cons in Hall as [?Hb Hall]); clear Hall.
  all: repeat match goal with
    | H : overflow_count (observe _ _ _ _) = 0 |- _ => apply observe_clean in H as [? ?]; [|done] end.
  all: apply Hclean in Hb as [? ->].
  all: match goal with H : in_range ?w (transform _ _ _) = true |- _ => rewrite (wrap_in_range _ _ H) in * end.
  all: split; [repeat (apply Forall_cons; split; [done|]); by constructor|done].
Qed.

(** The loop ends within its fuel, and whatever every pass preserves holds at
    its end. *)
Lemma loop_rule (P : State → Prop) dot width st :
  fits dot → 0 <= offset st <= size dot → all_counted (bounds st) → P st →
  (∀ s s' partial exact, 0 <= offset s < size dot → P s → step_spec dot width s s' partial exact → P s') →
  ∀ fuel, size dot - offset st <= Z.of_nat fuel →
  ∃ st', evaluate_loop fuel dot width st = Ok st' ∧ offset st' = size dot ∧ all_counted (bounds st') ∧ P st'.
Proof.
  intros Hf Hoff Hc HP Hstep fuel. revert st Hoff Hc HP. induction fuel as [|fuel IH]; intros st Hoff Hc HP Hfuel.
  - cbn. destruct (Z.ltb_spec (offset st) (size dot)); [lia|]. exists st. split_and!; try done. lia.
  - cbn. destruct (Z.ltb_spec (offset st) (size dot)) as [Hlt|?].
    + destruct (step_Ok dot width st) as (s' & p & e & Hs & Hspec); [done|lia|done|]. rewrite Hs. cbn.
      pose proof (fragment_length_bounds dot (offset st) Hf ltac:(lia)).
      pose proof (sp_offset _ _ _ _ _ _ Hspec).
      apply IH; [lia|by eapply sp_counted|eapply (Hstep st); [lia|done|exact Hspec]|lia].
    + exists st. split_and!; try done. lia.
Qed.

(** ** The invariants *)

(** The vector operation multiplies by the factor of the position. *)
Lemma transform_factor dot off v :
  (operation dot = SHIFT → Forall (fun s => 0 <= s) (scales dot)) → 
  (if is_external (operation dot) then v * pass_scale dot off else transform v (pass_scale dot off) (operation dot))
  = v * factor dot (k_origin dot + off).
Proof.
  intros Hs. unfold factor, pass_scale. destruct (operation dot); cbn; [lia|done| |done].
  assert (0 <= scale_of dot (k_origin dot + off)).
  { unfold scale_of. destruct (scales dot !! _) as [s|] eqn:E; [|done]. cbn.
    specialize (Hs eq_refl). rewrite Forall_forall in Hs. by eapply Hs, list_elem_of_lookup_2. }
  destruct (Z.ltb_spec (scale_of dot (k_origin dot + off)) 0); [lia|]. by rewrite Z.shiftl_mul_pow2.
Qed.

Definition math_inv (dot : Dot) (st : State) : Prop := mathematical st = consumed dot (offset st).

Lemma math_step dot width s s' p e :
  (operation dot = SHIFT → Forall (fun s => 0 <= s) (scales dot)) → fits dot →
  0 <= offset s < size dot → math_inv dot s → step_spec dot width s s' p e → math_inv dot s'.
Proof.
  unfold math_inv. intros Hs Hf Hoff IH Hsp. destruct Hsp as [-> Ho _ _ Hm _ _ _].
  by rewrite Hm, Ho, consumed_fragment, transform_factor, IH by done.
Qed.

(** The value held so far: what was handed out, and the open block. *)
Definition held (dot : Dot) (st : State) : Z :=
  if is_external (operation dot) then reconstructed st + accumulator st * scale_of dot (k_origin dot + offset st)
  else accumulator st.

Definition exact_inv (dot : Dot) (st : State) : Prop :=
  (clean (bounds st) = true → held dot st = mathematical st) ∧
  (is_external (operation dot) = true → offset st = size dot → accumulator st = 0).

Lemma open_block dot off :
  fits dot → is_external (operation dot) = true → 0 <= off < size dot → flushes dot off = false →
  scale_of dot (k_origin dot + (off + fragment_length dot off)) = scale_of dot (k_origin dot + off) ∧
  off + fragment_length dot off ≠ size dot.
Proof.
  intros Hf He Hoff Hfl. unfold flushes in Hfl. rewrite He in Hfl. cbn in Hfl. apply orb_false_iff in Hfl as [H1 H2].
  apply Z.eqb_neq in H1, H2. split; [|done]. unfold scale_of. do 3 f_equal.
  pose proof (fragment_length_bounds _ _ Hf Hoff).
  assert (Hb : 0 < block_size dot) by (apply (fits_block _ Hf); by destruct (operation dot)).
  assert (fragment_length dot off <= block_size dot - (k_origin dot + off) mod block_size dot).
  { unfold fragment_length. destruct (operation dot); cbn in *; try done. lia. }
  pose proof (Z.mod_pos_bound (k_origin dot + off) (block_size dot)).
  pose proof (Z.div_mod (k_origin dot + off) (block_size dot)).
  symmetry. apply (Z.div_unique _ _ _ ((k_origin dot + off) mod block_size dot + fragment_length dot off)); lia.
Qed.

Lemma exact_step dot width s s' p e :
  fits dot → 0 <= offset s < size dot → exact_inv dot s → step_spec dot width s s' p e → exact_inv dot s'.
Proof.
  intros Hf Hoff [IH _] [_ Ho _ _ Hm Ha Hr Hcl]. unfold exact_inv, held in *.
  destruct (is_external (operation dot)) eqn:He.
  - assert (Hop : operation dot = EXTERNAL) by (by destruct (operation dot)). rewrite Hop in Ha, Hr, Hcl. cbn in *.
    assert (Hps : pass_scale dot (offset s) = scale_of dot (k_origin dot + offset s)).
    { unfold pass_scale. by rewrite Hop. }
    rewrite Hps in *. split.
    + intros (Hc & -> & R1 & R2)%Hcl. specialize (IH Hc).
      rewrite (wrap_in_range _ _ R1), (wrap_in_range _ _ R2) in *.
      destruct (flushes dot (offset s)) eqn:Efl; [rewrite Ha, Hr, Hm; lia|].
      destruct (open_block dot (offset s) Hf He Hoff Efl) as [Eo _]. rewrite Ha, Hr, Hm, Ho, Eo. lia.
    + intros _ Hend. destruct (flushes dot (offset s)) eqn:Efl; [done|].
      destruct (open_block dot (offset s) Hf He Hoff Efl) as [_ Hne]. lia.
  - assert (Efl : flushes dot (offset s) = false) by (unfold flushes; by rewrite He). rewrite Efl in *.
    split; [|done]. intros (Hc & -> & R1 & R2)%Hcl. specialize (IH Hc).
    rewrite (wrap_in_range _ _ R1) in *. rewrite (wrap_in_range _ _ R2) in *. rewrite Ha, Hm. lia.
Qed.

(** Modulo the word, for the operations that respect it. *)
Definition modular (op : Operation) : Prop := op = BYPASS ∨ op = MULTIPLY.
Definition mod_inv (width : Z) (st : State) : Prop :=
  eqm width (accumulator st) (mathematical st) ∧ (1 <= width → in_range width (accumulator st) = true).

Lemma mod_step dot width s s' p e :
  modular (operation dot) → mod_inv width s → step_spec dot width s s' p e → mod_inv width s'.
Proof.
  intros Hop [IH _] [_ _ _ Hp Hm Ha _ _].
  assert (He : is_external (operation dot) = false) by (by destruct Hop as [-> | ->]).
  assert (Efl : flushes dot (offset s) = false) by (unfold flushes; by rewrite He). rewrite Efl, He in *.
  split; rewrite Ha; [|apply wrap_range].
  rewrite Hm. rewrite !eqm_wrap. rewrite IH. destruct Hop as [-> | ->]; cbn; by rewrite Hp.
Qed.

(** ** The theorems *)
Section Theorems.
Context `{Host}.
Context (source : Config.Source) (fingerprint : string) (files : string → option string).
Hypothesis dims_positive : ∀ d, d ∈ Config.dimensions source → 0 < d.

Lemma profile_dimension a w d cfg :
  Config.profile_config source fingerprint files a w d = Ok cfg → 0 < d.
Proof using dims_positive.
  unfold Config.profile_config. intros [_ Hrun]%check_bind. apply check_bind in Hrun as [Hd _].
  apply andb_prop in Hd as [_ Hd]. by apply dims_positive, z_in_spec.
Qed.

Lemma admit_fits dot width : admit_dot source fingerprint files dot = Ok width → fits dot.
Proof using dims_positive.
  unfold admit_dot. intros [Hc Hadm]%check_bind. apply bind_Ok in Hadm as (profile & Hp%profile_dimension & Hadm).
  apply check_bind in Hadm as [_ Hadm]. apply bind_Ok in Hadm as (? & Hs & _). z_props.
  assert (0 < size dot) by (unfold size in *; lia).
  assert (Hlen : length (activations dot) = length (weights dot)) by by apply Nat.eqb_eq.
  assert (Hop : operation dot ≠ BYPASS → 0 < block_size dot ∧
    (k_origin dot + size dot - 1) / block_size dot < Z.of_nat (length (scales dot))).
  { intros Hop. replace (is_bypass (operation dot)) with false in Hs by (by destruct (operation dot)).
    apply check_bind in Hs as [? Hs]. apply check_Ok_any in Hs. z_props. split; lia. }
  split; try done; [|by intros [? ?]%Hop..].
  unfold pairs, size. rewrite length_zip_with. lia.
Qed.

Lemma initial_counted dot : all_counted (bounds (initial dot)).
Proof. repeat (apply Forall_cons; split; [done|]). by constructor. Qed.

(** An evaluation is its admission followed by the loop, and what every pass
    preserves holds of the state the result is read from. *)
Lemma evaluate_rule (P : State → Prop) dot width :
  admit_dot source fingerprint files dot = Ok width → P (initial dot) →
  (fits dot → ∀ s s' partial exact, 0 <= offset s < size dot → P s → step_spec dot width s s' partial exact → P s') →
  ∃ st, evaluate source fingerprint files dot = Ok (finish dot width st) ∧ offset st = size dot ∧
    all_counted (bounds st) ∧ P st ∧ fits dot.
Proof using dims_positive.
  intros Hadm HP Hstep. pose proof (admit_fits _ _ Hadm) as Hf.
  destruct (loop_rule P dot width (initial dot) Hf) with (fuel := length (activations dot)) as (st & Hl & Ho & Hc & Hst).
  - cbn. pose proof (fits_size _ Hf). lia.
  - apply initial_counted.
  - done.
  - by apply Hstep.
  - cbn. unfold size. lia.
  - exists st. split; [|done]. unfold evaluate. rewrite Hadm. cbn [mbind res_bind]. by rewrite Hl.
Qed.

Lemma evaluate_admitted dot r :
  evaluate source fingerprint files dot = Ok r → ∃ width, admit_dot source fingerprint files dot = Ok width.
Proof. unfold evaluate. intros (w & Hw & _)%bind_Ok. eauto. Qed.

(** C35: The evaluation of a dot always ends: it raises exactly when its
    admission raises, with the same exception, and otherwise returns a result
    of the admitted datapath width within one pass per product. *)
Theorem evaluate_ends dot :
  match admit_dot source fingerprint files dot with
  | Ok width => ∃ r, evaluate source fingerprint files dot = Ok r ∧ datapath_width r = width
  | Err e => evaluate source fingerprint files dot = Err e
  end.
Proof using dims_positive.
  destruct (admit_dot source fingerprint files dot) as [width|e] eqn:E.
  - destruct (evaluate_rule (fun _ => True) dot width E) as (st & Hr & _); [done|done|]. by exists (finish dot width st).
  - unfold evaluate. by rewrite E.
Qed.

Lemma evaluate_reference_of dot r :
  evaluate source fingerprint files dot = Ok r →
  (operation dot = SHIFT → Forall (fun s => 0 <= s) (scales dot)) →
  mathematical_value r = reference dot.
Proof using dims_positive.
  intros Hr Hs. destruct (evaluate_admitted _ _ Hr) as [width Hadm].
  destruct (evaluate_rule (math_inv dot) dot width Hadm) as (st & Hst & Ho & _ & Hm & Hf).
  - done.
  - intros Hf s s' p e. by apply math_step.
  - rewrite Hr in Hst. apply Ok_eq in Hst as ->. cbn. by rewrite Hm, Ho, consumed_all.
Qed.

(** The mathematical value of an evaluation is the scaled dot product: the
    sum of every product times the factor of its own position ([1], the scale
    of its block, or two to that scale), however [dim] cuts it into fragments.
    A shift is the exception when a scale is negative, since the hardware then
    rounds every fragment. *)
Theorem evaluate_reference dot r :
  evaluate source fingerprint files dot = Ok r →
  (operation dot = SHIFT → Forall (fun s => 0 <= s) (scales dot)) →
  mathematical_value r = reference dot.
Proof using dims_positive. apply evaluate_reference_of. Qed.

Lemma finish_clean dot width st :
  all_counted (bounds st) → overflow_free (finish dot width st) = true → clean (bounds st) = true.
Proof.
  intros Hc. unfold overflow_free. rewrite !clean_spec. unfold all_counted, boundary_list in *. cbn.
  repeat (rewrite Forall_cons). intros (? & ? & ? & Hp & ? & _). split_and!; try done.
  rewrite !Forall_cons in Hc. destruct Hc as (_ & _ & _ & Hc & _).
  revert Hp. destruct (is_external (operation dot)); [done|]. by intros [? _]%observe_clean.
Qed.

Lemma evaluate_exact_of dot r :
  evaluate source fingerprint files dot = Ok r → overflow_free r = true → value r = mathematical_value r.
Proof using dims_positive.
  intros Hr Hfree. destruct (evaluate_admitted _ _ Hr) as [width Hadm].
  destruct (evaluate_rule (exact_inv dot) dot width Hadm) as (st & Hst & Ho & Hc & [He Hend] & Hf).
  - split; cbn; [|done]. unfold held. cbn. by destruct (is_external (operation dot)).
  - intros Hf s s' p e. by apply exact_step.
  - rewrite Hr in Hst. apply Ok_eq in Hst as ->. apply finish_clean in Hfree; [|done].
    specialize (He Hfree). unfold held in He. cbn. destruct (is_external (operation dot)) eqn:Ee; [|done].
    rewrite Hend in He by done. lia.
Qed.

(** C33: When no boundary of an evaluation overflowed, not even one that a later
    term cancelled, the value the datapath delivers is the mathematical value:
    wrapping never changed it. *)
Theorem evaluate_exact dot r :
  evaluate source fingerprint files dot = Ok r → overflow_free r = true → value r = mathematical_value r.
Proof using dims_positive. apply evaluate_exact_of. Qed.

(** C34: Whatever overflowed, the value of an unscaled or multiplied dot is the
    scaled dot product modulo the width of the datapath, and fits that width. *)
Theorem evaluate_modular dot r :
  evaluate source fingerprint files dot = Ok r → modular (operation dot) → 1 <= datapath_width r →
  value r mod 2 ^ datapath_width r = reference dot mod 2 ^ datapath_width r ∧
  - 2 ^ (datapath_width r - 1) <= value r < 2 ^ (datapath_width r - 1).
Proof using dims_positive.
  intros Hr Hop Hw. rewrite <-(evaluate_reference_of dot r Hr) by (intros E; destruct Hop; congruence).
  destruct (evaluate_admitted _ _ Hr) as [width Hadm].
  destruct (evaluate_rule (mod_inv width) dot width Hadm) as (st & Hst & _ & _ & [Hm Hrange] & _).
  - split; [done|]. intros ?. apply in_range_spec. cbn. assert (0 < 2 ^ (width - 1)) by (apply Z.pow_pos_nonneg; lia). lia.
  - intros _ s s' p e _. by apply mod_step.
  - rewrite Hr in Hst. apply Ok_eq in Hst as ->. cbn in *.
    replace (is_external (operation dot)) with false by (by destruct Hop as [-> | ->]).
    split; [exact Hm|]. by apply in_range_spec, Hrange.
Qed.

(** The value of an overflow-free evaluation does not depend on the array:
    dots that differ in [dim] and in their datapath width alone have the same
    value when neither overflowed. *)
Theorem evaluate_array_independent d1 d2 r1 r2 :
  activations d1 = activations d2 → weights d1 = weights d2 → scales d1 = scales d2 → 
  block_size d1 = block_size d2 → k_origin d1 = k_origin d2 → operation d1 = operation d2 →
  (operation d1 = SHIFT → Forall (fun s => 0 <= s) (scales d1)) →
  evaluate source fingerprint files d1 = Ok r1 → evaluate source fingerprint files d2 = Ok r2 →
  overflow_free r1 = true → overflow_free r2 = true → value r1 = value r2.
Proof using dims_positive.
  intros Ea Ew Es Eb Ek Eo Hs H1 H2 F1 F2.
  assert (Exact : ∀ d r, evaluate source fingerprint files d = Ok r → overflow_free r = true →
    (operation d = SHIFT → Forall (fun s => 0 <= s) (scales d)) → value r = reference d).
  { intros d r Hr Hfree Hd. rewrite <-(evaluate_reference_of d r Hr Hd). by apply (evaluate_exact_of d). }
  rewrite (Exact d1 r1), (Exact d2 r2); try done; [|by rewrite <-Eo, <-Es].
  unfold reference, pairs. rewrite <-Ea, <-Ew, <-Ek. generalize (k_origin d1).
  induction (zip (activations d1) (weights d1)) as [|[a w] l IH]; intros k; [done|]. cbn. rewrite IH. f_equal.
  f_equal. unfold factor, scale_of. by rewrite Eo, Es, Eb.
Qed.
End Theorems.

(** ** The cases of the source's self test *)

Definition repository_file (path : string) : option string :=
  match Config.generated_files Config.repository_source "f" with Ok l => sget path l | Err _ => None end.
Definition run (dot : Dot) : res Result := evaluate (H := text_host) Config.repository_source "f" repository_file dot.

Lemma repository_dims d : d ∈ Config.dimensions Config.repository_source → 0 < d.
Proof. cbn. rewrite !elem_of_cons. intros [-> |[-> |[-> |Hd]]]; [lia..|inversion Hd]. Qed.

Definition plain : Location := {| route := "independent-dot"; layer := "unspecified"; stripe := 0; row := 0; column := 0 |}.
Definition dot_of (a w s : list Z) (bits : Z) (diagnostic : option Z) (d : Z) (op : Operation) : Dot :=
  {| activations := a; weights := w; scales := s; operand_bits := bits; diagnostic_width := diagnostic; dim := d;
     block_size := 32; k_origin := 0; operation := op; location := plain |}.

(** [overflow]: 8,192 products of [16 * 2 ^ 14] exceed 32 bits. *)
Definition overflow (op : Operation) : Dot :=
  dot_of (replicate 8192 (-128)) (replicate 8192 (-128)) (replicate 256 16) 8 None 16 op.
(** [wide]: three products of 16-bit operands. *)
Definition wide (diagnostic : option Z) (d : Z) : Dot :=
  dot_of (replicate 3 (-32768)) (replicate 3 (-32768)) [1] 16 diagnostic d MULTIPLY.

Definition reports (dot : Dot) (v m : Z) (free : bool) : bool :=
  match run dot with
  | Ok r => (value r =? v) && (mathematical_value r =? m) && Bool.eqb (overflow_free r) free
  | Err _ => false
  end.

Example overflow_wraps : reports (overflow MULTIPLY) (- 2 ^ 31) (2 ^ 31) false = true.
Proof. vm_compute. reflexivity. Qed.
Example external_is_exact : reports (overflow EXTERNAL) (2 ^ 31) (2 ^ 31) true = true.
Proof. vm_compute. reflexivity. Qed.
Example wide_is_exact : reports (wide None 16) 3221225472 3221225472 true = true.
Proof. vm_compute. reflexivity. Qed.
Example narrow_overflows : reports (wide (Some 32) 16) (-1073741824) 3221225472 false = true.
Proof. vm_compute. reflexivity. Qed.
Example wide_other_array : reports (wide None 32) 3221225472 3221225472 true = true.
Proof. vm_compute. reflexivity. Qed.

Lemma reports_Ok dot v m free :
  reports dot v m free = true → ∃ r, run dot = Ok r ∧ value r = v ∧ mathematical_value r = m ∧ overflow_free r = free.
Proof.
  unfold reports. destruct (run dot) as [r|]; [|done]. intros E. z_props. by exists r.
Qed.

Lemma evaluate_ends_witness :
  match admit_dot (H := text_host) Config.repository_source "f" repository_file (overflow SHIFT) with
  | Ok width => ∃ r, run (overflow SHIFT) = Ok r ∧ datapath_width r = width
  | Err e => run (overflow SHIFT) = Err e
  end.
Proof. apply (@evaluate_ends text_host Config.repository_source "f" repository_file repository_dims). Defined.

Lemma evaluate_reference_witness : ∃ r, run (overflow EXTERNAL) = Ok r ∧ mathematical_value r = reference (overflow EXTERNAL).
Proof.
  destruct (reports_Ok _ _ _ _ external_is_exact) as (r & E & _). exists r. split; [exact E|].
  apply (@evaluate_reference text_host Config.repository_source "f" repository_file repository_dims); [exact E|discriminate].
Defined.

Lemma evaluate_exact_witness : ∃ r, run (wide None 16) = Ok r ∧ value r = mathematical_value r.
Proof.
  destruct (reports_Ok _ _ _ _ wide_is_exact) as (r & E & _ & _ & Hf). exists r. split; [exact E|].
  exact (@evaluate_exact text_host Config.repository_source "f" repository_file repository_dims _ r E Hf).
Defined.

Lemma overflow_width : match run (overflow MULTIPLY) with Ok r => 1 <=? datapath_width r | Err _ => false end = true.
Proof. vm_compute. reflexivity. Qed.

Lemma evaluate_modular_witness :
  ∃ r, run (overflow MULTIPLY) = Ok r ∧
    value r mod 2 ^ datapath_width r = reference (overflow MULTIPLY) mod 2 ^ datapath_width r.
Proof.
  destruct (reports_Ok _ _ _ _ overflow_wraps) as (r & E & _). exists r. split; [exact E|].
  pose proof overflow_width as Hw. rewrite E in Hw. apply Z.leb_le in Hw.
  apply (@evaluate_modular text_host Config.repository_source "f" repository_file repository_dims (overflow MULTIPLY) r E);
    [right; reflexivity|exact Hw].
Defined.

Lemma evaluate_array_independent_witness :
  ∃ r1 r2, run (wide None 16) = Ok r1 ∧ run (wide None 32) = Ok r2 ∧ value r1 = value r2.
Proof.
  destruct (reports_Ok _ _ _ _ wide_is_exact) as (r1 & E1 & _ & _ & F1).
  destruct (reports_Ok _ _ _ _ wide_other_array) as (r2 & E2 & _ & _ & F2).
  exists r1, r2. split; [exact E1|]. split; [exact E2|].
  apply (@evaluate_array_independent text_host Config.repository_source "f" repository_file repository_dims
    (wide None 16) (wide None 32)); [reflexivity..|discriminate|exact E1|exact E2|exact F1|exact F2].
Defined.
