(* ===== verification/SqliteGraph.v ===== *)
(** * The execution graph in columns

    The tables of an execution store and [_Graph] with [_prepare] of
    [sim/cycle/scheduler_sqlite.py]: one parse per node, two passes over the
    edges that count and then place the children of every (parent, milestone)
    in one array, and the queues of the nodes that wait for nothing, one for
    each group of nodes with the same resources.

    A table is the list of its rows in the order the query yields them.  A body
    column holds the text of a JSON document and is modelled as the document.
    The identities of a row are never NULL; a milestone may be.  A queue is a
    binary heap in the code ([heapq]); only its order shows, so it is a sorted
    list here.  The unsigned columns ([array('Q')], [array('I')]) hold numbers
    far below their width for any graph that fits a file. *)
From S2P Require Import Prelude Records Rational ExecutionIR Services Scheduler.
Set Default Goal Selector "!".

Record Edge := { edge_node : string; edge_parent : string; edge_milestone : option string }.

Record Database := {
  db_nodes : list (string * json);
  db_edges : list Edge;
  db_services : list (string * json);
  db_manifest : option json;
}.

(** [SLOT.get(milestone)], with [SLOT] the positions in [FIRE_ORDER]. *)
Definition slot (m : Milestone) : nat :=
  match m with ACCEPTED => 0 | RESULT_READY => 1 | RESOURCE_READY => 2 end.
Definition slot_of (milestone : option string) : option nat :=
  match milestone with
  | Some value => slot <$> List.find (fun m => String.eqb (milestone_value m) value) all_milestones
  | None => None
  end.

(** [l[i]] and [l[i] = v] on an array, for an index that is not negative. *)
Definition at_ {A} (l : list A) (i : nat) : res A :=
  match l !! i with Some x => Ok x | None => Err (IndexError "array index out of range") end.
Definition put {A} (l : list A) (i : nat) (v : A) : res (list A) :=
  if Nat.ltb i (length l) then Ok (<[i := v]> l) else Err (IndexError "array assignment index out of range").
(** [d[key]] on the dictionary of positions. *)
Definition position_in (index : list (string * nat)) (key : string) : res nat :=
  match sget key index with Some i => Ok i | None => Err (KeyError key) end.

(** [_node(body)] *)
Definition stored_node (body : json) : res Node :=
  let* r := object_value body in
  ensure (match pget r "dependencies" with JArr [] => true | _ => false end)
    "SQLite edges must be the sole dependency authority" ;;;
  let* graph := parse_ir [("schema", JStr "im2p-execution-ir"); ("version", JInt 1); ("scope", JStr "SYNTHETIC");
    ("source_sha256", JStr "node-shape-validation-only"); ("nodes", JArr [JObj r])] in
  match nodes graph with
  | n :: _ => Ok n
  | [] => Err (IndexError "tuple index out of range")
  end.

(** [json.dumps([node.kind == Kind.NPU, sorted(node.resources)])]: the text
    determines the two values. *)
Definition group_key (n : Node) : bool * list string := (is_npu (kind n), sort_strs (resources n)).
Definition key_eqb (x y : bool * list string) : bool := bool_decide (x = y).

(** ** [_Graph] *)

(** A queue entry [(order, identity, index, node)]. *)
Record Entry := { entry_node : Node; entry_index : nat }.
Abbreviation Queue := (list Entry).
Definition entry_before (x y : Entry) : bool := before (entry_node x) (entry_node y).
(** [heapq.heappush] *)
Fixpoint push (x : Entry) (q : Queue) : Queue :=
  match q with
  | [] => [x]
  | y :: q' => if entry_before x y then x :: q else y :: push x q'
  end.

Record Graph := {
  index : list (string * nat);
  columns : list Node;
  group : list nat;
  offsets : list nat;
  children : list nat;
}.

(** What changes while the graph is scheduled: the edges that have not fired,
    for each node, and the queues. *)
Record Readiness := { remaining : list Z; queues : list Queue }.

Definition add_node (g : Graph) (n : Node) (code : nat) : res Graph :=
  if smem (identity n) (index g) then Err (IntegrityError "UNIQUE constraint failed: state.identity")
  else if SQLITE_INTEGER_LIMIT <=? order n then Err (OverflowError "Python int too large to convert to SQLite INTEGER")
  else Ok {| index := sset (identity n) (length (columns g)) (index g); columns := columns g ++ [n];
             group := group g ++ [code]; offsets := offsets g; children := children g |}.

(** The first pass over the edges. *)
Record Counting := { counts : list nat; incoming : list Z; missing : bool; unknown : bool }.
Definition count_edge (g : Graph) (st : Counting) (e : Edge) : res Counting :=
  match sget (edge_parent e) (index g), sget (edge_node e) (index g) with
  | Some source, Some child =>
      let* edges := at_ (incoming st) child in
      let* incoming := put (incoming st) child (edges + 1) in
      match slot_of (edge_milestone e) with
      | None =>
          Ok {| counts := counts st; incoming := incoming; missing := missing st;
                unknown := unknown st || match edge_milestone e with Some _ => true | None => false end |}
      | Some s =>
          let* c := at_ (counts st) (3 * source + s) in
          let* counts := put (counts st) (3 * source + s) (S c) in
          Ok {| counts := counts; incoming := incoming; missing := missing st; unknown := unknown st |}
      end
  | _, _ => Ok {| counts := counts st; incoming := incoming st; missing := true; unknown := unknown st |}
  end.

(** The running totals: where the children of each position begin. *)
Fixpoint running (total : nat) (counts : list nat) : list nat :=
  match counts with
  | [] => [total]
  | c :: counts => total :: running (total + c) counts
  end.

(** The second pass: the state is the cursors and the array of children. *)
Definition place_edge (g : Graph) (st : list nat * list nat) (e : Edge) : res (list nat * list nat) :=
  match slot_of (edge_milestone e) with
  | None => Ok st
  | Some s =>
      let* source := position_in (index g) (edge_parent e) in
      let* at_child := at_ st.1 (3 * source + s) in
      let* child := position_in (index g) (edge_node e) in
      let* children := put st.2 at_child child in
      let* cursor := put st.1 (3 * source + s) (S at_child) in
      Ok (cursor, children)
  end.

Definition link (g : Graph) (edges : list Edge) : res (Graph * list Z) :=
  let nodes := length (columns g) in
  let* counted := fold_res (count_edge g)
    {| counts := replicate (3 * nodes) 0%nat; incoming := replicate nodes 0; missing := false; unknown := false |} edges in
  ensure (negb (missing counted)) "unresolved SQLite schedule dependency" ;;;
  ensure (negb (unknown counted)) "unknown dependency milestone" ;;;
  let offsets := running 0 (counts counted) in
  let* total := at_ offsets (3 * nodes) in
  let* placed := fold_res (place_edge g) (take (3 * nodes) offsets, replicate total 0%nat) edges in
  Ok ({| index := index g; columns := columns g; group := group g; offsets := offsets; children := placed.2 |},
      incoming counted).

(** [ready]: the node waits for nothing and joins the queue of its group. *)
Definition ready (g : Graph) (i : nat) (qs : list Queue) : res (list Queue) :=
  let* code := at_ (group g) i in
  let* n := at_ (columns g) i in
  let* q := at_ qs code in
  put qs code (push {| entry_node := n; entry_index := i |} q).

(** [self.children[self.offsets[position]:self.offsets[position + 1]]] *)
Definition slice (g : Graph) (position : nat) : res (list nat) :=
  let* first := at_ (offsets g) position in
  let* last := at_ (offsets g) (S position) in
  Ok (take (last - first) (drop first (children g))).

Definition release_child (g : Graph) (r : Readiness) (child : nat) : res Readiness :=
  let* edges := at_ (remaining r) child in
  let* remaining := put (remaining r) child (edges - 1) in
  let* queues := (if edges - 1 =? 0 then ready g child (queues r) else Ok (queues r)) in
  Ok {| remaining := remaining; queues := queues |}.
Definition release (g : Graph) (i : nat) (s : nat) (r : Readiness) : res Readiness :=
  let* l := slice g (3 * i + s) in fold_res (release_child g) r l.

(** ** [_prepare] *)

Definition empty_graph : Graph := {| index := []; columns := []; group := []; offsets := []; children := [] |}.

(** The state is the graph and the codes of the groups. *)
Definition load_node (st : Graph * list ((bool * list string) * nat)) (row : string * json)
    : res (Graph * list ((bool * list string) * nat)) :=
  let '(g, groups) := st in
  let* n := stored_node row.2 in
  ensure (String.eqb (identity n) row.1) "SQLite node identity/body mismatch" ;;;
  let code := default (length groups) (aget key_eqb (group_key n) groups) in
  let groups := (if amem key_eqb (group_key n) groups then groups else aset key_eqb (group_key n) code groups) in
  ensure (Nat.leb (length groups) 4096) "explicit resource scenario exceeds bounded scheduler group limit" ;;;
  let* g := add_node g n code in
  Ok (g, groups).

Definition check_service (g : Graph) (services : list (string * json)) (row : string * json) : res unit :=
  let* i := position_in (index g) row.1 in
  let* n := at_ (columns g) i in
  ensure (Bool.eqb (has_service n) (smem row.1 services)) "missing/extra SQLite service".

(** [for index, remaining in enumerate(graph.remaining)] *)
Definition start_ready (g : Graph) (remaining : list Z) (qs : list Queue) : res (list Queue) :=
  fold_res (fun qs '(i, edges) => if edges =? 0 then ready g i qs else Ok qs) qs (imap pair remaining).

Definition prepare (db : Database) : res (Graph * Readiness) :=
  let* loaded := fold_res load_node (empty_graph, []) (db_nodes db) in
  let '(g, groups) := loaded in
  ensure (match columns g with [] => false | _ => true end) "empty SQLite execution graph" ;;;
  let* linked := link g (db_edges db) in
  let '(g, remaining) := linked in
  iter_res (check_service g (db_services db)) (db_nodes db) ;;;
  ensure (forallb (fun row => smem row.1 (db_nodes db)) (db_services db)) "extra SQLite service" ;;;
  let* qs := start_ready g remaining (replicate (length groups) []) in
  Ok (g, {| remaining := remaining; queues := qs |}).
