(* ===== verification/SqliteScheduler.v ===== *)
(** * The scheduler on a database

    [sim/cycle/scheduler_sqlite.py]: the schedule of [scheduler.py] computed
    from the tables of an execution store.  Instead of a pass over all pending
    nodes it keeps the ready nodes in queues, one per group of nodes with the
    same resources, and the milestones still to come in a queue of events; a
    node is read, timed and written once, and the rows are stored in batches.
    The result is verified by scheduling again against the stored rows.

    Copying files, the storage budget and the digests of files are not
    modelled: a digest is an argument. *)
From S2P Require Import Prelude Records Profiles Domains Rational ExecutionIR Services Sequence Admission Provider.
From S2P Require Import Scheduler SqliteGraph.
Set Default Goal Selector "!".

Definition RESULT_BATCH : nat := 2048.
Definition EVENT_CAPACITY : nat := 16384.
Definition FIRE_ORDER : list Milestone := [ACCEPTED; RESULT_READY; RESOURCE_READY].

(** A row of [results]: identity, ordinal and the scheduled node. *)
Abbreviation Row := (string * nat * record)%type.

(** An event [(epoch, identity, milestone.value, index)]. *)
Record Event := { epoch : Qc; event_identity : string; event_milestone : Milestone; event_index : nat }.
Definition event_before (x y : Event) : bool :=
  if qltb (epoch x) (epoch y) then true
  else if qltb (epoch y) (epoch x) then false
  else match String.compare (event_identity x) (event_identity y) with
    | Lt => true
    | Gt => false
    | Eq =>
        match String.compare (milestone_value (event_milestone x)) (milestone_value (event_milestone y)) with
        | Lt => true
        | Gt => false
        | Eq => Nat.leb (event_index x) (event_index y)
        end
    end.
Fixpoint push_event (x : Event) (l : list Event) : list Event :=
  match l with
  | [] => [x]
  | y :: l' => if event_before x y then x :: l else y :: push_event x l'
  end.

(** [json.dumps(.., sort_keys=True, ..)] of both sides is the same text. *)
Definition same_record `{Host} (actual expected : record) : bool :=
  String.eqb (json_dumps (JObj actual)) (json_dumps (JObj expected)).

(** ** Reading a stored epoch *)

Definition milestone_key (m : Milestone) : string :=
  match m with
  | ACCEPTED => "accepted_ns" | RESULT_READY => "result_ready_ns" | RESOURCE_READY => "resource_ready_ns"
  end.
Definition stored_epoch (body : record) (m : Milestone) : res Qc :=
  let* value := item body (milestone_key m) in
  let* epoch := object_value value in
  let* numerator := integer epoch "numerator" in
  let* denominator := integer epoch "denominator" in
  fraction numerator denominator.

(** [SELECT e.milestone,r.body FROM ir.edges e JOIN results r ON
    r.identity=e.parent WHERE e.node=?] *)
Definition parent_rows (edges : list Edge) (stored : list Row) (identity : string) : list (option string * record) :=
  List.flat_map (fun e => if String.eqb (edge_node e) identity
    then map (fun row => (edge_milestone e, row.2)) (List.filter (fun row => String.eqb row.1.1 (edge_parent e)) stored)
    else []) edges.
Definition later_epoch (ready : Qc) (row : option string * record) : res Qc :=
  let* m := parse_milestone (default "None" row.1) in
  let* epoch := stored_epoch row.2 m in
  Ok (qmax ready epoch).
Definition _request_available (edges : list Edge) (stored : list Row) (n : Node) : res Qc :=
  fold_res later_epoch 0%Qc (parent_rows edges stored (ExecutionIR.identity n)).

(** [INSERT INTO results]: both columns are unique. *)
Definition store_rows (stored rows : list Row) : res (list Row) :=
  let l := stored ++ rows in
  if distinct String.eqb l.*1.*1 && distinct Nat.eqb l.*1.*2 then Ok l
  else Err (IntegrityError "UNIQUE constraint failed: results").

(** ** Choice of a node *)

(** [sorted(queue for queue in queues if queue)]: the nonempty queues by their
    heads, each with its code.  Two heads differ in their identity. *)
Fixpoint heads_from (code : nat) (qs : list Queue) : list (nat * Entry) :=
  match qs with
  | [] => []
  | [] :: qs => heads_from (S code) qs
  | (x :: _) :: qs => (code, x) :: heads_from (S code) qs
  end.
Fixpoint insert_head (x : nat * Entry) (l : list (nat * Entry)) : list (nat * Entry) :=
  match l with
  | [] => [x]
  | y :: l' => if entry_before x.2 y.2 then x :: l else y :: insert_head x l'
  end.
Definition sorted_heads (qs : list Queue) : list (nat * Entry) := foldr insert_head [] (heads_from 0 qs).

Section SqliteScheduler.
Context `{Host} `{PlainProvider} `{SequenceProvider}.

Record SqliteScheduleInputs := { provider : TimingProvider; scenario : Scenario }.

Record Run := {
  readiness : Readiness;
  engine : ServiceExecutor;
  events : list Event;
  buffer : list Row;
  results : list Row;
  now : Qc;
  result_end : Qc;
  resource_end : Qc;
  finished : nat;
}.

Definition is_stateful (p : TimingProvider) : bool :=
  match sequence_of p with Some _ => true | None => false end.

Section Loop.
Context (db : Database) (graph : Graph) (sc : Scenario) (cycle_ns : Qc) (stateful : bool).
Context (observed : option (list (string * nat * json))).

(** [while events and events[0][0] <= now] *)
Fixpoint drain (now : Qc) (l : list Event) (r : Readiness) : res (list Event * Readiness) :=
  match l with
  | [] => Ok ([], r)
  | ev :: l' =>
      if qleb (epoch ev) now then
        let* r := release graph (event_index ev) (slot (event_milestone ev)) r in drain now l' r
      else Ok (l, r)
  end.

(** The first head that can start now, or the times at which they can. *)
Fixpoint pick (e : ServiceExecutor) (now : Qc) (l : list (nat * Entry)) (future : list Qc)
    : option (nat * Entry) * list Qc :=
  match l with
  | [] => (None, future)
  | x :: l =>
      let t := earliest cycle_ns e (entry_node x.2) now in
      if bool_decide (t = now) then (Some x, future) else pick e now l (future ++ [t])
  end.

Definition node_services (n : Node) : res Services :=
  let* services := match sget (ExecutionIR.identity n) (db_services db) with
    | None => Ok {| cpu := []; npu := [] |}
    | Some body => let* r := object_value body in parse_services r
    end in
  ensure (set_eq String.eqb ((cpu services).*1 ++ (npu services).*1) (match service n with Some s => [s] | None => [] end))
    "SQLite service identity mismatch" ;;;
  Ok services.

Definition check_observed (ordinal : nat) (n : Node) (r : record) : res unit :=
  match observed with
  | None => Ok tt
  | Some rows =>
      require_m (match List.find (fun row => Nat.eqb row.1.2 ordinal) rows with
        | None => Ok false
        | Some (i, _, body) => Ok (String.eqb i (ExecutionIR.identity n)) andM (let* actual := object_value body in Ok (same_record actual r))
        end) (ExecutionError "SQLite schedule node/endpoint mismatch")
  end.

(** A milestone of the node that has just been started fires now or later. *)
Definition fire (now : Qc) (i : nat) (s : ScheduledNode) (st : Readiness * list Event) (m : Milestone)
    : res (Readiness * list Event) :=
  let t := milestone_of s m in
  if qleb t now then let* r := release graph i (slot m) st.1 in Ok (r, st.2)
  else Ok (st.1, push_event {| epoch := t; event_identity := scheduled_identity s; event_milestone := m; event_index := i |} st.2).

Definition pop_queue (code : nat) (r : Readiness) : res Readiness :=
  let* q := at_ (queues r) code in
  let* qs := put (queues r) code (tail q) in
  Ok {| remaining := remaining r; queues := qs |}.

(** The body of the loop for the node it starts. *)
Definition start (st : Run) (code : nat) (x : Entry) : res Run :=
  let n := entry_node x in
  let* services := node_services n in
  let* stored := (if stateful then store_rows (results st) (buffer st) else Ok (results st)) in
  let rows := (if stateful then [] else buffer st) in
  let* available := (if stateful then Some <$> _request_available (db_edges db) stored n else Ok None) in
  let '(e, outcome) := execute_node sc cycle_ns n services (now st) available (engine st) in
  let* completed := outcome in
  let* r := pop_queue code (readiness st) in
  let body := scheduled_record completed in
  check_observed (finished st) n body ;;;
  let rows := rows ++ [(ExecutionIR.identity n, finished st, body)] in
  let full := Nat.eqb (length rows) RESULT_BATCH in
  let* stored := (if full then store_rows stored rows else Ok stored) in
  let rows := (if full then [] else rows) in
  let* fired := fold_res (fire (now st) (entry_index x) completed) (r, events st) FIRE_ORDER in
  let finished := S (finished st) in
  ensure (negb (Nat.eqb (finished mod 10000) 0) || Nat.leb (length fired.2) EVENT_CAPACITY)
    "scenario exceeds bounded concurrent event capacity" ;;;
  Ok {| readiness := fired.1; engine := e; events := fired.2; buffer := rows; results := stored; now := now st;
        result_end := qmax (result_end st) (result_ready_ns completed);
        resource_end := qmax (resource_end st) (resource_ready_ns completed); finished := finished |}.

Definition at_time (st : Run) (evs : list Event) (r : Readiness) (t : Qc) : Run :=
  {| readiness := r; engine := engine st; events := evs; buffer := buffer st; results := results st; now := t;
     result_end := result_end st; resource_end := resource_end st; finished := finished st |}.

Definition sqlite_step (st : Run) : res Run :=
  let* drained := drain (now st) (events st) (readiness st) in
  let st := at_time st drained.1 drained.2 (now st) in
  match pick (engine st) (now st) (sorted_heads (queues (readiness st))) [] with
  | (Some (code, x), _) => start st code x
  | (None, future) =>
      match future ++ match events st with [] => [] | ev :: _ => [epoch ev] end with
      | [] => Err (ExecutionError "execution stalled: causal cycle or unresolved resource dependency")
      | t :: ts => Ok (at_time st (events st) (readiness st) (qmin_list t ts))
      end
  end.

(** [while finished < count] *)
Fixpoint sqlite_loop (fuel : nat) (st : Run) : res Run :=
  if Nat.leb (length (columns graph)) (finished st) then Ok st
  else match fuel with
    | O => Err OutOfFuel
    | S fuel => let* st := sqlite_step st in sqlite_loop fuel st
    end.
End Loop.

(** Each pass starts a node, or moves on to a moment at which an event fires or
    a node starts. *)
Definition sqlite_fuel (g : Graph) : nat := 8 * length (columns g) + 8.

Definition start_run (r : Readiness) (p : TimingProvider) : Run := {|
  readiness := r; engine := {| exec_provider := p; resource_free := [] |}; events := []; buffer := []; results := [];
  now := 0%Qc; result_end := 0%Qc; resource_end := 0%Qc; finished := 0 |}.

(** The nodes of the database, scheduled: the state after the final flush. *)
Definition run_nodes (db : Database) (inputs : SqliteScheduleInputs) (observed : option (list (string * nat * json)))
    : res (Graph * Run) :=
  let* prepared := prepare db in
  let '(g, r) := prepared in
  let* cycle_ns := fraction 1000000000 (npu_frequency_hz (scenario inputs)) in
  let* final := sqlite_loop db g (scenario inputs) cycle_ns (is_stateful (provider inputs)) observed (sqlite_fuel g)
    (start_run r (provider inputs)) in
  let* stored := store_rows (results final) (buffer final) in
  Ok (g, {| readiness := readiness final; engine := engine final; events := events final; buffer := []; results := stored;
            now := now final; result_end := result_end final; resource_end := resource_end final;
            finished := finished final |}).

(** ** [_run] *)

Section Artifacts.
Context (load_selection : string → string → res Z).
(** The digest of a file, and of the library of a plain provider if it has one. *)
Context (file_sha256 : string → string) (library_sha256 : plain_state → option string).

Definition manifest_scope (db : Database) : res string :=
  match db_manifest db with
  | None => Err (ExecutionError "missing SQLite execution manifest")
  | Some body =>
      let* manifest := object_value body in
      ensure (eq_str (pget manifest "schema") "im2p-execution-sqlite" && eq_int (pget manifest "version") 1 &&
              eq_str (pget manifest "status") "PASS" && in_strs (pget manifest "scope") ["SYNTHETIC"; "PRODUCER_DECLARED"])
        "unsupported SQLite execution input" ;;;
      Ok (if eq_str (pget manifest "scope") "PRODUCER_DECLARED" then "BOUND_DATASET" else "SYNTHETIC")
  end.

Definition library_of (p : TimingProvider) : json :=
  match p with
  | Diagnostic q | Production q => JStr (identity_library_sha256 (admission_identity (seq_admission q)))
  | Plain q => match library_sha256 q with Some digest => JStr digest | None => JNull end
  end.

Definition summary_record (sc : Scenario) (p : TimingProvider) (binding : record) (count : nat) (result_end resource_end : Qc) : record :=
  [("schema", JStr "im2p-execution-schedule-sqlite"); ("version", JInt (if is_stateful p then 2 else 1));
   ("scope", JStr (scenario_scope sc)); ("node_count", JInt (Z.of_nat count));
   ("completion_ns", JObj (rational result_end)); ("resource_completion_ns", JObj (rational resource_end));
   ("service_validation_scope", JStr (validation_scope p)); ("service_binding", JObj binding);
   ("cycle_library_sha256", library_of p);
   ("clock_selection_sha256", match clock_artifact sc with Some path => JStr (file_sha256 path) | None => JNull end);
   ("paper_latency_ready", JBool false); ("time_unit", JStr "nanosecond-rational");
   ("queue_policy", JStr "READY_ORDER_THEN_ID"); ("clock_alignment", JStr "CEIL_TO_NPU_EDGE");
   ("worker_policy", JStr "EXPLICIT_GANG_VECTOR");
   ("validated_service_reconstruction", JBool (String.eqb (scenario_scope sc) "RECONSTRUCTED"))].

(** [sources] are the digests of the scheduler's own sources before the run,
    and [sources'] after it.  The result has the provider as it is left. *)
Definition _run (sources sources' : record) (db : Database) (inputs : SqliteScheduleInputs)
    (observed : option (list (string * nat * json))) : res (list Row * record * TimingProvider) :=
  let sc := scenario inputs in
  let stateful := is_stateful (provider inputs) in
  let* scope := manifest_scope db in
  validate_environment load_selection scope (provider inputs) sc ;;;
  let* done := run_nodes db inputs observed in
  let '(g, st) := done in
  let p := exec_provider (engine st) in
  complete_provider p sc ;;;
  let* binding := service_binding p sc in
  let summary := summary_record sc p binding (length (columns g)) (result_end st) (resource_end st) in
  if stateful then
    ensure (jeq (JObj sources) (JObj sources')) "SQLite schedule source binding changed during scheduling" ;;;
    Ok (results st, merge_records summary sources, p)
  else Ok (results st, summary, p).

(** ** The artifact and its verification *)

Record Artifact := { artifact_rows : list Row; artifact_manifest : record }.

Definition schedule_sqlite (sources sources' sources'' : record) (input_sha256 : string) (db : Database)
    (inputs : SqliteScheduleInputs) : res Artifact :=
  let* done := _run sources sources' db inputs None in
  let '(rows, summary, p) := done in
  let manifest := sset "input_sqlite_sha256" (JStr input_sha256) summary in
  match sequence_of p with Some q => (seq_verify (seq_verify q).1).2 | None => Ok tt end ;;;
  ensure (negb (eq_int (pget manifest "version") 2) ||
          forallb (fun kv => jeq (pget manifest kv.1) kv.2) sources'') "SQLite schedule source binding changed before publication" ;;;
  Ok {| artifact_rows := rows; artifact_manifest := manifest |}.

(** The rows of an artifact as they are read back. *)
Definition stored_row (row : Row) : string * nat * json := (row.1, JObj row.2).

(** The two files are the same before and after. *)
Definition verify_schedule_sqlite (sources sources' : record) (input_sha256 schedule_sha256 : string) (db : Database)
    (schedule : Artifact) (inputs : SqliteScheduleInputs) : res string :=
  let* done := _run sources sources' db inputs (Some (map stored_row (artifact_rows schedule))) in
  let '(rows, summary, p) := done in
  let expected := sset "input_sqlite_sha256" (JStr input_sha256) summary in
  ensure (same_record (artifact_manifest schedule) expected) "SQLite schedule service/clock/source binding mismatch" ;;;
  ensure (jeq (JInt (Z.of_nat (length (artifact_rows schedule)))) (pget expected "node_count"))
    "SQLite schedule node coverage mismatch" ;;;
  Ok schedule_sha256.

Definition read_schedule_node (schedule : Artifact) (identity : string) : res record :=
  let header := artifact_manifest schedule in
  ensure (eq_str (pget header "schema") "im2p-execution-schedule-sqlite" && eq_int (pget header "version") 1)
    "not a current SQLite schedule artifact" ;;;
  match List.find (fun row => String.eqb row.1.1 identity) (artifact_rows schedule) with
  | None => Err (ExecutionError ("missing schedule node: " +:+ identity))
  | Some row =>
      ensure (eq_str (pget row.2 "node_id") identity) "schedule node identity mismatch" ;;;
      Ok row.2
  end.
End Artifacts.
End SqliteScheduler.
