(* ===== verification/ExecutionStore.v ===== *)
(** * The execution store

    [ExecutionStore] of [sim/cycle/execution_stream.py]: the tables an adapted
    execution is written to node by node, with their primary keys, and the
    final check that every edge joins two nodes and that the graph has no
    cycle, counted down in the [pending] column in batches. *)
From S2P Require Import Prelude Records ExecutionIR SqliteGraph.
Set Default Goal Selector "!".
Open Scope Z_scope.

Definition READY_BATCH : nat := 1024.

(** A row of [nodes]; [kind] and [operation] repeat what the body holds. *)
Record NodeRow := {
  row_identity : string;
  row_kind : string;
  row_operation : string;
  row_body : json;
  row_pending : Z;
}.

Record ExecutionStore := {
  node_rows : list NodeRow;
  edge_rows : list Edge;
  service_rows : list (string * json);
  count : Z;
  service_count : Z;
}.

Definition new_store : ExecutionStore :=
  {| node_rows := []; edge_rows := []; service_rows := []; count := 0; service_count := 0 |}.

Definition edge_eqb (x y : Edge) : bool :=
  String.eqb (edge_node x) (edge_node y) && String.eqb (edge_parent x) (edge_parent y) &&
  bool_decide (edge_milestone x = edge_milestone y).

(** [INSERT INTO edges] *)
Definition insert_edge (rows : list Edge) (e : Edge) : res (list Edge) :=
  if existsb (edge_eqb e) rows then Err (IntegrityError "UNIQUE constraint failed: edges.node, edges.parent, edges.milestone")
  else Ok (rows ++ [e]).

Definition edges (st : ExecutionStore) (identity : string) (dependencies : list Dependency) : res ExecutionStore :=
  let* rows := fold_res (fun rows d => insert_edge rows
    {| edge_node := identity; edge_parent := node d; edge_milestone := Some (milestone_value (milestone d)) |})
    (edge_rows st) dependencies in
  Ok {| node_rows := node_rows st; edge_rows := rows; service_rows := service_rows st; count := count st;
        service_count := service_count st |}.

Definition add (st : ExecutionStore) (n : Node) (service : option record) : res ExecutionStore :=
  let body := sset "dependencies" (JArr []) (node_record n) in
  check (negb (str_in (identity n) (map row_identity (node_rows st)))) (IntegrityError "UNIQUE constraint failed: nodes.identity") ;;;
  let row := {| row_identity := identity n; row_kind := kind_value (kind n); row_operation := operation n;
                row_body := JObj body; row_pending := 0 |} in
  let* st := edges {| node_rows := node_rows st ++ [row]; edge_rows := edge_rows st; service_rows := service_rows st;
                      count := count st; service_count := service_count st |} (identity n) (dependencies n) in
  match service with
  | None => Ok {| node_rows := node_rows st; edge_rows := edge_rows st; service_rows := service_rows st;
                  count := count st + 1; service_count := service_count st |}
  | Some document =>
      check (negb (str_in (identity n) (service_rows st).*1)) (IntegrityError "UNIQUE constraint failed: services.identity") ;;;
      Ok {| node_rows := node_rows st; edge_rows := edge_rows st; service_rows := service_rows st ++ [(identity n, JObj document)];
            count := count st + 1; service_count := service_count st + 1 |}
  end.

(** ** [validate] *)

(** [SELECT COUNT(DISTINCT parent) FROM edges WHERE node=..] *)
Definition parents_of (rows : list Edge) (identity : string) : list string :=
  remove_dups (map edge_parent (List.filter (fun e => String.eqb (edge_node e) identity) rows)).

Definition set_pending (row : NodeRow) (pending : Z) : NodeRow :=
  {| row_identity := row_identity row; row_kind := row_kind row; row_operation := row_operation row;
     row_body := row_body row; row_pending := pending |}.

Definition is_child (rows : list Edge) (parent identity : string) : bool :=
  existsb (fun e => String.eqb (edge_parent e) parent && String.eqb (edge_node e) identity) rows.

(** The two updates for one ready node. *)
Definition visit (rows : list Edge) (l : list NodeRow) (identity : string) : list NodeRow :=
  let l := map (fun row => if String.eqb (row_identity row) identity then set_pending row (-1) else row) l in
  map (fun row => if is_child rows identity (row_identity row) then set_pending row (row_pending row - 1) else row) l.

(** [SELECT identity FROM nodes WHERE pending=0 LIMIT 1024] *)
Definition ready_batch (l : list NodeRow) : list string :=
  take READY_BATCH (map row_identity (List.filter (fun row => row_pending row =? 0) l)).

Fixpoint visit_loop (fuel : nat) (rows : list Edge) (l : list NodeRow) (visited : Z) : res (list NodeRow * Z) :=
  match ready_batch l with
  | [] => Ok (l, visited)
  | batch =>
      match fuel with
      | O => Err OutOfFuel
      | S fuel => visit_loop fuel rows (fold_left (visit rows) batch l) (visited + Z.of_nat (length batch))
      end
  end.

(** Every batch visits a node. *)
Definition validate (st : ExecutionStore) : res ExecutionStore :=
  let names := map row_identity (node_rows st) in
  ensure (forallb (fun e => str_in (edge_parent e) names && str_in (edge_node e) names) (edge_rows st))
    "unresolved SQLite execution dependency" ;;;
  let counted := map (fun row => set_pending row (Z.of_nat (length (parents_of (edge_rows st) (row_identity row))))) (node_rows st) in
  let* visited := visit_loop (length (node_rows st)) (edge_rows st) counted 0 in
  ensure (visited.2 =? count st) "cyclic SQLite execution graph" ;;;
  Ok {| node_rows := visited.1; edge_rows := edge_rows st; service_rows := service_rows st; count := count st;
        service_count := service_count st |}.

(** The tables as the scheduler reads them, with the manifest. *)
Definition database (st : ExecutionStore) (manifest : json) : Database := {|
  db_nodes := map (fun row => (row_identity row, row_body row)) (node_rows st); db_edges := edge_rows st;
  db_services := service_rows st; db_manifest := Some manifest |}.
