(* ===== verification/SqliteLinkTheorems.v ===== *)
(** * The columns of the graph hold its edges

    The counting passes of [link] place every edge: the slice of the child
    array at a (parent, milestone) lists exactly the children of its edges,
    in the order of the table. *)
From S2P Require Import Prelude Records ExecutionIR Scheduler SqliteGraph.
Set Default Goal Selector "!".
Open Scope nat_scope.

Lemma at_Ok {A} (l : list A) i x : at_ l i = Ok x ↔ l !! i = Some x.
Proof. unfold at_. destruct (l !! i); naive_solver. Qed.
Lemma put_Ok {A} (l : list A) i v : (i < length l) → put l i v = Ok (<[i := v]> l).
Proof. intros Hi. unfold put. by apply Nat.ltb_lt in Hi as ->. Qed.

(** ** Buckets *)

(** The second components of the pairs at a position. *)
Definition bucket (p : nat) (l : list (nat * nat)) : list nat := (filter (fun x => x.1 = p) l).*2.

Lemma bucket_snoc p l x : bucket p (l ++ [x]) = bucket p l ++ (if decide (x.1 = p) then [x.2] else []).
Proof. unfold bucket. rewrite filter_app, fmap_app, filter_cons, filter_nil. by case_decide. Qed.

Lemma bucket_length_prefix p l x k : length (bucket p l) <= length (bucket p (l ++ x :: k)).
Proof. unfold bucket. rewrite filter_app, fmap_app, length_app. lia. Qed.

Lemma bucket_length_step p l x k : x.1 = p → length (bucket p l) < length (bucket p (l ++ x :: k)).
Proof.
  intros <-. unfold bucket. rewrite filter_app, fmap_app, length_app, filter_cons. rewrite decide_True by done. cbn. lia.
Qed.

Lemma elem_of_bucket p l j : j ∈ bucket p l ↔ (p, j) ∈ l.
Proof.
  unfold bucket. rewrite list_elem_of_fmap. split.
  - by intros ([p' j'] & -> & [Hp H]%list_elem_of_filter); cbn in *; subst.
  - intros H. exists (p, j). split; [done|]. by apply list_elem_of_filter.
Qed.

Lemma NoDup_bucket p l : NoDup l → NoDup (bucket p l).
Proof.
  intros H. unfold bucket. apply NoDup_fmap_2_strong; [|by apply NoDup_filter].
  intros [a b] [c d] [Ha _]%list_elem_of_filter [Hc _]%list_elem_of_filter. cbn in *. congruence.
Qed.

(** ** Running totals *)

Lemma length_running cs : ∀ t, length (running t cs) = S (length cs).
Proof. induction cs as [|c cs IH]; intros t; cbn; [done|]. by rewrite IH. Qed.

Lemma running_first t cs : running t cs !! 0 = Some t.
Proof. by destruct cs. Qed.

Lemma running_next cs : ∀ t p o c, running t cs !! p = Some o → cs !! p = Some c → running t cs !! S p = Some (o + c).
Proof.
  induction cs as [|c cs IH]; intros t [|p] o c' Ho Hc; cbn in *; try done.
  - injection Ho as <-. injection Hc as <-. apply running_first.
  - by apply IH.
Qed.

Lemma running_mono cs : ∀ t p q o o', running t cs !! p = Some o → running t cs !! q = Some o' → p <= q → o <= o'.
Proof.
  intros t p q o o' Hp Hq Hle. revert o' Hq. induction Hle as [|q Hle IH]; intros o' Hq; [by simplify_eq|].
  assert (q < length cs) as [c Hc]%lookup_lt_is_Some_2.
  { apply lookup_lt_Some in Hq. rewrite length_running in Hq. lia. }
  destruct (lookup_lt_is_Some_2 (running t cs) q) as [o1 Ho1].
  { rewrite length_running. apply lookup_lt_Some in Hc. lia. }
  rewrite (running_next _ _ _ _ _ Ho1 Hc) in Hq. injection Hq as <-. specialize (IH _ Ho1). lia.
Qed.

(** ** Placing pairs *)

Section Place.
Context (pairs : list (nat * nat)) (size : nat) (cs : list nat).
Hypothesis cs_length : length cs = size.
Hypothesis cs_counts : ∀ p, p < size → cs !! p = Some (length (bucket p pairs)).
Hypothesis pairs_bound : ∀ x, x ∈ pairs → x.1 < size.

Definition offset (p : nat) : nat := default 0 (running 0 cs !! p).

Lemma offset_lookup p : p <= size → running 0 cs !! p = Some (offset p).
Proof using cs_length.
  intros Hp. unfold offset. destruct (lookup_lt_is_Some_2 (running 0 cs) p) as [o ->]; [|done].
  rewrite length_running. lia.
Qed.

Lemma offset_next p : p < size → offset (S p) = offset p + length (bucket p pairs).
Proof using cs_length cs_counts.
  intros Hp. pose proof (running_next _ _ _ _ _ (offset_lookup p ltac:(lia)) (cs_counts p Hp)) as H.
  rewrite offset_lookup in H by lia. by injection H.
Qed.

Lemma offset_mono p q : p <= q → q <= size → offset p <= offset q.
Proof using cs_length. intros Hpq Hq. eapply running_mono; [apply offset_lookup; lia..|done]. Qed.

(** Two positions have disjoint ranges. *)
Lemma offset_disjoint p q k j : p < size → q < size → p ≠ q →
  k < length (bucket p pairs) → j < length (bucket q pairs) → offset p + k ≠ offset q + j.
Proof using cs_length cs_counts.
  intros Hp Hq Hne Hk Hj. pose proof (offset_next p Hp). pose proof (offset_next q Hq).
  destruct (decide (p < q)).
  - pose proof (offset_mono (S p) q). lia.
  - pose proof (offset_mono (S q) p). lia.
Qed.

Definition place (st : list nat * list nat) (x : nat * nat) : res (list nat * list nat) :=
  let* c := at_ st.1 x.1 in
  let* ch := put st.2 c x.2 in
  let* cursor := put st.1 x.1 (S c) in
  Ok (cursor, ch).

Record placed (pre : list (nat * nat)) (st : list nat * list nat) : Prop := {
  pl_cursors : length st.1 = size;
  pl_children : length st.2 = offset size;
  pl_cursor : ∀ p, p < size → st.1 !! p = Some (offset p + length (bucket p pre));
  pl_child : ∀ p k j, p < size → bucket p pre !! k = Some j → st.2 !! (offset p + k) = Some j;
}.

Lemma place_step pre x post st : pairs = pre ++ x :: post → placed pre st →
  ∃ st', place st x = Ok st' ∧ placed (pre ++ [x]) st'.
Proof using cs_length cs_counts pairs_bound.
  intros Hl [Hcur Hch Hc Hb]. destruct x as [p j]. destruct st as [cur ch]. cbn [fst snd] in *.
  assert (Hp : p < size). { apply (pairs_bound (p, j)). rewrite Hl. apply elem_of_app. right. constructor. }
  pose proof (bucket_length_step p pre (p, j) post eq_refl) as Hlen. rewrite <-Hl in Hlen.
  pose proof (offset_next p Hp). pose proof (offset_mono (S p) size).
  exists (<[p := S (offset p + length (bucket p pre))]> cur, <[offset p + length (bucket p pre) := j]> ch). split.
  - unfold place. cbn [fst snd]. rewrite (proj2 (at_Ok _ _ _) (Hc p Hp)). cbn [mbind res_bind].
    rewrite put_Ok by lia. cbn [mbind res_bind]. by rewrite put_Ok by lia.
  - constructor; cbn [fst snd].
    + by rewrite length_insert.
    + by rewrite length_insert.
    + intros q Hq. rewrite bucket_snoc. cbn [fst snd]. case_decide as E.
      * subst q. rewrite list_lookup_insert_eq by lia. rewrite length_app. cbn. f_equal. lia.
      * rewrite list_lookup_insert_ne by done. rewrite app_nil_r. by apply Hc.
    + intros q k i Hq. rewrite bucket_snoc. cbn [fst snd]. case_decide as E.
      * subst q. intros Hk. destruct (decide (k = length (bucket p pre))) as [->|Hk'].
        -- rewrite list_lookup_insert_eq by lia. rewrite lookup_app_r, Nat.sub_diag in Hk by lia. by injection Hk as ->.
        -- apply lookup_app_Some in Hk as [Hk|[Hge Hk]].
           ++ rewrite list_lookup_insert_ne by lia. by apply Hb.
           ++ apply lookup_lt_Some in Hk. cbn in Hk. lia.
      * rewrite app_nil_r. intros Hk. rewrite list_lookup_insert_ne; [by apply Hb|].
        apply lookup_lt_Some in Hk as Hkl. pose proof (bucket_length_prefix q pre (p, j) post) as Hq2.
        rewrite <-Hl in Hq2. apply offset_disjoint; (done || lia).
Qed.

Lemma place_all : ∃ st, fold_res place (take size (running 0 cs), replicate (offset size) 0) pairs = Ok st ∧ placed pairs st.
Proof using cs_length cs_counts pairs_bound.
  apply (fold_res_total placed); [|intros; by eapply place_step]. constructor; cbn [fst snd].
  - rewrite length_take, length_running. lia.
  - apply length_replicate.
  - intros p Hp. cbn. rewrite Nat.add_0_r. rewrite lookup_take_lt by done. apply offset_lookup. lia.
  - intros p k j _ Hk. unfold bucket in Hk. cbn in Hk. by rewrite lookup_nil in Hk.
Qed.

(** The children of a position are its range of the array. *)
Lemma placed_slice st p : placed pairs st → p < size →
  take (offset (S p) - offset p) (drop (offset p) st.2) = bucket p pairs.
Proof using cs_length cs_counts.
  intros [_ Hlen _ Hb] Hp. pose proof (offset_next p Hp) as Hn. pose proof (offset_mono (S p) size).
  apply list_eq. intros k. destruct (decide (k < length (bucket p pairs))) as [Hk|Hk].
  - rewrite lookup_take_lt, lookup_drop by lia. apply lookup_lt_is_Some_2 in Hk as [j Hj].
    rewrite Hj. by apply Hb.
  - rewrite !lookup_ge_None_2; [done|lia|]. rewrite length_take, length_drop. lia.
Qed.
End Place.

(** ** The two passes over the edges *)

Section Link.
Context (g : Graph).

(** Where an edge is placed, and its child. *)
Definition position_of (e : Edge) : option (nat * nat) :=
  s ← slot_of (edge_milestone e); source ← sget (edge_parent e) (index g); child ← sget (edge_node e) (index g);
  Some (3 * source + s, child).

Definition resolved (e : Edge) : Prop :=
  ∃ p j, position_of e = Some (p, j) ∧ p < 3 * length (columns g) ∧ j < length (columns g).

Lemma position_of_inv e p j : position_of e = Some (p, j) → ∃ s source, slot_of (edge_milestone e) = Some s ∧
  sget (edge_parent e) (index g) = Some source ∧ sget (edge_node e) (index g) = Some j ∧ p = 3 * source + s.
Proof.
  unfold position_of. intros H. apply bind_Some in H as (s & ? & H). apply bind_Some in H as (source & ? & H).
  apply bind_Some in H as (child & ? & [= <- <-]). by exists s, source.
Qed.

(** The edges that end in a node. *)
Definition arriving (j : nat) (l : list (nat * nat)) : nat := length (filter (fun x => x.2 = j) l).

Record counted (pre : list Edge) (st : Counting) : Prop := {
  ct_missing : missing st = false;
  ct_unknown : unknown st = false;
  ct_counts : length (counts st) = 3 * length (columns g);
  ct_incoming : length (incoming st) = length (columns g);
  ct_count : ∀ p, p < 3 * length (columns g) → counts st !! p = Some (length (bucket p (omap position_of pre)));
  ct_arriving : ∀ j, j < length (columns g) → incoming st !! j = Some (Z.of_nat (arriving j (omap position_of pre)));
}.

Lemma omap_snoc pre e x : position_of e = Some x → omap position_of (pre ++ [e]) = omap position_of pre ++ [x].
Proof. intros E. rewrite omap_app. f_equal. cbn. by rewrite E. Qed.

Lemma count_step pre e st : counted pre st → resolved e → ∃ st', count_edge g st e = Ok st' ∧ counted (pre ++ [e]) st'.
Proof.
  intros [Hm Hu Hlc Hli Hc Ha] (p & j & Hpos & Hp & Hj). pose proof (position_of_inv _ _ _ Hpos) as (s & source & Hs & Hsrc & Hch & E).
  unfold count_edge. rewrite Hsrc, Hch, (proj2 (at_Ok _ _ _) (Ha j Hj)). cbn [mbind res_bind].
  rewrite put_Ok by lia. cbn [mbind res_bind]. rewrite Hs, <-E, (proj2 (at_Ok _ _ _) (Hc p Hp)). cbn [mbind res_bind].
  rewrite put_Ok by lia. cbn [mbind res_bind]. eexists. split; [reflexivity|].
  constructor; cbn [counts incoming missing unknown]; rewrite ?length_insert, ?(omap_snoc _ _ _ Hpos); try done.
  - intros q Hq. rewrite bucket_snoc. cbn [fst snd]. case_decide as D.
    + subst q. rewrite list_lookup_insert_eq, length_app by lia. cbn. f_equal. lia.
    + rewrite list_lookup_insert_ne, app_nil_r by done. by apply Hc.
  - intros k Hk. unfold arriving. rewrite filter_app, filter_cons, filter_nil. cbn [fst snd]. case_decide as D.
    + subst k. rewrite list_lookup_insert_eq, length_app by lia. cbn [length]. unfold arriving. f_equal. lia.
    + rewrite list_lookup_insert_ne, app_nil_r by done. by apply Ha.
Qed.

Lemma count_all edges : Forall resolved edges →
  ∃ st, fold_res (count_edge g) {| counts := replicate (3 * length (columns g)) 0; incoming := replicate (length (columns g)) 0%Z;
    missing := false; unknown := false |} edges = Ok st ∧ counted edges st.
Proof.
  intros Hr. apply (fold_res_total counted).
  - constructor; cbn [counts incoming missing unknown]; rewrite ?length_replicate; try done.
    + intros p Hp. by apply lookup_replicate_2.
    + intros j Hj. by apply lookup_replicate_2.
  - intros pre e post st Hl Hst. apply count_step; [done|]. rewrite Forall_forall in Hr. apply Hr. rewrite Hl.
    apply elem_of_app. right. constructor.
Qed.

Lemma place_edges edges : Forall resolved edges → ∀ st,
  fold_res (place_edge g) st edges = fold_res place st (omap position_of edges).
Proof.
  induction 1 as [|e edges (p & j & Hpos & _) Hr IH]; intros st; [done|]. cbn [fold_res omap list_omap]. rewrite Hpos.
  pose proof (position_of_inv _ _ _ Hpos) as (s & source & Hs & Hsrc & Hch & E). cbn [fold_res].
  assert (place_edge g st e = place st (p, j)) as ->; [|by destruct (place st (p, j)); cbn].
  unfold place_edge, place, position_in. rewrite Hs, Hsrc, Hch, E. cbn [mbind res_bind fst snd]. by destruct (at_ st.1 _).
Qed.

(** What [link] returns when every edge joins two nodes at a known milestone. *)
Lemma link_resolved edges : Forall resolved edges →
  ∃ g' remaining, link g edges = Ok (g', remaining) ∧ index g' = index g ∧ columns g' = columns g ∧ group g' = group g ∧
    length remaining = length (columns g) ∧
    (∀ p, p < 3 * length (columns g) → slice g' p = Ok (bucket p (omap position_of edges))) ∧
    (∀ j, j < length (columns g) → remaining !! j = Some (Z.of_nat (arriving j (omap position_of edges)))).
Proof.
  intros Hr. destruct (count_all edges Hr) as (st & Hrun & [Hm Hu Hlc Hli Hc Ha]). unfold link. rewrite Hrun.
  cbn [mbind res_bind]. rewrite Hm, Hu. unfold ensure. cbn [negb check mbind res_bind].
  set (size := 3 * length (columns g)) in *. set (pairs := omap position_of edges) in *.
  assert (Hb : ∀ x, x ∈ pairs → x.1 < size).
  { intros [p j] (e & He & E)%list_elem_of_omap. rewrite Forall_forall in Hr. apply Hr in He as (p' & j' & E' & ? & _).
    rewrite E' in E. by injection E as -> ->. }
  rewrite (proj2 (at_Ok _ _ _) (offset_lookup size (counts st) Hlc size ltac:(lia))). cbn [mbind res_bind].
  rewrite place_edges by done. fold pairs.
  destruct (place_all pairs size (counts st) Hlc Hc Hb) as (pl & -> & Hpl). cbn [mbind res_bind].
  do 2 eexists. split; [reflexivity|]. cbn [index columns group]. split_and!; try done.
  intros p Hp. unfold slice. cbn [offsets children].
  rewrite (proj2 (at_Ok _ _ _) (offset_lookup size (counts st) Hlc p ltac:(lia))). cbn [mbind res_bind].
  rewrite (proj2 (at_Ok _ _ _) (offset_lookup size (counts st) Hlc (S p) ltac:(lia))). cbn [mbind res_bind].
  f_equal. by apply (placed_slice pairs size).
Qed.
End Link.
