(* ===== verification/SqliteGraphTheorems.v ===== *)
(** * What the tables denote

    [stores] relates the tables of a database to the graph and the services of
    the in-memory scheduler.  [prepare] accepts every such database within its
    limits, and its columns describe the graph: [graph_of]. *)
From stdpp Require Import sorting.
From S2P Require Import Prelude Records Rational ExecutionIR Services Scheduler SchedulerTheorems.
From S2P Require Import SqliteGraph SqliteLinkTheorems.
Set Default Goal Selector "!".
Open Scope nat_scope.

(** A node as its body stores it. *)
Definition bare (n : Node) : Node := {|
  identity := identity n; kind := kind n; operation := operation n; phase := phase n; order := order n;
  dependencies := []; service := service n; resources := resources n |}.

Definition edge_of (n : Node) (d : Dependency) : Edge :=
  {| edge_node := identity n; edge_parent := node d; edge_milestone := Some (milestone_value (milestone d)) |}.
Definition edges_of (l : list Node) : list Edge := List.flat_map (fun n => map (edge_of n) (dependencies n)) l.

(** The services of a node, read alone, are those of the whole. *)
Record own_services (s sv : Services) (n : Node) : Prop := {
  os_names : set_eq String.eqb ((cpu sv).*1 ++ (npu sv).*1) (match service n with Some i => [i] | None => [] end) = true;
  os_cpu : is_cpu (kind n) = true → cpu_lookup sv n = cpu_lookup s n;
  os_npu : is_npu (kind n) = true → npu_lookup sv n = npu_lookup s n;
}.

Section Stores.
Context `{Host}.

(** The database holds the graph [l] with the services [s]. *)
Record stores (db : Database) (l : list Node) (s : Services) : Prop := {
  st_nodes : Forall2 (fun row n => row.1 = identity n ∧ stored_node row.2 = Ok (bare n)) (db_nodes db) l;
  st_edges : db_edges db ≡ₚ edges_of l;
  st_services : ∀ row, row ∈ db_services db → row.1 ∈ map identity l;
  st_service : ∀ n, n ∈ l →
    if has_service n
    then ∃ r sv, sget (identity n) (db_services db) = Some (JObj r) ∧ parse_services r = Ok sv ∧ own_services s sv n
    else sget (identity n) (db_services db) = None;
}.
End Stores.

(** The limits of the columns. *)
Record bounded (l : list Node) : Prop := {
  bo_order : Forall (fun n => (order n < SQLITE_INTEGER_LIMIT)%Z) l;
  bo_groups : length (remove_dups (map group_key l)) <= 4096;
}.

(** ** Loading the nodes *)

Abbreviation Groups := (list ((bool * list string) * nat)).

Lemma key_eqb_spec x y : key_eqb x y = true ↔ x = y.
Proof. apply bool_decide_eq_true. Qed.

Record loaded (pre : list Node) (st : Graph * Groups) : Prop := {
  lo_columns : columns st.1 = map bare pre;
  lo_index : ∀ i n, pre !! i = Some n → sget (identity n) (index st.1) = Some i;
  lo_indexed : ∀ x i, sget x (index st.1) = Some i → ∃ n, pre !! i = Some n ∧ identity n = x;
  lo_length : length (group st.1) = length pre;
  lo_group : ∀ i n, pre !! i = Some n → ∃ code, group st.1 !! i = Some code ∧ st.2 !! code = Some (group_key n, code);
  lo_codes : ∀ c k, st.2 !! c = Some k → k.2 = c;
  lo_keys : NoDup st.2.*1 ∧ st.2.*1 ⊆ map group_key pre;
}.

Lemma aget_lookup {V} k (v : V) (l : list ((bool * list string) * V)) : aget key_eqb k l = Some v → ∃ i, l !! i = Some (k, v).
Proof. intros E%(aget_In _ key_eqb_spec). by apply list_elem_of_lookup in E. Qed.

Definition with_group (groups : Groups) (key : bool * list string) : Groups :=
  if amem key_eqb key groups then groups
  else aset key_eqb key (default (length groups) (aget key_eqb key groups)) groups.

Lemma with_group_spec groups key : (∀ c k, groups !! c = Some k → k.2 = c) →
  let code := default (length groups) (aget key_eqb key groups) in
  with_group groups key !! code = Some (key, code) ∧ (∃ tl, with_group groups key = groups ++ tl) ∧
  (∀ c k, with_group groups key !! c = Some k → k.2 = c) ∧
  (NoDup groups.*1 → NoDup (with_group groups key).*1) ∧ (with_group groups key).*1 ⊆ groups.*1 ++ [key].
Proof.
  intros Hc. cbn zeta. unfold with_group, amem. destruct (aget key_eqb key groups) as [c|] eqn:E; cbn.
  - apply aget_lookup in E as [i Hi]. pose proof (Hc _ _ Hi) as Hci. cbn in Hci. subst i. split_and!; try done.
    + exists []. by rewrite app_nil_r.
    + set_solver.
  - assert (Hn : key ∉ groups.*1) by by apply (aget_None _ key_eqb_spec).
    assert (Es : ∀ v, aset key_eqb key v groups = groups ++ [(key, v)]).
    { intros v. clear Hc Hn. induction groups as [|[k w] groups IH]; cbn in *; [done|].
      destruct (key_eqb key k); [done|]. by rewrite IH. }
    rewrite Es. split_and!.
    + by rewrite lookup_app_r, Nat.sub_diag by lia.
    + by eexists.
    + intros c k [Hk|[Hge Hk]]%lookup_app_Some; [by apply Hc|].
      apply list_lookup_singleton_Some in Hk as [Hk <-]. cbn. lia.
    + intros Hnd. rewrite fmap_app. cbn. apply NoDup_app. split_and!; [done| |apply NoDup_singleton].
      intros x Hx ->%list_elem_of_singleton. done.
    + by rewrite fmap_app.
Qed.

Lemma load_step pre n st : NoDup (map identity (pre ++ [n])) → (order n < SQLITE_INTEGER_LIMIT)%Z →
  length (remove_dups (map group_key (pre ++ [n]))) <= 4096 → loaded pre st →
  ∀ row, row.1 = identity n → stored_node row.2 = Ok (bare n) →
  ∃ st', load_node st row = Ok st' ∧ loaded (pre ++ [n]) st'.
Proof.
  intros Hnd Ho Hg Hl row Hrow Hbody. destruct st as [g groups]. destruct Hl as [Hcol Hidx Hidx' Hlen Hgrp Hcodes [Hk Hks]].
  cbn [fst snd] in *. pose proof (with_group_spec groups (group_key n) Hcodes) as (Hcode & [tl Htl] & Hcodes' & Hk' & Hks').
  cbn zeta in *. set (code := default _ _) in *.
  unfold load_node. rewrite Hbody. cbn [mbind res_bind]. change (group_key (bare n)) with (group_key n).
  change (identity (bare n)) with (identity n). rewrite Hrow, String.eqb_refl. unfold ensure at 1. cbn [check mbind res_bind].
  fold code. change (if amem key_eqb (group_key n) groups then groups else aset key_eqb (group_key n) code groups)
    with (with_group groups (group_key n)).
  assert (Hlim : length (with_group groups (group_key n)) <= 4096).
  { etrans; [|exact Hg]. rewrite <-(length_fmap fst). apply submseteq_length, NoDup_submseteq; [by apply Hk'|].
    intros k Hin%Hks'. rewrite elem_of_remove_dups, map_app. set_solver. }
  apply Nat.leb_le in Hlim as ->. unfold ensure. cbn [check mbind res_bind].
  assert (Hfresh : sget (identity n) (index g) = None).
  { destruct (sget (identity n) (index g)) as [i|] eqn:E; [|done]. exfalso. apply Hidx' in E as (m & Hm & Hi).
    rewrite map_app in Hnd. apply NoDup_app in Hnd as (_ & Hd & _). apply (Hd (identity m)).
    - apply list_elem_of_In, in_map, list_elem_of_In. by eapply list_elem_of_lookup_2.
    - rewrite Hi. constructor. }
  unfold add_node. change (identity (bare n)) with (identity n). change (order (bare n)) with (order n).
  unfold amem. rewrite Hfresh. apply Z.leb_gt in Ho as ->. cbn [mbind res_bind].
  eexists. split; [reflexivity|]. rewrite Hcol, length_map. constructor; cbn [fst snd columns index group].
  - by rewrite map_app.
  - intros i m Hm. rewrite (aget_aset _ String.eqb_eq). apply lookup_app_Some in Hm as [Hm|[Hge Hm]].
    + destruct (String.eqb (identity m) (identity n)) eqn:E; [|by apply Hidx].
      apply String.eqb_eq in E. rewrite <-E in Hfresh. by rewrite (Hidx _ _ Hm) in Hfresh.
    + apply list_lookup_singleton_Some in Hm as [Hi <-]. rewrite String.eqb_refl. f_equal. lia.
  - intros x i. rewrite (aget_aset _ String.eqb_eq). destruct (String.eqb x (identity n)) eqn:E.
    + apply String.eqb_eq in E as ->. intros [= <-]. exists n. by rewrite lookup_app_r, Nat.sub_diag by lia.
    + intros (m & Hm & <-)%Hidx'. exists m. split; [|done]. by apply lookup_app_l_Some.
  - by rewrite !length_app, Hlen.
  - intros i m Hm. apply lookup_app_Some in Hm as [Hm|[Hge Hm]].
    + destruct (Hgrp _ _ Hm) as (c & Hc1 & Hc2). exists c. split; [by apply lookup_app_l_Some|].
      rewrite Htl. by apply lookup_app_l_Some.
    + apply list_lookup_singleton_Some in Hm as [Hi <-]. exists code. split; [|done].
      rewrite lookup_app_r, Hlen by lia. by replace (i - length pre) with 0 by lia.
  - done.
  - split; [by apply Hk'|]. rewrite map_app. set_solver.
Qed.

Lemma load_all rows l : Forall2 (fun row n => row.1 = identity n ∧ stored_node row.2 = Ok (bare n)) rows l →
  NoDup (map identity l) → bounded l → ∃ st, fold_res load_node (empty_graph, []) rows = Ok st ∧ loaded l st.
Proof.
  intros Hrows Hnd [Ho Hg].
  assert (Hgen : ∀ rows post pre st, Forall2 (fun row n => row.1 = identity n ∧ stored_node row.2 = Ok (bare n)) rows post →
    l = pre ++ post → loaded pre st → ∃ st', fold_res load_node st rows = Ok st' ∧ loaded l st').
  { clear rows Hrows. intros rows post pre st Hrows. revert pre st. induction Hrows as [|row n rows post [Hi Hb] Hrows IH]; intros pre st Hl Hst.
    - exists st. rewrite app_nil_r in Hl. by subst.
    - rewrite (assoc_L (++) pre [n] post : pre ++ n :: post = (pre ++ [n]) ++ post) in Hl.
      destruct (load_step pre n st) with (row := row) as (st' & Hrun & Hst'); try done.
      + rewrite Hl, map_app in Hnd. by apply NoDup_app in Hnd as [? _].
      + rewrite Forall_forall in Ho. apply Ho. rewrite Hl. set_solver.
      + etrans; [|exact Hg]. apply submseteq_length, NoDup_submseteq; [apply NoDup_remove_dups|].
        intros k. rewrite !elem_of_remove_dups, Hl, (map_app _ (pre ++ [n])). set_solver.
      + cbn [fold_res]. rewrite Hrun. by apply (IH (pre ++ [n])). }
  apply (Hgen rows l []); [done..|]. constructor; cbn; try done.
  split; [constructor|set_solver].
Qed.

(** ** The graph in columns *)

(** [pairs] lists the edges as (3 * parent + slot, child). *)
Record graph_of (l : list Node) (g : Graph) (pairs : list (nat * nat)) (groups : Groups) : Prop := {
  gr_columns : columns g = map bare l;
  gr_slice : ∀ p, p < 3 * length l → slice g p = Ok (bucket p pairs);
  gr_group : ∀ i n, l !! i = Some n → ∃ code, group g !! i = Some code ∧ groups !! code = Some (group_key n, code);
  gr_length : length (group g) = length l;
  gr_pairs : ∀ p j, (p, j) ∈ pairs ↔ ∃ n d i parent, l !! j = Some n ∧ d ∈ dependencies n ∧ l !! i = Some parent ∧
    identity parent = node d ∧ p = 3 * i + slot (milestone d);
}.

(** The edges of a node that have not fired. *)
Definition waiting (pairs : list (nat * nat)) (fired : list nat) (j : nat) : nat :=
  length (filter (fun x => x.2 = j ∧ x.1 ∉ fired) pairs).

Definition entry_of (g : Graph) (i : nat) : option Entry :=
  (fun n => {| entry_node := n; entry_index := i |}) <$> columns g !! i.

(** The queues hold the nodes [Q], sorted in each group. *)
Definition queued (g : Graph) (Q : list nat) (qs : list Queue) : Prop :=
  ∀ code q, qs !! code = Some q → StronglySorted (fun x y => entry_before x y = true) q ∧
    q ≡ₚ omap (entry_of g) (filter (fun i => group g !! i = Some code) Q).

Record ready_state (g : Graph) (pairs : list (nat * nat)) (groups : Groups) (fired Q : list nat) (r : Readiness) : Prop := {
  rs_length : length (remaining r) = length (columns g);
  rs_remaining : ∀ j, j < length (columns g) → remaining r !! j = Some (Z.of_nat (waiting pairs fired j));
  rs_codes : length (queues r) = length groups;
  rs_queued : queued g Q (queues r);
  rs_distinct : NoDup Q;
  rs_ready : ∀ i, i ∈ Q → i < length (columns g) ∧ waiting pairs fired i = 0;
}.

Lemma slot_of_value m : slot_of (Some (milestone_value m)) = Some (slot m).
Proof. by destruct m. Qed.
Lemma slot_bound m : slot m < 3.
Proof. destruct m; cbn; lia. Qed.
Lemma slot_inj m m' : slot m = slot m' → m = m'.
Proof. by destruct m, m'. Qed.

Lemma position_inj i i' m m' : 3 * i + slot m = 3 * i' + slot m' → i = i' ∧ m = m'.
Proof.
  intros E. pose proof (slot_bound m). pose proof (slot_bound m'). assert (i = i') as -> by lia.
  split; [done|]. apply slot_inj. lia.
Qed.

Lemma elem_of_edges l e : e ∈ edges_of l ↔ ∃ n d, n ∈ l ∧ d ∈ dependencies n ∧ e = edge_of n d.
Proof.
  unfold edges_of. rewrite list_elem_of_In, in_flat_map. split.
  - intros (n & Hn & (d & <- & Hd)%in_map_iff). exists n, d. by rewrite !list_elem_of_In.
  - intros (n & d & Hn & Hd & ->). rewrite list_elem_of_In in Hn. rewrite list_elem_of_In in Hd. exists n. split; [done|]. by apply in_map.
Qed.

Section Edges.
Context (l : list Node) (st : Graph * Groups).
Hypothesis graph_loaded : loaded l st.
Hypothesis graph_wf : wf_ir l.

Lemma node_position n : n ∈ l → ∃ i, l !! i = Some n ∧ sget (identity n) (index st.1) = Some i.
Proof using graph_loaded. intros [i Hi]%list_elem_of_lookup. exists i. split; [done|]. by eapply lo_index. Qed.

Lemma edge_position n d : n ∈ l → d ∈ dependencies n → ∃ j i parent, l !! j = Some n ∧ l !! i = Some parent ∧
  identity parent = node d ∧ position_of st.1 (edge_of n d) = Some (3 * i + slot (milestone d), j).
Proof using graph_loaded graph_wf.
  intros Hn Hd. destruct (node_position n Hn) as (j & Hj & Ej). destruct graph_wf as [_ _ Hwf _].
  rewrite Forall_forall in Hwf. apply Hwf in Hn as Hw. apply (wn_resolved _ _ Hw) in Hd.
  apply list_elem_of_In, in_map_iff in Hd as (parent & Hp & Hin). rewrite <-list_elem_of_In in Hin.
  destruct (node_position parent Hin) as (i & Hi & Ei). exists j, i, parent. split_and!; try done.
  unfold position_of, edge_of. cbn [edge_milestone edge_parent edge_node]. rewrite slot_of_value, <-Hp, Ei, Ej. done.
Qed.

Lemma edges_resolved_all edges : edges ≡ₚ edges_of l → Forall (resolved st.1) edges.
Proof using graph_loaded graph_wf.
  intros ->. apply Forall_forall. intros e (n & d & Hn & Hd & ->)%elem_of_edges.
  destruct (edge_position n d Hn Hd) as (j & i & parent & Hj & Hi & _ & E). do 2 eexists. split; [exact E|].
  apply lookup_lt_Some in Hj, Hi. rewrite (lo_columns _ _ graph_loaded), length_map. pose proof (slot_bound (milestone d)). lia.
Qed.

Lemma elem_of_pairs edges p j : edges ≡ₚ edges_of l →
  (p, j) ∈ omap (position_of st.1) edges ↔ ∃ n d i parent, l !! j = Some n ∧ d ∈ dependencies n ∧ l !! i = Some parent ∧
    identity parent = node d ∧ p = 3 * i + slot (milestone d).
Proof using graph_loaded graph_wf.
  intros Hperm. rewrite list_elem_of_omap. setoid_rewrite Hperm. setoid_rewrite elem_of_edges. split.
  - intros (e & (n & d & Hn & Hd & ->) & E). destruct (edge_position n d Hn Hd) as (j' & i & parent & Hj & Hi & Hid & E').
    rewrite E in E'. injection E' as -> ->. by exists n, d, i, parent.
  - intros (n & d & i & parent & Hj & Hd & Hi & Hid & ->). apply list_elem_of_lookup_2 in Hj as Hn.
    exists (edge_of n d). split; [by exists n, d|]. destruct (edge_position n d Hn Hd) as (j' & i' & parent' & Hj' & Hi' & Hid' & ->).
    f_equal. f_equal.
    + do 2 f_equal. apply (lo_index _ _ graph_loaded) in Hi, Hi'. rewrite Hid in Hi. rewrite Hid' in Hi'. congruence.
    + apply (lo_index _ _ graph_loaded) in Hj, Hj'. congruence.
Qed.
End Edges.

(** ** Queues *)

Lemma push_perm x q : push x q ≡ₚ x :: q.
Proof. induction q as [|y q IH]; cbn; [done|]. destruct (entry_before x y); [done|]. rewrite IH. apply Permutation_swap. Qed.

Lemma push_sorted x q : StronglySorted (fun a b => entry_before a b = true) q →
  StronglySorted (fun a b => entry_before a b = true) (push x q).
Proof.
  induction 1 as [|y q Hq IH Hy]; cbn; [by repeat constructor|]. destruct (entry_before x y) eqn:E.
  - constructor; [by constructor|]. constructor; [done|]. eapply Forall_impl; [exact Hy|]. intros k. by apply before_trans.
  - constructor; [done|]. rewrite push_perm. constructor; [|done].
    destruct (before_total (entry_node x) (entry_node y)); [by unfold entry_before in E; congruence|done].
Qed.

Definition occurs (j : nat) (k : list nat) : nat := length (filter (fun x => x = j) k).

Lemma waiting_fire pairs fired p j : p ∉ fired →
  waiting pairs fired j = waiting pairs (p :: fired) j + occurs j (bucket p pairs).
Proof.
  intros Hp. unfold waiting, occurs, bucket. induction pairs as [|[p' j'] k IH]; [done|].
  rewrite !filter_cons. cbn [fst snd]. repeat case_decide; subst; cbn [length fmap list_fmap snd];
    rewrite ?filter_cons; repeat case_decide; cbn [length]; try set_solver; try (rewrite IH; lia).
Qed.

Section Ready.
Context (l : list Node) (g : Graph) (pairs : list (nat * nat)) (groups : Groups).
Hypothesis graph : graph_of l g pairs groups.

Lemma columns_length : length (columns g) = length l.
Proof using graph. by rewrite (gr_columns _ _ _ _ graph), length_map. Qed.

Lemma node_at i n : l !! i = Some n → columns g !! i = Some (bare n).
Proof using graph. intros Hi. rewrite (gr_columns _ _ _ _ graph). change (map bare l) with (bare <$> l). by rewrite list_lookup_fmap, Hi. Qed.

Lemma entry_at i n : l !! i = Some n → entry_of g i = Some {| entry_node := bare n; entry_index := i |}.
Proof using graph. intros Hi. unfold entry_of. by rewrite (node_at _ _ Hi). Qed.
(** *** A node joins its queue *)

Lemma ready_ok Q qs i n : l !! i = Some n → length qs = length groups → queued g Q qs →
  ∃ qs', ready g i qs = Ok qs' ∧ length qs' = length qs ∧ queued g (i :: Q) qs'.
Proof using graph.
  intros Hi Hlen Hq. destruct (gr_group _ _ _ _ graph i n Hi) as (code & Hcode & Hkey).
  apply lookup_lt_Some in Hkey as Hlt. rewrite <-Hlen in Hlt. destruct (lookup_lt_is_Some_2 _ _ Hlt) as [q Hqc].
  unfold ready. rewrite (proj2 (at_Ok _ _ _) Hcode). cbn [mbind res_bind].
  rewrite (proj2 (at_Ok _ _ _) (node_at _ _ Hi)). cbn [mbind res_bind].
  rewrite (proj2 (at_Ok _ _ _) Hqc). cbn [mbind res_bind]. rewrite put_Ok by done. eexists. split; [reflexivity|]. rewrite length_insert. split; [done|].
  intros code' q' Hq'. destruct (decide (code' = code)) as [->|Hne].
  - rewrite list_lookup_insert_eq in Hq' by done. injection Hq' as <-. destruct (Hq _ _ Hqc) as [Hs Hp]. split.
    + by apply push_sorted.
    + rewrite push_perm, filter_cons_True by done. cbn [omap list_omap]. rewrite (entry_at _ _ Hi). by rewrite Hp.
  - rewrite list_lookup_insert_ne in Hq' by done. destruct (Hq _ _ Hq') as [Hs Hp]. split; [done|].
    rewrite filter_cons_False; [done|]. rewrite Hcode. congruence.
Qed.

(** *** One firing *)

Record releasing (fired Q : list nat) (pre : list nat) (r : Readiness) : Prop := {
  rl_length : length (remaining r) = length l;
  rl_remaining : ∀ j, j < length l → remaining r !! j = Some (Z.of_nat (waiting pairs fired j) - Z.of_nat (occurs j pre))%Z;
  rl_codes : length (queues r) = length groups;
  rl_queued : ∃ Q', queued g Q' (queues r) ∧ NoDup Q' ∧
    ∀ i, i ∈ Q' ↔ i ∈ Q ∨ (i ∈ pre ∧ waiting pairs fired i = occurs i pre);
}.

Lemma occurs_pos j k : j ∈ k ↔ 0 < occurs j k.
Proof.
  unfold occurs. split.
  - intros Hj. assert (Hin : j ∈ filter (fun x => x = j) k) by by apply list_elem_of_filter.
    destruct (filter _ k); [by apply elem_of_nil in Hin|cbn; lia].
  - destruct (filter _ k) as [|x k'] eqn:E; cbn; [lia|]. intros _.
    assert (Hin : x ∈ filter (fun x => x = j) k) by (rewrite E; constructor).
    by apply list_elem_of_filter in Hin as [<- ?].
Qed.

Lemma occurs_snoc j k x : occurs j (k ++ [x]) = occurs j k + (if decide (x = j) then 1 else 0).
Proof. unfold occurs. rewrite filter_app, length_app, filter_cons, filter_nil. by case_decide. Qed.

Lemma release_child_step fired Q pre x post r :
  (∀ i, i ∈ Q → waiting pairs fired i = 0) → x < length l → occurs x (pre ++ x :: post) <= waiting pairs fired x →
  releasing fired Q pre r → ∃ r', release_child g r x = Ok r' ∧ releasing fired Q (pre ++ [x]) r'.
Proof using graph.
  intros HQ Hx Hocc [Hlen Hrem Hcodes (Q' & Hqd & Hnd & HQ')]. unfold release_child.
  rewrite (proj2 (at_Ok _ _ _) (Hrem x Hx)). cbn [mbind res_bind]. rewrite put_Ok by lia. cbn [mbind res_bind].
  assert (Hlt : occurs x pre < waiting pairs fired x).
  { unfold occurs in *. rewrite filter_app, filter_cons_True, length_app in Hocc by done. cbn in Hocc. lia. }
  set (v := (Z.of_nat (waiting pairs fired x) - Z.of_nat (occurs x pre) - 1)%Z).
  assert (Hnew : ∀ j, j < length l → <[x := v]> (remaining r) !! j =
    Some (Z.of_nat (waiting pairs fired j) - Z.of_nat (occurs j (pre ++ [x])))%Z).
  { intros j Hj. rewrite occurs_snoc. case_decide as D.
    - subst j. rewrite list_lookup_insert_eq by lia. f_equal. unfold v. lia.
    - rewrite list_lookup_insert_ne by done. rewrite Nat.add_0_r. by apply Hrem. }
  assert (Hsame : ∀ i, i ≠ x → (i ∈ pre ++ [x] ∧ waiting pairs fired i = occurs i (pre ++ [x])) ↔
    (i ∈ pre ∧ waiting pairs fired i = occurs i pre)).
  { intros i Hi. rewrite occurs_snoc, decide_False, Nat.add_0_r by done. set_solver. }
  assert (HxQ : x ∉ Q') by (intros [Hin|[_ E]]%HQ'; [apply HQ in Hin|]; lia).
  destruct (lookup_lt_is_Some_2 l x Hx) as [n Hn].
  destruct (Z.eqb_spec v 0) as [Hv|Hv].
  - destruct (ready_ok Q' (queues r) x n Hn Hcodes Hqd) as (qs' & -> & Hl' & Hqd'). cbn [mbind res_bind].
    eexists. split; [reflexivity|]. constructor; cbn [remaining queues]; rewrite ?length_insert; try done; [lia|].
    exists (x :: Q'). split_and!; [done|by apply NoDup_cons|]. intros i. rewrite elem_of_cons.
    destruct (decide (i = x)) as [->|Hi].
    + split; [|by left]. intros _. right. rewrite occurs_snoc, decide_True by done. split; [set_solver|lia].
    + rewrite Hsame by done. rewrite <-HQ'. naive_solver.
  - cbn [mbind res_bind]. eexists. split; [reflexivity|]. constructor; cbn [remaining queues]; rewrite ?length_insert; try done.
    exists Q'. split_and!; [done..|]. intros i. destruct (decide (i = x)) as [->|Hi].
    + split; [done|]. intros [Hin|[_ E]]; [apply HQ in Hin; lia|]. rewrite occurs_snoc, decide_True in E by done. lia.
    + by rewrite Hsame, HQ' by done.
Qed.

(** A milestone fires: every child loses one of its edges, and those that had
    no other become ready. *)
Lemma release_ok fired Q r i s : ready_state g pairs groups fired Q r → i < length l → s < 3 → 3 * i + s ∉ fired →
  ∃ r' Q', release g i s r = Ok r' ∧ ready_state g pairs groups (3 * i + s :: fired) Q' r' ∧
    ∀ j, j ∈ Q' ↔ j ∈ Q ∨ (j < length l ∧ waiting pairs fired j ≠ 0 ∧ waiting pairs (3 * i + s :: fired) j = 0).
Proof using graph.
  intros [Hlen Hrem Hcodes Hqd Hnd Hready] Hi Hs Hp. set (p := 3 * i + s) in *. unfold release.
  rewrite (gr_slice _ _ _ _ graph) by lia. cbn [mbind res_bind]. fold p. rewrite columns_length in *.
  assert (Hbucket : ∀ j, j ∈ bucket p pairs → j < length l).
  { intros j (n & d & i' & parent & Hj & _)%elem_of_bucket%(gr_pairs _ _ _ _ graph). by apply lookup_lt_Some in Hj. }
  destruct (fold_res_total (releasing fired Q) (release_child g) (bucket p pairs) r) as (r' & Hrun & [Hlen' Hrem' Hcodes' (Q' & Hqd' & Hnd' & HQ')]).
  - constructor; try done.
    + intros j Hj. cbn. rewrite Z.sub_0_r. by apply Hrem.
    + exists Q. split_and!; [done..|]. intros j. set_solver.
  - intros pre x post r1 Hl Hr1. apply (release_child_step fired Q pre x post); try done.
    + intros j Hj. by apply Hready.
    + apply Hbucket. rewrite Hl. set_solver.
    + rewrite <-Hl. rewrite (waiting_fire pairs fired p x Hp). lia.
  - assert (HQ'' : ∀ j, j ∈ Q' ↔ j ∈ Q ∨ (j < length l ∧ waiting pairs fired j ≠ 0 ∧ waiting pairs (p :: fired) j = 0)).
    { intros j. rewrite HQ'. pose proof (waiting_fire pairs fired p j Hp) as Hw. pose proof (occurs_pos j (bucket p pairs)) as Ho. split.
      - intros [Hin|[Hin E]]; [by left|]. right. apply Hbucket in Hin as Hj. apply Ho in Hin. split_and!; lia.
      - intros [Hin|(Hj & Hne & E)]; [by left|]. right. split; [|lia]. apply Ho. lia. }
    exists r', Q'. split_and!; [done| |done]. constructor; rewrite ?columns_length; try done.
    + intros j Hj. rewrite Hrem' by done. rewrite (waiting_fire pairs fired p j Hp). f_equal. lia.
    + intros j Hj%HQ''. destruct Hj as [Hj%Hready|(Hj & _ & E)]; [|done]. destruct Hj as [Hj1 Hj2].
      split; [done|]. rewrite (waiting_fire pairs fired p j Hp) in Hj2. lia.
Qed.
End Ready.

(** ** [_prepare] *)

Lemma start_ready_ok l g pairs groups remaining : graph_of l g pairs groups → length remaining = length l →
  ∃ qs Q, start_ready g remaining (replicate (length groups) []) = Ok qs ∧ length qs = length groups ∧ queued g Q qs ∧ NoDup Q ∧
    ∀ i, i ∈ Q ↔ remaining !! i = Some 0%Z.
Proof.
  intros Hg Hlen.
  set (P := fun (pre : list (nat * Z)) (qs : list Queue) => ∃ Q, length qs = length groups ∧ queued g Q qs ∧ NoDup Q ∧
    ∀ i, i ∈ Q ↔ i < length pre ∧ remaining !! i = Some 0%Z).
  destruct (fold_res_total P (fun qs '(i, edges) => if (edges =? 0)%Z then ready g i qs else Ok qs)
    (imap pair remaining) (replicate (length groups) [])) as (qs & Hrun & (Q & Hl & Hq & Hnd & HQ)).
  - exists []. split_and!; [by rewrite length_replicate| |constructor|].
    + intros code q [-> _]%lookup_replicate. split; [constructor|done].
    + intros i. cbn. split; [by intros ?%elem_of_nil|lia].
  - intros pre [i edges] post qs1 Hpre (Q & Hl & Hq & Hnd & HQ).
    assert (Hi : i = length pre ∧ remaining !! i = Some edges).
    { assert (E : imap pair remaining !! length pre = Some (i, edges)) by (by rewrite Hpre, lookup_app_r, Nat.sub_diag by lia).
      rewrite list_lookup_imap in E. destruct (remaining !! length pre) eqn:Er; [|done]. injection E as <- <-. done. }
    destruct Hi as [Hi Hr]. assert (Hnot : i ∉ Q) by (rewrite HQ; lia).
    assert (HQ' : ∀ k, k < length (pre ++ [(i, edges)]) ∧ remaining !! k = Some 0%Z ↔ k ∈ Q ∨ (k = i ∧ edges = 0%Z)).
    { intros k. rewrite length_app, HQ. cbn. split.
      - intros [Hk E]. destruct (decide (k = i)) as [->|]; [right; split; [done|congruence]|left; split; [lia|done]].
      - intros [[Hk E]|[-> ->]]; (split; [lia|done]). }
    destruct (Z.eqb_spec edges 0) as [->|Hne].
    + destruct (lookup_lt_is_Some_2 l i) as [n Hn]; [apply lookup_lt_Some in Hr; lia|].
      destruct (ready_ok l g pairs groups Hg Q qs1 i n Hn Hl Hq) as (qs2 & -> & Hl2 & Hq2). eexists. split; [done|].
      exists (i :: Q). split_and!; [lia|done|by apply NoDup_cons|]. intros k. rewrite HQ', elem_of_cons. naive_solver.
    + eexists. split; [done|]. exists Q. split_and!; [done..|]. intros k. rewrite HQ'. naive_solver.
  - exists qs, Q. split_and!; try done. intros i. rewrite HQ, length_imap. split; [tauto|]. intros E.
    split; [by eapply lookup_lt_Some|done].
Qed.

Lemma waiting_nil pairs j : waiting pairs [] j = arriving j pairs.
Proof. unfold waiting, arriving. f_equal. apply list_filter_iff. intros x. set_solver. Qed.

(** A node waits for nothing once all its dependencies have fired. *)
Lemma waiting_zero pairs fired j : waiting pairs fired j = 0 ↔ ∀ p, (p, j) ∈ pairs → p ∈ fired.
Proof.
  unfold waiting. rewrite length_zero_iff_nil. split.
  - intros E p Hp. destruct (decide (p ∈ fired)) as [|Hn]; [done|]. exfalso.
    apply (not_elem_of_nil (p, j)). rewrite <-E. by apply list_elem_of_filter.
  - intros Hall. destruct (filter _ pairs) as [|[p j'] k] eqn:E; [done|]. exfalso.
    assert (Hin : (p, j') ∈ filter (fun x => x.2 = j ∧ x.1 ∉ fired) pairs) by (rewrite E; constructor).
    apply list_elem_of_filter in Hin as [[E2 Hn] Hin]. cbn in *. subst j'. by apply Hn, Hall.
Qed.

Section Prepare.
Context `{Host}.

(** Every database within the limits is accepted, and its columns describe the
    graph it holds. *)
Lemma prepare_ok db l s : stores db l s → wf_ir l → bounded l →
  ∃ g r pairs groups Q, prepare db = Ok (g, r) ∧ graph_of l g pairs groups ∧ ready_state g pairs groups [] Q r ∧
    ∀ i, i ∈ Q ↔ i < length l ∧ waiting pairs [] i = 0.
Proof.
  intros [Hn He Hs Hsv] Hwf Hb. destruct (load_all _ _ Hn (wi_identities _ Hwf) Hb) as ([g groups] & Hload & Hl).
  unfold prepare. rewrite Hload. cbn [mbind res_bind].
  assert (Hcols : columns g = map bare l) by apply Hl. assert (Hclen : length (columns g) = length l) by by rewrite Hcols, length_map.
  assert (Hne : (match columns g with [] => false | _ => true end) = true).
  { rewrite Hcols. pose proof (wi_nonempty _ Hwf). by destruct l. }
  rewrite Hne. unfold ensure at 1. cbn [check mbind res_bind].
  pose proof (edges_resolved_all l (g, groups) Hl Hwf _ He) as Hres.
  destruct (link_resolved g _ Hres) as (g' & rem & -> & Hidx & Hcol' & Hgrp & Hrl & Hslice & Hrem). cbn [mbind res_bind].
  set (pairs := omap (position_of g) (db_edges db)) in *.
  assert (Hchk : iter_res (check_service g' (db_services db)) (db_nodes db) = Ok tt).
  { apply iter_res_Ok. apply Forall_forall. intros row Hrow.
    apply list_elem_of_lookup in Hrow as [i Hi]. destruct (Forall2_lookup_l _ _ _ _ _ Hn Hi) as (n & Hni & Hid & _).
    unfold check_service, position_in. rewrite Hidx, Hid, (lo_index _ _ Hl _ _ Hni : sget _ (index g) = _). cbn [mbind res_bind].
    rewrite (proj2 (at_Ok (columns g') i (bare n))).
    2:{ rewrite Hcol', Hcols. change (map bare l) with (bare <$> l). by rewrite list_lookup_fmap, Hni. }
    cbn [mbind res_bind]. change (has_service (bare n)) with (has_service n).
    specialize (Hsv n ltac:(by eapply list_elem_of_lookup_2)). unfold amem. destruct (has_service n).
    - destruct Hsv as (r & sv & -> & _). done.
    - by rewrite Hsv. }
  rewrite Hchk. cbn [mbind res_bind].
  assert (Hextra : forallb (fun row => smem row.1 (db_nodes db)) (db_services db) = true).
  { apply forallb_forall. intros row Hrow. rewrite <-list_elem_of_In in Hrow. apply Hs in Hrow.
    apply (amem_spec _ String.eqb_eq). apply list_elem_of_In, in_map_iff in Hrow as (n & <- & Hin).
    rewrite <-list_elem_of_In in Hin. apply list_elem_of_lookup in Hin as [i Hi].
    destruct (Forall2_lookup_r _ _ _ _ _ Hn Hi) as (row' & Hrow' & <- & _).
    apply list_elem_of_fmap. exists row'. split; [done|]. by eapply list_elem_of_lookup_2. }
  rewrite Hextra. unfold ensure. cbn [check mbind res_bind].
  assert (Hg : graph_of l g' pairs groups).
  { constructor.
    - by rewrite Hcol', Hcols.
    - intros p Hp. apply Hslice. by rewrite Hclen.
    - intros i n Hi. rewrite Hgrp. exact (lo_group _ _ Hl i n Hi).
    - rewrite Hgrp. apply Hl.
    - intros p j. by apply (elem_of_pairs l (g, groups)). }
  destruct (start_ready_ok l g' pairs groups rem Hg) as (qs & Q & -> & Hql & Hqd & Hnd & HQ); [by rewrite Hrl|].
  cbn [mbind res_bind].
  assert (HQ' : ∀ i, i ∈ Q ↔ i < length l ∧ waiting pairs [] i = 0).
  { intros i. rewrite HQ, waiting_nil. split.
    - intros E. apply lookup_lt_Some in E as Hi. rewrite Hrl, Hclen in Hi. split; [done|].
      rewrite Hrem in E by by rewrite Hclen. injection E. lia.
    - intros [Hi E]. rewrite Hrem, E by by rewrite Hclen. done. }
  exists g', {| remaining := rem; queues := qs |}, pairs, groups, Q. split_and!; [done|done| |done].
  constructor; cbn [remaining queues]; rewrite ?Hcol'; try done.
  - intros j Hj. rewrite Hrem by done. by rewrite waiting_nil.
  - intros i. rewrite Hclen. apply HQ'.
Qed.
End Prepare.
