(* ===== verification/SqliteStepTheorems.v ===== *)
(** * One pass of the database scheduler

    The lemmas a pass is made of: a node read back from the tables executes as
    the node of the graph, the stored rows of its parents give the time it was
    available, and the first queue head that can start is the first startable
    node in submission order. *)
From stdpp Require Import sorting.
From S2P Require Import Prelude Records Rational ExecutionIR Services Provider Scheduler SchedulerTheorems.
From S2P Require Import SqliteGraph SqliteScheduler SqliteLinkTheorems SqliteGraphTheorems.
Set Default Goal Selector "!".

(** ** Firing milestones

    [front] relates the counts, the queues and the events of the database
    scheduler to the nodes that have been scheduled: a milestone of a completed
    node has fired or is an event, and the queues hold the pending nodes whose
    dependencies have fired.  Draining events, firing the milestones of a new
    node and taking a node from its queue preserve it and never fail. *)
Open Scope nat_scope.

Definition event_position (ev : Event) : nat := 3 * event_index ev + slot (event_milestone ev).

(** ** The order of events *)

Lemma qleb_total x y : qleb x y = false → (y <= x)%Qc.
Proof. intros E. apply not_true_iff_false in E. rewrite qleb_le in E. by apply Qclt_le_weak, Qcnot_le_lt. Qed.

Lemma qltb_false x y : qltb x y = false → (y <= x)%Qc.
Proof. unfold qltb. by rewrite negb_false_iff, qleb_le. Qed.

Lemma event_before_epoch x y :
  if event_before x y then (epoch x <= epoch y)%Qc else (epoch y <= epoch x)%Qc.
Proof.
  unfold event_before. destruct (qltb (epoch x) (epoch y)) eqn:E1; [by apply qltb_lt, Qclt_le_weak in E1|].
  apply qltb_false in E1. destruct (qltb (epoch y) (epoch x)) eqn:E2; [done|]. apply qltb_false in E2.
  destruct (String.compare _ _); [|done..]. destruct (String.compare _ _); [|done..]. by destruct (Nat.leb _ _).
Qed.

Lemma push_event_perm x l : push_event x l ≡ₚ x :: l.
Proof. induction l as [|y l IH]; cbn; [done|]. destruct (event_before x y); [done|]. rewrite IH. apply Permutation_swap. Qed.

Abbreviation by_epoch := (StronglySorted (fun x y => (epoch x <= epoch y)%Qc)).

Lemma push_event_sorted x l : by_epoch l → by_epoch (push_event x l).
Proof.
  induction 1 as [|y l Hl IH Hy]; cbn; [by repeat constructor|]. pose proof (event_before_epoch x y) as Hxy.
  destruct (event_before x y).
  - constructor; [by constructor|]. constructor; [done|]. eapply Forall_impl; [exact Hy|]. intros z Hz. by eapply Qcle_trans.
  - constructor; [done|]. rewrite push_event_perm. by constructor.
Qed.

(** ** Completed nodes *)

Lemma completed_at_app_l done k i s0 : completed_at done i = Some s0 → completed_at (done ++ k) i = Some s0.
Proof. unfold completed_at. induction done as [|s done IH]; cbn; [done|]. by destruct (String.eqb _ _). Qed.

Lemma completed_at_snoc done s i : completed_at (done ++ [s]) i =
  match completed_at done i with Some s0 => Some s0 | None => if String.eqb (scheduled_identity s) i then Some s else None end.
Proof. unfold completed_at. induction done as [|s' done IH]; cbn; [done|]. destruct (String.eqb (scheduled_identity s') i); [done|exact IH]. Qed.

Lemma completed_at_In done i s0 : completed_at done i = Some s0 → s0 ∈ done ∧ scheduled_identity s0 = i.
Proof. intros [H E%String.eqb_eq]%List.find_some. by rewrite list_elem_of_In. Qed.

Lemma completed_at_None done i : completed_at done i = None ↔ i ∉ map scheduled_identity done.
Proof.
  split.
  - intros E Hin. apply completed_at_Some in Hin as [s0 Hs]. congruence.
  - intros Hn. destruct (completed_at done i) as [s0|] eqn:E; [|done]. exfalso. apply Hn.
    apply completed_at_In in E as [Hs <-]. by apply list_elem_of_In, in_map, list_elem_of_In.
Qed.

Section Front.
Context (l : list Node) (g : Graph) (pairs : list (nat * nat)) (groups : Groups).
Hypothesis graph : graph_of l g pairs groups.
Hypothesis graph_wf : wf_ir l.

(** [owed] are the milestones of the node being started that have neither
    fired nor become events yet. *)
Record front (owed fired Q : list nat) (r : Readiness) (evs : list Event) (t : Qc) (pend : list Node)
    (done : list ScheduledNode) : Prop := {
  fr_ready : ready_state g pairs groups fired Q r;
  fr_queue : ∀ i n, l !! i = Some n → i ∈ Q ↔ waiting pairs fired i = 0 ∧ n ∈ pend;
  fr_done : ∀ i n, l !! i = Some n → n ∉ pend → waiting pairs fired i = 0;
  fr_fired : ∀ i m, 3 * i + slot m ∈ fired → ∃ n s0, l !! i = Some n ∧
    completed_at done (identity n) = Some s0 ∧ (milestone_of s0 m <= t)%Qc;
  fr_event : ∀ ev, ev ∈ evs → ∃ n s0, l !! event_index ev = Some n ∧ completed_at done (identity n) = Some s0 ∧
    epoch ev = milestone_of s0 (event_milestone ev);
  fr_sorted : by_epoch evs;
  fr_covered : ∀ i n s0 m, l !! i = Some n → completed_at done (identity n) = Some s0 →
    3 * i + slot m ∈ fired ++ map event_position evs ++ owed;
  fr_distinct : NoDup (fired ++ map event_position evs ++ owed);
}.

Lemma waiting_mono fired p j : waiting pairs fired j = 0 → waiting pairs (p :: fired) j = 0.
Proof. rewrite !waiting_zero. intros Hall q Hq. constructor. by apply Hall. Qed.

(** One milestone fires, from the events or from what is owed. *)
Lemma front_release owed owed' fired Q r evs evs' t pend done i n s0 m :
  front owed fired Q r evs t pend done → l !! i = Some n → completed_at done (identity n) = Some s0 →
  (milestone_of s0 m <= t)%Qc → by_epoch evs' → evs' ⊆ evs →
  map event_position evs ++ owed ≡ₚ 3 * i + slot m :: map event_position evs' ++ owed' →
  ∃ r' fired' Q', release g i (slot m) r = Ok r' ∧ front owed' fired' Q' r' evs' t pend done.
Proof using graph.
  intros [Hr Hq Hd Hf He Hs Hc Hnd] Hi Hs0 Hle Hs' Hsub Hperm.
  assert (Hnd' : NoDup (fired ++ (3 * i + slot m) :: map event_position evs' ++ owed')) by by rewrite <-Hperm.
  assert (Hp : 3 * i + slot m ∉ fired).
  { apply NoDup_app in Hnd' as (_ & Hx & _). intros Hin. apply (Hx _ Hin). constructor. }
  destruct (release_ok l g pairs groups graph fired Q r i (slot m) Hr) as (r' & Q' & Hrel & Hr' & HQ');
    [by eapply lookup_lt_Some|apply slot_bound|done|].
  exists r', (3 * i + slot m :: fired), Q'. split; [done|]. constructor; try done.
  - intros j k Hj. rewrite HQ', (Hq j k Hj). apply lookup_lt_Some in Hj as Hjl. split.
    + intros [[Hw Hk]|(_ & Hw & Hw')]; [split; [by apply waiting_mono|done]|]. split; [done|].
      destruct (decide (k ∈ pend)) as [|Hn]; [done|]. by apply (Hd j k Hj) in Hn.
    + intros [Hw Hk]. destruct (decide (waiting pairs fired j = 0)); [by left|by right].
  - intros j k Hj Hk. apply waiting_mono. by eapply Hd.
  - intros j m' [E|Hin]%elem_of_cons; [|by apply Hf]. apply position_inj in E as [-> ->]. by exists n, s0.
  - intros ev Hev. apply He. by apply Hsub.
  - intros j k s1 m' Hj Hk. specialize (Hc j k s1 m' Hj Hk). revert Hc. rewrite !elem_of_app, elem_of_cons.
    intros [Hin|Hin]; [left; by right|]. rewrite <-elem_of_app, Hperm, elem_of_cons, elem_of_app in Hin. tauto.
  - cbn. by rewrite Permutation_middle.
Qed.

(** ** [drain] *)

Lemma drain_ok owed t pend done evs : ∀ fired Q r, front owed fired Q r evs t pend done →
  ∃ evs' r' fired' Q', drain g t evs r = Ok (evs', r') ∧ front owed fired' Q' r' evs' t pend done ∧
    Forall (fun ev => (t < epoch ev)%Qc) evs' ∧
    length evs' <= length evs ∧ ((∃ ev, ev ∈ evs ∧ (epoch ev <= t)%Qc) → length evs' < length evs).
Proof using graph.
  induction evs as [|ev evs IH]; intros fired Q r Hfr; cbn [drain].
  - exists [], r, fired, Q. split_and!; try done. by intros (? & ?%elem_of_nil & _).
  - destruct (qleb (epoch ev) t) eqn:E.
    + apply qleb_le in E. destruct (fr_event _ _ _ _ _ _ _ _ Hfr ev) as (n & s0 & Hi & Hs0 & Hep); [constructor|].
      pose proof (fr_sorted _ _ _ _ _ _ _ _ Hfr) as Hsort. inversion_clear Hsort as [|? ? Hsort' _].
      destruct (front_release owed owed fired Q r (ev :: evs) evs t pend done (event_index ev) n s0 (event_milestone ev))
        as (r' & fired' & Q' & -> & Hfr'); try done; [by rewrite <-Hep|by intros x Hx; constructor|].
      cbn [mbind res_bind]. destruct (IH fired' Q' r' Hfr') as (evs' & r'' & f'' & Q'' & -> & Hfr'' & Hlt & Hlen & _).
      exists evs', r'', f'', Q''. cbn [length]. split_and!; (done || lia).
    + assert (Hlt : (t < epoch ev)%Qc). { apply Qcnot_le_lt. intros Hle%qleb_le. congruence. }
      assert (Hall : Forall (fun ev => (t < epoch ev)%Qc) (ev :: evs)).
      { pose proof (fr_sorted _ _ _ _ _ _ _ _ Hfr) as Hsort. inversion_clear Hsort as [|? ? _ Hmin].
        constructor; [done|]. eapply Forall_impl; [exact Hmin|]. intros x Hx. by eapply Qclt_le_trans. }
      exists (ev :: evs), r, fired, Q. split_and!; try done. intros (x & Hx & Hle). rewrite Forall_forall in Hall.
      apply Hall in Hx. by apply Qclt_not_le in Hx.
Qed.

(** ** [fire] *)

Lemma fire_ok owed fired Q r evs t pend done i n s0 m :
  front (3 * i + slot m :: owed) fired Q r evs t pend done → l !! i = Some n →
  completed_at done (identity n) = Some s0 →
  ∃ r' evs' fired' Q', fire g t i s0 (r, evs) m = Ok (r', evs') ∧ front owed fired' Q' r' evs' t pend done ∧
    length evs' <= S (length evs).
Proof using graph.
  intros Hfr Hi Hs0. unfold fire. cbn [fst snd]. destruct (qleb (milestone_of s0 m) t) eqn:E.
  - apply qleb_le in E. destruct (front_release (3 * i + slot m :: owed) owed fired Q r evs evs t pend done i n s0 m)
      as (r' & fired' & Q' & -> & Hfr'); try done; [apply Hfr|by rewrite Permutation_middle|].
    exists r', evs, fired', Q'. split_and!; (done || lia).
  - exists r. eexists. exists fired, Q. split; [reflexivity|]. set (ev := Build_Event _ _ _ _).
    split; [|by rewrite push_event_perm]. destruct Hfr as [Hr Hq Hd Hf He Hs Hc Hnd].
    assert (Hperm : map event_position (push_event ev evs) ++ owed ≡ₚ map event_position evs ++ (3 * i + slot m) :: owed).
    { rewrite push_event_perm. cbn. by rewrite Permutation_middle. }
    constructor; try done.
    + intros x. rewrite push_event_perm. intros [->|Hx]%elem_of_cons; [|by apply He]. by exists n, s0.
    + by apply push_event_sorted.
    + intros j k s1 m' Hj Hk. rewrite Hperm. by eapply Hc.
    + by rewrite Hperm.
Qed.

Lemma fire_all_ok fired Q r evs t pend done i n s0 :
  front [3 * i; 3 * i + 1; 3 * i + 2] fired Q r evs t pend done → l !! i = Some n →
  completed_at done (identity n) = Some s0 →
  ∃ r' evs' fired' Q', fold_res (fire g t i s0) (r, evs) FIRE_ORDER = Ok (r', evs') ∧
    front [] fired' Q' r' evs' t pend done ∧ length evs' <= 3 + length evs.
Proof using graph.
  intros Hfr Hi Hs0. replace (3 * i) with (3 * i + slot ACCEPTED) in Hfr at 1 by (cbn; lia).
  destruct (fire_ok _ _ _ _ _ _ _ _ _ _ _ _ Hfr Hi Hs0) as (r1 & e1 & f1 & Q1 & H1 & Hfr1 & L1).
  change (3 * i + 1) with (3 * i + slot RESULT_READY) in Hfr1.
  destruct (fire_ok _ _ _ _ _ _ _ _ _ _ _ _ Hfr1 Hi Hs0) as (r2 & e2 & f2 & Q2 & H2 & Hfr2 & L2).
  change (3 * i + 2) with (3 * i + slot RESOURCE_READY) in Hfr2.
  destruct (fire_ok _ _ _ _ _ _ _ _ _ _ _ _ Hfr2 Hi Hs0) as (r3 & e3 & f3 & Q3 & H3 & Hfr3 & L3).
  exists r3, e3, f3, Q3. split_and!; [|done|lia]. unfold FIRE_ORDER. cbn [fold_res].
  rewrite H1. cbn [mbind res_bind]. rewrite H2. cbn [mbind res_bind]. by rewrite H3.
Qed.

(** ** Taking a node from its queue *)

Lemma pop_ok code x q fired Q r i n : ready_state g pairs groups fired Q r → queues r !! code = Some (x :: q) →
  entry_of g i = Some x → l !! i = Some n → i ∈ Q →
  ∃ r', pop_queue code r = Ok r' ∧ ready_state g pairs groups fired (filter (fun j => j ≠ i) Q) r'.
Proof using graph.
  intros [Hl Hrem Hcodes Hq Hnd Hready] Hcode Hx Hi Hin. unfold pop_queue.
  rewrite (proj2 (at_Ok _ _ _) Hcode). cbn [mbind res_bind tail]. rewrite put_Ok by by eapply lookup_lt_Some.
  eexists. split; [reflexivity|].
  assert (Hperm : Q ≡ₚ i :: filter (fun j => j ≠ i) Q).
  { clear -Hnd Hin. induction Q as [|j Q IH]; [by apply elem_of_nil in Hin|]. apply NoDup_cons in Hnd as [Hj Hnd].
    rewrite filter_cons. apply elem_of_cons in Hin as [<-|Hin].
    - rewrite decide_False by tauto. f_equiv. clear -Hj. induction Q as [|k Q IH]; [done|].
      apply not_elem_of_cons in Hj as [Hk Hj]. rewrite filter_cons_True by done. by f_equiv; auto.
    - rewrite decide_True by (by intros ->). rewrite (IH Hnd Hin) at 1. apply Permutation_swap. }
  assert (Hgi : group g !! i = Some code).
  { destruct (Hq _ _ Hcode) as [_ Hp]. assert (Hxin : x ∈ omap (entry_of g) (filter (fun i => group g !! i = Some code) Q)).
    { rewrite <-Hp. constructor. }
    apply list_elem_of_omap in Hxin as (k & [Hk _]%list_elem_of_filter & Ek).
    unfold entry_of in Hx, Ek. destruct (columns g !! i); [|done]. destruct (columns g !! k); [|done].
    injection Hx as <-. injection Ek as _ E. by subst k. }
  constructor; cbn [remaining queues]; rewrite ?length_insert; try done.
  - intros code' q' Hq'. destruct (decide (code' = code)) as [->|Hne].
    + rewrite list_lookup_insert_eq in Hq' by by eapply lookup_lt_Some. injection Hq' as <-.
      destruct (Hq _ _ Hcode) as [Hs Hp]. inversion_clear Hs as [|? ? Hs' _]. split; [done|].
      apply (Permutation_cons_inv (a := x)). rewrite Hp. rewrite Hperm at 1. rewrite filter_cons_True by done.
      cbn [omap list_omap]. by rewrite Hx.
    + rewrite list_lookup_insert_ne in Hq' by done. destruct (Hq _ _ Hq') as [Hs Hp]. split; [done|].
      rewrite Hp. rewrite Hperm at 1. rewrite filter_cons_False; [done|]. rewrite Hgi. congruence.
  - by apply NoDup_filter.
  - intros j [_ Hj]%list_elem_of_filter. by apply Hready.
Qed.

Lemma front_start fired Q r evs t pend done code x q i n s0 :
  front [] fired Q r evs t pend done → queues r !! code = Some (x :: q) → entry_of g i = Some x → l !! i = Some n → i ∈ Q →
  completed_at done (identity n) = None → scheduled_identity s0 = identity n →
  ∃ r', pop_queue code r = Ok r' ∧
    front [3 * i; 3 * i + 1; 3 * i + 2] fired (filter (fun j => j ≠ i) Q) r' evs t (drop_node (identity n) pend) (done ++ [s0]).
Proof using graph graph_wf.
  intros [Hr Hq Hd Hf He Hs Hc Hnd] Hcode Hx Hi Hin Hnone Hid.
  destruct (pop_ok code x q fired Q r i n Hr Hcode Hx Hi Hin) as (r' & -> & Hr'). exists r'. split; [done|].
  assert (Hinj : ∀ j k, l !! j = Some k → identity k = identity n → j = i).
  { intros j k Hj E. eapply NoDup_lookup; [exact (wi_identities _ graph_wf)| |].
    - change (map identity l) with (identity <$> l). by rewrite list_lookup_fmap, Hj.
    - change (map identity l) with (identity <$> l). rewrite list_lookup_fmap, Hi. cbn. by rewrite E. }
  assert (Hold : ∀ m s1, completed_at done m = Some s1 → completed_at (done ++ [s0]) m = Some s1)
    by (intros; by apply completed_at_app_l).
  assert (Hnot : ∀ m, 3 * i + slot m ∉ fired ++ map event_position evs ++ []).
  { intros m. rewrite app_nil_r. intros [Hm|Hm]%elem_of_app.
    - apply Hf in Hm as (k & s1 & Hk & Hs1 & _). rewrite Hi in Hk. injection Hk as <-. congruence.
    - apply list_elem_of_In, in_map_iff in Hm as (ev & E & Hev). apply list_elem_of_In in Hev.
      apply position_inj in E as [E _]. apply He in Hev as (k & s1 & Hk & Hs1 & _). rewrite E, Hi in Hk.
      injection Hk as <-. congruence. }
  constructor; try done.
  - intros j k Hj. rewrite list_elem_of_filter, (Hq j k Hj). unfold drop_node. rewrite list_elem_of_filter. split.
    + intros (Hne & Hw & Hk). split_and!; try done. intros E. apply Hne. by eapply Hinj.
    + intros (Hw & Hne & Hk). split_and!; try done. intros ->. rewrite Hi in Hj. by injection Hj as <-.
  - intros j k Hj Hk. destruct (decide (identity k = identity n)) as [E|E].
    + rewrite (Hinj j k Hj E). by eapply Hq in Hin as [? _].
    + eapply Hd; [done|]. intros Hp. apply Hk. by apply list_elem_of_filter.
  - intros j m Hm. destruct (Hf j m Hm) as (k & s1 & ? & ? & ?). exists k, s1. split_and!; auto.
  - intros ev Hev. destruct (He ev Hev) as (k & s1 & ? & ? & ?). exists k, s1. split_and!; auto.
  - intros j k s1 m Hj. rewrite completed_at_snoc. destruct (completed_at done (identity k)) as [s2|] eqn:E.
    + intros _. specialize (Hc j k s2 m Hj E). rewrite app_nil_r in Hc. rewrite !elem_of_app in *. tauto.
    + destruct (String.eqb _ _) eqn:E2; [|done]. intros _. apply String.eqb_eq in E2. rewrite Hid in E2.
      rewrite (Hinj j k Hj (eq_sym E2)). rewrite !elem_of_app. right. right. destruct m; cbn [slot]; rewrite ?Nat.add_0_r; set_solver.
  - rewrite app_nil_r in Hnd. rewrite (assoc_L (++)). apply NoDup_app. split_and!; [done| |].
    + intros p Hp Hin'. rewrite app_nil_r in Hnot. rewrite !elem_of_cons in Hin'.
      destruct Hin' as [->|[->|[->|?%elem_of_nil]]]; [|by apply (Hnot RESULT_READY)|by apply (Hnot RESOURCE_READY)|done].
      apply (Hnot ACCEPTED). cbn. by rewrite Nat.add_0_r.
    + repeat (apply NoDup_cons; split; [set_unfold; lia|]). constructor.
Qed.
End Front.

From stdpp Require Import sorting.
From S2P Require Import Prelude Records Profiles Domains Rational ExecutionIR Services Sequence Admission Provider.
From S2P Require Import Scheduler SchedulerTheorems SqliteGraph SqliteScheduler SqliteLinkTheorems SqliteGraphTheorems.
Open Scope Z_scope.

(** The errors the in-memory scheduler does not have: too many events at
    once, and a stored epoch that does not fit the reader's integers. *)
Inductive limit : exn → Prop :=
  | limit_events : limit (ExecutionError "scenario exceeds bounded concurrent event capacity")
  | limit_numerator : limit (NpuTraceError "numerator: uint64 required")
  | limit_denominator : limit (NpuTraceError "denominator: uint64 required").

(** ** The stored rows *)

Definition row_of (ordinal : nat) (s : ScheduledNode) : Row := (scheduled_identity s, ordinal, scheduled_record s).
Definition table (done : list ScheduledNode) : list Row := imap row_of done.

Lemma table_snoc done s : table (done ++ [s]) = table done ++ [row_of (length done) s].
Proof. unfold table. rewrite imap_app. cbn. by rewrite Nat.add_0_r. Qed.

Lemma table_identities done : (table done).*1.*1 = map scheduled_identity done.
Proof.
  induction done as [|s done IH] using rev_ind; [done|]. by rewrite table_snoc, !fmap_app, IH.
Qed.

Lemma table_ordinals done : (table done).*1.*2 = seq 0 (length done).
Proof.
  induction done as [|s done IH] using rev_ind; [done|].
  rewrite table_snoc, !fmap_app, IH, length_app, seq_app. done.
Qed.

Lemma store_rows_ok stored rows done : stored ++ rows = table done → NoDup (map scheduled_identity done) →
  store_rows stored rows = Ok (table done).
Proof.
  intros E Hnd. unfold store_rows. rewrite E, table_identities, table_ordinals.
  rewrite (proj2 (distinct_str _)) by done. rewrite (proj2 (distinct_NoDup Nat.eqb _ Nat.eqb_eq)); [done|apply NoDup_seq].
Qed.

Lemma elem_of_table done row : row ∈ table done → ∃ s, s ∈ done ∧ row.1.1 = scheduled_identity s ∧ row.2 = scheduled_record s.
Proof.
  unfold table. intros [i Hi]%list_elem_of_lookup. rewrite list_lookup_imap in Hi.
  destruct (done !! i) as [s|] eqn:E; [|done]. injection Hi as <-. exists s. split; [by eapply list_elem_of_lookup_2|done].
Qed.

(** ** Reading an epoch back *)

Lemma fraction_this (q : Qc) : fraction (Qnum q) (Zpos (Qden q)) = Ok q.
Proof. cbn. f_equal. apply qc_eq. cbn [this Q2Qc]. rewrite Qred_correct. by destruct (this q). Qed.

Lemma scheduled_item s m : item (scheduled_record s) (milestone_key m) = Ok (JObj (rational (milestone_of s m))).
Proof. unfold scheduled_record. destruct (request_available_ns s); by destruct m. Qed.

Lemma stored_epoch_record s m :
  match stored_epoch (scheduled_record s) m with Ok q => q = milestone_of s m | Err e => limit e end.
Proof.
  unfold stored_epoch. rewrite scheduled_item. cbn [mbind res_bind object_value]. set (q := milestone_of s m).
  destruct (integer (rational q) "numerator") as [n|e] eqn:En; cbn [mbind res_bind].
  2:{ apply integer_Err in En as ->. constructor. }
  apply integer_Ok in En as [En _]. destruct (integer (rational q) "denominator") as [d|e] eqn:Ed; cbn [mbind res_bind].
  2:{ apply integer_Err in Ed as ->. constructor. }
  apply integer_Ok in Ed as [Ed _]. cbn in En, Ed. injection En as <-. injection Ed as <-. by rewrite fraction_this.
Qed.

(** The rows that are read for a node. *)
Definition parent_row (done : list ScheduledNode) (n : Node) (row : option string * record) : Prop :=
  ∃ d s0, d ∈ dependencies n ∧ completed_at done (node d) = Some s0 ∧
    row = (Some (milestone_value (milestone d)), scheduled_record s0).

Lemma later_epoch_row q m s0 : later_epoch q (Some (milestone_value m), scheduled_record s0) =
  (let* e := stored_epoch (scheduled_record s0) m in Ok (qmax q e)).
Proof. unfold later_epoch. cbn [fst snd from_option id]. by rewrite parse_milestone_value. Qed.

Lemma later_epochs done n rows : Forall (parent_row done n) rows → ∀ q0,
  match fold_res later_epoch q0 rows with
  | Ok q => (q0 <= q)%Qc ∧
      (∀ d s0, completed_at done (node d) = Some s0 → (Some (milestone_value (milestone d)), scheduled_record s0) ∈ rows →
         (milestone_of s0 (milestone d) <= q)%Qc) ∧
      (q = q0 ∨ ∃ d s0, d ∈ dependencies n ∧ completed_at done (node d) = Some s0 ∧ q = milestone_of s0 (milestone d))
  | Err e => limit e
  end.
Proof.
  induction 1 as [|row rows (d & s0 & Hd & Hs0 & ->) _ IH]; intros q0; cbn [fold_res].
  - split_and!; [apply Qcle_refl|by intros ? ? _ ?%elem_of_nil|by left].
  - rewrite later_epoch_row.
    pose proof (stored_epoch_record s0 (milestone d)) as He.
    destruct (stored_epoch (scheduled_record s0) (milestone d)) as [q1|e]; cbn [mbind res_bind]; [|done]. subst q1.
    specialize (IH (qmax q0 (milestone_of s0 (milestone d)))). destruct (fold_res _ _ _) as [q|e]; [|done].
    destruct IH as (H0 & Hall & Hor). destruct (qmax_spec q0 (milestone_of s0 (milestone d))) as (Hl & Hr & Hm). split_and!.
    + by eapply Qcle_trans.
    + intros d' s' Hs' [E|Hin]%elem_of_cons; [|by eapply Hall]. injection E as Ev Er.
      assert (milestone d' = milestone d) as ->.
      { pose proof (parse_milestone_value (milestone d')) as P. rewrite Ev, parse_milestone_value in P. by injection P. }
      assert (milestone_of s' (milestone d) = milestone_of s0 (milestone d)) as ->; [|by eapply Qcle_trans].
      pose proof (scheduled_item s' (milestone d)) as I1. rewrite Er, scheduled_item in I1. injection I1 as I1 I2.
      pose proof (fraction_this (milestone_of s' (milestone d))) as F. rewrite <-I1, <-I2, fraction_this in F. by injection F.
    + destruct Hor as [->|Hor]; [|by right]. destruct Hm as [-> | ->]; [by left|]. right. by exists d, s0.
Qed.

Lemma ready_at_spec done n r : ready_at done n = Some r → (∀ d s0, d ∈ dependencies n → completed_at done (node d) = Some s0 →
    (milestone_of s0 (milestone d) <= r)%Qc) ∧
  (r = 0%Qc ∨ ∃ d s0, d ∈ dependencies n ∧ completed_at done (node d) = Some s0 ∧ r = milestone_of s0 (milestone d)).
Proof.
  intros Hr. split.
  - intros d s0 Hd Hs. destruct (ready_at_Some _ _ _ Hr d Hd) as (s1 & Hs1 & Hle). rewrite Hs in Hs1. by injection Hs1 as <-.
  - unfold ready_at in Hr. destruct (milestones done (dependencies n)) as [ts|] eqn:E; [|done]. injection Hr as <-.
    destruct (qmax_list_spec 0%Qc ts) as [_ [[_ ->]|Hin]]; [by left|]. right. clear -E Hin.
    revert ts E Hin. generalize (qmax_list 0%Qc) as f. intros f.
    intros ts. generalize (f ts). clear f. induction (dependencies n) as [|d ds IH] in ts |- *; intros q; cbn [milestones].
    { by intros [= <-] ?%elem_of_nil. }
    destruct (completed_at done (node d)) as [s0|] eqn:Es; [|done]. destruct (milestones done ds) as [ts'|] eqn:Em; [|done].
    intros [= <-] [->|Hin]%elem_of_cons; [exists d, s0; split_and!; [constructor|done|done]|].
    destruct (IH ts' q eq_refl Hin) as (d' & s' & ? & ? & ?). exists d', s'. split_and!; [by constructor|done|done].
Qed.

Lemma completed_row done i s0 : NoDup (map scheduled_identity done) → s0 ∈ done → scheduled_identity s0 = i →
  completed_at done i = Some s0.
Proof.
  intros Hnd Hin <-. induction done as [|s done IH]; [by apply elem_of_nil in Hin|]. cbn in Hnd. apply NoDup_cons in Hnd as [Hs Hnd].
  unfold completed_at. cbn. destruct (String.eqb_spec (scheduled_identity s) (scheduled_identity s0)) as [E|E].
  - apply elem_of_cons in Hin as [->|Hin]; [done|]. exfalso. apply Hs. rewrite E.
    by apply list_elem_of_In, in_map, list_elem_of_In.
  - apply elem_of_cons in Hin as [->|Hin]; [done|]. by apply IH.
Qed.

(** The time a node was available, read from the rows of its parents. *)
Lemma request_available_ok edges l done n ready : edges ≡ₚ edges_of l → NoDup (map ExecutionIR.identity l) → n ∈ l →
  NoDup (map scheduled_identity done) → ready_at done n = Some ready →
  (∀ s0 m, s0 ∈ done → (0 <= milestone_of s0 m)%Qc) →
  match _request_available edges (table done) (bare n) with Ok q => q = ready | Err e => limit e end.
Proof.
  intros He Hnd Hn Hdone Hr Hpos. unfold _request_available. change (ExecutionIR.identity (bare n)) with (ExecutionIR.identity n).
  assert (Hrows : ∀ row, row ∈ parent_rows edges (table done) (ExecutionIR.identity n) ↔ parent_row done n row).
  { intros row. unfold parent_rows. rewrite list_elem_of_In, in_flat_map. setoid_rewrite <-list_elem_of_In. split.
    - intros (e & Hin & Hrow). rewrite He in Hin. apply elem_of_edges in Hin as (k & d & Hk & Hd & ->). cbn in Hrow.
      destruct (String.eqb_spec (ExecutionIR.identity k) (ExecutionIR.identity n)) as [E|]; [|by apply elem_of_nil in Hrow].
      assert (k = n) as -> by by eapply identity_inj.
      apply list_elem_of_In, in_map_iff in Hrow as (row' & <- & [Hin E2%String.eqb_eq]%filter_In).
      apply list_elem_of_In, elem_of_table in Hin as (s0 & Hs0 & Hid & ->). exists d, s0. split_and!; [done| |done].
      apply completed_row; [done..|]. by rewrite <-Hid.
    - intros (d & s0 & Hd & Hs0 & ->). exists (edge_of n d). rewrite He, elem_of_edges. split; [by exists n, d|].
      cbn. rewrite String.eqb_refl. apply list_elem_of_In, in_map_iff. apply completed_at_In in Hs0 as [Hs0 Hid].
      apply list_elem_of_lookup in Hs0 as [i Hi]. exists (row_of i s0). split; [done|]. apply filter_In. split.
      + apply list_elem_of_In, list_elem_of_lookup. exists i. unfold table. by rewrite list_lookup_imap, Hi.
      + by apply String.eqb_eq. }
  assert (Hall : Forall (parent_row done n) (parent_rows edges (table done) (ExecutionIR.identity n)))
    by (apply Forall_forall; intros row; apply Hrows).
  pose proof (later_epochs done n _ Hall 0%Qc) as Hl. destruct (fold_res later_epoch _ _) as [q|e]; [|done].
  destruct Hl as (H0 & Hge & Hor). destruct (ready_at_spec _ _ _ Hr) as [Hr1 Hr2].
  assert (Hr0 : (0 <= ready)%Qc).
  { destruct Hr2 as [->|(d & s0 & Hd & Hs0 & ->)]; [apply Qcle_refl|]. apply Hpos. by apply completed_at_In in Hs0 as [? _]. }
  apply Qcle_antisym.
  - destruct Hor as [->|(d & s0 & Hd & Hs0 & ->)]; [done|]. by eapply Hr1.
  - destruct Hr2 as [->|(d & s0 & Hd & Hs0 & ->)]; [done|]. eapply Hge; [done|]. apply Hrows. by exists d, s0.
Qed.

(** ** Execution from the tables *)

Section Execution.
Context `{PlainProvider} `{SequenceProvider}.
Context (sc : Scenario) (c : Qc).

Lemma earliest_bare e n t : earliest c e (bare n) t = earliest c e n t.
Proof. done. Qed.

(** A node read back with its own services runs like the node of the graph. *)
Lemma execute_own s sv n t av av' e :
  (is_cpu (kind n) = true → cpu_lookup sv n = cpu_lookup s n) →
  (is_npu (kind n) = true → npu_lookup sv n = npu_lookup s n) →
  (is_stateful (exec_provider e) = true → av = av') →
  execute_node sc c (bare n) sv t av e = execute_node sc c n s t av' e.
Proof.
  intros Hcpu Hnpu Hav. unfold execute_node. rewrite earliest_bare. change (kind (bare n)) with (kind n).
  set (a := match sequence_of (exec_provider e) with Some _ => av | None => None end).
  set (a' := match sequence_of (exec_provider e) with Some _ => av' | None => None end).
  assert (a = a') as ->. { unfold a, a', is_stateful in *. by destruct (sequence_of _); [apply Hav|]. }
  destruct (is_cpu (kind n)) eqn:Ec.
  - unfold execute_cpu. change (cpu_lookup sv (bare n)) with (cpu_lookup sv n). by rewrite Hcpu.
  - destruct (is_npu (kind n)) eqn:En; [|done].
    unfold execute_npu. change (npu_lookup sv (bare n)) with (npu_lookup sv n). by rewrite Hnpu.
Qed.

(** The kind of provider does not change. *)
Lemma execute_kind s n t av e e' sn : execute_node sc c n s t av e = (e', Ok sn) →
  is_stateful (exec_provider e') = is_stateful (exec_provider e).
Proof.
  unfold execute_node. intros [_ Hx]%mcheck_bind. destruct (is_cpu (kind n)).
  { unfold execute_cpu in Hx. apply mbind_Ok in Hx as (e1 & svc & [<- _]%pair_eq & Hx).
    apply mbind_Ok in Hx as (e2 & [] & [<- _]%pair_eq & Hx). apply mbind_Ok in Hx as (e3 & [] & [<- _]%pair_eq & Hx).
    apply mbind_Ok in Hx as (e4 & rel & [<- _]%pair_eq & Hx). destruct rel; [done|]. by apply pair_eq in Hx as [<- _]. }
  destruct (is_npu (kind n)).
  { unfold execute_npu in Hx. apply mbind_Ok in Hx as (e1 & work & [<- _]%pair_eq & Hx).
    apply mcheck_bind in Hx as [_ Hx]. apply mbind_Ok in Hx as (e1 & p & [<- <-%Ok_eq]%pair_eq & Hx).
    unfold is_stateful. destruct (exec_provider e) as [q|q|q].
    all: apply mbind_Ok in Hx as (e1 & w & Hp & Hx); unfold run_plain, run_sequence in Hp;
      repeat match type of Hp with context [let '(_, _) := ?m in _] => destruct m as [q' r] end; apply pair_eq in Hp as [<- _];
      apply mbind_Ok in Hx as (e2 & [] & [<- _]%pair_eq & Hx); by apply pair_eq in Hx as [<- _]. }
  apply mcheck_bind in Hx as [_ Hx]. by apply pair_eq in Hx as [<- _].
Qed.

(** ** Nodes of one group *)

Lemma qmax_list_perm (x y : list Qc) : x ≡ₚ y → qmax_list 0%Qc x = qmax_list 0%Qc y.
Proof.
  intros Hp. destruct x as [|a x]; [by apply Permutation_nil_l in Hp as ->|].
  assert (Hle : ∀ u v : list Qc, u ≡ₚ v → u ≠ [] → (qmax_list 0%Qc u <= qmax_list 0%Qc v)%Qc).
  { intros u v Huv Hne. destruct (qmax_list_spec 0%Qc u) as [_ [[-> _]|Hin]]; [done|]. apply qmax_list_in. by rewrite <-Huv. }
  apply Qcle_antisym; apply Hle; try done. by intros ->; apply Permutation_nil_r in Hp.
Qed.

Lemma earliest_group e n m t : group_key n = group_key m → earliest c e n t = earliest c e m t.
Proof.
  intros [Hk Hr]%pair_eq. unfold earliest. rewrite Hk.
  assert (Hp : resources n ≡ₚ resources m) by by rewrite <-(sort_strs_perm (resources n)), Hr, sort_strs_perm.
  by rewrite (qmax_list_perm (map (free_at e) (resources n)) (map (free_at e) (resources m))) by by apply Permutation_map.
Qed.

(** ** The choice of a head *)

Lemma pick_Some e t hs : ∀ fut x f, pick c e t hs fut = (Some x, f) →
  ∃ h1 h2, hs = h1 ++ x :: h2 ∧ earliest c e (entry_node x.2) t = t ∧
    Forall (fun y => earliest c e (entry_node y.2) t ≠ t) h1.
Proof.
  induction hs as [|y hs IH]; intros fut x f; cbn [pick]; [done|]. case_bool_decide as E.
  - intros [= <- _]. by exists [], hs.
  - intros (h1 & h2 & -> & Hx & Hf)%IH. exists (y :: h1), h2. split_and!; [done..|by constructor].
Qed.

Lemma pick_None e t hs : ∀ fut f, pick c e t hs fut = (None, f) →
  Forall (fun y => earliest c e (entry_node y.2) t ≠ t) hs ∧ f = fut ++ map (fun y => earliest c e (entry_node y.2) t) hs.
Proof.
  induction hs as [|y hs IH]; intros fut f; cbn [pick]; [intros [= <-]; by rewrite app_nil_r|]. case_bool_decide as E; [done|].
  intros [Hf ->]%IH. split; [by constructor|]. cbn. by rewrite <-(assoc_L (++)).
Qed.
End Execution.

Lemma elem_of_heads_from qs : ∀ k code x, (code, x) ∈ heads_from k qs ↔
  ∃ j q, code = (k + j)%nat ∧ qs !! j = Some (x :: q).
Proof.
  induction qs as [|q qs IH]; intros k code x.
  - split; [by intros ?%elem_of_nil|]. intros (j & q & _ & E). by rewrite lookup_nil in E.
  - assert (Hrest : (code, x) ∈ heads_from (S k) qs ↔ ∃ j q', code = (k + S j)%nat ∧ qs !! j = Some (x :: q')).
    { rewrite IH. by setoid_rewrite <-Nat.add_succ_comm. }
    destruct q as [|y q]; cbn [heads_from]; rewrite ?elem_of_cons, Hrest; split.
    + intros (j & q' & E & Hq). by exists (S j), q'.
    + intros ([|j] & q' & E & Hq); [done|]. by exists j, q'.
    + intros [[= -> ->]|(j & q' & E & Hq)]; [exists 0%nat, q; by rewrite Nat.add_0_r|by exists (S j), q'].
    + intros ([|j] & q' & E & Hq); [left|right; by exists j, q']. cbn in Hq. injection Hq as -> _.
      by rewrite Nat.add_0_r in E; subst.
Qed.

Lemma insert_head_perm x hs : insert_head x hs ≡ₚ x :: hs.
Proof. induction hs as [|y hs IH]; cbn; [done|]. destruct (entry_before x.2 y.2); [done|]. rewrite IH. apply Permutation_swap. Qed.

Lemma sorted_heads_perm qs : sorted_heads qs ≡ₚ heads_from 0 qs.
Proof. unfold sorted_heads. induction (heads_from 0 qs) as [|x hs IH]; cbn; [done|]. by rewrite insert_head_perm, IH. Qed.

Lemma elem_of_sorted_heads qs code x : (code, x) ∈ sorted_heads qs ↔ ∃ q, qs !! code = Some (x :: q).
Proof.
  rewrite sorted_heads_perm, elem_of_heads_from. cbn. split; [intros (j & q & -> & ?); eauto|]. intros [q Hq]. eauto.
Qed.

Lemma sorted_heads_sorted qs : StronglySorted (fun x y => entry_before x.2 y.2 = true) (sorted_heads qs).
Proof.
  assert (Hins : ∀ x hs, StronglySorted (fun x y : nat * Entry => entry_before x.2 y.2 = true) hs →
    StronglySorted (fun x y : nat * Entry => entry_before x.2 y.2 = true) (insert_head x hs)).
  { intros x hs. induction 1 as [|y hs Hhs IH Hy]; cbn; [by repeat constructor|]. destruct (entry_before x.2 y.2) eqn:E.
    - constructor; [by constructor|]. constructor; [done|]. eapply Forall_impl; [exact Hy|]. intros k. by apply before_trans.
    - constructor; [done|]. rewrite insert_head_perm. constructor; [|done].
      destruct (before_total (entry_node x.2) (entry_node y.2)); [by unfold entry_before in E; congruence|done]. }
  unfold sorted_heads. induction (heads_from 0 qs); cbn; [constructor|by apply Hins].
Qed.

Lemma before_antisym n m : before n m = true → before m n = true → ExecutionIR.identity n = ExecutionIR.identity m.
Proof.
  unfold before. rewrite !orb_true_iff, !andb_true_iff, !Z.ltb_lt, !Z.eqb_eq.
  intros [?|[? H1]] [?|[? H2]]; [lia..|]. by apply String.leb_antisym.
Qed.
