(* ===== verification/SqliteTheorems.v ===== *)
(** * The database scheduler refines the scheduler

    A simulation between the passes of [sqlite_loop] and those of
    [schedule_loop]: the former may stop at more moments, but it starts the
    same nodes at the same times with the same results, ends within its fuel,
    and fails only as the other does or at one of its own limits. *)
From stdpp Require Import sorting.
From S2P Require Import Prelude Records Profiles Domains Rational ExecutionIR Services Sequence Admission Provider.
From S2P Require Import Scheduler SchedulerTheorems SqliteGraph SqliteScheduler SqliteLinkTheorems SqliteGraphTheorems.
From S2P Require Import SqliteStepTheorems.
Set Default Goal Selector "!".
Open Scope Z_scope.

Section Runs.
Context `{PlainProvider} `{SequenceProvider}.
Context (sc : Scenario) (c : Qc) (Hc : (0 < c)%Qc).

(** What the loop of the in-memory scheduler comes to, without fuel. *)
Inductive runs (s : Services) : Progress → res Progress → Prop :=
  | runs_done pr : pending pr = [] → runs s pr (Ok pr)
  | runs_fails pr e : pending pr ≠ [] → schedule_step sc c s pr = Err e → runs s pr (Err e)
  | runs_step pr pr' r : pending pr ≠ [] → schedule_step sc c s pr = Ok pr' → runs s pr' r → runs s pr r.

Lemma runs_unique s pr r1 r2 : runs s pr r1 → runs s pr r2 → r1 = r2.
Proof.
  intros R1. revert r2. induction R1 as [|pr e Hne Hs|pr pr' r Hne Hs _ IH]; intros r2 R2.
  - by inversion R2.
  - inversion R2 as [|? e' _ Hs'|? pr' ? _ Hs' _]; subst; [done|congruence|congruence].
  - inversion R2 as [|? e' _ Hs'|? pr2 ? _ Hs' R']; subst; [done|congruence|]. rewrite Hs in Hs'. injection Hs' as <-. by apply IH.
Qed.

Definition moved (pr : Progress) (t : Qc) : Progress :=
  {| pending := pending pr; completed := completed pr; executor := executor pr; now_ns := t |}.

(** A moment before any node can start. *)
Record idle_until (pr : Progress) (t : Qc) : Prop := {
  id_later : (now_ns pr <= t)%Qc;
  id_none : ∀ m, m ∈ pending pr → ¬ startable c pr m;
  id_before : ∀ m u, m ∈ pending pr → start_time c pr m = Some u → (t <= u)%Qc;
}.

Lemma earliest_ready pr r n : (r <= earliest c (executor pr) n (qmax (now_ns pr) r))%Qc.
Proof using Hc. eapply Qcle_trans; [apply (qmax_ge_r (now_ns pr))|by apply earliest_ge]. Qed.

Lemma moved_start_time pr t m : idle_until pr t → m ∈ pending pr → start_time c (moved pr t) m = start_time c pr m.
Proof using Hc.
  intros [Hle _ Hu] Hm. unfold start_time, moved. cbn [completed executor now_ns].
  destruct (ready_at (completed pr) m) as [r|] eqn:E; [|done]. cbn. f_equal.
  apply (earliest_lub c Hc); [by apply qmax_mono|]. apply qmax_lub; [|apply earliest_ready].
  apply (Hu m); [done|]. unfold start_time. by rewrite E.
Qed.

Lemma scan_idle pr : (∀ m, m ∈ pending pr → ¬ startable c pr m) →
  scan c pr (sort_nodes (pending pr)) [] = (None, omap (start_time c pr) (sort_nodes (pending pr))).
Proof using Hc.
  intros Hno. destruct (scan c pr (sort_nodes (pending pr)) []) as [[[n ready]|] f] eqn:E.
  - apply scan_Some in E as (l1 & l2 & Hl & Hr & Hle & _). exfalso. apply (Hno n); [|by exists ready].
    rewrite <-sort_nodes_perm, Hl. apply elem_of_app. right. constructor.
  - by apply scan_None in E as [_ ->].
Qed.

Lemma omap_start_times pr t : idle_until pr t →
  omap (start_time c (moved pr t)) (sort_nodes (pending pr)) = omap (start_time c pr) (sort_nodes (pending pr)).
Proof using Hc.
  intros Hi. assert (Hsub : ∀ m, m ∈ sort_nodes (pending pr) → m ∈ pending pr) by (intros m; by rewrite sort_nodes_perm).
  induction (sort_nodes (pending pr)) as [|m k IH]; [done|]. cbn [omap list_omap].
  rewrite (moved_start_time pr t m Hi) by (apply Hsub; constructor). rewrite IH; [done|].
  intros x Hx. apply Hsub. by constructor.
Qed.

(** Stopping at such a moment changes nothing. *)
Lemma runs_moved s pr t r : pending pr ≠ [] → idle_until pr t → runs s (moved pr t) r → runs s pr r.
Proof using Hc.
  intros Hne Hi Hr. pose proof Hi as [Hle Hno Hu]. pose proof (scan_idle pr Hno) as Hscan.
  destruct (scan c (moved pr t) (sort_nodes (pending pr)) []) as [[[n ready]|] f] eqn:E.
  - apply scan_Some in E as (l1 & l2 & Hl & Hready & Hst & _). cbn [moved completed executor now_ns] in Hready, Hst.
    assert (Hn : n ∈ pending pr). { rewrite <-sort_nodes_perm, Hl. apply elem_of_app. right. constructor. }
    assert (Ht : start_time c pr n = Some t).
    { rewrite <-(moved_start_time pr t n Hi Hn). unfold start_time, moved. cbn [completed executor now_ns].
      rewrite Hready. cbn. f_equal. destruct (start_now c Hc _ _ _ _ Hst) as [Hrt Heq]. by rewrite (qmax_eq_l _ _ Hrt). }
    assert (Hin : t ∈ omap (start_time c pr) (sort_nodes (pending pr))).
    { apply omap_elem. exists n. by rewrite sort_nodes_perm. }
    eapply (runs_step s pr (moved pr t)); [done| |done]. unfold schedule_step. rewrite Hscan.
    destruct (omap (start_time c pr) (sort_nodes (pending pr))) as [|u us] eqn:Eo; [by apply elem_of_nil in Hin|].
    unfold moved. do 2 f_equal. destruct (qmin_list_spec us u) as (H1 & H2 & H3). apply Qcle_antisym.
    + apply elem_of_cons in Hin as [->|Hin]; [done|]. rewrite Forall_forall in H2. by apply H2.
    + assert (Hmin : qmin_list u us ∈ u :: us) by (destruct H3 as [-> |]; by constructor). rewrite <-Eo in Hmin.
      apply omap_elem in Hmin as (m & Hm & Hs). rewrite sort_nodes_perm in Hm. by apply (Hu m).
  - apply scan_None in E as [Hf ->]. cbn [app] in *.
    assert (Estep : schedule_step sc c s (moved pr t) = schedule_step sc c s pr).
    { assert (Hm : ∀ m, m ∈ pending pr → ¬ startable c (moved pr t) m).
      { intros m Hm. rewrite Forall_forall in Hf. apply Hf. by rewrite sort_nodes_perm. }
      pose proof (scan_idle (moved pr t) Hm) as Hscan'. change (pending (moved pr t)) with (pending pr) in Hscan'.
      rewrite (omap_start_times pr t Hi) in Hscan'. unfold schedule_step. change (pending (moved pr t)) with (pending pr).
      by rewrite Hscan, Hscan'. }
    inversion Hr as [? Hnil|? e _ Hs|? pr' ? _ Hs Hr']; subst.
    + done.
    + apply runs_fails; [done|]. by rewrite <-Estep.
    + eapply runs_step; [done| |exact Hr']. by rewrite <-Estep.
Qed.

(** The fuel of [schedule] is enough for it to come to its end. *)
Lemma schedule_runs l s fuel : ∀ pr,
  wf_ir l → Forall (fun n => NoDup (resources n)) l → valid_services s → schedule_inv c l pr →
  (2 * length (pending pr) <= fuel ∨
   (2 * length (pending pr) <= S fuel ∧ ∃ n, n ∈ pending pr ∧ startable c pr n))%nat →
  runs s pr (schedule_loop sc c fuel s pr).
Proof using Hc.
  induction fuel as [|fuel IH]; intros pr Hwf Hres Hs Hi Hf; pose proof (wi_identities _ Hwf) as Hnd; cbn [schedule_loop];
    destruct (pending pr) as [|n0 l0] eqn:Ep; [by apply runs_done|cbn in Hf; lia|by apply runs_done|]. rewrite <-Ep in *.
  assert (Hne : pending pr ≠ []) by by rewrite Ep.
  destruct (schedule_step sc c s pr) as [pr1|err] eqn:Hstep; cbn [mbind res_bind]; [|by apply runs_fails].
  pose proof (schedule_step_Ok sc c s pr pr1 Hstep) as Heff.
  eapply runs_step; [done|exact Hstep|]. apply IH; try done; [by eapply inv_step|].
  destruct Heff as [n ready e' result Hn _ _ _ _|n t Hn Ht Hlt Hmin].
  - cbn [pending]. pose proof (Permutation_length (drop_node_perm n (pending pr) (proj1 (si_pending _ _ _ Hi)) Hn)) as Hlen.
    cbn in Hlen. rewrite !length_map in Hlen. left. destruct Hf as [Hf|[Hf _]]; lia.
  - right. cbn [pending]. destruct Hf as [Hf|[_ Hf]].
    + split; [lia|]. exists n. split; [done|]. by apply advance_startable.
    + exfalso. destruct Hf as (m & Hm & (u & Hu & Hle)%startable_start).
      apply (Qclt_not_le _ _ Hlt). eapply Qcle_trans; [exact (Hmin m u Hm Hu)|done].
Qed.
End Runs.

Section Simulation.
Context `{Host} `{PlainProvider} `{SequenceProvider}.
Context (db : Database) (l : list Node) (s : Services) (g : Graph) (pairs : list (nat * nat)) (groups : Groups).
Context (sc : Scenario) (c : Qc) (Hc : (0 < c)%Qc) (stateful : bool).
Hypothesis db_stores : stores db l s.
Hypothesis graph_wf : wf_ir l.
Hypothesis services_valid : valid_services s.
Hypothesis graph : graph_of l g pairs groups.

(** The latest of a milestone over the schedule. *)
Definition latest (f : ScheduledNode → Qc) (done : list ScheduledNode) : Qc := fold_left qmax (map f done) 0%Qc.

Record sim (fired Q : list nat) (st : Run) (pr : Progress) : Prop := {
  sm_front : front l g pairs groups [] fired Q (readiness st) (events st) (now st) (pending pr) (completed pr);
  sm_inv : schedule_inv c l pr;
  sm_engine : engine st = executor pr;
  sm_now : now st = now_ns pr;
  sm_kind : is_stateful (exec_provider (executor pr)) = stateful;
  sm_times : (0 <= now_ns pr)%Qc ∧ ∀ s0 m, s0 ∈ completed pr → (0 <= milestone_of s0 m)%Qc;
  sm_finished : finished st = length (completed pr);
  sm_rows : results st ++ buffer st = table (completed pr);
  sm_ends : result_end st = latest result_ready_ns (completed pr) ∧ resource_end st = latest resource_ready_ns (completed pr);
}.

(** The events have been drained. *)
Definition drained (st : Run) : Prop := Forall (fun ev => (now st < epoch ev)%Qc) (events st).

Lemma sim_completed_NoDup fired Q st pr : sim fired Q st pr → NoDup (map scheduled_identity (completed pr)).
Proof.
  intros [_ [_ Hp _ _] _ _ _ _ _ _ _]. pose proof (wi_identities _ graph_wf) as Hnd. rewrite <-Hp in Hnd.
  by apply NoDup_app in Hnd as (_ & _ & ?).
Qed.

Lemma ready_at_le done n t : (0 <= t)%Qc → (∃ r, ready_at done n = Some r ∧ (r <= t)%Qc) ↔
  ∀ d, d ∈ dependencies n → ∃ s0, completed_at done (node d) = Some s0 ∧ (milestone_of s0 (milestone d) <= t)%Qc.
Proof.
  intros Ht. split.
  - intros (r & Hr & Hle) d Hd. destruct (ready_at_Some _ _ _ Hr d Hd) as (s0 & ? & ?). exists s0. split; [done|]. by eapply Qcle_trans.
  - intros Hall. destruct (ready_at_done done n) as [r Hr].
    + intros d Hd. destruct (Hall d Hd) as (s0 & Hs & _). apply completed_at_In in Hs as [Hs <-].
      by apply list_elem_of_In, in_map, list_elem_of_In.
    + exists r. split; [done|]. destruct (ready_at_spec _ _ _ Hr) as [_ [->|(d & s0 & Hd & Hs & ->)]]; [done|].
      destruct (Hall d Hd) as (s1 & Hs1 & Hle). rewrite Hs in Hs1. by injection Hs1 as <-.
Qed.

(** After the drain the queues hold exactly the nodes whose dependencies are
    met now. *)
Lemma queue_ready fired Q st pr i n : sim fired Q st pr → drained st → l !! i = Some n →
  i ∈ Q ↔ n ∈ pending pr ∧ ∃ r, ready_at (completed pr) n = Some r ∧ (r <= now_ns pr)%Qc.
Proof using graph graph_wf.
  intros Hsim Hd Hi. destruct Hsim as [Hf _ _ Hnow _ [Ht _] _ _ _]. rewrite (fr_queue _ _ _ _ _ _ _ _ _ _ _ _ Hf i n Hi).
  rewrite waiting_zero, ready_at_le by done. unfold drained in Hd. rewrite Forall_forall in Hd. split.
  - intros [Hall Hp]. split; [done|]. intros d Hdep. destruct graph_wf as [_ _ Hwfn _]. rewrite Forall_forall in Hwfn.
    apply list_elem_of_lookup_2 in Hi as Hn. pose proof (wn_resolved _ _ (Hwfn n Hn) d Hdep) as Hres.
    apply list_elem_of_In, in_map_iff in Hres as (parent & Hid & Hin). apply list_elem_of_In, list_elem_of_lookup in Hin as [k Hk].
    assert (Hfired : (3 * k + slot (milestone d))%nat ∈ fired) by (apply Hall, (gr_pairs _ _ _ _ graph); by exists n, d, k, parent).
    destruct (fr_fired _ _ _ _ _ _ _ _ _ _ _ _ Hf k _ Hfired) as (n' & s0 & Hk' & Hs0 & Hle). rewrite Hk in Hk'. injection Hk' as <-.
    rewrite Hid in Hs0. rewrite Hnow in Hle. by exists s0.
  - intros [Hp Hall]. split; [|done]. intros p (n' & d & k & parent & Hi' & Hdep & Hk & Hid & ->)%(gr_pairs _ _ _ _ graph).
    rewrite Hi in Hi'. injection Hi' as <-. destruct (Hall d Hdep) as (s0 & Hs0 & Hle). rewrite <-Hid in Hs0.
    pose proof (fr_covered _ _ _ _ _ _ _ _ _ _ _ _ Hf k parent s0 (milestone d) Hk Hs0) as Hcov.
    rewrite app_nil_r in Hcov. apply elem_of_app in Hcov as [|Hev]; [done|]. exfalso.
    apply list_elem_of_In, in_map_iff in Hev as (ev & E & Hev). apply list_elem_of_In in Hev.
    apply position_inj in E as [E1 E2]. destruct (fr_event _ _ _ _ _ _ _ _ _ _ _ _ Hf ev Hev) as (n' & s1 & Hk' & Hs1 & Hep).
    rewrite E1, Hk in Hk'. injection Hk' as <-. rewrite Hs0 in Hs1. injection Hs1 as <-. rewrite E2 in Hep.
    apply Hd in Hev. apply (Qclt_not_le _ _ Hev). by rewrite Hep, Hnow.
Qed.

Lemma pending_position fired Q st pr n : sim fired Q st pr → n ∈ pending pr → ∃ i, l !! i = Some n.
Proof. intros Hsim Hn. apply list_elem_of_lookup. by apply (si_pending _ _ _ (sm_inv _ _ _ _ Hsim)). Qed.

Lemma startable_queue fired Q st pr i n : sim fired Q st pr → drained st → l !! i = Some n → n ∈ pending pr →
  startable c pr n ↔ i ∈ Q ∧ earliest c (executor pr) n (now_ns pr) = now_ns pr.
Proof using graph graph_wf Hc.
  intros Hsim Hd Hi Hn. rewrite (queue_ready fired Q st pr i n Hsim Hd Hi). split.
  - intros (r & Hr & Hle). destruct (start_now c Hc _ _ _ _ Hle) as [Hrn Heq]. split; [|done]. split; [done|]. by exists r.
  - intros [[_ (r & Hr & Hle)] Heq]. exists r. split; [done|]. rewrite (qmax_eq_l _ _ Hle), Heq. apply Qcle_refl.
Qed.

(** ** Heads *)

Lemma queue_entry fired Q r code q x : ready_state g pairs groups fired Q r → queues r !! code = Some q → x ∈ q →
  ∃ k n, l !! k = Some n ∧ k ∈ Q ∧ x = {| entry_node := bare n; entry_index := k |} ∧ group g !! k = Some code.
Proof using graph.
  intros Hr Hq Hx. destruct (rs_queued _ _ _ _ _ _ Hr _ _ Hq) as [_ Hp]. rewrite Hp in Hx.
  apply list_elem_of_omap in Hx as (k & [Hk Hin]%list_elem_of_filter & E).
  destruct (rs_ready _ _ _ _ _ _ Hr k Hin) as [Hlt _]. rewrite (columns_length l g pairs groups graph) in Hlt.
  apply lookup_lt_is_Some_2 in Hlt as [n Hn]. rewrite (entry_at l g pairs groups graph _ _ Hn) in E. injection E as <-. by exists k, n.
Qed.

(** Every queued node is behind the head of its queue, which has its
    resources. *)
Lemma queued_head fired Q r i n : ready_state g pairs groups fired Q r → l !! i = Some n → i ∈ Q →
  ∃ code x q k m, queues r !! code = Some (x :: q) ∧ l !! k = Some m ∧ k ∈ Q ∧
    x = {| entry_node := bare m; entry_index := k |} ∧ group_key m = group_key n ∧ before m n = true.
Proof using graph.
  intros Hr Hi Hin. destruct (gr_group _ _ _ _ graph i n Hi) as (code & Hcode & Hkey).
  apply lookup_lt_Some in Hkey as Hlt. rewrite <-(rs_codes _ _ _ _ _ _ Hr) in Hlt. apply lookup_lt_is_Some_2 in Hlt as [q Hq].
  destruct (rs_queued _ _ _ _ _ _ Hr _ _ Hq) as [Hs Hp].
  assert (Hx : {| entry_node := bare n; entry_index := i |} ∈ q).
  { rewrite Hp. apply list_elem_of_omap. exists i. split; [by apply list_elem_of_filter|]. by apply (entry_at l g pairs groups graph). }
  destruct q as [|x q]; [by apply elem_of_nil in Hx|]. destruct (queue_entry fired Q r code (x :: q) x Hr Hq) as (k & m & Hk & HkQ & -> & Hkc); [constructor|].
  exists code, {| entry_node := bare m; entry_index := k |}, q, k, m. split_and!; try done.
  - destruct (gr_group _ _ _ _ graph k m Hk) as (code' & Hcode' & Hkey'). rewrite Hkc in Hcode'. injection Hcode' as <-.
    rewrite Hkey in Hkey'. apply (inj Some), pair_eq in Hkey' as [-> _]. done.
  - apply elem_of_cons in Hx as [E|Hx].
    + apply (f_equal entry_node) in E. cbn in E. change (before (bare m) (bare n) = true). rewrite E.
      by destruct (before_total (bare m) (bare m)).
    + inversion_clear Hs as [|? ? _ Hall]. rewrite Forall_forall in Hall. by apply Hall in Hx.
Qed.
(** ** The choice of a pass *)

Lemma pick_start fired Q st pr code x f : sim fired Q st pr → drained st →
  pick c (engine st) (now st) (sorted_heads (queues (readiness st))) [] = (Some (code, x), f) →
  ∃ q i n, queues (readiness st) !! code = Some (x :: q) ∧ l !! i = Some n ∧ i ∈ Q ∧
    x = {| entry_node := bare n; entry_index := i |} ∧ n ∈ pending pr ∧ startable c pr n ∧
    ∀ m, m ∈ pending pr → startable c pr m → before n m = true.
Proof using graph graph_wf Hc.
  intros Hsim Hd Hpick. pose proof (fr_ready _ _ _ _ _ _ _ _ _ _ _ _ (sm_front _ _ _ _ Hsim)) as Hr.
  apply pick_Some in Hpick as (h1 & h2 & Hh & Hnow & Hno). cbn [snd] in *.
  rewrite (sm_engine _ _ _ _ Hsim), (sm_now _ _ _ _ Hsim) in Hnow, Hno.
  assert (Hin : (code, x) ∈ sorted_heads (queues (readiness st))).
  { rewrite Hh. apply elem_of_app. right. constructor. }
  apply elem_of_sorted_heads in Hin as [q Hq].
  destruct (queue_entry fired Q _ code (x :: q) x Hr Hq) as (i & n & Hi & HiQ & Hx & _); [constructor|].
  apply (queue_ready fired Q st pr i n Hsim Hd Hi) in HiQ as Hp. destruct Hp as [Hp _].
  exists q, i, n. split_and!; try done.
  - apply (startable_queue fired Q st pr i n Hsim Hd Hi Hp). split; [done|]. rewrite Hx in Hnow. exact Hnow.
  - intros m Hm Hst. destruct (pending_position fired Q st pr m Hsim Hm) as [j Hj].
    destruct (proj1 (startable_queue fired Q st pr j m Hsim Hd Hj Hm) Hst) as [HjQ Hem].
    destruct (queued_head fired Q _ j m Hr Hj HjQ) as (code' & y & q' & k & m' & Hy & Hk & HkQ & Hye & Hg & Hb).
    assert (Hhead : (code', y) ∈ sorted_heads (queues (readiness st))) by (apply elem_of_sorted_heads; by exists q').
    rewrite <-(earliest_group c _ _ _ _ Hg) in Hem. eapply before_trans; [|exact Hb].
    assert (Hafter : (code', y) ∈ (code, x) :: h2).
    { rewrite Hh in Hhead. apply elem_of_app in Hhead as [Hhead|Hhead]; [|done]. exfalso.
      rewrite Forall_forall in Hno. apply (Hno _ Hhead). rewrite Hye. exact Hem. }
    pose proof (sorted_heads_sorted (queues (readiness st))) as Hs. rewrite Hh in Hs. apply StronglySorted_app_1_r in Hs.
    inversion_clear Hs as [|? ? _ Hall]. change (before (bare n) (bare m') = true).
    apply elem_of_cons in Hafter as [E|Hafter].
    + injection E as _ E. rewrite E, Hx in Hye. apply (f_equal entry_node) in Hye. cbn in Hye. rewrite Hye.
      by destruct (before_total (bare m') (bare m')).
    + rewrite Forall_forall in Hall. apply Hall in Hafter. by rewrite Hx, Hye in Hafter.
Qed.

(** The in-memory scheduler starts the same node. *)
Lemma scan_first pr n : schedule_inv c l pr → n ∈ pending pr → startable c pr n →
  (∀ m, m ∈ pending pr → startable c pr m → before n m = true) →
  ∃ ready f, ready_at (completed pr) n = Some ready ∧ scan c pr (sort_nodes (pending pr)) [] = (Some (n, ready), f).
Proof using Hc.
  intros Hinv Hn Hst Hmin. destruct (startable_scan c pr) as (n' & ready & f & E); [by exists n|].
  pose proof E as (l1 & l2 & Hl & Hr & Hle & Hno)%scan_Some.
  assert (Hn' : n' ∈ pending pr). { rewrite <-sort_nodes_perm, Hl. apply elem_of_app. right. constructor. }
  assert (n' = n) as ->; [|by exists ready, f].
  eapply identity_inj; [exact (proj1 (si_pending _ _ _ Hinv))|done..|]. apply before_antisym.
  - pose proof (sort_nodes_sorted (pending pr)) as Hsort. rewrite Hl in Hsort. apply StronglySorted_app_1_r in Hsort.
    inversion_clear Hsort as [|? ? _ Hf]. assert (Hin : n ∈ l1 ++ n' :: l2) by by rewrite <-Hl, sort_nodes_perm.
    apply elem_of_app in Hin as [Hin|Hin]; [by rewrite Forall_forall in Hno; apply Hno in Hin|].
    apply elem_of_cons in Hin as [->|Hin]; [by destruct (before_total n' n')|]. rewrite Forall_forall in Hf. by apply Hf.
  - apply Hmin; [done|]. by exists ready.
Qed.

(** Events that are still to come and pending nodes bound the next moment. *)
Lemma start_time_future fired Q st pr n u : sim fired Q st pr → drained st → n ∈ pending pr → start_time c pr n = Some u →
  (∃ code x q, queues (readiness st) !! code = Some (x :: q) ∧ earliest c (executor pr) (entry_node x) (now_ns pr) = u) ∨
  (∃ ev evs, events st = ev :: evs ∧ (epoch ev <= u)%Qc).
Proof using graph graph_wf Hc.
  intros Hsim Hd Hn Hu. pose proof (fr_ready _ _ _ _ _ _ _ _ _ _ _ _ (sm_front _ _ _ _ Hsim)) as Hr.
  unfold start_time in Hu. destruct (ready_at (completed pr) n) as [r|] eqn:Er; [|done]. cbn in Hu. injection Hu as Hu.
  destruct (pending_position fired Q st pr n Hsim Hn) as [i Hi]. destruct (Qclt_le_dec (now_ns pr) r) as [Hlt|Hle].
  - right. assert (Hnot : i ∉ Q).
    { intros HiQ. apply (queue_ready fired Q st pr i n Hsim Hd Hi) in HiQ as [_ (r' & Hr' & Hle)]. rewrite Er in Hr'.
      injection Hr' as <-. by apply Qclt_not_le in Hlt. }
    destruct (ready_at_spec _ _ _ Er) as [_ [->|(d & s0 & Hdep & Hs0 & E)]].
    { exfalso. apply (Qclt_not_le _ _ Hlt). apply (sm_times _ _ _ _ Hsim). }
    pose proof (sm_front _ _ _ _ Hsim) as Hf. destruct graph_wf as [_ _ Hwfn _]. rewrite Forall_forall in Hwfn.
    apply list_elem_of_lookup_2 in Hi as Hnl. pose proof (wn_resolved _ _ (Hwfn n Hnl) d Hdep) as Hres.
    apply list_elem_of_In, in_map_iff in Hres as (parent & Hid & Hin). apply list_elem_of_In, list_elem_of_lookup in Hin as [k Hk].
    rewrite <-Hid in Hs0. pose proof (fr_covered _ _ _ _ _ _ _ _ _ _ _ _ Hf k parent s0 (milestone d) Hk Hs0) as Hcov.
    rewrite app_nil_r in Hcov. apply elem_of_app in Hcov as [Hfired|Hev].
    + exfalso. destruct (fr_fired _ _ _ _ _ _ _ _ _ _ _ _ Hf k _ Hfired) as (p' & s1 & Hk' & Hs1 & Hle').
      rewrite Hk in Hk'. injection Hk' as <-. rewrite Hs0 in Hs1. injection Hs1 as <-.
      rewrite <-E, (sm_now _ _ _ _ Hsim) in Hle'. by apply Qclt_not_le in Hlt.
    + apply list_elem_of_In, in_map_iff in Hev as (ev & Ep & Hev). apply list_elem_of_In in Hev.
      apply position_inj in Ep as [E1 E2]. destruct (fr_event _ _ _ _ _ _ _ _ _ _ _ _ Hf ev Hev) as (p' & s1 & Hk' & Hs1 & Hep).
      rewrite E1, Hk in Hk'. injection Hk' as <-. rewrite Hs0 in Hs1. injection Hs1 as <-. rewrite E2, <-E in Hep.
      pose proof (fr_sorted _ _ _ _ _ _ _ _ _ _ _ _ Hf) as Hsort. destruct (events st) as [|ev0 evs]; [by apply elem_of_nil in Hev|].
      exists ev0, evs. split; [done|]. assert (Hru : (r <= u)%Qc) by (rewrite <-Hu; by apply earliest_ready).
      eapply Qcle_trans; [|exact Hru]. rewrite <-Hep. inversion_clear Hsort as [|? ? _ Hall].
      apply elem_of_cons in Hev as [->|Hev]; [apply Qcle_refl|]. rewrite Forall_forall in Hall. by apply Hall.
  - left. assert (HiQ : i ∈ Q) by (apply (queue_ready fired Q st pr i n Hsim Hd Hi); split; [done|by exists r]).
    destruct (queued_head fired Q _ i n Hr Hi HiQ) as (code & x & q & k & m & Hx & Hk & HkQ & Hxe & Hg & _).
    exists code, x, q. split; [done|]. rewrite Hxe. cbn [entry_node]. rewrite earliest_bare, (earliest_group c _ _ _ _ Hg).
    by rewrite <-Hu, (qmax_eq_l _ _ Hle).
Qed.
(** When no head can start, the scheduler moves on to a moment before which
    nothing can start, and at which an event fires or a node starts. *)
Lemma pick_idle fired Q st pr f : sim fired Q st pr → drained st → pending pr ≠ [] →
  pick c (engine st) (now st) (sorted_heads (queues (readiness st))) [] = (None, f) →
  ∃ t ts, f ++ match events st with [] => [] | ev :: _ => [epoch ev] end = t :: ts ∧
    (now_ns pr < qmin_list t ts)%Qc ∧ idle_until c pr (qmin_list t ts) ∧
    ((∃ ev, ev ∈ events st ∧ (epoch ev <= qmin_list t ts)%Qc) ∨
     ∃ n, n ∈ pending pr ∧ startable c (moved pr (qmin_list t ts)) n).
Proof using graph graph_wf Hc.
  intros Hsim Hd Hne Hpick. pose proof (fr_ready _ _ _ _ _ _ _ _ _ _ _ _ (sm_front _ _ _ _ Hsim)) as Hr.
  apply pick_None in Hpick as [Hno ->]. cbn [app].
  rewrite (sm_engine _ _ _ _ Hsim), (sm_now _ _ _ _ Hsim) in *. rewrite Forall_forall in Hno.
  set (future := map _ _ ++ _).
  assert (Hin : ∀ v, v ∈ future ↔ (∃ code x q, queues (readiness st) !! code = Some (x :: q) ∧ earliest c (executor pr) (entry_node x) (now_ns pr) = v) ∨
    (∃ ev evs, events st = ev :: evs ∧ epoch ev = v)).
  { intros v. unfold future. rewrite elem_of_app. f_equiv.
    - rewrite list_elem_of_In, in_map_iff. split.
      + intros ([code x] & <- & Hx). apply list_elem_of_In, elem_of_sorted_heads in Hx as [q Hq]. by exists code, x, q.
      + intros (code & x & q & Hq & <-). exists (code, x). split; [done|]. apply list_elem_of_In, elem_of_sorted_heads. by exists q.
    - destruct (events st) as [|ev evs]; [split; [by intros ?%elem_of_nil|by intros (? & ? & ? & _)]|].
      rewrite list_elem_of_singleton. split; [intros ->; by exists ev, evs|by intros (? & ? & [= <- <-] & <-)]. }
  assert (Hlater : ∀ v, v ∈ future → (now_ns pr < v)%Qc).
  { intros v [(code & x & q & Hq & <-)|(ev & evs & E & <-)]%Hin.
    - assert (Hx : (code, x) ∈ sorted_heads (queues (readiness st))) by (apply elem_of_sorted_heads; by exists q).
      apply Hno in Hx. cbn in Hx. pose proof (earliest_ge c Hc (executor pr) (entry_node x) (now_ns pr)) as Hge.
      apply Qcle_lt_or_eq in Hge as [|E]; [done|]. by rewrite <-E in Hx.
    - unfold drained in Hd. rewrite E, (sm_now _ _ _ _ Hsim) in Hd. by inversion_clear Hd. }
  assert (Hbound : ∀ m u, m ∈ pending pr → start_time c pr m = Some u → ∃ v, v ∈ future ∧ (v <= u)%Qc).
  { intros m u Hm Hu. destruct (start_time_future fired Q st pr m u Hsim Hd Hm Hu) as [Hx|(ev & evs & E & Hle)].
    - exists u. split; [|apply Qcle_refl]. apply Hin. by left.
    - exists (epoch ev). split; [|done]. apply Hin. right. by exists ev, evs. }
  destruct (inv_start_time c l pr graph_wf (sm_inv _ _ _ _ Hsim) Hne) as (n0 & u0 & Hn0 & Hu0).
  destruct (Hbound n0 u0 Hn0 Hu0) as (v0 & Hv0 & _).
  destruct future as [|t ts]; [by apply elem_of_nil in Hv0|]. exists t, ts. split; [done|].
  destruct (qmin_list_spec ts t) as (M1 & M2 & M3). set (m := qmin_list t ts) in *. rewrite Forall_forall in M2.
  assert (Hm : m ∈ t :: ts) by (destruct M3 as [-> |]; by constructor).
  assert (Hmin : ∀ v, v ∈ t :: ts → (m <= v)%Qc) by (intros v [->|Hv]%elem_of_cons; [done|by apply M2]).
  assert (Hidle : idle_until c pr m).
  { constructor.
    - by apply Qclt_le_weak, Hlater.
    - intros k Hk (u & Hu & Hle)%startable_start. destruct (Hbound k u Hk Hu) as (v & Hv & Hvu).
      apply (Qclt_not_le _ _ (Hlater v Hv)). by eapply Qcle_trans.
    - intros k u Hk Hu. destruct (Hbound k u Hk Hu) as (v & Hv & Hvu). eapply Qcle_trans; [by apply Hmin|done]. }
  split_and!; [by apply Hlater|done|]. apply Hin in Hm as [(code & x & q & Hq & Hx)|(ev & evs & E & Hx)].
  - right. destruct (queue_entry fired Q _ code (x :: q) x Hr Hq) as (k & n & Hk & HkQ & -> & _); [constructor|].
    apply (queue_ready fired Q st pr k n Hsim Hd Hk) in HkQ as [Hp (r & Hrd & Hle)]. exists n. split; [done|].
    apply advance_startable; [done|]. unfold start_time. rewrite Hrd. cbn. by rewrite (qmax_eq_l _ _ Hle), <-Hx.
  - left. exists ev. rewrite E. split; [constructor|]. rewrite Hx. apply Qcle_refl.
Qed.

(** ** Starting a node *)

Lemma node_services_ok n : n ∈ l → ∃ sv, node_services db (bare n) = Ok sv ∧
  (is_cpu (kind n) = true → cpu_lookup sv n = cpu_lookup s n) ∧ (is_npu (kind n) = true → npu_lookup sv n = npu_lookup s n).
Proof using db_stores graph_wf.
  intros Hn. pose proof (st_service _ _ _ db_stores n Hn) as Hsv. unfold node_services.
  change (ExecutionIR.identity (bare n)) with (ExecutionIR.identity n). change (service (bare n)) with (service n).
  destruct (has_service n) eqn:Eh.
  - destruct Hsv as (r & sv & -> & Hp & [Hnames Hcpu Hnpu]). exists sv. cbn [mbind res_bind object_value]. rewrite Hp.
    cbn [mbind res_bind]. unfold ensure. by rewrite Hnames.
  - rewrite Hsv. eexists. split.
    + unfold has_service in Eh. by destruct (service n).
    + destruct graph_wf as [_ _ Hwfn _]. rewrite Forall_forall in Hwfn. pose proof (wn_service _ _ (Hwfn n Hn)) as Hk.
      rewrite <-node_owns, Eh in Hk. split; intros Hkind; destruct (kind n); try done; by destruct Hk as [_ Hk]; discriminate Hk.
Qed.

Lemma latest_snoc f done s0 : latest f (done ++ [s0]) = qmax (latest f done) (f s0).
Proof. unfold latest. by rewrite map_app, fold_left_app. Qed.

Definition started (st : Run) (pr : Progress) (outcome : res Run) : Prop :=
  match outcome with
  | Ok st' => ∃ pr' fired' Q', schedule_step sc c s pr = Ok pr' ∧ sim fired' Q' st' pr' ∧
      (S (length (pending pr')) = length (pending pr) ∧ length (events st') <= 3 + length (events st))%nat
  | Err e => schedule_step sc c s pr = Err e ∨ limit e
  end.

Lemma start_ok fired Q st pr code x q i n : sim fired Q st pr →
  queues (readiness st) !! code = Some (x :: q) → l !! i = Some n → i ∈ Q → x = {| entry_node := bare n; entry_index := i |} →
  n ∈ pending pr → startable c pr n → (∀ m, m ∈ pending pr → startable c pr m → before n m = true) →
  started st pr (start db g sc c stateful None st code x).
Proof using db_stores graph_wf services_valid graph Hc.
  intros Hsim Hq Hi HiQ Hx Hn Hst Hmin. pose proof (sim_completed_NoDup _ _ _ _ Hsim) as Hnd.
  destruct Hsim as [Hf Hinv He Hnow Hkind [Ht Htimes] Hfin Hrows [Hend1 Hend2]].
  destruct (scan_first pr n Hinv Hn Hst Hmin) as (ready & f & Hready & Hscan).
  assert (Hnl : n ∈ l) by by eapply list_elem_of_lookup_2.
  destruct (node_services_ok n Hnl) as (sv & Hsv & Hcpu & Hnpu).
  unfold started, start. rewrite Hx. cbn [entry_node entry_index]. rewrite Hsv. cbn [mbind res_bind].
  (* the rows *)
  assert (Hflush : ∃ stored rows, (if stateful then store_rows (results st) (buffer st) else Ok (results st)) = Ok stored ∧
    (if stateful then [] else buffer st) = rows ∧ stored ++ rows = table (completed pr) ∧ (stateful = true → stored = table (completed pr))).
  { destruct stateful.
    - exists (table (completed pr)), []. rewrite (store_rows_ok _ _ _ Hrows Hnd), app_nil_r. done.
    - by exists (results st), (buffer st). }
  destruct Hflush as (stored & rows & -> & -> & Htab & Hstored). cbn [mbind res_bind].
  (* the time the node was available *)
  pose proof (request_available_ok (db_edges db) l (completed pr) n ready (st_edges _ _ _ db_stores)
    (wi_identities _ graph_wf) Hnl Hnd Hready Htimes) as Hav.
  assert (Havail : match (if stateful then Some <$> _request_available (db_edges db) stored (bare n) else Ok None) with
    | Ok av => stateful = true → av = Some ready | Err e => limit e end).
  { destruct stateful; [|done]. rewrite Hstored by done. destruct (_request_available _ _ _); cbn; [by intros _; f_equal|done]. }
  destruct (if stateful then Some <$> _request_available (db_edges db) stored (bare n) else Ok None) as [av|e];
    cbn [mbind res_bind]; [|by right].
  rewrite (execute_own sc c s sv n (now st) av (Some ready) (engine st) Hcpu Hnpu) by (rewrite He, Hkind; exact Havail).
  unfold schedule_step. rewrite Hscan, He, Hnow.
  destruct (execute_node sc c n s (now_ns pr) (Some ready) (executor pr)) as [e' [result|err]] eqn:Hex; cbn [mbind res_bind]; [|by left].
  assert (Hres : Forall (fun n => NoDup (resources n)) l) by by apply wf_resources.
  pose proof (execute_node_inv sc c Hc n s _ _ _ _ _ services_valid (proj1 (Forall_forall _ _) Hres n Hnl) Hex) as Hexec.
  assert (Hle : (earliest c (executor pr) n (qmax (now_ns pr) ready) <= now_ns pr)%Qc).
  { destruct Hst as (r' & Hr' & Hle). rewrite Hready in Hr'. by injection Hr' as <-. }
  pose proof (inv_start sc c Hc l s pr n ready e' result (wi_identities _ graph_wf) Hres services_valid Hinv Hn Hready Hle Hex) as Hinv'.
  assert (Hid : scheduled_identity result = ExecutionIR.identity n) by apply Hexec.
  assert (Hnone : completed_at (completed pr) (ExecutionIR.identity n) = None).
  { apply completed_at_None. pose proof (wi_identities _ graph_wf) as Hall. rewrite <-(si_nodes _ _ _ Hinv) in Hall.
    apply NoDup_app in Hall as (_ & Hdis & _). apply Hdis. by apply list_elem_of_In, in_map, list_elem_of_In. }
  (* the queue *)
  destruct (front_start l g pairs groups graph graph_wf fired Q _ _ _ _ _ code x q i n result Hf Hq) as (r1 & Hpop & Hf1);
    try done; [by rewrite (entry_at l g pairs groups graph _ _ Hi), Hx|].
  rewrite Hpop. cbn [mbind res_bind check_observed].
  (* the row of the node *)
  change (ExecutionIR.identity (bare n)) with (ExecutionIR.identity n). rewrite <-Hid, Hfin. fold (row_of (length (completed pr)) result).
  assert (Hnd' : NoDup (map scheduled_identity (completed pr ++ [result]))).
  { pose proof (wi_identities _ graph_wf) as Hall. rewrite <-(si_nodes _ _ _ Hinv') in Hall. cbn [completed] in Hall.
    by apply NoDup_app in Hall as (_ & _ & ?). }
  assert (Htab' : stored ++ rows ++ [row_of (length (completed pr)) result] = table (completed pr ++ [result])).
  { by rewrite (assoc_L (++)), Htab, table_snoc. }
  set (rows' := rows ++ [_]) in *. set (full := Nat.eqb (length rows') RESULT_BATCH).
  assert (Hbatch : ∃ stored', (if full then store_rows stored rows' else Ok stored) = Ok stored' ∧
    stored' ++ (if full then [] else rows') = table (completed pr ++ [result])).
  { destruct full; [|by exists stored]. exists (table (completed pr ++ [result])). rewrite app_nil_r. by rewrite (store_rows_ok _ _ _ Htab' Hnd'). }
  destruct Hbatch as (stored' & -> & Htab''). cbn [mbind res_bind].
  (* its milestones *)
  destruct (fire_all_ok l g pairs groups graph fired _ r1 (events st) (now st) _ _ i n result Hf1 Hi) as (r2 & evs2 & fired2 & Q2 & Hfire & Hf2 & Hlen).
  { rewrite completed_at_snoc, Hnone, Hid. by rewrite String.eqb_refl. }
  rewrite <-Hnow, Hfire. cbn [mbind res_bind snd]. unfold ensure.
  destruct (negb _ || _); cbn [check mbind res_bind]; [|right; constructor].
  eexists _, fired2, Q2. split; [reflexivity|]. split.
  - constructor; cbn [readiness engine events buffer results now result_end resource_end finished pending completed executor now_ns fst snd].
    + by rewrite Hid.
    + by rewrite Hid, Hnow.
    + done.
    + done.
    + rewrite <-Hkind. by eapply execute_kind.
    + split; [by rewrite Hnow|]. intros s0 m [Hs0|Hs0%list_elem_of_singleton]%elem_of_app; [by apply Htimes|]. subst s0.
      assert (Ha : (0 <= accepted_ns result)%Qc) by (eapply Qcle_trans; [exact Ht|apply Hexec]).
      destruct (ex_milestones _ _ _ _ _ _ Hexec) as [Hm1 Hm2].
      assert (Hb : (0 <= result_ready_ns result)%Qc) by by eapply Qcle_trans.
      destruct m; cbn; [done|done|by eapply Qcle_trans].
    + rewrite length_app. cbn. lia.
    + done.
    + by rewrite !latest_snoc, Hend1, Hend2.
  - cbn [events pending]. split; [|done].
    pose proof (Permutation_length (drop_node_perm n (pending pr) (proj1 (si_pending _ _ _ Hinv)) Hn)) as Hl.
    cbn in Hl. rewrite !length_map in Hl. by rewrite Hid, Hl.
Qed.
(** ** A pass and the loop *)

(** The next pass starts a node or drains an event. *)
Definition hot (st : Run) (pr : Progress) : Prop :=
  (∃ ev, ev ∈ events st ∧ (epoch ev <= now st)%Qc) ∨ ∃ n, n ∈ pending pr ∧ startable c pr n.

Definition idled (st : Run) (pr : Progress) (st' : Run) : Prop :=
  ∃ t fired' Q', idle_until c pr t ∧ sim fired' Q' st' (moved pr t) ∧ hot st' (moved pr t) ∧
    (length (events st') <= length (events st))%nat ∧ (hot st pr → (length (events st') < length (events st))%nat).

Lemma sim_moved fired Q st pr evs r t : sim fired Q st pr → (now_ns pr <= t)%Qc →
  front l g pairs groups [] fired Q r evs (now st) (pending pr) (completed pr) →
  sim fired Q (at_time st evs r t) (moved pr t).
Proof.
  intros [Hf [Hp Hn Htl Hfree] He Hnow Hkind [Ht Htimes] Hfin Hrows Hends] Hle Hf'.
  constructor; cbn [at_time moved readiness engine events buffer results now result_end resource_end finished pending completed executor now_ns]; try done.
  - destruct Hf' as [F1 F2 F3 F4 F5 F6 F7 F8]. constructor; try done. intros k m Hk. destruct (F4 k m Hk) as (n & s0 & ? & ? & Hm).
    exists n, s0. split_and!; try done. eapply Qcle_trans; [exact Hm|]. by rewrite Hnow.
  - split; [by eapply Qcle_trans|done].
Qed.

Lemma step_ok fired Q st pr : sim fired Q st pr → pending pr ≠ [] →
  match sqlite_step db g sc c stateful None st with
  | Ok st' => started st pr (Ok st') ∨ idled st pr st'
  | Err e => started st pr (Err e)
  end.
Proof using db_stores graph_wf services_valid graph Hc.
  intros Hsim Hne. pose proof (sm_front _ _ _ _ Hsim) as Hf. unfold sqlite_step.
  destruct (drain_ok l g pairs groups graph [] (now st) (pending pr) (completed pr) (events st) fired Q (readiness st) Hf)
    as (evs & r & fired' & Q' & -> & Hf' & Hlt & Hlen & Hdec). cbn [mbind res_bind fst snd].
  set (st1 := at_time st evs r (now st)).
  assert (Hsim1 : sim fired' Q' st1 pr).
  { destruct Hsim as [_ Hinv He Hnow Hkind Htimes Hfin Hrows Hends]. by constructor. }
  assert (Hd1 : drained st1) by done.
  destruct (pick c (engine st1) (now st1) (sorted_heads (queues (readiness st1))) []) as [[[code x]|] f] eqn:Epick.
  - destruct (pick_start fired' Q' st1 pr code x f Hsim1 Hd1 Epick) as (q & i & n & Hq & Hi & HiQ & Hx & Hn & Hst & Hmin).
    pose proof (start_ok fired' Q' st1 pr code x q i n Hsim1 Hq Hi HiQ Hx Hn Hst Hmin) as Hstart.
    destruct (start db g sc c stateful None st1 code x) as [st'|e]; [left|done].
    destruct Hstart as (pr' & f2 & Q2 & ? & ? & ? & Hl). exists pr', f2, Q2. split_and!; try done. cbn in Hl. lia.
  - destruct (pick_idle fired' Q' st1 pr f Hsim1 Hd1 Hne Epick) as (t & ts & -> & Hnow & Hidle & Hhot).
    right. exists (qmin_list t ts), fired', Q'. split_and!; [done| | |done|].
    + apply (sim_moved fired' Q' st1 pr evs r); [done|by apply Qclt_le_weak|done].
    + destruct Hhot as [Hhot|Hhot]; [by left|by right].
    + cbn [at_time events]. intros [Hev|(n & Hn & Hst)]; [by apply Hdec|]. exfalso. by apply (id_none _ _ _ Hidle n).
Qed.

Lemma sim_finished fired Q st pr : sim fired Q st pr →
  Nat.leb (length (columns g)) (finished st) = true ↔ pending pr = [].
Proof using graph.
  intros Hsim. rewrite Nat.leb_le, (columns_length l g pairs groups graph), (sm_finished _ _ _ _ Hsim).
  pose proof (Permutation_length (si_nodes _ _ _ (sm_inv _ _ _ _ Hsim))) as Hlen. rewrite length_app, !length_map in Hlen.
  rewrite <-length_zero_iff_nil. lia.
Qed.

Lemma loop_ok fuel : ∀ fired Q st pr, sim fired Q st pr →
  (8 * length (pending pr) + 2 * length (events st) + 1 <= fuel ∨
   (8 * length (pending pr) + 2 * length (events st) <= fuel ∧ hot st pr))%nat →
  match sqlite_loop db g sc c stateful None fuel st with
  | Ok st' => ∃ pr' fired' Q', runs sc c s pr (Ok pr') ∧ sim fired' Q' st' pr' ∧ pending pr' = []
  | Err e => runs sc c s pr (Err e) ∨ limit e
  end.
Proof using db_stores graph_wf services_valid graph Hc.
  induction fuel as [|fuel IH]; intros fired Q st pr Hsim Hfuel; cbn [sqlite_loop];
    destruct (Nat.leb (length (columns g)) (finished st)) eqn:E.
  1, 3: apply (sim_finished fired Q st pr Hsim) in E; exists pr, fired, Q; split_and!; [by apply runs_done|done|done].
  all: assert (Hne : pending pr ≠ []) by (intros Hnil; apply (sim_finished fired Q st pr Hsim) in Hnil; congruence).
  { destruct (pending pr); [done|]. cbn in Hfuel. lia. }
  pose proof (step_ok fired Q st pr Hsim Hne) as Hstep.
  destruct (sqlite_step db g sc c stateful None st) as [st'|e]; cbn [mbind res_bind].
  - destruct Hstep as [(pr' & f2 & Q2 & Hs & Hsim2 & Hp & He)|(t & f2 & Q2 & Hidle & Hsim2 & Hhot & Hl & Hdec)].
    + specialize (IH f2 Q2 st' pr' Hsim2 ltac:(lia)). destruct (sqlite_loop _ _ _ _ _ _ fuel st') as [st2|e].
      * destruct IH as (pr2 & f3 & Q3 & Hr & ? & ?). exists pr2, f3, Q3. split_and!; try done. by eapply runs_step.
      * destruct IH as [Hr|]; [left; by eapply runs_step|by right].
    + assert (Hfuel2 : (8 * length (pending (moved pr t)) + 2 * length (events st') <= fuel)%nat).
      { cbn [moved pending]. destruct Hfuel as [Hfuel|[Hfuel Hh]]; [lia|]. specialize (Hdec Hh). lia. }
      specialize (IH f2 Q2 st' (moved pr t) Hsim2 (or_intror (conj Hfuel2 Hhot))).
      destruct (sqlite_loop _ _ _ _ _ _ fuel st') as [st2|e].
      * destruct IH as (pr2 & f3 & Q3 & Hr & ? & ?). exists pr2, f3, Q3. split_and!; try done. by eapply runs_moved.
      * destruct IH as [Hr|]; [left; by eapply runs_moved|by right].
  - destruct Hstep as [Hs|]; [left; by apply runs_fails|by right].
Qed.
End Simulation.

Section Refinement.
Context `{Host} `{PlainProvider} `{SequenceProvider}.

(** Same nodes, same endpoints: what the two schedulers agree on. *)
Record same_schedule (g : Graph) (st : Run) (pr : Progress) : Prop := {
  ss_rows : results st = table (completed pr);
  ss_count : length (columns g) = length (completed pr);
  ss_engine : engine st = executor pr;
  ss_result : result_end st = latest result_ready_ns (completed pr);
  ss_resource : resource_end st = latest resource_ready_ns (completed pr);
}.

Lemma run_nodes_refines db inputs sc c :
  stores db (nodes (ir inputs)) (services inputs) → wf_ir (nodes (ir inputs)) → valid_services (services inputs) →
  bounded (nodes (ir inputs)) → fraction 1000000000 (npu_frequency_hz sc) = Ok c → (0 < c)%Qc →
  match run_nodes db {| provider := npu_provider inputs; scenario := sc |} None with
  | Ok (g, st) => ∃ pr, schedule_loop sc c (schedule_fuel inputs) (services inputs) (initial inputs) = Ok pr ∧ same_schedule g st pr
  | Err e => schedule_loop sc c (schedule_fuel inputs) (services inputs) (initial inputs) = Err e ∨ limit e
  end.
Proof.
  intros Hstores Hwf Hvalid Hbound Hcyc Hc. set (l := nodes (ir inputs)) in *. set (s := services inputs) in *.
  destruct (prepare_ok db l s Hstores Hwf Hbound) as (g & r & pairs & groups & Q & Hprep & Hg & Hr & HQ).
  unfold run_nodes. rewrite Hprep. cbn [mbind res_bind provider scenario]. rewrite Hcyc. cbn [mbind res_bind].
  set (stateful := is_stateful (npu_provider inputs)).
  assert (Hinv : schedule_inv c l (initial inputs)) by apply initial_inv, Hwf.
  assert (Hsim : sim l g pairs groups c stateful [] Q (start_run r (npu_provider inputs)) (initial inputs)).
  { constructor; try done.
    - constructor; try done.
      + intros i n Hi. rewrite HQ. split.
        * intros [_ Hw]. split; [done|]. by eapply list_elem_of_lookup_2.
        * intros [Hw _]. split; [by eapply lookup_lt_Some|done].
      + intros i n Hi Hn. exfalso. apply Hn. by eapply list_elem_of_lookup_2.
      + by intros i m ?%elem_of_nil.
      + by intros ev ?%elem_of_nil.
      + constructor.
      + constructor.
    - split; [apply Qcle_refl|]. by intros s0 m ?%elem_of_nil. }
  pose proof (loop_ok db l s g pairs groups sc c Hc stateful Hstores Hwf Hvalid Hg (sqlite_fuel g) [] Q _ _ Hsim) as Hloop.
  pose proof (schedule_runs sc c Hc l s (schedule_fuel inputs) (initial inputs) Hwf (wf_resources _ Hwf) Hvalid Hinv) as Hruns.
  specialize (Hruns (or_introl (Nat.le_refl _))).
  destruct (sqlite_loop db g sc c stateful None (sqlite_fuel g) (start_run r (npu_provider inputs))) as [st|e]; cbn [mbind res_bind].
  - destruct Hloop as (pr & f & Q' & Hrun & Hsim' & Hnil).
    { left. unfold sqlite_fuel. rewrite (columns_length l g pairs groups Hg). cbn [initial pending start_run events length]. fold l. lia. }
    pose proof (sim_completed_NoDup l g pairs groups c stateful Hwf _ _ _ _ Hsim') as Hnd.
    rewrite (store_rows_ok _ _ _ (sm_rows _ _ _ _ _ _ _ _ _ _ Hsim') Hnd). cbn [mbind res_bind].
    exists pr. split; [by eapply runs_unique|]. constructor; cbn [results engine result_end resource_end].
    + done.
    + rewrite (columns_length l g pairs groups Hg).
      pose proof (Permutation_length (si_nodes _ _ _ (sm_inv _ _ _ _ _ _ _ _ _ _ Hsim'))) as Hlen.
      rewrite Hnil in Hlen. cbn in Hlen. by rewrite !length_map in Hlen.
    + apply Hsim'.
    + apply Hsim'.
    + apply Hsim'.
  - destruct Hloop as [Hrun|]; [|left; by eapply runs_unique|by right].
    left. unfold sqlite_fuel. rewrite (columns_length l g pairs groups Hg). cbn [initial pending start_run events length]. fold l. lia.
Qed.
End Refinement.
