(* ===== verification/SqliteArtifacts.v ===== *)
(** * Artifacts of the database scheduler

    The property theorems: the artifact is the schedule of the in-memory
    scheduler, it passes its own verification, a verified artifact has the rows
    of the schedule, and its nodes are read back. *)
From S2P Require Import Prelude Records Profiles Domains Rational ExecutionIR Services Sequence Admission Provider.
From S2P Require Import Scheduler SchedulerTheorems SqliteGraph SqliteScheduler SqliteLinkTheorems SqliteGraphTheorems.
From S2P Require Import SqliteStepTheorems SqliteTheorems.
Set Default Goal Selector "!".
Open Scope Z_scope.

Section Observation.
Context `{Host} `{PlainProvider} `{SequenceProvider}.
Context (db : Database) (g : Graph) (sc : Scenario) (c : Qc) (stateful : bool).

(** The stored rows agree with a row of the run. *)
Definition observes (rows : list (string * nat * json)) (row : Row) : Prop :=
  ∃ i k body, List.find (fun r => Nat.eqb r.1.2 row.1.2) rows = Some (i, k, JObj body) ∧ i = row.1.1 ∧ same_record body row.2 = true.

Definition observed_by (observed : option (list (string * nat * json))) (row : Row) : Prop :=
  match observed with Some rows => observes rows row | None => True end.

Lemma check_observed_Ok observed k n r u :
  check_observed observed k n r = Ok u ↔ observed_by observed (ExecutionIR.identity n, k, r).
Proof.
  unfold check_observed, observed_by, observes. destruct observed as [rows|]; [|by destruct u]. cbn [fst snd].
  rewrite require_m_Ok. destruct (List.find _ rows) as [[[i k'] body]|]; [|naive_solver].
  rewrite and_then_Ok_true. split.
  - intros [[= E%String.eqb_eq] (actual & ->%object_value_Ok & [= Hs])%bind_Ok]. by exists i, k', actual.
  - intros (i' & k2 & actual & [= -> -> ->] & -> & Hs). rewrite String.eqb_refl. split; [done|]. cbn. by rewrite Hs.
Qed.

Definition rows_of (st : Run) : list Row := results st ++ buffer st.

Lemma store_rows_Ok stored rows k : store_rows stored rows = Ok k → k = stored ++ rows ∧ NoDup k.*1.*2.
Proof.
  unfold store_rows. destruct (_ && _) eqn:E; [|done]. intros <-%Ok_eq. apply andb_prop in E as [_ E]. split; [done|].
  by apply (distinct_NoDup _ _ Nat.eqb_eq).
Qed.

(** What starting a node adds. *)
Record adds (st : Run) (x : Entry) (row : Row) (st' : Run) : Prop := {
  ad_rows : rows_of st' = rows_of st ++ [row];
  ad_finished : finished st' = S (finished st);
  ad_row : row.1 = (ExecutionIR.identity (entry_node x), finished st);
  ad_name : pget row.2 "node_id" = JStr row.1.1;
  ad_kind : is_stateful (exec_provider (engine st')) = is_stateful (exec_provider (engine st));
}.

Lemma scheduled_name s : pget (scheduled_record s) "node_id" = JStr (scheduled_identity s).
Proof. unfold scheduled_record. by destruct (request_available_ns s). Qed.

Lemma execute_identity n s t av e e' sn : execute_node sc c n s t av e = (e', Ok sn) → scheduled_identity sn = ExecutionIR.identity n.
Proof.
  unfold execute_node. intros [_ Hx]%mcheck_bind. destruct (is_cpu (kind n)).
  { unfold execute_cpu in Hx. apply mbind_Ok in Hx as (e1 & svc & _ & Hx). apply mbind_Ok in Hx as (e2 & [] & _ & Hx).
    apply mbind_Ok in Hx as (e3 & [] & _ & Hx). apply mbind_Ok in Hx as (e4 & rel & _ & Hx).
    destruct rel; [done|]. by apply pair_eq in Hx as [_ <-%Ok_eq]. }
  destruct (is_npu (kind n)).
  { unfold execute_npu in Hx. apply mbind_Ok in Hx as (e1 & work & _ & Hx). apply mcheck_bind in Hx as [_ Hx].
    apply mbind_Ok in Hx as (e2 & p & _ & Hx). destruct p as [q|q|q].
    all: apply mbind_Ok in Hx as (e3 & w & _ & Hx); apply mbind_Ok in Hx as (e4 & [] & _ & Hx);
      by apply pair_eq in Hx as [_ <-%Ok_eq]. }
  apply mcheck_bind in Hx as [_ Hx]. by apply pair_eq in Hx as [_ <-%Ok_eq].
Qed.

(** Starting a node against stored rows is starting it and finding its row. *)
Lemma start_observed observed st code x st' :
  start db g sc c stateful observed st code x = Ok st' ↔
  start db g sc c stateful None st code x = Ok st' ∧ ∃ row, adds st x row st' ∧ observed_by observed row.
Proof.
  unfold start. destruct (node_services db (entry_node x)) as [sv|]; cbn [mbind res_bind]; [|naive_solver].
  destruct (if stateful then store_rows (results st) (buffer st) else Ok (results st)) as [stored|] eqn:Est; cbn [mbind res_bind]; [|naive_solver].
  destruct (if stateful then Some <$> _request_available (db_edges db) stored (entry_node x) else Ok None) as [av|]; cbn [mbind res_bind]; [|naive_solver].
  destruct (execute_node sc c (entry_node x) sv (now st) av (engine st)) as [e' [completed|]] eqn:Ex; cbn [mbind res_bind]; [|naive_solver].
  destruct (pop_queue code (readiness st)) as [r|]; cbn [mbind res_bind]; [|naive_solver].
  set (body := scheduled_record completed). set (rows := (if stateful then [] else buffer st)).
  set (row := (ExecutionIR.identity (entry_node x), finished st, body)).
  pose proof (check_observed_Ok observed (finished st) (entry_node x) body tt) as Hchk. fold row in Hchk.
  assert (Hrows : stored ++ rows = rows_of st).
  { unfold rows, rows_of. destruct stateful; [|by injection Est as <-]. apply store_rows_Ok in Est as [-> _]. by rewrite app_nil_r. }
  set (tail := fun _ : unit => _). change (mbind tail (check_observed None (finished st) (entry_node x) body)) with (tail tt).
  assert (Hadds : tail tt = Ok st' → adds st x row st').
  { unfold tail. intros Hrun. apply bind_Ok in Hrun as (stored' & Hst & Hrun). apply bind_Ok in Hrun as (fired & _ & Hrun).
    unfold ensure in Hrun. rewrite check_bind in Hrun. destruct Hrun as [_ <-%Ok_eq]. constructor; cbn [rows_of results buffer finished engine].
    - unfold rows_of. cbn [results buffer]. destruct (Nat.eqb _ RESULT_BATCH).
      + apply store_rows_Ok in Hst as [-> _]. by rewrite app_nil_r, (assoc_L (++)), Hrows.
      + apply Ok_eq in Hst as <-. by rewrite (assoc_L (++)), Hrows.
    - done.
    - done.
    - cbn [row fst snd]. unfold body. rewrite scheduled_name. f_equal. by eapply execute_identity.
    - by eapply execute_kind. }
  split.
  - intros ([] & Hobs%Hchk & Hrun)%bind_Ok. split; [done|]. exists row. by split; [apply Hadds|].
  - intros (Hrun & row' & [Hrow _ _ _ _] & Hobs). apply Hadds in Hrun as Had.
    rewrite (ad_rows _ _ _ _ Had) in Hrow. apply app_inj_2 in Hrow as [_ [= E]]; [|done]. fold row in E. subst row'.
    apply bind_Ok. exists tt. split; [by apply Hchk|done].
Qed.

(** ** Passes and the loop *)

(** The rows that are added between two states. *)
Record extends (st : Run) (new : list Row) (st' : Run) : Prop := {
  ex_rows : rows_of st' = rows_of st ++ new;
  ex_finished : finished st' = (finished st + length new)%nat;
  ex_ordinals : new.*1.*2 = seq (finished st) (length new);
  ex_names : Forall (fun row : Row => pget row.2 "node_id" = JStr row.1.1) new;
  ex_kind : is_stateful (exec_provider (engine st')) = is_stateful (exec_provider (engine st));
}.

Lemma extends_nil st : extends st [] st.
Proof. constructor; cbn; [by rewrite app_nil_r|lia|done|done|done]. Qed.

Lemma extends_moved st evs r t : extends st [] (at_time st evs r t).
Proof. constructor; cbn; [by rewrite app_nil_r|lia|done|done|done]. Qed.

Lemma extends_adds st x row st' : adds st x row st' → extends st [row] st'.
Proof.
  intros [Hr Hf Hrow Hname Hk]. constructor; [done|rewrite Hf; cbn; lia|cbn; by rewrite Hrow|by constructor|done].
Qed.

Lemma extends_unique st k k' st' : extends st k st' → extends st k' st' → k = k'.
Proof. intros [E1 _ _ _ _] [E2 _ _ _ _]. rewrite E1 in E2. by apply app_inv_head in E2. Qed.

Lemma extends_app st1 k1 st2 k2 st3 : extends st1 k1 st2 → extends st2 k2 st3 → extends st1 (k1 ++ k2) st3.
Proof.
  intros [R1 F1 O1 N1 K1] [R2 F2 O2 N2 K2]. constructor.
  - by rewrite R2, R1, (assoc_L (++)).
  - rewrite length_app. lia.
  - by rewrite !fmap_app, O1, O2, F1, length_app, seq_app.
  - by apply Forall_app.
  - congruence.
Qed.

Lemma step_observed observed st st' :
  sqlite_step db g sc c stateful observed st = Ok st' ↔
  sqlite_step db g sc c stateful None st = Ok st' ∧
    ∃ new, extends st new st' ∧ (length new <= 1)%nat ∧ Forall (observed_by observed) new.
Proof.
  unfold sqlite_step. destruct (drain g (now st) (events st) (readiness st)) as [[evs r]|]; cbn [mbind res_bind fst snd]; [|naive_solver].
  set (st1 := at_time st evs r (now st)). destruct (pick _ _ _ _ _) as [[[code x]|] f].
  - assert (Hone : ∀ y row st2, adds st1 y row st2 → extends st [row] st2).
    { intros y row st2 Had. apply (extends_app st [] st1); [apply extends_moved|by eapply extends_adds]. }
    rewrite start_observed. split.
    + intros (Hs & row & Had & Hobs). split; [done|]. exists [row]. split_and!; [by eapply Hone|done|by constructor].
    + intros (Hs & new & Hex & _ & Hobs). split; [done|]. apply (start_observed None) in Hs as (_ & row & Had & _).
      exists row. split; [done|]. rewrite (extends_unique _ _ _ _ Hex (Hone _ _ _ Had)) in Hobs. by inversion_clear Hobs.
  - destruct (f ++ _) as [|t ts]; [naive_solver|]. split; [|tauto]. intros Hs. split; [done|]. exists [].
    apply Ok_eq in Hs as <-. split_and!; [apply (extends_moved st evs r (qmin_list t ts))|cbn; lia|done].
Qed.

Lemma loop_observed fuel : ∀ observed st st',
  sqlite_loop db g sc c stateful observed fuel st = Ok st' ↔
  sqlite_loop db g sc c stateful None fuel st = Ok st' ∧ ∃ new, extends st new st' ∧ Forall (observed_by observed) new.
Proof.
  induction fuel as [|fuel IH]; intros observed st st'; cbn [sqlite_loop]; destruct (Nat.leb _ _).
  1, 3: split; [|tauto]; intros E; split; [done|]; exists []; apply Ok_eq in E as <-;
    split; [apply extends_nil|done].
  - naive_solver.
  - rewrite !bind_Ok. split.
    + intros (st1 & (Hstep & k1 & Hx1 & _ & Ho1)%step_observed & (Hloop & k2 & Hx2 & Ho2)%IH).
      split; [by exists st1|]. exists (k1 ++ k2). split; [by eapply extends_app|by apply Forall_app].
    + intros ((st1 & Hstep & Hloop) & k & Hx & Ho).
      apply (step_observed None) in Hstep as (Hstep & k1 & Hx1 & Hl1 & _).
      apply (IH None st1 st') in Hloop as (Hloop & k2 & Hx2 & _).
      rewrite (extends_unique _ _ _ _ Hx (extends_app _ _ _ _ _ Hx1 Hx2)) in Ho. apply Forall_app in Ho as [Ho1 Ho2].
      exists st1. split; [|apply IH; split; [done|by exists k2]]. apply step_observed. split; [done|]. by exists k1.
Qed.

(** The loop ends with a row for each node. *)
Lemma loop_complete observed fuel : ∀ st st', (finished st <= length (columns g))%nat →
  sqlite_loop db g sc c stateful observed fuel st = Ok st' → finished st' = length (columns g).
Proof.
  induction fuel as [|fuel IH]; intros st st' Hle; cbn [sqlite_loop]; destruct (Nat.leb _ _) eqn:E.
  1, 3: intros <-%Ok_eq; apply Nat.leb_le in E; lia.
  - done.
  - intros (st1 & (_ & new & [_ Hf _ _ _] & Hlen & _)%step_observed & Hloop)%bind_Ok. apply Nat.leb_gt in E.
    apply (IH st1); [lia|done].
Qed.
End Observation.

Section Runs.
Context `{Host} `{PlainProvider} `{SequenceProvider}.
Context (load_selection : string → string → res Z).
Context (file_sha256 : string → string) (library_sha256 : plain_state → option string).

Record run_facts (inputs : SqliteScheduleInputs) (g : Graph) (st : Run) : Prop := {
  rf_count : length (results st) = length (columns g);
  rf_ordinals : (results st).*1.*2 = seq 0 (length (results st));
  rf_names : Forall (fun row : Row => pget row.2 "node_id" = JStr row.1.1) (results st);
  rf_kind : is_stateful (exec_provider (engine st)) = is_stateful (provider inputs);
}.

Lemma run_nodes_observed db inputs observed g st :
  run_nodes db inputs observed = Ok (g, st) ↔
  run_nodes db inputs None = Ok (g, st) ∧ Forall (observed_by observed) (results st).
Proof.
  unfold run_nodes. destruct (prepare db) as [[g' r]|]; cbn [mbind res_bind]; [|naive_solver].
  destruct (fraction _ _) as [c|]; cbn [mbind res_bind]; [|naive_solver].
  set (start := start_run r (provider inputs)). rewrite !bind_Ok. split.
  - intros (final & (Hloop & new & [Hrows _ _ _ _] & Hobs)%loop_observed & Hrun). split; [by exists final|].
    apply bind_Ok in Hrun as (stored & [-> _]%store_rows_Ok & [<- <-]%Ok_eq%pair_eq). cbn [results].
    fold (rows_of final). rewrite Hrows. done.
  - intros ((final & Hloop & Hrun) & Hobs). exists final. split; [|done]. apply loop_observed.
    apply (loop_observed _ _ _ _ _ _ None) in Hloop as (Hloop & new & Hx & _). split; [done|]. exists new. split; [done|].
    apply bind_Ok in Hrun as (stored & [-> _]%store_rows_Ok & [<- <-]%Ok_eq%pair_eq). cbn [results] in Hobs.
    fold (rows_of final) in Hobs. by rewrite (ex_rows _ _ _ Hx) in Hobs.
Qed.

Lemma run_nodes_facts db inputs observed g st : run_nodes db inputs observed = Ok (g, st) → run_facts inputs g st.
Proof.
  unfold run_nodes. destruct (prepare db) as [[g' r]|]; cbn [mbind res_bind]; [|done].
  destruct (fraction _ _) as [c|]; cbn [mbind res_bind]; [|done].
  intros (final & Hloop & Hrun)%bind_Ok.
  assert (Hcount : finished final = length (columns g')) by (eapply loop_complete; [|exact Hloop]; cbn; lia).
  apply loop_observed in Hloop as (_ & new & [Hrows Hf Ho Hn Hk] & _).
  apply bind_Ok in Hrun as (stored & [-> _]%store_rows_Ok & [<- <-]%Ok_eq%pair_eq).
  cbn [start_run finished rows_of results buffer app] in Hrows, Hf, Ho. unfold rows_of in Hrows. cbn in Hrows.
  constructor; cbn [results engine]; rewrite ?Hrows.
  - by rewrite <-Hcount, Hf.
  - done.
  - done.
  - done.
Qed.

Lemma run_observed sources sources' db inputs observed rows summary p :
  _run load_selection file_sha256 library_sha256 sources sources' db inputs observed = Ok (rows, summary, p) ↔
  _run load_selection file_sha256 library_sha256 sources sources' db inputs None = Ok (rows, summary, p) ∧
    Forall (observed_by observed) rows.
Proof.
  unfold _run. destruct (manifest_scope db) as [scope|]; cbn [mbind res_bind]; [|naive_solver].
  destruct (validate_environment _ _ _ _) as [[]|]; cbn [mbind res_bind]; [|naive_solver].
  set (tail := fun done : Graph * Run => _).
  assert (Hrows : ∀ g st, tail (g, st) = Ok (rows, summary, p) → rows = results st).
  { intros g st Ht. unfold tail in Ht. apply bind_Ok in Ht as ([] & _ & Ht). apply bind_Ok in Ht as (b & _ & Ht).
    destruct (is_stateful (provider inputs)); [apply bind_Ok in Ht as ([] & _ & Ht)|]; apply Ok_eq, pair_eq in Ht as [Ht _];
      by apply pair_eq in Ht as [<- _]. }
  rewrite !bind_Ok. split.
  - intros ([g st] & (Hrun & Hobs)%run_nodes_observed & Ht). split; [by exists (g, st)|]. by rewrite (Hrows g st Ht).
  - intros (([g st] & Hrun & Ht) & Hobs). exists (g, st). split; [|done]. apply run_nodes_observed. split; [done|].
    by rewrite <-(Hrows g st Ht).
Qed.

(** The summary of a run, with the digests of the sources when they count. *)
Definition bound_summary (stateful : bool) (sources summary : record) : record :=
  if stateful then merge_records summary sources else summary.

Lemma run_inv sources sources' db inputs observed rows summary p :
  _run load_selection file_sha256 library_sha256 sources sources' db inputs observed = Ok (rows, summary, p) →
  ∃ g st binding, run_nodes db inputs observed = Ok (g, st) ∧ rows = results st ∧ p = exec_provider (engine st) ∧
    complete_provider p (scenario inputs) = Ok tt ∧ service_binding p (scenario inputs) = Ok binding ∧
    summary = bound_summary (is_stateful (provider inputs)) sources
      (summary_record file_sha256 library_sha256 (scenario inputs) p binding (length (columns g)) (result_end st) (resource_end st)).
Proof.
  unfold _run. intros (scope & _ & Hrun)%bind_Ok. apply bind_Ok in Hrun as ([] & _ & Hrun).
  apply bind_Ok in Hrun as ([g st] & Hnodes & Hrun). apply bind_Ok in Hrun as ([] & Hc & Hrun).
  apply bind_Ok in Hrun as (b & Hb & Hrun). exists g, st, b. unfold bound_summary.
  destruct (is_stateful (provider inputs)); [apply bind_Ok in Hrun as ([] & _ & Hrun)|];
    apply Ok_eq, pair_eq in Hrun as [Hrun <-]; apply pair_eq in Hrun as [<- <-]; done.
Qed.

(** ** The properties *)

(** C2: The schedule computed from the tables of a database is the schedule
    of the in-memory scheduler.  For a database that holds a graph and its
    services, within the limits of the columns and once the inputs pass the
    gate, [_run] always comes to an end: with a row for every node of the
    schedule in its order, numbered from 0 and equal to its record, and with the
    summary of exactly that schedule; or with the exception of the in-memory
    scheduler; or at one of its own limits, too many events at a time or an
    epoch beyond 64 bits; or because its sources changed. *)
Theorem sqlite_schedule_refines db inputs sc source source' :
  stores db (nodes (ir inputs)) (services inputs) → wf_ir (nodes (ir inputs)) → valid_services (services inputs) →
  bounded (nodes (ir inputs)) → gate load_selection inputs sc = Ok tt → manifest_scope db = Ok (scope (ir inputs)) →
  match _run load_selection file_sha256 library_sha256 source source' db {| provider := npu_provider inputs; scenario := sc |} None with
  | Ok (rows, summary, p) => ∃ r, schedule load_selection source inputs sc = Ok r ∧ rows = table (result_nodes r) ∧
      summary = bound_summary (is_stateful (npu_provider inputs)) source
        (summary_record file_sha256 library_sha256 sc p (result_service_binding r) (length (result_nodes r))
          (latest result_ready_ns (result_nodes r)) (latest resource_ready_ns (result_nodes r)))
  | Err e => schedule load_selection source inputs sc = Err e ∨ limit e ∨
      e = ExecutionError "SQLite schedule source binding changed during scheduling"
  end.
Proof.
  intros Hstores Hwf Hvalid Hbound Hgate Hscope. unfold _run, schedule. rewrite Hscope, Hgate. cbn [mbind res_bind provider scenario].
  pose proof (gate_frequency _ _ _ _ Hgate) as Hfreq.
  assert (Henv : validate_environment load_selection (scope (ir inputs)) (npu_provider inputs) sc = Ok tt).
  { unfold gate in Hgate. by apply bind_Ok in Hgate as ([] & Hv & _). }
  rewrite Henv. cbn [mbind res_bind].
  destruct (fraction 1000000000 (npu_frequency_hz sc)) as [c|e] eqn:Hcyc.
  2:{ exfalso. by destruct (npu_frequency_hz sc). }
  pose proof (cycle_positive _ _ Hfreq Hcyc) as Hc.
  pose proof (run_nodes_refines db inputs sc c Hstores Hwf Hvalid Hbound Hcyc Hc) as Href. cbn [mbind res_bind].
  destruct (run_nodes db _ None) as [[g st]|e]; cbn [mbind res_bind].
  - destruct Href as (pr & -> & [Hrows Hcount Heng Hend1 Hend2]). cbn [mbind res_bind]. rewrite Heng.
    destruct (complete_provider (exec_provider (executor pr)) sc) as [[]|e]; cbn [mbind res_bind]; [|by left].
    destruct (service_binding (exec_provider (executor pr)) sc) as [b|e]; cbn [mbind res_bind]; [|by left].
    unfold bound_summary. destruct (is_stateful (npu_provider inputs)).
    + unfold ensure. destruct (jeq _ _); cbn [check mbind res_bind]; [|by right; right].
      eexists. split; [reflexivity|]. cbn [result_nodes result_service_binding]. by rewrite Hrows, Hcount, Hend1, Hend2.
    + eexists. split; [reflexivity|]. cbn [result_nodes result_service_binding]. by rewrite Hrows, Hcount, Hend1, Hend2.
  - destruct Href as [-> | Hl]; [by left|by right; left].
Qed.

Lemma pget_summary k stateful sources summary digest : k ∉ keys sources → String.eqb k "input_sqlite_sha256" = false →
  pget (sset "input_sqlite_sha256" (JStr digest) (bound_summary stateful sources summary)) k = pget summary k.
Proof.
  intros Hk Hne. rewrite pget_sset, Hne. unfold bound_summary. destruct stateful; [by apply pget_merge|done].
Qed.

Lemma same_record_refl r : same_record r r = true.
Proof. apply String.eqb_refl. Qed.

Lemma find_ordinal (rows : list Row) row : NoDup rows.*1.*2 → row ∈ rows →
  List.find (fun r => Nat.eqb r.1.2 row.1.2) (map stored_row rows) = Some (stored_row row).
Proof.
  induction rows as [|row' rows IH]; [by intros _ ?%elem_of_nil|]. cbn [fmap list_fmap map List.find].
  intros [Hn Hnd]%NoDup_cons Hin. cbn [stored_row fst].
  destruct (Nat.eqb_spec row'.1.2 row.1.2) as [E|E].
  - apply elem_of_cons in Hin as [->|Hin]; [done|]. exfalso. apply Hn. rewrite E.
    apply list_elem_of_fmap. exists row.1. split; [done|]. apply list_elem_of_fmap. by exists row.
  - apply elem_of_cons in Hin as [->|Hin]; [done|]. by apply IH.
Qed.

(** C24: What is published verifies.  An artifact of [schedule_sqlite] passes
    [verify_schedule_sqlite] on the same database, inputs and sources: the
    second run makes the same choices, finds each of its rows under its ordinal,
    and recomputes the manifest. *)
Theorem published_schedule_verifies sources sources' sources'' digest schedule_digest db inputs a :
  "node_count" ∉ keys sources →
  schedule_sqlite load_selection file_sha256 library_sha256 sources sources' sources'' digest db inputs = Ok a →
  verify_schedule_sqlite load_selection file_sha256 library_sha256 sources sources' digest schedule_digest db a inputs = Ok schedule_digest.
Proof.
  intros Hk Hrun. unfold schedule_sqlite in Hrun. apply bind_Ok in Hrun as ([[rows summary] p] & Hrun & Hpub).
  apply bind_Ok in Hpub as ([] & _ & Hpub). unfold ensure in Hpub. rewrite check_bind in Hpub. destruct Hpub as [_ <-%Ok_eq].
  pose proof Hrun as (g & st & b & Hnodes & Hrows & _ & _ & _ & Hsum)%run_inv.
  pose proof (run_nodes_facts _ _ _ _ _ Hnodes) as [Hcount Hord _ _]. rewrite <-Hrows in Hcount, Hord.
  assert (Hobs : Forall (observed_by (Some (map stored_row rows))) rows).
  { apply Forall_forall. intros row Hrow. exists row.1.1, row.1.2, row.2. split_and!; [|done|apply same_record_refl].
    rewrite find_ordinal; [by destruct row as [[? ?] ?]|rewrite Hord; apply NoDup_seq|done]. }
  unfold verify_schedule_sqlite. cbn [artifact_rows artifact_manifest].
  rewrite (proj2 (run_observed sources sources' db inputs (Some (map stored_row rows)) rows summary p) (conj Hrun Hobs)).
  cbn [mbind res_bind]. unfold ensure. rewrite same_record_refl. cbn [check mbind res_bind].
  rewrite Hsum, pget_summary by done. cbn [pget]. rewrite Hcount.
  assert (jeq (JInt (Z.of_nat (length (columns g)))) (pget (summary_record file_sha256 library_sha256 (scenario inputs) p b
    (length (columns g)) (result_end st) (resource_end st)) "node_count") = true) as ->; [apply Z.eqb_refl|done].
Qed.

(** Only the schedule verifies.  When [verify_schedule_sqlite] accepts an
    artifact, the database schedules without an error, the artifact has as many
    rows as the schedule, each row of the schedule is in it under the same
    identity and ordinal with the same JSON text, and the manifests are the
    same JSON text. *)
Theorem verified_schedule_rows sources sources' digest schedule_digest db inputs a d :
  "node_count" ∉ keys sources →
  verify_schedule_sqlite load_selection file_sha256 library_sha256 sources sources' digest schedule_digest db a inputs = Ok d →
  ∃ rows summary p, _run load_selection file_sha256 library_sha256 sources sources' db inputs None = Ok (rows, summary, p) ∧
    length (artifact_rows a) = length rows ∧
    (∀ row, row ∈ rows → ∃ row', row' ∈ artifact_rows a ∧ row'.1 = row.1 ∧ json_dumps (JObj row'.2) = json_dumps (JObj row.2)) ∧
    json_dumps (JObj (artifact_manifest a)) = json_dumps (JObj (sset "input_sqlite_sha256" (JStr digest) summary)).
Proof.
  intros Hk Hv. unfold verify_schedule_sqlite, ensure in Hv.
  apply bind_Ok in Hv as ([[rows summary] p] & [Hrun Hobs]%run_observed & Hv).
  rewrite !check_bind in Hv. destruct Hv as (Hman%String.eqb_eq & Hlen & _). exists rows, summary, p. split; [done|].
  pose proof Hrun as (g & st & b & Hnodes & Hrows & _ & _ & _ & Hsum)%run_inv.
  pose proof (run_nodes_facts _ _ _ _ _ Hnodes) as [Hcount _ _ _]. rewrite <-Hrows in Hcount. split_and!; [| |done].
  - rewrite Hsum, pget_summary in Hlen by done. apply Z.eqb_eq in Hlen. lia.
  - intros row Hrow. rewrite Forall_forall in Hobs. destruct (Hobs row Hrow) as (i & k & body & Hfind & -> & Hsame%String.eqb_eq).
    apply List.find_some in Hfind as [Hin E%Nat.eqb_eq]. apply in_map_iff in Hin as (row' & Estored & Hin).
    rewrite <-list_elem_of_In in Hin. exists row'. split; [done|]. unfold stored_row in Estored.
    apply pair_eq in Estored as [Ek [= Eb]]. cbn in E. rewrite Eb. split; [|done]. rewrite Ek, E. by destruct row as [[? ?] ?].
Qed.

(** Reading a node of a published artifact.  For a provider of isolated
    services it returns exactly the row stored for the identity, whose record
    names that node, and raises when there is none; for a stateful provider it
    raises whatever the identity, because it accepts version 1 manifests only
    and a stateful artifact has version 2. *)
Theorem read_schedule_node_spec sources sources' sources'' digest db inputs a identity :
  "schema" ∉ keys sources → "version" ∉ keys sources →
  schedule_sqlite load_selection file_sha256 library_sha256 sources sources' sources'' digest db inputs = Ok a →
  read_schedule_node a identity =
  if is_stateful (provider inputs) then Err (ExecutionError "not a current SQLite schedule artifact")
  else match List.find (fun row => String.eqb row.1.1 identity) (artifact_rows a) with
    | Some row => Ok row.2
    | None => Err (ExecutionError ("missing schedule node: " +:+ identity))
    end.
Proof.
  intros Hk1 Hk2 Hrun. unfold schedule_sqlite in Hrun. apply bind_Ok in Hrun as ([[rows summary] p] & Hrun & Hpub).
  apply bind_Ok in Hpub as ([] & _ & Hpub). unfold ensure in Hpub. rewrite check_bind in Hpub. destruct Hpub as [_ <-%Ok_eq].
  pose proof Hrun as (g & st & b & Hnodes & Hrows & Hp & _ & _ & Hsum)%run_inv.
  pose proof (run_nodes_facts _ _ _ _ _ Hnodes) as [_ _ Hnames Hkind]. rewrite <-Hrows in Hnames. rewrite <-Hp in Hkind.
  unfold read_schedule_node. cbn [artifact_manifest artifact_rows]. rewrite Hsum, !pget_summary by done.
  change (pget (summary_record _ _ _ p b _ _ _) "schema") with (JStr "im2p-execution-schedule-sqlite").
  change (pget (summary_record _ _ _ p b _ _ _) "version") with (JInt (if is_stateful p then 2 else 1)).
  rewrite Hkind. unfold ensure. destruct (is_stateful (provider inputs)); [done|]. cbn [eq_str eq_int jeq String.eqb andb check mbind res_bind].
  destruct (List.find _ rows) as [row|] eqn:Efind; [|done]. apply List.find_some in Efind as [Hin E%String.eqb_eq].
  rewrite <-list_elem_of_In in Hin. rewrite Forall_forall in Hnames. rewrite (Hnames row Hin), E.
  unfold eq_str. cbn [jeq]. by rewrite String.eqb_refl.
Qed.
End Runs.
