(* ===== verification/ExecutionStoreTheorems.v ===== *)
(** * The execution store accepts exactly the acyclic graphs

    The countdown of [validate] visits the nodes in a topological order; a
    store written from a graph holds that graph, in the sense of [stores]. *)
From S2P Require Import Prelude Records Rational ExecutionIR Services Scheduler SchedulerTheorems.
From S2P Require Import SqliteGraph SqliteLinkTheorems SqliteGraphTheorems ExecutionStore.
Set Default Goal Selector "!".
Open Scope nat_scope.

(** The store holds the nodes and edges of [l]. *)
Record holds (st : ExecutionStore) (l : list Node) : Prop := {
  ho_names : map row_identity (node_rows st) = map identity l;
  ho_edges : edge_rows st ≡ₚ edges_of l;
  ho_count : count st = Z.of_nat (length l);
}.

Section Countdown.
Context (rows : list Edge).

Definition parents (x : string) : list string := parents_of rows x.

Lemma elem_of_parents p x : p ∈ parents x ↔ ∃ e, e ∈ rows ∧ edge_parent e = p ∧ edge_node e = x.
Proof.
  unfold parents, parents_of. rewrite elem_of_remove_dups, list_elem_of_In, in_map_iff. split.
  - intros (e & <- & [He E%String.eqb_eq]%filter_In). exists e. by rewrite list_elem_of_In.
  - intros (e & He & <- & <-). exists e. split; [done|]. apply filter_In. split; [by apply list_elem_of_In|apply String.eqb_refl].
Qed.

Lemma is_child_parents p x : is_child rows p x = true ↔ p ∈ parents x.
Proof.
  unfold is_child. rewrite existsb_exists, elem_of_parents. setoid_rewrite andb_true_iff. setoid_rewrite String.eqb_eq.
  by setoid_rewrite list_elem_of_In.
Qed.

(** The parents of a node that have not been visited. *)
Definition unvisited (V : list string) (x : string) : nat := length (filter (fun p => p ∉ V) (parents x)).

Lemma unvisited_zero V x : unvisited V x = 0 ↔ ∀ p, p ∈ parents x → p ∈ V.
Proof.
  unfold unvisited. rewrite length_zero_iff_nil. split.
  - intros E p Hp. destruct (decide (p ∈ V)) as [|Hn]; [done|]. exfalso. apply (not_elem_of_nil p). rewrite <-E.
    by apply list_elem_of_filter.
  - intros Hall. destruct (filter _ _) as [|p k] eqn:E; [done|]. exfalso.
    assert (Hin : p ∈ filter (fun p => p ∉ V) (parents x)) by (rewrite E; constructor).
    apply list_elem_of_filter in Hin as [Hn Hp]. by apply Hn, Hall.
Qed.

Lemma unvisited_snoc V v x : v ∉ V → unvisited V x = unvisited (V ++ [v]) x + (if decide (v ∈ parents x) then 1 else 0).
Proof.
  intros Hv. unfold unvisited. pose proof (NoDup_remove_dups (map edge_parent (List.filter (fun e => String.eqb (edge_node e) x) rows))) as Hnd.
  change (NoDup (parents x)) in Hnd. induction (parents x) as [|p k IH]; [done|]. apply NoDup_cons in Hnd as [Hp Hnd].
  specialize (IH Hnd). rewrite !filter_cons. destruct (decide (p = v)) as [->|Hne].
  - rewrite decide_True by done. rewrite decide_False by set_solver. rewrite (decide_True (P := v ∈ v :: k)) by constructor.
    rewrite decide_False in IH by done. cbn [length]. lia.
  - assert (Hiff : p ∉ V ↔ p ∉ V ++ [v]) by set_solver. rewrite (decide_ext (v ∈ p :: k) (v ∈ k)) by set_solver.
    destruct (decide (p ∉ V)) as [Hd|Hd].
    + rewrite decide_True by by apply Hiff. cbn [length]. lia.
    + rewrite decide_False by by rewrite <-Hiff. lia.
Qed.

(** The countdown after the nodes [V]. *)
Record counting (names V : list string) (l : list NodeRow) : Prop := {
  cn_names : map row_identity l = names;
  cn_pending : ∀ row, row ∈ l → row_pending row =
    (if decide (row_identity row ∈ V) then -1 else Z.of_nat (unvisited V (row_identity row)))%Z;
  cn_distinct : NoDup V;
  cn_known : V ⊆ names;
  cn_order : ∀ i x, V !! i = Some x → ∀ p, p ∈ parents x → p ∈ take i V;
}.

Lemma visit_step names V l x : counting names V l → x ∈ names → x ∉ V → (∀ p, p ∈ parents x → p ∈ V) →
  counting names (V ++ [x]) (visit rows l x).
Proof.
  intros [Hn Hp Hd Hk Ho] Hx Hnew Hpar. constructor.
  - unfold visit. rewrite !map_map, <-Hn. apply map_ext. intros row.
    destruct (String.eqb (row_identity row) x); destruct (is_child _ _ _); done.
  - intros row Hrow. unfold visit in Hrow. rewrite map_map in Hrow. apply list_elem_of_In, in_map_iff in Hrow as (row0 & <- & Hrow0).
    rewrite <-list_elem_of_In in Hrow0. specialize (Hp row0 Hrow0). set (y := row_identity row0) in *.
    assert (Hxx : is_child rows x x = false). { apply not_true_iff_false. rewrite is_child_parents. intros Hc. by apply Hnew, Hpar. }
    destruct (String.eqb_spec y x) as [E|E].
    + cbn [set_pending row_identity]. fold y. rewrite E, Hxx. cbn [row_pending set_pending row_identity]. fold y. rewrite E, decide_True; [done|set_solver].
    + pose proof (unvisited_snoc V x y Hnew) as Hu. fold y. destruct (is_child rows x y) eqn:Ec.
      * apply is_child_parents in Ec. rewrite decide_True in Hu by done.
        assert (Hy : y ∉ V). { intros [i Hi]%list_elem_of_lookup. pose proof (Ho i y Hi x Ec) as Hin. apply Hnew.
          eapply elem_of_take in Hin as (j & Hj & _). by eapply list_elem_of_lookup_2. }
        cbn [row_pending set_pending row_identity]. fold y. rewrite Hp, !decide_False by set_solver. lia.
      * fold y. rewrite Hp. rewrite (decide_False (P := x ∈ parents y)) in Hu by by rewrite <-is_child_parents, Ec.
        destruct (decide (y ∈ V)); [rewrite decide_True by set_solver; done|rewrite decide_False by set_solver; lia].
  - apply NoDup_app. split_and!; [done| |apply NoDup_singleton]. set_solver.
  - set_solver.
  - intros i y Hi p Hpy. apply lookup_app_Some in Hi as [Hi|[Hge Hi]].
    + rewrite take_app_le; [by eapply Ho|]. apply lookup_lt_Some in Hi. lia.
    + apply list_lookup_singleton_Some in Hi as [Hi <-]. rewrite take_app_ge by lia.
      apply elem_of_app. left. by apply Hpar.
Qed.

Lemma visit_batch names batch : ∀ V l, counting names V l → NoDup batch →
  Forall (fun x => x ∈ names ∧ x ∉ V ∧ ∀ p, p ∈ parents x → p ∈ V) batch →
  counting names (V ++ batch) (fold_left (visit rows) batch l).
Proof.
  induction batch as [|x batch IH]; intros V l Hc Hnd Hall; [by rewrite app_nil_r|].
  apply NoDup_cons in Hnd as [Hx Hnd]. inversion_clear Hall as [|? ? (Hn & Hv & Hp) Hall'].
  cbn [fold_left]. rewrite (assoc_L (++) V [x] batch : V ++ x :: batch = (V ++ [x]) ++ batch).
  apply IH; [by apply visit_step|done|]. rewrite Forall_forall in Hall' |- *. intros y Hy. destruct (Hall' y Hy) as (? & ? & Hq).
  split_and!; [done|set_solver|set_solver].
Qed.

Lemma ready_batch_spec names V l x : counting names V l → x ∈ ready_batch l →
  x ∈ names ∧ x ∉ V ∧ ∀ p, p ∈ parents x → p ∈ V.
Proof.
  intros [Hn Hp _ _ _] Hx. unfold ready_batch in Hx. apply elem_of_take in Hx as (i & Hi & _).
  apply list_elem_of_lookup_2, list_elem_of_In, in_map_iff in Hi as (row & <- & [Hrow E%Z.eqb_eq]%filter_In).
  rewrite <-list_elem_of_In in Hrow. rewrite (Hp row Hrow) in E. destruct (decide _) as [|Hv]; [done|]. split_and!; [|done|].
  - rewrite <-Hn. by apply list_elem_of_In, in_map, list_elem_of_In.
  - apply unvisited_zero. lia.
Qed.

Lemma ready_batch_NoDup l : NoDup (map row_identity l) → NoDup (ready_batch l).
Proof.
  intros Hnd. unfold ready_batch. eapply sublist_NoDup; [exact Hnd|]. etransitivity; [apply sublist_take|].
  clear Hnd. induction l as [|row l IH]; cbn; [done|]. destruct (row_pending row =? 0)%Z; [by constructor|by constructor].
Qed.

Lemma visit_loop_ok names fuel : ∀ V l visited, counting names V l → NoDup names → visited = Z.of_nat (length V) →
  length names <= length V + fuel →
  ∃ V' l', visit_loop fuel rows l visited = Ok (l', Z.of_nat (length V')) ∧ counting names V' l' ∧ ready_batch l' = [].
Proof.
  induction fuel as [|fuel IH]; intros V l visited Hc Hnd -> Hfuel; cbn [visit_loop]; destruct (ready_batch l) as [|x k] eqn:E.
  1, 3: by exists V, l.
  - exfalso. destruct (ready_batch_spec names V l x Hc) as (Hx & Hv & _); [rewrite E; constructor|].
    assert (Hle : length (V ++ [x]) <= length names).
    { apply submseteq_length, NoDup_submseteq.
      - apply NoDup_app. split_and!; [apply Hc|set_solver|apply NoDup_singleton].
      - pose proof (cn_known _ _ _ Hc). set_solver. }
    rewrite length_app in Hle. cbn in Hle. lia.
  - rewrite <-E. destruct (IH (V ++ ready_batch l) (fold_left (visit rows) (ready_batch l) l)
      (Z.of_nat (length V) + Z.of_nat (length (ready_batch l)))%Z) as (V' & l' & Hrun & Hc' & Hnil).
    + apply visit_batch; [done| |].
      * apply ready_batch_NoDup. by rewrite (cn_names _ _ _ Hc).
      * apply Forall_forall. intros y. by apply ready_batch_spec.
    + done.
    + rewrite length_app. lia.
    + rewrite length_app, E. cbn [length]. lia.
    + by exists V', l'.
Qed.
End Countdown.

(** ** The countdown finds the topological order *)

Section Order.
Context (l : list Node) (rows : list Edge).
Hypothesis rows_edges : rows ≡ₚ edges_of l.
Hypothesis distinct_names : NoDup (map identity l).

Lemma parents_dependencies n p : n ∈ l → p ∈ parents rows (identity n) ↔ ∃ d, d ∈ dependencies n ∧ node d = p.
Proof using rows_edges distinct_names.
  intros Hn. rewrite elem_of_parents. split.
  - intros (e & He & <- & Hid). rewrite rows_edges in He. apply elem_of_edges in He as (m & d & Hm & Hd & ->). cbn in *.
    assert (m = n) as -> by by eapply identity_inj. by exists d.
  - intros (d & Hd & <-). exists (edge_of n d). rewrite rows_edges. split; [|done]. apply elem_of_edges. by exists n, d.
Qed.

Lemma unblocked_parents V n : n ∈ l → unblocked V n = true ↔ ∀ p, p ∈ parents rows (identity n) → p ∈ V.
Proof using rows_edges distinct_names.
  intros Hn. rewrite unblocked_spec. setoid_rewrite (parents_dependencies n _ Hn). naive_solver.
Qed.

Lemma topological_of_order k : ∀ seen, k ⊆ l →
  (∀ i x, map identity k !! i = Some x → ∀ p, p ∈ parents rows x → p ∈ seen ++ take i (map identity k)) →
  topological seen k.
Proof using rows_edges distinct_names.
  induction k as [|n k IH]; intros seen Hsub Ho; [done|]. split.
  - apply unblocked_parents; [apply Hsub; constructor|]. intros p Hp. specialize (Ho 0 (identity n) eq_refl p Hp).
    by rewrite take_0, app_nil_r in Ho.
  - apply IH; [intros x Hx; apply Hsub; by constructor|]. intros i x Hi p Hp. specialize (Ho (S i) x Hi p Hp).
    cbn in Ho. by rewrite <-(assoc_L (++)).
Qed.

(** The nodes with the names [V], in that order. *)
Lemma nodes_of_names V : V ⊆ map identity l → ∃ k, map identity k = V ∧ k ⊆ l.
Proof.
  induction V as [|x V IH]; intros Hsub; [exists []; split; [done|set_solver]|]. destruct IH as (k & <- & Hk); [set_solver|].
  assert (Hx : x ∈ map identity l) by (apply Hsub; constructor).
  apply list_elem_of_In, in_map_iff in Hx as (n & <- & Hn). exists (n :: k). split; [done|].
  rewrite <-list_elem_of_In in Hn. set_solver.
Qed.

Lemma NoDup_nodes k : NoDup (map identity k) → NoDup k.
Proof. apply NoDup_fmap_1. Qed.

Lemma countdown_acyclic V nrows : counting rows (map identity l) V nrows → ready_batch nrows = [] →
  length V = length l ↔ acyclic l = true.
Proof using rows_edges distinct_names.
  intros [Hn Hp Hd Hk Ho] Hready. rewrite acyclic_topological. split.
  - intros Hlen. destruct (nodes_of_names V Hk) as (k & <- & Hsub). exists k. split.
    + apply submseteq_length_Permutation; [apply NoDup_submseteq; [by apply NoDup_nodes|done]|]. rewrite length_map in Hlen. lia.
    + by apply topological_of_order.
  - intros (l' & Hperm & Ht). destruct (decide (map identity l ⊆ V)) as [Hall|Hnot].
    + apply (anti_symm le).
      * rewrite <-(length_map identity l). by apply submseteq_length, NoDup_submseteq.
      * rewrite <-(length_map identity l). by apply submseteq_length, NoDup_submseteq.
    + exfalso. assert (Hfirst : ∃ n, n ∈ l ∧ identity n ∉ V ∧ unblocked V n = true).
      { assert (Hgen : ∀ k seen, topological seen k → (∀ x, x ∈ seen → x ∈ V) → k ⊆ l →
          (∃ n, n ∈ k ∧ identity n ∉ V) → ∃ n, n ∈ l ∧ identity n ∉ V ∧ unblocked V n = true).
        { induction k as [|n k IH]; intros seen Htop Hs Hsub (m & Hm & Hv); [by apply elem_of_nil in Hm|].
          destruct Htop as [Hu Htop]. destruct (decide (identity n ∈ V)) as [Hin|Hout].
          - apply elem_of_cons in Hm as [->|Hm]; [done|]. eapply (IH _ Htop); [set_solver|set_solver|by exists m].
          - exists n. split_and!; [apply Hsub; constructor|done|]. by eapply unblocked_grows. }
        eapply (Hgen l' []); [done|set_solver|intros x; by rewrite Hperm|].
        destruct (decide (Forall (fun x => x ∈ V) (map identity l))) as [Hf|Hf].
        - exfalso. apply Hnot. intros x Hx. rewrite Forall_forall in Hf. by apply Hf.
        - apply not_Forall_Exists in Hf; [|solve_decision]. apply Exists_exists in Hf as (x & Hx & Hv).
          apply list_elem_of_In, in_map_iff in Hx as (n & <- & Hin). exists n. rewrite Hperm. by rewrite list_elem_of_In. }
      destruct Hfirst as (n & Hin & Hv & Hu).
      assert (Hname : identity n ∈ map row_identity nrows).
      { rewrite Hn. by apply list_elem_of_In, in_map, list_elem_of_In. }
      apply list_elem_of_In, in_map_iff in Hname as (row & Hid & Hrow). rewrite <-list_elem_of_In in Hrow.
      assert (Hpend : row_pending row = 0%Z).
      { rewrite (Hp row Hrow), Hid, decide_False by done. rewrite (proj2 (unvisited_zero rows V (identity n))); [done|].
        by apply unblocked_parents. }
      assert (Hfil : row ∈ List.filter (fun row => row_pending row =? 0)%Z nrows).
      { apply list_elem_of_In, filter_In. rewrite <-list_elem_of_In. by rewrite Hpend. }
      unfold ready_batch in Hready. destruct (List.filter _ nrows); [by apply elem_of_nil in Hfil|]. discriminate Hready.
Qed.
End Order.

Lemma elem_of_names l x : x ∈ map identity l ↔ ∃ n, n ∈ l ∧ identity n = x.
Proof. rewrite list_elem_of_In, in_map_iff. setoid_rewrite list_elem_of_In. naive_solver. Qed.

(** [validate] on the rows of a graph. *)
Lemma validate_accepts st l : holds st l → NoDup (map identity l) →
  (∃ st', validate st = Ok st') ↔
  (∀ n d, n ∈ l → d ∈ dependencies n → node d ∈ map identity l) ∧ acyclic l = true.
Proof.
  intros [Hn He Hc] Hnd. unfold validate, ensure. rewrite Hn.
  assert (Hres : forallb (fun e => str_in (edge_parent e) (map identity l) && str_in (edge_node e) (map identity l)) (edge_rows st) = true ↔
    ∀ n d, n ∈ l → d ∈ dependencies n → node d ∈ map identity l).
  { rewrite forallb_forall. setoid_rewrite andb_true_iff. setoid_rewrite str_in_spec. setoid_rewrite <-list_elem_of_In.
    setoid_rewrite He. setoid_rewrite elem_of_edges. split.
    - intros Hall n d Hin Hd. apply (Hall (edge_of n d)). by exists n, d.
    - intros Hall e (n & d & Hin & Hd & ->). cbn. split; [by eapply Hall|]. apply elem_of_names. by exists n. }
  rewrite <-Hres. destruct (forallb _ _); cbn [check mbind res_bind]; [|naive_solver].
  set (counted := map _ (node_rows st)).
  assert (Hstart : counting (edge_rows st) (map identity l) [] counted).
  { constructor.
    - unfold counted. rewrite map_map. by rewrite <-Hn.
    - intros row Hrow. apply list_elem_of_In, in_map_iff in Hrow as (row0 & <- & _). cbn [row_pending set_pending row_identity].
      rewrite decide_False by set_solver. do 2 f_equal. unfold unvisited, parents. generalize (parents_of (edge_rows st) (row_identity row0)).
      intros k. induction k as [|p k IH]; [done|]. rewrite filter_cons_True by set_solver. cbn. by f_equal.
    - constructor.
    - set_solver.
    - intros i x Hi. by rewrite lookup_nil in Hi. }
  assert (Hlen : length (node_rows st) = length l) by (rewrite <-(length_map row_identity), Hn; apply length_map).
  destruct (visit_loop_ok (edge_rows st) (map identity l) (length (node_rows st)) [] counted 0 Hstart Hnd) as (V & l' & -> & Hc' & Hnil);
    [done|rewrite Hlen, length_map; cbn; lia|].
  cbn [mbind res_bind snd fst]. rewrite Hc, <-(countdown_acyclic l (edge_rows st) He Hnd V l' Hc' Hnil).
  destruct (Z.eqb_spec (Z.of_nat (length V)) (Z.of_nat (length l))) as [E|E]; cbn [check mbind res_bind].
  - split; [|by eexists]. intros _. split; [done|lia].
  - split; [by intros (? & ?)|]. intros [_ ?]. lia.
Qed.

(** C27: The store accepts exactly the graphs that the constructor of the
    in-memory graph accepts: for a store that holds the nodes and edges of a
    graph with distinct identities, [validate] succeeds when every dependency
    names a node of the graph and the graph is acyclic, and raises otherwise;
    the batched countdown always comes to an end. *)
Theorem store_validates st l : holds st l → NoDup (map identity l) →
  (∃ st', validate st = Ok st') ↔
  (∀ n d, n ∈ l → d ∈ dependencies n → node d ∈ map identity l) ∧ acyclic l = true.
Proof. apply validate_accepts. Qed.

(** ** A written store *)

(** The texts of a node are not empty, and its order fits. *)
Record named (n : Node) : Prop := {
  nm_identity : identity n ≠ "";
  nm_operation : operation n ≠ "";
  nm_phase : phase n ≠ "";
  nm_order : (0 <= order n < uint64_limit)%Z;
  nm_service : service n ≠ Some "";
  nm_resources : "" ∉ resources n;
}.

Lemma parse_node_record n : named n → parse_node (JObj (node_record (bare n))) = Ok (bare n).
Proof.
  intros [Hid Hop Hph Ho Hs Hr]. unfold parse_node, node_record, bare.
  cbn [identity kind operation phase order dependencies service resources object_value mbind res_bind map].
  rewrite (proj2 (fields_Ok _ _ tt)) by done. cbn [mbind res_bind item sget aget String.eqb Ascii.eqb Bool.eqb array map_res].
  assert (Hres : map_res resource_value (map JStr (resources n)) = Ok (resources n)).
  { induction (resources n) as [|x k IH]; [done|]. cbn [map map_res].
    assert (resource_value (JStr x) = Ok x) as -> by (apply text_value; [done|set_solver]).
    cbn [mbind res_bind]. by rewrite IH by set_solver. }
  rewrite Hres. cbn [mbind res_bind]. revert Hs.
  destruct (service n) as [t|]; intros Hs; cbn [is_null mbind res_bind].
  all: repeat (erewrite text_value; [|reflexivity|first [done|congruence|apply kind_value_nonempty]]; cbn [mbind res_bind]);
    rewrite parse_kind_value; cbn [mbind res_bind];
    repeat (erewrite text_value; [|reflexivity|done]; cbn [mbind res_bind]);
    by rewrite (proj2 (integer_Ok _ _ (order n))).
Qed.

Lemma bare_wf ids n : wf_node ids n → wf_ir [bare n].
Proof.
  intros [Ho Hr _ _ Hs Hown Hnpu]. constructor; [done|apply NoDup_singleton| |].
  - constructor; [|done]. constructor; try done; [constructor|by intros d ?%elem_of_nil].
  - exists [bare n]. by split.
Qed.

(** The body that [add] writes is read back as the node without its edges. *)
Lemma stored_body ids n : wf_node ids n → named n →
  stored_node (JObj (sset "dependencies" (JArr []) (node_record n))) = Ok (bare n).
Proof.
  intros Hwf Hn. change (sset "dependencies" (JArr []) (node_record n)) with (node_record (bare n)).
  unfold stored_node, parse_ir. cbn [object_value mbind res_bind]. change (pget (node_record (bare n)) "dependencies") with (JArr []).
  cbn [ensure check mbind res_bind]. rewrite (proj2 (fields_Ok _ _ tt)) by done.
  cbn [mbind res_bind item sget aget String.eqb Ascii.eqb Bool.eqb array].
  rewrite (proj2 (require_m_Ok _ _ tt)) by done. cbn [mbind res_bind map_res].
  rewrite (parse_node_record n Hn). cbn [mbind res_bind].
  repeat (erewrite text_value; [|reflexivity|done]; cbn [mbind res_bind]).
  rewrite (proj2 (execution_ir_Ok _ _ _ _)) by (split_and!; [by left|by eapply bare_wf|reflexivity]). done.
Qed.

Definition write (l : list (Node * option record)) : res ExecutionStore :=
  fold_res (fun st e => add st e.1 e.2) new_store l.

(** What a store written from a list of nodes with their services contains. *)
Record written (l : list (Node * option record)) (st : ExecutionStore) : Prop := {
  wr_nodes : map (fun row => (row_identity row, row_body row)) (node_rows st) =
    map (fun e => (identity e.1, JObj (sset "dependencies" (JArr []) (node_record e.1)))) l;
  wr_edges : edge_rows st ≡ₚ edges_of l.*1;
  wr_services : service_rows st = omap (fun e => (fun document => (identity e.1, JObj document)) <$> e.2) l;
  wr_count : count st = Z.of_nat (length l);
}.

Lemma insert_edges rows n k : ∀ rows', fold_res (fun rows d => insert_edge rows (edge_of n d)) rows k = Ok rows' →
  rows' = rows ++ map (edge_of n) k.
Proof.
  revert rows. induction k as [|d k IH]; intros rows rows'; cbn [fold_res map]; [intros [= <-]; by rewrite app_nil_r|].
  intros (rows1 & Hins & ->%IH)%bind_Ok. unfold insert_edge in Hins. destruct (existsb _ rows); [done|].
  apply Ok_eq in Hins as <-. by rewrite <-(assoc_L (++)).
Qed.

Lemma add_written l st n document st' : written l st → add st n document = Ok st' → written (l ++ [(n, document)]) st'.
Proof.
  intros [Hn He Hs Hc]. unfold add, edges. rewrite check_bind. cbn [node_rows edge_rows service_rows count service_count].
  intros [_ Hrun]. apply bind_Ok in Hrun as (st1 & (rows & Hrows & <-%Ok_eq)%bind_Ok & Hrun).
  cbn [node_rows edge_rows service_rows count service_count] in *. apply (insert_edges _ n) in Hrows as ->.
  assert (Hedges : edge_rows st ++ map (edge_of n) (dependencies n) ≡ₚ edges_of (l ++ [(n, document)]).*1).
  { unfold edges_of. rewrite fmap_app, He. unfold edges_of. rewrite flat_map_app. cbn. by rewrite app_nil_r. }
  destruct document as [document|].
  - rewrite check_bind in Hrun. destruct Hrun as [_ <-%Ok_eq].
    constructor; cbn [node_rows edge_rows service_rows count].
    + by rewrite !map_app, Hn.
    + done.
    + by rewrite omap_app, Hs.
    + rewrite length_app. cbn. lia.
  - apply Ok_eq in Hrun as <-. constructor; cbn [node_rows edge_rows service_rows count].
    + by rewrite !map_app, Hn.
    + done.
    + by rewrite omap_app, Hs, app_nil_r.
    + rewrite length_app. cbn. lia.
Qed.

Lemma write_written l st : write l = Ok st → written l st.
Proof.
  unfold write. intros Hw. eapply (fold_res_hist written); [| |exact Hw].
  { by constructor. }
  intros pre [n document] post s1 s2 _ Hs1 Hadd. by eapply add_written.
Qed.

Lemma written_holds l st : written l st → holds st l.*1.
Proof.
  intros [Hn He _ Hc]. constructor.
  - assert (E : map fst (map (fun row => (row_identity row, row_body row)) (node_rows st)) =
      map fst (map (fun e => (identity e.1, JObj (sset "dependencies" (JArr []) (node_record e.1)))) l)) by by rewrite Hn.
    rewrite !map_map in E. etransitivity; [exact E|]. clear. induction l as [|e l IH]; [done|]. cbn. by f_equal.
  - by rewrite He.
  - rewrite Hc. by rewrite length_fmap.
Qed.

(** A written store holds the graph and its services for the scheduler. *)
Lemma written_stores `{Host} l st s manifest : written l st → wf_ir l.*1 → Forall named l.*1 →
  (∀ n document, (n, document) ∈ l → if has_service n
     then ∃ r sv, document = Some r ∧ parse_services r = Ok sv ∧ own_services s sv n else document = None) →
  stores (database st manifest) l.*1 s.
Proof.
  intros Hw Hwf Hnamed Hsv. pose proof Hw as [Hn He Hs _]. pose proof (wi_identities _ Hwf) as Hnd.
  constructor; cbn [database db_nodes db_edges db_services].
  - rewrite Hn. destruct Hwf as [_ _ Hwfn _]. assert (Hall : ∀ e, e ∈ l → e.1 ∈ l.*1) by (intros e; apply list_elem_of_fmap_2).
    rewrite Forall_forall in Hwfn, Hnamed. clear -Hall Hwfn Hnamed.
    assert (Hgen : ∀ k : list (Node * option record), (∀ e, e ∈ k → e.1 ∈ l.*1) →
      Forall2 (fun row n => row.1 = identity n ∧ stored_node row.2 = Ok (bare n))
        (map (fun e => (identity e.1, JObj (sset "dependencies" (JArr []) (node_record e.1)))) k) k.*1).
    { induction k as [|e k IH]; intros Hk; constructor.
      - split; [done|]. eapply stored_body; [apply Hwfn|apply Hnamed]; apply Hk; constructor.
      - apply IH. intros x Hx. apply Hk. by constructor. }
    by apply Hgen.
  - by rewrite He.
  - intros row Hrow. rewrite Hs in Hrow. apply list_elem_of_omap in Hrow as ([n document] & Hin & E). cbn in E.
    destruct document; [|done]. injection E as <-. cbn. apply elem_of_names. exists n. split; [|done].
    by apply (list_elem_of_fmap_2 fst) in Hin.
  - intros n Hin. rewrite Hs. apply list_elem_of_fmap in Hin as ([n' document] & -> & Hin). cbn [fst].
    specialize (Hsv n' document Hin).
    assert (Hget : ∀ k, NoDup (map identity k.*1) → (n', document) ∈ k →
      sget (identity n') (omap (fun e => (fun document => (identity e.1, JObj document)) <$> e.2) k) = JObj <$> document).
    { clear. induction k as [|[m d] k IH]; [by intros _ ?%elem_of_nil|]. intros [Hm Hnd]%NoDup_cons Hin. cbn [omap list_omap].
      assert (Hout : ∀ x, x ∉ map identity k.*1 → sget x (omap (fun e => (fun document => (identity e.1, JObj document)) <$> e.2) k) = None).
      { clear. intros x Hx. apply (aget_None _ String.eqb_eq). intros Hin. apply Hx. apply list_elem_of_fmap in Hin as ([y j] & -> & Hin).
        apply list_elem_of_omap in Hin as ([m d] & Hin & E). destruct d; [|done]. injection E as <- _. cbn.
        apply elem_of_names. exists m. split; [|done]. by apply (list_elem_of_fmap_2 fst) in Hin. }
      apply elem_of_cons in Hin as [[= -> ->]|Hin].
      - destruct d; cbn; [by rewrite String.eqb_refl|by apply Hout].
      - assert (Hne : String.eqb (identity n') (identity m) = false).
        { apply String.eqb_neq. intros E. apply Hm. cbn. rewrite <-E. apply elem_of_names. exists n'. split; [|done].
          by apply (list_elem_of_fmap_2 fst) in Hin. }
        destruct d; cbn; [rewrite Hne|]; by apply IH. }
    rewrite (Hget l Hnd Hin). destruct (has_service n').
    + destruct Hsv as (r & sv & -> & ? & ?). by exists r, sv.
    + by rewrite Hsv.
Qed.
