(* ===== verification/SqliteSample.v ===== *)
(** * A sample database

    The sample graph of [ScheduleSample.v] written to an execution store and
    scheduled from its tables; the witnesses of the properties of the store and
    of the database scheduler. *)
From S2P Require Import Prelude Records Profiles Domains Rational ExecutionIR Services Sequence Admission Provider.
From S2P Require Import Scheduler SchedulerTheorems ScheduleSample SqliteGraph SqliteScheduler SqliteGraphTheorems.
From S2P Require Import SqliteStepTheorems SqliteTheorems SqliteArtifacts ExecutionStore ExecutionStoreTheorems.
Set Default Goal Selector "!".
Open Scope Z_scope.

(** ** The service documents *)

Definition worker_document (r : string) (worker ns : Z) : json :=
  JObj [("resource", JStr r); ("worker_id", JInt worker); ("host_elapsed_ns", JInt ns); ("host_elapsed_valid", JBool true)].
Definition cpu_document (name : string) (workers : list json) : record :=
  [("schema", JStr "im2p-execution-services"); ("version", JInt 1);
   ("cpu", JObj [(name, JObj [("source", JStr "FULL_CPU"); ("policy", JStr "HOST_ELAPSED_NS_GANG"); ("workers", JArr workers)])]);
   ("npu", JObj [])].
Definition npu_document : record :=
  [("schema", JStr "im2p-execution-services"); ("version", JInt 1); ("cpu", JObj []);
   ("npu", JObj [("npu:0", JObj [("request_sha256", JStr "r0"); ("profile", JStr "p")])])].

Definition sample_entries : list (Node * option record) :=
  zip sample_nodes [Some (cpu_document "a" [worker_document "cpu:0" 0 3; worker_document "cpu:1" 1 7]); Some npu_document;
    Some (cpu_document "b" [worker_document "cpu:0" 0 5]); None].

Definition parsed (document : option record) : Services :=
  match document with
  | Some r => match parse_services (H := text_host) r with Ok s => s | Err _ => {| cpu := []; npu := [] |} end
  | None => {| cpu := []; npu := [] |}
  end.
Definition stored_services : Services := {|
  cpu := List.flat_map (fun e => cpu (parsed e.2)) sample_entries; npu := List.flat_map (fun e => npu (parsed e.2)) sample_entries |}.

Definition stored_inputs : @ScheduleInputs sample_plain no_sequence := {|
  ir := {| nodes := sample_nodes; scope := "SYNTHETIC"; source_sha256 := "s" |}; services := stored_services;
  npu_provider := @Plain sample_plain no_sequence tt |}.

Definition sample_manifest : json :=
  JObj [("schema", JStr "im2p-execution-sqlite"); ("version", JInt 1); ("status", JStr "PASS"); ("scope", JStr "SYNTHETIC")].

Definition sample_store : res ExecutionStore := write sample_entries.

Lemma sample_named : Forall named sample_nodes.
Proof.
  repeat constructor; vm_compute; try discriminate; try (intros E; discriminate E);
    (intros Hin; repeat (apply elem_of_cons in Hin as [Hin|Hin]; [discriminate Hin|]); by apply elem_of_nil in Hin).
Qed.

Lemma sample_entries_own n document : (n, document) ∈ sample_entries →
  if has_service n
  then ∃ r sv, document = Some r ∧ parse_services (H := text_host) r = Ok sv ∧ own_services stored_services sv n
  else document = None.
Proof.
  intros Hin. unfold sample_entries in Hin. cbn [zip zip_with sample_nodes] in Hin. rewrite !elem_of_cons, elem_of_nil in Hin.
  assert (Hone : ∀ m r, (∃ sv, parse_services (H := text_host) r = Ok sv) → has_service m = true →
    set_eq String.eqb ((cpu (parsed (Some r))).*1 ++ (npu (parsed (Some r))).*1) (match service m with Some i => [i] | None => [] end) = true →
    (is_cpu (kind m) = true → cpu_lookup (parsed (Some r)) m = cpu_lookup stored_services m) →
    (is_npu (kind m) = true → npu_lookup (parsed (Some r)) m = npu_lookup stored_services m) →
    if has_service m then ∃ r' sv, Some r = Some r' ∧ parse_services (H := text_host) r' = Ok sv ∧ own_services stored_services sv m
    else Some r = None).
  { intros m r [sv Hsv] -> Hnames Hcpu Hnpu. exists r, sv. split_and!; [done..|]. unfold parsed in Hnames, Hcpu, Hnpu. rewrite Hsv in Hnames, Hcpu, Hnpu.
    by constructor. }
  destruct Hin as [[= -> ->]|[[= -> ->]|[[= -> ->]|[[= -> ->]|[]]]]].
  - apply Hone; [eexists; vm_compute; reflexivity|done|vm_compute; reflexivity|intros _; vm_compute; reflexivity|done].
  - apply Hone; [eexists; vm_compute; reflexivity|done|vm_compute; reflexivity|done|intros _; vm_compute; reflexivity].
  - apply Hone; [eexists; vm_compute; reflexivity|done|vm_compute; reflexivity|intros _; vm_compute; reflexivity|done].
  - done.
Qed.

Lemma sample_store_Ok : ∃ st, sample_store = Ok st.
Proof. destruct sample_store as [st|] eqn:E; [by exists st|vm_compute in E; discriminate E]. Qed.

Lemma sample_stores st : sample_store = Ok st → stores (H := text_host) (database st sample_manifest) sample_nodes stored_services.
Proof.
  intros Hst%write_written. change sample_nodes with sample_entries.*1.
  apply written_stores; [done|exact sample_wf|exact sample_named|exact sample_entries_own].
Qed.

Lemma stored_valid : valid_services stored_services.
Proof.
  intros i svc Hget. assert (Hnames : stored_services.(cpu).*1 = ["a"; "b"]) by (vm_compute; reflexivity).
  assert (Hall : Forall (fun e => cpu_service_of (cpu_source e.2) (policy e.2) (workers e.2) = Ok e.2) (cpu stored_services)).
  { repeat (constructor; [vm_compute; reflexivity|]). constructor. }
  apply (aget_In _ String.eqb_eq) in Hget. rewrite Forall_forall in Hall. exact (Hall _ Hget).
Qed.

Lemma sample_bounded : bounded sample_nodes.
Proof. constructor; [repeat (constructor; [vm_compute; reflexivity|]); constructor|vm_compute; repeat constructor]. Qed.

(** ** Witnesses *)

#[local] Existing Instance sample_plain.
#[local] Existing Instance no_sequence.

Definition sample_load (path profile : string) : res Z := Err (ClockError "none").
Definition sample_digest (path : string) : string := path.
Definition sample_library (p : plain_state) : option string := None.
Abbreviation sample_sqlite := {| provider := npu_provider stored_inputs; scenario := sample_scenario |}.

(** The store of the sample. *)
Definition store : ExecutionStore := match sample_store with Ok st => st | Err _ => new_store end.
Definition sample_database : Database := database store sample_manifest.

Lemma store_Ok : sample_store = Ok store.
Proof. unfold store. by destruct sample_store_Ok as [st ->]. Qed.

Lemma sample_gate : gate sample_load stored_inputs sample_scenario = Ok tt.
Proof. vm_compute. reflexivity. Qed.

Lemma sample_scope : manifest_scope sample_database = Ok "SYNTHETIC".
Proof. vm_compute. reflexivity. Qed.

Abbreviation run_sample :=
  (_run (H := text_host) sample_load sample_digest sample_library [] [] sample_database sample_sqlite None).

Definition rows_number (r : res (list Row * record * @TimingProvider sample_plain no_sequence)) : nat :=
  match r with Ok (rows, _, _) => length rows | Err _ => 0 end.

Lemma run_sample_rows : Nat.eqb (rows_number run_sample) 4 = true.
Proof. vm_compute. reflexivity. Qed.

Lemma store_validates_witness : ∃ st, validate store = Ok st ∧ count st = 4.
Proof.
  destruct (proj2 (store_validates store sample_nodes
    (written_holds sample_entries store (write_written sample_entries store store_Ok)) (wi_identities _ sample_wf))) as [st Hst].
  - split; [|vm_compute; reflexivity]. intros n d Hn. pose proof (wi_nodes _ sample_wf) as Hw.
    exact (fun Hd => wn_resolved _ _ (proj1 (Forall_forall _ _) Hw n Hn) d Hd).
  - exists st. split; [exact Hst|]. unfold validate in Hst. vm_compute in Hst. injection Hst as <-. reflexivity.
Defined.

Lemma sqlite_schedule_refines_witness :
  ∃ rows summary p r, run_sample = Ok (rows, summary, p) ∧
    schedule sample_load [] stored_inputs sample_scenario = Ok r ∧ rows = table (result_nodes r) ∧ length rows = 4%nat.
Proof.
  pose proof (sqlite_schedule_refines (H := text_host) sample_load sample_digest sample_library sample_database stored_inputs
    sample_scenario [] [] (sample_stores store store_Ok) sample_wf stored_valid sample_bounded sample_gate sample_scope) as Href.
  pose proof (proj1 (Nat.eqb_eq _ _) run_sample_rows) as Hlen. revert Href Hlen.
  destruct run_sample as [[[rows summary] p]|e]; [|discriminate]. intros (r & Hr & Hrows & _) Hlen.
  exists rows, summary, p, r. split; [reflexivity|]. split; [exact Hr|]. split; [exact Hrows|exact Hlen].
Defined.

Abbreviation sample_artifact :=
  (schedule_sqlite (H := text_host) sample_load sample_digest sample_library [] [] [] "d" sample_database sample_sqlite).

Definition artifact : Artifact :=
  match sample_artifact with Ok a => a | Err _ => {| artifact_rows := []; artifact_manifest := [] |} end.

Lemma artifact_Ok : sample_artifact = Ok artifact.
Proof.
  assert (E : is_ok sample_artifact = true) by (vm_compute; reflexivity).
  unfold artifact. revert E. by destruct sample_artifact.
Qed.

Lemma published_schedule_verifies_witness :
  verify_schedule_sqlite (H := text_host) sample_load sample_digest sample_library [] [] "d" "e" sample_database artifact sample_sqlite = Ok "e".
Proof.
  exact (published_schedule_verifies (H := text_host) sample_load sample_digest sample_library [] [] [] "d" "e" sample_database
    sample_sqlite artifact (not_elem_of_nil _) artifact_Ok).
Defined.

Lemma artifact_verifies :
  verify_schedule_sqlite (H := text_host) sample_load sample_digest sample_library [] [] "d" "e" sample_database artifact sample_sqlite = Ok "e".
Proof. vm_compute. reflexivity. Qed.

Lemma verified_schedule_rows_witness :
  ∃ rows summary p, run_sample = Ok (rows, summary, p) ∧ length (artifact_rows artifact) = length rows.
Proof.
  destruct (verified_schedule_rows (H := text_host) sample_load sample_digest sample_library [] [] "d" "e" sample_database
    sample_sqlite artifact "e" (not_elem_of_nil _) artifact_verifies) as (rows & summary & p & Hrun & Hlen & _).
  exists rows, summary, p. split; [exact Hrun|exact Hlen].
Defined.

Definition names_node (r : res record) (name : string) : bool :=
  match r with Ok r => eq_str (pget r "node_id") name | Err _ => false end.

Lemma read_schedule_node_spec_witness : names_node (read_schedule_node artifact "n") "n" = true.
Proof.
  rewrite (read_schedule_node_spec (H := text_host) sample_load sample_digest sample_library [] [] [] "d" sample_database
    sample_sqlite artifact "n" (not_elem_of_nil _) (not_elem_of_nil _) artifact_Ok).
  vm_compute. reflexivity.
Defined.
