(* ===== verification/PipelineContract.v ===== *)
(** * The declared stripe pipeline

    [sim/cycle/execution_pipeline_contract.py]: the parents, stripes and owner
    events that a lifecycle contract of version 2 declares, checked against the
    NPU results of the run.  A parent is one streamed matrix product, its
    stripes are the results that computed a range of its rows, and the owners
    are the events of the two slots a stripe goes through in the producer.

    A Python [dict] is its items in insertion order, a set the list of its
    elements.  [contract_*] lemmas say what an accepted contract guarantees. *)
From S2P Require Import Prelude Records ExecutionIR.
Set Default Goal Selector "!".

Definition PARENT_FIELDS : list string :=
  ["phase_id"; "operation_id"; "parent_id"; "required_work_ids"; "fence_call_id";
   "fence_required_work_ids"; "production_geometry_version"; "scope"; "activation_bits";
   "weight_bits"; "dim"; "parent_m"; "n"; "k"; "tile_i_count"; "tile_j_count";
   "tile_k_count"; "residual_bindings"].
Definition RESIDUAL_FIELDS : list string :=
  ["work_id"; "call_id"; "child_parent_id"; "dense_work_id"; "dense_parent_id";
   "stripe_id"; "row_begin"; "row_end"; "source_row_begin"; "source_row_count"].
Definition OWNER_FIELDS : list string :=
  ["producer_sequence"; "phase_id"; "operation_id"; "parent_id"; "work_id";
   "producer_run_id"; "stripe_id"; "workspace_slot"; "target_npu_slot";
   "row_begin"; "row_end"; "resource"; "transition"; "required_work_ids";
   "required_call_ids"; "observed_call_id"; "rmd_packet"; "direct_residual";
   "source_owner"; "source_location"].

(** An event is a resource with a transition. *)
Abbreviation Event := (string * string)%type.
Definition event_eq (a b : Event) : bool := String.eqb a.1 b.1 && String.eqb a.2 b.2.
Definition event_in (e : Event) (l : list Event) : bool := existsb (event_eq e) l.

Definition REQUIRED_EVENTS : list Event :=
  [("EXSIA_WORKSPACE", "ACQUIRE"); ("EXSIA_WORKSPACE", "RELEASE");
   ("ACTIVATION_ROWS", "COMMIT"); ("RESIDUAL_PAYLOAD", "SEAL");
   ("FRONTEND_OUTSTANDING", "ACQUIRE"); ("FRONTEND_OUTSTANDING", "RELEASE");
   ("FRONTEND_QUEUE", "ENQUEUE"); ("FRONTEND_QUEUE", "DEQUEUE");
   ("CPU_FUNCTIONAL_STREAM", "ACCEPTED"); ("CPU_FUNCTIONAL_STREAM", "COMPLETED")].
Definition OPTIONAL_EVENTS : list Event :=
  [("RESIDUAL_MERGE_CALL", "COMPLETE"); ("RESIDUAL_CALLBACK", "COMPLETE")].

(** The key of an owner in its stripe: the event and the merge call it saw. *)
Record OwnerKey := { key_resource : string; key_transition : string; key_call : option Z }.
#[export] Instance OwnerKey_eq_dec : EqDecision OwnerKey.
Proof. solve_decision. Defined.
Definition owner_key_eq (a b : OwnerKey) : bool := bool_decide (a = b).
Definition pair_eq_b (a b : Z * Z) : bool := (a.1 =? b.1) && (a.2 =? b.2).
Abbreviation Group := (list (OwnerKey * record)).

Record PipelineContract := {
  parents : list (Z * record);
  stripes : list (Z * list record);
  residual_works : list (Z * list (Z * list Z));
  owners : list (Z * Z * Group);
}.

Definition required_ids (row : record) (key : string) : res (list Z) :=
  let* raw := item row key in
  let* elements := array raw in
  let* values := map_res (integer_value "id") elements in
  ensure (distinct Z.eqb values) "duplicate pipeline required identity" ;;;
  Ok values.

(** [integer(record, key) <test>] as a condition that may raise. *)
Definition int_test (r : record) (key : string) (p : Z → bool) : res bool :=
  let* v := integer r key in Ok (p v).
(** [integer(a, key_a) == integer(b, key_b)]. *)
Definition int_same (a : record) (key_a : string) (b : record) (key_b : string) : res bool :=
  let* x := integer a key_a in let* y := integer b key_b in Ok (x =? y).
(** [a[key_a] == b[key_b]]. *)
Definition item_same (a : record) (key_a : string) (b : record) (key_b : string) : res bool :=
  let* x := item a key_a in let* y := item b key_b in Ok (jeq x y).
Definition ensure_res (condition : res bool) (detail : string) : res unit :=
  require_m condition (ExecutionError detail).

(** ** Parents *)

Definition parse_parent (known : list (Z * record)) (raw : json) : res (list (Z * record)) :=
  let* parent := object_value raw in
  fields parent PARENT_FIELDS ;;;
  let* identity := integer parent "parent_id" in
  ensure_res (Ok (negb (zmem identity known)) andM
              (let* scope := item parent "scope" in Ok (eq_str scope "STREAM")))
    "duplicate/unsupported pipeline parent" ;;;
  ensure_res (all_res (fun key => int_test parent key (fun v => 0 <? v))
                ["parent_m"; "n"; "k"; "dim"; "tile_i_count"; "tile_j_count"; "tile_k_count"])
    "invalid producer parent geometry" ;;;
  ensure_res (int_test parent "production_geometry_version" (fun v => v =? 1) andM
              int_test parent "activation_bits" (fun v => z_in v [4; 8]) andM
              item_same parent "activation_bits" parent "weight_bits")
    "unsupported producer parent geometry" ;;;
  let* works := required_ids parent "required_work_ids" in
  ensure (negb (Nat.eqb (length works) 0)) "pipeline parent has no selected work" ;;;
  let* _ := integer parent "phase_id" in
  let* _ := integer parent "operation_id" in
  let* _ := integer parent "fence_call_id" in
  Ok (zset identity parent known).

Definition parse_parents (contract : record) : res (list (Z * record)) :=
  let* raw := item contract "pipeline_parents" in
  let* rows := array raw in
  let* known := fold_res parse_parent [] rows in
  ensure (negb (Nat.eqb (length known) 0)) "missing pipeline parent declarations" ;;;
  Ok known.

(** ** Stripes *)

Definition STRIPE_SHARED : list string :=
  ["phase_id"; "operation_id"; "parent_m"; "n"; "k"; "dim"; "activation_bits"; "weight_bits";
   "production_geometry_version"; "tile_j_count"; "tile_k_count"].

Definition npu_id (work : Z) : string := "npu:" +:+ dec work.

(** [mapping[key].append(value)] of a [defaultdict(list)]. *)
Definition push {A} (key : Z) (value : A) (l : list (Z * list A)) : list (Z * list A) :=
  zset key (default [] (zget key l) ++ [value]) l.

Definition is_stripe (result : record) : bool := eq_str (pget result "scope") "stripe".

Definition collect_stripe (known : list (Z * record)) (found : list (Z * list record))
    (entry : string * record) : res (list (Z * list record)) :=
  let '(identity, result) := entry in
  if negb (is_stripe result) then Ok found else
  let* parent_id := integer result "parent_id" in
  match zget parent_id known with
  | None => Err (ExecutionError "stripe result lacks producer parent")
  | Some parent =>
      ensure_res
        ((let* work := integer result "work_id" in Ok (String.eqb identity (npu_id work))) andM
         all_res (fun key => let* v := item parent key in Ok (jeq (pget result key) v)) STRIPE_SHARED andM
         int_same result "m" result "row_count" andM
         int_test result "row_count" (fun v => 0 <? v) andM
         int_test result "tile_i_count" (fun v => 0 <? v))
        "stripe result/parent geometry mismatch" ;;;
      let* _ := integer result "call_id" in
      let* _ := integer result "stripe_id" in
      let* _ := integer result "row_begin" in
      ensure (in_ints (pget result "host_slot") [0; 1]) "invalid ExSIA workspace slot in result" ;;;
      Ok (push parent_id result found)
  end.

Definition collect_stripes (known : list (Z * record)) (results : list (string * record)) :
    res (list (Z * list record)) :=
  let* found := fold_res (collect_stripe known) [] results in
  ensure (set_eq Z.eqb found.*1 known.*1) "pipeline parent/result coverage mismatch" ;;;
  Ok found.

(** ** The works of one parent *)

(** [sorted(rows, key=lambda row: integer(row, 'stripe_id'))]: a stable sort
    on keys computed first. *)
Fixpoint insert_keyed {A} (e : Z * A) (l : list (Z * A)) : list (Z * A) :=
  match l with
  | [] => [e]
  | f :: l' => if e.1 <=? f.1 then e :: l else f :: insert_keyed e l'
  end.
Definition sort_by_stripe (rows : list record) : res (list record) :=
  let* keyed := map_res (fun row => let* k := integer row "stripe_id" in Ok (k, row)) rows in
  Ok (foldr insert_keyed [] keyed).*2.

(** The compact works bound to the stripes of a parent so far, by stripe. *)
Record Bound := { by_stripe : list (Z * list Z); bound : list Z }.

(** [results[name].get('operation_id') == parent['operation_id']], guarded by [name in results]. *)
Definition work_of_parent (results : list (string * record)) (parent : record) (work : Z) : res bool :=
  match sget (npu_id work) results with
  | None => Ok false
  | Some result => let* v := item parent "operation_id" in Ok (jeq (pget result "operation_id") v)
  end.

Definition bind_residual (results : list (string * record)) (parent_id : Z) (parent_works dense : list Z)
    (ordered : list record) (b : Bound) (raw : json) : res Bound :=
  let* binding := object_value raw in
  fields binding RESIDUAL_FIELDS ;;;
  let* work := integer binding "work_id" in
  let* dense_work := integer binding "dense_work_id" in
  let* stripe_id := integer binding "stripe_id" in
  let mismatch := ExecutionError "residual binding lacks exact dense stripe" in
  check (negb (z_in work (bound b)) && z_in work parent_works && negb (z_in work dense)) mismatch ;;;
  match ordered !! Z.to_nat stripe_id with
  | None => Err mismatch
  | Some stripe =>
      require_m
        (int_test stripe "work_id" (fun v => dense_work =? v) andM
         int_test binding "dense_parent_id" (fun v => v =? parent_id) andM
         (let* begin := integer binding "row_begin" in
          let* finish := integer binding "row_end" in
          let* row_begin := integer stripe "row_begin" in
          let* row_count := integer stripe "row_count" in
          Ok ((begin =? row_begin) && (finish =? row_begin + row_count)))) mismatch ;;;
      match sget (npu_id work) results with
      | None => Err (KeyError (npu_id work))
      | Some child =>
          ensure_res
            (Ok (eq_str (pget child "scope") "residual_compact") andM
             all_res (fun '(owner_key, result_key) => int_same binding owner_key child result_key)
               [("call_id", "call_id"); ("child_parent_id", "parent_id");
                ("source_row_begin", "source_row_begin"); ("source_row_count", "source_row_count")])
            "residual binding differs from selected child work" ;;;
          Ok {| by_stripe := push stripe_id work (by_stripe b); bound := bound b ++ [work] |}
      end
  end.

(** The rows of the stripes of a parent follow each other from row 0. *)
Definition check_rows (cursor : Z) (entry : nat * record) : res Z :=
  let '(index, result) := entry in
  let* begin := integer result "row_begin" in
  let* count := integer result "row_count" in
  ensure_res (int_test result "stripe_id" (fun v => v =? Z.of_nat index) andM Ok (begin =? cursor))
    "pipeline stripe gap, overlap, or duplicate" ;;;
  Ok (cursor + count).

Definition enumerate {A} (l : list A) : list (nat * A) := zip (seq 0 (length l)) l.

Definition check_parent (results : list (string * record)) (found : list (Z * list record))
    (acc : list (Z * list record) * list (Z * list (Z * list Z))) (entry : Z * record) :
    res (list (Z * list record) * list (Z * list (Z * list Z))) :=
  let '(parent_id, parent) := entry in
  let* ordered := sort_by_stripe (default [] (zget parent_id found)) in
  let* parent_works := required_ids parent "required_work_ids" in
  let* fence_works := required_ids parent "fence_required_work_ids" in
  ensure (set_eq Z.eqb fence_works parent_works) "pipeline fence does not cover parent work" ;;;
  let* dense := map_res (fun row => integer row "work_id") ordered in
  ensure_res (Ok (bool_decide (filter (fun work => z_in work dense = true) parent_works = dense)) andM
              all_res (work_of_parent results parent) parent_works)
    "pipeline parent required-work coverage mismatch" ;;;
  let* raw := item parent "residual_bindings" in
  let* bindings := array raw in
  let* b := fold_res (bind_residual results parent_id parent_works dense ordered)
              {| by_stripe := []; bound := [] |} bindings in
  ensure (set_eq Z.eqb parent_works (dense ++ bound b)) "unbound pipeline residual work" ;;;
  let* cursor := fold_res check_rows 0 (enumerate ordered) in
  ensure_res (int_test parent "parent_m" (fun v => cursor =? v)) "incomplete producer parent rows" ;;;
  Ok (zset parent_id ordered acc.1, zset parent_id (by_stripe b) acc.2).

(** ** Owners *)

(** [text.find(':') >= 0]. *)
Fixpoint has_colon (s : string) : bool :=
  match s with
  | EmptyString => false
  | String c s => Ascii.eqb c ":" || has_colon s
  end.

Definition optional_call (owner : record) : res (option Z) := optional_integer owner "observed_call_id".

Record OwnerScan := { groups : list (Z * Z * Group); sequences : list Z }.

Definition owner_matches (owner result : record) (work_id : Z) : res bool :=
  int_test result "work_id" (fun v => work_id =? v) andM
  all_res (fun key => int_same owner key result key)
    ["phase_id"; "operation_id"; "parent_id"; "stripe_id"; "row_begin"] andM
  (let* finish := integer owner "row_end" in
   let* begin := integer result "row_begin" in
   let* count := integer result "row_count" in Ok (finish =? begin + count)) andM
  (let* slot := integer owner "workspace_slot" in
   let* host := item result "host_slot" in Ok (jeq (JInt slot) host)) andM
  (let* target := item owner "target_npu_slot" in Ok (is_null target)).

Definition owner_provenance (owner : record) : res bool :=
  (let* v := item owner "rmd_packet" in Ok (is_bool v)) andM
  (let* v := item owner "direct_residual" in Ok (is_bool v)) andM
  (let* v := text owner "source_location" in Ok (has_colon v)) andM
  (let* v := item owner "source_owner" in Ok (in_strs v ["IM2P.sim"; "llama.cpp-gemmini"])).

Definition parse_owner (ordered : list (Z * list record)) (scan : OwnerScan) (raw : json) : res OwnerScan :=
  let* owner := object_value raw in
  fields owner OWNER_FIELDS ;;;
  let* sequence := integer owner "producer_sequence" in
  ensure (negb (z_in sequence (sequences scan))) "duplicate producer owner sequence" ;;;
  let* parent_id := integer owner "parent_id" in
  let* stripe_id := integer owner "stripe_id" in
  let* work_id := integer owner "work_id" in
  match zget parent_id ordered ≫= fun rows => rows !! Z.to_nat stripe_id with
  | None => Err (ExecutionError "owner lacks exact stripe")
  | Some result =>
      ensure_res (owner_matches owner result work_id) "owner/result identity, range, or slot mismatch" ;;;
      let* _ := integer owner "producer_run_id" in
      ensure_res (owner_provenance owner) "invalid producer owner provenance" ;;;
      let* resource := text owner "resource" in
      let* transition := text owner "transition" in
      ensure (event_in (resource, transition) (REQUIRED_EVENTS ++ OPTIONAL_EVENTS))
        "unknown producer owner transition" ;;;
      let* call := optional_call owner in
      ensure (Bool.eqb (String.eqb resource "RESIDUAL_MERGE_CALL") (bool_decide (call ≠ None)))
        "merge call owner identity mismatch" ;;;
      let key := {| key_resource := resource; key_transition := transition; key_call := call |} in
      let group := default [] (aget pair_eq_b (parent_id, stripe_id) (groups scan)) in
      ensure (negb (amem owner_key_eq key group)) "duplicate producer owner transition" ;;;
      Ok {| groups := aset pair_eq_b (parent_id, stripe_id) (aset owner_key_eq key owner group) (groups scan);
            sequences := sequences scan ++ [sequence] |}
  end.

Definition parse_owners (contract : record) (ordered : list (Z * list record)) : res (list (Z * Z * Group)) :=
  let* raw := item contract "pipeline_owners" in
  let* rows := array raw in
  let* scan := fold_res (parse_owner ordered) {| groups := []; sequences := [] |} rows in
  ensure (set_eq Z.eqb (sequences scan) (seqZ 0 (Z.of_nat (length (sequences scan)))))
    "producer owner sequence gap" ;;;
  Ok (groups scan).

Definition parse_pipeline (contract : record) (results : list (string * record)) : res PipelineContract :=
  let* known := parse_parents contract in
  let* found := collect_stripes known results in
  let* checked := fold_res (check_parent results found) ([], []) known in
  let* groups := parse_owners contract checked.1 in
  Ok {| parents := known; stripes := checked.1; residual_works := checked.2; owners := groups |}.

(** The value of an integer field that passed a test. *)
Lemma int_test_Ok r key p : int_test r key p = Ok true ↔ ∃ z, integer r key = Ok z ∧ p z = true.
Proof.
  unfold int_test. rewrite bind_Ok. split.
  - intros (z & Hz & Hp%Ok_eq). by exists z.
  - intros (z & Hz & Hp). exists z. by rewrite Hp.
Qed.
