(* ===== verification/Lifecycle.v ===== *)
(** * The lifecycle of a collection

    [sim/cycle/execution_lifecycle.py]: the events a collection recorded
    (phases, dispatches of graphs, samples, the declarations of the stripe
    pipeline), checked against its semantic graph and projected onto barriers
    and entry dependencies of the execution graph.  Version 1 records a run
    whose works are dispatched whole, version 3 a pipelined one.

    The projection is a state machine over the events ([lifecycle_step]); the
    Python loop keeps the same variables. *)
From S2P Require Import Prelude Records Manifest TraceSchema ExecutionIR PipelineContract.
Set Default Goal Selector "!".

(** ** The fingerprint of a token

    [token_fingerprint] of [sim/cycle/execution_lifecycle.py]: the 64-bit FNV-1a
    hash of the four bytes of a token, in little-endian order, as hexadecimal
    text.  Although hashes collide in general, this one does not on four bytes:
    two tokens with the same fingerprint agree as 32-bit integers. *)

Definition FNV_OFFSET : Z := 14695981039346656037.
Definition FNV_PRIME : Z := 1099511628211.

(** [((value ^ byte) * 1099511628211) & ((1 << 64) - 1)] *)
Definition fnv_byte (value byte : Z) : Z := Z.land (Z.lxor value byte * FNV_PRIME) (Z.shiftl 1 64 - 1).
(** [(token >> shift) & 255] *)
Definition token_byte (token shift : Z) : Z := Z.land (Z.shiftr token shift) 255.
Definition fnv_token (token : Z) : Z :=
  fold_left (fun value shift => fnv_byte value (token_byte token shift)) [0; 8; 16; 24] FNV_OFFSET.

(** [f'{value:016x}'] of a value below [2**64]. *)
Definition hex_digit (d : Z) : ascii :=
  ascii_of_N (Z.to_N (if d <? 10 then 48 + d else 87 + d)).
Fixpoint hex_digits (n : nat) (value : Z) : string :=
  match n with
  | O => EmptyString
  | S n => hex_digits n (Z.shiftr value 4) +:+ String (hex_digit (Z.land value 15)) EmptyString
  end.
Definition token_fingerprint (token : Z) : string := FINGERPRINT +:+ hex_digits 16 (fnv_token token).

(** ** Exclusive or with a byte *)

Lemma lxor_byte x b : 0 <= x → 0 <= b < 256 → Z.lxor x b / 256 = x / 256 ∧ 0 <= Z.lxor x b.
Proof.
  intros Hx Hb. split; [|apply Z.lxor_nonneg; lia].
  change 256 with (2 ^ 8). rewrite <-!Z.shiftr_div_pow2, Z.shiftr_lxor by lia.
  rewrite (Z.shiftr_div_pow2 b) by lia. rewrite (Z.div_small b) by lia. apply Z.lxor_0_r.
Qed.

Lemma same_high_bytes x y : x / 256 = y / 256 → Z.abs (x - y) <= 255.
Proof. intros E. pose proof (Z.div_mod x 256). pose proof (Z.div_mod y 256).
  pose proof (Z.mod_pos_bound x 256). pose proof (Z.mod_pos_bound y 256). lia. Qed.

Lemma lxor_byte_close x b : 0 <= x → 0 <= b < 256 → Z.abs (Z.lxor x b - x) <= 255.
Proof. intros Hx Hb. by apply same_high_bytes, lxor_byte. Qed.

Lemma lxor_cancel x b c : Z.lxor x b = Z.lxor x c → b = c.
Proof.
  intros E. apply (f_equal (Z.lxor x)) in E. rewrite <-!Z.lxor_assoc, Z.lxor_nilpotent, !Z.lxor_0_l in E. done.
Qed.

Lemma lxor_byte_below x b : 0 <= x < 2 ^ 64 → 0 <= b < 256 → 0 <= Z.lxor x b < 2 ^ 64.
Proof.
  intros Hx Hb. destruct (lxor_byte x b) as [E H0]; [lia..|]. pose proof (Z.div_mod (Z.lxor x b) 256) as Hd.
  pose proof (Z.mod_pos_bound (Z.lxor x b) 256) as Hm. split; [done|].
  assert (Hq : x / 256 <= 72057594037927935) by (apply Z.lt_succ_r, Z.div_lt_upper_bound; lia).
  change (2 ^ 64) with (256 * 72057594037927936). lia.
Qed.

(** ** One step of the hash *)

Lemma fnv_byte_mod value byte : fnv_byte value byte = (Z.lxor value byte * FNV_PRIME) mod 2 ^ 64.
Proof. unfold fnv_byte. change (Z.shiftl 1 64 - 1) with (Z.ones 64). by rewrite Z.land_ones by lia. Qed.

Lemma fnv_byte_bound value byte : 0 <= fnv_byte value byte < 2 ^ 64.
Proof. rewrite fnv_byte_mod. apply Z.mod_pos_bound. lia. Qed.

(** The prime is odd, so multiplying by it loses nothing. *)
Definition FNV_INVERSE : Z := 14886173955864302971.

Lemma prime_cancel x y : 0 <= x < 2 ^ 64 → 0 <= y < 2 ^ 64 →
  (x * FNV_PRIME) mod 2 ^ 64 = (y * FNV_PRIME) mod 2 ^ 64 → x = y.
Proof.
  intros Hx Hy E. apply (f_equal (fun z => (z * FNV_INVERSE) mod 2 ^ 64)) in E.
  rewrite !Zmult_mod_idemp_l, <-!Z.mul_assoc, <-(Zmult_mod_idemp_r (FNV_PRIME * FNV_INVERSE) x),
    <-(Zmult_mod_idemp_r (FNV_PRIME * FNV_INVERSE) y) in E.
  change ((FNV_PRIME * FNV_INVERSE) mod 2 ^ 64) with 1 in E. rewrite !Z.mul_1_r, !Z.mod_small in E by done. done.
Qed.

(** Two steps whose results differ by less than a block: the difference is
    that of the inputs, times the prime, modulo [2^64]. *)
Lemma fnv_difference v b w c : ∃ k, fnv_byte v b - fnv_byte w c = (Z.lxor v b - Z.lxor w c) * FNV_PRIME + k * 2 ^ 64.
Proof.
  rewrite !fnv_byte_mod. pose proof (Z.div_mod (Z.lxor v b * FNV_PRIME) (2 ^ 64)) as H1.
  pose proof (Z.div_mod (Z.lxor w c * FNV_PRIME) (2 ^ 64)) as H2.
  exists (Z.lxor w c * FNV_PRIME / 2 ^ 64 - Z.lxor v b * FNV_PRIME / 2 ^ 64). lia.
Qed.

(** The only small solution of the equation three steps lead to. *)
Lemma small_solution d e f g k : Z.abs d <= 255 → Z.abs e <= 510 → Z.abs f <= 510 → Z.abs g <= 255 →
  FNV_PRIME * FNV_PRIME * FNV_PRIME * d + FNV_PRIME * FNV_PRIME * e + FNV_PRIME * f - g = k * 2 ^ 64 →
  d = 0 ∧ e = 0 ∧ f = 0 ∧ g = 0.
Proof.
  intros Hd He Hf Hg H. set (k' := k - 65536 * e - (65536 * FNV_PRIME + 870 * 65536) * d).
  assert (H' : 1099511627776 * (567675 * d + 870 * e + f - k' * 16777216) +
    (82312875 * d + 189225 * e + 435 * f - g) = 0) by (unfold k', FNV_PRIME in *; lia).
  clearbody k'. clear H k.
  assert (Hr : 82312875 * d + 189225 * e + 435 * f - g = 0) by lia.
  assert (Hq : 567675 * d + 870 * e + f = k' * 16777216) by lia. clear H'.
  assert (g = 0 ∧ 189225 * d + 435 * e + f = 0) as [-> Ht] by lia.
  assert (Hm : Z.abs (435 * d + e) <= 1) by lia.
  assert (k' = 0) as -> by lia. lia.
Qed.

Lemma fnv_tokens_equal b0 b1 b2 b3 c0 c1 c2 c3 :
  (∀ b, b ∈ [b0; b1; b2; b3; c0; c1; c2; c3] → 0 <= b < 256) →
  fnv_byte (fnv_byte (fnv_byte (fnv_byte FNV_OFFSET b0) b1) b2) b3 =
  fnv_byte (fnv_byte (fnv_byte (fnv_byte FNV_OFFSET c0) c1) c2) c3 →
  b0 = c0 ∧ b1 = c1 ∧ b2 = c2 ∧ b3 = c3.
Proof.
  intros Hb E. assert (H0 : 0 <= FNV_OFFSET < 2 ^ 64) by done. revert E.
  generalize dependent FNV_OFFSET. intros h Hh.
  pose proof (fnv_difference h b0 h c0) as [k1 D1]. pose proof (fnv_byte_bound h b0) as B1. pose proof (fnv_byte_bound h c0) as C1.
  set (h1 := fnv_byte h b0) in *. set (g1 := fnv_byte h c0) in *.
  pose proof (fnv_difference h1 b1 g1 c1) as [k2 D2]. pose proof (fnv_byte_bound h1 b1) as B2. pose proof (fnv_byte_bound g1 c1) as C2.
  set (h2 := fnv_byte h1 b1) in *. set (g2 := fnv_byte g1 c1) in *.
  pose proof (fnv_difference h2 b2 g2 c2) as [k3 D3]. pose proof (fnv_byte_bound h2 b2) as B3. pose proof (fnv_byte_bound g2 c2) as C3.
  set (h3 := fnv_byte h2 b2) in *. set (g3 := fnv_byte g2 c2) in *.
  intros E. rewrite !fnv_byte_mod in E. apply prime_cancel in E; [|by apply lxor_byte_below; [|set_solver]..].
  assert (G : Z.abs (h3 - g3) <= 255).
  { apply same_high_bytes. rewrite <-(proj1 (lxor_byte h3 b3 ltac:(lia) ltac:(set_solver))), E. apply lxor_byte; [lia|set_solver]. }
  assert (X0 : Z.abs (Z.lxor h b0 - Z.lxor h c0) <= 255).
  { apply same_high_bytes. etransitivity; [apply lxor_byte; [lia|set_solver]|]. symmetry. apply lxor_byte; [lia|set_solver]. }
  assert (X1 : Z.abs (Z.lxor h1 b1 - h1) <= 255) by (apply lxor_byte_close; [lia|set_solver]).
  assert (Y1 : Z.abs (Z.lxor g1 c1 - g1) <= 255) by (apply lxor_byte_close; [lia|set_solver]).
  assert (X2 : Z.abs (Z.lxor h2 b2 - h2) <= 255) by (apply lxor_byte_close; [lia|set_solver]).
  assert (Y2 : Z.abs (Z.lxor g2 c2 - g2) <= 255) by (apply lxor_byte_close; [lia|set_solver]).
  destruct (small_solution (Z.lxor h b0 - Z.lxor h c0) ((Z.lxor h1 b1 - Z.lxor g1 c1) - (h1 - g1))
    ((Z.lxor h2 b2 - Z.lxor g2 c2) - (h2 - g2)) (h3 - g3)
    (- (k3 + FNV_PRIME * k2 + FNV_PRIME * FNV_PRIME * k1))) as (E0 & E1 & E2 & E3); [lia..| |].
  { rewrite D3. assert (Hx2 : Z.lxor h2 b2 - Z.lxor g2 c2 = ((Z.lxor h2 b2 - Z.lxor g2 c2) - (h2 - g2)) + (h2 - g2)) by lia.
    rewrite Hx2 at 2. rewrite D2.
    assert (Hx1 : Z.lxor h1 b1 - Z.lxor g1 c1 = ((Z.lxor h1 b1 - Z.lxor g1 c1) - (h1 - g1)) + (h1 - g1)) by lia.
    rewrite Hx1 at 2. rewrite D1. lia. }
  assert (b0 = c0) by (apply (lxor_cancel h); lia). subst c0. assert (h1 = g1) as <- by done.
  assert (b1 = c1) by (apply (lxor_cancel h1); lia). subst c1. assert (h2 = g2) as <- by done.
  assert (b2 = c2) by (apply (lxor_cancel h2); lia). subst c2. assert (h3 = g3) as <- by done.
  split_and!; try done. by apply (lxor_cancel h3).
Qed.

(** ** Text *)

Lemma token_byte_bound token shift : 0 <= token_byte token shift < 256.
Proof. unfold token_byte. change 255 with (Z.ones 8). rewrite Z.land_ones by lia. by apply Z.mod_pos_bound. Qed.

Lemma hex_digit_inj c d : 0 <= c < 16 → 0 <= d < 16 → hex_digit c = hex_digit d → c = d.
Proof.
  intros Hc Hd E.
  assert (Hv : ∀ x, 0 <= x < 16 → Z.of_N (N_of_ascii (hex_digit x)) = if x <? 10 then 48 + x else 87 + x).
  { intros x Hx. assert (Hcase : x ∈ map Z.of_nat (seq 0 16)).
    { apply list_elem_of_In, in_map_iff. exists (Z.to_nat x). split; [lia|]. apply in_seq. lia. }
    clear Hx. revert x Hcase. apply Forall_forall. repeat (constructor; [done|]). constructor. }
  assert (Hcd : (if c <? 10 then 48 + c else 87 + c) = (if d <? 10 then 48 + d else 87 + d)) by (rewrite <-!Hv, E by done; done).
  destruct (Z.ltb_spec c 10), (Z.ltb_spec d 10); lia.
Qed.

Lemma append_snoc_inj s t c d : s +:+ String c EmptyString = t +:+ String d EmptyString → s = t ∧ c = d.
Proof.
  revert t. induction s as [|a s IH]; intros [|b t]; cbn.
  - by intros [= ->].
  - intros [= -> E]. by destruct t.
  - intros [= -> E]. by destruct s.
  - intros [= -> E]. by destruct (IH t E) as [-> ->].
Qed.

Lemma hex_digits_inj n : ∀ v w, 0 <= v < 16 ^ Z.of_nat n → 0 <= w < 16 ^ Z.of_nat n →
  hex_digits n v = hex_digits n w → v = w.
Proof.
  induction n as [|n IH]; intros v w Hv Hw E; [cbn in *; lia|].
  rewrite Nat2Z.inj_succ, Z.pow_succ_r in Hv, Hw by lia. cbn [hex_digits] in E.
  apply append_snoc_inj in E as [Es Ed]. change 15 with (Z.ones 4) in Ed. rewrite !Z.land_ones in Ed by lia.
  rewrite !Z.shiftr_div_pow2 in Es by lia. change (2 ^ 4) with 16 in *.
  apply hex_digit_inj in Ed; [|by apply Z.mod_pos_bound..].
  apply IH in Es; [|split; [apply Z.div_pos; lia|apply Z.div_lt_upper_bound; lia]..].
  rewrite (Z.div_mod v 16), (Z.div_mod w 16) by lia. congruence.
Qed.

Lemma append_inj_l p s t : p +:+ s = p +:+ t → s = t.
Proof. induction p as [|c p IH]; cbn; [done|]. intros [= E]. by apply IH. Qed.

Lemma token_bytes token : token mod 2 ^ 32 =
  token_byte token 0 + 2 ^ 8 * (token_byte token 8 + 2 ^ 8 * (token_byte token 16 + 2 ^ 8 * token_byte token 24)).
Proof.
  unfold token_byte. change 255 with (Z.ones 8). rewrite !Z.land_ones, !Z.shiftr_div_pow2 by lia.
  change (2 ^ 0) with 1. rewrite Z.div_1_r. set (q1 := token / 2 ^ 8). set (q2 := token / 2 ^ 16). set (q3 := token / 2 ^ 24).
  assert (H1 : q1 = token / 2 ^ 8) by done. assert (H2 : q2 = q1 / 2 ^ 8) by (unfold q1, q2; rewrite Z.div_div by lia; done).
  assert (H3 : q3 = q2 / 2 ^ 8) by (unfold q2, q3; rewrite Z.div_div by lia; done). clearbody q1 q2 q3.
  change (2 ^ 8) with 256 in *. change (2 ^ 32) with 4294967296.
  pose proof (Z.div_mod token 256). pose proof (Z.div_mod q1 256). pose proof (Z.div_mod q2 256). pose proof (Z.div_mod q3 256).
  pose proof (Z.mod_pos_bound token 256). pose proof (Z.mod_pos_bound q1 256). pose proof (Z.mod_pos_bound q2 256).
  pose proof (Z.mod_pos_bound q3 256). symmetry. apply Z.mod_unique with (q := q3 / 256); lia.
Qed.

Lemma fingerprint_inj t u : token_fingerprint t = token_fingerprint u → t mod 2 ^ 32 = u mod 2 ^ 32.
Proof.
  unfold token_fingerprint. intros E%append_inj_l.
  apply hex_digits_inj in E; [|unfold fnv_token; cbn [fold_left]; apply fnv_byte_bound..].
  unfold fnv_token in E. cbn [fold_left] in E. apply fnv_tokens_equal in E as (E0 & E1 & E2 & E3).
  - by rewrite !token_bytes, E0, E1, E2, E3.
  - intros b Hb. rewrite !elem_of_cons in Hb.
    repeat destruct Hb as [->|Hb]; try apply token_byte_bound. by apply not_elem_of_nil in Hb.
Qed.

(** The fingerprint identifies a token: two tokens have the same
    fingerprint exactly when they are the same 32-bit integer. *)
Theorem fingerprint_token t u : token_fingerprint t = token_fingerprint u ↔ t mod 2 ^ 32 = u mod 2 ^ 32.
Proof.
  split; [apply fingerprint_inj|]. intros E. unfold token_fingerprint, fnv_token. do 2 f_equal. cbn [fold_left].
    assert (Hbyte : ∀ x s, 0 <= s <= 24 → token_byte x s = token_byte (x mod 2 ^ 32) s).
    { intros x s Hs. unfold token_byte. change 255 with (Z.ones 8). apply Z.bits_inj'. intros n Hn.
      rewrite !Z.land_spec. destruct (Z.ltb_spec n 8).
      - rewrite !Z.shiftr_spec, Z.mod_pow2_bits_low by lia. done.
      - rewrite (Z.ones_spec_high 8 n) by lia. by rewrite !andb_false_r. }
    rewrite !(Hbyte t), !(Hbyte u), E by lia. done.
Qed.

(** The fingerprints of the tokens 0 and 1, and a negative token. *)
Example fingerprint_vectors :
  token_fingerprint 0 = "fnv1a64-le-i32:4d25767f9dce13f5" ∧ token_fingerprint 1 = "fnv1a64-le-i32:ad2aca7747985764" ∧
  token_fingerprint (-1) = token_fingerprint (2 ^ 32 - 1).
Proof. by vm_compute. Qed.

(** ** The state *)

Record LifecycleProjection := {
  entry_dependencies : record;
  barriers : list record;
  application_steps : list record;
  expected_samples : Z;
  pipeline_parents : list record;
  pipeline_owners : list record;
  prefill_steps : list record;
}.

Record State := {
  entries : record;
  st_barriers : list record;
  samples : list record;
  phases : list record;
  parents : list record;
  owners : list record;
  st_prefill : list record;
  request_started : bool;
  parent_by_operation : list (Z * record);
  run : option record;
  active : option record;
  cursor : Z;
  dispatches : Z;
  ended : bool;
}.

Definition start : State := {|
  entries := []; st_barriers := []; samples := []; phases := []; parents := []; owners := []; st_prefill := [];
  request_started := false; parent_by_operation := []; run := None; active := None; cursor := 0; dispatches := 0;
  ended := false |}.

(** ** Comparisons *)

Definition count {A} (l : list A) : Z := Z.of_nat (length l).
Definition none {A} (o : option A) : bool := match o with None => true | Some _ => false end.

(** [phase_key(record) == phase_key(rows[-1])] *)
Definition same_phase (a b : record) : res bool :=
  let* key_a := phase_key a in let* key_b := phase_key b in Ok (bool_decide (key_a = key_b)).
Definition same_last_phase (a : record) (rows : list record) : res bool :=
  match last rows with Some b => same_phase a b | None => Err (IndexError "list index out of range") end.
(** [rows[index]] of a nonnegative index. *)
Definition at_index {A} (rows : list A) (index : Z) : res A :=
  match rows !! Z.to_nat index with Some row => Ok row | None => Err (IndexError "list index out of range") end.
Definition test_item (r : record) (key : string) (p : json → bool) : res bool := let* v := item r key in Ok (p v).
(** The members of a Python set must be hashable. *)
Definition hashable (j : json) : bool := match j with JArr _ | JObj _ => false | _ => true end.
Definition as_set (l : list json) : res (list json) :=
  check (forallb hashable l) (TypeError "unhashable type") ;;; Ok l.
Definition jin (j : json) (l : list json) : bool := existsb (jeq j) l.
Definition is_identity (j : json) : bool := match j with JInt z => 0 <=? z | _ => false end.

Section Lifecycle.
Context (graph : Manifest).

(** The operations of each graph, by the names of the adapted nodes. *)
Definition graph_names (row : record) : res (list string) :=
  let* value := item row "nodes" in
  let* listed := array value in
  map_res (fun ordinal : nat =>
    let* key := phase_key row in
    let* occurrence := integer row "graph_occurrence" in
    Ok (operation_name (key.1, key.2, occurrence, Z.of_nat ordinal))) (seq 0 (length listed)).
Definition graph_operations : res (list (list string)) := map_res graph_names (graphs graph).

Definition COMMON : list string := ["schema"; "version"; "kind"; "sequence"].

Definition is_pipeline (run_row : record) : res bool :=
  test_item run_row "target_mode_scope" (fun v => eq_str v "STRIPE_PIPELINE_ONLY").

Definition framing (s : State) (sequence version : Z) (r : record) : res bool :=
  Ok (negb (ended s)) andM
  Ok (eq_str (pget r "schema") "potal-execution-lifecycle") andM
  Ok (z_in version [1; 3]) andM
  int_test r "sequence" (fun v => v =? sequence) andM
  match run s with
  | None => Ok true
  | Some row => let* pipeline := is_pipeline row in Ok (version =? (if (pipeline : bool) then 3 else 1))
  end.

(** ** The events *)

Definition RUN_FIELDS : list string :=
  COMMON ++ ["source_role"; "source_commit"; "expected_samples"; "execution_policy"; "graph_policy";
    "operation_exit_policy"; "target_mode_scope"; "requires_binary_manifest_binding"].

Definition run_event (s : State) (sequence version : Z) (r : record) : res State :=
  fields r (RUN_FIELDS ++ (if version =? 3 then
    ["producer_ownership_source"; "actual_rtl_acceptance_in_collection"; "workspace_slot_domain"; "target_npu_slot_domain"]
    else [])) ;;;
  ensure_res (Ok (sequence =? 0) andM test_item r "source_role" (fun v => eq_str v "potal_collection") andM
    test_item r "execution_policy" (fun v => eq_str v "blocking-llama-decode-synchronize-v1") andM
    test_item r "graph_policy" (fun v => eq_str v "semantic-session-completes-before-next-graph-v1") andM
    test_item r "operation_exit_policy" (fun v => eq_str v "ALL_MEMBER_COMPLETIONS") andM
    test_item r "target_mode_scope" (fun v => eq_str v (if version =? 3 then "STRIPE_PIPELINE_ONLY" else "FULL_ONLY")) andM
    test_item r "requires_binary_manifest_binding" is_true) "unsupported producer lifecycle policy" ;;;
  (if version =? 3 then
     ensure_res (test_item r "producer_ownership_source" (fun v => eq_str v "CPU_FUNCTIONAL") andM
       test_item r "actual_rtl_acceptance_in_collection" (fun v => eq_str v "NOT_APPLICABLE") andM
       test_item r "workspace_slot_domain" (fun v => eq_str v "EXSIA_SCRATCH") andM
       test_item r "target_npu_slot_domain" (fun v => eq_str v "UNDECLARED"))
       "pipeline collection cannot claim RTL acceptance or NPU slot ownership"
   else Ok tt) ;;;
  let* commit := item r "source_commit" in
  let* producer_value := item (Manifest.run graph) "producer" in
  let* producer := object_value producer_value in
  let* git_commit := item producer "git_commit" in
  ensure_res (Ok (jeq commit git_commit) andM
    (let* expected := integer r "expected_samples" in
     let* workload_value := item (Manifest.run graph) "workload" in
     let* workload := object_value workload_value in
     int_test workload "generated_tokens" (fun v => expected =? v))) "producer source/sample configuration mismatch" ;;;
  Ok {| entries := entries s; st_barriers := st_barriers s; samples := samples s; phases := phases s;
        parents := parents s; owners := owners s; st_prefill := st_prefill s; request_started := request_started s;
        parent_by_operation := parent_by_operation s; run := Some r; active := active s; cursor := cursor s;
        dispatches := dispatches s; ended := ended s |}.

Definition phase_event (s : State) (r : record) : res State :=
  fields r (COMMON ++ ["phase_kind"; "decode_index"; "graph_begin"; "phase_ordinal"]) ;;;
  ensure_res (Ok (negb (none (run s))) andM Ok (none (active s)) andM
    int_test r "phase_ordinal" (fun v => v =? count (phases s)) andM
    int_test r "graph_begin" (fun v => v =? cursor s) andM
    Ok (count (samples s) =? count (phases s))) "invalid phase boundary" ;;;
  ensure_res (Ok (count (phases s) <? count (Manifest.phases graph)) andM
    (let* own := at_index (Manifest.phases graph) (count (phases s)) in same_phase r own))
    "lifecycle/semantic phase mismatch" ;;;
  Ok {| entries := entries s; st_barriers := st_barriers s; samples := samples s; phases := phases s ++ [r];
        parents := parents s; owners := owners s; st_prefill := st_prefill s; request_started := request_started s;
        parent_by_operation := parent_by_operation s; run := run s; active := active s; cursor := cursor s;
        dispatches := dispatches s; ended := ended s |}.

Definition barrier_row (identity phase : string) (dependencies : list string) : record :=
  [("node_id", JStr identity); ("phase", JStr phase); ("dependencies", JArr (map JStr dependencies))].

Definition request_event (s : State) (version : Z) (r : record) : res State :=
  fields r (COMMON ++ ["request_id"; "phase_kind"; "decode_index"; "graph_begin"]) ;;;
  ensure_res (Ok ((version =? 3) && negb (request_started s) && (count (phases s) =? 1) && none (active s) &&
                  (dispatches s =? 0)) andM
    int_test r "request_id" (fun v => v =? 0) andM test_item r "phase_kind" (fun v => eq_str v "prefill") andM
    test_item r "decode_index" is_null andM int_test r "graph_begin" (fun v => v =? 0)) "invalid pipeline request start" ;;;
  Ok {| entries := entries s; st_barriers := st_barriers s ++ [barrier_row "application:request:begin" "0" []];
        samples := samples s; phases := phases s; parents := parents s; owners := owners s; st_prefill := st_prefill s;
        request_started := true; parent_by_operation := parent_by_operation s; run := run s; active := active s;
        cursor := cursor s; dispatches := dispatches s; ended := ended s |}.

Definition prefill_event (s : State) (version : Z) (r : record) : res State :=
  fields r (COMMON ++ ["batch_index"; "dispatch_id"; "graph_begin"; "phase_kind"; "decode_index"]) ;;;
  ensure_res (Ok ((version =? 3) && request_started s && none (active s)) andM
    match last (phases s) with
    | Some phase => test_item phase "phase_kind" (fun v => eq_str v "prefill")
    | None => Ok false
    end andM
    int_test r "batch_index" (fun v => v =? count (st_prefill s)) andM
    int_test r "dispatch_id" (fun v => v =? dispatches s) andM int_test r "graph_begin" (fun v => v =? cursor s) andM
    test_item r "phase_kind" (fun v => eq_str v "prefill") andM test_item r "decode_index" is_null)
    "invalid pipeline prefill preparation boundary" ;;;
  let* batch := item r "batch_index" in
  let* dispatch := item r "dispatch_id" in
  let* begin := item r "graph_begin" in
  Ok {| entries := entries s; st_barriers := st_barriers s; samples := samples s; phases := phases s;
        parents := parents s; owners := owners s;
        st_prefill := st_prefill s ++ [[("batch_index", batch); ("dispatch_id", dispatch); ("graph_begin", begin)]];
        request_started := request_started s; parent_by_operation := parent_by_operation s; run := run s;
        active := active s; cursor := cursor s; dispatches := dispatches s; ended := ended s |}.

Definition begin_event (s : State) (version : Z) (r : record) : res State :=
  fields r (COMMON ++ ["dispatch_id"; "graph_begin"; "phase_kind"; "decode_index"]) ;;;
  ensure_res (Ok (negb (Nat.eqb (length (phases s)) 0)) andM Ok (none (active s)) andM
    int_test r "dispatch_id" (fun v => v =? dispatches s) andM int_test r "graph_begin" (fun v => v =? cursor s) andM
    same_last_phase r (phases s)) "invalid dispatch begin" ;;;
  let* kind := item r "phase_kind" in
  (if (version =? 3) && eq_str kind "prefill" then
     ensure (request_started s && (count (st_prefill s) =? dispatches s + 1)) "prefill dispatch lacks measured batch preparation"
   else Ok tt) ;;;
  Ok {| entries := entries s; st_barriers := st_barriers s; samples := samples s; phases := phases s;
        parents := parents s; owners := owners s; st_prefill := st_prefill s; request_started := request_started s;
        parent_by_operation := parent_by_operation s; run := run s; active := Some r; cursor := cursor s;
        dispatches := dispatches s; ended := ended s |}.

(** The barriers of one graph: it is entered after [predecessor], its
    operations are entered after that, and it ends after all of them. *)
Record Window := { win_entries : record; win_barriers : list record; predecessor : string }.

Definition add_entry (enter : string) (acc : record) (operation : string) : res record :=
  ensure (negb (smem operation acc)) "duplicate graph operation membership" ;;;
  Ok (sset operation (JArr [JStr enter]) acc).

Definition graph_begin_id (index : Z) : string := "graph:" +:+ dec index +:+ ":begin".
Definition graph_end_id (index : Z) : string := "graph:" +:+ dec index +:+ ":end".
Definition dispatch_begin_id (index : Z) : string := "dispatch:" +:+ dec index +:+ ":begin".
Definition dispatch_end_id (index : Z) : string := "dispatch:" +:+ dec index +:+ ":end".

Definition dispatch_graph (operations : list (list string)) (phase : string) (r : record) (w : Window) (index : Z) : res Window :=
  ensure_res (let* row := at_index (graphs graph) index in same_phase row r) "dispatch graph phase differs" ;;;
  let enter := graph_begin_id index in
  let leave := graph_end_id index in
  let* names := at_index operations index in
  let* entered := fold_res (add_entry enter) (win_entries w) names in
  Ok {| win_entries := entered;
        win_barriers := win_barriers w ++ [barrier_row enter phase [predecessor w]; barrier_row leave phase names];
        predecessor := leave |}.

Definition end_event (operations : list (list string)) (s : State) (r : record) : res State :=
  fields r (COMMON ++ ["dispatch_id"; "graph_end"; "status"; "synchronized"; "phase_kind"; "decode_index"]) ;;;
  ensure_res (Ok (negb (none (active s))) andM int_test r "dispatch_id" (fun v => v =? dispatches s) andM
    test_item r "status" (fun v => eq_int v 0) andM test_item r "synchronized" is_true andM
    match active s with Some begin => same_phase r begin | None => Ok false end) "unsynchronized/failed dispatch" ;;;
  let* finish := integer r "graph_end" in
  ensure ((cursor s <? finish) && (finish <=? count (graphs graph))) "missing/extra dispatched semantic graph" ;;;
  let phase := dec (count (phases s) - 1) in
  let begin_id := dispatch_begin_id (dispatches s) in
  let begins_after := if dispatches s =? 0 then [] else [dispatch_end_id (dispatches s - 1)] in
  let* w := fold_res (dispatch_graph operations phase r)
    {| win_entries := entries s; win_barriers := st_barriers s ++ [barrier_row begin_id phase begins_after];
       predecessor := begin_id |} (seqZ (cursor s) (finish - cursor s)) in
  Ok {| entries := win_entries w;
        st_barriers := win_barriers w ++ [barrier_row (dispatch_end_id (dispatches s)) phase [predecessor w]];
        samples := samples s; phases := phases s; parents := parents s; owners := owners s; st_prefill := st_prefill s;
        request_started := request_started s; parent_by_operation := parent_by_operation s; run := run s;
        active := None; cursor := finish; dispatches := dispatches s + 1; ended := ended s |}.

Definition sample_event (s : State) (r : record) : res State :=
  fields r (COMMON ++ ["sample_index"; "token_id"; "graph_end"; "dispatch_id"; "token_ready"; "phase_kind"; "decode_index"]) ;;;
  ensure_res (Ok (none (active s) && negb (Nat.eqb (length (phases s)) 0)) andM
    int_test r "sample_index" (fun v => v =? count (samples s)) andM
    Ok (count (samples s) + 1 =? count (phases s)) andM test_item r "token_ready" is_true andM
    int_test r "dispatch_id" (fun v => v + 1 =? dispatches s) andM int_test r "graph_end" (fun v => v =? cursor s) andM
    same_last_phase r (phases s)) "sample lacks completed logits dispatch" ;;;
  Ok {| entries := entries s; st_barriers := st_barriers s; samples := samples s ++ [r]; phases := phases s;
        parents := parents s; owners := owners s; st_prefill := st_prefill s; request_started := request_started s;
        parent_by_operation := parent_by_operation s; run := run s; active := active s; cursor := cursor s;
        dispatches := dispatches s; ended := ended s |}.

(** *** The declarations of a pipelined run *)

Definition PARENT_EVENT_FIELDS : list string :=
  COMMON ++ ["phase_id"; "operation_id"; "parent_id"; "required_work_ids"; "production_geometry_version"; "scope";
    "activation_bits"; "weight_bits"; "dim"; "parent_m"; "n"; "k"; "tile_i_count"; "tile_j_count"; "tile_k_count";
    "fence_call_id"; "fence_required_work_ids"; "residual_bindings"].

Definition sampled_all (s : State) : res bool :=
  match run s with
  | Some row => int_test row "expected_samples" (fun v => count (samples s) =? v)
  | None => Ok false
  end.

Definition parent_event (s : State) (version : Z) (r : record) : res State :=
  ensure_res (Ok ((version =? 3) && negb (none (run s)) && none (active s)) andM sampled_all s)
    "pipeline parent outside completed collection" ;;;
  fields r PARENT_EVENT_FIELDS ;;;
  let* operation := integer r "operation_id" in
  let* works_value := item r "required_work_ids" in
  let* work_ids := array works_value in
  ensure_res (Ok (negb (zmem operation (parent_by_operation s))) andM
    int_test r "phase_id" (fun v => (0 <=? v) && (v <? count (phases s))) andM
    int_test r "production_geometry_version" (fun v => v =? 1) andM
    test_item r "scope" (fun v => eq_str v "STREAM") andM
    test_item r "activation_bits" (fun v => in_ints v [4; 8]) andM
    test_item r "weight_bits" (fun v => in_ints v [4; 8]) andM
    test_item r "dim" (fun v => in_ints v [16; 32; 64]) andM
    all_res (fun key => int_test r key (fun v => 0 <? v))
      ["parent_m"; "n"; "k"; "tile_i_count"; "tile_j_count"; "tile_k_count"] andM
    Ok (negb (Nat.eqb (length work_ids) 0)) andM
    (let* members := as_set work_ids in Ok (distinct jeq members)) andM
    Ok (forallb is_identity work_ids) andM
    int_test r "fence_call_id" (fun v => 0 <=? v) andM
    (let* fence_value := item r "fence_required_work_ids" in
     let* fence := array fence_value in
     let* members := as_set fence in Ok (set_eq jeq members work_ids)) andM
    test_item r "residual_bindings" is_list) "invalid pipeline parent geometry or work set" ;;;
  Ok {| entries := entries s; st_barriers := st_barriers s; samples := samples s; phases := phases s;
        parents := parents s ++ [r]; owners := owners s; st_prefill := st_prefill s;
        request_started := request_started s; parent_by_operation := zset operation r (parent_by_operation s);
        run := run s; active := active s; cursor := cursor s; dispatches := dispatches s; ended := ended s |}.

Definition OWNER_EVENT_FIELDS : list string :=
  COMMON ++ ["producer_sequence"; "phase_id"; "operation_id"; "parent_id"; "work_id"; "producer_run_id"; "stripe_id";
    "workspace_slot"; "target_npu_slot"; "row_begin"; "row_end"; "resource"; "transition"; "rmd_packet";
    "direct_residual"; "required_work_ids"; "required_call_ids"; "observed_call_id"; "source_owner"; "source_location"].

(** [integer(record, key) == parent[key]]. *)
Definition int_item (r : record) (key : string) (parent : record) : res bool :=
  let* v := integer r key in let* w := item parent key in Ok (jeq (JInt v) w).

Definition owner_event (s : State) (version : Z) (r : record) : res State :=
  match run s with
  | None => Err (ValueError "pipeline owner has no run")
  | Some _ =>
      ensure_res (Ok ((version =? 3) && negb (Nat.eqb (length (parents s)) 0) && none (active s)) andM sampled_all s)
        "pipeline owner outside completed collection" ;;;
      fields r OWNER_EVENT_FIELDS ;;;
      let* operation := integer r "operation_id" in
      match zget operation (parent_by_operation s) with
      | None => Err (ValueError "pipeline owner has no declared parent")
      | Some parent =>
          let* members_value := item parent "required_work_ids" in
          let* members := array members_value in
          ensure_res (int_test r "producer_sequence" (fun v => v =? count (owners s)) andM
            int_item r "phase_id" parent andM int_item r "parent_id" parent andM
            int_test r "work_id" (fun v => jin (JInt v) members) andM
            int_test r "workspace_slot" (fun v => z_in v [0; 1]) andM test_item r "target_npu_slot" is_null andM
            (let* begin := integer r "row_begin" in
             let* finish := integer r "row_end" in
             Ok ((0 <=? begin) && (begin <? finish)) andM int_test parent "parent_m" (fun v => finish <=? v)) andM
            test_item r "source_owner" (fun v => in_strs v ["IM2P.sim"; "llama.cpp-gemmini"]) andM
            test_item r "source_location" (fun v => match v with JStr t => negb (String.eqb t "") | _ => false end) andM
            (let* works_value := item r "required_work_ids" in
             let* works := array works_value in Ok (forallb (fun v => is_int v && jin v members) works)) andM
            (let* calls_value := item r "required_call_ids" in
             let* calls := array calls_value in Ok (forallb is_identity calls)) andM
            test_item r "observed_call_id" (fun v => is_null v || is_identity v))
            "pipeline owner identity or slot mismatch" ;;;
          Ok {| entries := entries s; st_barriers := st_barriers s; samples := samples s; phases := phases s;
                parents := parents s; owners := owners s ++ [r]; st_prefill := st_prefill s;
                request_started := request_started s; parent_by_operation := parent_by_operation s; run := run s;
                active := active s; cursor := cursor s; dispatches := dispatches s; ended := ended s |}
      end
  end.

(** [integer(record, key) == a == b] and the like, with the comparisons that follow. *)
Definition run_end_event (s : State) (r : record) : res State :=
  fields r (COMMON ++ ["success"; "samples"; "phases"; "dispatches"; "graphs"]) ;;;
  ensure_res (Ok (negb (none (run s)) && none (active s)) andM test_item r "success" is_true andM
    int_test r "samples" (fun v => v =? count (samples s)) andM sampled_all s andM
    int_test r "phases" (fun v => (v =? count (phases s)) && (count (phases s) =? count (Manifest.phases graph))) andM
    int_test r "dispatches" (fun v => v =? dispatches s) andM
    int_test r "graphs" (fun v => (v =? cursor s) && (cursor s =? count (graphs graph))))
    "incomplete producer lifecycle coverage" ;;;
  Ok {| entries := entries s; st_barriers := st_barriers s; samples := samples s; phases := phases s;
        parents := parents s; owners := owners s; st_prefill := st_prefill s; request_started := request_started s;
        parent_by_operation := parent_by_operation s; run := run s; active := active s; cursor := cursor s;
        dispatches := dispatches s; ended := true |}.

(** ** The projection *)

Definition event (operations : list (list string)) (s : State) (sequence version : Z) (kind : json) (r : record) : res State :=
  if eq_str kind "RUN" then run_event s sequence version r
  else if eq_str kind "PHASE" then phase_event s r
  else if eq_str kind "REQUEST_START" then request_event s version r
  else if eq_str kind "PREFILL_BATCH_READY" then prefill_event s version r
  else if eq_str kind "DISPATCH_BEGIN" then begin_event s version r
  else if eq_str kind "DISPATCH_END" then end_event operations s r
  else if eq_str kind "SAMPLE" then sample_event s r
  else if eq_str kind "PIPELINE_PARENT" then parent_event s version r
  else if eq_str kind "PIPELINE_OWNER" then owner_event s version r
  else if eq_str kind "RUN_END" then run_end_event s r
  else Err (ExecutionError "unknown producer lifecycle event").

Definition lifecycle_step (operations : list (list string)) (s : State) (entry : nat * record) : res State :=
  let '(position, r) := entry in
  let sequence := Z.of_nat position in
  let* version := integer r "version" in
  ensure_res (framing s sequence version r) "invalid lifecycle framing" ;;;
  let* kind := item r "kind" in
  event operations s sequence version kind r.

(** The step of one sample: what its token waits for, and the operations of the
    next decode, whose input must be that token. *)
Definition application_step (operations : list (list string)) (s : State) (entry : nat * record) : res record :=
  let '(index, sample) := entry in
  let* successors := (if Nat.ltb (index + 1) (length (samples s)) then
    let* following := at_index (Manifest.phases graph) (Z.of_nat index + 1) in
    ensure_res (test_item following "input_tokens" (fun v => eq_int v 1) andM
      (let* fingerprint := item following "token_fingerprint" in
       let* token := integer sample "token_id" in Ok (eq_str fingerprint (token_fingerprint token))))
      "sample token / next decode input trajectory mismatch" ;;;
    let* next := at_index (phases s) (Z.of_nat index + 1) in
    let* begin := integer next "graph_begin" in
    at_index operations begin
  else Ok []) in
  let* dispatch := integer sample "dispatch_id" in
  Ok [("sample_index", JInt (Z.of_nat index)); ("logits_ready", JArr [JStr (dispatch_end_id dispatch)]);
      ("next_decode_entries", JArr (map JStr successors))].

Definition project_lifecycle (events : list record) : res LifecycleProjection :=
  let* operations := graph_operations in
  let* s := fold_res (lifecycle_step operations) start (numbered events) in
  ensure (ended s && negb (none (run s))) "producer lifecycle did not finish" ;;;
  (match run s with
   | None => Err (ValueError "producer lifecycle has no run")
   | Some row =>
       let* pipeline := is_pipeline row in
       if (pipeline : bool) then
         ensure (request_started s && negb (Nat.eqb (length (st_prefill s)) 0)) "pipeline request/preparation coverage missing"
       else Ok tt
   end) ;;;
  let* steps := map_res (application_step operations s) (numbered (samples s)) in
  Ok {| entry_dependencies := entries s; barriers := st_barriers s; application_steps := steps;
        expected_samples := count (samples s); pipeline_parents := parents s; pipeline_owners := owners s;
        prefill_steps := st_prefill s |}.
End Lifecycle.
