(* ===== verification/LifecycleTheorems.v ===== *)
(** * What an accepted lifecycle guarantees

    The projection of a lifecycle is determined by its dispatches: [Window]s of
    consecutive graphs that follow each other from the first graph to the last.
    [projected] states the barriers and entry dependencies they produce, and the
    invariant [life_inv] that the state machine keeps it so. *)
From S2P Require Import Prelude Records TraceSchema Manifest ManifestTheorems ExecutionIR PipelineContract Lifecycle.
Set Default Goal Selector "!".

(** ** Dispatches *)

Record Dispatched := { d_phase : Z; d_begin : Z; d_end : Z }.

(** The windows follow each other, each with at least one graph. *)
Fixpoint contiguous (from : Z) (l : list Dispatched) (upto : Z) : Prop :=
  match l with
  | [] => from = upto
  | w :: l => d_begin w = from ∧ from < d_end w ∧ contiguous (d_end w) l upto
  end.

Lemma contiguous_snoc l w : ∀ from upto, contiguous from l upto → d_begin w = upto → upto < d_end w →
  contiguous from (l ++ [w]) (d_end w).
Proof.
  induction l as [|v l IH]; intros from upto; cbn; [by intros <- <-|]. intros (? & ? & ?) ? ?. split_and!; [done..|by eapply IH].
Qed.

Lemma contiguous_last l w : ∀ from upto, contiguous from (l ++ [w]) upto → d_end w = upto.
Proof. induction l as [|v l IH]; intros from upto; cbn; [by intros (_ & _ & ->)|]. intros (_ & _ & Hc). by eapply IH. Qed.

Lemma contiguous_le l : ∀ from upto, contiguous from l upto → from <= upto.
Proof. induction l as [|w l IH]; intros from upto; cbn; [lia|]. intros (? & ? & ?%IH). lia. Qed.

Section Rows.
Context (names : list (list string)).

Definition operations_of (index : Z) : list string := default [] (names !! Z.to_nat index).

(** The operations of a graph are entered after the graph begins. *)
Definition entry_rows (index : Z) : record := map (fun o => (o, JArr [JStr (graph_begin_id index)])) (operations_of index).

(** The graphs of a dispatch run one after the other. *)
Fixpoint chain_rows (phase before : string) (l : list Z) : list record :=
  match l with
  | [] => []
  | index :: l => barrier_row (graph_begin_id index) phase [before] ::
                  barrier_row (graph_end_id index) phase (operations_of index) :: chain_rows phase (graph_end_id index) l
  end.
Fixpoint chain_end (before : string) (l : list Z) : string :=
  match l with [] => before | index :: l => chain_end (graph_end_id index) l end.

Definition window_graphs (w : Dispatched) : list Z := seqZ (d_begin w) (d_end w - d_begin w).

(** A dispatch begins after the one before it ended. *)
Definition dispatch_rows (d : nat) (w : Dispatched) : list record :=
  let phase := dec (d_phase w) in
  let begin := dispatch_begin_id (Z.of_nat d) in
  barrier_row begin phase (match d with O => [] | S d => [dispatch_end_id (Z.of_nat d)] end) ::
  chain_rows phase begin (window_graphs w) ++
  [barrier_row (dispatch_end_id (Z.of_nat d)) phase [chain_end begin (window_graphs w)]].

Definition request_rows (started : bool) : list record :=
  if started then [barrier_row "application:request:begin" "0" []] else [].

Lemma chain_rows_snoc phase before l index :
  chain_rows phase before (l ++ [index]) = chain_rows phase before l ++
    [barrier_row (graph_begin_id index) phase [chain_end before l]; barrier_row (graph_end_id index) phase (operations_of index)].
Proof. revert before. induction l as [|i l IH]; intros before; cbn; [done|]. by rewrite IH. Qed.

Lemma chain_end_snoc before l index : chain_end before (l ++ [index]) = graph_end_id index.
Proof. revert before. induction l as [|i l IH]; intros before; cbn; [done|]. apply IH. Qed.
End Rows.

(** ** One graph and one dispatch *)

Section Events.
Context (graph : Manifest) (names : list (list string)).

Lemma add_entry_ok enter acc l acc' : fold_res (add_entry enter) acc l = Ok acc' →
  acc' = acc ++ map (fun o => (o, JArr [JStr enter])) l ∧ (NoDup acc.*1 → NoDup acc'.*1).
Proof.
  revert acc. induction l as [|o l IH]; intros acc H; cbn in H; [apply Ok_eq in H as <-; by rewrite app_nil_r|].
  apply bind_Ok in H as (a & Ha & H). unfold add_entry in Ha.
  apply bind_Ok in Ha as ([] & Hf%check_Ok_any%negb_true_iff & <-%Ok_eq).
  assert (Hnd : NoDup acc.*1 → NoDup (sset o (JArr [JStr enter]) acc).*1) by apply aset_NoDup, String.eqb_eq.
  rewrite aset_fresh in H, Hnd by done. apply IH in H as [-> H2]. split; [by rewrite <-(assoc_L (++))|auto].
Qed.

Lemma same_phase_Ok a b : same_phase a b = Ok true → ∃ key, phase_key a = Ok key ∧ phase_key b = Ok key.
Proof.
  unfold same_phase. intros (ka & Ha & (kb & Hb & E%Ok_eq%bool_decide_eq_true)%bind_Ok)%bind_Ok. subst. by exists kb.
Qed.

Lemma at_index_Ok {A} (l : list A) i x : at_index l i = Ok x → l !! Z.to_nat i = Some x.
Proof. unfold at_index. destruct (l !! Z.to_nat i); [by intros ->%Ok_eq|done]. Qed.

Lemma dispatch_graph_ok phase r w index w' : dispatch_graph graph names phase r w index = Ok w' →
  win_entries w' = win_entries w ++ entry_rows names index ∧ (NoDup (win_entries w).*1 → NoDup (win_entries w').*1) ∧
  win_barriers w' = win_barriers w ++ [barrier_row (graph_begin_id index) phase [predecessor w];
                                       barrier_row (graph_end_id index) phase (operations_of names index)] ∧
  predecessor w' = graph_end_id index ∧
  ∃ g key, graphs graph !! Z.to_nat index = Some g ∧ phase_key g = Ok key ∧ phase_key r = Ok key.
Proof.
  unfold dispatch_graph. intros H. apply bind_Ok in H as ([] & Hp%require_m_Ok & H). cbv zeta in H.
  apply bind_Ok in H as (ops & Hops%at_index_Ok & H). apply bind_Ok in H as (entered & He & <-%Ok_eq).
  apply bind_Ok in Hp as (g & Hg%at_index_Ok & (key & Hk & Hr)%same_phase_Ok).
  apply add_entry_ok in He as [-> Hnd]. unfold entry_rows, operations_of. rewrite Hops. cbn. split_and!; try done.
  by exists g, key.
Qed.

Lemma window_ok phase r w l w' : fold_res (dispatch_graph graph names phase r) w l = Ok w' →
  win_entries w' = win_entries w ++ concat (map (entry_rows names) l) ∧ (NoDup (win_entries w).*1 → NoDup (win_entries w').*1) ∧
  win_barriers w' = win_barriers w ++ chain_rows names phase (predecessor w) l ∧
  predecessor w' = chain_end (predecessor w) l ∧
  ∀ index, index ∈ l → ∃ g key, graphs graph !! Z.to_nat index = Some g ∧ phase_key g = Ok key ∧ phase_key r = Ok key.
Proof.
  revert w. induction l as [|i l IH]; intros w H; cbn [fold_res] in H.
  - apply Ok_eq in H as <-. cbn. rewrite !app_nil_r. split_and!; try done. by intros ? ?%not_elem_of_nil.
  - apply bind_Ok in H as (w1 & H1 & H). apply dispatch_graph_ok in H1 as (E1 & N1 & B1 & P1 & G1).
    apply IH in H as (E & N & B & P & G). split; [by rewrite E, E1, <-(assoc_L (++))|]. split; [auto|].
    rewrite B, P, B1, P1, <-(assoc_L (++)). cbn. split_and!; [done..|]. intros index [->|Hin]%elem_of_cons; [done|by apply G].
Qed.
End Events.

(** ** The invariant of the state machine *)

Section Invariant.
Context (graph : Manifest) (names : list (list string)).

(** A graph of the window ran in the phase of the window. *)
Definition window_phase (rows : list record) (w : Dispatched) : Prop :=
  0 <= d_phase w < count rows ∧ ∀ index, index ∈ window_graphs w → ∃ g p key,
    graphs graph !! Z.to_nat index = Some g ∧ rows !! Z.to_nat (d_phase w) = Some p ∧
    phase_key g = Ok key ∧ phase_key p = Ok key.

(** A sample was taken after the dispatch it names, the last one at that time. *)
Definition sample_window (ws : list Dispatched) (r : record) : Prop := ∃ d w,
  integer r "dispatch_id" = Ok (Z.of_nat d) ∧ ws !! d = Some w ∧ integer r "graph_end" = Ok (d_end w).

Record life_inv (s : State) : Prop := {
  li_windows : ∃ ws, dispatches s = count ws ∧ contiguous 0 ws (cursor s) ∧
    st_barriers s = request_rows (request_started s) ++ concat (imap (dispatch_rows names) ws) ∧
    Forall (window_phase (phases s)) ws ∧ ∀ i r, samples s !! i = Some r → sample_window ws r;
  li_entries : entries s = concat (map (entry_rows names) (seqZ 0 (cursor s))) ∧ NoDup (entries s).*1;
  li_cursor : 0 <= cursor s <= count (graphs graph);
  li_phases : ∀ i p, phases s !! i = Some p → integer p "phase_ordinal" = Ok (Z.of_nat i) ∧ ∃ m key,
    Manifest.phases graph !! i = Some m ∧ phase_key p = Ok key ∧ phase_key m = Ok key;
  li_samples : ∀ i r, samples s !! i = Some r → integer r "sample_index" = Ok (Z.of_nat i) ∧ ∃ p key,
    phases s !! i = Some p ∧ phase_key p = Ok key ∧ phase_key r = Ok key;
  li_counts : count (samples s) <= count (phases s) <= count (samples s) + 1;
  li_active : ∀ r, active s = Some r → ∃ p key, last (phases s) = Some p ∧ phase_key p = Ok key ∧ phase_key r = Ok key;
}.

Lemma start_inv : life_inv start.
Proof.
  split; cbn; try done; [exists []; split_and!; (done || constructor)|split; [done|apply NoDup_nil_2]|unfold count; lia..].
Qed.

(** The part of the state the invariant is about. *)
Definition same_core (s s' : State) : Prop :=
  entries s' = entries s ∧ st_barriers s' = st_barriers s ∧ samples s' = samples s ∧ phases s' = phases s ∧
  request_started s' = request_started s ∧ active s' = active s ∧ cursor s' = cursor s ∧ dispatches s' = dispatches s.

Lemma core_inv s s' : same_core s s' → life_inv s → life_inv s'.
Proof.
  intros (E1 & E2 & E3 & E4 & E5 & E6 & E7 & E8) [].
  split; rewrite ?E1, ?E2, ?E3, ?E4, ?E5, ?E6, ?E7, ?E8; done.
Qed.

Lemma run_event_core s q v r s' : run_event graph s q v r = Ok s' → same_core s s' ∧ run s' = Some r ∧ ended s' = ended s.
Proof. unfold run_event. intros H. repeat (apply bind_Ok in H as (? & _ & H)). by apply Ok_eq in H as <-. Qed.

Lemma prefill_event_core s v r s' : prefill_event s v r = Ok s' → same_core s s' ∧ run s' = run s ∧ ended s' = ended s.
Proof. unfold prefill_event. intros H. repeat (apply bind_Ok in H as (? & _ & H)). by apply Ok_eq in H as <-. Qed.

Lemma parent_event_core s v r s' : parent_event s v r = Ok s' → same_core s s' ∧ run s' = run s ∧ ended s' = ended s.
Proof. unfold parent_event. intros H. repeat (apply bind_Ok in H as (? & _ & H)). by apply Ok_eq in H as <-. Qed.

Lemma owner_event_core s v r s' : owner_event s v r = Ok s' → same_core s s' ∧ run s' = run s ∧ ended s' = ended s.
Proof.
  unfold owner_event. intros H. destruct (run s) eqn:Er; [|done]. do 3 (apply bind_Ok in H as (? & _ & H)).
  destruct (zget _ _); [|done]. repeat (apply bind_Ok in H as (? & _ & H)). by apply Ok_eq in H as <-.
Qed.

Lemma run_end_event_core s r s' : run_end_event graph s r = Ok s' → same_core s s' ∧ run s' = run s ∧ ended s' = true.
Proof. unfold run_end_event. intros H. repeat (apply bind_Ok in H as (? & _ & H)). by apply Ok_eq in H as <-. Qed.

Lemma int_test_eq r key v : int_test r key (fun z => z =? v) = Ok true → integer r key = Ok v.
Proof. by intros (z & Hz & ->%Z.eqb_eq)%int_test_Ok. Qed.

Lemma last_phase_Ok r rows : same_last_phase r rows = Ok true → ∃ p key, last rows = Some p ∧ phase_key p = Ok key ∧ phase_key r = Ok key.
Proof.
  unfold same_last_phase. destruct (last rows) as [p|]; [|done]. intros (key & ? & ?)%same_phase_Ok. by exists p, key.
Qed.

Lemma phase_event_inv s r s' : phase_event graph s r = Ok s' → life_inv s → life_inv s' ∧ run s' = run s ∧ ended s' = ended s.
Proof.
  unfold phase_event. intros H. apply bind_Ok in H as ([] & _ & H). apply bind_Ok in H as ([] & Hg%require_m_Ok & H).
  apply bind_Ok in H as ([] & Hp%require_m_Ok & <-%Ok_eq).
  do 4 (apply and_then_Ok_true in Hg as [? Hg]). apply Ok_eq, Z.eqb_eq in Hg.
  apply and_then_Ok_true in Hp as [_ Hp]. apply bind_Ok in Hp as (m & Hm%at_index_Ok & (key & Hr & Hk)%same_phase_Ok).
  assert (Hord : integer r "phase_ordinal" = Ok (count (phases s))) by (by apply int_test_eq).
  assert (Ha : active s = None) by (destruct (active s); done).
  intros [(ws & Hd & Hc & Hb & Hw & Hsw) He Hcur Hph Hsa Hco Hact]. split; [|done]. unfold count in *. split; cbn.
  - exists ws. split_and!; try done. eapply Forall_impl; [exact Hw|]. intros w [Hw1 Hw2]. split.
    + unfold count in *. rewrite length_app. cbn. lia.
    + intros index (g & p & k & ? & ? & ? & ?)%Hw2. exists g, p, k. split_and!; try done. by apply lookup_app_l_Some.
  - done.
  - done.
  - intros i p [Hi|[Hge Hi]]%lookup_app_Some; [by apply Hph|]. apply list_lookup_singleton_Some in Hi as [Hz <-].
    assert (i = length (phases s)) as -> by lia. split; [done|]. exists m, key. rewrite Nat2Z.id in Hm. done.
  - intros i x (Hi & p & k & ? & ? & ?)%Hsa. split; [done|]. exists p, k. split_and!; try done. by apply lookup_app_l_Some.
  - unfold count. rewrite length_app. cbn. lia.
  - by rewrite Ha.
Qed.

Lemma request_event_inv s v r s' : request_event s v r = Ok s' → life_inv s → life_inv s' ∧ run s' = run s ∧ ended s' = ended s.
Proof.
  unfold request_event. intros H. apply bind_Ok in H as ([] & _ & H). apply bind_Ok in H as ([] & Hg%require_m_Ok & <-%Ok_eq).
  apply and_then_Ok_true in Hg as [Hg _]. apply Ok_eq in Hg. z_props.
  intros [(ws & Hd & Hc & Hb & Hw & Hsw) He Hcur Hph Hsa Hco Hact]. split; [|done]. split; cbn; try done.
  assert (Hws : ws = []) by (destruct ws; [done|unfold count in *; cbn in *; lia]). subst ws.
  exists []. split_and!; [done..| |done|done]. rewrite Hb. by destruct (request_started s).
Qed.

Lemma begin_event_inv s v r s' : begin_event s v r = Ok s' → life_inv s → life_inv s' ∧ run s' = run s ∧ ended s' = ended s.
Proof.
  unfold begin_event. intros H. apply bind_Ok in H as ([] & _ & H). apply bind_Ok in H as ([] & Hg%require_m_Ok & H).
  apply bind_Ok in H as (? & _ & H). apply bind_Ok in H as ([] & _ & <-%Ok_eq).
  do 4 (apply and_then_Ok_true in Hg as [? Hg]). apply last_phase_Ok in Hg.
  intros []. split; [|done]. split; cbn; try done. by intros ? [= <-].
Qed.

Lemma sample_event_inv s r s' : sample_event s r = Ok s' → life_inv s → life_inv s' ∧ run s' = run s ∧ ended s' = ended s.
Proof.
  unfold sample_event. intros H. apply bind_Ok in H as ([] & _ & H). apply bind_Ok in H as ([] & Hg%require_m_Ok & <-%Ok_eq).
  apply and_then_Ok_true in Hg as [_ Hg]. apply and_then_Ok_true in Hg as [Hidx%int_test_eq Hg].
  apply and_then_Ok_true in Hg as [Hc%Ok_eq%Z.eqb_eq Hg]. apply and_then_Ok_true in Hg as [_ Hg].
  apply and_then_Ok_true in Hg as [(v & Hv & Hv1%Z.eqb_eq)%int_test_Ok Hg]. apply and_then_Ok_true in Hg as [Hgend%int_test_eq Hg].
  apply last_phase_Ok in Hg as (p & key & Hp & Hk & Hr).
  intros [(ws & Hd & Hct & Hb & Hw & Hsw) He Hcur Hph Hsa Hco Hact]. split; [|done]. unfold count in *. split; cbn; try done.
  - exists ws. split_and!; try done. intros i x [Hi|[_ Hi]]%lookup_app_Some; [by eapply Hsw|].
    apply list_lookup_singleton_Some in Hi as [_ <-]. pose proof Hv as [_ Hv0]%integer_Ok.
    destruct ws as [|w ws _] using rev_ind; [cbn in Hd; lia|]. rewrite length_app in Hd. cbn in Hd.
    exists (length ws), w. split; [rewrite Hv; f_equal; lia|]. split; [by apply list_lookup_middle|].
    by rewrite (contiguous_last _ _ _ _ Hct).
  - intros i x [Hi|[Hge Hi]]%lookup_app_Some; [by apply Hsa|]. apply list_lookup_singleton_Some in Hi as [Hz <-].
    assert (i = length (samples s)) as -> by lia. split; [done|]. exists p, key. split_and!; try done.
    rewrite last_lookup in Hp. rewrite <-Hp. f_equal. lia.
  - unfold count. rewrite length_app. cbn. lia.
Qed.

Lemma end_event_inv s r s' : end_event graph names s r = Ok s' → life_inv s → life_inv s' ∧ run s' = run s ∧ ended s' = ended s.
Proof.
  unfold end_event. intros H. apply bind_Ok in H as ([] & _ & H). apply bind_Ok in H as ([] & Hg%require_m_Ok & H).
  apply bind_Ok in H as (finish & _ & H). apply bind_Ok in H as ([] & Hf%check_Ok_any & H). cbv zeta in H.
  apply bind_Ok in H as (w & Hw & <-%Ok_eq). z_props. do 4 (apply and_then_Ok_true in Hg as [? Hg]).
  destruct (active s) as [begin|] eqn:Ha; [|done]. apply same_phase_Ok in Hg as (key & Hr & Hk).
  apply window_ok in Hw as (E & N & B & P & G). cbn in E, N, B, P, G.
  intros [(ws & Hd & Hc & Hb & Hwp & Hsw) [He Hnd] Hcur Hph Hsa Hco Hact]. split; [|done].
  destruct (Hact begin Ha) as (p & key' & Hp & Hkp & Hkb). rewrite Hk in Hkb. apply Ok_eq in Hkb as <-.
  assert (Hlen : (0 < length (phases s))%nat) by (destruct (phases s); [done|cbn; lia]).
  set (v := {| d_phase := count (phases s) - 1; d_begin := cursor s; d_end := finish |}).
  split; cbn; try done.
  - exists (ws ++ [v]). split_and!.
    + unfold count in *. rewrite length_app. cbn. lia.
    + by eapply (contiguous_snoc ws v 0 (cursor s)).
    + rewrite B, P, Hb, imap_app, concat_app. cbn [imap concat]. rewrite app_nil_r, Nat.add_0_r. unfold dispatch_rows.
      rewrite Hd. unfold v, window_graphs, count. cbn [d_phase d_begin d_end].
      rewrite <-!(assoc_L (++)). do 2 f_equal. cbn. f_equal. f_equal.
      destruct (length ws) as [|n]; [done|]. destruct (Z.eqb_spec (Z.of_nat (S n)) 0); [lia|]. do 2 f_equal. lia.
    + apply Forall_app. split; [done|]. constructor; [|constructor]. split; [unfold v, count; cbn [d_phase]; lia|].
      intros index (g & k & Hg1 & Hg2 & Hg3)%G. exists g, p, k. split_and!; try done; [|congruence].
      rewrite last_lookup in Hp. rewrite <-Hp. f_equal. unfold v, count. cbn [d_phase]. lia.
    + intros i x (d & u & ? & ? & ?)%Hsw. exists d, u. split_and!; [done|by apply lookup_app_l_Some|done].
  - split; [|auto]. rewrite E, He, <-concat_app, <-map_app. f_equal. f_equal.
    replace (seqZ 0 finish) with (seqZ 0 (cursor s + (finish - cursor s))) by (f_equal; lia).
    rewrite seqZ_app by lia. done.
  - lia.
Qed.

Lemma lifecycle_step_inv s e s' : lifecycle_step graph names s e = Ok s' → life_inv s → life_inv s'.
Proof.
  destruct e as [i r]. unfold lifecycle_step, event. intros H Hs. apply bind_Ok in H as (v & _ & H).
  apply bind_Ok in H as ([] & _ & H). apply bind_Ok in H as (kind & _ & H).
  repeat case_match; try done.
  - apply run_event_core in H as [H _]. by eapply core_inv.
  - by apply phase_event_inv in H as [? _].
  - by apply request_event_inv in H as [? _].
  - apply prefill_event_core in H as [H _]. by eapply core_inv.
  - by apply begin_event_inv in H as [? _].
  - by apply end_event_inv in H as [? _].
  - by apply sample_event_inv in H as [? _].
  - apply parent_event_core in H as [H _]. by eapply core_inv.
  - apply owner_event_core in H as [H _]. by eapply core_inv.
  - apply run_end_event_core in H as [H _]. by eapply core_inv.
Qed.
End Invariant.

(** ** The history of the events *)

Definition is_event (kind : string) (r : record) : bool := eq_str (pget r "kind") kind.
Definition of_kind (kind : string) (l : list record) : list record := List.filter (is_event kind) l.

Section History.
Context (graph : Manifest) (names : list (list string)).

(** What one event did to the variables the history is about. *)
Inductive effect (first : bool) (s : State) (r : record) (s' : State) : Prop :=
  | ePhase : is_event "PHASE" r = true → active s = None → active s' = None → phases s' = phases s ++ [r] →
      samples s' = samples s → dispatches s' = dispatches s → cursor s' = cursor s → ended s' = false → effect first s r s'
  | eSample : is_event "SAMPLE" r = true → active s = None → active s' = None → phases s' = phases s →
      samples s' = samples s ++ [r] → integer r "sample_index" = Ok (count (samples s)) →
      dispatches s' = dispatches s → cursor s' = cursor s → ended s' = false → effect first s r s'
  | eBegin : is_event "DISPATCH_BEGIN" r = true → active s = None → active s' = Some r → phases s' = phases s →
      samples s' = samples s → integer r "dispatch_id" = Ok (dispatches s) → integer r "graph_begin" = Ok (cursor s) →
      dispatches s' = dispatches s → cursor s' = cursor s → ended s' = false → effect first s r s'
  | eEnd b finish : is_event "DISPATCH_END" r = true → active s = Some b → active s' = None → phases s' = phases s →
      samples s' = samples s → integer r "dispatch_id" = Ok (dispatches s) → integer r "graph_end" = Ok finish →
      cursor s < finish → ended s' = false → effect first s r s'
  | eOther : is_event "PHASE" r = false → is_event "SAMPLE" r = false → is_event "DISPATCH_BEGIN" r = false →
      active s = None ∨ first = true → active s' = active s → phases s' = phases s → samples s' = samples s →
      dispatches s' = dispatches s → cursor s' = cursor s →
      (ended s' = true → is_event "RUN_END" r = true) → effect first s r s'.

Lemma is_event_other a b r : a ≠ b → is_event a r = true → is_event b r = false.
Proof.
  unfold is_event. intros Hne E%eq_str_spec. rewrite E. unfold eq_str. cbn. by apply String.eqb_neq.
Qed.

Lemma none_true {A} (o : option A) : none o = true → o = None.
Proof. by destruct o. Qed.

Lemma lifecycle_step_effect i s r s' : lifecycle_step graph names s (i, r) = Ok s' → effect (Nat.eqb i 0) s r s'.
Proof.
  unfold lifecycle_step, event. intros H. apply bind_Ok in H as (v & _ & H).
  apply bind_Ok in H as ([] & Hf%require_m_Ok & H). apply bind_Ok in H as (kind & Hkind & H).
  unfold framing in Hf. apply and_then_Ok_true in Hf as [Hend%Ok_eq%negb_true_iff _]. apply pget_item in Hkind. subst kind.
  repeat match type of H with (if eq_str _ ?k then _ else _) = _ => destruct (eq_str (pget r "kind") k) eqn:?E end; try done.
  all: match goal with E : eq_str _ ?k = true |- _ => change (is_event k r = true) in E; rename E into Hev end.
  - unfold run_event in H. apply bind_Ok in H as ([] & _ & H). apply bind_Ok in H as ([] & Hs%require_m_Ok & H).
    apply and_then_Ok_true in Hs as [Hs%Ok_eq%Z.eqb_eq _]. repeat (apply bind_Ok in H as (? & _ & H)). apply Ok_eq in H as <-.
    apply eOther; cbn; try done; try (eapply is_event_other; [|exact Hev]; done); [right; destruct i; [done|lia]|congruence].
  - unfold phase_event in H. apply bind_Ok in H as ([] & _ & H).
    apply bind_Ok in H as ([] & Hs%require_m_Ok & H). apply bind_Ok in H as ([] & _ & <-%Ok_eq).
    apply and_then_Ok_true in Hs as [_ Hs]. apply and_then_Ok_true in Hs as [Ha%Ok_eq%none_true _].
    by apply ePhase.
  - unfold request_event in H. apply bind_Ok in H as ([] & _ & H). apply bind_Ok in H as ([] & Hs%require_m_Ok & <-%Ok_eq).
    apply and_then_Ok_true in Hs as [Hs%Ok_eq _]. z_props.
    apply eOther; cbn; try done; try (eapply is_event_other; [|exact Hev]; done); [left; by apply none_true|congruence].
  - unfold prefill_event in H. apply bind_Ok in H as ([] & _ & H). apply bind_Ok in H as ([] & Hs%require_m_Ok & H).
    do 3 (apply bind_Ok in H as (? & _ & H)). apply Ok_eq in H as <-. apply and_then_Ok_true in Hs as [Hs%Ok_eq _]. z_props.
    apply eOther; cbn; try done; try (eapply is_event_other; [|exact Hev]; done); [left; by apply none_true|congruence].
  - unfold begin_event in H. apply bind_Ok in H as ([] & _ & H). apply bind_Ok in H as ([] & Hs%require_m_Ok & H).
    apply bind_Ok in H as (? & _ & H). apply bind_Ok in H as ([] & _ & <-%Ok_eq).
    apply and_then_Ok_true in Hs as [_ Hs]. apply and_then_Ok_true in Hs as [Ha%Ok_eq%none_true Hs].
    apply and_then_Ok_true in Hs as [Hd%int_test_eq Hs]. apply and_then_Ok_true in Hs as [Hg%int_test_eq _].
    by apply eBegin.
  - unfold end_event in H. apply bind_Ok in H as ([] & _ & H). apply bind_Ok in H as ([] & Hs%require_m_Ok & H).
    apply bind_Ok in H as (finish & Hfin & H). apply bind_Ok in H as ([] & Hb%check_Ok_any & H). cbv zeta in H.
    apply bind_Ok in H as (w & _ & <-%Ok_eq). z_props.
    apply and_then_Ok_true in Hs as [_ Hs]. apply and_then_Ok_true in Hs as [Hd%int_test_eq Hs].
    do 2 (apply and_then_Ok_true in Hs as [_ Hs]). destruct (active s) as [b|] eqn:Ha; [|done]. by eapply eEnd.
  - unfold sample_event in H. apply bind_Ok in H as ([] & _ & H). apply bind_Ok in H as ([] & Hs%require_m_Ok & <-%Ok_eq).
    apply and_then_Ok_true in Hs as [Ha%Ok_eq Hs]. apply and_then_Ok_true in Hs as [Hi%int_test_eq _].
    apply andb_prop in Ha as [Ha%none_true _]. by apply eSample.
  - pose proof H as (_ & _ & Hen)%parent_event_core. pose proof H as ((? & ? & ? & ? & ? & ? & ? & ?) & _)%parent_event_core.
    unfold parent_event in H. apply bind_Ok in H as ([] & Hs%require_m_Ok & _). apply and_then_Ok_true in Hs as [Hs%Ok_eq _]. z_props.
    apply eOther; try done; try (eapply is_event_other; [|exact Hev]; done); [left; by apply none_true|congruence].
  - pose proof H as (_ & _ & Hen)%owner_event_core. pose proof H as ((? & ? & ? & ? & ? & ? & ? & ?) & _)%owner_event_core.
    unfold owner_event in H. destruct (run s); [|done]. apply bind_Ok in H as ([] & Hs%require_m_Ok & _).
    apply and_then_Ok_true in Hs as [Hs%Ok_eq _]. z_props.
    apply eOther; try done; try (eapply is_event_other; [|exact Hev]; done); [left; by apply none_true|congruence].
  - pose proof H as ((? & ? & ? & ? & ? & ? & ? & ?) & _ & Hen)%run_end_event_core.
    unfold run_end_event in H. apply bind_Ok in H as ([] & _ & H). apply bind_Ok in H as ([] & Hs%require_m_Ok & _).
    apply and_then_Ok_true in Hs as [Hs%Ok_eq _]. z_props.
    apply eOther; try done; try (eapply is_event_other; [|exact Hev]; done). left. by apply none_true.
Qed.
(** A dispatch that began has ended with the next event. *)
Definition dispatch_ended (l : list record) (i : nat) (r : record) : Prop := ∃ r' d begin finish,
  l !! S i = Some r' ∧ is_event "DISPATCH_END" r' = true ∧ integer r "dispatch_id" = Ok d ∧ integer r' "dispatch_id" = Ok d ∧
  integer r "graph_begin" = Ok begin ∧ integer r' "graph_end" = Ok finish ∧ begin < finish.

(** A phase was sampled after it started. *)
Definition phase_sampled (l : list record) (i : nat) (n : Z) : Prop := ∃ j r',
  (i < j)%nat ∧ l !! j = Some r' ∧ is_event "SAMPLE" r' = true ∧ integer r' "sample_index" = Ok n.

Record told (pre : list record) (s : State) : Prop := {
  to_samples : samples s = of_kind "SAMPLE" pre;
  to_phases : phases s = of_kind "PHASE" pre;
  to_active : ∀ r, active s = Some r → last pre = Some r ∧ is_event "DISPATCH_BEGIN" r = true ∧
    integer r "dispatch_id" = Ok (dispatches s) ∧ integer r "graph_begin" = Ok (cursor s);
  to_dispatch : ∀ i r, pre !! i = Some r → is_event "DISPATCH_BEGIN" r = true →
    (S i = length pre ∧ active s = Some r) ∨ dispatch_ended pre i r;
  to_phase : ∀ i r n, pre !! i = Some r → is_event "PHASE" r = true → integer r "phase_ordinal" = Ok n →
    n < count (samples s) → phase_sampled pre i n;
  to_ended : ended s = true → ∃ r, last pre = Some r ∧ is_event "RUN_END" r = true;
}.

Lemma start_told : told [] start.
Proof. by split. Qed.

Lemma of_kind_snoc k pre r : of_kind k (pre ++ [r]) = of_kind k pre ++ (if is_event k r then [r] else []).
Proof. apply filter_snoc. Qed.

Lemma ended_grows pre x i r : dispatch_ended pre i r → dispatch_ended (pre ++ [x]) i r.
Proof.
  intros (r' & d & b & f & Hl & Hrest). exists r', d, b, f. split; [by apply lookup_app_l_Some|done].
Qed.

Lemma sampled_grows pre x i n : phase_sampled pre i n → phase_sampled (pre ++ [x]) i n.
Proof. intros (j & r' & Hj & Hl & Hrest). exists j, r'. split; [done|]. split; [by apply lookup_app_l_Some|done]. Qed.

(** With no dispatch open, the dispatches begun before have all ended. *)
Lemma told_closed pre s x : told pre s → active s = None ∨ pre = [] → is_event "DISPATCH_BEGIN" x = false →
  ∀ i r, (pre ++ [x]) !! i = Some r → is_event "DISPATCH_BEGIN" r = true → dispatch_ended (pre ++ [x]) i r.
Proof.
  intros Ht Ha Hx i r [Hi|[_ Hi]]%lookup_app_Some Hr.
  - destruct (to_dispatch _ _ Ht i r Hi Hr) as [[_ Hs]|Hs]; [|by apply ended_grows].
    destruct Ha as [Ha| ->]; [congruence|]. by rewrite lookup_nil in Hi.
  - apply list_lookup_singleton_Some in Hi as [_ <-]. congruence.
Qed.

Lemma told_phases_old pre s x : told pre s → is_event "PHASE" x = false →
  ∀ i r n, (pre ++ [x]) !! i = Some r → is_event "PHASE" r = true → integer r "phase_ordinal" = Ok n →
    n < count (samples s) → phase_sampled (pre ++ [x]) i n.
Proof.
  intros Ht Hx i r n [Hi|[_ Hi]]%lookup_app_Some Hr Hn Hc; [eapply sampled_grows, to_phase; [done|exact Hi|done..]|].
  apply list_lookup_singleton_Some in Hi as [_ <-]. congruence.
Qed.

Lemma told_step pre r s s' : life_inv graph names s → life_inv graph names s' → told pre s →
  lifecycle_step graph names s (length pre, r) = Ok s' → told (pre ++ [r]) s'.
Proof.
  intros Hinv Hinv' Ht H%lifecycle_step_effect.
  assert (Hfirst : active s = None ∨ Nat.eqb (length pre) 0 = true → active s = None ∨ pre = []).
  { intros [?|Hl]; [by left|right]. by destruct pre. }
  destruct H as [Hev Ha Ha' Hp Hs _ _ He|Hev Ha Ha' Hp Hs Hidx _ _ He|Hev Ha Ha' Hp Hs Hd Hg Hd' Hg' He
    |b finish Hev Ha Ha' Hp Hs Hd Hg Hlt He|H1 H2 H3 Ha Ha' Hp Hs Hd Hg He].
  - split; rewrite ?Hs, ?Hp, ?Ha', ?of_kind_snoc, ?Hev, ?(is_event_other "PHASE" "SAMPLE" r) by done.
    + rewrite app_nil_r. apply Ht.
    + by rewrite (to_phases _ _ Ht).
    + done.
    + intros i x Hi Hx. right. eapply told_closed; [done|by left|by apply (is_event_other "PHASE")|done..].
    + intros i x n [Hi|[Hge Hi]]%lookup_app_Some Hx Hn Hc; [eapply sampled_grows, to_phase; [done|exact Hi|done..]|].
      apply list_lookup_singleton_Some in Hi as [_ <-]. exfalso.
      assert (Hl : phases s' !! length (phases s) = Some r) by (rewrite Hp; by apply list_lookup_middle).
      destruct (li_phases _ _ _ Hinv' _ _ Hl) as [Hn' _]. rewrite Hn in Hn'. apply Ok_eq in Hn'.
      pose proof (li_counts _ _ _ Hinv). unfold count in *. lia.
    + congruence.
  - split; rewrite ?Hs, ?Hp, ?Ha', ?of_kind_snoc, ?Hev, ?(is_event_other "SAMPLE" "PHASE" r) by done.
    + by rewrite (to_samples _ _ Ht).
    + rewrite app_nil_r. apply Ht.
    + done.
    + intros i x Hi Hx. right. eapply told_closed; [done|by left|by apply (is_event_other "SAMPLE")|done..].
    + intros i x n Hi Hx Hn Hc. unfold count in Hc. rewrite length_app in Hc. cbn in Hc.
      destruct (decide (n < count (samples s))) as [Hlt|Hge].
      { eapply told_phases_old; [done|by apply (is_event_other "SAMPLE")|exact Hi|done..]. }
      assert (n = count (samples s)) as -> by (unfold count in *; lia). exists (length pre), r. split_and!; try done.
      * apply lookup_app_Some in Hi as [Hi|[_ Hi]]; [by apply lookup_lt_Some in Hi|].
        apply list_lookup_singleton_Some in Hi as [_ <-]. apply (is_event_other "SAMPLE" "PHASE") in Hev; [congruence|done].
      * by apply list_lookup_middle.
    + congruence.
  - split; rewrite ?Hs, ?Hp, ?Ha', ?of_kind_snoc, ?(is_event_other "DISPATCH_BEGIN" "PHASE" r), ?(is_event_other "DISPATCH_BEGIN" "SAMPLE" r), ?app_nil_r by done.
    + apply Ht.
    + apply Ht.
    + intros x [= <-]. rewrite last_snoc, Hd', Hg'. done.
    + intros i x [Hi|[Hge Hi]]%lookup_app_Some Hx.
      * right. destruct (to_dispatch _ _ Ht i x Hi Hx) as [[_ Hs']|Hs']; [congruence|by apply ended_grows].
      * apply list_lookup_singleton_Some in Hi as [Hz <-]. left. split; [|done]. rewrite length_app. cbn. lia.
    + intros i x n. eapply told_phases_old; [done|]. by apply (is_event_other "DISPATCH_BEGIN").
    + congruence.
  - split; rewrite ?Hs, ?Hp, ?Ha', ?of_kind_snoc, ?(is_event_other "DISPATCH_END" "PHASE" r), ?(is_event_other "DISPATCH_END" "SAMPLE" r), ?app_nil_r by done.
    + apply Ht.
    + apply Ht.
    + done.
    + intros i x [Hi|[Hge Hi]]%lookup_app_Some Hx.
      * right. destruct (to_dispatch _ _ Ht i x Hi Hx) as [[Hl Hs']|Hs']; [|by apply ended_grows].
        destruct (to_active _ _ Ht x Hs') as (_ & _ & Hxd & Hxg). exists r, (dispatches s), (cursor s), finish.
        split_and!; try done. rewrite Hl. by apply list_lookup_middle.
      * apply list_lookup_singleton_Some in Hi as [_ <-]. apply (is_event_other "DISPATCH_END" "DISPATCH_BEGIN") in Hev; [congruence|done].
    + intros i x n. eapply told_phases_old; [done|]. by apply (is_event_other "DISPATCH_END").
    + congruence.
  - split; rewrite ?Hs, ?Hp, ?Ha', ?of_kind_snoc, ?H1, ?H2, ?app_nil_r.
    + apply Ht.
    + apply Ht.
    + intros x Hx. destruct (Hfirst Ha) as [Hn| ->]; [congruence|]. apply (to_active _ _ Ht) in Hx as [Hx _]. done.
    + intros i x Hi Hx. right. eapply told_closed; [done|by apply Hfirst|done..].
    + intros i x n. by eapply told_phases_old.
    + intros He'. exists r. rewrite last_snoc. split; [done|by apply He].
Qed.
End History.

(** ** An accepted lifecycle *)

Record accepted (graph : Manifest) (events : list record) (names : list (list string)) (s : State) (p : LifecycleProjection) : Prop := {
  ac_names : map_res graph_names (graphs graph) = Ok names;
  ac_inv : life_inv graph names s;
  ac_told : told events s;
  ac_closed : active s = None;
  ac_ended : ended s = true;
  ac_cursor : cursor s = count (graphs graph);
  ac_phases : count (phases s) = count (Manifest.phases graph);
  ac_steps : map_res (application_step graph names s) (numbered (samples s)) = Ok (application_steps p);
  ac_entries : entry_dependencies p = entries s;
  ac_barriers : barriers p = st_barriers s;
  ac_samples : expected_samples p = count (samples s);
  ac_request : ∀ row, run s = Some row → is_pipeline row = Ok true → request_started s = true;
}.

(** The run ended in the state before its [RUN_END] event. *)
Lemma run_end_facts graph s r s' : run_end_event graph s r = Ok s' →
  active s = None ∧ cursor s = count (graphs graph) ∧ count (phases s) = count (Manifest.phases graph).
Proof.
  unfold run_end_event. intros H. apply bind_Ok in H as ([] & _ & H). apply bind_Ok in H as ([] & Hs%require_m_Ok & _).
  apply and_then_Ok_true in Hs as [Ha%Ok_eq Hs]. do 3 (apply and_then_Ok_true in Hs as [_ Hs]).
  apply and_then_Ok_true in Hs as [Hp Hs]. apply and_then_Ok_true in Hs as [_ Hg].
  apply int_test_Ok in Hp as (z & _ & Hp). apply int_test_Ok in Hg as (y & _ & Hg). z_props. split_and!; [by apply none_true|lia..].
Qed.

(** What holds of a state once it has ended. *)
Definition finished (graph : Manifest) (s : State) : Prop := ended s = true →
  active s = None ∧ cursor s = count (graphs graph) ∧ count (phases s) = count (Manifest.phases graph).

Lemma step_finished graph names s e s' : finished graph s → lifecycle_step graph names s e = Ok s' → finished graph s'.
Proof.
  destruct e as [i r]. intros Hs H He. pose proof H as Heff%lifecycle_step_effect.
  assert (Hev : is_event "RUN_END" r = true).
  { destruct Heff; try congruence. by auto. }
  unfold lifecycle_step, event in H. apply bind_Ok in H as (v & _ & H). apply bind_Ok in H as ([] & _ & H).
  apply bind_Ok in H as (kind & Hk%pget_item & H). subst kind. unfold is_event in Hev. apply eq_str_spec in Hev. rewrite Hev in H.
  change (run_end_event graph s r = Ok s') in H. pose proof H as (? & ? & ?)%run_end_facts.
  apply run_end_event_core in H as ((E1 & E2 & E3 & E4 & E5 & E6 & E7 & E8) & _). rewrite E4, E6, E7. done.
Qed.

Lemma project_lifecycle_ok graph events p : project_lifecycle graph events = Ok p → ∃ names s, accepted graph events names s p.
Proof.
  unfold project_lifecycle, graph_operations. intros (names & Hnames & H)%bind_Ok. apply bind_Ok in H as (s & Hf & H).
  apply bind_Ok in H as ([] & He%check_Ok_any & H). apply bind_Ok in H as ([] & Hr & H).
  apply bind_Ok in H as (steps & Hsteps & <-%Ok_eq). apply andb_prop in He as [He _].
  assert (Hall : life_inv graph names s ∧ told events s ∧ finished graph s).
  { rewrite <-(numbered_snd events). revert Hf.
    apply (fold_res_hist (fun pre s => life_inv graph names s ∧ told pre.*2 s ∧ finished graph s)).
    - split; [apply start_inv|]. split; [apply start_told|done].
    - intros pre [i r] post s1 s2 Hl (Hi & Ht & Hfi) Hstep. apply numbered_split in Hl as (-> & _ & _).
      assert (Hi' : life_inv graph names s2) by (by eapply lifecycle_step_inv). split; [done|].
      split; [|by eapply step_finished]. rewrite fmap_app. eapply told_step; [exact Hi|done|done|]. by rewrite length_fmap. }
  destruct Hall as (Hi & Ht & Hfi). destruct (Hfi He) as (Ha & Hc & Hp). exists names, s. split; try done.
  intros row Hrow Hpipe. rewrite Hrow, Hpipe in Hr. cbn [mbind res_bind] in Hr. apply check_Ok_any, andb_prop in Hr as [Hr _]. done.
Qed.

(** C13: The projection of an accepted lifecycle is determined by its dispatches,
    consecutive windows of graphs that cover every graph of the run once: a
    dispatch begins after the previous one ended, runs its graphs one after the
    other, each in the phase it belongs to, and ends after the last; a graph ends
    after all its operations; and every operation of the run is entered after
    the begin of its graph, exactly once. *)
Theorem lifecycle_projected graph events p : project_lifecycle graph events = Ok p →
  ∃ names windows started, map_res graph_names (graphs graph) = Ok names ∧
    contiguous 0 windows (count (graphs graph)) ∧
    barriers p = request_rows started ++ concat (imap (dispatch_rows names) windows) ∧
    entry_dependencies p = concat (map (entry_rows names) (seqZ 0 (count (graphs graph)))) ∧
    NoDup (entry_dependencies p).*1 ∧
    ∀ w index, w ∈ windows → index ∈ window_graphs w → ∃ g m key,
      graphs graph !! Z.to_nat index = Some g ∧ Manifest.phases graph !! Z.to_nat (d_phase w) = Some m ∧
      phase_key g = Ok key ∧ phase_key m = Ok key.
Proof.
  intros (names & s & [Hn [(ws & _ & Hc & Hb & Hw & _) [He Hnd] _ Hp _ _ _] _ _ _ Hcur _ _ Hen Hba _ _])%project_lifecycle_ok.
  exists names, ws, (request_started s). rewrite Hba, Hen, Hb, He, <-Hcur. split_and!; try done; [congruence|].
  intros w index Hin Hidx. rewrite Forall_forall in Hw. destruct (Hw w Hin) as [_ Hg].
  destruct (Hg index Hidx) as (g & q & key & Hg1 & Hq & Hk1 & Hk2). destruct (Hp _ _ Hq) as [_ (m & key' & Hm & Hk3 & Hk4)].
  exists g, m, key. split_and!; try done. congruence.
Qed.

(** C12: Everything an accepted lifecycle starts comes to its end: a dispatch is
    ended, with at least one graph, by the event after the one that began it; a
    phase whose index is below the number of samples is sampled later; and the
    last event is the end of the run. *)
Theorem lifecycle_completes graph events p : project_lifecycle graph events = Ok p →
  (∀ i r, events !! i = Some r → is_event "DISPATCH_BEGIN" r = true → dispatch_ended events i r) ∧
  (∀ i r n, events !! i = Some r → is_event "PHASE" r = true → integer r "phase_ordinal" = Ok n →
     n < expected_samples p → phase_sampled events i n) ∧
  ∃ r, last events = Some r ∧ is_event "RUN_END" r = true.
Proof.
  intros (names & s & [_ _ [_ _ _ Hd Hp He] Ha Hend _ _ _ _ _ Hs _])%project_lifecycle_ok. rewrite Hs. split_and!; [|done|auto].
  intros i r Hi Hr. destruct (Hd i r Hi Hr) as [[_ Hact]|Hact]; [congruence|done].
Qed.

(** The decode after a sample was fed one token, with the fingerprint of the
    sampled token. *)
Lemma sampled_input graph events p i r token : project_lifecycle graph events = Ok p →
  of_kind "SAMPLE" events !! i = Some r → integer r "token_id" = Ok token → Z.of_nat (S i) < expected_samples p →
  ∃ m, Manifest.phases graph !! S i = Some m ∧ jeq (pget m "input_tokens") (JInt 1) = true ∧
    pget m "token_fingerprint" = JStr (token_fingerprint token).
Proof.
  intros (names & s & [_ _ Ht _ _ _ _ Hsteps _ _ Hs _])%project_lifecycle_ok Hi Htok Hlt.
  rewrite <-(to_samples _ _ Ht) in Hi. apply map_res_Ok in Hsteps.
  assert (Hnum : numbered (samples s) !! i = Some (i, r)).
  { unfold numbered. apply lookup_zip_Some. split; [|done]. cbn. apply lookup_seq. split; [lia|]. by eapply lookup_lt_Some. }
  destruct (Forall2_lookup_l _ _ _ _ _ Hsteps Hnum) as (step & _ & H). unfold application_step in H.
  rewrite Hs in Hlt. unfold count in Hlt. destruct (Nat.ltb_spec (i + 1) (length (samples s))); [|lia].
  apply bind_Ok in H as (succ & H & _). apply bind_Ok in H as (m & Hm%at_index_Ok & H).
  apply bind_Ok in H as ([] & Hc%require_m_Ok & _). apply and_then_Ok_true in Hc as [H1 H2].
  apply bind_Ok in H1 as (inp & Hinp%pget_item & H1%Ok_eq). apply bind_Ok in H2 as (f & Hf%pget_item & H2).
  rewrite Htok in H2. apply bind_Ok in H2 as (t & <-%Ok_eq & H2%Ok_eq%eq_str_spec). subst f.
  replace (Z.to_nat (Z.of_nat i + 1)) with (S i) in Hm by lia. exists m. by rewrite Hinp.
Qed.

(** The sampled tokens are the tokens the following decodes were fed: the
    input of the decode after sample [i] is one token, its fingerprint is that
    of the sampled token, and no other 32-bit token has this fingerprint. *)
Theorem lifecycle_trajectory graph events p i r token : project_lifecycle graph events = Ok p →
  of_kind "SAMPLE" events !! i = Some r → integer r "token_id" = Ok token → Z.of_nat (S i) < expected_samples p →
  ∃ m, Manifest.phases graph !! S i = Some m ∧ jeq (pget m "input_tokens") (JInt 1) = true ∧
    pget m "token_fingerprint" = JStr (token_fingerprint token) ∧
    ∀ other, pget m "token_fingerprint" = JStr (token_fingerprint other) → other mod 2 ^ 32 = token mod 2 ^ 32.
Proof.
  intros Hp Hi Ht Hlt. destruct (sampled_input _ _ _ _ _ _ Hp Hi Ht Hlt) as (m & Hm & Hin & Hf). exists m.
  split_and!; try done. intros other Ho. apply fingerprint_inj. congruence.
Qed.
