(* ===== verification/Forced.v ===== *)
(** * Forced runs and their pairing

    A FullCPU run may be forced along the tokens a PoTal run sampled, so that
    both cost the same trajectory.  [sim/cycle/execution_forced_lifecycle.py]
    checks the lifecycle of the forced run against the expected tokens, and
    [sim/cycle/reconstruct_pairing.py] the provenance of the two runs and the
    inputs of their phases. *)
From S2P Require Import Prelude Records TraceSchema Manifest PipelineContract Lifecycle ManifestTheorems.
From S2P Require Import ExecutionIR LifecycleTheorems.
Set Default Goal Selector "!".

(** ** The lifecycle of a forced run *)

Definition PAPER_FORCED_TOKENS : Z := 128.
Definition DIAGNOSTIC_SMOKE_FORCED_TOKENS : Z := 1.

Record ForcedState := {
  tokens : list Z;
  fl_phases : list record;
  fl_active : option record;
  fl_cursor : Z;
  fl_dispatches : Z;
  fl_ended : bool;
  started : bool;
}.
Definition forced_start : ForcedState := {|
  tokens := []; fl_phases := []; fl_active := None; fl_cursor := 0; fl_dispatches := 0; fl_ended := false; started := false |}.

Section Forced.
Context (graph : Manifest) (generated : Z).

Definition forced_producer : res record := let* value := item (Manifest.run graph) "producer" in object_value value.

Definition forced_scope (producer : record) : res bool :=
  test_item (Manifest.run graph) "source_role" (fun v => eq_str v "FULL_CPU") andM
  Ok (eq_str (pget producer "execution_kind") "FORCED_CPU_COST_ONLY" && eq_str (pget producer "trajectory_source") "POTAL" &&
      z_in generated [PAPER_FORCED_TOKENS; DIAGNOSTIC_SMOKE_FORCED_TOKENS]) andM
  (let* value := item (Manifest.run graph) "workload" in
   let* workload := object_value value in int_test workload "generated_tokens" (fun v => v =? generated)).

Definition FORCED_RUN_FIELDS : list string :=
  RUN_FIELDS ++ ["execution_kind"; "trajectory_source"; "expected_tokens"; "performance_scope"].

Definition forced_run (producer : record) (s : ForcedState) (sequence : Z) (r : record) : res ForcedState :=
  fields r FORCED_RUN_FIELDS ;;;
  ensure_res (Ok (sequence =? 0) andM test_item r "source_role" (fun v => eq_str v "full_cpu") andM
    item_same r "source_commit" producer "git_commit" andM
    test_item r "execution_kind" (fun v => eq_str v "FORCED_CPU_COST_ONLY") andM
    test_item r "trajectory_source" (fun v => eq_str v "POTAL") andM
    int_test r "expected_tokens" (fun v => v =? generated) andM int_test r "expected_samples" (fun v => v =? 0) andM
    test_item r "performance_scope" (fun v => eq_str v "ORDINARY_CPU_COST_ONLY") andM
    test_item r "target_mode_scope" (fun v => eq_str v "CPU_ONLY") andM
    test_item r "execution_policy" (fun v => eq_str v "blocking-llama-decode-synchronize-v1") andM
    test_item r "graph_policy" (fun v => eq_str v "semantic-session-completes-before-next-graph-v1") andM
    test_item r "operation_exit_policy" (fun v => eq_str v "ALL_MEMBER_COMPLETIONS") andM
    test_item r "requires_binary_manifest_binding" is_true) "invalid forced cost-only producer scope" ;;;
  Ok {| tokens := tokens s; fl_phases := fl_phases s; fl_active := fl_active s; fl_cursor := fl_cursor s;
        fl_dispatches := fl_dispatches s; fl_ended := fl_ended s; started := true |}.

Definition forced_phase (s : ForcedState) (r : record) : res ForcedState :=
  fields r (COMMON ++ ["phase_kind"; "decode_index"; "graph_begin"; "phase_ordinal"]) ;;;
  ensure_res (Ok (started s && none (fl_active s)) andM int_test r "phase_ordinal" (fun v => v =? count (fl_phases s)) andM
    int_test r "graph_begin" (fun v => v =? fl_cursor s) andM
    Ok ((count (tokens s) =? count (fl_phases s)) && (count (fl_phases s) <? count (Manifest.phases graph))) andM
    (let* own := at_index (Manifest.phases graph) (count (fl_phases s)) in same_phase r own))
    "forced semantic phase coverage mismatch" ;;;
  Ok {| tokens := tokens s; fl_phases := fl_phases s ++ [r]; fl_active := fl_active s; fl_cursor := fl_cursor s;
        fl_dispatches := fl_dispatches s; fl_ended := fl_ended s; started := started s |}.

Definition forced_begin (s : ForcedState) (r : record) : res ForcedState :=
  fields r (COMMON ++ ["dispatch_id"; "graph_begin"; "phase_kind"; "decode_index"]) ;;;
  ensure_res (Ok (negb (Nat.eqb (length (fl_phases s)) 0) && none (fl_active s)) andM
    int_test r "dispatch_id" (fun v => v =? fl_dispatches s) andM int_test r "graph_begin" (fun v => v =? fl_cursor s) andM
    same_last_phase r (fl_phases s)) "invalid forced dispatch begin" ;;;
  Ok {| tokens := tokens s; fl_phases := fl_phases s; fl_active := Some r; fl_cursor := fl_cursor s;
        fl_dispatches := fl_dispatches s; fl_ended := fl_ended s; started := started s |}.

(** [graph.graphs[cursor:end]] *)
Definition graph_slice (from upto : Z) : list record := take (Z.to_nat (upto - from)) (drop (Z.to_nat from) (graphs graph)).

Definition forced_end (s : ForcedState) (r : record) : res ForcedState :=
  fields r (COMMON ++ ["dispatch_id"; "graph_end"; "status"; "synchronized"; "phase_kind"; "decode_index"]) ;;;
  ensure_res (Ok (negb (none (fl_active s))) andM int_test r "dispatch_id" (fun v => v =? fl_dispatches s) andM
    int_test r "status" (fun v => v =? 0) andM test_item r "synchronized" is_true andM
    match fl_active s with Some begin => same_phase r begin | None => Ok false end) "failed forced dispatch" ;;;
  let* finish := integer r "graph_end" in
  ensure_res (Ok ((fl_cursor s <? finish) && (finish <=? count (graphs graph))) andM
    all_res (fun row => same_phase row r) (graph_slice (fl_cursor s) finish)) "forced graph window mismatch" ;;;
  Ok {| tokens := tokens s; fl_phases := fl_phases s; fl_active := None; fl_cursor := finish;
        fl_dispatches := fl_dispatches s + 1; fl_ended := fl_ended s; started := started s |}.

Definition forced_token (s : ForcedState) (r : record) : res ForcedState :=
  fields r (COMMON ++ ["token_index"; "token_id"; "graph_end"; "dispatch_id"; "token_ready"; "actual_sampling";
                       "phase_kind"; "decode_index"]) ;;;
  ensure_res (Ok (none (fl_active s) && negb (Nat.eqb (length (fl_phases s)) 0)) andM
    int_test r "token_index" (fun v => (v =? count (tokens s)) && (count (tokens s) <? generated)) andM
    Ok (count (fl_phases s) =? count (tokens s) + 1) andM int_test r "graph_end" (fun v => v =? fl_cursor s) andM
    int_test r "dispatch_id" (fun v => v + 1 =? fl_dispatches s) andM test_item r "token_ready" is_true andM
    test_item r "actual_sampling" is_false andM same_last_phase r (fl_phases s)) "forced token must not claim sampling" ;;;
  let* token := integer r "token_id" in
  Ok {| tokens := tokens s ++ [token]; fl_phases := fl_phases s; fl_active := fl_active s; fl_cursor := fl_cursor s;
        fl_dispatches := fl_dispatches s; fl_ended := fl_ended s; started := started s |}.

Definition forced_run_end (s : ForcedState) (r : record) : res ForcedState :=
  fields r (COMMON ++ ["success"; "samples"; "phases"; "dispatches"; "graphs"; "forced_tokens"; "completed_tokens"]) ;;;
  ensure_res (Ok (started s && none (fl_active s)) andM test_item r "success" is_true andM
    int_test r "samples" (fun v => v =? 0) andM
    (let* forced := integer r "forced_tokens" in
     int_test r "completed_tokens" (fun v => (forced =? v) && (v =? count (tokens s)) && (count (tokens s) =? generated))) andM
    int_test r "phases" (fun v => (v =? count (fl_phases s)) && (count (fl_phases s) =? count (Manifest.phases graph)) &&
                                  (count (Manifest.phases graph) =? generated)) andM
    int_test r "dispatches" (fun v => v =? fl_dispatches s) andM
    int_test r "graphs" (fun v => (v =? fl_cursor s) && (fl_cursor s =? count (graphs graph))))
    "forced completion requires every declared token and zero sampling" ;;;
  Ok {| tokens := tokens s; fl_phases := fl_phases s; fl_active := fl_active s; fl_cursor := fl_cursor s;
        fl_dispatches := fl_dispatches s; fl_ended := true; started := started s |}.

Definition forced_step (producer : record) (s : ForcedState) (entry : nat * record) : res ForcedState :=
  let '(position, r) := entry in
  let sequence := Z.of_nat position in
  ensure_res (Ok (negb (fl_ended s) && eq_str (pget r "schema") "potal-execution-lifecycle") andM
    int_test r "version" (fun v => v =? 2) andM int_test r "sequence" (fun v => v =? sequence))
    "invalid forced lifecycle framing" ;;;
  let* kind := item r "kind" in
  if eq_str kind "RUN" then forced_run producer s sequence r
  else if eq_str kind "PHASE" then forced_phase s r
  else if eq_str kind "DISPATCH_BEGIN" then forced_begin s r
  else if eq_str kind "DISPATCH_END" then forced_end s r
  else if eq_str kind "FORCED_TOKEN" then forced_token s r
  else if eq_str kind "RUN_END" then forced_run_end s r
  else Err (ExecutionError "forced cost-only lifecycle cannot contain sampling or unknown events").

(** The decode after a token was fed with it. *)
Definition forced_input (entry : nat * Z) : res unit :=
  let '(index, token) := entry in
  let* following := at_index (Manifest.phases graph) (Z.of_nat index + 1) in
  ensure_res (test_item following "token_fingerprint" (fun v => eq_str v (token_fingerprint token)) andM
              test_item following "input_tokens" (fun v => eq_int v 1)) "forced decode input fingerprint differs".
End Forced.

Fixpoint same_tokens (l k : list Z) : bool :=
  match l, k with
  | [], [] => true
  | x :: l, y :: k => (x =? y) && same_tokens l k
  | _, _ => false
  end.

Definition validate_forced_lifecycle (events : list record) (graph : Manifest) (expected_tokens : list Z) : res (list Z) :=
  let* producer := forced_producer graph in
  let generated := count expected_tokens in
  ensure_res (forced_scope graph generated producer)
    "forced lifecycle requires paired FullCPU cost-only scope and 128 PoTal tokens (or the 1-token diagnostic smoke)" ;;;
  let* s := fold_res (forced_step graph generated producer) forced_start (numbered events) in
  ensure (fl_ended s && same_tokens (tokens s) expected_tokens) "forced token trajectory differs from the declared PoTal IDs" ;;;
  iter_res (forced_input graph) (numbered (removelast (tokens s))) ;;;
  Ok (tokens s).

(** ** [reconstruct_pairing.py] *)

Definition PAPER_GENERATED_TOKENS : Z := 128.
Definition DIAGNOSTIC_SMOKE_GENERATED_TOKENS : Z := 1.

Definition declared_generation (provenance : record) : res Z :=
  if negb (has provenance "requested_generated_tokens") then Ok PAPER_GENERATED_TOKENS else
  let* generated := integer provenance "requested_generated_tokens" in
  require ((generated =? PAPER_GENERATED_TOKENS) ||
           ((generated =? DIAGNOSTIC_SMOKE_GENERATED_TOKENS) && is_true (pget provenance "diagnostic_smoke")))
    "declared generation must be the 128-token contract or the declared 1-token diagnostic smoke" ;;;
  Ok generated.

(** [a.get(key) == b.get(key) == value] *)
Definition both (full potal : record) (key : string) (value : json) : bool :=
  jeq (pget full key) (pget potal key) && jeq (pget potal key) value.

Definition is_hex64 (s : string) : bool := is_hex 64 s.

Definition free_pair (full potal : record) : res unit :=
  let* full_arguments := item full "command_arguments" in
  let* potal_arguments := item potal "command_arguments" in
  require (jeq full_arguments potal_arguments) "normalized collection arguments differ" ;;;
  if both full potal "version" (JInt 1) then Ok tt else
  require (both full potal "version" (JInt 2) && eq_str (pget full "source_role") "FULL_CPU" &&
           eq_str (pget potal "source_role") "POTAL_COLLECTION")
    "free-generation pairing requires matching current native provenance" ;;;
  require (both full potal "execution_kind" (JStr "FREE_GENERATION") && both full potal "actual_sampler_calls" (JInt 128) &&
           both full potal "decode_calls" (JInt 127)) "free-generation pairing requires complete actual sampling" ;;;
  require (both full potal "recipe_id" (JStr "wikitext2-test-256x128-greedy-seed1234-v1"))
    "free-generation pairing recipe mismatch" ;;;
  require_res (int_same full "chunk_id" potal "chunk_id") "free-generation chunk mismatch" ;;;
  iter_res (fun name =>
    require_res (let* s := text full name in
                 Ok (is_hex64 s && jeq (pget full name) (pget potal name)))
      ("free-generation identity mismatch: " +:+ name +:+ "; use forced PoTal-trajectory FullCPU cost-only recollection"))
    ["model_sha256"; "input_tokens_sha256"; "output_tokens_sha256"].

(** The forced arguments are the others with one bound token file between them. *)
Definition is_forced_flag (v : json) : bool := eq_str v "--forced-token-ids".
Fixpoint flag_index (l : list json) : option nat :=
  match l with [] => None | v :: l => if is_forced_flag v then Some O else S <$> flag_index l end.

Section Pairing.
Context `{Host}.

Definition forced_arguments (full potal pairing : record) : res unit :=
  let* value := item full "command_arguments" in
  let* arguments := array value in
  require (Nat.eqb (length (List.filter is_forced_flag arguments)) 1) "forced command lacks unique bound input" ;;;
  match flag_index arguments with
  | None => Err (ValueError "'--forced-token-ids' is not in list")
  | Some index =>
      require (match arguments !! S index with
               | Some v => eq_str v ("sha256:" +:+ py_str (pget pairing "forced_file_sha256"))
               | None => false
               end) "forced command input hash mismatch" ;;;
      let* potal_value := item potal "command_arguments" in
      let* potal_arguments := array potal_value in
      require (jeq (JArr (take index arguments ++ drop (index + 2) arguments)) (JArr potal_arguments))
        "non-trajectory collection arguments differ"
  end.

Definition forced_pair (full potal : record) (potal_provenance_sha256 : string) : res unit :=
  require (eq_int (pget full "version") 2 && eq_int (pget potal "version") 2 && eq_str (pget full "source_role") "FULL_CPU" &&
           eq_str (pget potal "source_role") "POTAL_COLLECTION")
    "forced pairing requires current native FullCPU/PoTal provenance" ;;;
  let* generated := declared_generation potal in
  let* full_generated := declared_generation full in
  require (full_generated =? generated) "forced pairing generation length differs" ;;;
  require (eq_str (pget full "trajectory_source") "POTAL" && eq_int (pget full "actual_sampler_calls") 0 &&
           eq_int (pget potal "actual_sampler_calls") generated && both full potal "decode_calls" (JInt (generated - 1)))
    "forced pairing must not count CPU sampling as actual generation" ;;;
  require (both full potal "recipe_id" (JStr "wikitext2-test-256x128-greedy-seed1234-v1")) "forced pairing recipe mismatch" ;;;
  let* pairing := object_value (pget full "paired_trajectory") in
  require (eq_str (pget pairing "schema") "potal-paired-trajectory" && eq_int (pget pairing "version") 1 &&
           eq_str (pget pairing "execution_kind") "FORCED_CPU_COST_ONLY" && eq_str (pget pairing "trajectory_source") "POTAL")
    "missing explicit forced trajectory contract" ;;;
  require_res (Ok (eq_str (pget pairing "source_potal_provenance_sha256") potal_provenance_sha256) andM
    (let* artifacts := object_value (pget potal "artifacts") in
     let* endpoints := object_value (pget artifacts "application_endpoints") in
     Ok (jeq (pget pairing "source_potal_application_sha256") (pget endpoints "sha256"))))
    "forced input is not bound to this PoTal collection" ;;;
  iter_res (fun name =>
    require (match sget name full with Some v => jeq v (pget potal name) | None => false end)
      ("forced pairing identity mismatch: " +:+ name)) ["chunk_id"; "model_sha256"; "input_tokens_sha256"; "output_tokens_sha256"] ;;;
  require_res (test_item full "output_tokens_sha256" (fun v => jeq (pget pairing "token_vector_sha256") v) andM
    test_item full "input_tokens_sha256" (fun v => jeq (pget pairing "input_tokens_sha256") v)) "forced token digest mismatch" ;;;
  forced_arguments full potal pairing.

Definition is_forced (provenance : record) : bool := eq_str (pget provenance "execution_kind") "FORCED_CPU_COST_ONLY".

Definition validate_source_pair (full potal : record) (potal_provenance_sha256 : string) : res unit :=
  if negb (is_forced full) then free_pair full potal else forced_pair full potal potal_provenance_sha256.
End Pairing.

(** Both runs fed their phases with the same tokens. *)
Definition validate_forced_phases (full potal : Manifest) : res unit :=
  require (Nat.eqb (length (Manifest.phases full)) (length (Manifest.phases potal))) "forced phase coverage mismatch" ;;;
  require_res (all_res (fun '(a, b) => item_same a "token_fingerprint" b "token_fingerprint")
    (zip (Manifest.phases full) (Manifest.phases potal))) "forced FullCPU/PoTal actual decode input trajectory differs".

(** ** A forced run follows the sampled trajectory

    An accepted forced lifecycle fed every decode with the expected token before
    it; paired with a PoTal run, the expected tokens are the sampled ones. *)

Lemma same_tokens_eq l k : same_tokens l k = true → l = k.
Proof.
  revert k. induction l as [|x l IH]; intros [|y k]; cbn; try done. intros [->%Z.eqb_eq ?%IH]%andb_prop. by subst.
Qed.

Lemma item_same_Ok a ka b kb : item_same a ka b kb = Ok true → jeq (pget a ka) (pget b kb) = true.
Proof.
  unfold item_same. intros (x & Hx%pget_item & (y & Hy%pget_item & E%Ok_eq)%bind_Ok)%bind_Ok. by subst.
Qed.

Section Forced.
Context (graph : Manifest) (generated : Z) (producer : record).

(** What holds of a forced run that has ended. *)
Definition forced_finished (s : ForcedState) : Prop := fl_ended s = true →
  count (tokens s) = generated ∧ count (Manifest.phases graph) = generated ∧ fl_cursor s = count (graphs graph) ∧ fl_active s = None.

Lemma forced_step_finished s e s' : forced_finished s → forced_step graph generated producer s e = Ok s' → forced_finished s'.
Proof.
  destruct e as [i r]. unfold forced_step. intros Hs H. apply bind_Ok in H as ([] & Hf%require_m_Ok & H).
  apply and_then_Ok_true in Hf as [Hf%Ok_eq _]. apply andb_prop in Hf as [Hend%negb_true_iff _].
  apply bind_Ok in H as (kind & _ & H). intros He. repeat case_match; try done.
  all: match type of H with
       | forced_run_end _ _ _ _ = _ => unfold forced_run_end in H
       | ?f = _ => let h := eval unfold forced_run, forced_phase, forced_begin, forced_end, forced_token in f in change (h = Ok s') in H
       end.
  all: try (repeat (apply bind_Ok in H as (? & _ & H)); apply Ok_eq in H as <-; cbn in He; congruence).
  apply bind_Ok in H as ([] & _ & H). apply bind_Ok in H as ([] & Hc%require_m_Ok & <-%Ok_eq). cbn.
  apply and_then_Ok_true in Hc as [Ha%Ok_eq Hc]. do 2 (apply and_then_Ok_true in Hc as [_ Hc]).
  apply and_then_Ok_true in Hc as [Ht Hc]. apply and_then_Ok_true in Hc as [Hp Hc]. apply and_then_Ok_true in Hc as [_ Hg].
  apply bind_Ok in Ht as (forced & _ & (v & _ & Ht)%int_test_Ok). apply int_test_Ok in Hp as (w & _ & Hp).
  apply int_test_Ok in Hg as (x & _ & Hg). z_props. split_and!; [lia..|by apply none_true].
Qed.
End Forced.

Lemma lookup_removelast {A} (l : list A) i x : l !! i = Some x → (S i < length l)%nat → removelast l !! i = Some x.
Proof.
  revert i. induction l as [|y l IH]; intros i Hi Hlt; [done|]. destruct l as [|z l]; [cbn in Hlt; lia|].
  destruct i as [|i]; [done|]. cbn [removelast]. apply IH; [done|cbn in *; lia].
Qed.

Lemma forced_ok events graph expected toks : validate_forced_lifecycle events graph expected = Ok toks →
  toks = expected ∧ count (Manifest.phases graph) = count expected ∧ z_in (count expected) [128; 1] = true ∧
  ∀ i t, expected !! i = Some t → (S i < length expected)%nat → ∃ m, Manifest.phases graph !! S i = Some m ∧
    jeq (pget m "input_tokens") (JInt 1) = true ∧ pget m "token_fingerprint" = JStr (token_fingerprint t).
Proof.
  unfold validate_forced_lifecycle. intros (producer & _ & H)%bind_Ok. cbv zeta in H.
  apply bind_Ok in H as ([] & Hscope%require_m_Ok & H). apply bind_Ok in H as (s & Hf & H).
  apply bind_Ok in H as ([] & He%check_Ok_any & H). apply bind_Ok in H as ([] & Hin%iter_res_Ok & <-%Ok_eq).
  apply andb_prop in He as [He Heq%same_tokens_eq].
  assert (Hfin : forced_finished graph (count expected) s).
  { eapply (fold_res_inv (forced_finished graph (count expected))); [|intros x s1 s2 _; apply forced_step_finished|exact Hf]. done. }
  destruct (Hfin He) as (_ & Hp & _). split; [done|]. split; [done|].
  split.
  { unfold forced_scope in Hscope. apply and_then_Ok_true in Hscope as [_ Hscope]. apply and_then_Ok_true in Hscope as [Hz%Ok_eq _].
    by apply andb_prop in Hz as [_ Hz]. }
  intros i t Hi Hlt. rewrite Forall_forall in Hin. rewrite Heq in Hin.
  assert (Hl : (i, t) ∈ numbered (removelast expected)).
  { apply (list_elem_of_lookup_2 _ i). unfold numbered. apply lookup_zip_Some. split; [|by apply lookup_removelast].
    cbn. apply lookup_seq. split; [lia|]. apply lookup_removelast in Hi; [|done]. by eapply lookup_lt_Some. }
  apply Hin in Hl. unfold forced_input in Hl. apply bind_Ok in Hl as (m & Hm%at_index_Ok & Hc%require_m_Ok).
  apply and_then_Ok_true in Hc as [H1 H2]. apply bind_Ok in H1 as (f & Hf'%pget_item & H1%Ok_eq%eq_str_spec).
  apply bind_Ok in H2 as (n & Hn%pget_item & H2%Ok_eq). replace (Z.to_nat (Z.of_nat i + 1)) with (S i) in Hm by lia.
  exists m. rewrite Hn, Hf'. by subst.
Qed.

(** C14: A forced FullCPU run that is accepted with the expected tokens, and
    paired with an accepted PoTal run, cost the trajectory that run sampled: it
    has 128 phases (or 1), and each sampled token that was fed to a further
    decode is, as a 32-bit integer, the expected token of the forced run. *)
Theorem forced_pair_tokens potal events p full forced expected toks : project_lifecycle potal events = Ok p →
  validate_forced_lifecycle forced full expected = Ok toks → validate_forced_phases full potal = Ok tt →
  toks = expected ∧ (length expected = 128%nat ∨ length expected = 1%nat) ∧
  length (Manifest.phases full) = length expected ∧ length (Manifest.phases potal) = length expected ∧
  ∀ i r token, of_kind "SAMPLE" events !! i = Some r → integer r "token_id" = Ok token →
    Z.of_nat (S i) < expected_samples p → ∃ t, expected !! i = Some t ∧ token mod 2 ^ 32 = t mod 2 ^ 32.
Proof.
  intros Hp (-> & Hn & Hz & Hf)%forced_ok H. unfold validate_forced_phases in H.
  apply bind_Ok in H as ([] & Hlen%check_Ok_any%Nat.eqb_eq & Hc%require_m_Ok). unfold count in *.
  apply z_in_spec in Hz. split; [done|]. split; [set_solver by lia|]. split; [lia|]. split; [lia|].
  intros i r token Hi Ht Hlt. destruct (sampled_input _ _ _ _ _ _ Hp Hi Ht Hlt) as (m & Hm & _ & Hfp).
  assert (Hsi : (S i < length expected)%nat) by (apply lookup_lt_Some in Hm; lia).
  destruct (lookup_lt_is_Some_2 expected i) as [t Hti]; [lia|]. exists t. split; [done|].
  destruct (Hf i t Hti Hsi) as (mf & Hmf & _ & Hfp'). apply all_res_Ok_true in Hc.
  assert (Hzip : zip (Manifest.phases full) (Manifest.phases potal) !! S i = Some (mf, m)) by (by apply lookup_zip_Some).
  rewrite Forall_forall in Hc. apply list_elem_of_lookup_2, Hc, item_same_Ok in Hzip. rewrite Hfp, Hfp' in Hzip.
  apply eq_str_spec in Hzip. apply fingerprint_inj. congruence.
Qed.
