(* ===== verification/Pipeline.v ===== *)
(** * The projection of the stripe pipeline onto the execution graph

    [sim/cycle/execution_pipeline.py]: [project_pipeline] turns the owner
    events of a declared pipeline into barrier nodes, adds the edges that order
    the two workspace slots, the queue and the outstanding capacity of a
    parent, and removes the edges by which the collection waited for the work
    of a stripe before publishing it.

    The nested functions of the source become definitions that take the
    variables they close over; the dictionaries the loop fills are a [Draft]. *)
From S2P Require Import Prelude Records ExecutionIR PipelineContract.
Set Default Goal Selector "!".

(** [tuple(dict.fromkeys(values))]: the first occurrence of each value. *)
Definition fromkeys {A} `{EqDecision A} (values : list A) : list A :=
  fold_left (fun acc x => if bool_decide (x ∈ acc) then acc else acc ++ [x]) values [].

Record PipelineProjection := {
  owner_nodes : list Node;
  additions : list (string * list Dependency);
  removals : list (string * list string);
}.

(** [PipelineProjection.edges] *)
Definition edges (p : PipelineProjection) (identity : string) (original : list Dependency) : list Dependency :=
  let removed := default [] (sget identity (removals p)) in
  fromkeys (filter (fun edge => str_in (node edge) removed = false) original ++
            default [] (sget identity (additions p))).

(** The nodes and edges collected so far. *)
Record Draft := {
  added : list (string * list Dependency);
  removed : list (string * list string);
  drafted : list Node;
}.
Definition new_draft : Draft := {| added := []; removed := []; drafted := [] |}.

(** [add(target, source, milestone)] *)
Definition add_edge (target source : string) (m : Milestone) (d : Draft) : Draft :=
  {| added := sset target (default [] (sget target (added d)) ++ [{| node := source; milestone := m |}]) (added d);
     removed := removed d; drafted := drafted d |}.
Definition add (target source : string) (d : Draft) : Draft := add_edge target source RESULT_READY d.
(** [removals[target] = frozenset((source,))] *)
Definition remove_edge (target source : string) (d : Draft) : Draft :=
  {| added := added d; removed := sset target [source] (removed d); drafted := drafted d |}.
Definition draft_node (n : Node) (d : Draft) : Draft :=
  {| added := added d; removed := removed d; drafted := drafted d ++ [n] |}.

Definition owner_id (parent_id stripe_id : Z) (resource transition : string) (call : option Z) : string :=
  "owner:" +:+ dec parent_id +:+ ":" +:+ dec stripe_id +:+ ":" +:+ resource +:+ ":" +:+ transition +:+
  match call with None => "" | Some c => ":" +:+ dec c end.

Definition call_id (call : Z) (stage : string) : string := "call:" +:+ dec call +:+ ":" +:+ stage.

Definition entry (indexed : list (string * record)) (name : string) : res record :=
  match sget name indexed with Some row => Ok row | None => Err (KeyError name) end.
(** [name in indexed and <test>(indexed[name])]. *)
Definition entry_is (indexed : list (string * record)) (name : string) (p : record → bool) : bool :=
  match sget name indexed with Some row => p row | None => false end.

Definition event_of (k : OwnerKey) : Event := (key_resource k, key_transition k).
(** [group[resource, transition, None]] *)
Definition owner_of (group : Group) (resource transition : string) : res record :=
  match aget owner_key_eq {| key_resource := resource; key_transition := transition; key_call := None |} group with
  | Some owner => Ok owner
  | None => Err (KeyError (resource +:+ "," +:+ transition))
  end.

Section Project.
Context `{Host}.
Context (proof : PipelineContract) (indexed results : list (string * record)).

(** ** One parent and one stripe *)

Section Parent.
Context (parent_id : Z) (parent : record).

(** The fence row of the parent waits for exactly the works it declares. *)
Definition parent_fence : res string :=
  let* fence_call := integer parent "fence_call_id" in
  let fence := call_id fence_call "COMPLETE_REQUIRED" in
  ensure (entry_is indexed fence (fun row => eq_str (pget row "call_kind") "FENCE")) "missing exact pipeline fence" ;;;
  let* row := entry indexed fence in
  let* raw := item row "dependencies" in
  let* listed := array raw in
  let fence_works := omap (fun value => match value with
    | JStr s => if String.prefix "npu:" s then Some s else None | _ => None end) listed in
  let* declared := required_ids parent "fence_required_work_ids" in
  ensure (set_eq String.eqb fence_works (map npu_id declared)) "dataset/producer fence work mismatch" ;;;
  Ok fence.

Section Stripe.
Context (stripe_id work_id : Z) (operation phase : string) (group : Group).

Definition oid (resource transition : string) : string := owner_id parent_id stripe_id resource transition None.

Definition has_callback : bool := event_in ("RESIDUAL_CALLBACK", "COMPLETE") (map (fun kv => event_of kv.1) group).
Definition merges : list OwnerKey :=
  filter (fun k => String.eqb (key_resource k) "RESIDUAL_MERGE_CALL" = true) (map fst group).

Definition check_group : res unit :=
  let present := map (fun kv => event_of kv.1) group in
  ensure (subset_of event_eq REQUIRED_EVENTS present &&
          subset_of event_eq present (REQUIRED_EVENTS ++ OPTIONAL_EVENTS))
    "missing/unknown pipeline stripe transition" ;;;
  ensure (has_callback || Nat.eqb (length merges) 0) "residual merge lacks callback" ;;;
  match group with
  | [] => Err StopIteration
  | (_, first) :: _ =>
      ensure_res (all_res (fun kv => item_same kv.2 "producer_run_id" first "producer_run_id") group)
        "mixed stripe producer identity"
  end.

(** The edges between the slot, queue and capacity events of the stripe:
    [prior] releases the workspace slot before it, [prior_dequeue] is the queue
    event before it, and two stripes of a parent are outstanding at a time. *)
Definition slot_edges (prior prior_dequeue : option string) (d : Draft) : Draft :=
  let acquire := oid "EXSIA_WORKSPACE" "ACQUIRE" in
  let commit := oid "ACTIVATION_ROWS" "COMMIT" in
  let seal := oid "RESIDUAL_PAYLOAD" "SEAL" in
  let capacity := oid "FRONTEND_OUTSTANDING" "ACQUIRE" in
  let enqueue := oid "FRONTEND_QUEUE" "ENQUEUE" in
  let dequeue := oid "FRONTEND_QUEUE" "DEQUEUE" in
  let workspace_release := oid "EXSIA_WORKSPACE" "RELEASE" in
  let d := match prior with Some source => add acquire source d | None => d end in
  let d := add commit acquire d in
  let d := add seal commit d in
  let d := add capacity seal d in
  let d := add enqueue capacity d in
  let d := add workspace_release enqueue d in
  let d := add dequeue enqueue d in
  let d := if 2 <=? stripe_id then
             add capacity (owner_id parent_id (stripe_id - 2) "FRONTEND_OUTSTANDING" "RELEASE" None) d else d in
  match prior_dequeue with Some source => add dequeue source d | None => d end.

(** The edges around the publication and the work of the stripe. *)
Definition work_edges (call : Z) (d : Draft) : Draft :=
  let dequeue := oid "FRONTEND_QUEUE" "DEQUEUE" in
  let accepted := oid "CPU_FUNCTIONAL_STREAM" "ACCEPTED" in
  let completed := oid "CPU_FUNCTIONAL_STREAM" "COMPLETED" in
  let npu := npu_id work_id in
  let prepare := call_id call "PREPARE" in
  let publish := call_id call "PUBLISH" in
  let d := add prepare dequeue d in
  let d := remove_edge publish npu d in
  let d := remove_edge npu (call_id call "INVOKE") d in
  let d := add npu publish d in
  let d := add accepted publish d in
  let d := add npu accepted d in
  add completed accepted d.

Definition check_publication (call : Z) : res unit :=
  let same_operation := fun row => eq_str (pget row "operation_node_id") operation in
  ensure (bool_decide (sget (call_id call "PREPARE") indexed ≠ None) &&
          entry_is indexed (call_id call "PUBLISH") (fun row => eq_str (pget row "call_kind") "STRIPE") &&
          entry_is indexed (call_id call "PREPARE") same_operation &&
          entry_is indexed (call_id call "PUBLISH") same_operation)
    "stripe lacks exact publication boundary" ;;;
  let* row := entry indexed (npu_id work_id) in
  let* expected := item parent "operation_id" in
  ensure (jeq (default expected (sget "producer_operation_id" row)) expected) "stripe work/operation mismatch".

(** What the completion, the callback and the release of the stripe require;
    the result is the required works of the release. *)
Definition check_release (residual : list (Z * list Z)) : res (list Z) :=
  let* completed_owner := owner_of group "CPU_FUNCTIONAL_STREAM" "COMPLETED" in
  let* completion_reqs := required_ids completed_owner "required_work_ids" in
  let* release_owner := owner_of group "FRONTEND_OUTSTANDING" "RELEASE" in
  let* release_reqs := required_ids release_owner "required_work_ids" in
  let* callback_reqs :=
    (if has_callback then let* owner := owner_of group "RESIDUAL_CALLBACK" "COMPLETE" in
                          required_ids owner "required_work_ids"
     else Ok completion_reqs) in
  ensure (subset_of Z.eqb completion_reqs callback_reqs && bool_decide (release_reqs = callback_reqs))
    "capacity release required-work coverage mismatch" ;;;
  ensure (set_eq Z.eqb release_reqs (work_id :: default [] (zget stripe_id residual)))
    "capacity release/residual stripe binding mismatch" ;;;
  let* release_calls := required_ids release_owner "required_call_ids" in
  let* callback_calls :=
    (if has_callback then let* owner := owner_of group "RESIDUAL_CALLBACK" "COMPLETE" in
                          required_ids owner "required_call_ids"
     else Ok []) in
  let merge_calls := map key_call merges in
  ensure (set_eq Z.eqb release_calls callback_calls &&
          set_eq (fun a b => bool_decide (a = b)) (map Some callback_calls) merge_calls)
    "capacity release required-call coverage mismatch" ;;;
  Ok release_reqs.

Definition COMPLETION_EVENTS : list Event :=
  [("CPU_FUNCTIONAL_STREAM", "COMPLETED"); ("RESIDUAL_CALLBACK", "COMPLETE"); ("FRONTEND_OUTSTANDING", "RELEASE")].

(** The edges a specific event adds besides its required works and calls. *)
Definition event_edges (resource transition identity : string) (observed : option Z) (call_reqs : list Z)
    (d : Draft) : res Draft :=
  let completed := oid "CPU_FUNCTIONAL_STREAM" "COMPLETED" in
  if String.eqb resource "RESIDUAL_MERGE_CALL" then
    ensure (bool_decide (map Some call_reqs = [observed])) "merge owner call dependency mismatch" ;;;
    Ok (add identity completed d)
  else if String.eqb resource "RESIDUAL_CALLBACK" then
    Ok (fold_left (fun d k => add identity
          (owner_id parent_id stripe_id (key_resource k) (key_transition k) (key_call k)) d)
        merges (add identity completed d))
  else if event_eq (resource, transition) ("FRONTEND_OUTSTANDING", "RELEASE") then
    Ok (add identity (if has_callback then oid "RESIDUAL_CALLBACK" "COMPLETE" else completed) d)
  else Ok d.

(** One owner event of the stripe: its node and its edges. *)
Definition project_owner (d : Draft) (keyed : OwnerKey * record) : res Draft :=
  let raw_owner := keyed.2 in
  let* resource := text raw_owner "resource" in
  let* transition := text raw_owner "transition" in
  let* observed := optional_call raw_owner in
  let identity := owner_id parent_id stripe_id resource transition observed in
  let* work_reqs := required_ids raw_owner "required_work_ids" in
  let* call_reqs := required_ids raw_owner "required_call_ids" in
  ensure_res (all_res (work_of_parent results parent) work_reqs) "owner required work lacks exact result" ;;;
  ensure (forallb (fun call => entry_is indexed (call_id call "CONTINUATION")
                     (fun row => eq_str (pget row "call_kind") "RESIDUAL_MERGE" &&
                                 eq_str (pget row "operation_node_id") operation)) call_reqs)
    "owner required merge call missing" ;;;
  let* d :=
    (if event_in (resource, transition) COMPLETION_EVENTS then
       ensure (z_in work_id work_reqs) "owner completion omits dense work" ;;;
       Ok (fold_left (fun d work => add_edge identity (npu_id work) RESULT_READY d) work_reqs d)
     else
       ensure (Nat.eqb (length work_reqs) 0) "early owner event requires NPU completion" ;;;
       Ok d) in
  let d := fold_left (fun d call => add identity (call_id call "CONTINUATION") d) call_reqs d in
  let* d := event_edges resource transition identity observed call_reqs d in
  Ok (draft_node {| ExecutionIR.identity := identity; kind := BARRIER; ExecutionIR.operation := operation;
                    ExecutionIR.phase := phase; order := 0;
                    dependencies := []; service := None; resources := [] |} d).
End Stripe.

(** The variables of the loop over the stripes of a parent. *)
Record Cursor := {
  prior_slot : list (Z * string);
  prior_dequeue : option string;
  released_works : list Z;
  draft : Draft;
}.

Definition project_stripe (fence : string) (c : Cursor) (numbered : nat * record) : res Cursor :=
  let stripe_id := Z.of_nat numbered.1 in
  let result := numbered.2 in
  let* work_id := integer result "work_id" in
  let* call := integer result "call_id" in
  ensure (bool_decide (sget (npu_id work_id) indexed ≠ None)) "missing selected stripe service" ;;;
  let* npu_row := entry indexed (npu_id work_id) in
  let* operation := text npu_row "operation_node_id" in
  ensure (bool_decide (sget operation indexed ≠ None)) "owner lacks operation container" ;;;
  let* fence_row := entry indexed fence in
  ensure (eq_str (pget fence_row "operation_node_id") operation) "pipeline fence/operation mismatch" ;;;
  let* operation_row := entry indexed operation in
  let* phase_value := item operation_row "phase" in
  let phase := json_dumps phase_value in
  let group := default [] (aget pair_eq_b (parent_id, stripe_id) (owners proof)) in
  check_group group ;;;
  let* slot := integer result "host_slot" in
  let d := slot_edges stripe_id (zget slot (prior_slot c)) (prior_dequeue c) (draft c) in
  check_publication work_id operation call ;;;
  let d := work_edges stripe_id work_id call d in
  let residual := default [] (zget parent_id (residual_works proof)) in
  let* release_reqs := check_release stripe_id work_id group residual in
  let* d := fold_res (project_owner stripe_id work_id operation phase group) d group in
  Ok {| prior_slot := zset slot (oid stripe_id "EXSIA_WORKSPACE" "RELEASE") (prior_slot c);
        prior_dequeue := Some (oid stripe_id "FRONTEND_QUEUE" "DEQUEUE");
        released_works := released_works c ++ release_reqs;
        draft := add fence (oid stripe_id "FRONTEND_OUTSTANDING" "RELEASE") d |}.
End Parent.

Definition project_parent (d : Draft) (declared : Z * record) : res Draft :=
  let '(parent_id, parent) := declared in
  let* ordered := match zget parent_id (stripes proof) with
    | Some rows => Ok rows | None => Err (KeyError (dec parent_id)) end in
  let* fence := parent_fence parent in
  let* c := fold_res (project_stripe parent_id parent fence)
              {| prior_slot := []; prior_dequeue := None; released_works := []; draft := d |} (enumerate ordered) in
  let* works := required_ids parent "required_work_ids" in
  let d := fold_left (fun d work => add_edge fence (npu_id work) RESULT_READY d) works (draft c) in
  ensure (set_eq Z.eqb (released_works c) works && distinct Z.eqb (released_works c))
    "pipeline parent release/work coverage mismatch" ;;;
  Ok d.
End Project.

(** The owner nodes receive the edges collected for them, in order; the other
    edges are for nodes of the dataset. *)
Definition complete_node (acc : list Node * list (string * list Dependency)) (n : Node) :
    list Node * list (string * list Dependency) :=
  let incoming := {| node := operation n +:+ ":enter"; milestone := RESULT_READY |} ::
                  default [] (sget (identity n) acc.2) in
  (acc.1 ++ [{| identity := identity n; kind := kind n; operation := operation n; phase := phase n; order := order n;
                dependencies := fromkeys incoming; service := None; resources := [] |}],
   sdel (identity n) acc.2).

Definition project_pipeline `{Host} (contract : record) (indexed results : list (string * record)) :
    res PipelineProjection :=
  let* proof := parse_pipeline contract results in
  let* d := fold_res (project_parent proof indexed results) new_draft (parents proof) in
  let '(completed, rest) := fold_left complete_node (drafted d) ([], added d) in
  Ok {| owner_nodes := completed;
        additions := map (fun kv => (kv.1, fromkeys kv.2)) rest;
        removals := removed d |}.
