(* ===== verification/PipelineEdges.v ===== *)
(** * The edges a projection collects

    A draft only grows while the projection runs, so an edge or node found once
    is in the result.  [stripe_order] lists the edges one stripe is given, over
    an edge relation, so that it can be read off the draft and off the final
    projection alike; [projected_ok] says every declared stripe has them. *)
From S2P Require Import Prelude Records OptraceParents PipelineContract ExecutionIR Pipeline.
Set Default Goal Selector "!".

(** ** What an accepted pipeline contract guarantees

    The stripes of a declared parent are exactly the stripe results of the run
    that name it; sorted by stripe they are numbered 0, 1, .. and tile its
    rows; its required works are the works of its stripes together with the
    compact works bound to them, each once ([contract_ok]); the owners are
    grouped by the event they record ([owners_ok]). *)

(** ** Lemmas on dictionaries of lists and on numbered lists *)

Lemma zget_zset {V} k k' (v : V) l : zget k (zset k' v l) = if Z.eqb k k' then Some v else zget k l.
Proof. apply aget_aset, Z.eqb_eq. Qed.

Lemma zget_push {A} k k' (x : A) l :
  default [] (zget k (push k' x l)) = default [] (zget k l) ++ (if Z.eqb k k' then [x] else []).
Proof.
  unfold push. rewrite zget_zset. destruct (Z.eqb_spec k k') as [->|]; cbn; [done|by rewrite app_nil_r].
Qed.

Lemma concat_push {A} k (x : A) l : concat (push k x l).*2 ≡ₚ concat l.*2 ++ [x].
Proof.
  unfold push. induction l as [|[k' v] l IH]; cbn; [done|]. destruct (k =? k') eqn:E; cbn.
  - rewrite <-!(assoc_L (++)). f_equiv. apply Permutation_app_comm.
  - rewrite IH. by rewrite <-(assoc_L (++)).
Qed.

Lemma enumerate_split {A} (l : list A) pre i x post :
  enumerate l = pre ++ (i, x) :: post → i = length pre ∧ l = pre.*2 ++ x :: post.*2.
Proof.
  intros H. unfold enumerate in H. split.
  - assert (Hl : (zip (seq 0 (length l)) l).*1 !! length pre = Some i).
    { rewrite H, fmap_app, lookup_app_r by (by rewrite length_fmap). by rewrite length_fmap, Nat.sub_diag. }
    rewrite fst_zip in Hl by (by rewrite length_seq). by apply lookup_seq in Hl as [-> _].
  - rewrite <-(snd_zip (seq 0 (length l)) l) at 1 by (by rewrite length_seq).
    by rewrite H, fmap_app, fmap_cons.
Qed.

Lemma enumerate_snd {A} (l : list A) : (enumerate l).*2 = l.
Proof. unfold enumerate. apply snd_zip. by rewrite length_seq. Qed.

Lemma enumerate_lookup {A} (l : list A) i x : (i, x) ∈ enumerate l ↔ l !! i = Some x.
Proof.
  unfold enumerate. rewrite list_elem_of_lookup. split.
  - intros (j & [Hj Hy]%lookup_zip_Some). cbn in *. by apply lookup_seq in Hj as [-> _].
  - intros Hx. exists i. apply lookup_zip_Some; cbn. split; [|done]. apply lookup_seq.
    split; [done|]. by eapply lookup_lt_Some.
Qed.

Lemma insert_keyed_perm {A} (e : Z * A) l : insert_keyed e l ≡ₚ e :: l.
Proof.
  induction l as [|f l IH]; cbn; [done|]. destruct (e.1 <=? f.1); [done|]. rewrite IH. by constructor.
Qed.

Lemma sort_by_stripe_perm rows ordered : sort_by_stripe rows = Ok ordered → ordered ≡ₚ rows.
Proof.
  unfold sort_by_stripe. intros (keyed & Hk & <-%Ok_eq)%bind_Ok.
  assert (Hp : ∀ l : list (Z * record), foldr insert_keyed [] l ≡ₚ l).
  { induction l as [|e l IH]; cbn; [done|]. by rewrite insert_keyed_perm, IH. }
  rewrite Hp. clear Hp. revert keyed Hk. induction rows as [|r rows IH]; cbn; intros keyed Hk.
  - by injection Hk as <-.
  - res_inv. rewrite fmap_cons. cbn. f_equiv. by apply IH.
Qed.

(** ** The integers of a record *)

Lemma map_res_fmap {A} (g : A → json) (f : A → res Z) l zs :
  (∀ x z, f x = Ok z → g x = JInt z) → map_res f l = Ok zs → g <$> l = JInt <$> zs.
Proof.
  intros Hg. revert zs. induction l as [|x l IH]; cbn; intros zs Hz.
  - by injection Hz as <-.
  - apply bind_Ok in Hz as (z & Hx & Hz). apply bind_Ok in Hz as (ys & Hy & <-%Ok_eq).
    rewrite !fmap_cons. f_equal; auto.
Qed.

Lemma required_ids_NoDup r key ids : required_ids r key = Ok ids → NoDup ids.
Proof. unfold required_ids, ensure. intros H. res_inv. by apply distinct_z. Qed.

(** ** Stripes *)

(** The stripe results of the run that name the parent [p], in their order. *)
Definition names_parent (p : Z) (result : record) : bool := is_stripe result && int_is (pget result "parent_id") p.
Definition stripe_results (p : Z) (results : list (string * record)) : list record :=
  List.filter (names_parent p) results.*2.

(** The parents are distinct and each repeats the identity it is known by. *)
Record parents_ok (known : list (Z * record)) : Prop := {
  po_distinct : NoDup known.*1;
}.

Lemma parse_parents_ok contract known : parse_parents contract = Ok known → parents_ok known.
Proof.
  unfold parse_parents. intros H. res_inv.
  match goal with H : fold_res parse_parent [] _ = Ok _ |- _ => revert H end.
  apply (fold_res_inv (fun l : list (Z * record) => parents_ok l)); [split; constructor|].
  intros raw l l' _ [Hnd] Hp. unfold parse_parent in Hp. res_inv. split. apply (aset_NoDup Z.eqb Z.eqb_eq), Hnd.
Qed.

Record stripes_found (known : list (Z * record)) (pre : list (string * record)) (found : list (Z * list record)) : Prop := {
  sf_rows : ∀ p, default [] (zget p found) = stripe_results p pre;
  sf_positive : ∀ p, Forall (fun r => ∃ c, pget r "row_count" = JInt c ∧ 0 < c) (default [] (zget p found));
}.

Lemma collect_stripe_found known pre e found found' :
  stripes_found known pre found → collect_stripe known found e = Ok found' → stripes_found known (pre ++ [e]) found'.
Proof.
  intros [Hr Hpos] H. destruct e as [name r]. unfold collect_stripe in H.
  assert (Hsnoc : ∀ p, stripe_results p (pre ++ [(name, r)]) =
                       stripe_results p pre ++ (if names_parent p r then [r] else [])).
  { intros p. unfold stripe_results. rewrite fmap_app, List.filter_app. by cbn; destruct (names_parent p r). }
  destruct (is_stripe r) eqn:Es; cbn [negb] in H.
  - apply bind_Ok in H as (p' & Hp%integer_Ok & H). destruct (zget p' known); [|done].
    unfold ensure_res, ensure in H. res_inv.
    assert (Hn : ∀ p, names_parent p r = (p =? p')).
    { intros p. unfold names_parent. rewrite Es. destruct Hp as [-> _]. cbn. apply Z.eqb_sym. }
    split; intros p.
    + by rewrite zget_push, Hr, Hsnoc, Hn.
    + rewrite zget_push. apply Forall_app. split; [done|]. destruct (p =? p'); [|constructor].
      constructor; [|constructor].
      match goal with H : int_test _ "row_count" _ = Ok true |- _ =>
        apply int_test_Ok in H as (c & [Hc _]%integer_Ok & ?%Z.ltb_lt) end. by exists c.
  - injection H as <-. split; [|done]. intros p. rewrite Hsnoc. unfold names_parent. rewrite Es. cbn.
    by rewrite app_nil_r.
Qed.

Lemma collect_stripes_found known results found :
  collect_stripes known results = Ok found → stripes_found known results found.
Proof.
  unfold collect_stripes. intros H. apply bind_Ok in H as (f & H & Hc). unfold ensure in Hc. res_inv.
  revert H. apply (fold_res_hist (fun pre f => stripes_found known pre f)).
  - split; [done|]. intros p. constructor.
  - intros pre e post f1 f2 _. apply collect_stripe_found.
Qed.

(** ** The rows and works of one parent *)

Record bound_ok (works dense : list Z) (b : Bound) : Prop := {
  bo_concat : concat (by_stripe b).*2 ≡ₚ bound b;
  bo_distinct : NoDup (bound b);
  bo_free : ∀ w, w ∈ bound b → w ∈ works ∧ w ∉ dense;
}.

Lemma bind_residual_ok results p works dense ordered b raw b' :
  bound_ok works dense b → bind_residual results p works dense ordered b raw = Ok b' → bound_ok works dense b'.
Proof.
  intros [Hc Hd Hf] H. unfold bind_residual in H.
  do 4 (apply bind_Ok in H as (? & _ & H)). apply bind_Ok in H as (stripe_id & _ & H). cbv zeta in H.
  apply bind_Ok in H as ([] & Hg%check_Ok_any & H).
  destruct (ordered !! Z.to_nat stripe_id); [|done]. apply bind_Ok in H as ([] & _ & H).
  destruct (sget _ results); [|done]. apply bind_Ok in H as ([] & _ & <-%Ok_eq). cbn.
  apply andb_prop in Hg as [[Hg1%negb_true_iff Hg2%z_in_spec]%andb_prop Hg3%negb_true_iff].
  assert (Hn1 : ∀ z zs, z_in z zs = false → z ∉ zs) by (intros z zs Hz Hin%z_in_spec; congruence).
  apply Hn1 in Hg1, Hg3. split; cbn.
  - by rewrite concat_push, Hc.
  - apply NoDup_app. split; [done|]. split; [|apply NoDup_singleton]. intros z Hz ->%list_elem_of_singleton. done.
  - intros w [Hw| ->%list_elem_of_singleton]%elem_of_app; [by apply Hf|done].
Qed.

Lemma set_eq_spec l k : set_eq Z.eqb l k = true ↔ ∀ z, z ∈ l ↔ z ∈ k.
Proof. unfold set_eq. rewrite andb_true_iff, !subset_of_spec by apply Z.eqb_eq. set_solver. Qed.

Definition rows_numbered (rows : list record) : Prop :=
  (fun r => pget r "stripe_id") <$> rows = JInt <$> seqZ 0 (Z.of_nat (length rows)).

Lemma check_rows_tile ordered cursor :
  Forall (fun r => ∃ c, pget r "row_count" = JInt c ∧ 0 < c) ordered →
  fold_res check_rows 0 (enumerate ordered) = Ok cursor → tile_rows 0 ordered cursor ∧ rows_numbered ordered.
Proof.
  intros Hpos H. rewrite <-(enumerate_snd ordered).
  revert H. apply (fold_res_hist (fun (pre : list (nat * record)) cur => tile_rows 0 pre.*2 cur ∧ rows_numbered pre.*2)).
  - split; [constructor|done].
  - intros pre [i r] post cur cur' Hsplit [Ht Hn] H. apply enumerate_split in Hsplit as [-> Ho].
    unfold check_rows, ensure_res in H. apply bind_Ok in H as (begin & [Hb _]%integer_Ok & H).
    apply bind_Ok in H as (count & [Hc _]%integer_Ok & H). res_inv.
    match goal with H : int_test _ "stripe_id" _ = Ok true |- _ =>
      apply int_test_Ok in H as (s & [Hs _]%integer_Ok & ->%Z.eqb_eq) end.
    z_props. subst begin.
    assert (0 < count).
    { rewrite Forall_forall in Hpos. destruct (Hpos r) as (c & Hc' & ?); [|congruence].
      set_solver. }
    rewrite fmap_app. cbn. split; [by apply tile_rows_snoc|]. unfold rows_numbered in *.
    rewrite fmap_app, Hn, length_app, !length_fmap. cbn. rewrite Nat2Z.inj_add, seqZ_app, fmap_app by lia. f_equal.
    by rewrite seqZ_cons by lia; cbn; rewrite Hs.
Qed.

(** The declared parent [p] with its stripes in order and its bound works. *)
Record parent_ok (results : list (string * record)) (p : Z) (parent : record) (rows : list record)
    (residual : list (Z * list Z)) : Prop := {
  pk_rows : rows ≡ₚ stripe_results p results;
  pk_tiled : ∃ m, pget parent "parent_m" = JInt m ∧ tile_rows 0 rows m;
  pk_numbered : rows_numbered rows;
  pk_works : ∃ works fence dense, required_ids parent "required_work_ids" = Ok works ∧ NoDup works ∧
    required_ids parent "fence_required_work_ids" = Ok fence ∧ fence ≡ₚ works ∧
    (fun r => pget r "work_id") <$> rows = JInt <$> dense ∧ works ≡ₚ dense ++ concat residual.*2;
}.

Lemma check_parent_ok known results found acc p parent acc' :
  stripes_found known results found → check_parent results found acc (p, parent) = Ok acc' →
  ∃ rows residual, acc' = (zset p rows acc.1, zset p residual acc.2) ∧ parent_ok results p parent rows residual.
Proof.
  intros [Hr Hpos] H. unfold check_parent in H. apply bind_Ok in H as (ordered & Ho%sort_by_stripe_perm & H).
  apply bind_Ok in H as (works & Hw & H). apply bind_Ok in H as (fence & Hfw & H).
  apply bind_Ok in H as ([] & Hfe%check_Ok_any & H). apply bind_Ok in H as (dense & Hd & H).
  apply bind_Ok in H as ([] & Hcov%require_m_Ok & H). apply bind_Ok in H as (raw & _ & H).
  apply bind_Ok in H as (bindings & _ & H). apply bind_Ok in H as (b & Hb & H).
  apply bind_Ok in H as ([] & Hu%check_Ok_any & H). apply bind_Ok in H as (cursor & Hc & H).
  apply bind_Ok in H as ([] & Hm%require_m_Ok & <-%Ok_eq).
  exists ordered, (by_stripe b). split; [done|].
  assert (Hbo : bound_ok works dense b).
  { revert Hb. apply (fold_res_inv (fun b => bound_ok works dense b)); [split; set_solver by constructor|].
    intros raw' b1 b2 _. apply bind_residual_ok. }
  pose proof (required_ids_NoDup _ _ _ Hw) as Hnd.
  apply and_then_Ok_true in Hcov as [Hf%Ok_eq%bool_decide_eq_true _].
  apply int_test_Ok in Hm as (m & [Hm _]%integer_Ok & ->%Z.eqb_eq).
  apply check_rows_tile in Hc as [Ht Hn]; [|rewrite Ho; apply Hpos].
  split; [by rewrite Ho, Hr|by exists m|done|].
  exists works, fence, dense. split_and!; try done.
  - apply NoDup_Permutation; [by eapply required_ids_NoDup|done|]. by apply set_eq_spec.
  - revert Hd. apply map_res_fmap. intros r z [? _]%integer_Ok. done.
  - destruct Hbo as [Hbc Hbd Hbf]. rewrite Hbc. apply NoDup_Permutation; [done| |by apply set_eq_spec].
    apply NoDup_app. split_and!; [|by intros w Hw1 [_ Hw2]%Hbf|done].
    rewrite <-Hf. by apply NoDup_filter.
Qed.

(** ** The whole contract *)

Record contract_ok (results : list (string * record)) (proof : PipelineContract) : Prop := {
  ck_distinct : NoDup (parents proof).*1;
  ck_parents : ∀ p parent, (p, parent) ∈ parents proof → ∃ rows residual,
    zget p (stripes proof) = Some rows ∧ zget p (residual_works proof) = Some residual ∧
    parent_ok results p parent rows residual;
}.

Lemma parse_pipeline_ok contract results proof :
  parse_pipeline contract results = Ok proof → contract_ok results proof.
Proof.
  unfold parse_pipeline. intros H. apply bind_Ok in H as (known & [Hnd]%parse_parents_ok & H).
  apply bind_Ok in H as (found & Hfound%collect_stripes_found & H).
  apply bind_Ok in H as (checked & Hchk & H). apply bind_Ok in H as (groups & _ & <-%Ok_eq).
  split; cbn; [done|].
  set (Q := fun (pre : list (Z * record)) (acc : list (Z * list record) * list (Z * list (Z * list Z))) =>
    ∀ p parent, (p, parent) ∈ pre → ∃ rows residual, zget p acc.1 = Some rows ∧ zget p acc.2 = Some residual ∧
      parent_ok results p parent rows residual).
  enough (Q known checked) by done.
  revert Hchk. apply (fold_res_hist Q); [by intros p parent ?%not_elem_of_nil|].
  intros pre [p0 parent0] post acc acc' -> HQ H. eapply check_parent_ok in H as (rows & residual & -> & Hok); [|done].
  intros p parent [Hin|E%list_elem_of_singleton]%elem_of_app; cbn.
  - rewrite !zget_zset. destruct (Z.eqb_spec p p0) as [->|]; [|by apply HQ].
    exfalso. rewrite fmap_app, fmap_cons in Hnd. apply NoDup_app in Hnd as (_ & Hnd & _).
    apply (Hnd p0); [by apply (list_elem_of_fmap_2 fst _ (p0, parent))|set_solver].
  - injection E as -> ->. rewrite !zget_zset, Z.eqb_refl. eauto 10.
Qed.

(** ** Owners of a contract *)

Lemma elem_of_aset {K V} (eqb : K → K → bool) (Heq : ∀ a b, eqb a b = true ↔ a = b) k (v : V) l x :
  x ∈ aset eqb k v l → x = (k, v) ∨ x ∈ l.
Proof.
  induction l as [|[k' v'] l IH]; cbn.
  - intros ->%list_elem_of_singleton. by left.
  - destruct (eqb k k') eqn:E.
    + apply Heq in E as ->. intros [->|]%elem_of_cons; [by left|right; by constructor].
    + intros [->|[->|]%IH]%elem_of_cons; [right; by constructor|by left|right; by constructor].
Qed.

Lemma pair_eq_b_spec a b : pair_eq_b a b = true ↔ a = b.
Proof.
  unfold pair_eq_b. rewrite andb_true_iff, !Z.eqb_eq. destruct a, b; cbn. naive_solver.
Qed.
Lemma owner_key_eq_spec a b : owner_key_eq a b = true ↔ a = b.
Proof. apply bool_decide_eq_true. Qed.
Lemma event_eq_spec a b : event_eq a b = true ↔ a = b.
Proof.
  unfold event_eq. rewrite andb_true_iff, !String.eqb_eq. destruct a, b; cbn. naive_solver.
Qed.

(** An owner is filed under the event it records; only merge calls observe a call. *)
Record owner_ok (kv : OwnerKey * record) : Prop := {
  ow_resource : text kv.2 "resource" = Ok (key_resource kv.1);
  ow_transition : text kv.2 "transition" = Ok (key_transition kv.1);
  ow_call : optional_call kv.2 = Ok (key_call kv.1);
  ow_merge : key_resource kv.1 ≠ "RESIDUAL_MERGE_CALL" → key_call kv.1 = None;
}.

Definition groups_ok (l : list (Z * Z * Group)) : Prop :=
  ∀ ps group, aget pair_eq_b ps l = Some group → ∀ kv, kv ∈ group → owner_ok kv.

Lemma parse_owner_ok ordered scan raw scan' :
  groups_ok (groups scan) → parse_owner ordered scan raw = Ok scan' → groups_ok (groups scan').
Proof.
  intros Hg H. unfold parse_owner in H. apply bind_Ok in H as (owner & _ & H).
  do 2 (apply bind_Ok in H as (? & _ & H)). apply bind_Ok in H as ([] & _ & H).
  apply bind_Ok in H as (p & _ & H). apply bind_Ok in H as (s & _ & H). apply bind_Ok in H as (w & _ & H).
  destruct (zget p ordered ≫= _); [|done]. apply bind_Ok in H as ([] & _ & H).
  apply bind_Ok in H as (? & _ & H). apply bind_Ok in H as ([] & _ & H).
  apply bind_Ok in H as (resource & Hr & H). apply bind_Ok in H as (transition & Ht & H).
  apply bind_Ok in H as ([] & _ & H). apply bind_Ok in H as (call & Hc & H).
  apply bind_Ok in H as ([] & Hm%check_Ok_any & H). cbv zeta in H.
  apply bind_Ok in H as ([] & _ & <-%Ok_eq). cbn [groups].
  intros ps group Hget kv Hin. rewrite (aget_aset _ pair_eq_b_spec) in Hget.
  destruct (pair_eq_b ps (p, s)) eqn:E; [|by eapply Hg].
  apply pair_eq_b_spec in E as ->. injection Hget as <-.
  apply (elem_of_aset _ owner_key_eq_spec) in Hin as [->|Hin].
  - split; cbn; try done. intros Hn. apply Bool.eqb_prop in Hm.
    rewrite (proj2 (String.eqb_neq _ _) Hn) in Hm. symmetry in Hm. apply bool_decide_eq_false in Hm.
    by destruct call; [exfalso; apply Hm|].
  - destruct (aget pair_eq_b (p, s) (groups scan)) eqn:E; cbn in Hin; [by eapply Hg|by apply not_elem_of_nil in Hin].
Qed.

Lemma parse_pipeline_owners contract results proof :
  parse_pipeline contract results = Ok proof → groups_ok (owners proof).
Proof.
  unfold parse_pipeline. intros H. do 3 (apply bind_Ok in H as (? & _ & H)).
  apply bind_Ok in H as (groups & Hgr & <-%Ok_eq). cbn. unfold parse_owners in Hgr.
  do 2 (apply bind_Ok in Hgr as (? & _ & Hgr)). apply bind_Ok in Hgr as (scan & Hs & Hgr).
  apply bind_Ok in Hgr as ([] & _ & <-%Ok_eq). revert Hs.
  apply (fold_res_inv (fun sc => groups_ok (PipelineContract.groups sc))); [done|].
  intros raw s1 s2 _. apply parse_owner_ok.
Qed.

(** ** Growing drafts *)

Definition pending (d : Draft) (target source : string) : Prop :=
  {| node := source; milestone := RESULT_READY |} ∈ default [] (sget target (added d)).

Record grows (d d' : Draft) : Prop := {
  gr_pending : ∀ target source, pending d target source → pending d' target source;
  gr_drafted : ∀ n, n ∈ drafted d → n ∈ drafted d';
}.
#[export] Instance grows_preorder : PreOrder grows.
Proof. split; [by split|]. intros a b c [] []. split; auto. Qed.

Lemma grows_add_edge target source m d : grows d (add_edge target source m d).
Proof.
  split; [|done]. intros t s Hp. unfold pending, add_edge in *. cbn. rewrite sget_sset.
  destruct (String.eqb_spec t target) as [->|]; [|done]. cbn. apply elem_of_app. by left.
Qed.
Lemma grows_add target source d : grows d (add target source d).
Proof. apply grows_add_edge. Qed.
Lemma grows_remove target source d : grows d (remove_edge target source d).
Proof. by split. Qed.
Lemma grows_node n d : grows d (draft_node n d).
Proof. split; [done|]. intros n' Hn. cbn. apply elem_of_app. by left. Qed.
Lemma pending_add target source d : pending (add target source d) target source.
Proof.
  unfold pending, add, add_edge. cbn. rewrite sget_sset, String.eqb_refl. cbn. apply elem_of_app. right. by apply list_elem_of_singleton.
Qed.

Lemma grows_trans d1 d2 d3 : grows d2 d3 → grows d1 d2 → grows d1 d3.
Proof. intros H23 H12. by etrans. Qed.

Lemma grows_fold {A} (f : Draft → A → Draft) l d : (∀ d x, grows d (f d x)) → grows d (fold_left f l d).
Proof. intros Hf. revert d. induction l as [|x l IH]; intros d; cbn; [done|]. etrans; [apply Hf|apply IH]. Qed.

Lemma pending_fold {A} (source : A → string) target l d x : x ∈ l →
  pending (fold_left (fun d x => add_edge target (source x) RESULT_READY d) l d) target (source x).
Proof.
  revert d. induction l as [|y l IH]; intros d; [by intros ?%not_elem_of_nil|].
  intros [->|]%elem_of_cons; cbn; [|by apply IH].
  eapply gr_pending; [apply grows_fold; intros; apply grows_add_edge|]. apply pending_add.
Qed.

(** [grow] shows that a draft built by additions extends another;
    [find_edge] finds an edge among the last ones added. *)
Ltac grow1 :=
  first [reflexivity
        | eapply grows_trans; [first [apply grows_add | apply grows_add_edge | apply grows_remove | apply grows_node
            | apply grows_fold; intros; first [apply grows_add | apply grows_add_edge]]|]
        | match goal with |- context [match ?x with Some _ => _ | None => _ end] => destruct x end
        | match goal with |- context [if ?x then _ else _] => destruct x end].
Ltac grow := repeat grow1.
Ltac find_edge := first [apply pending_add | eapply gr_pending; [first [apply grows_add | apply grows_add_edge
  | apply grows_remove | apply grows_node]|]; find_edge].

(** ** The edges of one stripe *)

Section Stripe.
Context (E : string → string → Prop) (N : string → Prop) (p s : Z).
Abbreviation at_ r t := (owner_id p s r t None).

Record slot_order : Prop := {
  so_commit : E (at_ "ACTIVATION_ROWS" "COMMIT") (at_ "EXSIA_WORKSPACE" "ACQUIRE");
  so_seal : E (at_ "RESIDUAL_PAYLOAD" "SEAL") (at_ "ACTIVATION_ROWS" "COMMIT");
  so_capacity : E (at_ "FRONTEND_OUTSTANDING" "ACQUIRE") (at_ "RESIDUAL_PAYLOAD" "SEAL");
  so_enqueue : E (at_ "FRONTEND_QUEUE" "ENQUEUE") (at_ "FRONTEND_OUTSTANDING" "ACQUIRE");
  so_workspace : E (at_ "EXSIA_WORKSPACE" "RELEASE") (at_ "FRONTEND_QUEUE" "ENQUEUE");
  so_dequeue : E (at_ "FRONTEND_QUEUE" "DEQUEUE") (at_ "FRONTEND_QUEUE" "ENQUEUE");
  so_backpressure : 2 <= s →
    E (at_ "FRONTEND_OUTSTANDING" "ACQUIRE") (owner_id p (s - 2) "FRONTEND_OUTSTANDING" "RELEASE" None);
}.

Record work_order (call work : Z) : Prop := {
  wo_prepare : E (call_id call "PREPARE") (at_ "FRONTEND_QUEUE" "DEQUEUE");
  wo_submit : E (npu_id work) (call_id call "PUBLISH");
  wo_accept : E (at_ "CPU_FUNCTIONAL_STREAM" "ACCEPTED") (call_id call "PUBLISH");
  wo_run : E (npu_id work) (at_ "CPU_FUNCTIONAL_STREAM" "ACCEPTED");
  wo_complete : E (at_ "CPU_FUNCTIONAL_STREAM" "COMPLETED") (at_ "CPU_FUNCTIONAL_STREAM" "ACCEPTED");
}.

(** The release waits for the callback when there is one (it has a node, [N]),
    for the completion of the stripe otherwise, and for the works [reqs]. *)
Record release_order (reqs : list Z) : Prop := {
  ro_callback : E (at_ "FRONTEND_OUTSTANDING" "RELEASE") (at_ "CPU_FUNCTIONAL_STREAM" "COMPLETED") ∨
    N (at_ "RESIDUAL_CALLBACK" "COMPLETE") ∧
    E (at_ "FRONTEND_OUTSTANDING" "RELEASE") (at_ "RESIDUAL_CALLBACK" "COMPLETE") ∧
    E (at_ "RESIDUAL_CALLBACK" "COMPLETE") (at_ "CPU_FUNCTIONAL_STREAM" "COMPLETED");
  ro_works : ∀ w, w ∈ reqs → E (at_ "FRONTEND_OUTSTANDING" "RELEASE") (npu_id w);
}.
End Stripe.

Record stripe_order (E : string → string → Prop) (N : string → Prop) (p s call work : Z) (reqs : list Z) : Prop := {
  st_slot : slot_order E p s;
  st_work : work_order E p s call work;
  st_release : release_order E N p s reqs;
}.

Lemma slot_order_mono (E E' : string → string → Prop) p s :
  (∀ t u, E t u → E' t u) → slot_order E p s → slot_order E' p s.
Proof. intros HE []. split; auto. Qed.

Lemma work_order_mono (E E' : string → string → Prop) p s call work :
  (∀ t u, E t u → E' t u) → work_order E p s call work → work_order E' p s call work.
Proof. intros HE []. split; auto. Qed.

Lemma stripe_order_mono (E E' : string → string → Prop) (N N' : string → Prop) p s call work reqs :
  (∀ t u, E t u → E' t u) → (∀ t, N t → N' t) →
  stripe_order E N p s call work reqs → stripe_order E' N' p s call work reqs.
Proof.
  intros HE HN [Hs Hw [Hc Hr]]. split; [by eapply slot_order_mono|by eapply work_order_mono|]. split; auto.
  destruct Hc as [|(? & ? & ?)]; [left|right]; auto.
Qed.

(** The draft, or a list of nodes, has a node of that identity. *)
Definition has_node (created : list Node) (t : string) : Prop := ∃ n, n ∈ created ∧ identity n = t.
Lemma has_node_mono created created' t : (∀ n, n ∈ created → n ∈ created') → has_node created t → has_node created' t.
Proof. intros Hn (n & ? & ?). exists n. auto. Qed.

(** ** One owner event *)

Section Projection.
Context `{Host}.
Context (indexed results : list (string * record)).
Context (p : Z) (parent : record).

Lemma slot_edges_order s prior prior_dequeue d :
  grows d (slot_edges p s prior prior_dequeue d) ∧ slot_order (pending (slot_edges p s prior prior_dequeue d)) p s.
Proof.
  unfold slot_edges, oid. split; [by grow|]. split.
  all: destruct prior_dequeue; destruct (2 <=? s) eqn:E2; intros; first [find_edge | apply Z.leb_gt in E2; lia].
Qed.

Lemma slot_edges_prior s source prior_dequeue d :
  pending (slot_edges p s (Some source) prior_dequeue d) (owner_id p s "EXSIA_WORKSPACE" "ACQUIRE" None) source.
Proof. unfold slot_edges, oid. destruct prior_dequeue, (2 <=? s); find_edge. Qed.

Lemma slot_edges_fifo s prior source d :
  pending (slot_edges p s prior (Some source) d) (owner_id p s "FRONTEND_QUEUE" "DEQUEUE" None) source.
Proof. unfold slot_edges, oid. find_edge. Qed.

Lemma work_edges_order s work call d :
  grows d (work_edges p s work call d) ∧ work_order (pending (work_edges p s work call d)) p s call work.
Proof. unfold work_edges, oid. split; [by grow|]. split; find_edge. Qed.

Section Owner.
Context (s work : Z) (operation phase : string) (group : Group).
Abbreviation project := (project_owner indexed results p parent s work operation phase group).
Abbreviation owner_name k := (owner_id p s (key_resource k) (key_transition k) (key_call k)).

(** The edges the event [k] is given in the draft [d']. *)
Record owner_edges (kv : OwnerKey * record) (d' : Draft) : Prop := {
  oe_node : has_node (drafted d') (owner_name kv.1);
  oe_works : ∃ reqs, required_ids kv.2 "required_work_ids" = Ok reqs ∧
    ∀ w, w ∈ reqs → pending d' (owner_name kv.1) (npu_id w);
  oe_callback : key_resource kv.1 = "RESIDUAL_CALLBACK" →
    pending d' (owner_name kv.1) (owner_id p s "CPU_FUNCTIONAL_STREAM" "COMPLETED" None);
  oe_release : event_of kv.1 = ("FRONTEND_OUTSTANDING", "RELEASE") →
    pending d' (owner_name kv.1) (if has_callback group
      then owner_id p s "RESIDUAL_CALLBACK" "COMPLETE" None
      else owner_id p s "CPU_FUNCTIONAL_STREAM" "COMPLETED" None);
}.

Lemma owner_edges_mono kv d d' : grows d d' → owner_edges kv d → owner_edges kv d'.
Proof.
  intros [Hp Hn] [Hnode (reqs & Hr & Hw) Hc Hre].
  split; eauto 10 using has_node_mono.
Qed.

Lemma event_edges_grow r t identity observed calls d d' :
  event_edges p s group r t identity observed calls d = Ok d' →
  grows d d' ∧
  (r = "RESIDUAL_CALLBACK" → pending d' identity (owner_id p s "CPU_FUNCTIONAL_STREAM" "COMPLETED" None)) ∧
  ((r, t) = ("FRONTEND_OUTSTANDING", "RELEASE") → pending d' identity (if has_callback group
      then owner_id p s "RESIDUAL_CALLBACK" "COMPLETE" None
      else owner_id p s "CPU_FUNCTIONAL_STREAM" "COMPLETED" None)).
Proof.
  unfold event_edges, oid. intros Hx.
  destruct (String.eqb_spec r "RESIDUAL_MERGE_CALL") as [->|].
  { apply bind_Ok in Hx as ([] & _ & <-%Ok_eq). split_and!; [by grow|done|done]. }
  destruct (String.eqb_spec r "RESIDUAL_CALLBACK") as [->|].
  { apply Ok_eq in Hx as <-. split_and!; [by grow| |done]. intros _.
    eapply gr_pending; [apply grows_fold; intros; apply grows_add|]. apply pending_add. }
  destruct (event_eq _ _) eqn:Ee.
  - apply Ok_eq in Hx as <-. split_and!; [by grow|done|]. intros _. apply pending_add.
  - apply Ok_eq in Hx as <-. split_and!; [done|done|]. intros Heq%event_eq_spec. congruence.
Qed.

Lemma project_owner_edges d kv d' :
  owner_ok kv → project d kv = Ok d' → grows d d' ∧ owner_edges kv d'.
Proof.
  intros [Hr Ht Hc Hm] Hp. unfold project_owner in Hp. rewrite Hr, Ht, Hc in Hp. cbn in Hp.
  apply bind_Ok in Hp as (work_reqs & Hw & Hp). apply bind_Ok in Hp as (call_reqs & Hcr & Hp).
  do 2 (apply bind_Ok in Hp as ([] & _ & Hp)). apply bind_Ok in Hp as (d1 & Hd1 & Hp).
  apply bind_Ok in Hp as (d2 & (Hg2 & Hcb & Hrel)%event_edges_grow & <-%Ok_eq).
  set (d3 := fold_left _ call_reqs d1) in *.
  assert (Hg3 : grows d1 d3) by (unfold d3; by grow).
  assert (grows d d1 ∧ ∀ w, w ∈ work_reqs → pending d1 (owner_name kv.1) (npu_id w)) as [Hg1 Hworks].
  { match type of Hd1 with (if ?b then _ else _) = _ => destruct b end; apply bind_Ok in Hd1 as ([] & Hchk%check_Ok_any & <-%Ok_eq).
    - split; [by grow|]. intros w. apply (pending_fold npu_id).
    - apply Nat.eqb_eq, nil_length_inv in Hchk as ->. split; [done|]. by intros w ?%not_elem_of_nil. }
  assert (Hg : grows d2 (draft_node {| identity := owner_name kv.1; kind := BARRIER; ExecutionIR.operation := operation;
    ExecutionIR.phase := phase; order := 0; dependencies := []; service := None; resources := [] |} d2)) by apply grows_node.
  split; [by repeat (etrans; [eassumption|])|]. split.
  - eexists. split; [cbn; apply elem_of_app; right; by apply list_elem_of_singleton|done].
  - exists work_reqs. split; [done|]. intros w Hin. do 3 (eapply gr_pending; [eassumption|]). by apply Hworks.
  - intros E. eapply gr_pending; [exact Hg|]. by apply Hcb.
  - intros E. eapply gr_pending; [exact Hg|]. by apply Hrel.
Qed.

Lemma project_group_edges d l d' :
  (∀ kv, kv ∈ l → owner_ok kv) → fold_res project d l = Ok d' →
  grows d d' ∧ ∀ kv, kv ∈ l → owner_edges kv d'.
Proof.
  intros Hl. apply (fold_res_hist (fun pre d' => grows d d' ∧ ∀ kv, kv ∈ pre → owner_edges kv d')).
  - split; [done|]. by intros kv ?%not_elem_of_nil.
  - intros pre kv post d1 d2 -> [Hg Hpre] Hp.
    apply project_owner_edges in Hp as [Hg' He]; [|apply Hl; set_solver].
    split; [by etrans|]. intros kv' [Hin| ->%list_elem_of_singleton]%elem_of_app; [|done].
    eapply owner_edges_mono; [done|]. by apply Hpre.
Qed.
End Owner.
End Projection.
