(* ===== verification/PipelineTheorems.v ===== *)
(** * What a projected pipeline guarantees

    [projected_ok] collects the edges every declared stripe has in the result
    of [project_pipeline], and the facts the loop over a parent adds across its
    stripes: the queue is first in first out, a workspace slot passes from a
    stripe to the next that uses it, and the releases of the stripes cover the
    required works of the parent exactly once.

    [pipeline_slots] then bounds every timing that respects those edges: at any
    moment at most two stripes of a parent are outstanding and a workspace slot
    holds at most one. *)
From S2P Require Import Prelude Records OptraceParents PipelineContract Pipeline PipelineEdges ExecutionIR.
Set Default Goal Selector "!".

Section Stripes.
Context `{Host}.
Context (proof : PipelineContract) (indexed results : list (string * record)).
Context (Howners : groups_ok (owners proof)).
Context (p : Z) (parent : record) (fence : string).

Abbreviation release s := (owner_id p s "FRONTEND_OUTSTANDING" "RELEASE" None).
Abbreviation workspace_release s := (owner_id p s "EXSIA_WORKSPACE" "RELEASE" None).
Abbreviation workspace_acquire s := (owner_id p s "EXSIA_WORKSPACE" "ACQUIRE" None).
Abbreviation dequeue s := (owner_id p s "FRONTEND_QUEUE" "DEQUEUE" None).

(** The group of a stripe has an owner, without a call, for an event. *)
Definition group_has (group : Group) (e : Event) : Prop :=
  ∃ kv, kv ∈ group ∧ kv.1 = {| key_resource := e.1; key_transition := e.2; key_call := None |}.

Lemma group_present group e : (∀ kv, kv ∈ group → owner_ok kv) → e.1 ≠ "RESIDUAL_MERGE_CALL" →
  event_in e (map (fun kv => event_of kv.1) group) = true → group_has group e.
Proof.
  intros Hok He Hin. unfold event_in in Hin. apply existsb_exists in Hin as (e' & Hin & Heq%event_eq_spec). subst e'.
  apply in_map_iff in Hin as ([[r t c] owner] & <- & Hin%list_elem_of_In). cbn in *.
  eexists. split; [exact Hin|]. cbn. f_equal. by apply (Hok _ Hin).
Qed.

Lemma check_group_has group e : (∀ kv, kv ∈ group → owner_ok kv) → check_group group = Ok tt →
  e ∈ REQUIRED_EVENTS → group_has group e.
Proof.
  intros Hok Hg He. unfold check_group in Hg. apply bind_Ok in Hg as ([] & Hs%check_Ok_any & _).
  apply andb_prop in Hs as [Hs _]. apply group_present; [done| |].
  - intros E. unfold REQUIRED_EVENTS in He. repeat (apply elem_of_cons in He as [->|He]; [done|]). by apply not_elem_of_nil in He.
  - unfold subset_of in Hs. rewrite forallb_forall in Hs. apply Hs. by apply list_elem_of_In.
Qed.

(** What one pass of the loop over the stripes does. *)
Record stripe_step (c : Cursor) (s : Z) (result : record) (c' : Cursor) (call slot : Z) (reqs : list Z) : Prop := {
  ss_call : pget result "call_id" = JInt call;
  ss_slot : pget result "host_slot" = JInt slot;
  ss_grows : grows (draft c) (draft c');
  ss_order : ∃ work, pget result "work_id" = JInt work ∧ stripe_order (pending (draft c')) (has_node (drafted (draft c'))) p s call work reqs ∧
    ∀ w, w ∈ reqs ↔ w ∈ work :: default [] (zget s (default [] (zget p (residual_works proof))));
  ss_fence : pending (draft c') fence (release s);
  ss_nodes : ∀ e, e ∈ REQUIRED_EVENTS → has_node (drafted (draft c')) (owner_id p s e.1 e.2 None);
  ss_released : released_works c' = released_works c ++ reqs;
  ss_dequeue : prior_dequeue c' = Some (dequeue s);
  ss_fifo : ∀ source, prior_dequeue c = Some source → pending (draft c') (dequeue s) source;
  ss_prior : prior_slot c' = zset slot (workspace_release s) (prior_slot c);
  ss_reuse : ∀ source, zget slot (prior_slot c) = Some source → pending (draft c') (workspace_acquire s) source;
}.

Lemma release_order_edges s group reqs owner d :
  (∀ kv, kv ∈ group → owner_ok kv) → (∀ kv, kv ∈ group → owner_edges p s group kv d) →
  owner_of group "FRONTEND_OUTSTANDING" "RELEASE" = Ok owner → required_ids owner "required_work_ids" = Ok reqs →
  release_order (pending d) (has_node (drafted d)) p s reqs.
Proof.
  intros Hok He Ho Hr. unfold owner_of in Ho. destruct (aget _ _ group) as [o|] eqn:E; [|done].
  apply Ok_eq in Ho as ->. apply (aget_In _ owner_key_eq_spec) in E. apply He in E as [_ (reqs' & Hr' & Hw) _ Hrel].
  cbn in Hr', Hw, Hrel. rewrite Hr in Hr'. apply Ok_eq in Hr' as <-. split; [|done].
  specialize (Hrel eq_refl). destruct (has_callback group) eqn:Ecb; [right|by left].
  apply group_present in Ecb as ([k o'] & Hin & Hk); [|done|done]. cbn in Hk. subst k.
  apply He in Hin as [Hnode _ Hcb _]. split_and!; [exact Hnode|done|by apply Hcb].
Qed.

Lemma project_stripe_step c s result c' :
  project_stripe proof indexed results p parent fence c (s, result) = Ok c' →
  ∃ call slot reqs, stripe_step c (Z.of_nat s) result c' call slot reqs.
Proof.
  intros Hp. unfold project_stripe in Hp. cbn [fst snd] in Hp.
  apply bind_Ok in Hp as (work & [Hwork _]%integer_Ok & Hp). apply bind_Ok in Hp as (call & [Hcall _]%integer_Ok & Hp).
  apply bind_Ok in Hp as ([] & _ & Hp). apply bind_Ok in Hp as (npu_row & _ & Hp).
  apply bind_Ok in Hp as (operation & _ & Hp). apply bind_Ok in Hp as ([] & _ & Hp).
  apply bind_Ok in Hp as (fence_row & _ & Hp). apply bind_Ok in Hp as ([] & _ & Hp).
  apply bind_Ok in Hp as (operation_row & _ & Hp). apply bind_Ok in Hp as (phase_value & _ & Hp).
  set (group := default [] _) in Hp. apply bind_Ok in Hp as ([] & Hg & Hp).
  apply bind_Ok in Hp as (slot & [Hslot _]%integer_Ok & Hp). apply bind_Ok in Hp as ([] & _ & Hp).
  apply bind_Ok in Hp as (reqs & Hreqs & Hp). set (d1 := slot_edges _ _ _ _ _) in Hp.
  set (d2 := work_edges _ _ _ _ _) in Hp. apply bind_Ok in Hp as (d3 & Hd3 & <-%Ok_eq).
  assert (Hok : ∀ kv, kv ∈ group → owner_ok kv).
  { unfold group. destruct (aget pair_eq_b _ (owners proof)) as [g|] eqn:E; cbn; [|by intros kv ?%not_elem_of_nil].
    by apply Howners in E. }
  pose proof (slot_edges_order p (Z.of_nat s) (zget slot (prior_slot c)) (prior_dequeue c) (draft c)) as [Hg1 Ho1].
  pose proof (work_edges_order p (Z.of_nat s) work call d1) as [Hg2 Ho2].
  apply project_group_edges in Hd3 as [Hg3 Hedges]; [|done]. fold d1 in Hg1, Ho1. fold d2 in Hg2, Ho2.
  assert (Hg4 := grows_add fence (release (Z.of_nat s)) d3). assert (Hf4 := pending_add fence (release (Z.of_nat s)) d3).
  set (d4 := add fence _ d3) in *. clearbody d4.
  assert (Hg24 : grows d2 d4) by (by etrans). assert (Hg14 : grows d1 d4) by (by etrans).
  assert (Hedges4 : ∀ kv, kv ∈ group → owner_edges p (Z.of_nat s) group kv d4).
  { intros kv Hin. eapply owner_edges_mono; [exact Hg4|by apply Hedges]. }
  unfold check_release in Hreqs. do 2 (apply bind_Ok in Hreqs as (? & _ & Hreqs)).
  apply bind_Ok in Hreqs as (owner & Howner & Hreqs). apply bind_Ok in Hreqs as (reqs' & Hreqs' & Hreqs).
  apply bind_Ok in Hreqs as (? & _ & Hreqs). apply bind_Ok in Hreqs as ([] & _ & Hreqs).
  apply bind_Ok in Hreqs as ([] & Hbound%check_Ok_any & Hreqs). do 2 (apply bind_Ok in Hreqs as (? & _ & Hreqs)).
  apply bind_Ok in Hreqs as ([] & _ & <-%Ok_eq).
  exists call, slot, reqs'. split; cbn; try done.
  - by etrans.
  - exists work. split; [done|]. split; [|by apply set_eq_spec].
    split.
    + eapply slot_order_mono; [exact (gr_pending _ _ Hg14)|done].
    + eapply work_order_mono; [exact (gr_pending _ _ Hg24)|done].
    + by eapply release_order_edges.
  - intros e He. destruct (check_group_has group e Hok Hg He) as ([k o] & Hin & Hk). cbn in Hk. subst k.
    by destruct (Hedges4 _ Hin) as [Hn _ _ _].
  - intros source Hs. eapply gr_pending; [exact Hg14|]. unfold d1. rewrite Hs. apply slot_edges_fifo.
  - intros source Hs. eapply gr_pending; [exact Hg14|]. unfold d1. rewrite Hs. apply slot_edges_prior.
Qed.

(** ** The loop over the stripes *)

Abbreviation residual_of s := (default [] (zget s (default [] (zget p (residual_works proof))))).

(** The stripe [s] with result [r] has its edges in [E]; its release requires [reqs]. *)
Definition stripe_projected (E : string → string → Prop) (created : list Node) (s : Z) (r : record) (reqs : list Z) : Prop :=
  ∃ call work slot, pget r "call_id" = JInt call ∧ pget r "work_id" = JInt work ∧ pget r "host_slot" = JInt slot ∧
    stripe_order E (has_node created) p s call work reqs ∧ ∀ w, w ∈ reqs ↔ w ∈ work :: residual_of s.

(** The stripes [rows] so far, with the edges across them. *)
Record stripes_projected (E : string → string → Prop) (created : list Node) (rows : list record)
    (reqss : list (list Z)) : Prop := {
  sl_length : length reqss = length rows;
  sl_each : ∀ i r, rows !! i = Some r → ∃ reqs, reqss !! i = Some reqs ∧ stripe_projected E created (Z.of_nat i) r reqs;
  sl_fence : ∀ i, (i < length rows)%nat → E fence (release (Z.of_nat i));
  sl_nodes : ∀ i e, (i < length rows)%nat → e ∈ REQUIRED_EVENTS →
    has_node created (owner_id p (Z.of_nat i) e.1 e.2 None);
  sl_fifo : ∀ i, (S i < length rows)%nat → E (dequeue (Z.of_nat (S i))) (dequeue (Z.of_nat i));
  sl_reuse : ∀ i j a b, (i < j)%nat → rows !! i = Some a → rows !! j = Some b →
    pget a "host_slot" = pget b "host_slot" →
    (∀ k c, (i < k < j)%nat → rows !! k = Some c → pget c "host_slot" ≠ pget b "host_slot") →
    E (workspace_acquire (Z.of_nat j)) (workspace_release (Z.of_nat i));
}.

Lemma stripes_projected_mono (E E' : string → string → Prop) created created' rows reqss :
  (∀ t u, E t u → E' t u) → (∀ t, has_node created t → has_node created' t) →
  stripes_projected E created rows reqss → stripes_projected E' created' rows reqss.
Proof.
  intros HE Hn [Hl He Hf Hno Hq Hr]. split; eauto.
  - intros i r Hi. destruct (He i r Hi) as (reqs & Hreqs & call & work & slot & ? & ? & ? & Ho & ?).
    exists reqs. split; [done|]. exists call, work, slot. split_and!; try done. by eapply stripe_order_mono.
Qed.

Record loop_ok (d0 : Draft) (rows : list record) (c : Cursor) (reqss : list (list Z)) : Prop := {
  lo_grows : grows d0 (draft c);
  lo_stripes : stripes_projected (pending (draft c)) (drafted (draft c)) rows reqss;
  lo_released : released_works c = concat reqss;
  lo_dequeue : ∀ i, length rows = S i → prior_dequeue c = Some (dequeue (Z.of_nat i));
  lo_prior : ∀ i a slot, rows !! i = Some a → pget a "host_slot" = JInt slot →
    (∀ k b, (i < k)%nat → rows !! k = Some b → pget b "host_slot" ≠ JInt slot) →
    zget slot (prior_slot c) = Some (workspace_release (Z.of_nat i));
}.

Lemma lookup_snoc {A} (l : list A) x i y :
  (l ++ [x]) !! i = Some y → l !! i = Some y ∧ (i < length l)%nat ∨ i = length l ∧ y = x.
Proof.
  intros [Hl|[Hge Hl]]%lookup_app_Some; [left; split; [done|by eapply lookup_lt_Some]|right].
  apply list_lookup_singleton_Some in Hl as [? <-]. split; [lia|done].
Qed.

(** Rows at different indices of [l ++ [x]] with the earlier one in [l]. *)
Lemma stripes_projected_snoc c c' rows r call slot reqs reqss d0 :
  loop_ok d0 rows c reqss → stripe_step c (Z.of_nat (length rows)) r c' call slot reqs →
  stripes_projected (pending (draft c')) (drafted (draft c')) (rows ++ [r]) (reqss ++ [reqs]).
Proof.
  intros [_ Hs _ Hdeq Hpri] [Hcall Hslot [Hgp Hgn] (work & Hwork & Ho & Hw) Hfence Hnodes _ _ Hfifo _ Hreuse].
  apply (stripes_projected_mono _ _ _ _ _ _ Hgp (fun t => has_node_mono _ _ t Hgn)) in Hs as [Hl He Hf Hno Hq Hre].
  split.
  - rewrite !length_app; cbn; lia.
  - intros i a [[Hi ?]|[-> ->]]%lookup_snoc.
    + destruct (He i a Hi) as (reqs' & Hr' & ?). exists reqs'. split; [by rewrite lookup_app_l by lia|done].
    + exists reqs. split; [by rewrite <-Hl, list_lookup_middle|]. by exists call, work, slot.
  - intros i Hi. rewrite length_app in Hi. cbn in Hi.
    destruct (decide (i = length rows)) as [->|]; [done|apply Hf; lia].
  - intros i e Hi Hin. rewrite length_app in Hi. cbn in Hi.
    destruct (decide (i = length rows)) as [->|]; [by apply Hnodes|apply Hno; [lia|done]].
  - intros i Hi. rewrite length_app in Hi. cbn in Hi.
    destruct (decide (S i = length rows)) as [E|]; [|apply Hq; lia]. rewrite E. apply Hfifo. by apply Hdeq.
  - intros i j a b Hij [[Hi _]|[-> ->]]%lookup_snoc [[Hj ?]|[-> ->]]%lookup_snoc Hsame Hbetween; try lia.
    + eapply Hre; try done. intros k c0 Hk Hc0. apply (Hbetween k); [done|]. rewrite lookup_app_l by lia. done.
    + apply Hreuse. eapply Hpri; [done|congruence|]. intros k c0 Hk Hc0. rewrite <-Hslot. apply (Hbetween k).
      * pose proof (lookup_lt_Some _ _ _ Hc0). lia.
      * by rewrite lookup_app_l by (by eapply lookup_lt_Some).
Qed.

Lemma loop_step d0 rows c reqss r c' :
  loop_ok d0 rows c reqss → project_stripe proof indexed results p parent fence c (length rows, r) = Ok c' →
  ∃ reqs, loop_ok d0 (rows ++ [r]) c' (reqss ++ [reqs]).
Proof.
  intros Hlo (call & slot & reqs & Hstep)%project_stripe_step. exists reqs.
  pose proof (stripes_projected_snoc _ _ _ _ _ _ _ _ _ Hlo Hstep) as Hs.
  destruct Hlo as [Hg _ Hrel _ Hpri]. destruct Hstep as [Hcall Hslot Hgr _ _ _ Hreleased Hd _ Hps _].
  split; [by etrans|done| | |].
  - by rewrite Hreleased, Hrel, concat_app; cbn; rewrite app_nil_r.
  - intros i. rewrite length_app; cbn. intros E. rewrite Hd. do 2 f_equal. lia.
  - intros i a slot' Hi Ha Hlast. rewrite Hps, zget_zset. destruct (Z.eqb_spec slot' slot) as [->|Hne].
    + apply lookup_snoc in Hi as [[Hi Hlt]|[-> ->]]; [|done].
      exfalso. apply (Hlast (length rows) r); [done| |done]. by rewrite list_lookup_middle.
    + apply lookup_snoc in Hi as [[Hi Hlt]|[-> ->]]; [|congruence].
      eapply Hpri; [done..|]. intros k b Hk Hb. apply (Hlast k); [done|].
      by rewrite lookup_app_l by (by eapply lookup_lt_Some).
Qed.

Lemma project_stripes_ok d0 rows c' :
  fold_res (project_stripe proof indexed results p parent fence)
    {| prior_slot := []; prior_dequeue := None; released_works := []; draft := d0 |} (enumerate rows) = Ok c' →
  ∃ reqss, loop_ok d0 rows c' reqss.
Proof.
  intros Hf. rewrite <-(enumerate_snd rows). revert Hf.
  apply (fold_res_hist (fun (pre : list (nat * record)) c => ∃ reqss, loop_ok d0 pre.*2 c reqss)).
  - exists []. split; cbn; try done. by split; cbn; try (intros; lia).
  - intros pre [i r] post c1 c2 [-> _]%enumerate_split [reqss Hlo] Hs.
    rewrite fmap_app. cbn. rewrite <-(length_fmap snd) in Hs. apply (loop_step _ _ _ _ _ _ Hlo) in Hs as [reqs ?]. eauto.
Qed.
End Stripes.

(** ** The whole projection *)

Record parent_projected `{Host} (proof : PipelineContract) (E : string → string → Prop) (created : list Node)
    (p : Z) (parent : record) : Prop := {
  pp_all : ∃ rows fence_call reqss works, zget p (stripes proof) = Some rows ∧
    pget parent "fence_call_id" = JInt fence_call ∧
    stripes_projected proof p (call_id fence_call "COMPLETE_REQUIRED") E created rows reqss ∧
    required_ids parent "required_work_ids" = Ok works ∧ concat reqss ≡ₚ works ∧
    ∀ w, w ∈ works → E (call_id fence_call "COMPLETE_REQUIRED") (npu_id w);
}.

Lemma parent_projected_mono `{Host} proof (E E' : string → string → Prop) created created' p parent :
  (∀ t u, E t u → E' t u) → (∀ t, has_node created t → has_node created' t) →
  parent_projected proof E created p parent → parent_projected proof E' created' p parent.
Proof.
  intros HE Hn [(rows & fence_call & reqss & works & ? & ? & Hs & ? & ? & ?)].
  split. exists rows, fence_call, reqss, works. split_and!; eauto. by eapply stripes_projected_mono.
Qed.

Section Parents.
Context `{Host}.
Context (proof : PipelineContract) (indexed results : list (string * record)).
Context (Howners : groups_ok (owners proof)).

Lemma project_parent_ok d p parent d' : project_parent proof indexed results d (p, parent) = Ok d' →
  grows d d' ∧ parent_projected proof (pending d') (drafted d') p parent.
Proof using Howners.
  intros Hp. unfold project_parent in Hp. apply bind_Ok in Hp as (rows & Hrows & Hp).
  destruct (zget p (stripes proof)) as [rows'|] eqn:Ez; [|done]. apply Ok_eq in Hrows as ->.
  apply bind_Ok in Hp as (fence & Hfence & Hp). unfold parent_fence in Hfence.
  apply bind_Ok in Hfence as (fence_call & [Hfc _]%integer_Ok & Hfence). cbv zeta in Hfence.
  apply bind_Ok in Hfence as ([] & _ & Hfence). do 4 (apply bind_Ok in Hfence as (? & _ & Hfence)).
  apply bind_Ok in Hfence as ([] & _ & <-%Ok_eq).
  apply bind_Ok in Hp as (c & (reqss & [Hg Hs Hr _ _])%project_stripes_ok & Hp); [|done].
  apply bind_Ok in Hp as (works & Hw & Hp). cbv zeta in Hp. apply bind_Ok in Hp as ([] & Hc%check_Ok_any & <-%Ok_eq).
  apply andb_prop in Hc as [Hc1 Hc2%distinct_z]. pose proof (proj1 (set_eq_spec _ _) Hc1) as Hsame.
  set (d' := fold_left _ works (draft c)).
  assert (Hg' : grows (draft c) d') by (unfold d'; by grow). destruct Hg' as [Hgp Hgn].
  split; [by etrans|]. split. exists rows, fence_call, reqss, works. split_and!; try done.
  - eapply stripes_projected_mono; [exact Hgp|intros t; by apply has_node_mono|done].
  - rewrite <-Hr. apply NoDup_Permutation; [done|by eapply required_ids_NoDup|done].
  - intros w. apply (pending_fold npu_id).
Qed.

Lemma project_parents_ok l d' : fold_res (project_parent proof indexed results) new_draft l = Ok d' →
  ∀ p parent, (p, parent) ∈ l → parent_projected proof (pending d') (drafted d') p parent.
Proof using Howners.
  apply (fold_res_hist (fun (pre : list (Z * record)) d =>
    ∀ p parent, (p, parent) ∈ pre → parent_projected proof (pending d) (drafted d) p parent)).
  - by intros p parent ?%not_elem_of_nil.
  - intros pre [p0 parent0] post d1 d2 -> Hpre [[Hgp Hgn] Hp]%project_parent_ok.
    intros p parent [Hin|[= -> ->]%list_elem_of_singleton]%elem_of_app; [|done].
    eapply parent_projected_mono; [exact Hgp|intros t; by apply has_node_mono|by apply Hpre].
Qed.
End Parents.

Lemma elem_of_fromkeys {A} `{EqDecision A} (l : list A) x : x ∈ fromkeys l ↔ x ∈ l.
Proof.
  unfold fromkeys.
  assert (Hg : ∀ acc, x ∈ fold_left (fun acc x => if bool_decide (x ∈ acc) then acc else acc ++ [x]) l acc ↔ x ∈ acc ∨ x ∈ l).
  { induction l as [|y l IH]; intros acc; cbn; [set_solver|]. rewrite IH.
    case_bool_decide; set_solver. }
  rewrite Hg. set_solver.
Qed.

(** The edge [target <- source] of a projection: among the dependencies of an
    owner node, or among the additions for a node of the dataset. *)
Definition projected_edge (q : PipelineProjection) (target source : string) : Prop :=
  let e := {| node := source; milestone := RESULT_READY |} in
  (∃ n, n ∈ owner_nodes q ∧ identity n = target ∧ e ∈ dependencies n) ∨
  ((∀ n, n ∈ owner_nodes q → identity n ≠ target) ∧ e ∈ default [] (sget target (additions q))).

Lemma sget_sdel_ne {V} k k' (l : list (string * V)) : k ≠ k' → sget k (sdel k' l) = sget k l.
Proof.
  intros Hne. induction l as [|[k0 v] l IH]; cbn; [done|].
  destruct (String.eqb_spec k' k0) as [->|]; cbn.
  - by destruct (String.eqb_spec k k0).
  - by rewrite IH.
Qed.

Lemma complete_nodes_spec l additions0 completed rest target :
  fold_left complete_node l ([], additions0) = (completed, rest) →
  map identity completed = map identity l ∧
  (target ∈ map identity l → ∃ n, n ∈ completed ∧ identity n = target ∧
     ∀ e, e ∈ default [] (sget target additions0) → e ∈ dependencies n) ∧
  (target ∉ map identity l → sget target rest = sget target additions0).
Proof.
  revert completed rest. induction l as [|n l IH] using rev_ind; intros completed rest.
  { intros [= <- <-]. split_and!; [done| |done]. by intros ?%not_elem_of_nil. }
  rewrite fold_left_app. destruct (fold_left complete_node l _) as [nodes1 rest1].
  destruct (IH _ _ eq_refl) as (Hids & Hin & Hout). cbn [fold_left].
  unfold complete_node. cbn [fst snd]. intros [= <- <-]. rewrite !map_app, Hids. cbn [map ExecutionIR.identity]. split; [done|]. split.
  - intros Ht. destruct (decide (target ∈ map identity l)) as [Hl|Hl].
    + destruct (Hin Hl) as (m & ? & ? & ?). exists m. split; [apply elem_of_app; by left|done].
    + apply elem_of_app in Ht as [|Ht%list_elem_of_singleton]; [done|]. eexists.
      split; [apply elem_of_app; right; by apply list_elem_of_singleton|]. cbn [ExecutionIR.identity dependencies]. split; [done|].
      intros e He. rewrite elem_of_fromkeys, elem_of_cons. right. by rewrite <-Ht, (Hout Hl).
  - intros [Hl Hne]%not_elem_of_app. rewrite sget_sdel_ne; [by apply Hout|]. intros ->. apply Hne. by constructor.
Qed.

Lemma sget_map_snd {V W} (f : V → W) k (l : list (string * V)) :
  sget k (map (fun kv => (kv.1, f kv.2)) l) = f <$> sget k l.
Proof. induction l as [|[k' v] l IH]; cbn; [done|]. by destruct (String.eqb k k'). Qed.

(** Every declared parent has its edges in the projection, and every owner
    event a stripe must have has a node. *)
Lemma project_pipeline_ok `{Host} contract indexed results q :
  project_pipeline contract indexed results = Ok q →
  ∃ proof, parse_pipeline contract results = Ok proof ∧ contract_ok results proof ∧
    ∀ p parent, (p, parent) ∈ parents proof → parent_projected proof (projected_edge q) (owner_nodes q) p parent.
Proof.
  unfold project_pipeline. intros Hp. apply bind_Ok in Hp as (proof & Hproof & Hp).
  apply bind_Ok in Hp as (d & Hd & Hp). destruct (fold_left complete_node _ _) as [completed rest] eqn:Hc.
  apply Ok_eq in Hp as <-. exists proof. split; [done|]. split; [by eapply parse_pipeline_ok|].
  pose proof (parse_pipeline_owners _ _ _ Hproof) as Howners.
  intros p parent Hin. pose proof (project_parents_ok _ _ _ Howners _ _ Hd p parent Hin) as Hpp. clear Hd.
  assert (Hid : map identity completed = map identity (drafted d)) by (by eapply (complete_nodes_spec _ _ _ _ "")).
  assert (HE : ∀ t u, pending d t u → projected_edge {| owner_nodes := completed;
    additions := map (fun kv => (kv.1, fromkeys kv.2)) rest; removals := removed d |} t u).
  { intros t u Htu. pose proof (complete_nodes_spec _ _ _ _ t Hc) as (_ & Hin' & Hout).
    destruct (decide (t ∈ map identity (drafted d))) as [Ht|Ht].
    - destruct (Hin' Ht) as (n & ? & ? & Hn). left. exists n. split_and!; [done..|by apply Hn].
    - right. cbn. rewrite <-Hid in Ht. split.
      + intros n Hn <-. apply Ht. by apply list_elem_of_In, in_map, list_elem_of_In.
      + rewrite sget_map_snd. rewrite Hid in Ht. rewrite (Hout Ht). unfold pending in Htu.
        destruct (sget t (added d)); [|done]. cbn in *. by apply elem_of_fromkeys. }
  eapply parent_projected_mono; [exact HE| |exact Hpp].
  intros t (n & Hn & <-). assert (Hm : identity n ∈ map identity completed) by (rewrite Hid; by apply list_elem_of_In, in_map, list_elem_of_In).
  apply list_elem_of_In, in_map_iff in Hm as (m & Hm & Hmi%list_elem_of_In). by exists m.
Qed.

(** C26: Rows and works of a projected pipeline.  When [project_pipeline]
    succeeds, the stripes of every declared parent are exactly the stripe
    results that name it, numbered 0, 1, .. and tiling its rows without gap or
    overlap; every required work of the parent is released by exactly one
    stripe, whose release node waits for it; and the fence of the parent waits
    for every release and every work. *)
Theorem pipeline_works_released `{Host} contract indexed results q :
  project_pipeline contract indexed results = Ok q →
  ∃ proof, parse_pipeline contract results = Ok proof ∧
    ∀ p parent, (p, parent) ∈ parents proof → ∃ rows m works reqss fence_call,
      rows ≡ₚ stripe_results p results ∧ rows_numbered rows ∧
      pget parent "parent_m" = JInt m ∧ tile_rows 0 rows m ∧
      required_ids parent "required_work_ids" = Ok works ∧ NoDup works ∧
      pget parent "fence_call_id" = JInt fence_call ∧
      length reqss = length rows ∧ concat reqss ≡ₚ works ∧
      (∀ s reqs w, reqss !! s = Some reqs → w ∈ reqs →
         projected_edge q (owner_id p (Z.of_nat s) "FRONTEND_OUTSTANDING" "RELEASE" None) (npu_id w)) ∧
      (∀ s, (s < length rows)%nat → projected_edge q (call_id fence_call "COMPLETE_REQUIRED")
         (owner_id p (Z.of_nat s) "FRONTEND_OUTSTANDING" "RELEASE" None)) ∧
      (∀ w, w ∈ works → projected_edge q (call_id fence_call "COMPLETE_REQUIRED") (npu_id w)).
Proof.
  intros (proof & Hproof & Hck & Hall)%project_pipeline_ok. exists proof. split; [done|]. intros p parent Hin.
  destruct (Hall p parent Hin) as [(rows & fence_call & reqss & works & Hz & Hf & Hst & Hw & Hperm & Hfw)].
  destruct (ck_parents _ _ Hck p parent Hin) as (rows' & residual & Hz' & _ & [Hrows (m & Hm & Ht) Hn _]).
  rewrite Hz in Hz'. injection Hz' as <-. exists rows, m, works, reqss, fence_call.
  destruct Hst as [Hl He Hfence _ _ _].
  split_and!; try done; [by eapply required_ids_NoDup|]. intros s reqs w Hs Hin'.
  assert (Hlt : (s < length rows)%nat) by (rewrite <-Hl; by eapply lookup_lt_Some).
  destruct (lookup_lt_is_Some_2 rows s Hlt) as [r Hr].
  destruct (He s r Hr) as (reqs' & Hreqs' & call & work & slot & _ & _ & _ & [_ _ Ho] & _).
  rewrite Hs in Hreqs'. injection Hreqs' as <-. by apply (ro_works _ _ _ _ _ Ho).
Qed.

(** ** Timings of a projected pipeline

    A timing gives every node of a graph [R] the moment it starts and the
    moment its result is ready, in any preorder of moments, and respects the
    edges [E] into the nodes [D].  Then at any moment at most two stripes of a
    parent are outstanding ([at_most_two]), a workspace slot holds at most one
    ([slot_exclusive]) and the queue is in order ([dequeue_order]). *)

Record respects {T} (le : relation T) (D R : string → Prop) (E : string → string → Prop)
    (start ready : string → T) : Prop := {
  rs_in : ∀ t, D t → R t;
  rs_run : ∀ t, R t → le (start t) (ready t);
  rs_edge : ∀ t u, D t → E t u → le (ready u) (start t);
  rs_closed : ∀ t u, D t → E t u → R u;
}.

Section Timing.
Context {T : Type} (le : relation T) {Hle : PreOrder le}.
Context (D R : string → Prop) (E : string → string → Prop) (start ready : string → T).
Context (Hrs : respects le D R E start ready).
Context (proof : PipelineContract) (p : Z) (fence : string) (created : list Node) (rows : list record) (reqss : list (list Z)).
Context (Hst : stripes_projected proof p fence E created rows reqss).
Context (Hcreated : ∀ n, n ∈ created → D (identity n)).
Context (Hcalls : ∀ r call, r ∈ rows → pget r "call_id" = JInt call →
  D (call_id call "PREPARE") ∧ le (ready (call_id call "PREPARE")) (start (call_id call "PUBLISH"))).

Abbreviation at_ s r t := (owner_id p (Z.of_nat s) r t None).
Abbreviation acquire s := (at_ s "FRONTEND_OUTSTANDING" "ACQUIRE").
Abbreviation release s := (at_ s "FRONTEND_OUTSTANDING" "RELEASE").
Abbreviation dequeue s := (at_ s "FRONTEND_QUEUE" "DEQUEUE").
Abbreviation workspace_acquire s := (at_ s "EXSIA_WORKSPACE" "ACQUIRE").
Abbreviation workspace_release s := (at_ s "EXSIA_WORKSPACE" "RELEASE").

Lemma runs t : D t → le (start t) (ready t).
Proof using Hrs. intros Ht. by apply Hrs, Hrs. Qed.
Lemma follows_edge t u : D t → E t u → le (ready u) (start t).
Proof using Hrs. by apply Hrs. Qed.
Lemma closed_edge t u : D t → E t u → R u.
Proof using Hrs. by apply Hrs. Qed.

(** The result of a node is ready before the result of its successor. *)
Lemma ready_before t u : D t → E t u → le (ready u) (ready t).
Proof using Hle Hrs. intros Ht He. etrans; [by apply follows_edge|by apply runs]. Qed.

Lemma owner_in s e : (s < length rows)%nat → e ∈ REQUIRED_EVENTS → D (owner_id p (Z.of_nat s) e.1 e.2 None).
Proof using Hst Hcreated. intros Hs He. destruct (sl_nodes _ _ _ _ _ _ _ Hst s e Hs He) as (n & ? & <-). auto. Qed.

Ltac in_required := apply list_elem_of_In; cbn [In]; repeat first [left; reflexivity | right].
(** [owner r t s] proves that an owner event of the stripe [s] is in [D]. *)
Ltac owner s r t := apply (owner_in s (r, t)); [lia|unfold REQUIRED_EVENTS; in_required].

Lemma stripe_facts s : (s < length rows)%nat → ∃ call work reqs, stripe_order E (has_node created) p (Z.of_nat s) call work reqs ∧
  D (call_id call "PREPARE") ∧ le (ready (call_id call "PREPARE")) (start (call_id call "PUBLISH")).
Proof using Hst Hcalls.
  intros Hs. destruct (lookup_lt_is_Some_2 rows s Hs) as [r Hr].
  destruct (sl_each _ _ _ _ _ _ _ Hst s r Hr) as (reqs & _ & call & work & slot & Hcall & _ & _ & Ho & _).
  exists call, work, reqs. split; [done|]. apply (Hcalls r); [by eapply list_elem_of_lookup_2|done].
Qed.

(** A stripe dequeued after its acquisition; it is released after both. *)
Lemma acquire_dequeue s : (s < length rows)%nat → le (ready (acquire s)) (ready (dequeue s)).
Proof using Hle Hrs Hst Hcreated Hcalls.
  intros Hs. destruct (stripe_facts s Hs) as (call & work & reqs & [[] _ _] & _).
  etrans; (eapply ready_before; [|eassumption]).
  - owner s "FRONTEND_QUEUE" "ENQUEUE".
  - owner s "FRONTEND_QUEUE" "DEQUEUE".
Qed.

Lemma acquire_release s : (s < length rows)%nat → le (ready (acquire s)) (start (release s)).
Proof using Hle Hrs Hst Hcreated Hcalls.
  intros Hs. destruct (stripe_facts s Hs) as (call & work & reqs & [_ [Hpre _ Hacc _ Hcom] [Hrel _]] & Hprep & Hcall).
  assert (Haccepted : D (at_ s "CPU_FUNCTIONAL_STREAM" "ACCEPTED")) by owner s "CPU_FUNCTIONAL_STREAM" "ACCEPTED".
  assert (Hcompleted : D (at_ s "CPU_FUNCTIONAL_STREAM" "COMPLETED")) by owner s "CPU_FUNCTIONAL_STREAM" "COMPLETED".
  assert (Hrelease : D (release s)) by owner s "FRONTEND_OUTSTANDING" "RELEASE".
  assert (Hpublish : R (call_id call "PUBLISH")) by exact (closed_edge _ _ Haccepted Hacc).
  assert (Hc : le (ready (acquire s)) (ready (at_ s "CPU_FUNCTIONAL_STREAM" "COMPLETED"))).
  { etrans; [by apply acquire_dequeue|]. etrans; [exact (ready_before _ _ Hprep Hpre)|]. etrans; [exact Hcall|].
    etrans; [exact (rs_run _ _ _ _ _ _ Hrs _ Hpublish)|]. etrans; [exact (ready_before _ _ Haccepted Hacc)|].
    exact (ready_before _ _ Hcompleted Hcom). }
  destruct Hrel as [Hr|((n & Hn & Hid) & Hr & Hcb)].
  - etrans; [exact Hc|by eapply follows_edge].
  - etrans; [exact Hc|]. etrans; [|by eapply follows_edge]. eapply ready_before; [rewrite <-Hid; by apply Hcreated|done].
Qed.

(** ** At most two stripes are outstanding *)

Lemma release_acquire k : ∀ i, (i + 2 * S k < length rows)%nat → le (ready (release i)) (start (acquire (i + 2 * S k))).
Proof using Hle Hrs Hst Hcreated Hcalls.
  induction k as [|k IH]; intros i Hi.
  - destruct (stripe_facts (i + 2)) as (call & work & reqs & [[_ _ _ _ _ _ Hb] _ _] & _); [lia|].
    replace (i + 2 * 1)%nat with (i + 2)%nat by lia. eapply follows_edge; [owner (i + 2)%nat "FRONTEND_OUTSTANDING" "ACQUIRE"|].
    replace (Z.of_nat i) with (Z.of_nat (i + 2) - 2) by lia. apply Hb. lia.
  - replace (i + 2 * S (S k))%nat with ((i + 2) + 2 * S k)%nat by lia. etrans; [|apply IH; lia].
    etrans; [|eapply runs; [owner (i + 2)%nat "FRONTEND_OUTSTANDING" "RELEASE"]].
    etrans; [|apply acquire_release; lia].
    etrans; [|eapply runs; [owner (i + 2)%nat "FRONTEND_OUTSTANDING" "ACQUIRE"]].
    destruct (stripe_facts (i + 2)) as (call & work & reqs & [[_ _ _ _ _ _ Hb] _ _] & _); [lia|].
    eapply follows_edge; [owner (i + 2)%nat "FRONTEND_OUTSTANDING" "ACQUIRE"|].
    replace (Z.of_nat i) with (Z.of_nat (i + 2) - 2) by lia. apply Hb. lia.
Qed.

(** The stripe [s] is outstanding at [t]: acquired and not yet released. *)
Definition outstanding (t : T) (s : nat) : Prop :=
  (s < length rows)%nat ∧ le (ready (acquire s)) t ∧ ¬ le (ready (release s)) t.

Lemma outstanding_parity t i j : outstanding t i → outstanding t j → (i mod 2 = j mod 2)%nat → (i < j)%nat → False.
Proof using Hle Hrs Hst Hcreated Hcalls.
  intros (Hi & _ & Hri) (Hj & Haj & _) Hmod Hlt. apply Hri. etrans; [|exact Haj].
  assert (∃ k, j = i + 2 * S k)%nat as [k ->].
  { pose proof (Nat.div_mod_eq i 2). pose proof (Nat.div_mod_eq j 2).
    set (a := (i / 2)%nat) in *. set (b := (j / 2)%nat) in *. exists (b - a - 1)%nat. clearbody a b. lia. }
  clear Hmod.
  etrans; [by apply release_acquire|]. eapply runs; [owner (i + 2 * S k)%nat "FRONTEND_OUTSTANDING" "ACQUIRE"].
Qed.

Lemma at_most_two t l : NoDup l → (∀ s, s ∈ l → outstanding t s) → (length l ≤ 2)%nat.
Proof using Hle Hrs Hst Hcreated Hcalls.
  intros Hnd Ho. rewrite <-(length_fmap (fun s => s mod 2)%nat).
  change 2%nat with (length (seq 0 2)) at 2. apply submseteq_length, NoDup_submseteq.
  - apply NoDup_fmap_2_strong; [|done]. intros i j Hi Hj Hmod.
    destruct (Nat.lt_total i j) as [Hlt|[?|Hlt]]; [exfalso|done|exfalso].
    + by eapply (outstanding_parity t i j); auto.
    + by eapply (outstanding_parity t j i); auto.
  - intros m (i & -> & _)%list_elem_of_fmap. apply elem_of_seq. split; [lia|]. apply Nat.mod_upper_bound. lia.
Qed.

(** ** A workspace slot holds one stripe at a time, the queue is in order *)

Lemma workspace_held s : (s < length rows)%nat → le (ready (workspace_acquire s)) (ready (workspace_release s)).
Proof using Hle Hrs Hst Hcreated Hcalls.
  intros Hs. destruct (stripe_facts s Hs) as (call & work & reqs & [[] _ _] & _).
  etrans; [eapply ready_before; [owner s "ACTIVATION_ROWS" "COMMIT"|eassumption]|].
  etrans; [eapply ready_before; [owner s "RESIDUAL_PAYLOAD" "SEAL"|eassumption]|].
  etrans; [eapply ready_before; [owner s "FRONTEND_OUTSTANDING" "ACQUIRE"|eassumption]|].
  etrans; [eapply ready_before; [owner s "FRONTEND_QUEUE" "ENQUEUE"|eassumption]|].
  eapply ready_before; [owner s "EXSIA_WORKSPACE" "RELEASE"|eassumption].
Qed.

Definition slot_is (z : Z) (r : record) : Prop := pget r "host_slot" = JInt z.
#[local] Instance slot_is_dec z r : Decision (slot_is z r).
Proof. unfold slot_is. destruct (pget r "host_slot") as [| |w| | | |]; try (by right). destruct (decide (w = z)); [left|right]; congruence. Defined.

Definition stripe_slot_is (z : Z) (k : nat) : Prop := match rows !! k with Some c => slot_is z c | None => False end.
#[local] Instance stripe_slot_is_dec z k : Decision (stripe_slot_is z k).
Proof. unfold stripe_slot_is. destruct (rows !! k); apply _. Defined.

Lemma slot_exclusive n : ∀ i j a b z, (j - i ≤ n)%nat → (i < j)%nat → rows !! i = Some a → rows !! j = Some b →
  slot_is z a → slot_is z b → le (ready (workspace_release i)) (start (workspace_acquire j)).
Proof using Hle Hrs Hst Hcreated Hcalls.
  induction n as [|n IH]; intros i j a b z Hn Hij Ha Hb Hza Hzb; [lia|].
  pose proof (lookup_lt_Some _ _ _ Hb).
  destruct (decide (Exists (stripe_slot_is z) (seq (S i) (j - S i)))) as [Hex|Hno].
  - apply Exists_exists in Hex as (k & [Hk1 Hk2]%elem_of_seq & Hk). unfold stripe_slot_is in Hk.
    destruct (rows !! k) as [c|] eqn:Hc; [|done].
    etrans; [by eapply (IH i k a c z); try lia|].
    etrans; [eapply runs; [owner k "EXSIA_WORKSPACE" "ACQUIRE"]|].
    etrans; [apply workspace_held; lia|]. by eapply (IH k j c b z); try lia.
  - eapply follows_edge; [owner j "EXSIA_WORKSPACE" "ACQUIRE"|].
    eapply (sl_reuse _ _ _ _ _ _ _ Hst); try done; [unfold slot_is in *; congruence|].
    intros k c Hk Hc Hz. apply Hno, Exists_exists. exists k. split; [apply elem_of_seq; lia|].
    unfold stripe_slot_is. rewrite Hc. unfold slot_is in *. congruence.
Qed.

Lemma dequeue_order i k : (i + S k < length rows)%nat → le (ready (dequeue i)) (start (dequeue (i + S k))).
Proof using Hle Hrs Hst Hcreated.
  assert (Hnext : ∀ j, (S j < length rows)%nat → le (ready (dequeue j)) (start (dequeue (S j)))).
  { intros j Hj. eapply follows_edge; [owner (S j) "FRONTEND_QUEUE" "DEQUEUE"|]. by apply (sl_fifo _ _ _ _ _ _ _ Hst). }
  induction k as [|k IH]; intros Hi.
  - rewrite Nat.add_1_r. apply Hnext. lia.
  - etrans; [apply IH; lia|]. etrans; [eapply runs; [owner (i + S k)%nat "FRONTEND_QUEUE" "DEQUEUE"]|].
    replace (i + S (S k))%nat with (S (i + S k)) by lia. apply Hnext. lia.
Qed.
End Timing.
