(* ===== verification/Adapter.v ===== *)
(** * The adaptation of a dataset to the execution graph

    [sim/cycle/execution_adapter.py]: the checks of the lifecycle contract and
    [adapt_records], which turns the rows of a reconstructed dataset, the
    lifecycle contract and the admitted NPU results into an execution graph
    with its services.  [sim/cycle/npu_result_admission.py]: the admission of a
    result is a parameter, a check on each row before it is used, with
    [certified_results] the one of the official entry points.

    [adapt], which adds the application and checks digests, is in Application.
    The sets the source iterates over keep the order of the rows here; each
    element has its own entry, so the order only decides which error is first. *)
From S2P Require Import Prelude Records Rational ExecutionIR Services PipelineContract Pipeline.
Set Default Goal Selector "!".

(** [admit_results(rows, detail)] checks each row lazily. *)
Abbreviation ResultAdmission := (string → record → res unit).
Definition certified_results : ResultAdmission := fun detail row =>
  ensure (eq_str (pget row "cycle_model_validation") "CURRENT_CERTIFIED") detail.

Definition text_value (value : json) : res string := text [("id", value)] "id".

Definition version_2 (contract : record) : bool := eq_int (pget contract "version") 2.

(** ** The lifecycle contract *)

Definition LIFECYCLE_FIELDS : list string :=
  ["schema"; "version"; "source_kind"; "dataset_sha256"; "npu_results_sha256";
   "operation_exit_policy"; "publish_policy"; "slot_release_policy"; "phase_graph_policy";
   "entry_dependencies"; "barriers"; "call_slots"; "submission_order"; "cpu_policy"; "worker_resources"].
Definition BINDING_FIELDS : list string :=
  ["sidecar_sha256"; "semantic_graph_sha256"; "provenance_sha256";
   "executable_sha256"; "native_build_sha256"; "join_summary_sha256"].

Definition is_sha256 (value : json) : bool := match value with JStr s => is_hex 64 s | _ => false end.

Definition validate_lifecycle_contract (contract : record) : res unit :=
  let* version := integer contract "version" in
  fields contract (LIFECYCLE_FIELDS ++
    (if has contract "application" then ["application"] else []) ++
    (if has contract "producer_binding" then ["producer_binding"] else []) ++
    (if version =? 2 then ["pipeline_parents"; "pipeline_owners"] else [])) ;;;
  let* schema := item contract "schema" in
  ensure (eq_str schema "im2p-execution-lifecycle" && z_in version [1; 2])
    "missing current execution lifecycle; legacy structural dataset is not executable" ;;;
  let* exit := item contract "operation_exit_policy" in
  let* publish := item contract "publish_policy" in
  let* release := item contract "slot_release_policy" in
  let* phases := item contract "phase_graph_policy" in
  ensure (eq_str exit "ALL_MEMBER_COMPLETIONS" && eq_str publish "NONBLOCKING_SUBMISSION" &&
          eq_str release "NPU_RESOURCE_READY" && eq_str phases "EXPLICIT_EDGES") "unsupported execution policy" ;;;
  let* source := item contract "source_kind" in
  ensure (in_strs source ["SYNTHETIC"; "PRODUCER_DECLARED"]) "unproven lifecycle source" ;;;
  if eq_str source "PRODUCER_DECLARED" then
    let* binding := object_value (pget contract "producer_binding") in
    fields binding BINDING_FIELDS ;;;
    ensure (forallb is_sha256 (map snd binding)) "producer lifecycle artifact binding missing"
  else Ok tt.

(** ** Rows, results and calls *)

Definition index_row (indexed : list (string * record)) (row : record) : res (list (string * record)) :=
  let* identity := text row "node_id" in
  ensure (negb (smem identity indexed)) "duplicate structural node" ;;;
  ensure (Z.of_nat (length indexed) <? 100000)
    "finite execution adapter limit exceeded: partition with explicit barriers" ;;;
  Ok (sset identity row indexed).

Definition is_kind (row : record) (kind : string) : bool := eq_str (pget row "kind") kind.
Definition is_container (row : record) : bool := is_kind row "OPERATION_CONTAINER".
Definition is_target (row : record) : bool := eq_str (pget row "node_class") "TARGET_NPU" && is_kind row "SERVICE".

Record Results := { result_map : list (string * NpuWork); result_rows : list (string * record) }.

Definition add_result (admission : ResultAdmission) (acc : Results) (result : record) : res Results :=
  admission "NPU model result is not certified" result ;;;
  let* work := integer result "work_id" in
  let identity := npu_id work in
  ensure (negb (smem identity (result_map acc))) "duplicate NPU model result" ;;;
  ensure (eq_str (pget result "schema") "im2p-npu-cycle-result") "NPU model result is not certified" ;;;
  let* request := text result "run_view_sha256" in
  let* profile := text result "profile" in
  Ok {| result_map := sset identity {| work_identity := identity; request_sha256 := request; profile := profile |}
                        (result_map acc);
        result_rows := sset identity result (result_rows acc) |}.

(** [value.endswith(':INVOKE')], and the [split(':')[1]] of such a text. *)
Definition ends_with (suffix s : string) : bool :=
  let n := String.length s in let m := String.length suffix in
  Nat.leb m n && String.eqb (String.substring (n - m) m s) suffix.
Fixpoint until_colon (s : string) : string :=
  match s with
  | EmptyString => EmptyString
  | String c s => if Ascii.eqb c ":" then EmptyString else String c (until_colon s)
  end.
Fixpoint after_colon (s : string) : string :=
  match s with
  | EmptyString => EmptyString
  | String c s => if Ascii.eqb c ":" then s else after_colon s
  end.

Definition is_invoke (value : json) : bool :=
  match value with JStr s => String.prefix "call:" s && ends_with ":INVOKE" s | _ => false end.

(** The work that answers each call, by the text of the call identity. *)
Definition claim_call (call_work : list (string * string)) (entry : string * record) : res (list (string * string)) :=
  let '(identity, row) := entry in
  let* raw := item row "dependencies" in
  let* listed := array raw in
  let* own_call := map_res text_value (List.filter is_invoke listed) in
  match own_call with
  | [call] =>
      let call_identity := until_colon (after_colon call) in
      ensure (negb (smem call_identity call_work)) "multiple works claim one invocation" ;;;
      Ok (sset call_identity identity call_work)
  | _ => Err (ExecutionError "NPU work lacks unique invocation")
  end.

Section Adapt.
Context `{Host}.

(** The variables [adapt_records] closes over once the inputs are indexed. *)
Record Adaptation := {
  contract : record;
  indexed : list (string * record);
  operations : list (string * record);
  entry_dependencies : record;
  slots : record;
  cpu_resources : record;
  submission : list string;
  results : Results;
  call_work : list (string * string);
  pipeline : option PipelineProjection;
}.

(** [edge(identity)] *)
Definition edge_to (operations : list (string * record)) (identity : string) : Dependency :=
  {| node := if smem identity operations then identity +:+ ":exit" else identity; milestone := RESULT_READY |}.
Definition edges_to (operations : list (string * record)) (values : json) : res (list Dependency) :=
  let* listed := array values in
  map_res (fun value => let* identity := text_value value in Ok (edge_to operations identity)) listed.

Definition prepare_inputs (contract : record) (rows results : list record) (admission : ResultAdmission) : res Adaptation :=
  validate_lifecycle_contract contract ;;;
  let* indexed := fold_res index_row [] rows in
  iter_res (fun kv => let* _ := item kv.2 "kind" in Ok tt) indexed ;;;
  let operations := List.filter (fun kv => is_container kv.2) indexed in
  ensure (negb (Nat.eqb (length operations) 0)) "missing operation containers" ;;;
  let* entry_value := item contract "entry_dependencies" in
  let* entries := object_value entry_value in
  ensure (set_eq String.eqb (keys entries) operations.*1) "explicit phase/graph entry coverage mismatch" ;;;
  let* slots_value := item contract "call_slots" in
  let* slots := object_value slots_value in
  let* resources_value := item contract "worker_resources" in
  let* resources := object_value resources_value in
  (if version_2 contract then
     ensure (forallb is_null slots.*2) "ExSIA workspace is not a target NPU slot" else Ok tt) ;;;
  let* order_value := item contract "submission_order" in
  let* order_list := array order_value in
  let* submission := map_res text_value order_list in
  ensure (distinct String.eqb submission) "duplicate target submission order" ;;;
  let* found := fold_res (add_result admission) {| result_map := []; result_rows := [] |} results in
  let npu_rows := List.filter (fun kv => is_target kv.2) indexed in
  ensure (set_eq String.eqb npu_rows.*1 (result_map found).*1 &&
          set_eq String.eqb (result_map found).*1 submission)
    "NPU service/submission/result bijection mismatch" ;;;
  let* pipeline := (if version_2 contract then
    let* q := project_pipeline contract indexed (result_rows found) in Ok (Some q) else Ok None) in
  let* calls := fold_res claim_call [] npu_rows in
  ensure (set_eq String.eqb (keys slots) calls.*1) "explicit call/slot coverage mismatch" ;;;
  Ok {| contract := contract; indexed := indexed; operations := operations; entry_dependencies := entries;
        slots := slots; cpu_resources := resources; submission := submission; results := found;
        call_work := calls; pipeline := pipeline |}.

Definition phase_text (row : record) : res string := let* phase := item row "phase" in Ok (json_dumps phase).

Definition barrier_node (kind : Kind) (identity operation phase : string) (dependencies : list Dependency) : Node :=
  {| ExecutionIR.identity := identity; ExecutionIR.kind := kind; ExecutionIR.operation := operation;
     ExecutionIR.phase := phase; order := 0; dependencies := dependencies; service := None; resources := [] |}.

(** The entry node of an operation. *)
Definition enter_node (a : Adaptation) (entry : string * record) : res Node :=
  let '(operation, row) := entry in
  let* phase := phase_text row in
  let* raw := item row "dependencies" in
  let* own := edges_to (operations a) raw in
  let* entry_value := item (entry_dependencies a) operation in
  let* entered := edges_to (operations a) entry_value in
  Ok (barrier_node OP_ENTER (operation +:+ ":enter") operation phase (fromkeys (own ++ entered))).

(** What the kind of a row decides: the node's kind, service, resources and
    submission order, its dependencies, and the CPU service it declares. *)
Record RowNode := {
  row_kind : Kind;
  row_service : option string;
  row_claims : list string;
  row_order : Z;
  row_edges : list Dependency;
  row_cpu : option CpuService;
}.

Definition plain (kind : Kind) (edges : list Dependency) : RowNode :=
  {| row_kind := kind; row_service := None; row_claims := []; row_order := 0; row_edges := edges; row_cpu := None |}.

Definition without (target : string) (edges : list Dependency) : list Dependency :=
  filter (fun e => String.eqb (node e) target = false) edges.

Definition call_boundary (a : Adaptation) (row : record) (edges : list Dependency) : res RowNode :=
  let* call := integer row "call_id" in
  let* stage := item row "stage" in
  if eq_str stage "PUBLISH" then
    match sget (dec call) (call_work a) with
    | Some work => Ok (plain PUBLISH (without work edges))
    | None => Err (ExecutionError "publication lacks target work")
    end
  else Ok (plain BARRIER edges).

Definition expected_source (class : string) : option string :=
  sget class [("ORDINARY_CPU", "FULL_CPU"); ("POTAL_HOST", "POTAL_COLLECTION"); ("APPLICATION_CPU", "APPLICATION_CPU")].

Definition cpu_row (a : Adaptation) (identity : string) (row : record) (class expected : string)
    (edges : list Dependency) : res RowNode :=
  let* source := text row "duration_source" in
  ensure (String.eqb source expected) "duration source ownership mismatch" ;;;
  let* duration_value := item row "duration" in
  let* duration := object_value duration_value in
  let* vector := (if String.eqb class "ORDINARY_CPU" then
    let* intervals := item duration "worker_intervals" in array intervals else Ok [JObj duration]) in
  let* worker_rows := map_res (fun raw =>
    let* sample := object_value raw in
    let* bound := bind_cpu_resource sample source (cpu_resources a) in Ok (JObj bound)) vector in
  let* policy := item (contract a) "cpu_policy" in
  let* service := cpu_service [("source", JStr source); ("policy", policy); ("workers", JArr worker_rows)] in
  Ok {| row_kind := if String.eqb class "APPLICATION_CPU" then APPLICATION_CPU else CPU;
        row_service := Some identity; row_claims := map resource (workers service); row_order := 0;
        row_edges := edges; row_cpu := Some service |}.

(** [submission.index(identity)] *)
Fixpoint index_of (identity : string) (l : list string) : option nat :=
  match l with
  | [] => None
  | s :: l => if String.eqb s identity then Some O else S <$> index_of identity l
  end.

Definition slot_claims (slot : json) : res (list string) :=
  match slot with
  | JNull => Ok []
  | JInt z => ensure (z_in z [0; 1]) "invalid target slot" ;;; Ok ["slot:" +:+ dec z]
  | _ => Err (ExecutionError "invalid target slot")
  end.

Definition target_row (a : Adaptation) (identity : string) (edges : list Dependency) : res RowNode :=
  match index_of identity (submission a) with
  | None => Err (ValueError "list.index(x): x not in list")
  | Some position =>
      match List.find (fun cw => String.eqb cw.2 identity) (call_work a) with
      | None => Err StopIteration
      | Some (call, _) =>
          let* slot := item (slots a) call in
          let* claimed := slot_claims slot in
          let publication := "call:" +:+ call +:+ ":PUBLISH" in
          let edges := if smem publication (indexed a)
            then without ("call:" +:+ call +:+ ":INVOKE") edges ++ [{| node := publication; milestone := RESULT_READY |}]
            else edges in
          let edges := match position with
            | O => edges
            | S before => edges ++ [{| node := nth before (submission a) ""; milestone := ACCEPTED |}]
            end in
          Ok {| row_kind := NPU; row_service := Some identity; row_claims := "npu:0" :: claimed;
                row_order := Z.of_nat position; row_edges := edges; row_cpu := None |}
      end
  end.

Definition service_row (a : Adaptation) (identity : string) (row : record) (edges : list Dependency) : res RowNode :=
  let* class_value := item row "node_class" in
  match class_value with
  | JStr class =>
      match expected_source class with
      | Some expected => cpu_row a identity row class expected edges
      | None =>
          if String.eqb class "TARGET_NPU" then target_row a identity edges
          else if str_in class ["FUNCTIONAL_EMULATION"; "WAIT"; "EXCLUDED"] then
            let* kind := parse_kind class in Ok (plain kind edges)
          else Err (ExecutionError "unknown execution source/class")
      end
  | _ => Err (ExecutionError "unknown execution source/class")
  end.

Definition row_node (a : Adaptation) (identity : string) (row : record) (edges : list Dependency) : res RowNode :=
  if is_kind row "CALL_BOUNDARY" then call_boundary a row edges
  else if is_kind row "SERVICE" then service_row a identity row edges
  else Err (ExecutionError "unsupported structural record kind").

(** The state of the loop over the rows. *)
Record Adapted := {
  adapted_nodes : list Node;
  adapted_cpu : list (string * CpuService);
  members : list (string * list string);
}.

Definition add_member (operation identity : string) (m : list (string * list string)) : res (list (string * list string)) :=
  match sget operation m with
  | Some children => Ok (sset operation (children ++ [identity]) m)
  | None => Err (KeyError operation)
  end.

Definition adapt_row (a : Adaptation) (acc : Adapted) (entry : string * record) : res Adapted :=
  let '(identity, row) := entry in
  if smem identity (operations a) then Ok acc else
  let* operation := text row "operation_node_id" in
  match sget operation (operations a) with
  | None => Err (ExecutionError "service lacks operation owner")
  | Some container =>
      let* phase := phase_text container in
      let* raw := item row "dependencies" in
      let* listed := edges_to (operations a) raw in
      let edges := listed ++ [{| node := operation +:+ ":enter"; milestone := RESULT_READY |}] in
      let* r := row_node a identity row edges in
      let actual_edges := fromkeys (row_edges r) in
      let* grown := add_member operation identity (members acc) in
      Ok {| adapted_nodes := adapted_nodes acc ++
              [{| ExecutionIR.identity := identity; ExecutionIR.kind := row_kind r; ExecutionIR.operation := operation;
                  ExecutionIR.phase := phase; order := row_order r;
                  dependencies := match pipeline a with Some q => Pipeline.edges q identity actual_edges
                                                      | None => actual_edges end;
                  service := row_service r; resources := row_claims r |}];
            adapted_cpu := match row_cpu r with Some s => sset identity s (adapted_cpu acc) | None => adapted_cpu acc end;
            members := grown |}
  end.

(** The exit node of an operation waits for all its members. *)
Definition exit_node (a : Adaptation) (entry : string * list string) : res Node :=
  let '(operation, children) := entry in
  ensure (negb (Nat.eqb (length children) 0)) "operation has no completion-producing members" ;;;
  match sget operation (operations a) with
  | None => Err (KeyError operation)
  | Some row =>
      let* phase := phase_text row in
      Ok (barrier_node OP_EXIT (operation +:+ ":exit") operation phase
            (map (fun child => {| node := child; milestone := RESULT_READY |}) children))
  end.

Definition declared_barrier (a : Adaptation) (raw : json) : res Node :=
  let* barrier := object_value raw in
  fields barrier ["node_id"; "phase"; "dependencies"] ;;;
  let* values := item barrier "dependencies" in
  let* listed := edges_to (operations a) values in
  let* identity := text barrier "node_id" in
  let* phase := text barrier "phase" in
  Ok (barrier_node BARRIER identity identity phase listed).

Definition adapt_records (rows : list record) (lifecycle : record) (npu_results : list record)
    (admission : ResultAdmission) : res (ExecutionIR * Services) :=
  let* a := prepare_inputs lifecycle rows npu_results admission in
  let* entered := map_res (enter_node a) (operations a) in
  let* adapted := fold_res (adapt_row a)
    {| adapted_nodes := entered; adapted_cpu := []; members := map (fun kv => (kv.1, [])) (operations a) |} (indexed a) in
  let owners := match pipeline a with Some q => owner_nodes q | None => [] end in
  let* members := fold_res (fun m n => add_member (ExecutionIR.operation n) (ExecutionIR.identity n) m)
    (members adapted) owners in
  let* exits := map_res (exit_node a) members in
  let* barriers_value := item lifecycle "barriers" in
  let* barriers_list := array barriers_value in
  let* barriers := map_res (declared_barrier a) barriers_list in
  let scope := if eq_str (pget lifecycle "source_kind") "SYNTHETIC" then "SYNTHETIC" else "BOUND_DATASET" in
  let* source := text lifecycle "dataset_sha256" in
  let* ir := execution_ir (adapted_nodes adapted ++ owners ++ exits ++ barriers) scope source in
  Ok (ir, {| cpu := adapted_cpu adapted; npu := result_map (results a) |}).
End Adapt.
