(* ===== verification/AdapterTheorems.v ===== *)
(** * What an adapted graph guarantees

    [adapted_graph] describes the nodes and services [adapt_records] builds;
    [adapted_served] says that the services fit the graph, and [served_gate]
    that the scheduler's gate then has nothing to object to them. *)
From S2P Require Import Prelude Records Rational ExecutionIR Services Sequence Admission Provider.
From S2P Require Import Scheduler SchedulerTheorems PipelineContract Pipeline PipelineEdges PipelineTheorems.
From S2P Require Import PipelineTheorems Adapter ExecutionIR.
Set Default Goal Selector "!".

(** ** Indexing *)

Lemma sset_fresh_app {V} k (v : V) l : smem k l = false → sset k v l = l ++ [(k, v)].
Proof. apply aset_fresh. Qed.

Lemma smem_false {V} k (l : list (string * V)) : smem k l = false → k ∉ l.*1.
Proof. intros Hf Hin%(amem_spec _ String.eqb_eq). congruence. Qed.

Lemma sget_elem {V} k (v : V) l : NoDup l.*1 → (k, v) ∈ l → sget k l = Some v.
Proof. apply In_aget, String.eqb_eq. Qed.
Lemma elem_sget {V} k (v : V) l : sget k l = Some v → (k, v) ∈ l.
Proof. apply aget_In, String.eqb_eq. Qed.

Record indexes (rows : list record) (l : list (string * record)) : Prop := {
  ix_rows : l.*2 = rows;
  ix_distinct : NoDup l.*1;
  ix_named : ∀ k row, (k, row) ∈ l → pget row "node_id" = JStr k;
}.

Lemma index_rows_ok rows l : fold_res index_row [] rows = Ok l → indexes rows l.
Proof.
  apply (fold_res_hist (fun pre l => indexes pre l)); [split; try done; [constructor|by intros ? ? ?%not_elem_of_nil]|].
  intros pre row post l1 l2 _ [Hr Hd Hn] Hi. unfold index_row in Hi.
  apply bind_Ok in Hi as (k & [Hk _]%text_Ok & Hi). apply bind_Ok in Hi as ([] & Hf%check_Ok_any%negb_true_iff & Hi).
  apply bind_Ok in Hi as ([] & _ & <-%Ok_eq). rewrite (sset_fresh_app _ _ _ Hf). split.
  - by rewrite fmap_app, Hr.
  - rewrite fmap_app. apply NoDup_app. split; [done|]. split; [|apply NoDup_singleton].
    intros x Hx ->%list_elem_of_singleton. by apply smem_false in Hf.
  - intros k' row' [Hin|[= -> ->]%list_elem_of_singleton]%elem_of_app; [by eapply Hn|done].
Qed.

Record admitted (rs : list record) (acc : Results) : Prop := {
  ad_rows : (result_rows acc).*2 = rs;
  ad_keys : (result_map acc).*1 = (result_rows acc).*1;
}.

Lemma results_ok admission rs acc :
  fold_res (add_result admission) {| result_map := []; result_rows := [] |} rs = Ok acc → admitted rs acc.
Proof.
  apply (fold_res_hist (fun pre acc => admitted pre acc)); [by split|].
  intros pre row post a1 a2 _ [Hr Hk] Ha. unfold add_result in Ha.
  apply bind_Ok in Ha as ([] & _ & Ha). apply bind_Ok in Ha as (work & _ & Ha). cbv zeta in Ha.
  apply bind_Ok in Ha as ([] & Hf%check_Ok_any%negb_true_iff & Ha). apply bind_Ok in Ha as ([] & _ & Ha).
  apply bind_Ok in Ha as (? & _ & Ha). apply bind_Ok in Ha as (? & _ & <-%Ok_eq).
  assert (Hf' : smem (npu_id work) (result_rows a1) = false).
  { destruct (smem (npu_id work) (result_rows a1)) eqn:E; [|done]. apply (amem_spec _ String.eqb_eq) in E.
    rewrite <-Hk in E. by apply smem_false in Hf. }
  split; cbn; rewrite (sset_fresh_app _ _ _ Hf'), ?(sset_fresh_app _ _ _ Hf), !fmap_app.
  - by rewrite Hr.
  - by rewrite Hk.
Qed.

(** ** The node of a row *)

Section Adapted.
Context `{Host}.

(** What the kind of a row implies about its node. *)
Record row_ok (a : Adaptation) (identity : string) (row : record) (r : RowNode) : Prop := {
  rk_cpu : ∀ s, row_cpu r = Some s → is_cpu (row_kind r) = true ∧ row_claims r = map resource (workers s) ∧
    cpu_service_of (cpu_source s) (policy s) (workers s) = Ok s ∧
    (row_kind r = APPLICATION_CPU → cpu_source s = "APPLICATION_CPU");
  rk_has_cpu : is_cpu (row_kind r) = true → is_Some (row_cpu r);
  rk_service : is_cpu (row_kind r) || is_npu (row_kind r) = true → row_service r = Some identity;
  rk_npu : row_kind r = NPU → identity ∈ submission a;
  rk_target : is_target row = true → row_kind r = NPU;
}.

Lemma cpu_service_Ok r s : cpu_service r = Ok s →
  pget r "source" = JStr (cpu_source s) ∧ cpu_service_of (cpu_source s) (policy s) (workers s) = Ok s.
Proof.
  unfold cpu_service. intros Hc. apply bind_Ok in Hc as ([] & _ & Hc).
  apply bind_Ok in Hc as (source & [Hsrc _]%text_Ok & Hc). apply bind_Ok in Hc as (pol & _ & Hc).
  destruct (policy_metric pol); [|done]. do 2 (apply bind_Ok in Hc as (? & _ & Hc)).
  apply bind_Ok in Hc as (ws & _ & Hc). pose proof Hc as Hv. unfold cpu_service_of in Hc.
  do 4 (apply bind_Ok in Hc as ([] & _ & Hc)). apply Ok_eq in Hc as <-. by split.
Qed.

Lemma plain_ok a identity row k edges :
  is_cpu k = false → is_npu k = false → is_target row = false → row_ok a identity row (plain k edges).
Proof. intros Hc Hn Ht. split; cbn; try done; [by rewrite Hc|by rewrite Hc, Hn|by intros ->|by rewrite Ht]. Qed.

Lemma cpu_row_ok a identity row class expected edges r :
  expected_source class = Some expected → is_target row = false →
  cpu_row a identity row class expected edges = Ok r → row_ok a identity row r.
Proof.
  intros Hclass Ht Hr. unfold cpu_row in Hr. apply bind_Ok in Hr as (source & _ & Hr).
  apply bind_Ok in Hr as ([] & ->%check_Ok_any%String.eqb_eq & Hr).
  do 3 (apply bind_Ok in Hr as (? & _ & Hr)). apply bind_Ok in Hr as (? & _ & Hr). apply bind_Ok in Hr as (pol & _ & Hr).
  apply bind_Ok in Hr as (s & [Hsrc Hv]%cpu_service_Ok & <-%Ok_eq). cbn in Hsrc. injection Hsrc as Hsrc.
  split; cbn; try done.
  - intros s' [= <-]. split_and!; try done; [by destruct (String.eqb class "APPLICATION_CPU")|].
    destruct (String.eqb_spec class "APPLICATION_CPU") as [->|]; [|done].
    intros _. rewrite <-Hsrc. unfold expected_source in Hclass. cbn in Hclass. congruence.
  - by destruct (String.eqb class "APPLICATION_CPU").
  - by rewrite Ht.
Qed.

Lemma index_of_elem s l i : index_of s l = Some i → s ∈ l.
Proof.
  revert i. induction l as [|x l IH]; intros i; cbn; [done|].
  destruct (String.eqb_spec x s) as [->|]; [by constructor|].
  destruct (index_of s l); [|done]. intros _. constructor. by eapply IH.
Qed.

Lemma target_row_ok a identity row edges r : target_row a identity edges = Ok r → row_ok a identity row r.
Proof.
  unfold target_row. intros Hr. destruct (index_of identity (submission a)) as [i|] eqn:Ei; [|done].
  destruct (List.find _ (call_work a)) as [[call w]|]; [|done].
  do 2 (apply bind_Ok in Hr as (? & _ & Hr)). apply Ok_eq in Hr as <-. split; cbn; try done.
  intros _. by eapply index_of_elem.
Qed.

Lemma service_row_ok a identity row edges r : is_kind row "SERVICE" = true →
  service_row a identity row edges = Ok r → row_ok a identity row r.
Proof.
  intros Hk Hr. unfold service_row in Hr. apply bind_Ok in Hr as (cv & Hcv%pget_item & Hr).
  destruct cv as [| | | |class| |]; try done.
  assert (Ht : is_target row = String.eqb class "TARGET_NPU").
  { unfold is_target. rewrite Hk, Hcv, andb_true_r. unfold eq_str. done. }
  destruct (expected_source class) as [expected|] eqn:Ee.
  { eapply cpu_row_ok; [done| |done]. rewrite Ht. apply String.eqb_neq. by intros ->. }
  destruct (String.eqb class "TARGET_NPU") eqn:En; [by eapply target_row_ok|].
  destruct (str_in class _) eqn:Es; [|done]. apply bind_Ok in Hr as (k & Hpk & <-%Ok_eq).
  apply str_in_spec in Es. rewrite !elem_of_cons, elem_of_nil in Es.
  apply plain_ok; [..|by rewrite Ht]; destruct Es as [->|[->|[->|[]]]]; by injection Hpk as <-.
Qed.

Lemma row_node_ok a identity row edges r : row_node a identity row edges = Ok r → row_ok a identity row r.
Proof.
  unfold row_node. intros Hr. destruct (is_kind row "CALL_BOUNDARY") eqn:Ec.
  - assert (Ht : is_target row = false).
    { unfold is_target, is_kind in *. apply eq_str_spec in Ec. rewrite Ec. cbn. apply andb_false_r. }
    unfold call_boundary in Hr. do 2 (apply bind_Ok in Hr as (? & _ & Hr)).
    destruct (eq_str _ "PUBLISH"); [|by apply Ok_eq in Hr as <-; apply plain_ok].
    destruct (sget _ (call_work a)); [|done]. apply Ok_eq in Hr as <-. by apply plain_ok.
  - destruct (is_kind row "SERVICE") eqn:Es; [|done]. by eapply service_row_ok.
Qed.

(** ** The loop over the rows *)

(** The node [n] of the row [entry], from what its kind decided. *)
Record row_adapted (a : Adaptation) (entry : string * record) (n : Node) (r : RowNode) : Prop := {
  rd_identity : ExecutionIR.identity n = entry.1;
  rd_row : ∃ raw listed, pget entry.2 "dependencies" = raw ∧ edges_to (operations a) raw = Ok listed ∧
    row_node a entry.1 entry.2 (listed ++ [{| node := operation n +:+ ":enter"; milestone := RESULT_READY |}]) = Ok r;
  rd_kind : kind n = row_kind r;
  rd_service : service n = row_service r;
  rd_resources : resources n = row_claims r;
  rd_edges : dependencies n = match pipeline a with
    | Some q => Pipeline.edges q entry.1 (fromkeys (row_edges r)) | None => fromkeys (row_edges r) end;
}.

(** The nodes recorded as members of an operation. *)
Definition member (m : list (string * list string)) (operation identity : string) : Prop :=
  ∃ children, sget operation m = Some children ∧ identity ∈ children.

Lemma add_member_Ok operation identity m m' : add_member operation identity m = Ok m' →
  m'.*1 = m.*1 ∧ ∀ o x, member m' o x ↔ member m o x ∨ (o = operation ∧ x = identity).
Proof.
  unfold add_member. destruct (sget operation m) as [children|] eqn:E; [|done]. intros <-%Ok_eq. split.
  - assert (Hk : smem operation m = true) by (unfold smem, amem; by rewrite E).
    transitivity (if smem operation m then m.*1 else m.*1 ++ [operation]); [apply aset_keys|by rewrite Hk].
  - intros o x. unfold member. rewrite sget_sset. destruct (String.eqb_spec o operation) as [->|Hne]; [|naive_solver].
    rewrite E. split.
    + intros (? & [= <-] & [Hin|Hin%list_elem_of_singleton]%elem_of_app); [left; by exists children|by right].
    + intros [(? & [= <-] & Hin)|[_ ->]]; exists (children ++ [identity]); (split; [done|]); apply elem_of_app; [by left|right; by constructor].
Qed.

Definition is_row (a : Adaptation) (entry : string * record) : bool := negb (smem entry.1 (operations a)).

Record rows_adapted (a : Adaptation) (entered : list Node) (m : list (string * list string)) (pre : list (string * record)) (acc : Adapted)
    (made : list (Node * RowNode)) : Prop := {
  rs_nodes : adapted_nodes acc = entered ++ made.*1;
  rs_made : Forall2 (fun entry nr => row_adapted a entry nr.1 nr.2) (List.filter (is_row a) pre) made;
  rs_keys : (members acc).*1 = m.*1;
  rs_members : ∀ o x, member (members acc) o x ↔
    member m o x ∨ ∃ n, n ∈ made.*1 ∧ operation n = o ∧ ExecutionIR.identity n = x;
  rs_cpu : ∀ k s, sget k (adapted_cpu acc) = Some s ↔ ∃ nr, nr ∈ made ∧ ExecutionIR.identity nr.1 = k ∧ row_cpu nr.2 = Some s;
}.

Lemma rows_adapted_names a entered m pre acc made : rows_adapted a entered m pre acc made →
  map ExecutionIR.identity made.*1 = (List.filter (is_row a) pre).*1.
Proof.
  intros [_ Hm _ _ _]. induction Hm as [|e nr l k [Hid _ _ _ _ _] _ IH]; [done|]. cbn. by rewrite Hid, IH.
Qed.

Lemma filter_row_keys a l k : k ∈ (List.filter (is_row a) l).*1 → k ∈ l.*1.
Proof.
  intros (e & -> & Hin%list_elem_of_In)%list_elem_of_fmap. apply filter_In in Hin as [Hin _].
  apply list_elem_of_In in Hin. by apply list_elem_of_fmap_2.
Qed.

Lemma adapt_row_step a entered m pre acc made e acc' : e.1 ∉ pre.*1 →
  rows_adapted a entered m pre acc made → adapt_row a acc e = Ok acc' →
  ∃ made', rows_adapted a entered m (pre ++ [e]) acc' made'.
Proof.
  intros Hnew Hok Hr. pose proof (rows_adapted_names _ _ _ _ _ _ Hok) as Hnames. destruct Hok as [Hn Hm Hkeys Hmem Hc].
  destruct e as [identity row]. unfold adapt_row in Hr.
  assert (Hf : List.filter (is_row a) (pre ++ [(identity, row)]) =
    List.filter (is_row a) pre ++ (if is_row a (identity, row) then [(identity, row)] else [])) by (by rewrite List.filter_app).
  unfold is_row at 3 in Hf. cbn [fst] in Hf. destruct (smem identity (operations a)).
  { apply Ok_eq in Hr as <-. exists made. split; [done|by rewrite Hf, app_nil_r|done..]. }
  apply bind_Ok in Hr as (operation & _ & Hr). destruct (sget operation (operations a)); [|done].
  apply bind_Ok in Hr as (ph & _ & Hr). apply bind_Ok in Hr as (raw & Hraw%pget_item & Hr).
  apply bind_Ok in Hr as (listed & Hl & Hr). cbv zeta in Hr. apply bind_Ok in Hr as (r & Hrow & Hr).
  apply bind_Ok in Hr as (grown & (Hperm & Hgrown)%add_member_Ok & <-%Ok_eq).
  set (n := {| ExecutionIR.identity := identity; kind := row_kind r |}) in *.
  exists (made ++ [(n, r)]). split; cbn [adapted_nodes adapted_cpu members].
  - by rewrite Hn, fmap_app, <-app_assoc.
  - rewrite Hf. apply Forall2_app; [done|]. constructor; [|constructor]. split; cbn; try done. by exists raw, listed.
  - cbn. by rewrite Hperm.
  - intros o x. rewrite Hgrown, Hmem, fmap_app. setoid_rewrite elem_of_app. setoid_rewrite list_elem_of_singleton. naive_solver.
  - assert (Hfresh : ∀ nr, nr ∈ made → ExecutionIR.identity nr.1 ≠ identity).
    { intros nr Hin E. apply Hnew. cbn. rewrite <-E. apply (filter_row_keys a). rewrite <-Hnames.
      by apply list_elem_of_In, in_map, in_map, list_elem_of_In. }
    intros k s. destruct (row_cpu r) as [s0|] eqn:Es0.
    + rewrite sget_sset. destruct (String.eqb_spec k identity) as [->|Hne].
      * split; [intros [= ->]; exists (n, r); split; [apply elem_of_app; right; by constructor|done]|].
        intros (nr & [Hin| ->%list_elem_of_singleton]%elem_of_app & Hid & Hs); [by apply Hfresh in Hin|cbn in Hs; congruence].
      * rewrite Hc. split; [intros (nr & ? & ? & ?); exists nr; split; [apply elem_of_app; by left|done]|].
        intros (nr & [Hin| ->%list_elem_of_singleton]%elem_of_app & Hid & Hs); [by exists nr|by cbn in Hid].
    + rewrite Hc. split; [intros (nr & ? & ? & ?); exists nr; split; [apply elem_of_app; by left|done]|].
      intros (nr & [Hin| ->%list_elem_of_singleton]%elem_of_app & Hid & Hs); [by exists nr|cbn in Hs; congruence].
Qed.

Lemma adapt_rows_ok a entered m l acc : NoDup l.*1 →
  fold_res (adapt_row a) {| adapted_nodes := entered; adapted_cpu := []; members := m |} l = Ok acc →
  ∃ made, rows_adapted a entered m l acc made.
Proof.
  intros Hnd. apply (fold_res_hist (fun pre acc => ∃ made, rows_adapted a entered m pre acc made)).
  - exists []. split; cbn; [by rewrite app_nil_r|constructor|done|intros o x; set_solver|].
    intros k s. split; [done|]. by intros (? & ?%not_elem_of_nil & _).
  - intros pre e post a1 a2 -> [made Hok]. apply (adapt_row_step _ _ _ _ _ made); [|done].
    rewrite fmap_app, fmap_cons in Hnd. apply NoDup_app in Hnd as (_ & Hnd & _). intros Hin. apply (Hnd _ Hin). by constructor.
Qed.

(** ** The whole adaptation *)

Definition target_rows (a : Adaptation) : list (string * record) := List.filter (fun kv => is_target kv.2) (indexed a).

Record prepared (lifecycle : record) (rows rs : list record) (a : Adaptation) : Prop := {
  pr_index : indexes rows (indexed a);
  pr_results : admitted rs (results a);
  pr_operations : operations a = List.filter (fun kv => is_container kv.2) (indexed a);
  pr_targets : ∀ k, k ∈ (target_rows a).*1 ↔ k ∈ (result_map (results a)).*1;
  pr_submission : ∀ k, k ∈ (result_map (results a)).*1 ↔ k ∈ submission a;
  pr_pipeline : match pipeline a with
    | Some q => version_2 lifecycle = true ∧ project_pipeline lifecycle (indexed a) (result_rows (results a)) = Ok q
    | None => version_2 lifecycle = false end;
  pr_calls : fold_res claim_call [] (target_rows a) = Ok (call_work a);
  pr_entries : pget lifecycle "entry_dependencies" = JObj (entry_dependencies a);
  pr_covered : ∀ k, k ∈ (entry_dependencies a).*1 ↔ k ∈ (operations a).*1;
}.

Lemma set_eq_str l k : set_eq String.eqb l k = true ↔ ∀ x, x ∈ l ↔ x ∈ k.
Proof. unfold set_eq. rewrite andb_true_iff, !subset_of_spec by apply String.eqb_eq. set_solver. Qed.

Lemma prepare_inputs_ok lifecycle rows rs admission a :
  prepare_inputs lifecycle rows rs admission = Ok a → prepared lifecycle rows rs a.
Proof.
  unfold prepare_inputs. intros Hp. apply bind_Ok in Hp as ([] & _ & Hp).
  apply bind_Ok in Hp as (ix & Hix%index_rows_ok & Hp). apply bind_Ok in Hp as ([] & _ & Hp). cbv zeta in Hp.
  apply bind_Ok in Hp as ([] & _ & Hp). apply bind_Ok in Hp as (ev & Hev%pget_item & Hp).
  apply bind_Ok in Hp as (entries & Hent & Hp).
  apply bind_Ok in Hp as ([] & Hcover%check_Ok_any & Hp). do 4 (apply bind_Ok in Hp as (? & _ & Hp)).
  apply bind_Ok in Hp as ([] & _ & Hp). do 2 (apply bind_Ok in Hp as (? & _ & Hp)).
  apply bind_Ok in Hp as (sub & _ & Hp). apply bind_Ok in Hp as ([] & _ & Hp).
  apply bind_Ok in Hp as (found & Hfound%results_ok & Hp).
  apply bind_Ok in Hp as ([] & Hb%check_Ok_any & Hp). apply bind_Ok in Hp as (pipe & Hpipe & Hp).
  apply bind_Ok in Hp as (calls & Hcalls & Hp). apply bind_Ok in Hp as ([] & _ & <-%Ok_eq).
  apply andb_prop in Hb as [Hb1 Hb2]. split; cbn; try done.
  - by apply set_eq_str.
  - by apply set_eq_str.
  - destruct (version_2 lifecycle); [|by apply Ok_eq in Hpipe as <-].
    by apply bind_Ok in Hpipe as (q & Hq & <-%Ok_eq).
  - rewrite Hev. destruct ev; try done. by apply Ok_eq in Hent as ->.
  - by apply set_eq_str.
Qed.

(** The graph: the entries of the operations, the nodes of the other rows, and
    nodes without services. *)
Record adapted_graph (a : Adaptation) (ir : ExecutionIR) (services : Services) (made : list (Node * RowNode)) : Prop := {
  ag_wf : wf_ir (nodes ir);
  ag_made : Forall2 (fun entry nr => row_adapted a entry nr.1 nr.2) (List.filter (is_row a) (indexed a)) made;
  ag_rows : ∀ nr, nr ∈ made → nr.1 ∈ nodes ir;
  ag_nodes : ∀ n, n ∈ nodes ir → n ∈ made.*1 ∨ service n = None;
  ag_owners : ∀ q n, pipeline a = Some q → n ∈ owner_nodes q → n ∈ nodes ir;
  ag_cpu : ∀ k s, sget k (cpu services) = Some s ↔ ∃ nr, nr ∈ made ∧ ExecutionIR.identity nr.1 = k ∧ row_cpu nr.2 = Some s;
  ag_npu : npu services = result_map (results a);
}.

Lemma complete_nodes_shape l additions0 completed rest n :
  fold_left complete_node l ([], additions0) = (completed, rest) → n ∈ completed →
  service n = None ∧ {| node := operation n +:+ ":enter"; milestone := RESULT_READY |} ∈ dependencies n.
Proof.
  revert completed rest. induction l as [|m l IH] using rev_ind; intros completed rest.
  { intros [= <- <-]. by intros ?%not_elem_of_nil. }
  rewrite fold_left_app. destruct (fold_left complete_node l _) as [nodes1 rest1]. cbn [fold_left].
  unfold complete_node. cbn [fst snd]. intros [= <- <-] [Hin|Hin]%elem_of_app; [by eapply IH|].
  apply list_elem_of_singleton in Hin as ->. split; [done|]. cbn [dependencies operation]. apply elem_of_fromkeys. by constructor.
Qed.

Lemma owner_nodes_shape contract ix rs q n : project_pipeline contract ix rs = Ok q → n ∈ owner_nodes q →
  service n = None ∧ {| node := operation n +:+ ":enter"; milestone := RESULT_READY |} ∈ dependencies n.
Proof.
  unfold project_pipeline. intros Hp. do 2 (apply bind_Ok in Hp as (? & _ & Hp)).
  destruct (fold_left complete_node _ _) as [completed rest] eqn:Hc. apply Ok_eq in Hp as <-. by apply (complete_nodes_shape _ _ _ _ _ Hc).
Qed.

Lemma map_res_elem {A B} (f : A → res B) (P : B → Prop) l k y :
  (∀ x z, f x = Ok z → P z) → map_res f l = Ok k → y ∈ k → P y.
Proof.
  intros Hf Hk%map_res_Ok Hy. apply list_elem_of_lookup in Hy as [i Hi].
  destruct (Forall2_lookup_r _ _ _ _ _ Hk Hi) as (x & _ & Hx). by eapply Hf.
Qed.

(** The nodes of the graph by the part of the adaptation that made them. *)
Definition owners_of (a : Adaptation) : list Node := match pipeline a with Some q => owner_nodes q | None => [] end.

Record adapted_parts (lifecycle : record) (a : Adaptation) (ir : ExecutionIR) (made : list (Node * RowNode))
    (entered exits barriers : list Node) (m : list (string * list string)) (raws : list json) : Prop := {
  pt_nodes : nodes ir = (entered ++ made.*1) ++ owners_of a ++ exits ++ barriers;
  pt_entered : map_res (enter_node a) (operations a) = Ok entered;
  pt_exits : map_res (exit_node a) m = Ok exits;
  pt_keys : m.*1 = (operations a).*1;
  pt_members : ∀ o x, member m o x ↔ ∃ n, (n ∈ made.*1 ∨ n ∈ owners_of a) ∧ operation n = o ∧ ExecutionIR.identity n = x;
  pt_raws : pget lifecycle "barriers" = JArr raws;
  pt_barriers : map_res (declared_barrier a) raws = Ok barriers;
}.

Lemma owners_members (owners : list Node) m m' :
  fold_res (fun m n => add_member (operation n) (ExecutionIR.identity n) m) m owners = Ok m' →
  m'.*1 = m.*1 ∧ ∀ o x, member m' o x ↔ member m o x ∨ ∃ n, n ∈ owners ∧ operation n = o ∧ ExecutionIR.identity n = x.
Proof.
  revert m. induction owners as [|n owners IH]; intros m Hf; cbn in Hf.
  { apply Ok_eq in Hf as <-. split; [done|]. set_solver. }
  apply bind_Ok in Hf as (m1 & (K1 & N1)%add_member_Ok & Hf). apply IH in Hf as (K2 & N2).
  split; [congruence|]. intros o x. rewrite N2, N1. setoid_rewrite elem_of_cons. naive_solver.
Qed.

Lemma adapt_records_parts lifecycle rows rs admission ir services :
  adapt_records rows lifecycle rs admission = Ok (ir, services) →
  ∃ a made, prepared lifecycle rows rs a ∧ adapted_graph a ir services made ∧
    ∃ entered exits barriers m raws, adapted_parts lifecycle a ir made entered exits barriers m raws.
Proof.
  unfold adapt_records. intros Ha. apply bind_Ok in Ha as (a & Hp & Ha).
  apply prepare_inputs_ok in Hp. pose proof Hp as [[_ Hnd _] _ _ _ _ Hpipe _ _ _].
  apply bind_Ok in Ha as (entered & Hent & Ha). apply bind_Ok in Ha as (acc & Hacc & Ha). cbv zeta in Ha.
  apply bind_Ok in Ha as (m & Hm0 & Ha). apply bind_Ok in Ha as (exits & Hex & Ha).
  apply bind_Ok in Ha as (bv & Hbv%pget_item & Ha). apply bind_Ok in Ha as (raws & Hraws & Ha).
  apply bind_Ok in Ha as (barriers & Hba & Ha). apply bind_Ok in Ha as (src & _ & Ha).
  apply bind_Ok in Ha as (ir' & (_ & Hwf & ->)%execution_ir_Ok & [= <- <-]%Ok_eq).
  apply adapt_rows_ok in Hacc as [made [Hn Hm Hkeys Hmem Hc]]; [|done]. rewrite Hn in *. fold (owners_of a) in *.
  apply owners_members in Hm0 as (K & N).
  exists a, made. split; [done|]. split; [split; cbn [nodes]; try done|].
  - intros nr Hnr. rewrite !elem_of_app. left. right. by apply list_elem_of_fmap_2.
  - intros n. rewrite !elem_of_app. intros [[Hin|Hin]|[Hin|[Hin|Hin]]]; [right|by left|right..].
    + eapply (map_res_elem _ (fun n => service n = None)); [|exact Hent|done].
      intros [] z Hz. unfold enter_node in Hz. do 5 (apply bind_Ok in Hz as (? & _ & Hz)). by apply Ok_eq in Hz as <-.
    + unfold owners_of in Hin. destruct (pipeline a) as [q|]; [by eapply owner_nodes_shape; [apply Hpipe|]|by apply not_elem_of_nil in Hin].
    + eapply (map_res_elem _ (fun n => service n = None)); [|exact Hex|done].
      intros [] z Hz. unfold exit_node in Hz. apply bind_Ok in Hz as (? & _ & Hz). destruct (sget _ _); [|done].
      apply bind_Ok in Hz as (? & _ & Hz). by apply Ok_eq in Hz as <-.
    + eapply (map_res_elem _ (fun n => service n = None)); [|exact Hba|done].
      intros raw z Hz. unfold declared_barrier in Hz. do 6 (apply bind_Ok in Hz as (? & _ & Hz)). by apply Ok_eq in Hz as <-.
  - intros q n Eq Hin. unfold owners_of. rewrite Eq, !elem_of_app. right. by left.
  - exists entered, exits, barriers, m, raws. split; try done.
    + rewrite K, Hkeys. clear. induction (operations a) as [|[o r] l IH]; [done|]. cbn. by rewrite IH.
    + intros o x. rewrite N, Hmem. split; [|naive_solver].
      intros [[Hin|]|]; [|naive_solver..]. exfalso. destruct Hin as (children & Hget & Hx). apply elem_sget in Hget.
      apply list_elem_of_In, in_map_iff in Hget as ([o' r] & [= <- <-] & _). by apply not_elem_of_nil in Hx.
    + rewrite Hbv. destruct bv; try done. by apply Ok_eq in Hraws as ->.
Qed.

Lemma adapt_records_ok lifecycle rows rs admission ir services :
  adapt_records rows lifecycle rs admission = Ok (ir, services) →
  ∃ a made, prepared lifecycle rows rs a ∧ adapted_graph a ir services made.
Proof. intros (a & made & Hp & Hg & _)%adapt_records_parts. by exists a, made. Qed.

(** ** The checks of the scheduler *)

Section Graph.
Context (a : Adaptation) (ir : ExecutionIR) (services : Services) (made : list (Node * RowNode)).
Context (Hg : adapted_graph a ir services made).

Lemma made_row nr : nr ∈ made → ∃ entry, entry ∈ indexed a ∧ is_row a entry = true ∧
  row_adapted a entry nr.1 nr.2 ∧ row_ok a entry.1 entry.2 nr.2.
Proof using Hg.
  intros Hin. apply list_elem_of_lookup in Hin as [i Hi].
  destruct (Forall2_lookup_r _ _ _ _ _ (ag_made _ _ _ _ Hg) Hi) as (entry & He & Ha).
  apply list_elem_of_lookup_2, list_elem_of_In, filter_In in He as [He Hrow]. apply list_elem_of_In in He.
  exists entry. split_and!; try done. destruct Ha as [_ (raw & listed & _ & _ & Hr) _ _ _ _]. by eapply row_node_ok.
Qed.

Lemma row_made entry : entry ∈ indexed a → is_row a entry = true → ∃ nr, nr ∈ made ∧
  row_adapted a entry nr.1 nr.2 ∧ row_ok a entry.1 entry.2 nr.2.
Proof using Hg.
  intros Hin Hrow.
  assert (Hf : entry ∈ List.filter (is_row a) (indexed a)) by (apply list_elem_of_In, filter_In; split; [by apply list_elem_of_In|done]).
  apply list_elem_of_lookup in Hf as [i Hi].
  destruct (Forall2_lookup_l _ _ _ _ _ (ag_made _ _ _ _ Hg) Hi) as (nr & Hn & Ha).
  exists nr. split; [by eapply list_elem_of_lookup_2|]. split; [done|].
  destruct Ha as [_ (raw & listed & _ & _ & Hr) _ _ _ _]. by eapply row_node_ok.
Qed.

(** A node with a service is the node of a row and names itself. *)
Lemma serviced n : n ∈ nodes ir → is_cpu (kind n) || is_npu (kind n) = true →
  ∃ nr entry, nr ∈ made ∧ nr.1 = n ∧ service n = Some (identity n) ∧ entry.1 = identity n ∧
    row_adapted a entry n nr.2 ∧ row_ok a entry.1 entry.2 nr.2.
Proof using Hg.
  intros Hn Hk. assert (Hs : is_Some (service n)).
  { destruct (ag_wf _ _ _ _ Hg) as [_ _ Hw _]. rewrite Forall_forall in Hw. apply (wn_service _ _ (Hw n Hn)). by destruct (kind n). }
  apply (ag_nodes _ _ _ _ Hg) in Hn as [Hm|Hnone]; [|rewrite Hnone in Hs; by destruct Hs].
  apply list_elem_of_fmap in Hm as (nr & -> & Hm). destruct (made_row nr Hm) as (entry & _ & _ & Ha & Hr).
  exists nr, entry. pose proof Ha as [Hid _ Hkind Hserv _ _]. split_and!; try done.
  rewrite Hserv, Hid. apply (rk_service _ _ _ _ Hr). by rewrite <-Hkind.
Qed.

Lemma cpu_names k : k ∈ (cpu services).*1 ↔ ∃ n, n ∈ nodes ir ∧ is_cpu (kind n) = true ∧ service n = Some k.
Proof using Hg.
  split.
  - intros Hk. destruct (sget k (cpu services)) as [s|] eqn:E; [|by apply (aget_None _ String.eqb_eq) in E].
    apply (ag_cpu _ _ _ _ Hg) in E as (nr & Hm & <- & Hs). destruct (made_row nr Hm) as (entry & _ & _ & [Hid _ Hkind Hserv _ _] & Hr).
    destruct (rk_cpu _ _ _ _ Hr s Hs) as (Hc & _). exists nr.1. split_and!; [by apply (ag_rows _ _ _ _ Hg)|by rewrite Hkind|].
    rewrite Hserv, Hid. apply (rk_service _ _ _ _ Hr). by rewrite Hc.
  - intros (n & Hn & Hc & Hs). destruct (serviced n Hn) as (nr & entry & Hm & <- & Hid & _ & [_ _ Hkind _ _ _] & Hr); [by rewrite Hc|].
    rewrite Hs in Hid. injection Hid as ->. rewrite Hkind in Hc. apply (rk_has_cpu _ _ _ _ Hr) in Hc as [s Hs'].
    assert (Hget : sget (identity nr.1) (cpu services) = Some s) by (apply (ag_cpu _ _ _ _ Hg); by exists nr).
    apply elem_sget in Hget. by apply (list_elem_of_fmap_2 fst) in Hget.
Qed.

Lemma cpu_bound n : n ∈ nodes ir → is_cpu (kind n) = true →
  ∃ s, cpu_lookup services n = Ok s ∧ cpu_binding n s = Ok tt ∧ cpu_service_of (cpu_source s) (policy s) (workers s) = Ok s.
Proof using Hg.
  intros Hn Hc. destruct (serviced n Hn) as (nr & entry & Hm & <- & Hid & _ & [_ _ Hkind _ Hres _] & Hr); [by rewrite Hc|].
  rewrite Hkind in Hc. destruct (rk_has_cpu _ _ _ _ Hr Hc) as [s Hs].
  assert (Hget : sget (identity nr.1) (cpu services) = Some s) by (apply (ag_cpu _ _ _ _ Hg); by exists nr).
  destruct (rk_cpu _ _ _ _ Hr s Hs) as (_ & Hclaims & Hv & Happ). exists s. split_and!; [| |done].
  - unfold cpu_lookup, service_id. rewrite Hid. cbn. by rewrite Hget.
  - unfold cpu_binding, ensure. rewrite Hkind, Hres, Hclaims.
    assert (Hap : negb (bool_decide (row_kind nr.2 = APPLICATION_CPU)) || String.eqb (cpu_source s) "APPLICATION_CPU" = true).
    { case_bool_decide as E; [|done]. cbn. apply String.eqb_eq, Happ, E. }
    rewrite Hap. cbn. by rewrite (proj2 (set_eq_str _ _)).
Qed.
End Graph.

Lemma same_names_spec names l : same_names names l = true ↔ ∀ o, o ∈ names ↔ o ∈ map Some l.
Proof.
  unfold same_names, set_eq. rewrite andb_true_iff, !subset_of_spec by (intros; apply bool_decide_eq_true). set_solver.
Qed.

Lemma elem_of_service_names (l : list string) o : o ∈ map Some l ↔ ∃ k, o = Some k ∧ k ∈ l.
Proof. apply list_elem_of_fmap. Qed.

Lemma service_names_spec f l o : o ∈ service_names f l ↔ ∃ n, n ∈ l ∧ f (kind n) = true ∧ service n = o.
Proof.
  unfold service_names. rewrite list_elem_of_In, in_map_iff. setoid_rewrite <-list_elem_of_In.
  setoid_rewrite list_elem_of_filter. naive_solver.
Qed.

(** A row that is no container of an operation has a node. *)
Lemma uncontained_row lifecycle rows rs a t row : prepared lifecycle rows rs a →
  (t, row) ∈ indexed a → is_container row = false → is_row a (t, row) = true.
Proof.
  intros Hp Hin Hk. unfold is_row. cbn. apply negb_true_iff. destruct (smem t (operations a)) eqn:E; [|done].
  apply (amem_spec _ String.eqb_eq) in E. rewrite (pr_operations _ _ _ _ Hp) in E.
  apply list_elem_of_fmap in E as ([k2 row2] & -> & E%list_elem_of_In). apply filter_In in E as [E%list_elem_of_In Hc].
  pose proof (ix_distinct _ _ (pr_index _ _ _ _ Hp)) as Hnd. cbn [fst snd] in Hc, Hin.
  apply (sget_elem _ _ _ Hnd) in Hin, E. congruence.
Qed.

Lemma kind_uncontained row k : k ≠ "OPERATION_CONTAINER" → is_kind row k = true → is_container row = false.
Proof.
  unfold is_container, is_kind. intros Hk E%eq_str_spec. rewrite E. unfold eq_str. by apply String.eqb_neq.
Qed.

Lemma target_uncontained row : is_target row = true → is_container row = false.
Proof. unfold is_target. intros [_ Ht]%andb_prop. by apply (kind_uncontained _ "SERVICE"). Qed.

Lemma npu_names lifecycle rows rs a ir services made : prepared lifecycle rows rs a → adapted_graph a ir services made →
  ∀ k, k ∈ (npu services).*1 ↔ ∃ n, n ∈ nodes ir ∧ is_npu (kind n) = true ∧ service n = Some k.
Proof.
  intros Hp Hg k. rewrite (ag_npu _ _ _ _ Hg). split.
  - intros Hk. apply (pr_targets _ _ _ _ Hp) in Hk as ([k' row] & -> & Hin%list_elem_of_In)%list_elem_of_fmap.
    apply filter_In in Hin as [Hin%list_elem_of_In Ht]. cbn in Ht.
    assert (Hrow : is_row a (k', row) = true) by exact (uncontained_row _ _ _ _ _ _ Hp Hin (target_uncontained _ Ht)).
    destruct (row_made _ _ _ _ Hg _ Hin Hrow) as (nr & Hm & [Hid _ Hkind Hserv _ _] & Hr).
    apply (rk_target _ _ _ _ Hr) in Ht. exists nr.1. split_and!; [by apply (ag_rows _ _ _ _ Hg)|by rewrite Hkind, Ht|].
    rewrite Hserv. apply (rk_service _ _ _ _ Hr). by rewrite Ht.
  - intros (n & Hn & Hk & Hs). apply (pr_submission _ _ _ _ Hp).
    destruct (serviced _ _ _ _ Hg n Hn) as (nr & entry & Hm & <- & Hid & Heid & [_ _ Hkind _ _ _] & Hr); [by rewrite Hk, orb_true_r|].
    rewrite Hs in Hid. injection Hid as ->. rewrite <-Heid. apply (rk_npu _ _ _ _ Hr). rewrite <-Hkind. by destruct (kind nr.1).
Qed.

(** The services fit the graph: what the scheduler's gate checks of them. *)
Record served (ir : ExecutionIR) (services : Services) : Prop := {
  sv_wf : wf_ir (nodes ir);
  sv_valid : valid_services services;
  sv_cpu : ∀ k, k ∈ (cpu services).*1 ↔ ∃ n, n ∈ nodes ir ∧ is_cpu (kind n) = true ∧ service n = Some k;
  sv_npu : ∀ k, k ∈ (npu services).*1 ↔ ∃ n, n ∈ nodes ir ∧ is_npu (kind n) = true ∧ service n = Some k;
  sv_bound : ∀ n, n ∈ nodes ir → is_cpu (kind n) = true →
    ∃ s, cpu_lookup services n = Ok s ∧ cpu_binding n s = Ok tt;
}.

Lemma adapted_served lifecycle rows rs admission ir services :
  adapt_records rows lifecycle rs admission = Ok (ir, services) → served ir services.
Proof.
  intros (a & made & Hp & Hg)%adapt_records_ok. split; [apply Hg| |by eapply cpu_names|by eapply npu_names|].
  - intros k s Hk. apply (ag_cpu _ _ _ _ Hg) in Hk as (nr & Hm & _ & Hs).
    destruct (made_row _ _ _ _ Hg nr Hm) as (entry & _ & _ & _ & Hr). by apply (rk_cpu _ _ _ _ Hr).
  - intros n Hn Hc. destruct (cpu_bound _ _ _ _ Hg n Hn Hc) as (s & ? & ? & _). by exists s.
Qed.
End Adapted.

(** ** The gate *)

(** A node of a service kind has a service. *)
Lemma service_owned l n : wf_ir l → n ∈ l → is_cpu (kind n) || is_npu (kind n) = true → is_Some (service n).
Proof.
  intros [_ _ Hw _] Hn Hk. rewrite Forall_forall in Hw. apply (wn_service _ _ (Hw n Hn)). by destruct (kind n).
Qed.

Lemma same_service_names f l names : (∀ n, n ∈ l → f (kind n) = true → is_Some (service n)) →
  (∀ k, k ∈ names ↔ ∃ n, n ∈ l ∧ f (kind n) = true ∧ service n = Some k) →
  ∀ o, o ∈ service_names f l ↔ o ∈ map Some names.
Proof.
  intros Hs Hn o. rewrite service_names_spec, elem_of_service_names. split.
  - intros (n & Hin & Hf & <-). destruct (Hs n Hin Hf) as [k Hk]. exists k. split; [done|]. apply Hn. eauto.
  - intros (k & -> & Hk). by apply Hn.
Qed.

Lemma served_gate `{PlainProvider} `{SequenceProvider} load (inputs : ScheduleInputs) sc :
  served (Scheduler.ir inputs) (Scheduler.services inputs) →
  gate load inputs sc =
    (validate_environment load (scope (Scheduler.ir inputs)) (npu_provider inputs) sc ;;;
     match sequence_of (npu_provider inputs) with
     | Some q => ensure (same_names (map Some (npu (Scheduler.services inputs)).*1) (map work_identity (seq_requests q)))
         "scheduled NPU work does not equal bound trace work"
     | None => Ok tt
     end).
Proof.
  intros [Hwf _ Hcpu Hnpu Hb]. unfold gate. set (l := nodes (Scheduler.ir inputs)) in *. set (sv := Scheduler.services inputs) in *.
  assert (Hc : ∀ o, o ∈ service_names is_cpu l ↔ o ∈ map Some (cpu sv).*1).
  { apply same_service_names; [|done]. intros n Hn Hk. apply (service_owned l); [done..|by rewrite Hk]. }
  assert (Hn : ∀ o, o ∈ service_names is_npu l ↔ o ∈ map Some (npu sv).*1).
  { apply same_service_names; [|done]. intros n Hn Hk. apply (service_owned l); [done..|by rewrite Hk, orb_true_r]. }
  rewrite (proj2 (same_names_spec _ _) Hc), (proj2 (same_names_spec _ _) Hn).
  assert (Hi : iter_res (fun n => if is_cpu (kind n) then let* c := cpu_lookup sv n in cpu_binding n c else Ok tt) l = Ok tt).
  { apply iter_res_Ok, Forall_forall. intros n Hin. destruct (is_cpu (kind n)) eqn:Ek; [|done].
    destruct (Hb n Hin Ek) as (s & Hs & Hbind). by rewrite Hs. }
  rewrite Hi. destruct (validate_environment _ _ _ _) as [[]|]; [cbn [mbind res_bind]|done].
  destruct (sequence_of _) as [q|]; [|done]. unfold ensure, check. cbn [mbind res_bind].
  replace (same_names (service_names is_npu l) (map work_identity (seq_requests q)))
    with (same_names (map Some (npu sv).*1) (map work_identity (seq_requests q))); [by destruct (same_names _ _)|].
  apply eq_true_iff_eq. rewrite !same_names_spec. by setoid_rewrite Hn.
Qed.
