(* ===== verification/AdapterPipeline.v ===== *)
(** * The pipeline in a timeline of the adapted graph

    The edges of the projection reach the graph [adapt_records] builds: an
    owner node is a node of the graph, an addition is a dependency of the row
    it is for, and no removal touches the stages of a call.  Every timeline of
    the graph therefore respects them, and [adapted_pipeline] follows from the
    lemmas on timings. *)
From S2P Require Import Prelude Records Rational ExecutionIR Services Sequence Admission Provider.
From S2P Require Import Scheduler SchedulerTheorems PipelineContract Pipeline PipelineEdges PipelineTheorems.
From S2P Require Import PipelineTheorems Adapter AdapterTheorems ExecutionIR.
Set Default Goal Selector "!".

(** ** Removals *)

(** The projection removes edges of publications on works, and edges of works
    on the invocations of calls. *)
Definition removals_ok (l : list (string * list string)) : Prop :=
  ∀ target sources source, sget target l = Some sources → source ∈ sources →
    (∃ w call, target = call_id call "PUBLISH" ∧ source = npu_id w) ∨ (∃ w call, target = npu_id w ∧ source = call_id call "INVOKE").

Section Removals.
Context `{Host}.
Context (proof : PipelineContract) (indexed results : list (string * record)).

Lemma fold_add_removed {A} (target source : A → string) m l d :
  removed (fold_left (fun d x => add_edge (target x) (source x) m d) l d) = removed d.
Proof. revert d. induction l as [|x l IH]; intros d; cbn; [done|]. by rewrite IH. Qed.

Lemma slot_edges_removed p s prior dq d : removed (slot_edges p s prior dq d) = removed d.
Proof. unfold slot_edges. by destruct prior, dq, (2 <=? s). Qed.

Lemma event_edges_removed p s g r t i o cs d d' : event_edges p s g r t i o cs d = Ok d' → removed d' = removed d.
Proof.
  unfold event_edges. intros He. repeat case_match.
  - by apply bind_Ok in He as ([] & _ & <-%Ok_eq).
  - apply Ok_eq in He as <-. unfold add. by rewrite fold_add_removed.
  - by apply Ok_eq in He as <-.
  - by apply Ok_eq in He as <-.
  - by apply Ok_eq in He as <-.
Qed.

Lemma project_owner_removed p parent s w op ph g d kv d' :
  project_owner indexed results p parent s w op ph g d kv = Ok d' → removed d' = removed d.
Proof.
  intros Hp. unfold project_owner in Hp. do 5 (apply bind_Ok in Hp as (? & _ & Hp)).
  do 2 (apply bind_Ok in Hp as ([] & _ & Hp)). apply bind_Ok in Hp as (d1 & Hd1 & Hp).
  apply bind_Ok in Hp as (d2 & He & <-%Ok_eq). apply event_edges_removed in He. cbn. rewrite He. unfold add.
  rewrite fold_add_removed. destruct (event_in _ _).
  - apply bind_Ok in Hd1 as ([] & _ & <-%Ok_eq). by rewrite fold_add_removed.
  - by apply bind_Ok in Hd1 as ([] & _ & <-%Ok_eq).
Qed.

Lemma work_edges_removals p s w call d : removals_ok (removed d) → removals_ok (removed (work_edges p s w call d)).
Proof.
  intros Hd target sources source. cbn. rewrite !sget_sset.
  destruct (String.eqb_spec target (npu_id w)) as [->|]; [intros [= <-] ->%list_elem_of_singleton; right; by exists w, call|].
  destruct (String.eqb_spec target (call_id call "PUBLISH")) as [->|]; [|by apply Hd].
  intros [= <-] ->%list_elem_of_singleton. left. by exists w, call.
Qed.

Lemma project_stripe_removals p parent fence c e c' :
  removals_ok (removed (draft c)) → project_stripe proof indexed results p parent fence c e = Ok c' →
  removals_ok (removed (draft c')).
Proof.
  intros Hc Hp. unfold project_stripe in Hp. do 11 (apply bind_Ok in Hp as (? & _ & Hp)). cbv zeta in Hp.
  do 3 (apply bind_Ok in Hp as (? & _ & Hp)). apply bind_Ok in Hp as (d & Hd & <-%Ok_eq). cbn.
  revert Hd. apply (fold_res_inv (fun d => removals_ok (removed d))).
  - apply work_edges_removals. by rewrite slot_edges_removed.
  - intros kv d1 d2 _ Hd1 Hd2. apply project_owner_removed in Hd2. by rewrite Hd2.
Qed.

Lemma project_parent_removals d e d' :
  removals_ok (removed d) → project_parent proof indexed results d e = Ok d' → removals_ok (removed d').
Proof.
  destruct e as [p parent]. intros Hd Hp. unfold project_parent in Hp. do 2 (apply bind_Ok in Hp as (? & _ & Hp)).
  apply bind_Ok in Hp as (c & Hc & Hp). apply bind_Ok in Hp as (? & _ & Hp). cbv zeta in Hp.
  apply bind_Ok in Hp as ([] & _ & <-%Ok_eq). rewrite fold_add_removed. revert Hc.
  apply (fold_res_inv (fun c => removals_ok (removed (draft c)))); [done|].
  intros e c1 c2 _. apply project_stripe_removals.
Qed.
End Removals.

Lemma project_pipeline_removals `{Host} contract indexed results q :
  project_pipeline contract indexed results = Ok q → removals_ok (removals q).
Proof.
  unfold project_pipeline. intros Hp. apply bind_Ok in Hp as (proof & _ & Hp). apply bind_Ok in Hp as (d & Hd & Hp).
  destruct (fold_left _ _ _) as [completed rest]. apply Ok_eq in Hp as <-. cbn. revert Hd.
  apply (fold_res_inv (fun d => removals_ok (removed d))); [done|]. intros e d1 d2 _. apply project_parent_removals.
Qed.

(** ** Timelines *)

(** The moments a schedule gives a node; every node of the graph has an entry. *)
Definition start_of (l : list ScheduledNode) (t : string) : Qc :=
  match completed_at l t with Some s => accepted_ns s | None => 0%Qc end.
Definition ready_of (l : list ScheduledNode) (t : string) : Qc :=
  match completed_at l t with Some s => result_ready_ns s | None => 0%Qc end.

Lemma completed_app l k t : completed_at (l ++ k) t = match completed_at l t with Some s => Some s | None => completed_at k t end.
Proof.
  unfold completed_at. induction l as [|x l IH]; cbn; [done|]. by destruct (String.eqb _ t).
Qed.

Lemma completed_named l t s : completed_at l t = Some s → scheduled_identity s = t.
Proof. intros [_ Hs%String.eqb_eq]%find_some. done. Qed.

Lemma completed_total l t : t ∈ map scheduled_identity l → is_Some (completed_at l t).
Proof.
  intros Hin%list_elem_of_In. apply in_map_iff in Hin as (s & <- & Hs). unfold completed_at.
  destruct (List.find _ l) eqn:E; [done|]. apply (find_none _ _ E) in Hs. by rewrite String.eqb_refl in Hs.
Qed.

(** An entry of a timeline is the entry of a node whose dependencies reached
    their milestones before it was accepted. *)
Lemma timeline_entry c nodes l t s : timeline c nodes l → completed_at l t = Some s →
  (accepted_ns s <= result_ready_ns s)%Qc ∧ ∃ n, n ∈ nodes ∧ identity n = t ∧
    ∀ d, d ∈ dependencies n → ∃ s0, completed_at l (node d) = Some s0 ∧ (milestone_of s0 (milestone d) <= accepted_ns s)%Qc.
Proof.
  induction 1 as [|past n s' _ IH Hf]; [done|]. rewrite completed_app. intros Hs.
  assert (Hgrow : ∀ d s0, completed_at past d = Some s0 → completed_at (past ++ [s']) d = Some s0).
  { intros d s0 Hd. by rewrite completed_app, Hd. }
  destruct (completed_at past t) as [s1|] eqn:E.
  - injection Hs as ->. destruct (IH eq_refl) as (? & m & ? & ? & Hdeps). split; [done|]. exists m. split_and!; try done.
    intros d Hd. destruct (Hdeps d Hd) as (s0 & ? & ?). eauto.
  - cbn in Hs. destruct (String.eqb_spec (scheduled_identity s') t) as [Ht|]; [|done]. injection Hs as ->.
    destruct Hf as [[Hn Hid] _ Hdeps _ [Hm _] _]. split; [done|]. exists n. split_and!; [done|congruence|].
    intros d Hd. destruct (Hdeps d Hd) as (s0 & ? & ?). eauto.
Qed.

Lemma NoDup_map_inj {A B} (f : A → B) l x y : NoDup (map f l) → x ∈ l → y ∈ l → f x = f y → x = y.
Proof.
  intros Hnd Hx Hy Hf. induction l as [|z l IH]; [by apply not_elem_of_nil in Hx|]. cbn in Hnd.
  apply NoDup_cons in Hnd as [Hz Hnd]. apply elem_of_cons in Hx as [->|Hx], Hy as [->|Hy]; auto; exfalso; apply Hz.
  - rewrite Hf. by apply list_elem_of_In, in_map, list_elem_of_In.
  - rewrite <-Hf. by apply list_elem_of_In, in_map, list_elem_of_In.
Qed.

#[export] Instance Qcle_preorder : PreOrder Qcle.
Proof. split; [intros x; apply Qcle_refl|intros x y z; apply Qcle_trans]. Qed.

(** ** The edges of a graph in its timelines *)

Definition graph_edge (ir : ExecutionIR) (t u : string) : Prop :=
  ∃ n, n ∈ nodes ir ∧ identity n = t ∧ {| node := u; milestone := RESULT_READY |} ∈ dependencies n.

Section Moments.
Context (ir : ExecutionIR) (c : Qc) (l : list ScheduledNode).
Context (Hwf : wf_ir (nodes ir)).
Context (Htl : timeline c (nodes ir) l) (Hperm : map scheduled_identity l ≡ₚ map identity (nodes ir)).

Lemma graph_entry t : t ∈ map identity (nodes ir) → ∃ s, completed_at l t = Some s ∧ (accepted_ns s <= result_ready_ns s)%Qc.
Proof using Htl Hperm.
  intros Ht. destruct (completed_total l t) as [s Hs]; [by rewrite Hperm|]. exists s. split; [done|].
  by apply (timeline_entry _ _ _ _ _ Htl Hs).
Qed.

Lemma node_time n : n ∈ nodes ir → (start_of l (identity n) <= ready_of l (identity n))%Qc.
Proof using Htl Hperm.
  intros Hn. destruct (graph_entry (identity n)) as (s & Hs & Hle); [by apply list_elem_of_In, in_map, list_elem_of_In|].
  unfold start_of, ready_of. by rewrite Hs.
Qed.

Lemma graph_edge_time t u : graph_edge ir t u →
  t ∈ map identity (nodes ir) ∧ u ∈ map identity (nodes ir) ∧ (ready_of l u <= start_of l t)%Qc.
Proof using Hwf Htl Hperm.
  intros (n & Hn & Hid & He).
  assert (Ht : t ∈ map identity (nodes ir)) by (rewrite <-Hid; by apply list_elem_of_In, in_map, list_elem_of_In).
  destruct Hwf as [_ Hnd Hw _]. rewrite Forall_forall in Hw.
  split; [done|]. split; [exact (wn_resolved _ _ (Hw n Hn) _ He)|].
  destruct (completed_total l t) as [s Hs]; [by rewrite Hperm|].
  destruct (timeline_entry _ _ _ _ _ Htl Hs) as (_ & m & Hm & Hmid & Hdeps).
  assert (m = n) as -> by (eapply NoDup_map_inj; [exact Hnd|done..|congruence]).
  destruct (Hdeps _ He) as (s0 & Hs0 & Hle). cbn in Hs0, Hle. unfold ready_of, start_of. by rewrite Hs, Hs0.
Qed.

(** A node is ready after what it depends on. *)
Lemma edge_ready t u : graph_edge ir t u → (ready_of l u <= start_of l t)%Qc ∧ (ready_of l u <= ready_of l t)%Qc.
Proof using Hwf Htl Hperm.
  intros He. destruct (graph_edge_time t u He) as (Ht & _ & Hle). split; [done|]. destruct He as (n & Hn & <- & _).
  etrans; [exact Hle|]. by apply node_time.
Qed.
End Moments.

(** ** The edges of the adapted graph *)

Section Graph.
Context `{Host}.
Context (lifecycle : record) (rows rs : list record) (a : Adaptation) (ir : ExecutionIR) (services : Services).
Context (made : list (Node * RowNode)) (q : PipelineProjection).
Context (Hp : prepared lifecycle rows rs a) (Hg : adapted_graph a ir services made) (Hq : pipeline a = Some q).
Context (Hproject : project_pipeline lifecycle (indexed a) (result_rows (results a)) = Ok q).

(** The targets the projection adds edges to: owners, and rows of the dataset. *)
Definition projected_target (t : string) : Prop :=
  has_node (owner_nodes q) t ∨ ∃ row, (t, row) ∈ indexed a ∧ is_row a (t, row) = true.

Lemma projected_graph_edge t u : projected_target t → projected_edge q t u → graph_edge ir t u.
Proof using Hg Hq.
  intros Ht [(n & Hn & Hid & He)|[Hno He]].
  - exists n. split_and!; [by eapply (ag_owners _ _ _ _ Hg)|done|done].
  - destruct Ht as [(n & Hn & Hid)|(row & Hin & Hrow)]; [by apply Hno in Hn|].
    destruct (row_made _ _ _ _ Hg _ Hin Hrow) as (nr & Hm & [Hid _ _ _ _ Hd] & _).
    exists nr.1. split_and!; [by apply (ag_rows _ _ _ _ Hg)|done|]. rewrite Hd, Hq. unfold Pipeline.edges.
    rewrite elem_of_fromkeys, elem_of_app. by right.
Qed.

Lemma boundary_row t row : (t, row) ∈ indexed a → is_kind row "CALL_BOUNDARY" = true → is_row a (t, row) = true.
Proof using Hp. intros Hin Hk. eapply uncontained_row; [done..|]. by apply (kind_uncontained _ "CALL_BOUNDARY"). Qed.

Lemma call_work_targets k w : sget k (call_work a) = Some w → w ∈ (target_rows a).*1.
Proof using Hp.
  pose proof (pr_calls _ _ _ _ Hp) as Hc. revert k w. revert Hc.
  apply (fold_res_hist (fun (pre : list (string * record)) (calls : list (string * string)) =>
    ∀ k w, sget k calls = Some w → w ∈ pre.*1)); [done|].
  intros pre [identity row] post c1 c2 _ IH Hc k' w'. unfold claim_call in Hc.
  do 3 (apply bind_Ok in Hc as (? & _ & Hc)). destruct x1 as [|call [|]]; try done.
  apply bind_Ok in Hc as ([] & _ & <-%Ok_eq). rewrite sget_sset, fmap_app, elem_of_app.
  destruct (String.eqb _ _); [intros [= <-]; right; by constructor|]. intros Hw. left. by eapply IH.
Qed.

Lemma call_not_npu c stage w : call_id c stage ≠ npu_id w.
Proof. discriminate. Qed.

(** A dependency on a stage of a call is an edge of the graph. *)
Lemma call_edge call stage prior row deps row' :
  (call_id call stage, row) ∈ indexed a → is_kind row "CALL_BOUNDARY" = true → pget row "dependencies" = JArr deps →
  JStr (call_id call prior) ∈ deps → (call_id call prior, row') ∈ indexed a → is_kind row' "CALL_BOUNDARY" = true →
  graph_edge ir (call_id call stage) (call_id call prior).
Proof using Hp Hg Hq Hproject.
  intros Hin Hk Hdeps Hdep Hin' Hk'.
  destruct (row_made _ _ _ _ Hg _ Hin (boundary_row _ _ Hin Hk)) as (nr & Hm & [Hid (raw & listed & Hraw & Hl & Hr) _ _ _ Hd] & _).
  cbn [fst snd] in *. exists nr.1. split_and!; [by apply (ag_rows _ _ _ _ Hg)|done|].
  set (e := {| node := call_id call prior; milestone := RESULT_READY |}).
  assert (Hlisted : e ∈ listed).
  { rewrite <-Hraw, Hdeps in Hl. unfold edges_to in Hl. cbn in Hl. apply map_res_Ok in Hl.
    apply list_elem_of_lookup in Hdep as [i Hi]. destruct (Forall2_lookup_l _ _ _ _ _ Hl Hi) as (e' & He' & Hx).
    apply bind_Ok in Hx as (name & [[= <-] _]%text_Ok & <-%Ok_eq).
    apply list_elem_of_lookup_2 in He'. unfold edge_to in He'.
    pose proof (boundary_row _ _ Hin' Hk') as Hno. unfold is_row in Hno. cbn [fst] in Hno.
    by rewrite (proj1 (negb_true_iff _) Hno) in He'. }
  assert (Hedges : e ∈ row_edges nr.2).
  { unfold row_node in Hr. rewrite Hk in Hr. unfold call_boundary in Hr.
    do 2 (apply bind_Ok in Hr as (? & _ & Hr)). destruct (eq_str _ "PUBLISH").
    - destruct (sget _ (call_work a)) as [w|] eqn:Ew; [|done]. apply Ok_eq in Hr as <-. cbn.
      apply list_elem_of_filter. split; [|apply elem_of_app; by left]. cbn. apply String.eqb_neq. intros Hw.
      apply call_work_targets in Ew. rewrite <-Hw in Ew.
      apply list_elem_of_fmap in Ew as ([k2 row2] & E1 & E%list_elem_of_In). apply filter_In in E as [E%list_elem_of_In Hc].
      pose proof (ix_distinct _ _ (pr_index _ _ _ _ Hp)) as Hnd. cbn [fst snd] in E1, Hc. subst k2.
      apply (sget_elem _ _ _ Hnd) in Hin', E. rewrite Hin' in E. injection E as <-.
      unfold is_target, is_kind in *. apply andb_prop in Hc as [_ Hc%eq_str_spec]. apply eq_str_spec in Hk'. congruence.
    - apply Ok_eq in Hr as <-. cbn. apply elem_of_app. by left. }
  rewrite Hd, Hq. unfold Pipeline.edges. rewrite elem_of_fromkeys, elem_of_app. left.
  apply list_elem_of_filter. split; [|by apply elem_of_fromkeys]. cbn.
  destruct (str_in _ _) eqn:Es; [|done]. apply str_in_spec in Es.
  destruct (sget (call_id call stage) (removals q)) as [sources|] eqn:Er; [|by apply not_elem_of_nil in Es].
  destruct (project_pipeline_removals _ _ _ _ Hproject _ _ _ Er Es) as [(w & ? & _ & Hw)|(w & ? & Hw & _)]; by apply call_not_npu in Hw.
Qed.

(** ** Timelines respect the edges *)

Context (c : Qc) (l : list ScheduledNode).
Context (Htl : timeline c (nodes ir) l) (Hperm : map scheduled_identity l ≡ₚ map identity (nodes ir)).

Lemma timeline_respects :
  respects Qcle projected_target (fun t => t ∈ map identity (nodes ir)) (projected_edge q) (start_of l) (ready_of l).
Proof using Hg Hq Htl Hperm.
  pose proof (ag_wf _ _ _ _ Hg) as Hwf. split.
  - intros t [(n & Hn & <-)|(row & Hin & Hrow)].
    + apply list_elem_of_In, in_map, list_elem_of_In. by eapply (ag_owners _ _ _ _ Hg).
    + destruct (row_made _ _ _ _ Hg _ Hin Hrow) as (nr & Hm & [Hid _ _ _ _ _] & _). cbn in Hid. rewrite <-Hid.
      apply list_elem_of_In, in_map, list_elem_of_In. by apply (ag_rows _ _ _ _ Hg).
  - intros t Ht. apply list_elem_of_In, in_map_iff in Ht as (n & <- & Hn%list_elem_of_In). by apply (node_time ir c l).
  - intros t u Ht He. by apply (graph_edge_time ir c l), projected_graph_edge.
  - intros t u Ht He. by apply (graph_edge_time ir c l Hwf Htl Hperm t u), projected_graph_edge.
Qed.
End Graph.

(** ** The theorem *)

(** The rows of the stages of a call, as the join writes them: each is a call
    boundary that waits for the stage before it. *)
Definition boundary (row : record) (call : Z) (stage : string) : Prop :=
  pget row "node_id" = JStr (call_id call stage) ∧ is_kind row "CALL_BOUNDARY" = true.
Definition linked (rows : list record) (call : Z) (stage prior : string) : Prop :=
  ∃ row deps, row ∈ rows ∧ boundary row call stage ∧ pget row "dependencies" = JArr deps ∧ JStr (call_id call prior) ∈ deps.
Record call_chain (rows : list record) (call : Z) : Prop := {
  cc_prepare : ∃ row, row ∈ rows ∧ boundary row call "PREPARE";
  cc_invoke : linked rows call "INVOKE" "PREPARE";
  cc_publish : linked rows call "PUBLISH" "INVOKE";
}.

Lemma boundary_indexed rows l row call stage : indexes rows l → row ∈ rows → boundary row call stage →
  (call_id call stage, row) ∈ l.
Proof.
  intros [<- _ Hn] Hin [Hid _]. apply list_elem_of_fmap in Hin as ([k row'] & -> & Hin). cbn [snd] in *.
  pose proof (Hn _ _ Hin) as Hk. rewrite Hid in Hk. by injection Hk as <-.
Qed.

(** What holds of the stripes [stripes] of the parent [p] on a timeline. *)
Record pipelined (l : list ScheduledNode) (p : Z) (stripes : list record) : Prop := {
  pl_two : ∀ t ids, NoDup ids → (∀ s, s ∈ ids → outstanding Qcle (ready_of l) p stripes t s) → (length ids ≤ 2)%nat;
  pl_slot : ∀ i j a b slot, (i < j)%nat → stripes !! i = Some a → stripes !! j = Some b →
    pget a "host_slot" = JInt slot → pget b "host_slot" = JInt slot →
    (ready_of l (owner_id p (Z.of_nat i) "EXSIA_WORKSPACE" "RELEASE" None) <=
     start_of l (owner_id p (Z.of_nat j) "EXSIA_WORKSPACE" "ACQUIRE" None))%Qc;
  pl_queue : ∀ i j, (i < j < length stripes)%nat →
    (ready_of l (owner_id p (Z.of_nat i) "FRONTEND_QUEUE" "DEQUEUE" None) <=
     start_of l (owner_id p (Z.of_nat j) "FRONTEND_QUEUE" "DEQUEUE" None))%Qc;
  pl_release : ∀ s, (s < length stripes)%nat →
    (ready_of l (owner_id p (Z.of_nat s) "FRONTEND_OUTSTANDING" "ACQUIRE" None) <=
     start_of l (owner_id p (Z.of_nat s) "FRONTEND_OUTSTANDING" "RELEASE" None))%Qc;
}.

(** C3: Back-pressure of the stripe pipeline, from the dataset to the
    timeline.  Take the graph adapted from a pipelined dataset in which the
    stages of each stripe's call follow each other, and any timeline that
    places all its nodes, as the scheduler computes them.  Then for the stripes
    of every declared parent: at any moment at most two are outstanding, a
    workspace slot is released before the next stripe acquires it, the queue is
    first in first out, and a stripe is released after it was acquired. *)
Theorem adapted_pipeline `{Host} lifecycle rows rs admission ir services c l :
  version_2 lifecycle = true → adapt_records rows lifecycle rs admission = Ok (ir, services) →
  (∀ r call, r ∈ rs → is_stripe r = true → pget r "call_id" = JInt call → call_chain rows call) →
  timeline c (nodes ir) l → map scheduled_identity l ≡ₚ map identity (nodes ir) →
  ∃ named proof, named.*2 = rs ∧ parse_pipeline lifecycle named = Ok proof ∧
    ∀ p parent, (p, parent) ∈ parents proof → ∃ stripes, stripes ≡ₚ stripe_results p named ∧
      zget p (PipelineContract.stripes proof) = Some stripes ∧ pipelined l p stripes.
Proof.
  intros Hv Ha Hchain Htl Hperm. apply adapt_records_ok in Ha as (a & made & Hp & Hg).
  pose proof (pr_pipeline _ _ _ _ Hp) as Hq. destruct (pipeline a) as [q|] eqn:Eq; [|congruence]. destruct Hq as [_ Hq].
  pose proof (project_pipeline_ok _ _ _ _ Hq) as (proof & Hproof & Hck & Hall).
  exists (result_rows (results a)), proof. split; [apply (pr_results _ _ _ _ Hp)|]. split; [done|].
  intros p parent Hin. destruct (Hall p parent Hin) as [(stripes & fence_call & reqss & works & Hz & _ & Hst & _)].
  destruct (ck_parents _ _ Hck p parent Hin) as (stripes' & residual & Hz' & _ & [Hrows _ _ _]).
  rewrite Hz in Hz'. injection Hz' as <-. exists stripes. split; [done|]. split; [done|].
  pose proof (timeline_respects a ir services made q Hg Eq c l Htl Hperm) as Hrs.
  assert (Hcreated : ∀ n, n ∈ owner_nodes q → projected_target a q (identity n)) by (intros n Hn; left; by exists n).
  assert (Hcalls : ∀ r call, r ∈ stripes → pget r "call_id" = JInt call →
    projected_target a q (call_id call "PREPARE") ∧
    (ready_of l (call_id call "PREPARE") <= start_of l (call_id call "PUBLISH"))%Qc).
  { intros r call Hr Hcall. rewrite Hrows in Hr. unfold stripe_results in Hr.
    apply list_elem_of_In, filter_In in Hr as [Hr%list_elem_of_In Hnamed]. apply andb_prop in Hnamed as [Hstripe _].
    rewrite (ad_rows _ _ (pr_results _ _ _ _ Hp)) in Hr.
    destruct (Hchain r call Hr Hstripe Hcall) as [(r1 & Hr1 & Hb1) (r2 & d2 & Hr2 & Hb2 & Hd2 & Hdep2) (r3 & d3 & Hr3 & Hb3 & Hd3 & Hdep3)].
    pose proof (boundary_indexed _ _ _ _ _ (pr_index _ _ _ _ Hp) Hr1 Hb1) as Hi1.
    pose proof (boundary_indexed _ _ _ _ _ (pr_index _ _ _ _ Hp) Hr2 Hb2) as Hi2.
    pose proof (boundary_indexed _ _ _ _ _ (pr_index _ _ _ _ Hp) Hr3 Hb3) as Hi3.
    destruct Hb1 as [_ Hk1], Hb2 as [_ Hk2], Hb3 as [_ Hk3]. split.
    - right. exists r1. split; [done|]. by eapply boundary_row.
    - assert (H21 : graph_edge ir (call_id call "INVOKE") (call_id call "PREPARE")) by (by eapply call_edge).
      assert (H32 : graph_edge ir (call_id call "PUBLISH") (call_id call "INVOKE")) by (by eapply call_edge).
      apply (graph_edge_time ir c l (ag_wf _ _ _ _ Hg) Htl Hperm) in H21 as (Hinv & _ & H21).
      apply (graph_edge_time ir c l (ag_wf _ _ _ _ Hg) Htl Hperm) in H32 as (_ & _ & H32).
      etrans; [exact H21|]. etrans; [|exact H32]. by apply (rs_run _ _ _ _ _ _ Hrs). }
  split.
  - intros t ids. exact (at_most_two Qcle _ _ _ _ _ Hrs _ _ _ _ _ _ Hst Hcreated Hcalls t ids).
  - intros i j x y slot Hij Hx Hy Hsx Hsy.
    exact (slot_exclusive Qcle _ _ _ _ _ Hrs _ _ _ _ _ _ Hst Hcreated Hcalls (j - i) i j x y slot ltac:(lia) Hij Hx Hy Hsx Hsy).
  - intros i j [Hij Hj]. replace j with (i + S (j - S i))%nat by lia.
    apply (dequeue_order Qcle _ _ _ _ _ Hrs _ _ _ _ _ _ Hst Hcreated). lia.
  - exact (acquire_release Qcle _ _ _ _ _ Hrs _ _ _ _ _ _ Hst Hcreated Hcalls).
Qed.
