(* ===== verification/Application.v ===== *)
(** * The application part of an execution

    [sim/cycle/execution_application.py]: the sampling steps between decodes,
    and the preparation of prefill batches, as CPU services of the calling
    thread; and [adapt] of [sim/cycle/execution_adapter.py], which joins them
    to the adapted graph.  The decoded documents and the digests of the files
    are arguments. *)
From S2P Require Import Prelude Records Rational ExecutionIR Services PipelineContract Pipeline Adapter.
Set Default Goal Selector "!".

Record ApplicationSource := { app_records : list record; app_contract : record }.

Record ApplicationProjection := {
  app_nodes : list (string * Node);
  app_services : list (string * CpuService);
  entry_edges : list (string * list Dependency);
}.

Section Application.
Context `{Host}.
Context (available : list (string * Kind)) (source : ApplicationSource).

Definition stage_is (stage : string) (row : record) : bool := eq_str (pget row "stage") stage.
Definition kind_at (name : string) (k : Kind) : bool := bool_decide (sget name available = Some k).
Definition result_of (name : string) : Dependency := {| node := name; milestone := RESULT_READY |}.

(** [cpu_service({.., 'workers': [{**record, 'worker_id': 0, 'resource': worker}]})] *)
Definition application_cpu (policy : json) (worker : string) (row : record) : res CpuService :=
  cpu_service [("source", JStr "APPLICATION_CPU"); ("policy", policy);
               ("workers", JArr [JObj (merge_records row [("worker_id", JInt 0); ("resource", JStr worker)])])].

Definition application_node (identity operation phase : string) (order : Z) (dependencies : list Dependency)
    (worker : string) : Node :=
  {| ExecutionIR.identity := identity; kind := APPLICATION_CPU; ExecutionIR.operation := operation;
     ExecutionIR.phase := phase; ExecutionIR.order := order; ExecutionIR.dependencies := dependencies;
     service := Some identity; resources := [worker] |}.

(** ** Prefill batches *)

(** The projection so far and the node the next batch waits for. *)
Record PrefillLoop := { prefilled : ApplicationProjection; previous : string }.

Definition prefill_identity (index dispatch : Z) (row step : record) : res bool :=
  int_test step "batch_index" (fun v => v =? index) andM
  int_test row "batch_index" (fun v => v =? index) andM
  int_test row "dispatch_id" (fun v => v =? dispatch) andM
  int_test step "graph_begin" (fun v => 0 <=? v) andM
  Ok (eq_str (pget row "schema") "potal-application-cpu") andM
  int_test row "version" (fun v => v =? 2) andM
  int_test row "thread_id" (fun v => 0 <=? v) andM
  Ok (eq_str (pget row "source_role") "potal_collection" &&
      is_null (pget row "sample_index") && is_null (pget row "token_id") &&
      eq_str (pget row "phase") "prefill" && is_null (pget row "decode_index")).

Definition prefill_batch (policy : json) (worker : string) (l : PrefillLoop) (entry : nat * (record * record)) :
    res PrefillLoop :=
  let '(position, (row, step)) := entry in
  let index := Z.of_nat position in
  fields step ["batch_index"; "dispatch_id"; "graph_begin"] ;;;
  let* dispatch := integer step "dispatch_id" in
  ensure_res (prefill_identity index dispatch row step) "application prefill identity mismatch" ;;;
  let begin := "dispatch:" +:+ dec dispatch +:+ ":begin" in
  let finish := "dispatch:" +:+ dec dispatch +:+ ":end" in
  ensure (kind_at begin BARRIER && kind_at finish BARRIER) "application prefill dispatch barriers missing" ;;;
  let prep := "application:prefill-prep:" +:+ dec dispatch in
  let p := prefilled l in
  ensure (negb (smem prep (app_nodes p)) && negb (smem prep available)) "duplicate application prefill service" ;;;
  let* service := application_cpu policy worker row in
  Ok {| prefilled :=
          {| app_nodes := sset prep (application_node prep prep "prefill:None" dispatch
                                       [result_of (previous l)] worker) (app_nodes p);
             app_services := sset prep service (app_services p);
             entry_edges := sset begin [result_of prep] (entry_edges p) |};
        previous := finish |}.

(** ** Samples *)

(** The projection so far and the threads that sampled. *)
Record SampleLoop := { sampled : ApplicationProjection; threads : list Z }.

Definition add_entry (token : string) (p : list (string * list Dependency)) (successor : string) :
    res (list (string * list Dependency)) :=
  let entry := successor +:+ ":enter" in
  ensure (kind_at entry OP_ENTER) "unknown next-decode operation entry" ;;;
  Ok (sset entry (default [] (sget entry p) ++ [result_of token]) p).

Definition sample_source (prefill : bool) (row : record) : res bool :=
  Ok (eq_str (pget row "schema") "potal-application-cpu") andM
  int_test row "version" (fun v => v =? (if prefill then 2 else 1)) andM
  Ok (eq_str (pget row "source_role") "potal_collection" && stage_is "sample_accept" row).

Definition sample_phase (index : Z) (row : record) : bool :=
  eq_str (pget row "phase") (if index =? 0 then "prefill" else "decode") &&
  (if index =? 0 then is_null (pget row "decode_index") else eq_int (pget row "decode_index") (index - 1)).

Definition sample_step (prefill : bool) (count : Z) (policy : json) (worker : string) (l : SampleLoop)
    (entry : nat * (record * record)) : res SampleLoop :=
  let '(position, (row, step)) := entry in
  let index := Z.of_nat position in
  let p := sampled l in
  ensure_res (sample_source prefill row) "PoTal sampling source required" ;;;
  ensure_res (int_test row "sample_index" (fun v => v =? index)) "duplicate/gapped application sample identity" ;;;
  ensure (sample_phase index row) "application phase mismatch" ;;;
  let* thread := integer row "thread_id" in
  let seen := if z_in thread (threads l) then threads l else threads l ++ [thread] in
  ensure (Nat.eqb (length seen) 1) "single sampler thread contract violated" ;;;
  fields step ["sample_index"; "logits_ready"; "next_decode_entries"] ;;;
  ensure_res (int_test step "sample_index" (fun v => v =? index)) "application dependency identity mismatch" ;;;
  let* ready_value := item step "logits_ready" in
  let* ready := array ready_value in
  let* required := map_res text_value ready in
  ensure (negb (Nat.eqb (length required) 0) && distinct String.eqb required)
    "missing/duplicate logits-ready predecessor" ;;;
  let dependencies := map (fun value =>
    result_of (if smem (value +:+ ":exit") available then value +:+ ":exit" else value)) required in
  ensure (forallb (fun e => smem (node e) available || smem (node e) (app_nodes p)) dependencies)
    "unknown logits-ready node" ;;;
  let sample_id := "application:sample:" +:+ dec index in
  let token_id := "application:token:" +:+ dec index in
  ensure (negb (smem sample_id (app_nodes p)) && negb (smem token_id (app_nodes p)) &&
          negb (smem sample_id available) && negb (smem token_id available))
    "duplicate application service" ;;;
  let* service := application_cpu policy worker row in
  let* phase_kind := text row "phase" in
  let* decode_index := item row "decode_index" in
  let phase := phase_kind +:+ ":" +:+ py_str decode_index in
  let sample_node := application_node sample_id sample_id phase index dependencies worker in
  let token_node := {| ExecutionIR.identity := token_id; kind := BARRIER; ExecutionIR.operation := sample_id;
    ExecutionIR.phase := phase; ExecutionIR.order := index; ExecutionIR.dependencies := [result_of sample_id];
    ExecutionIR.service := None; resources := [] |} in
  let* successor_value := item step "next_decode_entries" in
  let* successor_list := array successor_value in
  let* successors := map_res text_value successor_list in
  ensure (Bool.eqb (negb (Nat.eqb (length successors) 0)) (index + 1 <? count))
    "last sample must not trigger an extra decode" ;;;
  ensure (distinct String.eqb successors) "duplicate next-decode entry" ;;;
  let* edges := fold_res (add_entry token_id) (entry_edges p) successors in
  Ok {| sampled := {| app_nodes := sset token_id token_node (sset sample_id sample_node (app_nodes p));
                      app_services := sset sample_id service (app_services p);
                      entry_edges := edges |};
        threads := seen |}.

(** ** The projection *)

Definition CONTRACT_FIELDS : list string :=
  ["sha256"; "sampler_policy"; "resource"; "metric_policy"; "expected_samples"; "steps"].

Definition same_record (a b : record) : bool := jeq (JObj a) (JObj b).
Fixpoint same_records (a b : list record) : bool :=
  match a, b with
  | [], [] => true
  | x :: a, y :: b => same_record x y && same_records a b
  | _, _ => false
  end.

Definition project_prefill (worker : string) (preps : list record) : res ApplicationProjection :=
  let contract := app_contract source in
  let* raw := item contract "prefill_steps" in
  let* listed := array raw in
  let* steps := map_res object_value listed in
  ensure (negb (Nat.eqb (length steps) 0) && Nat.eqb (length steps) (length preps) &&
          same_records preps (take (length preps) (app_records source))) "application prefill coverage mismatch" ;;;
  let request := "application:request:begin" in
  ensure (kind_at request BARRIER) "application request-start barrier missing" ;;;
  let* policy := item contract "metric_policy" in
  let* l := fold_res (prefill_batch policy worker)
    {| prefilled := {| app_nodes := []; app_services := []; entry_edges := [] |}; previous := request |}
    (enumerate (zip preps steps)) in
  Ok (prefilled l).

Definition project_application : res ApplicationProjection :=
  let contract := app_contract source in
  let prefill := has contract "prefill_steps" in
  fields contract (CONTRACT_FIELDS ++ (if prefill then ["prefill_steps"] else [])) ;;;
  let* policy := item contract "sampler_policy" in
  ensure (eq_str policy "SINGLE_CALLING_THREAD") "unsupported sampler worker contract" ;;;
  let* count := integer contract "expected_samples" in
  let samples := List.filter (stage_is "sample_accept") (app_records source) in
  let preps := List.filter (stage_is "prefill_batch_prepare") (app_records source) in
  ensure ((0 <? count) && (Z.of_nat (length samples) =? count) &&
          Nat.eqb (length samples + length preps) (length (app_records source)))
    "application sample coverage mismatch" ;;;
  let* steps_value := item contract "steps" in
  let* steps_list := array steps_value in
  let* steps := map_res object_value steps_list in
  ensure (Z.of_nat (length steps) =? count) "application dependency coverage mismatch" ;;;
  let* worker := text contract "resource" in
  let* base := (if prefill then project_prefill worker preps
    else ensure (Nat.eqb (length preps) 0 && (Z.of_nat (length (app_records source)) =? count))
           "application sample coverage mismatch" ;;;
         Ok {| app_nodes := []; app_services := []; entry_edges := [] |}) in
  let* metric := item contract "metric_policy" in
  let* l := fold_res (sample_step prefill count metric worker) {| sampled := base; threads := [] |}
    (enumerate (zip samples steps)) in
  Ok (sampled l).
End Application.

(** [add_application] *)
Definition add_application `{Host} (ir : ExecutionIR) (services : Services) (source : ApplicationSource) :
    res (ExecutionIR * Services) :=
  let* projected := project_application (map (fun n => (identity n, kind n)) (nodes ir)) source in
  ensure (forallb (fun s => negb (str_in s (cpu services).*1)) (app_services projected).*1)
    "duplicate application service identity" ;;;
  let joined := map (fun n =>
    {| identity := identity n; kind := kind n; operation := operation n; phase := phase n; order := order n;
       dependencies := dependencies n ++ default [] (sget (identity n) (entry_edges projected));
       service := service n; resources := resources n |}) (nodes ir) in
  let* built := execution_ir (joined ++ (app_nodes projected).*2) (scope ir) (source_sha256 ir) in
  Ok (built, {| cpu := fold_left (fun acc kv => sset kv.1 kv.2 acc) (app_services projected) (cpu services);
                npu := npu services |}).

(** [adapt(files)] on the decoded documents: [application] is absent when the
    files name none, and [digests] are those of the files read. *)
Record Digests := { dataset_digest : string; results_digest : string; application_digest : string }.

Definition adapt `{Host} (digests : Digests) (lifecycle : record) (rows npu_results : list record)
    (application : option (list record)) (admission : ResultAdmission) : res (ExecutionIR * Services) :=
  ensure (eq_str (pget lifecycle "dataset_sha256") (dataset_digest digests)) "dataset/lifecycle binding mismatch" ;;;
  ensure (eq_str (pget lifecycle "npu_results_sha256") (results_digest digests))
    "NPU result/lifecycle binding mismatch" ;;;
  let* adapted := adapt_records rows lifecycle npu_results admission in
  match application with
  | Some records =>
      let* raw := item lifecycle "application" in
      let* declared := object_value raw in
      ensure (eq_str (pget declared "sha256") (application_digest digests)) "application/lifecycle binding mismatch" ;;;
      add_application adapted.1 adapted.2 {| app_records := records; app_contract := declared |}
  | None =>
      ensure (negb (has lifecycle "application")) "declared application input missing" ;;;
      ensure (String.eqb (scope adapted.1) "SYNTHETIC")
        "PoTal application lifecycle is required for bound E2E execution" ;;;
      Ok adapted
  end.
