(* ===== verification/ApplicationTheorems.v ===== *)
(** * What the adaptation of a whole execution guarantees

    The application nodes bring their own services ([application_ok]), so that
    joining them keeps the services fitting the graph; [adapt_gate] states it
    for the graph and services [adapt] returns, with or without an
    application. *)
From S2P Require Import Prelude Records Rational Services Sequence Admission Provider Scheduler.
From S2P Require Import SchedulerTheorems PipelineContract Pipeline PipelineEdges PipelineTheorems Adapter.
From S2P Require Import AdapterTheorems Application AdapterPipeline ExecutionIR.
Set Default Goal Selector "!".

(** ** Dictionaries *)

Lemma aset_here {V} k (v : V) l : (k, v) ∈ sset k v l.
Proof.
  induction l as [|[k' v'] l IH]; cbn; [by constructor|].
  destruct (String.eqb_spec k k') as [->|]; by constructor.
Qed.

Lemma aset_other {V} k k0 (v v0 : V) l : (k0, v0) ∈ l → k0 ≠ k → (k0, v0) ∈ sset k v l.
Proof.
  intros Hin Hne. induction l as [|[k' v'] l IH]; [by apply not_elem_of_nil in Hin|]. cbn.
  destruct (String.eqb_spec k k') as [->|].
  - apply elem_of_cons in Hin as [[= -> ->]|Hin]; [done|by constructor].
  - apply elem_of_cons in Hin as [[= -> ->]|Hin]; constructor. by apply IH.
Qed.

Lemma smem_fresh {V} k k0 (v : V) l : smem k l = false → (k0, v) ∈ l → k0 ≠ k.
Proof. intros Hf Hin ->. apply smem_false in Hf. by apply (list_elem_of_fmap_2 fst) in Hin. Qed.

Lemma elem_of_sset_keys {V} k k' (v : V) l : k' ∈ (sset k v l).*1 → k' = k ∨ k' ∈ l.*1.
Proof.
  intros ([k0 v0] & -> & Hin)%list_elem_of_fmap. apply (elem_of_aset _ String.eqb_eq) in Hin as [[= -> ->]|Hin]; [by left|right].
  by apply (list_elem_of_fmap_2 fst) in Hin.
Qed.

Lemma sget_is_Some {V} k (l : list (string * V)) : is_Some (sget k l) ↔ k ∈ l.*1.
Proof.
  destruct (sget k l) as [v|] eqn:E.
  - apply elem_sget, (list_elem_of_fmap_2 fst) in E. split; [done|by exists v].
  - split; [by intros []|]. by intros Hin%(aget_None _ String.eqb_eq).
Qed.

Section Application.
Context `{Host}.

(** ** The application nodes bring their services *)

(** The node [n] known as [k]: a CPU node with a service among [services] that
    runs on its resources, or a barrier. *)
Inductive application_served (services : list (string * CpuService)) (k : string) (n : Node) : Prop :=
  | served_cpu s : kind n = APPLICATION_CPU → service n = Some k → sget k services = Some s →
      resources n = map resource (workers s) → cpu_source s = "APPLICATION_CPU" → application_served services k n
  | served_barrier : kind n = BARRIER → service n = None → application_served services k n.

Record application_ok (p : ApplicationProjection) : Prop := {
  ao_distinct : NoDup (app_services p).*1;
  ao_valid : ∀ k s, sget k (app_services p) = Some s → cpu_service_of (cpu_source s) (policy s) (workers s) = Ok s;
  ao_nodes : ∀ k n, (k, n) ∈ app_nodes p → application_served (app_services p) k n;
  ao_services : ∀ k, k ∈ (app_services p).*1 → ∃ n, (k, n) ∈ app_nodes p ∧ kind n = APPLICATION_CPU ∧ service n = Some k;
}.

Lemma application_cpu_Ok pol worker row s : application_cpu pol worker row = Ok s →
  cpu_source s = "APPLICATION_CPU" ∧ map resource (workers s) = [worker] ∧
  cpu_service_of (cpu_source s) (policy s) (workers s) = Ok s.
Proof.
  unfold application_cpu. intros Hs. pose proof Hs as [[= Hsrc] Hv]%cpu_service_Ok. split; [done|]. split; [|done].
  unfold cpu_service in Hs. do 3 (apply bind_Ok in Hs as (? & _ & Hs)). destruct (policy_metric _); [|done].
  apply bind_Ok in Hs as (wv & Hwv & Hs). apply bind_Ok in Hs as (raw & Hraw & Hs).
  apply bind_Ok in Hs as (ws & Hws & Hs). cbn in Hwv. apply Ok_eq in Hwv as <-. cbn in Hraw. apply Ok_eq in Hraw as <-.
  unfold cpu_service_of in Hs. do 4 (apply bind_Ok in Hs as ([] & _ & Hs)). apply Ok_eq in Hs as <-. cbn [workers].
  cbn [map_res] in Hws. apply bind_Ok in Hws as (w & Hw & <-%Ok_eq). cbn. f_equal.
  unfold worker_service in Hw. destruct p as [[metric validity] unit_]. cbn [object_value mbind res_bind] in Hw.
  apply bind_Ok in Hw as ([] & _ & Hw). do 2 (apply bind_Ok in Hw as (? & _ & Hw)). cbv zeta in Hw.
  apply bind_Ok in Hw as ([] & _ & Hw). do 2 (apply bind_Ok in Hw as (? & _ & Hw)).
  do 2 (apply bind_Ok in Hw as ([] & _ & Hw)). apply bind_Ok in Hw as (r & [Hr _]%text_Ok & Hw).
  apply bind_Ok in Hw as (? & _ & <-%Ok_eq). cbn. unfold merge_records, pget in Hr. cbn in Hr.
  rewrite sget_sset in Hr. cbn in Hr. by injection Hr.
Qed.

Lemma application_ok_cpu p k n s : application_ok p → smem k (app_nodes p) = false →
  kind n = APPLICATION_CPU → service n = Some k → resources n = map resource (workers s) →
  cpu_source s = "APPLICATION_CPU" → cpu_service_of (cpu_source s) (policy s) (workers s) = Ok s →
  ∀ entries, application_ok {| app_nodes := sset k n (app_nodes p); app_services := sset k s (app_services p); entry_edges := entries |}.
Proof.
  intros [Hd Hv Hn Hs] Hf Hkind Hserv Hres Hsrc Hval entries.
  split; cbn [app_nodes app_services].
  - by apply (aset_NoDup _ String.eqb_eq).
  - intros k' s'. rewrite sget_sset. destruct (String.eqb k' k); [by intros [= <-]|by apply Hv].
  - intros k' n' [[= -> ->]|Hin]%(elem_of_aset _ String.eqb_eq).
    + eapply (served_cpu _ _ _ s); try done. by rewrite sget_sset, String.eqb_refl.
    + pose proof (smem_fresh _ _ _ _ Hf Hin) as Hne. destruct (Hn _ _ Hin) as [s' ? ? ? ? ?|]; [|by apply served_barrier].
      eapply (served_cpu _ _ _ s'); try done. rewrite sget_sset. by destruct (String.eqb_spec k' k).
  - intros k' Hk'. apply elem_of_sset_keys in Hk' as [->|Hk'].
    + exists n. split; [apply aset_here|done].
    + destruct (Hs _ Hk') as (m & Hin & ? & ?). exists m. split; [|done]. apply aset_other; [done|by eapply smem_fresh].
Qed.

Lemma application_ok_barrier p k n : application_ok p → kind n = BARRIER → service n = None → k ∉ (app_services p).*1 →
  ∀ entries, application_ok {| app_nodes := sset k n (app_nodes p); app_services := app_services p; entry_edges := entries |}.
Proof.
  intros [Hd Hv Hn Hs] Hkind Hserv Hk entries. split; cbn [app_nodes app_services]; try done.
  - intros k' n' [[= -> ->]|Hin]%(elem_of_aset _ String.eqb_eq); [by apply served_barrier|by apply Hn].
  - intros k' Hk'. destruct (Hs _ Hk') as (m & Hin & ? & ?). exists m. split; [|done]. apply aset_other; [done|]. by intros ->.
Qed.

Lemma services_fresh p k : application_ok p → smem k (app_nodes p) = false → k ∉ (app_services p).*1.
Proof. intros Hok Hf Hk. apply (ao_services _ Hok) in Hk as (n & Hin & _). by eapply smem_fresh in Hin. Qed.

Lemma prefill_batch_ok available pol worker l e l' :
  application_ok (prefilled l) → prefill_batch available pol worker l e = Ok l' → application_ok (prefilled l').
Proof.
  destruct e as [position [row step]]. intros Hok Hl. unfold prefill_batch in Hl. apply bind_Ok in Hl as ([] & _ & Hl).
  apply bind_Ok in Hl as (dispatch & _ & Hl). do 2 (apply bind_Ok in Hl as ([] & _ & Hl)). cbv zeta in Hl.
  apply bind_Ok in Hl as ([] & Hf%check_Ok_any & Hl). apply andb_prop in Hf as [Hf%negb_true_iff _].
  apply bind_Ok in Hl as (s & (Hsrc & Hw & Hv)%application_cpu_Ok & <-%Ok_eq). cbn [prefilled].
  by apply application_ok_cpu.
Qed.

Lemma sample_step_ok available prefill count pol worker l e l' :
  application_ok (sampled l) → sample_step available prefill count pol worker l e = Ok l' → application_ok (sampled l').
Proof.
  destruct e as [position [row step]]. intros Hok Hl. unfold sample_step in Hl. cbv zeta in Hl.
  do 3 (apply bind_Ok in Hl as ([] & _ & Hl)). apply bind_Ok in Hl as (thread & _ & Hl).
  do 3 (apply bind_Ok in Hl as ([] & _ & Hl)). do 3 (apply bind_Ok in Hl as (? & _ & Hl)).
  do 2 (apply bind_Ok in Hl as ([] & _ & Hl)). apply bind_Ok in Hl as ([] & Hf%check_Ok_any & Hl).
  apply bind_Ok in Hl as (s & (Hsrc & Hw & Hv)%application_cpu_Ok & Hl). do 5 (apply bind_Ok in Hl as (? & _ & Hl)).
  do 2 (apply bind_Ok in Hl as ([] & _ & Hl)). apply bind_Ok in Hl as (edges' & _ & <-%Ok_eq). cbn [sampled].
  apply andb_prop in Hf as [[[Hf1%negb_true_iff Hf2%negb_true_iff]%andb_prop _]%andb_prop _].
  set (p := sampled l) in *. set (sid := "application:sample:" +:+ dec (Z.of_nat position)) in *.
  set (tid := "application:token:" +:+ dec (Z.of_nat position)) in *.
  match goal with |- application_ok {| app_nodes := sset tid ?t (sset sid ?n _) |} =>
    pose proof (application_ok_cpu p sid n s Hok Hf1 eq_refl eq_refl (eq_sym Hw) Hsrc Hv (entry_edges p)) as Hok1;
    apply (application_ok_barrier _ tid t Hok1 eq_refl eq_refl) end.
  cbn [app_services]. intros Hin. apply elem_of_sset_keys in Hin as [E|Hin]; [done|].
  by apply (services_fresh _ _ Hok Hf2).
Qed.

Lemma application_empty : application_ok {| app_nodes := []; app_services := []; entry_edges := [] |}.
Proof. split; cbn; [constructor|done| |]; by intros ? ?%not_elem_of_nil || (intros ? ? ?%not_elem_of_nil; done). Qed.

Lemma project_application_ok available source p : project_application available source = Ok p → application_ok p.
Proof.
  unfold project_application. cbv zeta. intros Hp. apply bind_Ok in Hp as ([] & _ & Hp).
  apply bind_Ok in Hp as (? & _ & Hp). apply bind_Ok in Hp as ([] & _ & Hp). apply bind_Ok in Hp as (count & _ & Hp).
  apply bind_Ok in Hp as ([] & _ & Hp). do 3 (apply bind_Ok in Hp as (? & _ & Hp)). apply bind_Ok in Hp as ([] & _ & Hp).
  apply bind_Ok in Hp as (worker & _ & Hp). apply bind_Ok in Hp as (base & Hbase & Hp).
  apply bind_Ok in Hp as (metric & _ & Hp). apply bind_Ok in Hp as (l & Hl & <-%Ok_eq).
  assert (Hb : application_ok base).
  { destruct (has _ _).
    - unfold project_prefill in Hbase. cbv zeta in Hbase. do 3 (apply bind_Ok in Hbase as (? & _ & Hbase)).
      do 2 (apply bind_Ok in Hbase as ([] & _ & Hbase)). apply bind_Ok in Hbase as (pol & _ & Hbase).
      apply bind_Ok in Hbase as (l0 & Hl0 & <-%Ok_eq). revert Hl0.
      apply (fold_res_inv (fun l => application_ok (prefilled l))); [apply application_empty|].
      intros e l1 l2 _. apply prefill_batch_ok.
    - apply bind_Ok in Hbase as ([] & _ & <-%Ok_eq). apply application_empty. }
  revert Hl. apply (fold_res_inv (fun l => application_ok (sampled l))); [done|].
  intros e l1 l2 _. apply sample_step_ok.
Qed.

(** ** Joining the application *)

(** The nodes of the joined graph: those of the graph, with more dependencies,
    and those of the application. *)
Definition same_service (n m : Node) : Prop := kind n = kind m ∧ service n = service m ∧ resources n = resources m.

Lemma add_application_Ok ir services source ir' services' :
  add_application ir services source = Ok (ir', services') → ∃ p,
    application_ok p ∧ wf_ir (nodes ir') ∧
    (∀ k, k ∈ (app_services p).*1 → k ∉ (cpu services).*1) ∧
    (∀ n, n ∈ nodes ir' → (∃ m, m ∈ nodes ir ∧ same_service n m) ∨ ∃ k, (k, n) ∈ app_nodes p) ∧
    (∀ m, m ∈ nodes ir → ∃ n, n ∈ nodes ir' ∧ same_service n m) ∧
    (∀ k n, (k, n) ∈ app_nodes p → n ∈ nodes ir') ∧
    npu services' = npu services ∧
    ∀ k, sget k (cpu services') = match sget k (app_services p) with Some s => Some s | None => sget k (cpu services) end.
Proof.
  unfold add_application. intros Ha. apply bind_Ok in Ha as (p & Hp%project_application_ok & Ha).
  apply bind_Ok in Ha as ([] & Hd%check_Ok_any & Ha). cbv zeta in Ha.
  apply bind_Ok in Ha as (built & (_ & Hwf & ->)%execution_ir_Ok & [= <- <-]%Ok_eq). exists p. cbn [nodes npu cpu].
  split; [done|]. split; [done|]. split.
  { intros k Hk Hc. rewrite forallb_forall in Hd. apply list_elem_of_In in Hk. apply Hd in Hk.
    apply negb_true_iff in Hk. apply str_in_spec in Hc. congruence. }
  split_and!.
  - intros n [Hn|Hn]%elem_of_app; [left|right].
    + apply list_elem_of_In, in_map_iff in Hn as (m & <- & Hm%list_elem_of_In). by exists m.
    + apply list_elem_of_fmap in Hn as ([k n'] & -> & Hn). by exists k.
  - intros m Hm. eexists. split; [apply elem_of_app; left; by apply list_elem_of_In, in_map, list_elem_of_In|done].
  - intros k n Hn. apply elem_of_app. right. by apply (list_elem_of_fmap_2 snd) in Hn.
  - done.
  - intros k. apply sget_merge, Hp.
Qed.

Lemma add_application_served ir services source ir' services' :
  served ir services → add_application ir services source = Ok (ir', services') → served ir' services'.
Proof.
  intros [_ Hval Hcpu Hnpu Hb] (p & [_ Hpv Hpn Hps] & Hwf & Hdis & Hn1 & Hn2 & Hn3 & Hnp & Hget)%add_application_Ok.
  assert (Hold : ∀ k s, sget k (cpu services) = Some s → sget k (cpu services') = Some s).
  { intros k s Hk. rewrite Hget. destruct (sget k (app_services p)) as [s'|] eqn:E; [|done].
    exfalso. apply (Hdis k); apply sget_is_Some; eauto. }
  split; [done| | | |].
  - intros k s. rewrite Hget. destruct (sget k (app_services p)) eqn:E; [intros [= <-]; by apply Hpv in E|apply Hval].
  - intros k. rewrite <-sget_is_Some, Hget. split.
    + destruct (sget k (app_services p)) eqn:E; intros Hs.
      * destruct (Hps k) as (n & Hin & Hk & Hserv); [apply sget_is_Some; eauto|]. exists n.
        split_and!; [by eapply Hn3|by rewrite Hk|done].
      * apply sget_is_Some, Hcpu in Hs as (m & Hm & Hk & Hserv). destruct (Hn2 m Hm) as (n & Hn & E1 & E2 & _).
        exists n. split_and!; [done|by rewrite E1|by rewrite E2].
    + intros (n & Hn & Hk & Hserv). destruct (Hn1 n Hn) as [(m & Hm & E1 & E2 & _)|[k' Hin]].
      * assert (Hm' : k ∈ (cpu services).*1) by (apply Hcpu; exists m; split_and!; [done|by rewrite <-E1|by rewrite <-E2]).
        apply sget_is_Some in Hm'. by destruct (sget k (app_services p)).
      * destruct (Hpn _ _ Hin) as [s _ E2 E3 _ _|E1 _]; [|by rewrite E1 in Hk].
        rewrite Hserv in E2. injection E2 as <-. by rewrite E3.
  - intros k. rewrite Hnp, Hnpu. split.
    + intros (m & Hm & Hk & Hserv). destruct (Hn2 m Hm) as (n & Hn & E1 & E2 & _).
      exists n. split_and!; [done|by rewrite E1|by rewrite E2].
    + intros (n & Hn & Hk & Hserv). destruct (Hn1 n Hn) as [(m & Hm & E1 & E2 & _)|[k' Hin]].
      * exists m. split_and!; [done|by rewrite <-E1|by rewrite <-E2].
      * destruct (Hpn _ _ Hin) as [s E1 _ _ _ _|E1 _]; by rewrite E1 in Hk.
  - intros n Hn Hk. destruct (Hn1 n Hn) as [(m & Hm & E1 & E2 & E3)|[k' Hin]].
    + destruct (Hb m Hm) as (s & Hs & Hbind); [by rewrite <-E1|]. exists s. split.
      * unfold cpu_lookup, service_id in *. rewrite E2. destruct (service m) as [k|]; [|done].
        cbn [mbind res_bind] in *. destruct (sget k (cpu services)) eqn:E; [|done]. by rewrite (Hold _ _ E).
      * unfold cpu_binding in *. by rewrite E1, E3.
    + destruct (Hpn _ _ Hin) as [s E1 E2 E3 E4 E5|E1 _]; [|by rewrite E1 in Hk]. exists s. split.
      * unfold cpu_lookup, service_id. rewrite E2. cbn [mbind res_bind]. by rewrite Hget, E3.
      * unfold cpu_binding, ensure. rewrite E1, E4, E5. cbn. by rewrite (proj2 (set_eq_str _ _)).
Qed.

Lemma adapt_served digests lifecycle rows rs application admission ir services :
  adapt digests lifecycle rows rs application admission = Ok (ir, services) → served ir services.
Proof.
  unfold adapt. intros Ha. do 2 (apply bind_Ok in Ha as ([] & _ & Ha)).
  apply bind_Ok in Ha as ([ir0 services0] & Hs%adapted_served & Ha). destruct application as [records|].
  - do 2 (apply bind_Ok in Ha as (? & _ & Ha)). apply bind_Ok in Ha as ([] & _ & Ha). cbn [fst snd] in Ha.
    by eapply add_application_served.
  - do 2 (apply bind_Ok in Ha as ([] & _ & Ha)). by apply Ok_eq in Ha as [= <- <-].
Qed.

Context `{PlainProvider} `{SequenceProvider}.

(** C25: What the adapter builds, the scheduler accepts.  For the graph and
    services [adapt] returns, with or without an application: the graph is well
    formed, every CPU service satisfies its constructor, and the checks of the
    scheduler on nodes and services all succeed, so that its gate decides
    exactly what the environment check and, for a sequence provider, the check
    of the bound works decide. *)
Theorem adapt_gate digests lifecycle rows rs application admission load (inputs : ScheduleInputs) sc :
  adapt digests lifecycle rows rs application admission = Ok (Scheduler.ir inputs, Scheduler.services inputs) →
  wf_ir (nodes (Scheduler.ir inputs)) ∧ valid_services (Scheduler.services inputs) ∧
  gate load inputs sc =
    (validate_environment load (scope (Scheduler.ir inputs)) (npu_provider inputs) sc ;;;
     match sequence_of (npu_provider inputs) with
     | Some q => ensure (same_names (map Some (npu (Scheduler.services inputs)).*1) (map work_identity (seq_requests q)))
         "scheduled NPU work does not equal bound trace work"
     | None => Ok tt
     end).
Proof.
  intros Hs%adapt_served. split; [apply Hs|]. split; [apply Hs|]. by apply served_gate.
Qed.
End Application.

(** ** The edges of the application part

    What joining the application adds to the dependencies of a graph: a sample
    waits for the nodes its step names, its token for the sample, and the
    entries of the next decode for the token; the nodes of the graph keep what
    they depended on ([joined]). *)

Definition sample_id (i : nat) : string := "application:sample:" +:+ dec (Z.of_nat i).
Definition token_id (i : nat) : string := "application:token:" +:+ dec (Z.of_nat i).
Definition application_named (o : string) : Prop := String.prefix "application:" o = true.

Section Edges.
Context `{Host}.
Context (available : list (string * Kind)).

(** ** The projection grows *)

Record grows (p p' : ApplicationProjection) : Prop := {
  gr_nodes : ∀ k n, (k, n) ∈ app_nodes p → (k, n) ∈ app_nodes p';
  gr_edges : ∀ k edges d, sget k (entry_edges p) = Some edges → d ∈ edges →
    ∃ edges', sget k (entry_edges p') = Some edges' ∧ d ∈ edges';
}.

#[export] Instance grows_preorder : PreOrder grows.
Proof.
  split.
  - intros p. split; [done|]. intros k edges d Hk Hd. by exists edges.
  - intros p1 p2 p3 [N1 E1] [N2 E2]. split; [auto|]. intros k edges d Hk Hd.
    destruct (E1 _ _ _ Hk Hd) as (edges' & Hk' & Hd'). by eapply E2.
Qed.

Lemma add_entry_edges token p o p' : Application.add_entry available token p o = Ok p' →
  (∃ edges, sget (o +:+ ":enter") p' = Some edges ∧ result_of token ∈ edges) ∧
  ∀ k edges d, sget k p = Some edges → d ∈ edges → ∃ edges', sget k p' = Some edges' ∧ d ∈ edges'.
Proof.
  unfold Application.add_entry. cbv zeta. intros Hp. apply bind_Ok in Hp as ([] & _ & <-%Ok_eq). split.
  - eexists. rewrite sget_sset, String.eqb_refl. split; [done|]. apply elem_of_app. right. by constructor.
  - intros k edges d Hk Hd. rewrite sget_sset. destruct (String.eqb_spec k (o +:+ ":enter")) as [->|]; [|by exists edges].
    rewrite Hk. eexists. split; [done|]. apply elem_of_app. by left.
Qed.

Lemma add_entries_edges token l : ∀ p p', fold_res (Application.add_entry available token) p l = Ok p' →
  (∀ o, o ∈ l → ∃ edges, sget (o +:+ ":enter") p' = Some edges ∧ result_of token ∈ edges) ∧
  ∀ k edges d, sget k p = Some edges → d ∈ edges → ∃ edges', sget k p' = Some edges' ∧ d ∈ edges'.
Proof.
  induction l as [|o l IH]; intros p p' Hf; cbn in Hf.
  { apply Ok_eq in Hf as <-. split; [by intros ? ?%not_elem_of_nil|]. eauto. }
  apply bind_Ok in Hf as (p1 & (H1 & H2)%add_entry_edges & Hf). apply IH in Hf as (H3 & H4). split.
  - intros o' [->|Ho]%elem_of_cons; [|by apply H3]. destruct H1 as (edges & Hk & Hd). by eapply H4.
  - intros k edges d Hk Hd. destruct (H2 _ _ _ Hk Hd) as (edges' & Hk' & Hd'). by eapply H4.
Qed.

(** ** A sample *)

Record sampled_at (p : ApplicationProjection) (i : nat) (step : record) : Prop := {
  sm_node : ∃ k n listed, (k, n) ∈ app_nodes p ∧ identity n = sample_id i ∧ pget step "logits_ready" = JArr listed ∧
    ∀ u, JStr u ∈ listed → result_of (if smem (u +:+ ":exit") available then u +:+ ":exit" else u) ∈ dependencies n;
  sm_token : ∃ k n, (k, n) ∈ app_nodes p ∧ identity n = token_id i ∧ result_of (sample_id i) ∈ dependencies n;
  sm_next : ∃ listed, pget step "next_decode_entries" = JArr listed ∧ ∀ o, JStr o ∈ listed →
    ∃ edges, sget (o +:+ ":enter") (entry_edges p) = Some edges ∧ result_of (token_id i) ∈ edges;
}.

Lemma sampled_at_grows p p' i step : grows p p' → sampled_at p i step → sampled_at p' i step.
Proof.
  intros [Hn He] [(k & n & listed & Hin & Hrest) (k2 & n2 & Hin2 & Hrest2) (nx & Hnx & Hall)]. split.
  - exists k, n, listed. split; [by apply Hn|done].
  - exists k2, n2. split; [by apply Hn|done].
  - exists nx. split; [done|]. intros o Ho. destruct (Hall o Ho) as (edges & Hk & Hd). by eapply He.
Qed.

Definition application_names (p : ApplicationProjection) : Prop := ∀ k n, (k, n) ∈ app_nodes p → application_named (operation n).

Lemma texts_elem l k u : map_res Adapter.text_value l = Ok k → JStr u ∈ l → u ∈ k.
Proof.
  intros Hl%map_res_Ok Hu. apply list_elem_of_lookup in Hu as [i Hi].
  destruct (Forall2_lookup_l _ _ _ _ _ Hl Hi) as (x & Hx%list_elem_of_lookup_2 & [[= <-] _]%text_Ok). done.
Qed.

Lemma sample_step_edges prefill count pol worker l i row step l' :
  application_names (sampled l) → sample_step available prefill count pol worker l (i, (row, step)) = Ok l' →
  application_names (sampled l') ∧ grows (sampled l) (sampled l') ∧ sampled_at (sampled l') i step.
Proof.
  intros Hnames Hl. unfold sample_step in Hl. cbv zeta in Hl. fold (sample_id i) (token_id i) in Hl.
  do 3 (apply bind_Ok in Hl as ([] & _ & Hl)). apply bind_Ok in Hl as (thread & _ & Hl).
  do 3 (apply bind_Ok in Hl as ([] & _ & Hl)). apply bind_Ok in Hl as (rv & Hrv%pget_item & Hl).
  apply bind_Ok in Hl as (listed & Hlist & Hl). apply bind_Ok in Hl as (required & Hreq & Hl).
  do 2 (apply bind_Ok in Hl as ([] & _ & Hl)). apply bind_Ok in Hl as ([] & Hf%check_Ok_any & Hl).
  apply andb_prop in Hf as [[[Hf1%negb_true_iff Hf2%negb_true_iff]%andb_prop _]%andb_prop _].
  do 3 (apply bind_Ok in Hl as (? & _ & Hl)). apply bind_Ok in Hl as (nv & Hnv%pget_item & Hl).
  apply bind_Ok in Hl as (nexts & Hnexts & Hl). apply bind_Ok in Hl as (successors & Hsucc & Hl).
  do 2 (apply bind_Ok in Hl as ([] & _ & Hl)). apply bind_Ok in Hl as (edges' & [Hnew Hold]%add_entries_edges & <-%Ok_eq).
  cbn [sampled]. destruct rv; try done. apply Ok_eq in Hlist as ->. destruct nv; try done. apply Ok_eq in Hnexts as ->.
  assert (Hid : sample_id i ≠ token_id i) by discriminate.
  set (p := sampled l) in *.
  match goal with |- context [sset (token_id i) ?t (sset (sample_id i) ?s _)] => set (tok := t); set (smp := s) end.
  split; [|split; split; cbn [app_nodes entry_edges]].
  - intros k n [[= -> ->]|[[= -> ->]|Hin]%(elem_of_aset _ String.eqb_eq)]%(elem_of_aset _ String.eqb_eq); [reflexivity..|by eapply Hnames].
  - intros k n Hin. apply aset_other; [apply aset_other; [done|]|]; by eapply smem_fresh.
  - exact Hold.
  - exists (sample_id i), smp, listed. split_and!; [apply aset_other; [apply aset_here|done]|done|done|].
    intros u Hu%(texts_elem _ _ _ Hreq). subst smp. cbn [dependencies application_node].
    apply list_elem_of_In, in_map_iff. exists u. split; [done|by apply list_elem_of_In].
  - exists (token_id i), tok. split_and!; [apply aset_here|done|subst tok; by constructor].
  - exists nexts. split; [done|]. intros o Ho%(texts_elem _ _ _ Hsucc). by apply Hnew.
Qed.

(** ** The whole projection *)

Definition steps_sampled (p : ApplicationProjection) (steps : list record) : Prop :=
  ∀ i step, steps !! i = Some step → sampled_at p i step.

Lemma samples_edges prefill count pol worker l0 samples steps l : length samples = length steps →
  application_names (sampled l0) →
  fold_res (sample_step available prefill count pol worker) l0 (enumerate (zip samples steps)) = Ok l →
  application_names (sampled l) ∧ steps_sampled (sampled l) steps.
Proof.
  intros Hlen H0 Hf.
  assert (Hinv : application_names (sampled l) ∧ ∀ i e, enumerate (zip samples steps) !! i = Some e → sampled_at (sampled l) e.1 e.2.2).
  { revert Hf. apply (fold_res_hist (fun pre l => application_names (sampled l) ∧ ∀ i e, pre !! i = Some e → sampled_at (sampled l) e.1 e.2.2)); [done|].
    intros pre [i [row step]] post l1 l2 _ [Hn Hall] Hs. apply sample_step_edges in Hs as (Hn2 & Hg & Hat); [|done]. split; [done|].
    intros j e [Hj|[_ Hj]]%lookup_app_Some; [by eapply sampled_at_grows, Hall|].
    by apply list_lookup_singleton_Some in Hj as [_ <-]. }
  destruct Hinv as [Hn Hall]. split; [done|]. intros i step Hi.
  destruct (lookup_lt_is_Some_2 samples i) as [row Hrow]; [rewrite Hlen; by eapply lookup_lt_Some|].
  apply (Hall i (i, (row, step))). unfold enumerate. apply lookup_zip_with_Some. exists i, (row, step). split; [done|]. split.
  - apply lookup_seq. split; [done|]. rewrite length_zip_with. apply lookup_lt_Some in Hi. lia.
  - apply lookup_zip_with_Some. by exists row, step.
Qed.

Lemma prefill_names pol worker l e l' : application_names (prefilled l) →
  prefill_batch available pol worker l e = Ok l' → application_names (prefilled l').
Proof.
  destruct e as [position [row step]]. intros Hn Hl. unfold prefill_batch in Hl. apply bind_Ok in Hl as ([] & _ & Hl).
  apply bind_Ok in Hl as (dispatch & _ & Hl). do 2 (apply bind_Ok in Hl as ([] & _ & Hl)). cbv zeta in Hl.
  apply bind_Ok in Hl as ([] & _ & Hl). apply bind_Ok in Hl as (s & _ & <-%Ok_eq).
  intros k n [[= -> ->]|Hin]%(elem_of_aset _ String.eqb_eq); [reflexivity|by eapply Hn].
Qed.

Lemma project_application_edges source p : project_application available source = Ok p →
  application_names p ∧ ∃ steps, pget (app_contract source) "steps" = JArr (map JObj steps) ∧ steps_sampled p steps.
Proof.
  unfold project_application. cbv zeta. intros Hp. apply bind_Ok in Hp as ([] & _ & Hp).
  apply bind_Ok in Hp as (? & _ & Hp). apply bind_Ok in Hp as ([] & _ & Hp). apply bind_Ok in Hp as (count & _ & Hp).
  apply bind_Ok in Hp as ([] & Hs%check_Ok_any & Hp). apply bind_Ok in Hp as (sv & Hsv%pget_item & Hp).
  apply bind_Ok in Hp as (listed & Hlisted & Hp). apply bind_Ok in Hp as (steps & Hsteps%map_res_Ok & Hp).
  apply bind_Ok in Hp as ([] & Hn%check_Ok_any & Hp).
  apply bind_Ok in Hp as (worker & _ & Hp). apply bind_Ok in Hp as (base & Hbase & Hp).
  apply bind_Ok in Hp as (metric & _ & Hp). apply bind_Ok in Hp as (l & Hl & <-%Ok_eq). z_props.
  assert (Hb : application_names base).
  { assert (He : application_names {| app_nodes := []; app_services := []; entry_edges := [] |}) by (by intros k n ?%not_elem_of_nil).
    destruct (has _ _).
    - unfold project_prefill in Hbase. cbv zeta in Hbase. do 3 (apply bind_Ok in Hbase as (? & _ & Hbase)).
      do 2 (apply bind_Ok in Hbase as ([] & _ & Hbase)). apply bind_Ok in Hbase as (pol & _ & Hbase).
      apply bind_Ok in Hbase as (l0 & Hl0 & <-%Ok_eq). revert Hl0.
      apply (fold_res_inv (fun l => application_names (prefilled l))); [done|]. intros e l1 l2 _. apply prefill_names.
    - by apply bind_Ok in Hbase as ([] & _ & <-%Ok_eq). }
  apply samples_edges in Hl as [Hnames Hall]; [|lia|done]. split; [done|]. exists steps. split; [|done].
  rewrite Hsv. destruct sv as [| | | | |arr|]; try done. apply Ok_eq in Hlisted as ->. f_equal.
  clear -Hsteps. induction Hsteps as [|v r l k Hv _ IH]; [done|]. cbn. destruct v; try done. apply Ok_eq in Hv as ->. by rewrite IH.
Qed.
End Edges.

(** ** Joining *)

(** [ir'] has the nodes of [ir], with more dependencies, and application nodes. *)
Record joined (ir ir' : ExecutionIR) : Prop := {
  jn_wf : wf_ir (nodes ir');
  jn_old : ∀ n, n ∈ nodes ir → ∃ n', n' ∈ nodes ir' ∧ identity n' = identity n ∧ operation n' = operation n ∧
    ∀ d, d ∈ dependencies n → d ∈ dependencies n';
  jn_new : ∀ n', n' ∈ nodes ir' → application_named (operation n') ∨
    ∃ n, n ∈ nodes ir ∧ identity n' = identity n ∧ operation n' = operation n;
}.

Lemma joined_refl ir : wf_ir (nodes ir) → joined ir ir.
Proof. intros Hwf. split; [done| |]; intros n Hn; [by exists n|right; by exists n]. Qed.

Lemma joined_edge ir ir' t u : joined ir ir' → graph_edge ir t u → graph_edge ir' t u.
Proof. intros Hj (n & Hn & <- & Hd). destruct (jn_old _ _ Hj n Hn) as (n' & Hn' & Hid & _ & Hsub). exists n'. auto. Qed.

(** The edges of a step in the joined graph. *)
Record step_joined (ir ir' : ExecutionIR) (i : nat) (step : record) : Prop := {
  sj_ready : ∃ listed, pget step "logits_ready" = JArr listed ∧ ∀ u, JStr u ∈ listed →
    graph_edge ir' (sample_id i) (if bool_decide (u +:+ ":exit" ∈ map identity (nodes ir)) then u +:+ ":exit" else u);
  sj_token : graph_edge ir' (token_id i) (sample_id i);
  sj_next : ∃ listed, pget step "next_decode_entries" = JArr listed ∧ ∀ o, JStr o ∈ listed →
    o +:+ ":enter" ∈ map identity (nodes ir) → graph_edge ir' (o +:+ ":enter") (token_id i);
}.

Lemma add_application_joined `{Host} ir services source ir' services' :
  add_application ir services source = Ok (ir', services') →
  joined ir ir' ∧ ∃ steps, pget (app_contract source) "steps" = JArr (map JObj steps) ∧
    ∀ i step, steps !! i = Some step → step_joined ir ir' i step.
Proof.
  unfold add_application. intros Ha. apply bind_Ok in Ha as (p & [Hnames (steps & Hst & Hall)]%project_application_edges & Ha).
  apply bind_Ok in Ha as ([] & _ & Ha). cbv zeta in Ha.
  apply bind_Ok in Ha as (built & (_ & Hwf & ->)%execution_ir_Ok & [= <- _]%Ok_eq).
  assert (Happ : ∀ k n, (k, n) ∈ app_nodes p → n ∈ (app_nodes p).*2) by (intros k n Hin; by apply (list_elem_of_fmap_2 snd) in Hin).
  split; [split; cbn [nodes]; [done|..]|exists steps; split; [done|]].
  - intros n Hn. eexists. split; [apply elem_of_app; left; by apply list_elem_of_In, in_map, list_elem_of_In|].
    cbn. split_and!; [done..|]. intros d Hd. apply elem_of_app. by left.
  - intros n' [Hn|Hn]%elem_of_app; [right|left].
    + apply list_elem_of_In, in_map_iff in Hn as (m & <- & Hm%list_elem_of_In). by exists m.
    + apply list_elem_of_fmap in Hn as ([k n] & -> & Hn). by eapply Hnames.
  - intros i step Hi. destruct (Hall i step Hi) as [(k & n & listed & Hin & Hid & Hl & Hd) (k2 & n2 & Hin2 & Hid2 & Hd2) (nx & Hnx & Hnext)]. split.
    + exists listed. split; [done|]. intros u Hu. exists n. split_and!; [apply elem_of_app; right; by eapply Happ|done|].
      specialize (Hd u Hu). unfold result_of in Hd. replace (bool_decide _) with (smem (u +:+ ":exit") (map (fun n => (identity n, kind n)) (nodes ir))); [done|].
      apply eq_true_iff_eq. rewrite bool_decide_eq_true, (amem_spec _ String.eqb_eq). by rewrite <-(list_fmap_compose (fun n => (identity n, kind n)) fst).
    + exists n2. split_and!; [apply elem_of_app; right; by eapply Happ|done|done].
    + exists nx. split; [done|]. intros o Ho Hent. destruct (Hnext o Ho) as (edges & Hget & He).
      apply list_elem_of_In, in_map_iff in Hent as (m & Hm & Hin'). eexists.
      split; [apply elem_of_app; left; by apply list_elem_of_In, in_map|]. cbn. split; [done|].
      rewrite Hm, Hget. apply elem_of_app. by right.
Qed.

Lemma adapt_joined `{Host} digests lifecycle rows rs application admission ir services :
  adapt digests lifecycle rows rs application admission = Ok (ir, services) →
  ∃ ir0 services0, adapt_records rows lifecycle rs admission = Ok (ir0, services0) ∧ joined ir0 ir ∧
    match application with
    | Some _ => ∃ declared steps, pget lifecycle "application" = JObj declared ∧ pget declared "steps" = JArr (map JObj steps) ∧
        ∀ i step, steps !! i = Some step → step_joined ir0 ir i step
    | None => True
    end.
Proof.
  unfold adapt. intros Ha. do 2 (apply bind_Ok in Ha as ([] & _ & Ha)). apply bind_Ok in Ha as ([ir0 services0] & Hr & Ha).
  exists ir0, services0. split; [done|]. destruct application as [records|]; cbn [fst snd] in Ha.
  - apply bind_Ok in Ha as (raw & Hraw%pget_item & Ha). apply bind_Ok in Ha as (declared & Ho & Ha). apply bind_Ok in Ha as ([] & _ & Ha).
    apply add_application_joined in Ha as [Hj (steps & Hs & Hall)]. split; [done|]. exists declared, steps. split; [|done].
    rewrite Hraw. destruct raw; try done. by apply Ok_eq in Ho as ->.
  - do 2 (apply bind_Ok in Ha as ([] & _ & Ha)). apply Ok_eq in Ha as [= <- <-]. split; [|done].
    apply joined_refl. apply adapt_records_ok in Hr as (a & made & _ & Hg). apply Hg.
Qed.
