(* ===== verification/LifecycleTiming.v ===== *)
(** * The graphs of a lifecycle in a timeline

    A contract that carries the projection of a lifecycle gives the adapted
    graph one entry and one exit node per operation and the barriers of the
    graphs and dispatches.  Every timeline of it then keeps the order in which
    the program ran its graphs: all of a graph is complete before anything of a
    later graph starts. *)
From stdpp Require Import sorting.
From S2P Require Import Prelude Records Rational TraceSchema Manifest ManifestTheorems Services Scheduler SchedulerTheorems.
From S2P Require Import PipelineContract Lifecycle LifecycleTheorems Pipeline PipelineEdges PipelineTheorems.
From S2P Require Import Adapter AdapterTheorems AdapterPipeline Application ApplicationTheorems ExecutionIR.
Set Default Goal Selector "!".

(** ** Names *)

Definition operation_named (o : string) : Prop := ∃ key, o = operation_name key.
Definition enter_id (o : string) : string := o +:+ ":enter".
Definition exit_id (o : string) : string := o +:+ ":exit".

Lemma graph_names_named row l o : graph_names row = Ok l → o ∈ l → operation_named o.
Proof.
  unfold graph_names. intros Hl Ho. do 2 (apply bind_Ok in Hl as (? & _ & Hl)). revert Hl Ho.
  apply (map_res_elem _ operation_named). intros ordinal z Hz. do 2 (apply bind_Ok in Hz as (? & _ & Hz)).
  apply Ok_eq in Hz as <-. eexists. reflexivity.
Qed.

Lemma filter_keys_NoDup {K V} (f : K * V → bool) l : NoDup l.*1 → NoDup (List.filter f l).*1.
Proof.
  induction l as [|[k v] l IH]; cbn; [done|]. intros [Hk Hnd]%NoDup_cons. destruct (f (k, v)); [|auto]. cbn. constructor; [|auto].
  intros (e & -> & [He _]%list_elem_of_In%filter_In)%list_elem_of_fmap. apply Hk. by apply list_elem_of_fmap_2, list_elem_of_In.
Qed.

(** ** The edges of operations and barriers *)

Section Edges.
Context `{Host}.
Context (rows rs : list record) (lifecycle : record) (a : Adaptation) (ir : ExecutionIR) (services : Services).
Context (made : list (Node * RowNode)) (entered exits declared : list Node) (m : list (string * list string)) (raws : list json).
Context (Hp : prepared lifecycle rows rs a) (Hg : adapted_graph a ir services made).
Context (Hpt : adapted_parts lifecycle a ir made entered exits declared m raws).
Context (Hnamed : ∀ o, o ∈ (Adapter.operations a).*1 → operation_named o).

(** The nodes of the rows and the owners of the pipeline. *)
Definition inside (n : Node) : Prop := n ∈ made.*1 ∨ n ∈ owners_of a.

Lemma inside_node n : inside n → n ∈ nodes ir.
Proof using Hpt. rewrite (pt_nodes _ _ _ _ _ _ _ _ _ Hpt), !elem_of_app. unfold inside. tauto. Qed.

Lemma inside_operation n : inside n → operation n ∈ (Adapter.operations a).*1.
Proof using Hpt.
  intros Hn. rewrite <-(pt_keys _ _ _ _ _ _ _ _ _ Hpt).
  assert (Hm : member m (operation n) (identity n)) by (apply (pt_members _ _ _ _ _ _ _ _ _ Hpt); by exists n).
  destruct Hm as (children & Hget%elem_sget & _). by apply (list_elem_of_fmap_2 fst) in Hget.
Qed.

Lemma entered_node o row : (o, row) ∈ Adapter.operations a → ∃ n own value entry,
  n ∈ nodes ir ∧ identity n = enter_id o ∧ operation n = o ∧ kind n = OP_ENTER ∧
  item (Adapter.entry_dependencies a) o = Ok value ∧ edges_to (Adapter.operations a) value = Ok entry ∧
  dependencies n = fromkeys (own ++ entry).
Proof using Hpt.
  intros Hin. pose proof (pt_entered _ _ _ _ _ _ _ _ _ Hpt) as He%map_res_Ok.
  apply list_elem_of_lookup in Hin as [i Hi]. destruct (Forall2_lookup_l _ _ _ _ _ He Hi) as (n & Hn%list_elem_of_lookup_2 & Hx).
  unfold enter_node in Hx. do 2 (apply bind_Ok in Hx as (? & _ & Hx)). apply bind_Ok in Hx as (own & _ & Hx).
  apply bind_Ok in Hx as (value & Hv & Hx). apply bind_Ok in Hx as (entry & Hentry & E%Ok_eq).
  exists n, own, value, entry. split; [|by rewrite <-E]. rewrite (pt_nodes _ _ _ _ _ _ _ _ _ Hpt), !elem_of_app. tauto.
Qed.

Lemma exit_edge n : inside n → graph_edge ir (exit_id (operation n)) (identity n).
Proof using Hpt.
  intros Hn. assert (Hm : member m (operation n) (identity n)) by (apply (pt_members _ _ _ _ _ _ _ _ _ Hpt); by exists n).
  destruct Hm as (children & Hget%elem_sget & Hc). pose proof (pt_exits _ _ _ _ _ _ _ _ _ Hpt) as He%map_res_Ok.
  apply list_elem_of_lookup in Hget as [i Hi]. destruct (Forall2_lookup_l _ _ _ _ _ He Hi) as (e & He1%list_elem_of_lookup_2 & Hx).
  unfold exit_node in Hx. apply bind_Ok in Hx as ([] & _ & Hx). destruct (sget _ _); [|done].
  apply bind_Ok in Hx as (ph & _ & <-%Ok_eq). eexists. split; [|split].
  - rewrite (pt_nodes _ _ _ _ _ _ _ _ _ Hpt), !elem_of_app. right. right. left. exact He1.
  - done.
  - cbn [dependencies barrier_node]. apply list_elem_of_In, in_map_iff. exists (identity n). split; [done|by apply list_elem_of_In].
Qed.

(** An operation has members. *)
Lemma operation_member o : o ∈ (Adapter.operations a).*1 → ∃ n, inside n ∧ operation n = o.
Proof using Hp Hpt.
  rewrite <-(pt_keys _ _ _ _ _ _ _ _ _ Hpt). intros ([o' children] & -> & Hin)%list_elem_of_fmap. cbn [fst].
  pose proof (pt_exits _ _ _ _ _ _ _ _ _ Hpt) as He%map_res_Ok. pose proof Hin as Hin'.
  apply list_elem_of_lookup in Hin as [i Hi]. destruct (Forall2_lookup_l _ _ _ _ _ He Hi) as (e & _ & Hx).
  unfold exit_node in Hx. apply bind_Ok in Hx as ([] & Hne%check_Ok_any & _).
  destruct children as [|x children]; [done|].
  assert (Hm : member m o' x).
  { exists (x :: children). split; [|by constructor]. apply sget_elem; [|done].
    rewrite (pt_keys _ _ _ _ _ _ _ _ _ Hpt), (pr_operations _ _ _ _ Hp). apply filter_keys_NoDup, (ix_distinct _ _ (pr_index _ _ _ _ Hp)). }
  apply (pt_members _ _ _ _ _ _ _ _ _ Hpt) in Hm as (n & Hn & Ho & _). by exists n.
Qed.

(** The work of a call is not the entry of an operation. *)
Lemma enter_not_target o : o ∈ (Adapter.operations a).*1 → enter_id o ∉ (target_rows a).*1.
Proof using Hp Hg Hpt.
  intros ([o' row] & -> & Ho)%list_elem_of_fmap. destruct (entered_node o' row Ho) as (e & _ & _ & _ & He & Hid & _ & Hk & _). cbn [fst].
  intros ([t row2] & Ht & [Hin%list_elem_of_In Htar]%list_elem_of_In%filter_In)%list_elem_of_fmap. cbn [fst snd] in *. subst t.
  destruct (row_made _ _ _ _ Hg _ Hin (uncontained_row _ _ _ _ _ _ Hp Hin (target_uncontained _ Htar))) as (nr & Hm & [Hid2 _ Hkind _ _ _] & Hr).
  apply (rk_target _ _ _ _ Hr) in Htar. destruct (ag_wf _ _ _ _ Hg) as [_ Hnd _ _].
  assert (e = nr.1) as ->; [|congruence]. eapply NoDup_map_inj; [exact Hnd|done|by apply (ag_rows _ _ _ _ Hg)|]. cbn in Hid2. congruence.
Qed.

(** What a row depends on by its kind keeps its entry edge. *)
Lemma row_keeps identity row edges r e : e ∈ edges → node e ∉ (target_rows a).*1 →
  (∀ call, node e ≠ "call:" +:+ call +:+ ":INVOKE") →
  row_node a identity row edges = Ok r → e ∈ row_edges r.
Proof using Hp.
  intros He Ht Hcall Hr. unfold row_node in Hr. destruct (is_kind row "CALL_BOUNDARY").
  - unfold call_boundary in Hr. do 2 (apply bind_Ok in Hr as (? & _ & Hr)). destruct (eq_str _ "PUBLISH"); [|by apply Ok_eq in Hr as <-].
    destruct (sget _ (call_work a)) as [w|] eqn:Ew; [|done]. apply Ok_eq in Hr as <-. apply list_elem_of_filter. split; [|done].
    apply String.eqb_neq. intros E. apply (call_work_targets _ _ _ _ Hp) in Ew. congruence.
  - destruct (is_kind row "SERVICE"); [|done]. unfold service_row in Hr. apply bind_Ok in Hr as (cv & _ & Hr).
    destruct cv as [| | | |class| |]; try done. destruct (expected_source class).
    { unfold cpu_row in Hr. repeat (apply bind_Ok in Hr as (? & _ & Hr)). by apply Ok_eq in Hr as <-. }
    destruct (String.eqb class "TARGET_NPU"); [|destruct (str_in class _); [|done]; apply bind_Ok in Hr as (? & _ & <-%Ok_eq); done].
    unfold target_row in Hr. destruct (index_of identity (submission a)) as [i|]; [|done].
    destruct (List.find _ (call_work a)) as [[call w]|]; [|done]. do 2 (apply bind_Ok in Hr as (? & _ & Hr)). apply Ok_eq in Hr as <-.
    assert (Hkeep : e ∈ (if smem ("call:" +:+ call +:+ ":PUBLISH") (indexed a)
      then without ("call:" +:+ call +:+ ":INVOKE") edges ++ [{| node := "call:" +:+ call +:+ ":PUBLISH"; milestone := RESULT_READY |}] else edges)).
    { destruct (smem _ _); [|done]. apply elem_of_app. left. apply list_elem_of_filter. split; [|done]. apply String.eqb_neq, Hcall. }
    destruct i; [done|]. cbn [row_edges]. apply elem_of_app. by left.
Qed.

(** Everything inside an operation waits for its entry. *)
Lemma inside_edge n : inside n → graph_edge ir (identity n) (enter_id (operation n)).
Proof using Hp Hg Hpt Hnamed.
  intros Hn. pose proof (inside_operation n Hn) as Ho. destruct (Hnamed _ Ho) as [key Hkey].
  exists n. split; [by apply inside_node|]. split; [done|]. destruct Hn as [Hm|Hown].
  - apply list_elem_of_fmap in Hm as (nr & -> & Hm). apply list_elem_of_lookup in Hm as [i Hi].
    destruct (Forall2_lookup_r _ _ _ _ _ (ag_made _ _ _ _ Hg) Hi) as ([t row] & _ & [_ (raw & listed & _ & _ & Hr) _ _ _ Hd]).
    cbn [fst snd] in *. fold (enter_id (operation nr.1)) in Hr.
    assert (He : {| node := enter_id (operation nr.1); milestone := RESULT_READY |} ∈ row_edges nr.2).
    { eapply row_keeps; [|by apply enter_not_target| |exact Hr]; [apply elem_of_app; right; by constructor|].
      intros call. cbn [node]. rewrite Hkey. discriminate. }
    rewrite Hd. destruct (pipeline a) as [q|] eqn:Eq; [|by apply elem_of_fromkeys].
    pose proof (pr_pipeline _ _ _ _ Hp) as Hq. rewrite Eq in Hq. destruct Hq as [_ Hq].
    unfold Pipeline.edges. apply elem_of_fromkeys, elem_of_app. left. apply list_elem_of_filter. split; [|by apply elem_of_fromkeys].
    cbn [node]. destruct (str_in _ _) eqn:Es; [|done]. apply str_in_spec in Es.
    destruct (sget t (removals q)) as [sources|] eqn:Er; [|by apply not_elem_of_nil in Es].
    rewrite Hkey in Es. destruct (project_pipeline_removals _ _ _ _ Hq _ _ _ Er Es) as [(w & c & _ & Hw)|(w & c & _ & Hw)]; discriminate Hw.
  - unfold owners_of in Hown. pose proof (pr_pipeline _ _ _ _ Hp) as Hq. destruct (pipeline a) as [q|]; [|by apply not_elem_of_nil in Hown].
    destruct Hq as [_ Hq]. by apply (owner_nodes_shape _ _ _ _ _ Hq).
Qed.

(** The nodes of an operation: its entry, its exit and the ones inside. *)
Lemma operation_nodes n : n ∈ nodes ir → operation n ∈ (Adapter.operations a).*1 →
  inside n ∨ identity n = enter_id (operation n) ∨ identity n = exit_id (operation n) ∨ n ∈ declared.
Proof using Hpt.
  intros Hn Ho. rewrite (pt_nodes _ _ _ _ _ _ _ _ _ Hpt), !elem_of_app in Hn.
  destruct Hn as [[Hn|Hn]|[Hn|[Hn|Hn]]]; [|left; by left|left; by right| |tauto].
  - right. left. revert Hn. eapply (map_res_elem (enter_node a) (fun n => identity n = enter_id (operation n))); [|apply (pt_entered _ _ _ _ _ _ _ _ _ Hpt)].
    intros [] z Hz. unfold enter_node in Hz. do 5 (apply bind_Ok in Hz as (? & _ & Hz)). by apply Ok_eq in Hz as <-.
  - right. right. left. revert Hn. eapply (map_res_elem (exit_node a) (fun n => identity n = exit_id (operation n))); [|apply (pt_exits _ _ _ _ _ _ _ _ _ Hpt)].
    intros [] z Hz. unfold exit_node in Hz. apply bind_Ok in Hz as (? & _ & Hz). destruct (sget _ _); [|done].
    apply bind_Ok in Hz as (? & _ & Hz). by apply Ok_eq in Hz as <-.
Qed.

Lemma barrier_edge row id ph deps u : JObj row ∈ raws → row = barrier_row id ph deps → u ∈ deps →
  graph_edge ir id (node (edge_to (Adapter.operations a) u)).
Proof using Hpt.
  intros Hin -> Hu. pose proof (pt_barriers _ _ _ _ _ _ _ _ _ Hpt) as Hb%map_res_Ok.
  apply list_elem_of_lookup in Hin as [i Hi]. destruct (Forall2_lookup_l _ _ _ _ _ Hb Hi) as (n & Hn%list_elem_of_lookup_2 & Hx).
  unfold declared_barrier in Hx. apply bind_Ok in Hx as (? & <-%Ok_eq & Hx). apply bind_Ok in Hx as (? & _ & Hx).
  apply bind_Ok in Hx as (v & Hv%pget_item & Hx). cbn in Hv. subst v. apply bind_Ok in Hx as (listed & Hl & Hx).
  apply bind_Ok in Hx as (id' & [Hid _]%text_Ok & Hx). cbn in Hid. injection Hid as <-. apply bind_Ok in Hx as (ph' & _ & <-%Ok_eq).
  exists (barrier_node BARRIER id id ph' listed). split; [rewrite (pt_nodes _ _ _ _ _ _ _ _ _ Hpt), !elem_of_app; tauto|]. split; [done|].
  cbn [dependencies barrier_node]. unfold edges_to in Hl. cbn in Hl. apply map_res_Ok in Hl.
  apply list_elem_of_lookup in Hu as [j Hj]. destruct (Forall2_lookup_l _ _ _ j (JStr u) Hl) as (e & He%list_elem_of_lookup_2 & Hx).
  { by rewrite list_lookup_fmap, Hj. }
  apply bind_Ok in Hx as (? & [[= <-] _]%text_Ok & <-%Ok_eq). exact He.
Qed.
End Edges.

(** ** The contract of a lifecycle *)

(** The barriers and entries of a contract are those of a projection. *)
Record projected_contract (lifecycle : record) (names : list (list string)) (windows : list Dispatched) (started : bool) : Prop := {
  pc_entries : pget lifecycle "entry_dependencies" = JObj (concat (map (entry_rows names) (seqZ 0 (count names))));
  pc_barriers : pget lifecycle "barriers" = JArr (map JObj (request_rows started ++ concat (imap (dispatch_rows names) windows)));
  pc_distinct : NoDup (concat (map (entry_rows names) (seqZ 0 (count names)))).*1;
  pc_named : ∀ i l o, names !! i = Some l → o ∈ l → operation_named o;
  pc_windows : contiguous 0 windows (count names);
}.

Lemma entry_rows_elem names o v : (o, v) ∈ concat (map (entry_rows names) (seqZ 0 (count names))) ↔
  ∃ i l, names !! i = Some l ∧ o ∈ l ∧ v = JArr [JStr (graph_begin_id (Z.of_nat i))].
Proof.
  rewrite list_elem_of_In, in_concat. setoid_rewrite in_map_iff. setoid_rewrite <-list_elem_of_In. split.
  - intros (x & (z & <- & Hz%elem_of_seqZ) & Hx). unfold entry_rows in Hx.
    apply list_elem_of_In, in_map_iff in Hx as (o' & [= <- <-] & Ho%list_elem_of_In). unfold operations_of in Ho.
    exists (Z.to_nat z). destruct (names !! Z.to_nat z) as [l|]; [|by apply not_elem_of_nil in Ho]. exists l. split_and!; try done.
    do 4 f_equal. lia.
  - intros (i & l & Hi & Ho & ->). exists (entry_rows names (Z.of_nat i)). split.
    + exists (Z.of_nat i). split; [done|]. apply elem_of_seqZ. apply lookup_lt_Some in Hi. unfold count. lia.
    + unfold entry_rows, operations_of. rewrite Nat2Z.id, Hi. apply list_elem_of_In, in_map_iff. exists o. split; [done|by apply list_elem_of_In].
Qed.

(** An acyclic order of moments: the windows of the dispatches follow each other. *)
Lemma windows_graphs l : ∀ from upto, 0 <= from → contiguous from l upto → concat (map window_graphs l) = seqZ from (upto - from).
Proof.
  induction l as [|w l IH]; intros from upto H0; cbn; [intros ->; by rewrite Z.sub_diag|].
  intros (<- & Hlt & Hc). pose proof (contiguous_le _ _ _ Hc). rewrite (IH (d_end w) upto) by (done || lia).
  unfold window_graphs. replace (upto - d_begin w) with ((d_end w - d_begin w) + (upto - d_end w)) by lia.
  rewrite seqZ_app by lia. do 2 f_equal. lia.
Qed.

Section Order.
Context (names : list (list string)) (T : string → Qc).

Definition respects_row (row : record) : Prop :=
  ∀ id ph u, row = barrier_row id ph [u] → (∀ key, u ≠ operation_name key) → (T u <= T id)%Qc.
Definition graph_before (i j : Z) : Prop := (T (graph_end_id i) <= T (graph_begin_id j))%Qc.
Definition graph_spans (i : Z) : Prop := (T (graph_begin_id i) <= T (graph_end_id i))%Qc.

Lemma row_step id ph u : respects_row (barrier_row id ph [u]) → (∀ key, u ≠ operation_name key) → (T u <= T id)%Qc.
Proof. intros Hr. by apply (Hr id ph u). Qed.

Lemma graph_end_unnamed i key : graph_end_id i ≠ operation_name key.
Proof. discriminate. Qed.
Lemma dispatch_begin_unnamed i key : dispatch_begin_id i ≠ operation_name key.
Proof. discriminate. Qed.
Lemma dispatch_end_unnamed i key : dispatch_end_id i ≠ operation_name key.
Proof. discriminate. Qed.
#[local] Hint Resolve graph_end_unnamed dispatch_begin_unnamed dispatch_end_unnamed : core.

Lemma chain_ordered phase l : ∀ before, (∀ key, before ≠ operation_name key) →
  Forall respects_row (chain_rows names phase before l) → Forall graph_spans l →
  StronglySorted graph_before l ∧ (T before <= T (chain_end before l))%Qc ∧
  Forall (fun i => T before <= T (graph_begin_id i) ∧ T (graph_end_id i) <= T (chain_end before l))%Qc l.
Proof.
  induction l as [|i l IH]; intros before Hb Hr Hs; cbn; [split_and!; [constructor|done|constructor]|].
  cbn in Hr. apply Forall_cons in Hr as [Hr1 Hr]. apply Forall_cons in Hr as [_ Hr]. apply Forall_cons in Hs as [Hs1 Hs].
  pose proof (row_step _ _ _ Hr1 Hb) as H1. unfold graph_spans in Hs1.
  destruct (IH (graph_end_id i)) as (Hso & Hle & Hall); [done..|].
  assert (H2 : (T before <= T (graph_end_id i))%Qc) by (by etrans). split_and!.
  - constructor; [done|]. eapply Forall_impl; [exact Hall|]. by intros j [Hj _].
  - by etrans.
  - constructor; [done|]. eapply Forall_impl; [exact Hall|]. intros j [Hj1 Hj2]. split; [by etrans|done].
Qed.

Lemma windows_ordered ws : Forall respects_row (concat (imap (dispatch_rows names) ws)) →
  Forall graph_spans (concat (map window_graphs ws)) →
  StronglySorted graph_before (concat (map window_graphs ws)) ∧
  ∀ d, length ws = S d → Forall (fun i => T (graph_end_id i) <= T (dispatch_end_id (Z.of_nat d)))%Qc (concat (map window_graphs ws)).
Proof.
  induction ws as [|w ws IH] using rev_ind; [intros _ _; split; [constructor|done]|].
  rewrite imap_app, map_app, !concat_app, !Forall_app. cbn [imap map concat]. rewrite !app_nil_r, Nat.add_0_r.
  intros [Hr Hr2] [Hs Hs2]. destruct (IH Hr Hs) as [Hso Hend]. unfold dispatch_rows in Hr2.
  apply Forall_cons in Hr2 as [Hbegin Hr2]. apply Forall_app in Hr2 as [Hchain Hfinish].
  apply Forall_cons in Hfinish as [Hfinish _].
  destruct (chain_ordered _ _ _ (dispatch_begin_unnamed _) Hchain Hs2) as (Hso2 & Hle & Hall).
  apply row_step in Hfinish; [|destruct (window_graphs w) as [|i l] using rev_ind; [auto|rewrite chain_end_snoc; auto]].
  assert (Hpast : Forall (fun i => T (graph_end_id i) <= T (dispatch_begin_id (Z.of_nat (length ws))))%Qc (concat (map window_graphs ws))).
  { destruct ws as [|v ws]; [constructor|]. cbn [length] in *. apply row_step in Hbegin; [|auto].
    eapply Forall_impl; [exact (Hend _ eq_refl)|]. intros i Hi. etrans; [exact Hi|exact Hbegin]. }
  split.
  - apply StronglySorted_app_2; [|done..]. intros i j Hi Hj. rewrite Forall_forall in Hpast, Hall. unfold graph_before.
    etrans; [by apply Hpast|by apply Hall].
  - intros d Hd. assert (d = length ws) as -> by (rewrite length_app in Hd; cbn in Hd; lia). apply Forall_app. split.
    + eapply Forall_impl; [exact Hpast|]. intros i Hi. etrans; [exact Hi|]. by etrans.
    + eapply Forall_impl; [exact Hall|]. intros i [_ Hi]. by etrans.
Qed.
End Order.

(** ** The order of the graphs *)

Section Timeline.
Context `{Host}.
Context (rows rs : list record) (lifecycle : record) (a : Adaptation) (ir : ExecutionIR) (services : Services).
Context (made : list (Node * RowNode)) (entered exits declared : list Node) (m : list (string * list string)) (raws : list json).
Context (Hp : prepared lifecycle rows rs a) (Hg : adapted_graph a ir services made).
Context (Hpt : adapted_parts lifecycle a ir made entered exits declared m raws).
Context (names : list (list string)) (ws : list Dispatched) (started : bool).
Context (Hc : projected_contract lifecycle names ws started) (Hfull : ∀ l, l ∈ names → l ≠ []).
Context (ir' : ExecutionIR) (Hj : joined ir ir') (c : Qc) (l : list ScheduledNode).
Context (Htl : timeline c (nodes ir') l) (Hperm : map scheduled_identity l ≡ₚ map identity (nodes ir')).

Lemma contract_entries : Adapter.entry_dependencies a = concat (map (entry_rows names) (seqZ 0 (count names))).
Proof using Hp Hc. pose proof (pr_entries _ _ _ _ Hp) as E. rewrite (pc_entries _ _ _ _ Hc) in E. by injection E as <-. Qed.

Lemma contract_operation o : o ∈ (Adapter.operations a).*1 ↔ ∃ i l, names !! i = Some l ∧ o ∈ l.
Proof using Hp Hc.
  rewrite <-(pr_covered _ _ _ _ Hp), contract_entries. split.
  - intros ([o' v] & -> & (i & k & Hi & Ho & _)%entry_rows_elem)%list_elem_of_fmap. eauto.
  - intros (i & k & Hi & Ho). apply (list_elem_of_fmap_2 fst _ (o, JArr [JStr (graph_begin_id (Z.of_nat i))])), entry_rows_elem. eauto 10.
Qed.

Lemma contract_named o : o ∈ (Adapter.operations a).*1 → operation_named o.
Proof using Hp Hc. intros (i & k & Hi & Ho)%contract_operation. by eapply (pc_named _ _ _ _ Hc). Qed.

Lemma unnamed_edge u : (∀ key, u ≠ operation_name key) → node (edge_to (Adapter.operations a) u) = u.
Proof using Hp Hc.
  intros Hu. unfold edge_to. destruct (smem u (Adapter.operations a)) eqn:E; [|done].
  apply (amem_spec _ String.eqb_eq), contract_named in E as [key E]. by apply Hu in E.
Qed.

(** An edge of the adapted graph is respected in every timeline of the joined one. *)
Lemma edge_kept t u : graph_edge ir t u → (ready_of l u <= start_of l t)%Qc ∧ (ready_of l u <= ready_of l t)%Qc.
Proof using Hj Htl Hperm. intros He. exact (edge_ready ir' c l (jn_wf _ _ Hj) Htl Hperm t u (joined_edge _ _ _ _ Hj He)). Qed.

Lemma old_time n : n ∈ nodes ir → (start_of l (identity n) <= ready_of l (identity n))%Qc.
Proof using Hj Htl Hperm.
  intros Hn. destruct (jn_old _ _ Hj n Hn) as (n' & Hn' & <- & _). by apply (node_time ir' c l).
Qed.

(** An operation is entered after the begin of its graph, which ends after it. *)
Lemma operation_entered i k o : names !! i = Some k → o ∈ k → graph_edge ir (enter_id o) (graph_begin_id (Z.of_nat i)).
Proof using Hp Hpt Hc.
  intros Hi Ho. assert (Hin : o ∈ (Adapter.operations a).*1) by (apply contract_operation; eauto).
  apply list_elem_of_fmap in Hin as ([o' row] & -> & Hin). cbn [fst] in *.
  destruct (entered_node _ _ _ _ _ _ _ _ _ Hpt _ _ Hin) as (n & own & v & e & Hn & Hid & _ & _ & Hv%pget_item & He & Hd).
  exists n. split_and!; [done..|]. rewrite Hd, elem_of_fromkeys, elem_of_app. right.
  assert (Hv' : v = JArr [JStr (graph_begin_id (Z.of_nat i))]).
  { rewrite contract_entries in Hv. unfold pget in Hv.
    rewrite (sget_elem o' (JArr [JStr (graph_begin_id (Z.of_nat i))]) _ (pc_distinct _ _ _ _ Hc)) in Hv; [by symmetry|].
    apply entry_rows_elem. eauto 10. }
  rewrite Hv' in He. cbn in He. apply Ok_eq in He as <-.
  pose proof (unnamed_edge (graph_begin_id (Z.of_nat i)) ltac:(discriminate)) as Hu. unfold edge_to in *. cbn in Hu. rewrite Hu. by constructor.
Qed.

(** The rows of the contract: none is named like an operation. *)
Definition contract_rows : list record := request_rows started ++ concat (imap (dispatch_rows names) ws).

Lemma contract_row row : row ∈ contract_rows → ∃ id ph deps, row = barrier_row id ph deps ∧ ∀ key, id ≠ operation_name key.
Proof using Hc.
  assert (Hchain : ∀ ph k before, row ∈ chain_rows names ph before k →
    ∃ id ph deps, row = barrier_row id ph deps ∧ ∀ key, id ≠ operation_name key).
  { intros ph k. induction k as [|i k IH]; intros before; cbn; [by intros ?%not_elem_of_nil|].
    intros [->|[->|Hin]%elem_of_cons]%elem_of_cons; [eexists _, _, _; (split; [reflexivity|discriminate])..|by eapply IH]. }
  unfold contract_rows. intros [Hin|(k & Hk & Hin)%list_elem_of_In%in_concat]%elem_of_app.
  { unfold request_rows in Hin. destruct started; [|by apply not_elem_of_nil in Hin].
    apply list_elem_of_singleton in Hin as ->. eexists _, _, _. split; [reflexivity|discriminate]. }
  apply list_elem_of_In, elem_of_lookup_imap in Hk as (d & w & -> & _). apply list_elem_of_In in Hin. unfold dispatch_rows in Hin.
  apply elem_of_cons in Hin as [->|[Hin|Hin%list_elem_of_singleton]%elem_of_app];
    [eexists _, _, _; split; [reflexivity|discriminate]|by eapply Hchain|subst row; eexists _, _, _; split; [reflexivity|discriminate]].
Qed.

Lemma contract_raw row : row ∈ contract_rows ↔ JObj row ∈ raws.
Proof using Hpt Hc.
  pose proof (pt_raws _ _ _ _ _ _ _ _ _ Hpt) as E. rewrite (pc_barriers _ _ _ _ Hc) in E. injection E as <-. fold contract_rows.
  rewrite (list_elem_of_In _ (JObj row)), in_map_iff. setoid_rewrite <-list_elem_of_In. naive_solver.
Qed.

Lemma declared_unnamed n : n ∈ declared → ∀ key, operation n ≠ operation_name key.
Proof using Hpt Hc.
  intros Hn. pose proof (pt_barriers _ _ _ _ _ _ _ _ _ Hpt) as Hb%map_res_Ok. apply list_elem_of_lookup in Hn as [i Hi].
  destruct (Forall2_lookup_r _ _ _ _ _ Hb Hi) as (raw & Hraw%list_elem_of_lookup_2 & Hx).
  unfold declared_barrier in Hx. apply bind_Ok in Hx as (row & Ho & Hx). destruct raw; try done. apply Ok_eq in Ho as ->.
  apply contract_raw, contract_row in Hraw as (id & ph & deps & -> & Hid).
  do 3 (apply bind_Ok in Hx as (? & _ & Hx)). apply bind_Ok in Hx as (id' & [E _]%text_Ok & Hx). cbn in E. injection E as <-.
  apply bind_Ok in Hx as (? & _ & <-%Ok_eq). exact Hid.
Qed.

Lemma contract_respected : Forall (respects_row (ready_of l)) contract_rows.
Proof using Hp Hg Hpt Hc Hj Htl Hperm.
  apply Forall_forall. intros row Hin id ph u -> Hu. apply contract_raw in Hin.
  assert (Hself : u ∈ [u]) by (by apply list_elem_of_singleton).
  pose proof (barrier_edge _ _ _ _ _ _ _ _ _ Hpt _ id ph [u] u Hin eq_refl Hself) as He.
  rewrite (unnamed_edge u Hu) in He. by apply (edge_kept _ _ He).
Qed.

Lemma graph_end_row ph before k i : i ∈ k → barrier_row (graph_end_id i) ph (operations_of names i) ∈ chain_rows names ph before k.
Proof using Type.
  revert before. induction k as [|j k IH]; intros before; [by intros ?%not_elem_of_nil|].
  intros [->|Hi]%elem_of_cons; cbn; rewrite !elem_of_cons; [tauto|]. right. right. by apply IH.
Qed.

Lemma graph_ended i k o : names !! i = Some k → o ∈ k → graph_edge ir (graph_end_id (Z.of_nat i)) (exit_id o).
Proof using Hp Hpt Hc.
  intros Hi Ho.
  assert (Hw : Z.of_nat i ∈ concat (map window_graphs ws)).
  { rewrite (windows_graphs _ 0 (count names)); [|done|apply (pc_windows _ _ _ _ Hc)]. apply elem_of_seqZ.
    apply lookup_lt_Some in Hi. unfold count. lia. }
  apply list_elem_of_In, in_concat in Hw as (g & (w & <- & Hw)%in_map_iff & Hg'). apply list_elem_of_In in Hw, Hg'.
  apply list_elem_of_lookup in Hw as [d Hd].
  assert (Hrow : barrier_row (graph_end_id (Z.of_nat i)) (dec (d_phase w)) (operations_of names (Z.of_nat i)) ∈ contract_rows).
  { unfold contract_rows. apply elem_of_app. right. apply list_elem_of_In, in_concat. exists (dispatch_rows names d w). split.
    - apply list_elem_of_In, elem_of_lookup_imap. eauto.
    - apply list_elem_of_In. unfold dispatch_rows. apply elem_of_cons. right. apply elem_of_app. left. by apply graph_end_row. }
  apply contract_raw in Hrow. assert (Hdep : o ∈ operations_of names (Z.of_nat i)) by (unfold operations_of; by rewrite Nat2Z.id, Hi).
  pose proof (barrier_edge _ _ _ _ _ _ _ _ _ Hpt _ _ _ _ _ Hrow eq_refl Hdep) as He. unfold edge_to in He.
  assert (Hm : smem o (Adapter.operations a) = true) by (apply (amem_spec _ String.eqb_eq), contract_operation; eauto).
  by rewrite Hm in He.
Qed.

(** ** Moments *)

Lemma inside_times n : inside a made n →
  (ready_of l (enter_id (operation n)) <= start_of l (identity n))%Qc ∧
  (ready_of l (identity n) <= start_of l (exit_id (operation n)))%Qc ∧
  (start_of l (identity n) <= ready_of l (identity n))%Qc.
Proof using Hp Hg Hpt Hc Hj Htl Hperm.
  intros Hn. split_and!.
  - apply edge_kept. eapply inside_edge; [done..|exact contract_named|done].
  - apply edge_kept. by eapply exit_edge.
  - apply old_time. by eapply inside_node.
Qed.

(** Nothing of an operation starts before its entry, and it exits after all of it. *)
Lemma operation_span_old n : n ∈ nodes ir → operation n ∈ (Adapter.operations a).*1 →
  (start_of l (enter_id (operation n)) <= start_of l (identity n))%Qc ∧
  (ready_of l (identity n) <= ready_of l (exit_id (operation n)))%Qc.
Proof using Hp Hg Hpt Hc Hj Htl Hperm.
  intros Hn Ho. destruct (operation_member _ _ _ _ _ _ _ _ _ _ _ Hp Hpt _ Ho) as (n0 & Hn0 & E0).
  assert (Henter : (start_of l (enter_id (operation n)) <= ready_of l (enter_id (operation n)))%Qc).
  { pose proof Ho as ([o' row] & E & Hrow)%list_elem_of_fmap. cbn in E. subst o'.
    destruct (entered_node _ _ _ _ _ _ _ _ _ Hpt _ _ Hrow) as (e & _ & _ & _ & He & <- & _). by apply old_time. }
  assert (Hexit : (start_of l (exit_id (operation n)) <= ready_of l (exit_id (operation n)))%Qc).
  { assert (Hx : graph_edge ir (exit_id (operation n)) (identity n0)) by (rewrite <-E0; by eapply exit_edge).
    destruct Hx as (x & Hx & <- & _). by apply old_time. }
  destruct (inside_times n0 Hn0) as (H1 & H2 & H3). rewrite E0 in *.
  assert (Hwhole : (start_of l (enter_id (operation n)) <= start_of l (exit_id (operation n)))%Qc).
  { etrans; [exact Henter|]. etrans; [exact H1|]. by etrans. }
  destruct (operation_nodes _ _ _ _ _ _ _ _ _ Hpt n Hn Ho) as [Hn'|[E|[E|Hd]]].
  - destruct (inside_times n Hn') as (G1 & G2 & _). split; [etrans; [exact Henter|exact G1]|etrans; [exact G2|exact Hexit]].
  - rewrite E. split; [done|]. etrans; [|exact Hexit]. etrans; [exact H1|]. by etrans.
  - by rewrite E.
  - destruct (contract_named _ Ho) as [key Hkey]. by apply (declared_unnamed _ Hd) in Hkey.
Qed.

(** A graph spans its operations. *)
Lemma operation_span i k n : names !! i = Some k → n ∈ nodes ir → operation n ∈ k →
  (ready_of l (graph_begin_id (Z.of_nat i)) <= start_of l (identity n))%Qc ∧
  (ready_of l (identity n) <= ready_of l (graph_end_id (Z.of_nat i)))%Qc.
Proof using Hp Hg Hpt Hc Hj Htl Hperm.
  intros Hi Hn Ho. assert (Hin : operation n ∈ (Adapter.operations a).*1) by (apply contract_operation; eauto).
  destruct (operation_span_old n Hn Hin) as [H1 H2]. split.
  - etrans; [|exact H1]. by apply edge_kept, (operation_entered i k).
  - etrans; [exact H2|]. by apply edge_kept, (graph_ended i k).
Qed.

Lemma graph_member i k : names !! i = Some k → ∃ n, n ∈ nodes ir ∧ operation n ∈ k.
Proof using Hp Hpt Hc Hfull.
  intros Hi. destruct k as [|o k]; [by apply list_elem_of_lookup_2, Hfull in Hi|].
  assert (Ho : o ∈ (Adapter.operations a).*1) by (apply contract_operation; exists i, (o :: k); split; [done|by constructor]).
  destruct (operation_member _ _ _ _ _ _ _ _ _ _ _ Hp Hpt _ Ho) as (n & Hn & E).
  exists n. split; [by eapply inside_node|]. rewrite E. by constructor.
Qed.

Lemma graph_span z : 0 <= z < count names → graph_spans (ready_of l) z.
Proof using Hp Hg Hpt Hc Hfull Hj Htl Hperm.
  intros Hz. destruct (names !! Z.to_nat z) as [k|] eqn:E; [|apply lookup_ge_None in E; unfold count in Hz; lia].
  destruct (graph_member _ _ E) as (n & Hn & Ho). destruct (operation_span _ k n E Hn Ho) as [H1 H2].
  rewrite Z2Nat.id in H1, H2 by lia. unfold graph_spans. etrans; [exact H1|]. etrans; [|exact H2]. by apply old_time.
Qed.

Lemma contiguous_take d w v : ∀ from upto, contiguous from v upto → v !! d = Some w → contiguous from (take (S d) v) (d_end w) ∧ d_end w <= upto.
Proof using Type.
  revert d. induction v as [|u v IH]; intros d from upto; [done|]. cbn. intros (H1 & H2 & H3). destruct d as [|d]; cbn.
  - intros [= ->]. pose proof (contiguous_le _ _ _ H3). done.
  - intros Hd. destruct (IH d _ _ H3 Hd) as [H4 H5]. done.
Qed.

(** The first dispatches run their graphs in order and end after them. *)
Lemma dispatches_ordered d w : ws !! d = Some w →
  d_end w <= count names ∧ StronglySorted (graph_before (ready_of l)) (seqZ 0 (d_end w)) ∧
  Forall (fun i => ready_of l (graph_end_id i) <= ready_of l (dispatch_end_id (Z.of_nat d)))%Qc (seqZ 0 (d_end w)).
Proof using Hp Hg Hpt Hc Hfull Hj Htl Hperm.
  intros Hd. destruct (contiguous_take d w ws _ _ (pc_windows _ _ _ _ Hc) Hd) as [Hct Hle].
  pose proof contract_respected as Hr. unfold contract_rows in Hr. apply Forall_app in Hr as [_ Hr].
  rewrite <-(take_drop (S d) ws), imap_app, concat_app in Hr. apply Forall_app in Hr as [Hr _].
  pose proof (contiguous_le _ _ _ Hct) as H0.
  assert (Hseq : concat (map window_graphs (take (S d) ws)) = seqZ 0 (d_end w)).
  { rewrite (windows_graphs _ 0 (d_end w)); [by rewrite Z.sub_0_r|done|done]. }
  destruct (windows_ordered names (ready_of l) (take (S d) ws) Hr) as [Hs Hend].
  { rewrite Hseq. apply Forall_forall. intros z Hz%elem_of_seqZ. apply graph_span. lia. }
  rewrite Hseq in *. split_and!; [done..|]. apply Hend. rewrite length_take. apply lookup_lt_Some in Hd. lia.
Qed.

(** All of a graph is complete before anything of a later graph starts. *)
Lemma graphs_ordered i j ki kj n n' : (i < j)%nat → names !! i = Some ki → names !! j = Some kj →
  n ∈ nodes ir → operation n ∈ ki → n' ∈ nodes ir → operation n' ∈ kj → (ready_of l (identity n) <= start_of l (identity n'))%Qc.
Proof using Hp Hg Hpt Hc Hfull Hj Htl Hperm.
  intros Hij Hi Hk Hn Ho Hn' Ho'. destruct (operation_span i ki n Hi Hn Ho) as [_ H1].
  destruct (operation_span j kj n' Hk Hn' Ho') as [H2 _]. etrans; [exact H1|]. etrans; [|exact H2].
  apply lookup_lt_Some in Hk as Hlt. pose proof (pc_windows _ _ _ _ Hc) as Hw.
  destruct (last ws) as [w|] eqn:El; [|apply last_None in El; rewrite El in Hw; cbn in Hw; unfold count in Hw; lia].
  destruct (dispatches_ordered (pred (length ws)) w) as (_ & Hs & _); [by rewrite <-last_lookup|].
  apply last_Some in El as [ws' El]. rewrite El in Hw. rewrite (contiguous_last _ _ _ _ Hw) in Hs.
  assert (Hsplit : seqZ 0 (count names) = seqZ 0 (Z.of_nat (S i)) ++ seqZ (Z.of_nat (S i)) (count names - Z.of_nat (S i))).
  { replace (count names) with (Z.of_nat (S i) + (count names - Z.of_nat (S i))) at 1 by lia.
    rewrite seqZ_app by (unfold count; lia). by rewrite Z.add_0_l. }
  rewrite Hsplit in Hs. apply (StronglySorted_app_1_elem_of _ _ _ _ _ Hs); apply elem_of_seqZ; unfold count; lia.
Qed.

Lemma named_old n' k i : n' ∈ nodes ir' → names !! i = Some k → operation n' ∈ k →
  ∃ n, n ∈ nodes ir ∧ identity n' = identity n ∧ operation n ∈ k.
Proof using Hc Hj.
  intros Hn Hi Ho. destruct (jn_new _ _ Hj n' Hn) as [Happ|(n & Hin & Hid & E)].
  - destruct (pc_named _ _ _ _ Hc _ _ _ Hi Ho) as [key Hkey]. unfold application_named in Happ. rewrite Hkey in Happ. discriminate Happ.
  - exists n. split_and!; [done..|]. by rewrite <-E.
Qed.

(** ** Samples *)

Lemma joined_ready t u : graph_edge ir' t u → (ready_of l u <= start_of l t)%Qc ∧ (ready_of l u <= ready_of l t)%Qc.
Proof using Hj Htl Hperm. apply (edge_ready ir' c l (jn_wf _ _ Hj) Htl Hperm). Qed.

(** A sample starts after the dispatch its step names. *)
Lemma sample_after i step d w : step_joined ir ir' i step → ws !! d = Some w →
  pget step "logits_ready" = JArr [JStr (dispatch_end_id (Z.of_nat d))] →
  dispatch_end_id (Z.of_nat d) +:+ ":exit" ∉ map identity (nodes ir) →
  ∀ j k n, Z.of_nat j < d_end w → names !! j = Some k → n ∈ nodes ir → operation n ∈ k →
  (ready_of l (identity n) <= start_of l (sample_id i))%Qc.
Proof using Hp Hg Hpt Hc Hfull Hj Htl Hperm.
  intros [(listed & Hl & Hready) _ _] Hd Hs Hfresh j k n Hlt Hk Hn Ho. rewrite Hs in Hl. injection Hl as <-.
  specialize (Hready _ ltac:(by constructor)). rewrite bool_decide_false in Hready by done.
  destruct (dispatches_ordered d w Hd) as (_ & _ & Hall). rewrite Forall_forall in Hall.
  etrans; [exact (proj2 (operation_span j k n Hk Hn Ho))|]. etrans; [|exact (proj1 (joined_ready _ _ Hready))].
  apply Hall, elem_of_seqZ. lia.
Qed.

(** The graphs from the one whose operations a step names start after its token. *)
Lemma decode_after i step g first : step_joined ir ir' i step → names !! g = Some first →
  pget step "next_decode_entries" = JArr (map JStr first) →
  ∀ j k n, (g <= j)%nat → names !! j = Some k → n ∈ nodes ir → operation n ∈ k →
  (ready_of l (token_id i) <= start_of l (identity n))%Qc.
Proof using Hp Hg Hpt Hc Hfull Hj Htl Hperm.
  intros [_ _ (listed & Hl & Hnext)] Hg' Hs. rewrite Hs in Hl. injection Hl as <-.
  assert (Hfirst : ∀ n, n ∈ nodes ir → operation n ∈ first → (ready_of l (token_id i) <= start_of l (identity n))%Qc).
  { intros n Hn Ho. assert (Hin : operation n ∈ (Adapter.operations a).*1) by (apply contract_operation; eauto).
    etrans; [|exact (proj1 (operation_span_old n Hn Hin))]. apply joined_ready, Hnext; [by apply list_elem_of_fmap_2|].
    pose proof Hin as ([o' row] & E & Hrow)%list_elem_of_fmap. cbn in E. subst o'.
    destruct (entered_node _ _ _ _ _ _ _ _ _ Hpt _ _ Hrow) as (e & _ & _ & _ & He & Hid & _).
    unfold enter_id in Hid. rewrite <-Hid. by apply list_elem_of_In, in_map, list_elem_of_In. }
  intros j k n Hle Hk Hn Ho. destruct (decide (g = j)) as [->|Hne].
  - rewrite Hg' in Hk. injection Hk as ->. by apply Hfirst.
  - destruct (graph_member g first Hg') as (n0 & Hn0 & Ho0). etrans; [by apply (Hfirst n0)|].
    etrans; [by apply old_time|]. eapply (graphs_ordered g j); (done || lia).
Qed.
End Timeline.

(** ** The theorems *)

(** A contract that carries the projection of a lifecycle. *)
Record carries (lifecycle : record) (p : LifecycleProjection) : Prop := {
  cr_entries : pget lifecycle "entry_dependencies" = JObj (Lifecycle.entry_dependencies p);
  cr_barriers : pget lifecycle "barriers" = JArr (map JObj (barriers p));
}.

Lemma carries_contract graph events names s p lifecycle : accepted graph events names s p → carries lifecycle p →
  ∃ ws, projected_contract lifecycle names ws (request_started s) ∧ ∀ i r, samples s !! i = Some r → sample_window ws r.
Proof.
  intros [Hn [(ws & _ & Hc & Hsb & _ & Hsw) [Hse Hnd] _ _ _ _ _] _ _ _ Hcur _ _ Hen Hba _ _] [He Hb].
  exists ws. split; [|done]. assert (Hcount : count names = count (graphs graph)).
  { unfold count. apply map_res_Ok, Forall2_length in Hn. lia. }
  rewrite Hba, Hsb in Hb. rewrite Hen, Hse, Hcur, <-Hcount in He. rewrite Hse, Hcur, <-Hcount in Hnd. rewrite Hcur, <-Hcount in Hc.
  split; try done.
  intros i k o Hi Ho. apply map_res_Ok in Hn. destruct (Forall2_lookup_r _ _ _ _ _ Hn Hi) as (g & _ & Hg). by eapply graph_names_named.
Qed.

Lemma nonempty_names graph names : map_res graph_names (graphs graph) = Ok names →
  (∀ g, g ∈ graphs graph → pget g "nodes" ≠ JArr []) → ∀ k, k ∈ names → k ≠ [].
Proof.
  intros Hn%map_res_Ok Hg k Hk ->. apply list_elem_of_lookup in Hk as [i Hi].
  destruct (Forall2_lookup_r _ _ _ _ _ Hn Hi) as (g & Hin%list_elem_of_lookup_2 & Hx). apply (Hg g Hin).
  unfold graph_names in Hx. apply bind_Ok in Hx as (v & Hv%pget_item & Hx). apply bind_Ok in Hx as (nodes & Ho & Hx).
  apply map_res_Ok, Forall2_length in Hx. rewrite length_seq in Hx. rewrite Hv. destruct v; try done. apply Ok_eq in Ho as ->.
  by destruct nodes.
Qed.

Lemma step_fields graph names s i r step : application_step graph names s (i, r) = Ok step →
  (∃ d, integer r "dispatch_id" = Ok d ∧ pget step "logits_ready" = JArr [JStr (dispatch_end_id d)]) ∧
  ((S i < length (samples s))%nat → ∃ ph g first, phases s !! S i = Some ph ∧ integer ph "graph_begin" = Ok g ∧
    names !! Z.to_nat g = Some first ∧ pget step "next_decode_entries" = JArr (map JStr first)).
Proof.
  unfold application_step. intros Hs. apply bind_Ok in Hs as (succ & Hsucc & Hs). apply bind_Ok in Hs as (d & Hd & <-%Ok_eq).
  split; [by exists d|]. intros Hlt. destruct (Nat.ltb_spec (i + 1) (length (samples s))); [|lia].
  do 2 (apply bind_Ok in Hsucc as (? & _ & Hsucc)). apply bind_Ok in Hsucc as (ph & Hph%at_index_Ok & Hsucc).
  apply bind_Ok in Hsucc as (g & Hg & Hsucc%at_index_Ok). replace (Z.to_nat (Z.of_nat i + 1)) with (S i) in Hph by lia.
  by exists ph, g, succ.
Qed.

(** When a contract carries the projection of a recorded lifecycle, the timelines
    of the graph adapted from it keep the order of the graphs. *)
Lemma carried_in_order `{Host} graph events p digests rows lifecycle results application admission ir services c l :
  project_lifecycle graph events = Ok p → carries lifecycle p → (∀ g, g ∈ graphs graph → pget g "nodes" ≠ JArr []) →
  adapt digests lifecycle rows results application admission = Ok (ir, services) →
  timeline c (nodes ir) l → map scheduled_identity l ≡ₚ map identity (nodes ir) →
  ∃ names, graph_operations graph = Ok names ∧
    ∀ i j early late n n', (i < j)%nat → names !! i = Some early → names !! j = Some late →
      n ∈ nodes ir → operation n ∈ early → n' ∈ nodes ir → operation n' ∈ late →
      (ready_of l (identity n) <= start_of l (identity n'))%Qc.
Proof.
  intros (names & s & Hacc)%project_lifecycle_ok Hcar Hfull (ir0 & services0 & Ha & Hj & _)%adapt_joined Htl Hperm.
  destruct (carries_contract _ _ _ _ _ _ Hacc Hcar) as (ws & Hpc & _). pose proof (ac_names _ _ _ _ _ Hacc) as Hn.
  apply adapt_records_parts in Ha as (a & made & Hp & Hg & entered & exits & declared & m & raws & Hpt).
  exists names. split; [done|]. intros i j early late n n' Hij Hi Hk Hin Ho Hin' Ho'.
  destruct (named_old _ _ _ _ _ Hpc _ Hj _ _ _ Hin Hi Ho) as (x & Hx & -> & Hox).
  destruct (named_old _ _ _ _ _ Hpc _ Hj _ _ _ Hin' Hk Ho') as (x' & Hx' & -> & Hox').
  exact (graphs_ordered _ _ _ _ _ _ _ _ _ _ _ _ Hp Hg Hpt _ _ _ Hpc (nonempty_names _ _ Hn Hfull) _ Hj _ _ Htl Hperm _ _ _ _ _ _ Hij Hi Hk Hx Hox Hx' Hox').
Qed.

(** When its application carries the steps of the projection, they keep samples
    after their graphs and decodes after their token. *)
Lemma carried_after_sample `{Host} graph events p digests rows lifecycle results records declared admission ir services c l :
  project_lifecycle graph events = Ok p → carries lifecycle p → (∀ g, g ∈ graphs graph → pget g "nodes" ≠ JArr []) →
  pget lifecycle "application" = JObj declared → pget declared "steps" = JArr (map JObj (application_steps p)) →
  adapt digests lifecycle rows results (Some records) admission = Ok (ir, services) →
  (∀ d, dispatch_end_id d +:+ ":exit" ∉ map identity (nodes ir)) →
  timeline c (nodes ir) l → map scheduled_identity l ≡ₚ map identity (nodes ir) →
  ∃ names, graph_operations graph = Ok names ∧ ∀ i r, of_kind "SAMPLE" events !! i = Some r →
    (∀ e j k n, integer r "graph_end" = Ok e → Z.of_nat j < e → names !! j = Some k → n ∈ nodes ir → operation n ∈ k →
      (ready_of l (identity n) <= start_of l (sample_id i))%Qc) ∧
    (ready_of l (sample_id i) <= start_of l (token_id i))%Qc ∧
    (∀ ph g j k n, of_kind "PHASE" events !! S i = Some ph → Z.of_nat (S i) < expected_samples p →
      integer ph "graph_begin" = Ok g → g <= Z.of_nat j → names !! j = Some k → n ∈ nodes ir → operation n ∈ k →
      (ready_of l (token_id i) <= start_of l (identity n))%Qc).
Proof.
  intros (names & s & Hacc)%project_lifecycle_ok Hcar Hfull Hdecl Hsteps (ir0 & services0 & Ha & Hj & Happ)%adapt_joined Hfresh Htl Hperm.
  destruct Happ as (declared' & steps & Hd' & Hst & Hall). rewrite Hdecl in Hd'. injection Hd' as <-. rewrite Hsteps in Hst.
  injection Hst as Hst. assert (Hinj : Inj (=) (=) JObj) by (by intros ? ? [=]).
  apply (list_fmap_eq_inj JObj Hinj) in Hst. subst steps.
  destruct (carries_contract _ _ _ _ _ _ Hacc Hcar) as (ws & Hpc & Hsw). pose proof (ac_names _ _ _ _ _ Hacc) as Hn.
  apply adapt_records_parts in Ha as (a & made & Hp & Hg & entered & exits & dbs & m & raws & Hpt).
  exists names. split; [done|]. intros i r Hi. pose proof (ac_told _ _ _ _ _ Hacc) as [Hts Htp _ _ _ _]. rewrite <-Hts in Hi.
  assert (Hnum : numbered (samples s) !! i = Some (i, r)).
  { unfold numbered. apply lookup_zip_Some. split; [|done]. cbn. apply lookup_seq. split; [lia|]. by eapply lookup_lt_Some. }
  pose proof (ac_steps _ _ _ _ _ Hacc) as Hms%map_res_Ok.
  destruct (Forall2_lookup_l _ _ _ _ _ Hms Hnum) as (step & Hstep & [(d & Hd & Hready) Hnext]%step_fields).
  pose proof (Hall i step Hstep) as Hsj. destruct (Hsw i r Hi) as (d' & w & Hd' & Hw & He'). rewrite Hd in Hd'. apply Ok_eq in Hd' as ->.
  split_and!.
  - intros e j k n He Hlt Hk Hin Ho. rewrite He in He'. apply Ok_eq in He' as ->.
    destruct (named_old _ _ _ _ _ Hpc _ Hj _ _ _ Hin Hk Ho) as (x & Hx & -> & Hox).
    refine (sample_after _ _ _ _ _ _ _ _ _ _ _ _ Hp Hg Hpt _ _ _ Hpc (nonempty_names _ _ Hn Hfull) _ Hj _ _ Htl Hperm _ _ _ _ Hsj Hw Hready _ _ _ _ Hlt Hk Hx Hox).
    intros Hin'. apply (Hfresh (Z.of_nat d')). apply list_elem_of_In, in_map_iff in Hin' as (y & <- & Hy%list_elem_of_In).
    destruct (jn_old _ _ Hj y Hy) as (y' & Hy' & <- & _). by apply list_elem_of_In, in_map, list_elem_of_In.
  - apply (joined_ready _ _ Hj _ _ Htl Hperm), Hsj.
  - intros ph g j k n Hph Hlt Hgb Hle Hk Hin Ho. rewrite <-Htp in Hph. rewrite (ac_samples _ _ _ _ _ Hacc) in Hlt. unfold count in Hlt.
    destruct Hnext as (ph' & g' & first & Hph' & Hg' & Hfirst & Hentries); [lia|]. rewrite Hph in Hph'. injection Hph' as <-.
    rewrite Hgb in Hg'. apply Ok_eq in Hg' as <-. destruct (named_old _ _ _ _ _ Hpc _ Hj _ _ _ Hin Hk Ho) as (x & Hx & -> & Hox).
    refine (decode_after _ _ _ _ _ _ _ _ _ _ _ _ Hp Hg Hpt _ _ _ Hpc (nonempty_names _ _ Hn Hfull) _ Hj _ _ Htl Hperm _ _ _ _ Hsj Hfirst Hentries _ _ _ _ Hk Hx Hox).
    lia.
Qed.
