(* ===== verification/Provenance.v ===== *)
(** * The provenance of a collection

    [verify_provenance] of [sim/cycle/reconstruct_cpu.py] and [validate_receipt]
    of [sim/cycle/collection_native.py]: the document a collection leaves about
    its build, its inputs and its artifacts, checked for completeness and against
    the digests of the files themselves, which are an argument. *)
From S2P Require Import Prelude Records Profiles TraceSchema.
Set Default Goal Selector "!".

Definition EXECUTABLE : string := "llama-eval-workload".

(** [isinstance(value, str) and re.fullmatch('[0-9a-f]{64}', value)] *)
Definition is_hash (j : json) : bool := match j with JStr s => is_hex 64 s | _ => false end.
Definition nonempty {A} (l : list A) : bool := match l with [] => false | _ => true end.
Definition is_nonempty_text (j : json) : bool := match j with JStr s => negb (String.eqb s "") | _ => false end.
Definition int_get (r : record) (key : string) (z : Z) : bool := is_int (pget r key) && eq_int (pget r key) z.

Section Provenance.
Context `{Host}.

(** ** The receipt of a native build *)
Definition receipt_binding (receipt : record) (key : string) : res unit :=
  let* entries := object_value (pget receipt key) in
  require (nonempty entries && forallb (fun kv => is_hash kv.2) entries) ("incomplete native build binding: " +:+ key).

Definition validate_receipt (receipt : record) : res unit :=
  require (eq_str (pget receipt "schema") "im2p-native-build-receipt" && int_get receipt "version" 1)
    "unsupported native build receipt" ;;;
  require (eq_str (pget receipt "kind") "BUILD_ONCE_MEASURE_MANY" && int_get receipt "build_exit_code" 0)
    "native build was not successful" ;;;
  require (eq_str (pget receipt "sha256") (Contract.contract_digest receipt)) "native build receipt digest mismatch" ;;;
  require (eq_str (pget receipt "executable") EXECUTABLE) "native build receipt selected wrong executable" ;;;
  let* command := array (pget receipt "build_command") in
  require (nonempty command && forallb is_nonempty_text command) "native build command missing" ;;;
  require (jeq (JArr (take 2 command)) (JArr [JStr "cmake"; JStr "--build"]) &&
           existsb (fun v => eq_str v "--target") command && existsb (fun v => eq_str v EXECUTABLE) command)
    "native receipt does not build selected official target" ;;;
  iter_res (receipt_binding receipt)
    ["actual_compile_inputs"; "cpu_object_sha256"; "producer_object_sha256"; "project_artifacts"] ;;;
  let* info := object_value (pget receipt "build_info") in
  require (int_get info "activation_metrics" 0 && int_get info "residual_metrics" 0)
    "native source collection requires metric-OFF binary" ;;;
  require (in_strs (pget receipt "source_role") ["FULL_CPU"; "POTAL_COLLECTION"] &&
           eq_int (pget info "cycle_sim") (if eq_str (pget receipt "source_role") "POTAL_COLLECTION" then 1 else 0))
    "native build role mismatch" ;;;
  iter_res (fun key => require (is_hash (pget receipt key)) ("native build content binding missing: " +:+ key))
    ["cmake_cache_sha256"; "compile_commands_sha256"; "cpu_kernel_contract_sha256"].

(** ** The build a document of each version names *)

Definition fresh_build (document : record) : res record :=
  let* fresh := object_value (pget document "fresh_build") in
  require (eq_str (pget fresh "kind") "FRESH_CONFIGURE_AND_COMPILE") "collection did not use a fresh compiled build" ;;;
  let* cache := text fresh "reference_cache_sha256" in
  require (is_hex 64 cache) "fresh build reference cache missing" ;;;
  let* _ := text fresh "build" in
  let* configure := array (pget fresh "configure_command") in
  require (nonempty configure && forallb is_nonempty_text configure) "fresh configure command missing" ;;;
  Ok fresh.

Definition native_build (document kernel : record) (role : string) : res record :=
  let* fresh := object_value (pget document "native_build") in
  validate_receipt fresh ;;;
  require_res (
    (let* own := item fresh "source_role" in Ok (eq_str own role)) andM
    (let* receipt := text document "process_receipt_sha256" in Ok (is_hex 64 receipt)) andM
    (let* value := item fresh "project_artifacts" in
     let* artifacts := object_value value in
     let* executable := item document "executable_sha256" in Ok (jeq (pget artifacts EXECUTABLE) executable)) andM
    (let* own := item fresh "compile_commands_sha256" in
     let* commands := item document "compile_commands_sha256" in Ok (jeq own commands)) andM
    (let* own := item fresh "cpu_kernel_contract_sha256" in
     let* contract := item kernel "sha256" in Ok (jeq own contract)) andM
    (let* own := item fresh "runtime_dependencies" in Ok (jeq own (pget document "runtime_dependencies"))))
    "native build/provenance binding mismatch" ;;;
  Ok fresh.

(** A library the process loaded. *)
Definition runtime_dependency (value : json) : res unit :=
  let* bound := object_value value in
  if eq_str (pget bound "kind") "SYSTEM_SHARED_CACHE" then
    let* os := array (pget bound "os") in require (nonempty os) "system shared-cache OS identity missing"
  else require_res (Ok (in_strs (pget bound "kind") ["PROJECT"; "EXTERNAL"; "SYSTEM"]) andM
         (let* digest := text bound "sha256" in Ok (is_hex 64 digest))) "runtime dependency content hash missing".

(** [value.removeprefix('sha256:')] of the arguments that have the prefix. *)
Definition HASH_PREFIX : string := "sha256:".
Definition argument_hash (value : json) : option string :=
  match value with
  | JStr s => if String.prefix HASH_PREFIX s
      then Some (String.substring (String.length HASH_PREFIX) (String.length s - String.length HASH_PREFIX) s) else None
  | _ => None
  end.

Definition input_hash (value : json) : res string :=
  match value with
  | JStr s => require (is_hex 64 s) "input file content hash missing" ;;; Ok s
  | _ => Err (NpuTraceError "input file content hash missing")
  end.

Definition project_library (value : json) : res unit :=
  let* library := object_value value in
  let* _ := text library "path" in
  let* digest := text library "sha256" in
  require (is_hex 64 digest) "invalid library content hash".

(** [files] are the digests of the log, the graph and, for a PoTal collection,
    the trace, under the names of the artifacts. *)
Definition verify_provenance (document : record) (role : string) (files : list (string * string)) : res record :=
  require (eq_str (pget document "schema") "im2p-collection-provenance" && is_int (pget document "version") &&
           in_ints (pget document "version") [1; 2] && eq_str (pget document "source_role") role)
    "invalid collection provenance schema/role" ;;;
  require (int_get document "process_exit_code" 0 && is_true (pget document "collection_success") &&
           is_true (pget document "build_inputs_unchanged")) "collection failed or build/model changed" ;;;
  iter_res (fun key => require_res (let* v := text document key in Ok (is_hex 64 v)) "missing provenance content hash")
    ["model_sha256"; "executable_sha256"; "compile_commands_sha256"] ;;;
  let* kernel := object_value (pget document "cpu_kernel_contract") in
  require (eq_str (pget kernel "schema") "im2p-ordinary-cpu-kernel-contract" && int_get kernel "version" 1 &&
           eq_str (pget kernel "sha256") (Contract.contract_digest kernel)) "invalid CPU kernel contract" ;;;
  require_res (all_res (fun key => let* part := object_value (pget kernel key) in Ok (nonempty part))
    ["units"; "dependencies"; "compilers"]) "incomplete CPU kernel proof" ;;;
  require (is_list (pget document "command_arguments")) "missing actual command arguments" ;;;
  let* arguments := array (pget document "command_arguments") in
  require (forallb is_str arguments) "normalized arguments must be strings" ;;;
  let* fresh := if eq_int (pget document "version") 1 then fresh_build document else native_build document kernel role in
  let* compiled := object_value (pget fresh "actual_compile_inputs") in
  require (nonempty compiled && forallb (fun kv => is_hash kv.2) compiled) "actual compiler input binding missing" ;;;
  let* runtime := object_value (pget document "runtime_dependencies") in
  require (nonempty runtime) "actual runtime dependency closure missing" ;;;
  iter_res (fun kv : string * json => runtime_dependency kv.2) runtime ;;;
  let* inputs := object_value (pget document "input_files") in
  let* input_hashes := map_res (fun kv : string * json => input_hash kv.2) inputs in
  require (set_eq String.eqb (omap argument_hash arguments) input_hashes)
    "normalized file arguments lack exact content-hash coverage" ;;;
  let* libraries := array (pget document "project_libraries") in
  iter_res project_library libraries ;;;
  let* artifacts := object_value (pget document "artifacts") in
  iter_res (fun '(name, digest) =>
    let* artifact := object_value (pget artifacts name) in
    require (eq_str (pget artifact "sha256") digest) ("collection artifact mismatch: " +:+ name)) files ;;;
  require (negb (String.eqb role "FULL_CPU") || negb (has artifacts "npu_trace")) "FullCPU collection emitted NPU trace" ;;;
  Ok document.
End Provenance.
