(* ===== verification/LifecycleBuild.v ===== *)
(** * The lifecycle contract of a collection

    [build] of [sim/cycle/execution_lifecycle_cli.py]: the events a producer
    recorded, its provenance, the structural join, the application log and the
    NPU results are checked against each other and become the lifecycle contract
    that the adapters read.  For a pipelined run the results of every declared
    parent must tile its rows, and every result must belong to one parent.

    The sources are their decoded documents, with the digests of the files. *)
From stdpp Require Import sorting.
From S2P Require Import Prelude Records TraceSchema Manifest Provenance PipelineContract Pipeline Adapter Lifecycle ExecutionIR.
Set Default Goal Selector "!".

(** What [LifecycleFiles] names, read. *)
Record LifecycleFiles := {
  sidecar : list record;
  semantic_graph : list record;
  provenance : record;
  application : list record;
  npu_results : list record;
  join_summary : record;
  sidecar_sha256 : string;
  semantic_graph_sha256 : string;
  provenance_sha256 : string;
  application_sha256 : string;
  dataset_sha256 : string;
  npu_results_sha256 : string;
  join_summary_sha256 : string;
}.

Record CpuScenario := {
  worker_resources : record;
  policy : string;
  sampler_resource : string;
}.

Definition producer_payload (row : record) : record :=
  List.filter (fun kv => negb (str_in kv.1 ["schema"; "version"; "kind"; "sequence"])) row.

(** [any(path.endswith(suffix) for path in inputs)] *)
Definition has_input (inputs : record) (suffix : string) : bool := existsb (ends_with suffix) (keys inputs).

(** [a[key_a] == b[key_b]] for each of the pairs of keys, in order. *)
Definition items_same (a b : record) (l : list (string * string)) : res bool :=
  all_res (fun kk => item_same a kk.1 b kk.2) l.

Section LifecycleBuild.
Context `{Host}.

(** ** The producer *)

Definition PRODUCER_SOURCES : list string :=
  ["tools/eval/evaluation-lifecycle.h"; "tools/eval/evaluation-trace.cpp"; "ggml/src/ggml-gemmini-utils/src/semantic.cpp"].
Definition PIPELINE_SOURCES : list string :=
  ["frontend/src/im2p_gemmini_frontend.cpp"; "ggml/src/ggml-gemmini-utils/src/cycle_sim_log.cpp";
   "ggml/src/ggml-gemmini/quants/act/exsia/exsia.cpp"].

Definition artifact_bound (artifacts : record) (name digest : string) : res unit :=
  let* artifact := object_value (pget artifacts name) in
  ensure_res (test_item artifact "sha256" (fun v => eq_str v digest)) ("producer artifact binding mismatch: " +:+ name).

(** The receipt of the native build and the compiled inputs it names. *)
Definition check_producer (files : LifecycleFiles) : res (record * record) :=
  let proof := provenance files in
  ensure (eq_str (pget proof "schema") "im2p-collection-provenance" && eq_int (pget proof "version") 2 &&
          eq_str (pget proof "source_role") "POTAL_COLLECTION" && is_true (pget proof "collection_success") &&
          eq_int (pget proof "process_exit_code") 0 && is_true (pget proof "build_inputs_unchanged"))
    "successful native PoTal build-bound collection required" ;;;
  let* receipt_value := item proof "native_build" in
  let* receipt := object_value receipt_value in
  validate_receipt receipt ;;;
  let* built_value := item receipt "project_artifacts" in
  let* built := object_value built_value in
  ensure_res (item_same built EXECUTABLE proof "executable_sha256") "native producer binary binding mismatch" ;;;
  let* inputs_value := item receipt "actual_compile_inputs" in
  let* inputs := object_value inputs_value in
  iter_res (fun suffix => ensure (has_input inputs suffix) ("producer build lacks lifecycle implementation: " +:+ suffix))
    PRODUCER_SOURCES ;;;
  let* artifacts_value := item proof "artifacts" in
  let* artifacts := object_value artifacts_value in
  iter_res (fun '(name, digest) => artifact_bound artifacts name digest)
    [("execution_lifecycle", sidecar_sha256 files); ("semantic_graph", semantic_graph_sha256 files);
     ("application_cpu", application_sha256 files)] ;;;
  Ok (receipt, inputs).

(** ** The structural join *)

Definition source_digest (source : record) (name digest : string) : res bool :=
  let* value := item source name in
  let* artifact := object_value value in
  test_item artifact "sha256" (fun v => eq_str v digest).

(** The fingerprints that the join compared, of the decode phases. *)
Definition check_join (files : LifecycleFiles) : res record :=
  let summary := join_summary files in
  ensure (eq_str (pget summary "status") "PASS" && eq_str (pget summary "scope") "structural-three-source-reconstruction")
    "complete official structural join required" ;;;
  let* source_value := item summary "source_artifacts" in
  let* source := object_value source_value in
  ensure_res (source_digest source "potal_semantic_graph" (semantic_graph_sha256 files) andM
    source_digest source "npu_results" (npu_results_sha256 files) andM
    test_item summary "potal_provenance_sha256" (fun v => eq_str v (provenance_sha256 files))) "join source binding mismatch" ;;;
  let* matches_value := item summary "decode_token_fingerprint_matches" in
  object_value matches_value.

Definition decode_phases (graph : Manifest) : res (list bool) :=
  map_res (fun phase => test_item phase "phase_kind" (fun v => eq_str v "decode")) (Manifest.phases graph).

Definition check_trajectory (fingerprints : record) (graph : Manifest) : res unit :=
  let* decodes := decode_phases graph in
  ensure (Nat.eqb (length fingerprints) (length (List.filter id decodes)) && forallb is_true (map snd fingerprints))
    "decode input trajectory mismatch".

(** ** The application log *)

(** The rows of the list whose field is the text. *)
Definition rows_of_kind (kind : string) (rows : list record) : res (list record) :=
  let* tagged := map_res (fun row => let* v := item row "kind" in Ok (eq_str v kind, row)) rows in
  Ok (List.filter (fun t => t.1) tagged).*2.
Definition rows_of_stage (stage : string) (rows : list record) : list record :=
  List.filter (fun row => eq_str (pget row "stage") stage) rows.

Definition preparation_matches (pair : record * record) : res unit :=
  let '(row, step) := pair in
  ensure_res (items_same row step [("batch_index", "batch_index"); ("dispatch_id", "dispatch_id")] andM
    test_item row "phase" (fun v => eq_str v "prefill") andM test_item row "decode_index" is_null andM
    test_item row "source_role" (fun v => eq_str v "potal_collection"))
    "application preparation/producer dispatch mismatch".

Definition sample_matches (pair : record * record) : res unit :=
  let '(row, sample) := pair in
  ensure_res (items_same row sample [("sample_index", "sample_index"); ("token_id", "token_id");
    ("phase", "phase_kind"); ("decode_index", "decode_index")]) "application/lifecycle token or phase mismatch".

Definition check_application (files : LifecycleFiles) (projection : LifecycleProjection) (pipelined : bool) : res unit :=
  let app := application files in
  let* samples := rows_of_kind "SAMPLE" (sidecar files) in
  let accepted := if pipelined then rows_of_stage "sample_accept" app else app in
  let preparations := if pipelined then rows_of_stage "prefill_batch_prepare" app else [] in
  ensure (Nat.eqb (length accepted) (length samples) && (count samples =? expected_samples projection))
    "application/lifecycle sample coverage mismatch" ;;;
  (if pipelined then
     ensure_res (Ok (Nat.eqb (length app) (length accepted + length preparations)) andM
       Ok (Nat.eqb (length preparations) (length (prefill_steps projection))) andM
       all_res (fun row => int_test row "version" (fun v => v =? 2)) app)
       "pipeline application preparation coverage mismatch" ;;;
     iter_res preparation_matches (zip preparations (prefill_steps projection))
   else Ok tt) ;;;
  iter_res sample_matches (zip accepted samples).

(** ** The NPU results *)

Record Works := {
  call_slots : record;
  submitted : list string;
  work_rows : list (Z * record);
}.

Definition RESULT_REQUIRED : string := "current official NPU results required".

Definition add_work (admission : ResultAdmission) (pipelined : bool) (w : Works) (row : record) : res Works :=
  admission RESULT_REQUIRED row ;;;
  ensure (eq_str (pget row "schema") "im2p-npu-cycle-result") RESULT_REQUIRED ;;;
  ensure_res (test_item row "scope" (fun v => in_strs v (if pipelined then ["stripe"; "residual_compact"] else ["full"; "residual_compact"])) andM
    (if pipelined then Ok true else test_item row "host_slot" is_null)) "NPU result scope differs from producer lifecycle" ;;;
  let* call_id := integer row "call_id" in
  let call := dec call_id in
  ensure (negb (has (call_slots w) call)) "multiple NPU works claim one invocation" ;;;
  let* work_id := integer row "work_id" in
  ensure (negb (zmem work_id (work_rows w))) "duplicate NPU result work ID" ;;;
  Ok {| call_slots := sset call JNull (call_slots w); submitted := submitted w ++ [npu_id work_id];
        work_rows := zset work_id row (work_rows w) |}.

Definition collect_works (admission : ResultAdmission) (pipelined : bool) (results : list record) : res Works :=
  fold_res (add_work admission pipelined) {| call_slots := []; submitted := []; work_rows := [] |} results.

(** ** The parents of a pipelined run *)

(** The results of the listed works whose scope is the text. *)
Definition works_of_scope (works : list (Z * record)) (ids : list Z) (scope : string) : res (list (Z * record)) :=
  let* tagged := map_res (fun id => match zget id works with
    | None => Ok (false, (id, []))
    | Some row => let* v := item row "scope" in Ok (eq_str v scope, (id, row))
    end) ids in
  Ok (List.filter (fun t => t.1) tagged).*2.

Definition row_range (row : record) : res (Z * Z) :=
  let* begin := integer row "row_begin" in
  let* count := integer row "row_count" in
  Ok (begin, begin + count).

(** Pairs in the order of tuples. *)
Definition range_le (a b : Z * Z) : Prop := a.1 < b.1 ∨ a.1 = b.1 ∧ a.2 <= b.2.
#[export] Instance range_le_dec : RelDecision range_le.
Proof. intros a b. unfold range_le. apply _. Defined.

Fixpoint adjacent (l : list (Z * Z)) : bool :=
  match l with
  | a :: (b :: _) as rest => (a.2 =? b.1) && adjacent rest
  | _ => true
  end.

Definition same_parent (parent row : record) : res bool :=
  int_same row "parent_id" parent "parent_id" andM int_same row "operation_id" parent "operation_id" andM
  int_same row "phase_id" parent "phase_id".

Definition identities (l : list json) : list Z := omap (fun v => match v with JInt z => Some z | _ => None end) l.

Definition residual_owned (works : list (Z * record)) (parent : record) (dense : list (Z * record)) (row : record) : res bool :=
  let child := fun key => let* id := integer row "work_id" in
    match zget id works with None => Err (KeyError (dec id)) | Some r => integer r key end in
  (let* own := child "parent_id" in int_test row "child_parent_id" (fun v => own =? v)) andM
  (let* own := child "call_id" in int_test row "call_id" (fun v => own =? v)) andM
  int_same row "dense_parent_id" parent "parent_id" andM
  (let* dense_work := integer row "dense_work_id" in
   let* ids := map_res (fun d : Z * record => integer d.2 "work_id") dense in Ok (z_in dense_work ids)).

(** One parent; the result is the works declared so far. *)
Definition check_parent_works (works : list (Z * record)) (declared : list Z) (parent : record) : res (list Z) :=
  let* ids_value := item parent "required_work_ids" in
  let* raw_ids := array ids_value in
  ensure (forallb is_identity raw_ids) "PIPELINE parent has invalid work identity" ;;;
  let ids := remove_dups (identities raw_ids) in
  ensure (negb (existsb (fun id => z_in id declared) ids)) "PIPELINE work claimed by two parents" ;;;
  let* dense := works_of_scope works ids "stripe" in
  ensure_res (Ok (negb (Nat.eqb (length dense) 0)) andM all_res (fun d : Z * record => same_parent parent d.2) dense)
    "PIPELINE dense stripe differs from declared parent" ;;;
  let* unsorted := map_res (fun d : Z * record => row_range d.2) dense in
  let ranges := merge_sort range_le unsorted in
  ensure_res (Ok (match head ranges with Some r => r.1 =? 0 | None => false end) andM
    int_test parent "parent_m" (fun m => match last ranges with Some r => r.2 =? m | None => false end) andM
    Ok (adjacent ranges)) "PIPELINE parent has missing/overlapping dense rows" ;;;
  let* bindings_value := item parent "residual_bindings" in
  let* listed := array bindings_value in
  let* bindings := map_res object_value listed in
  let* residual := works_of_scope works ids "residual_compact" in
  let* bound := map_res (fun row => integer row "work_id") bindings in
  ensure_res (Ok (set_eq Z.eqb bound residual.*1) andM all_res (residual_owned works parent dense) bindings)
    "PIPELINE residual child ownership mismatch" ;;;
  Ok (declared ++ ids).

Definition check_parents (projection : LifecycleProjection) (works : list (Z * record)) : res unit :=
  let* declared := fold_res (check_parent_works works) [] (pipeline_parents projection) in
  ensure (set_eq Z.eqb declared works.*1) "PIPELINE parent/NPU result bijection mismatch" ;;;
  ensure (negb (Nat.eqb (length (pipeline_owners projection)) 0)) "PIPELINE producer has no ownership transitions".

(** ** The contract *)

Definition contract_record (files : LifecycleFiles) (scenario : CpuScenario) (projection : LifecycleProjection)
    (pipelined : bool) (w : Works) (executable build_digest : json) : record :=
  [("schema", JStr "im2p-execution-lifecycle"); ("version", JInt (if pipelined then 2 else 1));
   ("source_kind", JStr "PRODUCER_DECLARED"); ("dataset_sha256", JStr (dataset_sha256 files));
   ("npu_results_sha256", JStr (npu_results_sha256 files));
   ("producer_binding", JObj
     [("sidecar_sha256", JStr (sidecar_sha256 files)); ("semantic_graph_sha256", JStr (semantic_graph_sha256 files));
      ("provenance_sha256", JStr (provenance_sha256 files)); ("executable_sha256", executable);
      ("native_build_sha256", build_digest); ("join_summary_sha256", JStr (join_summary_sha256 files))]);
   ("operation_exit_policy", JStr "ALL_MEMBER_COMPLETIONS"); ("publish_policy", JStr "NONBLOCKING_SUBMISSION");
   ("slot_release_policy", JStr "NPU_RESOURCE_READY"); ("phase_graph_policy", JStr "EXPLICIT_EDGES");
   ("entry_dependencies", JObj (Lifecycle.entry_dependencies projection));
   ("barriers", JArr (map JObj (barriers projection)));
   ("call_slots", JObj (call_slots w)); ("submission_order", JArr (map JStr (submitted w)));
   ("cpu_policy", JStr (policy scenario)); ("worker_resources", JObj (worker_resources scenario));
   ("application", JObj ([("sha256", JStr (application_sha256 files)); ("sampler_policy", JStr "SINGLE_CALLING_THREAD");
      ("resource", JStr (sampler_resource scenario)); ("metric_policy", JStr (policy scenario));
      ("expected_samples", JInt (expected_samples projection));
      ("steps", JArr (map JObj (application_steps projection)))] ++
      (if pipelined then [("prefill_steps", JArr (map JObj (prefill_steps projection)))] else [])))] ++
  (if pipelined then
     [("pipeline_parents", JArr (map (fun row => JObj (producer_payload row)) (pipeline_parents projection)));
      ("pipeline_owners", JArr (map (fun row => JObj (producer_payload row)) (pipeline_owners projection)))]
   else []).

Definition is_pipelined (sidecar : list record) : res bool :=
  match sidecar with [] => Ok false | row :: _ => int_test row "version" (fun v => v =? 3) end.

Definition build (files : LifecycleFiles) (scenario : CpuScenario) (admission : ResultAdmission) : res record :=
  let* producer := check_producer files in
  let* fingerprints := check_join files in
  let* graph := read_manifest (semantic_graph files) in
  check_trajectory fingerprints graph ;;;
  let* projection := project_lifecycle graph (sidecar files) in
  let* pipelined := is_pipelined (sidecar files) in
  ensure (negb pipelined || negb (Nat.eqb (length (pipeline_parents projection)) 0))
    "PIPELINE collection has no declared target parents" ;;;
  check_application files projection pipelined ;;;
  ensure (negb pipelined || forallb (has_input producer.2) PIPELINE_SOURCES) "producer build lacks PIPELINE ownership implementation" ;;;
  let* w := collect_works admission pipelined (npu_results files) in
  (if pipelined then check_parents projection (work_rows w) else Ok tt) ;;;
  let* executable := item (provenance files) "executable_sha256" in
  let* digest := item producer.1 "sha256" in
  Ok (contract_record files scenario projection pipelined w executable digest).
End LifecycleBuild.
