(* ===== verification/LifecycleBuildTheorems.v ===== *)
(** * What a built lifecycle contract guarantees

    A contract that [build] returns carries the projection of the recorded
    events and is one the adapters accept ([contract_built]); the dense stripes
    of each parent of a pipelined run tile its rows and every result belongs to
    one parent ([parents_tile]).  With the theorems on adapted lifecycles, the
    execution adapted from it runs in the order of the program
    ([graphs_in_order], [decode_after_sample]). *)
From stdpp Require Import sorting.
From S2P Require Import Prelude Records Rational TraceSchema Manifest Provenance Services Scheduler SchedulerTheorems PipelineContract Pipeline.
From S2P Require Import PipelineEdges PipelineTheorems Adapter AdapterTheorems AdapterPipeline Application ApplicationTheorems.
From S2P Require Import Lifecycle LifecycleTheorems LifecycleTiming LifecycleBuild ExecutionIR.
Set Default Goal Selector "!".

(** ** Ranges that tile an interval *)

Definition covers (i : Z) (r : Z * Z) : bool := (r.1 <=? i) && (i <? r.2).
Definition inside_range (i low high : Z) : nat := if (low <=? i) && (i <? high) then 1%nat else 0%nat.

Lemma adjacent_covers i l : ∀ r m, Forall (fun r => r.1 <= r.2) (r :: l) → adjacent (r :: l) = true →
  last (r :: l) = Some m → r.1 <= m.2 ∧ length (List.filter (covers i) (r :: l)) = inside_range i r.1 m.2.
Proof.
  induction l as [|r' l IH]; intros r m [Hr Hl]%Forall_cons Ha Hm.
  - injection Hm as <-. split; [done|]. cbn [List.filter]. unfold inside_range. by destruct (covers i r) eqn:E; unfold covers in E; rewrite E.
  - change (adjacent (r :: r' :: l)) with ((r.2 =? r'.1) && adjacent (r' :: l)) in Ha.
    apply andb_true_iff in Ha as [E%Z.eqb_eq Ha]. change (last (r :: r' :: l)) with (last (r' :: l)) in Hm.
    destruct (IH r' m Hl Ha Hm) as [Hle Hc]. split; [lia|].
    change (List.filter (covers i) (r :: r' :: l))
      with (if covers i r then r :: List.filter (covers i) (r' :: l) else List.filter (covers i) (r' :: l)).
    unfold covers at 1. unfold inside_range in *. destruct (Z.leb_spec r.1 i), (Z.ltb_spec i r.2), (Z.leb_spec r'.1 i), (Z.ltb_spec i m.2);
      cbn [andb length] in *; rewrite ?Hc; lia.
Qed.

(** The ranges cover each row below [m] once, and no other. *)
Definition tiles (m : Z) (ranges : list (Z * Z)) : Prop :=
  ∀ i, length (List.filter (covers i) ranges) = inside_range i 0 m.

Lemma filter_perm {A} (f : A → bool) (l k : list A) : l ≡ₚ k → List.filter f l ≡ₚ List.filter f k.
Proof.
  induction 1 as [|x l k _ IH|x y l|l k k' _ IH1 _ IH2]; cbn; [done| | |by etrans].
  - destruct (f x); [by constructor|done].
  - destruct (f x), (f y); try done. apply Permutation_swap.
Qed.

Lemma sorted_tiles m l : Forall (fun r => r.1 <= r.2) l →
  match head (merge_sort range_le l) with Some r => r.1 =? 0 | None => false end = true →
  match last (merge_sort range_le l) with Some r => r.2 =? m | None => false end = true →
  adjacent (merge_sort range_le l) = true → tiles m l.
Proof.
  intros Hl Hh Hm Ha i. pose proof (merge_sort_Permutation range_le l) as Hp.
  rewrite <-(Permutation_length (filter_perm _ _ _ Hp)). rewrite <-Hp in Hl.
  destruct (merge_sort range_le l) as [|r k]; [done|]. destruct (last (r :: k)) as [e|] eqn:E; [|done].
  cbn [head] in Hh. apply Z.eqb_eq in Hh, Hm. destruct (adjacent_covers i k r e Hl Ha E) as [_ ->]. by rewrite Hh, Hm.
Qed.

Section LifecycleBuild.
Context `{Host}.

(** ** The works *)

Record works_of (results : list record) (w : Works) : Prop := {
  wo_rows : (work_rows w).*2 = results;
  wo_distinct : NoDup (work_rows w).*1;
  wo_work : ∀ id row, (id, row) ∈ work_rows w → integer row "work_id" = Ok id;
  wo_calls : ∃ calls, map_res (fun row => integer row "call_id") results = Ok calls ∧ NoDup (map dec calls) ∧
    call_slots w = map (fun call => (dec call, JNull)) calls;
  wo_submitted : submitted w = map npu_id (work_rows w).*1;
}.

Lemma map_res_snoc {A B} (f : A → res B) l k x y : map_res f l = Ok k → f x = Ok y → map_res f (l ++ [x]) = Ok (k ++ [y]).
Proof. rewrite !map_res_Ok. intros Hl Hx. by apply Forall2_app; [|constructor]. Qed.

Lemma collect_works_ok admission pipelined results w :
  collect_works admission pipelined results = Ok w → works_of results w.
Proof.
  apply (fold_res_hist (fun pre w => works_of pre w)).
  { split; try done; [constructor|by intros ? ? ?%not_elem_of_nil|]. exists []. split; [done|]. split; [constructor|done]. }
  intros pre row post w1 w2 _ [Hr Hd Hw (calls & Hc & Hcd & Hs) Hsub] Ha. unfold add_work in Ha.
  do 3 (apply bind_Ok in Ha as (? & _ & Ha)). apply bind_Ok in Ha as (call & Hcall & Ha). cbv zeta in Ha.
  apply check_bind in Ha as [Hf%negb_true_iff Ha]. apply bind_Ok in Ha as (id & Hid & Ha).
  apply check_bind in Ha as [Hg%negb_true_iff <-%Ok_eq].
  assert (Hfresh : id ∉ (work_rows w1).*1).
  { intros Hin%(amem_spec _ Z.eqb_eq). congruence. }
  assert (Hfresh' : dec call ∉ map dec calls).
  { rewrite has_keys in Hf. intros Hin. apply not_true_iff_false in Hf. apply Hf, str_in_spec. rewrite Hs. unfold keys.
    by rewrite <-list_fmap_compose. }
  split; cbn [work_rows call_slots submitted]; rewrite ?(aset_fresh _ _ _ _ Hg), ?fmap_app.
  - by rewrite Hr.
  - apply NoDup_app. split; [done|]. split; [|apply NoDup_singleton]. by intros y Hy ->%list_elem_of_singleton.
  - intros id' row' [Hin|[= -> ->]%list_elem_of_singleton]%elem_of_app; [by apply Hw|done].
  - exists (calls ++ [call]). split; [by apply map_res_snoc|]. rewrite !List.map_app. split.
    + apply NoDup_app. split; [done|]. split; [|apply NoDup_singleton]. by intros y Hy ->%list_elem_of_singleton.
    + by rewrite sset_fresh, Hs.
  - by rewrite Hsub.
Qed.

(** [works_of_scope] selects the results among the listed works. *)
Lemma works_of_scope_ok works ids scope found : works_of_scope works ids scope = Ok found →
  ∀ id row, (id, row) ∈ found ↔ id ∈ ids ∧ zget id works = Some row ∧ pget row "scope" = JStr scope.
Proof.
  unfold works_of_scope. intros Hf. apply bind_Ok in Hf as (tagged & Ht%map_res_Ok & <-%Ok_eq).
  induction Ht as [|id t ids tagged Hid _ IH]; intros id' row'.
  { cbn. split; [by intros ?%not_elem_of_nil|]. by intros [?%not_elem_of_nil _]. }
  rewrite elem_of_cons. destruct (zget id works) as [row|] eqn:E.
  - apply bind_Ok in Hid as (v & Hv%pget_item & <-%Ok_eq). cbn [List.filter fst].
    destruct (eq_str v scope) eqn:Es; cbn [fmap list_fmap]; rewrite ?elem_of_cons, IH.
    + apply eq_str_spec in Es as ->. split.
      * intros [[= -> ->]|?]; [|tauto]. split; [by left|done].
      * intros ([-> | Hin] & Hg & Hs); [|by right]. rewrite E in Hg. injection Hg as <-. by left.
    + split; [tauto|]. intros ([-> | Hin] & Hg & Hs); [|done]. rewrite E in Hg. injection Hg as <-.
      rewrite Hv in Hs. subst v. by rewrite (proj2 (eq_str_spec _ _)) in Es.
  - apply Ok_eq in Hid as <-. cbn [List.filter fst]. rewrite IH. split; [tauto|].
    intros ([-> | Hin] & Hg & Hs); [|done]. congruence.
Qed.
(** ** The parents *)

(** The works a parent requires, each once. *)
Definition required (parent : record) : list Z :=
  match pget parent "required_work_ids" with JArr l => remove_dups (identities l) | _ => [] end.
Definition requires (parent row : record) : bool :=
  match integer row "work_id" with Ok id => z_in id (required parent) | Err _ => false end.
(** The stripes of a parent among the results of a run. *)
Definition stripes_of (results : list record) (parent : record) : list record :=
  List.filter (fun row => requires parent row && is_stripe row) results.

Record parent_tiled (results : list record) (parent : record) : Prop := {
  ti_rows : ∃ ranges m, map_res row_range (stripes_of results parent) = Ok ranges ∧
    integer parent "parent_m" = Ok m ∧ tiles m ranges;
  ti_same : Forall (fun row => same_parent parent row = Ok true) (stripes_of results parent);
  ti_works : ∀ id, id ∈ required parent → ∃ row, row ∈ results ∧ integer row "work_id" = Ok id;
}.

Lemma scoped_stripes results w parent found : works_of results w →
  works_of_scope (work_rows w) (required parent) "stripe" = Ok found → found.*2 ≡ₚ stripes_of results parent.
Proof.
  intros [Hr Hd Hw _ _] Hf. pose proof (works_of_scope_ok _ _ _ _ Hf) as Hin.
  set (picked := List.filter (fun iw : Z * record => z_in iw.1 (required parent) && is_stripe iw.2) (work_rows w)).
  assert (Hp : picked.*2 = stripes_of results parent).
  { unfold picked, stripes_of. rewrite <-Hr. clear -Hw. induction (work_rows w) as [|[id row] l IH]; [done|].
    cbn [List.filter fmap list_fmap fst snd]. unfold requires at 1. rewrite (Hw id row) by constructor.
    rewrite <-IH by (intros i r ?; apply Hw; by constructor). by destruct (_ && _). }
  rewrite <-Hp. apply fmap_Permutation, NoDup_Permutation.
  - apply (NoDup_fmap_1 fst). unfold works_of_scope in Hf. apply bind_Ok in Hf as (tagged & Ht%map_res_Ok & <-%Ok_eq).
    pose proof (NoDup_remove_dups (match pget parent "required_work_ids" with JArr l => identities l | _ => [] end)) as Hnd.
    assert (Hids : tagged.*2.*1 = required parent).
    { clear -Ht. induction Ht as [|id t ids tagged Hid _ IH]; [done|]. cbn. f_equal; [|done].
      destruct (zget id (work_rows w)); [|by apply Ok_eq in Hid as <-]. by apply bind_Ok in Hid as (? & _ & <-%Ok_eq). }
    assert (Hreq : NoDup tagged.*2.*1).
    { rewrite Hids. unfold required. destruct (pget parent "required_work_ids"); first [constructor|apply NoDup_remove_dups]. }
    clear -Hreq. induction tagged as [|[b [id row]] l IH]; [constructor|]. cbn in Hreq.
    apply NoDup_cons in Hreq as [Hn Hd]. destruct b; [|by apply IH]. cbn. apply NoDup_cons. split; [|by apply IH].
    intros Hx. apply Hn. clear -Hx. induction l as [|[[] [id' row']] l IH]; cbn in *; [done| |].
    + apply elem_of_cons in Hx as [-> | Hx]; [by left|right; by apply IH].
    + right. by apply IH.
  - apply (NoDup_fmap_1 fst). by apply filter_keys_NoDup.
  - intros [id row]. rewrite Hin. unfold picked. rewrite (list_elem_of_In (List.filter _ _)), filter_In, <-list_elem_of_In. cbn [fst snd].
    rewrite andb_true_iff, z_in_spec. unfold is_stripe. rewrite eq_str_spec. split.
    + intros (Hi & Hg & Hs). split; [by apply (aget_In _ Z.eqb_eq) in Hg|done].
    + intros (Hi & Hq & Hs). split; [done|]. split; [|done]. by apply (In_aget _ Z.eqb_eq).
Qed.

Lemma map_res_perm {A B} (f : A → res B) l k ys : l ≡ₚ k → map_res f l = Ok ys → ∃ zs, map_res f k = Ok zs ∧ ys ≡ₚ zs.
Proof.
  intros Hp Hy%map_res_Ok. destruct (Permutation_Forall2 Hp Hy) as (zs & ? & ?).
  exists zs. by rewrite map_res_Ok.
Qed.

Lemma row_range_le row r : row_range row = Ok r → r.1 <= r.2.
Proof.
  unfold row_range. intros Hr. apply bind_Ok in Hr as (b & _ & Hr). apply bind_Ok in Hr as (c & Hc & <-%Ok_eq).
  apply integer_bounds in Hc. cbn. lia.
Qed.

Lemma tiles_perm m l k : l ≡ₚ k → tiles m l → tiles m k.
Proof. intros Hp Ht i. rewrite <-(Permutation_length (filter_perm (covers i) _ _ Hp)). apply Ht. Qed.

Lemma map_res_map {A B C} (g : A → B) (f : B → res C) l : map_res (fun x => f (g x)) l = map_res f (map g l).
Proof. induction l as [|x l IH]; [done|]. cbn. by rewrite IH. Qed.

(** One parent: its works are new, its stripes tile its rows. *)
Lemma parent_works_ok results w declared parent declared' : works_of results w →
  check_parent_works (work_rows w) declared parent = Ok declared' →
  declared' = declared ++ required parent ∧ (∀ id, id ∈ required parent → id ∉ declared) ∧
  (∃ ranges m, map_res row_range (stripes_of results parent) = Ok ranges ∧ integer parent "parent_m" = Ok m ∧ tiles m ranges) ∧
  Forall (fun row => same_parent parent row = Ok true) (stripes_of results parent).
Proof.
  intros Hw Hc. unfold check_parent_works in Hc. apply bind_Ok in Hc as (v & Hv%pget_item & Hc).
  apply bind_Ok in Hc as (raw & Hraw%array_Ok & Hc). subst v. apply check_bind in Hc as [_ Hc]. cbv zeta in Hc.
  assert (Hreq : required parent = remove_dups (identities raw)) by (unfold required; by rewrite Hraw). rewrite <-Hreq in Hc.
  apply check_bind in Hc as [Hnew%negb_true_iff Hc]. apply bind_Ok in Hc as (dense & Hd & Hc).
  pose proof (scoped_stripes _ _ _ _ Hw Hd) as Hp.
  apply bind_Ok in Hc as ([] & [_ Hsame%all_res_Ok_true]%require_m_Ok%and_then_Ok_true & Hc).
  apply bind_Ok in Hc as (unsorted & Hu & Hc). rewrite (map_res_map snd) in Hu. cbv zeta in Hc.
  apply bind_Ok in Hc as ([] & Ht%require_m_Ok & Hc).
  apply and_then_Ok_true in Ht as [Hh Ht]. apply and_then_Ok_true in Ht as [(m & Hm & Hl)%int_test_Ok Ha].
  apply Ok_eq in Hh, Ha. do 6 (apply bind_Ok in Hc as (? & _ & Hc)). apply Ok_eq in Hc as <-.
  split; [done|]. split_and!.
  - intros id Hid Hold. apply not_true_iff_false in Hnew. apply Hnew, existsb_exists. exists id.
    by rewrite <-list_elem_of_In, z_in_spec.
  - destruct (map_res_perm row_range _ _ _ Hp Hu) as (ranges & Hr & Hpr). exists ranges, m. split; [done|]. split; [done|].
    apply (tiles_perm _ _ _ Hpr), sorted_tiles; [|done..]. apply map_res_Ok in Hu.
    eapply Forall2_Forall_r; [exact Hu|]. apply Forall_true. intros row r. apply row_range_le.
  - rewrite <-Hp. by apply Forall_fmap.
Qed.

(** ** All the parents *)

Lemma one_owner {A} (f : A → list Z) id l : NoDup (concat (map f l)) → id ∈ concat (map f l) →
  length (List.filter (fun x => z_in id (f x)) l) = 1%nat.
Proof.
  induction l as [|x l IH]; cbn; [by intros _ ?%not_elem_of_nil|]. intros (_ & Hd & Hl)%NoDup_app [Hx|Hin]%elem_of_app.
  - rewrite (proj2 (z_in_spec _ _)) by done. cbn. f_equal. destruct (List.filter _ l) as [|y k] eqn:E; [done|].
    assert (Hy : y ∈ List.filter (fun x => z_in id (f x)) l) by (rewrite E; by left).
    apply list_elem_of_In, filter_In in Hy as [Hy%list_elem_of_In Hz%z_in_spec]. destruct (Hd id Hx).
    apply list_elem_of_In, in_concat. exists (f y). split; [|by apply list_elem_of_In]. apply in_map. by apply list_elem_of_In.
  - destruct (z_in id (f x)) eqn:E; [|by apply IH]. apply z_in_spec in E. by destruct (Hd id E).
Qed.

Lemma check_parents_ok results w p : works_of results w → check_parents p (work_rows w) = Ok tt →
  Forall (parent_tiled results) (pipeline_parents p) ∧
  (∀ row, row ∈ results → length (List.filter (fun parent => requires parent row) (pipeline_parents p)) = 1%nat) ∧
  pipeline_owners p ≠ [].
Proof.
  intros Hw Hc. unfold check_parents in Hc. apply bind_Ok in Hc as (declared & Hd & Hc).
  apply check_bind in Hc as [Hset Ho%check_Ok_any]. rewrite set_eq_spec in Hset.
  assert (Hall : declared = concat (map required (pipeline_parents p)) ∧ NoDup declared ∧ Forall (fun parent =>
    (∃ ranges m, map_res row_range (stripes_of results parent) = Ok ranges ∧ integer parent "parent_m" = Ok m ∧ tiles m ranges) ∧
    Forall (fun row => same_parent parent row = Ok true) (stripes_of results parent)) (pipeline_parents p)).
  { revert Hd. apply (fold_res_hist (fun pre d => d = concat (map required pre) ∧ NoDup d ∧ Forall _ pre)).
    { split; [done|]. split; [constructor|done]. }
    intros pre parent post d1 d2 _ (-> & Hnd & Hf) (-> & Hnew & Ht & Hs)%(parent_works_ok _ _ _ _ _ Hw).
    rewrite List.map_app, concat_app. cbn. rewrite app_nil_r. split; [done|]. split; [|rewrite Forall_app, Forall_singleton; tauto].
    apply NoDup_app. split; [done|]. split; [intros id Hold Hin; by apply (Hnew id)|].
    unfold required. destruct (pget parent "required_work_ids"); first [constructor|apply NoDup_remove_dups]. }
  destruct Hall as (-> & Hnd & Hall). pose proof Hw as [Hr _ Hid _ _]. split_and!.
  - apply Forall_forall. intros parent Hp. rewrite Forall_forall in Hall. destruct (Hall parent Hp) as [Ht Hs]. split; [exact Ht|exact Hs|].
    intros id Hin. assert (Hk : id ∈ (work_rows w).*1).
    { apply Hset, list_elem_of_In, in_concat. exists (required parent). split; [|by apply list_elem_of_In].
      apply in_map. by apply list_elem_of_In. }
    apply list_elem_of_fmap in Hk as ([id' row] & -> & Hk). exists row. split; [|by apply Hid].
    rewrite <-Hr. by apply (list_elem_of_fmap_2 snd) in Hk.
  - intros row Hrow. rewrite <-Hr in Hrow. apply list_elem_of_fmap in Hrow as ([id r] & -> & Hin). cbn.
    rewrite <-(one_owner required id (pipeline_parents p) Hnd).
    + unfold requires. by rewrite (Hid _ _ Hin).
    + apply Hset. by apply (list_elem_of_fmap_2 fst) in Hin.
  - by destruct (pipeline_owners p).
Qed.

(** ** The contract *)

Lemma receipt_digest receipt : validate_receipt receipt = Ok tt →
  pget receipt "sha256" = JStr (Profiles.Contract.contract_digest receipt) ∧
  ∀ built, pget receipt "project_artifacts" = JObj built → forallb (fun kv => is_hash kv.2) built = true.
Proof.
  unfold validate_receipt. intros Hr. apply check_bind in Hr as [_ Hr]. apply check_bind in Hr as [_ Hr].
  apply check_bind in Hr as [Hs%eq_str_spec Hr]. apply check_bind in Hr as [_ Hr]. apply bind_Ok in Hr as (? & _ & Hr).
  apply check_bind in Hr as [_ Hr]. apply check_bind in Hr as [_ Hr]. apply iter_bind in Hr as [Hall _]. split; [done|].
  intros built Hb. rewrite !Forall_cons in Hall. destruct Hall as (_ & _ & _ & Hp & _). unfold receipt_binding in Hp.
  rewrite Hb in Hp. apply bind_Ok in Hp as (? & <-%Ok_eq & Hp%check_Ok_any). by apply andb_true_iff in Hp as [_ ?].
Qed.

Lemma hash_eq v w : is_hash v = true → jeq v w = true → w = v.
Proof. destruct v; try done. intros _ Hj. destruct w; try done. cbn in Hj. by apply String.eqb_eq in Hj as ->. Qed.

Lemma check_producer_ok files receipt inputs : check_producer files = Ok (receipt, inputs) →
  pget receipt "sha256" = JStr (Profiles.Contract.contract_digest receipt) ∧ is_hash (pget (provenance files) "executable_sha256") = true.
Proof.
  unfold check_producer. intros Hc. apply check_bind in Hc as [_ Hc]. apply bind_Ok in Hc as (? & _ & Hc).
  apply bind_Ok in Hc as (r & _ & Hc). apply bind_Ok in Hc as ([] & [Hs Hh]%receipt_digest & Hc).
  apply bind_Ok in Hc as (v & Hv%pget_item & Hc). apply bind_Ok in Hc as (built & ->%object_value_Ok & Hc).
  apply bind_Ok in Hc as ([] & Hsame%require_m_Ok & Hc). specialize (Hh built Hv).
  do 6 (apply bind_Ok in Hc as (? & _ & Hc)). apply Ok_eq, pair_eq in Hc as [<- _]. split; [done|].
  unfold item_same in Hsame. apply bind_Ok in Hsame as (a & Ha%item_Ok & Hsame). apply bind_Ok in Hsame as (b & Hb%pget_item & Hj%Ok_eq).
  rewrite Hb. rewrite forallb_forall in Hh. apply (aget_In _ String.eqb_eq), list_elem_of_In, Hh in Ha. by rewrite (hash_eq a b).
Qed.

(** What [build] checked and returned. *)
Record built (files : LifecycleFiles) (scenario : CpuScenario) (contract : record) (graph : Manifest) (p : LifecycleProjection)
    (pipelined : bool) (w : Works) : Prop := {
  bt_graph : read_manifest (semantic_graph files) = Ok graph;
  bt_projection : project_lifecycle graph (sidecar files) = Ok p;
  bt_pipelined : is_pipelined (sidecar files) = Ok pipelined;
  bt_works : works_of (npu_results files) w;
  bt_parents : pipelined = true → pipeline_parents p ≠ [] ∧ check_parents p (work_rows w) = Ok tt;
  bt_contract : ∃ executable receipt, is_hash executable = true ∧ contract =
    contract_record files scenario p pipelined w executable (JStr (Profiles.Contract.contract_digest receipt));
}.

Lemma build_ok files scenario admission contract : build files scenario admission = Ok contract →
  ∃ graph p pipelined w, built files scenario contract graph p pipelined w.
Proof.
  unfold build. intros Hb. apply bind_Ok in Hb as ([receipt inputs] & [Hs Hx]%check_producer_ok & Hb). cbn [fst snd] in Hb.
  apply bind_Ok in Hb as (? & _ & Hb). apply bind_Ok in Hb as (graph & Hg & Hb). apply bind_Ok in Hb as (? & _ & Hb).
  apply bind_Ok in Hb as (p & Hp & Hb). apply bind_Ok in Hb as (pipelined & Hi & Hb).
  apply check_bind in Hb as [Hne Hb]. do 2 (apply bind_Ok in Hb as (? & _ & Hb)).
  apply bind_Ok in Hb as (w & Hw%collect_works_ok & Hb). apply bind_Ok in Hb as ([] & Hc & Hb).
  apply bind_Ok in Hb as (e & He%pget_item & Hb). apply bind_Ok in Hb as (d & Hd%pget_item & <-%Ok_eq).
  exists graph, p, pipelined, w. split; try done.
  - intros ->. split; [|done]. intros E. by rewrite E in Hne.
  - exists e, receipt. rewrite He in Hx. split; [done|]. by rewrite <-Hd, Hs.
Qed.

(** The digests of the files are SHA-256 texts. *)
Definition hex_files (files : LifecycleFiles) : Prop :=
  Forall (fun s => is_hex 64 s = true)
    [sidecar_sha256 files; semantic_graph_sha256 files; provenance_sha256 files; join_summary_sha256 files].

Lemma built_valid files scenario contract graph p pipelined w : built files scenario contract graph p pipelined w →
  (∀ s, is_hex 64 (sha256_hex s) = true) → hex_files files → validate_lifecycle_contract contract = Ok tt.
Proof.
  intros [_ _ _ _ _ (e & receipt & He & ->)] Hsha Hhex. unfold hex_files in Hhex. rewrite !Forall_cons in Hhex.
  destruct Hhex as (H1 & H2 & H3 & H4 & _). destruct e as [| | | |e| |]; try done. change (is_hex 64 e = true) in He.
  unfold validate_lifecycle_contract. destruct pipelined; cbn -[is_hex Profiles.Contract.contract_digest]; unfold is_sha256;
    rewrite H1, H2, H3, H4, He; cbn -[is_hex Profiles.Contract.contract_digest]; unfold Profiles.Contract.contract_digest; by rewrite Hsha.
Qed.

Lemma built_carries files scenario contract graph p pipelined w : built files scenario contract graph p pipelined w → carries contract p.
Proof. intros [_ _ _ _ _ (e & receipt & _ & ->)]. by split. Qed.

End LifecycleBuild.

(** ** The theorems *)

(** C11: A contract that [build] returns is accepted by the adapters' own check,
    carries the barriers and entry dependencies of the projected lifecycle, and
    names every result once: its calls, without repetition, each without a slot,
    and its works, without repetition, submitted in the order of the results. *)
Theorem contract_built `{Host} files scenario admission contract :
  (∀ s, is_hex 64 (sha256_hex s) = true) → hex_files files → build files scenario admission = Ok contract →
  validate_lifecycle_contract contract = Ok tt ∧
  ∃ graph p calls works, read_manifest (semantic_graph files) = Ok graph ∧ project_lifecycle graph (sidecar files) = Ok p ∧
    carries contract p ∧
    map_res (fun row => integer row "call_id") (npu_results files) = Ok calls ∧ NoDup (map dec calls) ∧
    pget contract "call_slots" = JObj (map (fun call => (dec call, JNull)) calls) ∧
    map_res (fun row => integer row "work_id") (npu_results files) = Ok works ∧ NoDup works ∧
    pget contract "submission_order" = JArr (map JStr (map npu_id works)).
Proof.
  intros Hsha Hhex (graph & p & pipelined & w & Hb)%build_ok. split; [by eapply built_valid|].
  pose proof (built_carries _ _ _ _ _ _ _ Hb) as Hcar. destruct Hb as [Hg Hp _ [Hr Hd Hw (calls & Hc & Hcd & Hs) Hsub] _ (e & receipt & _ & ->)].
  exists graph, p, calls, (work_rows w).*1. split_and!; try done.
  - cbn. by rewrite Hs.
  - rewrite <-Hr. apply map_res_Ok, Forall2_fmap. clear -Hw. induction (work_rows w) as [|[id row] l IH]; constructor; cbn.
    + apply Hw. by left.
    + apply IH. intros i r ?. apply Hw. by right.
  - cbn. by rewrite Hsub.
Qed.

(** C10: In a pipelined run that [build] accepts, the stripes of every declared
    parent cover each of its rows exactly once and no other row, they carry the
    parent's identity, operation and phase, every work a parent requires has a
    result, and every result is required by exactly one parent. *)
Theorem parents_tile `{Host} files scenario admission contract :
  build files scenario admission = Ok contract → is_pipelined (sidecar files) = Ok true →
  ∃ graph p, read_manifest (semantic_graph files) = Ok graph ∧ project_lifecycle graph (sidecar files) = Ok p ∧
    pipeline_parents p ≠ [] ∧ Forall (parent_tiled (npu_results files)) (pipeline_parents p) ∧
    ∀ row, row ∈ npu_results files → length (List.filter (fun parent => requires parent row) (pipeline_parents p)) = 1%nat.
Proof.
  intros (graph & p & pipelined & w & [Hg Hp Hi Hw Hc _])%build_ok Hpipe. rewrite Hpipe in Hi. apply Ok_eq in Hi as <-.
  destruct (Hc eq_refl) as [Hne Hparents]. destruct (check_parents_ok _ _ _ Hw Hparents) as (Ht & Hone & _). by exists graph, p.
Qed.

(** C9: Every timeline of the graph adapted from a built contract, with or
    without an application, runs the graphs as the recorded program did: all
    nodes of the operations of a graph are complete before any node of an
    operation of a later graph starts, provided that no graph is empty. *)
Theorem graphs_in_order `{Host} files scenario built_admission lifecycle digests rows results application admission ir services c l :
  build files scenario built_admission = Ok lifecycle →
  adapt digests lifecycle rows results application admission = Ok (ir, services) →
  timeline c (nodes ir) l → map scheduled_identity l ≡ₚ map identity (nodes ir) →
  ∃ graph names, read_manifest (semantic_graph files) = Ok graph ∧ graph_operations graph = Ok names ∧
    ((∀ g, g ∈ graphs graph → pget g "nodes" ≠ JArr []) →
     ∀ i j early late n n', (i < j)%nat → names !! i = Some early → names !! j = Some late →
      n ∈ nodes ir → operation n ∈ early → n' ∈ nodes ir → operation n' ∈ late →
      (ready_of l (identity n) <= start_of l (identity n'))%Qc).
Proof.
  intros (graph & p & pipelined & w & Hb)%build_ok Ha Htl Hperm. pose proof (built_carries _ _ _ _ _ _ _ Hb) as Hcar.
  destruct Hb as [Hg Hp _ _ _ _]. destruct (project_lifecycle_ok _ _ _ Hp) as (names & s & Hacc).
  exists graph, names. split; [done|]. split; [by eapply ac_names|]. intros Hfull.
  destruct (carried_in_order _ _ _ _ _ _ _ _ _ _ _ _ _ Hp Hcar Hfull Ha Htl Hperm) as (names' & Hn & Hall).
  unfold graph_operations in Hn. rewrite (ac_names _ _ _ _ _ Hacc) in Hn. by apply Ok_eq in Hn as <-.
Qed.

