(* ===== verification/PipelineSample.v ===== *)
(** * A sample pipelined dataset

    Three stripes of one parent through two workspace slots: the lifecycle
    contract, the rows of the dataset and the NPU results, adapted and
    scheduled over the phase table of ScheduleSample.  The theorems on the
    pipeline and the adapter are applied to them. *)
From S2P Require Import Prelude Records Rational ExecutionIR Services Sequence Admission Provider.
From S2P Require Import Scheduler SchedulerTheorems ScheduleSample PipelineContract Pipeline PipelineEdges.
From S2P Require Import PipelineTheorems Adapter AdapterTheorems AdapterPipeline Application ApplicationTheorems ExecutionIR.
Set Default Goal Selector "!".

#[local] Existing Instance text_host.

(** ** NPU results *)

Definition shared_fields : record :=
  [("phase_id", JInt 0); ("operation_id", JInt 3); ("parent_m", JInt 12); ("n", JInt 32); ("k", JInt 32);
   ("dim", JInt 32); ("activation_bits", JInt 8); ("weight_bits", JInt 8); ("production_geometry_version", JInt 1);
   ("tile_j_count", JInt 1); ("tile_k_count", JInt 1)].

Definition stripe_result (s : Z) : record :=
  shared_fields ++
  [("schema", JStr "im2p-npu-cycle-result"); ("cycle_model_validation", JStr "CURRENT_CERTIFIED");
   ("run_view_sha256", JStr "r0"); ("profile", JStr "p"); ("scope", JStr "stripe"); ("parent_id", JInt 7);
   ("work_id", JInt s); ("call_id", JInt s); ("stripe_id", JInt s); ("m", JInt 4); ("row_count", JInt 4);
   ("row_begin", JInt (4 * s)); ("tile_i_count", JInt 1); ("host_slot", JInt (s mod 2))].

Definition sample_results : list record := map stripe_result [0; 1; 2].

(** ** Lifecycle contract *)

Definition sample_parent : record :=
  shared_fields ++
  [("parent_id", JInt 7); ("required_work_ids", JArr [JInt 0; JInt 1; JInt 2]); ("fence_call_id", JInt 9);
   ("fence_required_work_ids", JArr [JInt 0; JInt 1; JInt 2]); ("scope", JStr "STREAM"); ("tile_i_count", JInt 1);
   ("residual_bindings", JArr [])].

Definition sample_owner (sequence s : Z) (e : Event) : record :=
  let works := if event_in e COMPLETION_EVENTS then [JInt s] else [] in
  [("producer_sequence", JInt sequence); ("phase_id", JInt 0); ("operation_id", JInt 3); ("parent_id", JInt 7);
   ("work_id", JInt s); ("producer_run_id", JInt 1); ("stripe_id", JInt s); ("workspace_slot", JInt (s mod 2));
   ("target_npu_slot", JNull); ("row_begin", JInt (4 * s)); ("row_end", JInt (4 * s + 4));
   ("resource", JStr e.1); ("transition", JStr e.2); ("required_work_ids", JArr works);
   ("required_call_ids", JArr []); ("observed_call_id", JNull); ("rmd_packet", JBool false);
   ("direct_residual", JBool false); ("source_owner", JStr "IM2P.sim"); ("source_location", JStr "pipeline.cpp:1")].

Definition sample_owners : list json :=
  map (fun ne => let '(i, (s, e)) := ne in JObj (sample_owner (Z.of_nat i) s e))
    (enumerate (flat_map (fun s => map (fun e => (s, e)) REQUIRED_EVENTS) [0; 1; 2])).

Definition sample_lifecycle : record :=
  [("schema", JStr "im2p-execution-lifecycle"); ("version", JInt 2); ("source_kind", JStr "SYNTHETIC");
   ("dataset_sha256", JStr "d"); ("npu_results_sha256", JStr "n"); ("operation_exit_policy", JStr "ALL_MEMBER_COMPLETIONS");
   ("publish_policy", JStr "NONBLOCKING_SUBMISSION"); ("slot_release_policy", JStr "NPU_RESOURCE_READY");
   ("phase_graph_policy", JStr "EXPLICIT_EDGES"); ("entry_dependencies", JObj [("op", JArr [])]); ("barriers", JArr []);
   ("call_slots", JObj [("0", JNull); ("1", JNull); ("2", JNull)]);
   ("submission_order", JArr [JStr "npu:0"; JStr "npu:1"; JStr "npu:2"]); ("cpu_policy", JStr "HOST_ELAPSED_NS_GANG");
   ("worker_resources", JObj [("FULL_CPU:0", JStr "cpu:0")]); ("pipeline_parents", JArr [JObj sample_parent]);
   ("pipeline_owners", JArr sample_owners)].

(** ** Rows of the dataset *)

Definition call_row (call : Z) (kind stage : string) (deps : list string) : record :=
  [("node_id", JStr (call_id call stage)); ("kind", JStr "CALL_BOUNDARY"); ("call_id", JInt call); ("call_kind", JStr kind);
   ("stage", JStr stage); ("operation_node_id", JStr "op"); ("dependencies", JArr (map JStr deps))].

Definition npu_row (work : Z) : record :=
  [("node_id", JStr (npu_id work)); ("kind", JStr "SERVICE"); ("node_class", JStr "TARGET_NPU");
   ("operation_node_id", JStr "op"); ("dependencies", JArr [JStr (call_id work "INVOKE")])].

Definition cpu_sample_row : record :=
  [("node_id", JStr "cpu:a"); ("kind", JStr "SERVICE"); ("node_class", JStr "ORDINARY_CPU"); ("operation_node_id", JStr "op");
   ("dependencies", JArr []); ("duration_source", JStr "FULL_CPU");
   ("duration", JObj [("worker_intervals", JArr [JObj [("worker_id", JInt 0); ("host_elapsed_ns", JInt 40);
      ("host_elapsed_valid", JBool true)]])])].

Definition stripe_rows (s : Z) : list record :=
  [call_row s "STRIPE" "PREPARE" []; call_row s "STRIPE" "INVOKE" [call_id s "PREPARE"]; npu_row s;
   call_row s "STRIPE" "PUBLISH" [call_id s "INVOKE"; npu_id s]].

Definition sample_rows : list record :=
  [[("node_id", JStr "op"); ("kind", JStr "OPERATION_CONTAINER"); ("phase", JStr "ph"); ("dependencies", JArr [])];
   cpu_sample_row] ++
  flat_map stripe_rows [0; 1; 2] ++ [call_row 9 "FENCE" "COMPLETE_REQUIRED" [npu_id 0; npu_id 1; npu_id 2]].

Abbreviation sample_adapted := (adapt_records sample_rows sample_lifecycle sample_results certified_results).

Example sample_adapted_size :
  (match sample_adapted with
   | Ok (i, s) => (length (nodes i), length (cpu s), length (npu s))
   | Err _ => (0, 0, 0)
   end = (46, 1, 3))%nat.
Proof. vm_compute. reflexivity. Qed.

(** ** The theorems on the sample *)

Definition sample_named : list (string * record) := map (fun s => (npu_id s, stripe_result s)) [0; 1; 2].
Definition sample_indexed : list (string * record) :=
  map (fun row => (match pget row "node_id" with JStr s => s | _ => "" end, row)) sample_rows.

Abbreviation sample_projection := (project_pipeline sample_lifecycle sample_indexed sample_named).

Example sample_projects :
  match sample_projection with Ok q => Nat.eqb (length (owner_nodes q)) 30 | Err _ => false end = true.
Proof. vm_compute. reflexivity. Qed.
Example sample_parses :
  match parse_pipeline sample_lifecycle sample_named with Ok proof => bool_decide ((parents proof).*1 = [7]) | Err _ => false end = true.
Proof. vm_compute. reflexivity. Qed.

Lemma pipeline_works_released_witness : ∃ q proof parent works, sample_projection = Ok q ∧
  parse_pipeline sample_lifecycle sample_named = Ok proof ∧ (7, parent) ∈ parents proof ∧
  required_ids parent "required_work_ids" = Ok works ∧
  ∀ w, w ∈ works →
    ∃ c, pget parent "fence_call_id" = JInt c ∧ projected_edge q (call_id c "COMPLETE_REQUIRED") (npu_id w).
Proof.
  pose proof sample_projects as Hs. destruct sample_projection as [q|] eqn:Eq; [|discriminate Hs]. clear Hs.
  apply pipeline_works_released in Eq as Hreleased. destruct Hreleased as (proof & Hproof & Hall).
  pose proof sample_parses as Hp. rewrite Hproof in Hp. apply bool_decide_eq_true in Hp.
  assert (Hparent : ∃ parent, (7, parent) ∈ parents proof).
  { clear -Hp. destruct (parents proof) as [|[p parent] l]; [discriminate Hp|]. injection Hp as -> _. exists parent. by constructor. }
  destruct Hparent as [parent Hin].
  destruct (Hall 7 parent Hin) as (rows & m & works & reqss & c & _ & _ & _ & _ & Hw & _ & Hc & _ & _ & _ & _ & He).
  exists q, proof, parent, works. split; [reflexivity|]. split; [exact Hproof|]. split; [exact Hin|]. split; [exact Hw|].
  intros w Hin'. exists c. split; [exact Hc|exact (He w Hin')].
Defined.

Definition sample_dataset : ExecutionIR * Services :=
  match sample_adapted with
  | Ok p => p
  | Err _ => ({| nodes := []; scope := ""; source_sha256 := "" |}, {| cpu := []; npu := [] |})
  end.

Example sample_adapts_ok : is_ok sample_adapted = true.
Proof. vm_compute. reflexivity. Qed.
Lemma sample_adapts : sample_adapted = Ok (sample_dataset.1, sample_dataset.2).
Proof. pose proof sample_adapts_ok as Hs. unfold sample_dataset. destruct sample_adapted as [[i s]|]; [reflexivity|discriminate Hs]. Qed.

Definition pipeline_inputs : @ScheduleInputs sample_plain no_sequence := {|
  ir := sample_dataset.1; services := sample_dataset.2; npu_provider := @Plain sample_plain no_sequence tt |}.

Definition no_clock : string → string → res Z := fun _ _ => Err (ClockError "none").

(** *** With an application *)

Definition application_contract : record :=
  [("sha256", JStr "a"); ("sampler_policy", JStr "SINGLE_CALLING_THREAD"); ("resource", JStr "cpu:0");
   ("metric_policy", JStr "HOST_ELAPSED_NS_GANG"); ("expected_samples", JInt 1);
   ("steps", JArr [JObj [("sample_index", JInt 0); ("logits_ready", JArr [JStr "op"]); ("next_decode_entries", JArr [])]])].

Definition application_rows : list record :=
  [[("schema", JStr "potal-application-cpu"); ("version", JInt 1); ("source_role", JStr "potal_collection");
    ("stage", JStr "sample_accept"); ("sample_index", JInt 0); ("phase", JStr "prefill"); ("decode_index", JNull);
    ("thread_id", JInt 0); ("host_elapsed_ns", JInt 10); ("host_elapsed_valid", JBool true)]].

Definition application_lifecycle : record := sample_lifecycle ++ [("application", JObj application_contract)].
Definition sample_digests : Digests := {| dataset_digest := "d"; results_digest := "n"; application_digest := "a" |}.

Abbreviation application_adapted :=
  (adapt sample_digests application_lifecycle sample_rows sample_results (Some application_rows) certified_results).

Definition application_dataset : ExecutionIR * Services :=
  match application_adapted with Ok p => p | Err _ => sample_dataset end.

Example application_adapts_ok : is_ok application_adapted = true.
Proof. vm_compute. reflexivity. Qed.
Lemma application_adapts : application_adapted = Ok (application_dataset.1, application_dataset.2).
Proof.
  pose proof application_adapts_ok as Hs. unfold application_dataset.
  destruct application_adapted as [[i s]|]; [reflexivity|discriminate Hs].
Qed.

Definition application_inputs : @ScheduleInputs sample_plain no_sequence := {|
  ir := application_dataset.1; services := application_dataset.2; npu_provider := @Plain sample_plain no_sequence tt |}.

Lemma adapt_gate_witness :
  wf_ir (nodes (Scheduler.ir application_inputs)) ∧ valid_services (Scheduler.services application_inputs) ∧
  gate no_clock application_inputs sample_scenario =
    (validate_environment no_clock (scope (Scheduler.ir application_inputs)) (npu_provider application_inputs) sample_scenario ;;; Ok tt).
Proof.
  exact (adapt_gate sample_digests application_lifecycle sample_rows sample_results (Some application_rows) certified_results
    no_clock application_inputs sample_scenario application_adapts).
Defined.

(** *** The schedule of the sample *)

Abbreviation pipeline_schedule := (schedule no_clock [] pipeline_inputs sample_scenario).

Example pipeline_schedules : is_ok pipeline_schedule = true.
Proof. vm_compute. reflexivity. Qed.

Lemma stripe_chain s : s ∈ [0; 1; 2] → call_chain sample_rows s.
Proof.
  intros Hs.
  assert (Hin : ∀ row, row ∈ stripe_rows s → row ∈ sample_rows).
  { intros row Hrow. unfold sample_rows. rewrite !elem_of_app. right. left.
    apply list_elem_of_In, in_flat_map. exists s. split; by apply list_elem_of_In. }
  split.
  - exists (call_row s "STRIPE" "PREPARE" []). split; [apply Hin, (list_elem_of_lookup_2 _ 0); reflexivity|by split].
  - exists (call_row s "STRIPE" "INVOKE" [call_id s "PREPARE"]), [JStr (call_id s "PREPARE")].
    split; [apply Hin, (list_elem_of_lookup_2 _ 1); reflexivity|]. split_and!; [by split|reflexivity|by constructor].
  - exists (call_row s "STRIPE" "PUBLISH" [call_id s "INVOKE"; npu_id s]), [JStr (call_id s "INVOKE"); JStr (npu_id s)].
    split; [apply Hin, (list_elem_of_lookup_2 _ 3); reflexivity|]. split_and!; [by split|reflexivity|by constructor].
Qed.

Lemma sample_chained r call : r ∈ sample_results → is_stripe r = true → pget r "call_id" = JInt call → call_chain sample_rows call.
Proof.
  intros Hr _ Hc. unfold sample_results in Hr. apply list_elem_of_In, in_map_iff in Hr as (s & <- & Hs%list_elem_of_In).
  assert (Hcall : pget (stripe_result s) "call_id" = JInt s) by reflexivity.
  rewrite Hcall in Hc. injection Hc as <-. by apply stripe_chain.
Qed.

(** A timeline of the adapted sample. *)
Lemma pipeline_timeline : ∃ c l, timeline c (nodes sample_dataset.1) l ∧ map scheduled_identity l ≡ₚ map identity (nodes sample_dataset.1).
Proof.
  pose proof pipeline_schedules as Hs. destruct pipeline_schedule as [r|] eqn:Er; [|discriminate Hs].
  destruct (adapted_served _ _ _ _ _ _ sample_adapts) as [Hwf Hv _ _ _].
  destruct (completed_timeline no_clock [] pipeline_inputs sample_scenario r Hwf Hv Er) as (c & _ & Htl & Hperm).
  exists c, (result_nodes r). split; [exact Htl|exact Hperm].
Qed.

Lemma adapted_pipeline_witness : ∃ c l,
  timeline c (nodes sample_dataset.1) l ∧
  ∃ named proof, named.*2 = sample_results ∧ parse_pipeline sample_lifecycle named = Ok proof ∧
    ∀ p parent, (p, parent) ∈ parents proof → ∃ stripes, stripes ≡ₚ stripe_results p named ∧
      zget p (PipelineContract.stripes proof) = Some stripes ∧ pipelined l p stripes.
Proof.
  destruct pipeline_timeline as (c & l & Htl & Hperm). exists c, l. split; [exact Htl|].
  exact (adapted_pipeline sample_lifecycle sample_rows sample_results certified_results sample_dataset.1 sample_dataset.2 c
    l eq_refl sample_adapts sample_chained Htl Hperm).
Defined.
