(* ===== verification/LifecycleSample.v ===== *)
(** * Sample collections

    Collections of [n] generated tokens with one graph of two nodes per phase:
    the semantic graph, its lifecycle, and the forced run along the same tokens.
    The theorems on manifests and lifecycles are applied to them here, and two
    lifecycles show what the checks of [project_lifecycle] let through. *)
From S2P Require Import Prelude Records TraceSchema Manifest ManifestTheorems Lifecycle ExecutionIR PipelineContract.
From S2P Require Import Lifecycle LifecycleTheorems Forced.
Set Default Goal Selector "!".

Definition sample_token (i : nat) : Z := 100 + Z.of_nat i.

(** The phase keys of a record: the prefill, then the decodes. *)
Definition phase_fields (prefix : string) (i : nat) : record :=
  match i with
  | O => [(prefix +:+ "phase_kind", JStr "prefill"); (prefix +:+ "decode_index", JNull)]
  | S d => [(prefix +:+ "phase_kind", JStr "decode"); (prefix +:+ "decode_index", JInt (Z.of_nat d))]
  end.

(** Records with their common fields and their sequence numbers. *)
Definition framed (schema : string) (version : Z) (l : list (string * record)) : list record :=
  map (fun '(i, (kind, r)) => [("schema", JStr schema); ("version", JInt version); ("kind", JStr kind);
                                ("sequence", JInt (Z.of_nat i))] ++ r) (numbered l).

(** ** The semantic graph *)

Definition tensor (name : string) : record :=
  [("name", JStr name); ("type", JStr "f32"); ("shape", JArr (map JInt [4; 2; 1; 1]))].
Definition edge (kind : string) (ordinal : Z) : json := JObj [("kind", JStr kind); ("ordinal", JInt ordinal)].
Definition graph_entry (ordinal : Z) (op : string) (inputs : list json) : json :=
  JObj [("node_ordinal", JInt ordinal); ("excluded", JBool false);
        ("payload", JObj (tensor op ++ [("op", JStr op); ("parameters_hex", JStr "00ff");
                                        ("parameters_status", JStr "STATIC_BYTES"); ("inputs", JArr inputs)]))].
Definition sample_entries : list json := [graph_entry 0 "ADD" [edge "leaf" 0; JNull]; graph_entry 1 "MUL_MAT" [edge "node" 0; edge "leaf" 0]].

Definition execution (role target : string) (i : nat) (ordinal : Z) : string * record :=
  ("NODE_EXECUTION", phase_fields "semantic_" i ++
    [("semantic_graph_occurrence", JInt 0); ("semantic_node_ordinal", JInt ordinal); ("source_role", JStr role);
     ("run_config_id", JStr "config"); ("actual_backend", JStr "CPU");
     ("execution_class", JStr (if ordinal =? 0 then "ORDINARY_CPU" else target)); ("success", JBool true)]).

Definition semantic_run (role : string) (n : nat) : string * record :=
  ("RUN", [("source_role", JStr role); ("run_config_id", JStr "config");
    ("workload", JObj (map (fun k => (k, if String.eqb k "generated_tokens" then JInt (Z.of_nat n) else JInt 1)) WORKLOAD));
    ("producer", JObj [("warmup_excluded", JBool true); ("reserve_measure_graphs_excluded", JBool true);
                       ("git_commit", JStr "commit"); ("execution_kind", JStr "FORCED_CPU_COST_ONLY");
                       ("trajectory_source", JStr "POTAL")]);
    ("cpu_only_build", JBool (String.eqb role "FULL_CPU"))]).

Definition semantic_phase (i : nat) : string * record :=
  ("PHASE", phase_fields "" i ++ [("input_tokens", JInt 1);
    ("token_fingerprint", JStr (token_fingerprint (match i with O => 7 | S d => sample_token d end)))]).

(** The phases listed in [empty] dispatch no graph. *)
Definition semantic_body (role target : string) (empty : list nat) (i : nat) : list (string * record) :=
  semantic_phase i ::
  if bool_decide (i ∈ empty) then [] else
  [("GRAPH", phase_fields "" i ++ [("graph_occurrence", JInt 0); ("nodes", JArr sample_entries); ("leaves", JArr [JObj (tensor "leaf")])]);
   execution role target i 0; execution role target i 1].

Definition semantic_graph (role target : string) (generated n : nat) (empty : list nat) : list record :=
  let graphs := Z.of_nat (n - length empty) in
  framed "im2p-semantic-graph" 1
    ([semantic_run role generated] ++ concat (map (semantic_body role target empty) (seq 0 n)) ++
     [("RUN_END", [("success", JBool true); ("expected_node_count", JInt (2 * graphs)); ("executed_node_count", JInt (2 * graphs));
                   ("cpu_only_proven", JBool true); ("graph_count", JInt graphs)])]).

(** ** The lifecycle of the PoTal run *)

Definition run_policies : record :=
  [("execution_policy", JStr "blocking-llama-decode-synchronize-v1");
   ("graph_policy", JStr "semantic-session-completes-before-next-graph-v1");
   ("operation_exit_policy", JStr "ALL_MEMBER_COMPLETIONS"); ("requires_binary_manifest_binding", JBool true)].

Definition dispatch_events (i : nat) (d : Z) : list (string * record) :=
  [("DISPATCH_BEGIN", phase_fields "" i ++ [("dispatch_id", JInt d); ("graph_begin", JInt d)]);
   ("DISPATCH_END", phase_fields "" i ++ [("dispatch_id", JInt d); ("graph_end", JInt (d + 1)); ("status", JInt 0);
                                          ("synchronized", JBool true)])].

Definition phase_start (i : nat) (d : Z) : string * record :=
  ("PHASE", phase_fields "" i ++ [("graph_begin", JInt d); ("phase_ordinal", JInt (Z.of_nat i))]).

Definition sample_of (i : nat) (d : Z) : string * record :=
  ("SAMPLE", phase_fields "" i ++ [("sample_index", JInt (Z.of_nat i)); ("token_id", JInt (sample_token i));
    ("graph_end", JInt d); ("dispatch_id", JInt (d - 1)); ("token_ready", JBool true)]).

Definition potal_run (n : nat) : string * record :=
  ("RUN", run_policies ++ [("source_role", JStr "potal_collection"); ("source_commit", JStr "commit");
    ("expected_samples", JInt (Z.of_nat n)); ("target_mode_scope", JStr "FULL_ONLY")]).

Definition run_end (extra : record) (phases dispatches : nat) : string * record :=
  ("RUN_END", [("success", JBool true); ("phases", JInt (Z.of_nat phases)); ("dispatches", JInt (Z.of_nat dispatches));
               ("graphs", JInt (Z.of_nat dispatches))] ++ extra).

Definition potal_events (n : nat) : list record :=
  framed "potal-execution-lifecycle" 1
    ([potal_run n] ++
     concat (map (fun i => phase_start i (Z.of_nat i) :: dispatch_events i (Z.of_nat i) ++ [sample_of i (Z.of_nat i + 1)]) (seq 0 n)) ++
     [run_end [("samples", JInt (Z.of_nat n))] n n]).

(** ** The lifecycle of the forced run *)

Definition forced_events (n : nat) : list record :=
  framed "potal-execution-lifecycle" 2
    ([("RUN", run_policies ++ [("source_role", JStr "full_cpu"); ("source_commit", JStr "commit"); ("expected_samples", JInt 0);
        ("target_mode_scope", JStr "CPU_ONLY"); ("execution_kind", JStr "FORCED_CPU_COST_ONLY");
        ("trajectory_source", JStr "POTAL"); ("expected_tokens", JInt (Z.of_nat n));
        ("performance_scope", JStr "ORDINARY_CPU_COST_ONLY")])] ++
     concat (map (fun i => phase_start i (Z.of_nat i) :: dispatch_events i (Z.of_nat i) ++
       [("FORCED_TOKEN", phase_fields "" i ++ [("token_index", JInt (Z.of_nat i)); ("token_id", JInt (sample_token i));
          ("graph_end", JInt (Z.of_nat i + 1)); ("dispatch_id", JInt (Z.of_nat i)); ("token_ready", JBool true);
          ("actual_sampling", JBool false)])]) (seq 0 n)) ++
     [run_end [("samples", JInt 0); ("forced_tokens", JInt (Z.of_nat n)); ("completed_tokens", JInt (Z.of_nat n))] n n]).

Definition manifest_of (l : list record) : Manifest :=
  match read_manifest l with Ok m => m | Err _ => no_manifest end.
Definition projection_of (graph : Manifest) (l : list record) : LifecycleProjection :=
  match project_lifecycle graph l with
  | Ok p => p
  | Err _ => {| entry_dependencies := []; barriers := []; application_steps := []; expected_samples := 0;
                pipeline_parents := []; pipeline_owners := []; prefill_steps := [] |}
  end.

Lemma manifest_of_Ok l : is_ok (read_manifest l) = true → read_manifest l = Ok (manifest_of l).
Proof. unfold manifest_of. by destruct (read_manifest l). Qed.
Lemma projection_of_Ok g l : is_ok (project_lifecycle g l) = true → project_lifecycle g l = Ok (projection_of g l).
Proof. unfold projection_of. by destruct (project_lifecycle g l). Qed.

Abbreviation potal_graph n := (manifest_of (semantic_graph "POTAL_COLLECTION" "TARGET_NPU" n n [])).
Abbreviation full_graph n := (manifest_of (semantic_graph "FULL_CPU" "ORDINARY_CPU" n n [])).

Lemma potal_reads : is_ok (read_manifest (semantic_graph "POTAL_COLLECTION" "TARGET_NPU" 2 2 [])) = true.
Proof. vm_compute. reflexivity. Qed.
Lemma potal_projects : is_ok (project_lifecycle (potal_graph 2) (potal_events 2)) = true.
Proof. vm_compute. reflexivity. Qed.

(** ** The theorems on the sample *)

Lemma manifest_complete_witness :
  let m := potal_graph 2 in Manifest.phases m ≠ [] ∧ (Manifest.nodes m).*1 = concat (map graph_keys (graphs m)) ∧ length (Manifest.nodes m) = 4%nat.
Proof.
  cbv zeta. destruct (manifest_complete _ _ (manifest_of_Ok _ potal_reads)) as (H1 & _ & _ & H2 & _).
  split; [exact H1|]. split; [exact H2|]. vm_compute. reflexivity.
Defined.

Lemma manifest_operands_witness : ∃ operands sources,
  inputs (potal_graph 2) ("decode", Some 0, 0, 1) = Ok operands ∧ (("decode", Some 0, 0, 1), sources) ∈ edges (potal_graph 2) ∧
  ∀ source, source ∈ sources → source ∈ (Manifest.nodes (potal_graph 2)).*1 ∧ source.1 = ("decode", Some 0, 0).
Proof.
  refine (proj1 (manifest_operands _ _ (manifest_of_Ok _ potal_reads)) ("decode", Some 0, 0, 1) _).
  apply kmem_spec. vm_compute. reflexivity.
Defined.

Lemma lifecycle_projected_witness : ∃ names windows started,
  map_res graph_names (graphs (potal_graph 2)) = Ok names ∧ contiguous 0 windows 2 ∧
  barriers (projection_of (potal_graph 2) (potal_events 2)) = request_rows started ++ concat (imap (dispatch_rows names) windows).
Proof.
  destruct (lifecycle_projected _ _ _ (projection_of_Ok _ _ potal_projects)) as (names & ws & st & H1 & H2 & H3 & _).
  exists names, ws, st. split; [exact H1|]. split; [exact H2|exact H3].
Defined.

Lemma lifecycle_completes_witness :
  (∀ r, potal_events 2 !! 2%nat = Some r → is_event "DISPATCH_BEGIN" r = true → dispatch_ended (potal_events 2) 2 r) ∧
  phase_sampled (potal_events 2) 1 0.
Proof.
  destruct (lifecycle_completes _ _ _ (projection_of_Ok _ _ potal_projects)) as (H1 & H2 & _).
  split; [intros r; apply H1|]. destruct (potal_events 2 !! 1%nat) as [r|] eqn:E; [|vm_compute in E; discriminate E].
  vm_compute in E. injection E as <-. eapply (H2 1%nat); [vm_compute; reflexivity..].
Defined.

Lemma lifecycle_trajectory_witness : ∃ m, Manifest.phases (potal_graph 2) !! 1%nat = Some m ∧
  jeq (pget m "input_tokens") (JInt 1) = true ∧ pget m "token_fingerprint" = JStr (token_fingerprint 100) ∧
  ∀ other, pget m "token_fingerprint" = JStr (token_fingerprint other) → other mod 2 ^ 32 = 100 mod 2 ^ 32.
Proof.
  destruct (of_kind "SAMPLE" (potal_events 2) !! 0%nat) as [r|] eqn:E; [|vm_compute in E; discriminate E].
  apply (lifecycle_trajectory _ _ _ 0 r _ (projection_of_Ok _ _ potal_projects) E); [|vm_compute; reflexivity].
  vm_compute in E. injection E as <-. vm_compute. reflexivity.
Defined.

(** A PoTal run of 128 tokens with the forced run along its tokens. *)
Lemma paired_accepts :
  (let potal := potal_graph 128 in let full := full_graph 128 in
   is_ok (project_lifecycle potal (potal_events 128)) &&
   (match validate_forced_lifecycle (forced_events 128) full (map sample_token (seq 0 128)) with
    | Ok toks => same_tokens toks (map sample_token (seq 0 128)) | Err _ => false end) &&
   is_ok (validate_forced_phases full potal)) = true.
Proof. vm_compute. reflexivity. Qed.

Lemma forced_pair_tokens_witness : ∃ p toks,
  project_lifecycle (potal_graph 128) (potal_events 128) = Ok p ∧
  validate_forced_lifecycle (forced_events 128) (full_graph 128) (map sample_token (seq 0 128)) = Ok toks ∧
  length (Manifest.phases (full_graph 128)) = 128%nat.
Proof.
  pose proof paired_accepts as H. cbv zeta in H. apply andb_prop in H as [H H3]. apply andb_prop in H as [H1 H2].
  destruct (validate_forced_lifecycle _ _ _) as [toks|] eqn:Ef; [|discriminate H2].
  destruct (validate_forced_phases _ _) as [[]|] eqn:Ep; [|discriminate H3].
  exists (projection_of (potal_graph 128) (potal_events 128)), toks. split; [exact (projection_of_Ok _ _ H1)|]. split; [reflexivity|].
  destruct (forced_pair_tokens _ _ _ _ _ _ _ (projection_of_Ok _ _ H1) Ef Ep) as (_ & _ & Hl & _). exact Hl.
Defined.

(** ** What the checks let through *)

(** A phase that dispatches nothing is sampled from the dispatch before it: the
    second phase of this run has no graph, and its sample names the dispatch of
    the first.  Its two tokens become ready with the same dispatch. *)
Definition undispatched_events : list record :=
  framed "potal-execution-lifecycle" 1
    ([potal_run 3; phase_start 0 0] ++ dispatch_events 0 0 ++ [sample_of 0 1; phase_start 1 1; sample_of 1 1; phase_start 2 1] ++
     dispatch_events 2 1 ++ [sample_of 2 2; run_end [("samples", JInt 3)] 3 2]).

Example undispatched_phase_sampled :
  match project_lifecycle (manifest_of (semantic_graph "POTAL_COLLECTION" "TARGET_NPU" 3 3 [1%nat])) undispatched_events with
  | Ok p => map (fun step => pget step "logits_ready") (application_steps p) =
      map (fun d => JArr [JStr (dispatch_end_id d)]) [0; 0; 1]
  | Err _ => False
  end.
Proof. vm_compute. reflexivity. Qed.

(** A run may end with one decode more than its samples: the input of that
    decode is not compared with the sampled token, and no step leads to it. *)
Definition extra_decode_events : list record :=
  framed "potal-execution-lifecycle" 1
    ([potal_run 1; phase_start 0 0] ++ dispatch_events 0 0 ++ [sample_of 0 1; phase_start 1 1] ++
     dispatch_events 1 1 ++ [run_end [("samples", JInt 1)] 2 2]).

Example extra_decode_accepted :
  match project_lifecycle (manifest_of (semantic_graph "POTAL_COLLECTION" "TARGET_NPU" 1 2 [])) extra_decode_events with
  | Ok p => expected_samples p = 1 ∧ map (fun step => pget step "next_decode_entries") (application_steps p) = [JArr []] ∧
      length (entry_dependencies p) = 4%nat
  | Err _ => False
  end.
Proof. vm_compute. split; [reflexivity|]. split; reflexivity. Qed.
