(* ===== verification/LifecycleRun.v ===== *)
(** * A sample run from its lifecycle to its schedule

    The PoTal run of two tokens of LifecycleSample, joined into a dataset: each
    graph has a CPU operation and an operation with one NPU call.  Its lifecycle
    contract is built from the recorded events, the adapted graph is scheduled
    over the phase table of ScheduleSample, and the theorems on the order of
    graphs and samples are applied to that schedule.  A second collection is
    pipelined: one parent in three stripes. *)
From S2P Require Import Prelude Records Rational Profiles TraceSchema Manifest Services Scheduler SchedulerTheorems ScheduleSample.
From S2P Require Import LifecycleSample PipelineContract Pipeline Adapter AdapterTheorems AdapterPipeline.
From S2P Require Import PipelineSample Application ApplicationTheorems LifecycleTiming.
From S2P Require Import Lifecycle LifecycleTheorems LifecycleBuild LifecycleBuildTheorems ExecutionIR.
Set Default Goal Selector "!".

(** A host whose digests are all alike. *)
Definition zeros : string := "0000000000000000000000000000000000000000000000000000000000000000".
Definition zero_host : Host := {| sha256_hex _ := zeros; json_dumps := dump; str_of_other := dump |}.
#[local] Existing Instance zero_host.

Abbreviation run_projection := (projection_of (potal_graph 2) (potal_events 2)).

Definition run_operation (i : nat) (ordinal : Z) : string :=
  operation_name (match i with O => ("prefill", None, 0, ordinal) | S d => ("decode", Some (Z.of_nat d), 0, ordinal) end).

(** ** The dataset *)

Definition container_row (o : string) (deps : list string) : record :=
  [("node_id", JStr o); ("kind", JStr "OPERATION_CONTAINER"); ("phase", JStr "ph"); ("dependencies", JArr (map JStr deps))].

Definition of_operation (o : string) (r : record) : record :=
  map (fun kv => if String.eqb kv.1 "operation_node_id" then (kv.1, JStr o) else kv) r.

Definition cpu_service_row (o : string) (i : nat) : record :=
  map (fun kv => if String.eqb kv.1 "node_id" then (kv.1, JStr ("cpu:" +:+ dec (Z.of_nat i))) else kv) (of_operation o cpu_sample_row).

Definition graph_rows (i : nat) : list record :=
  let z := Z.of_nat i in
  [container_row (run_operation i 0) []; cpu_service_row (run_operation i 0) i;
   container_row (run_operation i 1) [run_operation i 0]] ++
  map (of_operation (run_operation i 1)) (stripe_rows z).

Definition run_rows : list record := concat (map graph_rows [0; 1]%nat).
Definition full_result (s : Z) : record :=
  map (fun kv => if String.eqb kv.1 "scope" then (kv.1, JStr "full") else if String.eqb kv.1 "host_slot" then (kv.1, JNull) else kv)
    (stripe_result s).
Definition run_results : list record := map full_result [0; 1].

(** ** The producer *)

Definition bound_input (suffix : string) : string * json := ("/src/" +:+ suffix, JStr zeros).
Definition sample_receipt : record :=
  [("schema", JStr "im2p-native-build-receipt"); ("version", JInt 1); ("kind", JStr "BUILD_ONCE_MEASURE_MANY");
   ("build_exit_code", JInt 0); ("sha256", JStr zeros); ("executable", JStr "llama-eval-workload");
   ("build_command", JArr (map JStr ["cmake"; "--build"; "--target"; "llama-eval-workload"]));
   ("actual_compile_inputs", JObj (map bound_input (PRODUCER_SOURCES ++ PIPELINE_SOURCES)));
   ("cpu_object_sha256", JObj [("ops.o", JStr zeros)]); ("producer_object_sha256", JObj [("trace.o", JStr zeros)]);
   ("project_artifacts", JObj [("llama-eval-workload", JStr zeros)]);
   ("build_info", JObj [("activation_metrics", JInt 0); ("residual_metrics", JInt 0); ("cycle_sim", JInt 1)]);
   ("source_role", JStr "POTAL_COLLECTION"); ("cmake_cache_sha256", JStr zeros); ("compile_commands_sha256", JStr zeros);
   ("cpu_kernel_contract_sha256", JStr zeros)].
Definition artifact (name : string) : string * json := (name, JObj [("sha256", JStr zeros)]).
Definition sample_provenance : record :=
  [("schema", JStr "im2p-collection-provenance"); ("version", JInt 2); ("source_role", JStr "POTAL_COLLECTION");
   ("collection_success", JBool true); ("process_exit_code", JInt 0); ("build_inputs_unchanged", JBool true);
   ("native_build", JObj sample_receipt); ("executable_sha256", JStr zeros);
   ("artifacts", JObj (map artifact ["execution_lifecycle"; "semantic_graph"; "application_cpu"]))].
(** The join compared the fingerprints of [n] decode phases. *)
Definition sample_summary (n : nat) : record :=
  [("status", JStr "PASS"); ("scope", JStr "structural-three-source-reconstruction");
   ("source_artifacts", JObj (map artifact ["potal_semantic_graph"; "npu_results"])); ("potal_provenance_sha256", JStr zeros);
   ("decode_token_fingerprint_matches", JObj (map (fun i : nat => (dec (Z.of_nat i), JBool true)) (seq 0 n)))].

Definition collected (n : nat) (events samples results : list record) : LifecycleFiles := {|
  sidecar := events; semantic_graph := LifecycleSample.semantic_graph "POTAL_COLLECTION" "TARGET_NPU" n n [];
  provenance := sample_provenance; application := samples; npu_results := results; join_summary := sample_summary (n - 1);
  sidecar_sha256 := zeros; semantic_graph_sha256 := zeros; provenance_sha256 := zeros; application_sha256 := zeros;
  dataset_sha256 := zeros; npu_results_sha256 := zeros; join_summary_sha256 := zeros |}.
Definition cpu_scenario : CpuScenario := {|
  worker_resources := [("FULL_CPU:0", JStr "cpu:0")]; policy := "HOST_ELAPSED_NS_GANG"; sampler_resource := "cpu:0" |}.

Definition sample_row (i : nat) : record :=
  phase_fields "" i ++
  [("schema", JStr "potal-application-cpu"); ("version", JInt 1); ("source_role", JStr "potal_collection");
   ("stage", JStr "sample_accept"); ("sample_index", JInt (Z.of_nat i)); ("phase", JStr (match i with O => "prefill" | _ => "decode" end));
   ("token_id", JInt (sample_token i)); ("thread_id", JInt 0); ("host_elapsed_ns", JInt 10); ("host_elapsed_valid", JBool true)].
Definition run_samples : list record := map sample_row [0; 1]%nat.

Abbreviation run_files := (collected 2 (potal_events 2) run_samples run_results).
Abbreviation run_built := (build run_files cpu_scenario certified_results).
Definition run_contract : record := match run_built with Ok c => c | Err _ => [] end.

Example run_builds_ok : is_ok run_built = true.
Proof. vm_compute. reflexivity. Qed.
Lemma run_builds : run_built = Ok run_contract.
Proof. pose proof run_builds_ok as Hs. unfold run_contract. destruct run_built as [c|]; [reflexivity|discriminate Hs]. Qed.

Definition zero_digests : Digests := {| dataset_digest := zeros; results_digest := zeros; application_digest := zeros |}.
Abbreviation run_adapted := (adapt zero_digests run_contract run_rows run_results (Some run_samples) certified_results).

Definition run_dataset : ExecutionIR * Services := match run_adapted with Ok p => p | Err _ => sample_dataset end.
Definition run_inputs : @ScheduleInputs sample_plain no_sequence := {|
  ir := run_dataset.1; services := run_dataset.2; npu_provider := @Plain sample_plain no_sequence tt |}.
Abbreviation run_schedule := (schedule no_clock [] run_inputs sample_scenario).

Example run_adapts_ok : is_ok run_adapted = true.
Proof. vm_compute. reflexivity. Qed.
Lemma run_adapts : run_adapted = Ok (run_dataset.1, run_dataset.2).
Proof. pose proof run_adapts_ok as Hs. unfold run_dataset. destruct run_adapted as [[i s]|]; [reflexivity|discriminate Hs]. Qed.

Example run_schedules : is_ok run_schedule = true.
Proof. vm_compute. reflexivity. Qed.

Lemma run_nonempty g : g ∈ graphs (potal_graph 2) → pget g "nodes" ≠ JArr [].
Proof.
  assert (Hall : forallb (fun g => match pget g "nodes" with JArr [] => false | _ => true end) (graphs (potal_graph 2)) = true).
  { vm_compute. reflexivity. }
  intros Hg%list_elem_of_In. rewrite forallb_forall in Hall. intros E. specialize (Hall g Hg). rewrite E in Hall. discriminate Hall.
Qed.





(** A timeline of the run. *)
Lemma run_timeline : ∃ c l, timeline c (nodes run_dataset.1) l ∧ map scheduled_identity l ≡ₚ map identity (nodes run_dataset.1).
Proof.
  pose proof run_schedules as Hs. destruct run_schedule as [r|] eqn:Er; [|discriminate Hs].
  pose proof (adapt_served _ _ _ _ _ _ _ _ run_adapts) as [Hwf Hv _ _ _].
  destruct (completed_timeline no_clock [] run_inputs sample_scenario r Hwf Hv Er) as (c & _ & Htl & Hperm).
  exists c, (result_nodes r). split; [exact Htl|exact Hperm].
Qed.

(** ** The theorems on the run *)

Lemma zeros_hex : is_hex 64 zeros = true.
Proof. reflexivity. Qed.
Lemma digests_hex s : is_hex 64 (sha256_hex s) = true.
Proof. exact zeros_hex. Qed.

Lemma contract_built_witness : validate_lifecycle_contract run_contract = Ok tt ∧
  ∃ graph p, carries run_contract p ∧ project_lifecycle graph (potal_events 2) = Ok p ∧
    pget run_contract "submission_order" = JArr [JStr "npu:0"; JStr "npu:1"].
Proof.
  assert (Hhex : hex_files run_files) by (repeat (apply Forall_cons; split; [exact zeros_hex|]); apply Forall_nil; exact I).
  destruct (contract_built run_files cpu_scenario certified_results run_contract digests_hex Hhex run_builds)
    as (Hv & graph & p & calls & works & _ & Hp & Hc & _ & _ & _ & Hw & _ & Ho).
  split; [exact Hv|]. exists graph, p. split; [exact Hc|]. split; [exact Hp|].
  assert (Hworks : works = [0; 1]) by (apply Ok_eq; etransitivity; [symmetry; exact Hw|reflexivity]).
  rewrite Hworks in Ho. exact Ho.
Defined.

Lemma graphs_in_order_witness : ∃ c l names,
  timeline c (nodes run_dataset.1) l ∧ graph_operations (potal_graph 2) = Ok names ∧
  ∀ early late n n', names !! 0%nat = Some early → names !! 1%nat = Some late →
    n ∈ nodes run_dataset.1 → operation n ∈ early → n' ∈ nodes run_dataset.1 → operation n' ∈ late →
    (ready_of l (identity n) <= start_of l (identity n'))%Qc.
Proof.
  destruct run_timeline as (c & l & Htl & Hperm).
  destruct (graphs_in_order run_files cpu_scenario certified_results run_contract zero_digests run_rows run_results
    (Some run_samples) certified_results run_dataset.1 run_dataset.2 c l run_builds run_adapts Htl Hperm) as (graph & names & Hg & Hn & Hall).
  assert (E : graph = potal_graph 2) by (apply Ok_eq; etransitivity; [symmetry; exact Hg|exact (manifest_of_Ok _ potal_reads)]).
  subst graph. exists c, l, names. split; [exact Htl|]. split; [exact Hn|]. intros early late n n' Hi Hj.
  exact (Hall run_nonempty 0%nat 1%nat early late n n' (le_n 1) Hi Hj).
Defined.



(** ** A pipelined collection *)

(** One token of a pipelined run with one parent of three stripes. *)
Definition pipelined_run : string * record :=
  ("RUN", run_policies ++ [("source_role", JStr "potal_collection"); ("source_commit", JStr "commit");
    ("expected_samples", JInt 1); ("target_mode_scope", JStr "STRIPE_PIPELINE_ONLY");
    ("producer_ownership_source", JStr "CPU_FUNCTIONAL"); ("actual_rtl_acceptance_in_collection", JStr "NOT_APPLICABLE");
    ("workspace_slot_domain", JStr "EXSIA_SCRATCH"); ("target_npu_slot_domain", JStr "UNDECLARED")]).
Definition object_of (j : json) : record := match j with JObj r => r | _ => [] end.
Definition pipelined_events : list record :=
  framed "potal-execution-lifecycle" 3
    ([pipelined_run; phase_start 0 0; ("REQUEST_START", phase_fields "" 0 ++ [("request_id", JInt 0); ("graph_begin", JInt 0)]);
      ("PREFILL_BATCH_READY", phase_fields "" 0 ++ [("batch_index", JInt 0); ("dispatch_id", JInt 0); ("graph_begin", JInt 0)])] ++
     dispatch_events 0 0 ++ [sample_of 0 1; ("PIPELINE_PARENT", sample_parent)] ++
     map (fun owner => ("PIPELINE_OWNER", object_of owner)) sample_owners ++ [run_end [("samples", JInt 1)] 1 1]).

Definition version_two (row : record) : record := sset "version" (JInt 2) row.
Definition prepared_row : record :=
  phase_fields "" 0 ++ [("schema", JStr "potal-application-cpu"); ("version", JInt 2); ("source_role", JStr "potal_collection");
    ("stage", JStr "prefill_batch_prepare"); ("batch_index", JInt 0); ("dispatch_id", JInt 0); ("phase", JStr "prefill")].
Definition pipelined_files : LifecycleFiles :=
  collected 1 pipelined_events [prepared_row; version_two (sample_row 0)] sample_results.

Example pipelined_builds : is_ok (build pipelined_files cpu_scenario certified_results) = true.
Proof. vm_compute. reflexivity. Qed.

Lemma parents_tile_witness : ∃ graph p, project_lifecycle graph pipelined_events = Ok p ∧ pipeline_parents p ≠ [] ∧
  Forall (parent_tiled sample_results) (pipeline_parents p) ∧
  length (List.filter (fun parent => requires parent (stripe_result 1)) (pipeline_parents p)) = 1%nat.
Proof.
  pose proof pipelined_builds as Hs. destruct (build pipelined_files cpu_scenario certified_results) as [c|] eqn:E; [|discriminate Hs].
  destruct (parents_tile pipelined_files cpu_scenario certified_results c E eq_refl) as (graph & p & _ & Hp & Hne & Ht & Hone).
  exists graph, p. split; [exact Hp|]. split; [exact Hne|]. split; [exact Ht|]. apply Hone. right. left.
Defined.

(** A stripe that leaves a row out is refused. *)
Definition shortened (row : record) : record := if eq_int (pget row "work_id") 1 then sset "row_count" (JInt 3) row else row.
Example gap_refused : build (collected 1 pipelined_events [prepared_row; version_two (sample_row 0)] (map shortened sample_results))
  cpu_scenario certified_results = Err (ExecutionError "PIPELINE parent has missing/overlapping dense rows").
Proof. vm_compute. reflexivity. Qed.

(** ** What an empty graph lets through *)

(** The end of a graph without nodes waits for nothing, so that the graphs after
    it are not ordered after those before it. *)
Definition empty_graph : record := phase_fields "" 0 ++ [("graph_occurrence", JInt 0); ("nodes", JArr []); ("leaves", JArr [])].
Definition empty_graph_records : list record :=
  framed "im2p-semantic-graph" 1
    ([semantic_run "POTAL_COLLECTION" 1; semantic_phase 0; ("GRAPH", empty_graph);
      ("GRAPH", phase_fields "" 0 ++ [("graph_occurrence", JInt 1); ("nodes", JArr sample_entries); ("leaves", JArr [JObj (tensor "leaf")])])] ++
     map (fun o => ("NODE_EXECUTION", sset "semantic_graph_occurrence" (JInt 1) (execution "POTAL_COLLECTION" "TARGET_NPU" 0 o).2)) [0; 1] ++
     [("RUN_END", [("success", JBool true); ("expected_node_count", JInt 2); ("executed_node_count", JInt 2);
                   ("cpu_only_proven", JBool true); ("graph_count", JInt 2)])]).
Definition empty_graph_events : list record :=
  framed "potal-execution-lifecycle" 1
    [potal_run 1; phase_start 0 0;
     ("DISPATCH_BEGIN", phase_fields "" 0 ++ [("dispatch_id", JInt 0); ("graph_begin", JInt 0)]);
     ("DISPATCH_END", phase_fields "" 0 ++ [("dispatch_id", JInt 0); ("graph_end", JInt 2); ("status", JInt 0); ("synchronized", JBool true)]);
     ("SAMPLE", sset "graph_end" (JInt 2) (sample_of 0 1).2);
     ("RUN_END", [("success", JBool true); ("samples", JInt 1); ("phases", JInt 1); ("dispatches", JInt 1); ("graphs", JInt 2)])].

Example empty_graph_unordered :
  match project_lifecycle (manifest_of empty_graph_records) empty_graph_events with
  | Ok p => barriers p !! 2%nat = Some (barrier_row (graph_end_id 0) "0" []) ∧
            barriers p !! 3%nat = Some (barrier_row (graph_begin_id 1) "0" [graph_end_id 0])
  | Err _ => False
  end.
Proof. vm_compute. split; reflexivity. Qed.
