(* ===== verification/CpuIndex.v ===== *)
(** * The index of measured CPU time

    [sim/cycle/reconstruct_timing.py] checks the timing fields of a measured
    interval; [CpuIndex] of [sim/cycle/reconstruct_cpu.py] loads the intervals of
    the FullCPU and the PoTal collection into two tables and hands out the cost
    of ordinary nodes and of host stages.

    A table is the list of its rows in insertion order, with the uniqueness
    constraints of its indexes; the stored body, a JSON text, is kept as the
    record it decodes to.  [lower] is [str.lower]. *)
From stdpp Require Import sorting.
From S2P Require Import Prelude Records TraceSchema TraceIntegrity Manifest.
Set Default Goal Selector "!".

(** ** [reconstruct_timing.py] *)

Definition NAMED_TIMING_FIELDS : list string :=
  ["cpu_work_cycles"; "cpu_work_cycles_source"; "cpu_work_cycles_unit"; "cpu_work_cycles_valid";
   "cpu_work_cycles_reason"; "thread_cpu_ns"; "thread_cpu_valid"; "thread_cpu_reason";
   "host_elapsed_ns"; "host_elapsed_valid"; "host_elapsed_reason"; "host_start_ns";
   "host_end_ns"; "host_execution_id"; "thread_id"; "interval_class"].
Definition HOST_CORE_FIELDS : list string :=
  ["host_cpu_core_start"; "host_cpu_core_end"; "cpu_migrated"; "cpu_work_cycles_scope";
   "cpu_work_cycles_sample_reason"].
Definition CLOCKS : list (string * string) :=
  [("host_tick", "tick"); ("riscv_cycle", "cycle"); ("linux_perf_cpu_cycles", "cycle");
   ("thread_cpu_clock", "nanosecond"); ("steady_clock", "nanosecond")].

Definition valid_measurement (r : record) : res unit :=
  require (is_true (pget r "valid") && is_true (pget r "cpu_service"))
    "required CPU service measurement invalid/excluded" ;;;
  let* start := integer r "start" in
  let* finish := integer r "end" in
  let* delta := integer r "delta" in
  require ((start <=? finish) && (delta =? finish - start)) "CPU interval endpoint/delta mismatch" ;;;
  let* source := text r "source" in
  let* unit := text r "unit" in
  require (bool_decide ((source, unit) ∈ CLOCKS)) "unknown CPU clock source/unit" ;;;
  require (is_true (default (JBool true) (sget "operation_success" r))) "host operation failed".

(** [{name: record[name] for name in names if name in record}]. *)
Definition project (names : list string) (r : record) : record :=
  omap (fun name => (fun v => (name, v)) <$> sget name r) names.

Definition SAMPLE_KEYS : list string :=
  ["source"; "unit"; "start"; "end"; "delta"; "valid"; "worker_id"; "worker_count"; "reason";
   "sample_reason"; "source_line"].
Definition duration_sample (r : record) : res record :=
  let* op := item r "op" in
  Ok (project (SAMPLE_KEYS ++ NAMED_TIMING_FIELDS ++ HOST_CORE_FIELDS) r ++ [("stage", op)]).

Definition is_core (core : json) : bool :=
  match core with JNull => true | JInt z => 0 <=? z | _ => false end.

Definition validate_host_cores (r : record) : res unit :=
  if negb (existsb (has r) HOST_CORE_FIELDS) then Ok tt else
  require (forallb (has r) HOST_CORE_FIELDS) "incomplete host core timing fields" ;;;
  let* first := item r "host_cpu_core_start" in
  let* last := item r "host_cpu_core_end" in
  require (forallb is_core [first; last]) "malformed host CPU core id" ;;;
  let* migrated := item r "cpu_migrated" in
  require (if existsb is_null [first; last] || is_null (pget r "thread_id") then is_null migrated
           else match migrated with JBool b => Bool.eqb b (negb (jeq first last)) | _ => false end)
    "host CPU migration flag differs from its cores" ;;;
  let* scope := item r "cpu_work_cycles_scope" in
  require (jeq scope (if is_true (pget r "cpu_work_cycles_valid") then JStr "user+kernel" else JNull))
    "CPU cycle scope must be user+kernel for valid cycles".

(** [isinstance(x, str) and bool(x)]. *)
Definition is_text (j : json) : bool := match j with JStr s => negb (String.eqb s "") | _ => false end.
Definition nonnegative (r : record) (key : string) : res bool := let* v := integer r key in Ok (0 <=? v).

Definition validate_cycles (r : record) : res unit :=
  let* valid := item r "cpu_work_cycles_valid" in
  let* unit := item r "cpu_work_cycles_unit" in
  require (is_bool valid && eq_str unit "cycle") "invalid CPU work-cycle metric" ;;;
  let* source := item r "cpu_work_cycles_source" in
  let* reason := item r "cpu_work_cycles_reason" in
  let* cycles := item r "cpu_work_cycles" in
  require_res (if is_true valid then nonnegative r "cpu_work_cycles" andM Ok (is_text source && is_null reason)
               else Ok (is_null cycles && is_null source && is_text reason)) "invalid CPU work-cycle metric".

Definition validate_thread (r : record) : res unit :=
  let* valid := item r "thread_cpu_valid" in
  require (is_bool valid) "invalid thread CPU metric" ;;;
  let* reason := item r "thread_cpu_reason" in
  let* ns := item r "thread_cpu_ns" in
  require_res (if is_true valid then nonnegative r "thread_cpu_ns" andM Ok (is_null reason)
               else Ok (is_null ns && is_text reason)) "invalid thread CPU metric".

Definition validate_elapsed (r : record) : res unit :=
  let* valid := item r "host_elapsed_valid" in
  require_res (Ok (is_bool valid) andM (let* _ := text r "host_execution_id" in Ok true)) "invalid host elapsed metric" ;;;
  let* reason := item r "host_elapsed_reason" in
  if is_true valid then
    let* start := integer r "host_start_ns" in
    let* finish := integer r "host_end_ns" in
    require_res (Ok (start <=? finish) andM (let* elapsed := integer r "host_elapsed_ns" in Ok (elapsed =? finish - start)) andM
                 Ok (is_null reason) andM nonnegative r "thread_id") "invalid host elapsed metric"
  else
    let* elapsed := item r "host_elapsed_ns" in
    let* start := item r "host_start_ns" in
    let* finish := item r "host_end_ns" in
    let* thread := item r "thread_id" in
    require (is_null elapsed && is_null start && is_null finish && is_null thread && is_text reason)
      "invalid host elapsed metric".

Definition validate_named_timing (r : record) (host : option Z) : res unit :=
  require (forallb (has r) NAMED_TIMING_FIELDS) "incomplete named timing contract" ;;;
  validate_cycles r ;;;
  validate_thread r ;;;
  validate_elapsed r ;;;
  let owned := match host with Some _ => true | None => false end in
  let* class := item r "interval_class" in
  require (eq_str class (if owned then "CANONICAL_ADDITIVE" else "PER_WORKER_CPU_WORK")) "invalid timing interval class" ;;;
  require ((owned && is_true (pget r "host_elapsed_valid")) ||
           (negb owned && (is_true (pget r "cpu_work_cycles_valid") || is_true (pget r "thread_cpu_valid"))))
    "authoritative timing metric unavailable" ;;;
  validate_host_cores r.

(** ** The tables of [CpuIndex] *)

Record Sample := {
  sm_role : string;
  sm_semantic : string;
  sm_stage : string;
  sm_worker : option Z;
  sm_workers : option Z;
  sm_host : option Z;
  sm_body : record;
}.
Record Interval := { iv_execution : string; iv_thread : Z; iv_start : Z; iv_end : Z }.
Record CpuIndex := { samples : list Sample; observations : list (string * Z); intervals : list Interval }.
Definition empty_index : CpuIndex := {| samples := []; observations := []; intervals := [] |}.

Definition observe (name : string) (x : CpuIndex) : CpuIndex :=
  {| samples := samples x; observations := bump name (observations x); intervals := intervals x |}.
Definition with_samples (l : list Sample) (x : CpuIndex) : CpuIndex :=
  {| samples := l; observations := observations x; intervals := intervals x |}.

Definition TOO_LARGE : exn := OverflowError "Python int too large to convert to SQLite INTEGER".
Definition bindable (z : Z) : bool := z <? SQLITE_INTEGER_LIMIT.
Definition bindable_option (o : option Z) : bool := match o with Some z => bindable z | None => true end.

(** The unique indexes [host_identity] and [worker_identity]; no two NULLs are equal. *)
Definition sql_eq (a b : option Z) : bool :=
  match a, b with Some x, Some y => x =? y | _, _ => false end.
Definition conflicts (a b : Sample) : bool :=
  String.eqb (sm_role a) (sm_role b) &&
  match sm_host a, sm_host b with
  | Some h, Some h' => h =? h'
  | None, None => String.eqb (sm_semantic a) (sm_semantic b) && String.eqb (sm_stage a) (sm_stage b) &&
      sql_eq (sm_worker a) (sm_worker b)
  | _, _ => false
  end.
Definition insert_sample (sm : Sample) (x : CpuIndex) : res CpuIndex :=
  check (forallb bindable_option [sm_worker sm; sm_workers sm; sm_host sm]) TOO_LARGE ;;;
  check (negb (existsb (conflicts sm) (samples x))) (IntegrityError "UNIQUE constraint failed") ;;;
  Ok (with_samples (samples x ++ [sm]) x).

Definition insert_intervals (batch : list Interval) (x : CpuIndex) : res CpuIndex :=
  check (forallb (fun iv => forallb bindable [iv_thread iv; iv_start iv; iv_end iv]) batch) TOO_LARGE ;;;
  Ok {| samples := samples x; observations := observations x; intervals := intervals x ++ batch |}.

(** ** Loading a log *)
Section Load.
Context (lower : string → string).
Context (name : string).
Context (manifest target : Manifest).
Context (role : string).

Record Loading := { loaded : CpuIndex; canonical_batch : list Interval }.
Definition BATCH : nat := 8192.
Definition on_index (f : CpuIndex → CpuIndex) (s : Loading) : Loading :=
  {| loaded := f (loaded s); canonical_batch := canonical_batch s |}.

Definition CPU_STAGE_ALIASES : list (string * string) :=
  [("SOFT_MAX", "cpu.softmax"); ("SOFT_MAX_BACK", "cpu.softmax_back")].
Definition cpu_stage (logical_op : string) : string :=
  default ("cpu." +:+ lower logical_op) (sget logical_op CPU_STAGE_ALIASES).

(** Telemetry without a schema, and records that are no intervals. *)
Definition compact_record (s : Loading) (r : record) : res Loading :=
  require (in_strs (pget r "kind") ["cpu"; "segment"] && eq_str (pget r "duration_role") "OBSERVATION_ONLY" &&
           eq_str (pget r "exclusion_reason") "outside_collection" && is_null (pget r "host_stage_id") &&
           is_null (pget r "semantic_phase_kind")) "unclassified compact CPU telemetry" ;;;
  let* kind := text r "kind" in
  Ok (on_index (observe (role +:+ ":compact_" +:+ kind)) s).

Definition telemetry_record (s : Loading) (r : record) : res Loading :=
  require (negb (in_strs (pget r "duration_role") ["ORDINARY_CPU_REFERENCE"; "POTAL_HOST"]) &&
           is_null (pget r "host_stage_id")) "non-interval telemetry cannot claim reconstruction duration authority" ;;;
  Ok (on_index (observe (role +:+ ":telemetry")) s).

Definition outside_record (s : Loading) (r : record) : res Loading :=
  require (eq_str (pget r "duration_role") "OBSERVATION_ONLY") "outside-collection record claimed duration authority" ;;;
  Ok (on_index (observe (role +:+ ":outside_collection")) s).

Definition OBSERVED_CLASSES : list string :=
  ["PER_WORKER_CPU_WORK"; "FUNCTIONAL_EMULATION"; "WAIT"; "NON_ADDITIVE"; "STRUCTURAL"; "DIAGNOSTIC"].
Definition observed_record (s : Loading) (r : record) : res Loading :=
  let* class := text r "interval_class" in
  require (str_in class OBSERVED_CLASSES) "invalid non-authoritative interval class" ;;;
  Ok (on_index (observe (role +:+ ":" +:+ class)) s).

(** The [ValueError] of a check, with the place of the record before its text. *)
Definition located {A} (place : string) (m : res A) : res A :=
  match m with
  | Err (NpuTraceError detail) => Err (ValueError (place +:+ ": npu-trace: " +:+ detail))
  | _ => m
  end.

(** The interval of a host stage joins the batch, which is written when it is full. *)
Definition add_interval (s : Loading) (r : record) : res Loading :=
  let* execution := text r "host_execution_id" in
  let* thread := integer r "thread_id" in
  let* start := integer r "host_start_ns" in
  let* finish := integer r "host_end_ns" in
  let batch := canonical_batch s ++
    [{| iv_execution := execution; iv_thread := thread; iv_start := start; iv_end := finish |}] in
  if Nat.eqb (length batch) BATCH then
    let* x := insert_intervals batch (loaded s) in Ok {| loaded := x; canonical_batch := [] |}
  else Ok {| loaded := loaded s; canonical_batch := batch |}.

Definition BODY_KEYS : list string :=
  ["source"; "unit"; "start"; "end"; "delta"; "valid"; "worker_id"; "worker_count"; "reason"; "sample_reason";
   "op"; "cpu_service"; "cpu_service_exclusion"; "duration_role"; "operation_success"] ++
  NAMED_TIMING_FIELDS ++ HOST_CORE_FIELDS.

(** [None if record.get(key) is None else integer(record, key)]. *)
Definition get_integer (r : record) (key : string) : res (option Z) :=
  if is_null (pget r key) then Ok None else let* v := integer r key in Ok (Some v).

(** The worker of an ordinary interval is one of the declared threads. *)
Definition worker_vector (key : SemanticKey) (worker workers : option Z) : res unit :=
  match worker, workers with
  | Some worker, Some workers =>
      require ((0 <? workers) && (worker <? workers)) "invalid CPU worker vector identity" ;;;
      let* workload_value := item (Manifest.run manifest) "workload" in
      let* workload := object_value workload_value in
      let* cpu_value := item workload (if String.eqb key.1.1.1 "prefill" then "cpu_batch" else "cpu") in
      let* cpu := object_value cpu_value in
      require_res (let* threads := integer cpu "threads" in Ok (workers <=? threads))
        "CPU workers exceed declared thread configuration"
  | _, _ => Err (NpuTraceError "invalid CPU worker vector identity")
  end.

(** An interval that claims the cost of a node or of a host stage. *)
Definition store_interval (s : Loading) (source_line : Z) (r : record) (key : SemanticKey)
    (duration_role op : string) (host : option Z) : res Loading :=
  require (match host with None => true | Some _ => String.eqb role "POTAL_COLLECTION" end)
    "FullCPU cannot own PoTal host stages" ;;;
  require (negb (String.eqb duration_role "POTAL_HOST") || match host with None => false | Some _ => true end)
    "PoTal host cost lacks declared stage identity" ;;;
  located (name +:+ ":" +:+ dec source_line +:+ ":" +:+ op) (validate_named_timing r host) ;;;
  let* s := (if String.eqb duration_role "POTAL_HOST" then add_interval s r else Ok s) in
  let* worker := get_integer r "worker_id" in
  let* workers := get_integer r "worker_count" in
  (match host with None => worker_vector key worker workers | Some _ => Ok tt end) ;;;
  let stored := sset "source_line" (JInt source_line) (project BODY_KEYS r) in
  let row := {| sm_role := role; sm_semantic := encoded_key key; sm_stage := op; sm_worker := worker;
                sm_workers := workers; sm_host := host; sm_body := stored |} in
  match insert_sample row (loaded s) with
  | Ok x => Ok {| loaded := x; canonical_batch := canonical_batch s |}
  | Err (IntegrityError _) => Err (ValueError "duplicate/ambiguous CPU interval identity")
  | Err e => Err e
  end.

(** An interval inside the collection. *)
Definition interval_record (s : Loading) (source_line : Z) (r : record) : res Loading :=
  let* key := semantic_key r in
  require_res (Ok (kmem key (nodes manifest)) andM
    (let* config := item (Manifest.run manifest) "run_config_id" in Ok (jeq (pget r "run_config_id") config)) andM
    Ok (eq_str (pget r "source_role") role)) "unknown CPU semantic identity/run/source" ;;;
  let* duration_role := text r "duration_role" in
  require (eq_str (pget r "duration_source") role) "CPU duration source mismatch" ;;;
  require (str_in duration_role (if String.eqb role "FULL_CPU" then ["ORDINARY_CPU_REFERENCE"; "OBSERVATION_ONLY"]
                                 else ["POTAL_HOST"; "OBSERVATION_ONLY"])) "CPU duration ownership mismatch" ;;;
  let* host := get_integer r "host_stage_id" in
  if String.eqb duration_role "OBSERVATION_ONLY" then observed_record s r else
  let* op := text r "op" in
  let* payload := payload_of manifest key in
  let* logical_op := text payload "op" in
  if match host with None => negb (String.eqb op (cpu_stage logical_op)) | Some _ => false end then
    require_res (Ok (String.eqb role "FULL_CPU") andM
      match kget key (executions target) with
      | Some execution => let* class := item execution "execution_class" in Ok (in_strs class ["TARGET_NPU"; "EXCLUDED"])
      | None => Err (KeyError "semantic key")
      end) "unclassified CPU service stage" ;;;
    Ok (on_index (observe (role +:+ ":noncanonical")) s)
  else store_interval s source_line r key duration_role op host.

Definition load_record (s : Loading) (entry : nat * record) : res Loading :=
  let '(position, r) := entry in
  if is_null (pget r "schema") then compact_record s r else
  require (eq_str (pget r "schema") "gemmini.cycle" && is_int (pget r "version") && eq_int (pget r "version") 2)
    "unsupported CPU CycleLog schema/version" ;;;
  if negb (eq_str (pget r "record_type") "CYCLE_INTERVAL") then telemetry_record s r
  else if eq_str (pget r "exclusion_reason") "outside_collection" then outside_record s r
  else interval_record s (Z.of_nat position + 1) r.
End Load.

Definition load (lower : string → string) (name : string) (target manifest : Manifest) (records : list record)
    (x : CpuIndex) : res CpuIndex :=
  let* role := text (Manifest.run manifest) "source_role" in
  let* s := fold_res (load_record lower name manifest target role) {| loaded := x; canonical_batch := [] |}
              (numbered records) in
  match canonical_batch s with [] => Ok (loaded s) | batch => insert_intervals batch (loaded s) end.

(** ** Additivity of host intervals *)

(** [ORDER BY start,end] and [MAX(end) OVER (... ROWS BETWEEN UNBOUNDED PRECEDING AND 1 PRECEDING)]. *)
Definition interval_le (a b : Interval) : Prop :=
  iv_start a < iv_start b ∨ (iv_start a = iv_start b ∧ iv_end a <= iv_end b).
#[export] Instance interval_le_dec a b : Decision (interval_le a b).
Proof. unfold interval_le. apply _. Defined.

Fixpoint prior_overlap (prior : option Z) (l : list Interval) : bool :=
  match l with
  | [] => false
  | iv :: l =>
      match prior with Some e => iv_start iv <? e | None => false end ||
      prior_overlap (Some (match prior with Some e => Z.max e (iv_end iv) | None => iv_end iv end)) l
  end.

(** [PARTITION BY execution,thread], over the rows [WHERE end>start]. *)
Definition positive (iv : Interval) : Prop := iv_start iv < iv_end iv.
Definition same_thread (a b : Interval) : Prop := iv_execution a = iv_execution b ∧ iv_thread a = iv_thread b.
#[export] Instance positive_dec iv : Decision (positive iv).
Proof. unfold positive. apply _. Defined.
#[export] Instance same_thread_dec a b : Decision (same_thread a b).
Proof. unfold same_thread. apply _. Defined.
Definition partition (a : Interval) (l : list Interval) : list Interval := filter (same_thread a) (filter positive l).
Definition overlap (l : list Interval) : bool :=
  existsb (fun a => prior_overlap None (merge_sort interval_le (partition a l))) l.

Definition validate_potal_host_additivity (x : CpuIndex) : res CpuIndex :=
  require (negb (overlap (intervals x))) "positive canonical host interval overlap" ;;;
  Ok {| samples := samples x; observations := observations x; intervals := [] |}.

(** ** The cost of an ordinary node *)

(** [ORDER BY stage,worker]; a missing worker comes first. *)
Definition worker_le (a b : option Z) : bool :=
  match a, b with None, _ => true | Some _, None => false | Some x, Some y => x <=? y end.
Definition sample_le (a b : Sample) : Prop :=
  (String.ltb (sm_stage a) (sm_stage b) ||
   (String.eqb (sm_stage a) (sm_stage b) && worker_le (sm_worker a) (sm_worker b))) = true.
#[export] Instance sample_le_dec a b : Decision (sample_le a b).
Proof. unfold sample_le. apply _. Defined.

Definition ordinary_rows (key : SemanticKey) (x : CpuIndex) : list Sample :=
  merge_sort sample_le (List.filter (fun sm => String.eqb (sm_role sm) "FULL_CPU" &&
    String.eqb (sm_semantic sm) (encoded_key key) && match sm_host sm with None => true | Some _ => false end) (samples x)).

(** [groups[text(record, 'op')].append(record)]. *)
Definition group_record (groups : list (string * list record)) (r : record) : res (list (string * list record)) :=
  let* role := item r "duration_role" in
  require (eq_str role "ORDINARY_CPU_REFERENCE") "ordinary cost is not FullCPU reference" ;;;
  valid_measurement r ;;;
  let* op := text r "op" in
  Ok (sset op (default [] (sget op groups) ++ [r]) groups).

(** The workers of a group are [0 .. worker_count - 1], in order. *)
Definition worker_group (group : string * list record) : res unit :=
  let* workers := match group.2 with r :: _ => integer r "worker_count" | [] => Err (IndexError "list index out of range") end in
  require_res (all_res (fun r => let* n := integer r "worker_count" in Ok (n =? workers)) group.2 andM
    (let* ids := map_res (fun r => integer r "worker_id") group.2 in Ok (bool_decide (ids = seqZ 0 workers))))
    "incomplete/ambiguous worker vector".

Definition ordinary (key : SemanticKey) (x : CpuIndex) : res (list record) :=
  let rows := ordinary_rows key x in
  require (negb (Nat.eqb (length rows) 0)) "missing FullCPU ordinary reference cost" ;;;
  let records := map sm_body rows in
  let* groups := fold_res group_record [] records in
  iter_res worker_group groups ;;;
  Ok records.

(** ** The cost of a host stage *)

Definition host_row (identity : Z) (sm : Sample) : bool :=
  String.eqb (sm_role sm) "POTAL_COLLECTION" && sql_eq (sm_host sm) (Some identity).
Definition delete_host (identity : Z) (x : CpuIndex) : CpuIndex :=
  with_samples (List.filter (fun sm => negb (host_row identity sm)) (samples x)) x.

(** [CpuIndex.host]: the measurement of a declared stage, which is consumed. *)
Definition host `{Host} (r : record) (x : CpuIndex) : res (option record * CpuIndex) :=
  let* identity := integer r "host_stage_id" in
  check (bindable identity) TOO_LARGE ;;;
  let row := List.find (host_row identity) (samples x) in
  let belongs := fun sm : Sample => let* key := semantic_key r in
    require (String.eqb (sm_semantic sm) (encoded_key key)) "host measurement semantic identity mismatch" in
  (match row with
   | None => Ok tt
   | Some sm =>
       belongs sm ;;;
       let* op := item (sm_body sm) "op" in
       let* stage := item r "stage_name" in
       require (jeq op stage) "host stage name mismatch"
   end) ;;;
  let* class := item r "execution_class" in
  if eq_str class "FUNCTIONAL_EMULATION" then
    (match row with
     | None => Ok tt
     | Some sm =>
         let* role := item (sm_body sm) "duration_role" in
         require (eq_str role "OBSERVATION_ONLY" && is_false (pget (sm_body sm) "cpu_service"))
           "functional emulation claimed target CPU cost"
     end) ;;;
    Ok (None, delete_host identity x)
  else
    match row with
    | None => Err (NpuTraceError ("missing measured PoTal host stage id=" +:+ dec identity +:+ " stage=" +:+
                                  py_str (pget r "stage_name")))
    | Some sm =>
        belongs sm ;;;
        let* role := item (sm_body sm) "duration_role" in
        let* op := item (sm_body sm) "op" in
        let* stage := item r "stage_name" in
        require (eq_str role "POTAL_HOST" && jeq op stage) "host stage measurement ownership/name mismatch" ;;;
        valid_measurement (sm_body sm) ;;;
        Ok (Some (sm_body sm), delete_host identity x)
    end.

Definition finish (x : CpuIndex) : res CpuIndex :=
  require (negb (existsb (fun sm => match sm_host sm with Some _ => true | None => false end) (samples x)))
    "unexplained extra host measurement" ;;;
  validate_potal_host_additivity x.
