(* ===== verification/CpuIndexTheorems.v ===== *)
(** * What the index of CPU time guarantees

    The additivity check accepts exactly the logs in which the host intervals of
    a thread do not overlap; the index a log is loaded into keeps the ownership
    of its rows apart ([index_ok]); an ordinary cost is complete over its
    workers, and a host measurement is handed out once. *)
From stdpp Require Import sorting.
From S2P Require Import Prelude Records TraceSchema Manifest CpuIndex.
Set Default Goal Selector "!".

(** ** Pairwise relations *)

Lemma sorted_lookup {A} (R : A → A → Prop) l :
  StronglySorted R l ↔ ∀ i j a b, (i < j)%nat → l !! i = Some a → l !! j = Some b → R a b.
Proof.
  induction l as [|x l IH]; [split; [done|constructor]|]. split.
  - intros [Hl Hx]%StronglySorted_inv [|i] [|j] a b; cbn; try lia; intros Hij Ha Hb.
    + injection Ha as <-. rewrite Forall_forall in Hx. by apply Hx, (list_elem_of_lookup_2 _ j).
    + eapply (proj1 IH Hl i j); [lia|done|done].
  - intros H. constructor.
    + apply IH. intros i j a b Hij. apply (H (S i) (S j)). lia.
    + apply Forall_forall. intros y [j Hj]%list_elem_of_lookup. by apply (H O (S j)); [lia| |].
Qed.

Lemma sorted_filter {A} (R : A → A → Prop) (P : A → Prop) `{∀ x, Decision (P x)} l :
  StronglySorted R (filter P l) ↔ StronglySorted (fun a b => P a → P b → R a b) l.
Proof.
  induction l as [|x l IH]; [by split; constructor|]. rewrite filter_cons. split; case_decide as Hp; intros Hs.
  - apply StronglySorted_inv in Hs as [Hl Hx]. constructor; [by apply IH|]. rewrite Forall_forall in Hx |- *.
    intros y Hy _ Hpy. apply Hx. by apply list_elem_of_filter.
  - constructor; [by apply IH|]. by apply Forall_forall.
  - apply StronglySorted_inv in Hs as [Hl Hx]. constructor; [by apply IH|]. rewrite Forall_forall in Hx |- *.
    intros y [Hpy Hy]%list_elem_of_filter. by apply Hx.
  - apply StronglySorted_inv in Hs as [Hl _]. by apply IH.
Qed.

Lemma sorted_symmetric {A} (R : A → A → Prop) l k : Symmetric R → l ≡ₚ k → StronglySorted R l → StronglySorted R k.
Proof.
  intros HR. induction 1 as [|x l k E IH|x y l|l k m _ IH1 _ IH2]; intros Hs.
  - done.
  - apply StronglySorted_inv in Hs as [Hl Hx]. constructor; [auto|]. by rewrite <-E.
  - apply StronglySorted_inv in Hs as [[Hl Hx]%StronglySorted_inv [Hyx Hy]%Forall_cons]. constructor; [by constructor|].
    constructor; [by apply HR|done].
  - auto.
Qed.

(** ** Additivity *)

Definition disjoint (a b : Interval) : Prop := iv_end a <= iv_start b ∨ iv_end b <= iv_start a.
(** Positive intervals of the same thread, at different places of the log. *)
Definition additive (l : list Interval) : Prop := ∀ i j a b, (i < j)%nat → l !! i = Some a → l !! j = Some b →
  positive a → positive b → same_thread a b → disjoint a b.

#[export] Instance disjoint_symmetric : Symmetric disjoint.
Proof. intros a b. unfold disjoint. tauto. Qed.
#[export] Instance interval_le_total : Total interval_le.
Proof. intros a b. unfold interval_le. lia. Qed.
#[export] Instance interval_le_transitive : Transitive interval_le.
Proof. intros a b c. unfold interval_le. lia. Qed.

(** On positive intervals in the order of their starts, the window finds an
    earlier end beyond a start exactly when two of them overlap. *)
Lemma prior_overlap_sorted l prior : StronglySorted interval_le l → Forall positive l →
  prior_overlap prior l = false ↔
  (∀ e, prior = Some e → Forall (fun iv => e <= iv_start iv) l) ∧ StronglySorted disjoint l.
Proof.
  revert prior. induction l as [|iv l IH]; intros prior Hs Hp; cbn [prior_overlap].
  - split; [|done]. intros _. split; [|constructor]. by intros e _.
  - apply StronglySorted_inv in Hs as [Hs Hiv]. apply Forall_cons in Hp as [Hpos Hp]. unfold positive in Hpos.
    rewrite orb_false_iff, IH by done.
    assert (Hnext : (∀ e, prior = Some e → e <= iv_start iv) →
      (∀ e, Some (match prior with Some e => Z.max e (iv_end iv) | None => iv_end iv end) = Some e →
         Forall (fun x => e <= iv_start x) l) ↔ Forall (disjoint iv) l).
    { intros Hprior. assert (E : match prior with Some e => Z.max e (iv_end iv) | None => iv_end iv end = iv_end iv).
      { destruct prior as [e|]; [|done]. specialize (Hprior e eq_refl). lia. }
      rewrite E. rewrite !Forall_forall in *. split.
      - intros H x Hx. left. specialize (H _ eq_refl). rewrite Forall_forall in H. by apply H.
      - intros H e [= <-]. apply Forall_forall. intros x Hx. specialize (Hp x Hx). specialize (Hiv x Hx).
        unfold positive, interval_le in *. destruct (H x Hx); lia. }
    split.
    + intros (Hc & Hf & Hd). assert (Hprior : ∀ e, prior = Some e → e <= iv_start iv).
      { intros e ->. by apply Z.ltb_ge. }
      split; [|constructor; [done|by apply Hnext]]. intros e ->. specialize (Hprior e eq_refl). constructor; [done|].
      rewrite Forall_forall in Hiv |- *. intros x Hx. specialize (Hiv x Hx). unfold interval_le in Hiv. lia.
    + intros [Hf [Hd Hx]%StronglySorted_inv]. assert (Hprior : ∀ e, prior = Some e → e <= iv_start iv).
      { intros e He. specialize (Hf e He). by apply Forall_cons in Hf as [? _]. }
      split; [|split; [by apply Hnext|done]]. destruct prior as [e|]; [|done]. by apply Z.ltb_ge, Hprior.
Qed.

Lemma overlap_additive l : overlap l = false ↔ additive l.
Proof.
  assert (Hpart : ∀ a, prior_overlap None (merge_sort interval_le (partition a l)) = false ↔
    StronglySorted (fun x y => (same_thread a x ∧ positive x) → (same_thread a y ∧ positive y) → disjoint x y) l).
  { intros a. pose proof (merge_sort_Permutation interval_le (partition a l)) as E.
    rewrite prior_overlap_sorted; [|apply (StronglySorted_merge_sort _)|].
    - unfold partition. rewrite <-sorted_filter, <-list_filter_filter. split.
      + intros [_ Hd]. by eapply (sorted_symmetric disjoint); [apply _|exact E|].
      + intros Hd. split; [done|]. by eapply (sorted_symmetric disjoint); [apply _|symmetry; exact E|].
    - rewrite E. apply Forall_forall. unfold partition. intros x Hx. rewrite !list_elem_of_filter in Hx. tauto. }
  unfold overlap. rewrite <-not_true_iff_false, existsb_exists. split.
  - intros H i j a b Hij Ha Hb Hpa Hpb Hab.
    assert (Hov : prior_overlap None (merge_sort interval_le (partition a l)) = false).
    { apply not_true_iff_false. intros Ho. apply H. exists a. split; [|done]. by apply list_elem_of_In, (list_elem_of_lookup_2 _ i). }
    apply Hpart in Hov. rewrite sorted_lookup in Hov. apply (Hov i j a b); auto. by split.
  - intros H (a & _ & Ho). apply not_false_iff_true in Ho. apply Ho, Hpart, sorted_lookup.
    intros i j x y Hij Hx Hy [[E1 E2] Hpx] [[E3 E4] Hpy]. apply (H i j); auto. split; congruence.
Qed.

(** C37: The additivity check accepts an index exactly when the host intervals
    of each thread are additive: of two positive intervals that one thread of
    one execution spent in host stages, one ends before the other starts. *)
Theorem additivity_exact x :
  (∃ x', validate_potal_host_additivity x = Ok x') ↔ additive (intervals x).
Proof.
  rewrite <-overlap_additive. unfold validate_potal_host_additivity, require. destruct (overlap (intervals x)); cbn; split.
  - by intros [? ?].
  - done.
  - done.
  - intros _. by eexists.
Qed.

(** ** The rows of a loaded index *)

Lemma sget_project k names r : sget k (project names r) = if str_in k names then sget k r else None.
Proof.
  induction names as [|n names IH]; [done|]. unfold project in *. cbn [omap list_omap].
  unfold str_in in *. cbn [existsb]. destruct (sget n r) as [v|] eqn:E; cbn [fmap option_fmap option_map aget].
  - destruct (String.eqb_spec k n) as [->|]; cbn [orb]; [done|exact IH].
  - rewrite IH. destruct (String.eqb_spec k n) as [->|]; cbn [orb]; [|done]. rewrite E. by destruct (existsb _ _).
Qed.

Definition hosted (sm : Sample) : bool := match sm_host sm with Some _ => true | None => false end.

(** Who owns a row: a host stage of the PoTal run, or a worker of the FullCPU run. *)
Record sample_ok (sm : Sample) : Prop := {
  so_host : ∀ id, sm_host sm = Some id → sm_role sm = "POTAL_COLLECTION" ∧
    pget (sm_body sm) "duration_role" = JStr "POTAL_HOST";
  so_ordinary : sm_host sm = None → sm_role sm = "FULL_CPU" ∧
    pget (sm_body sm) "duration_role" = JStr "ORDINARY_CPU_REFERENCE";
  so_stage : pget (sm_body sm) "op" = JStr (sm_stage sm);
}.

(** The interval a host row was measured in. *)
Record measured_in (sm : Sample) (iv : Interval) : Prop := {
  mi_execution : text (sm_body sm) "host_execution_id" = Ok (iv_execution iv);
  mi_thread : integer (sm_body sm) "thread_id" = Ok (iv_thread iv);
  mi_start : integer (sm_body sm) "host_start_ns" = Ok (iv_start iv);
  mi_end : integer (sm_body sm) "host_end_ns" = Ok (iv_end iv);
}.

Record index_ok (l : list Sample) (ivs : list Interval) : Prop := {
  ix_samples : Forall sample_ok l;
  ix_unique : StronglySorted (fun a b => conflicts b a = false) l;
  ix_intervals : Forall2 measured_in (List.filter hosted l) ivs;
}.
Definition loading_ok (s : Loading) : Prop :=
  index_ok (samples (loaded s)) (intervals (loaded s) ++ canonical_batch s).

Lemma sorted_last {A} (R : A → A → Prop) l x : StronglySorted R l → Forall (fun a => R a x) l → StronglySorted R (l ++ [x]).
Proof.
  induction 1 as [|a l Hs IH Ha]; cbn; intros Hx; [repeat constructor|]. apply Forall_cons in Hx as [? Hx].
  constructor; [auto|]. apply Forall_app. by repeat constructor.
Qed.

Lemma insert_sample_Ok sm x x' : insert_sample sm x = Ok x' →
  x' = with_samples (samples x ++ [sm]) x ∧ Forall (fun a => conflicts sm a = false) (samples x) ∧
  ∀ id, sm_host sm = Some id → bindable id = true.
Proof.
  unfold insert_sample. intros H. apply bind_Ok in H as ([] & Hb%check_Ok & H).
  apply bind_Ok in H as ([] & Hc%check_Ok & <-%Ok_eq). split; [done|]. split.
  - apply negb_true_iff in Hc. rewrite <-not_true_iff_false, existsb_exists in Hc. apply Forall_forall. intros a Ha.
    apply not_true_iff_false. intros E. apply Hc. exists a. by rewrite <-list_elem_of_In.
  - intros id E. cbn in Hb. rewrite E in Hb. by rewrite !andb_true_r in Hb; apply andb_prop in Hb as [_ [_ Hb]%andb_prop].
Qed.

Lemma insert_intervals_Ok batch x x' : insert_intervals batch x = Ok x' →
  samples x' = samples x ∧ intervals x' = intervals x ++ batch.
Proof. unfold insert_intervals. intros H. by apply bind_Ok in H as ([] & _ & <-%Ok_eq). Qed.

(** The two owners of a claimed cost, by the role of the collection. *)
Lemma claimed_role role duration_role : duration_role ≠ "OBSERVATION_ONLY" →
  duration_role ∈ (if String.eqb role "FULL_CPU" then ["ORDINARY_CPU_REFERENCE"; "OBSERVATION_ONLY"]
                   else ["POTAL_HOST"; "OBSERVATION_ONLY"]) →
  (role = "FULL_CPU" ∧ duration_role = "ORDINARY_CPU_REFERENCE") ∨ (role ≠ "FULL_CPU" ∧ duration_role = "POTAL_HOST").
Proof. destruct (String.eqb_spec role "FULL_CPU"); rewrite !elem_of_cons, elem_of_nil; tauto. Qed.

Section Loads.
Context (lower : string → string) (name : string) (manifest target : Manifest) (role : string).

Lemma add_interval_Ok s r s' : add_interval s r = Ok s' → ∃ iv, samples (loaded s') = samples (loaded s) ∧
  intervals (loaded s') ++ canonical_batch s' = intervals (loaded s) ++ canonical_batch s ++ [iv] ∧
  text r "host_execution_id" = Ok (iv_execution iv) ∧ integer r "thread_id" = Ok (iv_thread iv) ∧
  integer r "host_start_ns" = Ok (iv_start iv) ∧ integer r "host_end_ns" = Ok (iv_end iv).
Proof.
  unfold add_interval. intros H. apply bind_Ok in H as (e & He & H). apply bind_Ok in H as (t & Ht & H).
  apply bind_Ok in H as (a & Ha & H). apply bind_Ok in H as (b & Hb & H).
  exists {| iv_execution := e; iv_thread := t; iv_start := a; iv_end := b |}.
  destruct (Nat.eqb _ BATCH).
  - apply bind_Ok in H as (x & [Hs Hi]%insert_intervals_Ok & <-%Ok_eq). cbn. rewrite app_nil_r. by rewrite Hs, Hi.
  - by apply Ok_eq in H as <-.
Qed.

(** The fields the index stores are those of the record. *)
Lemma body_field k r line : str_in k BODY_KEYS = true → String.eqb k "source_line" = false →
  pget (sset "source_line" (JInt line) (project BODY_KEYS r)) k = pget r k.
Proof.
  intros Hk Hne. unfold pget. rewrite aget_aset by apply String.eqb_eq. by rewrite Hne, sget_project, Hk.
Qed.

Lemma store_interval_ok s line r key duration_role op host s' : loading_ok s →
  text r "duration_role" = Ok duration_role → text r "op" = Ok op → str_in duration_role
    (if String.eqb role "FULL_CPU" then ["ORDINARY_CPU_REFERENCE"; "OBSERVATION_ONLY"] else ["POTAL_HOST"; "OBSERVATION_ONLY"]) = true →
  duration_role ≠ "OBSERVATION_ONLY" →
  store_interval name manifest role s line r key duration_role op host = Ok s' → loading_ok s'.
Proof.
  intros [Hs Hu Hi] [Hrole _]%text_Ok [Hop _]%text_Ok Hall%str_in_spec Hobs.
  pose proof (claimed_role _ _ Hobs Hall) as Hclaim. clear Hall. unfold store_interval. intros H.
  apply bind_Ok in H as ([] & Hh%check_Ok_any & H). apply bind_Ok in H as ([] & Hp%check_Ok_any & H).
  apply bind_Ok in H as ([] & _ & H). apply bind_Ok in H as (s1 & Hs1 & H). apply bind_Ok in H as (worker & _ & H).
  apply bind_Ok in H as (workers & _ & H). apply bind_Ok in H as ([] & _ & H).
  match type of H with match insert_sample ?row _ with _ => _ end = _ => set (sm := row) in H end.
  destruct (insert_sample sm (loaded s1)) as [x|e] eqn:Ex; [|by destruct e]. apply Ok_eq in H as <-.
  apply insert_sample_Ok in Ex as (-> & Hfresh & _).
  assert (Hsm : sample_ok sm).
  { constructor; cbn [sm sm_host sm_role sm_body sm_stage].
    - intros id ->. apply String.eqb_eq in Hh. split; [done|]. rewrite body_field, Hrole by done.
      destruct Hclaim as [[Hf _]|[_ ->]]; [by rewrite Hf in Hh|done].
    - intros ->. rewrite orb_false_r in Hp. apply negb_true_iff, String.eqb_neq in Hp.
      rewrite body_field, Hrole by done. by destruct Hclaim as [[-> ->]|[_ Hr]].
    - by rewrite body_field, Hop. }
  assert (Hs1' : samples (loaded s1) = samples (loaded s) ∧
    Forall2 measured_in (List.filter hosted (samples (loaded s)) ++ List.filter hosted [sm]) (intervals (loaded s1) ++ canonical_batch s1)).
  { destruct (String.eqb_spec duration_role "POTAL_HOST") as [->|Hne].
    - apply add_interval_Ok in Hs1 as (iv & E & -> & He & Ht & Ha & Hb). split; [done|]. rewrite (assoc_L (++)).
      apply Forall2_app; [done|]. destruct host as [id|]; [|done]. cbn [List.filter hosted sm sm_host]. repeat constructor; cbn [sm sm_body].
      all: unfold text, integer in *; by rewrite body_field.
    - apply Ok_eq in Hs1 as <-. split; [done|]. destruct host as [id|]; cbn [List.filter hosted sm sm_host]; [|by rewrite app_nil_r].
      apply String.eqb_eq in Hh. by destruct Hclaim as [[Hf _]|[_ Hr]]; [rewrite Hf in Hh|]. }
  destruct Hs1' as [E Hi']. unfold loading_ok. cbn [loaded canonical_batch samples intervals with_samples]. constructor.
  - rewrite E, Forall_app, Forall_singleton. done.
  - rewrite E in *. by apply sorted_last.
  - by rewrite List.filter_app, E.
Qed.

Lemma load_record_ok s entry s' : loading_ok s → load_record lower name manifest target role s entry = Ok s' → loading_ok s'.
Proof.
  intros Hok. destruct entry as [position r]. unfold load_record.
  assert (Hobserve : ∀ n, loading_ok (on_index (observe n) s)) by done.
  destruct (is_null _).
  { unfold compact_record. intros H. apply bind_Ok in H as ([] & _ & H). by apply bind_Ok in H as (kind & _ & <-%Ok_eq). }
  intros H. apply bind_Ok in H as ([] & _ & H). destruct (negb _).
  { unfold telemetry_record in H. by apply bind_Ok in H as ([] & _ & <-%Ok_eq). }
  destruct (eq_str _ _).
  { unfold outside_record in H. by apply bind_Ok in H as ([] & _ & <-%Ok_eq). }
  unfold interval_record in H. apply bind_Ok in H as (key & _ & H). apply bind_Ok in H as ([] & _ & H).
  apply bind_Ok in H as (duration_role & Hrole & H). apply bind_Ok in H as ([] & _ & H).
  apply bind_Ok in H as ([] & Hall%check_Ok_any & H). apply bind_Ok in H as (host & _ & H).
  destruct (String.eqb_spec duration_role "OBSERVATION_ONLY") as [|Hobs].
  { unfold observed_record in H. apply bind_Ok in H as (class & _ & H). by apply bind_Ok in H as ([] & _ & <-%Ok_eq). }
  apply bind_Ok in H as (op & Hop & H). apply bind_Ok in H as (payload & _ & H). apply bind_Ok in H as (logical & _ & H).
  match type of H with (if ?b then _ else _) = _ => destruct b end.
  { by apply bind_Ok in H as ([] & _ & <-%Ok_eq). }
  by eapply store_interval_ok.
Qed.
End Loads.

(** Loading keeps the rows apart, and records one interval per host row. *)
Lemma load_ok lower name target manifest records x x' :
  index_ok (samples x) (intervals x) → load lower name target manifest records x = Ok x' → index_ok (samples x') (intervals x').
Proof.
  intros Hx H. unfold load in H. apply bind_Ok in H as (role & _ & H). apply bind_Ok in H as (s & Hs & H).
  assert (Hok : loading_ok s).
  { eapply (fold_res_inv loading_ok); [| |exact Hs].
    - unfold loading_ok. cbn. by rewrite app_nil_r.
    - intros e s1 s2 _. apply load_record_ok. }
  unfold loading_ok in Hok. destruct (canonical_batch s) as [|iv batch].
  - apply Ok_eq in H as <-. by rewrite app_nil_r in Hok.
  - apply insert_intervals_Ok in H as [-> ->]. done.
Qed.

Lemma empty_index_ok : index_ok (samples empty_index) (intervals empty_index).
Proof. by repeat constructor. Qed.

(** ** Ordinary costs *)

(** What the FullCPU log recorded under the key of a node. *)
Definition ordinary_sample (key : SemanticKey) (sm : Sample) : bool :=
  String.eqb (sm_role sm) "FULL_CPU" && String.eqb (sm_semantic sm) (encoded_key key) && negb (hosted sm).

Lemma ordinary_rows_perm key x : ordinary_rows key x ≡ₚ List.filter (ordinary_sample key) (samples x).
Proof.
  unfold ordinary_rows. rewrite merge_sort_Permutation. induction (samples x) as [|sm l IH]; [done|]. cbn.
  assert (E : ordinary_sample key sm = (String.eqb (sm_role sm) "FULL_CPU" && String.eqb (sm_semantic sm) (encoded_key key) &&
    match sm_host sm with None => true | Some _ => false end)).
  { unfold ordinary_sample, hosted. by destruct (sm_host sm). }
  rewrite <-E. destruct (ordinary_sample key sm); [by rewrite IH|done].
Qed.

Definition of_op (op : string) (r : record) : Prop := pget r "op" = JStr op.
#[export] Instance json_str_dec j s : Decision (j = JStr s).
Proof. destruct j as [| | | |t| |]; try (by right). destruct (decide (t = s)); [left; congruence|right; congruence]. Defined.
#[export] Instance of_op_dec op r : Decision (of_op op r).
Proof. apply json_str_dec. Defined.

Lemma group_records_ok records groups : fold_res group_record [] records = Ok groups →
  (∀ op, default [] (sget op groups) = filter (of_op op) records) ∧ ∀ r, r ∈ records → valid_measurement r = Ok tt.
Proof.
  apply (fold_res_hist (fun pre g => (∀ op, default [] (sget op g) = filter (of_op op) pre) ∧
    ∀ r, r ∈ pre → valid_measurement r = Ok tt)).
  - split; [done|]. by intros r ?%elem_of_nil.
  - intros pre r post g1 g2 _ [Hg Hv] H. unfold group_record in H.
    apply bind_Ok in H as (role & _ & H). apply bind_Ok in H as ([] & _ & H).
    apply bind_Ok in H as ([] & Hm & H). apply bind_Ok in H as (op & [Hop _]%text_Ok & <-%Ok_eq). split.
    + intros op'. rewrite aget_aset by apply String.eqb_eq. rewrite filter_app, filter_cons, filter_nil.
      destruct (String.eqb_spec op' op) as [->|Hne]; cbn [default].
      * by rewrite decide_True, Hg.
      * rewrite decide_False, app_nil_r; [apply Hg|]. unfold of_op. congruence.
    + intros r' [Hr|Hr%list_elem_of_singleton]%elem_of_app; [auto|by subst].
Qed.

(** The workers of a group, in the order of the rows. *)
Definition worker_ids (group : list record) (workers : Z) : Prop :=
  map_res (fun r => integer r "worker_id") group = Ok (seqZ 0 workers) ∧
  ∀ r, r ∈ group → integer r "worker_count" = Ok workers.

Lemma worker_group_ok op group : worker_group (op, group) = Ok tt → ∃ workers, 0 < workers ∧ worker_ids group workers.
Proof.
  unfold worker_group. cbn [snd]. destruct group as [|r group]; [done|]. intros H.
  apply bind_Ok in H as (n & Hn & H%require_m_Ok). apply and_then_Ok_true in H as [Hall H]. rewrite all_res_Ok_true in Hall.
  apply bind_Ok in H as (ids & Hids & H%Ok_eq%bool_decide_eq_true). subst ids. exists n. split.
  - apply map_res_Ok, Forall2_length in Hids. rewrite length_seqZ in Hids. cbn in Hids. lia.
  - split; [done|]. rewrite Forall_forall in Hall. intros r' Hr'. specialize (Hall r' Hr').
    by apply bind_Ok in Hall as (k & -> & ->%Ok_eq%Z.eqb_eq).
Qed.

(** *** What the FullCPU log recorded under a node *)

(** The record [r] of a log claims the ordinary cost of the node [key]: it is an
    interval of the collection under that key, of a FullCPU reference and not of
    a host stage, at the stage the manifest gives the operation of the node. *)
Definition ordinary_claim (lower : string → string) (manifest : Manifest) (key : SemanticKey) (r : record) : bool :=
  negb (is_null (pget r "schema")) && eq_str (pget r "record_type") "CYCLE_INTERVAL" &&
  negb (eq_str (pget r "exclusion_reason") "outside_collection") &&
  eq_str (pget r "duration_role") "ORDINARY_CPU_REFERENCE" && is_null (pget r "host_stage_id") &&
  match semantic_key r with
  | Ok k => String.eqb (encoded_key k) (encoded_key key) &&
      match (let* payload := payload_of manifest k in text payload "op") with
      | Ok logical => eq_str (pget r "op") (cpu_stage lower logical)
      | Err _ => false
      end
  | Err _ => false
  end.
(** What is kept of a record: the fields of a cost, with the line it is on. *)
Definition claimed_cost (entry : nat * record) : record :=
  sset "source_line" (JInt (Z.of_nat entry.1 + 1)) (project BODY_KEYS entry.2).
Definition claimed_costs lower manifest key (log : list (nat * record)) : list record :=
  map claimed_cost (List.filter (fun entry => ordinary_claim lower manifest key entry.2) log).
(** The costs of the node an index holds. *)
Definition ordinary_costs (key : SemanticKey) (l : list Sample) : list record :=
  map sm_body (List.filter (ordinary_sample key) l).

Lemma ordinary_costs_app key l k : ordinary_costs key (l ++ k) = ordinary_costs key l ++ ordinary_costs key k.
Proof. unfold ordinary_costs. by rewrite List.filter_app, map_app. Qed.

Section Recorded.
Context (lower : string → string) (name : string) (manifest target : Manifest) (key : SemanticKey).

Lemma store_interval_samples role s line r k duration_role op host s' :
  store_interval name manifest role s line r k duration_role op host = Ok s' → ∃ worker workers,
    samples (loaded s') = samples (loaded s) ++ [{| sm_role := role; sm_semantic := encoded_key k; sm_stage := op; sm_worker := worker;
      sm_workers := workers; sm_host := host; sm_body := sset "source_line" (JInt line) (project BODY_KEYS r) |}] ∧
    (host = None ∨ role = "POTAL_COLLECTION").
Proof.
  unfold store_interval. intros H. apply bind_Ok in H as ([] & Hh%check_Ok_any & H). apply bind_Ok in H as ([] & _ & H).
  apply bind_Ok in H as ([] & _ & H). apply bind_Ok in H as (s1 & Hs1 & H). apply bind_Ok in H as (worker & _ & H).
  apply bind_Ok in H as (workers & _ & H). apply bind_Ok in H as ([] & _ & H). exists worker, workers.
  match type of H with match insert_sample ?row _ with _ => _ end = _ => set (sm := row) in H end.
  destruct (insert_sample sm (loaded s1)) as [x|e] eqn:Ex; [|by destruct e]. apply Ok_eq in H as <-.
  apply insert_sample_Ok in Ex as (-> & _ & _). cbn [loaded samples with_samples]. split.
  - destruct (String.eqb duration_role "POTAL_HOST"); [by apply add_interval_Ok in Hs1 as (iv & -> & _)|by apply Ok_eq in Hs1 as <-].
  - destruct host; [right; by apply String.eqb_eq|by left].
Qed.

(** One record adds its cost when it claims one, and nothing otherwise. *)
Lemma load_record_costs s entry s' : load_record lower name manifest target "FULL_CPU" s entry = Ok s' →
  ordinary_costs key (samples (loaded s')) = ordinary_costs key (samples (loaded s)) ++ claimed_costs lower manifest key [entry].
Proof.
  destruct entry as [position r]. unfold claimed_costs. cbn [List.filter snd]. unfold load_record, ordinary_claim.
  destruct (is_null (pget r "schema")); cbn [negb andb].
  { unfold compact_record. intros H. apply bind_Ok in H as ([] & _ & H). apply bind_Ok in H as (kind & _ & <-%Ok_eq).
    symmetry. apply app_nil_r. }
  intros H. apply bind_Ok in H as ([] & _ & H). destruct (eq_str (pget r "record_type") _); cbn [negb andb] in H |- *.
  2: { unfold telemetry_record in H. apply bind_Ok in H as ([] & _ & <-%Ok_eq). symmetry. apply app_nil_r. }
  destruct (eq_str (pget r "exclusion_reason") _); cbn [negb andb].
  { unfold outside_record in H. apply bind_Ok in H as ([] & _ & <-%Ok_eq). symmetry. apply app_nil_r. }
  unfold interval_record in H. apply bind_Ok in H as (k & Hk & H). apply bind_Ok in H as ([] & _ & H).
  apply bind_Ok in H as (duration_role & [Hrole _]%text_Ok & H). apply bind_Ok in H as ([] & _ & H).
  apply bind_Ok in H as ([] & Hall%check_Ok_any%str_in_spec & H). apply bind_Ok in H as (host & Hhost & H).
  rewrite Hrole. destruct (String.eqb_spec duration_role "OBSERVATION_ONLY") as [->|Hobs].
  { unfold observed_record in H. apply bind_Ok in H as (class & _ & H). apply bind_Ok in H as ([] & _ & <-%Ok_eq).
    symmetry. apply app_nil_r. }
  destruct (claimed_role "FULL_CPU" duration_role Hobs Hall) as [[_ ->]|[Hne _]]; [|done].
  change (eq_str (JStr "ORDINARY_CPU_REFERENCE") "ORDINARY_CPU_REFERENCE") with true. cbn [andb]. rewrite Hk.
  apply bind_Ok in H as (op & [Hop _]%text_Ok & H). apply bind_Ok in H as (payload & Hpay & H).
  apply bind_Ok in H as (logical & Hlog & H). rewrite Hpay. cbn [mbind res_bind]. rewrite Hlog, Hop.
  change (eq_str (JStr op) (cpu_stage lower logical)) with (String.eqb op (cpu_stage lower logical)).
  unfold get_integer in Hhost. destruct (is_null (pget r "host_stage_id")); cbn [andb].
  - apply Ok_eq in Hhost as <-. destruct (String.eqb op (cpu_stage lower logical)); cbn [negb] in H.
    + apply store_interval_samples in H as (worker & workers & -> & _). rewrite ordinary_costs_app. f_equal.
      unfold ordinary_costs. cbn [List.filter]. unfold ordinary_sample at 1. cbn [sm_role sm_semantic hosted sm_host negb].
      change (String.eqb "FULL_CPU" "FULL_CPU") with true. cbn [andb]. rewrite !andb_true_r.
      by destruct (String.eqb (encoded_key k) (encoded_key key)).
    + apply bind_Ok in H as ([] & _ & <-%Ok_eq). rewrite andb_false_r. symmetry. apply app_nil_r.
  - apply bind_Ok in Hhost as (v & _ & <-%Ok_eq). by apply store_interval_samples in H as (? & ? & _ & [?|?]).
Qed.

Lemma load_record_other role s entry s' : role ≠ "FULL_CPU" → load_record lower name manifest target role s entry = Ok s' →
  ordinary_costs key (samples (loaded s')) = ordinary_costs key (samples (loaded s)).
Proof.
  intros Hne. destruct entry as [position r]. unfold load_record. destruct (is_null _).
  { unfold compact_record. intros H. apply bind_Ok in H as ([] & _ & H). by apply bind_Ok in H as (kind & _ & <-%Ok_eq). }
  intros H. apply bind_Ok in H as ([] & _ & H). destruct (negb _).
  { unfold telemetry_record in H. by apply bind_Ok in H as ([] & _ & <-%Ok_eq). }
  destruct (eq_str _ _).
  { unfold outside_record in H. by apply bind_Ok in H as ([] & _ & <-%Ok_eq). }
  unfold interval_record in H. apply bind_Ok in H as (k & _ & H). apply bind_Ok in H as ([] & _ & H).
  apply bind_Ok in H as (duration_role & _ & H). apply bind_Ok in H as ([] & _ & H).
  apply bind_Ok in H as ([] & _ & H). apply bind_Ok in H as (host & _ & H).
  destruct (String.eqb duration_role "OBSERVATION_ONLY").
  { unfold observed_record in H. apply bind_Ok in H as (class & _ & H). by apply bind_Ok in H as ([] & _ & <-%Ok_eq). }
  apply bind_Ok in H as (op & _ & H). apply bind_Ok in H as (payload & _ & H). apply bind_Ok in H as (logical & _ & H).
  match type of H with (if ?b then _ else _) = _ => destruct b end.
  { by apply bind_Ok in H as ([] & _ & <-%Ok_eq). }
  apply store_interval_samples in H as (worker & workers & -> & _). rewrite ordinary_costs_app. unfold ordinary_costs at 2.
  cbn [List.filter]. unfold ordinary_sample at 1. cbn [sm_role]. apply String.eqb_neq in Hne as ->. apply app_nil_r.
Qed.

(** Loading the FullCPU log adds the costs its records claim, in their order;
    loading the log of another role adds none. *)
Lemma load_costs log x x' : load lower name target manifest log x = Ok x' →
  ordinary_costs key (samples x') = ordinary_costs key (samples x) ++
    if match text (Manifest.run manifest) "source_role" with Ok role => String.eqb role "FULL_CPU" | Err _ => false end
    then claimed_costs lower manifest key (numbered log) else [].
Proof.
  unfold load. intros H. apply bind_Ok in H as (role & Hrole & H). apply bind_Ok in H as (s & Hs & H).
  assert (E : samples x' = samples (loaded s)).
  { destruct (canonical_batch s); [by apply Ok_eq in H as <-|by apply insert_intervals_Ok in H as [-> _]]. }
  rewrite E. clear H E. rewrite Hrole. destruct (decide (role = "FULL_CPU")) as [->|Hne].
  - change (String.eqb "FULL_CPU" "FULL_CPU") with true.
    apply (fold_res_hist (fun pre s => ordinary_costs key (samples (loaded s)) =
      ordinary_costs key (samples x) ++ claimed_costs lower manifest key pre)) in Hs; [done|by rewrite app_nil_r|].
    intros pre entry post s1 s2 _ IH Hl%load_record_costs. rewrite Hl, IH, <-(assoc_L (++)). f_equal.
    unfold claimed_costs. by rewrite List.filter_app, map_app.
  - rewrite (proj2 (String.eqb_neq _ _) Hne), app_nil_r.
    apply (fold_res_inv (fun s => ordinary_costs key (samples (loaded s)) = ordinary_costs key (samples x))) in Hs; [done|done|].
    intros entry s1 s2 _ IH Hl%load_record_other; [|done]. by rewrite Hl.
Qed.
End Recorded.

(** C38: The cost of an ordinary node is complete: when the FullCPU log and then
    the PoTal log were loaded, it is exactly what the records of the FullCPU log
    claim for the node, each with its line and none left out or counted twice;
    every one is a valid measurement, and for each stage there is one interval
    of each worker [0 .. n-1], [n] positive. *)
Theorem ordinary_complete lower name name' target target' full potal log log' x1 x2 key records :
  text (Manifest.run full) "source_role" = Ok "FULL_CPU" →
  text (Manifest.run potal) "source_role" = Ok "POTAL_COLLECTION" →
  load lower name target full log empty_index = Ok x1 → load lower name' target' potal log' x1 = Ok x2 →
  ordinary key x2 = Ok records →
  records ≡ₚ claimed_costs lower full key (numbered log) ∧ records ≠ [] ∧
  (∀ r, r ∈ records → valid_measurement r = Ok tt) ∧
  ∀ op, filter (of_op op) records ≠ [] → ∃ workers, 0 < workers ∧ worker_ids (filter (of_op op) records) workers.
Proof.
  intros Hfull Hpotal Hl1%(load_costs lower name full target key) Hl2%(load_costs lower name' potal target' key) H.
  rewrite Hfull in Hl1. rewrite Hpotal in Hl2.
  change (String.eqb "POTAL_COLLECTION" "FULL_CPU") with false in Hl2. change (String.eqb "FULL_CPU" "FULL_CPU") with true in Hl1.
  change (ordinary_costs key (samples empty_index)) with (@nil record) in Hl1. cbn [app] in Hl1. rewrite app_nil_r, Hl1 in Hl2.
  unfold ordinary in H. apply bind_Ok in H as ([] & Hne%check_Ok_any & H).
  apply bind_Ok in H as (groups & [Hg Hv]%group_records_ok & H). apply bind_Ok in H as ([] & Hw & <-%Ok_eq).
  split; [rewrite ordinary_rows_perm; by rewrite <-Hl2|]. split.
  { apply negb_true_iff, Nat.eqb_neq in Hne. by destruct (ordinary_rows key x2). }
  split; [done|]. intros op Hop. rewrite <-(Hg op) in Hop |- *. destruct (sget op groups) as [group|] eqn:E; [|done].
  apply aget_In in E; [|apply String.eqb_eq]. rewrite iter_res_Ok, Forall_forall in Hw. by apply (worker_group_ok op), Hw.
Qed.

(** ** Host costs *)

Lemma filter_unique {A} (p : A → bool) l x :
  StronglySorted (fun a b => p a = true → p b = true → False) l → x ∈ l → p x = true →
  l ≡ₚ x :: List.filter (fun a => negb (p a)) l.
Proof.
  induction l as [|a l IH]; [by intros _ ?%elem_of_nil|]. intros [Hs Ha]%StronglySorted_inv Hin Hx. cbn.
  rewrite Forall_forall in Ha. apply elem_of_cons in Hin as [E|Hin].
  - subst a. rewrite Hx. cbn. constructor. assert (E : List.filter (fun b => negb (p b)) l = l); [|by rewrite E].
    assert (Hall : ∀ b, b ∈ l → p b = false).
    { intros b Hb. apply not_true_iff_false. intros E. by apply (Ha b Hb). }
    clear -Hall. induction l as [|b l IH]; [done|]. cbn. rewrite (Hall b) by constructor. cbn. f_equal.
    apply IH. intros c Hc. apply Hall. by constructor.
  - destruct (p a) eqn:Ea; [by destruct (Ha x Hin eq_refl)|]. cbn. rewrite Permutation_swap. constructor. auto.
Qed.

(** The part of [index_ok] that consuming measurements keeps. *)
Record rows_ok (l : list Sample) : Prop := {
  rw_samples : Forall sample_ok l;
  rw_unique : StronglySorted (fun a b => conflicts b a = false) l;
}.

Lemma index_rows l ivs : index_ok l ivs → rows_ok l.
Proof. by intros []. Qed.

Lemma rows_ok_filter (p : Sample → bool) l : rows_ok l → rows_ok (List.filter p l).
Proof.
  intros [Hs Hu]. assert (E : List.filter p l = filter (fun a => p a = true) l).
  { clear. induction l as [|a l IH]; [done|]. rewrite filter_cons. cbn. destruct (p a); cbn; by rewrite IH. }
  rewrite E. constructor.
  - apply Forall_forall. intros a [_ Ha]%list_elem_of_filter. rewrite Forall_forall in Hs. by apply Hs.
  - apply sorted_filter. rewrite sorted_lookup in Hu |- *. intros i j a b Hij Hi Hj _ _. by apply (Hu i j).
Qed.

Lemma host_row_spec id sm : host_row id sm = true ↔ sm_role sm = "POTAL_COLLECTION" ∧ sm_host sm = Some id.
Proof.
  unfold host_row, sql_eq. rewrite andb_true_iff, String.eqb_eq. destruct (sm_host sm) as [h|]; [|naive_solver].
  rewrite Z.eqb_eq. naive_solver.
Qed.

Lemma delete_host_perm id x sm : rows_ok (samples x) → sm ∈ samples x → host_row id sm = true →
  samples x ≡ₚ sm :: samples (delete_host id x).
Proof.
  intros [_ Hu] Hin Hrow. apply (filter_unique (host_row id)); [|done|done].
  rewrite sorted_lookup in Hu |- *. intros i j a b Hij Ha Hb [E1 E2]%host_row_spec [E3 E4]%host_row_spec.
  specialize (Hu i j a b Hij Ha Hb). unfold conflicts in Hu. by rewrite E1, E2, E3, E4, String.eqb_refl, Z.eqb_refl in Hu.
Qed.

Lemma delete_host_none id x : List.find (host_row id) (samples x) = None → samples (delete_host id x) = samples x.
Proof.
  intros H. cbn. pose proof (List.find_none _ _ H) as Hn. clear H. induction (samples x) as [|a l IH]; [done|]. cbn.
  rewrite (Hn a) by by left. cbn. f_equal. apply IH. intros b Hb. apply Hn. by right.
Qed.

(** A stage is measured when its class is the host's own work; its row is then
    taken out of the table.  An emulated stage has no row. *)
Definition taken (r : record) (id : Z) (x : CpuIndex) (m : option record) (x' : CpuIndex) : Prop :=
  match m with
  | Some body => pget r "execution_class" ≠ JStr "FUNCTIONAL_EMULATION" ∧ valid_measurement body = Ok tt ∧
      ∃ sm, sm_host sm = Some id ∧ sm_body sm = body ∧ samples x ≡ₚ sm :: samples x' ∧
        ∃ key, semantic_key r = Ok key ∧ sm_semantic sm = encoded_key key
  | None => pget r "execution_class" = JStr "FUNCTIONAL_EMULATION" ∧ samples x' = samples x
  end.

Lemma host_taken `{Host} r x m x' : rows_ok (samples x) → host r x = Ok (m, x') →
  ∃ id, integer r "host_stage_id" = Ok id ∧ x' = delete_host id x ∧ taken r id x m x'.
Proof.
  intros Hok Hh. unfold host in Hh. apply bind_Ok in Hh as (id & Hid & Hh). apply bind_Ok in Hh as ([] & _ & Hh).
  exists id. split; [done|]. set (row := List.find (host_row id) (samples x)) in *.
  assert (Hrow : match row with
    | Some sm => sm ∈ samples x ∧ host_row id sm = true ∧ pget (sm_body sm) "duration_role" = JStr "POTAL_HOST"
    | None => samples (delete_host id x) = samples x end).
  { unfold row. destruct (List.find (host_row id) (samples x)) as [sm|] eqn:E; [|by apply delete_host_none].
    apply List.find_some in E as [Hin%list_elem_of_In Hr]. split; [done|]. split; [done|].
    pose proof (rw_samples _ Hok) as Hs. rewrite Forall_forall in Hs. apply host_row_spec in Hr as [_ Hr].
    by apply (so_host _ (Hs sm Hin) id). }
  apply bind_Ok in Hh as ([] & _ & Hh). apply bind_Ok in Hh as (class & Hclass%pget_item & Hh).
  destruct (eq_str class "FUNCTIONAL_EMULATION") eqn:Ec.
  - apply eq_str_spec in Ec. apply bind_Ok in Hh as ([] & Hobs & Hh). apply Ok_eq, pair_eq in Hh as [<- <-].
    split; [done|]. split; [congruence|]. destruct row as [sm|]; [|done]. destruct Hrow as (_ & _ & Hrole).
    apply bind_Ok in Hobs as (v & Hv%pget_item & Hobs%check_Ok_any). apply andb_prop in Hobs as [Hobs%eq_str_spec _]. congruence.
  - destruct row as [sm|]; [|done]. destruct Hrow as (Hin & Hr & Hrole).
    apply bind_Ok in Hh as ([] & Hb & Hh). apply bind_Ok in Hh as (? & _ & Hh). apply bind_Ok in Hh as (? & _ & Hh).
    apply bind_Ok in Hh as (? & _ & Hh). apply bind_Ok in Hh as ([] & _ & Hh). apply bind_Ok in Hh as ([] & Hv & Hh).
    apply Ok_eq, pair_eq in Hh as [<- <-]. split; [done|]. split.
    { rewrite Hclass. intros ->. by rewrite (proj2 (eq_str_spec _ _) eq_refl) in Ec. }
    split; [done|]. exists sm. split; [by apply host_row_spec in Hr as [_ Hr]|]. split; [done|]. split; [by apply delete_host_perm|].
    apply bind_Ok in Hb as (key & Hkey & Hb%check_Ok_any%String.eqb_eq). by exists key.
Qed.

(** What [finish] requires: no measurement is left, and the intervals are additive. *)
Lemma finish_Ok x x' : finish x = Ok x' →
  Forall (fun sm => hosted sm = false) (samples x) ∧ additive (intervals x) ∧ samples x' = samples x.
Proof.
  unfold finish. intros Hf. apply bind_Ok in Hf as ([] & Hn%check_Ok_any & Hf). split.
  - apply negb_true_iff in Hn. rewrite <-not_true_iff_false, existsb_exists in Hn. apply Forall_forall. intros sm Hsm.
    apply not_true_iff_false. intros E. apply Hn. exists sm. split; [by apply list_elem_of_In|]. unfold hosted in E. by destruct (sm_host sm).
  - unfold validate_potal_host_additivity in Hf. apply bind_Ok in Hf as ([] & Ho%check_Ok_any & <-%Ok_eq).
    split; [by apply overlap_additive, negb_true_iff|done].
Qed.
