(* ===== verification/NpuJoin.v ===== *)
(** * The join of a trace with the results of the model

    [NpuJoin] of [sim/cycle/reconstruct_npu.py] reads the trace of the PoTal
    collection once more, validates it as it goes, and writes a row of the
    dataset for every NPU work (with the cycles the model answered), every host
    stage (with its measured time) and every stage of an NPU call, each with the
    rows it depends on.

    The admission of the results is a [NpuAuthority]: [write_admitted] is
    modelled for any authority; [certified_authority], which reads certificates,
    is not.  [hardware_contract] is the contract the repository has for a
    profile, and [lower] is [str.lower]. *)
From S2P Require Import Prelude Records Profiles TraceSchema TraceIntegrity Replay Manifest CpuIndex.
Set Default Goal Selector "!".

Definition RESULT_FIELDS : list string :=
  ["start_cycle"; "done_cycle"; "total_cycles"; "logical_work_count"; "loop_count"; "planner_loop_count";
   "fragment_count"; "load_request_count"; "load_response_count"; "store_request_count"; "store_response_count";
   "scale_request_count"; "scale_response_count"; "event_count"].

Record NpuAuthority := {
  validation : string;
  certificate_sha256 : string;
  certificate_schema : json;
  certificate_version : json;
  library_sha256 : string;
  transition_certificate_sha256 : option string;
  run_aware_certificate_sha256 : option string;
  run_aware_certificate_scope : option string;
  residual_admitted : bool;
  hardware_contracts : option record;
  summary_extra : record;
}.

Definition or_null (o : option string) : json := match o with Some s => JStr s | None => JNull end.

(** [reconstruct_graph.service_identity]. *)
Definition phase_index_value (key : SemanticKey) : json :=
  let '(_, decode, _, _) := key in match decode with Some index => JInt index | None => JNull end.
Definition service_identity (key : SemanticKey) (node : record) : res record :=
  let* payload_value := item node "payload" in
  let* payload := object_value payload_value in
  let* layer := item payload "name" in
  let* op := item payload "op" in
  let '(phase, _, occurrence, ordinal) := key in
  Ok [("operation_id", JStr (encoded_key key));
      ("phase", JObj [("kind", JStr phase); ("decode_index", phase_index_value key)]); ("layer", layer); ("op", op);
      ("semantic_phase_kind", JStr phase); ("semantic_decode_index", phase_index_value key);
      ("semantic_graph_occurrence", JInt occurrence); ("semantic_node_ordinal", JInt ordinal)].

(** [strict_json.record_line]: the record a line of the dataset decodes to. *)
Definition dataset_row (row : record) : record :=
  merge_records [("schema", JStr "im2p-reconstruction"); ("version", JInt 1)] row.

(** [sorted(set(names))] *)
Definition sorted_set (names : list string) : json := JArr (map JStr (sort_strs (remove_dups names))).
Definition names (l : list string) : json := JArr (map JStr l).

Record Join := {
  trace : TraceState;
  sequence : Z;
  results : list record;
  phase_count : nat;
  counts : list (string * Z);
  targets : list SemanticKey;
  call_steps : list (Z * string);
  call_works : list (Z * string);
  cpu : CpuIndex;
  written : list record;
}.

(** [list[i]] of a decoded list. *)
Definition element (l : list json) (i : nat) : res json :=
  match l !! i with Some v => Ok v | None => Err (IndexError "list index out of range") end.

Section Join.
Context `{Host}.
Context (lower : string → string).
Context (hardware_contract : string → res record).
Context (graph : Manifest).
Context (authority : NpuAuthority).

Definition execution_of (key : SemanticKey) (name : string) : res json :=
  match kget key (Manifest.executions graph) with
  | Some row => item row name
  | None => Err (KeyError "semantic key")
  end.
Definition node_of (key : SemanticKey) : res record :=
  match kget key (Manifest.nodes graph) with Some node => Ok node | None => Err (KeyError "semantic key") end.
Definition sources_of (key : SemanticKey) : res (list SemanticKey) :=
  match kget key (Manifest.edges graph) with Some l => Ok l | None => Err (KeyError "semantic key") end.

(** [record[k] == row[k]] for each of the names. *)
Definition agree (r row : record) (keys : list string) : res bool :=
  all_res (fun key => let* a := item r key in let* b := item row key in Ok (jeq a b)) keys.

Definition phase_joined (j : Join) (r : record) : res Join :=
  match Manifest.phases graph !! phase_count j with
  | None => Err (NpuTraceError "extra NPU phase")
  | Some phase =>
      require_res (agree r phase ["phase_kind"; "decode_index"; "input_tokens"]) "NPU/semantic phase mismatch" ;;;
      Ok {| trace := trace j; sequence := sequence j; results := results j; phase_count := S (phase_count j);
            counts := counts j; targets := targets j; call_steps := call_steps j; call_works := call_works j;
            cpu := cpu j; written := written j |}
  end.

(** ** [TARGET_OPERATION] *)

Definition operand_at (operands : list (option record)) (i : nat) : res record :=
  match operands !! i with
  | Some (Some payload) => Ok payload
  | _ => Err (NpuTraceError "matmul operands missing")
  end.
(** [prod(integer({'dimension': value}, 'dimension') for value in acts[1:])] *)
Definition activation_rows (acts : list json) : res Z :=
  let* sizes := map_res (integer_value "dimension") (drop 1 acts) in Ok (foldr Z.mul 1 sizes).

Definition target_descriptor (key : SemanticKey) (r : record) : res bool :=
  let* operands := Manifest.inputs graph key in
  require (Nat.leb 2 (length operands)) "matmul operands missing" ;;;
  let* weight := operand_at operands 0 in
  let* activation := operand_at operands 1 in
  let* weight_shape := item weight "shape" in
  let* ws := array weight_shape in
  let* activation_shape := item activation "shape" in
  let* acts := array activation_shape in
  let* rows := activation_rows acts in
  let* declared := map_res (item r) ["m"; "n"; "k"; "weight_type"; "activation_type"] in
  let* n := element ws 1 in
  let* k := element ws 0 in
  let* weight_type := item weight "type" in
  let* activation_type := item activation "type" in
  Ok (jeq (JArr declared) (JArr [JInt rows; n; k; weight_type; activation_type])).

Definition target_operation (j : Join) (key : SemanticKey) (execution : json) (r : record) : res Join :=
  let* selected := item r "selected_target" in
  require (jeq selected execution) "target operation/graph execution class mismatch" ;;;
  let* payload := payload_of graph key in
  let* operation := item r "operation" in
  let* layer := item r "layer" in
  let* op := item payload "op" in
  let* name := item payload "name" in
  require (jeq operation op && jeq layer name) "target logical operation/name mismatch" ;;;
  require_res (target_descriptor key r) "target descriptor/original graph mismatch" ;;;
  let* backend := item r "actual_backend" in
  let* executed := execution_of key "actual_backend" in
  require (jeq backend executed) "target backend provenance mismatch" ;;;
  if eq_str execution "TARGET_NPU" then
    require_res (Ok (negb (existsb (key_eq key) (targets j))) andM
      (let* count := integer r "npu_work_count" in Ok (0 <? count))) "missing/duplicate target NPU operation" ;;;
    Ok {| trace := trace j; sequence := sequence j; results := results j; phase_count := phase_count j;
          counts := counts j; targets := targets j ++ [key]; call_steps := call_steps j; call_works := call_works j;
          cpu := cpu j; written := written j |}
  else Ok j.

(** ** [NPU_WORK] *)

Definition RESULT_EXTRA : list string :=
  ["profile"; "cycle_library_sha256"; "certificate_sha256"; "certificate_schema"; "certificate_version";
   "producer_execution_kind"; "target_work_validation"; "cycle_model_validation";
   "actual_rtl_acceptance_in_collection"; "accounting_kind"; "cycle_unit"; "trace_sequence";
   "run_view_sha256"; "run_aware_certificate_sha256"; "run_aware_certificate_scope"; "modeled";
   "transition_certificate_sha256"].

(** The record without its framing, as the result must repeat it. *)
Definition repeated (r : record) : record :=
  List.filter (fun kv => negb (str_in kv.1 ["schema"; "kind"; "sequence"])) r.

Definition result_identity (r result : record) (w : Work) : res unit :=
  fields result (keys r ++ RESULT_EXTRA) ;;;
  let* schema := item result "schema" in
  require_res (Ok (eq_str schema "im2p-npu-cycle-result") andM
    (let* version := integer result "version" in let* v := item r "version" in Ok (jeq (JInt version) v)) andM
    (let* kind := item result "kind" in Ok (eq_str kind "NPU_WORK_RESULT"))) "invalid NPU result schema" ;;;
  require_res ((let* s := integer result "sequence" in let* v := item r "work_id" in Ok (jeq (JInt s) v)) andM
    (let* s := integer result "trace_sequence" in let* v := item r "sequence" in Ok (jeq (JInt s) v)))
    "NPU result identity/order mismatch" ;;;
  let* view := item result "run_view_sha256" in
  require (eq_str view (work_binding w)) "NPU result run view mismatch" ;;;
  let* run_hash := item result "run_aware_certificate_sha256" in
  let* run_scope := item result "run_aware_certificate_scope" in
  require (jeq run_hash (or_null (run_aware_certificate_sha256 authority)) &&
           jeq run_scope (or_null (run_aware_certificate_scope authority)))
    "NPU result run-aware certificate mismatch" ;;;
  let expected := repeated r in
  let* copied := map_res (fun kv => let* v := item result kv.1 in Ok (kv.1, v)) expected in
  require (String.eqb (json_dumps (JObj copied)) (json_dumps (JObj expected))) "NPU work/result field mismatch".

Definition result_scope (profile : string) (result : record) : res unit :=
  let* own := map_res (item result) ["profile"; "certificate_sha256"; "cycle_library_sha256"; "transition_certificate_sha256"] in
  require (jeq (JArr own) (JArr [JStr profile; JStr (certificate_sha256 authority); JStr (library_sha256 authority);
                                 or_null (transition_certificate_sha256 authority)]))
    "NPU result profile/certificate/library/transition mismatch" ;;;
  require_res (
    (let* v := item result "certificate_schema" in Ok (jeq v (certificate_schema authority))) andM
    (let* v := item result "certificate_version" in Ok (jeq v (certificate_version authority))) andM
    (let* v := item result "cycle_model_validation" in Ok (eq_str v (validation authority))) andM
    (let* v := item result "target_work_validation" in Ok (eq_str v "PASS")) andM
    (let* v := item result "actual_rtl_acceptance_in_collection" in Ok (eq_str v "NOT_APPLICABLE")) andM
    (let* v := item result "producer_execution_kind" in Ok (eq_str v "CPU_FUNCTIONAL")) andM
    (let* v := item result "accounting_kind" in Ok (eq_str v "isolated-work-accounting")) andM
    (let* v := item result "cycle_unit" in Ok (eq_str v "cycles"))) "invalid NPU result scope".

Definition modeled_cycles (result : record) : res json :=
  let* value := item result "modeled" in
  let* modeled := object_value value in
  fields modeled RESULT_FIELDS ;;;
  iter_res (fun name => let* _ := integer modeled name in Ok tt) RESULT_FIELDS ;;;
  let* total := item modeled "total_cycles" in
  require_res ((let* works := item modeled "logical_work_count" in Ok (eq_int works 1)) andM
    (let* cycles := integer modeled "total_cycles" in Ok (0 <? cycles)) andM
    (let* done := integer modeled "done_cycle" in
     let* start := integer modeled "start_cycle" in Ok (jeq (JInt (done - start)) total)))
    "invalid model endpoints/counters" ;;;
  Ok total.

Definition host_names (r : record) : res (list string) :=
  let* value := item r "required_host_stage_ids" in
  let* stages := array value in
  Ok (map (fun stage => "host:" +:+ py_str stage) stages).
Definition work_names (r : record) : res (list string) :=
  let* value := item r "required_work_ids" in
  let* works := array value in
  Ok (map (fun work => "npu:" +:+ py_str work) works).

(** The row of a work. *)
Definition work_row (key : SemanticKey) (r result : record) (total : json) : res record :=
  let* work := item r "work_id" in
  let* own := item result "sequence" in
  let* order := item r "sequence" in
  let* semantic := map_res (fun name => let* v := item r name in Ok (name, v)) SEMANTIC_FIELDS in
  let* node := node_of key in
  let* identity := service_identity key node in
  let* operation := item r "operation_id" in
  let* call := item r "call_id" in
  let* hosts := host_names r in
  Ok (dataset_row (merge_records (
    [("kind", JStr "SERVICE"); ("node_class", JStr "TARGET_NPU"); ("duration_source", JStr "NPU_MODEL");
     ("resource_kind", JStr "NPU");
     ("duration", JObj [("source", JStr "NPU_MODEL"); ("unit", JStr "cycles"); ("cycles", total)]);
     ("source_record", JObj [("input", JStr "npu_results"); ("work_id", work); ("sequence", own); ("trace_sequence", order)]);
     ("aggregation", JStr "NOT_MODELED")] ++ semantic)
    (identity ++ [("producer_operation_id", operation); ("work_id", work); ("node_id", JStr ("npu:" +:+ py_str work));
     ("is_execution_node", JBool true); ("operation_node_id", JStr (operation_name key));
     ("dependencies", names (("call:" +:+ py_str call +:+ ":INVOKE") :: hosts))]))).

Definition npu_work (j : Join) (key : SemanticKey) (execution : json) (work : option Work) (r : record) : res Join :=
  require (eq_str execution "TARGET_NPU") "NPU work belongs to non-NPU node" ;;;
  match work with
  | None => Err (ValueError "NPU work was not admitted by trace validator")
  | Some w =>
      let residual := String.eqb (provenance w) "residual" in
      require (negb residual || negb (Nat.eqb (length (runs w)) 0))
        "legacy block-local residual trace cannot be upgraded to run-aware join" ;;;
      require (negb residual || residual_admitted authority)
        "production-generated run-aware certificate required for current residual join" ;;;
      match results j with
      | [] => Err (NpuTraceError "missing NPU model result")
      | result :: rest =>
          result_identity r result w ;;;
          result_scope (run_profile (TraceIntegrity.run (trace j))) result ;;;
          let* total := modeled_cycles result in
          let* row := work_row key r result total in
          let* call := integer r "call_id" in
          let* id := item r "work_id" in
          Ok {| trace := trace j; sequence := sequence j; results := rest; phase_count := phase_count j;
                counts := bump "npu_work_count" (counts j); targets := targets j; call_steps := call_steps j;
                call_works := zset call ("npu:" +:+ py_str id) (call_works j); cpu := cpu j;
                written := written j ++ [row] |}
      end
  end.

(** ** [HOST_STAGE] *)

Definition host_stage (j : Join) (key : SemanticKey) (predecessors : list string) (r : record) : res Join :=
  let* (measurement, rest) := CpuIndex.host r (cpu j) in
  let* class := item r "execution_class" in
  let* duration := match measurement with
    | Some m => let* d := duration_sample m in Ok (JObj d) | None => Ok JNull end in
  let measured := match measurement with Some _ => true | None => false end in
  let* stage_id := item r "host_stage_id" in
  let* order := item r "sequence" in
  let* stage := item r "stage_name" in
  let* node := node_of key in
  let* identity := service_identity key node in
  let* operation := item r "operation_id" in
  let* works := work_names r in
  let* hosts := host_names r in
  let row := dataset_row (merge_records
    [("kind", JStr "SERVICE"); ("node_class", class);
     ("duration_source", JStr (if measured then "POTAL_COLLECTION" else "NONE")); ("resource_kind", JStr "CPU");
     ("duration", duration); ("cost_included", JBool measured); ("host_stage_id", stage_id);
     ("trace_sequence", order); ("stage", stage); ("aggregation", JStr "NOT_MODELED")]
    (identity ++ [("producer_operation_id", operation); ("node_id", JStr ("host:" +:+ py_str stage_id));
     ("is_execution_node", JBool true); ("operation_node_id", JStr (operation_name key));
     ("dependencies", sorted_set (predecessors ++ works ++ hosts))])) in
  Ok {| trace := trace j; sequence := sequence j; results := results j; phase_count := phase_count j;
        counts := bump (lower (py_str class) +:+ "_count") (counts j); targets := targets j;
        call_steps := call_steps j; call_works := call_works j; cpu := rest; written := written j ++ [row] |}.

(** ** [NPU_CALL] *)

Definition call_node (identity : Z) (stage : string) : string := "call:" +:+ dec identity +:+ ":" +:+ stage.

Definition call_stage (j : Join) (key : SemanticKey) (predecessors : list string) (r : record) : res Join :=
  let* identity := integer r "call_id" in
  let* stage := item r "stage" in
  let node_id := call_node identity (py_str stage) in
  let* works := work_names r in
  let* published := (if eq_str stage "PUBLISH" then
      match zget identity (call_works j) with Some work => Ok [work] | None => Err (KeyError (dec identity)) end
    else Ok []) in
  let prior := match zget identity (call_steps j) with Some step => [step] | None => predecessors end in
  let* call := item r "call_id" in
  let* kind := item r "call_kind" in
  let* order := item r "sequence" in
  let* node := node_of key in
  let* service := service_identity key node in
  let* operation := item r "operation_id" in
  let row := dataset_row (merge_records
    [("kind", JStr "CALL_BOUNDARY"); ("node_class", JStr "TARGET_NPU"); ("duration_source", JStr "NONE");
     ("resource_kind", JStr "STRUCTURAL"); ("duration", JNull); ("call_id", call); ("call_kind", kind);
     ("stage", stage); ("trace_sequence", order)]
    (service ++ [("producer_operation_id", operation); ("node_id", JStr node_id); ("is_execution_node", JBool false);
     ("operation_node_id", JStr (operation_name key)); ("dependencies", sorted_set (prior ++ works ++ published))])) in
  let closed := eq_str stage "CONTINUATION" in
  Ok {| trace := trace j; sequence := sequence j; results := results j; phase_count := phase_count j;
        counts := counts j; targets := targets j;
        call_steps := if closed then zdel identity (call_steps j) else zset identity node_id (call_steps j);
        call_works := if closed then zdel identity (call_works j) else call_works j;
        cpu := cpu j; written := written j ++ [row] |}.

(** ** The loop *)

Definition advanced (j : Join) (s : TraceState) : Join :=
  {| trace := s; sequence := sequence j + 1; results := results j; phase_count := phase_count j; counts := counts j;
     targets := targets j; call_steps := call_steps j; call_works := call_works j; cpu := cpu j; written := written j |}.

Definition join_record (j : Join) (work : option Work) (r : record) : res Join :=
  let* kind := item r "kind" in
  if eq_str kind "PHASE" then phase_joined j r
  else if eq_str kind "RUN_END" then Ok j
  else
    let* key := semantic_key r in
    require (kmem key (Manifest.nodes graph)) "NPU record lacks original graph node" ;;;
    let* execution := execution_of key "execution_class" in
    let* sources := sources_of key in
    let predecessors := map operation_name sources in
    if eq_str kind "TARGET_OPERATION" then target_operation j key execution r
    else if eq_str kind "NPU_WORK" then npu_work j key execution work r
    else
      let* event := (if eq_str kind "HOST_STAGE" then item r "event" else Ok JNull) in
      if eq_str kind "HOST_STAGE" && eq_str event "BEGIN" then host_stage j key predecessors r
      else if eq_str kind "NPU_CALL" then call_stage j key predecessors r
      else Ok j.

Definition join_step (j : Join) (line : option json) : res Join :=
  let* r := TraceIntegrity.read_record (sequence j) line in
  let* (s, work) := consume (trace j) r in
  join_record (advanced j s) work r.

(** The checks before the loop, on the run the trace declares. *)
Definition join_start (lines : list (option json)) (results : list record) (index : CpuIndex) :
    res (Join * list (option json)) :=
  match lines with
  | [] => Err (NpuTraceError "empty log")
  | line :: rest =>
      let* s := start_trace line in
      let* config := item (Manifest.run graph) "run_config_id" in
      require (eq_str config (run_config_id (TraceIntegrity.run s))) "NPU/graph configuration mismatch" ;;;
      (match hardware_contracts authority with
       | None => Ok tt
       | Some contracts =>
           let* admitted := object_value (pget contracts (run_profile (TraceIntegrity.run s))) in
           Contract.compatible (run_contract (TraceIntegrity.run s)) admitted
       end) ;;;
      let* current := hardware_contract (run_profile (TraceIntegrity.run s)) in
      Contract.compatible (run_contract (TraceIntegrity.run s)) current ;;;
      Ok ({| trace := s; sequence := 1; results := results; phase_count := 0; counts := []; targets := [];
             call_steps := []; call_works := []; cpu := index; written := [] |}, rest)
  end.

Definition counter (name : string) (l : list (string * Z)) : Z := default 0 (sget name l).

(** The nodes of the graph that the NPU executed. *)
Definition npu_nodes : res (list SemanticKey) :=
  let* rows := map_res (fun ke : SemanticKey * record =>
    let* class := item ke.2 "execution_class" in
    Ok (if eq_str class "TARGET_NPU" then [ke.1] else [])) (Manifest.executions graph) in
  Ok (concat rows).

Definition join_finish (j : Join) : res (CpuIndex * record) :=
  let* validated := summary (trace j) in
  require (Nat.eqb (length (results j)) 0) "extra NPU model result" ;;;
  require (Nat.eqb (phase_count j) (length (Manifest.phases graph))) "missing NPU phase" ;;;
  let* expected := npu_nodes in
  require (set_eq key_eq (targets j) expected) "missing/extra NPU target operation coverage" ;;;
  let* works := item validated "npu_work_count" in
  require (eq_int works (counter "npu_work_count" (counts j))) "NPU result coverage mismatch" ;;;
  let* index := CpuIndex.finish (cpu j) in
  Ok (index, merge_records
    [("npu_work_count", JInt (counter "npu_work_count" (counts j)));
     ("target_npu_operation_count", JInt (Z.of_nat (length (targets j))));
     ("potal_host_count", JInt (counter "potal_host_count" (counts j)));
     ("functional_emulation_count", JInt (counter "functional_emulation_count" (counts j)));
     ("certificate_sha256", JStr (certificate_sha256 authority)); ("cycle_library_sha256", JStr (library_sha256 authority));
     ("transition_certificate_sha256", or_null (transition_certificate_sha256 authority));
     ("run_aware_certificate_sha256", or_null (run_aware_certificate_sha256 authority));
     ("run_aware_certificate_scope", or_null (run_aware_certificate_scope authority));
     ("residual_work_revision", or_null (run_residual_work_revision (TraceIntegrity.run (trace j))));
     ("npu_work_result_bijection", JStr "PASS"); ("host_stage_measurement_coverage", JStr "PASS");
     ("structural_dependency_dag", JStr "PASS")] (summary_extra authority)).

(** [write_admitted]: the rows written, and the summary of the join. *)
Definition write_admitted (lines : list (option json)) (results : list record) (index : CpuIndex) :
    res (list record * record) :=
  let* (j0, rest) := join_start lines results index in
  let* j := fold_res join_step j0 rest in
  let* (_, report) := join_finish j in
  Ok (written j, report).
End Join.
