(* ===== verification/Reconstruct.v ===== *)
(** * The reconstruction of a run

    [reconstruct] of [sim/cycle/reconstruct.py]: the semantic graphs, cycle logs
    and provenances of a FullCPU and a PoTal collection and the results of the
    NPU model become one dataset: a container for every operation of the graph,
    the measured or excluded cost of the operations the CPU owns, and the rows
    the join writes for the NPU.

    The sources are their decoded lines; copying, digests and publication of
    files are arguments or left out. *)
From S2P Require Import Prelude Records TraceSchema TraceIntegrity Manifest Forced Provenance CpuIndex NpuJoin.
Set Default Goal Selector "!".

(** What [CollectionFiles] names, read: [log_name] is the name of the log in
    error texts, the digests are of the three files. *)
Record Collection := {
  log : list record;
  log_name : string;
  graph : list record;
  provenance : record;
  log_sha256 : string;
  graph_sha256 : string;
  provenance_sha256 : string;
}.
Record Inputs := {
  full_cpu : Collection;
  potal : Collection;
  npu_trace : list (option json);
  npu_trace_sha256 : string;
  npu_results : list record;
  npu_results_sha256 : string;
}.

Section Reconstruct.
Context `{Host}.
Context (lower : string → string).
Context (hardware_contract : string → res record).
Context (admitted : res NpuAuthority).
Context (storage_encoding : string).

(** ** The rows of an operation *)

Definition ordinary_row (key : SemanticKey) (identity : record) (vector : list record) (predecessors : list string) :
    res record :=
  let* intervals := map_res duration_sample vector in
  Ok (dataset_row (merge_records
    [("kind", JStr "SERVICE"); ("node_class", JStr "ORDINARY_CPU"); ("duration_source", JStr "FULL_CPU");
     ("resource_kind", JStr "CPU");
     ("duration", JObj [("worker_intervals", JArr (map JObj intervals)); ("aggregation", JStr "PER_WORKER_NOT_NODE_LATENCY")]);
     ("cost_included", JBool true); ("potal_ordinary_measurements", JStr "OBSERVATION_ONLY")]
    (identity ++ [("node_id", JStr ("ordinary:" +:+ encoded_key key)); ("is_execution_node", JBool true);
     ("operation_node_id", JStr (operation_name key)); ("dependencies", names predecessors)]))).

Definition excluded_row (key : SemanticKey) (identity : record) (predecessors : list string) : record :=
  dataset_row (merge_records
    [("kind", JStr "SERVICE"); ("node_class", JStr "EXCLUDED"); ("duration_source", JStr "NONE");
     ("resource_kind", JStr "STRUCTURAL"); ("duration", JNull); ("cost_included", JBool false);
     ("reason", JStr "EXCLUDED_GRAPH_NODE")]
    (identity ++ [("node_id", JStr ("excluded:" +:+ encoded_key key)); ("is_execution_node", JBool true);
     ("operation_node_id", JStr (operation_name key)); ("dependencies", names predecessors)])).

Definition container_row (key : SemanticKey) (class : string) (identity : record) (predecessors : list string) : record :=
  dataset_row (merge_records
    [("kind", JStr "OPERATION_CONTAINER"); ("node_class", JStr class); ("duration_source", JStr "NONE");
     ("resource_kind", JStr "STRUCTURAL"); ("duration", JNull)]
    (identity ++ [("node_id", JStr (operation_name key)); ("is_execution_node", JBool false);
     ("dependencies", names predecessors);
     ("reason", JStr (if String.eqb class "TARGET_NPU" then "REPLACED_BY_NPU" else "LOGICAL_OPERATION_METADATA"))])).

Definition node_rows (m : Manifest) (index : CpuIndex) (st : list (string * Z) * list record)
    (entry : SemanticKey * record) : res (list (string * Z) * list record) :=
  let '(counts, rows) := st in
  let '(key, node) := entry in
  let* value := execution_of m key "execution_class" in
  let class := py_str value in
  let* identity := service_identity key node in
  let* sources := sources_of m key in
  let predecessors := map operation_name sources in
  let* own := (if String.eqb class "ORDINARY_CPU" then
      let* vector := ordinary key index in
      let* row := ordinary_row key identity vector predecessors in Ok [row]
    else if String.eqb class "EXCLUDED" then Ok [excluded_row key identity predecessors]
    else Ok []) in
  Ok (bump class counts, rows ++ own ++ [container_row key class identity predecessors]).

(** ** The two collections *)

(** The checks on the provenances, after which the kernel contracts agree. *)
Definition check_sources (inputs : Inputs) (full_graph potal_graph : Manifest) : res (record * record) :=
  let full := full_cpu inputs in
  let pot := potal inputs in
  let* proof_full := verify_provenance (provenance full) "FULL_CPU"
    [("cycle_log", log_sha256 full); ("semantic_graph", graph_sha256 full)] in
  let* proof_potal := verify_provenance (provenance pot) "POTAL_COLLECTION"
    [("cycle_log", log_sha256 pot); ("semantic_graph", graph_sha256 pot); ("npu_trace", npu_trace_sha256 inputs)] in
  let* model := item proof_full "model_sha256" in
  let* potal_model := item proof_potal "model_sha256" in
  require (jeq model potal_model) "model contents differ across collections" ;;;
  validate_source_pair proof_full proof_potal (provenance_sha256 pot) ;;;
  (if is_forced proof_full then validate_forced_phases full_graph potal_graph else Ok tt) ;;;
  let* full_value := item proof_full "cpu_kernel_contract" in
  let* full_kernel := object_value full_value in
  let* potal_value := item proof_potal "cpu_kernel_contract" in
  let* potal_kernel := object_value potal_value in
  require (String.eqb (json_dumps (JObj full_kernel)) (json_dumps (JObj potal_kernel)))
    "ordinary CPU kernel/build contract mismatch" ;;;
  Ok (proof_full, proof_potal).

(** ** The summary *)

Definition total_record (l : list (string * Z)) : json := JObj (map (fun kv => (kv.1, JInt kv.2)) (sort_layers l)).

(** [zip(full.phases, potal.phases, strict=True)], decode phases only. *)
Definition fingerprint_match (pair : record * record) : res (option (string * json)) :=
  let '(own_phase, other_phase) := pair in
  let* kind := item own_phase "phase_kind" in
  if negb (eq_str kind "decode") then Ok None else
  let* index := item own_phase "decode_index" in
  let* own := item own_phase "token_fingerprint" in
  let* other := item other_phase "token_fingerprint" in
  Ok (Some (py_str index, JBool (jeq own other))).
Definition fingerprint_matches (full pot : Manifest) : res json :=
  let* pairs := map_res fingerprint_match (zip (Manifest.phases full) (Manifest.phases pot)) in
  check (Nat.eqb (length (Manifest.phases full)) (length (Manifest.phases pot)))
    (ValueError "zip() argument lengths differ") ;;;
  Ok (JObj (merge_records [] (omap id pairs))).

Definition artifact (proof : record) (name : string) : res json :=
  let* value := item proof "artifacts" in
  let* artifacts := object_value value in
  item artifacts name.

Definition summary_record (inputs : Inputs) (full_graph potal_graph : Manifest) (proof_full proof_potal : record)
    (counts : list (string * Z)) (index : CpuIndex) (npu : record) : res record :=
  let* hosts := item npu "potal_host_count" in
  let* works := item npu "npu_work_count" in
  let* emulated := item npu "functional_emulation_count" in
  let executed := [("ORDINARY_CPU", JInt (counter "ORDINARY_CPU" counts)); ("POTAL_HOST", hosts); ("TARGET_NPU", works);
                   ("FUNCTIONAL_EMULATION", emulated); ("EXCLUDED", JInt (counter "EXCLUDED" counts)); ("UNSUPPORTED", JInt 0)] in
  let* values := map_res (fun kv : string * json => integer executed kv.1) executed in
  let* model := item proof_full "model_sha256" in
  let* config := item (Manifest.run full_graph) "run_config_id" in
  let* kernel_value := item proof_full "cpu_kernel_contract" in
  let* kernel := object_value kernel_value in
  let* kernel_hash := item kernel "sha256" in
  let* full_log := artifact proof_full "cycle_log" in
  let* full_semantic := artifact proof_full "semantic_graph" in
  let* potal_log := artifact proof_potal "cycle_log" in
  let* potal_semantic := artifact proof_potal "semantic_graph" in
  let* trace_artifact := artifact proof_potal "npu_trace" in
  let* matches := fingerprint_matches full_graph potal_graph in
  Ok (merge_records (merge_records
    [("schema", JStr "im2p-reconstruction-summary"); ("version", JInt 1); ("status", JStr "PASS");
     ("storage_encoding", JStr storage_encoding); ("scope", JStr "structural-three-source-reconstruction");
     ("ordinary_cpu_bijection", JStr "PASS"); ("graph_node_counts", total_record counts);
     ("observations", total_record (observations index)); ("execution_node_counts", JObj executed);
     ("execution_node_count", JInt (sum values));
     ("logical_operation_container_count", JInt (Z.of_nat (length (Manifest.nodes potal_graph))));
     ("model_sha256", model); ("run_config_id", config); ("cpu_kernel_contract_sha256", kernel_hash);
     ("full_cpu_provenance_sha256", JStr (provenance_sha256 (full_cpu inputs)));
     ("potal_provenance_sha256", JStr (provenance_sha256 (potal inputs)))] npu)
    [("source_artifacts", JObj [("full_cpu_cycle_log", full_log); ("full_cpu_semantic_graph", full_semantic);
        ("potal_cycle_log", potal_log); ("potal_semantic_graph", potal_semantic); ("npu_trace", trace_artifact);
        ("npu_results", JObj [("sha256", JStr (npu_results_sha256 inputs))])]);
     ("source_reference_contract", JStr "CPU source_line is one-based in the bound cycle log; NPU work_id and trace_sequence index bound original files");
     ("decode_token_fingerprint_matches", matches);
     ("decode_token_policy", JStr "values observed; semantic structure and counts must match");
     ("worker_aggregation", JStr "NOT_MODELED"); ("system_latency", JStr "NOT_MODELED");
     ("frequency_conversion", JStr "NOT_IMPLEMENTED"); ("scheduler", JStr "NOT_IMPLEMENTED");
     ("timing_sources", JArr [JStr "FULL_CPU"; JStr "POTAL_COLLECTION"; JStr "NPU_MODEL"])]).

(** ** The whole *)

Definition reconstruct (inputs : Inputs) : res (list record * record) :=
  let* full_graph := read_manifest (graph (full_cpu inputs)) in
  let* potal_graph := read_manifest (graph (potal inputs)) in
  compare_manifests full_graph potal_graph ;;;
  let* (proof_full, proof_potal) := check_sources inputs full_graph potal_graph in
  let* loaded := load lower (log_name (full_cpu inputs)) potal_graph full_graph (log (full_cpu inputs)) empty_index in
  let* index := load lower (log_name (potal inputs)) potal_graph potal_graph (log (potal inputs)) loaded in
  let* (counts, rows) := fold_res (node_rows potal_graph index) ([], []) (Manifest.nodes potal_graph) in
  let* authority := admitted in
  let* (joined, npu) := write_admitted lower hardware_contract potal_graph authority (npu_trace inputs)
    (npu_results inputs) index in
  let* summary := summary_record inputs full_graph potal_graph proof_full proof_potal counts index npu in
  Ok (rows ++ joined, summary).
End Reconstruct.
