(* ===== verification/JoinTrace.v ===== *)
(** * The rows of a join and the state of the trace

    The join writes a row for every work, host stage and call stage the trace
    admits.  [ids_ok] relates the rows written so far to the state of the trace:
    whatever a later record may refer to already has its row, and whatever a
    later record may introduce has none. *)
From S2P Require Import Prelude Records TraceSchema TraceIntegrity Replay Manifest CpuIndex NpuJoin Reconstruct.
Set Default Goal Selector "!".

(** ** The rows of a dataset

    Every row of a reconstructed dataset names a node and the nodes it depends
    on.  [RowId] is what a name stands for; two different things never get the
    same name ([row_name_inj]), although names are plain texts.  [row_is] reads
    the name and the dependencies off each kind of row the join and the
    reconstruction write. *)

(** ** Names *)

Definition proper_key (key : SemanticKey) : Prop := key.1.1.1 = "prefill" ∨ key.1.1.1 = "decode".

Lemma encoded_key_inj k k' : proper_key k → proper_key k' → encoded_key k = encoded_key k' → k = k'.
Proof.
  destruct k as [[[ph d] o] n], k' as [[[ph' d'] o'] n']. unfold proper_key. cbn [fst].
  set (tail := fun d : option Z => fun o n => (match d with None => "null" | Some index => dec index end) +:+ "," +:+ dec o +:+ "," +:+ dec n +:+ "]").
  assert (Htail : tail d o n = tail d' o' n' → (d, o, n) = (d', o', n')).
  { unfold tail. intros E.
    assert (Hrest : ∀ o n o' n', dec o +:+ "," +:+ dec n +:+ "]" = dec o' +:+ "," +:+ dec n' +:+ "]" → o = o' ∧ n = n').
    { clear. intros o n o' n' E. apply dec_split in E as [-> E]; [|done]. by apply dec_split in E as [-> _]. }
    assert (Hnull : ∀ z t t', dec z +:+ t ≠ "null" +:+ t').
    { clear. intros z t t' E. pose proof (dec_decimal z) as Hz. destruct (dec z) as [|c s] eqn:Ez.
      - by destruct (dec_nonempty z).
      - cbn in E. injection E as -> _. cbn in Hz. discriminate Hz. }
    destruct d as [d|], d' as [d'|].
    - apply dec_split in E as [-> E]; [|done]. by apply Hrest in E as [-> ->].
    - by apply Hnull in E.
    - symmetry in E. by apply Hnull in E.
    - apply (append_left "null,") in E. by apply Hrest in E as [-> ->]. }
  intros [-> | ->] [-> | ->] E; unfold encoded_key in E.
  - apply (append_left ("[" +:+ quoted "prefill" +:+ ",")) in E. apply Htail in E. congruence.
  - discriminate E.
  - discriminate E.
  - apply (append_left ("[" +:+ quoted "decode" +:+ ",")) in E. apply Htail in E. congruence.
Qed.

(** What a node of the dataset stands for. *)
Inductive RowId : Type :=
  | Operation (key : SemanticKey)
  | Ordinary (key : SemanticKey)
  | Excluded (key : SemanticKey)
  | NpuWork (work : Z)
  | HostStage (stage : Z)
  | CallStage (call : Z) (stage : string).

Definition row_name (id : RowId) : string :=
  match id with
  | Operation key => operation_name key
  | Ordinary key => "ordinary:" +:+ encoded_key key
  | Excluded key => "excluded:" +:+ encoded_key key
  | NpuWork work => "npu:" +:+ dec work
  | HostStage stage => "host:" +:+ dec stage
  | CallStage call stage => call_node call stage
  end.
Definition proper (id : RowId) : Prop :=
  match id with Operation key | Ordinary key | Excluded key => proper_key key | _ => True end.

Lemma row_name_inj id id' : proper id → proper id' → row_name id = row_name id' → id = id'.
Proof.
  destruct id, id'; cbn [proper row_name]; unfold operation_name, call_node; intros H H' E;
    try (cbn in E; discriminate E); try (apply append_left in E; f_equal; by (apply encoded_key_inj || apply dec_inj)).
  apply (append_left "call:") in E. by apply dec_split in E as [-> ->].
Qed.

(** ** Fields of a row *)

(** The values a list of fields gives a name. *)
Definition values_of (k : string) (r : record) : list json := map snd (List.filter (fun kv => String.eqb k kv.1) r).

Lemma values_of_app k r u : values_of k (r ++ u) = values_of k r ++ values_of k u.
Proof. unfold values_of. by rewrite List.filter_app, map_app. Qed.

Lemma values_sget k v r : values_of k r = [v] → sget k r = Some v.
Proof.
  induction r as [|[k' v'] r IH]; [done|]. unfold values_of in *. cbn. destruct (String.eqb k k'); [|done]. cbn. congruence.
Qed.

Lemma values_sset k k' v r :
  values_of k (sset k' v r) = if String.eqb k k' then match values_of k r with [] => [v] | _ :: l => v :: l end else values_of k r.
Proof.
  induction r as [|[k0 v0] r IH]; unfold values_of in *; cbn.
  - by destruct (String.eqb k k').
  - destruct (String.eqb_spec k' k0) as [->|Hne]; cbn; [by destruct (String.eqb k k0)|].
    destruct (String.eqb_spec k k0) as [->|Hk0]; cbn; [|exact IH].
    destruct (String.eqb_spec k0 k') as [->|]; [done|]. by rewrite IH.
Qed.

Lemma values_merge_old k r u : values_of k u = [] → values_of k (merge_records r u) = values_of k r.
Proof.
  unfold merge_records. revert r. induction u as [|[k' v'] u IH]; intros r Hu; [done|]. cbn [fold_left fst snd].
  unfold values_of in Hu. cbn in Hu. destruct (String.eqb k k') eqn:E; [done|]. rewrite IH by done. by rewrite values_sset, E.
Qed.

Lemma values_merge_new k v r u : values_of k r = [] → values_of k u = [v] → values_of k (merge_records r u) = [v].
Proof.
  revert r. induction u as [|[k' v'] u IH]; intros r Hr Hu; [done|]. unfold values_of in Hu. cbn in Hu.
  destruct (String.eqb k k') eqn:E; cbn in Hu.
  - injection Hu as -> Hu. change (values_of k (merge_records (sset k' v r) u) = [v]).
    rewrite values_merge_old by done. by rewrite values_sset, E, Hr.
  - change (values_of k (merge_records (sset k' v' r) u) = [v]). apply IH; [|done]. by rewrite values_sset, E.
Qed.

(** A field of a written row: from the end of the row, or from its beginning. *)
Lemma row_field_end k v first rest : values_of k first = [] → values_of k rest = [v] →
  values_of k [("schema", JNull); ("version", JNull)] = [] → pget (dataset_row (merge_records first rest)) k = v.
Proof.
  intros Hf Hr Hk. unfold pget, dataset_row. erewrite values_sget; [done|]. apply values_merge_new; [|by apply values_merge_new].
  unfold values_of in *. cbn in Hk |- *. by destruct (String.eqb k "schema"), (String.eqb k "version").
Qed.
Lemma row_field_start k v first rest : values_of k first = [v] → values_of k rest = [] →
  values_of k [("schema", JNull); ("version", JNull)] = [] → pget (dataset_row (merge_records first rest)) k = v.
Proof.
  intros Hf Hr Hk. unfold pget, dataset_row. erewrite values_sget; [done|]. apply values_merge_new; [|by rewrite values_merge_old].
  unfold values_of in *. cbn in Hk |- *. by destruct (String.eqb k "schema"), (String.eqb k "version").
Qed.

Lemma values_none k r : values_of k r = [] → sget k r = None.
Proof.
  induction r as [|[k' v'] r IH]; [done|]. unfold values_of in *. cbn. destruct (String.eqb k k'); [done|]. exact IH.
Qed.
Lemma row_field_none k first rest : values_of k first = [] → values_of k rest = [] →
  values_of k [("schema", JNull); ("version", JNull)] = [] → pget (dataset_row (merge_records first rest)) k = JNull.
Proof.
  intros Hf Hr Hk. unfold pget, dataset_row. rewrite values_none; [done|]. rewrite values_merge_old by by rewrite values_merge_old.
  unfold values_of in *. cbn in Hk |- *. by destruct (String.eqb k "schema"), (String.eqb k "version").
Qed.

(** The identity of an operation does not name the row. *)
Lemma service_identity_values key node identity k : service_identity key node = Ok identity →
  str_in k ["node_id"; "dependencies"; "kind"; "cost_included"; "host_stage_id"; "duration"] = true → values_of k identity = [].
Proof.
  unfold service_identity. intros H. apply bind_Ok in H as (pv & _ & H). apply bind_Ok in H as (p & _ & H).
  apply bind_Ok in H as (layer & _ & H). apply bind_Ok in H as (op & _ & H). destruct key as [[[ph d] o] n].
  apply Ok_eq in H as <-. rewrite str_in_spec. rewrite !elem_of_cons, elem_of_nil. intros Hk. by repeat destruct Hk as [->|Hk].
Qed.

(** ** The kinds of rows *)

Record row_is (row : record) (id : RowId) (deps : list string) : Prop := {
  rw_name : pget row "node_id" = JStr (row_name id);
  rw_deps : pget row "dependencies" = names deps;
}.

Ltac row_fields :=
  first [apply row_field_end | apply row_field_start];
  rewrite ?values_of_app; try erewrite service_identity_values by done; try reflexivity.

Lemma container_row_is key class node identity predecessors : service_identity key node = Ok identity →
  row_is (container_row key class identity predecessors) (Operation key) predecessors.
Proof. intros Hi. constructor; unfold container_row; row_fields. Qed.

Lemma excluded_row_is key node identity predecessors : service_identity key node = Ok identity →
  row_is (excluded_row key identity predecessors) (Excluded key) predecessors.
Proof. intros Hi. constructor; unfold excluded_row; row_fields. Qed.

Lemma ordinary_row_is key node identity vector predecessors row : service_identity key node = Ok identity →
  ordinary_row key identity vector predecessors = Ok row → row_is row (Ordinary key) predecessors.
Proof. intros Hi. unfold ordinary_row. intros (intervals & _ & <-%Ok_eq)%bind_Ok. constructor; row_fields. Qed.

From S2P Require Import Prelude Records Replay Manifest CpuIndex NpuJoin Reconstruct.
From S2P Require Import TraceSchema TraceCalls TraceIntegrity TraceTheorems TraceLifecycle.

(** ** Rows and state *)

Record ids_ok (ids : list RowId) (s : TraceState) : Prop := {
  io_distinct : NoDup ids;
  io_kind : ∀ id, id ∈ ids → match id with NpuWork _ | HostStage _ | CallStage _ _ => True | _ => False end;
  io_total : 0 <= total_works s;
  io_npu : ∀ i, NpuWork i ∈ ids ↔ 0 <= i < total_works s;
  io_works : ∀ i, is_Some (work_operations (calls s) !! i) → 0 <= i < total_works s;
  io_host : ∀ i, HostStage i ∈ ids → i < host_count (hosts s);
  io_open : ∀ i, is_Some (host_active (hosts s) !! i) → HostStage i ∈ ids;
  io_completed : ∀ i, is_Some (completed_owners (hosts s) !! i) → HostStage i ∈ ids;
  io_calls : ∀ c st, CallStage c st ∈ ids → 0 <= c < count (calls s) ∧
    ∀ call, active (calls s) !! c = Some call → st ∈ stages call;
  io_stages : ∀ c call st, active (calls s) !! c = Some call → st ∈ stages call → CallStage c st ∈ ids;
}.

Lemma start_ids run : ids_ok [] (start_state run).
Proof.
  constructor; cbn; try done; try (by intros ? ?%elem_of_nil); try (by intros ? ? ?%elem_of_nil).
  - constructor.
  - intros i. split; [by intros ?%elem_of_nil|]. unfold total_works. cbn. lia.
  - intros i [? H]. by rewrite lookup_empty in H.
  - intros i [? H]. by rewrite lookup_empty in H.
  - intros i [? H]. by rewrite lookup_empty in H.
Qed.

(** Records that write no row keep the relation. *)
Lemma ids_frame ids s s' : ids_ok ids s → total_works s' = total_works s →
  (∀ i, is_Some (work_operations (calls s') !! i) → is_Some (work_operations (calls s) !! i)) →
  active (calls s') = active (calls s) → count (calls s') = count (calls s) → host_count (hosts s') = host_count (hosts s) →
  (∀ i, is_Some (host_active (hosts s') !! i) → is_Some (host_active (hosts s) !! i)) →
  (∀ i, is_Some (completed_owners (hosts s') !! i) → is_Some (completed_owners (hosts s) !! i) ∨ is_Some (host_active (hosts s) !! i)) →
  ids_ok ids s'.
Proof.
  intros [H1 H2 Hpos H3 H4 H5 H6 H7 H8 H9] E1 E2 E3 E4 E5 E6 E7.
  constructor; rewrite ?E1, ?E3, ?E4, ?E5; auto. intros i Hi. destruct (E7 i Hi); auto.
Qed.

(** *** A work *)

Lemma call_work_attached cs w cs' : call_work cs w = Ok cs' → ∃ call call', active cs !! call_id w = Some call ∧
  stages call = ["PREPARE"; "INVOKE"] ∧ stages call' = stages call ∧ call_kind call' = call_kind call ∧
  (scope w = "stripe" → call_kind call = "STRIPE") ∧
  active cs' = <[call_id w := call']> (active cs) ∧ count cs' = count cs ∧
  work_operations cs' = <[identity w := operation_id w]> (work_operations cs).
Proof.
  intros (call & call' & Ha & Hst & _ & _ & _ & _ & Hk & Ecall & Ea & Ec & _ & Ew)%call_work_inv. exists call, call'.
  split; [done|]. split; [done|]. split; [by subst call'|]. split; [by subst call'|]. split; [|done].
  intros E. rewrite E in Hk. by apply Ok_eq in Hk as <-.
Qed.

Lemma ids_work ids s m r s' w : ids_ok ids s → work_record (set_pending s m) r = Ok (s', w) →
  ids_ok (ids ++ [NpuWork (identity w)]) s' ∧ CallStage (call_id w) "INVOKE" ∈ ids ∧ identity w = total_works s.
Proof.
  intros [H1 H2 Hpos H3 H4 H5 H6 H7 H8 H9] H. apply work_record_inv in H as (Hid & Htot & _ & _ & _ & Hc & _ & _ & _ & _ & _ & Hh).
  change (total_works (set_pending s m)) with (total_works s) in *. change (calls (set_pending s m)) with (calls s) in Hc.
  change (hosts (set_pending s m)) with (hosts s) in Hh.
  apply call_work_attached in Hc as (call & call' & Ha & Hst & Hst' & _ & _ & Ha' & Hcnt & Hw).
  split; [|split; [apply (H9 _ _ "INVOKE" Ha); rewrite Hst; set_solver|done]].
  constructor; rewrite ?Htot, ?Hh, ?Hcnt; try done.
  - apply NoDup_app. split_and!; [done| |apply NoDup_singleton]. intros id Hin ->%list_elem_of_singleton.
    apply H3 in Hin. lia.
  - intros id [Hin|Hin%list_elem_of_singleton]%elem_of_app; [by apply H2|by subst].
  - lia.
  - intros i. rewrite elem_of_app, list_elem_of_singleton, H3. split.
    + intros [?|[= ->]]; lia.
    + intros ?. destruct (decide (i = identity w)) as [->|]; [by right|left; lia].
  - rewrite Hw. intros i Hi. destruct (decide (i = identity w)) as [->|Hne]; [lia|].
    rewrite lookup_insert_ne in Hi by done. apply H4 in Hi. lia.
  - intros i [Hin|Hin%list_elem_of_singleton]%elem_of_app; [by apply H5|done].
  - intros i Hi. apply elem_of_app. left. by apply H6.
  - intros i Hi. apply elem_of_app. left. by apply H7.
  - intros c st [Hin|Hin%list_elem_of_singleton]%elem_of_app; [|done]. destruct (H8 c st Hin) as [? Hs]. split; [done|].
    rewrite Ha'. intros call0 [[<- <-]|[Hne Hl]]%lookup_insert_Some; [rewrite Hst'; by apply Hs|by apply Hs].
  - intros c call0 st Hl Hin. apply elem_of_app. left. rewrite Ha' in Hl.
    apply lookup_insert_Some in Hl as [[<- <-]|[Hne Hl]]; [rewrite Hst' in Hin|]; by eapply H9.
Qed.

Lemma ids_call ids ws s m r s' : ids_ok ids s → calls_wf ws (calls s) → call_record (set_pending s m) r = Ok s' →
  ∃ id st before after, staged (calls s) r (calls s') id st before after ∧ ids_ok (ids ++ [CallStage id st]) s' ∧
    hosts s' = hosts s ∧ total_works s' = total_works s.
Proof.
  intros [H1 H2 Hpos H3 H4 H5 H6 H7 H8 H9] Hwf [Hs' Hst]%call_record_frame.
  change (calls (set_pending s m)) with (calls s) in Hst. change (hosts (set_pending s m)) with (hosts s) in Hs'.
  apply stage_staged in Hst as (id & st & before & after & Hsg). exists id, st, before, after.
  assert (Hh : hosts s' = hosts s) by (by rewrite Hs'). assert (Ht : total_works s' = total_works s) by (by rewrite Hs').
  split; [done|]. split; [|done]. destruct Hsg as [Hid _ _ _ Hopen Hb Hnew _ _ Hstages _ Hw Ha _].
  assert (Hnonneg : 0 <= id) by (apply integer_bounds in Hid; lia).
  assert (Hnd : ¬ member (done_calls (calls s)) id).
  { intros Hm. apply contains_spec in Hm; [congruence|lia]. }
  assert (Hfresh : CallStage id st ∉ ids).
  { intros Hin. destruct (H8 id st Hin) as [Hlt Hall]. destruct Hb as [[Hb _]|(Hb & -> & _)]; [|lia].
    by apply Hnew, Hall. }
  assert (Hcount : count (calls s) <= count (calls s')) by (destruct Hb as [[_ ?]|(_ & _ & ? & _)]; lia).
  assert (Hlt : id < count (calls s')).
  { destruct Hb as [[Hb ?]|(_ & -> & ? & _)]; [|lia]. apply (cw_active _ _ Hwf) in Hb. lia. }
  constructor; rewrite ?Hh, ?Ht, ?Hw; try done.
  - apply NoDup_app. split_and!; [done| |apply NoDup_singleton]. by intros i Hin ->%list_elem_of_singleton.
  - intros i [Hin|Hin%list_elem_of_singleton]%elem_of_app; [by apply H2|by subst].
  - intros i. rewrite elem_of_app, list_elem_of_singleton, H3. split; [intros [?|?]; done|by left].
  - intros i [Hin|Hin%list_elem_of_singleton]%elem_of_app; [by apply H5|done].
  - intros i Hi. apply elem_of_app. left. by apply H6.
  - intros i Hi. apply elem_of_app. left. by apply H7.
  - intros c st' Hin. apply elem_of_app in Hin as [Hin|Hin%list_elem_of_singleton].
    + destruct (H8 c st' Hin) as [Hc Hall]. split; [lia|]. intros call Hl.
      destruct (String.eqb st "CONTINUATION"); rewrite Ha in Hl.
      * apply lookup_delete_Some in Hl as [_ Hl]. by apply Hall.
      * apply lookup_insert_Some in Hl as [[<- <-]|[_ Hl]]; [|by apply Hall]. rewrite Hstages. apply elem_of_app. left.
        destruct Hb as [[Hb _]|(_ & -> & _)]; [by apply Hall|lia].
    + injection Hin as -> ->. split; [lia|]. intros call Hl. destruct (String.eqb st "CONTINUATION"); rewrite Ha in Hl.
      * by rewrite lookup_delete_eq in Hl.
      * rewrite lookup_insert_eq in Hl. injection Hl as <-. rewrite Hstages. apply elem_of_app. right. by constructor.
  - intros c call st' Hl Hin. destruct (String.eqb st "CONTINUATION"); rewrite Ha in Hl.
    + apply lookup_delete_Some in Hl as [_ Hl]. apply elem_of_app. left. by eapply H9.
    + apply lookup_insert_Some in Hl as [[<- <-]|[_ Hl]]; [|apply elem_of_app; left; by eapply H9].
      rewrite Hstages in Hin. apply elem_of_app in Hin as [Hin|Hin%list_elem_of_singleton]; [|subst; apply elem_of_app; right; by constructor].
      apply elem_of_app. left. destruct Hb as [[Hb _]|(_ & _ & _ & _ & Hb)]; [by eapply H9|].
      rewrite Hb in Hin. by apply elem_of_nil in Hin.
Qed.

(** *** A host stage *)

(** The begin of a stage declares it and what it needs; its end needs a begin. *)
Definition host_begun (s s' : TraceState) (r : record) (id : Z) : Prop :=
  pget r "event" = JStr "BEGIN" ∧ integer r "host_stage_id" = Ok id ∧ id = host_count (hosts s) ∧
  (∃ works, item r "required_work_ids" = Ok (JArr (map JInt works)) ∧
    ∀ i, i ∈ works → is_Some (work_operations (calls s) !! i)) ∧
  (∃ needs, item r "required_host_stage_ids" = Ok (JArr (map JInt needs)) ∧
    ∀ i, i ∈ needs → is_Some (completed_owners (hosts s) !! i)).

Lemma ids_host ids s m r s' : ids_ok ids s → host_record (set_pending s m) r = Ok s' →
  (eq_str (pget r "event") "BEGIN" = true → ∃ id, host_begun s s' r id ∧ ids_ok (ids ++ [HostStage id]) s') ∧
  (eq_str (pget r "event") "BEGIN" = false → ids_ok ids s').
Proof.
  intros Hok Hr. assert (Hframe := host_record_calls _ _ _ Hr).
  change (calls (set_pending s m)) with (calls s) in Hframe. destruct Hframe as (Ea & Ed & Ec & Ew).
  unfold host_record in Hr. apply bind_Ok in Hr as ([h cs] & Hh & <-%Ok_eq). cbn in Ea, Ed, Ec, Hh. clear Ew.
  unfold host_consume, require, require_res in Hh.
  apply bind_Ok in Hh as (id & Hid & Hh). apply bind_Ok in Hh as (operation & _ & Hh). apply bind_Ok in Hh as (kind & _ & Hh).
  apply bind_Ok in Hh as ([] & _ & Hh). apply bind_Ok in Hh as (? & _ & Hh). apply bind_Ok in Hh as (? & _ & Hh).
  apply bind_Ok in Hh as ([] & _ & Hh). apply bind_Ok in Hh as (? & _ & Hh). apply bind_Ok in Hh as ([] & _ & Hh).
  apply bind_Ok in Hh as (cs1 & Hcs1 & Hh). apply host_ownership_frame in Hcs1 as (_ & _ & _ & Ew1).
  apply bind_Ok in Hh as (event & Hevent%pget_item & Hh). rewrite Hevent.
  destruct Hok as [H1 H2 Hpos H3 H4 H5 H6 H7 H8 H9]. destruct (eq_str event "BEGIN") eqn:Eb; (split; intros ?; [|try done]; try done).
  - apply eq_str_spec in Eb. subst event.
    apply bind_Ok in Hh as ([] & Hb%require_m_Ok & Hh). apply and_then_Ok_true in Hb as [[= ->%Z.eqb_eq] _].
    apply bind_Ok in Hh as (works & Hworks%references_Ok & Hh). apply bind_Ok in Hh as ([] & Hwm%check_Ok_any & Hh).
    apply bind_Ok in Hh as (needs & Hneeds%references_Ok & Hh). apply bind_Ok in Hh as ([] & Hnm%check_Ok_any & Hh).
    destruct (bump_class _ _) as [potal functional]. apply Ok_eq, pair_eq in Hh as [<- <-].
    exists (host_count (hosts s)). split.
    { split; [done|]. split; [done|]. split; [done|]. split.
      - exists works. split; [done|]. rewrite <-Ew1. by apply (maps_to_all _ _ operation).
      - exists needs. split; [done|]. by apply (maps_to_all _ _ operation). }
    constructor; unfold total_works; cbn; rewrite ?Ea, ?Ec, ?Ew1; try done.
    + apply NoDup_app. split_and!; [done| |apply NoDup_singleton]. intros i Hin ->%list_elem_of_singleton.
      apply H5 in Hin. lia.
    + intros i [Hin|Hin%list_elem_of_singleton]%elem_of_app; [by apply H2|by subst].
    + intros i. rewrite elem_of_app, list_elem_of_singleton, H3. split; [intros [?|?]; done|by left].
    + intros i [Hin|[= ->]%list_elem_of_singleton]%elem_of_app; [apply H5 in Hin; lia|lia].
    + intros i Hi. apply elem_of_app. destruct (decide (i = host_count (hosts s))) as [->|Hne]; [right; by constructor|].
      rewrite lookup_insert_ne in Hi by done. left. by apply H6.
    + intros i Hi. apply elem_of_app. left. by apply H7.
    + intros c st [Hin|Hin%list_elem_of_singleton]%elem_of_app; [by apply H8|done].
    + intros c call st Hl Hin. apply elem_of_app. left. by eapply H9.
  - apply bind_Ok in Hh as ([] & _ & Hh). apply bind_Ok in Hh as ([] & Hopen%check_Ok_any & Hh).
    apply Ok_eq, pair_eq in Hh as [<- <-]. constructor; unfold total_works; cbn; rewrite ?Ea, ?Ec, ?Ew1; try done.
    + intros i [d Hi]. apply lookup_delete_Some in Hi as [_ Hi]. apply H6. by eexists.
    + intros i Hi. destruct (decide (i = id)) as [->|Hne].
      * apply H6. destruct (host_active (hosts s) !! id); [by eexists|done].
      * rewrite lookup_insert_ne in Hi by done. by apply H7.
Qed.

(** *** The other records *)

Lemma forget_works_sub m ids m' : forget_works m ids = Ok m' → ∀ i, is_Some (m' !! i) → is_Some (m !! i).
Proof. intros H i [op Hi]. exists op. by eapply forget_works_lookup. Qed.

Lemma ids_other ids s r s' kind : ids_ok ids s → consumed s r s' None kind →
  kind ≠ "NPU_CALL" → kind ≠ "HOST_STAGE" → ids_ok ids s'.
Proof.
  intros Hok Hc. inversion Hc as [|m H|m H|m H|m H|m H]; subst; intros Hk1 Hk2; try done.
  - apply phase_record_frame in H as ->. by destruct Hok.
  - pose proof (complete_operation_frame _ _ _ H) as (_ & _ & _ & Ht & _ & id & _ & Hco & _).
    change (total_works (set_pending s m)) with (total_works s) in Ht.
    assert (Hhosts : host_operation_complete (hosts s) id = Ok (hosts s') ∨ ∃ id', host_operation_complete (hosts s) id' = Ok (hosts s')).
    { right. unfold complete_operation in H. apply bind_Ok in H as (id' & _ & H). exists id'.
      do 21 (apply bind_Ok in H as (? & _ & H)). apply bind_Ok in H as (h & Hh & H).
      apply bind_Ok in H as (cs & _ & H). by apply bind_Ok in H as (fin & _ & <-%Ok_eq). }
    assert (Hh : ∃ id', hosts s' = {| host_active := host_active (hosts s);
      completed_owners := filter (fun kv => kv.2 ≠ id') (completed_owners (hosts s)); potal_host_count := potal_host_count (hosts s);
      functional_emulation_count := functional_emulation_count (hosts s); host_count := host_count (hosts s); completed := completed (hosts s) |}).
    { destruct Hhosts as [Hh|[id' Hh]]; unfold host_operation_complete in Hh; apply bind_Ok in Hh as (? & _ & Hh);
        apply bind_Ok in Hh as ([] & _ & Hh%Ok_eq); eexists; by rewrite <-Hh. }
    destruct Hh as [id' Hh]. unfold calls_operation_complete in Hco. change (calls (set_pending s m)) with (calls s) in Hco.
    apply bind_Ok in Hco as ([] & _ & Hco). apply bind_Ok in Hco as ([] & _ & Hco).
    apply bind_Ok in Hco as (remaining & Hrem & Hco%Ok_eq).
    apply (ids_frame _ s); try done; rewrite ?Hh, <-?Hco; cbn; try done.
    + by apply (forget_works_sub _ _ _ Hrem).
    + intros i [o Hi]. apply map_lookup_filter_Some in Hi as [Hi _]. left. by eexists.
  - apply end_record_frame in H as [-> _]. by destruct Hok.
Qed.
