(* ===== verification/JoinTheorems.v ===== *)
(** * What an accepted join promises

    A join that succeeds read a trace the validator accepts, answered every work
    of it by one result in the order of the works, consumed every measurement of
    a host stage exactly once, and wrote rows each of which depends on rows
    written before it.

    The journal of a join ([Entry]) is its history: one entry per row, with what
    the row was made of.  [journal_ok] is the invariant of the loop. *)
From S2P Require Import Prelude Records Replay Manifest CpuIndex CpuIndexTheorems NpuJoin Reconstruct.
From S2P Require Import JoinTrace TraceSchema TraceCalls TraceIntegrity TraceTheorems TraceLifecycle Topology.
From S2P Require Import ReplayTheorems.
Set Default Goal Selector "!".

(** ** One step of the join

    [join_step] consumes a record and, depending on its kind, writes a row.
    [join_step_inv] takes it apart once: which record of the trace it consumed
    and what it did to the rows written, the results left and the index. *)

(** ** Sorted sets of names *)

Definition sorted_names (l : list string) : list string := sort_strs (remove_dups l).
Lemma elem_of_sorted_names s l : s ∈ sorted_names l ↔ s ∈ l.
Proof. unfold sorted_names. by rewrite sort_strs_perm, elem_of_remove_dups. Qed.

Section Steps.
Context `{Host}.
Context (lower : string → string) (graph : Manifest) (authority : NpuAuthority).

Lemma host_names_Ok r l : item r "required_host_stage_ids" = Ok (JArr (map JInt l)) →
  host_names r = Ok (map (fun i => row_name (HostStage i)) l).
Proof. intros E. unfold host_names. rewrite E. cbn. by rewrite map_map. Qed.
Lemma work_names_Ok r l : item r "required_work_ids" = Ok (JArr (map JInt l)) →
  work_names r = Ok (map (fun i => row_name (NpuWork i)) l).
Proof. intros E. unfold work_names. rewrite E. cbn. by rewrite map_map. Qed.

(** The nodes the operation of a record waits for. *)
Definition predecessors_of (key : SemanticKey) (l : list string) : Prop :=
  ∃ sources, kget key (Manifest.edges graph) = Some sources ∧ l = map operation_name sources.

(** What a step does besides consuming its record. *)
Record same_books (j j' : Join) : Prop := {
  sb_results : results j' = results j;
  sb_steps : call_steps j' = call_steps j;
  sb_works : call_works j' = call_works j;
  sb_cpu : cpu j' = cpu j;
  sb_written : written j' = written j;
}.

Record work_joined (j j' : Join) (r : record) (w : Work) : Prop := {
  wj_row : ∃ result rest total row needs, results j = result :: rest ∧ results j' = rest ∧
    result_identity authority r result w = Ok tt ∧ result_scope authority (run_profile (run (trace j'))) result = Ok tt ∧
    modeled_cycles result = Ok total ∧
    item r "required_host_stage_ids" = Ok (JArr (map JInt needs)) ∧
    row_is row (NpuWork (identity w)) (row_name (CallStage (call_id w) "INVOKE") :: map (fun i => row_name (HostStage i)) needs) ∧
    pget row "duration" = JObj [("source", JStr "NPU_MODEL"); ("unit", JStr "cycles"); ("cycles", total)] ∧
    pget row "cost_included" = JNull ∧
    written j' = written j ++ [row];
  wj_steps : call_steps j' = call_steps j;
  wj_works : call_works j' = zset (call_id w) (row_name (NpuWork (identity w))) (call_works j);
  wj_cpu : cpu j' = cpu j;
}.

Record host_joined (j j' : Join) (r : record) : Prop := {
  hj_begin : eq_str (pget r "event") "BEGIN" = true;
  hj_written : ∃ row, written j' = written j ++ [row];
  hj_row : ∀ id works needs, integer r "host_stage_id" = Ok id → item r "required_work_ids" = Ok (JArr (map JInt works)) →
    item r "required_host_stage_ids" = Ok (JArr (map JInt needs)) →
    ∃ key preds row m duration, semantic_key r = Ok key ∧ predecessors_of key preds ∧
      CpuIndex.host r (cpu j) = Ok (m, cpu j') ∧
      row_is row (HostStage id) (sorted_names (preds ++ map (fun i => row_name (NpuWork i)) works ++
        map (fun i => row_name (HostStage i)) needs)) ∧
      pget row "cost_included" = JBool (match m with Some _ => true | None => false end) ∧
      pget row "host_stage_id" = JInt id ∧ pget row "duration" = duration ∧
      match m with Some body => ∃ d, duration_sample body = Ok d ∧ duration = JObj d | None => duration = JNull end ∧
      written j' = written j ++ [row];
  hj_results : results j' = results j;
  hj_steps : call_steps j' = call_steps j;
  hj_works : call_works j' = call_works j;
}.

Record call_joined (j j' : Join) (r : record) : Prop := {
  cj_row : ∀ id st works, integer r "call_id" = Ok id → pget r "stage" = JStr st →
    item r "required_work_ids" = Ok (JArr (map JInt works)) →
    ∃ key preds row published, semantic_key r = Ok key ∧ predecessors_of key preds ∧
      (st = "PUBLISH" ∧ (∃ work, zget id (call_works j) = Some work ∧ published = [work]) ∨ st ≠ "PUBLISH" ∧ published = []) ∧
      row_is row (CallStage id st) (sorted_names (match zget id (call_steps j) with Some step => [step] | None => preds end ++
        map (fun i => row_name (NpuWork i)) works ++ published)) ∧
      pget row "kind" = JStr "CALL_BOUNDARY" ∧ pget row "duration" = JNull ∧ pget row "cost_included" = JNull ∧ written j' = written j ++ [row] ∧
      call_steps j' = (if String.eqb st "CONTINUATION" then zdel id (call_steps j)
                       else zset id (row_name (CallStage id st)) (call_steps j)) ∧
      call_works j' = (if String.eqb st "CONTINUATION" then zdel id (call_works j) else call_works j);
  cj_results : results j' = results j;
  cj_cpu : cpu j' = cpu j;
}.

Inductive joined (j j' : Join) (r : record) : option Work → string → Prop :=
  | joined_work w : work_joined j j' r w → joined j j' r (Some w) "NPU_WORK"
  | joined_host : host_joined j j' r → joined j j' r None "HOST_STAGE"
  | joined_host_end : eq_str (pget r "event") "BEGIN" = false → same_books j j' → joined j j' r None "HOST_STAGE"
  | joined_call : call_joined j j' r → joined j j' r None "NPU_CALL"
  | joined_other kind : same_books j j' → kind ≠ "NPU_CALL" → kind ≠ "HOST_STAGE" → joined j j' r None kind.

(** ** The handlers *)

Lemma work_row_is key r result total row i c needs : item r "work_id" = Ok (JInt i) → item r "call_id" = Ok (JInt c) →
  item r "required_host_stage_ids" = Ok (JArr (map JInt needs)) → work_row graph key r result total = Ok row →
  row_is row (NpuWork i) (row_name (CallStage c "INVOKE") :: map (fun i => row_name (HostStage i)) needs) ∧
  pget row "duration" = JObj [("source", JStr "NPU_MODEL"); ("unit", JStr "cycles"); ("cycles", total)] ∧
  pget row "cost_included" = JNull.
Proof.
  intros Hi Hc Hn. unfold work_row. rewrite Hi, Hc, (host_names_Ok _ _ Hn). cbn [mbind res_bind]. intros Hr.
  apply bind_Ok in Hr as (own & _ & Hr). apply bind_Ok in Hr as (order & _ & Hr).
  apply bind_Ok in Hr as (semantic & Hsem & Hr). apply bind_Ok in Hr as (node & _ & Hr).
  apply bind_Ok in Hr as (identity & Hid & Hr). apply bind_Ok in Hr as (operation & _ & <-%Ok_eq).
  assert (Hkeys : ∀ k, str_in k SEMANTIC_FIELDS = false → values_of k semantic = []).
  { apply map_res_Ok in Hsem. clear -Hsem. induction Hsem as [|name kv l k Hv _ IH]; [done|].
    apply bind_Ok in Hv as (v & _ & <-%Ok_eq). intros k0 E. cbn in E. apply orb_false_iff in E as [E1 E2].
    unfold values_of in *. cbn. rewrite E1. by apply IH. }
  assert (Hserv : ∀ k, str_in k ["node_id"; "dependencies"; "kind"; "cost_included"; "host_stage_id"; "duration"] = true →
    values_of k identity = []) by (intros k; by eapply service_identity_values).
  split; [constructor|split].
  1,2: apply row_field_end; rewrite ?values_of_app, ?Hkeys, ?Hserv by done; reflexivity.
  - apply row_field_start; rewrite ?values_of_app, ?Hkeys, ?Hserv by done; reflexivity.
  - apply row_field_none; rewrite ?values_of_app, ?Hkeys, ?Hserv by done; reflexivity.
Qed.
Lemma npu_work_joined j key execution w r j' needs : item r "work_id" = Ok (JInt (identity w)) →
  integer r "call_id" = Ok (call_id w) → item r "required_host_stage_ids" = Ok (JArr (map JInt needs)) →
  npu_work graph authority j key execution (Some w) r = Ok j' → work_joined j j' r w ∧ trace j' = trace j ∧ sequence j' = sequence j.
Proof.
  intros Hi Hc Hn. unfold npu_work. intros Hj. apply bind_Ok in Hj as ([] & _ & Hj). cbv zeta in Hj.
  apply bind_Ok in Hj as ([] & _ & Hj). apply bind_Ok in Hj as ([] & _ & Hj).
  destruct (results j) as [|result rest] eqn:Er; [done|]. apply bind_Ok in Hj as ([] & Hid & Hj).
  apply bind_Ok in Hj as ([] & Hs & Hj). apply bind_Ok in Hj as (total & Ht & Hj). apply bind_Ok in Hj as (row & Hrow & Hj).
  rewrite Hc, Hi in Hj. cbn [mbind res_bind] in Hj. apply Ok_eq in Hj as <-. split; [|done].
  assert (Hci : item r "call_id" = Ok (JInt (call_id w))).
  { apply integer_Ok in Hc as [Hc _]. unfold pget in Hc. unfold item. destruct (sget "call_id" r); [|done]. cbn in Hc. by subst. }
  destruct (work_row_is _ _ _ _ _ _ _ _ Hi Hci Hn Hrow) as (Hr & Hd & Hcost).
  constructor; [|done..]. exists result, rest, total, row, needs. by split_and!.
Qed.

Lemma integer_item r key z : integer r key = Ok z → item r key = Ok (JInt z).
Proof.
  intros [Hz _]%integer_Ok. unfold pget in Hz. unfold item. destruct (sget key r); [|done]. cbn in Hz. by subst.
Qed.

Lemma host_stage_joined j key preds r j' : semantic_key r = Ok key → predecessors_of key preds →
  eq_str (pget r "event") "BEGIN" = true → host_stage lower graph j key preds r = Ok j' →
  host_joined j j' r ∧ trace j' = trace j ∧ sequence j' = sequence j.
Proof.
  intros Hkey Hp Hb. unfold host_stage. intros Hj. apply bind_Ok in Hj as ([m rest] & Hm & Hj).
  apply bind_Ok in Hj as (class & _ & Hj). apply bind_Ok in Hj as (duration & Hd & Hj). cbv zeta in Hj.
  apply bind_Ok in Hj as (stage_id & Hid & Hj). apply bind_Ok in Hj as (order & _ & Hj).
  apply bind_Ok in Hj as (stage & _ & Hj). apply bind_Ok in Hj as (node & _ & Hj).
  apply bind_Ok in Hj as (identity & Hserv & Hj). apply bind_Ok in Hj as (operation & _ & Hj).
  apply bind_Ok in Hj as (works & Hworks & Hj). apply bind_Ok in Hj as (hosts & Hhosts & <-%Ok_eq). split; [|done].
  assert (Hs : ∀ k, str_in k ["node_id"; "dependencies"; "kind"; "cost_included"; "host_stage_id"; "duration"] = true →
    values_of k identity = []) by (intros k; by eapply service_identity_values).
  constructor; try done; [by eexists|]. intros id ws ns Hi Hw Hn. rewrite (work_names_Ok _ _ Hw) in Hworks. rewrite (host_names_Ok _ _ Hn) in Hhosts.
  apply Ok_eq in Hworks as <-, Hhosts as <-. rewrite (integer_item _ _ _ Hi) in Hid. apply Ok_eq in Hid as <-.
  eexists key, preds, _, m, duration. split; [done|]. split; [done|]. split; [exact Hm|]. split; [|split; [|split; [|split; [|split; [|done]]]]].
  - constructor; apply row_field_end; rewrite ?values_of_app, ?Hs by done; reflexivity.
  - apply row_field_start; rewrite ?values_of_app, ?Hs by done; reflexivity.
  - apply row_field_start; rewrite ?values_of_app, ?Hs by done; reflexivity.
  - apply row_field_start; rewrite ?values_of_app, ?Hs by done; reflexivity.
  - destruct m as [body|]; [|by apply Ok_eq in Hd]. apply bind_Ok in Hd as (d & Hd & <-%Ok_eq). by exists d.
Qed.

Lemma call_stage_joined j key preds r j' : semantic_key r = Ok key → predecessors_of key preds →
  call_stage graph j key preds r = Ok j' → call_joined j j' r ∧ trace j' = trace j ∧ sequence j' = sequence j.
Proof.
  intros Hkey Hp. unfold call_stage. intros Hj. apply bind_Ok in Hj as (id & Hid & Hj).
  apply bind_Ok in Hj as (stage & Hst & Hj). cbv zeta in Hj. apply bind_Ok in Hj as (works & Hworks & Hj).
  apply bind_Ok in Hj as (published & Hpub & Hj). apply bind_Ok in Hj as (call & _ & Hj).
  apply bind_Ok in Hj as (kind & _ & Hj). apply bind_Ok in Hj as (order & _ & Hj). apply bind_Ok in Hj as (node & _ & Hj).
  apply bind_Ok in Hj as (identity & Hserv & Hj). apply bind_Ok in Hj as (operation & _ & <-%Ok_eq). split; [|done].
  assert (Hs : ∀ k, str_in k ["node_id"; "dependencies"; "kind"; "cost_included"; "host_stage_id"; "duration"] = true →
    values_of k identity = []) by (intros k; by eapply service_identity_values).
  constructor; try done. intros id' st ws Hi Hst' Hw. rewrite Hi in Hid. apply Ok_eq in Hid as <-.
  rewrite (work_names_Ok _ _ Hw) in Hworks. apply Ok_eq in Hworks as <-. apply pget_item in Hst. rewrite Hst' in Hst. subst stage.
  assert (Epub : eq_str (JStr st) "PUBLISH" = String.eqb st "PUBLISH") by done.
  assert (Eclosed : eq_str (JStr st) "CONTINUATION" = String.eqb st "CONTINUATION") by done. cbv beta. rewrite Eclosed.
  eexists key, preds, _, published. split; [done|]. split; [done|]. split; [|split; [|split; [|split; [|split; [|split; [reflexivity|split]]]]]].
  - rewrite Epub in Hpub. destruct (String.eqb_spec st "PUBLISH") as [->|Hne]; [left|right].
    + split; [done|]. destruct (zget id' (call_works j)) as [work|]; [|done]. exists work. split; [done|]. by apply Ok_eq in Hpub.
    + split; [done|]. by apply Ok_eq in Hpub.
  - constructor; apply row_field_end; rewrite ?values_of_app, ?Hs by done; reflexivity.
  - apply row_field_start; rewrite ?values_of_app, ?Hs by done; reflexivity.
  - apply row_field_start; rewrite ?values_of_app, ?Hs by done; reflexivity.
  - apply row_field_none; rewrite ?values_of_app, ?Hs by done; reflexivity.
  - done.
  - done.
Qed.
(** ** One step *)

Lemma kind_cases kind : kind = "NPU_WORK" ∨ kind = "HOST_STAGE" ∨ kind = "NPU_CALL" ∨
  (kind ≠ "NPU_WORK" ∧ kind ≠ "HOST_STAGE" ∧ kind ≠ "NPU_CALL").
Proof. destruct (decide (kind = "NPU_WORK")), (decide (kind = "HOST_STAGE")), (decide (kind = "NPU_CALL")); tauto. Qed.

Lemma phase_joined_books j r j' : phase_joined graph j r = Ok j' → same_books j j' ∧ trace j' = trace j ∧ sequence j' = sequence j.
Proof.
  unfold phase_joined. destruct (Manifest.phases graph !! phase_count j); [|done]. intros Hj.
  by apply bind_Ok in Hj as ([] & _ & <-%Ok_eq).
Qed.

Lemma target_operation_books j key execution r j' : target_operation graph j key execution r = Ok j' →
  same_books j j' ∧ trace j' = trace j ∧ sequence j' = sequence j.
Proof.
  unfold target_operation. intros Hj. apply bind_Ok in Hj as (? & _ & Hj). apply bind_Ok in Hj as ([] & _ & Hj).
  do 5 (apply bind_Ok in Hj as (? & _ & Hj)). apply bind_Ok in Hj as ([] & _ & Hj). apply bind_Ok in Hj as ([] & _ & Hj).
  do 2 (apply bind_Ok in Hj as (? & _ & Hj)). apply bind_Ok in Hj as ([] & _ & Hj).
  destruct (eq_str execution "TARGET_NPU"); [|by apply Ok_eq in Hj as <-]. by apply bind_Ok in Hj as ([] & _ & <-%Ok_eq).
Qed.

(** A record of a work has what its row needs. *)
Definition work_fields (r : record) (w : Work) : Prop :=
  item r "work_id" = Ok (JInt (identity w)) ∧ integer r "call_id" = Ok (call_id w) ∧
  ∃ needs, item r "required_host_stage_ids" = Ok (JArr (map JInt needs)).

Lemma join_record_inv j o r j' kind : pget r "kind" = JStr kind →
  match o with Some w => kind = "NPU_WORK" ∧ work_fields r w | None => kind ≠ "NPU_WORK" end →
  join_record lower graph authority j o r = Ok j' → joined j j' r o kind ∧ trace j' = trace j ∧ sequence j' = sequence j.
Proof.
  intros Hk Ho. unfold join_record. intros Hj. apply bind_Ok in Hj as (k & Hki & Hj). apply pget_item in Hki. rewrite Hk in Hki. subst k.
  assert (Heq : ∀ t, eq_str (JStr kind) t = String.eqb kind t) by done. rewrite !Heq in Hj. clear Heq.
  destruct (kind_cases kind) as [->|[->|[->|(Hw & Hh & Hc)]]]; cbn [String.eqb Ascii.eqb Bool.eqb andb] in Hj.
  - destruct o as [w|]; [|done]. destruct Ho as (_ & Hi & Hcall & needs & Hn).
    apply bind_Ok in Hj as (key & _ & Hj). apply bind_Ok in Hj as ([] & _ & Hj). apply bind_Ok in Hj as (execution & _ & Hj).
    apply bind_Ok in Hj as (sources & _ & Hj). destruct (npu_work_joined _ _ _ _ _ _ _ Hi Hcall Hn Hj) as (Hjoin & Ht & Hs).
    split; [by constructor|done].
  - destruct o as [w|]; [by destruct Ho|]. apply bind_Ok in Hj as (key & Hkey & Hj). apply bind_Ok in Hj as ([] & _ & Hj).
    apply bind_Ok in Hj as (execution & _ & Hj). apply bind_Ok in Hj as (sources & Hsrc & Hj).
    apply bind_Ok in Hj as (event & Hevent%pget_item & Hj). subst event. destruct (eq_str (pget r "event") "BEGIN") eqn:Eb.
    + eapply host_stage_joined in Hj as (Hjoin & Ht & Hs); [|exact Hkey| |exact Eb]; [split; [by apply joined_host|done]|].
      unfold sources_of in Hsrc. destruct (kget key (Manifest.edges graph)) as [l|] eqn:El; [|done]. apply Ok_eq in Hsrc as <-. by exists l.
    + apply Ok_eq in Hj as <-. split; [by apply joined_host_end|done].
  - destruct o as [w|]; [by destruct Ho|]. apply bind_Ok in Hj as (key & Hkey & Hj). apply bind_Ok in Hj as ([] & _ & Hj).
    apply bind_Ok in Hj as (execution & _ & Hj). apply bind_Ok in Hj as (sources & Hsrc & Hj).
    apply bind_Ok in Hj as (event & _ & Hj). eapply call_stage_joined in Hj as (Hjoin & Ht & Hs); [|exact Hkey|].
    + split; [by apply joined_call|done].
    + unfold sources_of in Hsrc. destruct (kget key (Manifest.edges graph)) as [l|] eqn:El; [|done]. apply Ok_eq in Hsrc as <-. by exists l.
  - destruct o as [w|]; [by destruct Ho|]. apply String.eqb_neq in Hw, Hh, Hc. rewrite ?Hw, ?Hh, ?Hc in Hj.
    apply String.eqb_neq in Hw, Hh, Hc. assert (Hbooks : same_books j j' ∧ trace j' = trace j ∧ sequence j' = sequence j).
    { destruct (String.eqb kind "PHASE"); [by eapply phase_joined_books|].
      destruct (String.eqb kind "RUN_END"); [by apply Ok_eq in Hj as <-|].
      apply bind_Ok in Hj as (key & _ & Hj). apply bind_Ok in Hj as ([] & _ & Hj). apply bind_Ok in Hj as (execution & _ & Hj).
      apply bind_Ok in Hj as (sources & _ & Hj). destruct (String.eqb kind "TARGET_OPERATION"); [by eapply target_operation_books|].
      apply bind_Ok in Hj as (event & _ & Hj). by apply Ok_eq in Hj as <-. }
    destruct Hbooks as (Hb & Ht & Hs). split; [by apply joined_other|done].
Qed.

Lemma join_step_inv j line j' : join_step lower graph authority j line = Ok j' →
  ∃ r o kind, TraceIntegrity.read_record (sequence j) line = Ok r ∧ consume (trace j) r = Ok (trace j', o) ∧
    pget r "kind" = JStr kind ∧ consumed (trace j) r (trace j') o kind ∧ joined j j' r o kind ∧ sequence j' = sequence j + 1.
Proof.
  unfold join_step. intros Hj. apply bind_Ok in Hj as (r & Hr & Hj). apply bind_Ok in Hj as ([s' o] & Hc & Hj).
  pose proof (consume_consumed _ _ _ _ Hc) as (kind & Hk & Hcons).
  assert (Ho : match o with Some w => kind = "NPU_WORK" ∧ work_fields r w | None => kind ≠ "NPU_WORK" end).
  { inversion Hcons as [m w Hw|m Hw|m Hw|m Hw|m Hw|m Hw]; subst; try done. split; [done|].
    apply work_record_fields in Hw as (Hi & Hcall & _ & needs & Hn & _). split; [by apply integer_item|]. split; [done|]. by exists needs. }
  destruct (join_record_inv _ _ _ _ _ Hk Ho Hj) as (Hjoin & Ht & Hs). cbn in Ht, Hs. subst s'.
  exists r, o, kind. split_and!; try done.
  inversion Hjoin as [w [Hrow H1 H2 H3]|[]|Hb []|[]|? []]; subst; by (constructor; try done; constructor).
Qed.
End Steps.

(** ** The journal *)

(** What a row was made of: the record, work and result of an NPU row, the
    measurement of a host row, nothing for the others. *)
Inductive Origin : Type :=
  | Answer (r : record) (w : Work) (result : record)
  | Measured (sm : Sample)
  | Structural.

Record Entry := { en_row : record; en_id : RowId; en_deps : list string; en_origin : Origin }.
Definition en_name (e : Entry) : string := row_name (en_id e).

Definition answered_work (e : Entry) : option (record * Work) :=
  match en_origin e with Answer r w _ => Some (r, w) | _ => None end.
Definition answering (e : Entry) : option record :=
  match en_origin e with Answer _ _ result => Some result | _ => None end.
Definition measuring (e : Entry) : option Sample :=
  match en_origin e with Measured sm => Some sm | _ => None end.

Definition has_cost (row : record) : bool := is_true (pget row "cost_included").

Lemma values_aset {K V} (eqb : K → K → bool) (P : V → Prop) k v (l : list (K * V)) : P v → Forall (fun kv => P kv.2) l →
  Forall (fun kv => P kv.2) (aset eqb k v l).
Proof.
  intros Hv. induction l as [|[k' v'] l IH]; cbn; intros Hl; [by repeat constructor|].
  apply Forall_cons in Hl as [H' Hl]. destruct (eqb k k'); constructor; auto.
Qed.
Lemma values_adel {K V} (eqb : K → K → bool) (P : V → Prop) k (l : list (K * V)) : Forall (fun kv => P kv.2) l →
  Forall (fun kv => P kv.2) (adel eqb k l).
Proof.
  induction l as [|[k' v'] l IH]; cbn; intros Hl; [done|]. apply Forall_cons in Hl as [H' Hl].
  destruct (eqb k k'); [done|]. constructor; auto.
Qed.
Lemma values_zget {V} (P : V → Prop) k v (l : list (Z * V)) : Forall (fun kv => P kv.2) l → zget k l = Some v → P v.
Proof. intros Hl Hk. apply aget_In in Hk; [|apply Z.eqb_eq]. rewrite Forall_forall in Hl. by apply (Hl (k, v)). Qed.

Lemma ids_array_inj (l l' : list Z) : @Ok json (JArr (map JInt l)) = Ok (JArr (map JInt l')) → l = l'.
Proof. intros E. apply Ok_eq in E. assert (H : map JInt l = map JInt l') by congruence. apply map_injective in H; [done|congruence]. Qed.

Section Join.
Context `{Host}.
Context (lower : string → string) (graph : Manifest) (authority : NpuAuthority).

(** What holds of one row, for a trace of the given profile. *)
Record entry_ok (profile : string) (e : Entry) : Prop := {
  eo_row : row_is (en_row e) (en_id e) (en_deps e);
  eo_origin : match en_origin e with
    | Answer r w result => en_id e = NpuWork (identity w) ∧ row_name (CallStage (call_id w) "INVOKE") ∈ en_deps e ∧ has_cost (en_row e) = false ∧
        result_identity authority r result w = Ok tt ∧ result_scope authority profile result = Ok tt ∧
        ∃ total, modeled_cycles result = Ok total ∧ pget (en_row e) "duration" =
          JObj [("source", JStr "NPU_MODEL"); ("unit", JStr "cycles"); ("cycles", total)]
    | Measured sm => has_cost (en_row e) = true ∧ valid_measurement (sm_body sm) = Ok tt ∧ ∃ id d, en_id e = HostStage id ∧
        sm_host sm = Some id ∧ duration_sample (sm_body sm) = Ok d ∧ pget (en_row e) "duration" = JObj d
    | Structural => has_cost (en_row e) = false ∧ pget (en_row e) "duration" = JNull
    end;
}.

(** The names the rows of the operations have. *)
Context (operations : list string).
Hypothesis operations_known : ∀ key preds, predecessors_of graph key preds → ∀ name, name ∈ preds → name ∈ operations.

Definition ordered (l : list Entry) : Prop := Topology.topological String.eqb en_name en_deps operations l.

Lemma ordered_snoc l e : ordered l → (∀ d, d ∈ en_deps e → d ∈ operations ++ map en_name l) → ordered (l ++ [e]).
Proof.
  intros Hl He. unfold ordered. apply topological_app. split; [done|]. cbn. split; [|done].
  apply unblocked_deps; [apply String.eqb_eq|done].
Qed.

Lemma known_row l id : id ∈ map en_id l → row_name id ∈ operations ++ map en_name l.
Proof.
  intros Hin. apply elem_of_app. right. apply list_elem_of_In, in_map_iff in Hin as (e & <- & He).
  apply list_elem_of_In, in_map_iff. by exists e.
Qed.

(** The state of the validator, and its history. *)
Abbreviation Validation := (Z * TraceState * list (record * Work))%type.

Record journal_ok (results0 : list record) (x0 : CpuIndex) (st : Validation) (l : list Entry) (j : Join) : Prop := {
  jn_state : st.1 = (sequence j, trace j);
  jn_calls : calls_wf st.2.*2 (calls (trace j));
  jn_ids : ids_ok (map en_id l) (trace j);
  jn_entries : Forall (entry_ok (run_profile (run (trace j)))) l;
  jn_written : written j = map en_row l;
  jn_works : omap answered_work l = st.2;
  jn_results : omap answering l ++ results j = results0;
  jn_rows : rows_ok (samples (cpu j));
  jn_samples : samples x0 ≡ₚ omap measuring l ++ samples (cpu j);
  jn_intervals : intervals (cpu j) = intervals x0;
  jn_order : ordered l;
  jn_steps : Forall (fun kv => kv.2 ∈ map en_name l) (call_steps j);
  jn_call_works : Forall (fun kv => kv.2 ∈ map en_name l) (call_works j);
}.

(** ** One pass *)

Lemma grown {K} (l : list Entry) e (books : list (K * string)) : Forall (fun kv => kv.2 ∈ map en_name l) books →
  Forall (fun kv => kv.2 ∈ map en_name (l ++ [e])) books.
Proof. intros Hl. eapply Forall_impl; [exact Hl|]. intros kv Hkv. rewrite map_app. apply elem_of_app. by left. Qed.

Lemma last_name l e : en_name e ∈ map en_name (l ++ [e]).
Proof. rewrite map_app. apply elem_of_app. right. by constructor. Qed.

(** The validator goes along. *)
Lemma validation_step st j line r s' o : st.1 = (sequence j, trace j) → TraceIntegrity.read_record (sequence j) line = Ok r →
  consume (trace j) r = Ok (s', o) →
  trace_step st line = Ok (sequence j + 1, s', st.2 ++ match o with Some w => [(r, w)] | None => [] end).
Proof. destruct st as [st ws]. cbn [fst snd]. intros -> Hr Hc. unfold trace_step. rewrite Hr. cbn [mbind res_bind]. by rewrite Hc. Qed.

Section Step.
Context (results0 : list record) (x0 : CpuIndex) (st : Validation) (l : list Entry) (j j' : Join) (r : record).
Hypothesis Hj : journal_ok results0 x0 st l j.
Hypothesis Hrun : run (trace j') = run (trace j).
Hypothesis Hseq : sequence j' = sequence j + 1.

Lemma journal_books kind : consumed (trace j) r (trace j') None kind → same_books j j' →
  calls_wf st.2.*2 (calls (trace j')) → ids_ok (map en_id l) (trace j') →
  journal_ok results0 x0 (sequence j', trace j', st.2 ++ []) l j'.
Proof.
  destruct Hj as [H1 H2 H3 H4 H5 H6 H7 H8 H9 H10 H11 H12 H13]. intros _ [B1 B2 B3 B4 B5] Hcalls Hids.
  constructor; cbn [fst snd]; rewrite ?app_nil_r, ?Hrun, ?B1, ?B2, ?B3, ?B4, ?B5; done.
Qed.

(** A pass that writes one row. *)
Lemma journal_entry e ws' : calls_wf (st.2 ++ ws').*2 (calls (trace j')) → ids_ok (map en_id l ++ [en_id e]) (trace j') →
  entry_ok (run_profile (run (trace j))) e → written j' = written j ++ [en_row e] → option_list (answered_work e) = ws' →
  results j = option_list (answering e) ++ results j' → rows_ok (samples (cpu j')) →
  samples (cpu j) ≡ₚ option_list (measuring e) ++ samples (cpu j') → intervals (cpu j') = intervals (cpu j) →
  (∀ d, d ∈ en_deps e → d ∈ operations ++ map en_name l) →
  Forall (fun kv => kv.2 ∈ map en_name (l ++ [e])) (call_steps j') →
  Forall (fun kv => kv.2 ∈ map en_name (l ++ [e])) (call_works j') →
  journal_ok results0 x0 (sequence j', trace j', st.2 ++ ws') (l ++ [e]) j'.
Proof.
  destruct Hj as [H1 H2 H3 H4 H5 H6 H7 H8 H9 H10 H11 H12 H13]. intros Hc Hi He Hw Hws Hr Hrows Hs Hiv Hd Hst Hcw.
  assert (Homap : ∀ A (f : Entry → option A), omap f (l ++ [e]) = omap f l ++ option_list (f e)).
  { intros A f. rewrite omap_app. cbn. by destruct (f e). }
  constructor; cbn [fst snd]; try done.
  - by rewrite map_app.
  - rewrite Hrun. apply Forall_app. split; [done|]. by apply Forall_singleton.
  - by rewrite Hw, H5, map_app.
  - by rewrite Homap, H6, Hws.
  - by rewrite Homap, <-app_assoc, <-Hr.
  - by rewrite Homap, <-app_assoc, <-Hs.
  - congruence.
  - by apply ordered_snoc.
Qed.

Lemma journal_work m w : work_record (set_pending (trace j) m) r = Ok (trace j', w) → work_joined authority j j' r w →
  calls_wf (st.2 ++ [(r, w)]).*2 (calls (trace j')) →
  ∃ e, journal_ok results0 x0 (sequence j', trace j', st.2 ++ [(r, w)]) (l ++ [e]) j'.
Proof.
  intros Hw [(result & rest & total & row & needs & Hr & Hr' & Hid & Hscope & Ht & Hneeds & Hrow & Hd & Hcost & Hwr) Hs Hcw Hcpu] Hcalls.
  pose proof (work_record_fields _ _ _ _ Hw) as (_ & _ & _ & needs' & Hneeds' & Hdone). rewrite Hneeds in Hneeds'.
  apply ids_array_inj in Hneeds' as <-. change (hosts (set_pending (trace j) m)) with (hosts (trace j)) in Hdone.
  destruct (ids_work _ _ _ _ _ _ (jn_ids _ _ _ _ _ Hj) Hw) as (Hids & Hinvoke & _).
  exists {| en_row := row; en_id := NpuWork (identity w);
            en_deps := row_name (CallStage (call_id w) "INVOKE") :: map (fun i => row_name (HostStage i)) needs; en_origin := Answer r w result |}.
  apply journal_entry; cbn [en_row en_id en_deps en_origin answered_work answering measuring option_list]; try done.
  - constructor; cbn [en_row en_id en_deps en_origin]; [done|]. split; [done|]. split; [by constructor|]. split; [unfold has_cost; by rewrite Hcost|].
    split; [done|]. split; [by rewrite <-Hrun|]. by exists total.
  - by rewrite Hr, Hr'.
  - rewrite Hcpu. apply Hj.
  - by rewrite Hcpu.
  - by rewrite Hcpu.
  - intros d Hin. apply elem_of_cons in Hin as [-> | Hin]; [by apply known_row|].
    apply list_elem_of_In, in_map_iff in Hin as (i & <- & Hi%list_elem_of_In). apply known_row.
    by apply (io_completed _ _ (jn_ids _ _ _ _ _ Hj)), Hdone.
  - rewrite Hs. apply grown, Hj.
  - rewrite Hcw. apply (values_aset Z.eqb (fun v => v ∈ map en_name _)).
    + match goal with |- context [l ++ [?e]] => apply (last_name l e) end.
    + apply grown, Hj.
Qed.
Lemma known_work i : is_Some (work_operations (calls (trace j)) !! i) → row_name (NpuWork i) ∈ operations ++ map en_name l.
Proof.
  intros Hi. apply known_row. pose proof (jn_ids _ _ _ _ _ Hj) as Hids. by apply (io_npu _ _ Hids), (io_works _ _ Hids).
Qed.

Lemma journal_host m : host_record (set_pending (trace j) m) r = Ok (trace j') → host_joined graph j j' r →
  calls_wf st.2.*2 (calls (trace j')) → ∃ e, journal_ok results0 x0 (sequence j', trace j', st.2 ++ []) (l ++ [e]) j'.
Proof.
  intros Hh [Hb _ Hrow Hr Hs Hcw] Hcalls. destruct (ids_host _ _ _ _ _ (jn_ids _ _ _ _ _ Hj) Hh) as [Hbegin _].
  destruct (Hbegin Hb) as (id & (_ & Hid & _ & (works & Hworks & Hwk) & needs & Hneeds & Hnk) & Hids). clear Hbegin Hh.
  destruct (Hrow id works needs Hid Hworks Hneeds) as (key & preds & row & m' & d & _ & Hp & Hm & Hrw & Hcost & _ & Hd & Hdm & Hwr).
  clear Hrow. destruct (host_taken _ _ _ _ (jn_rows _ _ _ _ _ Hj) Hm) as (id' & Hid' & Hx & Htaken).
  rewrite Hid in Hid'. apply Ok_eq in Hid' as <-.
  assert (Hrows : rows_ok (samples (cpu j'))) by (rewrite Hx; apply rows_ok_filter, Hj).
  set (origin := match m' with Some body => Some body | None => None end).
  assert (∃ o, match o with Measured sm => m' = Some (sm_body sm) ∧ sm_host sm = Some id ∧ samples (cpu j) ≡ₚ sm :: samples (cpu j') ∧
      valid_measurement (sm_body sm) = Ok tt
    | Structural => m' = None ∧ samples (cpu j') = samples (cpu j) | Answer _ _ _ => False end) as [o Ho].
  { destruct m' as [body|]; cbn in Htaken.
    - destruct Htaken as (_ & Hv & sm & Hsm & <- & Hperm & _). by exists (Measured sm).
    - destruct Htaken as [_ E]. by exists Structural. }
  clear Htaken origin.
  exists {| en_row := row; en_id := HostStage id; en_deps := sorted_names (preds ++ map (fun i => row_name (NpuWork i)) works ++
        map (fun i => row_name (HostStage i)) needs); en_origin := o |}.
  apply journal_entry; cbn [en_row en_id en_deps en_origin]; try done.
  - by rewrite app_nil_r.
  - constructor; cbn [en_row en_id en_deps en_origin]; [done|]. destruct o as [|sm|]; [done| |].
    + destruct Ho as (-> & Hsm & _ & Hv). destruct Hdm as (d' & Hd' & ->). unfold has_cost. rewrite Hcost. split_and!; [done..|].
      by exists id, d'.
    + destruct Ho as [-> _]. unfold has_cost. rewrite Hcost. by subst d.
  - by destruct o.
  - rewrite Hr. by destruct o.
  - destruct o as [|sm|]; [done| |]; cbn; [apply Ho|by destruct Ho as [_ ->]].
  - by rewrite Hx.
  - intros d' Hin. rewrite elem_of_sorted_names, !elem_of_app in Hin. destruct Hin as [Hin|[Hin|Hin]].
    + apply elem_of_app. left. by eapply operations_known.
    + apply list_elem_of_In, in_map_iff in Hin as (i & <- & Hi%list_elem_of_In). by apply known_work, Hwk.
    + apply list_elem_of_In, in_map_iff in Hin as (i & <- & Hi%list_elem_of_In). apply known_row.
      by apply (io_completed _ _ (jn_ids _ _ _ _ _ Hj)), Hnk.
  - rewrite Hs. apply grown, Hj.
  - rewrite Hcw. apply grown, Hj.
Qed.

Lemma journal_call m : call_record (set_pending (trace j) m) r = Ok (trace j') → call_joined graph j j' r →
  calls_wf st.2.*2 (calls (trace j')) → ∃ e, journal_ok results0 x0 (sequence j', trace j', st.2 ++ []) (l ++ [e]) j'.
Proof.
  intros Hc [Hrow Hr Hcpu] Hcalls. destruct (ids_call _ _ _ _ _ _ (jn_ids _ _ _ _ _ Hj) (jn_calls _ _ _ _ _ Hj) Hc)
    as (id & stg & before & after & Hsg & Hids & _). destruct (sg_needs _ _ _ _ _ _ _ Hsg) as (works & Hworks & Hwk).
  destruct (Hrow id stg works (sg_call _ _ _ _ _ _ _ Hsg) (sg_stage _ _ _ _ _ _ _ Hsg) Hworks)
    as (key & preds & row & published & _ & Hp & Hpub & Hrw & _ & Hd & Hcost & Hwr & Hst & Hcw). clear Hrow Hc.
  match type of Hrw with row_is _ _ ?deps =>
    exists {| en_row := row; en_id := CallStage id stg; en_deps := deps; en_origin := Structural |} end.
  apply journal_entry; cbn [en_row en_id en_deps en_origin]; try done.
  - by rewrite app_nil_r.
  - constructor; cbn [en_row en_id en_deps en_origin]; [exact Hrw|]. unfold has_cost. by rewrite Hcost.
  - rewrite Hcpu. apply Hj.
  - by rewrite Hcpu.
  - by rewrite Hcpu.
  - intros d Hin. rewrite elem_of_sorted_names, !elem_of_app in Hin. destruct Hin as [Hin|[Hin|Hin]].
    + destruct (zget id (call_steps j)) as [step|] eqn:E.
      * apply list_elem_of_singleton in Hin as ->. apply elem_of_app. right.
        by apply (values_zget (fun v => v ∈ map en_name l) _ _ _ (jn_steps _ _ _ _ _ Hj)) in E.
      * apply elem_of_app. left. by eapply operations_known.
    + apply list_elem_of_In, in_map_iff in Hin as (i & <- & Hi%list_elem_of_In). by apply known_work, Hwk.
    + destruct Hpub as [(_ & work & E & ->)|[_ ->]]; [|by apply elem_of_nil in Hin].
      apply list_elem_of_singleton in Hin as ->. apply elem_of_app. right.
      by apply (values_zget (fun v => v ∈ map en_name l) _ _ _ (jn_call_works _ _ _ _ _ Hj)) in E.
  - rewrite Hst. destruct (String.eqb stg "CONTINUATION").
    + apply (values_adel Z.eqb (fun v => v ∈ map en_name _)), grown, Hj.
    + apply (values_aset Z.eqb (fun v => v ∈ map en_name _)); [|apply grown, Hj].
      match goal with |- context [l ++ [?e]] => apply (last_name l e) end.
  - rewrite Hcw. destruct (String.eqb stg "CONTINUATION"); [apply (values_adel Z.eqb (fun v => v ∈ map en_name _))|]; apply grown, Hj.
Qed.
End Step.

Lemma journal_step results0 x0 st l j line j' : journal_ok results0 x0 st l j → join_step lower graph authority j line = Ok j' →
  ∃ st' l', trace_step st line = Ok st' ∧ journal_ok results0 x0 st' l' j'.
Proof.
  intros Hj (r & o & kind & Hr & Hc & _ & Hcons & Hjoin & Hs)%join_step_inv.
  exists (sequence j', trace j', st.2 ++ match o with Some w => [(r, w)] | None => [] end).
  pose proof (consume_run _ _ _ _ Hc) as Hrun. pose proof (calls_wf_consume _ _ _ _ _ (jn_calls _ _ _ _ _ Hj) Hc) as Hcalls.
  assert (Hstep := validation_step st j line r _ _ (jn_state _ _ _ _ _ Hj) Hr Hc). rewrite <-Hs in Hstep.
  destruct Hjoin as [w Hw|Hh|He Hb|Hcall|kind Hb Hk1 Hk2].
  - inversion Hcons as [m w' Hrec| | | | |]. subst w'.
    destruct (journal_work _ _ _ _ _ _ _ Hj Hrun m w Hrec Hw) as [e He]; [by rewrite fmap_app|]. by exists (l ++ [e]).
  - inversion Hcons as [| | |m Hrec| |]. cbn in Hcalls. rewrite app_nil_r in Hcalls.
    destruct (journal_host _ _ _ _ _ _ _ Hj Hrun m Hrec Hh Hcalls) as [e He]. by exists (l ++ [e]).
  - inversion Hcons as [| | |m Hrec| |]. cbn in Hcalls. rewrite app_nil_r in Hcalls. exists l. split; [done|].
    eapply journal_books; try done. by apply (ids_host _ _ _ _ _ (jn_ids _ _ _ _ _ Hj) Hrec).
  - inversion Hcons as [| |m Hrec| | |]. cbn in Hcalls. rewrite app_nil_r in Hcalls.
    destruct (journal_call _ _ _ _ _ _ _ Hj Hrun m Hrec Hcall Hcalls) as [e He]. by exists (l ++ [e]).
  - cbn in Hcalls. rewrite app_nil_r in Hcalls. exists l. split; [done|]. eapply journal_books; try done.
    eapply ids_other; try done. apply Hj.
Qed.

(** ** The whole *)

Lemma journal_start hardware_contract lines results0 x0 j0 rest : rows_ok (samples x0) →
  join_start hardware_contract graph authority lines results0 x0 = Ok (j0, rest) →
  ∃ line s, lines = line :: rest ∧ start_trace line = Ok s ∧ journal_ok results0 x0 (1, s, []) [] j0.
Proof.
  intros Hrows. unfold join_start. destruct lines as [|line rest']; [done|]. intros Hj.
  apply bind_Ok in Hj as (s & Hs & Hj). apply bind_Ok in Hj as (config & _ & Hj). apply bind_Ok in Hj as ([] & _ & Hj).
  apply bind_Ok in Hj as ([] & _ & Hj). apply bind_Ok in Hj as (current & _ & Hj). apply bind_Ok in Hj as ([] & _ & Hj).
  apply Ok_eq, pair_eq in Hj as [<- <-]. exists line, s. split; [done|]. split; [done|].
  unfold start_trace in Hs. apply bind_Ok in Hs as (r & _ & Hs). apply bind_Ok in Hs as (run0 & _ & <-%Ok_eq).
  constructor; cbn [sequence trace results call_steps call_works cpu written fst snd map omap list_omap app]; try done.
  - apply calls_wf_start.
  - apply start_ids.
Qed.

Lemma journal_loop results0 x0 l0 st0 j0 rest j : journal_ok results0 x0 st0 l0 j0 →
  fold_res (join_step lower graph authority) j0 rest = Ok j →
  ∃ st l, fold_res trace_step st0 rest = Ok st ∧ journal_ok results0 x0 st l j.
Proof.
  intros H0. apply (fold_res_hist (fun pre j => ∃ st l, fold_res trace_step st0 pre = Ok st ∧ journal_ok results0 x0 st l j)).
  - by exists st0, l0.
  - intros pre line post j1 j2 _ (st & l & Hf & Hj) Hs. destruct (journal_step _ _ _ _ _ _ _ Hj Hs) as (st' & l' & Hst & Hj').
    exists st', l'. split; [|done]. rewrite fold_res_app, Hf. cbn [mbind res_bind fold_res]. by rewrite Hst.
Qed.
End Join.

(** What an accepted join wrote. *)
Record joined_trace `{Host} (authority : NpuAuthority) (operations : list string) (lines : list (option json))
    (results0 : list record) (x0 : CpuIndex) (rows : list record) (s : TraceState) (ws : list (record * Work)) (l : list Entry) : Prop := {
  jt_trace : run_trace lines = Ok (s, ws);
  jt_ended : ended s = true;
  jt_rows : rows = map en_row l;
  jt_entries : Forall (entry_ok authority (run_profile (run s))) l;
  jt_works : omap answered_work l = ws;
  jt_results : omap answering l = results0;
  jt_measured : omap measuring l ≡ₚ List.filter hosted (samples x0);
  jt_additive : additive (intervals x0);
  jt_distinct : NoDup (map en_id l);
  jt_kind : ∀ id, id ∈ map en_id l → match id with NpuWork _ | HostStage _ | CallStage _ _ => True | _ => False end;
  jt_order : ordered operations l;
}.

Lemma join_finish_Ok graph authority j x report : join_finish graph authority j = Ok (x, report) →
  ended (trace j) = true ∧ results j = [] ∧ CpuIndex.finish (cpu j) = Ok x.
Proof.
  unfold join_finish. intros Hf. apply bind_Ok in Hf as (v & Hv & Hf). apply bind_Ok in Hf as ([] & Hr%check_Ok_any & Hf).
  apply bind_Ok in Hf as ([] & _ & Hf). apply bind_Ok in Hf as (e & _ & Hf). apply bind_Ok in Hf as ([] & _ & Hf).
  apply bind_Ok in Hf as (n & _ & Hf). apply bind_Ok in Hf as ([] & _ & Hf). apply bind_Ok in Hf as (x' & Hx & Hf).
  apply Ok_eq, pair_eq in Hf as [<- _]. split_and!; [|by destruct (results j)|done].
  unfold summary in Hv. by apply bind_Ok in Hv as ([] & Hv%check_Ok_any & _).
Qed.

Lemma filter_hosted_taken l k : Forall (fun sm => hosted sm = true) l → Forall (fun sm => hosted sm = false) k →
  List.filter hosted (l ++ k) = l.
Proof.
  intros Hl Hk. rewrite List.filter_app. assert (E : List.filter hosted k = []).
  { induction Hk as [|sm k Hsm _ IH]; [done|]. cbn. by rewrite Hsm. }
  rewrite E, app_nil_r. induction Hl as [|sm l Hsm _ IH]; [done|]. cbn. by rewrite Hsm, IH.
Qed.

#[export] Instance filter_hosted_perm : Proper ((≡ₚ) ==> (≡ₚ)) (List.filter hosted).
Proof.
  intros l k Hp. induction Hp as [|a l k _ IH|a b l|l k m _ IH1 _ IH2]; cbn; [done| | |by etrans].
  - destruct (hosted a); [by constructor|done].
  - destruct (hosted a), (hosted b); try done. apply Permutation_swap.
Qed.

Lemma write_admitted_joined `{Host} lower hardware_contract graph authority operations lines results0 x0 rows report :
  (∀ key preds, predecessors_of graph key preds → ∀ name, name ∈ preds → name ∈ operations) →
  rows_ok (samples x0) → write_admitted lower hardware_contract graph authority lines results0 x0 = Ok (rows, report) →
  ∃ s ws l, joined_trace authority operations lines results0 x0 rows s ws l.
Proof.
  intros Hops Hrows Hj. unfold write_admitted in Hj. apply bind_Ok in Hj as ([j0 rest] & H0 & Hj).
  apply bind_Ok in Hj as (j & Hloop & Hj). apply bind_Ok in Hj as ([x report'] & Hfin & Hj).
  apply Ok_eq, pair_eq in Hj as [<- _]. destruct (join_finish_Ok _ _ _ _ _ Hfin) as (Hend & Hres & Hx). clear Hfin.
  destruct (journal_start _ _ operations _ _ _ _ _ _ Hrows H0) as (line & s & -> & Hs & J0).
  destruct (journal_loop _ _ _ _ Hops _ _ _ _ _ _ _ J0 Hloop) as (st & l & Hst & J).
  exists (trace j), st.2, l. destruct (finish_Ok _ _ Hx) as (Hnone & Hadd & _).
  pose proof (jn_ids _ _ _ _ _ _ _ J) as Hids. constructor.
  - unfold run_trace. rewrite Hs. cbn [mbind res_bind]. rewrite Hst. cbn [mbind res_bind].
    destruct st as [st1 ws]. pose proof (jn_state _ _ _ _ _ _ _ J) as E. cbn [fst snd] in *. by rewrite E.
  - done.
  - apply J.
  - apply J.
  - apply J.
  - rewrite <-(jn_results _ _ _ _ _ _ _ J), Hres. by rewrite app_nil_r.
  - rewrite (jn_samples _ _ _ _ _ _ _ J). rewrite filter_hosted_taken; [done| |done].
    apply Forall_forall. intros sm Hsm. apply list_elem_of_omap in Hsm as (e & He & Hm).
    pose proof (jn_entries _ _ _ _ _ _ _ J) as Hall. rewrite Forall_forall in Hall. destruct (Hall e He) as [_ Ho].
    unfold measuring in Hm. destruct (en_origin e) as [|sm'|]; try done. injection Hm as ->.
    destruct Ho as (_ & _ & id & d & _ & Hh & _). unfold hosted. by rewrite Hh.
  - by rewrite (jn_intervals _ _ _ _ _ _ _ J) in Hadd.
  - apply Hids.
  - apply Hids.
  - apply J.
Qed.
