(* ===== verification/JoinCalls.v ===== *)
(** * The call of a stripe in the rows of a join

    The stage pipeline of the adapter needs that the stages of a stripe's call
    follow each other in the dataset ([AdapterPipeline.call_chain]).  They do in
    the rows of a join: an [INVOKE] waits for its [PREPARE], a [PUBLISH] for its
    [INVOKE], and no call of a stripe ends without a [PUBLISH]. *)
From S2P Require Import Prelude Records Topology TraceSchema TraceIntegrity Manifest ManifestTheorems.
From S2P Require Import CpuIndex CpuIndexTheorems NpuJoin Reconstruct JoinTrace JoinTheorems Replay.
From S2P Require Import AdapterPipeline TraceCalls TraceTheorems TraceLifecycle.
Set Default Goal Selector "!".

(** ** The rows of the operations

    Before the join, [reconstruct] writes the rows of every node of the graph:
    its cost when a CPU owns it, a placeholder when it is excluded, and its
    container.  [nodes_written] says which, and in what order the rows of a
    whole dataset can be listed so that each comes after those it waits for. *)

(** ** Reading a row *)

Definition row_node (row : record) : string := match pget row "node_id" with JStr s => s | _ => "" end.
Definition row_needs (row : record) : list string :=
  match pget row "dependencies" with
  | JArr l => omap (fun v => match v with JStr s => Some s | _ => None end) l
  | _ => []
  end.
Definition entry_row (e : Entry) : Prop := row_is (en_row e) (en_id e) (en_deps e).

Lemma entry_row_node e : entry_row e → row_node (en_row e) = en_name e.
Proof. intros [Hn _]. unfold row_node. by rewrite Hn. Qed.
Lemma entry_row_needs e : entry_row e → row_needs (en_row e) = en_deps e.
Proof.
  intros [_ Hd]. unfold row_needs. rewrite Hd. unfold names. clear Hd. induction (en_deps e) as [|d l IH]; [done|]. cbn. f_equal. exact IH.
Qed.

Lemma entries_nodes l : Forall entry_row l → map row_node (map en_row l) = map en_name l.
Proof. induction 1 as [|e l He _ IH]; [done|]. cbn. by rewrite entry_row_node, IH. Qed.

Lemma entries_ordered l : Forall entry_row l → ∀ seen,
  Topology.topological String.eqb en_name en_deps seen l →
  Topology.topological String.eqb row_node row_needs seen (map en_row l).
Proof.
  induction 1 as [|e l He _ IH]; intros seen; cbn; [done|]. rewrite entry_row_node by done. intros [Hu Hl]. split; [|auto].
  unfold unblocked in *. by rewrite entry_row_needs.
Qed.

Lemma entry_names_distinct l : Forall (fun e => proper (en_id e)) l → NoDup (map en_id l) → NoDup (map en_name l).
Proof.
  induction 1 as [|e l He Hl IH]; cbn; [constructor|]. intros [Hn Hd]%NoDup_cons. constructor; [|auto].
  intros (e' & E & Hin)%list_elem_of_fmap. apply Hn. rewrite Forall_forall in Hl.
  apply row_name_inj in E; [|done|by apply Hl]. rewrite E. by apply (list_elem_of_fmap_2 en_id).
Qed.

(** ** The rows of one node *)

Definition class_of (m : Manifest) (key : SemanticKey) : json :=
  match kget key (Manifest.executions m) with Some r => pget r "execution_class" | None => JNull end.

(** The cost of an ordinary node: a duration per interval the index has for it. *)
Definition ordinary_cost (x : CpuIndex) (key : SemanticKey) (row : record) : Prop :=
  pget row "node_id" = JStr (row_name (Ordinary key)) ∧ ∃ vector durations, ordinary key x = Ok vector ∧
    map_res duration_sample vector = Ok durations ∧ pget row "duration" =
      JObj [("worker_intervals", JArr (map JObj durations)); ("aggregation", JStr "PER_WORKER_NOT_NODE_LATENCY")].

Inductive own_rows (m : Manifest) (x : CpuIndex) (key : SemanticKey) : list Entry → Prop :=
  | own_ordinary e : class_of m key = JStr "ORDINARY_CPU" → en_id e = Ordinary key → has_cost (en_row e) = true →
      ordinary_cost x key (en_row e) → own_rows m x key [e]
  | own_excluded e : class_of m key ≠ JStr "ORDINARY_CPU" → en_id e = Excluded key → has_cost (en_row e) = false → own_rows m x key [e]
  | own_none : class_of m key ≠ JStr "ORDINARY_CPU" → own_rows m x key [].

Record node_written (m : Manifest) (x : CpuIndex) (kn : SemanticKey * record) (p : list Entry * Entry) : Prop := {
  nw_sources : ∃ sources, kget kn.1 (Manifest.edges m) = Some sources ∧
    Forall (fun e => en_deps e = map operation_name sources) (p.1 ++ [p.2]);
  nw_rows : Forall entry_row (p.1 ++ [p.2]);
  nw_container : en_id p.2 = Operation kn.1;
  nw_structural : has_cost (en_row p.2) = false;
  nw_own : own_rows m x kn.1 p.1;
}.

Definition pair_entries (p : list Entry * Entry) : list Entry := p.1 ++ [p.2].
Definition row_entry (id : RowId) (deps : list string) (row : record) : Entry :=
  {| en_row := row; en_id := id; en_deps := deps; en_origin := Structural |}.

Section Nodes.
Context `{Host}.
Context (m : Manifest) (x : CpuIndex).
Hypothesis classes : ∀ key r, kget key (Manifest.executions m) = Some r → ∃ class, pget r "execution_class" = JStr class.

Lemma cost_field first identity rest key node : service_identity key node = Ok identity →
  values_of "cost_included" (first ++ rest) = [] →
  has_cost (dataset_row (merge_records first (identity ++ rest))) = false.
Proof.
  intros Hi. rewrite values_of_app. intros Hv. apply app_nil in Hv as [Hf Hr]. unfold has_cost. rewrite row_field_none; [done..| |done].
  by rewrite values_of_app, (service_identity_values _ _ _ _ Hi).
Qed.

Lemma ordinary_row_cost key node identity vector preds row : service_identity key node = Ok identity →
  ordinary key x = Ok vector → ordinary_row key identity vector preds = Ok row →
  has_cost row = true ∧ ordinary_cost x key row.
Proof.
  intros Hi Hx Hrow. pose proof (ordinary_row_is _ _ _ _ _ _ Hi Hrow) as [Hn _]. unfold ordinary_row in Hrow.
  apply bind_Ok in Hrow as (durations & Hd & <-%Ok_eq). assert (Hs : ∀ k, str_in k ["node_id"; "dependencies"; "kind"; "cost_included"; "host_stage_id"; "duration"] = true →
    values_of k identity = []) by (intros k; by eapply service_identity_values). split.
  - unfold has_cost. rewrite (row_field_start _ (JBool true)); rewrite ?values_of_app, ?Hs by done; reflexivity.
  - split; [done|]. exists vector, durations. split; [done|]. split; [done|].
    apply row_field_start; rewrite ?values_of_app, ?Hs by done; reflexivity.
Qed.

Lemma node_rows_written st kn st' : node_rows m x st kn = Ok st' →
  ∃ p, node_written m x kn p ∧ st'.2 = st.2 ++ map en_row (pair_entries p).
Proof.
  destruct st as [counts rows], kn as [key node]. unfold node_rows. intros Hr. apply bind_Ok in Hr as (value & Hv & Hr).
  cbv zeta in Hr. apply bind_Ok in Hr as (identity & Hi & Hr). apply bind_Ok in Hr as (sources & Hs & Hr).
  apply bind_Ok in Hr as (own & Hown & <-%Ok_eq). cbn [snd].
  assert (Hc : class_of m key = JStr (py_str value)).
  { unfold execution_of in Hv. unfold class_of. destruct (kget key (Manifest.executions m)) as [r|] eqn:E; [|done].
    destruct (classes key r E) as [class Hclass]. apply pget_item in Hv. rewrite Hclass in Hv |- *. by subst value. }
  assert (Hsrc : kget key (Manifest.edges m) = Some sources).
  { unfold sources_of in Hs. destruct (kget key (Manifest.edges m)); [|done]. by apply Ok_eq in Hs as ->. }
  set (preds := map operation_name sources) in *. set (class := py_str value) in *.
  assert (Hwritten : ∀ es, own = map en_row es → Forall entry_row es → Forall (fun e => en_deps e = preds) es → own_rows m x key es →
    ∃ p, node_written m x (key, node) p ∧ rows ++ own ++ [container_row key class identity preds] = rows ++ map en_row (pair_entries p)).
  { intros es -> Hes Hd Ho. exists (es, row_entry (Operation key) preds (container_row key class identity preds)).
    split; [|unfold pair_entries; cbn [fst snd]; by rewrite map_app]. constructor; cbn [fst snd].
    - exists sources. split; [done|]. apply Forall_app. split; [done|]. by apply Forall_singleton.
    - apply Forall_app. split; [done|]. apply Forall_singleton. by eapply container_row_is.
    - done.
    - by apply (cost_field _ _ _ _ _ Hi).
    - done. }
  destruct (String.eqb_spec class "ORDINARY_CPU") as [Ec|Hne].
  - apply bind_Ok in Hown as (vector & Hx & Hown). apply bind_Ok in Hown as (row & Hrow & <-%Ok_eq).
    destruct (ordinary_row_cost _ _ _ _ _ _ Hi Hx Hrow) as [Hcost Hord].
    apply (Hwritten [row_entry (Ordinary key) preds row]); [done| | |].
    + apply Forall_singleton. by eapply ordinary_row_is.
    + by apply Forall_singleton.
    + apply own_ordinary; try done. by rewrite Hc, Ec.
  - destruct (String.eqb class "EXCLUDED"); apply Ok_eq in Hown as <-.
    + apply (Hwritten [row_entry (Excluded key) preds (excluded_row key identity preds)]); [done| | |].
      * apply Forall_singleton. by eapply excluded_row_is.
      * by apply Forall_singleton.
      * apply own_excluded; [rewrite Hc; congruence|done|]. unfold has_cost, excluded_row. cbn [en_row row_entry].
        rewrite (row_field_start _ (JBool false)); [done|done| |done].
        by rewrite values_of_app, (service_identity_values _ _ _ _ Hi).
    + apply (Hwritten []); [done..|]. apply own_none. rewrite Hc. congruence.
Qed.

Lemma nodes_written nodes counts rows : fold_res (node_rows m x) ([], []) nodes = Ok (counts, rows) →
  ∃ ps, Forall2 (node_written m x) nodes ps ∧ rows = map en_row (concat (map pair_entries ps)).
Proof.
  intros Hf. change rows with (counts, rows).2. revert Hf.
  apply (fold_res_hist (fun pre st => ∃ ps, Forall2 (node_written m x) pre ps ∧ st.2 = map en_row (concat (map pair_entries ps)))).
  - by exists [].
  - intros pre kn post s1 s2 _ (ps & Hps & E) Hs. destruct (node_rows_written _ _ _ Hs) as (p & Hp & E').
    exists (ps ++ [p]). split; [apply Forall2_app; [done|by constructor]|].
    rewrite E', E, map_app, concat_app, map_app. cbn. by rewrite app_nil_r.
Qed.
End Nodes.

(** ** Chains only grow *)

Lemma linked_grows rows more call stage prior : linked rows call stage prior → linked (rows ++ more) call stage prior.
Proof. intros (row & deps & Hin & H). exists row, deps. split; [|done]. apply elem_of_app. by left. Qed.

Lemma chain_grows rows more call : call_chain rows call → call_chain (rows ++ more) call.
Proof.
  intros [(row & Hin & Hb) H2 H3]. constructor; [|by apply linked_grows..]. exists row. split; [|done]. apply elem_of_app. by left.
Qed.

(** ** The invariant *)

(** What the rows have of an active call. *)
Record chained (rows : list record) (steps : list (Z * string)) (id : Z) (call : Call) : Prop := {
  ch_last : ∃ st, last (stages call) = Some st ∧ zget id steps = Some (row_name (CallStage id st));
  ch_prepare : ∃ row, row ∈ rows ∧ boundary row id "PREPARE";
  ch_invoke : "INVOKE" ∈ stages call → linked rows id "INVOKE" "PREPARE";
  ch_publish : "PUBLISH" ∈ stages call → linked rows id "PUBLISH" "INVOKE";
}.

Record chains_ok (ws : list Work) (j : Join) : Prop := {
  cs_steps : NoDup (call_steps j).*1;
  cs_active : ∀ id call, active (calls (trace j)) !! id = Some call → chained (written j) (call_steps j) id call;
  cs_stripes : ∀ w, w ∈ ws → scope w = "stripe" →
    match active (calls (trace j)) !! call_id w with
    | Some call => call_kind call = "STRIPE"
    | None => call_chain (written j) (call_id w)
    end;
}.

Lemma chained_grows rows more steps id call call' : stages call' = stages call → chained rows steps id call →
  chained (rows ++ more) steps id call'.
Proof.
  intros E [H1 (row & Hin & Hb) H3 H4]. constructor; rewrite ?E; [done| | |].
  - exists row. split; [|done]. apply elem_of_app. by left.
  - intros Hi. by apply linked_grows, H3.
  - intros Hi. by apply linked_grows, H4.
Qed.

(** ** The stage before *)

Lemma index_zero st : st ∈ ORDER → (index_of st ORDER < 1)%nat → st = "PREPARE".
Proof. unfold ORDER at 1. rewrite !elem_of_cons, elem_of_nil. intros Hin. repeat destruct Hin as [-> | Hin]; cbn; try done; lia. Qed.
Lemma index_one st : st ∈ ORDER → (1 <= index_of st ORDER)%nat → (index_of st ORDER < 2)%nat → st = "INVOKE".
Proof. unfold ORDER at 1. rewrite !elem_of_cons, elem_of_nil. intros Hin. repeat destruct Hin as [-> | Hin]; cbn; try done; lia. Qed.

Lemma sorted_le_last {A} (R : A → A → Prop) l x y : StronglySorted R l → x ∈ l → last l = Some y → x = y ∨ R x y.
Proof.
  induction l as [|a l IH]; [done|]. intros [Hs Ha]%StronglySorted_inv Hin Hl. destruct l as [|b l].
  - apply list_elem_of_singleton in Hin as ->. left. cbn in Hl. congruence.
  - change (last (b :: l) = Some y) in Hl. apply elem_of_cons in Hin as [->|Hin]; [|by apply IH].
    right. rewrite Forall_forall in Ha. apply Ha. by apply last_Some_elem_of.
Qed.

(** The stage an active call goes through decides the one before it. *)
Lemma stage_before call st prior : call_ok call → last (stages call) = Some prior →
  (index_of prior ORDER < index_of st ORDER)%nat → (st ∈ ["PREPARE"; "INVOKE"] ∨ "INVOKE" ∈ stages call) →
  (st = "INVOKE" → prior = "PREPARE") ∧ (st = "PUBLISH" → prior = "INVOKE").
Proof.
  intros Hok Hl Hlt Hinv. assert (Hp : prior ∈ ORDER).
  { pose proof (co_known _ Hok) as Hk. rewrite Forall_forall in Hk. by apply Hk, last_Some_elem_of. }
  split; intros ->.
  - by apply index_zero.
  - destruct Hinv as [Hin|Hin]; [by rewrite !elem_of_cons, elem_of_nil in Hin; destruct Hin as [?|[?|?]]|].
    apply index_one; [done| |exact Hlt].
    destruct (sorted_le_last _ _ _ _ (co_order _ Hok) Hin Hl) as [<-|Hr]; [done|]. change (index_of "INVOKE" ORDER) with 1%nat in Hr. lia.
Qed.

(** ** One pass *)

Section Step.
Context `{Host} (lower : string → string) (graph : Manifest) (authority : NpuAuthority).
Context (ws : list Work) (j j' : Join) (r : record).
Hypothesis Hj : chains_ok ws j.
Hypothesis Hwf : calls_wf ws (calls (trace j)).

(** Passes that leave the calls alone. *)
Lemma chains_books more : active (calls (trace j')) = active (calls (trace j)) → call_steps j' = call_steps j →
  written j' = written j ++ more → chains_ok ws j'.
Proof.
  destruct Hj as [H1 H2 H3]. intros Ea Es Ew. constructor; rewrite ?Ea, ?Es, ?Ew; [done| |].
  - intros id call Hc. by eapply chained_grows, H2.
  - intros w Hw Hs. specialize (H3 w Hw Hs). destruct (active (calls (trace j)) !! call_id w); [done|by apply chain_grows].
Qed.

Lemma chains_work m w more : work_record (set_pending (trace j) m) r = Ok (trace j', w) →
  call_steps j' = call_steps j → written j' = written j ++ more → chains_ok (ws ++ [w]) j'.
Proof.
  destruct Hj as [H1 H2 H3]. intros Hw Es Ew. apply work_record_inv in Hw as (_ & _ & _ & _ & _ & Hc & _).
  change (calls (set_pending (trace j) m)) with (calls (trace j)) in Hc.
  apply call_work_attached in Hc as (call & call' & Ha & _ & Hst & Hk & Hscope & Ha' & _). constructor; rewrite ?Es, ?Ew, ?Ha'; [done| |].
  - intros id c [[<- <-]|[_ Hl]]%lookup_insert_Some; (eapply chained_grows; [|by apply H2]); done.
  - intros w' [Hin|Hin%list_elem_of_singleton]%elem_of_app Hs.
    + specialize (H3 w' Hin Hs). destruct (decide (call_id w = call_id w')) as [E|Hne].
      * rewrite E in Ha |- *. rewrite lookup_insert_eq. rewrite Ha in H3. congruence.
      * rewrite lookup_insert_ne by done. destruct (active (calls (trace j)) !! call_id w'); [done|by apply chain_grows].
    + subst w'. rewrite lookup_insert_eq, Hk. auto.
Qed.

Lemma step_linked row st id prior deps works : row_is row (CallStage id st) (sorted_names (deps ++ works)) →
  pget row "kind" = JStr "CALL_BOUNDARY" → row_name (CallStage id prior) ∈ deps →
  linked (written j ++ [row]) id st prior.
Proof.
  intros [Hn Hd] Hk Hin. exists row. eexists. split; [apply elem_of_app; right; by constructor|]. split; [split; [done|]|split; [exact Hd|]].
  - unfold Adapter.is_kind. by rewrite Hk.
  - apply list_elem_of_In, in_map, list_elem_of_In, elem_of_sorted_names, elem_of_app. by left.
Qed.

Lemma chains_call m : call_record (set_pending (trace j) m) r = Ok (trace j') → call_joined graph j j' r → chains_ok ws j'.
Proof.
  destruct Hj as [H1 H2 H3]. intros [_ Hst]%call_record_frame [Hrow _ _].
  change (calls (set_pending (trace j) m)) with (calls (trace j)) in Hst.
  apply stage_staged in Hst as (id & st & before & after & Hsg). destruct (sg_needs _ _ _ _ _ _ _ Hsg) as (works & Hworks & _).
  destruct (Hrow id st works (sg_call _ _ _ _ _ _ _ Hsg) (sg_stage _ _ _ _ _ _ _ Hsg) Hworks)
    as (key & preds & row & published & _ & _ & _ & Hrw & Hkind & _ & _ & Hwr & Hsteps & _). clear Hrow.
  destruct Hsg as [_ _ _ _ _ Hb Hnew Horder Hinv Hstages Hsame _ Ha Hpub].
  (* what the call had before this stage *)
  assert (Hbefore : stages before = [] ∧ st = "PREPARE" ∨ call_ok before ∧ active (calls (trace j)) !! id = Some before ∧
    chained (written j) (call_steps j) id before).
  { destruct Hb as [[Hb _]|(_ & _ & _ & ? & ?)]; [right|by left]. split; [by apply (cw_active _ _ Hwf) in Hb as (_ & _ & ?)|]. auto. }
  assert (Hown : boundary row id st).
  { destruct Hrw as [Hn _]. split; [done|]. unfold Adapter.is_kind. by rewrite Hkind. }
  (* the links of the call once this stage is written *)
  assert (Hlinks : (∃ row', row' ∈ written j' ∧ boundary row' id "PREPARE") ∧
    ("INVOKE" ∈ stages after → linked (written j') id "INVOKE" "PREPARE") ∧
    ("PUBLISH" ∈ stages after → linked (written j') id "PUBLISH" "INVOKE")).
  { rewrite Hwr, Hstages. destruct Hbefore as [[E ->]|(Hok & _ & [(prior & Hl & Hz) (row' & Hin & Hb') HI HP])].
    - rewrite E. split; [exists row; split; [apply elem_of_app; right; by constructor|done]|].
      split; intros Hin%list_elem_of_singleton; discriminate Hin.
    - rewrite Hl in Horder. rewrite Hz in Hrw. destruct (stage_before _ _ _ Hok Hl Horder Hinv) as [Hi Hp].
      assert (Hlink : ∀ q, prior = q → linked (written j ++ [row]) id st q).
      { intros q <-. eapply step_linked; [exact Hrw|done|by constructor]. }
      split; [exists row'; split; [apply elem_of_app; by left|done]|]. split; intros [Hst|Hst%list_elem_of_singleton]%elem_of_app.
      + by apply linked_grows, HI.
      + subst st. by apply Hlink, Hi.
      + by apply linked_grows, HP.
      + subst st. by apply Hlink, Hp. }
  destruct Hlinks as (Lp & Li & Lq).
  assert (Hactive : ∀ i, i ≠ id → active (calls (trace j')) !! i = active (calls (trace j)) !! i).
  { intros i Hne. destruct (String.eqb st "CONTINUATION"); rewrite Ha; [by rewrite lookup_delete_ne|by rewrite lookup_insert_ne]. }
  assert (Hz : ∀ i, i ≠ id → zget i (call_steps j') = zget i (call_steps j)).
  { intros i Hne. rewrite Hsteps. apply Z.eqb_neq in Hne. destruct (String.eqb st "CONTINUATION").
    - rewrite aget_adel; [by rewrite Hne|apply Z.eqb_eq|done].
    - rewrite aget_aset; [by rewrite Hne|apply Z.eqb_eq]. }
  constructor.
  - rewrite Hsteps. destruct (String.eqb st "CONTINUATION"); [apply adel_NoDup|apply aset_NoDup]; try done; apply Z.eqb_eq.
  - intros i c Hc. destruct (decide (i = id)) as [->|Hne].
    + destruct (String.eqb_spec st "CONTINUATION") as [->|Hcont]; rewrite Ha in Hc; [by rewrite lookup_delete_eq in Hc|].
      rewrite lookup_insert_eq in Hc. injection Hc as <-. constructor; [|done..]. exists st. split.
      * rewrite Hstages. apply last_snoc.
      * rewrite Hsteps. rewrite aget_aset by apply Z.eqb_eq. by rewrite Z.eqb_refl.
    + rewrite (Hactive i Hne) in Hc. destruct (H2 i c Hc) as [(p & Hl & Hp) R1 R2 R3].
      assert (Hch : chained (written j ++ [row]) (call_steps j) i c) by (eapply chained_grows; [done|by apply H2]).
      rewrite Hwr. destruct Hch as [_ K1 K2 K3]. constructor; [|done..]. exists p. by rewrite Hz.
  - intros w Hw Hs. specialize (H3 w Hw Hs). destruct (decide (call_id w = id)) as [E|Hne].
    + rewrite E in H3 |- *. destruct (String.eqb_spec st "CONTINUATION") as [->|Hcont]; rewrite Ha.
      * rewrite lookup_delete_eq. destruct Hbefore as [[_ ?]|(_ & Hact & _)]; [done|]. rewrite Hact in H3.
        destruct Hinv as [Hin|Hin]; [by rewrite !elem_of_cons, elem_of_nil in Hin; destruct Hin as [?|[?|?]]|].
        constructor; [done| |].
        -- apply Li. rewrite Hstages. apply elem_of_app. by left.
        -- by apply Lq, Hpub.
      * rewrite lookup_insert_eq, Hsame. destruct Hbefore as [[_ ?]|(_ & Hact & _)]; [|by rewrite Hact in H3].
        destruct Hb as [[Hact _]|(Hnone & -> & _)]; [by rewrite Hact in H3|].
        destruct (cw_works _ _ Hwf w Hw) as [Hm|(c & Hc & _)]; [|congruence].
        apply (cw_done _ _ Hwf) in Hm. lia.
    + rewrite (Hactive _ Hne), Hwr. destruct (active (calls (trace j)) !! call_id w); [done|by apply chain_grows].
Qed.
End Step.

(** ** The whole *)

Section Loop.
Context `{Host} (lower : string → string) (graph : Manifest) (authority : NpuAuthority).

(** The validator and the chains go along. *)
Record chains_inv (st : Z * TraceState * list (record * Work)) (j : Join) : Prop := {
  ci_state : st.1 = (sequence j, trace j);
  ci_calls : calls_wf st.2.*2 (calls (trace j));
  ci_closed : closed_state (trace j);
  ci_chains : chains_ok st.2.*2 j;
}.

Lemma chains_step st j line j' : chains_inv st j → join_step lower graph authority j line = Ok j' →
  ∃ st', trace_step st line = Ok st' ∧ chains_inv st' j'.
Proof.
  intros [I1 I2 I3 I4] (r & o & kind & Hr & Hc & _ & Hcons & Hjoin & Hs)%join_step_inv.
  exists (sequence j', trace j', st.2 ++ match o with Some w => [(r, w)] | None => [] end).
  assert (Hstep := validation_step st j line r _ _ I1 Hr Hc). rewrite <-Hs in Hstep. split; [done|].
  pose proof (calls_wf_consume _ _ _ _ _ I2 Hc) as Hcalls. pose proof (closed_state_consume _ _ _ _ Hc) as Hcl.
  assert (Ews : (st.2 ++ match o with Some w => [(r, w)] | None => [] end).*2 = st.2.*2 ++ option_list o).
  { rewrite fmap_app. by destruct o. }
  constructor; cbn [fst snd]; rewrite ?Ews; try done. clear Hstep Ews Hcl.
  destruct Hjoin as [w [(result & rest & total & row & needs & Hw) Es _ _]|[_ [row Ew] _ _ Es _]|Hb [_ Es _ _ Ew]|Hcall|kind [_ Es _ _ Ew] Hk1 Hk2].
  - inversion Hcons as [m w' Hrec| | | | |]. subst w'. eapply chains_work; [done|exact Hrec|exact Es|]. apply Hw.
  - inversion Hcons as [| | |m Hrec| |]. cbn [option_list]. rewrite app_nil_r. pose proof (host_record_calls _ _ _ Hrec) as (Ea & _).
    change (calls (set_pending (trace j) m)) with (calls (trace j)) in Ea.
    eapply (chains_books _ _ _ I4 [row]); [exact Ea|exact Es|exact Ew].
  - inversion Hcons as [| | |m Hrec| |]. cbn [option_list]. rewrite app_nil_r. pose proof (host_record_calls _ _ _ Hrec) as (Ea & _).
    eapply (chains_books _ _ _ I4 []); [exact Ea|exact Es|by rewrite app_nil_r].
  - inversion Hcons as [| |m Hrec| | |]. cbn [option_list]. rewrite app_nil_r. by eapply chains_call.
  - cbn [option_list]. rewrite app_nil_r. eapply (chains_books _ _ _ I4 []); [|exact Es|by rewrite app_nil_r].
    inversion Hcons as [|m Hrec|m Hrec|m Hrec|m Hrec|m Hrec]; subst kind; try done.
    + by apply phase_record_frame in Hrec as ->.
    + pose proof (complete_operation_frame _ _ _ Hrec) as (_ & _ & _ & _ & _ & id & _ & Hco & _).
      unfold calls_operation_complete in Hco. apply bind_Ok in Hco as ([] & _ & Hco). apply bind_Ok in Hco as ([] & _ & Hco).
      apply bind_Ok in Hco as (remaining & _ & Hco%Ok_eq). by rewrite <-Hco.
    + by apply end_record_frame in Hrec as [-> _].
Qed.
End Loop.

Lemma join_chains `{Host} lower hardware_contract graph authority lines results0 x0 rows report :
  write_admitted lower hardware_contract graph authority lines results0 x0 = Ok (rows, report) →
  ∃ s ws, run_trace lines = Ok (s, ws) ∧ ∀ r w, (r, w) ∈ ws → scope w = "stripe" → call_chain rows (call_id w).
Proof.
  unfold write_admitted. intros Hj. apply bind_Ok in Hj as ([j0 rest] & H0 & Hj).
  apply bind_Ok in Hj as (j & Hloop & Hj). apply bind_Ok in Hj as ([x report'] & Hfin & Hj).
  apply Ok_eq, pair_eq in Hj as [<- _]. destruct (join_finish_Ok _ _ _ _ _ Hfin) as (Hend & _). clear Hfin.
  unfold join_start in H0. destruct lines as [|line lines]; [done|]. apply bind_Ok in H0 as (s & Hs & H0).
  apply bind_Ok in H0 as (config & _ & H0). apply bind_Ok in H0 as ([] & _ & H0). apply bind_Ok in H0 as ([] & _ & H0).
  apply bind_Ok in H0 as (current & _ & H0). apply bind_Ok in H0 as ([] & _ & H0). apply Ok_eq, pair_eq in H0 as [<- <-].
  assert (Hinv : ∃ st, fold_res trace_step (1, s, []) lines = Ok st ∧ chains_inv st j).
  { revert Hloop. apply (fold_res_hist (fun pre j => ∃ st, fold_res trace_step (1, s, []) pre = Ok st ∧ chains_inv st j)).
    - exists (1, s, []). split; [done|]. pose proof Hs as Hrun. unfold start_trace in Hrun.
      apply bind_Ok in Hrun as (r & _ & Hrun). apply bind_Ok in Hrun as (run0 & _ & <-%Ok_eq).
      constructor; cbn [fst snd trace]; [done|apply calls_wf_start|done|]. constructor; cbn; [constructor|done|by intros w ?%elem_of_nil].
    - intros pre l post j1 j2 _ (st & Hf & Hst) Hstep. destruct (chains_step _ _ _ _ _ _ _ Hst Hstep) as (st' & Hst' & Hinv).
      exists st'. split; [|done]. rewrite fold_res_app, Hf. cbn [mbind res_bind fold_res]. by rewrite Hst'. }
  destruct Hinv as (st & Hf & [I1 _ I3 I4]). exists (trace j), st.2. split.
  - unfold run_trace. rewrite Hs. cbn [mbind res_bind]. rewrite Hf. cbn [mbind res_bind].
    destruct st as [st1 ws]. cbn [fst snd] in *. by rewrite I1.
  - intros r w Hin Hscope. apply (list_elem_of_fmap_2 snd) in Hin. pose proof (cs_stripes _ _ I4 w Hin Hscope) as Hw.
    destruct (I3 Hend) as (Hb & _). apply phase_boundary_inv in Hb as (_ & _ & Ha & _). by rewrite Ha, lookup_empty in Hw.
Qed.
