(* ===== verification/ReconstructTheorems.v ===== *)
(** * What a reconstructed dataset promises

    The summary of a reconstruction claims a structural dependency DAG, a
    bijection of the ordinary costs and a bijection of the NPU results; the code
    writes the claims without checking the whole dataset.  They hold: the rows
    have distinct names and can be listed after all they depend on, every cost
    in the dataset is a cost of one of the two logs, counted once, and every
    work of the trace is answered once. *)
From S2P Require Import PipelineContract AdapterPipeline JoinCalls.
From S2P Require Import Prelude Records Topology TraceSchema TraceCalls TraceIntegrity TraceTheorems TraceLifecycle Replay.
From S2P Require Import Manifest ManifestTheorems CpuIndex CpuIndexTheorems NpuJoin Provenance Reconstruct.
From S2P Require Import JoinTrace JoinTheorems JoinCalls.
Set Default Goal Selector "!".

(** ** The graph *)

Lemma manifest_proper m key : wf_manifest m → key ∈ (Manifest.nodes m).*1 → proper_key key.
Proof.
  intros Hm Hin. rewrite <-(rows_keys _ (wm_rows _ Hm)) in Hin. apply list_elem_of_fmap in Hin as (ks & -> & Hin).
  apply list_elem_of_lookup in Hin as [i Hi]. destruct (Forall2_lookup_r _ _ _ _ _ (wm_rows _ Hm) Hi)
    as (kn & _ & g & id & entries & leaves & Hg & Hshape & Hd).
  destruct (de_own _ _ _ _ _ Hd) as (n & _ & E). rewrite (de_key _ _ _ _ _ Hd) in E. rewrite E.
  destruct (wm_graphs _ Hm) as (counts & _ & Hids).
  assert (Hid : Some id ∈ map graph_id (Manifest.graphs m)).
  { apply list_elem_of_In, in_map_iff. exists g. split; [by eapply shape_id|by apply list_elem_of_In]. }
  rewrite Hids in Hid. apply list_elem_of_In, in_map_iff in Hid as (id' & [= ->] & Hid%list_elem_of_In).
  apply elem_of_graph_ids in Hid as (p & _ & E'). unfold proper_key, node_key. cbn [fst]. rewrite E'.
  destruct p; [by left|by right].
Qed.

Lemma manifest_class m key r : wf_manifest m → kget key (Manifest.executions m) = Some r →
  ∃ class, pget r "execution_class" = JStr class.
Proof.
  intros Hm Hk%elem_kget. pose proof (wm_executions _ Hm) as He. rewrite Forall_forall in He.
  destruct (He _ Hk) as [_ (node & class & _ & Hc & _) _]. by exists class.
Qed.

(** The names of the operations. *)
Definition operation_names (m : Manifest) : list string := map operation_name (Manifest.nodes m).*1.

Lemma topological_names l : ∀ seen, Topology.topological key_eq fst snd seen l →
  Topology.topological String.eqb (fun ks : SemanticKey * list SemanticKey => operation_name ks.1)
    (fun ks => map operation_name ks.2) (map operation_name seen) l.
Proof.
  induction l as [|ks l IH]; intros seen; cbn [Topology.topological]; [done|]. intros [Hu Hl]. split.
  - apply unblocked_deps; [apply String.eqb_eq|]. rewrite (unblocked_deps _ _ key_eq_spec) in Hu.
    intros d Hd. apply list_elem_of_In, in_map_iff in Hd as (source & <- & Hs%list_elem_of_In).
    apply list_elem_of_In, in_map. by apply list_elem_of_In, Hu.
  - specialize (IH (seen ++ [ks.1]) Hl). by rewrite map_app in IH.
Qed.

Lemma topological_members l : ∀ seen ks d, Topology.topological key_eq fst snd seen l → ks ∈ l → d ∈ ks.2 →
  d ∈ seen ∨ d ∈ map (fst (A := SemanticKey) (B := list SemanticKey)) l.
Proof.
  induction l as [|a l IH]; intros seen ks d; cbn [Topology.topological map]; [by intros _ ?%elem_of_nil|].
  intros [Hu Hl] Hin Hd. apply elem_of_cons in Hin as [->|Hin].
  - rewrite (unblocked_deps _ _ key_eq_spec) in Hu. left. by apply Hu.
  - destruct (IH _ _ _ Hl Hin Hd) as [Hs|Hs]; [|right; by constructor].
    apply elem_of_app in Hs as [Hs|Hs%list_elem_of_singleton]; [by left|right; subst; by constructor].
Qed.

Lemma manifest_sources m key sources source : wf_manifest m → kget key (Manifest.edges m) = Some sources →
  source ∈ sources → source ∈ (Manifest.nodes m).*1.
Proof.
  intros Hm Hk%elem_kget Hs. rewrite <-(rows_keys _ (wm_rows _ Hm)). destruct (wm_order _ Hm) as (order & Hp & Ht).
  rewrite <-Hp in Hk. destruct (topological_members _ _ _ _ Ht Hk Hs) as [Hin|Hin]; [by apply elem_of_nil in Hin|].
  change (map fst order) with (order.*1) in Hin. by rewrite Hp in Hin.
Qed.

Lemma operations_known m : wf_manifest m → ∀ key preds, predecessors_of m key preds →
  ∀ name, name ∈ preds → name ∈ operation_names m.
Proof.
  intros Hm key preds (sources & Hk & ->) name Hin. apply list_elem_of_In, in_map_iff in Hin as (source & <- & Hs%list_elem_of_In).
  apply list_elem_of_In, in_map, list_elem_of_In. by eapply manifest_sources.
Qed.

(** ** The rows of the operations, ordered *)

Section Ordered.
Context (m : Manifest) (x : CpuIndex) (ps : list (list Entry * Entry)).
Hypothesis Hm : wf_manifest m.
Hypothesis Hps : Forall2 (node_written m x) (Manifest.nodes m) ps.

Lemma containers_edges : Forall2 (fun (e : Entry) ks => en_name e = operation_name ks.1 ∧ en_deps e = map operation_name ks.2)
  (map snd ps) (Manifest.edges m).
Proof.
  assert (Hmap : ∀ (l : list (SemanticKey * record)) (es : list (SemanticKey * list SemanticKey)) (q : list (list Entry * Entry)),
    Forall2 (described_in m) l es → Forall2 (node_written m x) l q → es ⊆ Manifest.edges m →
    Forall2 (fun (e : Entry) ks => en_name e = operation_name ks.1 ∧ en_deps e = map operation_name ks.2) (map snd q) es).
  { clear Hps. intros l es q Hd. revert q. induction Hd as [|kn ks l es (g & id & e & lv & _ & _ & Hde) _ IH]; intros q Hw Hsub;
      apply Forall2_cons_inv_l in Hw || apply Forall2_nil_inv_l in Hw as ->; [constructor|].
    destruct Hw as (p & q' & Hp & Hq & ->). cbn [map]. constructor; [|apply IH; [done|set_solver]].
    destruct Hp as [(sources & Hs & Hdeps) _ Hc _ _]. apply Forall_app in Hdeps as [_ Hdeps]. rewrite Forall_singleton in Hdeps.
    unfold en_name. rewrite Hc, Hdeps. cbn [row_name]. pose proof (de_key _ _ _ _ _ Hde) as E. rewrite E in Hs |- *.
    split; [done|]. assert (Hin : (ks.1, ks.2) ∈ Manifest.edges m) by (apply Hsub; destruct ks; by constructor).
    assert (Hnd : NoDup (Manifest.edges m).*1) by (rewrite (rows_keys _ (wm_rows _ Hm)); apply Hm).
    apply (kget_elem _ _ _ Hnd) in Hin. congruence. }
  by apply (Hmap (Manifest.nodes m)); [apply Hm| |].
Qed.

Lemma containers_names : map en_name (map snd ps) = operation_names m.
Proof.
  unfold operation_names. rewrite <-(rows_keys _ (wm_rows _ Hm)). pose proof containers_edges as Hc.
  induction Hc as [|e ks l es [He _] _ IH]; [done|]. cbn. by rewrite He, IH.
Qed.

Lemma own_entries : Forall (fun e => (∀ d, d ∈ en_deps e → d ∈ operation_names m) ∧
  ∃ key, key ∈ (Manifest.nodes m).*1 ∧ (en_id e = Ordinary key ∨ en_id e = Excluded key)) (concat (map fst ps)).
Proof.
  apply Forall_concat, Forall_forall. intros own Hin. apply list_elem_of_In, in_map_iff in Hin as (p & <- & Hin%list_elem_of_In).
  apply list_elem_of_lookup in Hin as [i Hi]. destruct (Forall2_lookup_r _ _ _ _ _ Hps Hi) as (kn & Hkn & Hp).
  destruct Hp as [(sources & Hs & Hd) _ _ _ Ho]. apply Forall_app in Hd as [Hd _]. rewrite Forall_forall in Hd.
  assert (Hk : kn.1 ∈ (Manifest.nodes m).*1) by by eapply list_elem_of_fmap_2, list_elem_of_lookup_2.
  apply Forall_forall. intros e He. split.
  - intros d Hdep. rewrite (Hd e He) in Hdep. apply (operations_known m Hm kn.1 (map operation_name sources)); [|done]. by exists sources.
  - exists kn.1. split; [done|]. destruct Ho as [e' _ E|e' _ E|]; [| |by apply elem_of_nil in He].
    all: apply list_elem_of_singleton in He as ->; auto.
Qed.
End Ordered.

(** ** A reconstructed dataset *)

Record dataset `{Host} (lower : string → string) (inputs : Inputs) (rows : list record) (m : Manifest) (x : CpuIndex)
    (authority : NpuAuthority) (ps : list (list Entry * Entry)) (s : TraceState) (ws : list (record * Work)) (l : list Entry) : Prop := {
  ds_graph : read_manifest (graph (potal inputs)) = Ok m;
  ds_wf : wf_manifest m;
  ds_index : ∃ full_graph loaded, read_manifest (graph (full_cpu inputs)) = Ok full_graph ∧
    load lower (log_name (full_cpu inputs)) m full_graph (log (full_cpu inputs)) empty_index = Ok loaded ∧
    load lower (log_name (potal inputs)) m m (log (potal inputs)) loaded = Ok x;
  ds_index_ok : index_ok (samples x) (intervals x);
  ds_nodes : Forall2 (node_written m x) (Manifest.nodes m) ps;
  ds_rows : rows = map en_row (concat (map pair_entries ps) ++ l);
  ds_admitted : ∃ hardware_contract report,
    write_admitted lower hardware_contract m authority (npu_trace inputs) (npu_results inputs) x = Ok (map en_row l, report);
  ds_join : joined_trace authority (operation_names m) (npu_trace inputs) (npu_results inputs) x (map en_row l) s ws l;
}.

Lemma reconstruct_dataset `{Host} lower hardware_contract admitted encoding inputs rows summary :
  reconstruct lower hardware_contract admitted encoding inputs = Ok (rows, summary) →
  ∃ m x authority ps s ws l, admitted = Ok authority ∧ dataset lower inputs rows m x authority ps s ws l.
Proof.
  unfold reconstruct. intros Hr. apply bind_Ok in Hr as (full_graph & Hfull & Hr). apply bind_Ok in Hr as (m & Hpot & Hr).
  apply bind_Ok in Hr as ([] & _ & Hr). apply bind_Ok in Hr as ([pf pp] & _ & Hr). apply bind_Ok in Hr as (loaded & H1 & Hr).
  apply bind_Ok in Hr as (x & H2 & Hr). apply bind_Ok in Hr as ([counts rows0] & Hn & Hr).
  apply bind_Ok in Hr as (authority & Ha & Hr). apply bind_Ok in Hr as ([joined npu] & Hj & Hr).
  apply bind_Ok in Hr as (summ & _ & Hr). apply Ok_eq, pair_eq in Hr as [<- _].
  pose proof (read_manifest_wf _ _ Hpot) as Hm. pose proof (load_ok _ _ _ _ _ _ _ (load_ok _ _ _ _ _ _ _ empty_index_ok H1) H2) as Hx.
  destruct (nodes_written m x (fun key r => manifest_class m key r Hm) _ _ _ Hn) as (ps & Hps & ->).
  destruct (write_admitted_joined _ _ _ _ _ _ _ _ _ _ (operations_known m Hm) (index_rows _ _ Hx) Hj) as (s & ws & l & Hjoin).
  pose proof (jt_rows _ _ _ _ _ _ _ _ _ Hjoin) as ->.
  exists m, x, authority, ps, s, ws, l. split; [done|]. constructor; try done.
  - by exists full_graph, loaded.
  - by rewrite map_app.
  - by exists hardware_contract, npu.
Qed.

Section Dataset.
Context `{Host} (lower : string → string) (inputs : Inputs) (rows : list record) (m : Manifest) (x : CpuIndex).
Context (authority : NpuAuthority) (ps : list (list Entry * Entry)) (s : TraceState) (ws : list (record * Work)) (l : list Entry).
Hypothesis Hds : dataset lower inputs rows m x authority ps s ws l.

Lemma pairs_split (qs : list (list Entry * Entry)) : concat (map pair_entries qs) ≡ₚ map snd qs ++ concat (map fst qs).
Proof.
  induction qs as [|[own c] qs IH]; [done|]. cbn. rewrite IH. unfold pair_entries. cbn [fst snd]. solve_Permutation.
Qed.

Lemma dataset_entries : Forall entry_row (concat (map pair_entries ps) ++ l).
Proof.
  apply Forall_app. split.
  - apply Forall_concat, Forall_forall. intros es Hin. apply list_elem_of_In, in_map_iff in Hin as (p & <- & Hin%list_elem_of_In).
    apply list_elem_of_lookup in Hin as [i Hi]. destruct (Forall2_lookup_r _ _ _ _ _ (ds_nodes _ _ _ _ _ _ _ _ _ _ Hds) Hi) as (kn & _ & Hp).
    apply Hp.
  - pose proof (jt_entries _ _ _ _ _ _ _ _ _ (ds_join _ _ _ _ _ _ _ _ _ _ Hds)) as He.
    eapply Forall_impl; [exact He|]. intros e [Hrow _]. exact Hrow.
Qed.

Lemma dataset_order : ∃ order, order ≡ₚ concat (map pair_entries ps) ++ l ∧
  Topology.topological String.eqb en_name en_deps [] order.
Proof.
  pose proof (ds_wf _ _ _ _ _ _ _ _ _ _ Hds) as Hm. pose proof (ds_nodes _ _ _ _ _ _ _ _ _ _ Hds) as Hps.
  destruct (wm_order _ Hm) as (edges & Hperm & Ht).
  assert (Hc := containers_edges m x ps Hm Hps). apply Forall2_flip in Hc. symmetry in Hperm.
  destruct (Permutation_Forall2 Hperm Hc) as (cs & Hcs & Hcs').
  exists (cs ++ concat (map fst ps) ++ l). split; [by rewrite <-Hcs, (assoc_L (++)), pairs_split|].
  assert (Hnames : ∀ d, d ∈ operation_names m → d ∈ map en_name cs).
  { intros d. rewrite <-(containers_names m x ps Hm Hps). change (map en_name (map snd ps)) with (en_name <$> map snd ps).
    change (map en_name cs) with (en_name <$> cs). by rewrite Hcs. }
  apply topological_app. split; [|apply topological_app; split].
  - apply topological_names in Ht. cbn [map] in Ht. revert Ht. generalize (@nil string). clear -Hcs'.
    induction Hcs' as [|ks e edges cs [He Hd] _ IH]; intros seen; cbn; [done|]. intros [Hu Hl]. rewrite He. split; [|auto].
    unfold unblocked in *. by rewrite Hd.
  - apply topological_ready; [apply String.eqb_eq|]. pose proof (own_entries m x ps Hm Hps) as Ho.
    eapply Forall_impl; [exact Ho|]. intros e [Hd _]. apply unblocked_deps; [apply String.eqb_eq|]. cbn [app]. auto.
  - eapply topological_mono; [apply String.eqb_eq| |apply (jt_order _ _ _ _ _ _ _ _ _ (ds_join _ _ _ _ _ _ _ _ _ _ Hds))].
    intros d Hd. apply elem_of_app. left. cbn [app]. by apply Hnames.
Qed.

Lemma nodes_distinct : Forall2 (node_written m x) (Manifest.nodes m) ps → NoDup (Manifest.nodes m).*1 →
  NoDup (map en_id (concat (map pair_entries ps))) ∧ ∀ id, id ∈ map en_id (concat (map pair_entries ps)) →
    ∃ key, key ∈ (Manifest.nodes m).*1 ∧ (id = Operation key ∨ id = Ordinary key ∨ id = Excluded key).
Proof.
  clear Hds. induction 1 as [|kn p nodes ps' Hp _ IH]; cbn.
  - intros _. split; [constructor|by intros id ?%elem_of_nil].
  - intros [Hn Hd]%NoDup_cons. destruct (IH Hd) as [IH1 IH2]. rewrite map_app.
    assert (Hown : ∀ id, id ∈ map en_id (pair_entries p) → id = Operation kn.1 ∨ id = Ordinary kn.1 ∨ id = Excluded kn.1).
    { intros id. unfold pair_entries. rewrite map_app, elem_of_app. intros [Hin|Hin].
      - destruct (nw_own _ _ _ _ Hp) as [e _ E|e _ E|]; cbn in Hin; [..|by apply elem_of_nil in Hin].
        all: apply list_elem_of_singleton in Hin as ->; rewrite E; auto.
      - apply list_elem_of_singleton in Hin as ->. left. apply (nw_container _ _ _ _ Hp). }
    split.
    + apply NoDup_app. split_and!; [| |done].
      * unfold pair_entries. rewrite map_app. cbn. pose proof (nw_container _ _ _ _ Hp) as Ec. rewrite Ec.
        destruct (nw_own _ _ _ _ Hp) as [e _ E|e _ E|]; cbn; rewrite ?E;
          repeat (apply NoDup_cons; split; [rewrite ?list_elem_of_singleton; try done; by apply not_elem_of_nil|]); constructor.
      * intros id H1 H2. apply Hn. destruct (IH2 id H2) as (key & Hk & Hor). assert (key = kn.1) as ->; [|done].
        apply Hown in H1. destruct H1 as [-> | [-> | ->]], Hor as [E|[E|E]]; congruence.
    + intros id Hin. apply elem_of_app in Hin as [Hin|Hin].
      * exists kn.1. split; [by constructor|by apply Hown].
      * destruct (IH2 id Hin) as (key & Hk & Hor). exists key. split; [by constructor|done].
Qed.

Lemma dataset_distinct : NoDup (map en_name (concat (map pair_entries ps) ++ l)).
Proof.
  pose proof (ds_wf _ _ _ _ _ _ _ _ _ _ Hds) as Hm. pose proof (ds_join _ _ _ _ _ _ _ _ _ _ Hds) as Hj.
  destruct (nodes_distinct (ds_nodes _ _ _ _ _ _ _ _ _ _ Hds) (wm_distinct _ Hm)) as [Hd Hkeys].
  pose proof (jt_kind _ _ _ _ _ _ _ _ _ Hj) as Hkind. apply entry_names_distinct.
  - apply Forall_forall. intros e He. apply (list_elem_of_fmap_2 en_id) in He. change (en_id <$> ?k) with (map en_id k) in He.
    rewrite map_app, elem_of_app in He. destruct He as [He|He].
    + destruct (Hkeys _ He) as (key & Hk & Hid). pose proof (manifest_proper m key Hm Hk) as Hproper. destruct Hid as [-> | [-> | ->]]; exact Hproper.
    + specialize (Hkind _ He). by destruct (en_id e).
  - rewrite map_app. apply NoDup_app. split_and!; [done| |apply Hj]. intros id H1 H2. specialize (Hkind _ H2).
    destruct (Hkeys _ H1) as (key & _ & [-> | [-> | ->]]); done.
Qed.

(** ** Costs *)

Definition ordinary_keys : list SemanticKey := List.filter (fun key => eq_str (class_of m key) "ORDINARY_CPU") (Manifest.nodes m).*1.

Lemma node_costs nodes qs : Forall2 (node_written m x) nodes qs →
  Forall2 (ordinary_cost x) (List.filter (fun key => eq_str (class_of m key) "ORDINARY_CPU") nodes.*1)
    (List.filter has_cost (map en_row (concat (map pair_entries qs)))).
Proof.
  clear Hds. induction 1 as [|kn p nodes qs Hp _ IH]; [constructor|]. cbn [fmap list_fmap map concat List.filter].
  rewrite map_app, List.filter_app. destruct Hp as [_ _ _ Hs Ho]. unfold pair_entries. rewrite map_app, List.filter_app.
  cbn [map List.filter]. rewrite Hs, app_nil_r. destruct Ho as [e Hc _ Hcost Hord|e Hc _ Hcost|Hc]; cbn [map List.filter].
  - rewrite Hc, Hcost. cbn. by constructor.
  - rewrite Hcost. destruct (eq_str (class_of m kn.1) "ORDINARY_CPU") eqn:E; [by apply eq_str_spec in E|done].
  - destruct (eq_str (class_of m kn.1) "ORDINARY_CPU") eqn:E; [by apply eq_str_spec in E|done].
Qed.

(** A row that carries the duration of a measurement. *)
Definition host_cost (sm : Sample) (row : record) : Prop :=
  ∃ id d, pget row "node_id" = JStr (row_name (HostStage id)) ∧ sm_host sm = Some id ∧ valid_measurement (sm_body sm) = Ok tt ∧
    duration_sample (sm_body sm) = Ok d ∧ pget row "duration" = JObj d.

Lemma join_costs : Forall2 host_cost (omap measuring l) (List.filter has_cost (map en_row l)).
Proof.
  pose proof (jt_entries _ _ _ _ _ _ _ _ _ (ds_join _ _ _ _ _ _ _ _ _ _ Hds)) as He.
  clear Hds. induction He as [|e k [[Hn _] Ho] _ IH]; [constructor|]. cbn. unfold measuring at 1. destruct (en_origin e) as [r w result|sm|].
  - destruct Ho as (_ & _ & Hc & _). by rewrite Hc.
  - destruct Ho as (Hc & Hv & id & d & E & Hh & Hd & Hr). rewrite Hc. constructor; [|done]. exists id, d. by rewrite Hn, E.
  - destruct Ho as [Hc _]. by rewrite Hc.
Qed.
End Dataset.

(** The cycles of a result are those between its endpoints. *)
Lemma modeled_cycles_ok result total : modeled_cycles result = Ok total → ∃ modeled start finish,
  pget result "modeled" = JObj modeled ∧ start < finish ∧ pget modeled "start_cycle" = JInt start ∧
  pget modeled "done_cycle" = JInt finish ∧ pget modeled "total_cycles" = JInt (finish - start) ∧ total = JInt (finish - start).
Proof.
  unfold modeled_cycles. intros H. apply bind_Ok in H as (value & Hv%pget_item & H). apply bind_Ok in H as (modeled & Hm & H).
  apply bind_Ok in H as ([] & _ & H). apply bind_Ok in H as ([] & _ & H). apply bind_Ok in H as (t & Ht%pget_item & H).
  apply bind_Ok in H as ([] & Hr%require_m_Ok & <-%Ok_eq). apply and_then_Ok_true in Hr as [_ Hr]. apply and_then_Ok_true in Hr as [Hpos Hend].
  apply bind_Ok in Hpos as (cycles & [Hc _]%integer_Ok & Hpos%Ok_eq%Z.ltb_lt). apply bind_Ok in Hend as (finish & [Hf _]%integer_Ok & Hend).
  apply bind_Ok in Hend as (start & [Hs _]%integer_Ok & Hend%Ok_eq). assert (t = JInt cycles) as -> by congruence.
  assert (cycles = finish - start) as -> by (symmetry; by apply Z.eqb_eq). exists modeled, start, finish.
  assert (value = JObj modeled) as -> by (destruct value; try done; by apply Ok_eq in Hm as ->). split_and!; try done. lia.
Qed.

(** ** The properties *)

(** C16: A reconstructed dataset is a dependency DAG: every row has a name and a
    list of the names it waits for, the names are distinct, and the rows can be
    listed so that each comes after all it waits for (so no row waits for
    itself, in circles, or for something that is not in the dataset). *)
Theorem reconstruct_dag `{Host} lower hardware_contract admitted encoding inputs rows summary :
  reconstruct lower hardware_contract admitted encoding inputs = Ok (rows, summary) →
  Forall (fun row => ∃ name needs, pget row "node_id" = JStr name ∧ pget row "dependencies" = names needs) rows ∧
  NoDup (map row_node rows) ∧
  ∃ order, order ≡ₚ rows ∧ Topology.topological String.eqb row_node row_needs [] order.
Proof.
  intros Hr. destruct (reconstruct_dataset _ _ _ _ _ _ _ Hr) as (m & x & authority & ps & s & ws & l & _ & Hds).
  pose proof (dataset_entries _ _ _ _ _ _ _ _ _ _ Hds) as He. rewrite (ds_rows _ _ _ _ _ _ _ _ _ _ Hds). split; [|split].
  - apply Forall_fmap. eapply Forall_impl; [exact He|]. intros e [Hn Hd]. by exists (row_name (en_id e)), (en_deps e).
  - rewrite entries_nodes by done. exact (dataset_distinct _ _ _ _ _ _ _ _ _ _ Hds).
  - destruct (dataset_order _ _ _ _ _ _ _ _ _ _ Hds) as (order & Hp & Ht). exists (map en_row order). split.
    + change (map en_row ?k) with (en_row <$> k). by rewrite Hp.
    + apply entries_ordered; [|done]. by rewrite Hp.
Qed.

(** C17: The costs of a reconstructed dataset are the costs of its logs, each
    counted once: the rows with a cost are one per ordinary node, with every
    worker interval the FullCPU log has for it, and one per measurement of a
    host stage in the PoTal log, with its duration.  Every host measurement is
    used, and those of one execution never overlap on a thread. *)
Theorem reconstruct_costs `{Host} lower hardware_contract admitted encoding inputs rows summary :
  reconstruct lower hardware_contract admitted encoding inputs = Ok (rows, summary) →
  ∃ m full_graph loaded x measured ordinary_rows host_rows,
    read_manifest (graph (potal inputs)) = Ok m ∧ read_manifest (graph (full_cpu inputs)) = Ok full_graph ∧
    load lower (log_name (full_cpu inputs)) m full_graph (log (full_cpu inputs)) empty_index = Ok loaded ∧
    load lower (log_name (potal inputs)) m m (log (potal inputs)) loaded = Ok x ∧
    List.filter has_cost rows = ordinary_rows ++ host_rows ∧
    Forall2 (ordinary_cost x) (ordinary_keys m) ordinary_rows ∧
    measured ≡ₚ List.filter hosted (samples x) ∧ Forall2 host_cost measured host_rows ∧
    Forall2 measured_in (List.filter hosted (samples x)) (intervals x) ∧ additive (intervals x).
Proof.
  intros Hr. destruct (reconstruct_dataset _ _ _ _ _ _ _ Hr) as (m & x & authority & ps & s & ws & l & _ & Hds).
  destruct (ds_index _ _ _ _ _ _ _ _ _ _ Hds) as (full_graph & loaded & Hf & Hl & Hx).
  eexists m, full_graph, loaded, x, (omap measuring l), _, _. split; [apply Hds|]. split; [done|]. split; [done|]. split; [done|].
  split; [rewrite (ds_rows _ _ _ _ _ _ _ _ _ _ Hds), map_app; apply List.filter_app|].
  split; [apply node_costs, Hds|]. split; [apply (jt_measured _ _ _ _ _ _ _ _ _ (ds_join _ _ _ _ _ _ _ _ _ _ Hds))|].
  split; [by eapply join_costs|]. split; [apply (ix_intervals _ _ (ds_index_ok _ _ _ _ _ _ _ _ _ _ Hds))|].
  apply (jt_additive _ _ _ _ _ _ _ _ _ (ds_join _ _ _ _ _ _ _ _ _ _ Hds)).
Qed.

(** C18: The NPU part of a reconstructed dataset answers the trace: the trace is
    one the validator accepts to its end, the results are as many as its works,
    and the result of every work, in order, names the work, repeats the record
    that declared it and carries valid cycles; the row of the work has exactly
    these cycles and waits for the invocation of the call that made the work. *)
Theorem reconstruct_works `{Host} lower hardware_contract authority encoding inputs rows summary :
  reconstruct lower hardware_contract (Ok authority) encoding inputs = Ok (rows, summary) →
  ∃ s ws, run_trace (npu_trace inputs) = Ok (s, ws) ∧ TraceIntegrity.ended s = true ∧
    Forall2 (fun rw result => result_identity authority rw.1 result rw.2 = Ok tt ∧
      result_scope authority (run_profile (TraceIntegrity.run s)) result = Ok tt ∧
      ∃ modeled start finish row, pget result "modeled" = JObj modeled ∧ start < finish ∧
        pget modeled "start_cycle" = JInt start ∧ pget modeled "done_cycle" = JInt finish ∧
        pget modeled "total_cycles" = JInt (finish - start) ∧
        row ∈ rows ∧ row_node row = row_name (NpuWork (identity rw.2)) ∧
        row_name (CallStage (call_id rw.2) "INVOKE") ∈ row_needs row ∧
        pget row "duration" = JObj [("source", JStr "NPU_MODEL"); ("unit", JStr "cycles"); ("cycles", JInt (finish - start))])
      ws (npu_results inputs).
Proof.
  intros Hr. destruct (reconstruct_dataset _ _ _ _ _ _ _ Hr) as (m & x & a & ps & s & ws & l & Ha & Hds).
  apply Ok_eq in Ha as <-. pose proof (ds_join _ _ _ _ _ _ _ _ _ _ Hds) as Hj. exists s, ws.
  split; [apply Hj|]. split; [apply Hj|]. rewrite <-(jt_works _ _ _ _ _ _ _ _ _ Hj), <-(jt_results _ _ _ _ _ _ _ _ _ Hj).
  rewrite (ds_rows _ _ _ _ _ _ _ _ _ _ Hds). pose proof (jt_entries _ _ _ _ _ _ _ _ _ Hj) as He.
  assert (Hsub : ∀ e, e ∈ l → en_row e ∈ map en_row (concat (map pair_entries ps) ++ l)).
  { intros e Hin. apply (list_elem_of_fmap_2 en_row), elem_of_app. by right. }
  revert Hsub. generalize (map en_row (concat (map pair_entries ps) ++ l)). clear -He. intros all.
  induction He as [|e l [Hrow Ho] _ IH]; [constructor|]. intros Hsub. cbn. unfold answered_work at 1, answering at 1.
  assert (Hl : ∀ e', e' ∈ l → en_row e' ∈ all) by (intros e' Hin; apply Hsub; by constructor).
  destruct (en_origin e) as [r w result|sm|]; [|by apply IH..]. constructor; [|by apply IH].
  destruct Ho as (Hid & Hinv & _ & H1 & H2 & total & Ht & Hd). cbn [fst snd]. split; [done|]. split; [done|].
  destruct (modeled_cycles_ok _ _ Ht) as (modeled & start & finish & Hm & Hlt & Hs & Hf & Htot & ->).
  exists modeled, start, finish, (en_row e). do 5 (split; [done|]). split; [apply Hsub; by constructor|]. rewrite (entry_row_node e Hrow), (entry_row_needs e Hrow). unfold en_name. by rewrite Hid.
Qed.

(** The sorted texts [json.dumps] writes for the record of a work and for the
    fields of the same names of a result agree only when the fields are the same
    up to the order of the keys of their objects. *)
Definition repeats (r result : record) : res record :=
  map_res (fun kv => let* v := item result kv.1 in Ok (kv.1, v)) (repeated r).
Definition dumps_faithful `{Host} (lines : list (option json)) (results : list record) : Prop :=
  ∀ s ws r w result copied, run_trace lines = Ok (s, ws) → (r, w) ∈ ws → result ∈ results → repeats r result = Ok copied →
    json_dumps (JObj copied) = json_dumps (JObj (repeated r)) → same_json (JObj copied) (JObj (repeated r)) = true.

(** So a field of the work is a field of the result, with the same value. *)
Lemma repeats_field r result copied k v : repeats r result = Ok copied →
  same_json (JObj copied) (JObj (repeated r)) = true → sget k r = Some v →
  str_in k ["schema"; "kind"; "sequence"] = false → ∃ v', sget k result = Some v' ∧ same_json v' v = true.
Proof.
  unfold repeats. intros Hc (_ & _ & Hm)%same_json_items Hk Hs. assert (Hv : sget k (repeated r) = Some v).
  { unfold repeated. by rewrite (sget_filter (fun k => negb (str_in k _))), Hs. }
  destruct (Hm _ _ Hv) as (v' & Hv' & Hsame). exists v'. split; [|done].
  apply map_res_Ok in Hc. apply (aget_In String.eqb String.eqb_eq) in Hv'. apply list_elem_of_lookup in Hv' as [i Hi].
  destruct (Forall2_lookup_r _ _ _ _ _ Hc Hi) as (kv & _ & Hv'). apply bind_Ok in Hv' as (v0 & Hv0 & E).
  assert (kv.1 = k ∧ v0 = v') as [Ek ->] by (split; congruence). rewrite Ek in Hv0.
  unfold item in Hv0. destruct (sget k result); [|done]. by apply Ok_eq in Hv0 as ->.
Qed.

Lemma result_identity_repeats `{Host} authority r result w : result_identity authority r result w = Ok tt →
  ∃ copied, repeats r result = Ok copied ∧ json_dumps (JObj copied) = json_dumps (JObj (repeated r)).
Proof.
  unfold result_identity. intros Hi. apply bind_Ok in Hi as ([] & _ & Hi). apply bind_Ok in Hi as (schema & _ & Hi).
  apply bind_Ok in Hi as ([] & _ & Hi). apply bind_Ok in Hi as ([] & _ & Hi). apply bind_Ok in Hi as (view & _ & Hi).
  apply bind_Ok in Hi as ([] & _ & Hi). apply bind_Ok in Hi as (hash & _ & Hi). apply bind_Ok in Hi as (scp & _ & Hi).
  apply bind_Ok in Hi as ([] & _ & Hi). cbv zeta in Hi. apply bind_Ok in Hi as (copied & Hc & Hi%check_Ok_any%String.eqb_eq).
  by exists copied.
Qed.

(** The scope and the call of a work are those of its record. *)
Lemma run_trace_fields `{Host} lines s ws r w : run_trace lines = Ok (s, ws) → (r, w) ∈ ws →
  sget "scope" r = Some (JStr (scope w)) ∧ sget "call_id" r = Some (JInt (call_id w)).
Proof.
  unfold run_trace. destruct lines as [|line lines]; [done|]. intros Hrun. apply bind_Ok in Hrun as (s0 & _ & Hrun).
  apply bind_Ok in Hrun as (final & Hf & Hrun). apply Ok_eq, pair_eq in Hrun as [_ <-]. revert Hf r w.
  apply (fold_res_inv (fun st => ∀ r w, (r, w) ∈ st.2 → sget "scope" r = Some (JStr (scope w)) ∧ sget "call_id" r = Some (JInt (call_id w)))).
  - by intros r w ?%elem_of_nil.
  - intros l [[n s1] ws1] [[n' s2] ws2] _ IH Hs. cbn [snd] in *. unfold trace_step in Hs. apply bind_Ok in Hs as (r0 & _ & Hs).
    apply bind_Ok in Hs as ([s3 o] & Hc & Hs). apply Ok_eq in Hs. assert (ws2 = ws1 ++ match o with Some w => [(r0, w)] | None => [] end) as ->.
    { cbn [fst snd] in Hs. congruence. }
    intros r w [Hin|Hin]%elem_of_app; [by apply IH|]. destruct o as [w0|]; [|by apply elem_of_nil in Hin].
    apply list_elem_of_singleton in Hin. assert (r = r0 ∧ w = w0) as [-> ->] by (split; congruence).
    destruct (consume_consumed _ _ _ _ Hc) as (kind & _ & Hcons). inversion Hcons as [m w' Hrec| | | | |]; subst w'.
    apply work_record_fields in Hrec as (_ & Hcall & Hscope & _). apply integer_Ok in Hcall as [Hcall _]. apply text_Ok in Hscope as [Hscope _].
    unfold pget in *. destruct (sget "scope" r0), (sget "call_id" r0); cbn in *; try done. by subst.
Qed.

(** C19: The calls of the stripes are complete in a reconstructed dataset: for
    every result of a stripe the dataset has the boundary [PREPARE] of its call,
    an [INVOKE] that waits for it and a [PUBLISH] that waits for the [INVOKE].
    This is what the pipeline of the execution adapter takes for granted.
    Supposed is [dumps_faithful]: a result whose copied fields have the sorted
    JSON text of the fields of its work has those fields, up to the order of the
    keys of objects at every depth, so that a run object rewritten with sorted
    keys is covered. *)
Theorem reconstruct_chains `{Host} lower hardware_contract authority encoding inputs rows summary :
  reconstruct lower hardware_contract (Ok authority) encoding inputs = Ok (rows, summary) →
  dumps_faithful (npu_trace inputs) (npu_results inputs) →
  ∀ result call, result ∈ npu_results inputs → is_stripe result = true → pget result "call_id" = JInt call →
    call_chain rows call.
Proof.
  intros Hr Hdumps result call Hin Hstripe Hcall.
  destruct (reconstruct_dataset _ _ _ _ _ _ _ Hr) as (m & x & a & ps & s & ws & l & Ha & Hds). apply Ok_eq in Ha as <-.
  pose proof (ds_join _ _ _ _ _ _ _ _ _ _ Hds) as Hj. destruct (ds_admitted _ _ _ _ _ _ _ _ _ _ Hds) as (hc & report & Hadm).
  apply join_chains in Hadm as (s' & ws' & Hrun & Hchain).
  pose proof (jt_trace _ _ _ _ _ _ _ _ _ Hj) as Hrun'. rewrite Hrun' in Hrun. apply Ok_eq, pair_eq in Hrun as [<- <-].
  assert (Hresult := Hin). rewrite <-(jt_results _ _ _ _ _ _ _ _ _ Hj) in Hin. apply list_elem_of_omap in Hin as (e & He & Ho).
  pose proof (jt_entries _ _ _ _ _ _ _ _ _ Hj) as Hall. rewrite Forall_forall in Hall. destruct (Hall e He) as [_ Horigin].
  unfold answering in Ho. destruct (en_origin e) as [r w result'|sm|] eqn:Eo; try done. injection Ho as ->.
  assert (Hw : (r, w) ∈ ws).
  { rewrite <-(jt_works _ _ _ _ _ _ _ _ _ Hj). apply list_elem_of_omap. exists e. split; [done|]. unfold answered_work. by rewrite Eo. }
  destruct Horigin as (_ & _ & _ & Hid & _). destruct (result_identity_repeats _ _ _ _ Hid) as (copied & Hc & Hd).
  pose proof (Hdumps _ _ _ _ _ _ Hrun' Hw Hresult Hc Hd) as Hsame.
  destruct (run_trace_fields _ _ _ _ _ Hrun' Hw) as [Hs Hcid].
  destruct (repeats_field _ _ _ _ _ Hc Hsame Hs eq_refl) as (vs & Hs' & ->%same_json_str).
  destruct (repeats_field _ _ _ _ _ Hc Hsame Hcid eq_refl) as (vc & Hc' & ->%same_json_int).
  unfold pget in Hcall. rewrite Hc' in Hcall. cbn in Hcall. assert (call_id w = call) as <- by congruence.
  assert (Hscope : scope w = "stripe").
  { unfold is_stripe, pget in Hstripe. rewrite Hs' in Hstripe. by apply eq_str_spec in Hstripe as [= ->]. }
  pose proof (Hchain r w Hw Hscope) as Hfinal. rewrite (ds_rows _ _ _ _ _ _ _ _ _ _ Hds), map_app.
  destruct Hfinal as [(row & Hrow & Hb) (r2 & d2 & Hr2 & H2) (r3 & d3 & Hr3 & H3)]. constructor.
  - exists row. split; [apply elem_of_app; by right|done].
  - exists r2, d2. split; [apply elem_of_app; by right|done].
  - exists r3, d3. split; [apply elem_of_app; by right|done].
Qed.
