(* ===== verification/ReconstructSample.v ===== *)
(** * A reconstruction

    The trace of [TraceSample] with the logs, graphs and provenances of its two
    collections and the results of its two works: four nodes per phase, of which
    the NPU ran the last of the prefill in two stripes.  The theorems on
    reconstructed datasets are applied to it. *)
From S2P Require Import PipelineContract AdapterPipeline.
From S2P Require Import Prelude Records Topology Profiles TraceSchema TraceIntegrity Replay Manifest CpuIndex CpuIndexTheorems.
From S2P Require Import NpuJoin Provenance Reconstruct TraceSample JoinTrace JoinTheorems JoinCalls ReconstructTheorems.
Set Default Goal Selector "!".

#[local] Existing Instance text_host.

(** [str.lower] of a text of ASCII letters. *)
Fixpoint ascii_lower (s : string) : string :=
  match s with
  | EmptyString => EmptyString
  | String c s => let n := N_of_ascii c in
      String (if ((65 <=? n) && (n <=? 90))%N then ascii_of_N (n + 32) else c) (ascii_lower s)
  end.

(** Records with their common fields and their sequence numbers. *)
Definition graph_lines (l : list (string * record)) : list record :=
  map (fun '(i, (kind, r)) => [("schema", JStr "im2p-semantic-graph"); ("version", JInt 1); ("kind", JStr kind);
                                ("sequence", JInt (Z.of_nat i))] ++ r) (numbered l).

(** ** The graphs *)

Definition phase_names (prefix : string) (phase : Z) : record :=
  [(prefix +:+ "phase_kind", JStr (if phase =? 0 then "prefill" else "decode"));
   (prefix +:+ "decode_index", if phase =? 0 then JNull else JInt (phase - 1))].
Definition tensor_of (name : string) (shape : list Z) : record :=
  [("name", JStr name); ("type", JStr "t"); ("shape", JArr (map JInt shape))].
Definition edge_to (kind : string) (ordinal : Z) : json := JObj [("kind", JStr kind); ("ordinal", JInt ordinal)].
Definition node_of_graph (ordinal : Z) (op name : string) (shape : list Z) (excluded : bool) (inputs : list json) : json :=
  JObj [("node_ordinal", JInt ordinal); ("excluded", JBool excluded);
        ("payload", JObj (tensor_of name shape ++ [("op", JStr op); ("parameters_hex", JStr "00");
                                        ("parameters_status", JStr "STATIC_BYTES"); ("inputs", JArr inputs)]))].
(** The third node reads the fourth: node order is not a topological order. *)
Definition graph_nodes (m : Z) : list json :=
  [node_of_graph 0 "VIEW" "view" [32; m; 1; 1] true [edge_to "leaf" 1];
   node_of_graph 1 "ADD" "norm" [32; m; 1; 1] false [edge_to "node" 0; JNull];
   node_of_graph 2 "VIEW" "out" [16; m; 1; 1] true [edge_to "node" 3];
   node_of_graph 3 "ffn_up" "blk.0" [16; m; 1; 1] false [edge_to "leaf" 0; edge_to "node" 1]].

Definition graph_run (role : string) : string * record :=
  ("RUN", [("source_role", JStr role); ("run_config_id", JStr "config");
    ("workload", JObj (map (fun k => (k, if str_in k ["cpu"; "cpu_batch"] then JObj [("threads", JInt 2)] else JInt 1)) WORKLOAD));
    ("producer", JObj [("warmup_excluded", JBool true); ("reserve_measure_graphs_excluded", JBool true)]);
    ("cpu_only_build", JBool (String.eqb role "FULL_CPU"))]).
Definition node_execution (role class : string) (phase ordinal : Z) : string * record :=
  ("NODE_EXECUTION", phase_names "semantic_" phase ++
    [("semantic_graph_occurrence", JInt 0); ("semantic_node_ordinal", JInt ordinal); ("source_role", JStr role);
     ("run_config_id", JStr "config"); ("actual_backend", JStr "b"); ("execution_class", JStr class); ("success", JBool true)]).
Definition graph_phase (role : string) (phase : Z) : list (string * record) :=
  let m := if phase =? 0 then 3 else 1 in
  let target := if (phase =? 0) && String.eqb role "POTAL_COLLECTION" then "TARGET_NPU" else "ORDINARY_CPU" in
  [("PHASE", phase_names "" phase ++ [("input_tokens", JInt 1); ("token_fingerprint", JStr "fnv1a64-le-i32:0000000000000000")]);
   ("GRAPH", phase_names "" phase ++ [("graph_occurrence", JInt 0); ("nodes", JArr (graph_nodes m));
     ("leaves", JArr [JObj (tensor_of "w" [32; 16; 1; 1]); JObj (tensor_of "x" [32; m; 1; 1])])]);
   node_execution role "EXCLUDED" phase 0; node_execution role "ORDINARY_CPU" phase 1;
   node_execution role "EXCLUDED" phase 2; node_execution role target phase 3].
Definition graph_of (role : string) : list record :=
  graph_lines ([graph_run role] ++ graph_phase role 0 ++ graph_phase role 1 ++
    [("RUN_END", [("success", JBool true); ("expected_node_count", JInt 8); ("executed_node_count", JInt 8);
                  ("cpu_only_proven", JBool true); ("graph_count", JInt 2)])]).

(** ** The logs *)

Definition interval (role duration_role class op : string) (phase ordinal : Z) (host worker : json) (start finish : Z) : record :=
  [("schema", JStr "gemmini.cycle"); ("version", JInt 2); ("record_type", JStr "CYCLE_INTERVAL")] ++
  phase_names "semantic_" phase ++
  [("semantic_graph_occurrence", JInt 0); ("semantic_node_ordinal", JInt ordinal); ("run_config_id", JStr "config");
   ("source_role", JStr role); ("duration_role", JStr duration_role); ("duration_source", JStr role); ("op", JStr op);
   ("host_stage_id", host); ("worker_id", worker); ("worker_count", if is_null worker then JNull else JInt 2);
   ("source", JStr "steady_clock"); ("unit", JStr "nanosecond"); ("start", JInt start); ("end", JInt finish);
   ("delta", JInt (finish - start)); ("valid", JBool true); ("reason", JNull); ("cpu_service", JBool true);
   ("operation_success", JBool true);
   ("cpu_work_cycles", JInt 90); ("cpu_work_cycles_source", JStr "perf"); ("cpu_work_cycles_unit", JStr "cycle");
   ("cpu_work_cycles_valid", JBool true); ("cpu_work_cycles_reason", JNull);
   ("thread_cpu_ns", JInt 9); ("thread_cpu_valid", JBool true); ("thread_cpu_reason", JNull);
   ("host_elapsed_ns", JInt (finish - start)); ("host_elapsed_valid", JBool true); ("host_elapsed_reason", JNull);
   ("host_start_ns", JInt start); ("host_end_ns", JInt finish); ("host_execution_id", JStr "x"); ("thread_id", JInt 4);
   ("interval_class", JStr class)].
Definition worker_interval (phase ordinal : Z) (op : string) (worker start finish : Z) : record :=
  interval "FULL_CPU" "ORDINARY_CPU_REFERENCE" "PER_WORKER_CPU_WORK" op phase ordinal JNull (JInt worker) start finish.

Definition full_log : list record :=
  concat (map (fun worker => [worker_interval 0 1 "cpu.add" worker 10 (20 + worker); worker_interval 1 1 "cpu.add" worker 30 35;
                              worker_interval 1 3 "cpu.ffn_up" worker 40 60]) [0; 1]).
Definition potal_log : list record :=
  [interval "POTAL_COLLECTION" "OBSERVATION_ONLY" "PER_WORKER_CPU_WORK" "cpu.add" 0 1 JNull (JInt 0) 10 12;
   interval "POTAL_COLLECTION" "POTAL_HOST" "CANONICAL_ADDITIVE" "quantize" 0 3 (JInt 0) JNull 50 57].

(** ** The provenances *)

Definition kernel_unsigned : record :=
  [("schema", JStr "im2p-ordinary-cpu-kernel-contract"); ("version", JInt 1); ("units", JObj [("u", JInt 1)]);
   ("dependencies", JObj [("d", JInt 1)]); ("compilers", JObj [("c", JInt 1)])].
Definition kernel_contract : record := kernel_unsigned ++ [("sha256", JStr (Contract.contract_digest kernel_unsigned))].
Definition provenance_of (role : string) (artifacts : record) : record :=
  [("schema", JStr "im2p-collection-provenance"); ("version", JInt 1); ("source_role", JStr role); ("process_exit_code", JInt 0);
   ("collection_success", JBool true); ("build_inputs_unchanged", JBool true); ("model_sha256", JStr zeros);
   ("executable_sha256", JStr zeros); ("compile_commands_sha256", JStr zeros); ("cpu_kernel_contract", JObj kernel_contract);
   ("command_arguments", JArr [JStr "-m"; JStr ("sha256:" +:+ zeros)]);
   ("fresh_build", JObj [("kind", JStr "FRESH_CONFIGURE_AND_COMPILE"); ("reference_cache_sha256", JStr zeros); ("build", JStr "b");
      ("configure_command", JArr [JStr "cmake"]); ("actual_compile_inputs", JObj [("a.c", JStr zeros)])]);
   ("runtime_dependencies", JObj [("libc", JObj [("kind", JStr "SYSTEM"); ("sha256", JStr zeros)])]);
   ("input_files", JObj [("model.gguf", JStr zeros)]); ("project_libraries", JArr []); ("artifacts", JObj artifacts)].
Definition artifact_of (name digest : string) : string * json := (name, JObj [("sha256", JStr digest)]).

(** ** The results *)

Definition sample_authority : NpuAuthority := {|
  validation := "PASS"; certificate_sha256 := "certificate"; certificate_schema := JStr "schema"; certificate_version := JInt 1;
  library_sha256 := "library"; transition_certificate_sha256 := None; run_aware_certificate_sha256 := None;
  run_aware_certificate_scope := None; residual_admitted := false; hardware_contracts := None; summary_extra := [];
|}.
Definition modeled_of (cycles : Z) : record :=
  map (fun name => (name, JInt (if str_in name ["done_cycle"; "total_cycles"] then cycles else
    if String.eqb name "logical_work_count" then 1 else 0))) RESULT_FIELDS.
Definition result_of (rw : record * Work) (cycles : Z) : record :=
  let r := rw.1 in
  [("schema", JStr "im2p-npu-cycle-result"); ("kind", JStr "NPU_WORK_RESULT"); ("sequence", JInt (TraceSchema.identity rw.2))] ++
  repeated r ++
  [("profile", JStr "a8w8-d16-hp1"); ("cycle_library_sha256", JStr "library"); ("certificate_sha256", JStr "certificate");
   ("certificate_schema", JStr "schema"); ("certificate_version", JInt 1); ("producer_execution_kind", JStr "CPU_FUNCTIONAL");
   ("target_work_validation", JStr "PASS"); ("cycle_model_validation", JStr "PASS");
   ("actual_rtl_acceptance_in_collection", JStr "NOT_APPLICABLE"); ("accounting_kind", JStr "isolated-work-accounting");
   ("cycle_unit", JStr "cycles"); ("trace_sequence", pget r "sequence"); ("run_view_sha256", JStr (work_binding rw.2));
   ("run_aware_certificate_sha256", JNull); ("run_aware_certificate_scope", JNull); ("modeled", JObj (modeled_of cycles));
   ("transition_certificate_sha256", JNull)].
Definition sample_works : list (record * Work) := match sample_run with Ok (_, ws) => ws | Err _ => [] end.
Definition sample_answers : list record := map (fun rw => result_of rw (100 + TraceSchema.identity rw.2)) sample_works.

Definition sample_inputs : Inputs := {|
  full_cpu := {| log := full_log; log_name := "full.jsonl"; graph := graph_of "FULL_CPU";
    provenance := provenance_of "FULL_CPU" [artifact_of "cycle_log" "fl"; artifact_of "semantic_graph" "fg"];
    log_sha256 := "fl"; graph_sha256 := "fg"; provenance_sha256 := "fp" |};
  potal := {| log := potal_log; log_name := "potal.jsonl"; graph := graph_of "POTAL_COLLECTION";
    provenance := provenance_of "POTAL_COLLECTION" [artifact_of "cycle_log" "pl"; artifact_of "semantic_graph" "pg"; artifact_of "npu_trace" "pt"];
    log_sha256 := "pl"; graph_sha256 := "pg"; provenance_sha256 := "pp" |};
  npu_trace := sample_lines; npu_trace_sha256 := "pt"; npu_results := sample_answers; npu_results_sha256 := "pr";
|}.
Definition sample_reconstruction : res (list record * record) :=
  reconstruct ascii_lower (fun _ => Ok sample_contract) (Ok sample_authority) "plain" sample_inputs.

Lemma sample_accepted : is_ok sample_reconstruction = true.
Proof. vm_compute. reflexivity. Qed.

Definition sample_rows : list record := match sample_reconstruction with Ok (rows, _) => rows | Err _ => [] end.
Definition sample_summary : record := match sample_reconstruction with Ok (_, summary) => summary | Err _ => [] end.
Lemma sample_reconstructs :
  reconstruct ascii_lower (fun _ => Ok sample_contract) (Ok sample_authority) "plain" sample_inputs = Ok (sample_rows, sample_summary).
Proof.
  change (sample_reconstruction = Ok (sample_rows, sample_summary)). pose proof sample_accepted as H. unfold sample_rows, sample_summary.
  revert H. generalize sample_reconstruction. intros [[rows summary]|e] H; [reflexivity|discriminate H].
Qed.

(** ** The theorems on the sample *)

Lemma reconstruct_dag_witness : NoDup (map row_node sample_rows) ∧
  ∃ order, order ≡ₚ sample_rows ∧ Topology.topological String.eqb row_node row_needs [] order.
Proof. destruct (reconstruct_dag _ _ _ _ _ _ _ sample_reconstructs) as [_ H]. exact H. Defined.

Lemma reconstruct_costs_witness : ∃ m x measured ordinary_rows host_rows,
  read_manifest (graph (potal sample_inputs)) = Ok m ∧ List.filter has_cost sample_rows = ordinary_rows ++ host_rows ∧
  Forall2 (ordinary_cost x) (ordinary_keys m) ordinary_rows ∧ Forall2 host_cost measured host_rows.
Proof.
  destruct (reconstruct_costs _ _ _ _ _ _ _ sample_reconstructs) as (m & full & loaded & x & measured & o & h & H1 & _ & _ & _ & H2 & H3 & _ & H4 & _).
  exists m, x, measured, o, h. exact (conj H1 (conj H2 (conj H3 H4))).
Defined.

Lemma reconstruct_works_witness : ∃ s ws, run_trace sample_lines = Ok (s, ws) ∧ length ws = length sample_answers.
Proof.
  destruct (reconstruct_works _ _ _ _ _ _ _ sample_reconstructs) as (s & ws & H1 & _ & H2).
  exists s, ws. exact (conj H1 (Forall2_length _ _ _ H2)).
Defined.

(** The results repeat the records of the works up to the order of keys, and no
    other record; the reordered run of a record has its text. *)
Example reordered_run :
  let run := JObj [("first_row", JInt 0); ("row_count", JInt 16)] in let written := JObj [("row_count", JInt 16); ("first_row", JInt 0)] in
  json_dumps run = json_dumps written ∧ run ≠ written ∧ same_json run written = true.
Proof. vm_compute. done. Qed.
Definition pair_faithful (r result : record) : bool :=
  match repeats r result with
  | Ok copied => negb (String.eqb (json_dumps (JObj copied)) (json_dumps (JObj (repeated r)))) || same_json (JObj copied) (JObj (repeated r))
  | Err _ => true
  end.

Lemma pairs_faithful : forallb (fun rw : record * Work => forallb (pair_faithful rw.1) sample_answers) sample_works = true.
Proof. vm_compute. reflexivity. Qed.

Lemma sample_faithful : dumps_faithful sample_lines sample_answers.
Proof.
  intros s ws r w result copied Hrun Hw Hr Hc Hd. assert (E : sample_works = ws).
  { unfold sample_works, sample_run. rewrite Hrun. reflexivity. }
  pose proof pairs_faithful as Hall. rewrite E, forallb_forall in Hall. apply list_elem_of_In in Hw. specialize (Hall _ Hw).
  rewrite forallb_forall in Hall. apply list_elem_of_In in Hr. specialize (Hall _ Hr). unfold pair_faithful in Hall. cbn [fst] in Hall.
  rewrite Hc, Hd, String.eqb_refl in Hall. exact Hall.
Qed.

Definition stripe_results : list (record * Z) :=
  omap (fun result => if is_stripe result then match pget result "call_id" with JInt call => Some (result, call) | _ => None end else None) sample_answers.
Lemma stripe_calls : map snd stripe_results = [0; 1].
Proof. vm_compute. reflexivity. Qed.

Lemma reconstruct_chains_witness : call_chain sample_rows 0 ∧ call_chain sample_rows 1.
Proof.
  assert (Hall : ∀ call, call ∈ map snd stripe_results → call_chain sample_rows call).
  { intros call Hin. apply list_elem_of_fmap in Hin as ([result call'] & E & Hin). cbn [snd] in E. subst call'.
    unfold stripe_results in Hin. apply list_elem_of_omap in Hin as (result' & Hin & E).
    destruct (is_stripe result') eqn:Es; [|discriminate E].
    destruct (pget result' "call_id") eqn:Ec; try discriminate E. injection E as -> ->.
    apply (reconstruct_chains _ _ _ _ _ _ _ sample_reconstructs sample_faithful result call); assumption. }
  rewrite stripe_calls in Hall. split; apply Hall; [left|right; left].
Defined.

Definition manifest_of_role (role : string) : Manifest := match read_manifest (graph_of role) with Ok m => m | Err _ => no_manifest end.
Definition full_index : res CpuIndex :=
  load ascii_lower "full.jsonl" (manifest_of_role "POTAL_COLLECTION") (manifest_of_role "FULL_CPU") full_log empty_index.
Definition both_indexes : res (CpuIndex * CpuIndex) :=
  let* x1 := full_index in
  let* x2 := load ascii_lower "potal.jsonl" (manifest_of_role "POTAL_COLLECTION") (manifest_of_role "POTAL_COLLECTION") potal_log x1 in
  Ok (x1, x2).
Definition norm_costs : res (CpuIndex * CpuIndex * list record) :=
  let* x := both_indexes in let* records := ordinary ("prefill", None, 0, 1) x.2 in Ok (x, records).
Lemma norm_measured : match norm_costs with Ok (_, records) => length records | Err _ => O end = 2%nat.
Proof. vm_compute. reflexivity. Qed.

(** The cost of the norm of the prefill: the two records of the FullCPU log
    that claim it, lines 1 and 4. *)
Lemma ordinary_complete_witness : ∃ records, length records = 2%nat ∧
  records ≡ₚ claimed_costs ascii_lower (manifest_of_role "FULL_CPU") ("prefill", None, 0, 1) (numbered full_log).
Proof.
  pose proof norm_measured as Hn. unfold norm_costs, both_indexes in Hn.
  destruct full_index as [x1|e] eqn:E1; [|discriminate Hn]. cbn [mbind res_bind] in Hn.
  destruct (load ascii_lower "potal.jsonl" _ _ potal_log x1) as [x2|e] eqn:E2; [|discriminate Hn]. cbn [mbind res_bind fst snd] in Hn.
  destruct (ordinary ("prefill", None, 0, 1) x2) as [records|e] eqn:Er; [|discriminate Hn].
  exists records. split; [exact Hn|].
  refine (proj1 (ordinary_complete _ _ _ _ _ _ _ _ _ _ _ _ _ _ _ E1 E2 Er)); vm_compute; reflexivity.
Defined.
