(* ===== verification/StreamAdapter.v ===== *)
(** * The streamed adaptation of a dataset

    [adapt_stream] of [sim/cycle/execution_stream.py]: the rows of a dataset
    become nodes of an execution store one at a time, so that only the
    operations, the NPU results and the structural rows of a pipeline are held
    at once.  The entry and exit nodes of all operations are written first; an
    exit node collects its edges as the members of its operation are written.

    The documents are decoded, [dumps] is [json.dumps(value, sort_keys=True)],
    and the digests are those of the files read.  The files are the same in both passes, and the
    name of the output is new; the budget of the disk, the staging of the file
    and the [metadata] rows besides the manifest are left out. *)
From S2P Require Import Prelude Records Rational Services PipelineContract Pipeline Adapter Application ExecutionStore ExecutionIR.
From S2P Require Import TraceIntegrity.
Set Default Goal Selector "!".

(** [files], read. *)
Record StreamFiles := {
  stream_lifecycle : record;
  stream_dataset : list record;
  stream_results : list record;
  stream_application : option (list record);
  lifecycle_digest : string;
  stream_digests : Digests;
}.

Definition RESULTS_REQUIRED : string := "certified FULL/run-aware NPU results required".

(** ** The first pass over the dataset *)

(** The containers, and the rows a pipeline is projected from. *)
Record Scan := { containers : list (string * record); structural : list (string * record) }.

Definition scan_row (version_two : bool) (s : Scan) (row : record) : res Scan :=
  let* kind := item row "kind" in
  let* s := (if eq_str kind "OPERATION_CONTAINER" then
    let* identity := text row "node_id" in
    ensure (negb (smem identity (containers s))) "duplicate operation container" ;;;
    Ok {| containers := sset identity row (containers s); structural := structural s |} else Ok s) in
  if version_two && (eq_str kind "CALL_BOUNDARY" || eq_str (pget row "node_class") "TARGET_NPU") then
    let* identity := text row "node_id" in
    ensure (negb (smem identity (structural s))) "duplicate pipeline structural node" ;;;
    Ok {| containers := containers s; structural := sset identity row (structural s) |}
  else Ok s.

(** ** The NPU results *)

Record Certified := { works : list (string * NpuWork); work_results : list (string * record); work_calls : list string }.

Definition add_certified (admission : ResultAdmission) (version_two : bool) (c : Certified) (row : record) : res Certified :=
  admission RESULTS_REQUIRED row ;;;
  ensure (in_strs (pget row "scope") (if version_two then ["full"; "residual_compact"; "stripe"] else ["full"; "residual_compact"]))
    RESULTS_REQUIRED ;;;
  let* work := integer row "work_id" in
  let* call_id := integer row "call_id" in
  let identity := npu_id work in
  let call := dec call_id in
  ensure (negb (smem identity (works c)) && negb (str_in call (work_calls c))) "duplicate work/call result" ;;;
  let* request := text row "run_view_sha256" in
  let* profile := text row "profile" in
  Ok {| works := sset identity {| work_identity := identity; request_sha256 := request; profile := profile |} (works c);
        work_results := sset identity row (work_results c); work_calls := work_calls c ++ [call] |}.

(** [d.update(u)] *)
Definition updated {V} (d u : list (string * V)) : list (string * V) := fold_left (fun acc kv => sset kv.1 kv.2 acc) u d.

(** The variables of [adapt_stream] once the inputs are read. *)
Record Streamed := {
  lifecycle : record;
  containers_of : list (string * record);
  entry_of : record;
  resource_map : record;
  order_of : list string;
  certified : Certified;
  projection : option PipelineProjection;
}.

Section Stream.
Context `{Host}.
Context (dumps : json → string).

(** The identities and calls of the results are those the contract lists. *)
Definition check_coverage (c : Certified) (submission : list string) (slots : record) : res unit :=
  ensure (set_eq String.eqb (works c).*1 submission && set_eq String.eqb (work_calls c) (keys slots))
    "NPU result/submission/call coverage mismatch".

Definition read_inputs (files : StreamFiles) (admission : ResultAdmission) : res Streamed :=
  let contract := stream_lifecycle files in
  validate_lifecycle_contract contract ;;;
  let* dataset := item contract "dataset_sha256" in
  let* results := item contract "npu_results_sha256" in
  ensure (eq_str dataset (dataset_digest (stream_digests files))) "lifecycle input binding mismatch" ;;;
  ensure (eq_str results (results_digest (stream_digests files))) "lifecycle input binding mismatch" ;;;
  let* scanned := fold_res (scan_row (version_2 contract)) {| containers := []; structural := [] |} (stream_dataset files) in
  let operations := containers scanned in
  let indexed := if version_2 contract then updated (structural scanned) operations else structural scanned in
  let* entry_value := item contract "entry_dependencies" in
  let* entry := object_value entry_value in
  ensure (negb (Nat.eqb (length operations) 0) && set_eq String.eqb (keys entry) operations.*1) "phase/graph entry coverage mismatch" ;;;
  let* resources_value := item contract "worker_resources" in
  let* resources := object_value resources_value in
  let* order_value := item contract "submission_order" in
  let* order_list := array order_value in
  let* submission := map_res Adapter.text_value order_list in
  ensure (distinct String.eqb submission) "duplicate submission order" ;;;
  let* slots_value := item contract "call_slots" in
  let* slots := object_value slots_value in
  ensure (forallb is_null slots.*2) "ExSIA workspace is not a target NPU slot" ;;;
  let* c := fold_res (add_certified admission (version_2 contract)) {| works := []; work_results := []; work_calls := [] |}
    (stream_results files) in
  check_coverage c submission slots ;;;
  let* pipeline := (if version_2 contract then
    let* q := project_pipeline contract indexed (work_results c) in Ok (Some q) else Ok None) in
  Ok {| lifecycle := contract; containers_of := operations; entry_of := entry; resource_map := resources;
        order_of := submission; certified := c; projection := pipeline |}.

(** ** The second pass: nodes are written *)

Record Loading := {
  store : ExecutionStore;
  available : list (string * Kind);
  members_seen : list string;
  counts : list (string * Z);
}.

Definition with_store (l : Loading) (st : ExecutionStore) : Loading :=
  {| store := st; available := available l; members_seen := members_seen l; counts := counts l |}.

Definition result_edge (identity : string) : Dependency := {| node := identity; milestone := RESULT_READY |}.
(** [edge(value)] of each value. *)
Definition edges_of_values (s : Streamed) (values : list json) : res (list Dependency) :=
  map_res (fun value => let* identity := Adapter.text_value value in Ok (edge_to (containers_of s) identity)) values.

Definition dumped_phase (row : record) : res string := let* phase := item row "phase" in Ok (dumps phase).

Definition write_operation (s : Streamed) (l : Loading) (entry : string * record) : res Loading :=
  let '(identity, row) := entry in
  let* phase := dumped_phase row in
  let* own_value := item row "dependencies" in
  let* own := array own_value in
  let* entered_value := item (entry_of s) identity in
  let* entered := array entered_value in
  let* incoming := edges_of_values s (own ++ entered) in
  let begin := identity +:+ ":enter" in
  let finish := identity +:+ ":exit" in
  let* st := add (store l) (barrier_node OP_ENTER begin identity phase (fromkeys incoming)) None in
  let* st := add st (barrier_node OP_EXIT finish identity phase []) None in
  Ok {| store := st; available := sset finish OP_EXIT (sset begin OP_ENTER (available l));
        members_seen := members_seen l; counts := counts l |}.

(** What the kind of a row decides. *)
Record StreamNode := {
  sn_kind : Kind;
  sn_service : option string;
  sn_claims : list string;
  sn_order : Z;
  sn_edges : list Dependency;
  sn_document : option record;
}.
Definition structural_node (kind : Kind) (edges : list Dependency) : StreamNode :=
  {| sn_kind := kind; sn_service := None; sn_claims := []; sn_order := 0; sn_edges := edges; sn_document := None |}.

Definition stream_call (s : Streamed) (row : record) (edges : list Dependency) : res StreamNode :=
  ensure (match projection s with Some _ => true | None => false end ||
          negb (eq_str (pget row "call_kind") "STRIPE") && negb (eq_str (pget row "stage") "PUBLISH"))
    "PIPELINE requires verified target slot/fence lifecycle" ;;;
  Ok (structural_node (if eq_str (pget row "stage") "PUBLISH" then PUBLISH else BARRIER) edges).

Definition stream_cpu (s : Streamed) (identity : string) (row : record) (ordinary : bool) (edges : list Dependency) : res StreamNode :=
  let* source := text row "duration_source" in
  ensure (String.eqb source (if ordinary then "FULL_CPU" else "POTAL_COLLECTION")) "CPU duration authority mismatch" ;;;
  let* duration_value := item row "duration" in
  let* duration := object_value duration_value in
  let* raw := (if ordinary then let* intervals := item duration "worker_intervals" in array intervals else Ok [JObj duration]) in
  let* bound := map_res (fun value =>
    let* sample := object_value value in
    let* worker := bind_cpu_resource sample source (resource_map s) in Ok (JObj worker)) raw in
  let* policy := item (lifecycle s) "cpu_policy" in
  let* cpu := cpu_service [("source", JStr source); ("policy", policy); ("workers", JArr bound)] in
  let* document := services_record {| cpu := [(identity, cpu)]; npu := [] |} in
  Ok {| sn_kind := CPU; sn_service := Some identity; sn_claims := map resource (workers cpu); sn_order := 0;
        sn_edges := edges; sn_document := Some document |}.

Definition stream_target (s : Streamed) (identity : string) (edges : list Dependency) : res StreamNode :=
  match sget identity (works (certified s)) with
  | None => Err (ExecutionError "missing NPU result")
  | Some work =>
      match index_of identity (order_of s) with
      | None => Err (KeyError identity)
      | Some position =>
          let* document := services_record {| cpu := []; npu := [(identity, work)] |} in
          Ok {| sn_kind := NPU; sn_service := Some identity; sn_claims := ["npu:0"]; sn_order := Z.of_nat position;
                sn_edges := match position with
                  | O => edges
                  | S before => edges ++ [{| node := nth before (order_of s) ""; milestone := ACCEPTED |}]
                  end;
                sn_document := Some document |}
      end
  end.

Definition stream_service (s : Streamed) (identity : string) (row : record) (edges : list Dependency) : res StreamNode :=
  let* class := item row "node_class" in
  if eq_str class "ORDINARY_CPU" then stream_cpu s identity row true edges
  else if eq_str class "POTAL_HOST" then stream_cpu s identity row false edges
  else if eq_str class "TARGET_NPU" then stream_target s identity edges
  else if in_strs class ["FUNCTIONAL_EMULATION"; "WAIT"; "EXCLUDED"] then
    let* kind := parse_kind (py_str class) in Ok (structural_node kind edges)
  else Err (ExecutionError "unsupported streamed service class").

Definition stream_node (s : Streamed) (identity : string) (row : record) (kind : json) (edges : list Dependency) : res StreamNode :=
  if eq_str kind "CALL_BOUNDARY" then stream_call s row edges
  else if eq_str kind "SERVICE" then stream_service s identity row edges
  else Err (ExecutionError "unsupported structural record").

Definition node_of (s : Streamed) (identity operation phase : string) (r : StreamNode) : Node := {|
  ExecutionIR.identity := identity; ExecutionIR.kind := sn_kind r; ExecutionIR.operation := operation;
  ExecutionIR.phase := phase; order := sn_order r;
  dependencies := match projection s with Some q => Pipeline.edges q identity (sn_edges r) | None => sn_edges r end;
  service := sn_service r; resources := sn_claims r |}.

(** [store.edges(operation + ':exit', (Dependency(identity),))] *)
Definition exit_waits (st : ExecutionStore) (operation identity : string) : res ExecutionStore :=
  ExecutionStore.edges st (operation +:+ ":exit") [result_edge identity].

Definition write_row (s : Streamed) (l : Loading) (row : record) : res Loading :=
  let l := {| store := store l; available := available l; members_seen := members_seen l;
              counts := bump "input_record_count" (counts l) |} in
  let* kind := item row "kind" in
  if eq_str kind "OPERATION_CONTAINER" then Ok l else
  let* identity := text row "node_id" in
  let* operation := text row "operation_node_id" in
  match sget operation (containers_of s) with
  | None => Err (ExecutionError "execution service has unknown operation")
  | Some container =>
      let* phase := dumped_phase container in
      let* own_value := item row "dependencies" in
      let* own := array own_value in
      let* listed := edges_of_values s own in
      let* r := stream_node s identity row kind (fromkeys (listed ++ [result_edge (operation +:+ ":enter")])) in
      let* st := add (store l) (node_of s identity operation phase r) (sn_document r) in
      let* st := exit_waits st operation identity in
      let* class := (if eq_str kind "SERVICE" then let* v := item row "node_class" in Ok (py_str v) else Ok "STRUCTURAL") in
      Ok {| store := st; available := available l;
            members_seen := if str_in operation (members_seen l) then members_seen l else members_seen l ++ [operation];
            counts := bump class (counts l) |}
  end.

(** *** The nodes of the pipeline, the barriers and the application *)

Definition write_owner (l : Loading) (n : Node) : res Loading :=
  let* st := add (store l) n None in
  let* st := exit_waits st (operation n) (identity n) in
  Ok {| store := st; available := available l; members_seen := members_seen l; counts := bump "STRUCTURAL" (counts l) |}.

Definition write_barrier (s : Streamed) (l : Loading) (raw : json) : res Loading :=
  let* row := object_value raw in
  let* identity := text row "node_id" in
  let* values := item row "dependencies" in
  let* listed := array values in
  let* dependencies := edges_of_values s listed in
  let* phase := text row "phase" in
  let* st := add (store l) (barrier_node BARRIER identity identity phase dependencies) None in
  Ok {| store := st; available := sset identity BARRIER (available l); members_seen := members_seen l; counts := counts l |}.

Definition write_service (services : list (string * CpuService)) (st : ExecutionStore) (n : Node) : res ExecutionStore :=
  let* document := (match sget (identity n) services with
    | None => Ok None
    | Some service => let* r := services_record {| cpu := [(identity n, service)]; npu := [] |} in Ok (Some r)
    end) in
  add st n document.

Definition write_application (s : Streamed) (files : StreamFiles) (l : Loading) : res Loading :=
  match stream_application files with
  | Some records =>
      let* raw := item (lifecycle s) "application" in
      let* declaration := object_value raw in
      let* digest := item declaration "sha256" in
      ensure (eq_str digest (application_digest (stream_digests files))) "application binding mismatch" ;;;
      let* p := project_application (available l) {| app_records := records; app_contract := declaration |} in
      let* st := fold_res (write_service (app_services p)) (store l) (app_nodes p).*2 in
      let* st := fold_res (fun st kv => ExecutionStore.edges st kv.1 kv.2) st (entry_edges p) in
      Ok (with_store l st)
  | None =>
      let* source := item (lifecycle s) "source_kind" in
      ensure (eq_str source "SYNTHETIC" && negb (has (lifecycle s) "application")) "bound application input required" ;;;
      Ok l
  end.

(** ** The store and its manifest *)

Definition result_record (s : Streamed) (files : StreamFiles) (l : Loading) (st : ExecutionStore) : res record :=
  let* scope := item (lifecycle s) "source_kind" in
  let* dataset := item (lifecycle s) "dataset_sha256" in
  Ok [("schema", JStr "im2p-execution-sqlite"); ("version", JInt 1); ("status", JStr "PASS"); ("scope", scope);
      ("input_record_count", JInt (default 0 (sget "input_record_count" (counts l))));
      ("node_count", JInt (count st)); ("service_count", JInt (service_count st)); ("structural_dag", JStr "PASS");
      ("dataset_sha256", dataset); ("lifecycle_sha256", JStr (lifecycle_digest files));
      ("class_counts", JObj (map (fun kv => (kv.1, JInt kv.2)) (counts l))); ("system_latency", JStr "NOT_MODELED");
      ("storage", JStr "SQLITE_BOUNDED_CACHE_16MIB");
      ("dependency_storage", JStr "edges table is authoritative; node body omits dependencies")].

Definition empty_loading : Loading := {| store := new_store; available := []; members_seen := []; counts := [] |}.

Definition adapt_stream (files : StreamFiles) (admission : ResultAdmission) : res (ExecutionStore * record) :=
  let* s := read_inputs files admission in
  let* l := fold_res (write_operation s) empty_loading (containers_of s) in
  let* l := fold_res (write_row s) l (stream_dataset files) in
  ensure (set_eq String.eqb (members_seen l) (containers_of s).*1) "operation without final completion members" ;;;
  ensure (default 0 (sget "TARGET_NPU" (counts l)) =? Z.of_nat (length (works (certified s)))) "unused NPU service results" ;;;
  let* l := (match projection s with Some q => fold_res write_owner l (owner_nodes q) | None => Ok l end) in
  let* barriers_value := item (lifecycle s) "barriers" in
  let* barriers := array barriers_value in
  let* l := fold_res (write_barrier s) l barriers in
  let* l := write_application s files l in
  let* st := validate (store l) in
  let* result := result_record s files l st in
  Ok (st, result).
End Stream.
