(* ===== verification/StreamEntries.v ===== *)
(** * The nodes of a streamed graph and their services

    [entry_fine] is what every node that [adapt_stream] writes satisfies with
    the service document written for it: the node is well formed by itself and
    its document reads back as the service of that node alone.  Each way of
    writing a node keeps it. *)
From S2P Require Import Prelude Records Rational ExecutionIR Services Scheduler SchedulerTheorems.
From S2P Require Import SqliteGraph SqliteLinkTheorems SqliteGraphTheorems ExecutionStore ExecutionStoreTheorems.
Set Default Goal Selector "!".

(** ** A store that is filled step by step

    [loaded] describes a store by the nodes added to it, with their service
    documents, and by the edges added later; [grown] gives a node its later
    edges.  A loaded store that [validate] accepts holds a graph: [loaded_valid]. *)

Abbreviation Later := (list (string * Dependency)).

Definition later_edge (x : string * Dependency) : Edge :=
  {| edge_node := x.1; edge_parent := node x.2; edge_milestone := Some (milestone_value (milestone x.2)) |}.
Definition later_of (later : Later) (identity : string) : list Dependency :=
  (List.filter (fun x => String.eqb x.1 identity) later).*2.
Definition grown (later : Later) (n : Node) : Node := {|
  identity := identity n; kind := kind n; operation := operation n; phase := phase n; order := order n;
  dependencies := dependencies n ++ later_of later (identity n); service := service n; resources := resources n |}.

Definition stored_row (n : Node) : string * json := (identity n, JObj (sset "dependencies" (JArr []) (node_record n))).

Record loaded (l : list (Node * option record)) (later : Later) (st : ExecutionStore) : Prop := {
  ld_nodes : map (fun row => (row_identity row, row_body row)) (node_rows st) = map stored_row l.*1;
  ld_edges : edge_rows st ≡ₚ edges_of l.*1 ++ map later_edge later;
  ld_services : service_rows st = omap (fun e => (fun document => (identity e.1, JObj document)) <$> e.2) l;
  ld_count : count st = Z.of_nat (length l);
  ld_service_count : service_count st = Z.of_nat (length (service_rows st));
  ld_names : NoDup (map identity l.*1);
  ld_unique : NoDup (edge_rows st);
}.

Lemma new_loaded : loaded [] [] new_store.
Proof. by split; try constructor. Qed.

(** ** Edges *)

Lemma edge_eqb_spec x y : edge_eqb x y = true ↔ x = y.
Proof.
  unfold edge_eqb. rewrite !andb_true_iff, !String.eqb_eq, bool_decide_eq_true. destruct x, y; cbn. naive_solver.
Qed.

Lemma insert_edge_Ok rows e rows' : insert_edge rows e = Ok rows' → e ∉ rows ∧ rows' = rows ++ [e].
Proof.
  unfold insert_edge. destruct (existsb (edge_eqb e) rows) eqn:E; [done|]. intros <-%Ok_eq. split; [|done].
  intros Hin%list_elem_of_In. apply not_true_iff_false in E. apply E, existsb_exists. exists e. by rewrite edge_eqb_spec.
Qed.

Lemma NoDup_snoc {A} (l : list A) x : NoDup l → x ∉ l → NoDup (l ++ [x]).
Proof.
  intros Hl Hx. apply NoDup_app. split; [done|]. split; [|apply NoDup_singleton]. by intros y Hy ->%list_elem_of_singleton.
Qed.

(** Edges without duplicates are appended. *)
Lemma edges_Ok st name k st' : ExecutionStore.edges st name k = Ok st' → NoDup (edge_rows st) →
  NoDup (edge_rows st') ∧ edge_rows st' = edge_rows st ++ map (fun d => later_edge (name, d)) k ∧
  node_rows st' = node_rows st ∧ service_rows st' = service_rows st ∧ count st' = count st ∧ service_count st' = service_count st.
Proof.
  unfold ExecutionStore.edges. intros He Hn. apply bind_Ok in He as (rows & Hf & <-%Ok_eq). cbn. split_and!; try done; revert Hf.
  - apply (fold_res_inv (@NoDup Edge)); [done|]. intros d r1 r2 _ Hr1 [Hx ->]%insert_edge_Ok. by apply NoDup_snoc.
  - apply (fold_res_hist (fun pre rows => rows = edge_rows st ++ map (fun d => later_edge (name, d)) pre)); [by rewrite app_nil_r|].
    intros pre d post r1 r2 _ -> [_ ->]%insert_edge_Ok. by rewrite List.map_app, (assoc_L (++)).
Qed.

Lemma edges_later l later st name k st' : ExecutionStore.edges st name k = Ok st' → loaded l later st →
  loaded l (later ++ map (fun d => (name, d)) k) st'.
Proof.
  intros He [Hn Hed Hs Hc Hsc Hnd Hu]. destruct (edges_Ok _ _ _ _ He Hu) as (Hu' & Hr & Hn' & Hs' & Hc' & Hsc').
  split; try done; rewrite ?Hn', ?Hs', ?Hc', ?Hsc'; try done.
  rewrite Hr, Hed, List.map_app, map_map, <-(assoc_L (++)). done.
Qed.

(** ** Nodes *)

Lemma edges_of_snoc l n : edges_of (l ++ [n]) = edges_of l ++ map (edge_of n) (dependencies n).
Proof. unfold edges_of. rewrite flat_map_app. cbn. by rewrite app_nil_r. Qed.

Lemma loaded_names l later st : loaded l later st → map row_identity (node_rows st) = map identity l.*1.
Proof.
  intros [Hn _ _ _ _ _ _]. assert (E : map fst (map (fun row => (row_identity row, row_body row)) (node_rows st)) = map fst (map stored_row l.*1)) by by rewrite Hn.
  rewrite !map_map in E. etransitivity; [exact E|]. clear. induction l as [|e l IH]; [done|]. cbn. by f_equal.
Qed.

Lemma add_loaded l later st n document st' : add st n document = Ok st' → loaded l later st →
  loaded (l ++ [(n, document)]) later st' ∧ identity n ∉ map identity l.*1.
Proof.
  intros Ha Hl. pose proof (loaded_names _ _ _ Hl) as Hnames. destruct Hl as [Hn Hed Hs Hc Hsc Hnd Hu].
  unfold add in Ha. rewrite check_bind in Ha. destruct Ha as [Hf%negb_true_iff Ha].
  assert (Hfresh : identity n ∉ map identity l.*1) by (rewrite <-Hnames; intros Hin%str_in_spec; congruence).
  apply bind_Ok in Ha as (st1 & He & Ha). apply edges_Ok in He as (Hu1 & Hr1 & Hn1 & Hs1 & Hc1 & Hsc1); [|done].
  cbn [node_rows edge_rows service_rows count service_count] in *.
  assert (Hnodes : map (fun row => (row_identity row, row_body row)) (node_rows st1) = map stored_row (l ++ [(n, document)]).*1).
  { rewrite Hn1, List.map_app, Hn, fmap_app, List.map_app. done. }
  assert (Hedges : edge_rows st1 ≡ₚ edges_of (l ++ [(n, document)]).*1 ++ map later_edge later).
  { rewrite Hr1, Hed, fmap_app. change ([(n, document)].*1) with [n]. rewrite edges_of_snoc.
    change (map (fun d => later_edge (identity n, d)) (dependencies n)) with (map (edge_of n) (dependencies n)).
    rewrite <-!(assoc_L (++)). apply Permutation_app_head, Permutation_app_comm. }
  assert (Hnd' : NoDup (map identity (l ++ [(n, document)]).*1)).
  { rewrite fmap_app, List.map_app. by apply NoDup_snoc. }
  split; [|done]. destruct document as [document|].
  - rewrite check_bind in Ha. destruct Ha as [_ <-%Ok_eq]. split; cbn [node_rows edge_rows service_rows count service_count]; try done.
    + by rewrite omap_app, Hs1, Hs.
    + rewrite Hc1, Hc, length_app. cbn. lia.
    + rewrite Hsc1, Hsc, Hs1, length_app. cbn. lia.
  - apply Ok_eq in Ha as <-. split; cbn [node_rows edge_rows service_rows count service_count]; try done.
    + by rewrite omap_app, Hs1, Hs, app_nil_r.
    + rewrite Hc1, Hc, length_app. cbn. lia.
    + by rewrite Hsc1, Hsc, Hs1.
Qed.

(** ** The final graph *)

Definition graph_of_load (l : list (Node * option record)) (later : Later) : list Node := map (grown later) l.*1.

Lemma grown_names l later : map identity (graph_of_load l later) = map identity l.*1.
Proof. unfold graph_of_load. by rewrite map_map. Qed.

Lemma edges_of_grown (k : list Node) later : NoDup (map identity k) → (∀ x, x ∈ later → x.1 ∈ map identity k) →
  edges_of (map (grown later) k) ≡ₚ edges_of k ++ map later_edge later.
Proof.
  revert later. induction k as [|n k IH]; intros later.
  { intros _ Hl. destruct later as [|x later]; [done|]. specialize (Hl x ltac:(by left)). by apply not_elem_of_nil in Hl. }
  intros [Hn Hnd]%NoDup_cons Hl.
  set (own := List.filter (fun x : string * Dependency => String.eqb x.1 (identity n)) later).
  set (rest := List.filter (fun x : string * Dependency => negb (String.eqb x.1 (identity n))) later).
  assert (Hsplit : later ≡ₚ own ++ rest).
  { unfold own, rest. clear. induction later as [|x later IH]; [done|]. cbn. destruct (String.eqb x.1 (identity n)); cbn.
    - by rewrite <-IH.
    - by rewrite <-Permutation_middle, <-IH. }
  assert (Hk : map (grown later) k = map (grown rest) k).
  { apply map_ext_in. intros m Hm%list_elem_of_In. unfold grown. do 2 f_equal. unfold later_of, rest. f_equal.
    assert (Hne : identity m ≠ identity n) by (intros E; apply Hn; rewrite <-E; apply list_elem_of_In, in_map; by apply list_elem_of_In).
    clear -Hne. induction later as [|x later IH]; [done|]. cbn. destruct (String.eqb_spec x.1 (identity n)) as [E|E]; cbn.
    - destruct (String.eqb_spec x.1 (identity m)); [congruence|done].
    - destruct (String.eqb x.1 (identity m)); [|done]. by f_equal. }
  assert (Hrest : ∀ x, x ∈ rest → x.1 ∈ map identity k).
  { intros x [Hx Hne]%list_elem_of_In%filter_In. apply list_elem_of_In, Hl in Hx. apply negb_true_iff, String.eqb_neq in Hne.
    by apply elem_of_cons in Hx as [|]. }
  specialize (IH rest Hnd Hrest). cbn [map]. rewrite Hk.
  change (edges_of (grown later n :: map (grown rest) k)) with (map (edge_of (grown later n)) (dependencies (grown later n)) ++ edges_of (map (grown rest) k)).
  change (edges_of (n :: k)) with (map (edge_of n) (dependencies n) ++ edges_of k).
  rewrite IH. cbn [dependencies grown]. rewrite List.map_app.
  assert (Hown : map (edge_of (grown later n)) (later_of later (identity n)) = map later_edge own).
  { unfold later_of. fold own. assert (Hx : ∀ x, x ∈ own → x.1 = identity n).
    { intros x [_ Hx]%list_elem_of_In%filter_In. by apply String.eqb_eq in Hx. }
    clear -Hx. induction own as [|x l IH]; [done|]. cbn. f_equal; [|apply IH; intros; apply Hx; by right].
    unfold edge_of, later_edge. cbn. by rewrite (Hx x) by by left. }
  rewrite Hown. rewrite (Permutation_map later_edge Hsplit), List.map_app, <-!(assoc_L (++)). apply Permutation_app_head.
  rewrite !(assoc_L (++)). apply Permutation_app_tail, Permutation_app_comm.
Qed.

(** ** Validation *)

Definition node_columns (row : NodeRow) : string * json := (row_identity row, row_body row).

Lemma visit_columns rows l i : map node_columns (visit rows l i) = map node_columns l.
Proof.
  unfold visit. rewrite !map_map. apply map_ext. intros row. unfold node_columns.
  by destruct (String.eqb (row_identity row) i); cbn; destruct (is_child _ _ _).
Qed.

Lemma visit_loop_columns fuel rows : ∀ l visited l' n, visit_loop fuel rows l visited = Ok (l', n) → map node_columns l' = map node_columns l.
Proof.
  induction fuel as [|fuel IH]; intros l visited l' n; cbn [visit_loop]; destruct (ready_batch l) as [|x batch] eqn:E; try done.
  - by intros [<- _]%Ok_eq%pair_eq.
  - by intros [<- _]%Ok_eq%pair_eq.
  - intros ->%IH. clear E. generalize (x :: batch). clear. intros k. revert l. induction k as [|i k IH]; intros l; [done|]. cbn. by rewrite IH, visit_columns.
Qed.

Lemma validate_keeps st st' : validate st = Ok st' → map node_columns (node_rows st') = map node_columns (node_rows st) ∧
  edge_rows st' = edge_rows st ∧ service_rows st' = service_rows st ∧ count st' = count st ∧ service_count st' = service_count st ∧
  ∀ e, e ∈ edge_rows st → edge_node e ∈ map row_identity (node_rows st).
Proof.
  unfold validate. intros Hv. apply check_bind in Hv as [Hall Hv]. cbv zeta in Hv. apply bind_Ok in Hv as ([l n] & Hl & Hv).
  apply bind_Ok in Hv as ([] & _ & <-%Ok_eq). cbn. split_and!; try done.
  - apply visit_loop_columns in Hl as ->. rewrite map_map. by apply map_ext.
  - intros e He%list_elem_of_In. rewrite forallb_forall in Hall. specialize (Hall e He).
    apply andb_true_iff in Hall as [_ Hin]. by apply str_in_spec in Hin.
Qed.

(** The graph of an accepted store. *)
Record valid_load (l : list (Node * option record)) (later : Later) (st : ExecutionStore) : Prop := {
  vl_nodes : map node_columns (node_rows st) = map stored_row l.*1;
  vl_edges : edge_rows st ≡ₚ edges_of (graph_of_load l later);
  vl_services : service_rows st = omap (fun e => (fun document => (identity e.1, JObj document)) <$> e.2) l;
  vl_count : count st = Z.of_nat (length l);
  vl_service_count : service_count st = Z.of_nat (length (service_rows st));
  vl_names : NoDup (map identity l.*1);
  vl_unique : ∀ n, n ∈ graph_of_load l later → NoDup (dependencies n);
  vl_resolved : ∀ n d, n ∈ graph_of_load l later → d ∈ dependencies n → node d ∈ map identity l.*1;
  vl_acyclic : acyclic (graph_of_load l later) = true;
}.

Lemma unique_dependencies k n : NoDup (edges_of k) → n ∈ k → NoDup (dependencies n).
Proof.
  intros Hnd Hn. apply list_elem_of_split in Hn as (k1 & k2 & ->). unfold edges_of in Hnd.
  rewrite flat_map_app in Hnd. cbn in Hnd. apply NoDup_app in Hnd as (_ & _ & (Hnd & _ & _)%NoDup_app).
  by apply NoDup_fmap_1 in Hnd.
Qed.

Lemma loaded_valid l later st st' : loaded l later st → validate st = Ok st' → valid_load l later st'.
Proof.
  intros Hl Hv. pose proof (loaded_names _ _ _ Hl) as Hnames. destruct Hl as [Hn Hed Hs Hc Hsc Hnd Hu].
  destruct (validate_keeps _ _ Hv) as (Hn' & He' & Hs' & Hc' & Hsc' & Hres). rewrite Hnames in Hres.
  assert (Hkeys : ∀ x, x ∈ later → x.1 ∈ map identity l.*1).
  { intros x Hx. apply (Hres (later_edge x)). rewrite Hed. apply elem_of_app. right. apply list_elem_of_In, in_map. by apply list_elem_of_In. }
  assert (Hgraph : edge_rows st ≡ₚ edges_of (graph_of_load l later)).
  { unfold graph_of_load. by rewrite edges_of_grown. }
  assert (Hh : holds st (graph_of_load l later)).
  { split; [by rewrite Hnames, grown_names|done|]. unfold graph_of_load. by rewrite Hc, length_map, length_fmap. }
  destruct (proj1 (validate_accepts st (graph_of_load l later) Hh ltac:(by rewrite grown_names))) as [Hr Ha]; [by exists st'|].
  rewrite grown_names in Hr. split; rewrite ?Hn', ?He', ?Hs', ?Hc', ?Hsc'; try done.
  intros n Hin. eapply unique_dependencies; [|done]. by rewrite <-Hgraph.
Qed.


From S2P Require Import PipelineContract Pipeline PipelineEdges PipelineTheorems Adapter AdapterTheorems AdapterPipeline ExecutionIR.

(** ** The owner nodes of a projection and its edges

    The nodes that [project_pipeline] adds are barriers of a known operation
    with the phase of its container: [owner_nodes_fine].  Removals name works
    and calls only, so the entry edge of a node and the edges on barriers stay:
    [edges_keep]. *)

Section Owners.
Context `{Host}.
Hypothesis json_dumps_nonempty : ∀ j, json_dumps j ≠ "".

(** An owner node by itself. *)
Record owner_fine (n : Node) : Prop := {
  of_kind : kind n = BARRIER;
  of_identity : identity n ≠ "";
  of_operation : operation n ≠ "";
  of_phase : phase n ≠ "";
  of_order : order n = 0%Z;
  of_plain : service n = None ∧ resources n = [];
}.

Section Draft.
Context (proof : PipelineContract) (indexed results : list (string * record)).

Lemma fold_add_drafted {A} (target source : A → string) m l d :
  drafted (fold_left (fun d x => add_edge (target x) (source x) m d) l d) = drafted d.
Proof. revert d. induction l as [|x l IH]; intros d; cbn; [done|]. by rewrite IH. Qed.

Lemma slot_edges_drafted p s prior dq d : drafted (slot_edges p s prior dq d) = drafted d.
Proof. unfold slot_edges. by destruct prior, dq, (2 <=? s)%Z. Qed.

Lemma event_edges_drafted p s g r t i o cs d d' : event_edges p s g r t i o cs d = Ok d' → drafted d' = drafted d.
Proof.
  unfold event_edges. intros He. repeat case_match.
  - by apply bind_Ok in He as ([] & _ & <-%Ok_eq).
  - apply Ok_eq in He as <-. unfold add. by rewrite fold_add_drafted.
  - by apply Ok_eq in He as <-.
  - by apply Ok_eq in He as <-.
  - by apply Ok_eq in He as <-.
Qed.

Lemma project_owner_fine p parent s w op ph g d kv d' : op ≠ "" → ph ≠ "" → Forall owner_fine (drafted d) →
  project_owner indexed results p parent s w op ph g d kv = Ok d' → Forall owner_fine (drafted d').
Proof.
  intros Hop Hph Hd Hp. unfold project_owner in Hp. do 5 (apply bind_Ok in Hp as (? & _ & Hp)).
  do 2 (apply bind_Ok in Hp as ([] & _ & Hp)). apply bind_Ok in Hp as (d1 & Hd1 & Hp).
  apply bind_Ok in Hp as (d2 & He & <-%Ok_eq). apply event_edges_drafted in He. unfold add in He. rewrite fold_add_drafted in He.
  assert (E1 : drafted d1 = drafted d).
  { destruct (event_in _ _); apply bind_Ok in Hd1 as ([] & _ & <-%Ok_eq); [apply fold_add_drafted|done]. }
  unfold draft_node. cbn [drafted]. rewrite He, E1. apply Forall_app. split; [done|]. by repeat constructor.
Qed.

Lemma project_stripe_fine p parent fence c e c' : Forall owner_fine (drafted (draft c)) →
  project_stripe proof indexed results p parent fence c e = Ok c' → Forall owner_fine (drafted (draft c')).
Proof using json_dumps_nonempty.
  intros Hc Hp. unfold project_stripe in Hp. do 4 (apply bind_Ok in Hp as (? & _ & Hp)).
  apply bind_Ok in Hp as (op & [_ Hop]%text_Ok & Hp). do 6 (apply bind_Ok in Hp as (? & _ & Hp)). cbv zeta in Hp.
  do 3 (apply bind_Ok in Hp as (? & _ & Hp)). apply bind_Ok in Hp as (d & Hd & <-%Ok_eq).
  unfold add. cbn [draft drafted add_edge]. revert Hd. apply (fold_res_inv (fun d => Forall owner_fine (drafted d))).
  - unfold work_edges. cbn [drafted add add_edge remove_edge]. by rewrite slot_edges_drafted.
  - intros kv d1 d2 _. by apply project_owner_fine.
Qed.

Lemma project_parent_fine d e d' : Forall owner_fine (drafted d) →
  project_parent proof indexed results d e = Ok d' → Forall owner_fine (drafted d').
Proof using json_dumps_nonempty.
  destruct e as [p parent]. intros Hd Hp. unfold project_parent in Hp. do 2 (apply bind_Ok in Hp as (? & _ & Hp)).
  apply bind_Ok in Hp as (c & Hc & Hp). apply bind_Ok in Hp as (? & _ & Hp). cbv zeta in Hp.
  apply bind_Ok in Hp as ([] & _ & <-%Ok_eq). rewrite fold_add_drafted. revert Hc.
  apply (fold_res_inv (fun c => Forall owner_fine (drafted (draft c)))); [done|].
  intros e c1 c2 _. apply project_stripe_fine.
Qed.
End Draft.

Lemma complete_nodes_fine l additions0 completed rest : Forall owner_fine l →
  fold_left complete_node l ([], additions0) = (completed, rest) → Forall owner_fine completed.
Proof.
  revert completed rest. induction l as [|m l IH] using rev_ind; intros completed rest; [by intros _ [<- _]%pair_eq|].
  rewrite fold_left_app, Forall_app. intros [Hl Hm%Forall_inv]. destruct (fold_left complete_node l _) as [nodes1 rest1]. cbn [fold_left].
  unfold complete_node. cbn [fst snd]. intros [<- _]%pair_eq. apply Forall_app. split; [by eapply IH|].
  destruct Hm. by repeat constructor.
Qed.

Lemma owner_nodes_fine contract ix rs q : project_pipeline contract ix rs = Ok q → Forall owner_fine (owner_nodes q).
Proof using json_dumps_nonempty.
  unfold project_pipeline. intros Hp. apply bind_Ok in Hp as (proof & _ & Hp). apply bind_Ok in Hp as (d & Hd & Hp).
  destruct (fold_left complete_node _ _) as [completed rest] eqn:Hc. apply Ok_eq in Hp as <-. cbn [owner_nodes].
  apply (complete_nodes_fine _ _ _ _) in Hc; [done|]. revert Hd. apply (fold_res_inv (fun d => Forall owner_fine (drafted d))); [by constructor|].
  intros e d1 d2 _. apply project_parent_fine.
Qed.
End Owners.

(** ** Edges that stay *)

(** An edge is kept that is on no work, unless the target is a publication,
    and on no invocation. *)
Lemma edges_keep `{Host} contract ix rs q t e original : project_pipeline contract ix rs = Ok q → e ∈ original →
  (∀ w call, t = call_id call "PUBLISH" → node e ≠ npu_id w) → (∀ w call, t = npu_id w → node e ≠ call_id call "INVOKE") →
  e ∈ Pipeline.edges q t original.
Proof.
  intros Hq He Hw Hc. unfold Pipeline.edges. apply elem_of_fromkeys, elem_of_app. left.
  apply list_elem_of_filter. split; [|done]. apply not_true_iff_false. rewrite str_in_spec. intros Hin.
  destruct (sget t (removals q)) as [sources|] eqn:E; [|by apply not_elem_of_nil in Hin]. cbn in Hin.
  destruct (project_pipeline_removals _ _ _ _ Hq _ _ _ E Hin) as [(w & call & -> & Hs)|(w & call & -> & Hs)].
  - by apply (Hw w call eq_refl) in Hs.
  - by apply (Hc w call eq_refl) in Hs.
Qed.

Lemma npu_not_entry o w : o +:+ ":enter" ≠ npu_id w.
Proof.
  intros E%(f_equal last_char). unfold npu_id in E. rewrite !last_char_tail in E by (done || apply dec_nonempty).
  by pose proof (last_char_all _ _ "r"%char (dec_decimal w) (eq_sym E)).
Qed.
Lemma call_not_entry o call : o +:+ ":enter" ≠ call_id call "INVOKE".
Proof. unfold call_id. intros E%(f_equal last_char). rewrite !last_char_tail in E by (done || by destruct (dec call)). done. Qed.



From S2P Require Import Application ApplicationTheorems StreamAdapter ExecutionIR.
Open Scope Z_scope.

(** ** The document of one service *)

Section Documents.
Context `{Host}.

Lemma workers_named src pol metric raw ws : map_res (worker_service src pol metric) raw = Ok ws → "" ∉ map resource ws.
Proof.
  destruct metric as [[m v] u]. intros Hw%map_res_Ok. induction Hw as [|x w raw ws Hx _ IH]; cbn; [by apply not_elem_of_nil|].
  apply worker_service_inv in Hx as (sample & q & f & d & wk & id & rs & ck & [_ _ _ _ _ _ _ _ Hrs] & _ & ->).
  apply text_Ok in Hrs as [_ Hrs]. cbn. rewrite not_elem_of_cons. by split.
Qed.

Lemma cpu_service_named r c : cpu_service r = Ok c → "" ∉ map resource (workers c).
Proof.
  unfold cpu_service. intros Hc. do 3 (apply bind_Ok in Hc as (? & _ & Hc)). destruct (policy_metric _) as [metric|]; [|done].
  do 2 (apply bind_Ok in Hc as (? & _ & Hc)). apply bind_Ok in Hc as (ws & Hws & Hc). unfold cpu_service_of in Hc.
  do 4 (apply bind_Ok in Hc as ([] & _ & Hc)). apply Ok_eq in Hc as <-. by eapply workers_named.
Qed.

Lemma cpu_service_distinct c : cpu_service_of (cpu_source c) (policy c) (workers c) = Ok c →
  NoDup (map resource (workers c)) ∧ workers c ≠ [].
Proof.
  unfold cpu_service_of. intros Hc. apply check_bind in Hc as [_ Hc]. apply check_bind in Hc as [Hne Hc].
  apply check_bind in Hc as [Hd _]. apply distinct_str in Hd. split; [done|]. by destruct (workers c).
Qed.

(** A CPU service written alone reads back as a service with the same timing. *)
Lemma cpu_document key r0 c : cpu_service r0 = Ok c → ∃ r c', services_record {| cpu := [(key, c)]; npu := [] |} = Ok r ∧
  parse_services r = Ok {| cpu := [(key, c')]; npu := [] |} ∧ cpu_source c' = cpu_source c ∧
  cpu_service_of (cpu_source c') (policy c') (workers c') = Ok c' ∧ map timing (workers c') = map timing (workers c).
Proof.
  intros Hc. destruct (cpu_service_roundtrip _ _ Hc) as (row & c' & Hrec & Hc' & Hsrc & _ & Ht).
  eexists. exists c'. unfold services_record. cbn [cpu npu map_res]. rewrite Hrec. cbn [mbind res_bind map].
  split; [reflexivity|]. split; [|split; [done|]; split; [by apply cpu_service_Ok in Hc' as [_ ?]|done]].
  unfold parse_services. rewrite (proj2 (fields_Ok _ _ tt)) by done. cbn [mbind res_bind item sget aget String.eqb Ascii.eqb Bool.eqb].
  rewrite (proj2 (require_m_Ok _ _ tt)) by done. cbn [mbind res_bind object_value map_res]. unfold cpu_entry. cbn [snd fst object_value mbind res_bind].
  rewrite Hc'. done.
Qed.

Lemma npu_document w : request_sha256 w ≠ "" → profile w ≠ "" → ∃ r,
  services_record {| cpu := []; npu := [(work_identity w, w)] |} = Ok r ∧
  parse_services r = Ok {| cpu := []; npu := [(work_identity w, w)] |}.
Proof.
  intros Hq Hp. eexists. split; [reflexivity|]. unfold parse_services. rewrite (proj2 (fields_Ok _ _ tt)) by done.
  cbn [mbind res_bind item sget aget String.eqb Ascii.eqb Bool.eqb]. rewrite (proj2 (require_m_Ok _ _ tt)) by done.
  cbn [mbind res_bind object_value map_res map npu]. unfold npu_work. cbn [snd fst object_value mbind res_bind].
  rewrite (proj2 (fields_Ok _ _ tt)) by done. cbn [mbind res_bind].
  repeat (erewrite ExecutionIR.text_value; [|reflexivity|done]; cbn [mbind res_bind]). by destruct w.
Qed.

(** ** Entries *)

Inductive entry_served (n : Node) (document : option record) : Prop :=
  | entry_plain : is_service_kind (kind n) = false → service n = None → resources n = [] → document = None → entry_served n document
  | entry_cpu r c : is_cpu (kind n) = true → service n = Some (identity n) → resources n = map resource (workers c) →
      cpu_service_of (cpu_source c) (policy c) (workers c) = Ok c → (kind n = APPLICATION_CPU → cpu_source c = "APPLICATION_CPU") →
      document = Some r → parse_services r = Ok {| cpu := [(identity n, c)]; npu := [] |} → entry_served n document
  | entry_npu r w : kind n = NPU → service n = Some (identity n) → resources n = ["npu:0"] →
      document = Some r → parse_services r = Ok {| cpu := []; npu := [(identity n, w)] |} → entry_served n document.

Definition entry_fine (e : Node * option record) : Prop := named e.1 ∧ entry_served e.1 e.2.

Lemma app_nonempty s t : t ≠ "" → s +:+ t ≠ "".
Proof. by destruct s. Qed.

Lemma barrier_fine k identity operation phase dependencies : is_service_kind k = false →
  identity ≠ "" → operation ≠ "" → phase ≠ "" → entry_fine (barrier_node k identity operation phase dependencies, None).
Proof.
  intros Hk Hi Ho Hp. split.
  - split; cbn; try done. by apply not_elem_of_nil.
  - by apply entry_plain.
Qed.

(** Later edges do not matter. *)
Lemma entry_served_ext n m document : identity n = identity m → kind n = kind m → service n = service m → resources n = resources m →
  entry_served n document → entry_served m document.
Proof.
  intros Hi Hk Hs Hr [? ? ? ?|r c ? ? ? ? ? ? ?|r w ? ? ? ? ?].
  - by apply entry_plain; rewrite <-?Hk, <-?Hs, <-?Hr.
  - by apply (entry_cpu _ _ r c); rewrite <-?Hk, <-?Hs, <-?Hr, <-?Hi.
  - by apply (entry_npu _ _ r w); rewrite <-?Hk, <-?Hs, <-?Hr, <-?Hi.
Qed.

Lemma timing_resources c c' : map timing (workers c') = map timing (workers c) → map resource (workers c') = map resource (workers c).
Proof. apply resources_timing. Qed.

(** ** The rows *)

Context (dumps : json → string).
Hypothesis dumps_nonempty : ∀ j, dumps j ≠ "".

Lemma dumped_nonempty row phase : dumped_phase dumps row = Ok phase → phase ≠ "".
Proof using dumps_nonempty. unfold dumped_phase. intros Hp. apply bind_Ok in Hp as (? & _ & <-%Ok_eq). apply dumps_nonempty. Qed.

(** The works of the results, and how many there can be. *)
Record certified_ok (c : Certified) : Prop := {
  co_ids : ∃ ids, (works c).*1 = map npu_id ids ∧ NoDup ids ∧ Forall (fun z => 0 <= z < uint64_limit) ids;
  co_work : ∀ k w, (k, w) ∈ works c → work_identity w = k ∧ request_sha256 w ≠ "" ∧ profile w ≠ "";
}.

Lemma npu_id_inj a b : npu_id a = npu_id b → a = b.
Proof. unfold npu_id. intros E. apply dec_inj. by injection E. Qed.

Lemma add_certified_ok admission v2 c row c' : add_certified admission v2 c row = Ok c' → certified_ok c → certified_ok c'.
Proof.
  unfold add_certified. intros Ha [(ids & Hk & Hnd & Hb) Hw]. apply bind_Ok in Ha as ([] & _ & Ha). apply check_bind in Ha as [_ Ha].
  apply bind_Ok in Ha as (work & [_ Hwork]%integer_Ok & Ha). apply bind_Ok in Ha as (call & _ & Ha). cbv zeta in Ha.
  apply check_bind in Ha as [[Hf%negb_true_iff _]%andb_true_iff Ha]. apply bind_Ok in Ha as (q & [_ Hq]%text_Ok & Ha).
  apply bind_Ok in Ha as (p & [_ Hp]%text_Ok & <-%Ok_eq). pose proof (smem_false _ _ Hf) as Hfresh. rewrite Hk in Hfresh.
  split; cbn [works]; rewrite (sset_fresh_app _ _ _ Hf).
  - exists (ids ++ [work]). rewrite fmap_app, Hk, List.map_app. split; [done|]. split.
    + apply NoDup_snoc; [done|]. intros Hin. apply Hfresh. apply list_elem_of_In, in_map. by apply list_elem_of_In.
    + rewrite Forall_app, Forall_singleton. done.
  - intros k w [Hin|[= -> ->]%list_elem_of_singleton]%elem_of_app; [by apply Hw|done].
Qed.

Lemma bounded_length (l : list Z) N : 0 <= N → NoDup l → Forall (fun z => 0 <= z < N) l → Z.of_nat (length l) <= N.
Proof.
  intros HN Hnd Hl. assert (Hsub : l ⊆+ seqZ 0 N).
  { apply NoDup_submseteq; [done|]. intros z Hz. rewrite Forall_forall in Hl. apply elem_of_seqZ. specialize (Hl z Hz). lia. }
  apply submseteq_length in Hsub. rewrite length_seqZ in Hsub. lia.
Qed.

(** What [read_inputs] returned. *)
Record inputs_ok (files : StreamFiles) (s : Streamed) : Prop := {
  io_lifecycle : lifecycle s = stream_lifecycle files;
  io_certified : certified_ok (certified s);
  io_order : NoDup (order_of s);
  io_works : ∀ k, k ∈ (works (certified s)).*1 ↔ k ∈ order_of s;
  io_operations : NoDup (containers_of s).*1 ∧ Forall (fun o => o ≠ "") (containers_of s).*1;
  io_nonempty : containers_of s ≠ [];
  io_scope : in_strs (pget (lifecycle s) "source_kind") ["SYNTHETIC"; "PRODUCER_DECLARED"] = true;
  io_submission : ∃ listed, pget (lifecycle s) "submission_order" = JArr listed ∧ map_res Adapter.text_value listed = Ok (order_of s);
  io_entries : pget (lifecycle s) "entry_dependencies" = JObj (entry_of s);
  io_containers : ∀ row, row ∈ stream_dataset files → is_container row = true → ∃ o, pget row "node_id" = JStr o ∧ (o, row) ∈ containers_of s;
  io_projection : ∀ q, projection s = Some q → ∃ indexed results, project_pipeline (lifecycle s) indexed results = Ok q;
}.

Lemma order_bound files s i k : inputs_ok files s → index_of k (order_of s) = Some i → Z.of_nat i < uint64_limit.
Proof.
  intros [_ [(ids & Hk & Hnd & Hb) _] Ho Hw _ _ _ _ _ _ _] Hi.
  assert (Hlen : length (order_of s) = length ids).
  { rewrite <-(length_map npu_id ids), <-Hk. apply Permutation_length, NoDup_Permutation; [done| |by intros x; rewrite Hw].
    rewrite Hk. apply NoDup_fmap_2; [|done]. intros a b. apply npu_id_inj. }
  assert (Hlt : (i < length (order_of s))%nat).
  { clear -Hi. revert i Hi. induction (order_of s) as [|x l IH]; intros i; cbn; [done|]. destruct (String.eqb x k); [intros [= <-]; lia|].
    destruct (index_of k l) as [j|]; [|done]. intros [= <-]. specialize (IH j eq_refl). lia. }
  pose proof (bounded_length ids uint64_limit ltac:(done) Hnd Hb). lia.
Qed.
End Documents.

(** ** The nodes of the application by themselves

    What [project_application] makes of every record is a node that is well
    formed by itself ([named]), under its own name, with a service that was
    read from a record; [write_service] writes it as an [entry_fine] entry. *)


From S2P Require Import ExecutionIR.
Open Scope Z_scope.

Section Application.
Context `{Host}.

Record application_fine (p : ApplicationProjection) : Prop := {
  af_names : NoDup (app_nodes p).*1;
  af_nodes : ∀ k n, (k, n) ∈ app_nodes p → identity n = k ∧ named n ∧ (service n = None → resources n = []);
  af_read : ∀ k c, (k, c) ∈ app_services p → ∃ r0, cpu_service r0 = Ok c;
}.

Lemma application_fine_empty : application_fine {| app_nodes := []; app_services := []; entry_edges := [] |}.
Proof. split; cbn; [constructor| |]; by intros ? ? ?%not_elem_of_nil. Qed.

Lemma application_fine_add p n : application_fine p → named n → (service n = None → resources n = []) →
  ∀ services entries, (∀ k c, (k, c) ∈ services → ∃ r0, cpu_service r0 = Ok c) →
  application_fine {| app_nodes := sset (identity n) n (app_nodes p); app_services := services; entry_edges := entries |}.
Proof.
  intros [Hd Hn _] Hname Hres services entries Hs. split; cbn [app_nodes app_services]; [by apply (aset_NoDup _ String.eqb_eq)| |done].
  intros k m [[= -> ->]|Hin]%(elem_of_aset _ String.eqb_eq); [done|by apply Hn].
Qed.

Lemma services_read p k c r0 : application_fine p → cpu_service r0 = Ok c →
  ∀ k' c', (k', c') ∈ sset k c (app_services p) → ∃ r, cpu_service r = Ok c'.
Proof. intros Hf Hc k' c' [[= -> ->]|Hin]%(elem_of_aset _ String.eqb_eq); [by exists r0|by apply (af_read _ Hf) in Hin]. Qed.

Lemma dispatch_bounds step dispatch : integer step "dispatch_id" = Ok dispatch → 0 <= dispatch < uint64_limit.
Proof. by intros [_ ?]%integer_Ok. Qed.

Lemma prefix_nonempty s t : s ≠ "" → s +:+ t ≠ "".
Proof. by destruct s. Qed.

Lemma prefill_batch_fine available pol worker l e l' : worker ≠ "" →
  application_fine (prefilled l) → previous l ≠ "" → prefill_batch available pol worker l e = Ok l' →
  application_fine (prefilled l') ∧ previous l' ≠ "".
Proof.
  destruct e as [position [row step]]. intros Hworker Hf Hprev Hl. unfold prefill_batch in Hl. apply bind_Ok in Hl as ([] & _ & Hl).
  apply bind_Ok in Hl as (dispatch & Hdispatch%dispatch_bounds & Hl). do 2 (apply bind_Ok in Hl as ([] & _ & Hl)). cbv zeta in Hl.
  apply bind_Ok in Hl as ([] & _ & Hl). apply bind_Ok in Hl as (c & Hc & <-%Ok_eq). cbn [prefilled previous]. split; [|done].
  match goal with |- application_fine {| app_nodes := sset ?k ?n _; app_services := _; entry_edges := _ |} =>
    apply (application_fine_add (prefilled l) n Hf) end; [|done|by eapply services_read].
  split; cbn; try done. intros E%list_elem_of_singleton. by subst worker.
Qed.

Lemma sample_step_fine available prefill count pol worker l e l' : worker ≠ "" →
  application_fine (sampled l) → sample_step available prefill count pol worker l e = Ok l' → application_fine (sampled l').
Proof.
  destruct e as [position [row step]]. intros Hworker Hf Hl. unfold sample_step in Hl. cbv zeta in Hl.
  apply bind_Ok in Hl as ([] & _ & Hl). apply bind_Ok in Hl as ([] & Hidx & Hl). apply bind_Ok in Hl as ([] & _ & Hl).
  apply bind_Ok in Hl as (thread & _ & Hl).
  do 3 (apply bind_Ok in Hl as ([] & _ & Hl)). do 3 (apply bind_Ok in Hl as (? & _ & Hl)).
  do 3 (apply bind_Ok in Hl as ([] & _ & Hl)).
  apply bind_Ok in Hl as (c & Hc & Hl). apply bind_Ok in Hl as (phase & [_ Hphase]%text_Ok & Hl). do 4 (apply bind_Ok in Hl as (? & _ & Hl)).
  do 2 (apply bind_Ok in Hl as ([] & _ & Hl)). apply bind_Ok in Hl as (edges' & _ & <-%Ok_eq). cbn [sampled].
  assert (Hb : 0 <= Z.of_nat position < uint64_limit).
  { apply require_m_Ok, int_test_Ok in Hidx as (z & [_ Hz]%integer_Ok & ->%Z.eqb_eq). done. }
  match goal with |- application_fine {| app_nodes := sset ?t ?tn (sset ?s ?sn _); app_services := ?sv; entry_edges := _ |} =>
    pose proof (application_fine_add (sampled l) sn Hf) as Hadd; set (tok := tn) in *; set (smp := sn) in *; set (svs := sv) in * end.
  assert (Hsvs : ∀ k' c', (k', c') ∈ svs → ∃ r, cpu_service r = Ok c') by (subst svs; by eapply services_read).
  assert (Hsmp : named smp).
  { split; cbn; try done; [by apply prefix_nonempty|]. intros E%list_elem_of_singleton. by subst worker. }
  assert (Htok : named tok) by (split; cbn; try done; [by apply prefix_nonempty|by apply not_elem_of_nil]).
  specialize (Hadd Hsmp ltac:(done) svs edges' Hsvs). by apply (application_fine_add _ tok Hadd Htok ltac:(done) svs edges').
Qed.

Lemma project_application_fine available source p : project_application available source = Ok p → application_fine p.
Proof.
  unfold project_application. cbv zeta. intros Hp. apply bind_Ok in Hp as ([] & _ & Hp).
  apply bind_Ok in Hp as (? & _ & Hp). apply bind_Ok in Hp as ([] & _ & Hp). apply bind_Ok in Hp as (count & _ & Hp).
  apply bind_Ok in Hp as ([] & _ & Hp). do 3 (apply bind_Ok in Hp as (? & _ & Hp)). apply bind_Ok in Hp as ([] & _ & Hp).
  apply bind_Ok in Hp as (worker & [_ Hworker]%text_Ok & Hp). apply bind_Ok in Hp as (base & Hbase & Hp).
  apply bind_Ok in Hp as (metric & _ & Hp). apply bind_Ok in Hp as (l & Hl & <-%Ok_eq).
  assert (Hb : application_fine base).
  { destruct (has _ _).
    - unfold project_prefill in Hbase. cbv zeta in Hbase. do 3 (apply bind_Ok in Hbase as (? & _ & Hbase)).
      do 2 (apply bind_Ok in Hbase as ([] & _ & Hbase)). apply bind_Ok in Hbase as (pol & _ & Hbase).
      apply bind_Ok in Hbase as (l0 & Hl0 & <-%Ok_eq). apply (fold_res_inv (fun l => application_fine (prefilled l) ∧ previous l ≠ "")) in Hl0;
        [by destruct Hl0|split; [apply application_fine_empty|done]|].
      intros e l1 l2 _ [H1 H2] H3. exact (prefill_batch_fine _ _ _ _ _ _ Hworker H1 H2 H3).
    - apply bind_Ok in Hbase as ([] & _ & <-%Ok_eq). apply application_fine_empty. }
  revert Hl. apply (fold_res_inv (fun l => application_fine (sampled l))); [done|].
  intros e l1 l2 _ H1 H2. exact (sample_step_fine _ _ _ _ _ _ _ _ Hworker H1 H2).
Qed.

(** ** Writing the services *)

Lemma write_service_ok p k n st st' l later : application_ok p → application_fine p → (k, n) ∈ app_nodes p →
  write_service (app_services p) st n = Ok st' → loaded l later st →
  ∃ document, loaded (l ++ [(n, document)]) later st' ∧ entry_fine (n, document).
Proof.
  intros Hok [Hnd Hn Hread] Hin Hw Hl. destruct (Hn _ _ Hin) as (<- & Hname & Hres).
  unfold write_service in Hw. apply bind_Ok in Hw as (document & Hd & Ha). exists document.
  split; [by apply (add_loaded _ _ _ _ _ _ Ha)|]. split; [done|]. cbn [fst snd].
  destruct (ao_nodes _ Hok _ _ Hin) as [c Hk Hs Hget Hr Hsrc|Hk Hs].
  - rewrite Hget in Hd. apply bind_Ok in Hd as (r & Hrec & <-%Ok_eq).
    destruct (Hread (identity n) c) as (r0 & Hr0); [by apply elem_sget|].
    destruct (cpu_document (identity n) _ _ Hr0) as (r' & c' & Hrec' & Hparse & Hsrc' & Hv & Ht). assert (r' = r) as -> by congruence.
    apply (entry_cpu _ _ r c'); try done; [by rewrite Hk|by rewrite Hr, (timing_resources _ _ Ht)|by rewrite Hsrc', Hsrc].
  - assert (Hnone : sget (identity n) (app_services p) = None).
    { destruct (sget (identity n) (app_services p)) as [c|] eqn:E; [|done]. exfalso.
      destruct (ao_services _ Hok (identity n)) as (m & Hm & Hkm & _); [by apply elem_sget, (list_elem_of_fmap_2 fst) in E|].
      apply (sget_elem _ _ _ Hnd) in Hm, Hin. congruence. }
    rewrite Hnone in Hd. apply Ok_eq in Hd as <-. apply entry_plain; try done; [by rewrite Hk|by apply Hres].
Qed.
End Application.
