(* ===== verification/StreamWrites.v ===== *)
(** * What each write of the streamed adaptation adds

    The node of a row with its service document ([row_written]), the entry and
    exit of an operation ([operation_written]), a barrier, and the nodes of the
    application: every one is [entry_fine]. *)
From S2P Require Import Prelude Records Rational Services Scheduler SchedulerTheorems SqliteGraph SqliteGraphTheorems ExecutionStoreTheorems.
From S2P Require Import PipelineContract Pipeline PipelineEdges PipelineTheorems Adapter AdapterTheorems AdapterPipeline.
From S2P Require Import TraceIntegrity Application ApplicationTheorems ExecutionStore StreamAdapter StreamEntries ExecutionIR.
Set Default Goal Selector "!".
Open Scope Z_scope.

Section Writes.
Context `{Host} (dumps : json → string).
Hypothesis dumps_nonempty : ∀ j, dumps j ≠ "".
Hypothesis json_dumps_nonempty : ∀ j, json_dumps j ≠ "".
Context (files : StreamFiles) (s : Streamed) (Hin : inputs_ok files s).

Definition operations_of : list string := (containers_of s).*1.

(** ** The node of a row *)

(** What the kind of a row decides. *)
Record decided (identity : string) (edges : list Dependency) (r : StreamNode) : Prop := {
  dc_edges : ∀ e, e ∈ edges → e ∈ sn_edges r;
  dc_order : 0 <= sn_order r < uint64_limit;
  dc_named : sn_service r ≠ Some "" ∧ "" ∉ sn_claims r;
  dc_served : ∀ operation phase, entry_served (node_of s identity operation phase r) (sn_document r);
  dc_accepted : sn_kind r = NPU → ∃ position, index_of identity (order_of s) = Some position ∧
    ∀ before, position = S before → {| node := nth before (order_of s) ""; milestone := ACCEPTED |} ∈ sn_edges r;
}.

Lemma structural_decided identity kind edges : is_service_kind kind = false → decided identity edges (structural_node kind edges).
Proof.
  intros Hk. split; cbn; try done.
  - split; [done|apply not_elem_of_nil].
  - intros operation phase. by apply entry_plain.
  - by intros ->.
Qed.

Lemma stream_cpu_decided identity row ordinary edges r : identity ≠ "" →
  stream_cpu s identity row ordinary edges = Ok r → decided identity edges r ∧ sn_kind r = CPU.
Proof using.
  intros Hid Hr. unfold stream_cpu in Hr. do 5 (apply bind_Ok in Hr as (? & _ & Hr)). apply bind_Ok in Hr as (bound & _ & Hr).
  apply bind_Ok in Hr as (pol & _ & Hr). apply bind_Ok in Hr as (c & Hc & Hr). apply bind_Ok in Hr as (document & Hd & <-%Ok_eq).
  split; [|done]. split; cbn [sn_edges sn_order sn_service sn_claims sn_kind sn_document]; try done.
  - split; [congruence|by eapply cpu_service_named].
  - intros operation phase. destruct (cpu_document identity _ _ Hc) as (r & c' & Hrec & Hparse & _ & Hv & Ht).
    assert (r = document) as -> by congruence.
    eapply (entry_cpu _ _ document c'); try done. cbn. symmetry. by apply timing_resources.
Qed.

Lemma stream_target_decided identity edges r : identity ≠ "" →
  stream_target s identity edges = Ok r → decided identity edges r ∧ sn_kind r = NPU.
Proof using Hin.
  intros Hid Hr. unfold stream_target in Hr. destruct (sget identity (works (certified s))) as [w|] eqn:Hw; [|done].
  destruct (index_of identity (order_of s)) as [position|] eqn:Hp; [|done]. apply bind_Ok in Hr as (document & Hd & <-%Ok_eq).
  split; [|done]. destruct (co_work _ (io_certified _ _ Hin) identity w) as (Hwid & Hq & Hpr); [by apply elem_sget|].
  split; cbn [sn_edges sn_order sn_service sn_claims sn_kind sn_document].
  - intros e He. destruct position; [done|]. apply elem_of_app. by left.
  - split; [lia|]. by eapply order_bound.
  - split; [congruence|]. by intros Hx%list_elem_of_singleton.
  - intros operation phase. destruct (npu_document w Hq Hpr) as (r & Hrec & Hparse). rewrite Hwid in Hrec, Hparse.
    assert (r = document) as -> by congruence. by apply (entry_npu _ _ document w).
  - intros _. exists position. split; [done|]. intros before ->. apply elem_of_app. right. by apply list_elem_of_singleton.
Qed.

Lemma stream_service_decided identity row edges r : identity ≠ "" →
  stream_service s identity row edges = Ok r → decided identity edges r ∧
  (eq_str (pget row "node_class") "TARGET_NPU" = true ↔ sn_kind r = NPU) ∧ ∃ class, pget row "node_class" = JStr class.
Proof using Hin.
  intros Hid Hr. unfold stream_service in Hr. apply bind_Ok in Hr as (class & Hclass%pget_item & Hr). rewrite Hclass.
  destruct (eq_str class "ORDINARY_CPU") eqn:E1.
  { apply stream_cpu_decided in Hr as [? Hk]; [|done]. apply eq_str_spec in E1 as ->. rewrite Hk. by split_and!; [|split|eexists]. }
  destruct (eq_str class "POTAL_HOST") eqn:E2.
  { apply stream_cpu_decided in Hr as [? Hk]; [|done]. apply eq_str_spec in E2 as ->. rewrite Hk. by split_and!; [|split|eexists]. }
  destruct (eq_str class "TARGET_NPU") eqn:E3.
  { apply stream_target_decided in Hr as [? Hk]; [|done]. apply eq_str_spec in E3 as ->. by split_and!; [|split|eexists]. }
  unfold in_strs in Hr. cbn [existsb] in Hr.
  destruct (eq_str class "FUNCTIONAL_EMULATION") eqn:E4.
  { apply eq_str_spec in E4 as ->. apply Ok_eq in Hr as <-. split_and!; [by apply structural_decided|done|by eexists]. }
  destruct (eq_str class "WAIT") eqn:E5.
  { apply eq_str_spec in E5 as ->. apply Ok_eq in Hr as <-. split_and!; [by apply structural_decided|done|by eexists]. }
  destruct (eq_str class "EXCLUDED") eqn:E6; [|done].
  apply eq_str_spec in E6 as ->. apply Ok_eq in Hr as <-. split_and!; [by apply structural_decided|done|by eexists].
Qed.

(** How a row is counted. *)
Definition row_class (row : record) : string :=
  if is_kind row "SERVICE" then py_str (pget row "node_class") else "STRUCTURAL".

Lemma stream_node_decided identity row edges r : identity ≠ "" →
  stream_node s identity row (pget row "kind") edges = Ok r → decided identity edges r ∧
  (is_target row = true ↔ sn_kind r = NPU) ∧ (row_class row = "TARGET_NPU" ↔ is_target row = true).
Proof using Hin.
  intros Hid Hr. unfold stream_node in Hr. unfold is_target, row_class, is_kind.
  destruct (eq_str (pget row "kind") "CALL_BOUNDARY") eqn:E1.
  - apply eq_str_spec in E1. rewrite E1 in *. change (eq_str (JStr "CALL_BOUNDARY") "SERVICE") with false. rewrite andb_false_r.
    unfold stream_call in Hr. apply bind_Ok in Hr as ([] & _ & <-%Ok_eq). split; [|by destruct (eq_str (pget row "stage") "PUBLISH")].
    apply structural_decided. by destruct (eq_str (pget row "stage") "PUBLISH").
  - destruct (eq_str (pget row "kind") "SERVICE") eqn:E2; [|done]. rewrite andb_true_r.
    apply stream_service_decided in Hr as (? & Hk & class & Hc); [|done]. split; [done|]. split; [done|].
    rewrite Hc. cbn [py_str]. rewrite eq_str_spec. split; [by intros ->|by intros [= ->]].
Qed.

Lemma decided_fine identity operation phase edges r : decided identity edges r → identity ≠ "" → operation ≠ "" → phase ≠ "" →
  entry_fine (node_of s identity operation phase r, sn_document r).
Proof.
  intros [_ Ho [Hs Hc] Hserved _] Hid Hop Hph. split; [|apply Hserved]. by split.
Qed.
(** An edge on [t] that no projection removes. *)
Definition kept (t : string) (e : Dependency) : Prop := projection s ≠ None →
  (∀ w call, t = call_id call "PUBLISH" → node e ≠ npu_id w) ∧ (∀ w call, t = npu_id w → node e ≠ call_id call "INVOKE").

Lemma node_of_edges identity operation phase r e : e ∈ sn_edges r → kept identity e →
  e ∈ dependencies (node_of s identity operation phase r).
Proof using Hin.
  intros He Hk. unfold node_of. cbn [dependencies]. destruct (projection s) as [q|] eqn:Eq; [|done].
  destruct (io_projection _ _ Hin q Eq) as (indexed & results & Hq). destruct Hk as [H1 H2]; [by rewrite Eq|]. by eapply edges_keep.
Qed.

Lemma entry_kept t o : kept t (result_edge (o +:+ ":enter")).
Proof. intros _. split; [intros w call _; apply npu_not_entry|intros w call _; apply call_not_entry]. Qed.

(** ** The rows *)

Definition acceptance (identity : string) (edges : list Dependency) : Prop :=
  ∃ position, index_of identity (order_of s) = Some position ∧
    ∀ before, position = S before → {| node := nth before (order_of s) ""; milestone := ACCEPTED |} ∈ edges.

(** The node [e.1] of a row and its document [e.2]. *)
Record row_written (row : record) (e : Node * option record) : Prop := {
  rw_fine : entry_fine e;
  rw_identity : pget row "node_id" = JStr (identity e.1);
  rw_operation : pget row "operation_node_id" = JStr (operation e.1) ∧ operation e.1 ∈ operations_of;
  rw_entered : result_edge (operation e.1 +:+ ":enter") ∈ dependencies e.1;
  rw_waits : ∃ values, pget row "dependencies" = JArr values ∧ ∀ u, JStr u ∈ values →
    kept (identity e.1) (edge_to (containers_of s) u) → edge_to (containers_of s) u ∈ dependencies e.1;
  rw_target : is_target row = true ↔ kind e.1 = NPU;
  rw_accepted : kind e.1 = NPU → acceptance (identity e.1) (dependencies e.1);
}.

(** The edge that makes the exit of an operation wait for a member. *)
Definition member (n : Node) : string * Dependency := (operation n +:+ ":exit", result_edge (identity n)).

Lemma exit_waits_later k later st n st' : exit_waits st (operation n) (identity n) = Ok st' → loaded k later st →
  loaded k (later ++ [member n]) st'.
Proof. apply edges_later. Qed.

Lemma edges_of_values_elem values listed u : edges_of_values s values = Ok listed → JStr u ∈ values →
  edge_to (containers_of s) u ∈ listed.
Proof.
  intros Hl%map_res_Ok Hu. apply list_elem_of_lookup in Hu as [i Hi].
  destruct (Forall2_lookup_l _ _ _ _ _ Hl Hi) as (x & Hx%list_elem_of_lookup_2 & Hv). apply bind_Ok in Hv as (v & [[= <-] _]%text_Ok & <-%Ok_eq). done.
Qed.

Lemma npu_chain i : (i < length (order_of s))%nat → ∃ w, nth i (order_of s) "" = npu_id w.
Proof using Hin.
  intros Hi. assert (Hx : nth i (order_of s) "" ∈ order_of s) by (apply list_elem_of_In; by apply nth_In).
  apply (io_works _ _ Hin) in Hx. destruct (co_ids _ (io_certified _ _ Hin)) as (ids & E & _). rewrite E in Hx.
  apply list_elem_of_In, in_map_iff in Hx as (w & Hw & _). by exists w.
Qed.

Lemma index_of_lt k l i : index_of k l = Some i → (i < length l)%nat.
Proof.
  revert i. induction l as [|x l IH]; intros i; cbn; [done|]. destruct (String.eqb x k); [intros [= <-]; lia|].
  destruct (index_of k l) as [j|]; [|done]. intros [= <-]. specialize (IH j eq_refl). lia.
Qed.

Lemma npu_not_call w call stage : npu_id w ≠ call_id call stage.
Proof. discriminate. Qed.

Lemma accepted_kept k i before : index_of k (order_of s) = Some i → i = S before →
  kept k {| node := nth before (order_of s) ""; milestone := ACCEPTED |}.
Proof using Hin.
  intros Hi ->. apply index_of_lt in Hi as Hlt. destruct (npu_chain before) as [w Hw]; [lia|].
  intros _. cbn. rewrite Hw. split.
  - intros w' call ->. exfalso. apply index_of_elem, (io_works _ _ Hin) in Hi.
    destruct (co_ids _ (io_certified _ _ Hin)) as (ids & E & _). rewrite E in Hi.
    apply list_elem_of_In, in_map_iff in Hi as (w1 & Hw1 & _). by apply npu_not_call in Hw1.
  - intros w' call _. apply npu_not_call.
Qed.

Definition targets (l : Loading) : Z := default 0 (sget "TARGET_NPU" (counts l)).
Lemma bump_targets class l : default 0 (sget "TARGET_NPU" (bump class l)) =
  default 0 (sget "TARGET_NPU" l) + (if String.eqb "TARGET_NPU" class then 1 else 0).
Proof. unfold bump. rewrite sget_sset. destruct (String.eqb_spec "TARGET_NPU" class) as [<-|]; cbn; lia. Qed.

Lemma write_row_ok l row l' k later : write_row dumps s l row = Ok l' → loaded k later (store l) →
  targets l' = targets l + (if is_target row then 1 else 0) ∧
  ((is_container row = true ∧ store l' = store l) ∨
  (is_container row = false ∧ ∃ e, loaded (k ++ [e]) (later ++ [member e.1]) (store l') ∧ row_written row e)).
Proof using Hin dumps_nonempty.
  intros Hw Hl. unfold write_row in Hw. cbv zeta in Hw. apply bind_Ok in Hw as (kv & Hkv%pget_item & Hw).
  assert (Htargets : is_target row = true → eq_str kv "OPERATION_CONTAINER" = false).
  { intros Ht%target_uncontained. unfold is_container, is_kind in Ht. by rewrite Hkv in Ht. }
  unfold is_container, is_kind. rewrite Hkv. destruct (eq_str kv "OPERATION_CONTAINER") eqn:Ekind.
  { apply Ok_eq in Hw as <-. split; [|by left]. unfold targets. cbn [counts]. rewrite bump_targets. change (String.eqb "TARGET_NPU" "input_record_count") with false.
    destruct (is_target row); [|lia]. by specialize (Htargets eq_refl). }
  apply bind_Ok in Hw as (identity & [Hid Hne]%text_Ok & Hw). apply bind_Ok in Hw as (operation & [Hop Hone]%text_Ok & Hw).
  destruct (sget operation (containers_of s)) as [container|] eqn:Hc; [|done].
  apply bind_Ok in Hw as (phase & Hph%(dumped_nonempty _ dumps_nonempty) & Hw). apply bind_Ok in Hw as (ov & Hov%pget_item & Hw).
  apply bind_Ok in Hw as (own & Hown & Hw). apply bind_Ok in Hw as (listed & Hlisted & Hw).
  apply bind_Ok in Hw as (r & Hr & Hw). rewrite <-Hkv in Hr. apply stream_node_decided in Hr as (Hd & Htarget & Hclass); [|done].
  apply bind_Ok in Hw as (st1 & Ha & Hw). apply bind_Ok in Hw as (st2 & He & Hw). apply bind_Ok in Hw as (class & Hcl & <-%Ok_eq).
  assert (class = row_class row) as ->.
  { unfold row_class, is_kind. rewrite Hkv. destruct (eq_str kv "SERVICE"); [|by apply Ok_eq in Hcl].
    apply bind_Ok in Hcl as (v & ->%pget_item & ?%Ok_eq). done. }
  split.
  { unfold targets. cbn [counts]. rewrite !bump_targets. change (String.eqb "TARGET_NPU" "input_record_count") with false.
    destruct (String.eqb_spec "TARGET_NPU" (row_class row)) as [E|E]; destruct (is_target row) eqn:Et; try lia.
    - pose proof (proj1 Hclass (eq_sym E)). congruence.
    - pose proof (proj2 Hclass eq_refl). congruence. }
  right. split; [done|]. cbn [store] in *. set (e := (node_of s identity operation phase r, sn_document r)) in *.
  exists e. split; [eapply (exit_waits_later _ _ _ e.1); [exact He|]; by apply (add_loaded _ _ _ _ _ _ Ha)|].
  assert (Hedge : ∀ d, d ∈ listed ++ [result_edge (operation +:+ ":enter")] → kept identity d → d ∈ dependencies e.1).
  { intros d Hd' Hk. apply node_of_edges; [|done]. by apply (dc_edges _ _ _ Hd), elem_of_fromkeys. }
  split; cbn [fst snd]; try done.
  - by eapply decided_fine.
  - split; [done|]. by apply elem_sget, (list_elem_of_fmap_2 fst) in Hc.
  - apply Hedge; [|apply entry_kept]. apply elem_of_app. right. by apply list_elem_of_singleton.
  - destruct ov; try done. apply Ok_eq in Hown as ->. exists own. split; [done|]. intros u Hu. apply Hedge.
    apply elem_of_app. left. by eapply edges_of_values_elem.
  - intros Hk. destruct (dc_accepted _ _ _ Hd Hk) as (position & Hp & Hacc). exists position. split; [done|].
    intros before E. apply node_of_edges; [by apply Hacc|]. by eapply accepted_kept.
Qed.
End Writes.

(** ** The phases of the streamed adaptation

    The entries and exits of the operations, the rows, the owner nodes, the
    barriers and the application are written one after the other; [streamed]
    says what the store holds after them. *)

Open Scope Z_scope.

Abbreviation Entry := (Node * option record)%type.

Section Inputs.
Context `{Host}.

Lemma fold_certified admission v2 l c : fold_res (add_certified admission v2) {| works := []; work_results := []; work_calls := [] |} l = Ok c →
  certified_ok c.
Proof.
  apply (fold_res_inv certified_ok).
  - split; [by exists []; repeat constructor|]. by intros k w ?%not_elem_of_nil.
  - intros row c1 c2 _ H1 H2. by eapply add_certified_ok.
Qed.

Definition scan_ok (s : Scan) : Prop := NoDup (containers s).*1 ∧ Forall (fun o => o ≠ "") (containers s).*1.

Lemma validate_scope contract : validate_lifecycle_contract contract = Ok tt →
  in_strs (pget contract "source_kind") ["SYNTHETIC"; "PRODUCER_DECLARED"] = true.
Proof.
  unfold validate_lifecycle_contract. intros Hv. do 9 (apply bind_Ok in Hv as (? & _ & Hv)).
  apply bind_Ok in Hv as (source & Hs%pget_item & Hv). rewrite Hs. by apply check_bind in Hv as [? _].
Qed.

Lemma scan_row_row v2 s row s' : scan_row v2 s row = Ok s' →
  (∀ x, x ∈ containers s → x ∈ containers s') ∧
  (is_container row = true → ∃ o, pget row "node_id" = JStr o ∧ (o, row) ∈ containers s').
Proof.
  unfold scan_row, is_container, is_kind. intros Hs. apply bind_Ok in Hs as (kind & Hk%pget_item & Hs). rewrite Hk. apply bind_Ok in Hs as (s1 & H1 & Hs).
  assert (containers s' = containers s1) as ->.
  { destruct (v2 && _); [|by apply Ok_eq in Hs as <-]. apply bind_Ok in Hs as (identity & _ & Hs). by apply check_bind in Hs as [_ <-%Ok_eq]. }
  destruct (eq_str kind "OPERATION_CONTAINER"); [|apply Ok_eq in H1 as <-; by split].
  apply bind_Ok in H1 as (identity & [Hid _]%text_Ok & H1). apply check_bind in H1 as [Hf%negb_true_iff <-%Ok_eq]. cbn [containers].
  rewrite (sset_fresh_app _ _ _ Hf). split; [intros x Hx; apply elem_of_app; by left|]. intros _. exists identity. split; [done|].
  apply elem_of_app. right. by apply list_elem_of_singleton.
Qed.

Lemma scan_row_ok v2 s row s' : scan_row v2 s row = Ok s' → scan_ok s → scan_ok s'.
Proof.
  unfold scan_row. intros Hs [Hnd Hne]. apply bind_Ok in Hs as (kind & _ & Hs). apply bind_Ok in Hs as (s1 & H1 & Hs).
  assert (Hok : scan_ok s1).
  { destruct (eq_str kind "OPERATION_CONTAINER"); [|by apply Ok_eq in H1 as <-].
    apply bind_Ok in H1 as (identity & [_ Hid]%text_Ok & H1). apply check_bind in H1 as [Hf%negb_true_iff <-%Ok_eq].
    split; cbn [containers]; rewrite (sset_fresh_app _ _ _ Hf), fmap_app; [apply NoDup_snoc; [done|by apply smem_false]|].
    apply Forall_app. split; [done|]. constructor; [done|constructor]. }
  clear H1. destruct (v2 && _); [|by apply Ok_eq in Hs as <-].
  apply bind_Ok in Hs as (identity & _ & Hs). by apply check_bind in Hs as [_ <-%Ok_eq].
Qed.

Lemma read_inputs_ok files admission s : read_inputs files admission = Ok s → inputs_ok files s.
Proof.
  unfold read_inputs. cbv zeta. intros Hr. apply bind_Ok in Hr as ([] & Hv%validate_scope & Hr). do 2 (apply bind_Ok in Hr as (? & _ & Hr)).
  do 2 (apply bind_Ok in Hr as ([] & _ & Hr)). apply bind_Ok in Hr as (scanned & Hscan & Hr).
  apply bind_Ok in Hr as (ev & Hev%pget_item & Hr). apply bind_Ok in Hr as (entry & Hentry & Hr). destruct ev; try done. apply Ok_eq in Hentry as ->.
  apply bind_Ok in Hr as ([] & Hne%check_Ok_any & Hr). apply andb_prop in Hne as [Hne%negb_true_iff%Nat.eqb_neq _]. do 2 (apply bind_Ok in Hr as (? & _ & Hr)).
  apply bind_Ok in Hr as (ov & Hov%pget_item & Hr). apply bind_Ok in Hr as (listed & Hlisted & Hr). destruct ov; try done. apply Ok_eq in Hlisted as ->.
  apply bind_Ok in Hr as (submission & Hsub & Hr).
  apply bind_Ok in Hr as ([] & Hd%check_Ok_any%distinct_str & Hr). do 2 (apply bind_Ok in Hr as (? & _ & Hr)).
  apply bind_Ok in Hr as ([] & _ & Hr). apply bind_Ok in Hr as (c & Hc%fold_certified & Hr).
  apply bind_Ok in Hr as ([] & Hcover%check_Ok_any & Hr). apply andb_prop in Hcover as [Hcover _]. pose proof (proj1 (set_eq_str _ _) Hcover) as Hworks.
  apply bind_Ok in Hr as (pipeline & Hp & <-%Ok_eq). split; cbn [lifecycle certified order_of containers_of projection]; try done.
  - revert Hscan. apply (fold_res_inv scan_ok); [by split; constructor|]. intros row s1 s2 _ H1 H2. by eapply scan_row_ok.
  - by intros E; rewrite E in Hne.
  - eauto.
  - revert Hscan. apply (fold_res_hist (fun pre s => ∀ row, row ∈ pre → is_container row = true → ∃ o, pget row "node_id" = JStr o ∧ (o, row) ∈ containers s)).
    { by intros row ?%not_elem_of_nil. }
    intros pre row post s1 s2 _ H1 [Hkeep Hrow]%scan_row_row row' [Hin| ->%list_elem_of_singleton]%elem_of_app Hcont; [|by apply Hrow].
    destruct (H1 _ Hin Hcont) as (o & ? & ?). exists o. split; [done|]. by apply Hkeep.
  - intros q ->. destruct (version_2 _); [|done]. apply bind_Ok in Hp as (q' & Hq & [= ->]%Ok_eq). eauto.
Qed.
End Inputs.

Section Parts.
Context `{Host} (dumps : json → string).
Hypothesis dumps_nonempty : ∀ j, dumps j ≠ "".
Hypothesis json_dumps_nonempty : ∀ j, json_dumps j ≠ "".
Context (files : StreamFiles) (s : Streamed) (Hin : inputs_ok files s).

(** ** Operations *)

(** The entry and the exit of an operation; the entry waits for what the
    container and the contract list. *)
Record operation_written (operation : string * record) (pair : Node * Node) : Prop := {
  ow_enter : identity pair.1 = operation.1 +:+ ":enter" ∧ kind pair.1 = OP_ENTER;
  ow_exit : identity pair.2 = operation.1 +:+ ":exit" ∧ kind pair.2 = OP_EXIT;
  ow_fine : entry_fine (pair.1, None) ∧ entry_fine (pair.2, None);
  ow_waits : ∃ own entered, pget operation.2 "dependencies" = JArr own ∧ sget operation.1 (entry_of s) = Some (JArr entered) ∧
    ∀ u, JStr u ∈ own ++ entered → edge_to (containers_of s) u ∈ dependencies pair.1;
}.

Definition plain_entries (l : list Node) : list Entry := map (fun n => (n, None)) l.
Definition both (pairs : list (Node * Node)) : list Node := flat_map (fun p => [p.1; p.2]) pairs.

Lemma write_operation_ok l o l' k later : write_operation dumps s l o = Ok l' → o.1 ≠ "" → loaded k later (store l) →
  ∃ pair, loaded (k ++ plain_entries [pair.1; pair.2]) later (store l') ∧ operation_written o pair.
Proof using dumps_nonempty.
  destruct o as [identity row]. intros Hw Hne Hl. unfold write_operation in Hw.
  apply bind_Ok in Hw as (phase & Hph%(dumped_nonempty _ dumps_nonempty) & Hw). apply bind_Ok in Hw as (ov & Hov%pget_item & Hw).
  apply bind_Ok in Hw as (own & Hown & Hw). apply bind_Ok in Hw as (ev & Hev & Hw). apply bind_Ok in Hw as (entered & Hent & Hw).
  apply bind_Ok in Hw as (incoming & Hinc & Hw). cbv zeta in Hw. apply bind_Ok in Hw as (st1 & H1 & Hw).
  apply bind_Ok in Hw as (st2 & H2 & <-%Ok_eq). cbn [store].
  exists (barrier_node OP_ENTER (identity +:+ ":enter") identity phase (fromkeys incoming), barrier_node OP_EXIT (identity +:+ ":exit") identity phase []).
  destruct (add_loaded _ _ _ _ _ _ H1 Hl) as [Hl1 _]. destruct (add_loaded _ _ _ _ _ _ H2 Hl1) as [Hl2 _].
  split; [by rewrite <-(assoc_L (++)) in Hl2|].
  split; cbn [fst snd]; try done.
  - split; apply barrier_fine; try done; by destruct identity.
  - destruct ov, ev; try done. apply Ok_eq in Hown as ->. apply Ok_eq in Hent as ->. unfold item in Hev.
    destruct (sget identity (entry_of s)) as [v|]; [|done]. apply Ok_eq in Hev as ->.
    eexists _, _. split_and!; [done..|]. intros u Hu. cbn. apply elem_of_fromkeys. by eapply edges_of_values_elem.
Qed.

Lemma both_snoc pairs p : plain_entries (both (pairs ++ [p])) = plain_entries (both pairs) ++ plain_entries [p.1; p.2].
Proof. unfold both, plain_entries. by rewrite flat_map_app, List.map_app. Qed.

Lemma write_operations_ok l operations l' : Forall (fun o => o ≠ "") operations.*1 → store l = new_store →
  fold_res (write_operation dumps s) l operations = Ok l' →
  ∃ pairs, loaded (plain_entries (both pairs)) [] (store l') ∧ Forall2 operation_written operations pairs.
Proof using dumps_nonempty.
  intros Hne Hl. apply (fold_res_hist (fun pre l => ∃ pairs, loaded (plain_entries (both pairs)) [] (store l) ∧ Forall2 operation_written pre pairs)).
  - exists []. rewrite Hl. split; [apply new_loaded|constructor].
  - intros pre o post l1 l2 E (pairs & H1 & H2) Hw. rewrite E, fmap_app, Forall_app in Hne. destruct Hne as [_ Hne%Forall_inv].
    destruct (write_operation_ok _ _ _ _ _ Hw Hne H1) as (pair & H3 & H4). exists (pairs ++ [pair]). rewrite both_snoc. split; [done|].
    apply Forall2_app; [done|]. constructor; [done|constructor].
Qed.

(** ** Rows *)

Definition plain_rows (rows : list record) : list record := List.filter (fun row => negb (is_container row)) rows.

Lemma write_rows_ok l rows l' k later : loaded k later (store l) → fold_res (write_row dumps s) l rows = Ok l' →
  ∃ made, loaded (k ++ made) (later ++ map member made.*1) (store l') ∧ Forall2 (row_written s) (plain_rows rows) made ∧
    targets l' = targets l + Z.of_nat (length (List.filter is_target rows)).
Proof using Hin dumps_nonempty.
  intros Hl. apply (fold_res_hist (fun pre l' => ∃ made, loaded (k ++ made) (later ++ map member made.*1) (store l') ∧
    Forall2 (row_written s) (plain_rows pre) made ∧ targets l' = targets l + Z.of_nat (length (List.filter is_target pre)))).
  - exists []. cbn. rewrite !app_nil_r. split_and!; [done|constructor|lia].
  - intros pre row post l1 l2 _ (made & H1 & H2 & H3) Hw. unfold plain_rows. rewrite !filter_snoc. fold (plain_rows pre).
    destruct (write_row_ok _ dumps_nonempty _ _ Hin _ _ _ _ _ Hw H1) as [Ht Hr].
    assert (Ht' : targets l2 = targets l + Z.of_nat (length (List.filter is_target pre ++ (if is_target row then [row] else [])))).
    { rewrite Ht, H3, length_app. destruct (is_target row); cbn; lia. }
    destruct Hr as [[-> Hs]|(-> & e & He & Hrow)]; cbn [negb].
    + exists made. by rewrite Hs, app_nil_r.
    + exists (made ++ [e]). rewrite fmap_app, List.map_app, !(assoc_L (++)). split_and!; [done| |done]. apply Forall2_app; [done|]. constructor; [done|constructor].
Qed.

Lemma write_operations_targets l operations l' : fold_res (write_operation dumps s) l operations = Ok l' → targets l' = targets l.
Proof.
  apply (fold_res_inv (fun l' => targets l' = targets l)); [done|]. intros [identity row] l1 l2 _ <- Hw. unfold write_operation in Hw.
  do 6 (apply bind_Ok in Hw as (? & _ & Hw)). cbv zeta in Hw. by do 2 (apply bind_Ok in Hw as (? & _ & Hw)); apply Ok_eq in Hw as <-.
Qed.

(** ** Owners *)

Definition owners : list Node := match projection s with Some q => owner_nodes q | None => [] end.

Lemma write_owners_ok l nodes l' k later : loaded k later (store l) → fold_res write_owner l nodes = Ok l' →
  loaded (k ++ plain_entries nodes) (later ++ map member nodes) (store l').
Proof.
  intros Hl. apply (fold_res_hist (fun pre l => loaded (k ++ plain_entries pre) (later ++ map member pre) (store l))).
  - cbn. by rewrite !app_nil_r.
  - intros pre n post l1 l2 _ H1 Hw. unfold write_owner in Hw. apply bind_Ok in Hw as (st1 & Ha & Hw).
    apply bind_Ok in Hw as (st2 & He & <-%Ok_eq). cbn [store]. unfold plain_entries. rewrite !List.map_app, !(assoc_L (++)).
    apply (exit_waits_later _ _ _ n _ He). by apply (add_loaded _ _ _ _ _ _ Ha).
Qed.

Lemma owner_entry n : owner_fine n → entry_fine (n, None).
Proof.
  intros [Hk Hi Ho Hp Hord [Hs Hr]]. split; cbn [fst snd].
  - split; try done; [by rewrite Hord|by rewrite Hs|rewrite Hr; apply not_elem_of_nil].
  - apply entry_plain; try done. by rewrite Hk.
Qed.

Lemma owners_entries : Forall entry_fine (plain_entries owners).
Proof using Hin json_dumps_nonempty.
  unfold owners. destruct (projection s) as [q|] eqn:Eq; [|by constructor].
  destruct (io_projection _ _ Hin q Eq) as (indexed & results & Hq). apply owner_nodes_fine in Hq; [|done].
  unfold plain_entries. apply Forall_map. eapply Forall_impl; [exact Hq|]. intros n. apply owner_entry.
Qed.

(** ** Barriers *)

Record barrier_written (raw : json) (n : Node) : Prop := {
  bw_fine : entry_fine (n, None);
  bw_row : ∃ row values, raw = JObj row ∧ pget row "node_id" = JStr (identity n) ∧ pget row "dependencies" = JArr values ∧
    ∀ u, JStr u ∈ values → edge_to (containers_of s) u ∈ dependencies n;
}.

Lemma write_barrier_ok l raw l' k later : write_barrier s l raw = Ok l' → loaded k later (store l) →
  ∃ n, loaded (k ++ plain_entries [n]) later (store l') ∧ barrier_written raw n.
Proof.
  unfold write_barrier. intros Hw Hl. apply bind_Ok in Hw as (row & Hraw & Hw). destruct raw; try done. apply Ok_eq in Hraw as ->.
  apply bind_Ok in Hw as (identity & [Hid Hne]%text_Ok & Hw). apply bind_Ok in Hw as (vv & Hvv%pget_item & Hw).
  apply bind_Ok in Hw as (values & Hvalues & Hw). destruct vv; try done. apply Ok_eq in Hvalues as ->.
  apply bind_Ok in Hw as (deps & Hdeps & Hw). apply bind_Ok in Hw as (phase & [_ Hph]%text_Ok & Hw).
  apply bind_Ok in Hw as (st & Ha & <-%Ok_eq). cbn [store]. exists (barrier_node BARRIER identity identity phase deps).
  split; [by apply (add_loaded _ _ _ _ _ _ Ha)|]. split; [by apply barrier_fine|].
  eexists _, _. split_and!; [done..|]. intros u Hu. by eapply edges_of_values_elem.
Qed.

Lemma write_barriers_ok l raws l' k later : loaded k later (store l) → fold_res (write_barrier s) l raws = Ok l' →
  ∃ made, loaded (k ++ plain_entries made) later (store l') ∧ Forall2 barrier_written raws made.
Proof.
  intros Hl. apply (fold_res_hist (fun pre l => ∃ made, loaded (k ++ plain_entries made) later (store l) ∧ Forall2 barrier_written pre made)).
  - exists []. cbn. rewrite !app_nil_r. split; [done|constructor].
  - intros pre raw post l1 l2 _ (made & H1 & H2) Hw. destruct (write_barrier_ok _ _ _ _ _ Hw H1) as (n & H3 & H4).
    exists (made ++ [n]). unfold plain_entries in *. rewrite List.map_app, !(assoc_L (++)). split; [done|].
    apply Forall2_app; [done|]. constructor; [done|constructor].
Qed.

(** ** The application *)

Lemma write_edges_ok l later st entries st' : loaded l later st →
  fold_res (fun st (kv : string * list Dependency) => ExecutionStore.edges st kv.1 kv.2) st entries = Ok st' →
  loaded l (later ++ flat_map (fun kv => map (fun d => (kv.1, d)) kv.2) entries) st'.
Proof.
  intros Hl. apply (fold_res_hist (fun pre st => loaded l (later ++ flat_map (fun kv => map (fun d => (kv.1, d)) kv.2) pre) st)).
  - cbn. by rewrite app_nil_r.
  - intros pre kv post st1 st2 _ H1 He. rewrite flat_map_app. cbn [flat_map]. rewrite app_nil_r, (assoc_L (++)). by eapply edges_later.
Qed.

(** The nodes of a projection with its edges. *)
Record application_written (p : ApplicationProjection) (entries : list Entry) (later : Later) : Prop := {
  aw_fine : Forall entry_fine entries;
  aw_nodes : entries.*1 = (app_nodes p).*2;
  aw_later : later = flat_map (fun kv => map (fun d => (kv.1, d)) kv.2) (entry_edges p);
}.

Definition application_part (available : list (string * Kind)) (entries : list Entry) (later : Later) : Prop :=
  match stream_application files with
  | Some records => ∃ declaration p, pget (lifecycle s) "application" = JObj declaration ∧
      project_application available {| app_records := records; app_contract := declaration |} = Ok p ∧ application_written p entries later
  | None => entries = [] ∧ later = []
  end.

Lemma write_application_ok l l' k later : write_application s files l = Ok l' → loaded k later (store l) →
  ∃ entries more, loaded (k ++ entries) (later ++ more) (store l') ∧ application_part (available l) entries more ∧ Forall entry_fine entries.
Proof.
  unfold write_application, application_part. intros Hw Hl. destruct (stream_application files) as [records|].
  - apply bind_Ok in Hw as (rv & Hrv%pget_item & Hw). apply bind_Ok in Hw as (declaration & Hdec & Hw).
    destruct rv as [| | | | | |fs]; try done. apply Ok_eq in Hdec as ->. do 1 (apply bind_Ok in Hw as (? & _ & Hw)). apply bind_Ok in Hw as ([] & _ & Hw).
    apply bind_Ok in Hw as (p & Hp & Hw). apply bind_Ok in Hw as (st1 & Hnodes & Hw). apply bind_Ok in Hw as (st2 & Hedges & <-%Ok_eq).
    cbn [store with_store]. pose proof (project_application_ok _ _ _ Hp) as Hok. pose proof (project_application_fine _ _ _ Hp) as Hfine.
    assert (Hn : ∃ entries, loaded (k ++ entries) later st1 ∧ Forall entry_fine entries ∧ entries.*1 = (app_nodes p).*2).
    { revert Hnodes. apply (fold_res_hist (fun pre st => ∃ entries, loaded (k ++ entries) later st ∧ Forall entry_fine entries ∧ entries.*1 = pre)).
      - exists []. rewrite app_nil_r. done.
      - intros pre n post s1 s2 E (entries & H1 & H2 & <-) Hws.
        assert (Hmem : n ∈ (app_nodes p).*2) by (rewrite E; apply elem_of_app; right; constructor).
        apply list_elem_of_fmap in Hmem as ([key n'] & -> & Hmem). cbn [snd] in *.
        destruct (write_service_ok _ _ _ _ _ _ _ Hok Hfine Hmem Hws H1) as (document & H3 & H4).
        exists (entries ++ [(n', document)]). rewrite (assoc_L (++)), fmap_app. split_and!; [done| |done].
        apply Forall_app. split; [done|]. constructor; [done|constructor]. }
    destruct Hn as (entries & H1 & H2 & H3). eexists entries, _. split; [by apply (write_edges_ok _ _ _ _ _ H1 Hedges)|]. split; [|done].
    exists declaration, p. by split_and!.
  - apply bind_Ok in Hw as (? & _ & Hw). apply check_bind in Hw as [_ <-%Ok_eq]. exists [], []. by rewrite !app_nil_r.
Qed.
End Parts.
