(* ===== verification/StreamTheorems.v ===== *)
(** * What the streamed adaptation writes

    A store that [adapt_stream] returns holds a graph with its services for the
    scheduler on tables ([stream_stores]); its edges bracket every row between
    the entry and the exit of its operation, complete an operation before the
    ones that wait for it are entered, and chain the works in the order of
    their submission, so that every timeline of a graph with these edges does
    the same ([stream_brackets]). *)
From S2P Require Import Prelude Records Rational Services Scheduler SchedulerTheorems SqliteGraph.
From S2P Require Import SqliteScheduler SqliteGraphTheorems PipelineContract Pipeline PipelineEdges.
From S2P Require Import Adapter AdapterTheorems ApplicationTheorems ExecutionStore ExecutionStoreTheorems.
From S2P Require Import StreamEntries ExecutionIR PipelineTheorems AdapterPipeline TraceIntegrity.
From S2P Require Import Application StreamAdapter StreamWrites.
Set Default Goal Selector "!".

(** ** A graph and services from written entries

    The services of a graph are read back from the documents written with its
    nodes ([stored_services]).  For entries that are fine by themselves they fit
    the graph, and the store holds both: [entries_served], [entries_stored]. *)
Open Scope Z_scope.

Abbreviation Entry := (Node * option record)%type.

(** ** Keys that a list gives one by one *)

Section Keyed.
Context {V : Type} (own : Entry → list (string * V)) (l : list Entry).
Context (Hown : ∀ e, e ∈ l → own e = [] ∨ ∃ v, own e = [(identity e.1, v)]) (Hnd : NoDup (map identity l.*1)).

Lemma keyed_names : NoDup (flat_map own l).*1 ∧ ∀ k, k ∈ (flat_map own l).*1 → k ∈ map identity l.*1.
Proof using Hown Hnd.
  revert Hown Hnd. induction l as [|e k IH]; [by repeat constructor|]. intros Ho [Hn Hk]%NoDup_cons.
  destruct IH as [IH1 IH2]; [intros x Hx; apply Ho; by right|done|]. cbn [flat_map]. rewrite fmap_app.
  destruct (Ho e ltac:(by left)) as [->|(v & ->)]; cbn.
  - split; [done|]. intros x Hx. right. by apply IH2.
  - split; [constructor; [|done]; intros Hx; by apply Hn, IH2|].
    intros x [->|Hx]%elem_of_cons; [by left|right; by apply IH2].
Qed.

Lemma keyed_get e v : e ∈ l → own e = [(identity e.1, v)] → sget (identity e.1) (flat_map own l) = Some v.
Proof using Hown Hnd.
  intros He Ho. apply sget_elem; [apply keyed_names|]. apply list_elem_of_In, in_flat_map. exists e. rewrite Ho.
  split; [by apply list_elem_of_In|by left].
Qed.

Lemma keyed_inv k : k ∈ (flat_map own l).*1 → ∃ e v, e ∈ l ∧ own e = [(identity e.1, v)] ∧ k = identity e.1.
Proof using Hown.
  intros ([k' v] & -> & Hin)%list_elem_of_fmap. apply list_elem_of_In, in_flat_map in Hin as (e & He%list_elem_of_In & Hin%list_elem_of_In).
  destruct (Hown e He) as [E|(v' & E)]; rewrite E in Hin; [by apply not_elem_of_nil in Hin|].
  apply list_elem_of_singleton in Hin as [= -> ->]. by exists e, v'.
Qed.
End Keyed.

Section Served.
Context `{Host}.

Definition document_services (e : Entry) : Services :=
  match e.2 with
  | Some r => match parse_services r with Ok sv => sv | Err _ => {| cpu := []; npu := [] |} end
  | None => {| cpu := []; npu := [] |}
  end.
Definition own_cpu (e : Entry) : list (string * CpuService) := cpu (document_services e).
Definition own_npu (e : Entry) : list (string * NpuWork) := npu (document_services e).
Definition stored_services (l : list Entry) : Services := {| cpu := flat_map own_cpu l; npu := flat_map own_npu l |}.

(** What the document of an entry gives by the kind of its node. *)
Lemma entry_own e : entry_served e.1 e.2 →
  (is_cpu (kind e.1) = true ∧ own_npu e = [] ∧ ∃ c, own_cpu e = [(identity e.1, c)] ∧ service e.1 = Some (identity e.1) ∧
    resources e.1 = map resource (workers c) ∧ cpu_service_of (cpu_source c) (policy c) (workers c) = Ok c ∧
    (kind e.1 = APPLICATION_CPU → cpu_source c = "APPLICATION_CPU")) ∨
  (kind e.1 = NPU ∧ own_cpu e = [] ∧ ∃ w, own_npu e = [(identity e.1, w)] ∧ service e.1 = Some (identity e.1)) ∨
  (is_service_kind (kind e.1) = false ∧ own_cpu e = [] ∧ own_npu e = [] ∧ service e.1 = None).
Proof.
  unfold own_cpu, own_npu, document_services.
  intros [Hk Hs Hr Hd|r c Hk Hs Hr Hv Hsrc Hd Hp|r w Hk Hs Hr Hd Hp]; rewrite Hd; try rewrite Hp.
  - right; right. done.
  - left. split_and!; try done. by exists c.
  - right; left. split_and!; try done. by exists w.
Qed.

Context (l : list Entry) (Hfine : Forall entry_fine l) (Hnames : NoDup (map identity l.*1)).

Lemma fine_own e : e ∈ l → entry_served e.1 e.2.
Proof using Hfine. intros He. rewrite Forall_forall in Hfine. by apply Hfine. Qed.

Lemma cpu_keyed e : e ∈ l → own_cpu e = [] ∨ ∃ v, own_cpu e = [(identity e.1, v)].
Proof using Hfine.
  intros He%fine_own%entry_own. destruct He as [(_ & _ & c & -> & _)|[(_ & -> & _)|(_ & -> & _)]]; [right; by exists c|by left..].
Qed.
Lemma npu_keyed e : e ∈ l → own_npu e = [] ∨ ∃ v, own_npu e = [(identity e.1, v)].
Proof using Hfine.
  intros He%fine_own%entry_own. destruct He as [(_ & -> & _)|[(_ & _ & w & -> & _)|(_ & _ & -> & _)]]; [by left|right; by exists w|by left].
Qed.

Lemma cpu_lookup_own n document c : (n, document) ∈ l → own_cpu (n, document) = [(identity n, c)] → service n = Some (identity n) →
  cpu_lookup (stored_services l) n = Ok c.
Proof using Hfine Hnames.
  intros Hin Ho Hs. pose proof (keyed_get own_cpu l cpu_keyed Hnames (n, document) c Hin Ho) as E. cbn [fst] in E.
  unfold cpu_lookup, service_id. rewrite Hs. cbn [mbind res_bind stored_services cpu]. by rewrite E.
Qed.
Lemma npu_lookup_own n document w : (n, document) ∈ l → own_npu (n, document) = [(identity n, w)] → service n = Some (identity n) →
  npu_lookup (stored_services l) n = Ok w.
Proof using Hfine Hnames.
  intros Hin Ho Hs. pose proof (keyed_get own_npu l npu_keyed Hnames (n, document) w Hin Ho) as E. cbn [fst] in E.
  unfold npu_lookup, service_id. rewrite Hs. cbn [mbind res_bind stored_services npu]. by rewrite E.
Qed.

(** The services fit the graph of the entries. *)
Lemma entries_served ir : nodes ir = l.*1 → wf_ir l.*1 → served ir (stored_services l).
Proof using Hfine Hnames.
  intros Hir Hwf. split; rewrite ?Hir; try done.
  - intros k c Hk. cbn in Hk. apply elem_sget in Hk. assert (Hin : k ∈ (flat_map own_cpu l).*1) by by apply (list_elem_of_fmap_2 fst) in Hk.
    destruct (keyed_inv _ _ cpu_keyed _ Hin) as (e & v & He & Ho & ->).
    destruct (entry_own e (fine_own e He)) as [(_ & _ & c' & Hc & _ & _ & Hv & _)|[(_ & Hc & _)|(_ & Hc & _)]]; [|by rewrite Hc in Ho..].
    apply (sget_elem _ _ _ (proj1 (keyed_names _ _ cpu_keyed Hnames))) in Hk.
    rewrite (keyed_get own_cpu l cpu_keyed Hnames e c' He Hc) in Hk. by injection Hk as <-.
  - intros k. split.
    + intros (e & v & He & Ho & ->)%(keyed_inv _ _ cpu_keyed). exists e.1. split; [by apply list_elem_of_fmap_2|].
      destruct (entry_own e (fine_own e He)) as [(Hk & _ & c & _ & Hs & _)|[(_ & Hc & _)|(_ & Hc & _)]]; [done|by rewrite Hc in Ho..].
    + intros (n & ([n' document] & -> & He)%list_elem_of_fmap & Hk & Hs). cbn [fst] in *.
      destruct (entry_own _ (fine_own _ He)) as [(_ & _ & c & Hc & Hs' & _)|[(Hk' & _)|(Hk' & _)]]; cbn [fst] in *.
      * assert (k = identity n') as -> by congruence. apply sget_is_Some. exists c. by apply (keyed_get own_cpu l cpu_keyed Hnames (n', document)).
      * by rewrite Hk' in Hk.
      * by destruct (kind n').
  - intros k. split.
    + intros (e & v & He & Ho & ->)%(keyed_inv _ _ npu_keyed). exists e.1. split; [by apply list_elem_of_fmap_2|].
      destruct (entry_own e (fine_own e He)) as [(_ & Hc & _)|[(Hk & _ & w & _ & Hs)|(_ & _ & Hc & _)]]; [by rewrite Hc in Ho|by rewrite Hk|by rewrite Hc in Ho].
    + intros (n & ([n' document] & -> & He)%list_elem_of_fmap & Hk & Hs). cbn [fst] in *.
      destruct (entry_own _ (fine_own _ He)) as [(Hk' & _)|[(_ & _ & w & Hw & Hs')|(Hk' & _)]]; cbn [fst] in *.
      * by destruct (kind n').
      * assert (k = identity n') as -> by congruence. apply sget_is_Some. exists w. by apply (keyed_get own_npu l npu_keyed Hnames (n', document)).
      * by destruct (kind n').
  - intros n ([n' document] & -> & He)%list_elem_of_fmap Hk. cbn [fst] in *.
    destruct (entry_own _ (fine_own _ He)) as [(_ & _ & c & Hc & Hs & Hr & _ & Hsrc)|[(Hk' & _)|(Hk' & _)]]; cbn [fst] in *.
    + exists c. split; [by eapply cpu_lookup_own|]. unfold cpu_binding, ensure. rewrite !check_bind, check_Ok_any. split.
      * apply orb_true_iff. destruct (decide (kind n' = APPLICATION_CPU)) as [E|E]; [right; rewrite (Hsrc E); by apply String.eqb_refl|left].
        by rewrite bool_decide_eq_false_2.
      * rewrite Hr. by apply set_eq_str.
    + by rewrite Hk' in Hk.
    + by destruct (kind n').
Qed.

(** The documents are those of the services of the graph. *)
Lemma entries_stored st manifest : written l st → wf_ir l.*1 → stores (database st manifest) l.*1 (stored_services l).
Proof using Hfine Hnames.
  intros Hw Hwf. apply written_stores; [done..| |].
  - apply Forall_fmap. eapply Forall_impl; [exact Hfine|]. by intros e [? _].
  - intros n document Hin. unfold has_service. pose proof (fine_own _ Hin) as Hserved. cbn [fst snd] in Hserved.
    destruct Hserved as [Hk Hs Hr ->|r c Hk Hs Hr Hv Hsrc Hd Hp|r w Hk Hs Hr Hd Hp]; [by rewrite Hs|..].
    + rewrite Hs. eexists r, _. split_and!; [done|exact Hp|].
      assert (Ho : own_cpu (n, document) = [(identity n, c)]) by (unfold own_cpu, document_services; cbn [snd]; by rewrite Hd, Hp).
      split; cbn [cpu npu].
      * rewrite Hs. by apply set_eq_str.
      * intros _. rewrite (cpu_lookup_own _ _ _ Hin Ho Hs). unfold cpu_lookup, service_id. rewrite Hs. cbn. by rewrite String.eqb_refl.
      * by destruct (kind n).
    + rewrite Hs. eexists r, _. split_and!; [done|exact Hp|].
      assert (Ho : own_npu (n, document) = [(identity n, w)]) by (unfold own_npu, document_services; cbn [snd]; by rewrite Hd, Hp).
      split; cbn [cpu npu].
      * rewrite Hs. by apply set_eq_str.
      * by rewrite Hk.
      * intros _. rewrite (npu_lookup_own _ _ _ Hin Ho Hs). unfold npu_lookup, service_id. rewrite Hs. cbn. by rewrite String.eqb_refl.
Qed.
End Served.

Open Scope Z_scope.

(** ** The graph of a valid load *)

Definition graph_entries (l : list Entry) (later : Later) : list Entry := map (fun e => (grown later e.1, e.2)) l.

Lemma graph_entries_nodes l later : (graph_entries l later).*1 = graph_of_load l later.
Proof. unfold graph_entries, graph_of_load. induction l as [|e l IH]; [done|]. cbn. by f_equal. Qed.

Lemma valid_written l later st : valid_load l later st → written (graph_entries l later) st.
Proof.
  intros [Hn He Hs Hc _ _ _ _ _]. split; [|by rewrite graph_entries_nodes| |unfold graph_entries; by rewrite length_map].
  - change (map (fun row => (row_identity row, row_body row)) (node_rows st)) with (map node_columns (node_rows st)).
    rewrite Hn. unfold graph_entries. rewrite map_map. clear. induction l as [|e l IH]; [done|]. cbn. by f_equal.
  - rewrite Hs. unfold graph_entries. clear. induction l as [|[n [document|]] l IH]; [done|..]; cbn; [by f_equal|done].
Qed.

Section Graph.
Context `{Host}.

Lemma entries_grown l later : Forall entry_fine l → Forall entry_fine (graph_entries l later).
Proof.
  intros Hf. apply Forall_map. eapply Forall_impl; [exact Hf|]. intros e [Hn Hs]. split; cbn [fst snd].
  - by destruct Hn; split.
  - by apply (entry_served_ext e.1).
Qed.

Lemma entry_wf ids n document : entry_fine (n, document) → NoDup (dependencies n) → (∀ d, d ∈ dependencies n → node d ∈ ids) → wf_node ids n.
Proof.
  intros [Hn Hs] Hd Hr. cbn [fst snd] in *. pose proof (nm_order _ Hn) as Ho.
  destruct Hs as [Hk Hserv Hres _|r c Hk Hserv Hres Hv _ _ _|r w Hk Hserv Hres _ _].
  - split; [lia|rewrite Hres; constructor|done|done|rewrite Hserv, Hk|rewrite Hres, Hk|intros E; by rewrite E in Hk]; by split; [intros []|].
  - destruct (cpu_service_distinct _ Hv) as [Hdist Hne]. assert (Hs : is_service_kind (kind n) = true) by by destruct (kind n).
    split; [lia|by rewrite Hres|done|done|rewrite Hserv, Hs|rewrite Hres, Hs|intros E; by rewrite E in Hk]; split; try done.
    intros _. by destruct (workers c).
  - split; [lia|rewrite Hres; apply NoDup_singleton|done|done|rewrite Hserv, Hk; by split|rewrite Hres, Hk; by split|].
    intros _. rewrite Hres. by left.
Qed.

Lemma load_wf l later st : valid_load l later st → Forall entry_fine l → l ≠ [] → wf_ir (graph_of_load l later).
Proof.
  intros [_ _ _ _ _ Hnd Hu Hr Ha] Hf Hne. split.
  - destruct l; [done|]. discriminate.
  - by rewrite grown_names.
  - rewrite grown_names. apply Forall_forall. intros n Hn.
    assert (Hin : n ∈ (graph_entries l later).*1) by by rewrite graph_entries_nodes.
    apply list_elem_of_fmap in Hin as ([n' document] & -> & Hin). pose proof (entries_grown _ later Hf) as Hg.
    rewrite Forall_forall in Hg. apply (entry_wf _ _ document); [by apply Hg|by apply Hu|intros d; by apply Hr].
  - exact (proj1 (acyclic_topological _) Ha).
Qed.

(** A valid load holds its graph and the services read back for it. *)
Lemma load_stores l later st manifest ir : valid_load l later st → Forall entry_fine l → l ≠ [] → nodes ir = graph_of_load l later →
  let services := stored_services (graph_entries l later) in
  stores (database st manifest) (nodes ir) services ∧ served ir services.
Proof.
  intros Hv Hf Hne Hir services. pose proof (load_wf _ _ _ Hv Hf Hne) as Hwf. rewrite <-graph_entries_nodes in Hwf, Hir.
  pose proof (entries_grown _ later Hf) as Hg. pose proof (wi_identities _ Hwf) as Hnd. rewrite Hir. split.
  - exact (entries_stored _ Hg Hnd _ _ (valid_written _ _ _ Hv) Hwf).
  - exact (entries_served _ Hg Hnd _ Hir Hwf).
Qed.

Lemma services_counted l : Forall entry_fine l →
  length (omap (fun e : Entry => (fun document => (identity e.1, JObj document)) <$> e.2) l) =
  (length (flat_map own_cpu l) + length (flat_map own_npu l))%nat.
Proof.
  induction 1 as [|e l [_ He] _ IH]; [done|]. cbn [flat_map]. rewrite !length_app.
  destruct (entry_own _ He) as [(Hk & E2 & c & E1 & _)|[(Hk & E1 & w & E2 & _)|(Hk & E1 & E2 & Hs)]]; rewrite E1, E2; cbn [omap list_omap].
  - destruct e as [n [document|]]; cbn; [rewrite IH; lia|discriminate E1].
  - destruct e as [n [document|]]; cbn; [rewrite IH; lia|discriminate E2].
  - destruct He as [? ? ? ->|r c Hc ? ? ? ? ? ?|r w Hc ? ? ? ?]; [exact IH|by destruct (kind e.1)|by rewrite Hc in Hk].
Qed.
End Graph.

(** ** The parts of a stream *)

Section Stream.
Context `{Host} (dumps : json → string).
Hypothesis dumps_nonempty : ∀ j, dumps j ≠ "".
Hypothesis json_dumps_nonempty : ∀ j, json_dumps j ≠ "".

Record stream_parts (files : StreamFiles) (s : Streamed) (l : list Entry) (later : Later) (pairs : list (Node * Node)) (made : list Entry) : Prop := {
  sp_inputs : inputs_ok files s;
  sp_fine : Forall entry_fine l;
  sp_operations : Forall2 (operation_written s) (containers_of s) pairs;
  sp_rows : Forall2 (row_written s) (plain_rows (stream_dataset files)) made;
  sp_pairs : ∀ n, n ∈ both pairs → n ∈ l.*1;
  sp_made : made `sublist_of` l;
  sp_later : ∀ n, n ∈ made.*1 → member n ∈ later;
  sp_targets : Z.of_nat (length (List.filter is_target (stream_dataset files))) = Z.of_nat (length (works (certified s)));
  sp_npu : ∀ e, e ∈ l → kind e.1 = NPU → e ∈ made;
}.

Lemma fine_operations s o pairs : Forall2 (operation_written s) o pairs → Forall entry_fine (plain_entries (both pairs)).
Proof.
  induction 1 as [|x [n m] o pairs Hx _ IH]; [constructor|]. destruct (ow_fine _ _ _ Hx) as [H1 H2]. by repeat (constructor; [done|]).
Qed.

Lemma plain_nodes l : (plain_entries l).*1 = l.
Proof. induction l as [|n l IH]; [done|]. cbn. by f_equal. Qed.

Lemma barriers_entries s raws made : Forall2 (barrier_written s) raws made → Forall entry_fine (plain_entries made).
Proof. induction 1 as [|raw n raws made [Hb _] _ IH]; constructor; done. Qed.

Lemma fine_kind n : entry_fine (n, None) → kind n ≠ NPU.
Proof. intros [_ [Hk _ _ _|r c _ _ _ _ _ Hd _|r w _ _ _ Hd _]]; [|done..]. cbn in Hk. intros E. by rewrite E in Hk. Qed.

Lemma fine_kinds l e : Forall entry_fine (plain_entries l) → e ∈ plain_entries l → kind e.1 ≠ NPU.
Proof.
  intros Hf He. rewrite Forall_forall in Hf. pose proof (Hf _ He) as Hfe.
  apply list_elem_of_In, in_map_iff in He as (n & <- & _). by apply fine_kind.
Qed.

Lemma application_kinds files s available entries later e : application_part files s available entries later → e ∈ entries → kind e.1 ≠ NPU.
Proof.
  unfold application_part. destruct (stream_application files).
  - intros (declaration & p & _ & Hp & [_ Hn _]) He. pose proof (project_application_ok _ _ _ Hp) as Hok.
    apply (list_elem_of_fmap_2 fst) in He. rewrite Hn in He. apply list_elem_of_fmap in He as ([k n] & E & Hin). cbn in E. rewrite E.
    destruct (ao_nodes _ Hok _ _ Hin) as [? Hk|Hk]; by rewrite Hk.
  - intros [-> _] He. by apply not_elem_of_nil in He.
Qed.

Lemma adapt_stream_parts files admission st manifest : adapt_stream dumps files admission = Ok (st, manifest) →
  ∃ s l later pairs made counted, stream_parts files s l later pairs made ∧ valid_load l later st ∧
    lifecycle s = stream_lifecycle files ∧ result_record s files counted st = Ok manifest.
Proof using dumps_nonempty json_dumps_nonempty.
  unfold adapt_stream. intros Ha. apply bind_Ok in Ha as (s & Hs%read_inputs_ok & Ha).
  apply bind_Ok in Ha as (l1 & H1 & Ha). apply bind_Ok in Ha as (l2 & H2 & Ha). apply bind_Ok in Ha as ([] & _ & Ha).
  apply bind_Ok in Ha as ([] & Ht%check_Ok_any%Z.eqb_eq & Ha). apply bind_Ok in Ha as (l3 & H3 & Ha).
  apply bind_Ok in Ha as (bv & Hbv%pget_item & Ha). apply bind_Ok in Ha as (raws & Hraws & Ha).
  apply bind_Ok in Ha as (l4 & H4 & Ha). apply bind_Ok in Ha as (l5 & H5 & Ha). apply bind_Ok in Ha as (st' & Hv & Ha).
  apply bind_Ok in Ha as (result & Hr & [-> ->]%Ok_eq%pair_eq). pose proof Hs as Hin.
  pose proof (write_operations_targets _ _ _ _ _ H1) as Ht1.
  destruct (write_operations_ok _ dumps_nonempty _ _ _ _ (proj2 (io_operations _ _ Hin)) (eq_refl : store empty_loading = new_store) H1) as (pairs & P1 & Q1).
  destruct (write_rows_ok _ dumps_nonempty _ _ Hin _ _ _ _ _ P1 H2) as (made & P2 & Q2 & Ht2).
  assert (P3 : loaded ((plain_entries (both pairs) ++ made) ++ plain_entries (owners s)) (([] ++ map member made.*1) ++ map member (owners s)) (store l3)).
  { unfold owners. destruct (projection s) as [q|]; [by eapply write_owners_ok|]. apply Ok_eq in H3 as <-. cbn. by rewrite !app_nil_r. }
  destruct (write_barriers_ok _ _ _ _ _ _ P3 H4) as (barriers & P4 & Q4).
  destruct (write_application_ok _ _ _ _ _ _ H5 P4) as (apps & more & P5 & Q5 & Q6).
  eexists s, _, _, pairs, made, l5. split; [|split; [exact (loaded_valid _ _ _ _ P5 Hv)|split; [by apply (io_lifecycle _ _ Hin)|done]]].
  assert (Hmade : Forall entry_fine made).
  { apply Forall_forall. intros e He. apply list_elem_of_lookup in He as [i Hi].
    destruct (Forall2_lookup_r _ _ _ _ _ Q2 Hi) as (row & _ & Hrow). apply Hrow. }
  pose proof (fine_operations _ _ _ Q1) as F1. pose proof (owners_entries json_dumps_nonempty _ _ Hin) as F3. pose proof (barriers_entries _ _ _ Q4) as F4.
  split; try done.
  - by rewrite !Forall_app.
  - intros n Hn. rewrite !fmap_app, !elem_of_app. do 4 left. by rewrite plain_nodes.
  - do 3 apply sublist_inserts_r. by apply sublist_inserts_l.
  - intros n Hn. rewrite !elem_of_app. do 2 left. right. apply list_elem_of_In, in_map. by apply list_elem_of_In.
  - unfold targets in Ht2. rewrite Ht in Ht2. fold (targets l1) in Ht2. rewrite Ht1 in Ht2. cbn in Ht2. lia.
  - intros e He Hk. rewrite !elem_of_app in He. destruct He as [[[[He|He]|He]|He]|He]; [..|by eapply application_kinds in Q5]; try done.
    + by apply (fine_kinds _ _ F1) in He.
    + by apply (fine_kinds _ _ F3) in He.
    + by apply (fine_kinds _ _ F4) in He.
Qed.

(** ** Works *)

Lemma sublist_map {A B} (f : A → B) l k : l `sublist_of` k → map f l `sublist_of` map f k.
Proof. induction 1; cbn; by constructor. Qed.

Section Works.
Context (files : StreamFiles) (s : Streamed) (l : list Entry) (later : Later) (pairs : list (Node * Node)) (made : list Entry).
Context (Hp : stream_parts files s l later pairs made).

Definition is_work (e : Entry) : bool := bool_decide (kind e.1 = NPU).

Lemma made_works : length (List.filter is_work made) = length (order_of s).
Proof using Hp.
  destruct Hp as [Hin _ _ Hrows _ _ _ Ht _].
  assert (E1 : length (List.filter is_work made) = length (List.filter is_target (plain_rows (stream_dataset files)))).
  { clear -Hrows. induction Hrows as [|row e rows made Hr _ IH]; [done|]. cbn [List.filter]. unfold is_work at 1.
    pose proof (rw_target _ _ _ Hr) as Hk. destruct (is_target row).
    - rewrite bool_decide_eq_true_2 by by apply Hk. cbn. by f_equal.
    - rewrite bool_decide_eq_false_2; [done|]. intros E. by apply Hk in E. }
  assert (E2 : List.filter is_target (plain_rows (stream_dataset files)) = List.filter is_target (stream_dataset files)).
  { unfold plain_rows. clear. induction (stream_dataset files) as [|row rows IH]; [done|]. cbn. destruct (is_target row) eqn:Et.
    - rewrite (target_uncontained _ Et). cbn. rewrite Et. by f_equal.
    - destruct (negb (is_container row)); cbn; [by rewrite Et|done]. }
  rewrite E1, E2. apply Nat2Z.inj in Ht. rewrite Ht. rewrite <-(length_fmap fst). apply Permutation_length, NoDup_Permutation.
  - destruct (co_ids _ (io_certified _ _ Hin)) as (ids & -> & Hnd & _). apply NoDup_fmap_2; [|done]. intros a b. apply npu_id_inj.
  - apply Hin.
  - apply Hin.
Qed.

(** The works with a node are exactly the submitted ones. *)
Lemma works_submitted k : NoDup (map identity l.*1) → (∃ e, e ∈ l ∧ kind e.1 = NPU ∧ identity e.1 = k) ↔ k ∈ order_of s.
Proof using Hp.
  intros Hnd. pose proof made_works as Hlen. destruct Hp as [Hin _ _ Hrows _ Hsubl _ _ Hnpu].
  set (names := map identity (List.filter is_work made).*1).
  assert (Hsub : ∀ x, x ∈ names → x ∈ order_of s).
  { intros x Hx. apply list_elem_of_In, in_map_iff in Hx as (n & <- & Hn%list_elem_of_In). apply list_elem_of_fmap in Hn as (e & -> & He%list_elem_of_In).
    apply filter_In in He as [He%list_elem_of_In Hw%bool_decide_eq_true]. apply list_elem_of_lookup in He as [i Hi].
    destruct (Forall2_lookup_r _ _ _ _ _ Hrows Hi) as (row & _ & Hrow).
    destruct (rw_accepted _ _ _ Hrow Hw) as (position & Hpos & _). by eapply index_of_elem. }
  assert (Hnd' : NoDup names).
  { assert (Hmade : NoDup (map identity made.*1)) by (eapply sublist_NoDup; [exact Hnd|]; by do 2 apply sublist_map).
    clear -Hmade. subst names. induction made as [|e rest IH]; [constructor|]. cbn in Hmade. apply NoDup_cons in Hmade as [Hn Hmade].
    cbn [List.filter]. destruct (is_work e); [|by apply IH]. cbn. constructor; [|by apply IH]. intros Hx. apply Hn.
    apply list_elem_of_In, in_map_iff in Hx as (n & E & Hx%list_elem_of_In). apply list_elem_of_fmap in Hx as (e' & -> & Hx%list_elem_of_In).
    apply filter_In in Hx as [Hx%list_elem_of_In _]. rewrite <-E. apply list_elem_of_In, in_map, list_elem_of_In. by apply list_elem_of_fmap_2. }
  split.
  - intros (e & He & Hk & <-). apply Hsub. apply list_elem_of_In, in_map, list_elem_of_In, list_elem_of_fmap_2, list_elem_of_In, filter_In.
    split; [by apply list_elem_of_In, Hnpu|by apply bool_decide_eq_true].
  - intros Hk.
    assert (Hperm : names ≡ₚ order_of s).
    { apply submseteq_length_Permutation; [by apply NoDup_submseteq|]. subst names. by rewrite length_map, length_fmap, Hlen. }
    rewrite <-Hperm in Hk. apply list_elem_of_In, in_map_iff in Hk as (n & <- & Hn%list_elem_of_In). apply list_elem_of_fmap in Hn as (e & -> & He%list_elem_of_In).
    apply filter_In in He as [He%list_elem_of_In Hw%bool_decide_eq_true]. exists e. split_and!; [|done..]. by eapply elem_of_sublist.
Qed.
End Works.

Lemma texts_of_order listed order : map_res Adapter.text_value listed = Ok order → ∀ k, k ∈ order ↔ JStr k ∈ listed.
Proof.
  intros Hm%map_res_Ok k. induction Hm as [|x y listed order Hx _ IH]; [by rewrite !elem_of_nil|].
  rewrite !elem_of_cons, IH. apply text_Ok in Hx as [Ex _]. change (x = JStr y) in Ex. subst x. split; intros [E|E]; [left; by rewrite E|by right|left; congruence|by right].
Qed.

(** ** Edges *)

Lemma milestone_value_inj a b : milestone_value a = milestone_value b → a = b.
Proof. by destruct a, b. Qed.

(** What the tables hold for a graph with their edges. *)
Lemma table_edge st (k : list Node) t d : edge_rows st ≡ₚ edges_of k →
  {| edge_node := t; edge_parent := node d; edge_milestone := Some (milestone_value (milestone d)) |} ∈ edge_rows st →
  ∃ n, n ∈ k ∧ identity n = t ∧ d ∈ dependencies n.
Proof.
  intros Hp. rewrite Hp. intros Hin. apply list_elem_of_In, in_flat_map in Hin as (n & Hn%list_elem_of_In & He).
  apply in_map_iff in He as ([u m] & E & Hd%list_elem_of_In). injection E as Hid Hu Hm%milestone_value_inj. exists n. split_and!; [done|done|].
  destruct d as [u' m']. cbn in Hu, Hm. by subst u' m'.
Qed.

Lemma written_edge l later st e d : valid_load l later st → e ∈ l.*1 → d ∈ dependencies e →
  {| edge_node := identity e; edge_parent := node d; edge_milestone := Some (milestone_value (milestone d)) |} ∈ edge_rows st.
Proof.
  intros Hv He Hd. rewrite (vl_edges _ _ _ Hv). apply list_elem_of_In, in_flat_map. exists (grown later e). split.
  - by apply list_elem_of_In, list_elem_of_In, in_map, list_elem_of_In.
  - apply (in_map (edge_of (grown later e))), list_elem_of_In. cbn. apply elem_of_app. by left.
Qed.

Lemma later_written l later st n x d : valid_load l later st → n ∈ l.*1 → x = identity n → (x, d) ∈ later →
  {| edge_node := x; edge_parent := node d; edge_milestone := Some (milestone_value (milestone d)) |} ∈ edge_rows st.
Proof.
  intros Hv He -> Hd. rewrite (vl_edges _ _ _ Hv). apply list_elem_of_In, in_flat_map. exists (grown later n). split.
  - by apply list_elem_of_In, list_elem_of_In, in_map, list_elem_of_In.
  - apply (in_map (edge_of (grown later n))), list_elem_of_In. cbn. apply elem_of_app. right. unfold later_of.
    apply (list_elem_of_fmap_2 snd _ (identity n, d)). apply list_elem_of_In, filter_In. split; [by apply list_elem_of_In|apply String.eqb_refl].
Qed.

(** ** The properties *)

Definition scope_of (lifecycle : record) : string :=
  if eq_str (pget lifecycle "source_kind") "PRODUCER_DECLARED" then "BOUND_DATASET" else "SYNTHETIC".

Lemma result_scope s files counted st manifest : inputs_ok files s → result_record s files counted st = Ok manifest →
  manifest_scope (database st (JObj manifest)) = Ok (scope_of (lifecycle s)) ∧
  pget manifest "node_count" = JInt (count st) ∧ pget manifest "service_count" = JInt (service_count st).
Proof.
  intros Hin Hr. pose proof (io_scope _ _ Hin) as Hscope. unfold result_record in Hr. apply bind_Ok in Hr as (sc & Hsc%pget_item & Hr).
  apply bind_Ok in Hr as (ds & _ & <-%Ok_eq). split; [|done]. unfold scope_of. rewrite Hsc in *. unfold manifest_scope.
  cbn [database db_manifest object_value mbind res_bind].
  match goal with |- context [in_strs ?x _] => change x with sc end. rewrite Hscope. done.
Qed.

(** C6: A dataset that is streamed into a database is a graph and its services
    for the scheduler.  When [adapt_stream] returns, there are a well-formed
    graph and services that fit it such that the tables hold exactly the two:
    the rows of the nodes read back as the nodes, the edges are theirs, and the
    document of every service node reads back as its service; the manifest
    gives the scope the scheduler derives and counts the nodes and the
    services; and the works with a service are exactly those of the submission
    order of the contract. *)
Theorem stream_stores files admission st manifest : adapt_stream dumps files admission = Ok (st, manifest) →
  ∃ ir services, stores (database st (JObj manifest)) (nodes ir) services ∧ served ir services ∧
    scope ir = scope_of (stream_lifecycle files) ∧ manifest_scope (database st (JObj manifest)) = Ok (scope ir) ∧
    pget manifest "node_count" = JInt (Z.of_nat (length (nodes ir))) ∧
    pget manifest "service_count" = JInt (Z.of_nat (length (cpu services) + length (npu services))) ∧
    ∃ submission, pget (stream_lifecycle files) "submission_order" = JArr submission ∧ ∀ k, k ∈ (npu services).*1 ↔ JStr k ∈ submission.
Proof using dumps_nonempty json_dumps_nonempty.
  intros (s & l & later & pairs & made & counted & Hp & Hv & Hlife & Hr)%adapt_stream_parts.
  pose proof (sp_inputs _ _ _ _ _ _ Hp) as Hin. pose proof (sp_fine _ _ _ _ _ _ Hp) as Hf.
  assert (Hne : l ≠ []).
  { destruct (containers_of s) as [|o os] eqn:Eo; [by apply (io_nonempty _ _ Hin) in Eo|].
    pose proof (sp_operations _ _ _ _ _ _ Hp) as Hops. rewrite Eo in Hops. destruct pairs as [|[n m] pairs']; [by inversion Hops|].
    intros ->. pose proof (sp_pairs _ _ _ _ _ _ Hp n ltac:(by left)) as Hx. by apply not_elem_of_nil in Hx. }
  set (ir := {| nodes := graph_of_load l later; scope := scope_of (lifecycle s); source_sha256 := "" |}).
  destruct (load_stores _ _ _ (JObj manifest) ir Hv Hf Hne eq_refl) as [Hst Hsv].
  destruct (result_scope _ _ _ _ _ Hin Hr) as (Hscope & Hnodes & Hservices).
  exists ir, (stored_services (graph_entries l later)). rewrite <-Hlife. split_and!; try done.
  - rewrite Hnodes, (vl_count _ _ _ Hv). cbn [nodes ir]. unfold graph_of_load. by rewrite length_map, length_fmap.
  - rewrite Hservices, (vl_service_count _ _ _ Hv). cbn [stored_services cpu npu]. rewrite <-services_counted by by apply entries_grown.
    rewrite (wr_services _ _ (valid_written _ _ _ Hv)). done.
  - destruct (io_submission _ _ Hin) as (listed & Hl & Ho). exists listed. split; [done|]. intros k.
    rewrite (sv_npu _ _ Hsv), <-(texts_of_order _ _ Ho), <-(works_submitted _ _ _ _ _ _ Hp k) by apply Hv.
    split.
    + intros (n & Hn & Hk & Hs). cbn [nodes ir] in Hn. rewrite <-graph_entries_nodes in Hn.
      apply list_elem_of_fmap in Hn as (e & -> & He). apply list_elem_of_In, in_map_iff in He as (e' & <- & He%list_elem_of_In).
      rewrite Forall_forall in Hf. destruct (Hf _ He) as [_ Hserved]. exists e'. cbn in Hk, Hs. split; [done|].
      destruct Hserved as [? Hs' _ _|r c Hc _ _ _ _ _ _|r w Hk' Hs' _ _ _]; [congruence|by destruct (kind e'.1)|]. split; congruence.
    + intros (e & He & Hk & <-). exists (grown later e.1). rewrite Forall_forall in Hf. destruct (Hf _ He) as [_ Hserved].
      split_and!; [|by cbn; rewrite Hk|].
      * cbn [nodes ir]. by apply list_elem_of_In, in_map, list_elem_of_In, list_elem_of_fmap_2.
      * cbn. destruct Hserved as [Hk' _ _ _|r c Hc _ _ _ _ _ _|r w _ Hs' _ _ _]; [by rewrite Hk in Hk'|by rewrite Hk in Hc|done].
Qed.

(** What the container of [o] or the contract makes an operation wait for. *)
Definition operation_waits (files : StreamFiles) (row : record) (o u : string) : Prop :=
  (∃ values, pget row "dependencies" = JArr values ∧ JStr u ∈ values) ∨
  (∃ entries entered, pget (stream_lifecycle files) "entry_dependencies" = JObj entries ∧ sget o entries = Some (JArr entered) ∧ JStr u ∈ entered).

Section Timed.
Context (files : StreamFiles) (s : Streamed) (l : list Entry) (later : Later) (pairs : list (Node * Node)) (made : list Entry).
Context (Hp : stream_parts files s l later pairs made) (st : ExecutionStore) (Hv : valid_load l later st).
Context (ir : ExecutionIR) (c : Qc) (times : list ScheduledNode) (Hedges : edge_rows st ≡ₚ edges_of (nodes ir)).
Context (Hwf : wf_ir (nodes ir)) (Htl : timeline c (nodes ir) times) (Hperm : map scheduled_identity times ≡ₚ map identity (nodes ir)).

Lemma written_ready e u : e ∈ l.*1 → result_edge u ∈ dependencies e → (ready_of times u <= start_of times (identity e))%Qc.
Proof using Hv Hedges Hwf Htl Hperm.
  intros He Hd. pose proof (written_edge _ _ _ _ _ Hv He Hd) as Hrow. apply (table_edge _ _ _ (result_edge u) Hedges) in Hrow as (n & Hn & Hid & Hdep).
  apply (edge_ready ir c times Hwf Htl Hperm). by exists n.
Qed.

Lemma later_ready n x u : n ∈ l.*1 → x = identity n → (x, result_edge u) ∈ later → (ready_of times u <= start_of times x)%Qc.
Proof using Hv Hedges Hwf Htl Hperm.
  intros Hn E Hd. pose proof (later_written _ _ _ _ _ _ Hv Hn E Hd) as Hrow. apply (table_edge _ _ _ (result_edge u) Hedges) in Hrow as (m & Hm & Hid & Hdep).
  apply (edge_ready ir c times Hwf Htl Hperm). by exists m.
Qed.

Lemma written_accepted e u : e ∈ l.*1 → {| node := u; milestone := ACCEPTED |} ∈ dependencies e → (start_of times u <= start_of times (identity e))%Qc.
Proof using Hv Hedges Hwf Htl Hperm.
  intros He Hd. pose proof (written_edge _ _ _ _ _ Hv He Hd) as Hrow. apply (table_edge _ _ _ {| node := u; milestone := ACCEPTED |} Hedges) in Hrow as (n & Hn & Hid & Hdep).
  destruct (graph_entry ir c times Htl Hperm (identity e)) as (s1 & Hs1 & _); [rewrite <-Hid; by apply list_elem_of_In, in_map, list_elem_of_In|].
  destruct (timeline_entry _ _ _ _ _ Htl Hs1) as (_ & m & Hm & Hmid & Hdeps).
  assert (m = n) as -> by (eapply NoDup_map_inj; [apply Hwf|done..|congruence]).
  destruct (Hdeps _ Hdep) as (s0 & Hs0 & Hle). cbn in Hs0, Hle. unfold start_of. by rewrite Hs0, Hs1.
Qed.

Lemma operation_pair o row : (o, row) ∈ containers_of s → ∃ pair, operation_written s (o, row) pair ∧ pair.1 ∈ l.*1 ∧ pair.2 ∈ l.*1.
Proof using Hp.
  intros Ho. apply list_elem_of_lookup in Ho as [i Hi]. destruct (Forall2_lookup_l _ _ _ _ _ (sp_operations _ _ _ _ _ _ Hp) Hi) as (pair & Hpair & Hw).
  exists pair. split; [done|]. apply list_elem_of_lookup_2 in Hpair.
  split; apply (sp_pairs _ _ _ _ _ _ Hp); unfold both; apply list_elem_of_In, in_flat_map; exists pair; (split; [by apply list_elem_of_In|]); [by left|right; by left].
Qed.

(** A row between the entry and the exit of its operation. *)
Lemma row_bracketed row : row ∈ stream_dataset files → is_container row = false →
  ∃ t o, pget row "node_id" = JStr t ∧ pget row "operation_node_id" = JStr o ∧
    (ready_of times (o +:+ ":enter") <= start_of times t)%Qc ∧ (ready_of times t <= start_of times (o +:+ ":exit"))%Qc.
Proof using Hp Hv Hedges Hwf Htl Hperm.
  intros Hin Hc. assert (Hrow : row ∈ plain_rows (stream_dataset files)) by (apply list_elem_of_In, filter_In; split; [by apply list_elem_of_In|by rewrite Hc]).
  apply list_elem_of_lookup in Hrow as [i Hi]. destruct (Forall2_lookup_l _ _ _ _ _ (sp_rows _ _ _ _ _ _ Hp) Hi) as (e & He%list_elem_of_lookup_2 & Hw).
  destruct (rw_operation _ _ _ Hw) as [Hop Hknown]. exists (identity e.1), (operation e.1). split; [apply Hw|]. split; [done|]. split.
  - apply written_ready; [|apply Hw]. apply list_elem_of_fmap_2. eapply elem_of_sublist; [done|apply Hp].
  - apply list_elem_of_fmap in Hknown as ([o container] & E & Hknown). cbn in E. destruct (operation_pair _ _ Hknown) as (pair & Hpair & _ & Hexit).
    rewrite E. apply (later_ready pair.2); [done|by destruct (ow_exit _ _ _ Hpair)|].
    pose proof (sp_later _ _ _ _ _ _ Hp e.1 ltac:(by apply list_elem_of_fmap_2)) as Hl. unfold member in Hl. by rewrite E in Hl.
Qed.

Lemma operation_known row o : row ∈ stream_dataset files → is_container row = true → pget row "node_id" = JStr o → (o, row) ∈ containers_of s.
Proof using Hp.
  intros Hin Hc Ho. destruct (io_containers _ _ (sp_inputs _ _ _ _ _ _ Hp) row Hin Hc) as (o' & Ho' & ?). congruence.
Qed.

(** An operation after those it waits for. *)
Lemma operation_after row row' o u : row ∈ stream_dataset files → is_container row = true → pget row "node_id" = JStr o →
  row' ∈ stream_dataset files → is_container row' = true → pget row' "node_id" = JStr u → operation_waits files row o u →
  (ready_of times (u +:+ ":exit") <= start_of times (o +:+ ":enter"))%Qc.
Proof using Hp Hv Hedges Hwf Htl Hperm.
  intros Hin Hc Ho Hin' Hc' Hu Hwait. pose proof (operation_known _ _ Hin Hc Ho) as Hko. pose proof (operation_known _ _ Hin' Hc' Hu) as Hku.
  destruct (operation_pair _ _ Hko) as (pair & Hpair & Henter & _). destruct (ow_enter _ _ _ Hpair) as [Hid _]. cbn in Hid. rewrite <-Hid.
  apply written_ready; [done|]. destruct (ow_waits _ _ _ Hpair) as (own & entered & Hown & Hent & Hdeps). cbn [fst snd] in Hown, Hent.
  assert (Hedge : edge_to (containers_of s) u = result_edge (u +:+ ":exit")).
  { unfold edge_to. by rewrite (proj2 (amem_spec _ String.eqb_eq u (containers_of s))) by by apply (list_elem_of_fmap_2 fst) in Hku. }
  rewrite <-Hedge. apply Hdeps, elem_of_app. pose proof (sp_inputs _ _ _ _ _ _ Hp) as Hi.
  destruct Hwait as [(values & Hvalues & Hx)|(entries & entered' & Hentries & Hget & Hx)]; [left|right].
  - by assert (values = own) as <- by congruence.
  - rewrite <-(io_lifecycle _ _ Hi), (io_entries _ _ Hi) in Hentries. assert (entries = entry_of s) as -> by congruence.
    by assert (entered' = entered) as <- by congruence.
Qed.

Lemma index_of_lookup k i : NoDup k → ∀ x, k !! i = Some x → index_of x k = Some i.
Proof.
  revert i. induction k as [|y k IH]; intros i Hnd x Hx; [done|]. apply NoDup_cons in Hnd as [Hy Hnd]. cbn.
  destruct i as [|i]; cbn in Hx; [injection Hx as ->; by rewrite String.eqb_refl|].
  destruct (String.eqb_spec y x) as [->|]; [by apply list_elem_of_lookup_2 in Hx|]. by rewrite (IH i Hnd x Hx).
Qed.

Lemma submitted_after i a b : order_of s !! i = Some a → order_of s !! S i = Some b → (start_of times a <= start_of times b)%Qc.
Proof using Hp Hv Hedges Hwf Htl Hperm.
  intros Ha Hb. pose proof (sp_inputs _ _ _ _ _ _ Hp) as Hi.
  destruct (proj2 (works_submitted _ _ _ _ _ _ Hp b (vl_names _ _ _ Hv))) as (e & He & Hk & <-); [by apply list_elem_of_lookup_2 in Hb|].
  apply written_accepted; [by apply list_elem_of_fmap_2|]. pose proof (sp_npu _ _ _ _ _ _ Hp e He Hk) as Hmade. apply list_elem_of_lookup in Hmade as [j Hj].
  destruct (Forall2_lookup_r _ _ _ _ _ (sp_rows _ _ _ _ _ _ Hp) Hj) as (row & _ & Hw).
  destruct (rw_accepted _ _ _ Hw Hk) as (position & Hpos & Hacc). rewrite (index_of_lookup _ _ (io_order _ _ Hi) _ Hb) in Hpos. injection Hpos as <-.
  specialize (Hacc i eq_refl). by rewrite (nth_lookup_Some _ _ _ _ Ha) in Hacc.
Qed.
End Timed.

(** C7: What every timeline of a streamed dataset keeps.  Whatever graph has
    the edges that [adapt_stream] stored, in every timeline of it each row of
    the dataset that is no container starts after the entry of its operation
    and is ready before the exit of that operation starts; an operation is
    entered after the exit of every operation its container, or the entry
    dependencies of the contract, make it wait for; and the works start in the
    order of their submission. *)
Theorem stream_brackets files admission st manifest ir c times : adapt_stream dumps files admission = Ok (st, manifest) →
  edge_rows st ≡ₚ edges_of (nodes ir) → wf_ir (nodes ir) → timeline c (nodes ir) times →
  map scheduled_identity times ≡ₚ map identity (nodes ir) →
  (∀ row, row ∈ stream_dataset files → is_container row = false → ∃ t o, pget row "node_id" = JStr t ∧ pget row "operation_node_id" = JStr o ∧
     (ready_of times (o +:+ ":enter") <= start_of times t)%Qc ∧ (ready_of times t <= start_of times (o +:+ ":exit"))%Qc) ∧
  (∀ row row' o u, row ∈ stream_dataset files → is_container row = true → pget row "node_id" = JStr o →
     row' ∈ stream_dataset files → is_container row' = true → pget row' "node_id" = JStr u → operation_waits files row o u →
     (ready_of times (u +:+ ":exit") <= start_of times (o +:+ ":enter"))%Qc) ∧
  ∃ submission, pget (stream_lifecycle files) "submission_order" = JArr (map JStr submission) ∧
    ∀ i a b, submission !! i = Some a → submission !! S i = Some b → (start_of times a <= start_of times b)%Qc.
Proof using dumps_nonempty json_dumps_nonempty.
  intros (s & l & later & pairs & made & counted & Hp & Hv & Hlife & _)%adapt_stream_parts Hedges Hwf Htl Hperm. split; [|split].
  - intros row. by eapply row_bracketed.
  - intros row row' o u. by eapply operation_after.
  - destruct (io_submission _ _ (sp_inputs _ _ _ _ _ _ Hp)) as (listed & Hl & Ho). exists (order_of s). split.
    + rewrite <-Hlife, Hl. f_equal. clear -Ho. apply map_res_Ok in Ho. induction Ho as [|x y listed order Hx _ IH]; [done|]. cbn.
      apply text_Ok in Hx as [Ex _]. change (x = JStr y) in Ex. by f_equal.
    + intros i a b. by eapply submitted_after.
Qed.
End Stream.
