(* ===== verification/StreamSample.v ===== *)
(** * A streamed sample

    The pipelined dataset of PipelineSample written to a store, with its
    application: the properties of the streamed adaptation applied to it. *)
From S2P Require Import Prelude Records Rational ExecutionIR Services Sequence Admission Provider.
From S2P Require Import Scheduler SchedulerTheorems SqliteGraph SqliteScheduler SqliteGraphTheorems Adapter AdapterTheorems AdapterPipeline Application.
From S2P Require Import PipelineSample ExecutionStore StreamAdapter StreamTheorems ExecutionIR.
Set Default Goal Selector "!".

#[local] Existing Instance text_host.

Lemma dump_nonempty j : dump j ≠ "".
Proof. destruct j as [|[]|z| | | |]; try discriminate. apply dec_nonempty. Qed.

Lemma json_dumps_nonempty j : json_dumps j ≠ "".
Proof. exact (dump_nonempty j). Qed.

Definition sample_files : StreamFiles := {|
  stream_lifecycle := application_lifecycle; stream_dataset := sample_rows; stream_results := sample_results;
  stream_application := Some application_rows; lifecycle_digest := "l"; stream_digests := sample_digests |}.

Abbreviation sample_stream := (adapt_stream dump sample_files certified_results).
Definition streamed (r : res (ExecutionStore * record)) : ExecutionStore * record := match r with Ok p => p | Err _ => (new_store, []) end.
Definition streamed_sample : ExecutionStore * record := streamed sample_stream.
Lemma streams_of r : is_ok r = true → r = Ok ((streamed r).1, (streamed r).2).
Proof. by destruct r as [[st m]|]. Qed.

Example sample_streams_ok : is_ok sample_stream = true.
Proof. vm_compute. reflexivity. Qed.
Lemma sample_streams : sample_stream = Ok (streamed_sample.1, streamed_sample.2).
Proof. exact (streams_of _ sample_streams_ok). Qed.

Lemma stream_stores_witness : ∃ ir services, stores (database streamed_sample.1 (JObj streamed_sample.2)) (nodes ir) services ∧ scope ir = "SYNTHETIC".
Proof.
  destruct (stream_stores dump dump_nonempty json_dumps_nonempty sample_files certified_results _ _ sample_streams)
    as (ir & services & Hst & _ & Hscope & _).
  exists ir, services. split; [exact Hst|]. rewrite Hscope. reflexivity.
Defined.

#[local] Instance edge_eq_dec : EqDecision Edge.
Proof. solve_decision. Defined.

(** The graph that the adaptation of the dataset as a whole returns has the
    stored edges. *)
Definition pipeline_files : StreamFiles := {|
  stream_lifecycle := sample_lifecycle; stream_dataset := sample_rows; stream_results := sample_results;
  stream_application := None; lifecycle_digest := "l"; stream_digests := sample_digests |}.

Abbreviation pipeline_stream := (adapt_stream dump pipeline_files certified_results).
Definition streamed_pipeline : ExecutionStore * record := streamed pipeline_stream.

Example pipeline_streams_ok : is_ok pipeline_stream = true.
Proof. vm_compute. reflexivity. Qed.
Lemma pipeline_streams : pipeline_stream = Ok (streamed_pipeline.1, streamed_pipeline.2).
Proof. exact (streams_of _ pipeline_streams_ok). Qed.

Lemma pipeline_edges : edge_rows streamed_pipeline.1 ≡ₚ edges_of (nodes sample_dataset.1).
Proof. apply (bool_decide_unpack _). vm_compute. exact I. Qed.

Lemma stream_brackets_witness : ∃ c times, timeline c (nodes sample_dataset.1) times ∧
  ∀ row, row ∈ sample_rows → is_container row = false → ∃ t o, pget row "node_id" = JStr t ∧ pget row "operation_node_id" = JStr o ∧
    (ready_of times (o +:+ ":enter") <= start_of times t)%Qc ∧ (ready_of times t <= start_of times (o +:+ ":exit"))%Qc.
Proof.
  destruct pipeline_timeline as (c & times & Htl & Hperm). destruct (adapted_served _ _ _ _ _ _ sample_adapts) as [Hwf _ _ _ _].
  destruct (stream_brackets dump dump_nonempty json_dumps_nonempty pipeline_files certified_results _ _ sample_dataset.1 c times pipeline_streams pipeline_edges
    Hwf Htl Hperm) as (Hrows & _ & _).
  exists c, times. split; [exact Htl|exact Hrows].
Defined.
