(* ===== verification/Clock.v ===== *)
(** * Operating clocks

    [scripts/evaluation_clock_contract.py] reads the observation of one tested
    clock, with the artifacts it is bound to, and [select_clock] of
    [scripts/evaluation_clock.py] chooses among the observations of one design.

    What they take of Python's library comes first: code points and
    [str.strip], [fractions.Fraction] of a text (the grammar of Python 3.12; its
    digits are the ASCII ones) and back, [pathlib] and [json].  The disk is its regular files by the place
    where a path ends, after links; the syntax of JSON is the parameter of
    [Documents]. *)
From S2P Require Import Prelude Rational Records Optrace.
Set Default Goal Selector "!".
Open Scope Z_scope.

(** ** Texts *)

Definition byte (c : ascii) : Z := Z.of_N (N_of_ascii c).
Definition continuation (c : ascii) : bool := (128 <=? byte c) && (byte c <? 192).

(** The code points of a UTF-8 text: a continuation byte belongs to the byte before it. *)
Fixpoint chars (s : string) : list string :=
  match s with
  | EmptyString => []
  | String c s =>
      match chars s with
      | (String d _ as point) :: points =>
          if continuation d then String c point :: points else String c EmptyString :: point :: points
      | points => String c EmptyString :: points
      end
  end.

Definition chr (l : list Z) : string := foldr (fun z s => String (ascii_of_N (Z.to_N z)) s) EmptyString l.
(** The characters [str.isspace] holds of. *)
Definition spaces : list string :=
  map chr ([[9]; [10]; [11]; [12]; [13]; [28]; [29]; [30]; [31]; [32]; [194; 133]; [194; 160]; [225; 154; 128];
            [226; 128; 168]; [226; 128; 169]; [226; 128; 175]; [226; 129; 159]; [227; 128; 128]]
           ++ map (fun k => [226; 128; 128 + Z.of_nat k]) (seq 0 11)).
Definition is_space (point : string) : bool := str_in point spaces.

Fixpoint drop_while {A} (p : A → bool) (l : list A) : list A :=
  match l with
  | [] => []
  | x :: l' => if p x then drop_while p l' else l
  end.
Definition concat_points (l : list string) : string := foldr String.append EmptyString l.
(** [s.lstrip()] and [s.rstrip()] with the characters to drop, and [s.strip()]. *)
Definition lstrip (p : string → bool) (s : string) : string := concat_points (drop_while p (chars s)).
Definition rstrip (p : string → bool) (s : string) : string := concat_points (reverse (drop_while p (reverse (chars s)))).
Definition strip (s : string) : string := rstrip is_space (lstrip is_space s).

(** ** [fractions.Fraction] *)

Definition is_digit (c : ascii) : bool := match digit_value c with Some _ => true | None => false end.

(** [\d+(_\d+)*]: the digits without their separators, and what follows. *)
Fixpoint digit_tail (s : string) : string * string :=
  match s with
  | EmptyString => (EmptyString, EmptyString)
  | String c s' =>
      if is_digit c then let (d, r) := digit_tail s' in (String c d, r)
      else if Ascii.eqb c "_" then
        match s' with
        | String c' s'' =>
            if is_digit c' then let (d, r) := digit_tail s'' in (String c' d, r) else (EmptyString, s)
        | EmptyString => (EmptyString, s)
        end
      else (EmptyString, s)
  end.
Definition digit_group (s : string) : string * string :=
  match s with
  | String c _ => if is_digit c then digit_tail s else (EmptyString, s)
  | EmptyString => (EmptyString, EmptyString)
  end.

Definition literal_error (s : string) : exn := ValueError ("Invalid literal for Fraction: '" +:+ s +:+ "'").
(** [int(d or '0')]: a text of more than 4300 digits is refused. *)
Definition int_of (d : string) : res Z :=
  if (4300 <? String.length d)%nat then Err (ValueError "Exceeds the limit (4300 digits) for integer string conversion")
  else match d with EmptyString => Ok 0 | _ => Ok (default 0 (digits d)) end.

(** [sign], an optional one. *)
Definition take_sign (s : string) : Z * string :=
  match s with
  | String c s' => if Ascii.eqb c "-" then (-1, s') else if Ascii.eqb c "+" then (1, s') else (1, s)
  | EmptyString => (1, EmptyString)
  end.
(** The parts of a literal: [num], [denom], [decimal] and [exp]. *)
Inductive literal : Type :=
  | Ratio (num denom : string)
  | Decimal (num fraction : string) (exp_sign : Z) (exp : string).

Definition take_fraction (s : string) : string * string :=
  match s with
  | String c s' => if Ascii.eqb c "." then digit_group s' else (EmptyString, s)
  | EmptyString => (EmptyString, EmptyString)
  end.
Definition take_exponent (s : string) : option (Z * string * string) :=
  match s with
  | String c s' =>
      if Ascii.eqb c "E" || Ascii.eqb c "e" then
        let (sign, s2) := take_sign s' in
        let (e, rest) := digit_group s2 in
        if String.eqb e EmptyString then None else Some (sign, e, rest)
      else Some (1, EmptyString, s)
  | EmptyString => Some (1, EmptyString, EmptyString)
  end.
Definition at_end (s : string) : bool := String.eqb (lstrip is_space s) EmptyString.

(** [_RATIONAL_FORMAT.match(s)]. *)
Definition literal_of (s : string) : option (Z * literal) :=
  let (sign, body) := take_sign (lstrip is_space s) in
  let (num, rest) := digit_group body in
  if String.eqb num EmptyString && String.eqb (take_fraction rest).1 EmptyString then None
  else match lstrip is_space rest with
  | String "/" after =>
      let (denom, rest) := digit_group (lstrip is_space after) in
      if negb (String.eqb denom EmptyString) && at_end rest then Some (sign, Ratio num denom) else None
  | _ =>
      let (dec, rest) := take_fraction rest in
      match take_exponent rest with
      | Some (exp_sign, exp, rest) => if at_end rest then Some (sign, Decimal num dec exp_sign exp) else None
      | None => None
      end
  end.

(** [Fraction(s)]. *)
Definition parse_fraction (s : string) : res Qc :=
  match literal_of s with
  | None => Err (literal_error s)
  | Some (sign, Ratio num denom) =>
      let* n := int_of num in
      let* d := int_of denom in
      fraction (sign * n) d
  | Some (sign, Decimal num dec exp_sign exp) =>
      let* n := int_of num in
      let* f := int_of dec in
      let* e := int_of exp in
      let scale := 10 ^ Z.of_nat (String.length dec) in
      let numerator := n * scale + f in
      if 0 <=? exp_sign * e then fraction (sign * (numerator * 10 ^ e)) scale
      else fraction (sign * numerator) (scale * 10 ^ e)
  end.

(** [str(x)]. *)
Definition show_fraction (x : Qc) : string :=
  match Qden x with
  | 1%positive => dec (Qnum x)
  | d => dec (Qnum x) +:+ "/" +:+ dec (Zpos d)
  end.

(** ** [pathlib] *)

(** A pure POSIX path: its root ([""], ["/"] or ["//"]) and its parts. *)
Record Path := { root : string; parts : list string }.
#[export] Instance Path_eq_dec : EqDecision Path.
Proof. solve_decision. Defined.

Definition path_root (s : string) : string :=
  match s with
  | String "/" (String "/" (String "/" _)) => "/"
  | String "/" (String "/" _) => "//"
  | String "/" _ => "/"
  | _ => ""
  end.
(** [Path(s)], [str(p)], [p.is_absolute()], [p / q] and [p.parent]. *)
Definition path_of (s : string) : Path := {| root := path_root s; parts := path_parts s |}.
Definition path_text (p : Path) : string :=
  match root p, parts p with
  | "", [] => "."
  | r, l => r +:+ join "/" l
  end.
Definition absolute (p : Path) : bool := negb (String.eqb (root p) "").
Definition joinpath (p q : Path) : Path :=
  if absolute q then q else {| root := root p; parts := parts p ++ parts q |}.
Definition parent (p : Path) : Path := {| root := root p; parts := take (pred (length (parts p))) (parts p) |}.

(** ** The disk *)

(** The regular files by the place a path resolves to, the paths that are
    symbolic links, [resolve] and the places that can be written. *)
Record Disk := {
  file : Path → option string;
  is_symlink : Path → bool;
  resolve : Path → Path;
  writable : Path → bool;
}.
Definition is_file (d : Disk) (p : Path) : bool := match file d (resolve d p) with Some _ => true | None => false end.
Definition read_bytes (d : Disk) (p : Path) : res string :=
  match file d (resolve d p) with Some s => Ok s | None => Err (OSError (path_text p)) end.
Definition write_text (d : Disk) (p : Path) (s : string) : res Disk :=
  if writable d (resolve d p) then
    Ok {| file := fun q => if decide (q = resolve d p) then Some s else file d q;
          is_symlink := is_symlink d; resolve := resolve d; writable := writable d |}
  else Err (OSError (path_text p)).

(** Reading a text translates the ends of lines. *)
Definition newline : string := chr [10].
Fixpoint universal_newlines (s : string) : string :=
  match s with
  | EmptyString => EmptyString
  | String c s' =>
      if byte c =? 13 then
        match s' with
        | String d s'' => if byte d =? 10 then String d (universal_newlines s'') else newline +:+ universal_newlines s'
        | EmptyString => newline
        end
      else String c (universal_newlines s')
  end.

(** [json.loads] up to its object hook, and the check that bytes are UTF-8. *)
Class Documents := {
  json_syntax : string → res json;
  utf8 : string → bool;
}.
Definition read_text `{Documents} (d : Disk) (p : Path) : res string :=
  let* s := read_bytes d p in
  if utf8 s then Ok (universal_newlines s) else Err (ValueError "invalid UTF-8").

(** ** [evaluation_clock_contract.py] *)

Definition FIELDS : list string :=
  ["schema"; "version"; "execution_kind"; "profile"; "top"; "top_scope"; "source";
   "netlist"; "constraints"; "tool_report"; "hardware_contract_sha256"; "tool";
   "technology"; "memory_implementation"; "memory_interface"; "timing_stage";
   "frequency_hz"; "array_count"; "independent_macs_per_pe_per_cycle"; "peak_basis";
   "tool_exit_code"; "setup_slack_ns"; "hold_slack_ns"; "timed_paths";
   "unconstrained_paths"; "fit"; "resource_usage"; "resource_limits"].
Definition MEASUREMENTS : list string :=
  ["top"; "frequency_hz"; "tool_exit_code"; "setup_slack_ns"; "hold_slack_ns";
   "timed_paths"; "unconstrained_paths"; "fit"; "resource_usage"; "resource_limits"].

Definition require (condition : bool) (detail : string) : res unit := check condition (ClockError detail).
Definition require_res (condition : res bool) (detail : string) : res unit := require_m condition (ClockError detail).
Definition as_record (value : json) : res record :=
  match value with JObj kvs => Ok kvs | _ => Err (ClockError "JSON object required") end.
Definition unique_pairs (pairs : record) : res record :=
  fold_res (fun result kv =>
    require (negb (has result kv.1)) ("duplicate JSON key: " +:+ kv.1) ;;;
    Ok (sset kv.1 kv.2 result)) [] pairs.
Definition text (row : record) (key : string) : res string :=
  match pget row key with
  | JStr value =>
      if String.eqb (strip value) EmptyString then Err (ClockError (key +:+ ": nonempty string required")) else Ok value
  | _ => Err (ClockError (key +:+ ": nonempty string required"))
  end.
Definition integer (row : record) (key : string) (minimum : Z) : res Z :=
  match pget row key with
  | JInt value => if value <? minimum then Err (ClockError (key +:+ ": integer outside domain")) else Ok value
  | _ => Err (ClockError (key +:+ ": integer outside domain"))
  end.
(** [except (ValueError, ZeroDivisionError)]: [ClockError] is a [ValueError]. *)
Definition rational (row : record) (key : string) : res Qc :=
  match (let* s := text row key in parse_fraction s) with
  | Err (ValueError _ | ZeroDivisionError _ | ClockError _) => Err (ClockError (key +:+ ": finite decimal or rational required"))
  | other => other
  end.

Section Contract.
Context `{Host} `{Documents}.
Variable d : Disk.

Definition read_record (p : Path) : res record :=
  let* s := read_text d p in
  let* raw := json_syntax s in
  let* value := decode unique_pairs raw in
  as_record value.
Definition file_digest (p : Path) : res string :=
  let* s := read_bytes d p in Ok (sha256_hex s).
Definition file_ref (p : Path) : res record :=
  require (is_file d p && negb (is_symlink d p)) ("regular artifact required: " +:+ path_text p) ;;;
  let* digest := file_digest p in
  Ok [("path", JStr (path_text (resolve d p))); ("sha256", JStr digest)].
Definition bound_file (value : json) (base : Path) : res record :=
  let* ref := as_record value in
  require (keys_are ref ["path"; "sha256"]) "artifact reference fields" ;;;
  let* name := text ref "path" in
  let path := path_of name in
  let* resolved := file_ref (if absolute path then path else joinpath base path) in
  require_res (let* digest := item resolved "sha256" in let* expected := text ref "sha256" in Ok (eq_str digest expected))
    ("artifact digest mismatch: " +:+ path_text path) ;;;
  Ok resolved.

Record Observation := {
  data : record;
  evidence : record;
  frequency_hz : Z;
  peak_tops : Qc;
  rejection : list string;
}.

(** [re.fullmatch("a([48])w\1-d(16|32|64)-hp1", s)] and its groups. *)
Definition profiles : list (Z * Z) := [(4, 16); (4, 32); (4, 64); (8, 16); (8, 32); (8, 64)].
Definition profile_name (wd : Z * Z) : string :=
  "a" +:+ dec wd.1 +:+ "w" +:+ dec wd.1 +:+ "-d" +:+ dec wd.2 +:+ "-hp1".
Definition profile_match (s : string) : option (Z * Z) :=
  List.find (fun wd => String.eqb s (profile_name wd)) profiles.
Definition top_name (wd : Z * Z) : string :=
  "IM2PGemminiWSHP1A" +:+ dec wd.1 +:+ "W" +:+ dec wd.1 +:+ "D" +:+ dec wd.2.

(** Replacing the four artifact references by what they resolve to. *)
Definition bind_artifact (base : Path) (row : record) (key : string) : res record :=
  let* value := item row key in
  let* ref := bound_file value base in
  Ok (sset key (JObj ref) row).

Definition same_item (a b : record) (key : string) : res bool :=
  let* x := item a key in let* y := item b key in Ok (jeq x y).
Definition item_is_str (row : record) (key s : string) : res bool := let* x := item row key in Ok (eq_str x s).
Definition version_is (row : record) (version : Z) : res bool :=
  let* x := item row "version" in Ok (is_int x && eq_int x version).

Definition identity_checks (row : record) : res (Z * Z) :=
  require (keys_are row FIELDS) "observation missing/unknown fields" ;;;
  require_res (item_is_str row "schema" "im2p-clock-observation" andM version_is row 1) "observation schema/version" ;;;
  let* name := text row "profile" in
  let* wd := match profile_match name with Some wd => Ok wd | None => Err (ClockError "unsupported profile") end in
  require_res (item_is_str row "top_scope" "INTEGRATED" andM item_is_str row "top" (top_name wd))
    "complete integrated production top required" ;;;
  require_res (let* x := item row "execution_kind" in Ok (in_strs x ["TOOL_EXECUTION"; "SYNTHETIC"])) "execution kind" ;;;
  require_res (let* x := item row "timing_stage" in Ok (in_strs x ["POST_SYNTH_ESTIMATE"; "POST_ROUTE"])) "timing stage" ;;;
  let* digest := text row "hardware_contract_sha256" in
  require (is_hex 64 digest) "hardware contract hash required" ;;;
  let* tool_value := item row "tool" in
  let* tool := as_record tool_value in
  require (keys_are tool ["name"; "version"]) "tool identity fields" ;;;
  let* _ := text tool "name" in
  let* _ := text tool "version" in
  iter_res (fun key => let* _ := text row key in Ok tt) ["technology"; "memory_implementation"; "memory_interface"] ;;;
  Ok wd.

Definition report_checks (row : record) : res unit :=
  let* value := item row "tool_report" in
  let* ref := as_record value in
  let* name := text ref "path" in
  let* report := read_record (path_of name) in
  require_res (Ok (keys_are report (["schema"; "version"] ++ MEASUREMENTS))
      andM item_is_str report "schema" "im2p-clock-tool-report" andM version_is report 1) "tool report schema/fields" ;;;
  require_res (all_res (same_item report row) MEASUREMENTS) "observation differs from tool report".

Definition bind_constraints (base : Path) (row : record) : res record :=
  let* value := item row "constraints" in
  let* constraints := match value with
    | JArr ((_ :: _) as l) => Ok l | _ => Err (ClockError "constraint artifacts required") end in
  let* bound := map_res (fun item => bound_file item base) constraints in
  let row := sset "constraints" (JArr (map JObj bound)) row in
  require_res (let* names := map_res (fun ref => text ref "path") bound in Ok (distinct String.eqb names))
    "duplicate constraints" ;;;
  Ok row.

(** The reasons for which a tested clock is rejected, in their order. *)
Definition rejections (row : record) (exceeds : bool) : res (list string) :=
  let* stage := item row "timing_stage" in
  let* code := integer row "tool_exit_code" 0 in
  let* setup := rational row "setup_slack_ns" in
  let* hold := rational row "hold_slack_ns" in
  let* timed := integer row "timed_paths" 0 in
  let* unconstrained := integer row "unconstrained_paths" 0 in
  let* fit := item row "fit" in
  Ok (omap (fun '(name, failed) => if (failed : bool) then Some name else None)
    [("POST_ROUTE_REQUIRED", negb (eq_str stage "POST_ROUTE"));
     ("TOOL_FAILED", negb (code =? 0));
     ("NEGATIVE_SETUP_SLACK", qltb setup 0%Qc);
     ("NEGATIVE_HOLD_SLACK", qltb hold 0%Qc);
     ("NO_TIMED_PATHS", timed =? 0);
     ("UNCONSTRAINED_PATHS", negb (unconstrained =? 0));
     ("NO_FIT", negb (truthy fit) || exceeds)]).

Definition exceeds_fit (usage limits : record) : res bool :=
  any_res (fun key => let* u := integer usage key 0 in let* l := integer limits key 1 in Ok (l <? u)) (keys usage).

Definition measured (row : record) (dim : Z) : res (Z * Qc * list string) :=
  let* frequency := integer row "frequency_hz" 1 in
  let* arrays := integer row "array_count" 1 in
  let* macs := integer row "independent_macs_per_pe_per_cycle" 1 in
  let* fit := item row "fit" in
  require (is_bool fit) "fit must be boolean" ;;;
  let* usage_value := item row "resource_usage" in
  let* usage := as_record usage_value in
  let* limits_value := item row "resource_limits" in
  let* limits := as_record limits_value in
  require (truthy (JObj usage) && keys_are usage (keys limits)) "resource usage/limit coverage required" ;;;
  let* exceeds := exceeds_fit usage limits in
  let* reject := rejections row exceeds in
  let* peak := fraction (2 * arrays * dim * dim * macs * frequency) (10 ^ 12) in
  Ok (frequency, peak, reject).

Definition load_observation (p : Path) : res Observation :=
  let* row := read_record p in
  let* wd := identity_checks row in
  let* row := fold_res (bind_artifact (parent p)) row ["source"; "netlist"; "tool_report"; "peak_basis"] in
  report_checks row ;;;
  let* row := bind_constraints (parent p) row in
  let* result := measured row wd.2 in
  let '(frequency, peak, reject) := result in
  let* evidence := file_ref p in
  Ok {| data := row; evidence := evidence; frequency_hz := frequency; peak_tops := peak; rejection := reject |}.

(** ** [evaluation_clock.select_clock] *)

Definition IDENTITY : list string :=
  ["profile"; "top"; "top_scope"; "source"; "hardware_contract_sha256"; "tool";
   "technology"; "memory_implementation"; "memory_interface"; "timing_stage";
   "array_count"; "independent_macs_per_pe_per_cycle"; "peak_basis"; "execution_kind"].

(** [sorted(l)]. *)
Fixpoint insert_z (z : Z) (l : list Z) : list Z :=
  match l with
  | [] => [z]
  | y :: l' => if z <=? y then z :: l else y :: insert_z z l'
  end.
Definition sorted (l : list Z) : list Z := foldr insert_z [] l.

(** [min(l, key=..)] and [max(l, key=..)]: the first of the best, [better x y]
    when the key of [x] is strictly better than that of [y]. *)
Definition best {A} (better : A → A → bool) (x : A) (l : list A) : A :=
  fold_left (fun current candidate => if better candidate current then candidate else current) l x.

Definition distance (x y : Qc) : Qc := if qleb y x then (x - y)%Qc else (y - x)%Qc.
(** The order of the keys [(abs(peak - target), frequency)]. *)
Definition nearer (target : Qc) (x y : Observation) : bool :=
  let dx := distance (peak_tops x) target in
  let dy := distance (peak_tops y) target in
  qltb dx dy || (qleb dx dy && (frequency_hz x <? frequency_hz y)).
Definition faster (x y : Observation) : bool := frequency_hz y <? frequency_hz x.

Definition opt_str (s : option string) : json := match s with Some s => JStr s | None => JNull end.
(** [bool(s and s.strip())]. *)
Definition given (s : option string) : bool :=
  match s with Some s => negb (String.eqb (strip s) EmptyString) | None => false end.

Definition expected_target (target basis : option string) : res (option Qc) :=
  match target with
  | None => Ok None
  | Some s =>
      let* expected := match parse_fraction s with
        | Err (ValueError _ | ZeroDivisionError _) => Err (ClockError "target peak must be finite decimal or rational")
        | other => other end in
      require (qltb 0%Qc expected && given basis) "positive target and explicit GPU basis required" ;;;
      Ok (Some expected)
  end.

Definition steps (l : list Z) : list Z := zip_with (fun a b => b - a) l (drop 1 l).
Definition is_nil {A} (l : list A) : bool := match l with [] => true | _ => false end.

Definition unselected (first : record) (profile : json) (observations : list Observation) (frequencies : list Z)
    (target basis : option string) (expected : option Qc) : record :=
  [("schema", JStr "im2p-operating-clock"); ("version", JInt 1); ("status", JStr "NOT_READY");
   ("profile", profile); ("selected_frequency_hz", JNull); ("selected", JNull);
   ("selection_reason", JStr (match expected with None => "MISSING_GPU_TARGET" | Some _ => "NO_PASSING_CLOCK" end));
   ("target_peak_tops", opt_str target); ("target_basis", opt_str basis); ("achieved_peak_tops", JNull); ("gap_tops", JNull);
   ("peak_convention", JStr "2 * array_count * DIM^2 * independent_macs_per_pe_per_cycle * frequency_hz / 10^12");
   ("tested_frequency_hz", JArr (map JInt frequencies));
   ("tested_bounds_hz", JArr (map JInt [default 0 (head frequencies); default 0 (last frequencies)]));
   ("search_steps_hz", JArr (map JInt (steps frequencies)));
   ("search_scope", JStr "FINITE_TESTED_SET_NOT_PHYSICAL_FMAX");
   ("observations", JArr (map (fun item => JObj (evidence item)) observations));
   ("rejected", JArr (omap (fun item =>
      if is_nil (rejection item) then None
      else Some (JObj [("frequency_hz", JInt (frequency_hz item)); ("reasons", JArr (map JStr (rejection item)))]))
      observations))].

(** The choice among the passing clocks [x :: valid]. *)
Definition choose (target : Qc) (x : Observation) (valid : list Observation) : bool * Observation :=
  let reachable := existsb (fun item => qleb target (peak_tops item)) (x :: valid) in
  (reachable, if reachable then best (nearer target) x valid else best faster x valid).

Definition select_observed (observations : list Observation) (target basis : option string) : res record :=
  match observations with
  | [] => Err (IndexError "list index out of range")
  | first :: _ =>
      require_res (all_res (fun item => all_res (same_item (data item) (data first)) IDENTITY) observations)
        "mixed source/profile/top/tool/technology/memory/peak/stage identity" ;;;
      let frequencies := sorted (map frequency_hz observations) in
      require (distinct Z.eqb frequencies) "duplicate tested frequency" ;;;
      let* expected := expected_target target basis in
      let* profile := item (data first) "profile" in
      let output := unselected (data first) profile observations frequencies target basis expected in
      match List.filter (fun item => is_nil (rejection item)) observations, expected with
      | x :: valid, Some goal =>
          let '(reachable, selected) := choose goal x valid in
          let* kind := item (data first) "execution_kind" in
          Ok (merge_records output
            [("status", JStr (if eq_str kind "TOOL_EXECUTION" then "DIAGNOSTIC_ONLY" else "SYNTHETIC_ONLY"));
             ("selected_frequency_hz", JInt (frequency_hz selected)); ("selected", JObj (data selected));
             ("selection_reason", JStr (if reachable then "NEAREST_VERIFIED_GPU_TARGET" else "HIGHEST_TESTED_PASSING"));
             ("achieved_peak_tops", JStr (show_fraction (peak_tops selected)));
             ("gap_tops", JStr (show_fraction (peak_tops selected - goal)))])
      | _, _ => Ok output
      end
  end.

Definition select_clock (paths : list Path) (target basis : option string) : res record :=
  require (negb (is_nil paths)) "nonempty finite observation set required" ;;;
  let* observations := map_res load_observation paths in
  select_observed observations target basis.

Record ClockSelection := {
  selection_frequency_hz : Z;
  selection_profile : string;
  stage : string;
  sha256 : string;
  hardware_contract_sha256 : string;
}.
End Contract.
