(* ===== verification/Ooc.v ===== *)
(** * The clock of the reference part

    The evaluation of one design on a fixed FPGA part, out of context of a
    board: [scripts/evaluation_ooc_policy.py] (the confirmed policy),
    [evaluation_ooc_rtl.py] (the wrapper around the production core and its
    timing constraint) and [evaluation_ooc_report.py] (what a completed route
    run becomes, and the operating clock chosen among the runs of a sweep). *)
From S2P Require Import Prelude Rational Records Optrace Clock.
Set Default Goal Selector "!".
Open Scope Z_scope.

(** ** [evaluation_ooc_policy.py] *)

Definition PART : string := "xcu250-figd2104-2L-e".
Definition PROFILES : list string :=
  concat (map (fun bits => map (fun dim => profile_name (bits, dim)) [16; 32; 64]) [4; 8]).

Definition dimensions (profile : string) : res (Z * Z) :=
  match profile_match profile with Some wd => Ok wd | None => Err (ClockError "unsupported OOC profile") end.
Definition target_frequency (profile : string) : res Qc :=
  let* wd := dimensions profile in fraction (33 * 10 ^ 12) (2 * wd.2 * wd.2).
Definition frequencies (values : list Z) : res (list Z) :=
  require (((1 <=? length values) && (length values <=? 64))%nat && forallb (fun item => 0 <? item) values
           && distinct Z.eqb values) "finite 1..64 unique positive frequencies required" ;;;
  Ok (sorted values).

(** ** [evaluation_ooc_rtl.py] *)

Definition core_top (profile : string) : res string := let* wd := dimensions profile in Ok (top_name wd).

(** *** Texts as the regular expressions see them *)

Definition word_char (c : ascii) : bool :=
  let n := byte c in
  is_digit c || ((65 <=? n) && (n <=? 90)) || ((97 <=? n) && (n <=? 122)) || (n =? 95).
(** [\s] of an ASCII text. *)
Definition blank (c : ascii) : bool := is_space (String c EmptyString).
Definition quote : ascii := quote_char.
Definition backslash : ascii := backslash_char.

Abbreviation letters := String.list_ascii_of_string.
Abbreviation word := String.string_of_list_ascii.

(** [l] without the prefix [p]. *)
Fixpoint after (p : list ascii) (l : list ascii) : option (list ascii) :=
  match p, l with
  | [], _ => Some l
  | a :: p, b :: l => if Ascii.eqb a b then after p l else None
  | _, [] => None
  end.
Definition after_text (p : string) (l : list ascii) : option (list ascii) := after (letters p) l.
Fixpoint span (p : ascii → bool) (l : list ascii) : list ascii * list ascii :=
  match l with
  | c :: l' => if p c then let (a, b) := span p l' in (c :: a, b) else ([], l)
  | [] => ([], [])
  end.
(** The shortest text before a place where [found] holds, and what it finds. *)
Fixpoint until {A} (found : option ascii → list ascii → option A) (previous : option ascii) (l : list ascii)
    : option (list ascii * A) :=
  match found previous l with
  | Some a => Some ([], a)
  | None =>
      match l with
      | c :: l' => match until found (Some c) l' with Some (t, a) => Some (c :: t, a) | None => None end
      | [] => None
      end
  end.
(** The end of a string literal, past its opening quote: an escaped character
    does not end it. *)
Fixpoint string_end (l : list ascii) : option (list ascii) :=
  match l with
  | c :: l' =>
      if Ascii.eqb c quote then Some l'
      else if Ascii.eqb c backslash then match l' with _ :: l'' => string_end l'' | [] => None end
      else string_end l'
  | [] => None
  end.
(** One alternative of the expression for comments and strings, at the head. *)
Definition noise (l : list ascii) : option (list ascii) :=
  match after_text "/*" l with
  | Some rest =>
      match until (fun _ => after_text "*/") None rest with Some (_, rest) => Some rest | None => None end
  | None =>
      match after_text "//" l with
      | Some rest => Some (span (fun c => negb (byte c =? 10)) rest).2
      | None => match l with c :: l' => if Ascii.eqb c quote then string_end l' else None | [] => None end
      end
  end.
(** [re.sub(.., "", source)], with the length as fuel. *)
Fixpoint remove_noise (fuel : nat) (l : list ascii) : list ascii :=
  match fuel, l with
  | S fuel, c :: l' =>
      match noise l with Some rest => remove_noise fuel rest | None => c :: remove_noise fuel l' end
  | _, _ => []
  end.
Definition cleaned (source : string) : list ascii := remove_noise (String.length source) (letters source).

(** [\b] before a word character. *)
Definition boundary (previous : option ascii) : bool :=
  match previous with Some c => negb (word_char c) | None => true end.
Definition skip_blank (l : list ascii) : list ascii := (span blank l).2.
(** [\s+]. *)
Definition some_blank (l : list ascii) : option (list ascii) :=
  match span blank l with (_ :: _, rest) => Some rest | _ => None end.
(** [\)\s*;] and [\bendmodule]. *)
Definition ports_end (_ : option ascii) (l : list ascii) : option (list ascii) :=
  match after_text ")" l with Some rest => after_text ";" (skip_blank rest) | None => None end.
Definition body_end (previous : option ascii) (l : list ascii) : option (list ascii) :=
  if boundary previous then after_text "endmodule" l else None.
(** The declaration of the module at the head: its ports and its body. *)
Definition declaration (top : string) (previous : option ascii) (l : list ascii) : option (list ascii * list ascii) :=
  if boundary previous then
    rest ← after_text "module" l;
    rest ← some_blank rest;
    rest ← after_text top rest;
    rest ← after_text "(" (skip_blank rest);
    '(ports, rest) ← until ports_end (Some "("%char) rest;
    '(body, _) ← until body_end (Some ";"%char) rest;
    Some (ports, body)
  else None.

Record Port := { direction : string; width : string; name : string }.
#[export] Instance Port_eq_dec : EqDecision Port.
Proof. solve_decision. Defined.

Definition word_only (l : list ascii) : bool := negb (Clock.is_nil l) && forallb word_char l.
(** [\[\d+:\d+\]\s*], optional, with the text it matches. *)
Definition take_range (l : list ascii) : option (list ascii * list ascii) :=
  match l with
  | c :: l1 =>
      if Ascii.eqb c "[" then
        let (a, l2) := span is_digit l1 in
        l3 ← after_text ":" l2;
        let (b, l4) := span is_digit l3 in
        l5 ← after_text "]" l4;
        let (s, l6) := span blank l5 in
        if Clock.is_nil a || Clock.is_nil b then None
        else Some ((c :: a) ++ (":"%char :: b) ++ ("]"%char :: s), l6)
      else Some ([], l)
  | [] => Some ([], [])
  end.
(** [(?:(?:wire|logic|reg)\s+)?]: dropped when a blank follows. *)
Definition drop_kind (l : list ascii) : list ascii :=
  default l (head (omap (fun kind => rest ← after_text kind l; some_blank rest) ["wire"; "logic"; "reg"])).
(** The full match of a declared port: its direction, width and name. *)
Definition declared (token : string) : option Port :=
  head (omap (fun dir =>
    rest ← after_text dir (letters token);
    rest ← some_blank rest;
    '(range, rest) ← take_range (drop_kind rest);
    if word_only rest then Some {| direction := dir; width := word range; name := word rest |} else None)
    ["input"; "output"; "inout"]).
Definition identifier (token : string) : bool :=
  match letters token with
  | c :: l => word_char c && negb (is_digit c) && forallb word_char l
  | [] => false
  end.

Fixpoint split_at (c : ascii) (s : string) : list string :=
  match s with
  | EmptyString => [EmptyString]
  | String b s =>
      match split_at c s with
      | part :: parts => if Ascii.eqb b c then EmptyString :: part :: parts else String b part :: parts
      | [] => []
      end
  end.

(** One token of the port list: a plain name takes the direction and width before it. *)
Definition add_port (state : list Port * string * string) (raw : string) : res (list Port * string * string) :=
  let '(ports, direction, width) := state in
  let token := strip raw in
  match declared token with
  | Some p => Ok (ports ++ [{| direction := Ooc.direction p; width := strip (Ooc.width p); name := name p |}],
                  Ooc.direction p, Ooc.width p)
  | None =>
      require (negb (String.eqb direction "") && identifier token) ("unsupported generated ANSI port declaration: " +:+ token) ;;;
      Ok (ports ++ [{| direction := direction; width := strip width; name := token |}], direction, width)
  end.

Definition renamed (name : string) : string := if String.eqb name "clock" then "CLK" else name.
Definition port_declaration (p : Port) : string :=
  join " " (List.filter (fun part => negb (String.eqb part "")) [direction p; width p; renamed (name p)]).
Definition connection (p : Port) : string := "." +:+ name p +:+ "(" +:+ renamed (name p) +:+ ")".

(** [always(?:_ff)?\s*@\s*\([^)]*\bnegedge\s+RST_N\b], anywhere in the body. *)
Definition reset_word (previous : option ascii) (l : list ascii) : option unit :=
  if boundary previous then
    rest ← after_text "negedge" l;
    rest ← some_blank rest;
    rest ← after_text "RST_N" rest;
    match rest with c :: _ => if word_char c then None else Some () | [] => Some () end
  else None.
Definition reset_event (_ : option ascii) (l : list ascii) : option unit :=
  rest ← after_text "always" l;
  let rest := default rest (after_text "_ff" rest) in
  rest ← after_text "@" (skip_blank rest);
  rest ← after_text "(" (skip_blank rest);
  '(before, _) ← until reset_word (Some "("%char) rest;
  if existsb (fun c => Ascii.eqb c ")") before then None else Some ().
Definition reset_policy (ports : list Port) (body : list ascii) : string :=
  if bool_decide ({| direction := "input"; width := ""; name := "RST_N" |} ∈ ports) &&
     match until reset_event None body with Some _ => true | None => false end
  then "ASYNC_RST_N_SOURCE_EVENT_PROVEN" else "NO_ASYNC_RST_N_EXCLUSION".

Definition separator : string := "," +:+ newline +:+ "  ".
Definition wrapper (top : string) (ports : list Port) : string :=
  "module PoTalEvaluationOoc(" +:+ newline +:+ "  " +:+ join separator (map port_declaration ports) +:+ ");" +:+ newline
  +:+ top +:+ " core(" +:+ newline +:+ "  " +:+ join separator (map connection ports) +:+ ");" +:+ newline
  +:+ "endmodule" +:+ newline.
Definition collect_ports (text : list ascii) : res (list Port) :=
  let* collected := fold_res add_port ([], "", "") (split_at "," (word text)) in
  let ports := collected.1.1 in
  require (distinct String.eqb (map name ports)) "duplicate generated port" ;;;
  require (bool_decide ({| direction := "input"; width := ""; name := "clock" |} ∈ ports)
           && forallb (fun p => negb (String.eqb (name p) "CLK")) ports) "single scalar production clock input required" ;;;
  Ok ports.
Definition wrap_core (source profile : string) : res (string * string) :=
  let* top := core_top profile in
  match until (declaration top) None (cleaned source) with
  | None => Err (ClockError "plain generated production top declaration required")
  | Some (_, (text, body)) =>
      let* ports := collect_ports text in
      Ok (wrapper top ports, reset_policy ports body)
  end.

(** *** The constraint *)

(** [Decimal(n) / Decimal(d)] of positive integers, with thirty digits rounded
    down: the exact quotient with the exponent nearest to zero when there is
    one, and otherwise its leading thirty digits. *)
Definition digit_count (z : Z) : Z := Z.of_nat (String.length (dec z)).
Fixpoint ideal (fuel : nat) (coefficient exponent : Z) : Z * Z :=
  match fuel with
  | S fuel => if (exponent <? 0) && (coefficient mod 10 =? 0) then ideal fuel (coefficient / 10) (exponent + 1)
              else (coefficient, exponent)
  | O => (coefficient, exponent)
  end.
Definition precision : Z := 30.
Definition fix_digits (coefficient exponent : Z) : Z * Z :=
  let excess := digit_count coefficient - precision in
  if 0 <? excess then (coefficient / 10 ^ excess, exponent + excess) else (coefficient, exponent).
Definition decimal_quotient (n d : Z) : Z * Z :=
  let shift := digit_count d - digit_count n + precision + 1 in
  let top := if 0 <=? shift then n * 10 ^ shift else n in
  let bottom := if 0 <=? shift then d else d * 10 ^ (- shift) in
  let '(coefficient, exponent) :=
    if top mod bottom =? 0 then ideal (Z.to_nat shift) (top / bottom) (- shift) else (top / bottom, - shift) in
  fix_digits coefficient exponent.

Fixpoint zeros (n : nat) : string := match n with O => EmptyString | S n => String "0" (zeros n) end.
(** [f'{decimal:f}'] for an exponent that is not positive. *)
Definition show_decimal (coefficient exponent : Z) : string :=
  if 0 <=? exponent then dec coefficient
  else
    let places := Z.to_nat (- exponent) in
    let digits := dec coefficient in
    let padded := zeros (S places - String.length digits) +:+ digits in
    let whole := (String.length padded - places)%nat in
    String.substring 0 whole padded +:+ "." +:+ String.substring whole places padded.

Definition constraints (frequency_hz : Z) (policy : string) : res string :=
  require (0 <? frequency_hz) "positive frequency required" ;;;
  require (str_in policy ["ASYNC_RST_N_SOURCE_EVENT_PROVEN"; "NO_ASYNC_RST_N_EXCLUSION"]) "reset proof required" ;;;
  let* (period : Qc) := fraction (10 ^ 9) frequency_hz in
  let '(coefficient, exponent) := decimal_quotient (Qnum period) (Zpos (Qden period)) in
  let result := "create_clock -name core_clk -period " +:+ show_decimal coefficient exponent +:+ " [get_ports CLK]" +:+ newline in
  Ok (result +:+ (if String.eqb policy "ASYNC_RST_N_SOURCE_EVENT_PROVEN"
                  then "set_false_path -from [get_ports RST_N]" +:+ newline else "")).

(** ** [evaluation_ooc_report.py] *)

(** [s.splitlines()] and [s.split()], on code points. *)
Definition line_ends : list string :=
  map chr [[10]; [13]; [11]; [12]; [28]; [29]; [30]; [194; 133]; [226; 128; 168]; [226; 128; 169]].
Fixpoint lines_from (line : string) (l : list string) : list string :=
  match l with
  | [] => if String.eqb line "" then [] else [line]
  | c :: l' =>
      if str_in c line_ends then
        match l' with
        | d :: l'' => if String.eqb c (chr [13]) && String.eqb d (chr [10]) then line :: lines_from "" l'' else line :: lines_from "" l'
        | [] => [line]
        end
      else lines_from (line +:+ c) l'
  end.
Definition splitlines (s : string) : list string := lines_from "" (chars s).
Fixpoint words_from (current : string) (l : list string) : list string :=
  match l with
  | [] => if String.eqb current "" then [] else [current]
  | c :: l' =>
      if is_space c then (if String.eqb current "" then words_from "" l' else current :: words_from "" l')
      else words_from (current +:+ c) l'
  end.
Definition words (s : string) : list string := words_from "" (chars s).

Definition RESOURCE_ROWS : list (string * (string * Z)) :=
  [("CLB LUTs", ("LUT", 1)); ("CLB Registers", ("FF", 1)); ("Block RAM Tile", ("BRAM18_EQUIVALENTS", 2));
   ("DSPs", ("DSP", 1)); ("URAM", ("URAM", 1))].

Fixpoint without_char (c : ascii) (s : string) : string :=
  match s with
  | EmptyString => EmptyString
  | String b s => if Ascii.eqb b c then without_char c s else String b (without_char c s)
  end.
(** [line.split("|")[1:-1]], each column stripped. *)
Definition columns_of (line : string) : list string :=
  map (fun column => strip (rstrip (String.eqb "*") (strip column))) (removelast (tail (split_at "|" line))).
Fixpoint index_of (s : string) (l : list string) : nat :=
  match l with t :: l' => if String.eqb s t then O else S (index_of s l') | [] => O end.

Record Utilization := { usage : record; limits : record; header : option (nat * nat) }.

Definition quantity (columns : list string) (column : nat) (scale : Z) : res Qc :=
  match parse_fraction (without_char "," (nth column columns "")) with
  | Ok q => Ok (q * qz scale)%Qc
  | Err (ValueError _ | ZeroDivisionError _) => Err (ClockError "invalid utilization numeric field")
  | Err e => Err e
  end.

Definition add_row (u : Utilization) (columns : list string) (key : string) (scale : Z) : res Utilization :=
  let* at_columns := match header u with
    | Some (used, available) =>
        if ((used <? length columns) && (available <? length columns))%nat then Ok (used, available)
        else Err (ClockError "utilization header missing")
    | None => Err (ClockError "utilization header missing") end in
  require (negb (has (usage u) key)) ("ambiguous utilization row: " +:+ key) ;;;
  let* (used : Qc) := quantity columns at_columns.1 scale in
  let* (available : Qc) := quantity columns at_columns.2 scale in
  require (Pos.eqb (Qden used) (Qden available) && Pos.eqb (Qden available) 1 && qleb 0%Qc used && qltb 0%Qc available)
    "invalid utilization units/capacity" ;;;
  Ok {| usage := sset key (JInt (Qnum used)) (usage u); limits := sset key (JInt (Qnum available)) (limits u); header := header u |}.

Definition add_line (u : Utilization) (line : string) : res Utilization :=
  let columns := columns_of line in
  if str_in "Used" columns && str_in "Available" columns then
    Ok {| usage := usage u; limits := limits u; header := Some (index_of "Used" columns, index_of "Available" columns) |}
  else match columns with
       | first :: _ => match sget first RESOURCE_ROWS with Some (key, scale) => add_row u columns key scale | None => Ok u end
       | [] => Ok u
       end.

Definition resources (report : string) : res (record * record) :=
  let* u := fold_res add_line {| usage := []; limits := []; header := None |} (splitlines report) in
  require (Nat.eqb (length (usage u)) (length RESOURCE_ROWS)) "incomplete post-route resource report" ;;;
  Ok (usage u, limits u).

Definition fits (usage limits : record) : res bool :=
  all_res (fun key => let* u := integer usage key 0 in let* l := integer limits key 0 in Ok (u <=? l)) (keys usage).

Definition route_checks (raw : record) (profile : string) : res unit :=
  require (eq_str (pget raw "schema") "im2p-ooc-tool-result" && is_int (pget raw "version") && eq_int (pget raw "version") 2
           && eq_str (pget raw "status") "ROUTE_COMPLETED") "completed OOC route report required" ;;;
  require_res (Ok (eq_str (pget raw "part") PART && eq_str (pget raw "clock_port") "CLK"
                   && eq_str (pget raw "timing_stage") "POST_ROUTE")
      andM (let* top := core_top profile in Ok (eq_str (pget raw "core_top") top))
      andM Ok (eq_str (pget raw "top") "PoTalEvaluationOoc")) "OOC part/top/clock/stage differs from policy" ;;;
  require_res ((let* q := rational raw "clock_switching_worst_slack_ns" in Ok (qleb 0%Qc q))
      andM (let* q := rational raw "clock_switching_total_slack_ns" in Ok (qleb 0%Qc q))
      andM (let* n := integer raw "clock_switching_failing_endpoints" 0 in Ok (n =? 0))
      andM (let* n := integer raw "clock_switching_total_endpoints" 0 in Ok (0 <? n)))
    "clock-switching pulse-width/min-period limits failed or unmeasured".

Definition OOC_REFERENCES : list string :=
  ["observation"; "raw_report"; "utilization"; "request"; "source"; "timing_summary"; "pulse_width"].

Definition normalized_values (raw : record) (utilization : string) (source : record) : res record :=
  let* profile := text source "profile" in
  route_checks raw profile ;;;
  let* (used_limits : record * record) := resources utilization in
  let '(usage, limits) := used_limits in
  let* fit := fits usage limits in
  let* top := core_top profile in
  let* setup := text raw "setup_slack_ns" in
  let* hold := text raw "hold_slack_ns" in
  let* timed := integer raw "timed_paths" 0 in
  let* unconstrained := integer raw "unconstrained_paths" 0 in
  let* fit := Ok fit andM (let* n := integer raw "blocking_drc" 0 in Ok (n =? 0)) in
  Ok [("top", JStr top); ("tool_exit_code", JInt 0); ("setup_slack_ns", JStr setup); ("hold_slack_ns", JStr hold);
      ("timed_paths", JInt timed); ("unconstrained_paths", JInt unconstrained); ("fit", JBool fit);
      ("resource_usage", JObj usage); ("resource_limits", JObj limits)].

(** The text [json.dumps] writes with sorted keys. *)
Class JsonText := { dumps_sorted : json → string }.

Section Reports.
Context `{Host} `{Documents} `{JsonText}.
(** [POLICY_PATH], below the root of the repository. *)
Variable policy_path : Path.

Definition policy (d : Disk) : res record :=
  let* value := read_record d policy_path in
  let is_ (key : string) (z : Z) : res bool := let* x := item value key in Ok (eq_int x z) in
  require_res (item_is_str value "part" PART andM is_ "target_peak_tops" 33
      andM (let* a := item value "array_count" in let* b := item value "independent_macs_per_pe_per_cycle" in Ok (jeq a b && eq_int b 1))
      andM is_ "a4_throughput_multiplier" 1 andM item_is_str value "timing_stage" "POST_ROUTE"
      andM item_is_str value "clock_port" "CLK"
      andM (let* x := item value "part_fallback" in Ok (is_false x)))
    "confirmed OOC policy changed; explicit policy review required" ;;;
  Ok value.

Definition below (p : Path) (name : string) : Path := joinpath p (path_of name).
(** [path.write_text(json.dumps(value, sort_keys=True) + "\n")]. *)
Definition write_sorted (d : Disk) (p : Path) (value : record) : res Disk :=
  write_text d p (dumps_sorted (JObj value) +:+ newline).
Definition refs (d : Disk) (l : list (string * Path)) : res record :=
  map_res (fun '(key, p) => let* r := file_ref d p in Ok (key, JObj r)) l.

(** The observation that a completed run becomes. *)
Definition observation_of (d : Disk) (directory source_path normalized : Path) (source raw values : record) : res record :=
  let* kind := item source "execution_kind" in
  let* profile := item source "profile" in
  let* source_ref := file_ref d source_path in
  let* netlist := file_ref d (below directory "implementation/route.dcp") in
  let* xdc := file_ref d (below directory "clock.xdc") in
  let* report := file_ref d normalized in
  let* contract_value := item source "hardware_contract" in
  let* contract := as_record contract_value in
  let* digest := text contract "sha256" in
  let* version := text raw "tool_version" in
  let* basis := file_ref d policy_path in
  Ok (merge_records
    [("schema", JStr "im2p-clock-observation"); ("version", JInt 1);
     ("execution_kind", JStr (if eq_str kind "FRESH_OFFICIAL_RTL_BUILD" then "TOOL_EXECUTION" else "SYNTHETIC"));
     ("profile", profile); ("top_scope", JStr "INTEGRATED"); ("source", JObj source_ref); ("netlist", JObj netlist);
     ("constraints", JArr [JObj xdc]); ("tool_report", JObj report); ("hardware_contract_sha256", JStr digest);
     ("tool", JObj [("name", JStr "Vivado"); ("version", JStr version)]);
     ("technology", JStr ("FPGA " +:+ PART)); ("memory_implementation", JStr "production integrated RTL memories; Vivado inferred");
     ("memory_interface", JStr "integrated production core backing port; external service unmodeled by OOC");
     ("timing_stage", JStr "POST_ROUTE"); ("array_count", JInt 1); ("independent_macs_per_pe_per_cycle", JInt 1);
     ("peak_basis", JObj basis)] values).

Definition sample_of (d : Disk) (directory source_path observation : Path) : res record :=
  let* references := refs d
    [("observation", observation); ("raw_report", below directory "implementation/ooc-result.json");
     ("utilization", below directory "implementation/post-route-utilization.rpt"); ("request", below directory "request.json");
     ("timing_summary", below directory "implementation/post-route-timing.rpt");
     ("pulse_width", below directory "implementation/post-route-pulse-width.rpt"); ("source", source_path)] in
  Ok ([("schema", JStr "im2p-evaluation-ooc-sample"); ("version", JInt 1)] ++ references).

Definition write_sample (d : Disk) (directory source_path : Path) : res (Disk * Path) :=
  let* source := read_record d source_path in
  require (in_strs (pget source "execution_kind") ["FRESH_OFFICIAL_RTL_BUILD"; "SYNTHETIC"]) "OOC build execution kind" ;;;
  let* raw := read_record d (below directory "implementation/ooc-result.json") in
  let* utilization := read_text d (below directory "implementation/post-route-utilization.rpt") in
  let* values := normalized_values raw utilization source in
  let* request := read_record d (below directory "request.json") in
  let* frequency := integer request "frequency_hz" 1 in
  let values := sset "frequency_hz" (JInt frequency) values in
  let normalized := below directory "normalized-tool-report.json" in
  let* d := write_sorted d normalized
    (merge_records [("schema", JStr "im2p-clock-tool-report"); ("version", JInt 1)] values) in
  let* data := observation_of d directory source_path normalized source raw values in
  let observation := below directory "observation.json" in
  let* d := write_sorted d observation data in
  let* sample := sample_of d directory source_path observation in
  let output := below directory "sample.json" in
  let* d := write_sorted d output sample in
  Ok (d, output).

(** [values] of the sample's references, and what they lead to. *)
Definition sample_paths (d : Disk) (p : Path) : res (list (string * Path)) :=
  let* sample := read_record d p in
  require_res (Ok (keys_are sample (["schema"; "version"] ++ OOC_REFERENCES))
      andM item_is_str sample "schema" "im2p-evaluation-ooc-sample"
      andM (let* x := item sample "version" in Ok (eq_int x 1))) "OOC sample schema" ;;;
  map_res (fun key =>
    let* value := item sample key in
    let* ref := bound_file d value (parent p) in
    let* name := text ref "path" in
    Ok (key, path_of name)) ["observation"; "raw_report"; "utilization"; "request"; "source"; "timing_summary"; "pulse_width"].
Definition at_path (paths : list (string * Path)) (key : string) : Path := default (path_of "") (sget key paths).

Definition request_checks (d : Disk) (request : record) (request_path : Path) : res unit :=
  require_res (Ok (eq_str (pget request "part") PART) andM
      (let* value := item request "policy" in
       let* ref := bound_file d value (parent request_path) in
       let* digest := item ref "sha256" in
       let* expected := file_digest d policy_path in
       Ok (eq_str digest expected))) "request OOC policy mismatch".

Definition constraint_checks (d : Disk) (p : Path) (observation source raw : record) (frequency : Z) : res unit :=
  let* references := item observation "constraints" in
  let* reference := match references with
    | JArr [reference] => Ok reference | _ => Err (ClockError "one generated OOC constraint file required") end in
  let* ref := bound_file d reference (parent p) in
  let* name := text ref "path" in
  let* reset := text source "reset_policy" in
  let* expected := constraints frequency reset in
  require_res (let* s := read_text d (path_of name) in Ok (String.eqb s expected))
    "OOC constraint differs from requested frequency/reset proof" ;;;
  require_res (let* s := text raw "period_ns" in let* (reported : Qc) := parse_fraction s in
               let* (period : Qc) := parse_fraction (nth 4 (words expected) "") in Ok (bool_decide (reported = period)))
    "reported clock period differs from generated constraint; no frequency relabeling".

Definition observation_checks (d : Disk) (observation source values : record) (source_path : Path) : res unit :=
  require_res (all_res (fun kv => let* x := item observation kv.1 in Ok (jeq x kv.2)) values)
    "normalized report differs from routed tool evidence" ;;;
  require_res (let* x := item observation "source" in let* r := file_ref d source_path in Ok (jeq x (JObj r)))
    "OOC source binding mismatch" ;;;
  let* artifacts_value := item source "artifacts" in
  let* artifacts := as_record artifacts_value in
  iter_res (fun kv => let* _ := bound_file d kv.2 (parent source_path) in Ok tt) artifacts ;;;
  let is_ (key : string) (z : Z) : res bool := let* x := item observation key in Ok (eq_int x z) in
  require_res (item_is_str observation "timing_stage" "POST_ROUTE" andM is_ "array_count" 1
      andM is_ "independent_macs_per_pe_per_cycle" 1 andM item_is_str observation "technology" ("FPGA " +:+ PART))
    "OOC observation policy mismatch".

Definition verify_sample (d : Disk) (p : Path) : res Path :=
  let* paths := sample_paths d p in
  let* observation := read_record d (at_path paths "observation") in
  let* source := read_record d (at_path paths "source") in
  let* raw := read_record d (at_path paths "raw_report") in
  let* request := read_record d (at_path paths "request") in
  request_checks d request (at_path paths "request") ;;;
  let* utilization := read_text d (at_path paths "utilization") in
  let* values := normalized_values raw utilization source in
  let* frequency := integer request "frequency_hz" 1 in
  let values := sset "frequency_hz" (JInt frequency) values in
  constraint_checks d p observation source raw frequency ;;;
  observation_checks d observation source values (at_path paths "source") ;;;
  Ok (at_path paths "observation").

Definition attempt_frequency (value : json) : res Z :=
  let* attempt := as_record value in integer attempt "frequency_hz" 1.

(** The attempts that ended without an error. *)
Definition completed (attempts : list json) : res (list Z) :=
  let* found := map_res (fun value =>
    let* attempt := as_record value in
    if eq_int (pget attempt "exit_code") 0 then let* f := attempt_frequency value in Ok [f] else Ok []) attempts in
  Ok (sorted (concat found)).

Definition sweep_checks (summary : record) : res (list json) :=
  match pget summary "attempted_frequency_hz", pget summary "attempts" with
  | JArr grid, JArr attempts =>
      require (Nat.eqb (length grid) (length attempts)) "incomplete finite sweep" ;;;
      require_res (let* attempted := map_res attempt_frequency attempts in
                   Ok (jeq (JArr grid) (JArr (map JInt attempted)) && distinct String.eqb (map py_str grid)))
        "sweep frequency coverage mismatch" ;;;
      Ok attempts
  | _, _ => Err (ClockError "incomplete finite sweep")
  end.

Definition observed_frequency (d : Disk) (p : Path) : res Z :=
  let* row := read_record d p in integer row "frequency_hz" 1.

Definition select_ooc (d : Disk) (samples : list Path) (sweep : Path) : res record :=
  let* current := policy d in
  let* summary := read_record d sweep in
  let* attempts := sweep_checks summary in
  let* observations := map_res (verify_sample d) samples in
  let* passed := completed attempts in
  require_res (let* observed := map_res (observed_frequency d) observations in Ok (bool_decide (sorted observed = passed)))
    "completed route samples omitted or duplicated" ;;;
  let* basis := text current "target_basis" in
  let* output := select_clock d observations (Some "33") (Some basis) in
  let* status := item output "status" in
  let output := if eq_str status "DIAGNOSTIC_ONLY" then sset "status" (JStr "PASS") output else output in
  let* policy_ref := file_ref d policy_path in
  let* sample_refs := map_res (file_ref d) samples in
  let* sweep_ref := file_ref d sweep in
  Ok (merge_records output
    [("version", JInt 2); ("evaluation_policy", JObj policy_ref); ("ooc_samples", JArr (map JObj sample_refs));
     ("sweep", JObj sweep_ref)]).

(** [Path(text(bound_file(value, base), "path"))]. *)
Definition bound_path (d : Disk) (base : Path) (value : json) : res Path :=
  let* ref := bound_file d value base in
  let* name := text ref "path" in
  Ok (path_of name).

Definition load_operating_clock (d : Disk) (p : Path) (profile : string) : res ClockSelection :=
  let* document := read_record d p in
  require (eq_str (pget document "schema") "im2p-operating-clock" && eq_int (pget document "version") 2
           && eq_str (pget document "status") "PASS" && eq_str (pget document "profile") profile)
    "current fixed-policy post-route operating clock required; generic/legacy clock rejected" ;;;
  require_res (let* value := item document "evaluation_policy" in
               let* ref := bound_file d value (parent p) in
               let* digest := item ref "sha256" in
               let* expected := file_digest d policy_path in
               Ok (eq_str digest expected)) "OOC policy mismatch" ;;;
  let* value := item document "ooc_samples" in
  let* references := match value with
    | JArr ((_ :: _) as l) => Ok l | _ => Err (ClockError "OOC sample evidence required") end in
  let* samples := map_res (bound_path d (parent p)) references in
  let* sweep_value := item document "sweep" in
  let* sweep := bound_path d (parent p) sweep_value in
  require_res (let* selection := select_ooc d samples sweep in Ok (jeq (JObj document) (JObj selection)))
    "OOC selection/evidence mismatch" ;;;
  let* selected_value := item document "selected" in
  let* selected := as_record selected_value in
  let* frequency := integer document "selected_frequency_hz" 1 in
  let* digest := file_digest d p in
  let* contract := text selected "hardware_contract_sha256" in
  Ok {| selection_frequency_hz := frequency; selection_profile := profile; stage := "POST_ROUTE"; sha256 := digest;
        Clock.hardware_contract_sha256 := contract |}.
End Reports.
