(* ===== verification/ClockTheorems.v ===== *)
(** * Operating clocks: the constraint, the observations and the selection

    The constraint written for a frequency denotes its period
    ([constraint_period]); an observation that is not rejected meets every limit
    ([observation_passes]); the clock selected is the best of those that passed
    ([selected_clock_best]). *)
From S2P Require Import Prelude Rational Records Optrace Clock Ooc.
Set Default Goal Selector "!".
Open Scope Z_scope.

(** ** Decimal texts *)

Lemma digits_go x : ∀ s, digits_from 0 (pretty_N_go x s) = digits_from (Z.of_N x) s.
Proof.
  induction (N.lt_wf_0 x) as [x _ IH]. intros s. destruct (N.eq_0_gt_0_cases x) as [->|Hx]; [by rewrite pretty_N_go_0|].
  rewrite pretty_N_go_step by done. rewrite IH by (by apply N.div_lt). cbn [digits_from].
  assert (Hd : ∀ r, (r < 10)%N → digit_value (pretty_N_char r) = Some (Z.of_N r)).
  { intros r Hr. assert (r = 0 ∨ r = 1 ∨ r = 2 ∨ r = 3 ∨ r = 4 ∨ r = 5 ∨ r = 6 ∨ r = 7 ∨ r = 8 ∨ r = 9)%N as Hc by lia.
    destruct Hc as [->|[->|[->|[->|[->|[->|[->|[->|[->| ->]]]]]]]]]; done. }
  rewrite Hd by (apply N.mod_lt; lia). f_equal. rewrite N2Z.inj_div, N2Z.inj_mod.
  pose proof (Z.div_mod (Z.of_N x) 10 ltac:(lia)). lia.
Qed.

Lemma go_length x : ∀ s, (0 < x)%N →
  ∃ k, (0 < k)%nat ∧ String.length (pretty_N_go x s) = (k + String.length s)%nat ∧
    10 ^ (Z.of_nat k - 1) <= Z.of_N x < 10 ^ Z.of_nat k.
Proof.
  induction (N.lt_wf_0 x) as [x _ IH]. intros s Hx. rewrite pretty_N_go_step by done.
  destruct (N.eq_0_gt_0_cases (x / 10)) as [E|E].
  - rewrite E, pretty_N_go_0. exists 1%nat. apply N.div_small_iff in E; [|lia]. cbn. lia.
  - destruct (IH (x / 10)%N (N.div_lt x 10 Hx ltac:(lia)) (String (pretty_N_char (x mod 10)) s) E) as (k & Hk & -> & Hb).
    exists (S k). split; [lia|]. split; [cbn; lia|]. rewrite N2Z.inj_div in Hb.
    replace (Z.of_nat (S k) - 1) with (Z.of_nat k) by lia. rewrite Nat2Z.inj_succ, Z.pow_succ_r by lia.
    pose proof (Z.div_mod (Z.of_N x) 10 ltac:(lia)). pose proof (Z.mod_pos_bound (Z.of_N x) 10 ltac:(lia)).
    change (Z.of_N 10) with 10 in Hb.
    assert (10 ^ Z.of_nat k = 10 * 10 ^ (Z.of_nat k - 1)).
    { rewrite <- Z.pow_succ_r by lia. f_equal. lia. }
    lia.
Qed.

Lemma dec_nat z : 0 <= z → dec z = pretty (Z.to_N z).
Proof. by destruct z as [|p|p]. Qed.

Lemma dec_digits z : 0 <= z → digits_from 0 (dec z) = Some z.
Proof.
  intros Hz. rewrite dec_nat by done. unfold pretty, pretty_N. case_decide as E.
  - by assert (z = 0) as -> by lia.
  - rewrite digits_go. cbn. f_equal. lia.
Qed.

Lemma digit_count_bounds z : 0 < z → 0 < digit_count z ∧ 10 ^ (digit_count z - 1) <= z < 10 ^ digit_count z.
Proof.
  intros Hz. unfold digit_count. rewrite dec_nat by lia. unfold pretty, pretty_N. rewrite decide_False by lia.
  destruct (go_length (Z.to_N z) "" ltac:(lia)) as (k & Hk & -> & Hb). rewrite Z2N.id in Hb by lia. cbn.
  rewrite Nat.add_0_r. split; [lia|done].
Qed.

Lemma digit_count_le z k : 0 < z < 10 ^ k → 0 <= k → digit_count z <= k.
Proof.
  intros [Hz Hk] Hk0. destruct (digit_count_bounds z Hz) as (Hc & Hb & _).
  destruct (decide (digit_count z <= k)) as [|Hn]; [done|].
  pose proof (Z.pow_le_mono_r 10 k (digit_count z - 1) ltac:(lia) ltac:(lia)). lia.
Qed.

Lemma digit_count_ge z k : 10 ^ (k - 1) <= z → 0 < z → k <= digit_count z.
Proof.
  intros Hk Hz. destruct (digit_count_bounds z Hz) as (Hc & _ & Hb).
  destruct (decide (k <= digit_count z)) as [|Hn]; [done|].
  pose proof (Z.pow_le_mono_r 10 (digit_count z) (k - 1) ltac:(lia) ltac:(lia)). lia.
Qed.

(** ** The quotient in thirty digits *)

(** [(c, e)] is the quotient rounded down at the place [e]: exact, or with
    thirty digits. *)
Definition rounded_down (n d c e : Z) : Prop :=
  ∃ k, e = - k ∧ 0 <= k ∧ 0 <= c < 10 ^ precision ∧ c * d <= n * 10 ^ k < (c + 1) * d ∧
    (c * d = n * 10 ^ k ∨ 10 ^ (precision - 1) <= c).

Lemma ideal_spec fuel : ∀ c k, 0 <= k → ∃ c' k', ideal fuel c (- k) = (c', - k') ∧ 0 <= k' <= k ∧ c = c' * 10 ^ (k - k').
Proof.
  induction fuel as [|fuel IH]; intros c k Hk; cbn [ideal].
  - exists c, k. rewrite Z.sub_diag. split_and!; [done|lia|lia|lia].
  - destruct ((- k <? 0) && (c mod 10 =? 0)) eqn:E.
    + z_props. destruct (IH (c / 10) (k - 1) ltac:(lia)) as (c' & k' & Hi & Hb & Hc).
      replace (- k + 1) with (- (k - 1)) by lia. exists c', k'. split_and!; [done|lia|lia|].
      rewrite (Z.div_mod c 10) by lia. rewrite Hc. replace (k - k') with (Z.succ (k - 1 - k')) by lia.
      rewrite Z.pow_succ_r by lia. lia.
    + exists c, k. rewrite Z.sub_diag. split_and!; [done|lia|lia|lia].
Qed.

Lemma fix_small c e : 0 < c → digit_count c <= precision → fix_digits c e = (c, e).
Proof. intros Hc Hd. unfold fix_digits. by rewrite (proj2 (Z.ltb_ge 0 _)) by lia. Qed.

(** Dropping the digits in excess of the precision rounds down. *)
Lemma fix_floor n d c k : 0 < n → 0 < d → 0 <= k → 10 * (n + 1) <= 10 ^ precision * d →
  c = n * 10 ^ k / d → precision <= digit_count c → 0 < c →
  ∃ c' e, fix_digits c (- k) = (c', e) ∧ rounded_down n d c' e.
Proof.
  intros Hn Hd Hk Hsize Ec Hlong Hc. destruct (digit_count_bounds c Hc) as (Hx & Hlo & Hhi).
  unfold fix_digits. remember (digit_count c - precision) as x eqn:Ex. assert (Hprec : precision = 30) by done.
  assert (Hpow : 10 ^ digit_count c = 10 ^ precision * 10 ^ x).
  { rewrite <- Z.pow_add_r by lia. f_equal. lia. }
  assert (Hpow' : 10 ^ (digit_count c - 1) = 10 ^ (precision - 1) * 10 ^ x).
  { rewrite <- Z.pow_add_r by lia. f_equal. lia. }
  assert (Hxp : 0 < 10 ^ x) by (apply Z.pow_pos_nonneg; lia).
  assert (Hcd : c * d <= n * 10 ^ k) by (subst c; rewrite Z.mul_comm; apply Z.mul_div_le; lia).
  assert (Hxk : x <= k).
  { destruct (decide (x <= k)) as [|Hgt]; [done|exfalso].
    assert (Hm : 10 ^ x = 10 ^ k * 10 ^ (x - k)) by (rewrite <- Z.pow_add_r by lia; f_equal; lia).
    assert (0 < 10 ^ k) by (apply Z.pow_pos_nonneg; lia).
    assert (10 <= 10 ^ (x - k)) by (change 10 with (10 ^ 1) at 1; apply Z.pow_le_mono_r; lia).
    assert (Hb0 : 10 ^ k * 10 <= 10 ^ x) by (rewrite Hm; apply Z.mul_le_mono_nonneg_l; lia).
    assert (Hp : 0 < 10 ^ (precision - 1)) by done.
    assert (Hb1 : 10 ^ (precision - 1) * (10 ^ k * 10) <= c) by (etrans; [apply Z.mul_le_mono_nonneg_l; [lia|exact Hb0]|lia]).
    assert (Hb2 : 10 ^ (precision - 1) * (10 ^ k * 10) * d <= n * 10 ^ k).
    { etrans; [|exact Hcd]. apply Z.mul_le_mono_nonneg_r; [lia|done]. }
    assert (Hb3 : 10 ^ precision * d * 10 ^ k <= n * 10 ^ k) by (change (10 ^ precision) with (10 ^ (precision - 1) * 10); lia).
    apply Z.mul_le_mono_pos_r in Hb3; [|done]. lia. }
  assert (Hfix : (if 0 <? x then (c / 10 ^ x, - k + x) else (c, - k)) = (c / 10 ^ x, - (k - x))).
  { destruct (0 <? x) eqn:E; [f_equal; lia|]. apply Z.ltb_ge in E.
    assert (x = 0) as -> by lia. rewrite Z.pow_0_r, Z.div_1_r. f_equal. lia. }
  exists (c / 10 ^ x), (- (k - x)). split; [done|]. exists (k - x).
  assert (Hflo : c / 10 ^ x = n * 10 ^ (k - x) / d).
  { subst c. rewrite Z.div_div by lia. replace (10 ^ k) with (10 ^ (k - x) * 10 ^ x) by (rewrite <- Z.pow_add_r by lia; f_equal; lia).
    rewrite Z.mul_assoc. by apply Z.div_mul_cancel_r; lia. }
  split_and!; [done|lia|apply Z.div_pos; lia|apply Z.div_lt_upper_bound; lia| | |].
  - rewrite Hflo, Z.mul_comm. apply Z.mul_div_le. lia.
  - rewrite Hflo. pose proof (Z.mul_succ_div_gt (n * 10 ^ (k - x)) d Hd). lia.
  - right. apply Z.div_le_lower_bound; lia.
Qed.

Lemma decimal_quotient_spec n d : 0 < n < 10 ^ 20 → 0 < d →
  ∃ c e, decimal_quotient n d = (c, e) ∧ rounded_down n d c e.
Proof.
  intros [Hn Hn'] Hd. destruct (digit_count_bounds n Hn) as (Hln & Hnl & Hnh), (digit_count_bounds d Hd) as (Hld & Hdl & Hdh).
  pose proof (digit_count_le n 20 ltac:(lia) ltac:(lia)) as Hdn.
  unfold decimal_quotient. set (s := digit_count d - digit_count n + precision + 1).
  assert (Hs : 0 <= s) by (unfold s, precision; lia). rewrite (proj2 (Z.leb_le 0 s) Hs).
  assert (Hsp : 0 < 10 ^ s) by (apply Z.pow_pos_nonneg; lia).
  assert (Hbig : 10 ^ precision <= n * 10 ^ s / d).
  { apply Z.div_le_lower_bound; [lia|].
    assert (10 ^ digit_count d * 10 ^ precision = 10 ^ (digit_count n - 1) * 10 ^ s).
    { rewrite <- !Z.pow_add_r by (unfold precision, s in *; lia). f_equal. unfold s. lia. }
    etrans; [apply Z.mul_le_mono_nonneg_r; [done|apply Z.lt_le_incl, Hdh]|].
    rewrite H. apply Z.mul_le_mono_nonneg_r; lia. }
  assert (Hsize : 10 * (n + 1) <= 10 ^ precision * d).
  { assert (10 * (10 ^ 20) <= 10 ^ precision) by (vm_compute; congruence).
    assert (10 ^ precision * 1 <= 10 ^ precision * d) by (apply Z.mul_le_mono_nonneg_l; lia). lia. }
  destruct (n * 10 ^ s mod d =? 0) eqn:E.
  - apply Z.eqb_eq in E. destruct (ideal_spec (Z.to_nat s) (n * 10 ^ s / d) s Hs) as (c & k & -> & Hk & Hc).
    assert (Hkp : 0 < 10 ^ (s - k)) by (apply Z.pow_pos_nonneg; lia).
    assert (Hexact : n * 10 ^ k = c * d).
    { assert (Hd' : n * 10 ^ s = d * (n * 10 ^ s / d)) by (rewrite (Z.div_mod (n * 10 ^ s) d) at 1 by lia; lia).
      rewrite Hc in Hd'. replace (10 ^ s) with (10 ^ k * 10 ^ (s - k)) in Hd' by (rewrite <- Z.pow_add_r by lia; f_equal; lia). nia. }
    assert (Hcp : 0 < c).
    { apply (Z.mul_pos_cancel_r c (10 ^ (s - k))); [done|]. rewrite <- Hc. assert (0 < 10 ^ precision) by done. lia. }
    destruct (decide (digit_count c <= precision)) as [Hshort|Hlong].
    + rewrite fix_small by done. exists c, (- k). split; [done|]. exists k. destruct (digit_count_bounds c Hcp) as (_ & _ & Hu).
      pose proof (Z.pow_le_mono_r 10 _ _ ltac:(lia) Hshort). split_and!; [done|lia|lia|lia|lia|lia|by left].
    + destruct (fix_floor n d c k) as (c' & e & -> & Hr); [done|done|lia|done| |lia|done|by exists c', e].
      rewrite Hexact. by rewrite Z.div_mul by lia.
  - destruct (fix_floor n d (n * 10 ^ s / d) s) as (c' & e & -> & Hr);
      [done|done|done|done|done| | |by exists c', e].
    + apply digit_count_ge; [|].
      * assert (10 ^ (precision - 1) <= 10 ^ precision) by (vm_compute; congruence). lia.
      * assert (0 < 10 ^ precision) by done. lia.
    + assert (0 < 10 ^ precision) by done. lia.
Qed.

(** ** Plain texts *)

Definition single (c : ascii) : string := String c EmptyString.
Definition plain (c : ascii) : bool := (33 <=? byte c) && (byte c <? 127).
Definition ascii_char (c : ascii) : bool := byte c <? 128.
(** What may follow a run of digits. *)
Definition ends_digits (s : string) : Prop :=
  match s with String c _ => is_digit c = false ∧ Ascii.eqb c "_" = false | EmptyString => True end.

Lemma plain_facts c : plain c = true → blank c = false ∧ ascii_char c = true.
Proof. destruct c as [[] [] [] [] [] [] [] []]; vm_compute; done. Qed.
Lemma digit_facts c : is_digit c = true →
  plain c = true ∧ Ascii.eqb c "-" = false ∧ Ascii.eqb c "+" = false ∧ Ascii.eqb c "." = false.
Proof. destruct c as [[] [] [] [] [] [] [] []]; vm_compute; done. Qed.
Lemma ascii_no_continuation c : ascii_char c = true → continuation c = false.
Proof. unfold ascii_char, continuation. intros ?%Z.ltb_lt. by rewrite (proj2 (Z.leb_gt _ _)) by lia. Qed.

Lemma append_cons c s t : String c s +:+ t = String c (s +:+ t).
Proof. done. Qed.
Lemma append_empty s : s +:+ "" = s.
Proof. induction s as [|c s IH]; [done|]. by rewrite append_cons, IH. Qed.
Lemma append_assoc s t u : (s +:+ t) +:+ u = s +:+ (t +:+ u).
Proof. induction s as [|c s IH]; [done|]. by rewrite !append_cons, IH. Qed.
Lemma all_chars_app p s t : all_chars p (s +:+ t) = all_chars p s && all_chars p t.
Proof. induction s as [|c s IH]; [done|]. rewrite append_cons. cbn. by rewrite IH, andb_assoc. Qed.
Lemma all_chars_mono (p q : ascii → bool) s : (∀ c, p c = true → q c = true) → all_chars p s = true → all_chars q s = true.
Proof. intros Hpq. induction s as [|c s IH]; cbn; [done|]. intros [Hc Hs]%andb_prop. by rewrite (Hpq c Hc), (IH Hs). Qed.
Lemma digits_ascii s : all_chars is_digit s = true → all_chars ascii_char s = true.
Proof. apply all_chars_mono. intros c (Hp & _)%digit_facts. by apply plain_facts. Qed.
Lemma digits_plain s : all_chars is_digit s = true → all_chars plain s = true.
Proof. apply all_chars_mono. by intros c (Hp & _)%digit_facts. Qed.
Lemma letters_app s t : letters (s +:+ t) = letters s ++ letters t.
Proof. induction s as [|c s IH]; [done|]. rewrite append_cons. cbn. by rewrite IH. Qed.

Lemma chars_ascii s : all_chars ascii_char s = true → chars s = map single (letters s).
Proof.
  induction s as [|c s IH]; [done|]. cbn [all_chars]. intros [Hc Hs]%andb_prop. cbn [chars letters map]. rewrite (IH Hs).
  destruct s as [|d s]; [done|]. cbn [all_chars] in Hs. apply andb_prop in Hs as [Hd _]. cbn.
  by rewrite (ascii_no_continuation d Hd).
Qed.
Lemma concat_single s : concat_points (map single (letters s)) = s.
Proof. unfold concat_points. induction s as [|c s IH]; cbn; [done|]. by rewrite IH. Qed.

Lemma lstrip_plain c s : plain c = true → all_chars ascii_char s = true → lstrip is_space (String c s) = String c s.
Proof.
  intros Hc Hs. destruct (plain_facts c Hc) as [Hb Ha]. unfold lstrip. rewrite chars_ascii by (cbn; by rewrite Ha).
  cbn [letters map drop_while]. change (is_space (single c)) with (blank c). rewrite Hb. apply (concat_single (String c s)).
Qed.

(** A word in a text of words. *)
Lemma words_word w : ∀ current l, all_chars plain w = true →
  words_from current (map single (letters w) ++ l) = words_from (current +:+ w) l.
Proof.
  induction w as [|c w IH]; intros current l; cbn [all_chars].
  - intros _. by rewrite append_empty.
  - intros [Hc Hw]%andb_prop. cbn [letters map app words_from].
    change (is_space (single c)) with (blank c). rewrite (proj1 (plain_facts c Hc)), IH by done. by rewrite append_assoc.
Qed.

(** The digits at the head of a text. *)
Lemma digit_tail_app d s : all_chars is_digit d = true → ends_digits s → digit_tail (d +:+ s) = (d, s).
Proof.
  intros Hd Hs. induction d as [|c d IH].
  - change ("" +:+ s) with s. destruct s as [|c s]; [done|]. destruct Hs as [Hc Hu]. cbn. by rewrite Hc, Hu.
  - cbn [all_chars] in Hd. apply andb_prop in Hd as [Hc Hd]. change (String c d +:+ s) with (String c (d +:+ s)).
    cbn [digit_tail]. by rewrite Hc, (IH Hd).
Qed.
Lemma digit_group_app d s : all_chars is_digit d = true → ends_digits s → digit_group (d +:+ s) = (d, s).
Proof.
  intros Hd Hs. pose proof (digit_tail_app d s Hd Hs) as Ht. destruct d as [|c d].
  - change ("" +:+ s) with s. destruct s as [|c s]; [done|]. destruct Hs as [Hc _]. cbn. by rewrite Hc.
  - cbn [all_chars] in Hd. apply andb_prop in Hd as [Hc _]. change (String c d +:+ s) with (String c (d +:+ s)) in *.
    unfold digit_group. by rewrite Hc.
Qed.

Lemma digits_from_app s t : ∀ acc v, digits_from acc s = Some v → digits_from acc (s +:+ t) = digits_from v t.
Proof.
  induction s as [|c s IH]; intros acc v; [by intros [= ->]|]. rewrite append_cons. cbn. destruct (digit_value c); [|done]. apply IH.
Qed.
Lemma digits_from_digits s : ∀ acc v, digits_from acc s = Some v → all_chars is_digit s = true.
Proof.
  induction s as [|c s IH]; intros acc v; cbn; [done|]. unfold is_digit. destruct (digit_value c); [|done]. apply IH.
Qed.
Lemma digits_from_shift s : ∀ acc, all_chars is_digit s = true →
  ∃ v, digits_from 0 s = Some v ∧ digits_from acc s = Some (acc * 10 ^ Z.of_nat (String.length s) + v).
Proof.
  induction s as [|c s IH]; intros acc; cbn [all_chars digits_from String.length].
  - intros _. exists 0. split; [done|]. f_equal. rewrite Z.pow_0_r. lia.
  - intros [Hc Hs]%andb_prop. unfold is_digit in Hc. destruct (digit_value c) as [x|]; [|done].
    destruct (IH (10 * 0 + x) Hs) as (v & Hv & ->), (IH (10 * acc + x) Hs) as (v' & Hv' & ->).
    assert (v' = v) as -> by congruence. eexists. split; [done|]. f_equal. rewrite Nat2Z.inj_succ, Z.pow_succ_r by lia. lia.
Qed.

Lemma int_of_digits d : all_chars is_digit d = true → (String.length d <= 4300)%nat →
  int_of d = Ok (default 0 (digits_from 0 d)).
Proof.
  intros _ Hl. unfold int_of. rewrite (proj2 (Nat.ltb_ge _ _) Hl). by destruct d.
Qed.

(** ** Fractions of decimal texts *)

Lemma literal_decimal w f : w ≠ "" → all_chars is_digit w = true → all_chars is_digit f = true →
  literal_of (w +:+ "." +:+ f) = Some (1, Decimal w f 1 "").
Proof.
  intros Hw Hd Hf. destruct w as [|c w]; [done|]. cbn [all_chars] in Hd. pose proof Hd as [Hc Hd']%andb_prop.
  destruct (digit_facts c Hc) as (Hp & Hminus & Hplus & _). change (String c w +:+ "." +:+ f) with (String c (w +:+ "." +:+ f)).
  unfold literal_of. rewrite lstrip_plain by
    (done || (rewrite !all_chars_app, (digits_ascii w Hd'), (digits_ascii f Hf); done)).
  cbn [take_sign]. rewrite Hminus, Hplus. change (String c (w +:+ "." +:+ f)) with (String c w +:+ String "." f).
  rewrite digit_group_app by done. cbn [String.eqb andb].
  rewrite lstrip_plain by (done || by apply digits_ascii). cbn [take_fraction].
  change (Ascii.eqb "." ".") with true. cbn iota.
  pose proof (digit_group_app f "" Hf I) as Hg. rewrite append_empty in Hg. by rewrite Hg.
Qed.

Lemma literal_integer w : w ≠ "" → all_chars is_digit w = true → literal_of w = Some (1, Decimal w "" 1 "").
Proof.
  intros Hw Hd. destruct w as [|c w]; [done|]. pose proof Hd as Hd0. cbn [all_chars] in Hd. apply andb_prop in Hd as [Hc Hd'].
  destruct (digit_facts c Hc) as (Hp & Hminus & Hplus & _). unfold literal_of.
  rewrite lstrip_plain by (done || by apply digits_ascii). cbn [take_sign]. rewrite Hminus, Hplus.
  pose proof (digit_group_app (String c w) "" Hd0 I) as Hg. rewrite append_empty in Hg. by rewrite Hg.
Qed.

Lemma fraction_pos n d : 0 < d → ∃ q, fraction n d = Ok q ∧ (q * qz d)%Qc = qz n.
Proof.
  destruct d as [|p|p]; [done| |done]. intros _. eexists. split; [done|]. apply qc_eq.
  rewrite this_mult, !this_qz. etrans; [apply Qmult_comp; [apply Qred_correct|reflexivity]|].
  unfold Qeq, inject_Z. cbn. lia.
Qed.

Lemma parse_decimal w f v : w ≠ "" → all_chars is_digit w = true → all_chars is_digit f = true →
  (String.length w <= 4300)%nat → (String.length f <= 4300)%nat → digits_from 0 (w +:+ f) = Some v →
  ∃ q, parse_fraction (w +:+ "." +:+ f) = Ok q ∧ (q * qz (10 ^ Z.of_nat (String.length f)))%Qc = qz v.
Proof.
  intros Hw Hd Hf Lw Lf Hv. unfold parse_fraction. rewrite literal_decimal by done.
  rewrite (int_of_digits w), (int_of_digits f) by done. cbn [mbind res_bind]. change (int_of "") with (Ok 0). cbn [mbind res_bind].
  change (0 <=? 1 * 0) with true. cbn iota.
  destruct (digits_from_shift w 0 Hd) as (vw & Ew & _). rewrite (digits_from_app w f 0 vw Ew) in Hv.
  destruct (digits_from_shift f vw Hf) as (vf & Ef & Ev). rewrite Ew, Ef. cbn [default].
  rewrite Z.pow_0_r, Z.mul_1_r, Z.mul_1_l. assert (v = vw * 10 ^ Z.of_nat (String.length f) + vf) as -> by congruence.
  apply fraction_pos. apply Z.pow_pos_nonneg; lia.
Qed.

Lemma parse_integer w v : w ≠ "" → (String.length w <= 4300)%nat → digits_from 0 w = Some v →
  ∃ q, parse_fraction w = Ok q ∧ q = qz v.
Proof.
  intros Hw Lw Hv. pose proof (digits_from_digits w 0 v Hv) as Hd. unfold parse_fraction. rewrite literal_integer by done.
  rewrite (int_of_digits w), Hv by done. cbn. eexists. split; [done|]. apply qc_eq. rewrite this_qz. etrans; [apply Qred_correct|].
  unfold Qeq, inject_Z. cbn. destruct v; lia.
Qed.

Lemma substring_split s : ∀ m, (m <= String.length s)%nat →
  s = String.substring 0 m s +:+ String.substring m (String.length s - m) s ∧
  String.length (String.substring 0 m s) = m ∧ String.length (String.substring m (String.length s - m) s) = (String.length s - m)%nat.
Proof.
  induction s as [|c s IH]; intros [|m] Hm; cbn in Hm |- *; try lia; try done.
  - destruct (IH 0%nat ltac:(lia)) as (E & _ & L). rewrite Nat.sub_0_r in E, L.
    assert (E' : s = String.substring 0 (String.length s) s) by (rewrite E at 1; by destruct s).
    change ("" +:+ String c (String.substring 0 (String.length s) s)) with (String c (String.substring 0 (String.length s) s)).
    split_and!; [by rewrite <- E'|done|by rewrite L].
  - destruct (IH m ltac:(lia)) as (E & L1 & L2). rewrite append_cons. split_and!; [by rewrite <- E|by rewrite L1|done].
Qed.

Lemma length_app s t : String.length (s +:+ t) = (String.length s + String.length t)%nat.
Proof. induction s as [|c s IH]; [done|]. rewrite append_cons. cbn. by rewrite IH. Qed.

Lemma zeros_digits n s : digits_from 0 (zeros n +:+ s) = digits_from 0 s.
Proof. induction n as [|n IH]; [done|]. cbn [zeros]. rewrite append_cons. cbn. exact IH. Qed.
Lemma zeros_length n : String.length (zeros n) = n.
Proof. induction n; cbn; by f_equal. Qed.

(** The text of a decimal denotes it. *)
Lemma parse_show_decimal c k : 0 <= c → 0 <= k <= 4300 → digit_count c <= 4300 →
  ∃ q, parse_fraction (show_decimal c (- k)) = Ok q ∧ (q * qz (10 ^ k))%Qc = qz c ∧
    all_chars plain (show_decimal c (- k)) = true ∧ show_decimal c (- k) ≠ "".
Proof.
  intros Hc Hk Hl. unfold digit_count in Hl. pose proof (dec_digits c Hc) as Hv. pose proof (dec_nonempty c) as Hne.
  pose proof (digits_from_digits _ _ _ Hv) as Hd. unfold show_decimal.
  destruct (0 <=? - k) eqn:E.
  - apply Z.leb_le in E. assert (k = 0) as -> by lia.
    destruct (parse_integer (dec c) c Hne ltac:(lia) Hv) as (q & Hq & ->). exists (qz c).
    split_and!; [done| |by apply digits_plain|done]. rewrite <- qz_mul. f_equal. lia.
  - apply Z.leb_gt in E. replace (Z.to_nat (- - k)) with (Z.to_nat k) by lia.
    set (n := Z.to_nat k). set (padded := zeros (S n - String.length (dec c)) +:+ dec c).
    assert (Hlen : String.length padded = Nat.max (S n) (String.length (dec c))).
    { unfold padded. rewrite length_app, zeros_length. lia. }
    assert (Hpv : digits_from 0 padded = Some c) by (unfold padded; by rewrite zeros_digits).
    destruct (substring_split padded (String.length padded - n) ltac:(lia)) as (Hsplit & L1 & L2).
    replace (String.length padded - (String.length padded - n))%nat with n in * by lia.
    set (w := String.substring 0 (String.length padded - n) padded) in *.
    set (f := String.substring (String.length padded - n) n padded) in *.
    assert (Hwd : all_chars is_digit w = true ∧ all_chars is_digit f = true).
    { apply andb_prop. rewrite <- all_chars_app, <- Hsplit. by apply (digits_from_digits _ 0 c). }
    destruct Hwd as [Hwd Hfd].
    assert (Hw : w ≠ "") by (intros Ew; rewrite Ew in L1; cbn in L1; lia).
    destruct (parse_decimal w f c Hw Hwd Hfd) as (q & Hq & Hqc); [lia|lia|by rewrite <- Hsplit|].
    exists q. split_and!; [done| | |].
    + rewrite <- Hqc. do 2 f_equal. rewrite L2. unfold n. by rewrite Z2Nat.id by lia.
    + rewrite !all_chars_app, (digits_plain w Hwd), (digits_plain f Hfd). done.
    + destruct w as [|a w']; [done|]. by rewrite append_cons.
Qed.

(** ** The constraint of a frequency *)

Lemma scaled_le (x y : Qc) (a b m : Z) : 0 < m → (x * qz m)%Qc = qz a → (y * qz m)%Qc = qz b → a <= b → (x <= y)%Qc.
Proof.
  intros Hm Hx Hy Hab. apply Qcnot_lt_le. intros Hlt.
  apply (Qcmult_lt_compat_r _ _ (qz m)) in Hlt; [|rewrite <- qz_0; by apply qz_lt]. rewrite Hx, Hy in Hlt.
  pose proof (proj1 (qz_lt _ _) Hlt). lia.
Qed.

Lemma reduced_period f q : 0 < f → fraction (10 ^ 9) f = Ok q →
  0 < Qnum q ∧ (q * qz (Zpos (Qden q)))%Qc = qz (Qnum q) ∧ (Qnum q | 10 ^ 9) ∧ (Zpos (Qden q) | f).
Proof.
  intros Hf Hq. destruct (fraction_pos (10 ^ 9) f Hf) as (q' & Hq' & Hmul). assert (q' = q) as -> by congruence.
  assert (Hn : (q * qz (Zpos (Qden q)))%Qc = qz (Qnum q)).
  { apply qc_eq. rewrite this_mult, !this_qz. unfold Qeq, inject_Z. cbn. lia. }
  assert (Hgcd : Z.gcd (Qnum q) (Zpos (Qden q)) = 1) by (apply Qred_iff, canon).
  assert (Hcross : Qnum q * f = 10 ^ 9 * Zpos (Qden q)).
  { apply qc_eq in Hmul. rewrite this_mult, !this_qz in Hmul.
    unfold Qeq, inject_Z in Hmul. cbn [Qnum Qden Qmult] in Hmul. lia. }
  assert (Hpos : 0 < Qnum q) by nia. split_and!; [done|done| |].
  - apply (Z.gauss _ (Zpos (Qden q))); [|done]. exists f. lia.
  - apply (Z.gauss _ (Qnum q)); [|by rewrite Z.gcd_comm]. exists (10 ^ 9). lia.
Qed.

Lemma rounded_places n d c e b : 0 < n → 0 < d < 10 ^ b → 0 <= b → rounded_down n d c e →
  ∃ k, e = - k ∧ 0 <= k <= b + precision ∧ 0 <= c ∧ digit_count c <= precision ∧ c * d <= n * 10 ^ k ∧
    (n * 10 ^ k - c * d) * 10 ^ (precision - 1) <= n * 10 ^ k.
Proof.
  intros Hn Hd Hb (k & -> & Hk & Hc & [Hle Hlt] & Hexact). exists k.
  assert (Hp : 10 ^ k <= 10 ^ (b + precision)).
  { rewrite Z.pow_add_r by (unfold precision; lia).
    assert (10 ^ k <= n * 10 ^ k) by (rewrite <- (Z.mul_1_l (10 ^ k)) at 1; apply Z.mul_le_mono_nonneg_r; [apply Z.lt_le_incl, Z.pow_pos_nonneg; lia|lia]).
    assert ((c + 1) * d <= 10 ^ precision * 10 ^ b) by (apply Z.mul_le_mono_nonneg; lia). lia. }
  split_and!; [done|done| | lia | |done|].
  - apply (Z.pow_le_mono_r_iff 10); [lia|unfold precision; lia|done].
  - destruct (decide (c = 0)) as [->|]; [by vm_compute|]. apply digit_count_le; [lia|done].
  - destruct Hexact as [->|Hbig]; [rewrite Z.sub_diag; assert (0 < 10 ^ k) by (apply Z.pow_pos_nonneg; lia); nia|].
    assert (0 < 10 ^ (precision - 1)) by done.
    assert ((n * 10 ^ k - c * d) * 10 ^ (precision - 1) <= d * 10 ^ (precision - 1)) by (apply Z.mul_le_mono_nonneg_r; lia).
    assert (10 ^ (precision - 1) * d <= c * d) by (apply Z.mul_le_mono_nonneg_r; lia). lia.
Qed.

(** The words of the constraint: the fifth is the period. *)
Lemma constraint_words w t : all_chars plain w = true → w ≠ "" → all_chars ascii_char t = true →
  nth 4 (words ("create_clock -name core_clk -period " +:+ w +:+ " " +:+ t)) "" = w.
Proof.
  intros Hw Hne Ht. assert (Ha : all_chars ascii_char w = true) by (eapply all_chars_mono; [|exact Hw]; apply plain_facts).
  unfold words. rewrite chars_ascii by (rewrite !all_chars_app, Ha, Ht; done).
  rewrite !letters_app, !map_app.
  change (nth 4 (words_from "" (map single (letters "create_clock -name core_clk -period ") ++ map single (letters w) ++
    map single (letters " ") ++ map single (letters t))) "")
    with (nth 0 (words_from "" (map single (letters w) ++ map single (letters " ") ++ map single (letters t))) "").
  rewrite words_word by done. change ("" +:+ w) with w. cbn [map letters app words_from].
  change (is_space (single " ")) with true. cbn iota. by destruct (String.eqb_spec w "").
Qed.

Lemma period_quotient f q : 0 < f → fraction (10 ^ 9) f = Ok q → q = (qz (10 ^ 9) / qz f)%Qc.
Proof.
  intros Hf Hq. destruct (fraction_pos (10 ^ 9) f Hf) as (q' & Hq' & Hmul). assert (q' = q) as -> by congruence.
  rewrite <- Hmul. symmetry. apply Qcdiv_mult_l, pos_neq. rewrite <- qz_0. by apply qz_lt.
Qed.

(** What a decimal rounded down is to the fraction it rounds. *)
Lemma rounded_error (q p : Qc) n d c k : 0 < d → 0 <= k → (q * qz d)%Qc = qz n → (p * qz (10 ^ k))%Qc = qz c →
  c * d <= n * 10 ^ k → (n * 10 ^ k - c * d) * 10 ^ (precision - 1) <= n * 10 ^ k →
  (p <= q)%Qc ∧ ((q - p) * qz (10 ^ (precision - 1)) <= q)%Qc.
Proof.
  intros Hd Hk Hq Hp Hle Herr. assert (Hk' : 0 < 10 ^ k) by (apply Z.pow_pos_nonneg; lia).
  assert (Hm : 0 < d * 10 ^ k) by lia.
  assert (Eq : (q * qz (d * 10 ^ k))%Qc = qz (n * 10 ^ k)) by (rewrite !qz_mul, <- Hq; ring).
  assert (Ep : (p * qz (d * 10 ^ k))%Qc = qz (c * d)) by (rewrite !qz_mul, <- Hp; ring).
  split; [by eapply scaled_le|]. eapply scaled_le; [exact Hm| |exact Eq|exact Herr].
  assert (Es : qz (n * 10 ^ k - c * d) = (qz (n * 10 ^ k) - qz (c * d))%Qc).
  { replace (qz (n * 10 ^ k)) with (qz (n * 10 ^ k - c * d) + qz (c * d))%Qc by (rewrite <- qz_plus; f_equal; lia). ring. }
  rewrite (qz_mul (n * 10 ^ k - c * d)), Es, <- Eq, <- Ep. ring.
Qed.

(** The constraint written for a frequency asks for its period: the printed
    decimal denotes a fraction that is never above the period, and below it by
    less than one part in [10 ^ 29]. *)
Theorem constraint_period f policy : 0 < f < 10 ^ 4000 →
  policy ∈ ["ASYNC_RST_N_SOURCE_EVENT_PROVEN"; "NO_ASYNC_RST_N_EXCLUSION"] →
  ∃ text period, constraints f policy = Ok text ∧ parse_fraction (nth 4 (words text) "") = Ok period ∧
    (period <= qz (10 ^ 9) / qz f)%Qc ∧
    ((qz (10 ^ 9) / qz f - period) * qz (10 ^ 29) <= qz (10 ^ 9) / qz f)%Qc.
Proof.
  intros [Hf Hsmall] Hp%str_in_spec. destruct (fraction_pos (10 ^ 9) f Hf) as (q & Hq & _).
  destruct (reduced_period f q Hf Hq) as (Hn & Hnd & Hnum & Hdiv).
  apply Z.divide_pos_le in Hdiv; [|done]. apply Z.divide_pos_le in Hnum; [|done].
  destruct (decimal_quotient_spec (Qnum q) (Zpos (Qden q))) as (c & e & Hce & Hround); [split; [done|eapply Z.le_lt_trans; [exact Hnum|done]]|done|].
  destruct (rounded_places _ _ c e 4000 Hn (conj (Pos2Z.is_pos (Qden q)) (Z.le_lt_trans _ _ _ Hdiv Hsmall)) ltac:(done) Hround) as (k & -> & Hk & Hc & Hdc & Hle & Herr).
  destruct (parse_show_decimal c k Hc) as (p & Hparse & Hpc & Hplain & Hne); [unfold precision in *; lia|unfold precision in *; lia|].
  rewrite <- (period_quotient f q Hf Hq).
  destruct (rounded_error q p (Qnum q) (Zpos (Qden q)) c k ltac:(done) (proj1 Hk) Hnd Hpc Hle Herr) as [Hpq Hpe].
  unfold constraints. rewrite (proj2 (Z.ltb_lt 0 f) Hf), Hp, Hq. cbn [require check mbind res_bind]. rewrite Hce.
  eexists _, p. split; [done|]. split; [|done]. rewrite <- Hparse. f_equal. rewrite !append_assoc.
  apply (constraint_words _ _ Hplain Hne). by destruct (String.eqb policy _).
Qed.

(** ** The accessors *)

Lemma require_Ok b detail {A} (k : unit → res A) v : mbind k (require b detail) = Ok v ↔ b = true ∧ k tt = Ok v.
Proof. apply check_bind. Qed.
Lemma require_res_Ok m detail {A} (k : unit → res A) v : mbind k (require_res m detail) = Ok v ↔ m = Ok true ∧ k tt = Ok v.
Proof.
  unfold require_res. rewrite bind_Ok. split.
  - intros ([] & H%require_m_Ok & Hk). done.
  - intros [H Hk]. exists tt. by rewrite require_m_Ok.
Qed.

Lemma text_spec row key s : text row key = Ok s ↔ pget row key = JStr s ∧ strip s ≠ "".
Proof.
  unfold text. destruct (pget row key) as [| | | |t| |]; try (split; [done|naive_solver]).
  destruct (String.eqb_spec (strip t) "") as [E|E]; split; try done.
  - by intros [[= ->] ?].
  - by intros [= ->].
  - by intros [[= ->] ?].
Qed.
Lemma integer_spec row key minimum z : integer row key minimum = Ok z ↔ pget row key = JInt z ∧ minimum <= z.
Proof.
  unfold integer. destruct (pget row key) as [| |w| | | |]; try (split; [done|naive_solver]).
  destruct (Z.ltb_spec w minimum); split; try done; try (intros [[= ->] ?]; (done || lia)). by intros [= ->].
Qed.
Lemma as_record_spec v r : as_record v = Ok r ↔ v = JObj r.
Proof. destruct v; naive_solver. Qed.
Lemma rational_spec row key q : rational row key = Ok q ↔ ∃ s, text row key = Ok s ∧ parse_fraction s = Ok q.
Proof.
  unfold rational. rewrite <-bind_Ok. destruct (let* s := text row key in parse_fraction s) as [q'|e]; [done|]. by destruct e.
Qed.

Section Observations.
Context `{Host} `{Documents}.
Variable d : Disk.

(** A reference that holds: the digest of the file it names. *)
Definition bound (value : json) : Prop :=
  ∃ p s, value = JObj [("path", JStr (path_text (resolve d p))); ("sha256", JStr (sha256_hex s))] ∧
    read_bytes d p = Ok s ∧ is_symlink d p = false.

Lemma file_ref_spec p r : file_ref d p = Ok r ↔
  ∃ s, read_bytes d p = Ok s ∧ is_symlink d p = false ∧
    r = [("path", JStr (path_text (resolve d p))); ("sha256", JStr (sha256_hex s))].
Proof.
  unfold file_ref. rewrite require_Ok, andb_true_iff, negb_true_iff. unfold file_digest, is_file, read_bytes.
  destruct (file d (resolve d p)) as [s|]; cbn.
  - split; [intros [[_ Hl] [= <-]]; by exists s|]. by intros (s' & [= <-] & -> & ->).
  - split; [by intros [[? _] _]|]. by intros (s' & ? & _).
Qed.

Lemma bound_file_spec value base r : bound_file d value base = Ok r →
  ∃ ref name p s, value = JObj ref ∧ pget ref "path" = JStr name ∧
    p = (if absolute (path_of name) then path_of name else joinpath base (path_of name)) ∧
    read_bytes d p = Ok s ∧ is_symlink d p = false ∧ pget ref "sha256" = JStr (sha256_hex s) ∧
    r = [("path", JStr (path_text (resolve d p))); ("sha256", JStr (sha256_hex s))].
Proof.
  unfold bound_file. intros (ref & ->%as_record_spec & Hr)%bind_Ok. apply require_Ok in Hr as [Hkeys Hr].
  apply bind_Ok in Hr as (name & [Hname _]%text_spec & Hr). cbv zeta in Hr.
  apply bind_Ok in Hr as (resolved & (s & Hs & Hl & ->)%file_ref_spec & Hr). apply require_res_Ok in Hr as [Hd Hr].
  apply bind_Ok in Hd as (digest & Hdig & Hd). apply bind_Ok in Hd as (expected & [Hex _]%text_spec & Hd).
  injection Hdig as <-. assert (Heq : eq_str (JStr (sha256_hex s)) expected = true) by congruence.
  apply eq_str_spec in Heq. injection Heq as Heq.
  exists ref, name, (if absolute (path_of name) then path_of name else joinpath base (path_of name)), s.
  split_and!; [done|done|done|done|done|congruence|congruence].
Qed.

Lemma bound_file_bound value base r : bound_file d value base = Ok r → bound (JObj r).
Proof. intros (? & ? & p & s & _ & _ & _ & Hs & Hl & _ & ->)%bound_file_spec. by exists p, s. Qed.

Definition ARTIFACTS : list string := ["source"; "netlist"; "tool_report"; "peak_basis"].

Lemma bind_artifact_spec base row key row' : bind_artifact d base row key = Ok row' →
  (∀ k, k ≠ key → sget k row' = sget k row) ∧ bound (pget row' key).
Proof.
  unfold bind_artifact. intros (value & _ & (ref & Href & [= <-])%bind_Ok)%bind_Ok. split.
  - intros k Hk. rewrite sget_sset. by rewrite (proj2 (String.eqb_neq _ _) Hk).
  - rewrite pget_sset, String.eqb_refl. by eapply bound_file_bound.
Qed.

Lemma bind_artifacts_spec base row row' : fold_res (bind_artifact d base) row ARTIFACTS = Ok row' →
  (∀ k, k ∉ ARTIFACTS → sget k row' = sget k row) ∧ (∀ k, k ∈ ARTIFACTS → bound (pget row' k)).
Proof.
  apply (fold_res_hist (fun done r => (∀ k, k ∉ done → sget k r = sget k row) ∧ (∀ k, k ∈ done → bound (pget r k)))).
  - split; [done|]. by intros k Hk%elem_of_nil.
  - intros dones key rest r r' _ [Hkeep Hb] (Hk & Hnew)%bind_artifact_spec. split.
    + intros k Hk'. rewrite elem_of_app, list_elem_of_singleton in Hk'. rewrite Hk by tauto. apply Hkeep. tauto.
    + intros k [Hin| ->%list_elem_of_singleton]%elem_of_app; [|done]. destruct (decide (k = key)) as [->|Hne]; [done|].
      unfold pget. rewrite (Hk k Hne). by apply Hb.
Qed.

Lemma bind_constraints_spec base row row' : bind_constraints d base row = Ok row' →
  (∀ k, k ≠ "constraints" → sget k row' = sget k row) ∧
  ∃ refs, pget row' "constraints" = JArr (map JObj refs) ∧ refs ≠ [] ∧ Forall (fun r => bound (JObj r)) refs.
Proof.
  unfold bind_constraints. intros (value & _ & Hr)%bind_Ok. apply bind_Ok in Hr as (items & Hitems & Hr).
  apply bind_Ok in Hr as (refs & Hrefs%map_res_Ok & Hr). apply require_res_Ok in Hr as [_ Hr]. injection Hr as <-. split.
  - intros k Hk. rewrite sget_sset. by rewrite (proj2 (String.eqb_neq _ _) Hk).
  - exists refs. rewrite pget_sset. change (String.eqb "constraints" "constraints") with true. split; [done|]. split.
    + destruct value as [| | | | |[|v l]|]; try done. injection Hitems as <-. intros ->. by apply Forall2_nil_inv_r in Hrefs.
    + clear -Hrefs. induction Hrefs; constructor; [by eapply bound_file_bound|done].
Qed.

(** What [load_observation] goes through, with the record it ends with. *)
Lemma load_observation_inv p o : load_observation d p = Ok o →
  ∃ row0 row1 wd, read_record d p = Ok row0 ∧ identity_checks row0 = Ok wd ∧
    report_checks d row1 = Ok tt ∧ (∀ k, k ≠ "constraints" → sget k (data o) = sget k row1) ∧
    (∀ k, k ∉ "constraints" :: ARTIFACTS → sget k (data o) = sget k row0) ∧
    (∀ k, k ∈ ARTIFACTS → bound (pget (data o) k)) ∧
    (∃ refs, pget (data o) "constraints" = JArr (map JObj refs) ∧ refs ≠ [] ∧ Forall (fun r => bound (JObj r)) refs) ∧
    measured (data o) wd.2 = Ok (frequency_hz o, peak_tops o, rejection o) ∧ file_ref d p = Ok (evidence o).
Proof.
  unfold load_observation. intros (row0 & Hr0 & Hl)%bind_Ok. apply bind_Ok in Hl as (wd & Hwd & Hl).
  apply bind_Ok in Hl as (row1 & Hr1 & Hl). apply bind_Ok in Hl as ([] & Hrep & Hl).
  apply bind_Ok in Hl as (row2 & Hr2 & Hl). apply bind_Ok in Hl as ([[f q] rej] & Hm & Hl).
  apply bind_Ok in Hl as (ev & Hev & Hl). injection Hl as <-. cbn [data frequency_hz peak_tops rejection evidence].
  destruct (bind_artifacts_spec _ _ _ Hr1) as [Hk1 Hb1], (bind_constraints_spec _ _ _ Hr2) as [Hk2 Hb2].
  exists row0, row1, wd. split_and!; try done.
  - intros k [Hc Ha]%not_elem_of_cons. by rewrite Hk2, Hk1.
  - intros k Hk. unfold pget. rewrite Hk2; [by apply Hb1|]. intros ->. unfold ARTIFACTS in Hk.
    apply str_in_spec in Hk. done.
Qed.

Lemma profile_match_spec s wd : profile_match s = Some wd ↔ wd ∈ profiles ∧ s = profile_name wd.
Proof.
  unfold profile_match. split.
  - intros [Hin Heq]%find_some. apply String.eqb_eq in Heq. split; [by apply list_elem_of_In|done].
  - intros [Hin ->]. unfold profiles in *.
    repeat (apply elem_of_cons in Hin as [->|Hin]; [by vm_compute|]). by apply elem_of_nil in Hin.
Qed.

Lemma item_is_str_spec row key s : item_is_str row key s = Ok true ↔ sget key row = Some (JStr s).
Proof.
  unfold item_is_str. rewrite bind_Ok. setoid_rewrite item_Ok. split.
  - intros (v & Hv & Heq). assert (Ht : eq_str v s = true) by congruence. apply eq_str_spec in Ht. by subst.
  - intros Hs. exists (JStr s). split; [done|]. f_equal. by apply eq_str_spec.
Qed.

Lemma item_in_spec row key l : (let* x := item row key in Ok (in_strs x l)) = Ok true →
  ∃ s, sget key row = Some (JStr s) ∧ s ∈ l.
Proof.
  intros (v & Hv%item_Ok & Heq)%bind_Ok. assert (Ht : in_strs v l = true) by congruence.
  apply in_strs_spec in Ht as (s & -> & Hs). by exists s.
Qed.

Lemma identity_checks_inv row wd : identity_checks row = Ok wd →
  wd ∈ profiles ∧ pget row "profile" = JStr (profile_name wd) ∧ pget row "top" = JStr (top_name wd) ∧
  pget row "top_scope" = JStr "INTEGRATED" ∧ keys_are row FIELDS = true ∧
  (∃ kind, pget row "execution_kind" = JStr kind ∧ kind ∈ ["TOOL_EXECUTION"; "SYNTHETIC"]) ∧
  ∃ digest, pget row "hardware_contract_sha256" = JStr digest ∧ is_hex 64 digest = true.
Proof.
  unfold identity_checks. intros Hr. apply require_Ok in Hr as [Hkeys Hr]. apply require_res_Ok in Hr as [_ Hr].
  apply bind_Ok in Hr as (name & [Hname _]%text_spec & Hr). apply bind_Ok in Hr as (wd' & Hwd & Hr).
  destruct (profile_match name) as [wd0|] eqn:Em; [|done]. injection Hwd as ->. apply profile_match_spec in Em as [Hin ->].
  apply require_res_Ok in Hr as [[Hscope%item_is_str_spec Htop%item_is_str_spec]%and_then_Ok_true Hr].
  apply require_res_Ok in Hr as [Hkind Hr]. apply item_in_spec in Hkind as (kind & Hk & Hkin).
  apply require_res_Ok in Hr as [_ Hr]. apply bind_Ok in Hr as (digest & [Hdig _]%text_spec & Hr).
  apply require_Ok in Hr as [Hhex Hr].
  apply bind_Ok in Hr as (tv & _ & Hr). apply bind_Ok in Hr as (tool & _ & Hr). apply require_Ok in Hr as [_ Hr].
  apply bind_Ok in Hr as (s1 & _ & Hr). apply bind_Ok in Hr as (s2 & _ & Hr). apply bind_Ok in Hr as (u & _ & Hr).
  injection Hr as ->. unfold pget in *. rewrite Htop, Hscope, Hk. split_and!; try done; [by exists kind|by exists digest].
Qed.
End Observations.

(** ** What a passing observation promises *)

(** Everything the row must show for its clock to pass. *)
Record passes (row : record) : Prop := {
  pass_stage : pget row "timing_stage" = JStr "POST_ROUTE";
  pass_exit : pget row "tool_exit_code" = JInt 0;
  pass_setup : ∃ q, rational row "setup_slack_ns" = Ok q ∧ (0 <= q)%Qc;
  pass_hold : ∃ q, rational row "hold_slack_ns" = Ok q ∧ (0 <= q)%Qc;
  pass_timed : ∃ n, pget row "timed_paths" = JInt n ∧ 0 < n;
  pass_constrained : pget row "unconstrained_paths" = JInt 0;
  pass_fit : pget row "fit" = JBool true;
  pass_resources : ∃ usage limits, pget row "resource_usage" = JObj usage ∧ pget row "resource_limits" = JObj limits ∧
    usage ≠ [] ∧ (∀ k, k ∈ keys usage ↔ k ∈ keys limits) ∧
    ∀ k, k ∈ keys usage → ∃ u l, pget usage k = JInt u ∧ pget limits k = JInt l ∧ 0 <= u <= l;
}.

Lemma exceeds_fit_false usage limits k : exceeds_fit usage limits = Ok false → k ∈ keys usage →
  ∃ u l, pget usage k = JInt u ∧ pget limits k = JInt l ∧ 0 <= u <= l.
Proof.
  unfold exceeds_fit. induction (keys usage) as [|k' l' IH]; cbn; [by intros _ ?%elem_of_nil|].
  destruct (integer usage k' 0) as [u|] eqn:Eu; [|done]. cbn. destruct (integer limits k' 1) as [l|] eqn:El; [|done]. cbn.
  destruct (l <? u) eqn:Elt; [done|]. cbn. intros Hr [->|Hin]%elem_of_cons; [|by apply IH].
  apply integer_spec in Eu as [Eu Hu], El as [El Hl]. apply Z.ltb_ge in Elt. exists u, l. split_and!; [done|done|lia|lia].
Qed.

Lemma omap_none (l : list (string * bool)) :
  omap (fun '(name, failed) => if (failed : bool) then Some name else None) l = [] → Forall (fun e => e.2 = false) l.
Proof. induction l as [|[name []] l IH]; cbn; [done|done|]. intros H. constructor; [done|by apply IH]. Qed.

Lemma rejections_inv row exceeds : rejections row exceeds = Ok [] → pget row "fit" ≠ JNull →
  pget row "timing_stage" = JStr "POST_ROUTE" ∧ pget row "tool_exit_code" = JInt 0 ∧
  (∃ q, rational row "setup_slack_ns" = Ok q ∧ (0 <= q)%Qc) ∧ (∃ q, rational row "hold_slack_ns" = Ok q ∧ (0 <= q)%Qc) ∧
  (∃ n, pget row "timed_paths" = JInt n ∧ 0 < n) ∧ pget row "unconstrained_paths" = JInt 0 ∧
  truthy (pget row "fit") = true ∧ exceeds = false.
Proof.
  unfold rejections. intros (stage & Hst%pget_item & Hr)%bind_Ok _. apply bind_Ok in Hr as (code & [Hcode _]%integer_spec & Hr).
  apply bind_Ok in Hr as (setup & Hsetup & Hr). apply bind_Ok in Hr as (hold & Hhold & Hr).
  apply bind_Ok in Hr as (timed & [Htimed Ht0]%integer_spec & Hr). apply bind_Ok in Hr as (un & [Hun _]%integer_spec & Hr).
  apply bind_Ok in Hr as (fit & Hfit%pget_item & Hr). apply Ok_eq, omap_none in Hr.
  rewrite !Forall_cons in Hr. cbn [snd] in Hr. destruct Hr as (F1 & F2 & F3 & F4 & F5 & F6 & F7 & _).
  apply negb_false_iff, eq_str_spec in F1. apply negb_false_iff, Z.eqb_eq in F2, F6. apply Z.eqb_neq in F5.
  unfold qltb in F3, F4. apply negb_false_iff, qleb_le in F3, F4. apply orb_false_iff in F7 as [F7 F8].
  apply negb_false_iff in F7. rewrite Hst, Hcode, Htimed, Hun, Hfit, F1, F2, F6. split_and!; try done.
  - by exists setup.
  - by exists hold.
  - exists timed. split; [done|lia].
Qed.

Section Passing.
Context `{Host} `{Documents}.
Variable d : Disk.

Lemma measured_inv row dim f q rej : measured row dim = Ok (f, q, rej) →
  ∃ arrays macs, pget row "frequency_hz" = JInt f ∧ 1 <= f ∧ pget row "array_count" = JInt arrays ∧
    pget row "independent_macs_per_pe_per_cycle" = JInt macs ∧ (q * qz (10 ^ 12))%Qc = qz (2 * arrays * dim * dim * macs * f) ∧
    (rej = [] → passes row).
Proof.
  unfold measured. intros (f' & [Hf Hf1]%integer_spec & Hm)%bind_Ok. apply bind_Ok in Hm as (arrays & [Ha _]%integer_spec & Hm).
  apply bind_Ok in Hm as (macs & [Hmacs _]%integer_spec & Hm). apply bind_Ok in Hm as (fit & Hfit%pget_item & Hm).
  apply require_Ok in Hm as [Hbool Hm]. apply bind_Ok in Hm as (uv & Huv%pget_item & Hm).
  apply bind_Ok in Hm as (usage & ->%as_record_spec & Hm). apply bind_Ok in Hm as (lv & Hlv%pget_item & Hm).
  apply bind_Ok in Hm as (limits & ->%as_record_spec & Hm). apply require_Ok in Hm as [[Hne Hkeys]%andb_prop Hm].
  apply bind_Ok in Hm as (ex & Hex & Hm). apply bind_Ok in Hm as (reject & Hrej & Hm).
  apply bind_Ok in Hm as (peak & Hpeak & Hm). injection Hm as -> -> ->. exists arrays, macs.
  destruct (fraction_pos (2 * arrays * dim * dim * macs * f) (10 ^ 12) ltac:(done)) as (q' & Hq' & Hmul).
  assert (q' = q) as -> by congruence. split_and!; try done. intros ->.
  destruct (rejections_inv row ex Hrej) as (R1 & R2 & R3 & R4 & R5 & R6 & R7 & ->); [rewrite Hfit; by destruct fit|].
  constructor; try done.
  - rewrite Hfit in *. destruct fit as [|[]| | | | |]; done.
  - exists usage, limits. split_and!; [done|done|by destruct usage| |by intros k; apply exceeds_fit_false].
    by apply keys_are_spec.
Qed.

(** An observation that is not rejected is of an integrated top of a supported
    profile, after routing, and its row meets every limit; each artifact it
    names is a regular file of the recorded digest, what it measured is what
    the report of the tool says, and its peak is that of its geometry. *)
Theorem observation_passes p o : load_observation d p = Ok o → rejection o = [] →
  passes (data o) ∧
  ∃ wd arrays macs report name, wd ∈ profiles ∧ pget (data o) "profile" = JStr (profile_name wd) ∧
    pget (data o) "top_scope" = JStr "INTEGRATED" ∧ pget (data o) "top" = JStr (top_name wd) ∧
    pget (data o) "frequency_hz" = JInt (frequency_hz o) ∧ 1 <= frequency_hz o ∧
    pget (data o) "array_count" = JInt arrays ∧ pget (data o) "independent_macs_per_pe_per_cycle" = JInt macs ∧
    (peak_tops o * qz (10 ^ 12))%Qc = qz (2 * arrays * wd.2 * wd.2 * macs * frequency_hz o) ∧
    (∀ k, k ∈ ARTIFACTS → bound d (pget (data o) k)) ∧
    text (default [] (match pget (data o) "tool_report" with JObj l => Some l | _ => None end)) "path" = Ok name ∧
    read_record d (path_of name) = Ok report ∧
    ∀ k, k ∈ MEASUREMENTS → jeq (pget report k) (pget (data o) k) = true.
Proof.
  intros (row0 & row1 & wd & _ & Hid & Hrep & Hk1 & Hk0 & Hb & _ & Hm & _)%load_observation_inv Hrej.
  destruct (identity_checks_inv row0 wd Hid) as (Hwd & Hprof & Htop & Hscope & _).
  destruct (measured_inv _ _ _ _ _ Hm) as (arrays & macs & Hf & Hf1 & Ha & Hmacs & Hpeak & Hpass).
  split; [by apply Hpass|]. unfold report_checks in Hrep. apply bind_Ok in Hrep as (value & Hvalue & Hrep).
  apply bind_Ok in Hrep as (ref & ->%as_record_spec & Hrep). apply bind_Ok in Hrep as (name & Hname & Hrep).
  apply bind_Ok in Hrep as (report & Hreport & Hrep). apply require_res_Ok in Hrep as [_ Hrep].
  apply require_m_Ok, all_res_Ok_true in Hrep.
  assert (Hsame : ∀ k, k ∉ "constraints" :: ARTIFACTS → pget (data o) k = pget row0 k) by (intros k Hk; unfold pget; by rewrite Hk0).
  assert (Hrest : ∀ k, k ≠ "constraints" → pget (data o) k = pget row1 k) by (intros k Hk; unfold pget; by rewrite Hk1).
  exists wd, arrays, macs, report, name. rewrite (Hsame "profile"), (Hsame "top_scope"), (Hsame "top") by
    (rewrite <- str_in_spec; done).
  rewrite (Hrest "tool_report") by done. rewrite (pget_item _ _ _ Hvalue). split_and!; try done.
  intros k Hk. rewrite Hrest by (intros ->; apply str_in_spec in Hk; done).
  rewrite Forall_forall in Hrep. specialize (Hrep k Hk). unfold same_item in Hrep.
  apply bind_Ok in Hrep as (x & Hx%pget_item & Hrep). apply bind_Ok in Hrep as (y & Hy%pget_item & Hrep).
  rewrite Hx, Hy. congruence.
Qed.
End Passing.

(** ** The best of a list *)

Section Best.
Context {A : Type} (better : A → A → bool).
Hypothesis better_irrefl : ∀ x, better x x = false.
Hypothesis better_asym : ∀ x y, better x y = true → better y x = false.
Hypothesis better_trans : ∀ x y z, better y x = false → better z y = false → better z x = false.

Lemma best_spec l : ∀ x, best better x l ∈ x :: l ∧ ∀ y, y ∈ x :: l → better y (best better x l) = false.
Proof.
  induction l as [|c l IH]; intros x; cbn [best fold_left].
  - split; [by constructor|]. by intros y ->%list_elem_of_singleton.
  - change (fold_left _ l ?z) with (best better z l).
    destruct (IH (if better c x then c else x)) as [Hin Hbest]. split.
    + apply elem_of_cons in Hin as [->|Hin]; [destruct (better c x); set_solver|set_solver].
    + assert (Hx : better x (best better (if better c x then c else x) l) = false ∧
                   better c (best better (if better c x then c else x) l) = false).
      { destruct (better c x) eqn:E; (split; [|]).
        - eapply better_trans; [apply Hbest; by constructor|by apply better_asym].
        - apply Hbest. by constructor.
        - apply Hbest. by constructor.
        - eapply better_trans; [apply Hbest; by constructor|done]. }
      intros y [->|[->|Hy]%elem_of_cons]%elem_of_cons; [apply Hx..|]. apply Hbest. by constructor.
Qed.
End Best.

Lemma nearer_false goal x y : nearer goal x y = false ↔
  (distance (peak_tops y) goal <= distance (peak_tops x) goal)%Qc ∧
  ((distance (peak_tops x) goal <= distance (peak_tops y) goal)%Qc → frequency_hz y <= frequency_hz x).
Proof.
  unfold nearer. cbv zeta. rewrite orb_false_iff, andb_false_iff. unfold qltb. rewrite negb_false_iff, qleb_le, Z.ltb_ge.
  rewrite <- not_true_iff_false, qleb_le. destruct (decide (frequency_hz y <= frequency_hz x)); [tauto|].
  split; [|tauto]. intros [? [?|?]]; [split; [done|by intros ?]|done].
Qed.
Lemma nearer_best goal x l :
  best (nearer goal) x l ∈ x :: l ∧ ∀ y, y ∈ x :: l → nearer goal y (best (nearer goal) x l) = false.
Proof.
  apply best_spec.
  - intros z. apply nearer_false. split; [apply Qcle_refl|done].
  - intros u v Huv. apply nearer_false. apply not_false_iff_true in Huv. rewrite nearer_false in Huv.
    destruct (Qclt_le_dec (distance (peak_tops u) goal) (distance (peak_tops v) goal)) as [Hlt|Hle].
    + split; [by apply Qclt_le_weak|]. intros Hge. by destruct (Qcle_not_lt _ _ Hge).
    + destruct (Qclt_le_dec (distance (peak_tops v) goal) (distance (peak_tops u) goal)) as [Hlt|Hge].
      * exfalso. apply Huv. split; [done|]. intros Hge. by destruct (Qcle_not_lt _ _ Hge).
      * split; [done|]. intros _. destruct (decide (frequency_hz v <= frequency_hz u)); [|lia]. exfalso. by apply Huv.
  - intros u v w. rewrite !nearer_false. intros [H1 H2] [H3 H4]. split; [by eapply Qcle_trans|]. intros H5.
    assert (frequency_hz u <= frequency_hz v) by (apply H2; by eapply Qcle_trans).
    assert (frequency_hz v <= frequency_hz w) by (apply H4; by eapply Qcle_trans). lia.
Qed.
Lemma faster_best x l : best faster x l ∈ x :: l ∧ ∀ y, y ∈ x :: l → frequency_hz y <= frequency_hz (best faster x l).
Proof.
  destruct (best_spec faster) with (x := x) (l := l) as [Hin Hb].
  - intros z. apply Z.ltb_irrefl.
  - unfold faster. intros u v ?%Z.ltb_lt. apply Z.ltb_ge. lia.
  - unfold faster. intros u v w ?%Z.ltb_ge ?%Z.ltb_ge. apply Z.ltb_ge. lia.
  - split; [done|]. intros y Hy. specialize (Hb y Hy). by apply Z.ltb_ge in Hb.
Qed.

Lemma insert_z_perm z l : insert_z z l ≡ₚ z :: l.
Proof. induction l as [|y l IH]; cbn; [done|]. destruct (z <=? y); [done|]. rewrite IH. apply Permutation_swap. Qed.
Lemma sorted_perm l : sorted l ≡ₚ l.
Proof. induction l as [|z l IH]; cbn; [done|]. by rewrite insert_z_perm, IH. Qed.

(** The observations whose clock passed, in the order of the paths. *)
Definition passing (observations : list Observation) : list Observation :=
  List.filter (fun item => is_nil (rejection item)) observations.
Lemma passing_spec o l : o ∈ passing l ↔ o ∈ l ∧ rejection o = [].
Proof.
  unfold passing. rewrite !list_elem_of_In, filter_In. destruct (rejection o); naive_solver.
Qed.

(** What is chosen among the clocks that passed: the nearest to the goal when
    one reaches it, of two as near the slower, and otherwise the fastest. *)
Definition chosen (goal : Qc) (valid : list Observation) (o : Observation) : Prop :=
  o ∈ valid ∧
  if existsb (fun item => qleb goal (peak_tops item)) valid then
    ∀ o', o' ∈ valid → (distance (peak_tops o) goal <= distance (peak_tops o') goal)%Qc ∧
      (distance (peak_tops o') goal = distance (peak_tops o) goal → frequency_hz o <= frequency_hz o')
  else ∀ o', o' ∈ valid → frequency_hz o' <= frequency_hz o.

Lemma choose_spec goal x l : chosen goal (x :: l) (choose goal x l).2.
Proof.
  unfold choose, chosen. cbv zeta. cbn [snd]. destruct (existsb _ (x :: l)) eqn:E.
  - destruct (nearer_best goal x l) as [Hin Hb]. split; [done|]. intros o' Ho'.
    destruct (proj1 (nearer_false _ _ _) (Hb o' Ho')) as [Hd Hf]. split; [done|]. intros Heq. apply Hf. rewrite Heq. apply Qcle_refl.
  - apply faster_best.
Qed.

Section Selected.
Context `{Host} `{Documents}.
Variable d : Disk.

Lemma expected_target_spec target basis goal : expected_target (Some target) basis = Ok goal →
  ∃ q, goal = Some q ∧ parse_fraction target = Ok q ∧ (0 < q)%Qc.
Proof.
  unfold expected_target. intros (q & Hq & Hr)%bind_Ok. apply require_Ok in Hr as [[Hpos _]%andb_prop Hr].
  injection Hr as <-. exists q. apply qltb_lt in Hpos. split_and!; [done| |done].
  destruct (parse_fraction target) as [q'|e]; [congruence|by destruct e].
Qed.

(** The clock that is selected is the best of those that passed, for the goal
    it was asked for; without one that passed none is selected. *)
Theorem selected_clock_best paths target basis out :
  select_clock d paths (Some target) basis = Ok out →
  ∃ observations goal, map_res (load_observation d) paths = Ok observations ∧ parse_fraction target = Ok goal ∧
    NoDup (map frequency_hz observations) ∧
    match passing observations with
    | [] => pget out "status" = JStr "NOT_READY" ∧ pget out "selected" = JNull
    | valid => ∃ o, chosen goal valid o ∧ pget out "selected" = JObj (data o) ∧
        pget out "selected_frequency_hz" = JInt (frequency_hz o) ∧
        pget out "achieved_peak_tops" = JStr (show_fraction (peak_tops o)) ∧
        pget out "gap_tops" = JStr (show_fraction (peak_tops o - goal))
    end.
Proof.
  unfold select_clock. intros Hs. apply require_Ok in Hs as [_ Hs]. apply bind_Ok in Hs as (observations & Hobs & Hs).
  unfold select_observed in Hs. destruct observations as [|first rest] eqn:Eo; [done|]. rewrite <- Eo in *.
  apply require_res_Ok in Hs as [_ Hs]. apply require_Ok in Hs as [Hd Hs].
  apply bind_Ok in Hs as (expected & (goal & -> & Hgoal & _)%expected_target_spec & Hs).
  apply bind_Ok in Hs as (profile & _ & Hs). exists observations, goal. split_and!; [done|done| |].
  - apply distinct_z in Hd. by rewrite sorted_perm in Hd.
  - fold (passing observations) in Hs. destruct (passing observations) as [|x valid].
    + injection Hs as <-. done.
    + pose proof (choose_spec goal x valid) as Hc. destruct (choose goal x valid) as [reach selected]. cbn [snd] in Hc.
      apply bind_Ok in Hs as (kind & _ & Hs). apply Ok_eq in Hs. exists selected. rewrite <- Hs. unfold pget, merge_records.
      rewrite !sget_merge by (apply (proj1 (distinct_str _)); reflexivity). done.
Qed.
End Selected.

(** ** Evaluated on inputs *)

Definition sample_core : string :=
  "// core" +:+ newline +:+ "module IM2PGemminiWSHP1A8W8D16(" +:+ newline +:+
  "  input clock, RST_N /* low */, input [31:0] io_in, output wire [7:0] io_out);" +:+ newline +:+
  "  always_ff @(posedge clock or negedge RST_N) begin end" +:+ newline +:+ "endmodule" +:+ newline.

Example sample_wrapper :
  wrap_core sample_core "a8w8-d16-hp1" = Ok
    ("module PoTalEvaluationOoc(" +:+ newline +:+ "  input CLK," +:+ newline +:+ "  input RST_N," +:+ newline +:+
     "  input [31:0] io_in," +:+ newline +:+ "  output [7:0] io_out);" +:+ newline +:+
     "IM2PGemminiWSHP1A8W8D16 core(" +:+ newline +:+ "  .clock(CLK)," +:+ newline +:+ "  .RST_N(RST_N)," +:+ newline +:+
     "  .io_in(io_in)," +:+ newline +:+ "  .io_out(io_out));" +:+ newline +:+ "endmodule" +:+ newline,
     "ASYNC_RST_N_SOURCE_EVENT_PROVEN").
Proof. vm_compute. reflexivity. Qed.

Example sample_constraint :
  constraints 300000000 "NO_ASYNC_RST_N_EXCLUSION" =
    Ok ("create_clock -name core_clk -period 3.33333333333333333333333333333 [get_ports CLK]" +:+ newline).
Proof. vm_compute. reflexivity. Qed.

Example sample_resources :
  resources ("| Site Type | Used | Available |" +:+ newline +:+ "| CLB LUTs* | 1,200 | 1,728,000 |" +:+ newline +:+
             "| CLB Registers | 10 | 3456000 |" +:+ newline +:+ "| Block RAM Tile | 1.5 | 2688 |" +:+ newline +:+
             "| DSPs | 0 | 12288 |" +:+ newline +:+ "| URAM | 0 | 1280 |") =
  Ok ([("LUT", JInt 1200); ("FF", JInt 10); ("BRAM18_EQUIVALENTS", JInt 3); ("DSP", JInt 0); ("URAM", JInt 0)],
      [("LUT", JInt 1728000); ("FF", JInt 3456000); ("BRAM18_EQUIVALENTS", JInt 5376); ("DSP", JInt 12288); ("URAM", JInt 1280)]).
Proof. vm_compute. reflexivity. Qed.

(** ** The clock an evaluation runs on *)

(** An item of an object is equal to the item of that key of an equal object. *)
Lemma jeq_item a b k v : jeq (JObj a) (JObj b) = true → sget k a = Some v → ∃ w, sget k b = Some w ∧ jeq v w = true.
Proof.
  cbn [jeq]. intros [_ Hgo]%andb_prop. revert Hgo. induction a as [|[k' x] a IH]; [done|]. intros [Hx Hgo]%andb_prop. cbn [aget].
  destruct (String.eqb_spec k k') as [->|]; [|by apply IH]. intros [= ->]. destruct (sget k' b) as [w|]; [by exists w|done].
Qed.

Section Operating.
Context `{Host} `{Documents} `{JsonText}.
Variable policy_path : Path.
Variable d : Disk.

Lemma select_ooc_inv samples sweep out : select_ooc policy_path d samples sweep = Ok out →
  ∃ paths selection basis, map_res (verify_sample policy_path d) samples = Ok paths ∧
    select_clock d paths (Some "33") (Some basis) = Ok selection ∧
    pget out "selected_frequency_hz" = pget selection "selected_frequency_hz" ∧
    pget out "selected" = pget selection "selected" ∧
    (pget out "status" = JStr "PASS" → pget selection "status" ≠ JStr "NOT_READY").
Proof.
  unfold select_ooc. intros (current & _ & Hs)%bind_Ok. apply bind_Ok in Hs as (summary & _ & Hs).
  apply bind_Ok in Hs as (attempts & _ & Hs). apply bind_Ok in Hs as (paths & Hpaths & Hs).
  apply bind_Ok in Hs as (passed & _ & Hs). apply require_res_Ok in Hs as [_ Hs]. apply bind_Ok in Hs as (basis & _ & Hs).
  apply bind_Ok in Hs as (selection & Hsel & Hs). apply bind_Ok in Hs as (status & Hstatus%pget_item & Hs).
  apply bind_Ok in Hs as (pr & _ & Hs). apply bind_Ok in Hs as (sr & _ & Hs). apply bind_Ok in Hs as (wr & _ & <-%Ok_eq).
  exists paths, selection, basis. split; [done|]. split; [done|].
  rewrite !pget_merge by (rewrite <- str_in_spec; done).
  destruct (eq_str status "DIAGNOSTIC_ONLY") eqn:E.
  - rewrite !pget_sset. split; [done|]. split; [done|]. intros _. apply eq_str_spec in E. rewrite Hstatus, E. done.
  - split; [done|]. split; [done|]. intros ->. done.
Qed.

(** An operating clock that loads is the best of the clocks that passed among
    the verified samples it names: every sample verifies, each of its
    observations loads, and the frequency is that of the observation chosen for
    the goal of 33 TOPS, which meets every limit. *)
Theorem operating_clock_sound p profile sel : load_operating_clock policy_path d p profile = Ok sel →
  ∃ samples paths observations goal o, map_res (verify_sample policy_path d) samples = Ok paths ∧
    map_res (load_observation d) paths = Ok observations ∧ parse_fraction "33" = Ok goal ∧
    chosen goal (passing observations) o ∧ passes (data o) ∧
    selection_frequency_hz sel = frequency_hz o ∧ selection_profile sel = profile.
Proof.
  unfold load_operating_clock. intros (document & _ & Hl)%bind_Ok. apply require_Ok in Hl as [[[_ Hst]%andb_prop _]%andb_prop Hl].
  apply require_res_Ok in Hl as [_ Hl]. apply bind_Ok in Hl as (value & _ & Hl). apply bind_Ok in Hl as (references & _ & Hl).
  apply bind_Ok in Hl as (samples & _ & Hl). apply bind_Ok in Hl as (sv & _ & Hl). apply bind_Ok in Hl as (sweep & _ & Hl).
  apply require_res_Ok in Hl as [Heq Hl]. apply bind_Ok in Heq as (out & Hout & [= Heq]).
  apply bind_Ok in Hl as (selv & _ & Hl). apply bind_Ok in Hl as (selected & _ & Hl).
  apply bind_Ok in Hl as (f & [Hf _]%integer_spec & Hl). apply bind_Ok in Hl as (digest & _ & Hl).
  apply bind_Ok in Hl as (contract & _ & <-%Ok_eq). cbn [selection_frequency_hz selection_profile].
  apply select_ooc_inv in Hout as (paths & selection & basis & Hpaths & Hsel & Efreq & _ & Hpass).
  apply selected_clock_best in Hsel as (observations & goal & Hobs & Hgoal & _ & Hbest).
  exists samples, paths, observations, goal. apply eq_str_spec in Hst.
  assert (Hitem : ∀ k v, pget document k = v → v ≠ JNull → jeq v (pget out k) = true).
  { intros k v Hv Hne. unfold pget in Hv |- *. destruct (sget k document) as [v'|] eqn:E; cbn in Hv; [|congruence]. subst v'.
    by destruct (jeq_item _ _ _ _ Heq E) as (w & -> & ?). }
  pose proof (Hitem "status" _ Hst ltac:(done)) as Hs. pose proof (Hitem "selected_frequency_hz" _ Hf ltac:(done)) as Hfreq.
  assert (Estatus : pget out "status" = JStr "PASS").
  { destruct (pget out "status"); try done. by apply String.eqb_eq in Hs as <-. }
  specialize (Hpass Estatus). destruct (passing observations) as [|x valid] eqn:Ep; [by destruct Hbest as [? _]|].
  destruct Hbest as (o & Hchosen & _ & Ho & _). exists o. split_and!; try done.
  - assert (Hin : o ∈ passing observations) by (rewrite Ep; apply Hchosen).
    apply passing_spec in Hin as [Hin Hrej]. apply map_res_Ok in Hobs. apply list_elem_of_lookup in Hin as [i Hi].
    destruct (Forall2_lookup_r _ _ _ _ _ Hobs Hi) as (path & _ & Hload). by destruct (observation_passes d path o Hload Hrej).
  - rewrite Efreq, Ho in Hfreq. by apply Z.eqb_eq in Hfreq.
Qed.
End Operating.
